(* ===== verification/_CoqProject ===== *)
-Q . S2P
Prelude.v
Refine.v
Ring.v
Input.v
Timer.v
Keyboard.v
Utf8.v
FileSystem.v
Disk.v
Ata.v
Fd.v
FrameAlloc.v
FrameCount.v
UserRange.v
Tar.v
TarFormat.v
Ext2.v
Ext2Bits.v
Ext2Dir.v
Ext2View.v
Ext2Read.v
Ext2Write.v
Ext2Ops.v
Ext2File.v
Ext2Trip.v
Ext2Volume.v
Ext2Example.v
Paging.v
Heap.v
Scheduler.v
SchedulerProps.v
Kernel.v
KernelOk.v
KernelInv.v
KernelProps.v
Interrupts.v
UserProgram.v
ProgramImage.v
ProgramLoad.v
Syscall.v
SyscallOk.v
SyscallProps.v
Ext2Props.v
LineEdit.v
Chars.v
TextEdit.v
ShellParse.v
Font.v
Framebuffer.v
Pixels.v
Terminal.v
ConsoleSafe.v
EditorView.v
Shell.v
ShellRun.v
ShellOk.v
ShellProps.v
ShellFds.v
ShellApps.v
