(* ===== verification/Prelude.v ===== *)
(** * LeafOS kernel: verification development

    A shallow embedding of the Rust kernel under [src/src/kernel/src], and the theorems
    that make its parts correct.

    ** How code is translated

    Integers of the source are [Z] (or [nat] for indices) with their widths written out:
    [checked_add], [wrapping_add] and the like take the limit of the type.  A function
    that returns [Result] has an [outcome]: [Ok], [Err] or [Panic]; an index out of range,
    a failed [assert!] or [expect] is a [Panic], so that its absence is a theorem.
    Stateful code is an [Op S E A], a state-passing monad over [outcome].  Loops that are
    not structural carry fuel taken from their input, and a lemma next to each shows that
    the fuel is never used up ([while_loop_ends], [parse_ends]); the theorems never
    speak only of runs that happen to return.  Code of crates is a class of operations with
    its documented laws ([Mapper] for the page tables of x86_64, [DirectMap] for copies
    through the direct map, [LinkedHeap] for linked_list_allocator, [Ports] and [DriveLaws]
    for the ATA drive), and an example instance shows that the laws can hold.

    ** The parts and their files

    - Bytes from the keyboard: [Ring] (the circular buffers of [tasking/fd.rs] and
      [drivers/input.rs]), [Input] ([drivers/input.rs], and the lock-free key queue of
      [shell/mod.rs] with the interrupts that interleave), [Keyboard]
      ([drivers/keyboard.rs]), [Timer] ([time/timer.rs]), [Interrupts]
      ([arch/interrupts.rs]).
    - Disk and file systems: [FileSystem] (the interface of [fs/ext2.rs] its callers use and
      its contract), [Disk] (sector devices), [Ata] ([drivers/ata.rs]), [Tar] ([fs/mod.rs])
      and [TarFormat] (the format of the archive, independent of the code), and [fs/ext2.rs] in [Ext2] (the code), [Ext2Bits] (fields and bitmaps), [Ext2Dir]
      (directory blocks), [Ext2View] and [Ext2Read] (what reading computes), [Ext2Write],
      [Ext2Ops] and [Ext2File] (transactions, allocation, [write_file]), [Ext2Trip] and
      [Ext2Volume] (the volume after a write), [Ext2Example] and [Ext2Props].
      [Refine] is the logic these proofs use: [runs w op Q X].
    - Memory: [FrameAlloc] and [FrameCount] (frame allocator of [memory/mod.rs]),
      [Paging] (memory manager and address spaces), [UserRange] (user buffers), [Heap]
      ([memory/heap.rs]).
    - Tasks: [Fd] ([tasking/fd.rs]), [Scheduler] and [SchedulerProps] (the task table of
      [tasking/scheduler.rs]), [Kernel] (its global functions, on tasks, descriptors,
      address spaces and processor), [KernelOk], [KernelInv] and [KernelProps] (the
      invariant of the kernel and its reachable states).
    - Programs and system calls: [Utf8], [UserProgram] ([user_program.rs]), [ProgramImage],
      [ProgramLoad], [Syscall] ([arch/syscall.rs]), [SyscallOk], [SyscallProps].
    - The console: [Font] ([misc/font.rs]), [Framebuffer] ([console/framebuffer.rs]), [Pixels]
      (what drawing does to the pixels), [Terminal] (the screen as the text printed on it),
      [ConsoleSafe] (indices in range), [EditorView] (the screen of the text editor).
    - The shell ([shell/mod.rs]): [LineEdit] (the command line and its history), [Chars] (the
      characters of UTF-8 text), [TextEdit] (the text editor), [ShellParse] (commands, paths
      and redirections), [Shell] (starting and following programs), [ShellRun] (the commands and
      the loop over the keys), [ShellOk] and [ShellProps] (its invariant), [ShellFds] (its
      descriptors), [ShellApps] (the programs it follows).

    A state of the kernel ([Kernel.v]) holds the task table, the descriptor store, the
    memory manager and the processor; a system call is an operation on it, and
    [Ext2Props.ext2_meets_contract] discharges the file system contract the system calls
    are proved against.  [Ata.ata_device_laws] discharges that of the sector device for the states
    in which the drive is ready, of a drive that answers within the time the driver waits.
    The shell is a task of the same kernel: its rounds alternate with steps of the others.

    ** What the theorems show

    - Frames are never handed out twice, and counting the free ones is exact.
    - In every reachable state of the kernel the processor uses the page tables of the
      running task, descriptors are counted exactly, and a context switch saves and
      restores registers, stacks and page tables.  That no two tasks share a page table is
      not claimed.
    - No system call but [spawn] and [wait] panics in any reachable state, and a bad address
      changes nothing; pipes are byte streams; programs are loaded as their image says.
    - The archive is accepted exactly when it has the format of [TarFormat]; reading the
      volume computes what its format says.
    - Whatever the disk holds, no operation of ext2 panics.  [write_file] on a consistent
      volume keeps it consistent, leaves the other files and reads back, except after an error
      in the recovery of a failed write ([RecoveryFailed]), after which nothing is claimed.
    - Transfers of the disk driver move exactly the sectors asked for, from a drive that is
      ready and back to one.
    - The heap stays in its region and its allocations end.
    - On screens of up to 256 columns and rows what is printed is on the screen pixel for
      pixel, through scrolling and paging, and so is the page of the text editor.
    - The command line, the editor and the parser of commands agree with short reference
      definitions.  No round of the shell panics in the shell's own code; starting programs returns the
      descriptors it opened, but for one path of a redirected pipeline; the shell follows
      exactly the programs that have not ended.

    ** Bounds

    Machine integers have the widths of x86_64.  [MAX_TASKS], the capacities of buffers and
    pipes and the wait limit of the disk driver are those of the source.

    ** Not modelled

    The VGA and serial consoles, the interrupt controller, the descriptor
    tables of the processor, the boot loader (C against UEFI) and assembly: they write to devices
    or are code of the firmware.  Operations that run under one lock with interrupts disabled are single steps;
    the spin lock itself ([sync.rs]) is not modelled.  A round of the shell is not preempted, and
    text that it prints with [{:?}] is an event with the value instead of its characters.
    Allocations that report an error ([try_reserve]) may fail at any point; the two that do not
    ([vec!] in [zeroed_block] of [fs/ext2.rs] and in [create_task_stack] of
    [tasking/scheduler.rs]) halt the kernel when there is no room. *)

From stdpp Require Export prelude gmap.

(** ** Outcomes of Rust code

    A Rust function of type [Result<A, E>] returns [Ok] or [Err]; an
    out-of-range index, a failed [assert!] or an [expect] on [None] panics.
    The panic is a value of its own, so that its absence can be proved. *)

Inductive outcome (E A : Type) : Type :=
| Ok (a : A)
| Err (e : E)
| Panic.

Arguments Ok {E A} a.
Arguments Err {E A} e.
Arguments Panic {E A}.

#[export] Instance outcome_ret {E} : MRet (outcome E) := fun A a => Ok a.
#[export] Instance outcome_bind {E} : MBind (outcome E) :=
  fun A B k m => match m with Ok a => k a | Err e => Err e | Panic => Panic end.

#[export] Instance outcome_eq_dec {E A} `{EqDecision E, EqDecision A} :
  EqDecision (outcome E A).
Proof. solve_decision. Defined.

(** [option::ok_or], [Option::expect] / slice indexing, [Result::map_err]. *)
Definition ok_or {E A} (o : option A) (e : E) : outcome E A :=
  match o with Some a => Ok a | None => Err e end.

Definition expect {E A} (o : option A) : outcome E A :=
  match o with Some a => Ok a | None => Panic end.

Definition map_err {E F A} (f : E -> F) (m : outcome E A) : outcome F A :=
  match m with Ok a => Ok a | Err e => Err (f e) | Panic => Panic end.

Definition is_ok {E A} (m : outcome E A) : bool :=
  match m with Ok _ => true | _ => false end.

(** ** State and error monad

    A method on [&mut self] that returns [Result<A, E>]: the new state is kept
    when the method returns early with an error. *)

Definition Op (S E A : Type) : Type := S -> S * outcome E A.

#[export] Instance op_ret {S E} : MRet (Op S E) := fun A a s => (s, Ok a).
#[export] Instance op_bind {S E} : MBind (Op S E) :=
  fun A B k m s =>
    match m s with
    | (s', Ok a) => k a s'
    | (s', Err e) => (s', Err e)
    | (s', Panic) => (s', Panic)
    end.

Definition get {S E} : Op S E S := fun s => (s, Ok s).
Definition put {S E} (s' : S) : Op S E unit := fun _ => (s', Ok tt).
Definition modify {S E} (f : S -> S) : Op S E unit := fun s => (f s, Ok tt).
Definition gets {S E A} (f : S -> A) : Op S E A := fun s => (s, Ok (f s)).
Definition lift {S E A} (m : outcome E A) : Op S E A := fun s => (s, m).
Definition fail {S E A} (e : E) : Op S E A := fun s => (s, Err e).
Definition panic {S E A} : Op S E A := fun s => (s, Panic).

(** [op.map_err(f)]. *)
Definition map_error {S E F A} (f : E -> F) (op : Op S E A) : Op S F A := fun s =>
  let '(s, r) := op s in (s, map_err f r).

(** [preserves I m]: the operation keeps the invariant on every path, the
    ones that return an error included. *)
Definition preserves {S E A} (I : S -> Prop) (m : Op S E A) : Prop :=
  forall s, I s -> I (m s).1.

(** An [expect] on the result of a call. *)
Definition or_panic {S E A} (op : Op S E A) : Op S E A := fun s =>
  match op s with
  | (s, Err _) => (s, Panic)
  | r => r
  end.

(** ** Machine integers

    [u8], [u16], [u32], [u64] and [usize] values are elements of [Z] in their
    range; [usize] is 64 bits wide on the target ([x86_64-leafos.json]). *)

Abbreviation u8_limit := 256%Z.
Abbreviation u16_limit := 65536%Z.
Abbreviation u32_limit := 4294967296%Z.
Abbreviation u64_limit := 18446744073709551616%Z.

Definition checked_add (limit x y : Z) : option Z :=
  if (x + y <? limit)%Z then Some (x + y)%Z else None.
Definition checked_sub (x y : Z) : option Z :=
  if (y <=? x)%Z then Some (x - y)%Z else None.
Definition checked_mul (limit x y : Z) : option Z :=
  if (x * y <? limit)%Z then Some (x * y)%Z else None.
Definition wrapping_add (limit x y : Z) : Z := ((x + y) mod limit)%Z.
Definition wrapping_sub (limit x y : Z) : Z := ((x - y) mod limit)%Z.
Definition saturating_sub (x y : Z) : Z := Z.max 0 (x - y).
Definition saturating_add (limit x y : Z) : Z := Z.min (limit - 1) (x + y).

(** A byte is an integer below 256, a buffer a list of them. *)
Definition is_byte (b : Z) : Prop := (0 <= b < 256)%Z.
#[export] Instance is_byte_dec b : Decision (is_byte b).
Proof. unfold is_byte. apply _. Defined.

Definition bytes_ok (l : list Z) : Prop := Forall is_byte l.

(** ** Iterator helpers *)

(** [Iterator::position]. *)
Fixpoint position {A} (p : A -> bool) (l : list A) : option nat :=
  match l with
  | [] => None
  | x :: l => if p x then Some 0 else S <$> position p l
  end.

(** [Iterator::rposition] on a slice, [Iterator::take_while], and what it leaves. *)
Definition rposition {A} (p : A -> bool) (l : list A) : option nat :=
  i ← position p (reverse l); Some (length l - 1 - i).

Fixpoint take_while {A} (p : A -> bool) (l : list A) : list A :=
  match l with
  | [] => []
  | x :: l => if p x then x :: take_while p l else []
  end.

Fixpoint drop_while {A} (p : A -> bool) (l : list A) : list A :=
  match l with
  | [] => []
  | x :: l' => if p x then drop_while p l' else l
  end.

(** [path.as_bytes().split(|byte| *byte == b'/')]. *)
Fixpoint split_slash (l : list Z) : list (list Z) :=
  match l with
  | [] => [[]]
  | b :: l =>
      if (b =? 47)%Z then [] :: split_slash l
      else match split_slash l with
           | [] => [[b]]
           | c :: cs => (b :: c) :: cs
           end
  end.

Definition is_none {A} (o : option A) : bool :=
  match o with None => true | Some _ => false end.

Definition is_some_and {A} (o : option A) (p : A -> bool) : bool :=
  match o with None => false | Some a => p a end.

(** Number of elements that satisfy a test. *)
Fixpoint count {A} (p : A -> bool) (l : list A) : nat :=
  match l with
  | [] => 0
  | x :: l => (if p x then 1 else 0) + count p l
  end.

(** [dst[off..off + src.len()].copy_from_slice(src)], in range. *)
Definition splice {A} (dst : list A) (off : nat) (src : list A) : list A :=
  take off dst ++ src ++ drop (off + length src) dst.

(** [&l[a..b]], in range. *)
Definition slice {A} (l : list A) (a b : nat) : list A := take (b - a) (drop a l).

(** [l.get(a..b)]: the sub-slice, when the range is within the slice. *)
Definition get_range {A} (l : list A) (a b : Z) : option (list A) :=
  if ((0 <=? a) && (a <=? b) && (b <=? Z.of_nat (length l)))%Z
  then Some (slice l (Z.to_nat a) (Z.to_nat b)) else None.

(** [&l[a..b]] and [dst[off..off + src.len()].copy_from_slice(src)], which panic out of
    range. *)
Definition index_range {E} (l : list Z) (a b : Z) : outcome E (list Z) := expect (get_range l a b).

Definition copy_at {E} (dst : list Z) (off : nat) (src : list Z) : outcome E (list Z) :=
  if (off + length src <=? length dst)%nat then Ok (splice dst off src) else Panic.

(** A little-endian integer. *)
Fixpoint le_decode (l : list Z) : Z :=
  match l with
  | [] => 0
  | b :: l => b + 256 * le_decode l
  end%Z.

Fixpoint le_encode (n : nat) (x : Z) : list Z :=
  match n with
  | 0 => []
  | S n => (x mod 256)%Z :: le_encode n (x / 256)%Z
  end.

(** ** Loops *)

(** [for x in l { f(x)?; }]. *)
Fixpoint for_each {E A} (l : list A) (f : A -> outcome E unit) : outcome E unit :=
  match l with
  | [] => Ok tt
  | x :: l => _ ← f x; for_each l f
  end.

(** [for x in l { f(x)?; }] with a body that changes the state. *)
Fixpoint for_op {S E A} (l : list A) (f : A -> Op S E unit) : Op S E unit :=
  match l with
  | [] => mret tt
  | x :: l => _ ← f x; for_op l f
  end.

(** At most [n] rounds of a loop whose body continues with a state ([inl]) or
    ends with a result ([inr]). *)
Fixpoint rounds {S R} (n : nat) (body : S -> S + R) (s : S) : S + R :=
  match n with
  | 0 => inl s
  | S n => match body s with inl s => rounds n body s | inr r => inr r end
  end.

(** The same with a binary bound, so that a loop with a large bound runs. *)
Fixpoint while_pos {S R} (fuel : positive) (body : S -> S + R) (s : S) : S + R :=
  match fuel with
  | xH => body s
  | xO p => match while_pos p body s with inl s => while_pos p body s | inr r => inr r end
  | xI p =>
      match body s with
      | inl s => match while_pos p body s with inl s => while_pos p body s | inr r => inr r end
      | inr r => inr r
      end
  end.

(** A [while] loop; [None] when [fuel] rounds are not enough. *)
Definition while_loop {S R} (fuel : Z) (body : S -> S + R) (s : S) : option R :=
  match while_pos (Z.to_pos fuel) body s with inl _ => None | inr r => Some r end.

(** ** Automation *)

Create HintDb leaf.

#[global] Arguments Nat.modulo : simpl never.
#[global] Arguments Nat.div : simpl never.
#[global] Arguments Nat.land : simpl never.
#[global] Arguments Nat.sub : simpl never.
Create Rewrite HintDb len.

#[export] Hint Rewrite @length_app @length_take @length_drop @length_replicate
  @length_insert @length_fmap @length_reverse : len.

Ltac len := simpl in *; autorewrite with len in *; simpl in *; try lia.

(** Case analysis on every [match]/[if] of a hypothesis or of the goal. *)
Ltac cases :=
  repeat (case_match; simplify_eq/=; try done).

(** Unfold the primitives of the two monads. *)
Ltac unfold_op :=
  unfold get, put, modify, gets, lift, fail, panic, mret, mbind, op_ret, op_bind,
    outcome_ret, outcome_bind, ok_or, expect in *; simpl in *.

(** Turn boolean tests of the context into propositions. *)
Ltac bools :=
  repeat match goal with
  | H : negb _ = true |- _ => apply negb_true_iff in H
  | H : negb _ = false |- _ => apply negb_false_iff in H
  | H : _ && _ = true |- _ => apply andb_true_iff in H; destruct H
  | H : _ || _ = false |- _ => apply orb_false_iff in H; destruct H
  | H : (_ =? _)%Z = true |- _ => apply Z.eqb_eq in H
  | H : (_ =? _)%Z = false |- _ => apply Z.eqb_neq in H
  | H : (_ <? _)%Z = true |- _ => apply Z.ltb_lt in H
  | H : (_ <? _)%Z = false |- _ => apply Z.ltb_ge in H
  | H : (_ <=? _)%Z = true |- _ => apply Z.leb_le in H
  | H : (_ <=? _)%Z = false |- _ => apply Z.leb_gt in H
  | H : (_ =? _) = true |- _ => apply Nat.eqb_eq in H
  | H : (_ =? _) = false |- _ => apply Nat.eqb_neq in H
  | H : (_ <? _) = true |- _ => apply Nat.ltb_lt in H
  | H : (_ <? _) = false |- _ => apply Nat.ltb_ge in H
  | H : (_ <=? _) = true |- _ => apply Nat.leb_le in H
  | H : (_ <=? _) = false |- _ => apply Nat.leb_gt in H
  | H : bool_decide _ = true |- _ => apply bool_decide_eq_true in H
  | H : bool_decide _ = false |- _ => apply bool_decide_eq_false in H
  end.

(** ** Lemmas on outcomes and operations *)

Lemma bind_Ok_inv {E A B} (m : outcome E A) (k : A -> outcome E B) b :
  m ≫= k = Ok b -> exists a, m = Ok a /\ k a = Ok b.
Proof. destruct m; cbn; naive_solver. Qed.

Lemma ok_or_Ok_inv {E A} (o : option A) (e : E) a : ok_or o e = Ok a -> o = Some a.
Proof. destruct o; cbn; naive_solver. Qed.

Lemma expect_Ok_inv {E A} (o : option A) (a : A) : @expect E A o = Ok a -> o = Some a.
Proof. destruct o; cbn; naive_solver. Qed.

Lemma preserves_bind {S E A B} (I : S -> Prop) (m : Op S E A) (k : A -> Op S E B) :
  preserves I m -> (forall a, preserves I (k a)) -> preserves I (m ≫= k).
Proof.
  intros Hm Hk s Hs. unfold mbind, op_bind. specialize (Hm s Hs).
  destruct (m s) as [s' [a|e|]]; simpl in *; auto. apply Hk, Hm.
Qed.

Lemma preserves_gets {S E A} (I : S -> Prop) (f : S -> A) : preserves I (gets (E := E) f).
Proof. intros s Hs. exact Hs. Qed.

Lemma preserves_lift {S E A} (I : S -> Prop) (m : outcome E A) : preserves I (lift m).
Proof. intros s Hs. exact Hs. Qed.

Lemma preserves_fail {S E A} (I : S -> Prop) (e : E) : preserves I (fail (A := A) e).
Proof. intros s Hs. exact Hs. Qed.

Lemma preserves_ret {S E A} (I : S -> Prop) (a : A) : preserves I (mret (M := Op S E) a).
Proof. intros s Hs. exact Hs. Qed.

#[export] Hint Resolve preserves_bind preserves_gets preserves_lift preserves_fail
  preserves_ret : leaf.

(** ** Lemmas on loops *)

Lemma for_each_Ok {E A} (l : list A) (f : A -> outcome E unit) :
  for_each l f = Ok tt <-> forall x, x ∈ l -> f x = Ok tt.
Proof.
  induction l as [|x l IH]; simpl.
  { split; [intros _ x Hx; by apply not_elem_of_nil in Hx|done]. }
  setoid_rewrite elem_of_cons. split.
  - intros ([] & Hx & Hl)%bind_Ok_inv y [->|Hy]; [done|]. by apply IH.
  - intros H. rewrite (H x) by auto. apply IH. auto.
Qed.

Lemma rounds_add {S R} n m (body : S -> S + R) s :
  rounds (n + m) body s =
  match rounds n body s with inl s => rounds m body s | inr r => inr r end.
Proof. revert s. induction n as [|n IH]; intros s; simpl; [done|]. by destruct (body s). Qed.

Lemma while_pos_rounds {S R} fuel (body : S -> S + R) s :
  while_pos fuel body s = rounds (Pos.to_nat fuel) body s.
Proof.
  revert s. induction fuel as [p IH|p IH|]; intros s; simpl while_pos.
  - replace (Pos.to_nat p~1) with (1 + (Pos.to_nat p + Pos.to_nat p)) by lia.
    simpl. destruct (body s); [|done]. rewrite rounds_add, <-IH. by destruct (while_pos p body s0).
  - replace (Pos.to_nat p~0) with (Pos.to_nat p + Pos.to_nat p) by lia.
    rewrite rounds_add, <-IH. by destruct (while_pos p body s).
  - rewrite Pos2Nat.inj_1. simpl. by destruct (body s).
Qed.

(** A loop with a measure below its fuel ends, in a state its invariant allows. *)
Lemma while_loop_ends {S R} (I : S -> Prop) (mu : S -> Z) (Q : R -> Prop) body fuel s :
  (forall s, I s -> match body s with inl s' => I s' /\ (0 <= mu s' < mu s)%Z | inr r => Q r end) ->
  I s -> (0 <= mu s < fuel)%Z ->
  exists r, while_loop fuel body s = Some r /\ Q r.
Proof.
  intros Hb Hs Hf. unfold while_loop. rewrite while_pos_rounds.
  assert (mu s < Z.of_nat (Pos.to_nat (Z.to_pos fuel)))%Z as Hn by lia. destruct Hf as [Hf _].
  generalize dependent s. induction (Pos.to_nat (Z.to_pos fuel)) as [|n IH]; intros s Hs Hf Hn; [lia|].
  simpl. specialize (Hb s Hs) as Hbs. destruct (body s) as [s'|r]; [|eauto].
  destruct Hbs as [? ?]. apply IH; [done|lia..].
Qed.

(** ** Lemmas on machine integers *)

Lemma le_decode_bound l : bytes_ok l -> (0 <= le_decode l < 256 ^ Z.of_nat (length l))%Z.
Proof.
  induction 1 as [|b l Hb _ IH]; [done|]. unfold is_byte in Hb.
  simpl le_decode. simpl length. rewrite Nat2Z.inj_succ, Z.pow_succ_r by lia. lia.
Qed.

Lemma length_le_encode n x : length (le_encode n x) = n.
Proof. revert x. induction n; intros; simpl; auto. Qed.

Lemma le_decode_encode n x :
  (0 <= x < 256 ^ Z.of_nat n)%Z -> le_decode (le_encode n x) = x.
Proof.
  revert x. induction n as [|n IH]; intros x Hx; simpl; [lia|].
  rewrite Nat2Z.inj_succ, Z.pow_succ_r in Hx by lia.
  rewrite IH; [pose proof (Z.div_mod x 256); lia|].
  split; [apply Z.div_pos; lia|apply Z.div_lt_upper_bound; lia].
Qed.

Lemma le_encode_decode l : bytes_ok l -> le_encode (length l) (le_decode l) = l.
Proof.
  induction 1 as [|b l Hb _ IH]; [done|]. unfold is_byte in Hb. simpl.
  rewrite (Z.mul_comm 256), Z.div_add, Z.mod_add by lia.
  rewrite Z.div_small, Z.mod_small by lia. by rewrite Z.add_0_l, IH.
Qed.

Lemma le_encode_bytes n x : bytes_ok (le_encode n x).
Proof.
  revert x. induction n as [|n IH]; intros x; simpl; [by constructor|]. constructor; [|apply IH].
  unfold is_byte. apply Z.mod_pos_bound. lia.
Qed.

Lemma checked_add_Some limit x y z :
  checked_add limit x y = Some z <-> (z = x + y /\ x + y < limit)%Z.
Proof. unfold checked_add. case_match; bools; split; intros H'; simplify_eq; try lia;
  destruct H' as [-> ?]; done || lia. Qed.

Lemma checked_sub_Some x y z : checked_sub x y = Some z <-> (z = x - y /\ y <= x)%Z.
Proof. unfold checked_sub. case_match; bools; split; intros H'; simplify_eq; try lia;
  destruct H' as [-> ?]; done || lia. Qed.

Lemma checked_mul_Some limit x y z :
  checked_mul limit x y = Some z <-> (z = x * y /\ x * y < limit)%Z.
Proof. unfold checked_mul. case_match; bools; split; intros H'; simplify_eq; try lia;
  destruct H' as [-> ?]; done || lia. Qed.

(** ** Lemmas on lists *)

Lemma position_Some {A} (p : A -> bool) l i :
  position p l = Some i <->
  exists x, l !! i = Some x /\ p x = true /\
    (forall j y, j < i -> l !! j = Some y -> p y = false).
Proof.
  revert i. induction l as [|x l IH]; intros i; simpl.
  { split; [done|]. intros (y & Hy & _). done. }
  destruct (p x) eqn:Hp.
  - split.
    + intros [= <-]. exists x. split_and!; [done|done|]. intros; lia.
    + intros (y & Hy & Hpy & Hj). destruct i as [|i]; [done|].
      specialize (Hj 0 x). simpl in Hj. rewrite Hj in Hp by (done || lia). done.
  - rewrite fmap_Some. setoid_rewrite IH. split.
    + intros (i' & (y & Hy & Hpy & Hj) & ->). exists y. split_and!; [done|done|].
      intros [|j] z Hlt Hz; simpl in *; [congruence|]. eapply Hj; [|done]. lia.
    + intros (y & Hy & Hpy & Hj). destruct i as [|i]; simpl in *; [congruence|].
      exists i. split; [|done]. exists y. split_and!; [done|done|].
      intros j z Hlt Hz. apply (Hj (S j)); [lia|done].
Qed.

Lemma position_None {A} (p : A -> bool) l :
  position p l = None <-> (forall i x, l !! i = Some x -> p x = false).
Proof.
  induction l as [|x l IH]; simpl; [done|].
  destruct (p x) eqn:Hp.
  - split; [done|]. intros H. specialize (H 0 x eq_refl). congruence.
  - rewrite fmap_None, IH. split.
    + intros H [|i] y Hy; simpl in *; [congruence|eauto].
    + intros H i y Hy. apply (H (S i) y Hy).
Qed.

Lemma position_lt {A} (p : A -> bool) l i : position p l = Some i -> i < length l.
Proof. rewrite position_Some. intros (x & Hx & _). by eapply lookup_lt_Some. Qed.

(** The first and the last element that satisfies a test. *)
Lemma position_none {A} (p : A -> bool) l : Forall (fun x => p x = false) l -> position p l = None.
Proof. induction 1 as [|x l Hx _ IH]; [done|]. cbn. by rewrite Hx, IH. Qed.

Lemma position_app {A} (p : A -> bool) l x r :
  Forall (fun x => p x = false) l -> p x = true -> position p (l ++ x :: r) = Some (length l).
Proof. intros Hl Hx. induction Hl as [|y l Hy _ IH]; cbn; [by rewrite Hx|]. by rewrite Hy, IH. Qed.

Lemma rposition_none {A} (p : A -> bool) l : Forall (fun x => p x = false) l -> rposition p l = None.
Proof. intros Hl. unfold rposition. by rewrite position_none by (by apply Forall_reverse). Qed.

Lemma rposition_app {A} (p : A -> bool) l x r :
  Forall (fun x => p x = false) r -> p x = true -> rposition p (l ++ x :: r) = Some (length l).
Proof.
  intros Hr Hx. unfold rposition. rewrite reverse_app, reverse_cons, <-(assoc_L (++)). cbn [app].
  rewrite position_app by (done || by apply Forall_reverse). cbn. rewrite length_reverse, length_app. cbn [length]. f_equal. lia.
Qed.

Lemma take_while_all {A} (p : A -> bool) l r :
  Forall (fun x => p x = true) l -> match r with [] => True | x :: _ => p x = false end -> take_while p (l ++ r) = l.
Proof.
  intros Hl Hr. induction Hl as [|x l Hx _ IH]; cbn.
  - destruct r as [|y r]; [done|]. cbn. by rewrite Hr.
  - by rewrite Hx, IH.
Qed.

Lemma drop_while_spec {A} (p : A -> bool) l :
  exists k, l = k ++ drop_while p l /\ Forall (fun x => p x = true) k /\
    match drop_while p l with [] => True | x :: _ => p x = false end.
Proof.
  induction l as [|x l (k & Hk & Hp & Hh)]; [by exists []|]. cbn. destruct (p x) eqn:Hx.
  - exists (x :: k). split_and!; [cbn; by rewrite <-Hk|by apply Forall_cons|done].
  - exists []. by rewrite Hx.
Qed.

Lemma drop_while_all {A} (p : A -> bool) l : Forall (fun x => p x = true) l -> drop_while p l = [].
Proof. induction 1 as [|x l Hx _ IH]; [done|]. cbn. by rewrite Hx. Qed.

Lemma drop_while_none {A} (p : A -> bool) l : match l with [] => True | x :: _ => p x = false end -> drop_while p l = l.
Proof. destruct l as [|x l]; [done|]. cbn. by intros ->. Qed.

(** The components of a path. *)
Lemma split_slash_cons l : exists c cs, split_slash l = c :: cs.
Proof. destruct l as [|b l]; cbn; [eauto|]. destruct (b =? 47)%Z; [eauto|]. destruct (split_slash l); eauto. Qed.

Lemma split_slash_none l : Forall (fun b => b <> 47%Z) l -> split_slash l = [l].
Proof.
  induction 1 as [|b l Hb _ IH]; [done|]. cbn. by rewrite (proj2 (Z.eqb_neq _ _) Hb), IH.
Qed.

Lemma split_slash_app p l : split_slash (p ++ 47%Z :: l) = split_slash p ++ split_slash l.
Proof.
  induction p as [|b p IH]; [done|]. cbn. destruct (b =? 47)%Z; [by rewrite IH|]. rewrite IH.
  by destruct (split_slash_cons p) as (c & cs & ->).
Qed.

Lemma count_insert {A} (p : A -> bool) (l : list A) i x y :
  l !! i = Some x ->
  count p (<[i:=y]> l) + (if p x then 1 else 0) = count p l + (if p y then 1 else 0).
Proof.
  revert i. induction l as [|z l IH]; intros [|i]; simpl; try done.
  - intros [= ->]. lia.
  - intros H. specialize (IH i H). lia.
Qed.

Lemma count_app {A} (p : A -> bool) (l k : list A) :
  count p (l ++ k) = count p l + count p k.
Proof. induction l; simpl; lia. Qed.

Lemma count_zero {A} (p : A -> bool) (l : list A) :
  count p l = 0 <-> (forall x, x ∈ l -> p x = false).
Proof.
  induction l as [|z l IH]; simpl.
  { split; [intros _ x H; by apply not_elem_of_nil in H|done]. }
  setoid_rewrite elem_of_cons.
  destruct (p z) eqn:Hz; split.
  - lia.
  - intros H. specialize (H z (or_introl eq_refl)). congruence.
  - intros H x [->|Hx]; [done|]. apply IH; [lia|done].
  - intros H. apply IH. auto.
Qed.

#[export] Instance count_proper {A} (p : A -> bool) : Proper ((≡ₚ) ==> eq) (count p).
Proof. intros l k HP. induction HP; simpl; lia. Qed.

Lemma length_splice {A} (dst : list A) off src :
  off + length src <= length dst -> length (splice dst off src) = length dst.
Proof. intros H. unfold splice. len. Qed.

Lemma lookup_splice_in {A} (dst : list A) off src i :
  off + length src <= length dst -> off <= i < off + length src ->
  splice dst off src !! i = src !! (i - off).
Proof.
  intros H Hi. unfold splice.
  rewrite lookup_app_r by len. rewrite lookup_app_l by len. len.
  f_equal. lia.
Qed.

Lemma lookup_splice_out {A} (dst : list A) off src i :
  off + length src <= length dst -> i < off \/ off + length src <= i ->
  splice dst off src !! i = dst !! i.
Proof.
  intros H [Hi|Hi]; unfold splice.
  - rewrite lookup_app_l by len. apply lookup_take_lt. lia.
  - rewrite lookup_app_r by len. rewrite lookup_app_r by len.
    rewrite lookup_drop. len. f_equal. lia.
Qed.

Lemma length_slice {A} (l : list A) a b :
  a <= b -> b <= length l -> length (slice l a b) = b - a.
Proof. intros. unfold slice. len. Qed.

Lemma bytes_ok_slice l a b : bytes_ok l -> bytes_ok (slice l a b).
Proof. intros Hl. unfold slice. by apply Forall_take, Forall_drop. Qed.

Lemma lookup_slice {A} (l : list A) a b i :
  i < b - a -> slice l a b !! i = l !! (a + i).
Proof. intros. unfold slice. rewrite lookup_take_lt by lia. apply lookup_drop. Qed.

Lemma get_range_Some {A} (l : list A) a b k :
  get_range l a b = Some k <->
  (0 <= a <= b)%Z /\ (b <= Z.of_nat (length l))%Z /\ k = slice l (Z.to_nat a) (Z.to_nat b).
Proof.
  unfold get_range. destruct (_ && _ && _) eqn:H; bools.
  - split; [intros [= <-]; auto|]. by intros (_ & _ & ->).
  - split; [done|]. intros (? & ? & _). rewrite !andb_false_iff in H.
    rewrite !Z.leb_gt in H. lia.
Qed.

Lemma get_range_length {A} (l : list A) a b k :
  get_range l a b = Some k -> Z.of_nat (length k) = (b - a)%Z.
Proof. intros (? & ? & ->)%get_range_Some. rewrite length_slice; lia. Qed.

Lemma index_range_in {E} (l : list Z) a b :
  (0 <= a <= b)%Z -> (b <= Z.of_nat (length l))%Z ->
  index_range (E := E) l a b = Ok (slice l (Z.to_nat a) (Z.to_nat b)).
Proof.
  intros. unfold index_range.
  by rewrite (proj2 (get_range_Some l a b (slice l (Z.to_nat a) (Z.to_nat b)))).
Qed.

(** Appending to the filled part of a buffer. *)
Lemma copy_at_append {E} dst p src :
  take (length p) dst = p -> (length p + length src <= length dst)%nat ->
  exists dst', copy_at (E := E) dst (length p) src = Ok dst' /\
    length dst' = length dst /\ take (length (p ++ src)) dst' = p ++ src.
Proof.
  intros Hp Hl. unfold copy_at. rewrite (proj2 (Nat.leb_le _ _)) by done.
  eexists. split; [done|]. split; [by apply length_splice|].
  unfold splice. rewrite Hp, app_assoc. by rewrite take_app_length.
Qed.

(** Take a successful chain of binds apart. *)
Ltac ok_inv H :=
  repeat match type of H with
  | mbind _ _ = Ok _ =>
      let a := fresh "a" in let Ha := fresh "Ha" in
      apply bind_Ok_inv in H as (a & Ha & H); cbv beta in H
  | (match ?a with (x, y) => _ end) = Ok _ =>
      let x' := fresh x in let y' := fresh y in destruct a as [x' y']
  end.

Lemma bind_safe {E A B} (m : outcome E A) (k : A -> outcome E B) :
  m <> Panic -> (forall a, m = Ok a -> k a <> Panic) -> m ≫= k <> Panic.
Proof. intros Hm Hk. destruct m; [by apply Hk|done|done]. Qed.

Lemma ok_or_safe {E A} (o : option A) (e : E) : ok_or o e <> Panic.
Proof. by destruct o. Qed.

Lemma index_range_safe {E} (l : list Z) a b :
  (0 <= a <= b)%Z -> (b <= Z.of_nat (length l))%Z -> index_range (E := E) l a b <> Panic.
Proof. intros. by rewrite index_range_in. Qed.

Lemma slice_drop {A} (l : list A) a b : a <= b -> slice l a b ++ drop b l = drop a l.
Proof.
  intros H. unfold slice. rewrite <-(take_drop (b - a) (drop a l)) at 2. rewrite drop_drop.
  repeat f_equal. lia.
Qed.

Lemma splice_app {A} (p q q' r : list A) :
  length q = length q' -> splice (p ++ q ++ r) (length p) q' = p ++ q' ++ r.
Proof.
  intros H. unfold splice. rewrite take_app_length. f_equal. f_equal.
  rewrite drop_app_ge by lia. replace (length p + length q' - length p) with (length q) by lia.
  by rewrite drop_app_length.
Qed.

Lemma slice_app_mid {A} (p q r : list A) : slice (p ++ q ++ r) (length p) (length p + length q) = q.
Proof.
  unfold slice. rewrite drop_app_length. replace (length p + length q - length p) with (length q) by lia.
  by rewrite take_app_length.
Qed.

(** An invariant of every step holds in every reachable state. *)
Lemma rtc_invariant {A} (R : A -> A -> Prop) (I : A -> Prop) :
  (forall x y, R x y -> I x -> I y) -> forall x y, rtc R x y -> I x -> I y.
Proof. intros HI x y Hr. induction Hr; eauto. Qed.
