(* ===== verification/Refine.v ===== *)
(** * Operations on an abstract state

    [runs w op Q X]: from every state that [w] abstracts, [op] does not panic, and
    ends in a state that some [w'] abstracts, with [Q a w'] for its result [a] and
    [X e w'] for an error [e].  An abstract state leaves out what a caller cannot
    rely on (which of the next reads of a disk fail, which allocations succeed). *)

From S2P Require Import Prelude.

(** Which states an abstract state stands for. *)
Class Abstraction (W S : Type) := abstracts : W -> S -> Prop.

(** The value of an outcome that is no panic. *)
Definition holds {E A} (r : outcome E A) (Q : A -> Prop) (X : E -> Prop) : Prop :=
  match r with
  | Ok a => Q a
  | Err e => X e
  | Panic => False
  end.

Definition runs {W S E A} `{Abstraction W S} (w : W) (op : Op S E A)
  (Q : A -> W -> Prop) (X : E -> W -> Prop) : Prop :=
  forall s, abstracts w s ->
    exists w', abstracts w' (op s).1 /\ holds (op s).2 (fun a => Q a w') (fun e => X e w').

(** An operation that leaves the abstract state as it is. *)
Definition reads {W S E A} `{Abstraction W S} (w : W) (op : Op S E A)
  (Q : A -> Prop) (X : E -> Prop) : Prop :=
  runs w op (fun a w' => w' = w /\ Q a) (fun e w' => w' = w /\ X e).

(** ** Outcomes *)

Lemma Ok_bind {E A B} (a : A) (k : A -> outcome E B) : Ok a ≫= k = k a.
Proof. done. Qed.

Lemma holds_mono {E A} (r : outcome E A) (Q Q' : A -> Prop) (X X' : E -> Prop) :
  holds r Q X -> (forall a, Q a -> Q' a) -> (forall e, X e -> X' e) -> holds r Q' X'.
Proof. destruct r; simpl; auto. Qed.

Lemma holds_bind {E A B} (m : outcome E A) (k : A -> outcome E B) (R : A -> Prop) Q X :
  holds m R X -> (forall a, R a -> holds (k a) Q X) -> holds (m ≫= k) Q X.
Proof. destruct m; simpl; auto. Qed.

Lemma holds_ok {E A} (a : A) (Q : A -> Prop) (X : E -> Prop) : Q a -> holds (Ok a) Q X.
Proof. done. Qed.

Lemma holds_err {E A} (e : E) (Q : A -> Prop) (X : E -> Prop) : X e -> holds (Err e) Q X.
Proof. done. Qed.

Lemma holds_ok_or {E A} (o : option A) (e : E) (Q : A -> Prop) (X : E -> Prop) :
  (forall a, o = Some a -> Q a) -> (o = None -> X e) -> holds (ok_or o e) Q X.
Proof. destruct o; simpl; auto. Qed.

Lemma holds_not_panic {E A} (r : outcome E A) Q X : holds r Q X -> r <> Panic.
Proof. by destruct r. Qed.

Lemma holds_if {E A} (b : bool) (r r' : outcome E A) Q X :
  (b = true -> holds r Q X) -> (b = false -> holds r' Q X) -> holds (if b then r else r') Q X.
Proof. destruct b; auto. Qed.

Lemma holds_self {E A} (r : outcome E A) :
  r <> Panic -> holds r (fun a => r = Ok a) (fun e => r = Err e).
Proof. by destruct r. Qed.

(** ** Operations *)

Section rules.
Context {W S E : Type} `{Abstraction W S}.
Implicit Types (w : W) (s : S).

Lemma runs_mono {A} w (op : Op S E A) (Q Q' : A -> W -> Prop) (X X' : E -> W -> Prop) :
  runs w op Q X -> (forall a w', Q a w' -> Q' a w') -> (forall e w', X e w' -> X' e w') ->
  runs w op Q' X'.
Proof. intros Hop HQ HX s Hs. destruct (Hop s Hs) as (w' & Hw & Hr). exists w'. split; [done|].
  eapply holds_mono; [done|auto..].
Qed.

Lemma runs_bind {A B} w (m : Op S E A) (k : A -> Op S E B) (R : A -> W -> Prop) Q X :
  runs w m R X -> (forall a w', R a w' -> runs w' (k a) Q X) -> runs w (m ≫= k) Q X.
Proof.
  intros Hm Hk s Hs. destruct (Hm s Hs) as (w' & Hw & Hr). unfold mbind, op_bind.
  destruct (m s) as [s' [a|e|]]; simpl in *; [|eauto|done]. apply (Hk a w' Hr s' Hw).
Qed.

Lemma runs_ret {A} w (a : A) (Q : A -> W -> Prop) (X : E -> W -> Prop) :
  Q a w -> runs w (mret a) Q X.
Proof. intros HQ s Hs. by exists w. Qed.

Lemma runs_lift {A} w (r : outcome E A) (Q : A -> W -> Prop) (X : E -> W -> Prop) :
  holds r (fun a => Q a w) (fun e => X e w) -> runs w (lift r) Q X.
Proof. intros HQ s Hs. by exists w. Qed.

Lemma runs_fail {A} w (e : E) (Q : A -> W -> Prop) (X : E -> W -> Prop) :
  X e w -> runs w (fail e) Q X.
Proof. intros HX s Hs. by exists w. Qed.

Lemma runs_if {A} w (b : bool) (op op' : Op S E A) Q X :
  (b = true -> runs w op Q X) -> (b = false -> runs w op' Q X) -> runs w (if b then op else op') Q X.
Proof. destruct b; auto. Qed.

Lemma runs_lift_bind {A B} w (r : outcome E A) (k : A -> Op S E B) (R : A -> Prop) Q X :
  holds r R (fun e => X e w) -> (forall a, R a -> runs w (k a) Q X) -> runs w (lift r ≫= k) Q X.
Proof.
  intros Hr Hk s Hs. unfold mbind, op_bind, lift. destruct r as [a|e|]; simpl in *; [|eauto|done].
  by apply Hk.
Qed.

Lemma runs_ok_bind {A B} w (a : A) (k : A -> Op S E B) Q X :
  runs w (k a) Q X -> runs w (lift (Ok a) ≫= k) Q X.
Proof. done. Qed.

Lemma runs_err_bind {A B} w (e : E) (k : A -> Op S E B) (Q : B -> W -> Prop) (X : E -> W -> Prop) :
  X e w -> runs w (lift (Err e) ≫= k) Q X.
Proof. intros HX s Hs. by exists w. Qed.

Lemma runs_assoc {A B C} w (m : Op S E A) (k : A -> Op S E B) (k' : B -> Op S E C) Q X :
  runs w (m ≫= (fun a => k a ≫= k')) Q X -> runs w ((m ≫= k) ≫= k') Q X.
Proof.
  intros Hm s Hs. specialize (Hm s Hs). revert Hm. unfold mbind, op_bind.
  by destruct (m s) as [s' [a|e|]].
Qed.

Lemma runs_group {A B C} w (m : Op S E A) (k : A -> Op S E B) (k' : B -> Op S E C) Q X :
  runs w ((m ≫= k) ≫= k') Q X -> runs w (m ≫= (fun a => k a ≫= k')) Q X.
Proof.
  intros Hm s Hs. specialize (Hm s Hs). revert Hm. unfold mbind, op_bind.
  by destruct (m s) as [s' [a|e|]].
Qed.

Lemma reads_bind {A B} w (m : Op S E A) (k : A -> Op S E B) (R : A -> Prop) Q X :
  reads w m R X -> (forall a, R a -> reads w (k a) Q X) -> reads w (m ≫= k) Q X.
Proof. intros Hm Hk. eapply runs_bind; [apply Hm|]. intros a w' [-> Ha]. by apply Hk. Qed.

Lemma reads_if {A} w (b : bool) (op op' : Op S E A) Q X :
  (b = true -> reads w op Q X) -> (b = false -> reads w op' Q X) -> reads w (if b then op else op') Q X.
Proof. destruct b; auto. Qed.

Lemma reads_lift_bind {A B} w (r : outcome E A) (k : A -> Op S E B) (R : A -> Prop) Q X :
  holds r R X -> (forall a, R a -> reads w (k a) Q X) -> reads w (lift r ≫= k) Q X.
Proof.
  intros Hr Hk. eapply runs_lift_bind; [eapply holds_mono; [apply Hr|intros a Ha; exact Ha|]|apply Hk].
  done.
Qed.

Lemma reads_ok_bind {A B} w (a : A) (k : A -> Op S E B) Q X :
  reads w (k a) Q X -> reads w (lift (Ok a) ≫= k) Q X.
Proof. done. Qed.

Lemma reads_ret {A} w (a : A) (Q : A -> Prop) (X : E -> Prop) : Q a -> reads w (mret a) Q X.
Proof. intros. by apply runs_ret. Qed.

Lemma reads_lift {A} w (r : outcome E A) (Q : A -> Prop) (X : E -> Prop) :
  holds r Q X -> reads w (lift r) Q X.
Proof. intros Hr. apply runs_lift. eapply holds_mono; [done|auto..]. Qed.

Lemma reads_fail {A} w (e : E) (Q : A -> Prop) (X : E -> Prop) : X e -> reads w (fail e) Q X.
Proof. intros. by apply runs_fail. Qed.

Lemma reads_mono {A} w (op : Op S E A) (Q Q' : A -> Prop) (X X' : E -> Prop) :
  reads w op Q X -> (forall a, Q a -> Q' a) -> (forall e, X e -> X' e) -> reads w op Q' X'.
Proof. intros Hop HQ HX. eapply runs_mono; [apply Hop|naive_solver..]. Qed.

(** A part that only reads, in an operation that writes. *)
Lemma runs_read_bind {A B} w (m : Op S E A) (k : A -> Op S E B) (R : A -> Prop) (X' : E -> Prop) Q X :
  reads w m R X' -> (forall e, X' e -> X e w) -> (forall a, R a -> runs w (k a) Q X) ->
  runs w (m ≫= k) Q X.
Proof.
  intros Hm HX Hk. eapply runs_bind.
  - eapply runs_mono; [apply Hm|intros a w' Ha; exact Ha|]. intros e w' [-> He]. auto.
  - intros a w' [-> Ha]. auto.
Qed.

Lemma reads_runs {A} w (op : Op S E A) Q X (Q' : A -> W -> Prop) (X' : E -> W -> Prop) :
  reads w op Q X -> (forall a, Q a -> Q' a w) -> (forall e, X e -> X' e w) -> runs w op Q' X'.
Proof. intros Hop HQ HX. eapply runs_mono; [apply Hop|naive_solver..]. Qed.
End rules.

(** A state that abstracts itself. *)
Lemma runs_get {S E A} (s : S) (k : S -> Op S E A) Q X :
  runs (H := eq) s (k s) Q X -> runs (H := eq) s (get ≫= k) Q X.
Proof. intros Hk s' <-. by apply Hk. Qed.

(** The result in a state that is known. *)
Lemma runs_result {W S E A} `{Abstraction W S} w (op : Op S E A) Q X s s' r :
  runs w op Q X -> abstracts w s -> op s = (s', r) ->
  exists w', abstracts w' s' /\ holds r (fun a => Q a w') (fun e => X e w').
Proof. intros Hop Hs E1. specialize (Hop s Hs). by rewrite E1 in Hop. Qed.

(** ** A part of a state beside the rest *)

#[export] Instance beside_abstraction {W S B} `{Abstraction W S} : Abstraction (W * B) (S * B) :=
  fun w s => abstracts w.1 s.1 /\ s.2 = w.2.

Section beside.
Context {W S B E : Type} `{Abstraction W S}.
Implicit Types (w : W) (b : B).

Lemma runs_beside {A} w b (op : Op S E A) (lifted : Op (S * B) E A) Q X :
  (forall s, lifted (s, b) = ((op s).1, b, (op s).2)) ->
  runs w op Q X ->
  runs (w, b) lifted (fun a v => v.2 = b /\ Q a v.1) (fun e v => v.2 = b /\ X e v.1).
Proof.
  intros Heq Hop [s b'] [Hs Hb]. cbn in Hs, Hb. subst b'. destruct (Hop s Hs) as (w' & Hw & Hr).
  rewrite Heq. exists (w', b). split; [done|]. cbn. eapply holds_mono; [done|done|done].
Qed.

Lemma reads_beside_of {A} w b (op : Op S E A) (lifted : Op (S * B) E A) Q X :
  (forall s, lifted (s, b) = ((op s).1, b, (op s).2)) ->
  reads w op Q X -> reads (w, b) lifted Q X.
Proof.
  intros Heq Hop. eapply runs_mono; [by apply (runs_beside w b op)| |].
  - intros a [w' b'] [Hb [Hw Ha]]. cbn in Hb, Hw. by subst.
  - intros e [w' b'] [Hb [Hw He]]. cbn in Hb, Hw. by subst.
Qed.

Lemma runs_get_beside {A} w b (k : S * B -> Op (S * B) E A) Q X :
  (forall s, runs (w, b) (k (s, b)) Q X) -> runs (w, b) (get ≫= k) Q X.
Proof. intros Hk [s b'] [Hs Hb]. cbn in Hs, Hb. subst b'. by apply (Hk s). Qed.

Lemma runs_set_beside w b b' (Q : unit -> W * B -> Prop) X :
  Q tt (w, b') -> runs (w, b) (modify (E := E) (fun '(s, _) => (s, b'))) Q X.
Proof. intros HQ [s b0] [Hs Hb]. by exists (w, b'). Qed.
End beside.

(** One step of a proof about an operation: the shape of the operation chooses the rule. *)
Ltac run_step :=
  lazymatch goal with
  | |- reads _ (if _ then _ else _) _ _ => apply reads_if; intros ?
  | |- runs _ (if _ then _ else _) _ _ => apply runs_if; intros ?
  | |- reads _ (mret _) _ _ => apply reads_ret
  | |- runs _ (mret _) _ _ => apply runs_ret
  | |- reads _ (fail _) _ _ => apply reads_fail
  | |- runs _ (fail _) _ _ => apply runs_fail
  | |- reads _ (lift _) _ _ => apply reads_lift
  | |- runs _ (lift _) _ _ => apply runs_lift
  | |- holds (if _ then _ else _) _ _ => apply holds_if; intros ?
  | |- holds (Ok _) _ _ => apply holds_ok
  | |- holds (Err _) _ _ => apply holds_err
  | |- holds (ok_or _ _) _ _ => apply holds_ok_or; [intros ? ?|intros ?]
  end.
