(* ===== verification/Ring.v ===== *)
(** * Circular byte buffers

    [tasking/fd.rs] ([Pipe]) and [drivers/input.rs] ([InputBuffer]) keep their
    bytes in the same structure: an array, the index of the oldest byte and a
    length.  This file has the shared loop bodies, the abstraction of a buffer
    to the list of its unread bytes, and the queue interface the byte queues of
    the kernel implement. *)

From S2P Require Import Prelude.

(** ** The buffer and its loops *)

Record ring := mk_ring {
  r_bytes : list Z;
  r_head : nat;
  r_length : nat;
}.

Definition ring_new (cap : nat) : ring := mk_ring (replicate cap 0%Z) 0 0.

(** Body of the read loop: [*slot = bytes[head]; head = (head + 1) % CAP;
    length -= 1].  [None] is a panic: an index out of range or an underflow. *)
Definition ring_pop (cap : nat) (r : ring) : option (Z * ring) :=
  match r_bytes r !! r_head r, r_length r with
  | Some b, S n => Some (b, mk_ring (r_bytes r) ((r_head r + 1) mod cap) n)
  | _, _ => None
  end.

(** Body of the write loop: [tail = (head + length) % CAP; bytes[tail] = byte;
    length += 1]. *)
Definition ring_push (cap : nat) (b : Z) (r : ring) : option ring :=
  let tail := (r_head r + r_length r) mod cap in
  if tail <? length (r_bytes r)
  then Some (mk_ring (<[tail := b]> (r_bytes r)) (r_head r) (r_length r + 1))
  else None.

Fixpoint ring_read_loop (cap n : nat) (r : ring) : option (list Z * ring) :=
  match n with
  | 0 => Some ([], r)
  | S n =>
      '(b, r) ← ring_pop cap r;
      '(bs, r) ← ring_read_loop cap n r;
      Some (b :: bs, r)
  end.

Fixpoint ring_write_loop (cap : nat) (input : list Z) (r : ring) : option ring :=
  match input with
  | [] => Some r
  | b :: input => r ← ring_push cap b r; ring_write_loop cap input r
  end.

(** [fn read(&mut self, output: &mut [u8]) -> usize]: the count, the buffer
    after the call and the queue after the call. *)
Definition ring_read (cap : nat) (r : ring) (output : list Z) : option (nat * list Z * ring) :=
  let n := length output `min` r_length r in
  '(bs, r') ← ring_read_loop cap n r;
  Some (n, splice output 0 bs, r').

(** ** Abstraction *)

Definition ring_ok (cap : nat) (r : ring) : Prop :=
  0 < cap /\ length (r_bytes r) = cap /\ r_head r < cap /\ r_length r <= cap.

(** The unread bytes, oldest first. *)
Definition ring_items (cap : nat) (r : ring) : list Z :=
  (fun i => r_bytes r !!! ((r_head r + i) mod cap)) <$> seq 0 (r_length r).

(** ** The queue interface *)

Class Fifo (Q : Type) := {
  fifo_ok : Q -> Prop;
  fifo_items : Q -> list Z;
  fifo_capacity : nat;
  fifo_put : Z -> Q -> Q;
  fifo_get : Q -> option (Z * Q);
}.

(** What a byte queue of the kernel promises: a bounded first-in first-out
    queue that drops a byte put into it when it is full. *)
Class FifoLaws (Q : Type) `{Fifo Q} := {
  fifo_bound : forall q, fifo_ok q -> length (fifo_items q) <= fifo_capacity;
  fifo_put_ok : forall b q, fifo_ok q -> fifo_ok (fifo_put b q);
  fifo_put_items : forall b q, fifo_ok q ->
    fifo_items (fifo_put b q) =
      if length (fifo_items q) <? fifo_capacity then fifo_items q ++ [b] else fifo_items q;
  fifo_get_None : forall q, fifo_ok q -> fifo_get q = None <-> fifo_items q = [];
  fifo_get_Some : forall q b q', fifo_ok q -> fifo_get q = Some (b, q') ->
    fifo_ok q' /\ fifo_items q = b :: fifo_items q';
}.

(** A client: a sequence of puts and gets. *)
Inductive fifo_event := EvPut (b : Z) | EvGet.

Section client.
Context {Q : Type} `{Fifo Q}.

(** The bytes the gets returned, the bytes the puts left in the queue and the
    final queue. *)
Fixpoint fifo_run (evs : list fifo_event) (q : Q) : list Z * list Z * Q :=
  match evs with
  | [] => ([], [], q)
  | EvPut b :: evs =>
      let '(outs, ins, q') := fifo_run evs (fifo_put b q) in
      (outs, if length (fifo_items q) <? fifo_capacity then b :: ins else ins, q')
  | EvGet :: evs =>
      match fifo_get q with
      | None => fifo_run evs q
      | Some (b, q) => let '(outs, ins, q') := fifo_run evs q in (b :: outs, ins, q')
      end
  end.

Definition fifo_puts (evs : list fifo_event) : list Z :=
  omap (fun ev => match ev with EvPut b => Some b | EvGet => None end) evs.

End client.

(** ** Lemmas *)

Lemma length_ring_items cap r : length (ring_items cap r) = r_length r.
Proof. unfold ring_items. by rewrite length_fmap, length_seq. Qed.

#[export] Hint Rewrite length_ring_items : len.

Lemma ring_items_lookup cap r i :
  ring_ok cap r -> i < r_length r ->
  ring_items cap r !! i = r_bytes r !! ((r_head r + i) mod cap).
Proof.
  intros (H0 & Hb & Hh & Hl) Hi. unfold ring_items.
  rewrite list_lookup_fmap, lookup_seq_lt by lia. simpl. symmetry.
  apply list_lookup_lookup_total_lt. rewrite Hb. apply Nat.mod_upper_bound. lia.
Qed.

Lemma ring_new_ok cap : 0 < cap -> ring_ok cap (ring_new cap).
Proof. intros. unfold ring_ok, ring_new. split_and!; len. Qed.

Lemma ring_new_items cap : ring_items cap (ring_new cap) = [].
Proof. done. Qed.

(** Two positions less than a capacity apart are different cells. *)
Lemma ring_slot_ne cap h i j :
  0 < cap -> i < j -> j - i < cap -> (h + i) mod cap <> (h + j) mod cap.
Proof.
  intros Hc Hij Hlt Heq.
  pose proof (Nat.div_mod_eq (h + i) cap). pose proof (Nat.div_mod_eq (h + j) cap).
  assert (cap * ((h + j) / cap) = cap * ((h + i) / cap) + (j - i)) by lia.
  assert ((h + j) / cap = (h + i) / cap \/ (h + j) / cap >= S ((h + i) / cap)) as [E|E] by nia.
  - rewrite E in *. lia.
  - nia.
Qed.

Lemma ring_pop_spec cap r :
  ring_ok cap r -> 0 < r_length r ->
  exists b r', ring_pop cap r = Some (b, r') /\ ring_ok cap r' /\
    ring_items cap r = b :: ring_items cap r'.
Proof.
  intros Hok Hl. pose proof Hok as (H0 & Hb & Hh & Hlen).
  unfold ring_pop. destruct (lookup_lt_is_Some_2 (r_bytes r) (r_head r)) as [b Hbh]; [lia|].
  rewrite Hbh. destruct (r_length r) as [|n] eqn:Hn; [lia|].
  eexists _, _. split; [done|]. split.
  { split_and!; simpl; [lia|done| |lia]. apply Nat.mod_upper_bound. lia. }
  unfold ring_items. rewrite Hn. simpl. f_equal.
  - rewrite Nat.add_0_r, Nat.mod_small by lia. by apply list_lookup_total_correct.
  - rewrite <-fmap_S_seq, <-list_fmap_compose. apply list_fmap_ext. intros i j _. simpl.
    f_equal. rewrite Nat.Div0.add_mod_idemp_l. f_equal. lia.
Qed.

Lemma ring_push_spec cap b r :
  ring_ok cap r -> r_length r < cap ->
  exists r', ring_push cap b r = Some r' /\ ring_ok cap r' /\
    ring_items cap r' = ring_items cap r ++ [b].
Proof.
  intros Hok Hl. pose proof Hok as (H0 & Hb & Hh & Hlen). unfold ring_push.
  assert ((r_head r + r_length r) mod cap < cap) as Ht by (apply Nat.mod_upper_bound; lia).
  rewrite Hb, (proj2 (Nat.ltb_lt _ _) Ht). eexists. split; [done|].
  assert (ring_ok cap (mk_ring (<[(r_head r + r_length r) mod cap:=b]> (r_bytes r))
    (r_head r) (r_length r + 1))) as Hok' by (split_and!; simpl; len).
  split; [done|]. apply list_eq. intros i.
  destruct (decide (i < r_length r)) as [Hi|Hi]; [|destruct (decide (i = r_length r)) as [->|]].
  - rewrite lookup_app_l by (rewrite length_ring_items; lia).
    rewrite !ring_items_lookup by (simpl; first [done|lia]). simpl.
    apply list_lookup_insert_ne. intros E. symmetry in E.
    apply (ring_slot_ne cap (r_head r) i (r_length r)) in E; [done|lia..].
  - rewrite lookup_app_r by (rewrite length_ring_items; lia).
    rewrite length_ring_items, Nat.sub_diag. simpl.
    rewrite ring_items_lookup by (simpl; first [done|lia]). simpl.
    apply list_lookup_insert_eq. lia.
  - rewrite !lookup_ge_None_2; [done| |]; len.
Qed.

Lemma ring_read_loop_spec cap n r :
  ring_ok cap r -> n <= r_length r ->
  exists r', ring_read_loop cap n r = Some (take n (ring_items cap r), r') /\
    ring_ok cap r' /\ ring_items cap r' = drop n (ring_items cap r).
Proof.
  revert r. induction n as [|n IH]; intros r Hok Hn; simpl; [eauto|].
  destruct (ring_pop_spec cap r Hok) as (b & r1 & -> & Hok1 & Hi); [lia|].
  assert (length (ring_items cap r) = length (b :: ring_items cap r1)) as Hlen by congruence.
  len. destruct (IH r1 Hok1) as (r2 & E & Hok2 & Hi2); [lia|].
  simpl. rewrite E. exists r2. rewrite Hi. done.
Qed.

Lemma ring_write_loop_spec cap input r :
  ring_ok cap r -> r_length r + length input <= cap ->
  exists r', ring_write_loop cap input r = Some r' /\
    ring_ok cap r' /\ ring_items cap r' = ring_items cap r ++ input.
Proof.
  revert r. induction input as [|b input IH]; intros r Hok Hn; simpl in *.
  { exists r. by rewrite app_nil_r. }
  destruct (ring_push_spec cap b r Hok) as (r1 & -> & Hok1 & Hi); [lia|].
  assert (length (ring_items cap r1) = length (ring_items cap r ++ [b])) as Hlen by congruence.
  len. destruct (IH r1 Hok1) as (r2 & E & Hok2 & Hi2); [lia|].
  simpl. rewrite E. exists r2. by rewrite Hi2, Hi, <-app_assoc.
Qed.

Lemma ring_read_spec cap r output :
  ring_ok cap r ->
  let n := length output `min` r_length r in
  exists r', ring_read cap r output =
      Some (n, take n (ring_items cap r) ++ drop n output, r') /\
    ring_ok cap r' /\ ring_items cap r' = drop n (ring_items cap r).
Proof.
  intros Hok n. unfold ring_read. fold n.
  destruct (ring_read_loop_spec cap n r Hok) as (r' & -> & Hok' & Hi); [lia|].
  exists r'. simpl. split; [|done]. do 2 f_equal. unfold splice. simpl.
  rewrite length_take, length_ring_items. do 3 f_equal. lia.
Qed.

Section client_lemmas.
Context {Q : Type} `{FifoLaws Q}.

Lemma fifo_run_spec evs q outs ins q' :
  fifo_ok q -> fifo_run evs q = (outs, ins, q') ->
  fifo_ok q' /\ fifo_items q ++ ins = outs ++ fifo_items q' /\
  ins `sublist_of` fifo_puts evs /\
  (length (fifo_items q) + length (fifo_puts evs) <= fifo_capacity -> ins = fifo_puts evs).
Proof.
  revert q outs ins. induction evs as [|[b|] evs IH]; intros q outs ins Hq; simpl.
  - intros [= <- <- <-]. rewrite app_nil_r. simpl. eauto using sublist_nil_l.
  - destruct (fifo_run evs (fifo_put b q)) as [[outs1 ins1] q1] eqn:E. intros [= <- <- <-].
    apply IH in E as (Hok & Hi & Hs & Hc); [|by apply fifo_put_ok].
    rewrite fifo_put_items in Hi, Hc by done.
    case_match; bools; (split; [done|]); simpl; len.
    + rewrite <-app_assoc in Hi. split_and!; [done|by apply sublist_skip|].
      intros. f_equal. apply Hc. lia.
    + split_and!; [done|by apply sublist_cons|]. intros. lia.
  - destruct (fifo_get q) as [[b q1]|] eqn:E; [|intros ?; by apply IH].
    apply fifo_get_Some in E as [Hok1 Hi1]; [|done].
    destruct (fifo_run evs q1) as [[outs1 ins1] q2] eqn:E2. intros [= <- <- <-].
    apply IH in E2 as (Hok & Hi & Hs & Hc); [|done].
    rewrite Hi1. simpl. rewrite Hi. split_and!; [done..|]. intros. apply Hc. lia.
Qed.

End client_lemmas.
