(* ===== verification/Input.v ===== *)
(** * Keyboard byte queues

    [InputBuffer] of [drivers/input.rs], which feeds the standard input of user
    programs, and the lock-free key queue of [shell/mod.rs], whose consumer can
    be interrupted by its producer at any instruction. *)

From S2P Require Import Prelude Ring.

(** ** [drivers/input.rs] *)

Abbreviation INPUT_CAPACITY := 256.

Record InputBuffer := mk_input { input_ring : ring }.

Definition InputBuffer_new : InputBuffer := mk_input (ring_new INPUT_CAPACITY).

(** [InputBuffer::push]; [None] is a panic. *)
Definition InputBuffer_push (b : Z) (i : InputBuffer) : option InputBuffer :=
  if r_length (input_ring i) =? INPUT_CAPACITY then Some i
  else mk_input <$> ring_push INPUT_CAPACITY b (input_ring i).

(** [InputBuffer::read]: the count, the output buffer and the queue after the
    call. *)
Definition InputBuffer_read (i : InputBuffer) (output : list Z) :
  option (nat * list Z * InputBuffer) :=
  '(n, out, r) ← ring_read INPUT_CAPACITY (input_ring i) output;
  Some (n, out, mk_input r).

(** ** The key queue of [shell/mod.rs] *)

Abbreviation QUEUE_CAPACITY := 256.
Abbreviation QUEUE_MASK := 255.

(** [INPUT_QUEUE], [QUEUE_HEAD] and [QUEUE_TAIL]. *)
Record key_queue := mk_key_queue {
  q_bytes : list Z;
  q_head : nat;
  q_tail : nat;
}.

Definition key_queue_new : key_queue := mk_key_queue (replicate QUEUE_CAPACITY 0%Z) 0 0.

Definition enqueue_key (b : Z) (q : key_queue) : option key_queue :=
  let head := q_head q in
  let next := Nat.land (head + 1) QUEUE_MASK in
  if next =? q_tail q then Some q
  else if head <? length (q_bytes q)
  then Some (mk_key_queue (<[head := b]> (q_bytes q)) next (q_tail q))
  else None.

Definition dequeue_key (q : key_queue) : option (option Z * key_queue) :=
  let tail := q_tail q in
  if tail =? q_head q then Some (None, q)
  else
    b ← q_bytes q !! tail;
    Some (Some b, mk_key_queue (q_bytes q) (q_head q) (Nat.land (tail + 1) QUEUE_MASK)).

(** *** Interleaving

    [dequeue_key] runs in the shell task with interrupts enabled; [enqueue_key]
    runs in the keyboard interrupt handler, through an interrupt gate, and so to
    completion.  The consumer's program counter lists its atomic accesses. *)
Inductive consumer :=
| CIdle
| CTail (tail : nat)
| CNonEmpty (tail : nat)
| CByte (tail : nat) (b : Z).

Record key_sys := mk_key_sys {
  sys_queue : key_queue;
  sys_pc : consumer;
  sys_accepted : list Z;   (* bytes the handler stored, oldest first *)
  sys_returned : list Z;   (* bytes [dequeue_key] returned, oldest first *)
}.

Inductive key_step : key_sys -> key_sys -> Prop :=
| step_enqueue b q q' pc acc ret :
    enqueue_key b q = Some q' ->
    key_step (mk_key_sys q pc acc ret)
      (mk_key_sys q' pc (if decide (q_head q' = q_head q) then acc else acc ++ [b]) ret)
| step_load_tail q acc ret :
    key_step (mk_key_sys q CIdle acc ret) (mk_key_sys q (CTail (q_tail q)) acc ret)
| step_load_head q tail acc ret :
    key_step (mk_key_sys q (CTail tail) acc ret)
      (mk_key_sys q (if tail =? q_head q then CIdle else CNonEmpty tail) acc ret)
| step_load_byte q tail b acc ret :
    q_bytes q !! tail = Some b ->
    key_step (mk_key_sys q (CNonEmpty tail) acc ret) (mk_key_sys q (CByte tail b) acc ret)
| step_store_tail q tail b acc ret :
    key_step (mk_key_sys q (CByte tail b) acc ret)
      (mk_key_sys (mk_key_queue (q_bytes q) (q_head q) (Nat.land (tail + 1) QUEUE_MASK))
         CIdle acc (ret ++ [b])).

Definition key_sys_init : key_sys := mk_key_sys key_queue_new CIdle [] [].

(** ** Abstraction of the key queue to the circular buffer *)

Definition key_ring (q : key_queue) : ring :=
  mk_ring (q_bytes q) (q_tail q) ((q_head q + QUEUE_CAPACITY - q_tail q) mod QUEUE_CAPACITY).

Definition key_items (q : key_queue) : list Z := ring_items QUEUE_CAPACITY (key_ring q).

Definition key_queue_ok (q : key_queue) : Prop :=
  length (q_bytes q) = QUEUE_CAPACITY /\ q_head q < QUEUE_CAPACITY /\ q_tail q < QUEUE_CAPACITY.

(** What the consumer has read so far agrees with the queue. *)
Definition consumer_ok (q : key_queue) (pc : consumer) : Prop :=
  match pc with
  | CIdle => True
  | CTail tail => tail = q_tail q
  | CNonEmpty tail => tail = q_tail q /\ key_items q <> []
  | CByte tail b => tail = q_tail q /\ head (key_items q) = Some b
  end.

Definition key_sys_ok (s : key_sys) : Prop :=
  key_queue_ok (sys_queue s) /\ consumer_ok (sys_queue s) (sys_pc s) /\
  sys_accepted s = sys_returned s ++ key_items (sys_queue s).

(** ** The queue interface *)

#[export] Instance InputBuffer_fifo : Fifo InputBuffer := {
  fifo_ok i := ring_ok INPUT_CAPACITY (input_ring i);
  fifo_items i := ring_items INPUT_CAPACITY (input_ring i);
  fifo_capacity := INPUT_CAPACITY;
  fifo_put b i := default i (InputBuffer_push b i);
  fifo_get i := match InputBuffer_read i [0%Z] with
                | Some (1, [b], i') => Some (b, i')
                | _ => None
                end;
}.

#[export] Instance key_queue_fifo : Fifo key_queue := {
  fifo_ok := key_queue_ok;
  fifo_items := key_items;
  fifo_capacity := QUEUE_CAPACITY - 1;
  fifo_put b q := default q (enqueue_key b q);
  fifo_get q := match dequeue_key q with
                | Some (Some b, q') => Some (b, q')
                | _ => None
                end;
}.

(** ** Lemmas on [InputBuffer] *)

Lemma InputBuffer_push_spec b i :
  ring_ok INPUT_CAPACITY (input_ring i) ->
  exists i', InputBuffer_push b i = Some i' /\ ring_ok INPUT_CAPACITY (input_ring i') /\
    ring_items INPUT_CAPACITY (input_ring i') =
      if r_length (input_ring i) <? INPUT_CAPACITY
      then ring_items INPUT_CAPACITY (input_ring i) ++ [b]
      else ring_items INPUT_CAPACITY (input_ring i).
Proof.
  intros Hok. unfold InputBuffer_push. pose proof Hok as (_ & _ & _ & Hl).
  destruct (Nat.eqb_spec (r_length (input_ring i)) INPUT_CAPACITY) as [E|E].
  - exists i. rewrite E. done.
  - destruct (ring_push_spec INPUT_CAPACITY b (input_ring i) Hok) as (r & -> & Hr & Hi); [lia|].
    exists (mk_input r). simpl. rewrite (proj2 (Nat.ltb_lt _ _)) by lia. done.
Qed.

Lemma InputBuffer_read_spec i output :
  ring_ok INPUT_CAPACITY (input_ring i) ->
  let n := length output `min` length (ring_items INPUT_CAPACITY (input_ring i)) in
  exists i', InputBuffer_read i output =
      Some (n, take n (ring_items INPUT_CAPACITY (input_ring i)) ++ drop n output, i') /\
    ring_ok INPUT_CAPACITY (input_ring i') /\
    ring_items INPUT_CAPACITY (input_ring i') = drop n (ring_items INPUT_CAPACITY (input_ring i)).
Proof.
  intros Hok n. destruct (ring_read_spec INPUT_CAPACITY (input_ring i) output Hok)
    as (r & E & Hr & Hi).
  rewrite <-(length_ring_items INPUT_CAPACITY) in E, Hi. fold n in E, Hi.
  exists (mk_input r). unfold InputBuffer_read. rewrite E. done.
Qed.

(** Reading one byte at a time from a buffer with the contract of
    [ring_read_spec] is the [get] of a queue. *)
Lemma read_one_get {Q} (items : list Z) (q : Q) :
  let n := length [0%Z] `min` length items in
  match Some (n, take n items ++ drop n [0%Z], q) with
  | Some (1, [b], q') => Some (b, q')
  | _ => None
  end = (fun b => (b, q)) <$> head items /\ drop n items = tail items.
Proof. destruct items as [|b items]; simpl; done. Qed.

#[export] Instance InputBuffer_fifo_laws : FifoLaws InputBuffer.
Proof.
  split; simpl; intros.
  - destruct H as (_ & _ & _ & Hl). len.
  - by destruct (InputBuffer_push_spec b q H) as (i' & -> & ? & ?).
  - destruct (InputBuffer_push_spec b q H) as (i' & -> & ? & Hi). simpl.
    by rewrite Hi, length_ring_items.
  - destruct (InputBuffer_read_spec q [0%Z] H) as (i' & -> & Hok & Hi).
    rewrite (proj1 (read_one_get _ i')). destruct (ring_items INPUT_CAPACITY (input_ring q)); simpl; split; done.
  - destruct (InputBuffer_read_spec q [0%Z] H) as (i' & E & Hok & Hi).
    destruct (read_one_get (ring_items INPUT_CAPACITY (input_ring q)) i') as [E1 E2].
    rewrite E, E1 in H0. rewrite E2 in Hi.
    destruct (ring_items INPUT_CAPACITY (input_ring q)); by simplify_eq/=.
Qed.

(** ** Lemmas on the key queue *)

Lemma land_mask_mod n : Nat.land n QUEUE_MASK = n mod QUEUE_CAPACITY.
Proof. change QUEUE_MASK with (Nat.ones 8). by rewrite Nat.land_ones. Qed.

Lemma key_ring_ok q : key_queue_ok q -> ring_ok QUEUE_CAPACITY (key_ring q).
Proof.
  intros (Hb & Hh & Ht). split_and!; simpl; [lia|done|done|].
  apply Nat.lt_le_incl, Nat.mod_upper_bound. lia.
Qed.

(** The number of bytes in the queue, by the order of its two indices. *)
Lemma key_length q :
  key_queue_ok q ->
  r_length (key_ring q) =
    if q_tail q <=? q_head q then q_head q - q_tail q
    else q_head q + QUEUE_CAPACITY - q_tail q.
Proof.
  intros (Hb & Hh & Ht). cbn [r_length key_ring]. case_match; bools.
  - replace (q_head q + QUEUE_CAPACITY - q_tail q)
      with (q_head q - q_tail q + 1 * QUEUE_CAPACITY) by lia.
    rewrite Nat.Div0.mod_add, Nat.mod_small by lia. done.
  - rewrite Nat.mod_small by lia. done.
Qed.

Lemma succ_mod n : n < QUEUE_CAPACITY ->
  (n + 1) mod QUEUE_CAPACITY = if n =? 255 then 0 else n + 1.
Proof.
  intros Hn. destruct (Nat.eqb_spec n 255) as [->|]; [done|]. apply Nat.mod_small. lia.
Qed.

Lemma key_tail_slot q :
  key_queue_ok q ->
  (q_tail q + r_length (key_ring q)) mod QUEUE_CAPACITY = q_head q.
Proof.
  intros Hq. rewrite (key_length q Hq). destruct Hq as (Hb & Hh & Ht). case_match; bools.
  - rewrite Nat.mod_small; lia.
  - replace (q_tail q + (q_head q + QUEUE_CAPACITY - q_tail q))
      with (q_head q + 1 * QUEUE_CAPACITY) by lia.
    rewrite Nat.Div0.mod_add. apply Nat.mod_small. lia.
Qed.

(** [enqueue_key] appends a byte, unless 255 bytes are waiting. *)
Lemma enqueue_key_spec b q :
  key_queue_ok q ->
  exists q', enqueue_key b q = Some q' /\ key_queue_ok q' /\ q_tail q' = q_tail q /\
    (if length (key_items q) <? QUEUE_CAPACITY - 1
     then q_head q' <> q_head q /\ key_items q' = key_items q ++ [b]
     else q' = q).
Proof.
  intros Hq. pose proof Hq as (Hb & Hh & Ht). unfold enqueue_key.
  unfold key_items at 1. rewrite length_ring_items, (key_length q Hq).
  rewrite land_mask_mod, (succ_mod (q_head q)) by done. rewrite Hb.
  rewrite (proj2 (Nat.ltb_lt _ _) Hh).
  destruct (Nat.eqb_spec (if q_head q =? 255 then 0 else q_head q + 1) (q_tail q)) as [E|E].
  { exists q. do 3 (split; [done|]). rewrite (proj2 (Nat.ltb_ge _ _)); [done|].
    repeat case_match; bools; lia. }
  set (q' := mk_key_queue _ _ _). exists q'.
  assert (key_queue_ok q') as Hq'.
  { split_and!; simpl; [by rewrite length_insert|case_match; bools; lia|done]. }
  do 3 (split; [done|]).
  rewrite (proj2 (Nat.ltb_lt _ _)) by (repeat case_match; bools; lia).
  split; [simpl; case_match; bools; lia|].
  destruct (ring_push_spec QUEUE_CAPACITY b (key_ring q) (key_ring_ok q Hq)) as (r & Hr & _ & Hi).
  { rewrite (key_length q Hq). repeat case_match; bools; lia. }
  unfold key_items. rewrite <-Hi. f_equal. unfold ring_push in Hr.
  change (r_head (key_ring q)) with (q_tail q) in Hr. rewrite (key_tail_slot q Hq) in Hr.
  case_match; [|done]. simplify_eq.
  assert (r_length (key_ring q') = r_length (key_ring q) + 1) as E2; cycle 1.
  { rewrite <-E2. done. }
  rewrite (key_length q Hq), (key_length q' Hq'). simpl.
  repeat case_match; bools; lia.
Qed.

(** [dequeue_key] removes the oldest byte. *)
Lemma key_items_nil q : key_queue_ok q -> key_items q = [] <-> q_tail q = q_head q.
Proof.
  intros Hq. rewrite <-length_zero_iff_nil. unfold key_items.
  rewrite length_ring_items, (key_length q Hq). destruct Hq as (? & ? & ?).
  case_match; bools; lia.
Qed.

Lemma key_advance q :
  key_queue_ok q -> key_items q <> [] ->
  exists b, q_bytes q !! q_tail q = Some b /\
    let q' := mk_key_queue (q_bytes q) (q_head q) (Nat.land (q_tail q + 1) QUEUE_MASK) in
    key_queue_ok q' /\ key_items q = b :: key_items q'.
Proof.
  intros Hq Hne. rewrite (key_items_nil q Hq) in Hne. pose proof Hq as (Hb & Hh & Ht).
  rewrite land_mask_mod, succ_mod by done.
  destruct (ring_pop_spec QUEUE_CAPACITY (key_ring q) (key_ring_ok q Hq))
    as (b & r & Hp & _ & Hi).
  { rewrite (key_length q Hq). case_match; bools; lia. }
  unfold ring_pop in Hp. cbn [r_bytes r_head key_ring] in Hp.
  destruct (q_bytes q !! q_tail q) as [b'|]; [|done].
  exists b'. split; [done|].
  set (q' := mk_key_queue _ _ _).
  assert (key_queue_ok q') as Hq'
    by (split_and!; simpl; [done..|clear Hp; case_match; bools; lia]).
  split; [done|].
  destruct (r_length (key_ring q)) as [|n] eqn:Hn; [done|]. simplify_eq.
  unfold key_items at 1. rewrite Hi. f_equal. unfold key_items. f_equal.
  unfold key_ring at 1. rewrite succ_mod by done. f_equal.
  rewrite (key_length q Hq) in Hn. change (n = r_length (key_ring q')).
  rewrite (key_length q' Hq'). simpl. repeat case_match; bools; lia.
Qed.

#[export] Instance key_queue_fifo_laws : FifoLaws key_queue.
Proof.
  split; simpl; intros.
  - unfold key_items. rewrite length_ring_items, (key_length q H). destruct H as (?&?&?).
    case_match; bools; lia.
  - by destruct (enqueue_key_spec b q H) as (q' & -> & ? & ?).
  - destruct (enqueue_key_spec b q H) as (q' & -> & ? & ? & Hi). simpl in *.
    by case_match; destruct_and?; simplify_eq.
  - rewrite (key_items_nil q H). unfold dequeue_key.
    destruct (Nat.eqb_spec (q_tail q) (q_head q)) as [E|E]; [done|].
    destruct (key_advance q H) as (b & -> & _); [by rewrite key_items_nil|]. done.
  - revert H0. unfold dequeue_key.
    destruct (Nat.eqb_spec (q_tail q) (q_head q)) as [E|E]; [done|].
    destruct (key_advance q H) as (c & -> & ? & ?); [by rewrite key_items_nil|].
    simpl. intros. by simplify_eq.
Qed.

(** ** The interleaved key queue *)

Lemma head_enqueue q q' b c :
  key_queue_ok q -> enqueue_key b q = Some q' ->
  head (key_items q) = Some c -> head (key_items q') = Some c.
Proof.
  intros Hq E Hc. destruct (enqueue_key_spec b q Hq) as (q1 & E1 & _ & _ & Hi).
  rewrite E in E1. simplify_eq. case_match; [|by subst].
  destruct Hi as [_ ->]. by destruct (key_items q).
Qed.

Lemma key_sys_ok_enqueue b q q' pc acc ret :
  enqueue_key b q = Some q' -> key_sys_ok (mk_key_sys q pc acc ret) ->
  key_sys_ok (mk_key_sys q' pc (if decide (q_head q' = q_head q) then acc else acc ++ [b]) ret).
Proof.
  intros E (Hq & Hpc & Hacc). simpl in *.
  destruct (enqueue_key_spec b q Hq) as (q1 & E1 & Hq1 & Ht & Hi).
  rewrite E in E1. simplify_eq. split; [done|]. simpl. split.
  - destruct pc as [|tail|tail|tail c]; simpl in *; [done|congruence| |].
    + destruct Hpc as [-> Hne]. split; [done|].
      destruct (key_items q) as [|c l] eqn:Hk; [done|].
      assert (head (key_items q1) = Some c) as Hh
        by (apply (head_enqueue q q1 b c Hq E); by rewrite Hk).
      by destruct (key_items q1).
    + destruct Hpc as [-> Hh]. split; [done|]. by apply (head_enqueue q q1 b).
  - case_match.
    + destruct Hi as [Hne ->]. rewrite decide_False by done. by rewrite app_assoc.
    + subst. by rewrite decide_True.
Qed.

Lemma key_sys_ok_step s s' : key_step s s' -> key_sys_ok s -> key_sys_ok s'.
Proof.
  intros Hs Hok. destruct Hs as [b q q' pc acc ret E|q acc ret|q tail acc ret
    |q tail b acc ret Hb|q tail b acc ret].
  - by apply key_sys_ok_enqueue.
  - by destruct Hok as (Hq & _ & Hacc).
  - destruct Hok as (Hq & Hpc & Hacc). simpl in *. subst tail.
    destruct (Nat.eqb_spec (q_tail q) (q_head q)); [done|].
    split; [done|]. simpl. split; [|done]. split; [done|]. by rewrite key_items_nil.
  - destruct Hok as (Hq & [Ht Hne] & Hacc). simpl in *. subst tail.
    destruct (key_advance q Hq Hne) as (c & Hc & _ & Hi).
    split; [done|]. simpl. split; [|done]. split; [done|]. rewrite Hi. rewrite Hb in Hc. by simplify_eq.
  - destruct Hok as (Hq & [-> Hh] & Hacc). simpl in *.
    destruct (key_advance q Hq) as (c & Hc & Hq' & Hi); [by intros E; rewrite E in Hh|].
    rewrite Hi in Hh. simplify_eq/=.
    split; [done|]. simpl. split; [done|]. by rewrite Hi, <-app_assoc.
Qed.

(** An uninterrupted run of the consumer's accesses is [dequeue_key]. *)
Lemma dequeue_key_steps q q' res acc ret :
  dequeue_key q = Some (res, q') ->
  rtc key_step (mk_key_sys q CIdle acc ret)
    (mk_key_sys q' CIdle acc (ret ++ option_list res)).
Proof.
  unfold dequeue_key. intros E.
  eapply rtc_l; [apply step_load_tail|]. eapply rtc_l; [apply step_load_head|].
  destruct (q_tail q =? q_head q); [simplify_eq; simpl; by rewrite app_nil_r|].
  destruct (q_bytes q !! q_tail q) eqn:Hb; [|done]. simplify_eq/=.
  eapply rtc_l; [by apply step_load_byte|]. eapply rtc_l; [apply step_store_tail|]. done.
Qed.

(** ** Properties *)

(** C35: Bytes the keyboard handler stored in the shell's key queue come out of
    [dequeue_key] in order, none lost, none twice, however the handler interrupts
    the four atomic accesses of [dequeue_key]; at most 255 bytes wait. *)
Theorem key_queue_interleaving s :
  rtc key_step key_sys_init s ->
  sys_accepted s = sys_returned s ++ key_items (sys_queue s) /\
  length (key_items (sys_queue s)) <= QUEUE_CAPACITY - 1.
Proof.
  intros Hr.
  assert (key_sys_ok s) as (Hq & _ & Hacc).
  { apply (rtc_invariant _ _ key_sys_ok_step _ _ Hr).
    split; [split_and!; vm_compute; [done|lia..]|]. done. }
  split; [done|]. exact (fifo_bound (sys_queue s) Hq).
Qed.

(** The handler stores ['a'], and ['b'] in the middle of [dequeue_key]. *)
Lemma key_queue_interleaving_witness : exists s,
  sys_returned s = [97]%Z /\ sys_accepted s = [97; 98]%Z /\
  sys_accepted s = sys_returned s ++ key_items (sys_queue s) /\
  length (key_items (sys_queue s)) <= QUEUE_CAPACITY - 1.
Proof.
  eexists. split; [|split]; cycle 2.
  - apply key_queue_interleaving.
    eapply rtc_l; [apply (step_enqueue 97%Z); reflexivity|].
    eapply rtc_l; [apply step_load_tail|]. eapply rtc_l; [apply step_load_head|].
    eapply rtc_l; [apply step_load_byte; reflexivity|].
    eapply rtc_l; [apply (step_enqueue 98%Z); reflexivity|].
    eapply rtc_l; [apply step_store_tail|]. apply rtc_refl.
  - vm_compute. reflexivity.
  - vm_compute. reflexivity.
Defined.

(** The standard-input buffer is a first-in first-out queue over any sequence
    of puts and one-byte reads: what was stored is what was read followed by what
    is still unread, the stored bytes are the pushed ones in order, and none is
    dropped while no more than 256 bytes were pushed. *)
Theorem input_buffer_fifo evs outs ins i :
  fifo_run evs InputBuffer_new = (outs, ins, i) ->
  ins = outs ++ fifo_items i /\ ins `sublist_of` fifo_puts evs /\
  (length (fifo_puts evs) <= INPUT_CAPACITY -> ins = fifo_puts evs).
Proof.
  intros E. apply fifo_run_spec in E as (_ & Hi & Hs & Hc); [done|].
  by apply ring_new_ok; lia.
Qed.

Lemma input_buffer_fifo_witness :
  let '(outs, ins, i) :=
    fifo_run [EvPut 104%Z; EvPut 105%Z; EvGet; EvPut 10%Z; EvGet] InputBuffer_new in
  outs = [104; 105]%Z /\ ins = outs ++ fifo_items i /\ ins `sublist_of` [104; 105; 10]%Z /\
  (3 <= INPUT_CAPACITY -> ins = [104; 105; 10]%Z).
Proof.
  destruct (fifo_run _ _) as [[outs ins] i] eqn:E.
  split; [|exact (input_buffer_fifo _ outs ins i E)].
  vm_compute in E. by injection E as <- <- _.
Defined.
