(* ===== verification/Timer.v ===== *)
(** * Timer

    [time/timer.rs]: the tick counter, the polling sleep used before the
    scheduler runs and the split of an uptime for display. *)

From S2P Require Import Prelude.

Local Open Scope Z_scope.

Definition PIT_INPUT_HZ : Z := 1193182.
Definition TICKS_PER_SECOND : Z := 100.

(** [as u16] truncates. *)
Definition PIT_DIVISOR : Z := (PIT_INPUT_HZ / TICKS_PER_SECOND) mod u16_limit.

(** The bytes [init] writes: the command port, then channel 0 twice. *)
Definition timer_init_writes : list (Z * Z) :=
  [(0x43, 0x36); (0x40, PIT_DIVISOR mod u8_limit); (0x40, Z.shiftr PIT_DIVISOR 8 mod u8_limit)].

(** [TICKS.fetch_add(1)] wraps at 2^64. *)
Definition on_interrupt (ticks : Z) : Z := wrapping_add u64_limit ticks 1.

Definition uptime_seconds (ticks : Z) : Z := ticks / TICKS_PER_SECOND.

(** The polling loop of [sleep_ticks].  [halts] lists, for each
    [enable_and_hlt], the number of timer interrupts handled before the processor
    continues: other interrupts end a halt too.  [None]: the loop has not ended
    after the listed halts. *)
Fixpoint poll_sleep (start duration ticks : Z) (halts : list nat) : option Z :=
  if wrapping_sub u64_limit ticks start <? duration then
    match halts with
    | [] => None
    | n :: halts => poll_sleep start duration (Nat.iter n on_interrupt ticks) halts
    end
  else Some ticks.

Definition split_uptime (seconds : Z) : Z * Z * Z * Z :=
  let days := seconds / 86400 in
  let hours := ((seconds / 3600) mod 24) mod u8_limit in
  let minutes := ((seconds / 60) mod 60) mod u8_limit in
  let seconds := (seconds mod 60) mod u8_limit in
  (days, hours, minutes, seconds).

(** Timer interrupts during a list of halts. *)
Definition total (halts : list nat) : Z := Z.of_nat (sum_list halts).

(** ** Lemmas *)

Lemma on_interrupt_iter n t :
  0 <= t < u64_limit ->
  Nat.iter n on_interrupt t = (t + Z.of_nat n) mod u64_limit.
Proof.
  intros Ht. induction n as [|n IH].
  { simpl. rewrite Z.add_0_r, Z.mod_small by lia. done. }
  simpl Nat.iter. rewrite IH. unfold on_interrupt, wrapping_add.
  rewrite Z.add_mod_idemp_l by lia. f_equal. lia.
Qed.

Lemma elapsed_ticks start t :
  wrapping_sub u64_limit ((start + t) mod u64_limit) start = t mod u64_limit.
Proof.
  unfold wrapping_sub. rewrite Zminus_mod_idemp_l. f_equal. lia.
Qed.

Lemma poll_sleep_spec start duration halts t :
  0 <= start < u64_limit -> 0 <= t -> t + total halts < u64_limit ->
  match poll_sleep start duration ((start + t) mod u64_limit) halts with
  | Some t' => exists k, (k <= length halts)%nat /\
      t' = (start + t + total (take k halts)) mod u64_limit /\
      duration <= t + total (take k halts) /\
      (forall j, (j < k)%nat -> t + total (take j halts) < duration)
  | None => t + total halts < duration
  end.
Proof.
  intros Hs. revert t. induction halts as [|n halts IH]; intros t Ht Hb; cbn [poll_sleep];
    rewrite elapsed_ticks, (Z.mod_small t) by (unfold total in *; lia);
    destruct (Z.ltb_spec t duration).
  - unfold total in *; simpl in *. lia.
  - exists 0%nat. simpl. unfold total. simpl. rewrite !Z.add_0_r. split_and!; [lia|done..|lia].
  - assert (total (n :: halts) = Z.of_nat n + total halts) as Htot by (unfold total; simpl; lia).
    rewrite on_interrupt_iter, Zplus_mod_idemp_l by (apply Z.mod_pos_bound; lia).
    replace (start + t + Z.of_nat n) with (start + (t + Z.of_nat n)) by lia.
    specialize (IH (t + Z.of_nat n) ltac:(lia) ltac:(lia)).
    destruct (poll_sleep _ _ _ _) as [t'|]; [|lia].
    destruct IH as (k & Hk & -> & Hd & Hj). exists (S k).
    assert (forall k, total (take (S k) (n :: halts)) = Z.of_nat n + total (take k halts)) as Hn
      by (intros; unfold total; simpl; lia).
    rewrite Hn. split_and!; [simpl; lia|f_equal; lia|lia|].
    intros [|j] Hlt; [unfold total; simpl; lia|]. rewrite Hn. specialize (Hj j). lia.
  - exists 0%nat. unfold total. simpl. rewrite !Z.add_0_r. split_and!; [lia|done..|lia].
Qed.

(** ** Properties *)

(** The polling sleep ends at the first halt by which the requested number of
    ticks has passed, and only then, also when the tick counter wraps around. *)
Theorem poll_sleep_exact start duration halts :
  0 <= start < u64_limit -> total halts < u64_limit ->
  match poll_sleep start duration start halts with
  | Some t' => exists k, (k <= length halts)%nat /\
      t' = (start + total (take k halts)) mod u64_limit /\
      duration <= total (take k halts) /\
      (forall j, (j < k)%nat -> total (take j halts) < duration)
  | None => total halts < duration
  end.
Proof.
  intros Hs Hb. pose proof (poll_sleep_spec start duration halts 0 Hs) as H.
  rewrite Z.add_0_r, (Z.mod_small start) in H by done. apply H; lia.
Qed.

(** The counter wraps during the sleep. *)
Lemma poll_sleep_exact_witness :
  poll_sleep 18446744073709551614 3 18446744073709551614 [1; 0; 1; 2; 1]%nat = Some 2 /\
  exists k, (k <= 5)%nat /\
    2 = (18446744073709551614 + total (take k [1; 0; 1; 2; 1]%nat)) mod u64_limit /\
    3 <= total (take k [1; 0; 1; 2; 1]%nat) /\
    (forall j, (j < k)%nat -> total (take j [1; 0; 1; 2; 1]%nat) < 3).
Proof.
  split; [by vm_compute|].
  exact (poll_sleep_exact 18446744073709551614 3 [1; 0; 1; 2; 1]%nat
    ltac:(lia) ltac:(by vm_compute)).
Defined.

(** The split of an uptime is exact: its parts are in range and sum to it. *)
Theorem split_uptime_roundtrip seconds :
  0 <= seconds < u64_limit ->
  let '(d, h, m, s) := split_uptime seconds in
  d * 86400 + h * 3600 + m * 60 + s = seconds /\
  0 <= d /\ 0 <= h < 24 /\ 0 <= m < 60 /\ 0 <= s < 60.
Proof.
  intros H. unfold split_uptime.
  rewrite !(Z.mod_small (_ mod _)) by
    (pose proof (Z.mod_pos_bound (seconds / 3600) 24);
     pose proof (Z.mod_pos_bound (seconds / 60) 60);
     pose proof (Z.mod_pos_bound seconds 60); lia).
  replace (seconds / 86400) with (seconds / 3600 / 24) by (rewrite Z.div_div by lia; done).
  replace (seconds / 3600) with (seconds / 60 / 60) by (rewrite Z.div_div by lia; done).
  pose proof (Z.div_mod seconds 60). pose proof (Z.mod_pos_bound seconds 60).
  pose proof (Z.div_mod (seconds / 60) 60). pose proof (Z.mod_pos_bound (seconds / 60) 60).
  pose proof (Z.div_mod (seconds / 60 / 60) 24).
  pose proof (Z.mod_pos_bound (seconds / 60 / 60) 24).
  lia.
Qed.

Lemma split_uptime_roundtrip_witness :
  split_uptime 90061 = (1, 1, 1, 1) /\
  1 * 86400 + 1 * 3600 + 1 * 60 + 1 = 90061 /\ 0 <= 1 /\ 0 <= 1 < 24 /\ 0 <= 1 < 60 /\ 0 <= 1 < 60.
Proof. split; [reflexivity|]. exact (split_uptime_roundtrip 90061 ltac:(lia)). Defined.
