(* ===== verification/Keyboard.v ===== *)
(** * Keyboard decoder

    [drivers/keyboard.rs]: the scan code set 1 state machine of the PS/2
    keyboard.  The [char] of [KeyCode::Char] is an ASCII character (the tables
    of the driver produce no other). *)

From Stdlib Require Import Ascii.
From S2P Require Import Prelude.

Inductive KeyState := Pressed | Released.

Inductive KeyCode :=
| Char (c : ascii)
| Enter
| Escape
| Backspace
| Tab
| Space
| LeftShift
| RightShift
| LeftCtrl
| RightCtrl
| LeftAlt
| RightAlt
| CapsLock
| NumLock
| ScrollLock
| F (n : Z)
| ArrowUp
| ArrowDown
| ArrowLeft
| ArrowRight
| Home
| End_
| PageUp
| PageDown
| Insert
| Delete
| Unknown (code : Z).

Record KeyEvent := mk_event {
  code : KeyCode;
  state : KeyState;
  ascii_byte : option Z;
}.

Record Keyboard := mk_keyboard {
  extended : bool;
  pause_remaining : Z;
  left_shift : bool;
  right_shift : bool;
  left_ctrl : bool;
  right_ctrl : bool;
  left_alt : bool;
  right_alt : bool;
  caps_lock : bool;
  num_lock : bool;
  scroll_lock : bool;
}.

#[export] Instance KeyState_eq_dec : EqDecision KeyState.
Proof. solve_decision. Defined.

#[export] Instance ascii_eq_dec : EqDecision ascii := ascii_dec.

#[export] Instance KeyCode_eq_dec : EqDecision KeyCode.
Proof. solve_decision. Defined.

Definition Keyboard_new : Keyboard :=
  mk_keyboard false 0 false false false false false false false false false.

Definition normal_key (code : Z) : KeyCode :=
  match code with
  | 0x01 => Escape
  | 0x02 => Char "1"%char
  | 0x03 => Char "2"%char
  | 0x04 => Char "3"%char
  | 0x05 => Char "4"%char
  | 0x06 => Char "5"%char
  | 0x07 => Char "6"%char
  | 0x08 => Char "7"%char
  | 0x09 => Char "8"%char
  | 0x0A => Char "9"%char
  | 0x0B => Char "0"%char
  | 0x0C => Char "-"%char
  | 0x0D => Char "="%char
  | 0x0E => Backspace
  | 0x0F => Tab
  | 0x10 => Char "q"%char
  | 0x11 => Char "w"%char
  | 0x12 => Char "e"%char
  | 0x13 => Char "r"%char
  | 0x14 => Char "t"%char
  | 0x15 => Char "y"%char
  | 0x16 => Char "u"%char
  | 0x17 => Char "i"%char
  | 0x18 => Char "o"%char
  | 0x19 => Char "p"%char
  | 0x1A => Char "["%char
  | 0x1B => Char "]"%char
  | 0x1C => Enter
  | 0x1D => LeftCtrl
  | 0x1E => Char "a"%char
  | 0x1F => Char "s"%char
  | 0x20 => Char "d"%char
  | 0x21 => Char "f"%char
  | 0x22 => Char "g"%char
  | 0x23 => Char "h"%char
  | 0x24 => Char "j"%char
  | 0x25 => Char "k"%char
  | 0x26 => Char "l"%char
  | 0x27 => Char ";"%char
  | 0x28 => Char "'"%char
  | 0x29 => Char "`"%char
  | 0x2A => LeftShift
  | 0x2B => Char "\"%char
  | 0x2C => Char "z"%char
  | 0x2D => Char "x"%char
  | 0x2E => Char "c"%char
  | 0x2F => Char "v"%char
  | 0x30 => Char "b"%char
  | 0x31 => Char "n"%char
  | 0x32 => Char "m"%char
  | 0x33 => Char ","%char
  | 0x34 => Char "."%char
  | 0x35 => Char "/"%char
  | 0x36 => RightShift
  | 0x37 => Char "*"%char
  | 0x38 => LeftAlt
  | 0x39 => Space
  | 0x3A => CapsLock
  | 0x3B => F (code - 0x3A)
  | 0x3C => F (code - 0x3A)
  | 0x3D => F (code - 0x3A)
  | 0x3E => F (code - 0x3A)
  | 0x3F => F (code - 0x3A)
  | 0x40 => F (code - 0x3A)
  | 0x41 => F (code - 0x3A)
  | 0x42 => F (code - 0x3A)
  | 0x43 => F (code - 0x3A)
  | 0x44 => F (code - 0x3A)
  | 0x45 => NumLock
  | 0x46 => ScrollLock
  | 0x47 => Char "7"%char
  | 0x48 => Char "8"%char
  | 0x49 => Char "9"%char
  | 0x4A => Char "-"%char
  | 0x4B => Char "4"%char
  | 0x4C => Char "5"%char
  | 0x4D => Char "6"%char
  | 0x4E => Char "+"%char
  | 0x4F => Char "1"%char
  | 0x50 => Char "2"%char
  | 0x51 => Char "3"%char
  | 0x52 => Char "0"%char
  | 0x53 => Char "."%char
  | 0x57 => F 11
  | 0x58 => F 12
  | _ => Unknown code
  end%Z.

Definition extended_key (code : Z) : KeyCode :=
  match code with
  | 0x1C => Enter
  | 0x1D => RightCtrl
  | 0x35 => Char "/"%char
  | 0x38 => RightAlt
  | 0x47 => Home
  | 0x48 => ArrowUp
  | 0x49 => PageUp
  | 0x4B => ArrowLeft
  | 0x4D => ArrowRight
  | 0x4F => End_
  | 0x50 => ArrowDown
  | 0x51 => PageDown
  | 0x52 => Insert
  | 0x53 => Delete
  | _ => Unknown (Z.lor code 0x80)
  end%Z.

Definition byte_of (c : ascii) : Z := Z.of_N (N_of_ascii c).

(** [char::is_ascii_alphabetic], [u8::to_ascii_uppercase]. *)
Definition is_upper (b : Z) : bool := ((65 <=? b) && (b <=? 90))%Z.
Definition is_lower (b : Z) : bool := ((97 <=? b) && (b <=? 122))%Z.
Definition is_ascii_alphabetic (b : Z) : bool := is_upper b || is_lower b.
Definition to_ascii_uppercase (b : Z) : Z := if is_lower b then (b - 32)%Z else b.

(** The inner [match] of [to_ascii]. *)
Definition shifted_char (c : ascii) : ascii :=
  match c with
  | "1"%char => "!"%char
  | "2"%char => "@"%char
  | "3"%char => "#"%char
  | "4"%char => "$"%char
  | "5"%char => "%"%char
  | "6"%char => "^"%char
  | "7"%char => "&"%char
  | "8"%char => "*"%char
  | "9"%char => "("%char
  | "0"%char => ")"%char
  | "-"%char => "_"%char
  | "="%char => "+"%char
  | "["%char => "{"%char
  | "]"%char => "}"%char
  | "\"%char => "|"%char
  | ";"%char => ":"%char
  | "'"%char => "034"%char
  | "`"%char => "~"%char
  | ","%char => "<"%char
  | "."%char => ">"%char
  | "/"%char => "?"%char
  | other => other
  end.

(** [byte.to_ascii_uppercase() - b'A' + 1]. *)
Definition control_byte (b : Z) : Z := (to_ascii_uppercase b - 65 + 1)%Z.

Definition to_ascii (k : Keyboard) (key : KeyCode) : option Z :=
  let shifted := left_shift k || right_shift k in
  let ctrl := left_ctrl k || right_ctrl k in
  match key with
  | Char c =>
      let b := byte_of c in
      if is_ascii_alphabetic b then
        if right_alt k && bool_decide (c = "w"%char) then Some (byte_of "|"%char)
        else
          let upper := xorb shifted (caps_lock k) in
          let byte := if upper then to_ascii_uppercase b else b in
          Some (if ctrl then control_byte byte else byte)
      else
        let byte := byte_of (if shifted then shifted_char c else c) in
        Some (if ctrl && is_ascii_alphabetic byte then control_byte byte else byte)
  | Space => Some 32%Z
  | Enter => Some 10%Z
  | Tab => Some 9%Z
  | Backspace => Some 8%Z
  | Escape => Some 0x1B%Z
  | _ => None
  end.

(** The [match key] statement of [process_scancode]; [down] is [!released]. *)
Definition track_modifier (key : KeyCode) (down : bool) (k : Keyboard) : Keyboard :=
  let '(mk_keyboard ext pause ls rs lc rc la ra caps num scr) := k in
  match key with
  | LeftShift => mk_keyboard ext pause down rs lc rc la ra caps num scr
  | RightShift => mk_keyboard ext pause ls down lc rc la ra caps num scr
  | LeftCtrl => mk_keyboard ext pause ls rs down rc la ra caps num scr
  | RightCtrl => mk_keyboard ext pause ls rs lc down la ra caps num scr
  | LeftAlt => mk_keyboard ext pause ls rs lc rc down ra caps num scr
  | RightAlt => mk_keyboard ext pause ls rs lc rc la down caps num scr
  | CapsLock => mk_keyboard ext pause ls rs lc rc la ra (if down then negb caps else caps) num scr
  | NumLock => mk_keyboard ext pause ls rs lc rc la ra caps (if down then negb num else num) scr
  | ScrollLock => mk_keyboard ext pause ls rs lc rc la ra caps num (if down then negb scr else scr)
  | _ => k
  end.

Definition set_prefix (ext : bool) (pause : Z) (k : Keyboard) : Keyboard :=
  mk_keyboard ext pause (left_shift k) (right_shift k) (left_ctrl k) (right_ctrl k)
    (left_alt k) (right_alt k) (caps_lock k) (num_lock k) (scroll_lock k).

Definition process_scancode (k : Keyboard) (scancode : Z) : Keyboard * option KeyEvent :=
  if (0 <? pause_remaining k)%Z then
    (set_prefix (extended k) (pause_remaining k - 1) k, None)
  else if (scancode =? 0xE1)%Z then (set_prefix false 5 k, None)
  else if (scancode =? 0xE0)%Z then (set_prefix true (pause_remaining k) k, None)
  else
    let ext := extended k in
    let k := set_prefix false (pause_remaining k) k in
    let released := negb (Z.land scancode 0x80 =? 0)%Z in
    let code := Z.land scancode 0x7F in
    let state := if released then Released else Pressed in
    let key := if ext then extended_key code else normal_key code in
    let k := track_modifier key (negb released) k in
    let ascii := if released then None else to_ascii k key in
    (k, Some (mk_event key state ascii)).

(** A stream of scan codes: the decoder after it and the events, in order. *)
Fixpoint process_all (k : Keyboard) (scancodes : list Z) : Keyboard * list KeyEvent :=
  match scancodes with
  | [] => (k, [])
  | s :: scancodes =>
      let '(k, ev) := process_scancode k s in
      let '(k, evs) := process_all k scancodes in
      (k, option_list ev ++ evs)
  end.

(** ** What the events say about a modifier *)

(** A key is held when its last event was a press. *)
Fixpoint held (key : KeyCode) (before : bool) (evs : list KeyEvent) : bool :=
  match evs with
  | [] => before
  | ev :: evs =>
      held key (if decide (code ev = key) then bool_decide (state ev = Pressed) else before) evs
  end.

(** A lock is on when its key was pressed an odd number of times. *)
Definition presses (key : KeyCode) (evs : list KeyEvent) : nat :=
  count (fun ev => bool_decide (code ev = key /\ state ev = Pressed)) evs.

(** The flags of the decoder, from the events [evs] seen since [k0]. *)
Definition modifiers_agree (k0 k : Keyboard) (evs : list KeyEvent) : Prop :=
  left_shift k = held LeftShift (left_shift k0) evs /\
  right_shift k = held RightShift (right_shift k0) evs /\
  left_ctrl k = held LeftCtrl (left_ctrl k0) evs /\
  right_ctrl k = held RightCtrl (right_ctrl k0) evs /\
  left_alt k = held LeftAlt (left_alt k0) evs /\
  right_alt k = held RightAlt (right_alt k0) evs /\
  caps_lock k = xorb (caps_lock k0) (Nat.odd (presses CapsLock evs)) /\
  num_lock k = xorb (num_lock k0) (Nat.odd (presses NumLock evs)) /\
  scroll_lock k = xorb (scroll_lock k0) (Nat.odd (presses ScrollLock evs)).

(** Keys whose character is 7-bit ASCII. *)
Definition ascii_key (key : KeyCode) : bool :=
  match key with Char c => (0 <? byte_of c)%Z && (byte_of c <? 128)%Z | _ => true end.

(** ** Lemmas *)

Lemma presses_nil key : Nat.odd (presses key []) = false.
Proof. done. Qed.

Lemma presses_cons key ev evs :
  Nat.odd (presses key (ev :: evs)) =
  xorb (bool_decide (code ev = key /\ state ev = Pressed)) (Nat.odd (presses key evs)).
Proof.
  unfold presses. simpl. case_bool_decide; [|done].
  rewrite Nat.odd_add. by destruct (Nat.odd (count _ _)).
Qed.

Lemma modifiers_agree_cons k0 k1 k ev evs :
  modifiers_agree k0 k1 [ev] -> modifiers_agree k1 k evs -> modifiers_agree k0 k (ev :: evs).
Proof.
  intros (?&?&?&?&?&?&C1&C2&C3) (?&?&?&?&?&?&D1&D2&D3).
  rewrite presses_cons in C1, C2, C3. cbn [presses count Nat.odd] in C1, C2, C3.
  split_and!; simpl in *; try congruence;
    rewrite presses_cons, ?D1, ?D2, ?D3, ?C1, ?C2, ?C3, ?xorb_assoc; f_equal;
    unfold presses; simpl; by rewrite xorb_false_l.
Qed.

Lemma track_modifier_agrees key released ascii k ext pause :
  modifiers_agree k (track_modifier key (negb released) (set_prefix ext pause k))
    [mk_event key (if released then Released else Pressed) ascii].
Proof.
  unfold modifiers_agree. rewrite !presses_cons. destruct k.
  destruct key, released; simpl; split_and!; rewrite ?xorb_false_r; try done;
    by rewrite xorb_true_r.
Qed.

Lemma process_scancode_agrees k s k' ev :
  process_scancode k s = (k', ev) -> modifiers_agree k k' (option_list ev).
Proof.
  unfold process_scancode. intros H.
  repeat (case_match; simplify_eq/=;
    [split_and!; simpl; by rewrite ?xorb_false_r|]).
  simplify_eq. simpl. apply track_modifier_agrees.
Qed.

Lemma process_all_agrees k scancodes k' evs :
  process_all k scancodes = (k', evs) -> modifiers_agree k k' evs.
Proof.
  revert k evs. induction scancodes as [|s l IH]; intros k evs H; simpl in H.
  { simplify_eq. split_and!; simpl; by rewrite ?xorb_false_r. }
  destruct (process_scancode k s) as [k1 ev] eqn:E1.
  destruct (process_all k1 l) as [k2 evs2] eqn:E2. simplify_eq.
  apply process_scancode_agrees in E1. apply IH in E2.
  destruct ev as [ev|]; simpl in *; [by eapply modifiers_agree_cons|].
  destruct E1 as (?&?&?&?&?&?&C1&C2&C3), E2 as (?&?&?&?&?&?&?&?&?).
  rewrite presses_nil, xorb_false_r in C1, C2, C3. simpl in *. split_and!; congruence.
Qed.

(** *** Bytes the decoder produces *)

(** A statement about every 7-bit code is checked code by code. *)
Lemma forall_code (P : Z -> bool) :
  forallb P (Z.of_nat <$> seq 0 128) = true ->
  forall s, (0 <= s)%Z -> P (Z.land s 0x7F) = true.
Proof.
  intros H s Hs. rewrite forallb_forall in H. apply H.
  change 0x7F%Z with (Z.ones 7). rewrite Z.land_ones by lia.
  pose proof (Z.mod_pos_bound s (2 ^ 7)). apply list_elem_of_In.
  apply list_elem_of_fmap. exists (Z.to_nat (s mod 2 ^ 7)). split; [lia|].
  apply elem_of_seq. lia.
Qed.

Lemma normal_key_ascii s : (0 <= s)%Z -> ascii_key (normal_key (Z.land s 0x7F)) = true.
Proof. apply (forall_code (fun c => ascii_key (normal_key c))). by vm_compute. Qed.

Lemma extended_key_ascii s : (0 <= s)%Z -> ascii_key (extended_key (Z.land s 0x7F)) = true.
Proof. apply (forall_code (fun c => ascii_key (extended_key c))). by vm_compute. Qed.

Lemma shifted_char_ascii c :
  ascii_key (Char c) = true -> ascii_key (Char (shifted_char c)) = true.
Proof. destruct c as [[] [] [] [] [] [] [] []]; by vm_compute. Qed.

Lemma control_byte_range b : is_ascii_alphabetic b = true -> (1 <= control_byte b <= 26)%Z.
Proof.
  unfold is_ascii_alphabetic, control_byte, to_ascii_uppercase, is_upper, is_lower.
  intros [H|H]%orb_true_iff; bools; case_match; bools; lia.
Qed.

Lemma uppercase_alphabetic b :
  is_ascii_alphabetic b = true -> is_ascii_alphabetic (to_ascii_uppercase b) = true.
Proof.
  unfold is_ascii_alphabetic, to_ascii_uppercase, is_upper, is_lower.
  intros H. destruct ((97 <=? b)%Z && (b <=? 122)%Z) eqn:E; [|by rewrite E, H]. bools.
  rewrite !(proj2 (Z.leb_le _ _)) by lia. done.
Qed.

Lemma to_ascii_range k key b :
  ascii_key key = true -> to_ascii k key = Some b -> (0 < b < 128)%Z.
Proof.
  intros Hk H. destruct key as [c| | | | | | | | | | | | | | | | | | | | | | | | | |];
    try (cbn in H; simplify_eq; lia).
  unfold to_ascii in H. destruct (is_ascii_alphabetic (byte_of c)) eqn:Ha.
  - case_match; simplify_eq; [by vm_compute|].
    set (b := if xorb _ _ then _ else _).
    assert (is_ascii_alphabetic b = true) as Hb
      by (unfold b; case_match; [by apply uppercase_alphabetic|done]).
    case_match; [pose proof (control_byte_range b Hb); lia|].
    revert Hb. unfold is_ascii_alphabetic, is_upper, is_lower.
    intros [?|?]%orb_true_iff; bools; lia.
  - set (d := if _ || _ then shifted_char c else c) in H.
    assert (ascii_key (Char d) = true) as Hd
      by (unfold d; destruct (_ || _); [by apply shifted_char_ascii|done]).
    simpl in Hd. bools. case_match; simplify_eq; [|lia]. bools.
    pose proof (control_byte_range (byte_of d) ltac:(done)). lia.
Qed.

Lemma process_scancode_event k s k' ev :
  (0 <= s)%Z -> process_scancode k s = (k', Some ev) ->
  (state ev = Released -> ascii_byte ev = None) /\
  (forall b, ascii_byte ev = Some b -> (0 < b < 128)%Z).
Proof.
  unfold process_scancode. intros Hs H. do 3 (case_match; [done|]).
  simplify_eq. simpl. split; [by case_match|]. case_match; [done|].
  intros b. apply to_ascii_range. case_match; auto using normal_key_ascii, extended_key_ascii.
Qed.

(** ** Properties *)

(** After any stream of scan codes the modifier flags of the decoder are what
    the key events say: a shift, control or alt key is down exactly when its last
    event was a press, and a lock is on exactly when its key was pressed an odd
    number of times. *)
Theorem keyboard_modifiers scancodes k evs :
  process_all Keyboard_new scancodes = (k, evs) ->
  left_shift k = held LeftShift false evs /\ right_shift k = held RightShift false evs /\
  left_ctrl k = held LeftCtrl false evs /\ right_ctrl k = held RightCtrl false evs /\
  left_alt k = held LeftAlt false evs /\ right_alt k = held RightAlt false evs /\
  caps_lock k = Nat.odd (presses CapsLock evs) /\
  num_lock k = Nat.odd (presses NumLock evs) /\
  scroll_lock k = Nat.odd (presses ScrollLock evs).
Proof.
  intros (?&?&?&?&?&?&?&?&?)%process_all_agrees. simpl in *.
  split_and!; congruence || (by rewrite <-xorb_false_l).
Qed.

(** Left shift down, [A], right control down, caps lock twice. *)
Lemma keyboard_modifiers_witness :
  let '(k, evs) := process_all Keyboard_new [0x2A; 0x1E; 0xE0; 0x1D; 0x3A; 0x3A]%Z in
  left_shift k = held LeftShift false evs /\ right_shift k = held RightShift false evs /\
  left_ctrl k = held LeftCtrl false evs /\ right_ctrl k = held RightCtrl false evs /\
  left_alt k = held LeftAlt false evs /\ right_alt k = held RightAlt false evs /\
  caps_lock k = Nat.odd (presses CapsLock evs) /\
  num_lock k = Nat.odd (presses NumLock evs) /\
  scroll_lock k = Nat.odd (presses ScrollLock evs).
Proof.
  apply (keyboard_modifiers [0x2A; 0x1E; 0xE0; 0x1D; 0x3A; 0x3A]%Z). reflexivity.
Defined.

(** A byte the decoder reports is 7-bit ASCII and not zero (the control-key
    subtraction never underflows), and the release of a key reports none. *)
Theorem keyboard_ascii k s k' ev :
  (0 <= s < 256)%Z -> process_scancode k s = (k', Some ev) ->
  (state ev = Released -> ascii_byte ev = None) /\
  (forall b, ascii_byte ev = Some b -> (0 < b < 128)%Z).
Proof. intros [Hs _]. by apply process_scancode_event. Qed.

(** Control-C. *)
Lemma keyboard_ascii_witness :
  let k := fst (process_scancode Keyboard_new 0x1D%Z) in
  snd (process_scancode k 0x2E%Z) = Some (mk_event (Char "c"%char) Pressed (Some 3%Z)) /\
  (forall b, Some 3%Z = Some b -> (0 < b < 128)%Z).
Proof.
  split; [reflexivity|].
  exact (proj2 (keyboard_ascii (fst (process_scancode Keyboard_new 0x1D%Z)) 0x2E%Z _
    (mk_event (Char "c"%char) Pressed (Some 3%Z)) ltac:(lia) eq_refl)).
Defined.

(** The six scan codes of the Pause key produce no event and leave the decoder
    as it was. *)
Theorem keyboard_pause_transparent k :
  pause_remaining k = 0%Z -> extended k = false ->
  process_all k [0xE1; 0x1D; 0x45; 0xE1; 0x9D; 0xC5]%Z = (k, []).
Proof. destruct k; simpl. by intros -> ->. Qed.

Lemma keyboard_pause_transparent_witness :
  process_all Keyboard_new [0xE1; 0x1D; 0x45; 0xE1; 0x9D; 0xC5]%Z = (Keyboard_new, []).
Proof. apply keyboard_pause_transparent; reflexivity. Defined.
