(* ===== verification/Utf8.v ===== *)
(** * UTF-8 validity

    [core::str::from_utf8] accepts exactly the well-formed byte sequences of the
    Unicode standard: no overlong form, no surrogate, nothing above U+10FFFF. *)

From S2P Require Import Prelude.

Local Open Scope Z_scope.

Definition in_range (lo hi b : Z) : bool := (lo <=? b) && (b <=? hi).

(** A continuation byte. *)
Definition utf8_cont (b : Z) : bool := in_range 0x80 0xBF b.

(** [core::str::from_utf8(bytes).is_ok()]. *)
Fixpoint valid_utf8 (l : list Z) : bool :=
  match l with
  | [] => true
  | b0 :: l1 =>
      if in_range 0 0x7F b0 then valid_utf8 l1 else
      match l1 with
      | [] => false
      | b1 :: l2 =>
          if in_range 0xC2 0xDF b0 then utf8_cont b1 && valid_utf8 l2 else
          match l2 with
          | [] => false
          | b2 :: l3 =>
              let second :=
                if b0 =? 0xE0 then in_range 0xA0 0xBF b1
                else if b0 =? 0xED then in_range 0x80 0x9F b1
                else utf8_cont b1 in
              if in_range 0xE0 0xEF b0 then second && utf8_cont b2 && valid_utf8 l3 else
              match l3 with
              | [] => false
              | b3 :: l4 =>
                  let second :=
                    if b0 =? 0xF0 then in_range 0x90 0xBF b1
                    else if b0 =? 0xF4 then in_range 0x80 0x8F b1
                    else utf8_cont b1 in
                  in_range 0xF0 0xF4 b0 && second && utf8_cont b2 && utf8_cont b3 &&
                  valid_utf8 l4
              end
          end
      end
  end.

(** [str::is_char_boundary]: the end, or a byte that is not a continuation. *)
Definition is_char_boundary (l : list Z) (i : nat) : bool :=
  match l !! i with
  | Some b => negb (utf8_cont b)
  | None => (i =? length l)%nat
  end.

(** ASCII text is UTF-8. *)
Lemma valid_utf8_ascii l : Forall (fun b => 0 <= b < 128) l -> valid_utf8 l = true.
Proof.
  induction 1 as [|b l Hb _ IH]; [done|]. simpl. unfold in_range.
  rewrite !(proj2 (Z.leb_le _ _)) by lia. done.
Qed.
