(* ===== verification/FileSystem.v ===== *)
(** * The file system as its clients see it

    The operations of [fs/ext2.rs] that descriptors, programs, system calls and
    the shell call, as operations on the state [D] of the mounted disk, with the
    errors of the disk driver and of the file system. *)

From S2P Require Import Prelude.

(** [AtaError] of [drivers/ata.rs]. *)
Module AtaError.
Inductive t := InvalidRequest | NoDevice | Timeout | Device.

#[global] Instance t_eq_dec : EqDecision t.
Proof. solve_decision. Defined.
End AtaError.

(** [Ext2Error] of [fs/ext2.rs]. *)
Module Ext2Error.
Inductive t :=
| Disk (e : AtaError.t)
| InvalidFilesystem
| InvalidPath
| NotFound
| AlreadyExists
| NotEmpty
| NoSpace
| AllocationFailed
| FileTooLarge
| RecoveryFailed
| UnsupportedFeature
| NotInitialized.

#[global] Instance t_eq_dec : EqDecision t.
Proof. solve_decision. Defined.
End Ext2Error.

(** The public functions of [fs/ext2.rs], with [E] for [Ext2Error].  [read_file]
    fills a buffer the caller passes and returns the number of bytes copied and
    the size of the file; [for_each_entry] calls its closure with the name, the
    kind (is it a directory) and the size of each entry, also before an error. *)
Class FileSystem (D E : Type) := {
  fs_write_file : list Z -> list Z -> D -> D * outcome E unit;
  fs_read_file_vec : list Z -> nat -> D -> D * outcome E (option (list Z));
  fs_read_file : list Z -> list Z -> D -> D * list Z * outcome E (option (nat * Z));
  fs_for_each_entry : list Z -> D -> D * list (list Z * bool * Z) * outcome E unit;
}.

(** A disk in memory, for examples: the files, and which of the next writes fail. *)
Definition example_disk : Type := gmap (list Z) (list Z) * list bool.

Definition memory_fs {E} (failure : E) : FileSystem example_disk E := {|
  fs_write_file path contents d :=
    match d.2 with
    | true :: fails => ((d.1, fails), Err failure)
    | false :: fails => ((<[path := contents]> d.1, fails), Ok tt)
    | [] => ((<[path := contents]> d.1, []), Ok tt)
    end;
  fs_read_file_vec path limit d := (d, Ok (c ← d.1 !! path; guard (length c <= limit);; Some c));
  fs_read_file path output d :=
    match d.1 !! path with
    | None => (d, output, Ok None)
    | Some c =>
        let n := Nat.min (length c) (length output) in
        (d, splice output 0 (take n c), Ok (Some (n, Z.of_nat (length c))))
    end;
  fs_for_each_entry path d :=
    (d, (fun '(name, c) => (name, false, Z.of_nat (length c) mod 2 ^ 64)%Z) <$> map_to_list d.1, Ok tt);
|}.

Definition example_fs : FileSystem example_disk unit := memory_fs tt.
