(* ===== verification/Disk.v ===== *)
(** * Sector devices

    What the file system relies on from the disk driver: sectors of 512 bytes that
    are read and written in runs; an example device in memory. *)

From S2P Require Import Prelude FileSystem.

Local Open Scope Z_scope.

(** [ata::read_sectors] and [ata::write_sectors]: the first sector, the number of
    sectors and, for a read, the size of the buffer.  The bytes of a read that
    fails are not used. *)
Class SectorDevice (D : Type) := {
  read_sectors : Z -> Z -> nat -> D -> D * outcome AtaError.t (list Z);
  write_sectors : Z -> Z -> list Z -> D -> D * outcome AtaError.t unit;
}.

(** The sectors [lba .. lba + count). *)
Definition sectors_from (sector : Z -> list Z) (lba : Z) (count : nat) : list Z :=
  mjoin ((fun i => sector (lba + Z.of_nat i)) <$> seq 0 count).

(** A device keeps its sectors: a read that succeeds returns them, a write that
    succeeds replaces them, and a write that fails may have changed those it was
    for but no others. *)
Class SectorDeviceLaws (D : Type) `{SectorDevice D} := {
  sector : D -> Z -> list Z;
  sector_bytes : forall d s, length (sector d s) = 512%nat /\ bytes_ok (sector d s);
  read_sectors_spec : forall lba count n d d' r,
    read_sectors lba count n d = (d', r) ->
    (forall s, sector d' s = sector d s) /\ r <> Panic /\
    (forall bytes, r = Ok bytes -> 0 <= count /\ n = (Z.to_nat count * 512)%nat /\
       bytes = sectors_from (sector d) lba (Z.to_nat count));
  write_sectors_spec : forall lba count input d d' r,
    write_sectors lba count input d = (d', r) ->
    (forall s, ~ (lba <= s < lba + count) -> sector d' s = sector d s) /\ r <> Panic /\
    (r = Ok tt -> length input = (Z.to_nat count * 512)%nat /\
       (bytes_ok input -> sectors_from (sector d') lba (Z.to_nat count) = input));
}.

(** ** A device in memory, for examples *)

(** The sectors, and which of the next writes fail. *)
Record mem_disk := mk_mem_disk {
  md_sectors : gmap Z (list Z);
  md_failures : list bool;
}.

Definition blank_sector : list Z := replicate 512 0.

(** 512 bytes, whatever the map holds. *)
Definition as_sector (l : list Z) : list Z := (fun b => b mod 256) <$> take 512 (l ++ blank_sector).

Definition md_sector (d : mem_disk) (s : Z) : list Z := as_sector (default [] (md_sectors d !! s)).

(** The sectors of [input] from [lba] on. *)
Fixpoint md_write (lba : Z) (count : nat) (input : list Z) (m : gmap Z (list Z)) : gmap Z (list Z) :=
  match count with
  | O => m
  | S count => md_write (lba + 1) count (drop 512 input) (<[lba := take 512 input]> m)
  end.

Definition mem_device : SectorDevice mem_disk := {|
  read_sectors lba count n d :=
    (d, if (0 <=? count) && (n =? Z.to_nat count * 512)%nat
        then Ok (sectors_from (md_sector d) lba (Z.to_nat count)) else Err AtaError.InvalidRequest);
  write_sectors lba count input d :=
    if negb (length input =? Z.to_nat count * 512)%nat then (d, Err AtaError.InvalidRequest)
    else match md_failures d with
         | true :: failures => (mk_mem_disk (md_sectors d) failures, Err AtaError.Device)
         | failures =>
             (mk_mem_disk (md_write lba (Z.to_nat count) input (md_sectors d)) (tail failures), Ok tt)
         end;
|}.

(** ** Lemmas *)

Lemma sectors_from_S sec lba n :
  sectors_from sec lba (S n) = sec lba ++ sectors_from sec (lba + 1) n.
Proof.
  unfold sectors_from. cbn [seq fmap list_fmap mjoin list_join]. rewrite Z.add_0_r. f_equal. f_equal.
  rewrite <-fmap_S_seq, <-list_fmap_compose. apply list_fmap_ext. intros i x _. simpl. f_equal. lia.
Qed.

Lemma sectors_from_ext sec sec' lba n :
  (forall s, lba <= s < lba + Z.of_nat n -> sec s = sec' s) ->
  sectors_from sec lba n = sectors_from sec' lba n.
Proof.
  revert lba. induction n as [|n IH]; intros lba Hs; [done|]. rewrite !sectors_from_S, Hs by lia.
  f_equal. apply IH. intros s Hr. apply Hs. lia.
Qed.

Lemma length_sectors_from sec lba n :
  (forall s, length (sec s) = 512%nat) -> length (sectors_from sec lba n) = (n * 512)%nat.
Proof.
  intros Hl. revert lba. induction n as [|n IH]; intros lba; [done|].
  rewrite sectors_from_S, length_app, Hl, IH. lia.
Qed.

Lemma sectors_from_bytes sec lba n : (forall s, bytes_ok (sec s)) -> bytes_ok (sectors_from sec lba n).
Proof.
  intros Hb. revert lba. induction n as [|n IH]; intros lba; [by apply Forall_nil|].
  rewrite sectors_from_S. apply Forall_app. split; [apply Hb|apply IH].
Qed.

Lemma md_write_other lba count input m s :
  ~ (lba <= s < lba + Z.of_nat count) -> md_write lba count input m !! s = m !! s.
Proof.
  revert lba input m. induction count as [|n IH]; intros lba input m Hs; simpl; [done|].
  rewrite IH by lia. apply lookup_insert_ne. lia.
Qed.

Lemma as_sector_id l : length l = 512%nat -> bytes_ok l -> as_sector l = l.
Proof.
  intros Hl Hb. unfold as_sector. rewrite take_app_le, take_ge by lia.
  rewrite <-(list_fmap_id l) at 2. apply list_fmap_ext. intros i b Hi. simpl.
  unfold bytes_ok in Hb. rewrite Forall_lookup in Hb. apply Z.mod_small. by apply (Hb i).
Qed.

Lemma as_sector_ok l : length (as_sector l) = 512%nat /\ bytes_ok (as_sector l).
Proof.
  unfold as_sector, blank_sector. split.
  { rewrite length_fmap, length_take, length_app, length_replicate. lia. }
  apply Forall_fmap, Forall_true. intros b.
  apply Z.mod_pos_bound. lia.
Qed.

Lemma md_write_sectors lba count input m f :
  length input = (count * 512)%nat -> bytes_ok input ->
  sectors_from (md_sector (mk_mem_disk (md_write lba count input m) f)) lba count = input.
Proof.
  revert lba input m. induction count as [|n IH]; intros lba input m Hl Hb; [by destruct input|].
  rewrite <-(take_drop 512 input) in Hb. apply Forall_app in Hb as [Hb1 Hb2].
  rewrite sectors_from_S. cbn [md_write]. rewrite IH by (done || (rewrite length_drop; lia)).
  unfold md_sector. cbn [md_sectors]. rewrite md_write_other by lia. rewrite lookup_insert_eq.
  change (default [] (Some (take 512 input))) with (take 512 input). rewrite (as_sector_id (take 512 input)) by (done || (rewrite length_take; lia)).
  apply take_drop.
Qed.

Definition mem_device_laws : @SectorDeviceLaws mem_disk mem_device.
Proof.
  refine (Build_SectorDeviceLaws _ mem_device md_sector (fun d s => as_sector_ok _) _ _).
  - intros lba count n d d' r [= <- <-]. split; [done|].
    destruct (_ && _) eqn:Hb; split; try done; intros bytes [= <-]. bools. done.
  - intros lba count input d d' r E. cbn in E.
    destruct (Nat.eqb_spec (length input) (Z.to_nat count * 512)) as [Hl|Hl]; cbn [negb] in E;
      [|by injection E as <- <-].
    assert (forall f, let d1 := mk_mem_disk (md_write lba (Z.to_nat count) input (md_sectors d)) f in
      (forall s, ~ (lba <= s < lba + count) -> md_sector d1 s = md_sector d s) /\
      (bytes_ok input -> sectors_from (md_sector d1) lba (Z.to_nat count) = input)) as Hw.
    { intros f. split; [|intros Hb; by apply md_write_sectors]. intros s Hs. unfold md_sector. cbn [md_sectors].
      rewrite md_write_other by lia. done. }
    destruct (md_failures d) as [|[] fs]; injection E as <- <-; [|by split|];
      destruct (Hw (tail (md_failures d))) as [H1 H2]; simpl in *.
    all: split; [apply (Hw _)|]; split; [done|]; intros _; split; [done|apply (Hw _)].
Defined.
