(* ===== verification/Ata.v ===== *)
(** * The disk driver

    [drivers/ata.rs]: sectors through the ports of an ATA drive, with programmed
    input and output.  The drive is an interface: what its ports do, as the ATA
    standard describes the commands the driver uses. *)

From S2P Require Import Prelude Refine FileSystem Disk.

Local Open Scope Z_scope.

Definition DATA : Z := 0x1f0.
Definition ERROR_FEATURES : Z := 0x1f1.
Definition SECTOR_COUNT : Z := 0x1f2.
Definition LBA_LOW : Z := 0x1f3.
Definition LBA_MID : Z := 0x1f4.
Definition LBA_HIGH : Z := 0x1f5.
Definition DRIVE_HEAD : Z := 0x1f6.
Definition STATUS_COMMAND : Z := 0x1f7.
Definition ALT_STATUS_CONTROL : Z := 0x3f6.

Definition STATUS_ERROR : Z := 1.
Definition STATUS_DEVICE_FAULT : Z := 32.
Definition STATUS_DRQ : Z := 8.
Definition STATUS_BUSY : Z := 128.
Definition READ_SECTORS : Z := 0x20.
Definition WRITE_SECTORS : Z := 0x30.
Definition CACHE_FLUSH : Z := 0xe7.
Definition MAX_LBA28 : Z := 0x0fffffff.
Definition WAIT_LIMIT : nat := Z.to_nat 1000000.

#[local] Abbreviation E := AtaError.t.

(** The machine behind the ports: [Port<u8>] and [Port<u16>]. *)
Class Ports (W : Type) := {
  inb : Z -> W -> W * Z;
  outb : Z -> Z -> W -> W;
  inw : Z -> W -> W * Z;
  outw : Z -> Z -> W -> W;
}.

Section driver.
Context {W : Type} `{Ports W}.

Definition read_port (port : Z) : Op W E Z := fun w => let '(w, value) := inb port w in (w, Ok value).
Definition write_port (port value : Z) : Op W E unit := modify (outb port value).

(** [value & mask != 0]. *)
Definition flag (value mask : Z) : bool := negb (Z.land value mask =? 0).

(** The [for] loop of [wait_not_busy]. *)
Fixpoint wait_rounds (n : nat) : Op W E Z :=
  match n with
  | O => fail AtaError.Timeout
  | S n =>
      value ← read_port STATUS_COMMAND;
      if (value =? 0) || (value =? 0xff) then fail AtaError.NoDevice
      else if negb (flag value STATUS_BUSY) then
        if flag value (Z.lor STATUS_ERROR STATUS_DEVICE_FAULT) then fail AtaError.Device else mret value
      else wait_rounds n
  end.

Definition wait_not_busy : Op W E Z := wait_rounds WAIT_LIMIT.

Definition delay_400ns : Op W E unit :=
  for_op (seq 0 4) (fun _ => _ ← read_port ALT_STATUS_CONTROL; mret tt).

Definition validate_request (lba count : Z) (buffer_len : nat) : outcome E unit :=
  expected_len ← ok_or (checked_mul u64_limit count 512) AtaError.InvalidRequest;
  if (count =? 0) || negb (Z.of_nat buffer_len =? expected_len) || (MAX_LBA28 <? lba)
    || match checked_add u32_limit lba (count - 1) with
       | Some last => MAX_LBA28 <? last
       | None => true
       end
  then Err AtaError.InvalidRequest else Ok tt.

(** The first part of a transfer: the drive, the address, the command. *)
Definition start_command (lba count command : Z) : Op W E unit :=
  _ ← write_port DRIVE_HEAD (Z.lor 0xf0 (Z.land (Z.shiftr lba 24) 0x0f));
  _ ← delay_400ns;
  _ ← wait_not_busy;
  _ ← write_port ERROR_FEATURES 0;
  _ ← write_port SECTOR_COUNT count;
  _ ← write_port LBA_LOW (lba mod 256);
  _ ← write_port LBA_MID (Z.shiftr lba 8 mod 256);
  _ ← write_port LBA_HIGH (Z.shiftr lba 16 mod 256);
  write_port STATUS_COMMAND command.

(** The wait before a sector. *)
Definition wait_data : Op W E unit :=
  _ ← delay_400ns;
  status ← wait_not_busy;
  if negb (flag status STATUS_DRQ) then fail AtaError.Device else mret tt.

(** [n] words of the data port, as bytes. *)
Fixpoint read_words (n : nat) : Op W E (list Z) :=
  match n with
  | O => mret []
  | S n => fun w =>
      let '(w, word) := inw DATA w in (rest ← read_words n; mret (le_encode 2 word ++ rest)) w
  end.

(** The words of the bytes, to the data port. *)
Fixpoint write_words (bytes : list Z) : Op W E unit :=
  match bytes with
  | b0 :: b1 :: bytes => _ ← modify (outw DATA (le_decode [b0; b1])); write_words bytes
  | _ => mret tt
  end.

Fixpoint receive_sectors (n : nat) : Op W E (list Z) :=
  match n with
  | O => mret []
  | S n => _ ← wait_data; sector ← read_words 256; rest ← receive_sectors n; mret (sector ++ rest)
  end.

(** [input.chunks_exact(512)]. *)
Fixpoint send_sectors (n : nat) (input : list Z) : Op W E unit :=
  match n with
  | O => mret tt
  | S n => _ ← wait_data; _ ← write_words (take 512 input); send_sectors n (drop 512 input)
  end.

(** [read_sectors_locked] into a buffer of [n] bytes. *)
Definition read_sectors_locked (lba count : Z) (n : nat) : Op W E (list Z) :=
  _ ← lift (validate_request lba count n);
  _ ← start_command lba count READ_SECTORS;
  output ← receive_sectors (n / 512);
  _ ← delay_400ns;
  _ ← wait_not_busy;
  mret output.

Definition write_sectors_locked (lba count : Z) (input : list Z) : Op W E unit :=
  _ ← lift (validate_request lba count (length input));
  _ ← start_command lba count WRITE_SECTORS;
  _ ← send_sectors (length input / 512) input;
  _ ← delay_400ns;
  _ ← wait_not_busy;
  _ ← write_port STATUS_COMMAND CACHE_FLUSH;
  _ ← delay_400ns;
  _ ← wait_not_busy;
  mret tt.

(** The arguments are a [u32] and a [u8]. *)
Definition ata_arguments (lba count : Z) : bool := (0 <=? lba) && (lba <? u32_limit) && (0 <=? count) && (count <? u8_limit).

Definition ata_device : SectorDevice W := {|
  read_sectors lba count n :=
    if ata_arguments lba count then read_sectors_locked lba count n else fail AtaError.InvalidRequest;
  write_sectors lba count input :=
    if ata_arguments lba count then write_sectors_locked lba count input else fail AtaError.InvalidRequest;
|}.
End driver.

(** ** The drive *)

(** The registers of a transfer. *)
Record Registers := mk_registers {
  r_count : Z;
  r_low : Z;
  r_mid : Z;
  r_high : Z;
  r_head : Z;
}.

(** The address and the number of sectors they stand for. *)
Definition register_lba (r : Registers) : Z :=
  r_low r + 2 ^ 8 * r_mid r + 2 ^ 16 * r_high r + 2 ^ 24 * Z.land (r_head r) 0x0f.

Definition set_register (port value : Z) (r : Registers) : Registers :=
  if port =? SECTOR_COUNT then mk_registers value (r_low r) (r_mid r) (r_high r) (r_head r)
  else if port =? LBA_LOW then mk_registers (r_count r) value (r_mid r) (r_high r) (r_head r)
  else if port =? LBA_MID then mk_registers (r_count r) (r_low r) value (r_high r) (r_head r)
  else if port =? LBA_HIGH then mk_registers (r_count r) (r_low r) (r_mid r) value (r_head r)
  else if port =? DRIVE_HEAD then mk_registers (r_count r) (r_low r) (r_mid r) (r_high r) value
  else r.

(** The bits of the device register: the address is one of sectors, and the second drive of
    the channel is meant. *)
Definition selected (r : Registers) : Prop := Z.testbit (r_head r) 6 = true /\ Z.testbit (r_head r) 4 = true.

(** What the data port is for: words to come, or the next sector, the sectors that are left
    and the words of the next one so far. *)
Inductive Phase :=
| Idle
| DataIn (words : list Z)
| DataOut (lba : Z) (left_ : nat) (words : list Z).

Definition data_in (words : list Z) : Phase := match words with [] => Idle | _ => DataIn words end.
Definition data_out (lba : Z) (left_ : nat) : Phase := match left_ with O => Idle | _ => DataOut lba left_ [] end.

Definition words_bytes (words : list Z) : list Z := mjoin (le_encode 2 <$> words).

Definition STATUS_FAILED : Z := Z.lor STATUS_ERROR STATUS_DEVICE_FAULT.

(** What the driver relies on from the second drive of the channel, as ATA describes programmed
    input and output.  Registers and commands count while the drive is neither busy nor in a
    transfer; of a register or a command that is written at another time, and of a command
    while the other drive or an address by cylinders is selected, nothing is said.  The
    drive may be busy after it is selected, after a command and after each sector, and may
    at any time give up a command; a status without BSY and DRQ, or with an error, says that
    the command has ended. *)
Class DriveLaws (W : Type) `{Ports W} := {
  registers : W -> Registers;
  busy : W -> bool;
  phase : W -> Phase;
  drive_sector : W -> Z -> list Z;
  drive_sector_bytes : forall w s, length (drive_sector w s) = 512%nat /\ bytes_ok (drive_sector w s);
  status_read : forall port w, port = STATUS_COMMAND \/ port = ALT_STATUS_CONTROL ->
    let '(w', value) := inb port w in
    r_head (registers w') = r_head (registers w) /\ (phase w = Idle -> registers w' = registers w) /\
    (forall s, drive_sector w' s = drive_sector w s) /\ (phase w' = phase w \/ phase w' = Idle) /\
    (busy w = false -> busy w' = false) /\
    (flag value STATUS_BUSY = false -> busy w' = false /\
       if flag value STATUS_FAILED || negb (flag value STATUS_DRQ) then phase w' = Idle
       else phase w' = phase w /\ phase w <> Idle);
  register_written : forall port value w,
    port ∈ [ERROR_FEATURES; SECTOR_COUNT; LBA_LOW; LBA_MID; LBA_HIGH; DRIVE_HEAD] -> busy w = false -> phase w = Idle ->
    let w' := outb port value w in
    registers w' = set_register port value (registers w) /\ phase w' = Idle /\
    (forall s, drive_sector w' s = drive_sector w s) /\ (port <> DRIVE_HEAD -> busy w' = false);
  command_written : forall command w, busy w = false -> phase w = Idle -> selected (registers w) ->
    let w' := outb STATUS_COMMAND command w in
    r_head (registers w') = r_head (registers w) /\ (forall s, drive_sector w' s = drive_sector w s) /\
    (command = READ_SECTORS -> 0 < r_count (registers w) < 256 -> exists words,
       phase w' = DataIn words /\ length words = (Z.to_nat (r_count (registers w)) * 256)%nat /\
       words_bytes words =
         sectors_from (drive_sector w) (register_lba (registers w)) (Z.to_nat (r_count (registers w)))) /\
    (command = WRITE_SECTORS -> 0 < r_count (registers w) < 256 ->
       phase w' = DataOut (register_lba (registers w)) (Z.to_nat (r_count (registers w))) []) /\
    (command = CACHE_FLUSH -> phase w' = Idle);
  word_read : forall w word words, phase w = DataIn (word :: words) -> busy w = false ->
    let '(w', value) := inw DATA w in
    value = word /\ phase w' = data_in words /\ r_head (registers w') = r_head (registers w) /\
    (forall s, drive_sector w' s = drive_sector w s) /\ ((length words mod 256 <> 0)%nat -> busy w' = false);
  word_written : forall w word lba left_ words, phase w = DataOut lba (S left_) words -> busy w = false -> (length words < 256)%nat ->
    let w' := outw DATA word w in
    r_head (registers w') = r_head (registers w) /\
    if (length words =? 255)%nat
    then phase w' = data_out (lba + 1) left_ /\ drive_sector w' lba = words_bytes (words ++ [word]) /\
      (forall s, s <> lba -> drive_sector w' s = drive_sector w s)
    else phase w' = DataOut lba (S left_) (words ++ [word]) /\ busy w' = false /\ (forall s, drive_sector w' s = drive_sector w s);
}.

(** A drive that takes requests. *)
Definition ready {W} `{DriveLaws W} (w : W) : bool := negb (busy w) && match phase w with Idle => true | _ => false end.

(** A drive that is there and answers before the driver gives up. *)
Definition responsive (W : Type) `{Ports W} : Prop :=
  forall w : W, (wait_not_busy w).2 <> Err AtaError.Timeout /\ (wait_not_busy w).2 <> Err AtaError.NoDevice.

(** The address survives the registers. *)
Lemma lba_bytes lba : 0 <= lba <= MAX_LBA28 ->
  lba mod 256 + 2 ^ 8 * (Z.shiftr lba 8 mod 256) + 2 ^ 16 * (Z.shiftr lba 16 mod 256)
  + 2 ^ 24 * Z.land (Z.lor 0xf0 (Z.land (Z.shiftr lba 24) 0x0f)) 0x0f = lba.
Proof.
  unfold MAX_LBA28. intros Hl.
  assert (Z.land (Z.lor 0xf0 (Z.land (Z.shiftr lba 24) 0x0f)) 0x0f = Z.shiftr lba 24 mod 16) as ->.
  { rewrite Z.land_lor_distr_l. change (Z.land 0xf0 0x0f) with 0. rewrite Z.lor_0_l, <-Z.land_assoc.
    change (Z.land 15 15) with (Z.ones 4). by rewrite Z.land_ones by lia. }
  rewrite !Z.shiftr_div_pow2 by lia. Z.to_euclidean_division_equations. lia.
Qed.

(** The driver selects the second drive, with an address of sectors. *)
Lemma head_selected lba : let head := Z.lor 0xf0 (Z.land (Z.shiftr lba 24) 0x0f) in Z.testbit head 6 = true /\ Z.testbit head 4 = true.
Proof. cbn zeta. by rewrite !Z.lor_spec. Qed.

(** ** Transfers *)

(** A drive between two accesses. *)
Record Drive := mk_drive {
  d_registers : Registers;
  d_busy : bool;
  d_phase : Phase;
  d_sectors : Z -> list Z;
}.

Definition idle (d : Drive) : Prop := d_busy d = false /\ d_phase d = Idle.
Definition head_kept (d d' : Drive) : Prop := r_head (d_registers d') = r_head (d_registers d).

(** The sectors are the same, or those that are not written are. *)
Definition sectors_same (d d' : Drive) : Prop := forall s, d_sectors d' s = d_sectors d s.
Definition sectors_kept (lba count : Z) (d d' : Drive) : Prop :=
  forall s, ~ (lba <= s < lba + count) -> d_sectors d' s = d_sectors d s.

Lemma same_refl d : sectors_same d d.
Proof. by intros s. Qed.

Lemma same_trans d d1 d2 : sectors_same d d1 -> sectors_same d1 d2 -> sectors_same d d2.
Proof. intros H1 H2 s. by rewrite H2. Qed.

Section transfers.
Context {W : Type} `{DriveLaws W}.

#[local] Instance drive_view : Abstraction Drive W := fun d w =>
  registers w = d_registers d /\ busy w = d_busy d /\ phase w = d_phase d /\ forall s, drive_sector w s = d_sectors d s.

(** What is seen of a state. *)
Definition view (w : W) : Drive := mk_drive (registers w) (busy w) (phase w) (drive_sector w).

Lemma view_abstracts w : abstracts (view w) w.
Proof. done. Qed.

Lemma runs_seq {A B} d (m : Op W E A) (k : A -> Op W E B) R X' Q X :
  runs d m R X' -> (forall e d', X' e d' -> X e d') -> (forall a d', R a d' -> runs d' (k a) Q X) ->
  runs d (m ≫= k) Q X.
Proof. intros Hm HX Hk. eapply runs_bind; [eapply runs_mono; [apply Hm|eauto..]|done]. Qed.

#[local] Ltac after spec := eapply runs_seq; [eapply spec|cbn beta; try done|cbn beta].

(** The drive after a request that failed: it is ready, unless it did not answer. *)
Definition settled (e : E) (d : Drive) : Prop :=
  match e with
  | AtaError.Timeout | AtaError.NoDevice => ~ responsive W
  | _ => idle d
  end.

(** Nothing happened but, maybe, that the drive gave up. *)
Record waited (d d' : Drive) : Prop := mk_waited {
  wt_head : head_kept d d';
  wt_registers : d_phase d = Idle -> d_registers d' = d_registers d;
  wt_phase : d_phase d' = d_phase d \/ d_phase d' = Idle;
  wt_busy : d_busy d = false -> d_busy d' = false;
  wt_sectors : sectors_same d d';
}.

Lemma waited_refl d : waited d d.
Proof. constructor; try done. by left. Qed.

Lemma waited_trans d d1 d2 : waited d d1 -> waited d1 d2 -> waited d d2.
Proof.
  intros [H1 H2 H3 H4 H5] [G1 G2 G3 G4 G5]. constructor; [unfold head_kept in *; congruence| | |auto|by eapply same_trans].
  - intros Hi. rewrite G2; [auto|]. destruct H3; congruence.
  - destruct G3 as [->|?]; auto.
Qed.

Lemma waited_idle d d' : waited d d' -> d_phase d = Idle -> d_phase d' = Idle.
Proof. intros Hw Hi. destruct (wt_phase _ _ Hw); congruence. Qed.

(** What a status tells of the phase. *)
Definition tells (value : Z) (d d' : Drive) : Prop :=
  d_busy d' = false /\
  if flag value STATUS_FAILED || negb (flag value STATUS_DRQ) then d_phase d' = Idle
  else d_phase d' = d_phase d /\ d_phase d <> Idle.

Lemma tells_after value d d1 d2 : waited d d1 -> tells value d1 d2 -> tells value d d2.
Proof.
  intros Hw [Hb Ht]. split; [done|]. destruct (_ || _); [done|]. destruct Ht as [Hp Hn].
  destruct (wt_phase _ _ Hw) as [Hp1|Hp1]; [|done]. by rewrite Hp, <- Hp1.
Qed.

Lemma read_port_spec d port : port = STATUS_COMMAND \/ port = ALT_STATUS_CONTROL ->
  runs d (read_port port) (fun value d' => waited d d' /\ (flag value STATUS_BUSY = false -> tells value d d')) (fun _ _ => False).
Proof.
  intros Hp w (Hr & Hb & Hph & Hs). pose proof (status_read port w Hp) as Hlaw. unfold read_port.
  destruct (inb port w) as [w' value]. destruct Hlaw as (L1 & L2 & L3 & L4 & L5 & L6). cbn. rewrite Hr, Hph in *. rewrite Hb in L5.
  exists (view w'). split; [apply view_abstracts|]. split; [|done]. constructor; [done..|]. intros s. cbn. by rewrite L3.
Qed.

Lemma delay_spec d : runs d delay_400ns (fun _ d' => waited d d') (fun _ _ => False).
Proof.
  unfold delay_400ns. generalize (seq 0 4) as l. intros l. revert d.
  induction l as [|x l IH]; intros d; cbn [for_op]; [apply runs_ret, waited_refl|].
  eapply runs_bind with (R := fun _ d' => waited d d').
  - after read_port_spec; [auto|]. intros v d1 [Hw _]. by apply runs_ret.
  - intros ? d1 Hd1. eapply runs_mono; [apply IH| |done]. cbn beta. intros u d2 Hd2. by eapply waited_trans.
Qed.

(** A wait that ends with a status, or with an error of the drive. *)
Lemma wait_rounds_spec d n :
  runs d (wait_rounds n)
    (fun value d' => waited d d' /\ flag value STATUS_FAILED = false /\ tells value d d')
    (fun e d' => waited d d' /\ match e with AtaError.Device => idle d' | AtaError.InvalidRequest => False | _ => True end).
Proof.
  revert d. induction n as [|n IH]; intros d; cbn [wait_rounds]; [apply runs_fail; split; [apply waited_refl|done]|].
  after read_port_spec; [auto|].
  intros value d1 [Hw Htell]. apply runs_if; intros _; [by apply runs_fail|].
  apply runs_if; intros Hbusy.
  - apply negb_true_iff in Hbusy. specialize (Htell Hbusy). apply runs_if; intros Herr.
    + apply runs_fail. split; [done|]. destruct Htell as [Hb Ht]. unfold STATUS_FAILED in Ht. rewrite Herr in Ht. by split.
    + by apply runs_ret.
  - eapply runs_mono; [apply IH| |]; cbn beta.
    + intros v d2 (Hw2 & Hf & Ht). split_and!; [by eapply waited_trans|done|by eapply tells_after].
    + intros e d2 [Hw2 He]. split; [by eapply waited_trans|done].
Qed.

Lemma wait_not_busy_spec d :
  runs d wait_not_busy (fun value d' => waited d d' /\ flag value STATUS_FAILED = false /\ tells value d d')
    (fun e d' => waited d d' /\ settled e d').
Proof.
  intros w Hw. destruct (wait_rounds_spec d WAIT_LIMIT w Hw) as (d' & Hd & Hh). exists d'. fold wait_not_busy in Hd, Hh |- *. split; [done|].
  pose proof (fun Hresp : responsive W => Hresp w) as Hresp.
  destruct (wait_not_busy w) as [w' [value|e|]]; cbn in *; [done| |done]. destruct Hh as [Hwait He]. split; [done|].
  destruct e; cbn; try done; intros Hr; by destruct (Hresp Hr).
Qed.

(** The wait between two commands. *)
Lemma wait_idle_spec d : d_phase d = Idle ->
  runs d wait_not_busy (fun _ d' => waited d d' /\ idle d') (fun e d' => waited d d' /\ settled e d').
Proof.
  intros Hi. eapply runs_mono; [apply wait_not_busy_spec| |done]. intros value d' (Hw & _ & Hb & _). split; [done|]. split; [done|].
  by eapply waited_idle.
Qed.

(** The wait before a sector. *)
Lemma wait_data_spec d :
  runs d wait_data (fun _ d' => waited d d' /\ d_phase d' = d_phase d /\ d_busy d' = false) (fun e d' => waited d d' /\ settled e d').
Proof.
  unfold wait_data. after delay_spec. intros ? d1 Hw1.
  after wait_not_busy_spec; [intros e d2 [Hw2 He]; split; [by eapply waited_trans|done]|].
  intros status d2 (Hw2 & Hf & Hb & Ht). rewrite Hf in Ht. cbn in Ht. assert (waited d d2) as Hw by (by eapply waited_trans).
  apply runs_if; intros Hdrq; rewrite Hdrq in Ht; [by apply runs_fail|].
  destruct Ht as [Hp Hn]. apply runs_ret. split_and!; [done| |done]. destruct (wt_phase _ _ Hw1) as [Hp1|Hp1]; congruence.
Qed.

Lemma write_port_spec d port value :
  port ∈ [ERROR_FEATURES; SECTOR_COUNT; LBA_LOW; LBA_MID; LBA_HIGH] -> idle d ->
  runs d (write_port port value)
    (fun _ d' => d_registers d' = set_register port value (d_registers d) /\ idle d' /\ sectors_same d d') (fun _ _ => False).
Proof.
  intros Hp [Hb Hi] w (Hr & Hb' & Hph & Hs).
  destruct (register_written port value w) as (L1 & L2 & L3 & L4); [set_unfold; tauto|congruence..|].
  exists (view (outb port value w)). split; [apply view_abstracts|]. split_and!; [cbn; by rewrite L1, Hr| |intros s; cbn; by rewrite L3].
  split; [|done]. apply L4. intros ->. set_unfold in Hp. unfold ERROR_FEATURES, SECTOR_COUNT, LBA_LOW, LBA_MID, LBA_HIGH, DRIVE_HEAD in Hp. lia.
Qed.

(** Selecting the drive: it may be busy afterwards. *)
Lemma select_spec d value : idle d ->
  runs d (write_port DRIVE_HEAD value)
    (fun _ d' => d_registers d' = set_register DRIVE_HEAD value (d_registers d) /\ d_phase d' = Idle /\ sectors_same d d') (fun _ _ => False).
Proof.
  intros [Hb Hi] w (Hr & Hb' & Hph & Hs). destruct (register_written DRIVE_HEAD value w) as (L1 & L2 & L3 & _); [set_unfold; tauto|congruence..|].
  exists (view (outb DRIVE_HEAD value w)). split; [apply view_abstracts|]. split_and!; [cbn; by rewrite L1, Hr|done|intros s; cbn; by rewrite L3].
Qed.

(** A command, and what the drive does then. *)
Record commanded (command : Z) (d d' : Drive) : Prop := mk_commanded {
  cm_head : head_kept d d';
  cm_sectors : sectors_same d d';
  cm_read : command = READ_SECTORS -> 0 < r_count (d_registers d) < 256 -> exists words,
    d_phase d' = DataIn words /\ length words = (Z.to_nat (r_count (d_registers d)) * 256)%nat /\
    words_bytes words = sectors_from (d_sectors d) (register_lba (d_registers d)) (Z.to_nat (r_count (d_registers d)));
  cm_write : command = WRITE_SECTORS -> 0 < r_count (d_registers d) < 256 ->
    d_phase d' = DataOut (register_lba (d_registers d)) (Z.to_nat (r_count (d_registers d))) [];
  cm_flush : command = CACHE_FLUSH -> d_phase d' = Idle;
}.

Lemma command_spec d command : idle d -> selected (d_registers d) ->
  runs d (write_port STATUS_COMMAND command) (fun _ d' => commanded command d d') (fun _ _ => False).
Proof.
  intros [Hb Hi] Hsel w (Hr & Hb' & Hph & Hs). rewrite <- Hr in Hsel.
  destruct (command_written command w) as (L1 & L2 & L3 & L4 & L5); [congruence..|done|]. rewrite Hr in *.
  exists (view (outb STATUS_COMMAND command w)). split; [apply view_abstracts|]. cbn. constructor; [done| | |done..].
  - intros s. cbn. by rewrite L2.
  - intros Hc Hn. destruct (L3 Hc Hn) as (words & Hp & Hl & Hw). exists words. split_and!; [done..|]. rewrite Hw. by apply sectors_from_ext.
Qed.

(** The registers when the command is given. *)
Definition addressed (lba count : Z) (d d' : Drive) : Prop :=
  sectors_same d d' /\ selected (d_registers d') /\ r_count (d_registers d') = count /\ register_lba (d_registers d') = lba.

Lemma start_command_spec d lba count command : 0 <= lba <= MAX_LBA28 -> idle d ->
  runs d (start_command lba count command)
    (fun _ d' => exists d1, addressed lba count d d1 /\ commanded command d1 d')
    (fun e d' => sectors_same d d' /\ settled e d').
Proof.
  intros Hl Hi. unfold start_command. after select_spec; [done|]. intros ? d1 (Hr1 & Hp1 & Hs1).
  after delay_spec. intros ? d2 Hw2. assert (d_phase d2 = Idle) as Hp2 by (by eapply waited_idle).
  assert (sectors_same d d2) as Hs2 by (eapply same_trans; [done|apply Hw2]).
  after (wait_idle_spec d2 Hp2); [intros e d3 [Hw3 He]; split; [eapply same_trans; [done|apply Hw3]|done]|]. intros ? d3 [Hw3 Hi3].
  assert (d_registers d3 = set_register DRIVE_HEAD (Z.lor 0xf0 (Z.land (Z.shiftr lba 24) 0x0f)) (d_registers d)) as Hr3
    by (rewrite (wt_registers _ _ Hw3 Hp2), (wt_registers _ _ Hw2 Hp1); done).
  assert (sectors_same d d3) as Hs3 by (eapply same_trans; [done|apply Hw3]). clear Hw2 Hw3 Hs1 Hs2 Hr1 Hp1 Hp2 Hi d1 d2.
  after (write_port_spec d3); [set_unfold; tauto|done|]. intros ? d4 (Hr4 & Hi4 & Hs4).
  after (write_port_spec d4); [set_unfold; tauto|done|]. intros ? d5 (Hr5 & Hi5 & Hs5).
  after (write_port_spec d5); [set_unfold; tauto|done|]. intros ? d6 (Hr6 & Hi6 & Hs6).
  after (write_port_spec d6); [set_unfold; tauto|done|]. intros ? d7 (Hr7 & Hi7 & Hs7).
  after (write_port_spec d7); [set_unfold; tauto|done|]. intros ? d8 (Hr8 & Hi8 & Hs8).
  rewrite Hr7, Hr6, Hr5, Hr4, Hr3 in Hr8. cbn in Hr8.
  assert (addressed lba count d d8) as Ha.
  { split; [intros s; by rewrite Hs8, Hs7, Hs6, Hs5, Hs4, Hs3|]. rewrite Hr8. split_and!; [apply head_selected|done|by apply lba_bytes]. }
  eapply runs_mono; [apply command_spec; [done|apply Ha]| |done]. intros ? d9 Hc. by exists d8.
Qed.

(** *** Reading *)

Lemma words_bytes_cons word words : words_bytes (word :: words) = le_encode 2 word ++ words_bytes words.
Proof. done. Qed.

Lemma words_bytes_app l k : words_bytes (l ++ k) = words_bytes l ++ words_bytes k.
Proof. unfold words_bytes. by rewrite fmap_app, join_app. Qed.

(** One word of the sector. *)
Lemma inw_spec d word words (k : Z -> Op W E (list Z)) Q X : d_phase d = DataIn (word :: words) -> d_busy d = false ->
  (forall d1, d_phase d1 = data_in words -> head_kept d d1 -> sectors_same d d1 -> ((length words mod 256 <> 0)%nat -> d_busy d1 = false) ->
     runs d1 (k word) Q X) ->
  runs d (fun w => let '(w, word) := inw DATA w in k word w) Q X.
Proof.
  intros Hp Hb Hk w (Hr & Hb' & Hph & Hs). pose proof (word_read w word words) as Hlaw.
  destruct (inw DATA w) as [w1 value]. destruct Hlaw as (-> & L1 & L2 & L3 & L4); [congruence..|].
  apply (Hk (view w1)); [done| |intros s; cbn; by rewrite L3|done|apply view_abstracts]. unfold head_kept. cbn. by rewrite L2, Hr.
Qed.

Lemma read_words_spec d n m words :
  (n <= 256)%nat -> length words = (n + m * 256)%nat -> d_phase d = data_in words -> (n <> 0%nat -> d_busy d = false) ->
  runs d (read_words n)
    (fun bytes d' => bytes = words_bytes (take n words) /\ d_phase d' = data_in (drop n words) /\ head_kept d d' /\ sectors_same d d')
    (fun _ _ => False).
Proof.
  revert d words. induction n as [|n IH]; intros d words Hn Hl Hp Hb; cbn [read_words]; [by apply runs_ret|].
  destruct words as [|word words]; cbn in Hl; [lia|]. cbn in Hp.
  apply (inw_spec d word words (fun word => rest ← read_words n; mret (le_encode 2 word ++ rest))); [done|by apply Hb|].
  intros d1 Hp1 Hh1 Hs1 Hb1. eapply runs_bind; [apply (IH d1 words); [lia|lia|done|]|].
  - intros Hn0. apply Hb1. injection Hl as ->. rewrite Nat.Div0.mod_add, Nat.mod_small by lia. done.
  - intros bytes d2 (-> & Hp2 & Hh2 & Hs2). apply runs_ret. split_and!; [done|done|unfold head_kept in *; congruence|by eapply same_trans].
Qed.

Lemma receive_sectors_spec d n words : d_phase d = data_in words -> length words = (n * 256)%nat ->
  runs d (receive_sectors n)
    (fun bytes d' => bytes = words_bytes words /\ d_phase d' = Idle /\ sectors_same d d') (fun e d' => sectors_same d d' /\ settled e d').
Proof.
  revert d words. induction n as [|n IH]; intros d words Hp Hl; cbn [receive_sectors].
  { apply runs_ret. by destruct words. }
  after wait_data_spec; [intros e d1 [Hw He]; split; [apply Hw|done]|]. intros ? d1 (Hw1 & Hp1 & Hb1).
  after (read_words_spec d1 256 n words); [done|lia|congruence|done|]. intros bytes d2 (-> & Hp2 & _ & Hs2).
  assert (sectors_same d d2) as Hs by (eapply same_trans; [apply Hw1|done]).
  after (IH d2 (drop 256 words)); [done|rewrite length_drop; lia|intros e d3 [Hs3 He]; split; [by eapply same_trans|done]|].
  intros rest d3 (-> & Hp3 & Hs3). apply runs_ret. rewrite <-words_bytes_app, take_drop. split_and!; [done|done|by eapply same_trans].
Qed.

(** *** Writing *)

Lemma head_trans d d1 d2 : head_kept d d1 -> head_kept d1 d2 -> head_kept d d2.
Proof. unfold head_kept. congruence. Qed.

Lemma word_spec d word lba left_ words : d_phase d = DataOut lba (S left_) words -> d_busy d = false -> (length words < 256)%nat ->
  runs d (modify (E := E) (outw DATA word))
    (fun _ d' => head_kept d d' /\
       if (length words =? 255)%nat
       then d_phase d' = data_out (lba + 1) left_ /\ d_sectors d' lba = words_bytes (words ++ [word]) /\ sectors_kept lba 1 d d'
       else d_phase d' = DataOut lba (S left_) (words ++ [word]) /\ d_busy d' = false /\ sectors_same d d')
    (fun _ _ => False).
Proof.
  intros Hp Hb Hl w (Hr & Hb' & Hph & Hs). destruct (word_written w word lba left_ words) as [L1 L2]; [congruence..|done|].
  cbn. exists (view (outw DATA word w)). split; [apply view_abstracts|]. split; [unfold head_kept; cbn; by rewrite L1, Hr|].
  cbn. destruct (length words =? 255)%nat; destruct L2 as (H1 & H2 & H3).
  - split_and!; [done..|]. intros s Hn. cbn. rewrite H3 by lia. apply Hs.
  - split_and!; [done..|]. intros s. cbn. by rewrite H3.
Qed.

Lemma write_words_spec d k lba left_ words bytes :
  d_phase d = DataOut lba (S left_) words -> d_busy d = false -> length bytes = (2 * S k)%nat -> (length words + S k)%nat = 256%nat ->
  runs d (write_words bytes)
    (fun _ d' => d_phase d' = data_out (lba + 1) left_ /\ head_kept d d' /\ sectors_kept lba 1 d d' /\
       (bytes_ok bytes -> d_sectors d' lba = words_bytes words ++ bytes))
    (fun _ _ => False).
Proof.
  revert d words bytes. induction k as [|k IH]; intros d words bytes Hp Hb0 Hl Hw;
    (destruct bytes as [|b0 [|b1 bytes]]; cbn in Hl; [lia..|]); cbn [write_words].
  all: after (word_spec d (le_decode [b0; b1]) lba left_ words); [done|done|lia|].
  all: assert (bytes_ok (b0 :: b1 :: bytes) -> bytes_ok bytes /\ le_encode 2 (le_decode [b0; b1]) = [b0; b1]) as Hb
    by (intros Hb; pose proof (proj1 (Forall_app _ [b0; b1] bytes) Hb) as [Hbyte Hbytes]; split; [done|];
        by apply (le_encode_decode [b0; b1])).
  - intros ? d1 [Hh Hd1]. destruct (Nat.eqb_spec (length words) 255); [|lia]. destruct Hd1 as (H1 & H2 & H3).
    destruct bytes; [|cbn in Hl; lia]. apply runs_ret. split_and!; [done..|]. intros Hok.
    rewrite H2, words_bytes_app, words_bytes_cons. by rewrite (proj2 (Hb Hok)).
  - intros ? d1 [Hh Hd1]. destruct (Nat.eqb_spec (length words) 255); [lia|]. destruct Hd1 as (H1 & Hb1 & H2).
    eapply runs_mono; [apply (IH d1 _ bytes H1 Hb1); [lia|rewrite length_app; cbn; lia]| |done].
    intros ? d2 (H3 & Hh2 & H4 & H5). split_and!; [done|by eapply head_trans|intros s Hs; by rewrite H4, H2|]. intros Hok.
    rewrite H5 by apply Hb, Hok. rewrite words_bytes_app, words_bytes_cons, (proj2 (Hb Hok)), <-!(assoc_L (++)). done.
Qed.

Lemma send_sectors_spec d n lba input : d_phase d = data_out lba n -> length input = (n * 512)%nat ->
  runs d (send_sectors n input)
    (fun _ d' => d_phase d' = Idle /\ head_kept d d' /\ sectors_kept lba (Z.of_nat n) d d' /\
       (bytes_ok input -> sectors_from (d_sectors d') lba n = input))
    (fun e d' => sectors_kept lba (Z.of_nat n) d d' /\ settled e d').
Proof.
  revert d lba input. induction n as [|n IH]; intros d lba input Hp Hl; cbn [send_sectors].
  { apply runs_ret. split_and!; [done..|]. intros _. by destruct input. }
  after wait_data_spec; [intros e d1 [Hw He]; split; [intros s _; apply Hw|done]|]. intros ? d1 (Hw1 & Hp1 & Hb1).
  cbn in Hp. after (write_words_spec d1 255 lba n [] (take 512 input)); [congruence|done|rewrite length_take; lia|done|].
  intros ? d2 (Hp2 & Hh2 & Hk2 & Hw2).
  assert (forall d3, sectors_kept (lba + 1) (Z.of_nat n) d2 d3 -> sectors_kept lba (Z.of_nat (S n)) d d3) as Hkept.
  { intros d3 H3 s Hs. rewrite H3, Hk2, (wt_sectors _ _ Hw1) by lia. done. }
  assert (head_kept d d2) as Hh by (eapply head_trans; [apply Hw1|done]).
  eapply runs_mono; [apply (IH d2 (lba + 1) (drop 512 input)); [done|rewrite length_drop; lia]| |]; cbn beta.
  - intros ? d3 (Hp3 & Hh3 & H3 & H3b). split_and!; [done|by eapply head_trans|auto|]. intros Hok.
    rewrite sectors_from_S, H3b by (by apply Forall_drop). rewrite H3, Hw2 by first [lia|by apply Forall_take]. apply take_drop.
  - intros e d3 [H3 He]. auto.
Qed.

(** The wait after a command. *)
Lemma settle_spec {A} d (a : A) : d_phase d = Idle ->
  runs d (_ ← delay_400ns; _ ← wait_not_busy; mret a)
    (fun a' d' => a' = a /\ idle d' /\ sectors_same d d') (fun e d' => sectors_same d d' /\ settled e d').
Proof.
  intros Hi. after delay_spec. intros ? d1 Hw1. assert (d_phase d1 = Idle) as Hi1 by (by eapply waited_idle).
  after (wait_idle_spec d1 Hi1); [intros e d2 [Hw2 He]; split; [eapply same_trans; [apply Hw1|apply Hw2]|done]|]. intros ? d2 [Hw2 Hi2].
  apply runs_ret. split_and!; [done..|]. eapply same_trans; [apply Hw1|apply Hw2].
Qed.

(** *** Requests *)

Lemma validate_request_spec lba count n : ata_arguments lba count = true ->
  validate_request lba count n = Ok tt /\ 0 < count < 256 /\ n = (Z.to_nat count * 512)%nat /\
    0 <= lba /\ lba + count - 1 <= MAX_LBA28 \/
  validate_request lba count n = Err AtaError.InvalidRequest.
Proof.
  unfold ata_arguments, validate_request, checked_mul, checked_add, MAX_LBA28.
  intros Ha. repeat (apply andb_prop in Ha as [Ha ?]). assert ((count * 512 <? u64_limit) = true) as -> by lia.
  cbn [ok_or mbind outcome_bind].
  match goal with |- context [if ?b then _ else _] => destruct b eqn:Hb end; [by right|]. left. split; [done|].
  apply orb_false_elim in Hb as [Hb Hlast]. destruct (Z.ltb_spec (lba + (count - 1)) u32_limit); [|done]. lia.
Qed.

Lemma ata_read_spec d lba count n : idle d ->
  runs d (ata_device.(read_sectors) lba count n)
    (fun bytes d' => (0 < count /\ n = (Z.to_nat count * 512)%nat /\
       bytes = sectors_from (d_sectors d) lba (Z.to_nat count)) /\ idle d' /\ sectors_same d d')
    (fun e d' => sectors_same d d' /\ settled e d').
Proof.
  intros Hi. cbn. apply runs_if; intros Ha; [|by apply runs_fail]. unfold read_sectors_locked.
  destruct (validate_request_spec lba count n Ha) as [(-> & Hc & -> & Hl & Hlast)| ->]; [|by apply runs_err_bind].
  apply runs_ok_bind. after (start_command_spec d lba count READ_SECTORS); [lia|done|].
  intros ? d2 (d1 & (Hs1 & _ & Hcount & Hlba) & Hcmd).
  destruct (cm_read _ _ _ Hcmd eq_refl) as (words & Hp & Hlen & Hbytes); [lia|]. rewrite Hcount in Hlen, Hbytes. rewrite Hlba in Hbytes.
  assert (sectors_same d d2) as Hs2 by (eapply same_trans; [done|apply Hcmd]). rewrite Nat.div_mul by done.
  assert (d_phase d2 = data_in words) as Hp2 by (destruct words; [cbn in Hlen; lia|done]).
  after (receive_sectors_spec d2 (Z.to_nat count) words); [done|lia|intros e d3 [Hs3 He]; split; [by eapply same_trans|done]|].
  intros bytes d3 (-> & Hp3 & Hs3). assert (sectors_same d d3) as Hs by (by eapply same_trans).
  eapply runs_mono; [by apply settle_spec| |]; cbn beta; [|intros e d4 [Hs4 He]; split; [by eapply same_trans|done]].
  intros bytes d4 (-> & Hi4 & Hs4). split; [|split; [done|by eapply same_trans]]. split_and!; [lia|done|].
  rewrite Hbytes. apply sectors_from_ext. intros s _. apply Hs1.
Qed.

Lemma ata_write_spec d lba count input : idle d ->
  runs d (ata_device.(write_sectors) lba count input)
    (fun _ d' => sectors_kept lba count d d' /\ idle d' /\ length input = (Z.to_nat count * 512)%nat /\
       (bytes_ok input -> sectors_from (d_sectors d') lba (Z.to_nat count) = input))
    (fun e d' => sectors_kept lba count d d' /\ settled e d').
Proof.
  intros Hi. cbn. apply runs_if; intros Ha; [|by apply runs_fail]. unfold write_sectors_locked.
  destruct (validate_request_spec lba count (length input) Ha) as [(-> & Hc & Hn & Hl & Hlast)| ->];
    [|by apply runs_err_bind].
  apply runs_ok_bind. after (start_command_spec d lba count WRITE_SECTORS); [lia|done|intros e d1 [H1 He]; split; [by intros s _|done]|].
  intros ? d2 (d1 & (Hs1 & Hsel & Hcount & Hlba) & Hcmd).
  assert (d_phase d2 = data_out lba (Z.to_nat count)) as Hp2.
  { rewrite (cm_write _ _ _ Hcmd eq_refl), Hcount, Hlba by lia. destruct (Z.to_nat count) eqn:Hz; [lia|done]. }
  assert (sectors_same d d2) as Hs2 by (eapply same_trans; [done|apply Hcmd]). rewrite Hn, Nat.div_mul by done.
  assert (forall d3 d4, sectors_kept lba count d2 d3 -> sectors_same d3 d4 -> sectors_kept lba count d d4) as Hk
    by (intros d3 d4 H3 H4 s Hs; by rewrite H4, H3).
  pose proof (send_sectors_spec d2 (Z.to_nat count) lba input Hp2 Hn) as Hsend. rewrite Z2Nat.id in Hsend by lia.
  after Hsend; [intros e d3 [H3 He]; split; [eapply Hk; [done|apply same_refl]|done]|].
  intros ? d3 (Hp3 & Hh3 & Hk3 & Hb3). after delay_spec. intros ? d4 Hw4. assert (d_phase d4 = Idle) as Hp4 by (by eapply waited_idle).
  assert (forall d5, waited d4 d5 -> sectors_same d3 d5) as Hw45 by (intros d5 Hw5; eapply same_trans; [apply Hw4|apply Hw5]).
  after (wait_idle_spec d4 Hp4); [intros e d5 [Hw5 He]; split; [eapply Hk; [done|auto]|done]|]. intros ? d5 [Hw5 Hi5].
  assert (selected (d_registers d5)) as Hsel5.
  { unfold selected. by rewrite (wt_head _ _ Hw5), (wt_head _ _ Hw4), Hh3, (cm_head _ _ _ Hcmd). }
  after (command_spec d5 CACHE_FLUSH Hi5 Hsel5). intros ? d6 Hcmd6.
  assert (sectors_same d3 d6) as Hs6 by (eapply same_trans; [by apply Hw45|apply Hcmd6]).
  eapply runs_mono; [apply settle_spec; by apply (cm_flush _ _ _ Hcmd6)| |]; cbn beta.
  - intros ? d7 (_ & Hi7 & H7). assert (sectors_same d3 d7) as Hs7 by (by eapply same_trans).
    split_and!; [by eapply Hk|done|done|]. intros Hok. rewrite <-Hb3 by done. apply sectors_from_ext. intros s _. apply Hs7.
  - intros e d7 [H7 He]. split; [eapply Hk; [done|by eapply same_trans]|done].
Qed.

(** *** In a state *)

Lemma ready_idle w d : abstracts d w -> ready w = true <-> idle d.
Proof.
  intros (_ & Hb & Hp & _). unfold ready, idle. rewrite Hb, Hp. destruct (d_busy d), (d_phase d); split; try done; by intros [? ?].
Qed.

(** The drive after a request: ready for the next one, unless it did not answer. *)
Definition ready_after {A} (w' : W) (r : outcome E A) : Prop :=
  match r with
  | Err AtaError.Timeout | Err AtaError.NoDevice => ~ responsive W
  | _ => ready w' = true
  end.

Lemma read_request w w' lba count n r : ready w = true -> ata_device.(read_sectors) lba count n w = (w', r) ->
  (forall s, drive_sector w' s = drive_sector w s) /\ r <> Panic /\ ready_after w' r /\
  (forall bytes, r = Ok bytes -> 0 <= count /\ n = (Z.to_nat count * 512)%nat /\ bytes = sectors_from (drive_sector w) lba (Z.to_nat count)).
Proof.
  intros Hw Hr. apply (ready_idle w (view w) (view_abstracts w)) in Hw.
  destruct (ata_read_spec (view w) lba count n Hw w (view_abstracts w)) as (d' & Hd & Hh). rewrite Hr in Hd, Hh. cbn in Hd, Hh.
  pose proof (ready_idle w' d' Hd) as Hready. destruct Hd as (_ & _ & _ & Hd).
  destruct r as [bytes|e|]; cbn in Hh; [destruct Hh as ((Hc & Hn & Hb) & Hi & Hs)|destruct Hh as [Hs He]|done].
  - split_and!; [intros s; rewrite Hd; apply Hs|done|by apply Hready|]. intros ? [= <-]. split_and!; [lia|done..].
  - split_and!; [intros s; rewrite Hd; apply Hs|done| |done]. destruct e; try exact He; by apply Hready.
Qed.

Lemma write_request w w' lba count input r : ready w = true -> ata_device.(write_sectors) lba count input w = (w', r) ->
  (forall s, ~ (lba <= s < lba + count) -> drive_sector w' s = drive_sector w s) /\ r <> Panic /\ ready_after w' r /\
  (r = Ok tt -> length input = (Z.to_nat count * 512)%nat /\ (bytes_ok input -> sectors_from (drive_sector w') lba (Z.to_nat count) = input)).
Proof.
  intros Hw Hr. apply (ready_idle w (view w) (view_abstracts w)) in Hw.
  destruct (ata_write_spec (view w) lba count input Hw w (view_abstracts w)) as (d' & Hd & Hh). rewrite Hr in Hd, Hh. cbn in Hd, Hh.
  pose proof (ready_idle w' d' Hd) as Hready. destruct Hd as (_ & _ & _ & Hd).
  destruct r as [[]|e|]; cbn in Hh; [destruct Hh as (Hs & Hi & Hn & Hb)|destruct Hh as [Hs He]|done].
  - split_and!; [intros s Hout; rewrite Hd; by apply Hs|done|by apply Hready|]. intros _. split; [done|]. intros Hok.
    transitivity (sectors_from (d_sectors d') lba (Z.to_nat count)); [by apply sectors_from_ext|by apply Hb].
  - split_and!; [intros s Hout; rewrite Hd; by apply Hs|done| |done]. destruct e; try exact He; by apply Hready.
Qed.
End transfers.

(** Requests that cannot be served. *)
Definition bad_request (lba count : Z) (n : nat) : bool :=
  negb ((0 <? count) && (Z.of_nat n =? count * 512) && (lba + count - 1 <=? MAX_LBA28)).

Lemma bad_request_spec lba count n : ata_arguments lba count = true -> bad_request lba count n = true ->
  validate_request lba count n = Err AtaError.InvalidRequest.
Proof.
  unfold bad_request. intros Ha Hbad.
  destruct (validate_request_spec lba count n Ha) as [(_ & Hc & -> & Hl & Hlast)|Hr]; [exfalso|done].
  apply negb_true_iff in Hbad. rewrite !andb_false_iff in Hbad. destruct Hbad as [[?%Z.ltb_ge|?%Z.eqb_neq]|?%Z.leb_gt]; lia.
Qed.

(** ** The driver as a sector device *)

Section device.
Context {W : Type} `{DriveLaws W}.
Hypothesis answers : responsive W.

(** A drive that answers is ready whenever it is asked. *)
Definition ready_drive : Type := { w : W | ready w = true }.

Lemma stays_ready {A} (w' : W) (r : outcome E A) : r <> Panic -> ready_after w' r -> ready w' = true.
Proof. destruct r as [a|[]|]; cbn; try done; intros _ Hn; by destruct (Hn answers). Qed.

Lemma read_ready lba count n w : ready w = true -> ready (ata_device.(read_sectors) lba count n w).1 = true.
Proof.
  intros Hw. destruct (ata_device.(read_sectors) lba count n w) as [w' r] eqn:Hr.
  destruct (read_request _ _ _ _ _ _ Hw Hr) as (_ & Hp & Ha & _). by eapply stays_ready.
Qed.

Lemma write_ready lba count input w : ready w = true -> ready (ata_device.(write_sectors) lba count input w).1 = true.
Proof.
  intros Hw. destruct (ata_device.(write_sectors) lba count input w) as [w' r] eqn:Hr.
  destruct (write_request _ _ _ _ _ _ Hw Hr) as (_ & Hp & Ha & _). by eapply stays_ready.
Qed.

Definition on_ready {A} (op : Op W E A) (Hop : forall w, ready w = true -> ready (op w).1 = true) : Op ready_drive E A :=
  fun w => (exist _ (op (proj1_sig w)).1 (Hop _ (proj2_sig w)), (op (proj1_sig w)).2).

Definition ready_device : SectorDevice ready_drive := {|
  read_sectors lba count n := on_ready (ata_device.(read_sectors) lba count n) (read_ready lba count n);
  write_sectors lba count input := on_ready (ata_device.(write_sectors) lba count input) (write_ready lba count input);
|}.

(** The file system may run on it. *)
Definition ata_device_laws : SectorDeviceLaws ready_drive (H := ready_device).
Proof.
  refine {| sector w := drive_sector (proj1_sig w); sector_bytes w := drive_sector_bytes (proj1_sig w) |}.
  - intros lba count n [w Hw] w' r Hr. cbn in Hr. injection Hr as <- <-.
    destruct (read_request w _ lba count n _ Hw (surjective_pairing _)) as (Hs & Hp & _ & Hb). done.
  - intros lba count input [w Hw] w' r Hr. cbn in Hr. injection Hr as <- <-.
    destruct (write_request w _ lba count input _ Hw (surjective_pairing _)) as (Hs & Hp & _ & Hb). done.
Defined.
End device.

(** C26: A drive that is ready, neither busy nor in a transfer, is sent exactly what it is
    asked for.  A read that succeeds fills the whole buffer with the sectors at the address
    and leaves the disk as it is; a write that succeeds has put its bytes there; a write,
    even one that fails half-way, changes no other sector.  After a request the drive is
    ready again, unless it did not answer.  A request for no sectors, past the last address
    or with a buffer of another size is refused before any port is used. *)
Theorem ata_transfers {W} `{DriveLaws W} (w : W) lba count n input : ready w = true ->
  (let '(w', r) := ata_device.(read_sectors) lba count n w in
   r <> Panic /\ (forall s, drive_sector w' s = drive_sector w s) /\ ready_after w' r /\
   (forall bytes, r = Ok bytes ->
      Z.of_nat n = count * 512 /\ bytes = sectors_from (drive_sector w) lba (Z.to_nat count)) /\
   (bad_request lba count n = true -> w' = w /\ r = Err AtaError.InvalidRequest)) /\
  (let '(w', r) := ata_device.(write_sectors) lba count input w in
   r <> Panic /\ (forall s, ~ (lba <= s < lba + count) -> drive_sector w' s = drive_sector w s) /\ ready_after w' r /\
   (r = Ok tt -> bytes_ok input -> sectors_from (drive_sector w') lba (Z.to_nat count) = input) /\
   (bad_request lba count (length input) = true -> w' = w /\ r = Err AtaError.InvalidRequest)).
Proof.
  intros Hw. split.
  - destruct (ata_device.(read_sectors) lba count n w) as [w' r] eqn:Hr.
    destruct (read_request w w' lba count n r Hw Hr) as (Hs & Hp & Ha & Hb). split_and!; [done..| |].
    + intros bytes ->. destruct (Hb bytes eq_refl) as (Hc & -> & ->). split; [lia|done].
    + intros Hbad. revert Hr. cbn. destruct (ata_arguments lba count) eqn:Hargs; [|by intros [= <- <-]].
      unfold read_sectors_locked. rewrite bad_request_spec by done. by intros [= <- <-].
  - destruct (ata_device.(write_sectors) lba count input w) as [w' r] eqn:Hr.
    destruct (write_request w w' lba count input r Hw Hr) as (Hs & Hp & Ha & Hb). split_and!; [done..| |].
    + intros -> Hok. by apply Hb.
    + intros Hbad. revert Hr. cbn. destruct (ata_arguments lba count) eqn:Hargs; [|by intros [= <- <-]].
      unfold write_sectors_locked. rewrite bad_request_spec by done. by intros [= <- <-].
Qed.

(** ** A drive in memory, for an example *)

Record mem_drive := mk_mem_drive {
  m_registers : Registers;
  m_busy : bool;
  m_phase : Phase;
  m_disk : gmap Z (list Z);
}.

Definition m_sector (d : mem_drive) (s : Z) : list Z := as_sector (default [] (m_disk d !! s)).
Definition m_ready (d : mem_drive) : bool := negb (m_busy d) && match m_phase d with Idle => true | _ => false end.

Fixpoint bytes_words (bytes : list Z) : list Z :=
  match bytes with
  | b0 :: b1 :: bytes => le_decode [b0; b1] :: bytes_words bytes
  | _ => []
  end.

(** A command of the drive; a drive that is not selected, or in another mode, does nothing. *)
Definition m_command (command : Z) (d : mem_drive) : Phase :=
  let lba := register_lba (m_registers d) in
  let count := Z.to_nat (r_count (m_registers d)) in
  if negb (Z.testbit (r_head (m_registers d)) 6 && Z.testbit (r_head (m_registers d)) 4) then Idle
  else if command =? READ_SECTORS then data_in (bytes_words (sectors_from (m_sector d) lba count))
  else if command =? WRITE_SECTORS then data_out lba count
  else Idle.

(** The drive is busy for one reading of its status after a command and after a sector;
    what is written while it is not ready is lost. *)
#[local] Instance mem_ports : Ports mem_drive := {|
  inb _ d :=
    if m_busy d then (mk_mem_drive (m_registers d) false (m_phase d) (m_disk d), 0xd0)
    else (d, match m_phase d with Idle => 0x50 | _ => 0x58 end);
  outb port value d :=
    if negb (m_ready d) then d
    else if port =? STATUS_COMMAND then mk_mem_drive (m_registers d) true (m_command value d) (m_disk d)
    else mk_mem_drive (set_register port value (m_registers d)) (port =? DRIVE_HEAD) Idle (m_disk d);
  inw _ d := match m_phase d with
             | DataIn (word :: words) =>
                 (mk_mem_drive (m_registers d) (length words mod 256 =? 0)%nat (data_in words) (m_disk d), word)
             | _ => (d, 0)
             end;
  outw _ word d := match m_phase d with
                   | DataOut lba (S left_) words =>
                       if (length words =? 255)%nat
                       then mk_mem_drive (m_registers d) true (data_out (lba + 1) left_) (<[lba := words_bytes (words ++ [word])]> (m_disk d))
                       else mk_mem_drive (m_registers d) false (DataOut lba (S left_) (words ++ [word])) (m_disk d)
                   | _ => d
                   end;
|}.

Lemma length_words_bytes words : length (words_bytes words) = (length words * 2)%nat.
Proof.
  induction words as [|word words IH]; [done|]. rewrite words_bytes_cons, length_app, length_le_encode, IH. cbn. lia.
Qed.

Lemma words_bytes_ok words : bytes_ok (words_bytes words).
Proof.
  induction words as [|word words IH]; [by apply Forall_nil|]. rewrite words_bytes_cons. apply Forall_app.
  split; [apply le_encode_bytes|done].
Qed.

Lemma bytes_words_spec k bytes : length bytes = (2 * k)%nat -> bytes_ok bytes ->
  length (bytes_words bytes) = k /\ words_bytes (bytes_words bytes) = bytes.
Proof.
  revert bytes. induction k as [|k IH]; intros bytes Hl Hb.
  - by destruct bytes.
  - destruct bytes as [|b0 [|b1 bytes]]; cbn in Hl; [lia..|]. cbn [bytes_words length].
    apply (Forall_app _ [b0; b1] bytes) in Hb as [Hb0 Hb1]. destruct (IH bytes) as [IH1 IH2]; [lia|done|].
    split; [lia|]. rewrite words_bytes_cons, IH2. change (b0 :: b1 :: bytes) with ([b0; b1] ++ bytes). f_equal. by apply (le_encode_decode [b0; b1]).
Qed.

#[local] Instance mem_drive_laws : DriveLaws mem_drive.
Proof.
  refine {| registers := m_registers; busy := m_busy; phase := m_phase; drive_sector := m_sector |}.
  - intros d s. apply as_sector_ok.
  - intros port d Hp. cbn. destruct (m_busy d) eqn:Hb; cbn; [split_and!; try done; by left|].
    split_and!; [done..|by left|done|]. intros _. split; [done|]. by destruct (m_phase d).
  - intros port value d Hp Hb Hi. cbn. unfold m_ready. rewrite Hb, Hi. cbn. set_unfold in Hp. by destruct_or! Hp; subst port.
  - intros command d Hb Hi [H6 H4]. cbn. unfold m_ready. rewrite Hb, Hi. cbn. unfold m_command. rewrite H6, H4. cbn.
    split_and!; [done..| | |by intros ->].
    + intros -> Hc. cbn. destruct (bytes_words_spec (Z.to_nat (r_count (m_registers d)) * 256)
        (sectors_from (m_sector d) (register_lba (m_registers d)) (Z.to_nat (r_count (m_registers d))))) as [Hl Hbytes].
      * rewrite length_sectors_from; [lia|]. intros s. apply as_sector_ok.
      * apply sectors_from_bytes. intros s. apply as_sector_ok.
      * eexists. split_and!; [|exact Hl|exact Hbytes]. destruct (bytes_words _); [cbn in Hl; lia|done].
    + intros -> Hc. cbn. destruct (Z.to_nat _) eqn:Hz; [lia|done].
  - intros d word words Hp Hb. cbn. rewrite Hp. split_and!; [done..|]. cbn. by intros ?%Nat.eqb_neq.
  - intros d word lba left_ words Hp Hb Hl. cbn. rewrite Hp. destruct (Nat.eqb_spec (length words) 255) as [Hw|]; [|done].
    split_and!; [done..| |].
    + unfold m_sector. cbn. rewrite lookup_insert_eq. apply as_sector_id; [|apply words_bytes_ok].
      rewrite length_words_bytes, length_app, Hw. done.
    + intros s Hs. unfold m_sector. cbn. by rewrite lookup_insert_ne.
Defined.

(** It answers at the second reading of its status. *)
Lemma mem_drive_responsive : responsive mem_drive.
Proof.
  assert (exists n, WAIT_LIMIT = S (S n)) as [n Hn] by (exists (WAIT_LIMIT - 2)%nat; unfold WAIT_LIMIT; lia).
  intros [r b p m]. unfold wait_not_busy. rewrite Hn. cbn [wait_rounds]. unfold mbind, op_bind, read_port. cbn.
  destruct b; cbn; by destruct p.
Qed.

(** The second sector holds 7s, and the drive has just been switched on. *)
Definition example_drive : mem_drive := mk_mem_drive (mk_registers 0 0 0 0 0) false Idle {[ 1 := replicate 512 7 ]}.

Lemma example_drive_ready : ready example_drive = true.
Proof. by vm_compute. Qed.

Lemma ata_transfers_witness :
  (exists w', ata_device.(read_sectors) 0 2 1024 example_drive = (w', Ok (replicate 512 0 ++ replicate 512 7)) /\
     forall s, m_sector w' s = m_sector example_drive s) /\
  (exists w', ata_device.(write_sectors) 0x0fffffff 1 (replicate 512 9) example_drive = (w', Ok tt) /\
     sectors_from (m_sector w') 0x0fffffff 1 = replicate 512 9 /\ m_sector w' 1 = replicate 512 7) /\
  ata_device.(write_sectors) 0x0fffffff 2 (replicate 1024 9) example_drive = (example_drive, Err AtaError.InvalidRequest).
Proof.
  destruct (ata_transfers example_drive 0 2 1024 [] example_drive_ready) as [Hread _].
  destruct (ata_transfers example_drive 0x0fffffff 1 0 (replicate 512 9) example_drive_ready) as [_ Hwrite].
  destruct (ata_transfers example_drive 0x0fffffff 2 0 (replicate 1024 9) example_drive_ready) as [_ Hbad].
  split_and!.
  - destruct (ata_device.(read_sectors) 0 2 1024 example_drive) as [w' r] eqn:Hr. destruct Hread as (_ & Hs & _).
    exists w'. split; [|exact Hs]. f_equal. transitivity (ata_device.(read_sectors) 0 2 1024 example_drive).2; [by rewrite Hr|].
    vm_compute. reflexivity.
  - destruct (ata_device.(write_sectors) 0x0fffffff 1 (replicate 512 9) example_drive) as [w' r] eqn:Hr.
    destruct Hwrite as (_ & Hs & _ & Hb & _).
    assert (r = Ok tt) as ->
      by (transitivity (ata_device.(write_sectors) 0x0fffffff 1 (replicate 512 9) example_drive).2;
          [by rewrite Hr|vm_compute; reflexivity]).
    exists w'. split_and!; [done| |].
    + apply Hb; [done|]. apply Forall_replicate. clear. unfold is_byte. lia.
    + etransitivity; [apply (Hs 1); lia|]. vm_compute. reflexivity.
  - destruct (ata_device.(write_sectors) 0x0fffffff 2 (replicate 1024 9) example_drive) as [w' r] eqn:Hr.
    destruct Hbad as (_ & _ & _ & _ & Hbad). destruct Hbad as [-> ->]; [vm_compute; reflexivity|reflexivity].
Defined.
