(* ===== verification/Fd.v ===== *)
(** * File descriptors and pipes

    [tasking/fd.rs].  An [Arc<Mutex<Pipe>>] (or file) is a key of a store; a
    descriptor holds the key, so that copies of a descriptor share the object as
    the [Arc]s do.  The store keeps an object whose last descriptor is gone:
    nothing can reach it. *)

From S2P Require Import Prelude Ring Input Utf8 FileSystem.

Definition STDIN : nat := 0.
Definition STDOUT : nat := 1.
Definition STDERR : nat := 2.
Abbreviation MAX_FDS := 16.
Abbreviation PIPE_CAPACITY := 4096.

Inductive ReadError := ReadInvalid | ReadWouldBlock | ReadIo.

Inductive WriteError := WriteInvalid | WriteWouldBlock | BrokenPipe | WriteIo.

Record FileWrite := mk_file_write {
  fw_path : list Z;
  fw_path_len : nat;
  fw_contents : list Z;
}.

Record FileRead := mk_file_read {
  fr_contents : list Z;
  fr_offset : nat;
}.

Inductive FileDescriptor :=
| Stdin
| Console
| PipeReadEnd (id : nat)
| PipeWriteEnd (id : nat)
| FileWriteFd (id : nat)
| FileReadFd (id : nat).

#[export] Instance FileDescriptor_eq_dec : EqDecision FileDescriptor.
Proof. solve_decision. Defined.

Record Pipe := mk_pipe {
  p_ring : ring;
  readers : nat;
  writers : nat;
}.

Definition Pipe_new : Pipe := mk_pipe (ring_new PIPE_CAPACITY) 0 1.

(** [Pipe::read] and [Pipe::write]; [None] is a panic. *)
Definition Pipe_read (p : Pipe) (output : list Z) : option (nat * list Z * Pipe) :=
  '(n, out, r) ← ring_read PIPE_CAPACITY (p_ring p) output;
  Some (n, out, mk_pipe r (readers p) (writers p)).

Definition Pipe_write (p : Pipe) (input : list Z) : option (nat * Pipe) :=
  let n := length input `min` (PIPE_CAPACITY - r_length (p_ring p)) in
  r ← ring_write_loop PIPE_CAPACITY (take n input) (p_ring p);
  Some (n, mk_pipe r (readers p) (writers p)).

Definition initial_table : list (option FileDescriptor) :=
  <[STDERR := Some Console]> (<[STDOUT := Some Console]> (<[STDIN := Some Stdin]>
    (replicate MAX_FDS None))).

(** ** The shared objects *)

Record Io (D : Type) := mk_io {
  io_pipes : gmap nat Pipe;
  io_fwrites : gmap nat FileWrite;
  io_freads : gmap nat FileRead;
  io_next : nat;            (* the next unused key *)
  io_input : InputBuffer;   (* [drivers::input::INPUT] *)
  io_console : list Z;      (* bytes written to the console *)
  io_disk : D;
}.

Arguments mk_io {D} _ _ _ _ _ _ _.
Arguments io_pipes {D} _.
Arguments io_fwrites {D} _.
Arguments io_freads {D} _.
Arguments io_next {D} _.
Arguments io_input {D} _.
Arguments io_console {D} _.
Arguments io_disk {D} _.

(** The bytes waiting in a pipe, oldest first. *)
Definition pipe_items (p : Pipe) : list Z := ring_items PIPE_CAPACITY (p_ring p).

(** Calls on a pipe, with buffers of any size: what the reads returned, what the
    writes accepted and the final pipe.  [None] is a panic. *)
Inductive pipe_call := CallWrite (input : list Z) | CallRead (output : list Z).

Fixpoint pipe_run (p : Pipe) (calls : list pipe_call) : option (list Z * list Z * Pipe) :=
  match calls with
  | [] => Some ([], [], p)
  | CallWrite input :: calls =>
      '(n, p) ← Pipe_write p input;
      '(outs, ins, p) ← pipe_run p calls;
      Some (outs, take n input ++ ins, p)
  | CallRead output :: calls =>
      '(n, out, p) ← Pipe_read p output;
      '(outs, ins, p) ← pipe_run p calls;
      Some (take n out ++ outs, ins, p)
  end.

Section operations.
Context {D DE : Type} `{FileSystem D DE}.

Definition set_pipe (id : nat) (p : Pipe) (s : Io D) : Io D :=
  mk_io (<[id := p]> (io_pipes s)) (io_fwrites s) (io_freads s) (io_next s)
    (io_input s) (io_console s) (io_disk s).

Definition set_fwrite (id : nat) (f : FileWrite) (s : Io D) : Io D :=
  mk_io (io_pipes s) (<[id := f]> (io_fwrites s)) (io_freads s) (io_next s)
    (io_input s) (io_console s) (io_disk s).

Definition set_fread (id : nat) (f : FileRead) (s : Io D) : Io D :=
  mk_io (io_pipes s) (io_fwrites s) (<[id := f]> (io_freads s)) (io_next s)
    (io_input s) (io_console s) (io_disk s).

Definition set_next (n : nat) (s : Io D) : Io D :=
  mk_io (io_pipes s) (io_fwrites s) (io_freads s) n (io_input s) (io_console s) (io_disk s).

Definition set_input (i : InputBuffer) (s : Io D) : Io D :=
  mk_io (io_pipes s) (io_fwrites s) (io_freads s) (io_next s) i (io_console s) (io_disk s).

Definition set_console (c : list Z) (s : Io D) : Io D :=
  mk_io (io_pipes s) (io_fwrites s) (io_freads s) (io_next s) (io_input s) c (io_disk s).

Definition set_disk (d : D) (s : Io D) : Io D :=
  mk_io (io_pipes s) (io_fwrites s) (io_freads s) (io_next s) (io_input s) (io_console s) d.

(** [Arc::new]: a fresh key. *)
Definition fresh_id {E} : Op (Io D) E nat :=
  id ← gets io_next; _ ← modify (set_next (S id)); mret id.

Definition pipe_at {E} (id : nat) : Op (Io D) E Pipe :=
  p ← gets (fun s => io_pipes s !! id); lift (expect p).
Definition fwrite_at {E} (id : nat) : Op (Io D) E FileWrite :=
  f ← gets (fun s => io_fwrites s !! id); lift (expect f).
Definition fread_at {E} (id : nat) : Op (Io D) E FileRead :=
  f ← gets (fun s => io_freads s !! id); lift (expect f).

(** A call of the file system. *)
Definition on_disk {E A} (f : D -> D * outcome DE A) (g : DE -> E) : Op (Io D) E A :=
  fun s => let '(d, r) := f (io_disk s) in (set_disk d s, map_err g r).

(** [impl Clone for FileDescriptor]. *)
Definition clone {E} (d : FileDescriptor) : Op (Io D) E FileDescriptor :=
  match d with
  | Stdin => mret Stdin
  | Console => mret Console
  | PipeReadEnd id =>
      p ← pipe_at id;
      _ ← modify (set_pipe id (mk_pipe (p_ring p) (readers p + 1) (writers p)));
      mret (PipeReadEnd id)
  | PipeWriteEnd id =>
      p ← pipe_at id;
      _ ← modify (set_pipe id (mk_pipe (p_ring p) (readers p) (writers p + 1)));
      mret (PipeWriteEnd id)
  | FileWriteFd id => mret (FileWriteFd id)
  | FileReadFd id => mret (FileReadFd id)
  end.

(** [impl Drop for FileDescriptor]; [close] is a [drop].  [saturating_sub] on
    [usize] is the truncated subtraction of [nat]. *)
Definition drop_fd {E} (d : FileDescriptor) : Op (Io D) E unit :=
  match d with
  | PipeReadEnd id =>
      p ← pipe_at id; modify (set_pipe id (mk_pipe (p_ring p) (readers p - 1) (writers p)))
  | PipeWriteEnd id =>
      p ← pipe_at id; modify (set_pipe id (mk_pipe (p_ring p) (readers p) (writers p - 1)))
  | Stdin | Console | FileWriteFd _ | FileReadFd _ => mret tt
  end.

Definition create_pipe {E} : Op (Io D) E (option (FileDescriptor * FileDescriptor)) :=
  id ← fresh_id;
  _ ← modify (set_pipe id Pipe_new);
  p ← pipe_at id;
  _ ← modify (set_pipe id (mk_pipe (p_ring p) 1 (writers p)));
  mret (Some (PipeReadEnd id, PipeWriteEnd id)).

Definition create_file_write (path : list Z) : Op (Io D) unit FileDescriptor :=
  if (length path =? 0) || (255 <? length path) then fail tt
  else
    _ ← on_disk (fs_write_file path []) (fun _ => tt);
    id ← fresh_id;
    _ ← modify (set_fwrite id (mk_file_write (splice (replicate 255 0%Z) 0 path) (length path) []));
    mret (FileWriteFd id).

Definition create_file_read (path : list Z) : Op (Io D) unit FileDescriptor :=
  found ← on_disk (fs_read_file_vec path (Z.to_nat (1024 * 1024))) (fun _ => tt);
  contents ← lift (ok_or found tt);
  id ← fresh_id;
  _ ← modify (set_fread id (mk_file_read contents 0));
  mret (FileReadFd id).

(** [fd::read]: the count and the caller's buffer after the call. *)
Definition read (d : FileDescriptor) (output : list Z) : Op (Io D) ReadError (nat * list Z) :=
  match d with
  | Stdin =>
      i ← gets io_input;
      '(n, out, i) ← lift (expect (InputBuffer_read i output));
      _ ← modify (set_input i);
      if n =? 0 then fail ReadWouldBlock else mret (n, out)
  | PipeReadEnd id =>
      p ← pipe_at id;
      if (r_length (p_ring p) =? 0) && negb (writers p =? 0) then fail ReadWouldBlock
      else
        '(n, out, p) ← lift (expect (Pipe_read p output));
        _ ← modify (set_pipe id p);
        mret (n, out)
  | FileReadFd id =>
      f ← fread_at id;
      if length (fr_contents f) <? fr_offset f then panic
      else
        let remaining := drop (fr_offset f) (fr_contents f) in
        let n := length output `min` length remaining in
        _ ← modify (set_fread id (mk_file_read (fr_contents f) (fr_offset f + n)));
        mret (n, splice output 0 (take n remaining))
  | Console | PipeWriteEnd _ | FileWriteFd _ => fail ReadInvalid
  end.

(** [fd::write]. *)
Definition write (d : FileDescriptor) (input : list Z) : Op (Io D) WriteError nat :=
  match d with
  | Console =>
      _ ← modify (fun s => set_console (io_console s ++ input) s);
      mret (length input)
  | PipeWriteEnd id =>
      p ← pipe_at id;
      if readers p =? 0 then fail BrokenPipe
      else
        '(n, p) ← lift (expect (Pipe_write p input));
        _ ← modify (set_pipe id p);
        if (n =? 0) && negb (length input =? 0) then fail WriteWouldBlock else mret n
  | FileWriteFd id =>
      f ← fwrite_at id;
      let contents := fw_contents f ++ input in
      _ ← modify (set_fwrite id (mk_file_write (fw_path f) (fw_path_len f) contents));
      if length (fw_path f) <? fw_path_len f then panic
      else
        let path := take (fw_path_len f) (fw_path f) in
        if negb (valid_utf8 path) then fail WriteIo
        else
          _ ← on_disk (fs_write_file path contents) (fun _ => WriteIo);
          mret (length input)
  | Stdin | PipeReadEnd _ | FileReadFd _ => fail WriteInvalid
  end.

(** ** Invariant

    [live] lists the descriptors in existence, each as often as it exists. *)

Definition is_reader (id : nat) (d : FileDescriptor) : bool := bool_decide (d = PipeReadEnd id).
Definition is_writer (id : nat) (d : FileDescriptor) : bool := bool_decide (d = PipeWriteEnd id).

(** The object of a descriptor exists. *)
Definition backed (s : Io D) (d : FileDescriptor) : Prop :=
  match d with
  | Stdin | Console => True
  | PipeReadEnd id | PipeWriteEnd id => is_Some (io_pipes s !! id)
  | FileWriteFd id => is_Some (io_fwrites s !! id)
  | FileReadFd id => is_Some (io_freads s !! id)
  end.

Definition pipe_ok (live : list FileDescriptor) (id : nat) (p : Pipe) : Prop :=
  ring_ok PIPE_CAPACITY (p_ring p) /\
  readers p = count (is_reader id) live /\ writers p = count (is_writer id) live.

Definition fwrite_ok (f : FileWrite) : Prop :=
  length (fw_path f) = 255 /\ 0 < fw_path_len f <= 255 /\
  valid_utf8 (take (fw_path_len f) (fw_path f)) = true.

Definition fread_ok (f : FileRead) : Prop := fr_offset f <= length (fr_contents f).

Record io_ok (live : list FileDescriptor) (s : Io D) : Prop := mk_io_ok {
  ok_live : forall d, d ∈ live -> backed s d;
  ok_pipes : forall id p, io_pipes s !! id = Some p -> pipe_ok live id p;
  ok_fwrites : forall id f, io_fwrites s !! id = Some f -> fwrite_ok f;
  ok_freads : forall id f, io_freads s !! id = Some f -> fread_ok f;
  ok_next : forall id, io_next s <= id ->
    io_pipes s !! id = None /\ io_fwrites s !! id = None /\ io_freads s !! id = None;
  ok_input : ring_ok INPUT_CAPACITY (input_ring (io_input s));
}.

(** *** The descriptor system as a transition system *)

Inductive fd_step : list FileDescriptor * Io D -> list FileDescriptor * Io D -> Prop :=
| fd_step_pipe live s s' r w :
    create_pipe (E := unit) s = (s', Ok (Some (r, w))) ->
    fd_step (live, s) (r :: w :: live, s')
| fd_step_open_write live s s' path res :
    valid_utf8 path = true ->
    create_file_write path s = (s', res) ->
    fd_step (live, s) (match res with Ok d => d :: live | _ => live end, s')
| fd_step_open_read live s s' path res :
    create_file_read path s = (s', res) ->
    fd_step (live, s) (match res with Ok d => d :: live | _ => live end, s')
| fd_step_clone live s s' d d' :
    d ∈ live -> clone (E := unit) d s = (s', Ok d') ->
    fd_step (live, s) (d' :: live, s')
| fd_step_drop live live' s s' d :
    live ≡ₚ d :: live' -> drop_fd (E := unit) d s = (s', Ok tt) ->
    fd_step (live, s) (live', s')
| fd_step_read live s s' d output res :
    d ∈ live -> read d output s = (s', res) -> fd_step (live, s) (live, s')
| fd_step_write live s s' d input res :
    d ∈ live -> write d input s = (s', res) -> fd_step (live, s) (live, s').

(** The boot state: no object, an empty keyboard buffer, the standard
    descriptors of any number of tasks. *)
Definition io_init (disk : D) : Io D := mk_io ∅ ∅ ∅ 0 InputBuffer_new [] disk.

Definition std_live (n : nat) : list FileDescriptor :=
  mjoin (replicate n (omap id initial_table)).

(** ** Lemmas *)

#[export] Instance io_ok_proper : Proper ((≡ₚ) ==> eq ==> iff) io_ok.
Proof.
  assert (forall live live' s, live ≡ₚ live' -> io_ok live s -> io_ok live' s) as Himp.
  { intros live live' s HP []. split; try done.
    - intros d Hd. rewrite <-HP in Hd. auto.
    - intros id p Hp. destruct (ok_pipes0 id p Hp) as (? & ? & ?).
      split_and!; [done|by rewrite <-HP..]. }
  intros live live' HP s ? <-. split; apply Himp; [done|by symmetry].
Qed.

Lemma backed_set_pipe id p s d : backed s d -> backed (set_pipe id p s) d.
Proof. destruct d; simpl; try done; rewrite lookup_insert_is_Some'; auto. Qed.

Lemma backed_set_fwrite id f s d : backed s d -> backed (set_fwrite id f s) d.
Proof. destruct d; simpl; try done; rewrite lookup_insert_is_Some'; auto. Qed.

Lemma backed_set_fread id f s d : backed s d -> backed (set_fread id f s) d.
Proof. destruct d; simpl; try done; rewrite lookup_insert_is_Some'; auto. Qed.

(** Replacing a pipe, while the descriptors of the other pipes stay. *)
Lemma io_ok_set_pipe live live' s id p :
  io_ok live s -> id < io_next s -> pipe_ok live' id p ->
  (forall d, d ∈ live' -> d ∈ live \/ d = PipeReadEnd id \/ d = PipeWriteEnd id) ->
  (forall id', id' <> id -> count (is_reader id') live' = count (is_reader id') live /\
     count (is_writer id') live' = count (is_writer id') live) ->
  io_ok live' (set_pipe id p s).
Proof.
  intros [] Hid Hp Hl Hc. split; simpl; try done.
  - intros d Hd. destruct (Hl d Hd) as [?|[->| ->]].
    + apply backed_set_pipe. auto.
    + simpl. rewrite lookup_insert_eq. eauto.
    + simpl. rewrite lookup_insert_eq. eauto.
  - intros id' p' [[<- <-]|[Hne Hp']]%lookup_insert_Some; [done|].
    destruct (ok_pipes0 id' p' Hp') as (? & ? & ?). destruct (Hc id') as [Hr Hw]; [done|].
    split_and!; [done|congruence..].
  - intros id' Hge. rewrite lookup_insert_ne by lia. auto.
Qed.

(** The same descriptors, a pipe with the same counters. *)
Lemma io_ok_update_pipe live s id p p' :
  io_ok live s -> io_pipes s !! id = Some p ->
  ring_ok PIPE_CAPACITY (p_ring p') -> readers p' = readers p -> writers p' = writers p ->
  io_ok live (set_pipe id p' s).
Proof.
  intros Hok Hp Hr E1 E2. apply (io_ok_set_pipe live); [done| | |auto|done].
  - destruct (decide (id < io_next s)); [done|]. destruct (ok_next _ _ Hok id); [lia|congruence].
  - destruct (ok_pipes _ _ Hok id p Hp) as (? & ? & ?). split_and!; [done|congruence..].
Qed.

Lemma io_ok_set_fread live s id f :
  io_ok live s -> id < io_next s -> fread_ok f -> io_ok live (set_fread id f s).
Proof.
  intros [] Hid Hf. split; simpl; try done.
  - intros d Hd. apply backed_set_fread. auto.
  - intros id' f' [[<- <-]|[_ ?]]%lookup_insert_Some; eauto.
  - intros id' Hge. rewrite lookup_insert_ne by lia. auto.
Qed.

Lemma io_ok_set_fwrite live s id f :
  io_ok live s -> id < io_next s -> fwrite_ok f -> io_ok live (set_fwrite id f s).
Proof.
  intros [] Hid Hf. split; simpl; try done.
  - intros d Hd. apply backed_set_fwrite. auto.
  - intros id' f' [[<- <-]|[_ ?]]%lookup_insert_Some; eauto.
  - intros id' Hge. rewrite lookup_insert_ne by lia. auto.
Qed.

Lemma io_ok_set_next live s n : io_ok live s -> io_next s <= n -> io_ok live (set_next n s).
Proof. intros [] Hn. split; simpl; try done. intros id Hid. apply ok_next0. lia. Qed.

Lemma io_ok_set_disk live s d : io_ok live s -> io_ok live (set_disk d s).
Proof. intros []. by split. Qed.

Lemma io_ok_set_console live s c : io_ok live s -> io_ok live (set_console c s).
Proof. intros []. by split. Qed.

Lemma io_ok_set_input live s i :
  io_ok live s -> ring_ok INPUT_CAPACITY (input_ring i) -> io_ok live (set_input i s).
Proof. intros [] Hi. by split. Qed.

(** A descriptor of a file or of the console adds nothing to the pipes' counters. *)
Lemma io_ok_add live s d :
  io_ok live s -> backed s d ->
  (forall id, is_reader id d = false /\ is_writer id d = false) -> io_ok (d :: live) s.
Proof.
  intros [] Hb Hd. split; try done.
  - intros d' [->|?]%elem_of_cons; auto.
  - intros id p Hp. destruct (Hd id) as [E1 E2]. unfold pipe_ok. simpl. rewrite E1, E2.
    apply (ok_pipes0 id p Hp).
Qed.

Lemma pipe_id_lt live s id p : io_ok live s -> io_pipes s !! id = Some p -> id < io_next s.
Proof.
  intros Hok Hf. destruct (decide (id < io_next s)); [done|].
  destruct (ok_next _ _ Hok id) as (? & _ & _); [lia|congruence].
Qed.

Lemma fwrite_id_lt live s id f : io_ok live s -> io_fwrites s !! id = Some f -> id < io_next s.
Proof.
  intros Hok Hf. destruct (decide (id < io_next s)); [done|].
  destruct (ok_next _ _ Hok id) as (_ & ? & _); [lia|congruence].
Qed.

Lemma fread_id_lt live s id f : io_ok live s -> io_freads s !! id = Some f -> id < io_next s.
Proof.
  intros Hok Hf. destruct (decide (id < io_next s)); [done|].
  destruct (ok_next _ _ Hok id) as (_ & _ & ?); [lia|congruence].
Qed.

Lemma count_reader_cons id d live :
  count (is_reader id) (d :: live) =
  (if decide (d = PipeReadEnd id) then 1 else 0) + count (is_reader id) live.
Proof. simpl. unfold is_reader at 1. by repeat case_decide || case_bool_decide. Qed.

Lemma count_writer_cons id d live :
  count (is_writer id) (d :: live) =
  (if decide (d = PipeWriteEnd id) then 1 else 0) + count (is_writer id) live.
Proof. simpl. unfold is_writer at 1. by repeat case_decide || case_bool_decide. Qed.

(** Solve a goal on the counters of a list with one more descriptor. *)
Ltac counters :=
  rewrite ?count_reader_cons, ?count_writer_cons in *;
  repeat case_decide; simplify_eq/=; try lia.

Lemma clone_spec {E} live s d :
  io_ok live s -> d ∈ live ->
  exists s', clone (E := E) d s = (s', Ok d) /\ io_ok (d :: live) s'.
Proof.
  intros Hok Hd. pose proof (ok_live _ _ Hok d Hd) as Hb.
  destruct d as [| |id|id|id|id]; simpl in Hb;
    try (exists s; split; [done|]; by apply io_ok_add).
  all: destruct Hb as [p Hp]; destruct (ok_pipes _ _ Hok id p Hp) as (Hr & E1 & E2);
    eexists; unfold clone, pipe_at; unfold_op; rewrite Hp; simpl; split; [done|];
    apply (io_ok_set_pipe live); [done|by eapply pipe_id_lt| | |].
  1, 4: split_and!; [done|counters..].
  1, 3: intros d [->|?]%elem_of_cons; auto.
  all: intros id' Hne; split; counters.
Qed.

Lemma drop_fd_spec {E} live s d :
  io_ok (d :: live) s ->
  exists s', drop_fd (E := E) d s = (s', Ok tt) /\ io_ok live s'.
Proof.
  intros Hok. pose proof (ok_live _ _ Hok d ltac:(left)) as Hb.
  assert ((forall id, d <> PipeReadEnd id /\ d <> PipeWriteEnd id) -> io_ok live s) as Hother.
  { intros Hne. destruct Hok. split; try done.
    - intros d' ?. apply ok_live0. by right.
    - intros id p Hp. destruct (ok_pipes0 id p Hp) as (? & E1 & E2). destruct (Hne id).
      split_and!; [done|counters..]. }
  destruct d as [| |id|id|id|id]; simpl in Hb; try (exists s; split; [done|]; by apply Hother).
  all: destruct Hb as [p Hp]; destruct (ok_pipes _ _ Hok id p Hp) as (Hr & E1 & E2);
    rewrite count_reader_cons in E1; rewrite count_writer_cons in E2;
    eexists; unfold drop_fd, pipe_at; unfold_op; rewrite Hp; simpl; split; [done|];
    eapply io_ok_set_pipe; [done|by eapply pipe_id_lt| | |].
  1, 4: split_and!; [done|counters..].
  1, 3: intros d ?; left; by right.
  all: intros id' Hne; split; counters.
Qed.

(** No descriptor refers to a key that was never handed out. *)
Lemma fresh_counts live s id :
  io_ok live s -> io_next s <= id ->
  count (is_reader id) live = 0 /\ count (is_writer id) live = 0.
Proof.
  intros Hok Hid. destruct (ok_next _ _ Hok id Hid) as (Hn & _ & _).
  rewrite !count_zero. split; intros d Hd; apply bool_decide_eq_false; intros ->;
    destruct (ok_live _ _ Hok _ Hd); congruence.
Qed.

Lemma create_pipe_spec {E} live s :
  io_ok live s ->
  exists s', create_pipe (E := E) s =
      (s', Ok (Some (PipeReadEnd (io_next s), PipeWriteEnd (io_next s)))) /\
    io_ok (PipeReadEnd (io_next s) :: PipeWriteEnd (io_next s) :: live) s' /\
    io_pipes s' = <[io_next s := mk_pipe (ring_new PIPE_CAPACITY) 1 1]> (io_pipes s).
Proof.
  intros Hok. destruct (fresh_counts live s (io_next s) Hok) as [Hr Hw]; [lia|].
  exists (set_pipe (io_next s) (mk_pipe (ring_new PIPE_CAPACITY) 1 1) (set_next (S (io_next s)) s)).
  unfold create_pipe, fresh_id, pipe_at. unfold_op. rewrite lookup_insert_eq. simpl.
  split; [unfold set_pipe; simpl; by rewrite insert_insert_eq|]. split; [|done].
  apply (io_ok_set_pipe live); [apply io_ok_set_next; [done|lia]|simpl; lia| | |].
  - split_and!; [apply ring_new_ok; lia|counters..].
  - intros d [->|[->|?]%elem_of_cons]%elem_of_cons; auto.
  - intros id Hne. split; counters.
Qed.

Lemma Pipe_read_spec p output :
  ring_ok PIPE_CAPACITY (p_ring p) ->
  let n := length output `min` length (pipe_items p) in
  exists p', Pipe_read p output = Some (n, take n (pipe_items p) ++ drop n output, p') /\
    ring_ok PIPE_CAPACITY (p_ring p') /\ pipe_items p' = drop n (pipe_items p) /\
    readers p' = readers p /\ writers p' = writers p.
Proof.
  intros Hok n. destruct (ring_read_spec PIPE_CAPACITY (p_ring p) output Hok) as (r & E & Hr & Hi).
  rewrite <-(length_ring_items PIPE_CAPACITY) in E, Hi.
  eexists. unfold Pipe_read. rewrite E. done.
Qed.

Lemma Pipe_write_spec p input :
  ring_ok PIPE_CAPACITY (p_ring p) ->
  let n := length input `min` (PIPE_CAPACITY - length (pipe_items p)) in
  exists p', Pipe_write p input = Some (n, p') /\
    ring_ok PIPE_CAPACITY (p_ring p') /\ pipe_items p' = pipe_items p ++ take n input /\
    readers p' = readers p /\ writers p' = writers p.
Proof.
  intros Hok n. unfold Pipe_write.
  rewrite <-(length_ring_items PIPE_CAPACITY). fold (pipe_items p). fold n.
  destruct (ring_write_loop_spec PIPE_CAPACITY (take n input) (p_ring p) Hok) as (r & -> & Hr & Hi).
  { destruct Hok as (_ & _ & _ & ?). unfold n, pipe_items. len. }
  eexists. simpl. done.
Qed.

Lemma pipe_run_spec p calls :
  ring_ok PIPE_CAPACITY (p_ring p) ->
  exists outs ins p', pipe_run p calls = Some (outs, ins, p') /\
    ring_ok PIPE_CAPACITY (p_ring p') /\
    pipe_items p ++ ins = outs ++ pipe_items p'.
Proof.
  revert p. induction calls as [|[input|output] calls IH]; intros p Hok; simpl.
  - exists [], [], p. by rewrite app_nil_r.
  - destruct (Pipe_write_spec p input Hok) as (p1 & -> & Hok1 & Hi1 & _). simpl.
    destruct (IH p1 Hok1) as (outs & ins & p2 & -> & Hok2 & Hi2). simpl.
    eexists _, _, _. split; [done|]. split; [done|].
    by rewrite <-Hi2, Hi1, app_assoc.
  - destruct (Pipe_read_spec p output Hok) as (p1 & -> & Hok1 & Hi1 & _). simpl.
    destruct (IH p1 Hok1) as (outs & ins & p2 & -> & Hok2 & Hi2). simpl.
    eexists _, _, _. split; [done|]. split; [done|].
    rewrite <-app_assoc, <-Hi2, Hi1.
    rewrite take_app_le, take_take, Nat.min_id by len.
    by rewrite app_assoc, take_drop.
Qed.

(** A counter of the descriptors equal to [d] is positive when one is live. *)
Lemma count_live (d : FileDescriptor) (live : list FileDescriptor) :
  d ∈ live <-> count (fun x => bool_decide (x = d)) live <> 0.
Proof.
  rewrite count_zero. split.
  - intros Hin Hz. specialize (Hz _ Hin). by apply bool_decide_eq_false in Hz.
  - intros Hz. destruct (decide (d ∈ live)) as [|Hn]; [done|]. destruct Hz.
    intros x Hx. apply bool_decide_eq_false. by intros ->.
Qed.

(** Reading from a pipe: would block, end of file, or the oldest bytes. *)
Lemma read_pipe_spec live s id p output :
  io_ok live s -> io_pipes s !! id = Some p ->
  let n := length output `min` length (pipe_items p) in
  if decide (pipe_items p = [] /\ PipeWriteEnd id ∈ live)
  then read (PipeReadEnd id) output s = (s, Err ReadWouldBlock)
  else exists p', read (PipeReadEnd id) output s =
      (set_pipe id p' s, Ok (n, take n (pipe_items p) ++ drop n output)) /\
    pipe_items p' = drop n (pipe_items p) /\ io_ok live (set_pipe id p' s).
Proof.
  intros Hok Hp n. destruct (ok_pipes _ _ Hok id p Hp) as (Hr & E1 & E2).
  assert ((r_length (p_ring p) =? 0) && negb (writers p =? 0) =
    bool_decide (pipe_items p = [] /\ PipeWriteEnd id ∈ live)) as Hc.
  { rewrite <-(length_ring_items PIPE_CAPACITY). fold (pipe_items p).
    pose proof (count_live (PipeWriteEnd id) live) as Hw. unfold is_writer in E2. rewrite <-E2 in Hw.
    destruct (Nat.eqb_spec (writers p) 0), (pipe_items p); simpl;
      try case_bool_decide; tauto. }
  unfold read, pipe_at. unfold_op. rewrite Hp. simpl. rewrite Hc.
  destruct (decide (pipe_items p = [] /\ PipeWriteEnd id ∈ live)) as [Hd|Hd];
    [by rewrite bool_decide_true|rewrite bool_decide_false by done].
  destruct (Pipe_read_spec p output Hr) as (p' & -> & Hr' & Hi' & ? & ?). simpl.
  exists p'. split_and!; [done..|]. by eapply io_ok_update_pipe.
Qed.

(** Writing to a pipe: broken, would block, or a prefix of the input is queued. *)
Lemma write_pipe_spec live s id p input :
  io_ok live s -> io_pipes s !! id = Some p ->
  let n := length input `min` (PIPE_CAPACITY - length (pipe_items p)) in
  if decide (PipeReadEnd id ∈ live)
  then exists p', write (PipeWriteEnd id) input s =
      (set_pipe id p' s, if decide (n = 0 /\ input <> []) then Err WriteWouldBlock else Ok n) /\
    pipe_items p' = pipe_items p ++ take n input /\ io_ok live (set_pipe id p' s)
  else write (PipeWriteEnd id) input s = (s, Err BrokenPipe).
Proof.
  intros Hok Hp n. destruct (ok_pipes _ _ Hok id p Hp) as (Hr & E1 & E2).
  pose proof (count_live (PipeReadEnd id) live) as Hrd. unfold is_reader in E1. rewrite <-E1 in Hrd.
  unfold write, pipe_at. unfold_op. rewrite Hp. simpl.
  destruct (Nat.eqb_spec (readers p) 0) as [Hz|Hz]; case_decide; try tauto.
  destruct (Pipe_write_spec p input Hr) as (p' & -> & Hr' & Hi' & ? & ?). simpl.
  exists p'. fold n. fold n in Hi'. split_and!; [|done|by eapply io_ok_update_pipe].
  destruct (decide (n = 0 /\ input <> [])) as [[-> Hne]|Hn]; [by destruct input|].
  destruct (Nat.eqb_spec n 0); [|done]. destruct input; [done|]. by destruct Hn.
Qed.

(** Every call on a live descriptor keeps the invariant and does not panic. *)
Lemma read_spec live s d output s' res :
  io_ok live s -> d ∈ live -> read d output s = (s', res) -> io_ok live s' /\ res <> Panic.
Proof.
  intros Hok Hd. pose proof (ok_live _ _ Hok d Hd) as Hb.
  destruct d as [| |id|id|id|id]; simpl in Hb; try (intros [= <- <-]; done).
  - unfold read. unfold_op.
    destruct (InputBuffer_read_spec (io_input s) output (ok_input _ _ Hok)) as (i & -> & Hi & _).
    simpl. case_match; intros [= <- <-]; (split; [by apply io_ok_set_input|done]).
  - destruct Hb as [p Hp]. pose proof (read_pipe_spec live s id p output Hok Hp) as Hr.
    cbv zeta in Hr. case_match; [rewrite Hr; by intros [= <- <-]|].
    destruct Hr as (p' & -> & _ & Hok'). by intros [= <- <-].
  - destruct Hb as [f Hf]. pose proof (ok_freads _ _ Hok id f Hf) as Ho. unfold fread_ok in Ho.
    unfold read, fread_at. unfold_op. rewrite Hf. simpl.
    rewrite (proj2 (Nat.ltb_ge _ _)) by lia. intros [= <- <-]. split; [|done].
    apply io_ok_set_fread; [done|by eapply fread_id_lt|]. unfold fread_ok. len.
Qed.

Lemma write_spec live s d input s' res :
  io_ok live s -> d ∈ live -> write d input s = (s', res) ->
  io_ok live s' /\ ((forall path c, (fs_write_file path c (io_disk s)).2 <> Panic) -> res <> Panic).
Proof.
  intros Hok Hd. pose proof (ok_live _ _ Hok d Hd) as Hb.
  destruct d as [| |id|id|id|id]; simpl in Hb; try (intros [= <- <-]; done).
  - intros [= <- <-]. split; [by apply io_ok_set_console|done].
  - destruct Hb as [p Hp]. pose proof (write_pipe_spec live s id p input Hok Hp) as Hw.
    cbv zeta in Hw. case_match; [|rewrite Hw; by intros [= <- <-]].
    destruct Hw as (p' & -> & _ & Hok'). intros [= <- <-]. split; [done|by case_match].
  - destruct Hb as [f Hf]. pose proof (ok_fwrites _ _ Hok id f Hf) as (Hl & Hn & Hu).
    unfold write, fwrite_at, on_disk. unfold_op. rewrite Hf. simpl.
    rewrite (proj2 (Nat.ltb_ge _ _)) by lia. rewrite Hu. simpl.
    destruct (fs_write_file _ _ _) as [d' r] eqn:Efs.
    assert (io_ok live (set_disk d' (set_fwrite id
      (mk_file_write (fw_path f) (fw_path_len f) (fw_contents f ++ input)) s))) as Hok'
      by (apply io_ok_set_disk, io_ok_set_fwrite; [done|by eapply fwrite_id_lt|done]).
    intros Hres. destruct r as [[]|e|]; simplify_eq/=; (split; [done|]); [done..|].
    intros Hfs. destruct (Hfs (take (fw_path_len f) (fw_path f)) (fw_contents f ++ input)).
    by rewrite Efs.
Qed.

Lemma create_file_write_spec live s path s' res :
  io_ok live s -> valid_utf8 path = true -> create_file_write path s = (s', res) ->
  io_ok (match res with Ok d => d :: live | _ => live end) s'.
Proof.
  intros Hok Hu. unfold create_file_write, on_disk, fresh_id.
  destruct (_ || _) eqn:Hc; [by intros [= <- <-]|]. bools. unfold_op.
  destruct (fs_write_file _ _ _) as [d [[]|e|]]; simpl; intros [= <- <-];
    [|by apply io_ok_set_disk..].
  apply io_ok_add; [|simpl; by rewrite lookup_insert_eq|done].
  apply io_ok_set_fwrite; [|simpl; lia|].
  - apply io_ok_set_next; [by apply io_ok_set_disk|simpl; lia].
  - unfold fwrite_ok, splice. cbn [fw_path fw_path_len take app].
    rewrite take_app_length. split_and!; [len|lia..|done].
Qed.

Lemma create_file_read_spec live s path s' res :
  io_ok live s -> create_file_read path s = (s', res) ->
  io_ok (match res with Ok d => d :: live | _ => live end) s'.
Proof.
  intros Hok. unfold create_file_read, on_disk, fresh_id. unfold_op.
  destruct (fs_read_file_vec _ _ _) as [d [[c|]|e|]]; simpl; intros [= <- <-];
    try by apply io_ok_set_disk.
  apply io_ok_add; [|simpl; by rewrite lookup_insert_eq|done].
  apply io_ok_set_fread; [|simpl; lia|unfold fread_ok; simpl; lia].
  apply io_ok_set_next; [by apply io_ok_set_disk|simpl; lia].
Qed.

Lemma fd_step_ok x y : fd_step x y -> io_ok x.1 x.2 -> io_ok y.1 y.2.
Proof.
  intros Hs Hok. destruct Hs as [live s s' r w E|live s s' path res Hu E|live s s' path res E
    |live s s' d d' Hd E|live live' s s' d HP E|live s s' d output res Hd E
    |live s s' d input res Hd E]; simpl in *.
  - destruct (create_pipe_spec (E := unit) live s Hok) as (s1 & E1 & Hok1 & _). congruence.
  - by eapply create_file_write_spec.
  - by eapply create_file_read_spec.
  - destruct (clone_spec (E := unit) live s d Hok Hd) as (s1 & E1 & Hok1). congruence.
  - rewrite HP in Hok. destruct (drop_fd_spec (E := unit) live' s d Hok) as (s1 & E1 & Hok1).
    congruence.
  - by eapply read_spec.
  - by eapply write_spec.
Qed.

Lemma io_init_ok n disk : io_ok (std_live n) (io_init disk).
Proof.
  split; simpl; try done.
  - intros d (l & Hd & Hl)%list_elem_of_join. apply elem_of_replicate in Hl as [-> _].
    change (omap id initial_table) with [Stdin; Console; Console] in Hd.
    rewrite !elem_of_cons, elem_of_nil in Hd. by destruct Hd as [->|[->|[->|[]]]].
  - by apply ring_new_ok; lia.
Qed.

Lemma reachable_io_ok n disk live s :
  rtc fd_step (std_live n, io_init disk) (live, s) -> io_ok live s.
Proof.
  intros Hr. apply (rtc_invariant _ (fun x => io_ok x.1 x.2) fd_step_ok _ _ Hr). apply io_init_ok.
Qed.

End operations.

(** ** Properties *)

Section properties.
Context {D DE : Type} `{FileSystem D DE}.

(** In every state reachable by opening, copying, closing, reading and writing
    descriptors, the reader and writer counters of a pipe are the numbers of live
    read and write ends, every live descriptor has its object, and copying,
    closing and reading a live descriptor succeed without a panic. *)
Theorem descriptor_counts n (disk : D) live s :
  rtc fd_step (std_live n, io_init disk) (live, s) ->
  (forall id p, io_pipes s !! id = Some p ->
     readers p = count (is_reader id) live /\ writers p = count (is_writer id) live) /\
  (forall d, d ∈ live ->
     backed s d /\ (clone (E := unit) d s).2 = Ok d /\ (drop_fd (E := unit) d s).2 = Ok tt /\
     forall output, (read d output s).2 <> Panic).
Proof.
  intros Hok%reachable_io_ok. split.
  - intros id p Hp. by destruct (ok_pipes _ _ Hok id p Hp) as (_ & ? & ?).
  - intros d Hd. destruct (clone_spec (E := unit) live s d Hok Hd) as (s1 & -> & _).
    pose proof Hd as (l1 & l2 & ->)%list_elem_of_split.
    assert (io_ok (d :: l1 ++ l2) s) as Hok' by (by rewrite Permutation_middle).
    destruct (drop_fd_spec (E := unit) _ s d Hok') as (s2 & -> & _).
    split_and!; [by apply (ok_live _ _ Hok)|done..|]. intros output.
    destruct (read d output s) as [s3 r] eqn:E. by apply (read_spec _ _ _ _ _ _ Hok Hd E).
Qed.

End properties.

(** *** An example state: one task, which opens a pipe *)

Definition example_io : Io example_disk := io_init (∅, []).
Definition piped_io : Io example_disk := (create_pipe (E := unit) example_io).1.
Definition piped_live : list FileDescriptor := PipeReadEnd 0 :: PipeWriteEnd 0 :: std_live 1.
Definition written_io : Io example_disk :=
  (write (H := example_fs) (PipeWriteEnd 0) [104; 105]%Z piped_io).1.

Lemma piped_reachable :
  rtc (fd_step (H := example_fs)) (std_live 1, example_io) (piped_live, piped_io).
Proof. apply rtc_once. by apply (fd_step_pipe (H := example_fs)). Qed.

Lemma written_reachable :
  rtc (fd_step (H := example_fs)) (std_live 1, example_io) (piped_live, written_io).
Proof.
  eapply rtc_r; [apply piped_reachable|].
  apply (fd_step_write (H := example_fs)) with (d := PipeWriteEnd 0) (input := [104; 105]%Z)
    (res := (write (H := example_fs) (PipeWriteEnd 0) [104; 105]%Z piped_io).2).
  - right. left.
  - apply surjective_pairing.
Qed.

Lemma descriptor_counts_witness :
  (forall id p, io_pipes piped_io !! id = Some p ->
     readers p = count (is_reader id) piped_live /\ writers p = count (is_writer id) piped_live) /\
  (forall d, d ∈ piped_live ->
     backed piped_io d /\ (clone (E := unit) d piped_io).2 = Ok d /\
     (drop_fd (E := unit) d piped_io).2 = Ok tt /\
     forall output, (read d output piped_io).2 <> Panic).
Proof. apply (descriptor_counts (H := example_fs) 1 (∅, [])). apply piped_reachable. Defined.

Section properties2.
Context {D DE : Type} `{FileSystem D DE}.

(** In every reachable state a read from a live read end would block exactly
    when the pipe is empty and a write end is live; otherwise it returns the oldest
    bytes, as many as fit, so that an empty result for a non-empty buffer means
    end of file: the pipe is empty and no write end is left. *)
Theorem pipe_read_semantics n (disk : D) live s id output :
  rtc fd_step (std_live n, io_init disk) (live, s) -> PipeReadEnd id ∈ live ->
  exists p, io_pipes s !! id = Some p /\
  let k := length output `min` length (pipe_items p) in
  if decide (pipe_items p = [] /\ PipeWriteEnd id ∈ live)
  then read (PipeReadEnd id) output s = (s, Err ReadWouldBlock)
  else exists p', read (PipeReadEnd id) output s =
      (set_pipe id p' s, Ok (k, take k (pipe_items p) ++ drop k output)) /\
    pipe_items p' = drop k (pipe_items p).
Proof.
  intros Hok%reachable_io_ok Hd. destruct (ok_live _ _ Hok _ Hd) as [p Hp].
  exists p. split; [done|]. pose proof (read_pipe_spec live s id p output Hok Hp) as Hr.
  cbv zeta in *. case_match; [done|]. destruct Hr as (p' & ? & ? & _). eauto.
Qed.

(** In every reachable state a write to a live write end fails with
    [BrokenPipe] exactly when no read end is live; otherwise the longest prefix
    that fits in 4096 bytes is appended to the pipe, and the write would block
    exactly when the input is not empty and nothing fits. *)
Theorem pipe_write_semantics n (disk : D) live s id input :
  rtc fd_step (std_live n, io_init disk) (live, s) -> PipeWriteEnd id ∈ live ->
  exists p, io_pipes s !! id = Some p /\
  let k := length input `min` (PIPE_CAPACITY - length (pipe_items p)) in
  if decide (PipeReadEnd id ∈ live)
  then exists p', write (PipeWriteEnd id) input s =
      (set_pipe id p' s, if decide (k = 0 /\ input <> []) then Err WriteWouldBlock else Ok k) /\
    pipe_items p' = pipe_items p ++ take k input
  else write (PipeWriteEnd id) input s = (s, Err BrokenPipe).
Proof.
  intros Hok%reachable_io_ok Hd. destruct (ok_live _ _ Hok _ Hd) as [p Hp].
  exists p. split; [done|]. pose proof (write_pipe_spec live s id p input Hok Hp) as Hw.
  cbv zeta in *. case_match; [|done]. destruct Hw as (p' & ? & ? & _). eauto.
Qed.

(** C40: When the disk write of a file descriptor fails, the input stays in its
    buffer: if the caller repeats the write and it succeeds, the file gets the
    input twice. *)
Theorem failed_write_is_kept live (s : Io D) id f input disk1 disk2 e :
  io_ok live s -> io_fwrites s !! id = Some f ->
  let path := take (fw_path_len f) (fw_path f) in
  fs_write_file path (fw_contents f ++ input) (io_disk s) = (disk1, Err e) ->
  fs_write_file path (fw_contents f ++ input ++ input) disk1 = (disk2, Ok tt) ->
  exists s1 s2, write (FileWriteFd id) input s = (s1, Err WriteIo) /\
    write (FileWriteFd id) input s1 = (s2, Ok (length input)) /\
    (fw_contents <$> io_fwrites s2 !! id) = Some (fw_contents f ++ input ++ input).
Proof.
  intros Hok Hf path E1 E2. destruct (ok_fwrites _ _ Hok id f Hf) as (Hl & Hn & Hu).
  rewrite app_assoc in E2 |- *.
  unfold write, fwrite_at, on_disk. unfold_op. rewrite Hf. simpl.
  rewrite (proj2 (Nat.ltb_ge _ _)) by lia. rewrite Hu. simpl. fold path. rewrite E1.
  eexists _, _. split; [done|]. simpl. rewrite lookup_insert_eq. simpl.
  rewrite (proj2 (Nat.ltb_ge _ _)) by lia. rewrite Hu. simpl. fold path. rewrite E2.
  split; [done|]. simpl. by rewrite lookup_insert_eq.
Qed.

End properties2.

(** Whatever the sizes of the buffers, no call on a pipe panics and the bytes
    the reads returned, followed by the bytes still queued, are the bytes the
    writes accepted, in order. *)
Theorem pipe_stream calls :
  exists outs ins p, pipe_run Pipe_new calls = Some (outs, ins, p) /\ ins = outs ++ pipe_items p.
Proof.
  destruct (pipe_run_spec Pipe_new calls) as (outs & ins & p & E & _ & Hi).
  { apply ring_new_ok. lia. }
  exists outs, ins, p. split; [done|]. by rewrite <-Hi.
Qed.

Lemma pipe_read_semantics_witness : exists p, io_pipes written_io !! 0 = Some p /\
  let k := 4 `min` length (pipe_items p) in
  if decide (pipe_items p = [] /\ PipeWriteEnd 0 ∈ piped_live)
  then read (PipeReadEnd 0) [0; 0; 0; 0]%Z written_io =
    (written_io, Err ReadWouldBlock)
  else exists p', read (PipeReadEnd 0) [0; 0; 0; 0]%Z written_io =
      (set_pipe 0 p' written_io, Ok (k, take k (pipe_items p) ++ drop k [0; 0; 0; 0]%Z)) /\
    pipe_items p' = drop k (pipe_items p).
Proof.
  apply (pipe_read_semantics (H := example_fs) 1 (∅, []) piped_live written_io 0 [0; 0; 0; 0]%Z).
  - apply written_reachable.
  - left.
Defined.

Lemma pipe_write_semantics_witness : exists p, io_pipes written_io !! 0 = Some p /\
  let k := 2 `min` (PIPE_CAPACITY - length (pipe_items p)) in
  if decide (PipeReadEnd 0 ∈ piped_live)
  then exists p', write (H := example_fs) (PipeWriteEnd 0) [1; 2]%Z written_io =
      (set_pipe 0 p' written_io,
       if decide (k = 0 /\ [1; 2]%Z <> []) then Err WriteWouldBlock else Ok k) /\
    pipe_items p' = pipe_items p ++ take k [1; 2]%Z
  else write (H := example_fs) (PipeWriteEnd 0) [1; 2]%Z written_io = (written_io, Err BrokenPipe).
Proof.
  apply (pipe_write_semantics (H := example_fs) 1 (∅, []) piped_live written_io 0 [1; 2]%Z).
  - apply written_reachable.
  - right. left.
Defined.

(** The file [/a] is open, the first write of ["x"] fails and the second does not. *)
Definition failing_io : Io example_disk :=
  set_fwrite 0 (mk_file_write (splice (replicate 255 0%Z) 0 [47; 97]%Z) 2 [])
    (set_next 1 (io_init (∅, [true]))).

Lemma failing_io_ok : io_ok (std_live 1) failing_io.
Proof.
  apply io_ok_set_fwrite; [apply io_ok_set_next; [apply io_init_ok|simpl; lia]|simpl; lia|].
  split_and!; simpl; [done|lia..|done].
Qed.

Lemma failed_write_is_kept_witness : exists s1 s2,
  write (H := example_fs) (FileWriteFd 0) [120]%Z failing_io = (s1, Err WriteIo) /\
  write (H := example_fs) (FileWriteFd 0) [120]%Z s1 = (s2, Ok 1) /\
  (fw_contents <$> io_fwrites s2 !! 0) = Some [120; 120]%Z.
Proof.
  apply (failed_write_is_kept (H := example_fs) (std_live 1) failing_io 0
    (mk_file_write (splice (replicate 255 0%Z) 0 [47; 97]%Z) 2 []) [120]%Z
    (∅, []) (<[[47; 97]%Z := [120; 120]%Z]> ∅, []) tt).
  - apply failing_io_ok.
  - reflexivity.
  - reflexivity.
  - reflexivity.
Defined.
