(* ===== verification/FrameAlloc.v ===== *)
(** * Physical frame allocator

    The first half of [memory/mod.rs]: the checks on the UEFI memory map and on
    the boot information, and [BootInfoFrameAllocator].  A [PhysFrame] is its
    start address.  The memory map is the byte slice the boot loader left. *)

From S2P Require Import Prelude.

Local Open Scope Z_scope.

Definition EFI_CONVENTIONAL_MEMORY : Z := 7.
Abbreviation PAGE_SIZE := 4096.
Abbreviation PAGE_MASK := 4095.
Definition EFI_DESCRIPTOR_MIN_SIZE : Z := 40.
Abbreviation RECLAIMED_FRAME_CAPACITY := 260%nat.
Definition MAX_FRAMES_RECLAIMED_PER_UNMAP : nat := 4.

Inductive MemoryError :=
| MissingMemoryMap
| InvalidMemoryMap
| InvalidPhysicalAddressWidth
| InvalidBootInfo
| InvalidPageTableRoot
| InvalidPhysicalMemoryOffset
| PhysicalAddressOutOfRange
| FrameReclaimCapacityExceeded
| NotInitialized
| FrameAllocationFailed
| NoUserAddressSpaceSlot.

Record BootInfo := mk_boot_info {
  magic : Z;
  version : Z;
  system_table : Z;
  memory_map_address : Z;
  memory_map_size : Z;
  boot_descriptor_size : Z;
  descriptor_version : Z;
  kernel_base : Z;
  kernel_file_size : Z;
  kernel_reserved_size : Z;
  page_table_root : Z;
  physical_memory_offset : Z;
  framebuffer_base : Z;
  framebuffer_size : Z;
  framebuffer_width : Z;
  framebuffer_height : Z;
  framebuffer_pixels_per_scan_line : Z;
  framebuffer_pixel_format : Z;
  initrd_base : Z;
  initrd_size : Z;
}.

(** [size_of::<BootInfo>()] of the [repr(C)] structure. *)
Definition BOOT_INFO_SIZE : Z := 144.

Record PhysicalRange := mk_range { range_start : Z; range_end : Z }.

Definition EMPTY : PhysicalRange := mk_range 0 0.

Definition overlaps (r other : PhysicalRange) : bool :=
  (range_start r <? range_end other) && (range_start other <? range_end r).

Definition contains (r : PhysicalRange) (address : Z) : bool :=
  (range_start r <=? address) && (address <? range_end r).

Record EfiMemoryDescriptor := mk_descriptor {
  memory_type : Z;
  physical_start : Z;
  virtual_start : Z;
  number_of_pages : Z;
  attributes : Z;
}.

(** [read_unaligned] of the [repr(C)] record. *)
Definition decode_descriptor (b : list Z) : EfiMemoryDescriptor :=
  mk_descriptor (le_decode (slice b 0 4)) (le_decode (slice b 8 16))
    (le_decode (slice b 16 24)) (le_decode (slice b 24 32)) (le_decode (slice b 32 40)).

Definition read_descriptor (memory_map : list Z) (descriptor_size : Z) (index : nat) :
  option EfiMemoryDescriptor :=
  offset ← checked_mul u64_limit (Z.of_nat index) descriptor_size;
  end_ ← checked_add u64_limit offset 40;
  bytes ← get_range memory_map offset end_;
  Some (decode_descriptor bytes).

(** [physical_start..region_end] of a descriptor, with the checked arithmetic. *)
Definition region (d : EfiMemoryDescriptor) : option PhysicalRange :=
  size ← checked_mul u64_limit (number_of_pages d) PAGE_SIZE;
  end_ ← checked_add u64_limit (physical_start d) size;
  Some (mk_range (physical_start d) end_).

(** One round of the loop of [validate_memory_map]. *)
Definition validate_descriptor (memory_map : list Z) (descriptor_size physical_limit : Z)
  (index : nat) : outcome MemoryError unit :=
  descriptor ← ok_or (read_descriptor memory_map descriptor_size index) InvalidMemoryMap;
  current ← ok_or (region descriptor) InvalidMemoryMap;
  if (number_of_pages descriptor =? 0)
    || negb (Z.land (physical_start descriptor) PAGE_MASK =? 0)
    || (physical_limit <=? physical_start descriptor)
    || (physical_limit <? range_end current)
  then Err InvalidMemoryMap
  else
    for_each (seq 0 index) (fun other_index =>
      other ← ok_or (read_descriptor memory_map descriptor_size other_index) InvalidMemoryMap;
      other_range ← ok_or (region other) InvalidMemoryMap;
      if overlaps current other_range then Err InvalidMemoryMap else Ok tt).

Definition validate_memory_map (memory_map : list Z) (descriptor_size physical_limit : Z) :
  outcome MemoryError nat :=
  let len := Z.of_nat (length memory_map) in
  if (descriptor_size <? EFI_DESCRIPTOR_MIN_SIZE)
    || (len =? 0)
    || negb (len mod descriptor_size =? 0)
    || (physical_limit <=? PAGE_SIZE)
  then Err InvalidMemoryMap
  else
    let descriptor_count := Z.to_nat (len / descriptor_size) in
    _ ← for_each (seq 0 descriptor_count)
          (validate_descriptor memory_map descriptor_size physical_limit);
    Ok descriptor_count.

(** [address & !PAGE_MASK]. *)
Definition page_down (address : Z) : Z := Z.ldiff address PAGE_MASK.

Definition page_covering_range (address size physical_limit : Z) :
  outcome MemoryError PhysicalRange :=
  if size =? 0 then Ok EMPTY
  else
    end_ ← ok_or (checked_add u64_limit address size) InvalidBootInfo;
    let aligned_start := page_down address in
    padded ← ok_or (checked_add u64_limit end_ PAGE_MASK) InvalidBootInfo;
    let aligned_end := page_down padded in
    if (physical_limit <? aligned_end) || (aligned_end <=? aligned_start)
    then Err InvalidBootInfo
    else Ok (mk_range aligned_start aligned_end).

Definition reserved_ranges (boot_info : BootInfo) (boot_info_address physical_limit : Z) :
  outcome MemoryError (list PhysicalRange) :=
  r0 ← page_covering_range (kernel_base boot_info) (kernel_reserved_size boot_info) physical_limit;
  r1 ← page_covering_range boot_info_address BOOT_INFO_SIZE physical_limit;
  r2 ← page_covering_range (memory_map_address boot_info) (memory_map_size boot_info) physical_limit;
  r3 ← page_covering_range (page_table_root boot_info) PAGE_SIZE physical_limit;
  r4 ← page_covering_range (system_table boot_info) PAGE_SIZE physical_limit;
  r5 ← page_covering_range (framebuffer_base boot_info) (framebuffer_size boot_info) physical_limit;
  Ok [r0; r1; r2; r3; r4; r5].

Record Allocator := mk_allocator {
  memory_map : list Z;
  descriptor_size : Z;
  descriptor_count : nat;
  descriptor_index : nat;
  page_index : Z;
  physical_limit : Z;
  reserved : list PhysicalRange;
  reclaimed_frames : list (option Z);
  reclaimed_count : nat;
}.

(** [BootInfoFrameAllocator::new]; [map] is the slice at [boot_info.memory_map]. *)
Definition Allocator_new (boot_info : BootInfo) (map : list Z) (boot_info_address limit : Z) :
  outcome MemoryError Allocator :=
  let descriptor_size := boot_descriptor_size boot_info in
  if (memory_map_address boot_info =? 0) || (memory_map_size boot_info =? 0)
  then Err MissingMemoryMap
  else if (descriptor_size <? EFI_DESCRIPTOR_MIN_SIZE)
    || (2 ^ 63 - 1 <? memory_map_size boot_info)
    || negb (memory_map_size boot_info mod descriptor_size =? 0)
  then Err InvalidMemoryMap
  else
    descriptor_count ← validate_memory_map map descriptor_size limit;
    ranges ← reserved_ranges boot_info boot_info_address limit;
    _ ← for_each (seq 0 descriptor_count) (fun index =>
      descriptor ← ok_or (read_descriptor map descriptor_size index) InvalidMemoryMap;
      if memory_type descriptor =? EFI_CONVENTIONAL_MEMORY then
        let range := mk_range (physical_start descriptor)
          (physical_start descriptor + number_of_pages descriptor * PAGE_SIZE) in
        if existsb (overlaps range) ranges then Err InvalidMemoryMap else Ok tt
      else Ok tt);
    Ok (mk_allocator map descriptor_size descriptor_count 0 0 limit ranges
      (replicate RECLAIMED_FRAME_CAPACITY None) 0).

Definition set_cursor (index : nat) (page : Z) (a : Allocator) : Allocator :=
  mk_allocator (memory_map a) (descriptor_size a) (descriptor_count a) index page
    (physical_limit a) (reserved a) (reclaimed_frames a) (reclaimed_count a).

Definition set_reclaimed (frames : list (option Z)) (count : nat) (a : Allocator) : Allocator :=
  mk_allocator (memory_map a) (descriptor_size a) (descriptor_count a) (descriptor_index a)
    (page_index a) (physical_limit a) (reserved a) frames count.

Definition descriptor_at (a : Allocator) (index : nat) : option EfiMemoryDescriptor :=
  read_descriptor (memory_map a) (descriptor_size a) index.

(** [address >= self.physical_limit || reserved_ranges.any(contains)], negated. *)
Definition usable (a : Allocator) (address : Z) : bool :=
  negb ((physical_limit a <=? address) ||
        existsb (fun range => contains range address) (reserved a)).

Section crate.

(** [PhysFrame::from_start_address(PhysAddr::new(address))] of the [x86_64]
    crate: a frame, or [None] for an address that is not page-aligned. *)
Variable from_start_address : Z -> option Z.

(** One round of the [while] loop of [next_usable_frame]. *)
Definition next_frame_round (a : Allocator) :
  Allocator + Allocator * outcome Empty_set (option Z) :=
  if (descriptor_index a <? descriptor_count a)%nat then
    match descriptor_at a (descriptor_index a) with
    | None => inr (a, Panic)
    | Some descriptor =>
        if negb (memory_type descriptor =? EFI_CONVENTIONAL_MEMORY)
          || (number_of_pages descriptor <=? page_index a)
        then inl (set_cursor (descriptor_index a + 1) 0 a)
        else
          let address := physical_start descriptor + page_index a * PAGE_SIZE in
          let a := set_cursor (descriptor_index a) (page_index a + 1) a in
          if negb (usable a address) then inl a
          else match from_start_address address with
               | Some frame => inr (a, Ok (Some frame))
               | None => inl a
               end
    end
  else inr (a, Ok None).

Definition pages_at (a : Allocator) (index : nat) : Z :=
  match descriptor_at a index with Some d => Z.max 0 (number_of_pages d) | None => 0 end.

(** Rounds the cursor can take from a descriptor on. *)
Definition rounds_from (a : Allocator) (index : nat) : Z :=
  foldr (fun i n => pages_at a i + 1 + n) 0 (seq index (descriptor_count a - index)).

(** [next_usable_frame].  The loop visits each page and each descriptor once, so
    that the bound on its rounds is never reached (it would be a panic here). *)
Definition next_usable_frame (a : Allocator) : Allocator * outcome Empty_set (option Z) :=
  match reclaimed_count a with
  | S n =>
      match reclaimed_frames a !! n with
      | Some slot => (set_reclaimed (<[n := None]> (reclaimed_frames a)) n a, Ok slot)
      | None => (a, Panic)
      end
  | 0%nat =>
      default (a, Panic)
        (while_loop (rounds_from a (descriptor_index a) + 1) next_frame_round a)
  end.

End crate.

Definition reclaim_frame (frame : Z) (a : Allocator) : Allocator * bool :=
  if (reclaimed_count a <? RECLAIMED_FRAME_CAPACITY)%nat
  then (set_reclaimed (<[reclaimed_count a := Some frame]> (reclaimed_frames a))
          (reclaimed_count a + 1) a, true)
  else (a, false).

(** [.any] over the descriptors, in order; a descriptor that cannot be read is a
    panic, unless an earlier one answered. *)
Fixpoint any_descriptor (a : Allocator) (p : EfiMemoryDescriptor -> bool) (indices : list nat) :
  outcome MemoryError bool :=
  match indices with
  | [] => Ok false
  | i :: indices =>
      match descriptor_at a i with
      | None => Panic
      | Some d => if p d then Ok true else any_descriptor a p indices
      end
  end.

Definition is_allocatable_frame (a : Allocator) (frame : Z) : outcome MemoryError bool :=
  if negb (usable a frame) then Ok false
  else any_descriptor a (fun d =>
    (memory_type d =? EFI_CONVENTIONAL_MEMORY)
    && (physical_start d <=? frame)
    && (frame <? physical_start d + number_of_pages d * PAGE_SIZE))
    (seq 0 (descriptor_count a)).

(** [MemoryManager::deallocate_frame], on the manager's allocator. *)
Definition deallocate_frame (frame : Z) : Op Allocator MemoryError unit := fun a =>
  match is_allocatable_frame a frame with
  | Ok true =>
      let '(a, done) := reclaim_frame frame a in
      (a, if done then Ok tt else Err FrameReclaimCapacityExceeded)
  | Ok false => (a, Err InvalidMemoryMap)
  | Err e => (a, Err e)
  | Panic => (a, Panic)
  end.

(** *** [available_frame_count] *)

(** The inner loop: pages left and the cursor, after the reserved ranges. *)
Fixpoint subtract_reserved (range : PhysicalRange) (ranges : list PhysicalRange)
  (pages cursor : Z) : Z :=
  match ranges with
  | [] => pages
  | reserved :: ranges =>
      let overlap_start := Z.max (range_start range) (range_start reserved) in
      let overlap_end := Z.min (range_end range) (range_end reserved) in
      if overlap_start <? overlap_end then
        let unique_start := Z.max overlap_start cursor in
        let pages :=
          if unique_start <? overlap_end
          then saturating_sub pages ((overlap_end - unique_start) / PAGE_SIZE)
          else pages in
        subtract_reserved range ranges pages (Z.max cursor overlap_end)
      else subtract_reserved range ranges pages cursor
  end.

(** One round of the outer loop; [None] is the failed [expect]. *)
Definition descriptor_available (a : Allocator) (sorted : list PhysicalRange) (index : nat)
  (total : Z) : option Z :=
  descriptor ← descriptor_at a index;
  if negb (memory_type descriptor =? EFI_CONVENTIONAL_MEMORY) then Some total
  else
    let first_page := if (index =? descriptor_index a)%nat then page_index a else 0 in
    if number_of_pages descriptor <=? first_page then Some total
    else
      let start := physical_start descriptor + first_page * PAGE_SIZE in
      let end_ := physical_start descriptor + number_of_pages descriptor * PAGE_SIZE in
      let pages := subtract_reserved (mk_range start end_) sorted
        (number_of_pages descriptor - first_page) start in
      Some (saturating_add u64_limit total pages).

Fixpoint count_available (a : Allocator) (sorted : list PhysicalRange) (indices : list nat)
  (total : Z) : option Z :=
  match indices with
  | [] => Some total
  | index :: indices =>
      total ← descriptor_available a sorted index total;
      count_available a sorted indices total
  end.

(** [available_frame_count]; [sorted] is the result of
    [sort_unstable_by_key(|reserved| reserved.start)], which leaves the order of
    ranges with equal starts open. *)
Definition available_frame_count (a : Allocator) (sorted : list PhysicalRange) : option Z :=
  count_available a sorted
    (seq (descriptor_index a) (descriptor_count a - descriptor_index a))
    (Z.of_nat (reclaimed_count a)).

(** ** Specification *)

(** The usable frames of a descriptor from a page on. *)
Definition descriptor_frames (a : Allocator) (index : nat) (first : Z) : list Z :=
  match descriptor_at a index with
  | Some d =>
      if memory_type d =? EFI_CONVENTIONAL_MEMORY
      then filter (fun x => usable a x = true)
        ((fun k => physical_start d + k * PAGE_SIZE) <$> seqZ first (number_of_pages d - first))
      else []
  | None => []
  end.

Definition frames_from (a : Allocator) (index : nat) : list Z :=
  mjoin ((fun i => descriptor_frames a i 0) <$> seq index (descriptor_count a - index)).

(** Every frame the memory map offers. *)
Definition all_frames (a : Allocator) : list Z := frames_from a 0.

(** The frames the cursor has not reached, in its order. *)
Definition unvisited (a : Allocator) : list Z :=
  if (descriptor_index a <? descriptor_count a)%nat
  then descriptor_frames a (descriptor_index a) (page_index a)
         ++ frames_from a (descriptor_index a + 1)
  else [].

(** The reclaimed frames, the last one first. *)
Definition cached (a : Allocator) : list Z :=
  reverse (omap id (take (reclaimed_count a) (reclaimed_frames a))).

(** What the allocator will hand out, in order. *)
Definition pool (a : Allocator) : list Z := cached a ++ unvisited a.

(** The memory map passed [validate_memory_map] and the limit is a physical
    address limit. *)
Definition map_ok (a : Allocator) : Prop :=
  validate_memory_map (memory_map a) (descriptor_size a) (physical_limit a)
    = Ok (descriptor_count a) /\
  physical_limit a <= 2 ^ 52 /\ bytes_ok (memory_map a).

Record allocator_ok (a : Allocator) : Prop := mk_allocator_ok {
  aok_map : map_ok a;
  aok_page : 0 <= page_index a;
  aok_len : length (reclaimed_frames a) = RECLAIMED_FRAME_CAPACITY;
  aok_count : (reclaimed_count a <= RECLAIMED_FRAME_CAPACITY)%nat;
  aok_slots : forall i, (i < reclaimed_count a)%nat ->
    exists f, reclaimed_frames a !! i = Some (Some f);
}.

(** ** Lemmas: validation *)

(** A descriptor of a validated map: page-aligned, not empty, below the limit. *)
Definition descriptor_ok (limit : Z) (d : EfiMemoryDescriptor) : Prop :=
  0 <= physical_start d /\ physical_start d mod PAGE_SIZE = 0 /\ 0 < number_of_pages d /\
  physical_start d + number_of_pages d * PAGE_SIZE <= limit.

Definition disjoint_regions (d e : EfiMemoryDescriptor) : Prop :=
  physical_start d + number_of_pages d * PAGE_SIZE <= physical_start e \/
  physical_start e + number_of_pages e * PAGE_SIZE <= physical_start d.

Lemma page_mask_mod x : Z.land x PAGE_MASK = x mod PAGE_SIZE.
Proof. change PAGE_MASK with (Z.ones 12). by rewrite Z.land_ones. Qed.

Lemma page_down_spec x : page_down x = x - x mod PAGE_SIZE.
Proof.
  unfold page_down. change PAGE_MASK with (Z.ones 12).
  rewrite Z.ldiff_ones_r, Z.shiftl_mul_pow2, Z.shiftr_div_pow2 by lia.
  change (2 ^ 12) with PAGE_SIZE. pose proof (Z.div_mod x PAGE_SIZE). lia.
Qed.

Lemma read_descriptor_nonneg map size i d :
  bytes_ok map -> read_descriptor map size i = Some d ->
  0 <= physical_start d /\ 0 <= number_of_pages d /\ 0 <= memory_type d.
Proof.
  intros Hb. unfold read_descriptor. intros H.
  apply bind_Some in H as (? & _ & H). apply bind_Some in H as (? & _ & H).
  apply bind_Some in H as (bs & H & [= <-]). unfold get_range in H.
  case_match; simplify_eq. unfold decode_descriptor. simpl.
  split_and!; apply le_decode_bound; by repeat apply bytes_ok_slice.
Qed.

Lemma region_Some d r :
  region d = Some r ->
  r = mk_range (physical_start d) (physical_start d + number_of_pages d * PAGE_SIZE).
Proof.
  unfold region. intros H. apply bind_Some in H as (sz & Hs & H).
  apply bind_Some in H as (e & He & [= <-]).
  apply checked_mul_Some in Hs as [-> _]. by apply checked_add_Some in He as [-> _].
Qed.

Lemma validate_descriptor_spec map size limit i :
  bytes_ok map -> validate_descriptor map size limit i = Ok tt ->
  exists d, read_descriptor map size i = Some d /\ descriptor_ok limit d /\
    forall j e, (j < i)%nat -> read_descriptor map size j = Some e -> disjoint_regions d e.
Proof.
  intros Hb H. unfold validate_descriptor in H.
  apply bind_Ok_inv in H as (d & Hd%ok_or_Ok_inv & H).
  apply bind_Ok_inv in H as (cur & Hc%ok_or_Ok_inv & H).
  apply region_Some in Hc as ->. simpl in H. case_match eqn:Hc; [done|]. bools.
  rewrite page_mask_mod in *. destruct (read_descriptor_nonneg map size i d Hb Hd) as (? & ? & _).
  exists d. split; [done|]. split; [split_and!; lia|].
  intros j e Hj He. rewrite for_each_Ok in H.
  specialize (H j ltac:(apply elem_of_seq; lia)). rewrite He in H. unfold ok_or in H. simpl in H. destruct (region e) as [re|] eqn:Hre.
  - apply region_Some in Hre as ->.
    simpl in H. destruct (overlaps _ _) eqn:Ho in H; [done|].
    unfold overlaps in Ho. simpl in Ho. unfold disjoint_regions.
    apply andb_false_iff in Ho as [?|?]; bools; lia.
  - done.
Qed.

Lemma validate_memory_map_spec map size limit n :
  bytes_ok map -> validate_memory_map map size limit = Ok n ->
  40 <= size /\ Z.of_nat (length map) = Z.of_nat n * size /\ (0 < n)%nat /\
  forall i, (i < n)%nat -> exists d, read_descriptor map size i = Some d /\ descriptor_ok limit d /\
    forall j e, (j < n)%nat -> j <> i -> read_descriptor map size j = Some e -> disjoint_regions d e.
Proof.
  intros Hb H. unfold validate_memory_map in H. case_match eqn:Hc; [done|]. bools.
  unfold EFI_DESCRIPTOR_MIN_SIZE in *. apply bind_Ok_inv in H as ([] & H & [= <-]).
  rewrite for_each_Ok in H.
  pose proof (Z.div_mod (Z.of_nat (length map)) size ltac:(lia)) as Hdm.
  assert (0 <= Z.of_nat (length map) / size) by (apply Z.div_pos; lia).
  split; [lia|]. split; [rewrite Z2Nat.id by lia; lia|]. split; [nia|].
  intros i Hi.
  assert (forall i, (i < Z.to_nat (Z.of_nat (length map) / size))%nat ->
    validate_descriptor map size limit i = Ok tt) as Hv by (intros; apply H, elem_of_seq; lia).
  destruct (validate_descriptor_spec map size limit i Hb (Hv i Hi)) as (d & Hd & Hok & Hdis).
  exists d. split_and!; [done..|]. intros j e Hj Hne He.
  destruct (decide (j < i)%nat); [eauto|].
  destruct (validate_descriptor_spec map size limit j Hb (Hv j Hj)) as (e' & He' & _ & Hdis').
  assert (e = e') as <- by congruence.
  destruct (Hdis' i d) as [?|?]; [lia|done|by right|by left].
Qed.

Lemma map_ok_descriptor a i :
  map_ok a -> (i < descriptor_count a)%nat ->
  exists d, descriptor_at a i = Some d /\ descriptor_ok (physical_limit a) d /\
    forall j e, (j < descriptor_count a)%nat -> j <> i -> descriptor_at a j = Some e ->
      disjoint_regions d e.
Proof.
  intros (Hv & _ & Hb) Hi. apply validate_memory_map_spec in Hv as (_ & _ & _ & H); [|done].
  exact (H i Hi).
Qed.

(** ** Lemmas: the frames of the map *)

Lemma elem_of_descriptor_frames a i first x :
  x ∈ descriptor_frames a i first <->
  exists d k, descriptor_at a i = Some d /\ memory_type d = EFI_CONVENTIONAL_MEMORY /\
    first <= k < number_of_pages d /\ x = physical_start d + k * PAGE_SIZE /\ usable a x = true.
Proof.
  unfold descriptor_frames. destruct (descriptor_at a i) as [d|].
  2: { split; [by intros ?%not_elem_of_nil|by intros (? & ? & ? & _)]. }
  destruct (Z.eqb_spec (memory_type d) EFI_CONVENTIONAL_MEMORY) as [Ht|Ht].
  2: { split; [by intros ?%not_elem_of_nil|by intros (? & ? & [= <-] & ? & _)]. }
  rewrite list_elem_of_filter, list_elem_of_fmap. setoid_rewrite elem_of_seqZ. split.
  - intros [Hu (k & -> & Hk)]. exists d, k. split_and!; [done..|lia|lia|done|done].
  - intros (? & k & [= <-] & _ & Hk & -> & Hu). split; [done|]. exists k. split; [done|lia].
Qed.

Lemma elem_of_frames_from a n x :
  x ∈ frames_from a n <->
  exists i, (n <= i < descriptor_count a)%nat /\ x ∈ descriptor_frames a i 0.
Proof.
  unfold frames_from. rewrite list_elem_of_join. setoid_rewrite list_elem_of_fmap.
  setoid_rewrite elem_of_seq. split.
  - intros (l & Hx & i & -> & Hi). exists i. split; [lia|done].
  - intros (i & Hi & Hx). eexists. split; [exact Hx|]. exists i. split; [done|lia].
Qed.

Lemma frames_from_S a i :
  (i < descriptor_count a)%nat ->
  frames_from a i = descriptor_frames a i 0 ++ frames_from a (i + 1).
Proof.
  intros Hi. unfold frames_from.
  replace (descriptor_count a - i)%nat with (S (descriptor_count a - (i + 1))) by lia.
  simpl. by rewrite Nat.add_1_r.
Qed.

Lemma NoDup_descriptor_frames a i first : NoDup (descriptor_frames a i first).
Proof.
  unfold descriptor_frames. destruct (descriptor_at a i) as [d|]; [|constructor].
  destruct (_ =? _); [|constructor]. apply NoDup_filter, NoDup_fmap_2; [|apply NoDup_seqZ].
  intros x y E. lia.
Qed.

(** Different descriptors have different frames. *)
Lemma descriptor_frames_disjoint a i j first first' x :
  map_ok a -> (i < descriptor_count a)%nat -> (j < descriptor_count a)%nat ->
  0 <= first -> 0 <= first' ->
  x ∈ descriptor_frames a i first -> x ∈ descriptor_frames a j first' -> i = j.
Proof.
  intros Hm Hi Hj H0 H0' Hx Hy. destruct (decide (i = j)) as [|Hne]; [done|].
  apply elem_of_descriptor_frames in Hx as (d & k & Hd & _ & Hk & Ex & _).
  apply elem_of_descriptor_frames in Hy as (e & l & He & _ & Hl & Ey & _).
  destruct (map_ok_descriptor a i Hm Hi) as (d' & Hd' & _ & Hdis).
  assert (d = d') as <- by congruence.
  destruct (Hdis j e Hj ltac:(done) He); lia.
Qed.

Lemma NoDup_frames_from a n : map_ok a -> NoDup (frames_from a n).
Proof.
  intros Hm. remember (descriptor_count a - n)%nat as m eqn:Em. revert n Em.
  induction m as [|m IH]; intros n Em.
  { unfold frames_from. rewrite <-Em. constructor. }
  rewrite frames_from_S by lia. apply NoDup_app. split_and!.
  - apply NoDup_descriptor_frames.
  - intros x Hx (i & Hi & Hx')%elem_of_frames_from.
    assert (n = i) by (apply (descriptor_frames_disjoint a n i 0 0 x); [done|lia..|done|done]). lia.
  - apply IH. lia.
Qed.

(** ** Lemmas: the allocator *)

(** Two allocators over the same map. *)
Definition same_map (a b : Allocator) : Prop :=
  memory_map b = memory_map a /\ descriptor_size b = descriptor_size a /\
  descriptor_count b = descriptor_count a /\ physical_limit b = physical_limit a /\
  reserved b = reserved a.

Lemma same_map_frames a b i first :
  same_map a b -> descriptor_frames b i first = descriptor_frames a i first.
Proof.
  intros (E1 & E2 & E3 & E4 & E5). unfold descriptor_frames, descriptor_at. rewrite E1, E2.
  destruct (read_descriptor _ _ _) as [d|]; [|done]. destruct (_ =? _); [|done].
  apply list_filter_iff. intros x. unfold usable. by rewrite E4, E5.
Qed.

Lemma same_map_frames_from a b n : same_map a b -> frames_from b n = frames_from a n.
Proof.
  intros Hs. unfold frames_from. pose proof Hs as (_ & _ & -> & _). f_equal.
  apply list_fmap_ext. intros ? i _. by apply same_map_frames.
Qed.

Lemma same_map_ok a b : same_map a b -> map_ok a -> map_ok b.
Proof. intros (E1 & E2 & E3 & E4 & E5). unfold map_ok. by rewrite E1, E2, E3, E4. Qed.

(** The first frame of a descriptor's rest, when its next page is usable. *)
Lemma descriptor_frames_cons a i d first :
  descriptor_at a i = Some d -> memory_type d = EFI_CONVENTIONAL_MEMORY ->
  first < number_of_pages d ->
  let x := physical_start d + first * PAGE_SIZE in
  descriptor_frames a i first =
    (if usable a x then [x] else []) ++ descriptor_frames a i (first + 1).
Proof.
  intros Hd Ht Hf x. unfold descriptor_frames. rewrite Hd, (proj2 (Z.eqb_eq _ _) Ht).
  rewrite (seqZ_cons first) by lia. rewrite fmap_cons, filter_cons.
  replace (Z.pred (number_of_pages d - first)) with (number_of_pages d - (first + 1)) by lia.
  replace (Z.succ first) with (first + 1) by lia. fold x. by destruct (usable a x).
Qed.

Lemma descriptor_frames_nil a i d first :
  descriptor_at a i = Some d ->
  memory_type d <> EFI_CONVENTIONAL_MEMORY \/ number_of_pages d <= first ->
  descriptor_frames a i first = [].
Proof.
  intros Hd Hn. unfold descriptor_frames. rewrite Hd.
  destruct (Z.eqb_spec (memory_type d) EFI_CONVENTIONAL_MEMORY); [|done].
  rewrite seqZ_nil by lia. done.
Qed.

(** Moving the cursor past the last page of a descriptor. *)
Lemma unvisited_next_descriptor a d :
  (descriptor_index a < descriptor_count a)%nat ->
  descriptor_at a (descriptor_index a) = Some d ->
  memory_type d <> EFI_CONVENTIONAL_MEMORY \/ number_of_pages d <= page_index a ->
  unvisited (set_cursor (descriptor_index a + 1) 0 a) = unvisited a.
Proof.
  intros Hi Hd Hn. unfold unvisited at 2. rewrite (proj2 (Nat.ltb_lt _ _) Hi).
  rewrite (descriptor_frames_nil _ _ _ _ Hd Hn). simpl. unfold unvisited.
  cbn [descriptor_index descriptor_count set_cursor page_index].
  assert (same_map a (set_cursor (descriptor_index a + 1) 0 a)) as Hs by done.
  rewrite (same_map_frames _ _ _ _ Hs), (same_map_frames_from _ _ _ Hs).
  case_match; bools.
  - by rewrite (frames_from_S a (descriptor_index a + 1)).
  - unfold frames_from. replace (_ - _)%nat with 0%nat by lia. done.
Qed.

(** Moving the cursor past a page. *)
Lemma unvisited_next_page a d :
  (descriptor_index a < descriptor_count a)%nat ->
  descriptor_at a (descriptor_index a) = Some d ->
  memory_type d = EFI_CONVENTIONAL_MEMORY -> page_index a < number_of_pages d ->
  let x := physical_start d + page_index a * PAGE_SIZE in
  unvisited a = (if usable a x then [x] else []) ++
    unvisited (set_cursor (descriptor_index a) (page_index a + 1) a).
Proof.
  intros Hi Hd Ht Hp x. unfold unvisited.
  cbn [descriptor_index descriptor_count set_cursor page_index].
  rewrite (proj2 (Nat.ltb_lt _ _) Hi), app_assoc.
  assert (same_map a (set_cursor (descriptor_index a) (page_index a + 1) a)) as Hs by done.
  rewrite (same_map_frames _ _ _ _ Hs), (same_map_frames_from _ _ _ Hs).
  by rewrite (descriptor_frames_cons _ _ _ _ Hd Ht Hp).
Qed.

Section allocate.
Variable from_start_address : Z -> option Z.

(** The [x86_64] crate: a page-aligned address below 2^52 is the start of a
    frame, whose start address it is. *)
Hypothesis from_start_address_aligned : forall address,
  0 <= address < 2 ^ 52 -> address mod PAGE_SIZE = 0 ->
  from_start_address address = Some address.

(** Rounds the loop can still take. *)
Definition rounds_left (a : Allocator) : Z :=
  rounds_from a (descriptor_index a)
    - (if (descriptor_index a <? descriptor_count a)%nat
       then Z.min (page_index a) (pages_at a (descriptor_index a)) else 0).

Lemma rounds_from_nonneg a i : 0 <= rounds_from a i.
Proof.
  unfold rounds_from. induction (seq i _) as [|j l IH]; simpl; [lia|].
  unfold pages_at at 1. case_match; lia.
Qed.

Lemma rounds_from_S a i :
  (i < descriptor_count a)%nat -> rounds_from a i = pages_at a i + 1 + rounds_from a (i + 1).
Proof.
  intros Hi. unfold rounds_from.
  replace (descriptor_count a - i)%nat with (S (descriptor_count a - (i + 1))) by lia.
  simpl. by rewrite Nat.add_1_r.
Qed.

Lemma rounds_left_bounds a : 0 <= page_index a ->
  0 <= rounds_left a < rounds_from a (descriptor_index a) + 1.
Proof.
  intros Hp. unfold rounds_left. pose proof (rounds_from_nonneg a (descriptor_index a)).
  destruct (Nat.ltb_spec (descriptor_index a) (descriptor_count a)) as [Hi|]; [|lia].
  rewrite rounds_from_S by done. pose proof (rounds_from_nonneg a (descriptor_index a + 1)).
  assert (0 <= pages_at a (descriptor_index a)) by (unfold pages_at; case_match; lia). lia.
Qed.

Lemma rounds_left_next_descriptor a :
  (descriptor_index a < descriptor_count a)%nat -> 0 <= page_index a ->
  0 <= rounds_left (set_cursor (descriptor_index a + 1) 0 a) < rounds_left a.
Proof.
  intros Hi Hp. set (b := set_cursor _ _ _).
  pose proof (rounds_left_bounds b ltac:(simpl; lia)) as Hb.
  unfold rounds_left at 3. rewrite (proj2 (Nat.ltb_lt _ _) Hi), rounds_from_S by done.
  change (rounds_from b (descriptor_index b)) with (rounds_from a (descriptor_index a + 1)) in Hb.
  lia.
Qed.

Lemma rounds_left_next_page a d :
  (descriptor_index a < descriptor_count a)%nat -> 0 <= page_index a ->
  descriptor_at a (descriptor_index a) = Some d -> page_index a < number_of_pages d ->
  0 <= rounds_left (set_cursor (descriptor_index a) (page_index a + 1) a) < rounds_left a.
Proof.
  intros Hi Hp Hd Hlt. set (b := set_cursor _ _ _).
  pose proof (rounds_left_bounds b ltac:(simpl; lia)) as [Hb _]. split; [done|].
  unfold rounds_left. change (descriptor_index b) with (descriptor_index a).
  change (descriptor_count b) with (descriptor_count a).
  change (page_index b) with (page_index a + 1).
  change (pages_at b) with (pages_at a). change (rounds_from b) with (rounds_from a).
  rewrite (proj2 (Nat.ltb_lt _ _) Hi).
  assert (pages_at a (descriptor_index a) = Z.max 0 (number_of_pages d)) as ->
    by (unfold pages_at; by rewrite Hd). lia.
Qed.

(** What the loop keeps while it moves from [a] to [b]. *)
Definition cursor_moved (a b : Allocator) : Prop :=
  same_map a b /\ reclaimed_frames b = reclaimed_frames a /\
  reclaimed_count b = reclaimed_count a /\ 0 <= page_index b.

Lemma next_frame_round_spec a :
  map_ok a -> 0 <= page_index a ->
  match next_frame_round from_start_address a with
  | inl b => cursor_moved a b /\ unvisited b = unvisited a /\ 0 <= rounds_left b < rounds_left a
  | inr (b, res) => cursor_moved a b /\
      ((unvisited a = [] /\ unvisited b = [] /\ res = Ok None) \/
       exists x, unvisited a = x :: unvisited b /\ res = Ok (Some x))
  end.
Proof.
  intros Hm Hp. unfold next_frame_round.
  destruct (Nat.ltb_spec (descriptor_index a) (descriptor_count a)) as [Hi|Hi].
  2: { split; [done|]. left. unfold unvisited.
       rewrite (proj2 (Nat.ltb_ge _ _)) by lia. done. }
  destruct (map_ok_descriptor a _ Hm Hi) as (d & Hd & (H0 & Hal & Hpos & Hend) & _). rewrite Hd.
  destruct (_ || _) eqn:Hc.
  { split; [done|]. split; [|by apply rounds_left_next_descriptor].
    apply (unvisited_next_descriptor a d); [done..|].
    apply orb_true_iff in Hc as [?|?]; bools; auto. }
  bools. pose proof (rounds_left_next_page a d Hi Hp Hd ltac:(done)).
  pose proof (unvisited_next_page a d Hi Hd ltac:(done) ltac:(done)) as Hu. cbv zeta in Hu |- *.
  set (x := physical_start d + page_index a * PAGE_SIZE) in *.
  set (b := set_cursor _ _ _) in *. change (usable b x) with (usable a x).
  assert (cursor_moved a b) as Hmv by (split_and!; simpl; done || lia).
  destruct (usable a x) eqn:Hux; simpl negb; cbv iota; [|by rewrite Hu].
  rewrite from_start_address_aligned; [split; [done|right; eauto]| |].
  - destruct Hm as (_ & ? & _). unfold x. lia.
  - unfold x. rewrite Z.add_mod, Hal, Z.mod_mul by lia. done.
Qed.

Lemma cursor_moved_trans a b c : cursor_moved a b -> cursor_moved b c -> cursor_moved a c.
Proof.
  intros ((?&?&?&?&?) & ? & ? & ?) ((?&?&?&?&?) & ? & ? & ?).
  split_and!; [split_and!|..]; congruence || done.
Qed.

Lemma next_frame_loop_spec a :
  map_ok a -> 0 <= page_index a ->
  exists b res,
    while_loop (rounds_from a (descriptor_index a) + 1) (next_frame_round from_start_address) a
      = Some (b, res) /\ cursor_moved a b /\
    ((unvisited a = [] /\ unvisited b = [] /\ res = Ok None) \/
     exists x, unvisited a = x :: unvisited b /\ res = Ok (Some x)).
Proof.
  intros Hm Hp.
  destruct (while_loop_ends (fun b => cursor_moved a b /\ unvisited b = unvisited a) rounds_left
    (fun br => cursor_moved a br.1 /\
      ((unvisited a = [] /\ unvisited br.1 = [] /\ br.2 = Ok None) \/
       exists x, unvisited a = x :: unvisited br.1 /\ br.2 = Ok (Some x)))
    (next_frame_round from_start_address) (rounds_from a (descriptor_index a) + 1) a)
    as ([b res] & E & H); [|done|by apply rounds_left_bounds|eauto].
  intros b [Hmv Hu]. pose proof Hmv as (Hs & _ & _ & Hpb).
  pose proof (next_frame_round_spec b (same_map_ok _ _ Hs Hm) Hpb) as Hr.
  destruct (next_frame_round _ b) as [c|[c res]].
  - destruct Hr as (Hmv' & Hu' & Hlt). split; [|done]. split; [by eapply cursor_moved_trans|congruence].
  - destruct Hr as (Hmv' & Hr). split; [by eapply cursor_moved_trans|]. simpl. by rewrite <-Hu.
Qed.

(** [next_usable_frame] takes the first frame of the pool. *)
Lemma next_usable_frame_spec a :
  allocator_ok a ->
  exists b, next_usable_frame from_start_address a = (b, Ok (head (pool a))) /\
    pool b = tail (pool a) /\ allocator_ok b /\ same_map a b /\
    reclaimed_count b = (reclaimed_count a - 1)%nat.
Proof.
  intros [Hm Hp Hlen Hcount Hslots]. unfold next_usable_frame.
  destruct (reclaimed_count a) as [|n] eqn:Hn.
  - assert (forall b, reclaimed_count b = 0%nat -> cached b = []) as Hc
      by (intros b Hb; unfold cached; by rewrite Hb).
    destruct (next_frame_loop_spec a Hm Hp) as (b & res & -> & (Hs & Hf & Hcnt & Hpb) & Hr).
    exists b. simpl. unfold pool. rewrite !Hc by congruence. simpl.
    assert (allocator_ok b) as Hb.
    { split; [by eapply same_map_ok|done|congruence|lia|]. intros i. rewrite Hcnt, Hn. lia. }
    rewrite Hcnt, Hn. destruct Hr as [(-> & -> & ->)|(x & -> & ->)]; done.
  - destruct (Hslots n ltac:(lia)) as [f Hf]. rewrite Hf.
    eexists. assert (cached a = f :: cached (set_reclaimed (<[n:=None]> (reclaimed_frames a)) n a)) as Hc.
    { unfold cached. rewrite Hn. simpl. rewrite (take_S_r _ _ _ Hf), omap_app, reverse_app. simpl.
      f_equal. f_equal. by rewrite take_insert_ge. }
    unfold pool. rewrite Hc. split; [done|]. split; [done|]. split; [|split; [done|simpl; lia]].
    split; simpl; [done..|by rewrite length_insert|lia|].
    intros i Hi. rewrite list_lookup_insert_ne by lia. apply Hslots. lia.
Qed.

End allocate.

Lemma reclaim_frame_spec f a :
  allocator_ok a ->
  if (reclaimed_count a <? RECLAIMED_FRAME_CAPACITY)%nat
  then exists b, reclaim_frame f a = (b, true) /\ pool b = f :: pool a /\
    allocator_ok b /\ same_map a b /\ reclaimed_count b = S (reclaimed_count a)
  else reclaim_frame f a = (a, false).
Proof.
  intros [Hm Hp Hlen Hcount Hslots]. unfold reclaim_frame.
  destruct (Nat.ltb_spec (reclaimed_count a) RECLAIMED_FRAME_CAPACITY) as [Hlt|]; [|done].
  eexists. split; [done|]. split.
  - unfold pool, cached. simpl. rewrite Nat.add_1_r.
    rewrite (take_S_r _ _ (Some f)) by (apply list_lookup_insert_eq; lia).
    rewrite take_insert_ge by lia. by rewrite omap_app, reverse_app.
  - split; [|split; [done|simpl; lia]]. split; simpl; [done..|by rewrite length_insert|lia|].
    intros i Hi. destruct (decide (i = reclaimed_count a)) as [->|].
    + exists f. apply list_lookup_insert_eq. lia.
    + rewrite list_lookup_insert_ne by done. apply Hslots. lia.
Qed.

Lemma any_descriptor_spec a p l :
  (forall i, i ∈ l -> is_Some (descriptor_at a i)) ->
  exists b, any_descriptor a p l = Ok b /\
    (b = true <-> exists i d, i ∈ l /\ descriptor_at a i = Some d /\ p d = true).
Proof.
  induction l as [|i l IH]; intros Hl; simpl.
  { exists false. split; [done|]. split; [done|]. by intros (? & ? & ?%not_elem_of_nil & _). }
  destruct (Hl i ltac:(left)) as [d Hd]. rewrite Hd. destruct (p d) eqn:Hpd.
  { exists true. split; [done|]. split; [|done]. intros _. exists i, d. split; [left|done]. }
  destruct IH as (b & -> & Hb). { intros j Hj. apply Hl. by right. }
  exists b. split; [done|]. rewrite Hb. setoid_rewrite elem_of_cons. split.
  - intros (j & e & ? & ? & ?). eauto 10.
  - intros (j & e & [->|?] & ? & ?); [congruence|eauto].
Qed.

(** [is_allocatable_frame] recognises the frames of the map. *)
Lemma is_allocatable_frame_spec a f :
  map_ok a -> f mod PAGE_SIZE = 0 ->
  is_allocatable_frame a f = Ok (bool_decide (f ∈ all_frames a)).
Proof.
  intros Hm Hf. unfold is_allocatable_frame. destruct (usable a f) eqn:Hu; simpl negb; cbv iota.
  2: { rewrite bool_decide_false; [done|].
       intros (i & _ & (? & ? & _ & _ & _ & _ & ?)%elem_of_descriptor_frames)%elem_of_frames_from.
       congruence. }
  edestruct (any_descriptor_spec a) as (b & -> & Hb).
  { intros i Hi%elem_of_seq. destruct (map_ok_descriptor a i Hm ltac:(lia)) as (d & -> & _). done. }
  f_equal. apply eq_true_iff_eq. rewrite Hb, bool_decide_eq_true. unfold all_frames.
  rewrite elem_of_frames_from. split.
  - intros (i & d & Hi%elem_of_seq & Hd & Hp). exists i. split; [lia|]. bools.
    destruct (map_ok_descriptor a i Hm ltac:(lia)) as (d' & Hd' & (_ & Hal & _) & _).
    assert (d = d') as <- by congruence.
    apply elem_of_descriptor_frames. exists d, ((f - physical_start d) / PAGE_SIZE).
    assert ((f - physical_start d) mod PAGE_SIZE = 0) as Hz
      by (rewrite Zminus_mod, Hf, Hal; done).
    pose proof (Z.div_mod (f - physical_start d) PAGE_SIZE ltac:(lia)).
    split_and!; [done..|lia|lia|lia|done].
  - intros (i & Hi & (d & k & Hd & Ht & Hk & -> & _)%elem_of_descriptor_frames).
    exists i, d. split; [apply elem_of_seq; lia|]. split; [done|].
    rewrite (proj2 (Z.eqb_eq _ _) Ht), (proj2 (Z.leb_le _ _)), (proj2 (Z.ltb_lt _ _)) by lia. done.
Qed.

Lemma all_frames_aligned a f : map_ok a -> f ∈ all_frames a -> f mod PAGE_SIZE = 0.
Proof.
  intros Hm (i & Hi & (d & k & Hd & _ & _ & -> & _)%elem_of_descriptor_frames)%elem_of_frames_from.
  destruct (map_ok_descriptor a i Hm ltac:(lia)) as (d' & Hd' & (_ & Hal & _) & _).
  assert (d = d') as <- by congruence. rewrite Z.add_mod, Hal, Z.mod_mul by lia. done.
Qed.

Lemma same_map_all_frames a b : same_map a b -> all_frames b = all_frames a.
Proof. apply same_map_frames_from. Qed.

Lemma deallocate_frame_spec f a :
  allocator_ok a -> f ∈ all_frames a ->
  if (reclaimed_count a <? RECLAIMED_FRAME_CAPACITY)%nat
  then exists b, deallocate_frame f a = (b, Ok tt) /\ pool b = f :: pool a /\
    allocator_ok b /\ same_map a b
  else deallocate_frame f a = (a, Err FrameReclaimCapacityExceeded).
Proof.
  intros Ha Hf. pose proof (aok_map _ Ha) as Hm. unfold deallocate_frame.
  rewrite is_allocatable_frame_spec, bool_decide_true by eauto using all_frames_aligned.
  pose proof (reclaim_frame_spec f a Ha) as Hr.
  destruct (_ <? _)%nat; [destruct Hr as (b & -> & ? & ? & ? & _); eauto|by rewrite Hr].
Qed.

(** *** Construction *)

Definition range_aligned (r : PhysicalRange) : Prop :=
  range_start r mod PAGE_SIZE = 0 /\ range_end r mod PAGE_SIZE = 0.

Lemma page_down_aligned x : page_down x mod PAGE_SIZE = 0.
Proof.
  rewrite page_down_spec. rewrite Zminus_mod, Z.mod_mod, Z.sub_diag by lia. done.
Qed.

Lemma page_covering_range_spec address size limit r :
  0 <= address -> 0 <= size -> page_covering_range address size limit = Ok r ->
  range_aligned r /\
  (forall x, address <= x < address + size -> contains r x = true) /\
  (size <> 0 -> range_end r <= limit).
Proof.
  intros Ha Hs H. unfold page_covering_range in H.
  destruct (Z.eqb_spec size 0) as [->|Hne].
  { simplify_eq. split_and!; [done..| |done]. intros. lia. }
  apply bind_Ok_inv in H as (e & He%ok_or_Ok_inv & H). apply checked_add_Some in He as [-> _].
  apply bind_Ok_inv in H as (p & Hp%ok_or_Ok_inv & H). apply checked_add_Some in Hp as [-> _].
  case_match eqn:Hc; [done|]. bools. simplify_eq.
  split; [split; simpl; apply page_down_aligned|]. simpl. split; [|done].
  intros x Hx. unfold contains. simpl. rewrite !page_down_spec in *.
  pose proof (Z.mod_pos_bound address PAGE_SIZE).
  pose proof (Z.mod_pos_bound (address + size + PAGE_MASK) PAGE_SIZE).
  rewrite (proj2 (Z.leb_le _ _)), (proj2 (Z.ltb_lt _ _)) by lia. done.
Qed.

(** The fields of the boot information are unsigned. *)
Definition boot_info_ok (b : BootInfo) : Prop :=
  0 <= system_table b /\ 0 <= memory_map_address b /\ 0 <= memory_map_size b /\
  0 <= kernel_base b /\ 0 <= kernel_reserved_size b /\ 0 <= page_table_root b /\
  0 <= framebuffer_base b /\ 0 <= framebuffer_size b.

(** The objects the boot loader leaves in memory. *)
Definition boot_objects (b : BootInfo) (boot_info_address : Z) : list (Z * Z) :=
  [(kernel_base b, kernel_reserved_size b); (boot_info_address, BOOT_INFO_SIZE);
   (memory_map_address b, memory_map_size b); (page_table_root b, PAGE_SIZE);
   (system_table b, PAGE_SIZE); (framebuffer_base b, framebuffer_size b)].

Lemma reserved_ranges_spec b address limit ranges :
  boot_info_ok b -> 0 <= address -> reserved_ranges b address limit = Ok ranges ->
  Forall range_aligned ranges /\
  (forall start size x, (start, size) ∈ boot_objects b address -> start <= x < start + size ->
     existsb (fun r => contains r x) ranges = true).
Proof.
  intros (? & ? & ? & ? & ? & ? & ? & ?) Ha HR. unfold reserved_ranges in HR.
  assert (0 <= BOOT_INFO_SIZE) by done.
  repeat match type of HR with
  | (page_covering_range ?x ?y ?z ≫= _) = Ok _ =>
      let r := fresh "r" in let Hr := fresh "Hr" in
      apply bind_Ok_inv in HR as (r & Hr & HR);
      apply page_covering_range_spec in Hr as (? & Hr & _); [|lia..]
  end.
  simplify_eq. split; [by do 6 (constructor; [done|])|].
  intros start size x Hin Hx. rewrite existsb_exists. unfold boot_objects in Hin.
  rewrite !elem_of_cons, elem_of_nil in Hin.
  destruct Hin as [E|[E|[E|[E|[E|[E|[]]]]]]]; simplify_eq;
    eexists; (split; [|eauto]); simpl; tauto.
Qed.

Lemma Allocator_new_spec b map address limit a :
  boot_info_ok b -> bytes_ok map -> limit <= 2 ^ 52 -> 0 <= address ->
  Allocator_new b map address limit = Ok a ->
  allocator_ok a /\ pool a = all_frames a /\ Forall range_aligned (reserved a) /\
  memory_map a = map /\ descriptor_size a = boot_descriptor_size b /\
  (forall start size x, (start, size) ∈ boot_objects b address -> start <= x < start + size ->
     usable a x = false).
Proof.
  intros Hbi Hb Hl Ha H. unfold Allocator_new in H. do 2 (case_match; [done|]).
  apply bind_Ok_inv in H as (n & Hn & H). apply bind_Ok_inv in H as (ranges & Hr & H).
  apply bind_Ok_inv in H as ([] & _ & [= <-]).
  destruct (reserved_ranges_spec _ _ _ _ Hbi Ha Hr) as [Hal Hcov].
  split; [|split_and!; [|done..|]].
  - split; simpl; [done|lia|done|lia|lia].
  - unfold pool, cached, unvisited, all_frames. simpl.
    destruct (validate_memory_map_spec _ _ _ _ Hb Hn) as (_ & _ & Hpos & _).
    rewrite (proj2 (Nat.ltb_lt _ _) Hpos). symmetry. by apply frames_from_S.
  - intros start size x Hin Hx. unfold usable. simpl.
    rewrite (Hcov start size x Hin Hx). by rewrite orb_true_r.
Qed.

(** ** The allocator and its clients

    [held] lists the frames the clients own.  A frame returned when the cache
    of reclaimed frames is full stays with its owner. *)
Inductive alloc_step (from_start_address : Z -> option Z) :
  list Z * Allocator -> list Z * Allocator -> Prop :=
| alloc_step_allocate held a b res :
    next_usable_frame from_start_address a = (b, Ok res) ->
    alloc_step from_start_address (held, a) (option_list res ++ held, b)
| alloc_step_deallocate held held' a b f :
    held ≡ₚ f :: held' -> deallocate_frame f a = (b, Ok tt) ->
    alloc_step from_start_address (held, a) (held', b)
| alloc_step_rejected held a b f e :
    f ∈ held -> deallocate_frame f a = (b, Err e) ->
    alloc_step from_start_address (held, a) (held, b).

Section system.
Variable from_start_address : Z -> option Z.
Hypothesis from_start_address_aligned : forall address,
  0 <= address < 2 ^ 52 -> address mod PAGE_SIZE = 0 ->
  from_start_address address = Some address.

(** Owned and free frames together are the frames of the map. *)
Definition frames_conserved (a0 : Allocator) (x : list Z * Allocator) : Prop :=
  allocator_ok x.2 /\ same_map a0 x.2 /\ x.1 ++ pool x.2 ≡ₚ all_frames a0.

Lemma same_map_trans a b c : same_map a b -> same_map b c -> same_map a c.
Proof. intros (?&?&?&?&?) (?&?&?&?&?). split_and!; congruence. Qed.

Lemma held_all_frames a0 held a f :
  frames_conserved a0 (held, a) -> f ∈ held -> f ∈ all_frames a.
Proof.
  intros (_ & Hs & HP) Hf. simpl in Hs, HP. rewrite (same_map_all_frames _ _ Hs).
  rewrite <-HP. apply elem_of_app. by left.
Qed.

Lemma alloc_step_conserved a0 x y :
  alloc_step from_start_address x y -> frames_conserved a0 x -> frames_conserved a0 y.
Proof.
  intros Hstep Hx. pose proof Hx as (Hok & Hs & HP).
  destruct Hstep as [held a b res E|held held' a b f Hh E|held a b f e Hf E]; simpl in *.
  - destruct (next_usable_frame_spec _ from_start_address_aligned a Hok)
      as (b' & E' & Hp & Hb & Hsb & _).
    rewrite E in E'. simplify_eq. split; [done|]. split; [by eapply same_map_trans|].
    simpl. rewrite <-HP, Hp. destruct (pool a) as [|f l]; simpl; [done|].
    by rewrite Permutation_middle.
  - assert (f ∈ all_frames a) as Hf.
    { eapply held_all_frames; [exact Hx|]. rewrite Hh. left. }
    pose proof (deallocate_frame_spec f a Hok Hf) as Hd.
    destruct (_ <? _)%nat; [|congruence]. destruct Hd as (b' & E' & Hp & Hb & Hsb).
    rewrite E in E'. simplify_eq. split; [done|]. split; [by eapply same_map_trans|].
    simpl. rewrite Hp, <-HP, Hh. simpl. by rewrite Permutation_middle.
  - pose proof (deallocate_frame_spec f a Hok (held_all_frames _ _ _ _ Hx Hf)) as Hd.
    destruct (_ <? _)%nat; [destruct Hd as (? & E' & _); congruence|].
    rewrite E in Hd. by simplify_eq.
Qed.

End system.

(** ** An example machine

    Three conventional pages at 1 MiB and the boot loader's memory at 2 MiB. *)

Definition descriptor_bytes (type start pages : Z) : list Z :=
  le_encode 4 type ++ le_encode 4 0 ++ le_encode 8 start ++ le_encode 8 0 ++
  le_encode 8 pages ++ le_encode 8 0.

Definition example_map : list Z :=
  descriptor_bytes 7 0x100000 3 ++ descriptor_bytes 2 0x200000 16.

Definition example_boot_info : BootInfo :=
  mk_boot_info 0 2 0x20F000 0x20E000 80 40 1 0x200000 8192 8192 0x20C000
    0xFFFF800000000000 0x80000000 4096 32 32 32 1 0 0.

Definition example_limit : Z := 2 ^ 36.

Definition example_allocator : Allocator :=
  mk_allocator example_map 40 2 0 0 example_limit
    [mk_range 0x200000 0x202000; mk_range 0x20D000 0x20E000; mk_range 0x20E000 0x20F000;
     mk_range 0x20C000 0x20D000; mk_range 0x20F000 0x210000; mk_range 0x80000000 0x80001000]
    (replicate RECLAIMED_FRAME_CAPACITY None) 0.

Definition example_frame (address : Z) : option Z :=
  if address mod PAGE_SIZE =? 0 then Some address else None.

Lemma example_frame_aligned address :
  0 <= address < 2 ^ 52 -> address mod PAGE_SIZE = 0 -> example_frame address = Some address.
Proof. intros _ H. unfold example_frame. by rewrite H. Qed.

Lemma example_map_bytes : bytes_ok example_map.
Proof. by repeat apply Forall_app_2; apply le_encode_bytes. Qed.

Lemma example_boot_info_ok : boot_info_ok example_boot_info.
Proof. by vm_compute; split_and!. Qed.

Lemma example_new : Allocator_new example_boot_info example_map 0x20D000 example_limit
  = Ok example_allocator.
Proof. vm_compute. reflexivity. Qed.

Lemma example_allocator_ok : allocator_ok example_allocator.
Proof.
  eapply Allocator_new_spec; [apply example_boot_info_ok|apply example_map_bytes| | |apply example_new];
    by vm_compute.
Qed.

(** ** Properties *)

(** A memory map that passes [validate_memory_map] is a sequence of readable,
    non-empty, page-aligned regions below the physical address limit, and no two
    of them overlap. *)
Theorem validate_memory_map_sound map size limit n :
  bytes_ok map -> validate_memory_map map size limit = Ok n ->
  forall i j d e, (i < n)%nat -> (j < n)%nat ->
    read_descriptor map size i = Some d -> read_descriptor map size j = Some e ->
    descriptor_ok limit d /\ (i <> j -> disjoint_regions d e).
Proof.
  intros Hb H. apply validate_memory_map_spec in H as (_ & _ & _ & H); [|done].
  intros i j d e Hi Hj Hd He. destruct (H i Hi) as (d' & Hd' & Hok & Hdis).
  assert (d = d') as <- by congruence. eauto.
Qed.

Lemma validate_memory_map_sound_witness :
  exists d e, descriptor_ok example_limit d /\ (0%nat <> 1%nat -> disjoint_regions d e).
Proof.
  eexists _, _.
  apply (validate_memory_map_sound example_map 40 example_limit 2 example_map_bytes
    ltac:(vm_compute; reflexivity) 0 1); [lia|lia|reflexivity|reflexivity].
Defined.

Section properties.
Variable from_start_address : Z -> option Z.
Hypothesis from_start_address_aligned : forall address,
  0 <= address < 2 ^ 52 -> address mod PAGE_SIZE = 0 ->
  from_start_address address = Some address.

(** C1: After any sequence of allocations and deallocations, starting from the
    allocator built from the boot information, the frames owned by clients and
    the frames still to be handed out are exactly the frames of the memory map,
    each once: no frame is owned twice, none is lost, and no owned frame is handed
    out again; none of them lies in an object of the boot loader. *)
Theorem frames_never_shared b map address limit a0 held a :
  boot_info_ok b -> bytes_ok map -> limit <= 2 ^ 52 -> 0 <= address ->
  Allocator_new b map address limit = Ok a0 ->
  rtc (alloc_step from_start_address) ([], a0) (held, a) ->
  held ++ pool a ≡ₚ all_frames a0 /\ NoDup (held ++ pool a) /\
  (forall f start size, f ∈ held -> (start, size) ∈ boot_objects b address ->
     ~ start <= f < start + size).
Proof.
  intros Hbi Hb Hl Ha Hnew Hr.
  destruct (Allocator_new_spec _ _ _ _ _ Hbi Hb Hl Ha Hnew) as (Hok & Hp & _ & _ & _ & Hus).
  assert (frames_conserved a0 (held, a)) as (_ & _ & HP).
  { apply (rtc_invariant _ _ (alloc_step_conserved _ from_start_address_aligned a0) _ _ Hr).
    split; [done|]. split; [done|]. simpl. by rewrite Hp. }
  simpl in HP. split; [done|]. split.
  - rewrite HP. apply NoDup_frames_from, (aok_map _ Hok).
  - intros f start size Hf Hin Hlt.
    assert (f ∈ all_frames a0) as Hfa by (rewrite <-HP; apply elem_of_app; by left).
    apply elem_of_frames_from in Hfa as (i & _ & (? & ? & _ & _ & _ & _ & Hu)%elem_of_descriptor_frames).
    by rewrite (Hus start size f Hin Hlt) in Hu.
Qed.

(** [next_usable_frame] ends, never panics, and returns the most recently
    reclaimed frame, else the next usable frame of the map, else nothing. *)
Theorem next_usable_frame_total a :
  allocator_ok a ->
  exists b, next_usable_frame from_start_address a = (b, Ok (head (pool a))) /\
    pool b = tail (pool a) /\ allocator_ok b.
Proof.
  intros Ha. destruct (next_usable_frame_spec _ from_start_address_aligned a Ha)
    as (b & ? & ? & ? & _). eauto.
Qed.

End properties.

(** The first frame is allocated. *)
Lemma frames_never_shared_witness :
  let a := set_cursor 0 1 example_allocator in
  [0x100000] ++ pool a ≡ₚ all_frames example_allocator /\ NoDup ([0x100000] ++ pool a) /\
  (forall f start size, f ∈ [0x100000] ->
     (start, size) ∈ boot_objects example_boot_info 0x20D000 -> ~ start <= f < start + size).
Proof.
  apply (frames_never_shared example_frame example_frame_aligned example_boot_info example_map
    0x20D000 example_limit example_allocator).
  - apply example_boot_info_ok.
  - apply example_map_bytes.
  - by vm_compute.
  - lia.
  - apply example_new.
  - apply rtc_once. apply (alloc_step_allocate example_frame [] example_allocator
      (set_cursor 0 1 example_allocator) (Some 0x100000)). vm_compute. reflexivity.
Defined.

Lemma next_usable_frame_total_witness :
  exists b, next_usable_frame example_frame example_allocator
    = (b, Ok (head (pool example_allocator))) /\
  pool b = tail (pool example_allocator) /\ allocator_ok b.
Proof.
  apply (next_usable_frame_total example_frame example_frame_aligned).
  apply example_allocator_ok.
Defined.
