(* ===== verification/FrameCount.v ===== *)
(** * Counting the free frames

    [available_frame_count] of [memory/mod.rs] subtracts the union of the reserved
    ranges from each region with a cursor over the sorted ranges.  It counts the
    frames the allocator would hand out. *)

From stdpp Require Import sorting.
From S2P Require Import Prelude FrameAlloc.

Local Open Scope Z_scope.

(** The page addresses of a region. *)
Definition page_list (start n : Z) : list Z := (fun k => start + k * PAGE_SIZE) <$> seqZ 0 n.

Definition covered (ranges : list PhysicalRange) (x : Z) : bool :=
  existsb (fun r => contains r x) ranges.

Definition uncovered_count (ranges : list PhysicalRange) (start n : Z) : Z :=
  Z.of_nat (count (fun x => negb (covered ranges x)) (page_list start n)).

(** The order of [sort_unstable_by_key(|reserved| reserved.start)]. *)
Definition by_start (q r : PhysicalRange) : Prop := range_start q <= range_start r.

(** ** Lemmas *)

Lemma count_filter_length {A} (p : A -> bool) l :
  length (filter (fun x => p x = true) l) = count p l.
Proof.
  induction l as [|x l IH]; [done|]. rewrite filter_cons. simpl.
  destruct (p x); simpl; by rewrite IH.
Qed.

Lemma count_ext {A} (p q : A -> bool) l :
  (forall x, x ∈ l -> p x = q x) -> count p l = count q l.
Proof.
  induction l as [|x l IH]; intros H; [done|]. simpl.
  rewrite (H x ltac:(left)), IH; [done|]. intros y Hy. apply H. by right.
Qed.

Lemma count_split {A} (p q : A -> bool) l :
  count p l = (count (fun x => p x && q x) l + count (fun x => p x && negb (q x)) l)%nat.
Proof. induction l as [|x l IH]; [done|]. simpl. rewrite IH. destruct (p x), (q x); simpl; lia. Qed.

(** Pages of an aligned interval, by page numbers. *)
Lemma count_interval_nat start (n : nat) i j :
  0 <= i -> 0 <= j ->
  Z.of_nat (count (fun x => (start + i * PAGE_SIZE <=? x) && (x <? start + j * PAGE_SIZE))
    (page_list start (Z.of_nat n))) = Z.max 0 (Z.min j (Z.of_nat n) - i).
Proof.
  intros Hi Hj. induction n as [|n IH]; [simpl; lia|].
  unfold page_list in *. rewrite seqZ_S, fmap_app, count_app, (Nat2Z.inj_succ n).
  rewrite Nat2Z.inj_add, IH. cbn [fmap list_fmap count]. rewrite Z.add_0_l.
  destruct (Z.leb_spec (start + i * PAGE_SIZE) (start + Z.of_nat n * PAGE_SIZE)),
    (Z.ltb_spec (start + Z.of_nat n * PAGE_SIZE) (start + j * PAGE_SIZE)); simpl; lia.
Qed.

Lemma count_interval start n lo hi :
  start mod PAGE_SIZE = 0 -> lo mod PAGE_SIZE = 0 -> hi mod PAGE_SIZE = 0 ->
  0 <= n -> start <= lo -> lo <= hi -> hi <= start + n * PAGE_SIZE ->
  Z.of_nat (count (fun x => (lo <=? x) && (x <? hi)) (page_list start n)) = (hi - lo) / PAGE_SIZE.
Proof.
  intros Hs Hlo Hhi Hn H1 H2 H3.
  assert (exists i, lo = start + i * PAGE_SIZE) as [i ->].
  { exists ((lo - start) / PAGE_SIZE).
    assert ((lo - start) mod PAGE_SIZE = 0) by (rewrite Zminus_mod, Hlo, Hs; done).
    pose proof (Z.div_mod (lo - start) PAGE_SIZE). lia. }
  assert (exists j, hi = start + j * PAGE_SIZE) as [j ->].
  { exists ((hi - start) / PAGE_SIZE).
    assert ((hi - start) mod PAGE_SIZE = 0) by (rewrite Zminus_mod, Hhi, Hs; done).
    pose proof (Z.div_mod (hi - start) PAGE_SIZE). lia. }
  rewrite <-(Z2Nat.id n) by lia. rewrite count_interval_nat by lia.
  replace (start + j * PAGE_SIZE - (start + i * PAGE_SIZE)) with ((j - i) * PAGE_SIZE) by lia.
  rewrite Z.div_mul by lia. lia.
Qed.

Lemma elem_of_page_list start n x :
  start mod PAGE_SIZE = 0 ->
  x ∈ page_list start n <-> x mod PAGE_SIZE = 0 /\ start <= x < start + n * PAGE_SIZE.
Proof.
  intros Hs. unfold page_list. rewrite list_elem_of_fmap. setoid_rewrite elem_of_seqZ. split.
  - intros (k & -> & Hk). split; [|lia]. rewrite Z.add_mod, Hs, Z.mod_mul by lia. done.
  - intros [Hx Hlt]. exists ((x - start) / PAGE_SIZE).
    assert ((x - start) mod PAGE_SIZE = 0) by (rewrite Zminus_mod, Hx, Hs; done).
    pose proof (Z.div_mod (x - start) PAGE_SIZE). lia.
Qed.

Lemma covered_app ranges ranges' x :
  covered (ranges ++ ranges') x = covered ranges x || covered ranges' x.
Proof. apply existsb_app. Qed.

(** The cursor after the ranges [done_]: everything they cover in the region lies
    before it, and what lies between the start of a later range and the cursor is
    covered. *)
Definition cursor_ok (start n : Z) (done_ : list PhysicalRange) (cursor : Z) : Prop :=
  start <= cursor /\ cursor mod PAGE_SIZE = 0 /\ cursor <= start + n * PAGE_SIZE /\
  (forall x, start <= x < start + n * PAGE_SIZE -> covered done_ x = true -> x < cursor) /\
  (forall x, start <= x < cursor ->
     (forall q, q ∈ done_ -> range_start q <= x) -> covered done_ x = true).

Lemma max_aligned x y :
  x mod PAGE_SIZE = 0 -> y mod PAGE_SIZE = 0 -> Z.max x y mod PAGE_SIZE = 0.
Proof. destruct (Z.max_spec x y) as [[_ ->]|[_ ->]]; done. Qed.

Lemma min_aligned x y :
  x mod PAGE_SIZE = 0 -> y mod PAGE_SIZE = 0 -> Z.min x y mod PAGE_SIZE = 0.
Proof. destruct (Z.min_spec x y) as [[_ ->]|[_ ->]]; done. Qed.

Lemma contains_spec r x : contains r x = true <-> range_start r <= x < range_end r.
Proof. unfold contains. rewrite andb_true_iff, Z.leb_le, Z.ltb_lt. lia. Qed.

Lemma end_aligned start n : start mod PAGE_SIZE = 0 -> (start + n * PAGE_SIZE) mod PAGE_SIZE = 0.
Proof. intros Hs. rewrite Z.add_mod, Hs, Z.mod_mul by lia. done. Qed.

(** One more range: what it adds to the covered pages starts at the cursor. *)
Lemma newly_covered start n done_ r cursor :
  start mod PAGE_SIZE = 0 -> 0 <= n -> range_aligned r ->
  (forall q, q ∈ done_ -> range_start q <= range_start r) ->
  cursor_ok start n done_ cursor ->
  let lo := Z.max (Z.max start (range_start r)) cursor in
  let hi := Z.min (start + n * PAGE_SIZE) (range_end r) in
  uncovered_count (done_ ++ [r]) start n =
    uncovered_count done_ start n - (if lo <? hi then (hi - lo) / PAGE_SIZE else 0).
Proof.
  intros Hs Hn [Hr1 Hr2] Hle (Hc1 & Hc2 & Hc3 & Hc4 & Hc5) lo hi. unfold uncovered_count.
  rewrite (count_split (fun x => negb (covered done_ x)) (fun x => contains r x)).
  assert (count (fun x => negb (covered (done_ ++ [r]) x)) (page_list start n) =
    count (fun x => negb (covered done_ x) && negb (contains r x)) (page_list start n)) as ->.
  { apply count_ext. intros x _. rewrite covered_app. simpl.
    by rewrite orb_false_r, negb_orb. }
  assert (count (fun x => negb (covered done_ x) && contains r x) (page_list start n) =
    count (fun x => (lo <=? x) && (x <? hi)) (page_list start n)) as ->.
  { apply count_ext. intros x [_ Hx]%elem_of_page_list; [|done]. apply eq_true_iff_eq.
    rewrite !andb_true_iff, negb_true_iff, contains_spec, Z.leb_le, Z.ltb_lt. split.
    - intros [Hnc Hx']. destruct (decide (x < cursor)); [|lia].
      rewrite Hc5 in Hnc; [done|lia|]. intros q Hq. specialize (Hle q Hq). lia.
    - intros Hx'. split; [|lia]. apply not_true_iff_false. intros Hcov.
      apply Hc4 in Hcov; lia. }
  destruct (Z.ltb_spec lo hi) as [Hlt|Hge].
  - rewrite Nat2Z.inj_add, count_interval; [lia|done| | |done|lia|lia|lia].
    + by repeat apply max_aligned.
    + apply min_aligned; [by apply end_aligned|done].
  - assert (count (fun x => (lo <=? x) && (x <? hi)) (page_list start n) = 0%nat) as ->; [|lia].
    apply count_zero. intros x _. apply andb_false_iff.
    destruct (Z.leb_spec lo x); [right; apply Z.ltb_ge; lia|by left].
Qed.

Lemma cursor_step start n done_ r cursor :
  start mod PAGE_SIZE = 0 -> 0 <= n -> range_aligned r ->
  (forall q, q ∈ done_ -> range_start q <= range_start r) ->
  cursor_ok start n done_ cursor ->
  let lo := Z.max start (range_start r) in
  let hi := Z.min (start + n * PAGE_SIZE) (range_end r) in
  cursor_ok start n (done_ ++ [r]) (if lo <? hi then Z.max cursor hi else cursor).
Proof.
  intros Hs Hn [Hr1 Hr2] Hle (Hc1 & Hc2 & Hc3 & Hc4 & Hc5) lo hi.
  assert (forall x, covered (done_ ++ [r]) x = true <->
    covered done_ x = true \/ range_start r <= x < range_end r) as Hcov.
  { intros x. rewrite covered_app, orb_true_iff. simpl. by rewrite orb_false_r, contains_spec. }
  split_and!.
  - case_match; lia.
  - case_match; [|done]. apply max_aligned; [done|].
    apply min_aligned; [by apply end_aligned|done].
  - case_match; lia.
  - intros x Hx [Hx'|Hx']%Hcov; [specialize (Hc4 x Hx Hx'); case_match; bools; lia|].
    destruct (Z.ltb_spec lo hi); lia.
  - intros x Hx Hq. apply Hcov.
    assert (range_start r <= x) by (apply Hq, elem_of_app; right; left).
    destruct (decide (x < cursor)) as [Hlt|Hge].
    + left. apply Hc5; [lia|]. intros q Hqd. apply Hq, elem_of_app. by left.
    + right. destruct (Z.ltb_spec lo hi); lia.
Qed.

(** The inner loop subtracts the pages the remaining ranges cover. *)
Lemma subtract_reserved_spec start n done_ rest cursor :
  start mod PAGE_SIZE = 0 -> 0 <= n -> Forall range_aligned rest ->
  StronglySorted by_start (done_ ++ rest) ->
  cursor_ok start n done_ cursor ->
  subtract_reserved (mk_range start (start + n * PAGE_SIZE)) rest
    (uncovered_count done_ start n) cursor = uncovered_count (done_ ++ rest) start n.
Proof.
  intros Hs Hn. revert done_ cursor. induction rest as [|r rest IH]; intros done_ cursor Hal Hsort Hc.
  { by rewrite app_nil_r. }
  apply Forall_cons in Hal as [Hr Hal].
  assert (forall q, q ∈ done_ -> range_start q <= range_start r) as Hle.
  { intros q Hq. apply StronglySorted_app in Hsort as (Hsort & _).
    apply (Hsort q r Hq). left. }
  pose proof (newly_covered start n done_ r cursor Hs Hn Hr Hle Hc) as Hnew.
  pose proof (cursor_step start n done_ r cursor Hs Hn Hr Hle Hc) as Hstep.
  replace (done_ ++ r :: rest) with ((done_ ++ [r]) ++ rest) in * by (by rewrite <-app_assoc).
  simpl subtract_reserved. cbn [range_start range_end] in *. cbv zeta in *.
  specialize (IH (done_ ++ [r])).
  assert (0 <= uncovered_count (done_ ++ [r]) start n) by (unfold uncovered_count; lia).
  destruct (Z.ltb_spec (Z.max start (range_start r)) (Z.min (start + n * PAGE_SIZE) (range_end r))).
  - rewrite <-(IH _ Hal Hsort Hstep). f_equal. rewrite Hnew. unfold saturating_sub.
    case_match; lia.
  - rewrite <-(IH _ Hal Hsort Hstep). f_equal. rewrite Hnew.
    rewrite (proj2 (Z.ltb_ge _ _)) by lia. lia.
Qed.

Lemma uncovered_nil start n : 0 <= n -> uncovered_count [] start n = n.
Proof.
  intros Hn. unfold uncovered_count, page_list.
  assert (forall l : list Z, count (fun x => negb (covered [] x)) l = length l) as ->
    by (induction l as [|x l IH]; [done|]; cbn [count length]; by rewrite IH).
  rewrite length_fmap, length_seqZ. lia.
Qed.

Lemma covered_perm ranges ranges' x :
  ranges ≡ₚ ranges' -> covered ranges x = covered ranges' x.
Proof.
  intros HP. apply eq_true_iff_eq. unfold covered. rewrite !existsb_exists.
  setoid_rewrite <-list_elem_of_In. by setoid_rewrite HP.
Qed.

(** The usable frames of a region are its pages outside the reserved ranges. *)
Lemma length_descriptor_frames a i d first sorted :
  descriptor_at a i = Some d -> memory_type d = EFI_CONVENTIONAL_MEMORY ->
  descriptor_ok (physical_limit a) d -> 0 <= first <= number_of_pages d ->
  sorted ≡ₚ reserved a ->
  Z.of_nat (length (descriptor_frames a i first)) =
    uncovered_count sorted (physical_start d + first * PAGE_SIZE) (number_of_pages d - first).
Proof.
  intros Hd Ht (H0 & Hal & Hpos & Hend) Hf HP. unfold descriptor_frames.
  rewrite Hd, (proj2 (Z.eqb_eq _ _) Ht), count_filter_length. unfold uncovered_count. f_equal.
  assert ((fun k => physical_start d + k * PAGE_SIZE) <$> seqZ first (number_of_pages d - first) =
    page_list (physical_start d + first * PAGE_SIZE) (number_of_pages d - first)) as ->.
  { unfold page_list. rewrite <-(Z.add_0_r first) at 1. rewrite <-fmap_add_seqZ, <-list_fmap_compose.
    apply list_fmap_ext. intros _ k _. simpl. lia. }
  apply count_ext. intros x [_ Hx]%elem_of_page_list; [|by apply end_aligned].
  unfold usable. rewrite (proj2 (Z.leb_gt _ _)) by lia. simpl. f_equal.
  symmetry. by apply covered_perm.
Qed.

(** The pages one descriptor contributes. *)
Lemma descriptor_available_spec a sorted i total :
  map_ok a -> Forall range_aligned (reserved a) -> sorted ≡ₚ reserved a ->
  StronglySorted by_start sorted -> (i < descriptor_count a)%nat -> 0 <= page_index a ->
  let first := if (i =? descriptor_index a)%nat then page_index a else 0 in
  let frames := Z.of_nat (length (descriptor_frames a i first)) in
  total + frames < u64_limit ->
  descriptor_available a sorted i total = Some (total + frames).
Proof.
  intros Hm Hal HP Hsort Hi Hp first frames Hb. unfold descriptor_available.
  destruct (map_ok_descriptor a i Hm Hi) as (d & Hd & Hok & _). rewrite Hd. cbn [mbind option_bind].
  fold first.
  destruct (Z.eqb_spec (memory_type d) EFI_CONVENTIONAL_MEMORY) as [Ht|Ht]; simpl negb; cbv iota.
  2: { unfold frames. rewrite (descriptor_frames_nil a i d) by auto. simpl. f_equal. lia. }
  destruct (Z.leb_spec (number_of_pages d) first) as [Hle|Hlt].
  { unfold frames. rewrite (descriptor_frames_nil a i d) by auto. simpl. f_equal. lia. }
  assert (0 <= first) by (unfold first; case_match; lia).
  unfold frames in *. rewrite (length_descriptor_frames a i d first sorted) in * by (done || lia).
  set (start := physical_start d + first * PAGE_SIZE) in *.
  set (n := number_of_pages d - first) in *.
  assert (start mod PAGE_SIZE = 0) as Hs by (destruct Hok as (_ & ? & _); by apply end_aligned).
  replace (physical_start d + number_of_pages d * PAGE_SIZE) with (start + n * PAGE_SIZE)
    by (unfold start, n; lia).
  pose proof (subtract_reserved_spec start n [] sorted start Hs) as Hsub.
  rewrite uncovered_nil in Hsub by lia. rewrite Hsub; [|lia|by rewrite HP|done|].
  - simpl. unfold saturating_add. f_equal. lia.
  - split_and!; [lia|done|lia|done|]. intros. lia.
Qed.

Lemma count_available_spec a sorted n i total :
  map_ok a -> Forall range_aligned (reserved a) -> sorted ≡ₚ reserved a ->
  StronglySorted by_start sorted -> (i + n = descriptor_count a)%nat -> 0 <= page_index a ->
  (descriptor_index a < i)%nat ->
  total + Z.of_nat (length (frames_from a i)) < u64_limit ->
  count_available a sorted (seq i n) total = Some (total + Z.of_nat (length (frames_from a i))).
Proof.
  intros Hm Hal HP Hsort. revert i total. induction n as [|n IH]; intros i total Hin Hp Hlt Hb.
  { assert (frames_from a i = []) as -> by (unfold frames_from; by replace (_ - _)%nat with 0%nat by lia).
    simpl. f_equal. lia. }
  cbn [seq count_available]. rewrite frames_from_S, length_app in * by lia.
  pose proof (descriptor_available_spec a sorted i total Hm Hal HP Hsort ltac:(lia) Hp) as Hda.
  cbv zeta in Hda. rewrite (proj2 (Nat.eqb_neq _ _)) in Hda by lia. rewrite Hda by lia.
  cbn [mbind option_bind]. replace (i + 1)%nat with (S i) in * by lia.
  rewrite IH by lia. f_equal. lia.
Qed.

(** There are at most 2^40 frames below 2^52. *)
Lemma length_all_frames a : map_ok a -> Z.of_nat (length (all_frames a)) <= 2 ^ 40.
Proof.
  intros Hm.
  assert (forall x, x ∈ all_frames a -> x mod PAGE_SIZE = 0 /\ 0 <= x < 2 ^ 52) as Hx.
  { intros x Hx. split; [by eapply all_frames_aligned|].
    apply elem_of_frames_from in Hx
      as (i & Hi & (d & k & Hd & _ & Hk & -> & _)%elem_of_descriptor_frames).
    destruct (map_ok_descriptor a i Hm ltac:(lia)) as (d' & Hd' & (H0 & _ & _ & Hend) & _).
    assert (d = d') as <- by congruence. destruct Hm as (_ & ? & _). lia. }
  assert (NoDup ((fun x => x / PAGE_SIZE) <$> all_frames a)) as Hnd.
  { apply NoDup_fmap_2_strong; [|by apply NoDup_frames_from].
    intros x y [Ex _]%Hx [Ey _]%Hx E. pose proof (Z.div_mod x PAGE_SIZE).
    pose proof (Z.div_mod y PAGE_SIZE). lia. }
  rewrite <-(length_fmap (fun x => x / PAGE_SIZE)).
  transitivity (Z.of_nat (length (seqZ 0 (2 ^ 40)))); [|rewrite length_seqZ; lia].
  apply Nat2Z.inj_le, submseteq_length, NoDup_submseteq; [done|].
  intros y (x & -> & [_ Hb]%Hx)%list_elem_of_fmap. apply elem_of_seqZ.
  split; [apply Z.div_pos; lia|apply Z.div_lt_upper_bound; lia].
Qed.

Lemma length_cached a : allocator_ok a -> length (cached a) = reclaimed_count a.
Proof.
  intros [_ _ Hlen Hc Hs]. unfold cached. rewrite length_reverse.
  assert (forall n, (n <= reclaimed_count a)%nat ->
    length (omap id (take n (reclaimed_frames a))) = n) as H; [|by apply H].
  induction n as [|n IH]; intros Hn; [by rewrite take_0|].
  destruct (Hs n ltac:(lia)) as [f Hf]. rewrite (take_S_r _ _ _ Hf), omap_app, length_app, IH by lia.
  simpl. lia.
Qed.

Lemma length_unvisited a :
  map_ok a -> 0 <= page_index a -> (length (unvisited a) <= length (all_frames a))%nat.
Proof.
  intros Hm Hp. apply submseteq_length, NoDup_submseteq.
  - unfold unvisited. case_match; bools; [|constructor]. apply NoDup_app. split_and!.
    + apply NoDup_descriptor_frames.
    + intros x Hx (i & Hi & Hx')%elem_of_frames_from.
      assert (descriptor_index a = i)
        by (apply (descriptor_frames_disjoint a _ _ (page_index a) 0 x); [done|lia..|done|done]).
      lia.
    + by apply NoDup_frames_from.
  - intros x Hx. unfold unvisited in Hx. case_match; bools; [|by apply not_elem_of_nil in Hx].
    apply elem_of_frames_from. apply elem_of_app in Hx as [Hx|Hx].
    + exists (descriptor_index a). split; [lia|].
      apply elem_of_descriptor_frames in Hx as (d & k & ? & ? & ? & ? & ?).
      apply elem_of_descriptor_frames. exists d, k. split_and!; [done..|lia|lia|done|done].
    + apply elem_of_frames_from in Hx as (i & Hi & Hx). exists i. split; [lia|done].
Qed.

(** ** Property *)

(** C34: [available_frame_count] is the number of frames [next_usable_frame] can
    still return, for every order in which the unstable sort leaves ranges with
    equal starts, also where reserved ranges overlap each other and the free
    memory. *)
Theorem available_frame_count_exact a sorted :
  allocator_ok a -> Forall range_aligned (reserved a) ->
  sorted ≡ₚ reserved a -> StronglySorted by_start sorted ->
  available_frame_count a sorted = Some (Z.of_nat (length (pool a))).
Proof.
  intros Ha Hal HP Hsort. pose proof (length_cached a Ha) as Hcache.
  pose proof Ha as [Hm Hp _ Hcount _].
  pose proof (length_all_frames a Hm). pose proof (length_unvisited a Hm Hp).
  unfold available_frame_count, pool. rewrite length_app, Hcache. unfold unvisited in *.
  destruct (Nat.ltb_spec (descriptor_index a) (descriptor_count a)) as [Hi|Hi].
  - replace (descriptor_count a - descriptor_index a)%nat
      with (S (descriptor_count a - (descriptor_index a + 1))) by lia.
    cbn [seq count_available]. rewrite length_app in *.
    pose proof (descriptor_available_spec a sorted (descriptor_index a)
      (Z.of_nat (reclaimed_count a)) Hm Hal HP Hsort Hi Hp) as Hda.
    cbv zeta in Hda. rewrite Nat.eqb_refl in Hda. rewrite Hda by lia. cbn [mbind option_bind].
    replace (S (descriptor_index a)) with (descriptor_index a + 1)%nat by lia.
    rewrite count_available_spec; [f_equal; lia|done..|lia|done|lia|lia].
  - replace (_ - _)%nat with 0%nat by lia. simpl. f_equal. lia.
Qed.

Lemma available_frame_count_exact_witness :
  exists sorted, available_frame_count example_allocator sorted = Some 3 /\
    available_frame_count example_allocator sorted
      = Some (Z.of_nat (length (pool example_allocator))).
Proof.
  exists [mk_range 0x200000 0x202000; mk_range 0x20C000 0x20D000; mk_range 0x20D000 0x20E000;
    mk_range 0x20E000 0x20F000; mk_range 0x20F000 0x210000; mk_range 0x80000000 0x80001000].
  split; [vm_compute; reflexivity|].
  apply available_frame_count_exact.
  - apply example_allocator_ok.
  - unfold range_aligned. repeat constructor.
  - simpl. apply Permutation_skip. apply (Permutation_middle [_; _] [_; _]).
  - repeat constructor; unfold by_start; simpl; lia.
Defined.
