(* ===== verification/UserRange.v ===== *)
(** * User memory ranges

    [AddressSpace] of [memory/mod.rs], the part system calls use: the page list
    of a process, the check of a user buffer and the copies through it.  A page
    is its start address; the bytes mapped in the active address space are a
    function from virtual addresses. *)

From S2P Require Import Prelude FrameAlloc.

Local Open Scope Z_scope.

Abbreviation USER_PML4_INDEX := 255.
Definition USER_SPACE_START : Z := Z.shiftl USER_PML4_INDEX 39.
Definition USER_SPACE_END : Z := USER_SPACE_START + Z.shiftl 1 39.

Inductive UserPageAccess := ReadOnly | ReadWrite | ReadExecute.

#[export] Instance UserPageAccess_eq_dec : EqDecision UserPageAccess.
Proof. solve_decision. Defined.

Inductive UserMemoryError := InvalidAddress | Unmapped | NotWritable | InactiveAddressSpace.

Record AddressSpace := mk_address_space {
  root : option Z;
  user_pages : list (Z * UserPageAccess);
}.

Definition contains_user_address (address : Z) : bool :=
  (USER_SPACE_START <=? address) && (address <? USER_SPACE_END).

(** [Iterator::find_map] over [user_pages]. *)
Fixpoint find_access (page : Z) (pages : list (Z * UserPageAccess)) : option UserPageAccess :=
  match pages with
  | [] => None
  | (mapped, access) :: pages => if mapped =? page then Some access else find_access page pages
  end.

Definition user_page_access (self : AddressSpace) (page : Z) : option UserPageAccess :=
  find_access page (user_pages self).

(** One round of the [while page_address < end] loop; the result of the loop is
    [Ok] when it runs to its end. *)
Definition range_round (self : AddressSpace) (end_ : Z) (writable : bool) (page_address : Z) :
  Z + outcome UserMemoryError unit :=
  if page_address <? end_ then
    match user_page_access self (page_down page_address) with
    | None => inr (Err Unmapped)
    | Some access =>
        if writable && negb (bool_decide (access = ReadWrite)) then inr (Err NotWritable)
        else match checked_add u64_limit page_address PAGE_SIZE with
             | Some next => inl next
             | None => inr (Err InvalidAddress)
             end
    end
  else inr (Ok tt).

Section crate.

(** [VirtAddr::try_new(address)] of the [x86_64] crate. *)
Variable try_new : Z -> option Z.

(** [validate_user_range]; [cr3] is the frame in the CR3 register.  The loop takes
    a round per page, so that its bound is never reached. *)
Definition validate_user_range (cr3 : Z) (self : AddressSpace) (address length_ : Z)
  (writable : bool) : outcome UserMemoryError unit :=
  if length_ =? 0 then Ok tt
  else
    start ← ok_or (try_new address) InvalidAddress;
    end_ ← ok_or (checked_add u64_limit start length_) InvalidAddress;
    if (start <? USER_SPACE_START) || (USER_SPACE_END <? end_) || (end_ <=? start)
    then Err InvalidAddress
    else
      _ ← default Panic
            (while_loop (length_ / PAGE_SIZE + 3) (range_round self end_ writable) (page_down start));
      if bool_decide (root self = Some cr3) then Ok tt else Err InactiveAddressSpace.

(** [copy_nonoverlapping] from and to the active address space. *)
Definition read_bytes (mem : Z -> Z) (address : Z) (n : nat) : list Z :=
  (fun i => mem (address + Z.of_nat i)) <$> seq 0 n.

Definition write_bytes (mem : Z -> Z) (address : Z) (input : list Z) : Z -> Z := fun x =>
  if address <=? x then default (mem x) (input !! Z.to_nat (x - address)) else mem x.

(** [copy_from_user]: the output buffer after the call. *)
Definition copy_from_user (cr3 : Z) (self : AddressSpace) (mem : Z -> Z) (address : Z)
  (output : list Z) : outcome UserMemoryError (list Z) :=
  _ ← validate_user_range cr3 self address (Z.of_nat (length output)) false;
  Ok (read_bytes mem address (length output)).

Definition copy_to_user (cr3 : Z) (self : AddressSpace) (address : Z) (input : list Z) :
  Op (Z -> Z) UserMemoryError unit :=
  _ ← lift (validate_user_range cr3 self address (Z.of_nat (length input)) true);
  modify (fun mem => write_bytes mem address input).

End crate.

(** ** Specification *)

(** The access a page must have for a read or a write. *)
Definition grants (access : UserPageAccess) (writable : bool) : Prop :=
  writable = true -> access = ReadWrite.

(** Every byte of the range lies on a mapped page with the access needed. *)
Definition range_mapped (self : AddressSpace) (lo hi : Z) (writable : bool) : Prop :=
  forall x, lo <= x < hi ->
    exists access, user_page_access self (page_down x) = Some access /\ grants access writable.

(** ** Lemmas *)

Lemma page_down_le x : page_down x <= x < page_down x + PAGE_SIZE.
Proof. rewrite page_down_spec. pose proof (Z.mod_pos_bound x PAGE_SIZE). lia. Qed.

Lemma page_down_id x : x mod PAGE_SIZE = 0 -> page_down x = x.
Proof. rewrite page_down_spec. lia. Qed.

Lemma page_down_unique p x :
  p mod PAGE_SIZE = 0 -> p <= x < p + PAGE_SIZE -> page_down x = p.
Proof.
  intros Hp Hx. rewrite page_down_spec.
  assert (x mod PAGE_SIZE = x - p) as ->; [|lia].
  symmetry. apply (Z.mod_unique_pos x PAGE_SIZE (p / PAGE_SIZE)); [lia|].
  pose proof (Z.div_mod p PAGE_SIZE). lia.
Qed.

(** A page of the range is checked when its first byte in the range is. *)
Lemma range_mapped_page self lo p hi writable access :
  p mod PAGE_SIZE = 0 -> p < hi -> user_page_access self p = Some access ->
  grants access writable -> range_mapped self (p + PAGE_SIZE) hi writable ->
  p <= lo -> range_mapped self lo hi writable.
Proof.
  intros Hp Hlt Ha Hg Hrest Hlo x Hx. destruct (decide (x < p + PAGE_SIZE)).
  - exists access. rewrite (page_down_unique p x) by (done || lia). done.
  - apply Hrest. lia.
Qed.

(** The loop: it ends, and with [Ok] exactly when the rest of the range is mapped. *)
Lemma range_loop_spec self end_ writable fuel p :
  p mod PAGE_SIZE = 0 -> 0 <= p -> end_ <= USER_SPACE_END -> 0 < fuel ->
  (end_ - p) / PAGE_SIZE + 1 < fuel ->
  exists r, while_loop fuel (range_round self end_ writable) p = Some r /\
    (r = Ok tt <-> range_mapped self p end_ writable) /\
    (r = Ok tt \/ r = Err Unmapped \/ r = Err NotWritable).
Proof.
  intros Hp H0 He Hpos Hf.
  destruct (while_loop_ends
    (fun q => p <= q /\ q mod PAGE_SIZE = 0 /\
       (range_mapped self q end_ writable <-> range_mapped self p end_ writable))
    (fun q => Z.max 0 ((end_ - q) / PAGE_SIZE + 1))
    (fun r => (r = Ok tt <-> range_mapped self p end_ writable) /\
       (r = Ok tt \/ r = Err Unmapped \/ r = Err NotWritable))
    (range_round self end_ writable) fuel p) as (r & E & Hr); [|done| |eauto].
  2: lia.
  intros q (Hq1 & Hq2 & Hq3). unfold range_round.
  destruct (Z.ltb_spec q end_) as [Hlt|Hge].
  2: { split; [|by left]. split; [|done]. intros _. apply Hq3. intros x Hx. lia. }
  rewrite (page_down_id q Hq2).
  destruct (user_page_access self q) as [access|] eqn:Ha; cycle 1.
  { split; [|auto]. split; [done|]. intros Hm%Hq3. destruct (Hm q ltac:(lia)) as (? & Hx & _).
    rewrite page_down_id in Hx by done. congruence. }
  destruct (writable && _) eqn:Hw.
  { split; [|auto]. split; [done|]. intros Hm%Hq3. destruct (Hm q ltac:(lia)) as (access' & Hx & Hg).
    rewrite page_down_id in Hx by done. bools. subst. simplify_eq. by rewrite Hg in *. }
  assert (grants access writable) as Hg.
  { intros ->. simpl in Hw. bools. done. }
  unfold checked_add. assert (USER_SPACE_END + PAGE_SIZE < u64_limit) by by vm_compute.
  rewrite (proj2 (Z.ltb_lt _ _)) by lia. split; [split_and!|].
  - lia.
  - rewrite Z.add_mod, Hq2 by lia. done.
  - rewrite <-Hq3. split.
    + intros Hm. by apply (range_mapped_page self q q end_ writable access).
    + intros Hm x Hx. apply Hm. lia.
  - replace (end_ - q) with ((end_ - (q + PAGE_SIZE)) + 1 * PAGE_SIZE) by lia.
    rewrite Z.div_add by lia.
    assert (-1 <= (end_ - (q + PAGE_SIZE)) / PAGE_SIZE) by (apply Z.div_le_lower_bound; lia). lia.
Qed.

(** Starting at the page of the first byte checks no more than the range. *)
Lemma range_mapped_page_down self lo hi writable :
  lo < hi -> range_mapped self (page_down lo) hi writable <-> range_mapped self lo hi writable.
Proof.
  intros Hlt. pose proof (page_down_le lo). split; intros Hm x Hx; [apply Hm; lia|].
  destruct (decide (lo <= x)); [apply Hm; lia|].
  destruct (Hm lo) as (access & Ha & Hg); [lia|]. exists access.
  rewrite (page_down_unique (page_down lo) x); [done|apply page_down_aligned|lia].
Qed.

(** The loop with the bound [validate_user_range] gives it. *)
Lemma range_check_spec self address n writable :
  0 <= address -> 0 < n -> address + n <= USER_SPACE_END ->
  exists r, while_loop (n / PAGE_SIZE + 3) (range_round self (address + n) writable)
      (page_down address) = Some r /\
    (r = Ok tt <-> range_mapped self address (address + n) writable) /\
    (r = Ok tt \/ r = Err Unmapped \/ r = Err NotWritable).
Proof.
  intros H0 Hn He. pose proof (page_down_le address). pose proof (page_down_spec address).
  setoid_rewrite <-(range_mapped_page_down self address (address + n) writable); [|lia].
  apply range_loop_spec; [apply page_down_aligned| |done| |].
  - pose proof (Z.mod_le address PAGE_SIZE). lia.
  - assert (0 <= n / PAGE_SIZE) by (apply Z.div_pos; lia). lia.
  - assert ((address + n - page_down address) / PAGE_SIZE
      <= (n + 1 * PAGE_SIZE) / PAGE_SIZE) by (apply Z.div_le_mono; lia).
    rewrite Z.div_add in * by lia. lia.
Qed.

Lemma write_bytes_outside mem address input x :
  ~ address <= x < address + Z.of_nat (length input) -> write_bytes mem address input x = mem x.
Proof.
  intros Hx. unfold write_bytes. destruct (Z.leb_spec address x); [|done].
  by rewrite lookup_ge_None_2 by lia.
Qed.

Lemma read_write_bytes mem address input :
  read_bytes (write_bytes mem address input) address (length input) = input.
Proof.
  apply list_eq. intros i. unfold read_bytes. rewrite list_lookup_fmap.
  destruct (decide (i < length input)%nat).
  - rewrite lookup_seq_lt by lia. simpl. unfold write_bytes.
    rewrite (proj2 (Z.leb_le _ _)) by lia.
    replace (Z.to_nat (address + Z.of_nat i - address)) with i by lia.
    by destruct (lookup_lt_is_Some_2 input i) as [b ->].
  - rewrite lookup_seq_ge by lia. simpl. by rewrite lookup_ge_None_2 by lia.
Qed.

Section validation.
Variable try_new : Z -> option Z.

(** The [x86_64] crate: [VirtAddr::try_new] keeps the address it accepts, and
    accepts the canonical addresses of the lower half. *)
Hypothesis try_new_same : forall address v, try_new address = Some v -> v = address.
Hypothesis try_new_low : forall address, 0 <= address < 2 ^ 47 -> try_new address = Some address.

(** The requirement on a buffer that is not empty. *)
Definition user_buffer (cr3 : Z) (self : AddressSpace) (address n : Z) (writable : bool) : Prop :=
  USER_SPACE_START <= address /\ address + n <= USER_SPACE_END /\
  range_mapped self address (address + n) writable /\ root self = Some cr3.

Lemma validate_user_range_spec cr3 self address n writable :
  0 <= n ->
  (validate_user_range try_new cr3 self address n writable = Ok tt <->
     n = 0 \/ user_buffer cr3 self address n writable) /\
  validate_user_range try_new cr3 self address n writable <> Panic.
Proof.
  intros Hn. unfold validate_user_range, user_buffer.
  destruct (Z.eqb_spec n 0) as [->|Hne]; [split; [tauto|done]|].
  destruct (try_new address) as [start|] eqn:Ht; cycle 1.
  { split; [|done]. split; [done|]. intros [?|(Hlo & Hhi & _)]; [lia|].
    assert (USER_SPACE_END <= 2 ^ 47) by by vm_compute.
    assert (0 <= USER_SPACE_START) by by vm_compute.
    rewrite try_new_low in Ht; [done|lia]. }
  apply try_new_same in Ht as ->. unfold checked_add.
  assert (USER_SPACE_END < u64_limit) by by vm_compute.
  assert (0 <= USER_SPACE_START) by by vm_compute.
  unfold mbind, outcome_bind, ok_or.
  destruct (Z.ltb_spec (address + n) u64_limit); [|split; [|done]; split; [done|]; lia].
  destruct (_ || _) eqn:Hc.
  { split; [|done]. split; [done|]. intros [?|(? & ? & _)]; [lia|].
    rewrite !orb_true_iff, !Z.ltb_lt, Z.leb_le in Hc. lia. }
  bools. destruct (range_check_spec self address n writable) as (r & -> & Hr & Hcases); [lia..|].
  simpl default. destruct Hcases as [-> |[-> | ->]].
  - assert (range_mapped self address (address + n) writable) by (by apply Hr).
    case_bool_decide as Hroot; (split; [|done]); split; try done; [auto|].
    intros [?|(_ & _ & _ & ?)]; [lia|done].
  - split; [|done]. split; [done|]. intros [?|(_ & _ & Hm%Hr & _)]; [lia|done].
  - split; [|done]. split; [done|]. intros [?|(_ & _ & Hm%Hr & _)]; [lia|done].
Qed.

End validation.

(** ** Properties *)

Section properties.
Variable try_new : Z -> option Z.
Hypothesis try_new_same : forall address v, try_new address = Some v -> v = address.
Hypothesis try_new_low : forall address, 0 <= address < 2 ^ 47 -> try_new address = Some address.

(** C14: The check of a user buffer ends without a panic and accepts exactly the
    empty buffers and those that lie in the user slot, with every byte, of every
    page, mapped with the access asked for, in the active address space. *)
Theorem validate_user_range_exact cr3 self address n writable :
  0 <= n ->
  (validate_user_range try_new cr3 self address n writable = Ok tt <->
     n = 0 \/ user_buffer cr3 self address n writable) /\
  validate_user_range try_new cr3 self address n writable <> Panic.
Proof. by apply validate_user_range_spec. Qed.

(** [copy_to_user] either fails and leaves memory alone or changes only bytes
    of the buffer, each on a read-write page of the active process, and a
    [copy_from_user] of the same range then reads back what was written. *)
Theorem user_copy_roundtrip cr3 self mem address input mem' res output :
  copy_to_user try_new cr3 self address input mem = (mem', res) ->
  length output = length input ->
  match res with
  | Ok _ =>
      (forall x, mem' x <> mem x ->
         address <= x < address + Z.of_nat (length input) /\
         user_page_access self (page_down x) = Some ReadWrite) /\
      copy_from_user try_new cr3 self mem' address output = Ok input
  | Err _ => mem' = mem
  | Panic => False
  end.
Proof.
  intros H Hlen. unfold copy_to_user in H. unfold_op.
  pose proof (validate_user_range_spec try_new try_new_same try_new_low cr3 self address
    (Z.of_nat (length input)) true ltac:(lia)) as [Hv Hp].
  destruct (validate_user_range _ _ _ _ _ _) as [[]|e|] eqn:E; simplify_eq; [|done..].
  destruct (proj1 Hv eq_refl) as [Hz|Hb].
  - destruct input; [|done]. split; [intros x Hx; destruct Hx; by apply write_bytes_outside; simpl; lia|].
    unfold copy_from_user. rewrite Hlen. simpl length. simpl Z.of_nat. done.
  - split.
    + intros x Hx. assert (address <= x < address + Z.of_nat (length input)) as Hr.
      { destruct (decide (address <= x < address + Z.of_nat (length input))); [done|].
        destruct Hx. by apply write_bytes_outside. }
      split; [done|]. destruct Hb as (_ & _ & Hm & _). destruct (Hm x Hr) as (access & Ha & Hg).
      by rewrite <-(Hg eq_refl).
    + unfold copy_from_user. rewrite Hlen, read_write_bytes.
      assert (validate_user_range try_new cr3 self address (Z.of_nat (length input)) false = Ok tt)
        as ->; [|done].
      apply (validate_user_range_spec try_new try_new_same try_new_low); [lia|]. right.
      destruct Hb as (? & ? & Hm & ?). split_and!; [done..| |done].
      intros x Hx. destruct (Hm x Hx) as (access & ? & _). by exists access.
Qed.

End properties.

(** *** An example process with one read-write and one read-only page *)

Definition example_try_new (address : Z) : option Z :=
  if (address <? 2 ^ 47) || (2 ^ 64 - 2 ^ 47 <=? address) then Some address else None.

Definition example_space : AddressSpace :=
  mk_address_space (Some 0x300000)
    [(USER_SPACE_START, ReadWrite); (USER_SPACE_START + PAGE_SIZE, ReadOnly)].

Lemma example_try_new_same address v : example_try_new address = Some v -> v = address.
Proof. unfold example_try_new. case_match; by intros [= <-]. Qed.

Lemma example_try_new_low address : 0 <= address < 2 ^ 47 -> example_try_new address = Some address.
Proof. intros H. unfold example_try_new. by rewrite (proj2 (Z.ltb_lt _ _)) by lia. Qed.

Lemma validate_user_range_exact_witness :
  validate_user_range example_try_new 0x300000 example_space (USER_SPACE_START + 4090) 12 false
    = Ok tt /\
  validate_user_range example_try_new 0x300000 example_space (USER_SPACE_START + 4090) 12 true
    = Err NotWritable /\
  (Ok tt = Ok (E := UserMemoryError) tt <->
    12 = 0 \/ user_buffer 0x300000 example_space (USER_SPACE_START + 4090) 12 false).
Proof.
  split; [vm_compute; reflexivity|]. split; [vm_compute; reflexivity|].
  exact (proj1 (validate_user_range_exact example_try_new example_try_new_same
    example_try_new_low 0x300000 example_space (USER_SPACE_START + 4090) 12 false ltac:(lia))).
Defined.

Lemma user_copy_roundtrip_witness :
  let mem' := write_bytes (fun _ => 0) USER_SPACE_START [104; 105] in
  (forall x, mem' x <> 0 ->
     USER_SPACE_START <= x < USER_SPACE_START + 2 /\
     user_page_access example_space (page_down x) = Some ReadWrite) /\
  copy_from_user example_try_new 0x300000 example_space mem' USER_SPACE_START [0; 0] = Ok [104; 105].
Proof.
  exact (user_copy_roundtrip example_try_new example_try_new_same example_try_new_low
    0x300000 example_space (fun _ => 0) USER_SPACE_START [104; 105] _ (Ok tt) [0; 0]
    eq_refl eq_refl).
Defined.
