(* ===== verification/Tar.v ===== *)
(** * The boot archive

    The read-only USTAR file system of [fs/mod.rs]: decoding one header
    ([entry_at]), validating the archive the loader passes, and the look-ups the
    shell and the program loader make.

    A slice index or a slice range of the source that could be out of range is a
    [Panic] of the model.  The visitor closures of [for_each_entry] and
    [for_each_file] are the list of the calls made to them.  The loops over the
    headers are bounded by the length of the archive; [parse_ends] shows that the
    bound is never reached. *)

From S2P Require Import Prelude Utf8 FrameAlloc.

Local Open Scope Z_scope.

Definition MAX_ARCHIVE_SIZE : Z := 16 * 1024 * 1024.
Abbreviation BLOCK_SIZE := 512.
Definition MAX_FILES : Z := 256.
Abbreviation MAX_PATH_LEN := 255%nat.
Definition MAX_COMPONENT_LEN : nat := 100.

(** [b'/'], [b'.'], [b' ']. *)
Abbreviation SLASH := 47.
Abbreviation DOT := 46.
Abbreviation SPACE := 32.

Inductive FsError := MissingArchive | InvalidArchive | TooManyFiles | NotInitialized.

Record TarEntry := mk_entry {
  te_name : list Z;
  name_len : nat;
  data : list Z;
  next_offset : Z;
  is_dir : bool;
}.

Definition name (e : TarEntry) : list Z := take (name_len e) (te_name e).

(** ** Fields and paths *)

Definition blank (byte : Z) : bool := (byte =? SPACE) || (byte =? 0).

(** The loop of [octal]. *)
Fixpoint octal_loop (value : Z) (started : bool) (field : list Z) : option Z :=
  match field with
  | [] => Some value
  | byte :: field =>
      if blank byte && negb started then octal_loop value started field
      else if in_range 48 55 byte then
        value ← checked_mul u64_limit value 8;
        value ← checked_add u64_limit value (byte - 48);
        octal_loop value true field
      else if blank byte then Some value
      else None
  end.

Definition octal (field : list Z) : option Z := octal_loop 0 false field.

(** [path.split(|byte| *byte == b'/')]. *)
Fixpoint split_path (path : list Z) : list (list Z) :=
  match path with
  | [] => [[]]
  | byte :: path =>
      if byte =? SLASH then [] :: split_path path
      else match split_path path with
           | component :: rest => (byte :: component) :: rest
           | [] => [[byte]]
           end
  end.

(** [byte.is_ascii_alphanumeric()], or one of [.], [_] and [-]. *)
Definition path_byte (byte : Z) : bool :=
  in_range 48 57 byte || in_range 65 90 byte || in_range 97 122 byte
  || (byte =? DOT) || (byte =? 95) || (byte =? 45).

Definition safe_component (component : list Z) : bool :=
  negb (bool_decide (component = []))
  && (length component <=? MAX_COMPONENT_LEN)%nat
  && negb (bool_decide (component = [DOT]))
  && negb (bool_decide (component = [DOT; DOT]))
  && forallb path_byte component.

Definition safe_path (path : list Z) (allow_empty : bool) : bool :=
  if bool_decide (path = []) then allow_empty else forallb safe_component (split_path path).

(** [field]: the bytes before the first zero. *)
Definition field (l : list Z) : list Z :=
  take (default (length l) (position (Z.eqb 0) l)) l.

(** [slice::strip_prefix]. *)
Fixpoint strip_prefix (prefix l : list Z) : option (list Z) :=
  match prefix, l with
  | [], _ => Some l
  | x :: prefix, y :: l => if x =? y then strip_prefix prefix l else None
  | _ :: _, [] => None
  end.

(** [l.strip_prefix(prefix).is_some_and(|suffix| suffix.first() == Some(&b'/'))]. *)
Definition parent_of (prefix l : list Z) : bool :=
  is_some_and (strip_prefix prefix l) (fun suffix => bool_decide (head suffix = Some SLASH)).

(** ** One header *)

Definition checksum (header : list Z) : Z :=
  foldr Z.add 0 (imap (fun index byte =>
    if ((148 <=? index) && (index <? 156))%nat then SPACE else byte) header).

(** The buffer [full_name] and its length. *)
Definition build_name (prefix nm : list Z) : outcome FsError (list Z * nat) :=
  let full_name := replicate MAX_PATH_LEN 0 in
  '(full_name, len) ←
    (if bool_decide (prefix = []) then Ok (full_name, 0%nat)
     else
       full_name ← copy_at full_name 0 prefix;
       full_name ← copy_at full_name (length prefix) [SLASH];
       Ok (full_name, (length prefix + 1)%nat));
  full_name ← copy_at full_name len nm;
  Ok (full_name, (len + length nm)%nat).

Definition ensure (b : bool) : outcome FsError unit := if b then Ok tt else Err InvalidArchive.

(** The name of a header: [full_name] and [name_len], checked. *)
Definition header_name (header : list Z) (is_dir : bool) : outcome FsError (list Z * nat) :=
  name_field ← index_range header 0 100;
  prefix_field ← index_range header 345 500;
  let nm := field name_field in
  let prefix := field prefix_field in
  _ ← ensure (negb (bool_decide (nm = [])));
  with_slash ← ok_or (checked_add u64_limit (Z.of_nat (length prefix))
                       (if bool_decide (prefix = []) then 0 else 1)) InvalidArchive;
  raw_len ← ok_or (checked_add u64_limit with_slash (Z.of_nat (length nm))) InvalidArchive;
  _ ← ensure (raw_len <=? Z.of_nat MAX_PATH_LEN);
  '(full_name, len) ← build_name prefix nm;
  last ← expect (full_name !! (len - 1)%nat);
  len ← (if last =? SLASH then
           if is_dir then Ok (len - 1)%nat else Err InvalidArchive
         else Ok len);
  _ ← ensure (safe_path (take len full_name) false);
  Ok (full_name, len).

(** The type of a header: [0] and ['0'] are files, ['5'] is a directory. *)
Definition header_type (header : list Z) : outcome FsError bool :=
  kind ← expect (header !! 156%nat);
  if (kind =? 0) || (kind =? 48) then Ok false
  else if kind =? 53 then Ok true
  else Err InvalidArchive.

Definition entry_at (archive : list Z) (offset : Z) : outcome FsError (option TarEntry) :=
  header_end ← ok_or (checked_add u64_limit offset BLOCK_SIZE) InvalidArchive;
  header ← ok_or (get_range archive offset header_end) InvalidArchive;
  if forallb (Z.eqb 0) header then Ok None
  else
    checksum_field ← index_range header 148 156;
    expected_checksum ← ok_or (octal checksum_field) InvalidArchive;
    magic ← index_range header 257 262;
    _ ← ensure ((checksum header =? expected_checksum)
                && bool_decide (magic = [117; 115; 116; 97; 114]));
    is_dir ← header_type header;
    '(full_name, len) ← header_name header is_dir;
    size_field ← index_range header 124 136;
    size ← ok_or (octal size_field) InvalidArchive;
    _ ← ensure (negb (is_dir && negb (size =? 0)));
    rounded ← ok_or (checked_add u64_limit size (BLOCK_SIZE - 1)) InvalidArchive;
    let padded_size := rounded / BLOCK_SIZE * BLOCK_SIZE in
    data_end ← ok_or (checked_add u64_limit header_end size) InvalidArchive;
    next ← ok_or (checked_add u64_limit header_end padded_size) InvalidArchive;
    contents ← ok_or (get_range archive header_end data_end) InvalidArchive;
    _ ← ensure (next <=? Z.of_nat (length archive));
    Ok (Some (mk_entry full_name len contents next is_dir)).

(** ** The loops over the headers *)

(** More rounds than an archive has blocks. *)
Definition header_rounds (archive : list Z) : Z := Z.of_nat (length archive) + 1.

(** One round of [while let Some(entry) = entry_at(archive, offset)? { body; offset =
    entry.next_offset; }]; a body that ends with [Some r] returns [r]. *)
Definition entries_round {A R} (archive : list Z)
  (body : Z -> TarEntry -> Op A FsError (option R)) (st : Z * A) :
  Z * A + A * outcome FsError (Z + R) :=
  let '(offset, a) := st in
  match entry_at archive offset with
  | Ok (Some entry) =>
      match body offset entry a with
      | (a, Ok None) => inl (next_offset entry, a)
      | (a, Ok (Some r)) => inr (a, Ok (inr r))
      | (a, Err e) => inr (a, Err e)
      | (a, Panic) => inr (a, Panic)
      end
  | Ok None => inr (a, Ok (inl offset))
  | Err e => inr (a, Err e)
  | Panic => inr (a, Panic)
  end.

(** The loop from offset 0; [inl offset] is the offset of the end marker. *)
Definition entries_loop {A R} (archive : list Z)
  (body : Z -> TarEntry -> Op A FsError (option R)) : Op A FsError (Z + R) := fun a =>
  default (a, Panic) (while_loop (header_rounds archive) (entries_round archive body) (0, a)).

(** [while previous_offset < offset], over the entries before [offset]. *)
Definition previous_loop {R} (archive : list Z) (offset : Z)
  (body : TarEntry -> outcome FsError (option R)) : outcome FsError (option R) :=
  default Panic (while_loop (header_rounds archive) (fun previous_offset =>
    if previous_offset <? offset then
      match entry_at archive previous_offset with
      | Ok (Some previous) =>
          match body previous with
          | Ok None => inl (next_offset previous)
          | r => inr r
          end
      | Ok None => inr (Err InvalidArchive)
      | Err e => inr (Err e)
      | Panic => inr Panic
      end
    else inr (Ok None)) 0).

(** Two entries that cannot be in one archive. *)
Definition conflict (previous entry : TarEntry) : bool :=
  bool_decide (name previous = name entry)
  || (parent_of (name previous) (name entry) && negb (is_dir previous))
  || (parent_of (name entry) (name previous) && negb (is_dir entry)).

(** The body of the loop of [validate]; the state is [count]. *)
Definition validate_entry (archive : list Z) (offset : Z) (entry : TarEntry) :
  Op Z FsError (option Empty_set) :=
  _ ← modify (fun count => count + 1);
  count ← get;
  if MAX_FILES <? count then fail TooManyFiles
  else
    _ ← lift (previous_loop (R := Empty_set) archive offset (fun previous =>
           if conflict previous entry then Err InvalidArchive else Ok None));
    mret None.

Definition validate (archive : list Z) : outcome FsError unit :=
  if bool_decide (archive = []) || (MAX_ARCHIVE_SIZE <? Z.of_nat (length archive))
    || negb (Z.of_nat (length archive) mod BLOCK_SIZE =? 0)
  then Err InvalidArchive
  else
    r ← (entries_loop archive (validate_entry archive) 0).2;
    match r with
    | inr r => match r : Empty_set with end
    | inl offset =>
        rest ← index_range archive offset (Z.of_nat (length archive));
        ensure (forallb (Z.eqb 0) rest)
    end.

(** ** The mounted archive *)

(** [ARCHIVE]: not initialised, or the outcome of the first [initialize]. *)
Definition Mounted : Type := option (outcome FsError (list Z)).

(** The closure of [call_once]; [memory] is the physical memory the loader
    filled. *)
Definition mount (memory : Z -> Z) (boot_info : BootInfo) : outcome FsError (list Z) :=
  let size := initrd_size boot_info in
  if (initrd_base boot_info =? 0) || (size =? 0) || (MAX_ARCHIVE_SIZE <? size)
    || (2 ^ 63 - 1 <? size)
  then Err MissingArchive
  else
    let archive := (fun i => memory (initrd_base boot_info + i)) <$> seqZ 0 size in
    _ ← validate archive; Ok archive.

Definition fs_initialize (memory : Z -> Z) (boot_info : BootInfo) : Op Mounted FsError unit :=
  fun m =>
    let m := match m with Some r => r | None => mount memory boot_info end in
    (Some m, _ ← m; Ok tt).

Definition mounted_archive (m : Mounted) : outcome FsError (list Z) :=
  match m with None => Err NotInitialized | Some r => r end.

Definition directory_exists (m : Mounted) (path : list Z) : outcome FsError bool :=
  archive ← mounted_archive m;
  if negb (safe_path path true) then Ok false
  else if bool_decide (path = []) then Ok true
  else
    r ← (entries_loop archive (fun _ entry =>
           if bool_decide (name entry = path) then mret (Some (is_dir entry))
           else if (length path <? length (name entry))%nat
                   && bool_decide (take (length path) (name entry) = path)
                   && bool_decide (name entry !! length path = Some SLASH)
           then mret (Some true) else mret None) tt).2;
    match r with inr r => Ok r | inl _ => Ok false end.

(** [child_entry]: the name of the child of [directory] an entry is or is below,
    whether it is a directory, and its size. *)
Definition child_entry (entry : TarEntry) (directory : list Z) : option (list Z * bool * Z) :=
  let nm := name entry in
  relative ←
    (if bool_decide (directory = []) then Some nm
     else
       let prefix_len := (length directory + 1)%nat in
       if (length nm <=? prefix_len)%nat
          || negb (bool_decide (take (length directory) nm = directory))
          || negb (bool_decide (nm !! length directory = Some SLASH))
       then None
       else Some (drop prefix_len nm));
  let child_end := default (length relative) (position (Z.eqb SLASH) relative) in
  let dir := (child_end <? length relative)%nat || is_dir entry in
  Some (take child_end relative, dir, if dir then 0 else Z.of_nat (length (data entry))).

(** The calls [visit(name, is_dir, size)], in order. *)
Definition Visits : Type := list (list Z * bool * Z).

(** The body of the loop of [for_each_entry]. *)
Definition visit_entry (archive directory : list Z) (offset : Z) (entry : TarEntry) :
  Op Visits FsError (option Empty_set) :=
  match child_entry entry directory with
  | None => mret None
  | Some (child, dir, size) =>
      seen ← lift (previous_loop archive offset (fun previous =>
        if is_some_and (child_entry previous directory) (fun '(previous_child, _, _) =>
             bool_decide (previous_child = child))
        then Ok (Some tt) else Ok None));
      match seen with
      | Some _ => mret None
      | None =>
          if valid_utf8 child
          then _ ← modify (fun visits => visits ++ [(child, dir, size)]); mret None
          else fail InvalidArchive
      end
  end.

Definition for_each_entry (m : Mounted) (directory : list Z) : Op Visits FsError unit :=
  exists_ ← lift (directory_exists m directory);
  if negb exists_ then mret tt
  else
    archive ← lift (mounted_archive m);
    _ ← entries_loop archive (visit_entry archive directory);
    mret tt.

(** The calls [visit(name, size)] of [for_each_file]. *)
Definition for_each_file (m : Mounted) : Op (list (list Z * Z)) FsError unit :=
  archive ← lift (mounted_archive m);
  _ ← entries_loop archive (fun _ entry =>
        if is_dir entry then mret (None : option Empty_set)
        else if valid_utf8 (name entry)
        then _ ← modify (fun visits => visits ++ [(name entry, Z.of_nat (length (data entry)))]);
             mret None
        else fail InvalidArchive);
  mret tt.

Definition read_file (m : Mounted) (path : list Z) : outcome FsError (option (list Z)) :=
  if negb (safe_path path false) then Ok None
  else
    archive ← mounted_archive m;
    r ← (entries_loop archive (fun _ entry =>
           if negb (is_dir entry) && bool_decide (name entry = path)
           then mret (Some (data entry)) else mret None) tt).2;
    match r with inr r => Ok (Some r) | inl _ => Ok None end.

(** ** Specification *)

(** The headers an archive holds from an offset on, with their offsets, and the
    offset of the end marker (or why there is none). *)
Fixpoint parse_from (fuel : nat) (archive : list Z) (offset : Z) :
  list (Z * TarEntry) * outcome FsError Z :=
  match fuel with
  | O => ([], Panic)
  | S fuel =>
      match entry_at archive offset with
      | Ok (Some entry) =>
          let '(l, r) := parse_from fuel archive (next_offset entry) in ((offset, entry) :: l, r)
      | Ok None => ([], Ok offset)
      | Err e => ([], Err e)
      | Panic => ([], Panic)
      end
  end.

Definition parse (archive : list Z) : list (Z * TarEntry) * outcome FsError Z :=
  parse_from (length archive + 1) archive 0.

Definition entries (archive : list Z) : list TarEntry := (parse archive).1.*2.

(** A body run on a list of entries, up to the first that ends the loop. *)
Fixpoint run_body {A R} (body : Z -> TarEntry -> Op A FsError (option R))
  (l : list (Z * TarEntry)) : Op A FsError (option R) :=
  match l with
  | [] => mret None
  | (offset, entry) :: l =>
      r ← body offset entry;
      match r with Some r => mret (Some r) | None => run_body body l end
  end.

Fixpoint run_previous {R} (body : TarEntry -> outcome FsError (option R))
  (l : list (Z * TarEntry)) : outcome FsError (option R) :=
  match l with
  | [] => Ok None
  | (_, entry) :: l =>
      r ← body entry;
      match r with Some r => Ok (Some r) | None => run_previous body l end
  end.

(** [chain archive o l o']: the headers from [o] up to [o'] are those of [l]. *)
Inductive chain (archive : list Z) : Z -> list (Z * TarEntry) -> Z -> Prop :=
| chain_nil o : chain archive o [] o
| chain_cons o e l o' :
    entry_at archive o = Ok (Some e) -> chain archive (next_offset e) l o' ->
    chain archive o ((o, e) :: l) o'.

(** What [validate] tests, in terms of the headers [entry_at] finds: the size is allowed, the
    headers end with a marker followed by zeros only, and no two entries are in conflict.
    [TarFormat.v] says it in terms of the bytes. *)
Record accepted (archive : list Z) (end_ : Z) : Prop := mk_accepted {
  wf_size : archive <> [] /\ Z.of_nat (length archive) <= MAX_ARCHIVE_SIZE /\
    Z.of_nat (length archive) mod BLOCK_SIZE = 0;
  wf_end : (parse archive).2 = Ok end_;
  wf_count : Z.of_nat (length (entries archive)) <= MAX_FILES;
  wf_conflict : forall i j e f, entries archive !! i = Some e -> entries archive !! j = Some f ->
    (i < j)%nat -> conflict e f = false;
  wf_zero : Forall (fun b => b = 0) (drop (Z.to_nat end_) archive);
}.

(** A path below another one, and a directory's child. *)
Definition below (path l : list Z) : Prop := exists rest, l = path ++ SLASH :: rest.

Definition join (directory child : list Z) : list Z :=
  if bool_decide (directory = []) then child else directory ++ SLASH :: child.

(** ** Lemmas on one header *)

Lemma length_field l : (length (field l) <= length l)%nat.
Proof. unfold field. len. Qed.

Lemma length_join p n :
  length (join p n) = ((if bool_decide (p = []) then 0 else length p + 1) + length n)%nat.
Proof. unfold join. case_bool_decide; len. Qed.

(** The name buffer holds the prefix, a slash and the name. *)
Lemma build_name_ok prefix nm :
  (length prefix + 1 + length nm <= MAX_PATH_LEN \/ prefix = [] /\ length nm <= MAX_PATH_LEN)%nat ->
  exists buffer, build_name prefix nm = Ok (buffer, length (join prefix nm)) /\
    take (length (join prefix nm)) buffer = join prefix nm /\ length buffer = MAX_PATH_LEN.
Proof.
  intros H. unfold build_name, join.
  assert (length (replicate MAX_PATH_LEN 0) = MAX_PATH_LEN) as Hr by apply length_replicate.
  revert Hr. generalize (replicate MAX_PATH_LEN 0). intros buf Hr.
  case_bool_decide as Hp.
  - subst. destruct (copy_at_append (E := FsError) buf [] nm) as (b & Hb & Hl & Ht); [done|simpl; lia|].
    simpl in Hb, Ht. unfold mbind, outcome_bind. rewrite Hb. exists b. split_and!; [done|done|lia].
  - destruct H as [H|[? _]]; [|done].
    destruct (copy_at_append (E := FsError) buf [] prefix) as (b & Hb & Hl & Ht); [done|simpl; lia|].
    destruct (copy_at_append (E := FsError) b prefix [SLASH]) as (c & Hc & Hlc & Htc);
      [done|simpl; lia|].
    destruct (copy_at_append (E := FsError) c (prefix ++ [SLASH]) nm) as (d & Hd & Hld & Htd);
      [done|len|].
    rewrite length_app in Hd. simpl in Hb, Hd. unfold mbind, outcome_bind. rewrite Hb, Hc.
    rewrite Hd. rewrite <-app_assoc in Htd. exists d. split_and!; [f_equal; f_equal; len|done|lia].
Qed.

Lemma header_name_total header dir :
  length header = 512%nat -> header_name header dir <> Panic.
Proof.
  intros Hl. unfold header_name. rewrite !index_range_in by lia. cbn -[field slice build_name Z.to_nat].
  set (nm := field (slice _ (Z.to_nat 0) _)). set (prefix := field _).
  assert (length nm <= 100)%nat.
  { unfold nm. etrans; [apply length_field|]. rewrite length_slice; lia. }
  assert (length prefix <= 155)%nat.
  { unfold prefix. etrans; [apply length_field|]. rewrite length_slice; lia. }
  unfold ensure. destruct (bool_decide (nm = [])) eqn:Hnm; cbn -[build_name]; [done|]. bools.
  assert (length nm <> 0)%nat by (destruct nm; done).
  unfold checked_add. case_bool_decide as Hp; rewrite (proj2 (Z.ltb_lt _ _)) by lia; cbn -[build_name];
    rewrite (proj2 (Z.ltb_lt _ _)) by lia; cbn -[build_name];
    (destruct (_ <=? _) eqn:Hb; [|done]); bools; cbn -[build_name];
    (destruct (build_name_ok prefix nm) as (buf & -> & Ht & Hlen);
      [first [left; lia|right; split; [done|lia]]|]); cbn -[take].
  all: assert (0 < length (join prefix nm) <= 255)%nat by (rewrite length_join; case_bool_decide; (contradiction || lia)).
  all: destruct (lookup_lt_is_Some_2 buf (length (join prefix nm) - 1)) as [b ->]; [lia|]; cbn -[take].
  all: repeat (case_match; cbn -[take safe_path]; try done).
Qed.

Lemma ensure_Ok b u : ensure b = Ok u -> b = true.
Proof. by destruct b. Qed.

Lemma header_name_safe header dir buf n :
  header_name header dir = Ok (buf, n) -> safe_path (take n buf) false = true.
Proof.
  unfold header_name. intros H. ok_inv H. simplify_eq. by eapply ensure_Ok.
Qed.

Lemma ensure_safe b : ensure b <> Panic.
Proof. by destruct b. Qed.

Lemma header_type_safe header : length header = 512%nat -> header_type header <> Panic.
Proof.
  intros Hl. unfold header_type. destruct (lookup_lt_is_Some_2 header 156) as [b ->]; [lia|].
  cbn. repeat case_match; done.
Qed.

Lemma entry_at_total archive offset : entry_at archive offset <> Panic.
Proof.
  unfold entry_at. apply bind_safe; [apply ok_or_safe|]. intros he [-> _]%ok_or_Ok_inv%checked_add_Some.
  apply bind_safe; [apply ok_or_safe|]. intros header Hh%ok_or_Ok_inv%get_range_length.
  case_match; [done|].
  repeat (apply bind_safe;
    [first [apply ok_or_safe|apply ensure_safe|apply index_range_safe; lia
           |apply header_type_safe; lia|apply header_name_total; lia]
    |intros ? _; try case_match]). all: done.
Qed.

(** What a decoded header says. *)
Record entry_ok (archive : list Z) (offset : Z) (e : TarEntry) : Prop := mk_entry_ok {
  eo_safe : safe_path (name e) false = true;
  eo_data : data e = slice archive (Z.to_nat offset + 512)
                       (Z.to_nat offset + 512 + length (data e));
  eo_next : next_offset e = offset + 512 + (Z.of_nat (length (data e)) + 511) / 512 * 512;
  eo_inside : next_offset e <= Z.of_nat (length archive);
  eo_dir : is_dir e = true -> data e = [];
}.

Lemma entry_at_ok archive offset e :
  entry_at archive offset = Ok (Some e) -> 0 <= offset /\ entry_ok archive offset e.
Proof.
  unfold entry_at. intros H. ok_inv H.
  apply ok_or_Ok_inv, checked_add_Some in Ha as [-> _]. apply ok_or_Ok_inv, get_range_Some in Ha0 as (Ho & _ & _).
  case_match; [done|]. ok_inv H. simplify_eq. split; [lia|].
  apply ok_or_Ok_inv, checked_add_Some in Ha8 as [-> _].
  apply ok_or_Ok_inv, checked_add_Some in Ha9 as [-> _].
  apply ok_or_Ok_inv, checked_add_Some in Ha10 as [-> _].
  apply ok_or_Ok_inv in Ha11. pose proof (get_range_length _ _ _ _ Ha11).
  apply get_range_Some in Ha11 as (? & ? & Hd).
  apply ensure_Ok in Ha7, Ha12. bools.
  split; cbn [name name_len te_name data next_offset is_dir].
  - by eapply header_name_safe.
  - rewrite Hd at 1. f_equal; lia.
  - do 3 f_equal. lia.
  - lia.
  - intros ->. cbn in Ha7. bools. apply nil_length_inv. lia.
Qed.

Lemma entry_next archive offset e :
  entry_at archive offset = Ok (Some e) ->
  0 <= offset /\ offset + 512 <= next_offset e <= Z.of_nat (length archive).
Proof.
  intros (? & [_ _ Hn ? _])%entry_at_ok. split; [done|]. split; [|done]. rewrite Hn.
  pose proof (Z.div_pos (Z.of_nat (length (data e)) + 511) 512). lia.
Qed.

Lemma entry_none archive offset :
  entry_at archive offset = Ok None -> 0 <= offset <= Z.of_nat (length archive).
Proof.
  unfold entry_at. intros H. ok_inv H.
  apply ok_or_Ok_inv, checked_add_Some in Ha as [-> _].
  apply ok_or_Ok_inv, get_range_Some in Ha0 as (? & ? & _). lia.
Qed.

(** ** The loops are folds over the parsed headers *)

Lemma parse_from_ends fuel archive offset :
  0 <= offset <= Z.of_nat (length archive) ->
  Z.of_nat (length archive) < offset + Z.of_nat fuel ->
  (parse_from fuel archive offset).2 <> Panic.
Proof.
  revert offset. induction fuel as [|fuel IH]; intros offset Ho Hf; simpl; [lia|].
  destruct (entry_at archive offset) as [[e|]|e|] eqn:He; [|done|done|by apply entry_at_total in He].
  apply entry_next in He. specialize (IH (next_offset e)).
  destruct (parse_from fuel archive (next_offset e)). apply IH; lia.
Qed.

Lemma parse_ends archive : (parse archive).2 <> Panic.
Proof. apply parse_from_ends; lia. Qed.

(** The end of a loop over the headers, from the end of its body. *)
Definition finish {R} (r : outcome FsError Z) (o : outcome FsError (option R)) :
  outcome FsError (Z + R) :=
  match o with
  | Ok None => z ← r; Ok (inl z)
  | Ok (Some x) => Ok (inr x)
  | Err e => Err e
  | Panic => Panic
  end.

Lemma rounds_entries {A R} fuel archive (body : Z -> TarEntry -> Op A FsError (option R)) offset a :
  (parse_from fuel archive offset).2 <> Panic ->
  rounds fuel (entries_round archive body) (offset, a) =
  inr ((run_body body (parse_from fuel archive offset).1 a).1,
       finish (parse_from fuel archive offset).2
         (run_body body (parse_from fuel archive offset).1 a).2).
Proof.
  revert offset a. induction fuel as [|fuel IH]; intros offset a; simpl; [done|].
  destruct (entry_at archive offset) as [[e|]|e|]; [|done..].
  specialize (IH (next_offset e)). destruct (parse_from fuel archive (next_offset e)) as [l r].
  simpl in *. intros Hr. unfold mbind, op_bind. destruct (body offset e a) as [a' [[x|]|e'|]]; try done.
  by apply IH.
Qed.

(** [entries_loop] runs its body on the entries of the archive. *)
Lemma entries_loop_parse {A R} archive (body : Z -> TarEntry -> Op A FsError (option R)) a :
  entries_loop archive body a =
  ((run_body body (parse archive).1 a).1,
   finish (parse archive).2 (run_body body (parse archive).1 a).2).
Proof.
  unfold entries_loop, while_loop. rewrite while_pos_rounds.
  replace (Pos.to_nat (Z.to_pos (header_rounds archive))) with (length archive + 1)%nat
    by (unfold header_rounds; lia).
  by rewrite (rounds_entries _ _ _ _ _ (parse_ends archive)).
Qed.

Lemma chain_bounds archive o l o' :
  chain archive o l o' ->
  o + 512 * Z.of_nat (length l) <= o' /\ (l <> [] -> o' <= Z.of_nat (length archive)).
Proof.
  induction 1 as [o|o e l o' He Hc [IH1 IH2]]; [simpl; split; [lia|done]|].
  apply entry_next in He. cbn [length]. split; [lia|]. intros _.
  destruct l; [inversion Hc; subst; lia|by apply IH2].
Qed.

Lemma rounds_previous {R} fuel archive (body : TarEntry -> outcome FsError (option R)) o l o' :
  chain archive o l o' -> (length l < fuel)%nat ->
  rounds fuel (fun previous_offset =>
    if previous_offset <? o' then
      match entry_at archive previous_offset with
      | Ok (Some previous) =>
          match body previous with
          | Ok None => inl (next_offset previous)
          | r => inr r
          end
      | Ok None => inr (Err InvalidArchive)
      | Err e => inr (Err e)
      | Panic => inr Panic
      end
    else inr (Ok None)) o = inr (run_previous body l).
Proof.
  intros Hc. revert fuel. induction Hc as [o|o e l o' He Hc IH]; intros [|fuel] Hf; simpl in Hf; try lia.
  { simpl. by rewrite Z.ltb_irrefl. }
  pose proof (entry_next _ _ _ He). apply chain_bounds in Hc as [? _]. simpl.
  rewrite (proj2 (Z.ltb_lt _ _)) by lia. rewrite He. unfold mbind, outcome_bind.
  destruct (body e) as [[x|]|e'|]; try done. apply IH. lia.
Qed.

(** [previous_loop] runs its body on the entries before the offset. *)
Lemma previous_loop_chain {R} archive (body : TarEntry -> outcome FsError (option R)) l o :
  chain archive 0 l o -> previous_loop archive o body = run_previous body l.
Proof.
  intros Hc. unfold previous_loop, while_loop. rewrite while_pos_rounds.
  rewrite (rounds_previous _ archive body 0 l o Hc); [done|].
  apply chain_bounds in Hc as [? Hl]. unfold header_rounds.
  destruct l; [simpl; lia|]. specialize (Hl ltac:(done)). lia.
Qed.

Lemma parse_from_chain fuel archive o l1 x l2 :
  (parse_from fuel archive o).1 = l1 ++ x :: l2 ->
  chain archive o l1 x.1 /\ entry_at archive x.1 = Ok (Some x.2).
Proof.
  revert o l1. induction fuel as [|fuel IH]; intros o l1; simpl; [by destruct l1|].
  destruct (entry_at archive o) as [[e|]|e|] eqn:He; try by destruct l1.
  specialize (IH (next_offset e)). destruct (parse_from fuel archive (next_offset e)) as [l r].
  simpl in *. destruct l1 as [|y l1]; simpl; intros [= <- Hl].
  - split; [constructor|done].
  - destruct (IH l1 Hl). split; [by econstructor|done].
Qed.

Lemma parse_chain archive l1 x l2 :
  (parse archive).1 = l1 ++ x :: l2 ->
  chain archive 0 l1 x.1 /\ entry_at archive x.1 = Ok (Some x.2).
Proof. apply parse_from_chain. Qed.

(** ** Validation *)

(** The first result of a test on a list. *)
Definition first_some {A B} (f : A -> option B) (l : list A) : option B := head (omap f l).

Lemma first_some_cons {A B} (f : A -> option B) x l :
  first_some f (x :: l) = match f x with Some y => Some y | None => first_some f l end.
Proof. unfold first_some. simpl. by destruct (f x). Qed.

Lemma first_some_Some {A B} (f : A -> option B) l y :
  first_some f l = Some y <->
  exists l1 x l2, l = l1 ++ x :: l2 /\ f x = Some y /\ Forall (fun z => f z = None) l1.
Proof.
  induction l as [|x l IH].
  { split; [done|]. intros (l1 & x & l2 & H & _). by destruct l1. }
  rewrite first_some_cons. destruct (f x) as [z|] eqn:Hx; [|rewrite IH]; split.
  - intros [= ->]. exists [], x, l. auto.
  - intros (l1 & x' & l2 & Hl & Hx' & Hf). destruct l1 as [|w l1]; simplify_list_eq; [congruence|].
    apply Forall_cons in Hf as [? _]. congruence.
  - intros (l1 & x' & l2 & -> & Hx' & Hf). exists (x :: l1), x', l2. auto.
  - intros (l1 & x' & l2 & Hl & Hx' & Hf). destruct l1 as [|w l1]; simplify_list_eq.
    apply Forall_cons in Hf as [_ ?]. eauto 10.
Qed.

Lemma first_some_None {A B} (f : A -> option B) l :
  first_some f l = None <-> Forall (fun z => f z = None) l.
Proof.
  induction l as [|x l IH]; [by split|].
  rewrite first_some_cons, Forall_cons, <-IH. destruct (f x) as [y|].
  - split; [done|]. by intros [? _].
  - split; [done|]. by intros [_ ?].
Qed.

Lemma first_some_existsb {A} (p : A -> bool) l :
  first_some (fun x => if p x then Some tt else None) l = if existsb p l then Some tt else None.
Proof. induction l as [|x l IH]; [done|]. rewrite first_some_cons, IH. simpl. by destruct (p x). Qed.

(** A body without effects. *)
Lemma run_body_pure {R} (body : Z -> TarEntry -> Op unit FsError (option R)) f l :
  (forall o e, body o e tt = (tt, Ok (f e))) ->
  run_body body l tt = (tt, Ok (first_some f l.*2)).
Proof.
  intros Hb. induction l as [|[o e] l IH]; [done|].
  simpl. unfold mbind, op_bind. rewrite Hb, first_some_cons. by destruct (f e).
Qed.

Lemma run_previous_pure {R} (body : TarEntry -> outcome FsError (option R)) f l :
  (forall e, body e = Ok (f e)) -> run_previous body l = Ok (first_some f l.*2).
Proof.
  intros Hb. induction l as [|[o e] l IH]; [done|].
  simpl. rewrite Hb, first_some_cons. cbn. by destruct (f e).
Qed.

Lemma run_previous_ensure (p : TarEntry -> bool) l :
  run_previous (R := Empty_set) (fun e => if p e then Err InvalidArchive else Ok None) l =
  if existsb p l.*2 then Err InvalidArchive else Ok None.
Proof.
  induction l as [|[o e] l IH]; [done|]. simpl. destruct (p e); [done|]. apply IH.
Qed.

(** [clear l0 l]: no entry of [l] is in conflict with one before it, after [l0]. *)
Fixpoint clear (l0 l : list TarEntry) : bool :=
  match l with
  | [] => true
  | e :: l => negb (existsb (fun p => conflict p e) l0) && clear (l0 ++ [e]) l
  end.

Lemma clear_iff l0 l :
  clear l0 l = true <->
  forall i j e f, (l0 ++ l) !! i = Some e -> (l0 ++ l) !! j = Some f ->
    (i < j)%nat -> (length l0 <= j)%nat -> conflict e f = false.
Proof.
  revert l0. induction l as [|x l IH]; intros l0; simpl.
  { split; [|done]. intros _ i j e f _ Hj%lookup_lt_Some. rewrite length_app in Hj. simpl in Hj. lia. }
  rewrite andb_true_iff, negb_true_iff, IH, <-app_assoc. simpl. split.
  - intros [Hx Hl] i j e f Hi Hj Hij Hl0. destruct (decide (j = length l0)) as [->|].
    + rewrite list_lookup_middle in Hj by done. simplify_eq.
      rewrite lookup_app_l in Hi by done. apply not_true_iff_false in Hx.
      apply not_true_iff_false. intros He. apply Hx, existsb_exists. exists e.
      split; [|done]. by apply list_elem_of_In, list_elem_of_lookup_2 with i.
    + apply (Hl i j); [done..|]. rewrite length_app. simpl. lia.
  - intros H. split.
    + apply not_true_iff_false. intros (e & He%list_elem_of_In & Hc)%existsb_exists.
      apply list_elem_of_lookup in He as [i Hi]. pose proof (lookup_lt_Some _ _ _ Hi).
      rewrite (H i (length l0) e x) in Hc; [done|..].
      * by rewrite lookup_app_l. * by rewrite list_lookup_middle. * done. * done.
    + intros i j e f Hi Hj Hij Hl. apply (H i j); [done..|]. rewrite length_app in Hl. lia.
Qed.

Lemma validate_entry_chain archive l0 o e c :
  chain archive 0 l0 o ->
  validate_entry archive o e c =
  (c + 1, if MAX_FILES <? c + 1 then Err TooManyFiles
          else if existsb (fun p => conflict p e) l0.*2 then Err InvalidArchive else Ok None).
Proof.
  intros Hc. unfold validate_entry, modify, get, mbind, op_bind.
  destruct (MAX_FILES <? c + 1); [done|].
  rewrite (previous_loop_chain _ _ _ _ Hc), run_previous_ensure. by destruct (existsb _ _).
Qed.

Lemma validate_run archive l0 l c :
  (parse archive).1 = l0 ++ l ->
  (run_body (validate_entry archive) l c).2 <> Panic /\
  ((run_body (validate_entry archive) l c).2 = Ok None <->
   (l = [] \/ c + Z.of_nat (length l) <= MAX_FILES) /\ clear l0.*2 l.*2 = true).
Proof.
  revert l0 c. induction l as [|[o e] l IH]; intros l0 c Hp; [split; [done|]; simpl; tauto|].
  destruct (parse_chain _ _ _ _ Hp) as [Hc _]. specialize (IH (l0 ++ [(o, e)]) (c + 1)).
  rewrite <-app_assoc in IH. specialize (IH Hp) as [IH1 IH2].
  cbn [run_body]. unfold mbind, op_bind. rewrite (validate_entry_chain _ _ _ _ _ Hc).
  cbn [fmap list_fmap clear snd]. rewrite fmap_app in IH2. cbn [fmap list_fmap snd] in IH2.
  destruct (MAX_FILES <? c + 1) eqn:Hm; bools.
  { split; [done|]. split; [done|]. intros [[?|?] _]; [done|]. cbn [length] in *. lia. }
  destruct (existsb _ _); [split; [done|]; split; [done|]; by intros [_ ?]|].
  split; [exact IH1|]. rewrite IH2. cbn [length negb andb]. split.
  - intros [[->|?] ?]; (split; [right|done]); simpl; lia.
  - intros [[?|?] ?]; [done|]. split; [right; lia|done].
Qed.

Lemma all_zero l : forallb (Z.eqb 0) l = true <-> Forall (fun b => b = 0) l.
Proof.
  rewrite forallb_forall, Forall_forall. setoid_rewrite list_elem_of_In.
  split; intros H x Hx; specialize (H x Hx); [bools; lia|subst; done].
Qed.

Lemma parse_from_end fuel archive o z :
  (parse_from fuel archive o).2 = Ok z -> entry_at archive z = Ok None.
Proof.
  revert o. induction fuel as [|fuel IH]; intros o; simpl; [done|].
  destruct (entry_at archive o) as [[e|]|e|] eqn:He; [|by intros [= <-]|done..].
  specialize (IH (next_offset e)). by destruct (parse_from fuel archive (next_offset e)).
Qed.

Lemma drop_slice {A} (l : list A) n : slice l n (length l) = drop n l.
Proof. unfold slice. apply take_ge. len. Qed.

Lemma parse_end archive z :
  (parse archive).2 = Ok z ->
  index_range (E := FsError) archive z (Z.of_nat (length archive)) =
  Ok (drop (Z.to_nat z) archive).
Proof.
  intros H%parse_from_end%entry_none. rewrite index_range_in by lia.
  by rewrite Nat2Z.id, drop_slice.
Qed.

Lemma validate_run_entries archive :
  (run_body (validate_entry archive) (parse archive).1 0).2 = Ok None <->
  Z.of_nat (length (entries archive)) <= MAX_FILES /\
  (forall i j e f, entries archive !! i = Some e -> entries archive !! j = Some f ->
    (i < j)%nat -> conflict e f = false).
Proof.
  destruct (validate_run archive [] (parse archive).1 0 eq_refl) as [_ ->].
  rewrite clear_iff. unfold entries. simpl. rewrite length_fmap. split.
  - intros [Hl Hc]. split; [destruct Hl as [->|?]; [done|lia]|].
    intros i j e f ? ? ?. apply (Hc i j e f); [done..|lia].
  - intros [Hl Hc]. split; [right; lia|]. intros i j e f ? ? ? _. by apply (Hc i j e f).
Qed.

(** [validate], in terms of the parsed headers. *)
Lemma validate_parse archive :
  validate archive <> Panic /\ (validate archive = Ok tt <-> exists z, accepted archive z).
Proof.
  unfold validate. pose proof (validate_run_entries archive) as Hrun.
  destruct (validate_run archive [] (parse archive).1 0 eq_refl) as [Hp _].
  destruct (_ || _ || _) eqn:Hs.
  { split; [done|]. split; [done|]. intros (z & [(Hne & Hl & Hm) _ _ _ _]).
    rewrite !orb_true_iff, negb_true_iff in Hs. destruct Hs as [[?|?]|?]; bools; done || lia. }
  bools. rewrite entries_loop_parse. cbn [snd].
  destruct (run_body (validate_entry archive) (parse archive).1 0).2 as [[[]|]|e|];
    [|split; [done|]; split; [done|]; intros (z & [_ _ Hn Hc _]);
      discriminate (proj2 Hrun (conj Hn Hc))|done].
  destruct (proj1 Hrun eq_refl) as [Hn Hc]. cbn [finish].
  destruct (parse archive).2 as [z|e|] eqn:Hz; cbn;
    [|split; [done|]; split; [done|]; intros (z & [_ ? _ _ _]); congruence
     |by destruct (parse_ends archive)].
  rewrite (parse_end _ _ Hz). cbn. unfold ensure. destruct (forallb _ _) eqn:Hzero.
  - split; [done|]. split; [|done]. intros _. exists z. split; try done. by apply all_zero.
  - split; [done|]. split; [done|]. intros (z' & [_ ? _ _ Hd%all_zero]). congruence.
Qed.

(** ** Paths *)

Lemma strip_prefix_Some p l r : strip_prefix p l = Some r <-> l = p ++ r.
Proof.
  revert l. induction p as [|x p IH]; intros l; simpl.
  { split; congruence. }
  destruct l as [|y l]; [done|]. destruct (x =? y) eqn:Hxy; bools.
  - subst. rewrite IH. split; [by intros ->|by intros [= ->]].
  - split; [done|]. intros [= ? ?]. congruence.
Qed.

Lemma parent_of_below p l : parent_of p l = true <-> below p l.
Proof.
  unfold parent_of, below. destruct (strip_prefix p l) as [r|] eqn:Hr.
  - apply strip_prefix_Some in Hr as ->. simpl. rewrite bool_decide_eq_true. split.
    + intros H. destruct r as [|x r]; simplify_eq/=. eauto.
    + by intros (rest & ->%app_inv_head).
  - split; [done|]. intros (rest & Hl). by apply strip_prefix_Some in Hl as Hl'; rewrite Hl' in Hr.
Qed.

Lemma conflict_false e f :
  conflict e f = false <->
  name e <> name f /\ (below (name e) (name f) -> is_dir e = true) /\
  (below (name f) (name e) -> is_dir f = true).
Proof.
  unfold conflict. rewrite <-!parent_of_below, !orb_false_iff, !andb_false_iff, !negb_false_iff.
  rewrite bool_decide_eq_false.
  destruct (parent_of (name e) (name f)), (parent_of (name f) (name e)), (is_dir e), (is_dir f);
    intuition congruence.
Qed.

(** The test the look-ups make for an entry below a directory. *)
Lemma below_iff path l :
  below path l <->
  (length path < length l)%nat /\ take (length path) l = path /\ l !! length path = Some SLASH.
Proof.
  unfold below. split.
  - intros (r & ->). rewrite take_app_length, list_lookup_middle by done. split_and!; [len|done|done].
  - intros (_ & Ht & Hs). exists (drop (S (length path)) l).
    rewrite <-Ht at 1. symmetry. by apply take_drop_middle.
Qed.

Lemma parent_of_test path l :
  parent_of path l =
  (length path <? length l)%nat && bool_decide (take (length path) l = path)
  && bool_decide (l !! length path = Some SLASH).
Proof.
  apply eq_true_iff_eq. rewrite parent_of_below, below_iff, !andb_true_iff.
  rewrite Nat.ltb_lt, !bool_decide_eq_true. tauto.
Qed.

Lemma below_neq path l : below path l -> l <> path.
Proof. intros (r & ->) H. apply (f_equal length) in H. len. Qed.

Lemma split_path_app a b :
  split_path (a ++ SLASH :: b) = split_path a ++ split_path b.
Proof.
  induction a as [|x a IH]; [done|]. simpl. rewrite IH. destruct (x =? SLASH); [done|].
  destruct (split_path a) as [|c l] eqn:Ha; [|done].
  destruct a as [|y a]; [done|]. simpl in Ha. destruct (y =? SLASH); [done|].
  by destruct (split_path a).
Qed.

Lemma split_path_no_slash a : SLASH ∉ a -> split_path a = [a].
Proof.
  induction a as [|x a IH]; [done|]. intros H. rewrite not_elem_of_cons in H.
  destruct H as [Hx Ha]. simpl. rewrite IH by done. destruct (x =? SLASH) eqn:?; bools; congruence.
Qed.

Lemma safe_nonempty path : safe_path path false = true -> path <> [].
Proof. unfold safe_path. by case_bool_decide. Qed.

Lemma safe_path_split path :
  safe_path path false = true <-> forallb safe_component (split_path path) = true.
Proof. unfold safe_path. case_bool_decide; [subst; done|done]. Qed.

Lemma safe_path_app a b :
  safe_path (a ++ SLASH :: b) false = true <->
  safe_path a false = true /\ safe_path b false = true.
Proof. by rewrite !safe_path_split, split_path_app, forallb_app, andb_true_iff. Qed.

Lemma split_path_bytes path :
  forallb (forallb path_byte) (split_path path) = true -> Forall (fun b => 0 <= b < 128) path.
Proof.
  induction path as [|x path IH]; simpl; [constructor|].
  destruct (x =? SLASH) eqn:Hx; bools; [subst; constructor; [lia|by apply IH]|].
  destruct (split_path path) as [|c l]; simpl; rewrite ?andb_true_iff;
    intros H; (constructor; [|apply IH; simpl; rewrite ?andb_true_iff; tauto]).
  all: destruct H as [[H _] _]; unfold path_byte, in_range in H; rewrite !orb_true_iff in H;
    destruct_or! H; bools; lia.
Qed.

Lemma safe_path_ascii path :
  safe_path path false = true -> Forall (fun b => 0 <= b < 128) path.
Proof.
  rewrite safe_path_split, forallb_forall. intros H. apply split_path_bytes, forallb_forall.
  intros c Hc. specialize (H c Hc). unfold safe_component in H. by bools.
Qed.

Lemma safe_path_utf8 path : safe_path path false = true -> valid_utf8 path = true.
Proof. intros H. by apply valid_utf8_ascii, safe_path_ascii. Qed.

(** A first component of a safe path is safe. *)
Lemma safe_path_join d c :
  (d = [] \/ safe_path d false = true) -> safe_path c false = true ->
  safe_path (join d c) false = true.
Proof.
  intros Hd Hc. unfold join. case_bool_decide; [done|]. apply safe_path_app. destruct Hd; done.
Qed.

(** The first component of a path, and the rest. *)
Lemma cut_spec r :
  let n := default (length r) (position (Z.eqb SLASH) r) in
  (SLASH ∉ take n r) /\
  ((n <? length r)%nat = false /\ take n r = r \/
   (n <? length r)%nat = true /\ exists rest, r = take n r ++ SLASH :: rest).
Proof.
  destruct (position (Z.eqb SLASH) r) as [n|] eqn:Hp; simpl.
  - pose proof (position_lt _ _ _ Hp). apply position_Some in Hp as (x & Hx & Hs & Hb). bools. subst x.
    split.
    + intros (j & Hj)%list_elem_of_lookup. apply lookup_take_Some in Hj as [Hj ?].
      specialize (Hb j _ ltac:(done) Hj). bools. done.
    + right. split; [by apply Nat.ltb_lt|]. exists (drop (S n) r). symmetry. by apply take_drop_middle.
  - rewrite position_None in Hp. rewrite take_ge by done. split; [|left; split; [apply Nat.ltb_irrefl|done]].
    intros (j & Hj)%list_elem_of_lookup. specialize (Hp j _ Hj). bools. done.
Qed.

Lemma cut_first c rest :
  SLASH ∉ c -> position (Z.eqb SLASH) c = None /\
  position (Z.eqb SLASH) (c ++ SLASH :: rest) = Some (length c).
Proof.
  intros Hc. assert (forall i x, c !! i = Some x -> (SLASH =? x) = false) as Hn.
  { intros i x Hx. apply Z.eqb_neq. intros <-. by apply Hc, list_elem_of_lookup_2 with i. }
  split; [by apply position_None|]. apply position_Some. exists SLASH.
  rewrite list_lookup_middle by done. split_and!; [done|done|].
  intros j y Hj Hy. rewrite lookup_app_l in Hy by done. eauto.
Qed.

Lemma join_app d c rest : join d (c ++ SLASH :: rest) = join d c ++ SLASH :: rest.
Proof. unfold join. case_bool_decide; [done|]. by rewrite <-app_assoc. Qed.

Lemma join_inj d c c' : join d c = join d c' -> c = c'.
Proof. unfold join. case_bool_decide; [done|]. by intros [= ?]%app_inv_head. Qed.

Lemma safe_join_rest d r : safe_path (join d r) false = true -> safe_path r false = true.
Proof. unfold join. case_bool_decide; [done|]. by intros [_ ?]%safe_path_app. Qed.

(** The part of a safe name below a directory. *)
Lemma relative_spec d nm r :
  safe_path nm false = true ->
  (if bool_decide (d = []) then Some nm
   else if (length nm <=? length d + 1)%nat
           || negb (bool_decide (take (length d) nm = d))
           || negb (bool_decide (nm !! length d = Some SLASH))
        then None else Some (drop (length d + 1) nm)) = Some r <-> nm = join d r.
Proof.
  intros Hs. unfold join. case_bool_decide as Hd; [split; congruence|]. split.
  - destruct (_ || _ || _) eqn:H; [done|]. bools. intros [= <-].
    rewrite <-(take_drop_middle nm (length d) SLASH) at 1 by done.
    by rewrite Nat.add_1_r, H1.
  - intros ->. apply safe_path_app in Hs as [_ Hr%safe_nonempty].
    rewrite take_app_length, list_lookup_middle by done.
    rewrite !bool_decide_eq_true_2 by done. destruct r as [|x r]; [done|].
    rewrite (proj2 (Nat.leb_gt _ _)) by len. simpl. f_equal.
    rewrite drop_app_ge by lia. by replace (length d + 1 - length d)%nat with 1%nat by lia.
Qed.

(** [child_entry], as the child's path. *)
Lemma child_entry_spec e d c dir size :
  safe_path (name e) false = true ->
  child_entry e d = Some (c, dir, size) <->
  (SLASH ∉ c) /\
  (name e = join d c /\ dir = is_dir e \/ below (join d c) (name e) /\ dir = true) /\
  size = if dir then 0 else Z.of_nat (length (data e)).
Proof.
  intros Hs. unfold child_entry. split.
  - intros (r & Hr & H)%bind_Some. apply (relative_spec _ _ _ Hs) in Hr. simplify_eq.
    destruct (cut_spec r) as [Hc Hcut]. split; [done|]. split; [|done].
    destruct Hcut as [[-> Hr']|[-> [rest Hr']]]; [left; by rewrite Hr'|right; split; [|done]].
    exists rest. by rewrite <-join_app, <-Hr'.
  - intros (Hc & Hn & ->). destruct (cut_first c [] Hc) as [Hp _].
    destruct Hn as [[Hn ->]|[[rest Hn] ->]].
    + apply bind_Some. exists c. split; [by apply relative_spec|]. rewrite Hp. simpl.
      rewrite Nat.ltb_irrefl, take_ge by done. done.
    + destruct (cut_first c rest Hc) as [_ Hp']. rewrite <-join_app in Hn.
      apply bind_Some. exists (c ++ SLASH :: rest). split; [by apply relative_spec|].
      rewrite Hp'. simpl. rewrite (proj2 (Nat.ltb_lt _ _)) by len. simpl. by rewrite take_app_length.
Qed.

(** ** Look-ups in a valid archive *)

(** An entry is the child [c] of a directory, or below it. *)
Definition shows (d c : list Z) (e : TarEntry) : bool :=
  is_some_and (child_entry e d) (fun '(c', _, _) => bool_decide (c' = c)).

(** The calls [for_each_entry] makes for the entries [l], after those of [l0]. *)
Fixpoint listing (d : list Z) (l0 l : list TarEntry) : Visits :=
  match l with
  | [] => []
  | e :: l =>
      match child_entry e d with
      | Some (c, dir, size) => if existsb (shows d c) l0 then [] else [(c, dir, size)]
      | None => []
      end ++ listing d (l0 ++ [e]) l
  end.

Lemma listing_elem d l0 l c dir size :
  (c, dir, size) ∈ listing d l0 l <->
  exists l1 e l2, l = l1 ++ e :: l2 /\ child_entry e d = Some (c, dir, size) /\
    existsb (shows d c) (l0 ++ l1) = false.
Proof.
  revert l0. induction l as [|e l IH]; intros l0; simpl.
  { split; [by intros ?%not_elem_of_nil|]. intros (l1 & e & l2 & H & _). by destruct l1. }
  rewrite elem_of_app, IH. split.
  - intros [H|(l1 & e' & l2 & -> & He & Hs)].
    + destruct (child_entry e d) as [[[c' dir'] size']|] eqn:He; [|by apply not_elem_of_nil in H].
      destruct (existsb _ _) eqn:Hs; [by apply not_elem_of_nil in H|].
      apply list_elem_of_singleton in H. simplify_eq. exists [], e, l. by rewrite app_nil_r.
    + exists (e :: l1), e', l2. by rewrite <-app_assoc in Hs.
  - intros (l1 & e' & l2 & Hl & He & Hs). destruct l1 as [|x l1]; simplify_list_eq.
    + left. rewrite He, Hs. by apply list_elem_of_singleton.
    + right. exists l1, e', l2. by rewrite <-app_assoc.
Qed.

Lemma listing_nodup d l0 l :
  NoDup (listing d l0 l).*1.*1.
Proof.
  revert l0. induction l as [|e l IH]; intros l0; simpl; [constructor|].
  destruct (child_entry e d) as [[[c dir] size]|] eqn:He; [|apply IH].
  destruct (existsb _ _); [apply IH|]. simpl. constructor; [|apply IH].
  intros Hc. rewrite !list_elem_of_fmap in Hc. destruct Hc as ([c' dir'] & -> & Hc).
  rewrite list_elem_of_fmap in Hc. destruct Hc as ([[c'' dir''] size''] & [= -> ->] & Hc).
  apply listing_elem in Hc as (l1 & e' & l2 & _ & _ & Hs).
  rewrite !existsb_app in Hs. simpl in Hs. unfold shows in Hs at 2. rewrite He in Hs. simpl in Hs.
  rewrite bool_decide_eq_true_2 in Hs by done. rewrite !orb_true_r in Hs. done.
Qed.

Lemma first_some_unique {A B} (f : A -> option B) l y :
  (forall x x' z z', x ∈ l -> x' ∈ l -> f x = Some z -> f x' = Some z' -> z = z') ->
  first_some f l = Some y <-> exists x, x ∈ l /\ f x = Some y.
Proof.
  intros Hu. split.
  - intros (l1 & x & l2 & -> & Hx & _)%first_some_Some. exists x. split; [set_solver|done].
  - intros (x & Hx & Hf). destruct (first_some f l) as [z|] eqn:Hz.
    + apply first_some_Some in Hz as (l1 & x' & l2 & -> & Hx' & _).
      f_equal. apply (Hu x' x); [set_solver|done..].
    + apply first_some_None in Hz. rewrite Forall_forall in Hz. by rewrite Hz in Hf.
Qed.

Section lookups.

Context (archive : list Z) (end_ : Z) (Hwf : accepted archive end_).

Abbreviation mounted := (Some (Ok archive)).

Lemma entries_safe e : e ∈ entries archive -> safe_path (name e) false = true.
Proof.
  intros ([o e'] & -> & He)%list_elem_of_fmap. apply list_elem_of_split in He as (l1 & l2 & Hl).
  destruct (parse_chain _ _ _ _ Hl) as [_ [_ []]%entry_at_ok]. done.
Qed.

Lemma entries_compatible e f :
  e ∈ entries archive -> f ∈ entries archive ->
  e = f \/ name e <> name f /\ (below (name e) (name f) -> is_dir e = true) /\
    (below (name f) (name e) -> is_dir f = true).
Proof.
  intros [i Hi]%list_elem_of_lookup [j Hj]%list_elem_of_lookup.
  destruct (Nat.lt_trichotomy i j) as [Hij|[->|Hij]]; [right|left; congruence|right].
  - apply conflict_false. by eapply (wf_conflict _ _ Hwf).
  - pose proof (wf_conflict _ _ Hwf _ _ _ _ Hj Hi Hij) as (Hn & ? & ?)%conflict_false. auto.
Qed.

(** A loop over the entries that only looks. *)
Lemma loop_pure {R} (body : Z -> TarEntry -> Op unit FsError (option R)) f :
  (forall o e, body o e tt = (tt, Ok (f e))) ->
  (entries_loop archive body tt).2 =
  Ok (match first_some f (entries archive) with Some r => inr r | None => inl end_ end).
Proof.
  intros Hb. rewrite entries_loop_parse, (run_body_pure _ f) by done. simpl.
  rewrite (wf_end _ _ Hwf). unfold entries. by destruct (first_some _ _).
Qed.

Lemma read_file_valid path :
  exists r, read_file mounted path = Ok r /\
    forall d, r = Some d <->
      exists e, e ∈ entries archive /\ is_dir e = false /\ name e = path /\ data e = d.
Proof.
  unfold read_file. destruct (safe_path path false) eqn:Hs; simpl.
  - set (f e := if negb (is_dir e) && bool_decide (name e = path) then Some (data e) else None).
    rewrite (loop_pure _ f) by (intros; unfold f; by case_match).
    exists (first_some f (entries archive)). split; [by destruct (first_some _ _)|].
    assert (forall e d, f e = Some d <-> is_dir e = false /\ name e = path /\ data e = d) as Hf.
    { intros e d. unfold f. destruct (is_dir e); simpl; [split; [done|by intros [? _]]|].
      case_bool_decide; split; [intros [= ->]; auto|by intros (_ & _ & ->)|done|tauto]. }
    intros d. rewrite first_some_unique; [by setoid_rewrite Hf|].
    intros e e' z z' He He' (_ & Hn & <-)%Hf (_ & Hn' & <-)%Hf.
    destruct (entries_compatible _ _ He He') as [->|[? _]]; congruence.
  - exists None. split; [done|]. intros d. split; [done|]. intros (e & He & _ & <- & _).
    by rewrite entries_safe in Hs.
Qed.

(** What one entry says about a directory. *)
Definition dir_test (path : list Z) (e : TarEntry) : option bool :=
  if bool_decide (name e = path) then Some (is_dir e)
  else if parent_of path (name e) then Some true else None.

Lemma dir_test_true path e :
  dir_test path e = Some true <-> name e = path /\ is_dir e = true \/ below path (name e).
Proof.
  unfold dir_test. rewrite <-parent_of_below. case_bool_decide as Hn.
  - split; [intros [= ->]; auto|]. intros [[_ ->]|Hb%parent_of_below%below_neq]; done.
  - destruct (parent_of _ _); [by split; auto|]. split; [done|]. by intros [[? _]|?].
Qed.

Lemma dir_test_false path e :
  dir_test path e = Some false -> name e = path /\ is_dir e = false.
Proof.
  unfold dir_test. case_bool_decide; [by intros [= ->]|by destruct (parent_of _ _)].
Qed.

Lemma dir_test_clash path e e' :
  e ∈ entries archive -> e' ∈ entries archive ->
  dir_test path e = Some false -> dir_test path e' = Some true -> False.
Proof.
  intros He He' Hf Ht. destruct (entries_compatible _ _ He He') as [->|(Hn2 & Hb2 & _)]; [congruence|].
  apply dir_test_false in Hf as [<- Hd]. apply dir_test_true in Ht as [[? _]|Hb]; [done|].
  by rewrite Hb2 in Hd.
Qed.

Lemma directory_exists_valid path :
  exists b, directory_exists mounted path = Ok b /\
    (b = true <-> path = [] \/
      exists e, e ∈ entries archive /\ (name e = path /\ is_dir e = true \/ below path (name e))).
Proof.
  unfold directory_exists. simpl. destruct (decide (path = [])) as [->|Hne].
  { exists true. split; [done|]. split; [by left|done]. }
  unfold safe_path at 1. rewrite bool_decide_eq_false_2 by done.
  destruct (forallb _ _) eqn:Hs; simpl.
  - rewrite (loop_pure _ (dir_test path)).
    2:{ intros o e. unfold dir_test. rewrite parent_of_test. by repeat case_match. }
    exists (default false (first_some (dir_test path) (entries archive))).
    split; [by destruct (first_some _ _)|].
    trans (first_some (dir_test path) (entries archive) = Some true).
    { destruct (first_some _ _) as [b|]; simpl; [|done]. split; [by intros ->|by intros [= ->]]. }
    rewrite first_some_unique; [setoid_rewrite dir_test_true; tauto|].
    intros e e' [] [] He He' H H'; try done; exfalso; eauto using dir_test_clash.
  - exists false. split; [done|]. split; [done|]. intros [?|(e & He & H)]; [done|].
    apply entries_safe in He. apply not_true_iff_false in Hs. destruct Hs.
    apply safe_path_split. destruct H as [[<- _]|[rest Hr]]; [done|].
    rewrite Hr in He. by apply safe_path_app in He as [? _].
Qed.

Lemma child_safe e d c dir size :
  safe_path (name e) false = true -> child_entry e d = Some (c, dir, size) ->
  safe_path c false = true.
Proof.
  intros Hs (_ & [[Hn _]|[[rest Hn] _]] & _)%child_entry_spec; [| |done]; rewrite Hn in Hs.
  - by eapply safe_join_rest.
  - apply safe_path_app in Hs as [Hs _]. by eapply safe_join_rest.
Qed.

Lemma visit_entry_chain d l0 o e v :
  chain archive 0 l0 o -> safe_path (name e) false = true ->
  visit_entry archive d o e v =
  (v ++ match child_entry e d with
        | Some (c, dir, size) => if existsb (shows d c) l0.*2 then [] else [(c, dir, size)]
        | None => []
        end, Ok None).
Proof.
  intros Hc Hs. unfold visit_entry.
  destruct (child_entry e d) as [[[c dir] size]|] eqn:He; [|by rewrite app_nil_r].
  rewrite (previous_loop_chain _ _ _ _ Hc).
  rewrite (run_previous_pure _ (fun p => if shows d c p then Some tt else None))
    by (intros p; fold (shows d c p); by destruct (shows d c p)).
  unfold mbind, op_bind, lift. rewrite first_some_existsb.
  destruct (existsb _ _); [by rewrite app_nil_r|].
  by rewrite (safe_path_utf8 _ (child_safe _ _ _ _ _ Hs He)).
Qed.

Lemma visit_run d l0 l v :
  (parse archive).1 = l0 ++ l ->
  run_body (visit_entry archive d) l v = (v ++ listing d l0.*2 l.*2, Ok None).
Proof.
  revert l0 v. induction l as [|[o e] l IH]; intros l0 v Hp; [simpl; by rewrite app_nil_r|].
  destruct (parse_chain _ _ _ _ Hp) as [Hc [_ He]%entry_at_ok].
  cbn [run_body]. unfold mbind, op_bind. rewrite (visit_entry_chain d l0 o e v Hc (eo_safe _ _ _ He)).
  rewrite (IH (l0 ++ [(o, e)])) by (by rewrite <-app_assoc).
  rewrite fmap_app, <-app_assoc. done.
Qed.

Lemma for_each_entry_valid d v :
  directory_exists mounted d = Ok true ->
  for_each_entry mounted d v = (v ++ listing d [] (entries archive), Ok tt).
Proof.
  intros Hd. unfold for_each_entry, mbind, op_bind, lift. rewrite Hd.
  cbn [negb mounted_archive]. rewrite entries_loop_parse, (visit_run d []) by done.
  cbn [fst snd finish]. by rewrite (wf_end _ _ Hwf).
Qed.

(** An entry that shows a child is first in its listing, or a directory is. *)
Lemma listing_child d e c dir size :
  e ∈ entries archive -> child_entry e d = Some (c, dir, size) ->
  exists e' dir' size', e' ∈ entries archive /\ child_entry e' d = Some (c, dir', size') /\
    (c, dir', size') ∈ listing d [] (entries archive).
Proof.
  intros He Hc. set (f e := match child_entry e d with
    | Some (c', dir', size') => if bool_decide (c' = c) then Some (dir', size') else None
    | None => None end).
  destruct (first_some f (entries archive)) as [[dir' size']|] eqn:Hf.
  - apply first_some_Some in Hf as (l1 & e' & l2 & Hl & Hf' & Hn). unfold f in Hf'.
    destruct (child_entry e' d) as [[[c' dir''] size'']|] eqn:He'; [|done].
    case_bool_decide; simplify_eq. exists e', dir', size'. rewrite listing_elem.
    split; [rewrite Hl; apply elem_of_app; right; by left|]. split; [done|].
    exists l1, e', l2. split_and!; [done|done|]. simpl. apply not_true_iff_false.
    intros (x & Hx & Hs)%existsb_exists. rewrite <-list_elem_of_In in Hx.
    rewrite Forall_forall in Hn. specialize (Hn x Hx). unfold f in Hn. unfold shows in Hs.
    destruct (child_entry x d) as [[[c' dx] sx]|]; [|done]. simpl in Hs. by case_bool_decide.
  - rewrite first_some_None, Forall_forall in Hf. specialize (Hf e He). unfold f in Hf.
    rewrite Hc, bool_decide_eq_true_2 in Hf by done. done.
Qed.

Lemma file_child_unique d e e' c size dir' size' :
  e ∈ entries archive -> e' ∈ entries archive ->
  child_entry e d = Some (c, false, size) -> child_entry e' d = Some (c, dir', size') -> e = e'.
Proof.
  intros He He' (_ & [[Hn Hd]|[_ ?]] & _)%child_entry_spec; [|done|by apply entries_safe].
  intros (_ & Hn' & _)%child_entry_spec; [|by apply entries_safe].
  destruct (entries_compatible _ _ He He') as [?|(Hneq & Hb & _)]; [done|]. exfalso.
  destruct Hn' as [[Hn' _]|[Hn' _]]; [congruence|]. rewrite Hn in Hb. specialize (Hb Hn'). congruence.
Qed.

Lemma listing_files d c size :
  SLASH ∉ c ->
  (c, false, size) ∈ listing d [] (entries archive) <->
  exists contents, read_file mounted (join d c) = Ok (Some contents) /\
    size = Z.of_nat (length contents).
Proof.
  intros Hc. destruct (read_file_valid (join d c)) as (r & Hr & Hspec). rewrite Hr. split.
  - intros (l1 & e & l2 & Hl & He & _)%listing_elem.
    assert (e ∈ entries archive) as Hin by (rewrite Hl; apply elem_of_app; right; by left).
    apply child_entry_spec in He as (_ & [[Hn Hd]|[_ ?]] & ->); [|done|by apply entries_safe].
    exists (data e). split; [|done]. f_equal. apply Hspec. by exists e.
  - intros (contents & [= ->] & ->). destruct (proj1 (Hspec contents) eq_refl) as (e & He & Hd & Hn & <-).
    assert (child_entry e d = Some (c, false, Z.of_nat (length (data e)))) as Hce.
    { apply child_entry_spec; [by apply entries_safe|]. split; [done|]. split; [left|]; auto. }
    destruct (listing_child _ _ _ _ _ He Hce) as (e' & dir' & size' & He' & Hce' & Hin).
    rewrite <-(file_child_unique _ _ _ _ _ _ _ He He' Hce Hce'), Hce in Hce'. by simplify_eq.
Qed.

Lemma listing_directories d c size :
  SLASH ∉ c -> c <> [] ->
  (c, true, size) ∈ listing d [] (entries archive) <->
  size = 0 /\ directory_exists mounted (join d c) = Ok true.
Proof.
  intros Hc Hne. destruct (directory_exists_valid (join d c)) as (r & Hr & Hspec). rewrite Hr. split.
  - intros (l1 & e & l2 & Hl & He & _)%listing_elem.
    assert (e ∈ entries archive) as Hin by (rewrite Hl; apply elem_of_app; right; by left).
    apply child_entry_spec in He as (_ & Hn & ->); [|by apply entries_safe]. split; [done|].
    f_equal. apply Hspec. right. exists e. split; [done|].
    destruct Hn as [[? ?]|[? _]]; [left; split; congruence|by right].
  - intros [-> [= Ht]]. apply Hspec in Ht as [Hj|(e & He & Hn)].
    { destruct Hne. unfold join in Hj. case_bool_decide; [done|]. by destruct d. }
    assert (child_entry e d = Some (c, true, 0)) as Hce.
    { apply child_entry_spec; [by apply entries_safe|]. split; [done|]. split; [|done].
      destruct Hn as [[? ?]|?]; [left|right]; auto. }
    destruct (listing_child _ _ _ _ _ He Hce) as (e' & dir' & size' & He' & Hce' & Hin).
    destruct dir'.
    + apply child_entry_spec in Hce' as (_ & _ & ->); [done|by apply entries_safe].
    + rewrite (file_child_unique _ _ _ _ _ _ _ He' He Hce' Hce), Hce in Hce'. done.
Qed.

End lookups.

(** ** Properties *)

(** An archive for examples: a directory [docs], a file below it, and a file in a
    directory that has no entry of its own. *)
Fixpoint octal_digits (n : nat) (x : Z) : list Z :=
  match n with
  | O => []
  | S n => octal_digits n (x / 8) ++ [48 + x mod 8]
  end.

Definition pad (n : nat) (l : list Z) : list Z := l ++ replicate (n - length l) 0.

Definition example_header (nm : list Z) (kind size : Z) : list Z :=
  let fields sum :=
    pad 100 nm ++ replicate 24 0 ++ octal_digits 11 size ++ [0] ++ replicate 12 0 ++
    octal_digits 6 sum ++ [0; SPACE] ++ [kind] ++ replicate 100 0 ++
    [117; 115; 116; 97; 114; 0; 48; 48] ++ replicate 247 0 in
  fields (checksum (fields 0)).

Definition example_archive : list Z :=
  example_header [100; 111; 99; 115; SLASH] 53 0 ++
  example_header [100; 111; 99; 115; SLASH; 97] 48 3 ++ pad 512 [1; 2; 3] ++
  example_header [98; SLASH; 99] 48 2 ++ pad 512 [7; 8] ++
  replicate 1024 0.

(** C25: In an archive that passed validation, [read_file] never fails and returns
    the contents of exactly the regular file of that name: [Some d] for the data of
    the one file entry with the path, [None] if no file has it. *)
Theorem read_file_exact archive path :
  validate archive = Ok tt ->
  exists r, read_file (Some (Ok archive)) path = Ok r /\
    forall d, r = Some d <->
      exists e, e ∈ entries archive /\ is_dir e = false /\ name e = path /\ data e = d.
Proof. intros [z Hwf]%validate_parse. by apply read_file_valid with z. Qed.

Lemma read_file_exact_witness :
  validate example_archive = Ok tt /\
  read_file (Some (Ok example_archive)) [98; SLASH; 99] = Ok (Some [7; 8]) /\
  exists r, read_file (Some (Ok example_archive)) [98; SLASH; 99] = Ok r /\
    forall d, r = Some d <-> exists e, e ∈ entries example_archive /\ is_dir e = false /\
      name e = [98; SLASH; 99] /\ data e = d.
Proof.
  split; [vm_compute; reflexivity|]. split; [vm_compute; reflexivity|].
  apply (read_file_exact example_archive [98; SLASH; 99]). vm_compute. reflexivity.
Defined.

(** C24: A directory listing agrees with the look-ups: in a validated archive,
    [for_each_entry] on an existing directory reports each child once, a regular
    file with its size exactly when [read_file] finds the child's path with that
    many bytes, and a directory exactly when [directory_exists] answers for it,
    also for directories that have no entry of their own. *)
Theorem listing_exact archive d :
  validate archive = Ok tt -> directory_exists (Some (Ok archive)) d = Ok true ->
  exists l, for_each_entry (Some (Ok archive)) d [] = (l, Ok tt) /\ NoDup l.*1.*1 /\
    (forall c dir size, (c, dir, size) ∈ l -> SLASH ∉ c) /\
    (forall c size, SLASH ∉ c -> c <> [] ->
      ((c, false, size) ∈ l <->
       exists contents, read_file (Some (Ok archive)) (join d c) = Ok (Some contents) /\
         size = Z.of_nat (length contents)) /\
      ((c, true, size) ∈ l <->
       size = 0 /\ directory_exists (Some (Ok archive)) (join d c) = Ok true)).
Proof.
  intros [z Hwf]%validate_parse Hd. exists (listing d [] (entries archive)).
  split; [by rewrite (for_each_entry_valid _ _ Hwf)|]. split; [apply listing_nodup|]. split.
  - intros c dir size (l1 & e & l2 & Hl & He & _)%listing_elem.
    apply child_entry_spec in He as [? _]; [done|].
    apply (entries_safe archive). rewrite Hl. apply elem_of_app. right. by left.
  - intros c size Hc Hne. split; [by eapply listing_files|by eapply listing_directories].
Qed.

Lemma listing_exact_witness :
  for_each_entry (Some (Ok example_archive)) [] [] =
    ([([100; 111; 99; 115], true, 0); ([98], true, 0)], Ok tt) /\
  exists l, for_each_entry (Some (Ok example_archive)) [100; 111; 99; 115] [] = (l, Ok tt) /\
    NoDup l.*1.*1.
Proof.
  split; [vm_compute; reflexivity|].
  destruct (listing_exact example_archive [100; 111; 99; 115]) as (l & Hl & Hn & _).
  - vm_compute. reflexivity.
  - vm_compute. reflexivity.
  - exists l. split; [exact Hl|exact Hn].
Defined.
