(* ===== verification/TarFormat.v ===== *)
(** * The format of the boot archive

    What an archive is, field by field and apart from the code that reads it, and that
    [validate] of [Tar.v] accepts exactly the archives of this format. *)

From S2P Require Import Prelude Utf8 Tar.

Local Open Scope Z_scope.

(** ** The format *)

(** A number: blanks, octal digits, and nothing or a blank after them. *)
Definition blank_byte (b : Z) : Prop := b = 32 \/ b = 0.
Definition octal_digit (b : Z) : Prop := 48 <= b <= 55.
Definition octal_number (digits : list Z) : Z := foldl (fun v d => 8 * v + (d - 48)) 0 digits.
Definition octal_field (f : list Z) (v : Z) : Prop :=
  exists blanks digits rest, f = blanks ++ digits ++ rest /\ Forall blank_byte blanks /\ Forall octal_digit digits /\
    (rest = [] \/ digits <> [] /\ exists b r, rest = b :: r /\ blank_byte b) /\ v = octal_number digits.

(** A text: the bytes before the first zero. *)
Definition text_field (f text : list Z) : Prop :=
  (0 ∉ text) /\ (f = text \/ exists rest, f = text ++ 0 :: rest).

(** The sum of the bytes, with blanks for the field of the sum itself. *)
Definition header_sum (h : list Z) : Z := foldr Z.add 0 (take 148 h) + 8 * 32 + foldr Z.add 0 (drop 156 h).

(** Names of letters, digits, [.], [_] and [-], at most 100 of them, and paths of names. *)
Definition plain_byte (b : Z) : Prop :=
  48 <= b <= 57 \/ 65 <= b <= 90 \/ 97 <= b <= 122 \/ b = 46 \/ b = 95 \/ b = 45.
Definition plain_name (c : list Z) : Prop :=
  c <> [] /\ (length c <= 100)%nat /\ c <> [46] /\ c <> [46; 46] /\ Forall plain_byte c.
Fixpoint slashed (names : list (list Z)) : list Z :=
  match names with
  | [] => []
  | [c] => c
  | c :: names => c ++ 47 :: slashed names
  end.
Definition plain_path (path : list Z) : Prop := exists names, names <> [] /\ Forall plain_name names /\ path = slashed names.

(** The name of a header is its prefix and its name; that of a directory may end with a
    slash. *)
Definition header_path (h : list Z) (dir : bool) (path : list Z) : Prop :=
  exists prefix nm full, text_field (slice h 345 500) prefix /\ text_field (slice h 0 100) nm /\ nm <> [] /\
    full = (if bool_decide (prefix = []) then nm else prefix ++ 47 :: nm) /\ (length full <= 255)%nat /\
    (full = path \/ dir = true /\ full = path ++ [47]) /\ plain_path path.

(** A header of a file or a directory. *)
Record header_of (h : list Z) (path : list Z) (dir : bool) (size : Z) : Prop := mk_header_of {
  ho_sum : octal_field (slice h 148 156) (header_sum h);
  ho_magic : slice h 257 262 = [117; 115; 116; 97; 114];
  ho_kind : exists kind, h !! 156%nat = Some kind /\ if dir then kind = 53 else kind = 0 \/ kind = 48;
  ho_path : header_path h dir path;
  ho_size : octal_field (slice h 124 136) size;
  ho_dir : dir = true -> size = 0;
}.

(** The blocks data takes. *)
Definition padded (size : nat) : nat := ((size + 511) / 512 * 512)%nat.

(** The entries from an offset on: a header, the data and its padding, up to a block of
    zeros. *)
Inductive holds_entries (archive : list Z) : nat -> list (list Z * bool * list Z) -> nat -> Prop :=
| holds_end o : (o + 512 <= length archive)%nat -> Forall (eq 0) (slice archive o (o + 512)) -> holds_entries archive o [] o
| holds_entry o path dir data l end_ :
    (o + 512 + padded (length data) <= length archive)%nat ->
    header_of (slice archive o (o + 512)) path dir (Z.of_nat (length data)) ->
    data = slice archive (o + 512) (o + 512 + length data) ->
    holds_entries archive (o + 512 + padded (length data)) l end_ ->
    holds_entries archive o ((path, dir, data) :: l) end_.

(** An archive and its entries: whole blocks, not too many, and zeros after the last entry;
    no name is there twice, and only directories are above other entries. *)
Record tar_archive (archive : list Z) (l : list (list Z * bool * list Z)) : Prop := mk_tar_archive {
  ta_size : archive <> [] /\ Z.of_nat (length archive) <= 16 * 1024 * 1024 /\ Z.of_nat (length archive) mod 512 = 0;
  ta_entries : exists end_, holds_entries archive 0 l end_ /\ Forall (eq 0) (drop end_ archive);
  ta_count : (length l <= 256)%nat;
  ta_names : forall i j path dir data path' dir' data', l !! i = Some (path, dir, data) -> l !! j = Some (path', dir', data') ->
    i <> j -> path <> path' /\ ((exists rest, path' = path ++ 47 :: rest) -> dir = true);
}.

(** ** Fields *)

Lemma octal_loop_digits digits rest v started : Forall octal_digit digits -> 0 <= v -> (length digits <= 12)%nat ->
  (v + 1) * 8 ^ Z.of_nat (length digits) <= 2 ^ 40 ->
  octal_loop v started (digits ++ rest) =
  octal_loop (foldl (fun v d => 8 * v + (d - 48)) v digits) (bool_decide (digits <> []) || started) rest.
Proof.
  intros Hd. revert v started. induction Hd as [|d digits Hd Hds IH]; intros v started Hv Hl Hb; [done|].
  cbn [length] in Hl, Hb. rewrite Nat2Z.inj_succ, Z.pow_succ_r in Hb by lia.
  assert (0 < 8 ^ Z.of_nat (length digits)) as Hpos by (apply Z.pow_pos_nonneg; lia).
  cbn [app octal_loop foldl]. unfold octal_digit in Hd.
  assert (blank d = false) as -> by (unfold blank; lia). assert (in_range 48 55 d = true) as -> by (unfold in_range; lia). cbn [andb].
  assert (v * 8 < u64_limit) as H8 by nia.
  assert (v * 8 + (d - 48) < u64_limit) as H9 by nia.
  unfold checked_mul at 1. rewrite (proj2 (Z.ltb_lt _ _) H8). cbn [mbind option_bind].
  unfold checked_add at 1. rewrite (proj2 (Z.ltb_lt _ _) H9). cbn [mbind option_bind].
  rewrite IH; [|lia|lia|nia]. f_equal; [f_equal; lia|]. by destruct (bool_decide (digits <> [])).
Qed.

(** A list up to the first element that fails a test. *)
Lemma span_prefix {A} (p : A -> bool) (l : list A) :
  exists a b, l = a ++ b /\ Forall (fun x => p x = true) a /\ (b = [] \/ exists x r, b = x :: r /\ p x = false).
Proof.
  induction l as [|x l (a & b & -> & Ha & Hb)]; [exists [], []; auto|].
  destruct (p x) eqn:Hx; [exists (x :: a), b; auto|]. exists [], (x :: a ++ b). split_and!; [done|done|]. right. by eexists _, _.
Qed.

Lemma octal_loop_blanks blanks rest : Forall blank_byte blanks -> octal_loop 0 false (blanks ++ rest) = octal_loop 0 false rest.
Proof.
  induction 1 as [|b blanks Hb _ IH]; [done|]. cbn [app octal_loop]. assert (blank b = true) as -> by (unfold blank, blank_byte in *; lia).
  exact IH.
Qed.

Lemma blank_iff b : blank b = true <-> blank_byte b.
Proof. unfold blank, blank_byte. lia. Qed.

Lemma octal_iff f v : (length f <= 12)%nat -> octal f = Some v <-> octal_field f v.
Proof.
  intros Hl. unfold octal. split.
  - destruct (span_prefix blank f) as (blanks & g & -> & Hblanks & Hg). destruct (span_prefix (in_range 48 55) g) as (digits & rest & -> & Hdigits & Hrest).
    rewrite !length_app in Hl.
    assert (Forall blank_byte blanks) as Hb by (eapply Forall_impl; [exact Hblanks|]; intros; by apply blank_iff).
    assert (Forall octal_digit digits) as Hd by (eapply Forall_impl; [exact Hdigits|]; intros x; unfold in_range, octal_digit; lia).
    assert (8 ^ Z.of_nat (length digits) <= 8 ^ 12) as Hpow by (apply Z.pow_le_mono_r; lia).
    rewrite octal_loop_blanks, octal_loop_digits by (done || lia). fold (octal_number digits). rewrite orb_false_r.
    intros Hv. exists blanks, digits, rest. split_and!; [done..| |].
    + destruct Hrest as [->|(x & r & -> & Hx)]; [by left|]. right. cbn [octal_loop] in Hv. rewrite Hx in Hv.
      destruct (blank x) eqn:Hbx; cbn in Hv; [|done]. destruct (decide (digits = [])) as [->|Hne].
      * destruct Hg as [?|(y & q & Hy & Hyb)]; [done|]. cbn in Hy. injection Hy as <- <-. congruence.
      * split; [done|]. exists x, r. split; [done|]. by apply blank_iff.
    + destruct Hrest as [->|(x & r & -> & Hx)]; cbn [octal_loop] in Hv; [by injection Hv|]. rewrite Hx in Hv.
      destruct (blank x) eqn:Hbx; cbn in Hv; [|done]. destruct (decide (digits = [])) as [->|Hne].
      * destruct Hg as [?|(y & q & Hy & Hyb)]; [done|]. cbn in Hy. injection Hy as <- <-. congruence.
      * rewrite bool_decide_eq_true_2 in Hv by done. by injection Hv.
  - intros (blanks & digits & rest & -> & Hb & Hd & Hrest & ->). rewrite !length_app in Hl.
    assert (8 ^ Z.of_nat (length digits) <= 8 ^ 12) as Hpow by (apply Z.pow_le_mono_r; lia).
    rewrite octal_loop_blanks, octal_loop_digits by (done || lia). fold (octal_number digits). rewrite orb_false_r.
    destruct Hrest as [->|(Hne & b & r & -> & Hbl)]; [done|]. cbn [octal_loop]. rewrite bool_decide_eq_true_2 by done.
    assert (in_range 48 55 b = false) as -> by (unfold in_range, blank_byte in *; lia). by rewrite (proj2 (blank_iff b) Hbl).
Qed.

Lemma field_iff f text : field f = text <-> text_field f text.
Proof.
  unfold field, text_field. split.
  - intros <-. destruct (position (Z.eqb 0) f) as [i|] eqn:Hi; cbn.
    + apply position_Some in Hi as (x & Hx & Hx0 & Hbefore). split.
      * intros (j & Hj)%list_elem_of_lookup. apply lookup_take_Some in Hj as [Hj Hlt]. by specialize (Hbefore j 0 Hlt Hj).
      * right. exists (drop (S i) f). apply Z.eqb_eq in Hx0 as <-. symmetry. by apply take_drop_middle.
    + rewrite take_ge by done. split; [|by left]. intros (j & Hj)%list_elem_of_lookup.
      by pose proof (proj1 (position_None _ _) Hi j 0 Hj).
  - intros [Hnot Hf]. assert (Forall (fun x => (0 =? x) = false) text) as Hall.
    { apply Forall_forall. intros x Hx. apply Z.eqb_neq. by intros <-. }
    destruct Hf as [->|[rest ->]]; [rewrite position_none by done; by rewrite take_ge|].
    rewrite position_app by done. apply take_app_length.
Qed.

Lemma imap_sum (g : nat -> Z -> Z) l : (forall i x, l !! i = Some x -> g i x = x) -> imap g l = l.
Proof.
  intros Hg. apply list_eq. intros i. rewrite list_lookup_imap. destruct (l !! i) as [x|] eqn:Hi; [|done]. cbn. by rewrite (Hg i).
Qed.

Lemma foldr_add_app l k : foldr Z.add 0 (l ++ k) = foldr Z.add 0 l + foldr Z.add 0 k.
Proof. induction l as [|x l IH]; [done|]. cbn. rewrite IH. lia. Qed.

Lemma checksum_sum h : length h = 512%nat -> checksum h = header_sum h.
Proof.
  intros Hl. unfold checksum, header_sum. rewrite <- (take_drop 148 h) at 1. rewrite <- (take_drop 8 (drop 148 h)) at 1.
  rewrite drop_drop, !imap_app, !foldr_add_app, !length_take, !length_drop, Hl. cbn [Nat.min Nat.sub Nat.add].
  rewrite imap_sum; [|intros i x Hi%lookup_lt_Some; rewrite length_take in Hi; destruct (Nat.leb_spec 148 i); [lia|done]].
  rewrite (imap_sum _ (drop 156 h)).
  2: { intros i x _. unfold compose. destruct (Nat.ltb_spec (148 + (8 + i)) 156); [lia|]. by rewrite andb_false_r. }
  assert (forall g : nat -> Z -> Z, (forall i x, (i < 8)%nat -> g i x = 32) -> imap g (take 8 (drop 148 h)) = replicate 8 32) as Hmid.
  { intros g Hg. apply list_eq. intros i. rewrite list_lookup_imap. destruct (decide (i < 8)%nat) as [Hi|Hi].
    - rewrite lookup_take_lt, lookup_drop by done. destruct (lookup_lt_is_Some_2 h (148 + i)) as [x Hx]; [lia|]. rewrite Hx, lookup_replicate_2 by done. cbn. by rewrite Hg.
    - rewrite lookup_take_ge by lia. symmetry. apply lookup_ge_None_2. rewrite length_replicate. lia. }
  rewrite Hmid; [change (foldr Z.add 0 (replicate 8 32)) with 256; lia|]. intros i x Hi. unfold compose. by rewrite (proj2 (Nat.leb_le _ _)), (proj2 (Nat.ltb_lt _ _)) by lia.
Qed.

(** ** Paths *)

Lemma path_byte_iff b : path_byte b = true <-> plain_byte b.
Proof. unfold path_byte, plain_byte, in_range. lia. Qed.

Lemma component_iff c : safe_component c = true <-> plain_name c.
Proof.
  unfold safe_component, plain_name, MAX_COMPONENT_LEN. rewrite !andb_true_iff, !negb_true_iff, !bool_decide_eq_false, Nat.leb_le, forallb_forall, Forall_forall.
  setoid_rewrite list_elem_of_In. setoid_rewrite path_byte_iff. tauto.
Qed.

Lemma slashed_split path : slashed (split_path path) = path /\ split_path path <> [].
Proof.
  induction path as [|x path [IH Hne]]; [done|]. cbn [split_path]. destruct (Z.eqb_spec x 47) as [->|Hx].
  - split; [|done]. destruct (split_path path) as [|c l]; [done|]. cbn in *. by rewrite IH.
  - destruct (split_path path) as [|c l]; [done|]. split; [|done]. cbn in *. destruct l; by rewrite <- IH.
Qed.

Lemma plain_no_slash c : plain_name c -> 47 ∉ c.
Proof. intros (_ & _ & _ & _ & Hc) Hin. pose proof (proj1 (Forall_forall _ _) Hc _ Hin) as Hb. unfold plain_byte in Hb. lia. Qed.

Lemma split_slashed names : names <> [] -> Forall plain_name names -> split_path (slashed names) = names.
Proof.
  intros Hne Hall. induction Hall as [|c names Hc Hall IH]; [done|]. destruct names as [|c' names].
  - by apply split_path_no_slash, plain_no_slash.
  - cbn [slashed] in *. rewrite split_path_app, IH by done. by rewrite split_path_no_slash by (by apply plain_no_slash).
Qed.

Lemma path_iff path : safe_path path false = true <-> plain_path path.
Proof.
  rewrite safe_path_split, forallb_forall. unfold plain_path. destruct (slashed_split path) as [Hs Hne]. split.
  - intros Hall. exists (split_path path). split_and!; [done| |done]. apply Forall_forall. intros c Hc. apply component_iff, Hall. by apply list_elem_of_In.
  - intros (names & Hn & Hall & ->) c Hc. rewrite split_slashed in Hc by done. apply component_iff.
    by apply (proj1 (Forall_forall _ _) Hall), list_elem_of_In.
Qed.

Lemma plain_path_end path : plain_path path -> last path <> Some 47.
Proof.
  intros (names & Hne & Hall & ->). induction Hall as [|c names Hc Hall IH]; [done|]. destruct names as [|c' names].
  - cbn. intros Hin%last_Some_elem_of. by apply (plain_no_slash c).
  - change (slashed (c :: c' :: names)) with (c ++ 47 :: slashed (c' :: names)). rewrite last_app, last_cons.
    destruct (last (slashed (c' :: names))) as [x|] eqn:Hlast; [by apply IH|].
    exfalso. apply last_None in Hlast. inversion_clear Hall as [|? ? Hc' _]. destruct Hc' as [Hc' _]. by destruct c', names.
Qed.

(** ** Headers *)

Lemma length_header_name h a b : length h = 512%nat -> (a <= b <= 512)%nat -> (length (field (slice h a b)) <= b - a)%nat.
Proof. intros Hl Hab. etrans; [apply length_field|]. rewrite length_slice; lia. Qed.

(** [header_name] on the texts of the header. *)
Lemma header_name_eval h dir : length h = 512%nat ->
  let nm := field (slice h 0 100) in
  let full := join (field (slice h 345 500)) nm in
  if bool_decide (nm <> [] /\ (length full <= 255)%nat)
  then exists buffer, take (length full) buffer = full /\
    header_name h dir =
      (len ← (if bool_decide (last full = Some 47) then if dir then Ok (length full - 1)%nat else Err InvalidArchive
              else Ok (length full));
       _ ← ensure (safe_path (take len buffer) false);
       Ok (buffer, len))
  else header_name h dir = Err InvalidArchive.
Proof.
  intros Hl nm full. unfold header_name. rewrite !index_range_in by lia. cbn [mbind outcome_bind].
  change (Z.to_nat 0) with 0%nat. change (Z.to_nat 100) with 100%nat. change (Z.to_nat 345) with 345%nat. change (Z.to_nat 500) with 500%nat.
  pose proof (length_header_name h 0 100 Hl ltac:(lia)) as Hnm. pose proof (length_header_name h 345 500 Hl ltac:(lia)) as Hpre.
  fold nm in Hnm |- *. revert full Hpre. generalize (field (slice h 345 500)). intros prefix full Hpre.
  assert (length full = (if bool_decide (prefix = []) then 0 else length prefix + 1) + length nm)%nat as Hfull by apply length_join.
  destruct (decide (nm = [])) as [Hn|Hn]; [rewrite bool_decide_eq_false_2 by tauto; by rewrite Hn|].
  rewrite (bool_decide_eq_false_2 (nm = [])) by done. cbn [negb ensure mbind outcome_bind].
  assert (0 < length nm)%nat as Hpos by (destruct nm; [done|cbn; lia]).
  unfold checked_add. rewrite (proj2 (Z.ltb_lt _ _)) by (case_bool_decide; lia). cbn [ok_or mbind outcome_bind].
  rewrite (proj2 (Z.ltb_lt _ _)) by (case_bool_decide; lia). cbn [ok_or mbind outcome_bind].
  assert (Z.of_nat (length prefix) + (if bool_decide (prefix = []) then 0 else 1) + Z.of_nat (length nm) = Z.of_nat (length full)) as ->
    by (rewrite Hfull; case_bool_decide; [subst; cbn|]; lia).
  destruct (decide (length full <= 255)%nat) as [H255|H255].
  2: { rewrite bool_decide_eq_false_2 by tauto. destruct (Z.leb_spec (Z.of_nat (length full)) (Z.of_nat 255)); [lia|done]. }
  rewrite bool_decide_eq_true_2 by done. destruct (Z.leb_spec (Z.of_nat (length full)) (Z.of_nat 255)); [|lia]. cbn [ensure mbind outcome_bind].
  destruct (build_name_ok prefix nm) as (buffer & Hb & Ht & Hlen); [case_bool_decide; [right; split; [done|lia]|left; lia]|].
  exists buffer. split; [exact Ht|]. rewrite Hb. cbn [mbind outcome_bind]. fold full in Ht |- *.
  assert (buffer !! (length full - 1)%nat = last full) as ->.
  { transitivity (take (length full) buffer !! (length full - 1)%nat); [symmetry; apply lookup_take_lt; lia|]. rewrite Ht, last_lookup. f_equal. lia. }
  destruct (last full) as [x|] eqn:Hlast; [|apply last_None in Hlast; rewrite Hlast in Hfull; cbn in Hfull; lia].
  cbn [expect mbind outcome_bind]. destruct (Z.eqb_spec x 47) as [->|Hx].
  - by rewrite bool_decide_eq_true_2.
  - rewrite bool_decide_eq_false_2 by congruence. done.
Qed.

Lemma take_last (l : list Z) x : last l = Some x -> l = take (length l - 1) l ++ [x].
Proof.
  intros [k ->]%last_Some. rewrite length_app. cbn [length]. by rewrite Nat.add_sub, take_app_length.
Qed.

Lemma header_name_iff h dir path : length h = 512%nat ->
  (exists buffer n, header_name h dir = Ok (buffer, n) /\ take n buffer = path) <-> header_path h dir path.
Proof.
  intros Hl. pose proof (header_name_eval h dir Hl) as He. cbn zeta in He.
  set (nm := field (slice h 0 100)) in *. set (prefix := field (slice h 345 500)) in *. set (full := join prefix nm) in *.
  assert (header_path h dir path <-> nm <> [] /\ (length full <= 255)%nat /\ (full = path \/ dir = true /\ full = path ++ [47]) /\ plain_path path) as ->.
  { unfold header_path. split.
    - intros (p & n & f & Hp & Hn & H). apply field_iff in Hp as <-, Hn as <-. destruct H as (? & -> & H). done.
    - intros (? & ? & ? & ?). exists prefix, nm, full. split_and!; try done; by apply field_iff. }
  destruct (bool_decide_reflect (nm <> [] /\ (length full <= 255)%nat)) as [[Hnm H255]|Hno].
  2: { rewrite He. split; [by intros (? & ? & ? & _)|tauto]. }
  destruct He as (buffer & Hb & ->). assert (forall n, (n <= length full)%nat -> take n buffer = take n full) as Htake.
  { intros n Hn. rewrite <- Hb, take_take. f_equal. lia. }
  destruct (bool_decide_reflect (last full = Some 47)) as [Hlast|Hlast].
  - assert (full <> path \/ ~ plain_path path) as Hcase.
    { destruct (decide (full = path)) as [->|]; [right; by intros ?%plain_path_end|by left]. }
    pose proof (take_last _ _ Hlast) as Hcut. destruct dir.
    + cbn [mbind outcome_bind]. rewrite Htake by lia. split.
      * intros (b & n & E1 & <-). destruct (safe_path _ false) eqn:Hs; [|done]. cbn in E1. injection E1 as <- <-.
        rewrite Htake by lia. split_and!; [done..|right; done|by apply path_iff].
      * intros (_ & _ & [Hf|[_ Hf]] & Hp); [exfalso; tauto|]. assert (take (length full - 1) full = path) as Hpath.
        { rewrite Hf, length_app. cbn [length]. by rewrite Nat.add_sub, take_app_length. }
        rewrite Hpath, (proj2 (path_iff path) Hp). cbn. exists buffer, (length full - 1)%nat. split; [done|]. by rewrite Htake by lia.
    + split; [by intros (? & ? & ? & _)|]. intros (_ & _ & [Hf|[? _]] & Hp); [exfalso; tauto|done].
  - cbn [mbind outcome_bind]. rewrite Hb. split.
    + intros (b & n & E1 & <-). destruct (safe_path full false) eqn:Hs; [|done]. cbn in E1. injection E1 as <- <-.
      rewrite Hb. split_and!; [done..|by left|by apply path_iff].
    + intros (_ & _ & [->|[_ Hf]] & Hp); [|exfalso; apply Hlast; by rewrite Hf, last_snoc].
      rewrite (proj2 (path_iff path) Hp). cbn. by exists buffer, (length path).
Qed.

Lemma kind_iff h dir : header_type h = Ok dir <-> exists kind, h !! 156%nat = Some kind /\ if dir then kind = 53 else kind = 0 \/ kind = 48.
Proof.
  unfold header_type. destruct (h !! 156%nat) as [kind|]; cbn; [|split; [done|by intros (? & ? & _)]].
  split.
  - intros E1. exists kind. split; [done|]. destruct ((kind =? 0) || (kind =? 48)) eqn:Hk; [injection E1 as <-; lia|].
    destruct (Z.eqb_spec kind 53) as [->|]; [by injection E1 as <-|done].
  - intros (k & [= <-] & Hk). destruct dir; [by subst|]. by destruct Hk as [-> | ->].
Qed.

Lemma index_header {E} h (a b : nat) : length h = 512%nat -> (a <= b <= 512)%nat ->
  index_range (E := E) h (Z.of_nat a) (Z.of_nat b) = Ok (slice h a b).
Proof. intros Hl Hab. rewrite index_range_in by lia. by rewrite !Nat2Z.id. Qed.

Lemma length_octal_field (h : list Z) a b : length h = 512%nat -> (a <= b <= 512)%nat -> (b - a <= 12)%nat -> (length (slice h a b) <= 12)%nat.
Proof. intros. rewrite length_slice; lia. Qed.

(** What [entry_at] makes of a header is what the format says of it. *)
Lemma entry_sound archive o e : entry_at archive (Z.of_nat o) = Ok (Some e) ->
  header_of (slice archive o (o + 512)) (name e) (is_dir e) (Z.of_nat (length (data e))).
Proof.
  intros H. unfold entry_at in H. ok_inv H.
  apply ok_or_Ok_inv, checked_add_Some in Ha as [-> _]. apply ok_or_Ok_inv in Ha0.
  assert (length a0 = 512%nat) as Hlen by (apply get_range_length in Ha0; lia). apply get_range_Some in Ha0 as (_ & _ & Hh).
  replace (Z.to_nat (Z.of_nat o + 512)) with (o + 512)%nat in Hh by lia. rewrite Nat2Z.id in Hh. rewrite <- Hh. clear Hh.
  case_match; [done|]. ok_inv H. simplify_eq. cbn [is_dir data].
  rewrite (index_header a0 148 156) in Ha by (done || lia). injection Ha as <-. apply ok_or_Ok_inv, octal_iff in Ha0; [|by apply length_octal_field; lia].
  rewrite (index_header a0 257 262) in Ha1 by (done || lia). injection Ha1 as <-. apply ensure_Ok, andb_prop in Ha2 as [Hsum Hmagic].
  rewrite (index_header a0 124 136) in Ha5 by (done || lia). injection Ha5 as <-. apply ok_or_Ok_inv, octal_iff in Ha6; [|by apply length_octal_field; lia].
  apply ok_or_Ok_inv, checked_add_Some in Ha9 as [-> _]. apply ok_or_Ok_inv, get_range_length in Ha11. apply ensure_Ok in Ha7.
  assert (Z.of_nat (length a11) = a6) as -> by lia.
  constructor; [|by apply bool_decide_eq_true in Hmagic|by apply kind_iff| |done|].
  - apply Z.eqb_eq in Hsum. by rewrite <- checksum_sum, Hsum.
  - apply header_name_iff; [done|]. by eexists _, _.
  - intros ->. cbn in Ha7. by destruct (Z.eqb_spec a6 0).
Qed.

(** An entry, as the format has it. *)
Definition shown (e : TarEntry) : list Z * bool * list Z := (name e, is_dir e, data e).

Lemma magic_not_zero h : slice h 257 262 = [117; 115; 116; 97; 114] -> forallb (Z.eqb 0) h = false.
Proof.
  intros Hm. apply not_true_iff_false. rewrite all_zero, Forall_lookup. intros Hz.
  assert (h !! 257%nat = Some 117) as H257; [|by specialize (Hz _ _ H257)].
  apply (f_equal (lookup 0%nat)) in Hm. unfold slice in Hm. rewrite lookup_take_lt, lookup_drop in Hm by lia. exact Hm.
Qed.

Lemma Z_padded n : (Z.of_nat n + (512 - 1)) / 512 * 512 = Z.of_nat (padded n).
Proof. unfold padded. rewrite Nat2Z.inj_mul, Nat2Z.inj_div. f_equal. f_equal. lia. Qed.

Lemma checked_add_fits limit x y : x + y < limit -> checked_add limit x y = Some (x + y).
Proof. intros. by apply checked_add_Some. Qed.

Lemma entry_complete archive o path dir data : Z.of_nat (length archive) <= MAX_ARCHIVE_SIZE ->
  (o + 512 + padded (length data) <= length archive)%nat ->
  header_of (slice archive o (o + 512)) path dir (Z.of_nat (length data)) ->
  data = slice archive (o + 512) (o + 512 + length data) ->
  exists e, entry_at archive (Z.of_nat o) = Ok (Some e) /\ shown e = (path, dir, data) /\
    next_offset e = Z.of_nat (o + 512 + padded (length data)).
Proof.
  unfold MAX_ARCHIVE_SIZE. intros Hsize Hin Hh Hdata. assert (length data <= padded (length data))%nat as Hpad.
  { pose proof (Z_padded (length data)) as Hp. pose proof (Z.div_mod (Z.of_nat (length data) + 511) 512 ltac:(lia)).
    pose proof (Z.mod_pos_bound (Z.of_nat (length data) + 511) 512 ltac:(lia)). replace (512 - 1) with 511 in Hp by lia. lia. }
  assert (length (slice archive o (o + 512)) = 512%nat) as Hlen by (rewrite length_slice; lia).
  destruct Hh as [Hsum Hmagic Hkind Hpath Hsz Hdir]. apply header_name_iff in Hpath as (buffer & n & Hname & Htake); [|done].
  apply octal_iff in Hsum, Hsz; [|by apply length_octal_field; lia..]. apply kind_iff in Hkind.
  exists (mk_entry buffer n data (Z.of_nat (o + 512 + padded (length data))) dir). split; [|split; [|done]].
  - unfold entry_at. rewrite checked_add_fits by lia. cbn [ok_or mbind outcome_bind].
    rewrite (proj2 (get_range_Some archive (Z.of_nat o) (Z.of_nat o + 512) (slice archive o (o + 512)))).
    2: { split_and!; [lia|lia|lia|]. f_equal; lia. }
    cbn [ok_or mbind outcome_bind]. rewrite magic_not_zero by done. rewrite (index_header _ 148 156) by (done || lia). cbn [mbind outcome_bind].
    rewrite Hsum. cbn [ok_or mbind outcome_bind]. rewrite (index_header _ 257 262) by (done || lia). cbn [mbind outcome_bind].
    rewrite checksum_sum, Z.eqb_refl, bool_decide_eq_true_2 by done. cbn [andb ensure mbind outcome_bind]. rewrite Hkind. cbn [mbind outcome_bind].
    rewrite Hname. cbn [mbind outcome_bind]. rewrite (index_header _ 124 136) by (done || lia). cbn [mbind outcome_bind]. rewrite Hsz.
    cbn [ok_or mbind outcome_bind]. assert (negb (dir && negb (Z.of_nat (length data) =? 0)) = true) as ->.
    { destruct dir; [|done]. by rewrite Hdir. }
    cbn [ensure mbind outcome_bind]. rewrite checked_add_fits by lia. cbn [ok_or mbind outcome_bind].
    rewrite checked_add_fits by lia. cbn [ok_or mbind outcome_bind]. rewrite Z_padded, checked_add_fits by lia. cbn [ok_or mbind outcome_bind].
    rewrite (proj2 (get_range_Some archive (Z.of_nat o + 512) (Z.of_nat o + 512 + Z.of_nat (length data)) data)).
    2: { split_and!; [lia|lia|lia|]. rewrite Hdata at 1. f_equal; lia. }
    cbn [ok_or mbind outcome_bind]. rewrite (proj2 (Z.leb_le _ _)) by lia. cbn. do 2 f_equal. f_equal. lia.
  - unfold shown, name. cbn. by rewrite Htake.
Qed.

(** ** Archives *)

Lemma entry_none_iff archive o : entry_at archive (Z.of_nat o) = Ok None <->
  (o + 512 <= length archive)%nat /\ Forall (eq 0) (slice archive o (o + 512)) /\ Z.of_nat o + 512 < u64_limit.
Proof.
  split.
  - unfold entry_at. intros E1. ok_inv E1. apply ok_or_Ok_inv, checked_add_Some in Ha as [-> Hlim].
    apply ok_or_Ok_inv, get_range_Some in Ha0 as (_ & Hin & ->). case_match eqn:Hz; [|by ok_inv E1; simplify_eq].
    apply all_zero in Hz. rewrite Nat2Z.id in Hz. replace (Z.to_nat (Z.of_nat o + 512)) with (o + 512)%nat in Hz by lia.
    split_and!; [lia| |done]. eapply Forall_impl; [exact Hz|]. by intros x ->.
  - intros (Hin & Hz & Hlim). unfold entry_at. rewrite checked_add_fits by done. cbn [ok_or mbind outcome_bind].
    rewrite (proj2 (get_range_Some archive (Z.of_nat o) (Z.of_nat o + 512) (slice archive o (o + 512)))).
    2: { split_and!; [lia|lia|lia|]. f_equal; lia. }
    cbn [ok_or mbind outcome_bind]. assert (forallb (Z.eqb 0) (slice archive o (o + 512)) = true) as ->; [|done].
    apply all_zero. eapply Forall_impl; [exact Hz|]. by intros x <-.
Qed.

Lemma parse_sound fuel archive o l z : parse_from fuel archive (Z.of_nat o) = (l, Ok z) ->
  holds_entries archive o (shown <$> l.*2) (Z.to_nat z).
Proof.
  revert o l. induction fuel as [|fuel IH]; intros o l; cbn [parse_from]; [done|].
  destruct (entry_at archive (Z.of_nat o)) as [[e|]|e|] eqn:He; [| |done..].
  - destruct (entry_at_ok _ _ _ He) as [_ [_ Hdata Hnext Hin _]]. pose proof (entry_sound _ _ _ He) as Hh.
    rewrite Nat2Z.id in Hdata.
    assert (next_offset e = Z.of_nat (o + 512 + padded (length (data e)))) as Hn.
    { rewrite Hnext, !Nat2Z.inj_add, <- Z_padded. do 3 f_equal; lia. }
    rewrite Hn. destruct (parse_from fuel archive _) as [l' r] eqn:Hp. intros [= <- ->]. cbn.
    apply holds_entry; [lia|done|done|]. by apply IH.
  - intros [= <- <-]. rewrite Nat2Z.id. apply entry_none_iff in He as (? & ? & _). by constructor.
Qed.

Lemma parse_complete fuel archive o l end_ : Z.of_nat (length archive) <= MAX_ARCHIVE_SIZE -> holds_entries archive o l end_ ->
  (length archive < o + fuel)%nat ->
  exists p, parse_from fuel archive (Z.of_nat o) = (p, Ok (Z.of_nat end_)) /\ shown <$> p.*2 = l.
Proof.
  intros Hsize Hl. revert fuel. induction Hl as [o Hin Hz|o path dir data l end_ Hin Hh Hdata Hl IH]; intros fuel Hfuel;
    (destruct fuel as [|fuel]; [lia|]); cbn [parse_from].
  - unfold MAX_ARCHIVE_SIZE in Hsize. rewrite (proj2 (entry_none_iff archive o)) by (split_and!; [done..|lia]). by exists [].
  - destruct (entry_complete archive o path dir data Hsize Hin Hh Hdata) as (e & -> & He & ->).
    destruct (IH fuel) as (p & -> & Hp); [lia|]. exists ((Z.of_nat o, e) :: p). cbn. by rewrite He, Hp.
Qed.

(** No two entries are in conflict, in terms of their names. *)
Lemma compatible_iff (l : list TarEntry) :
  (forall i j e f, l !! i = Some e -> l !! j = Some f -> (i < j)%nat -> conflict e f = false) <->
  (forall i j path dir data path' dir' data', (shown <$> l) !! i = Some (path, dir, data) -> (shown <$> l) !! j = Some (path', dir', data') ->
    i <> j -> path <> path' /\ ((exists rest, path' = path ++ 47 :: rest) -> dir = true)).
Proof.
  split.
  - intros Hc i j path dir data path' dir' data' Hi Hj Hne. apply list_lookup_fmap_Some in Hi as (e & [= -> -> ->] & Hi).
    apply list_lookup_fmap_Some in Hj as (f & [= -> -> ->] & Hj). destruct (decide (i < j)%nat) as [Hlt|Hge].
    + specialize (Hc i j e f Hi Hj Hlt). apply conflict_false in Hc as (Hn & Hb & _). done.
    + specialize (Hc j i f e Hj Hi ltac:(lia)). apply conflict_false in Hc as (Hn & _ & Hb). split; [congruence|done].
  - intros Hn i j e f Hi Hj Hlt. apply conflict_false.
    assert ((shown <$> l) !! i = Some (name e, is_dir e, data e)) as Hi' by (by rewrite list_lookup_fmap, Hi).
    assert ((shown <$> l) !! j = Some (name f, is_dir f, data f)) as Hj' by (by rewrite list_lookup_fmap, Hj).
    destruct (Hn i j _ _ _ _ _ _ Hi' Hj' ltac:(lia)) as [H1 H2]. destruct (Hn j i _ _ _ _ _ _ Hj' Hi' ltac:(lia)) as [_ H3]. done.
Qed.

Lemma accepted_archive archive z : accepted archive z -> tar_archive archive (shown <$> entries archive).
Proof.
  intros [Hsize Hend Hcount Hconflict Hzero]. constructor; [done| | |by apply compatible_iff].
  - exists (Z.to_nat z). split; [|eapply Forall_impl; [exact Hzero|]; by intros x ->]. unfold entries, parse in *.
    apply (parse_sound (length archive + 1)). rewrite (surjective_pairing (parse_from _ _ _)). f_equal. exact Hend.
  - rewrite length_fmap. unfold MAX_FILES in Hcount. lia.
Qed.

Lemma archive_accepted archive l : tar_archive archive l -> l = (shown <$> entries archive) /\ exists z, accepted archive z.
Proof.
  intros [Hsize (end_ & Hl & Hzero) Hcount Hnames]. destruct Hsize as (Hne & Hmax & Hmod).
  destruct (parse_complete (length archive + 1) archive 0 l end_ Hmax Hl ltac:(lia)) as (p & Hp & Hshown). change (Z.of_nat 0) with 0 in Hp.
  assert (entries archive = p.*2) as He by (unfold entries, parse; by rewrite Hp). rewrite He. split; [done|]. exists (Z.of_nat end_).
  constructor; [done|unfold parse; by rewrite Hp|rewrite He; unfold MAX_FILES; rewrite <- Hshown, length_fmap in Hcount; lia| |].
  - rewrite He. apply compatible_iff. by rewrite Hshown.
  - rewrite Nat2Z.id. eapply Forall_impl; [exact Hzero|]. by intros x <-.
Qed.

(** C23: The validation of the boot archive is total and exact: it panics on no archive, and it
    accepts exactly the archives of the format, as it is written down above apart from the
    code: whole blocks within the size limit; headers with their sum, magic, kind, plain
    relative path and size, followed by data that lies inside the archive, up to zeros; at
    most 256 entries, no two of the same name and no file above another entry.  The entries
    are then those the format says. *)
Theorem validate_exact archive :
  validate archive <> Panic /\
  (validate archive = Ok tt <-> exists l, tar_archive archive l) /\
  (forall l, tar_archive archive l -> l = (shown <$> entries archive)).
Proof.
  destruct (validate_parse archive) as [Hp Hok]. split_and!; [done| |by intros l []%archive_accepted]. rewrite Hok. split.
  - intros [z Hz]. eexists. by eapply accepted_archive.
  - by intros [l [_ ?]%archive_accepted].
Qed.

(** The example archive is one, with its three entries. *)
Lemma example_archive_format : tar_archive example_archive
  [([100; 111; 99; 115], true, []); ([100; 111; 99; 115; 47; 97], false, [1; 2; 3]); ([98; 47; 99], false, [7; 8])].
Proof.
  assert (validate example_archive = Ok tt) as Hv by (by vm_compute). apply validate_parse in Hv as [z Hz].
  apply accepted_archive in Hz. replace (shown <$> entries example_archive) with
    [([100; 111; 99; 115], true, []); ([100; 111; 99; 115; 47; 97], false, [1; 2; 3]); ([98; 47; 99], false, [7; 8])] in Hz; [done|].
  vm_compute. reflexivity.
Qed.
