(* ===== verification/Ext2.v ===== *)
(** * The ext2 file system

    [fs/ext2.rs] on a sector device: the superblock, inodes and their block
    pointers, directories, bitmaps, and the operations that change them.  A buffer
    of [zeroed_block] is a list of 4096 bytes of which a block fills a prefix. *)

From S2P Require Import Prelude Utf8 FileSystem Disk.

Local Open Scope Z_scope.

Definition SUPERBLOCK_OFFSET : Z := 1024.
Definition SUPERBLOCK_SIZE : nat := 1024.
Definition ROOT_INODE : Z := 2.
Definition DIRECT_BLOCKS : nat := 12.
Definition INODE_BLOCK_POINTERS_OFFSET : Z := 40.
Definition MAX_GROUPS : Z := 4096.
Definition FEATURE_COMPAT_EXT_ATTR : Z := 0x0008.
Definition FEATURE_COMPAT_RESIZE_INODE : Z := 0x0010.
Definition FEATURE_INCOMPAT_FILETYPE : Z := 0x0002.
Definition FEATURE_RO_COMPAT_SPARSE_SUPER : Z := 0x0001.
Definition FEATURE_RO_COMPAT_LARGE_FILE : Z := 0x0002.

Record Metadata := mk_metadata {
  block_size : Z;
  blocks_count : Z;
  inodes_count : Z;
  first_data_block : Z;
  blocks_per_group : Z;
  inodes_per_group : Z;
  inode_size : Z;
  group_count : Z;
  incompat_features : Z;
}.

Record Inode := mk_inode {
  i_mode : Z;
  i_links : Z;
  i_size : Z;
  i_allocated_blocks_512 : Z;
  i_blocks : list Z;
  i_single_indirect : Z;
  i_double_indirect : Z;
}.

(** The disk, the [EXT2] static, and which of the next [try_reserve] succeed (all,
    when the list is empty). *)
Record Ext2 (D : Type) := mk_ext2 {
  e_disk : D;
  e_mount : option (outcome Ext2Error.t Metadata);
  e_reserve : list bool;
}.

Arguments mk_ext2 {D}.
Arguments e_disk {D}.
Arguments e_mount {D}.
Arguments e_reserve {D}.

#[local] Abbreviation E := Ext2Error.t.

(** ** Bytes *)

(** A buffer of [vec![0; 4096]].  This allocation reports no error: when the heap has no room
    for it the kernel halts in its allocation error handler, and there is nothing after it
    to model. *)
Definition zeroed_block : list Z := replicate 4096 0.

Definition le16 (bytes : list Z) (offset : Z) : outcome E Z :=
  l ← index_range bytes offset (offset + 2); Ok (le_decode l).

Definition le32 (bytes : list Z) (offset : Z) : outcome E Z :=
  l ← index_range bytes offset (offset + 4); Ok (le_decode l).

(** [bytes[offset..offset + n].copy_from_slice(&value.to_le_bytes())] of an
    [n]-byte integer. *)
Definition put_le (n : nat) (bytes : list Z) (offset value : Z) : outcome E (list Z) :=
  copy_at bytes (Z.to_nat offset) (le_encode n value).

(** [bytes[a..b].fill(0)]. *)
Definition fill_zero (bytes : list Z) (a b : Z) : outcome E (list Z) :=
  if b <? a then Panic else copy_at bytes (Z.to_nat a) (replicate (Z.to_nat (b - a)) 0).

(** [u32::try_from] of a [usize]. *)
Definition to_u32 (x : Z) : option Z := if x <? u32_limit then Some x else None.

Definition disk_block_size (size : Z) : outcome E Z :=
  ok_or (if size / 512 <? u8_limit then Some (size / 512) else None) Ext2Error.InvalidFilesystem.

Definition name_byte (byte : Z) : bool :=
  in_range 48 57 byte || in_range 65 90 byte || in_range 97 122 byte
  || (byte =? 46) || (byte =? 95) || (byte =? 45).

Definition safe_component (component : list Z) : bool :=
  negb (bool_decide (component = []))
  && (length component <=? 255)%nat
  && negb (bool_decide (component = [46]))
  && negb (bool_decide (component = [46; 46]))
  && forallb name_byte component.

Definition is_directory (inode : Inode) : bool := Z.land (i_mode inode) 0xf000 =? 0x4000.
Definition is_regular (inode : Inode) : bool := Z.land (i_mode inode) 0xf000 =? 0x8000.

(** ** Directory records *)

(** [metadata.incompat_features & FEATURE_INCOMPAT_FILETYPE != 0]. *)
Definition has_filetype (md : Metadata) : bool :=
  negb (Z.land (incompat_features md) FEATURE_INCOMPAT_FILETYPE =? 0).

(** The record at [offset] and its checks, which five functions repeat: the inode,
    the record's length and the name's. *)
Definition dir_record (md : Metadata) (block : list Z) (limit offset : Z) : outcome E (Z * Z * Z) :=
  inode ← le32 block offset;
  record_len ← le16 block (offset + 4);
  if (record_len <? 8) || negb (record_len mod 4 =? 0) || (limit <? offset + record_len)
  then Err Ext2Error.InvalidFilesystem
  else
    name_len ← (if has_filetype md then expect (block !! Z.to_nat (offset + 6))
                else le16 block (offset + 6));
    if record_len - 8 <? name_len then Err Ext2Error.InvalidFilesystem
    else Ok (inode, record_len, name_len).

(** Records of at least eight bytes in a block of at most 4096. *)
Definition MAX_RECORDS : nat := 513.

(** The [while] loop of [find_child] over the records of a block. *)
Fixpoint find_in_block (fuel : nat) (md : Metadata) (block : list Z) (valid_bytes : Z)
  (child : list Z) (offset : Z) : outcome E (option Z) :=
  if negb (offset + 8 <=? valid_bytes) then Ok None
  else match fuel with
       | O => Panic
       | S fuel =>
           '(inode, record_len, name_len) ← dir_record md block valid_bytes offset;
           name ← index_range block (offset + 8) (offset + 8 + name_len);
           if negb (inode =? 0) && (inodes_count md <? inode) then Err Ext2Error.InvalidFilesystem
           else if negb (inode =? 0) && bool_decide (name = child) then Ok (Some inode)
           else find_in_block fuel md block valid_bytes child (offset + record_len)
       end.

(** [(8 + name_len + 3) & !3]. *)
Definition entry_size (name_len : Z) : Z := Z.ldiff (8 + name_len + 3) 3.

(** The [while] loop of [add_directory_entry] and [ensure_directory_entry_space]: the
    first record with room, with its inode, its length and the part it uses. *)
Fixpoint find_space (fuel : nat) (md : Metadata) (block : list Z) (required offset : Z) :
  outcome E (option (Z * Z * Z * Z)) :=
  if negb (offset + 8 <=? block_size md) then Ok None
  else match fuel with
       | O => Panic
       | S fuel =>
           '(inode, record_len, name_len) ← dir_record md block (block_size md) offset;
           let used_len := entry_size name_len in
           if ((inode =? 0) && (required <=? record_len))
             || (negb (inode =? 0) && (required <=? record_len - used_len))
           then Ok (Some (offset, inode, record_len, used_len))
           else find_space fuel md block required (offset + record_len)
       end.

(** The new record in the space found. *)
Definition place_entry (md : Metadata) (block : list Z) (space : Z * Z * Z * Z) (name : list Z)
  (inode_number file_type : Z) : outcome E (list Z) :=
  let '(offset, entry_inode, record_len, used_len) := space in
  '(block, entry_offset) ←
    (if entry_inode =? 0 then Ok (block, offset)
     else
       previous_len ← ok_or (if used_len <? u16_limit then Some used_len else None)
                        Ext2Error.InvalidFilesystem;
       block ← put_le 2 block (offset + 4) previous_len;
       Ok (block, offset + used_len));
  let entry_len := if entry_inode =? 0 then record_len else record_len - used_len in
  block ← fill_zero block entry_offset (entry_offset + entry_len);
  block ← put_le 4 block entry_offset inode_number;
  block ← put_le 2 block (entry_offset + 4) entry_len;
  block ← (if has_filetype md then
             block ← put_le 1 block (entry_offset + 6) (Z.of_nat (length name));
             put_le 1 block (entry_offset + 7) file_type
           else put_le 2 block (entry_offset + 6) (Z.of_nat (length name)));
  copy_at block (Z.to_nat (entry_offset + 8)) name.

(** The [while] loop of [remove_directory_entry]: the record before the entry, its
    own offset and length. *)
Fixpoint find_entry (fuel : nat) (md : Metadata) (block : list Z) (name : list Z)
  (previous : option Z) (offset : Z) : outcome E (option (option Z * Z * Z)) :=
  if negb (offset + 8 <=? block_size md) then Ok None
  else match fuel with
       | O => Panic
       | S fuel =>
           '(inode, record_len, name_len) ← dir_record md block (block_size md) offset;
           found ← (if inode =? 0 then Ok false
                    else n ← index_range block (offset + 8) (offset + 8 + name_len);
                         Ok (bool_decide (n = name)));
           if found : bool then Ok (Some (previous, offset, record_len))
           else find_entry fuel md block name (Some offset) (offset + record_len)
       end.

(** The block without the entry. *)
Definition erase_entry (md : Metadata) (block : list Z) (entry : option Z * Z * Z) :
  outcome E (list Z) :=
  let '(previous, offset, record_len) := entry in
  match previous with
  | Some previous_offset =>
      previous_record_len ← le16 block (previous_offset + 4);
      merged_len ← ok_or (length ← checked_add u64_limit previous_record_len record_len;
                          if (length <=? block_size md) && (length <? u16_limit) then Some length else None)
                     Ext2Error.InvalidFilesystem;
      put_le 2 block (previous_offset + 4) merged_len
  | None =>
      block ← fill_zero block offset (offset + 4);
      block ← put_le 1 block (offset + 6) 0;
      block ← put_le 1 block (offset + 7) 0;
      fill_zero block (offset + 8) (offset + record_len)
  end.

(** The first block of a new directory. *)
Definition new_directory (md : Metadata) (inode_number parent_number : Z) : outcome E (list Z) :=
  directory ← put_le 4 zeroed_block 0 inode_number;
  directory ← put_le 2 directory 4 12;
  directory ← (if has_filetype md then d ← put_le 1 directory 6 1; put_le 1 d 7 2
               else put_le 2 directory 6 1);
  directory ← put_le 1 directory 8 46;
  directory ← put_le 4 directory 12 parent_number;
  directory ← put_le 2 directory 16 (block_size md - 12);
  directory ← (if has_filetype md then d ← put_le 1 directory 18 2; put_le 1 d 19 2
               else put_le 2 directory 18 2);
  copy_at directory 20 [46; 46].

(** ** Bitmaps *)

(** [bitmap[index / 8] & (1 << (index % 8)) == 0]. *)
Definition bit_clear (bitmap : list Z) (index : Z) : outcome E bool :=
  byte ← expect (bitmap !! Z.to_nat (index / 8));
  Ok (Z.land byte (Z.shiftl 1 (index mod 8)) =? 0).

(** [(0..count).find(..)], from [index] on. *)
Fixpoint find_free_from (bitmap : list Z) (index : Z) (remaining : nat) : outcome E (option Z) :=
  match remaining with
  | O => Ok None
  | S remaining =>
      clear ← bit_clear bitmap index;
      if clear : bool then Ok (Some index) else find_free_from bitmap (index + 1) remaining
  end.

Definition find_free_bit (bitmap : list Z) (count : Z) : outcome E (option Z) :=
  find_free_from bitmap 0 (Z.to_nat count).

(** The end of [update_inode_bitmap] and [update_block_bitmap]; the state is the
    bitmap. *)
Definition update_bit (bit : Z) (allocated : bool) : Op (list Z) E unit :=
  bitmap ← get;
  let mask := Z.shiftl 1 (bit mod 8) in
  value ← lift (expect (bitmap !! Z.to_nat (bit / 8)));
  if Bool.eqb (negb (Z.land value mask =? 0)) allocated then fail Ext2Error.InvalidFilesystem
  else put (<[Z.to_nat (bit / 8) := if allocated then Z.lor value mask else Z.ldiff value mask]> bitmap).

Definition update_inode_bitmap (inode_number : Z) (allocated : bool) : Op (list Z) E unit :=
  bit ← lift (ok_or (checked_sub inode_number 1) Ext2Error.InvalidFilesystem);
  update_bit bit allocated.

Definition update_block_bitmap (md : Metadata) (block_number : Z) (allocated : bool) :
  Op (list Z) E unit :=
  if (block_number <? first_data_block md) || (blocks_count md <=? block_number)
  then fail Ext2Error.InvalidFilesystem
  else update_bit (block_number - first_data_block md) allocated.

Definition allocate_data_block (md : Metadata) : Op (list Z) E Z :=
  bitmap ← get;
  found ← lift (find_free_bit bitmap (blocks_count md - first_data_block md));
  block_index ← lift (ok_or found Ext2Error.NoSpace);
  block ← lift (ok_or (checked_add u32_limit block_index (first_data_block md))
                  Ext2Error.InvalidFilesystem);
  _ ← update_block_bitmap md block true;
  mret block.

(** [for x in &mut v { *x = allocate_data_block(..)?; }] over [n] elements. *)
Fixpoint allocate_blocks (md : Metadata) (n : nat) : Op (list Z) E (list Z) :=
  match n with
  | O => mret []
  | S n => block ← allocate_data_block md; rest ← allocate_blocks md n; mret (block :: rest)
  end.

(** ** Sizes *)

Definition single_indirect_capacity (md : Metadata) : outcome E Z :=
  ok_or (checked_add u64_limit (Z.of_nat DIRECT_BLOCKS) (block_size md / 4))
    Ext2Error.UnsupportedFeature.

Definition double_indirect_capacity (md : Metadata) : outcome E Z :=
  let pointers_per_block := block_size md / 4 in
  single ← single_indirect_capacity md;
  square ← ok_or (checked_mul u64_limit pointers_per_block pointers_per_block)
             Ext2Error.UnsupportedFeature;
  ok_or (checked_add u64_limit single square) Ext2Error.UnsupportedFeature.

Definition inode_block_count (md : Metadata) (inode : Inode) : outcome E Z :=
  let size := i_size inode in
  let block_count := size / block_size md + (if size mod block_size md =? 0 then 0 else 1) in
  let pointers_per_block := block_size md / 4 in
  max_blocks ← ok_or (count ← checked_add u64_limit (Z.of_nat DIRECT_BLOCKS) pointers_per_block;
                      square ← checked_mul u64_limit pointers_per_block pointers_per_block;
                      checked_add u64_limit count square) Ext2Error.UnsupportedFeature;
  if max_blocks <? block_count then Err Ext2Error.UnsupportedFeature else Ok block_count.

(** ** Blocks *)

Section ext2.
Context {D : Type} `{SectorDevice D}.

Abbreviation Fs := (Ext2 D).

Definition set_disk (d : D) (s : Fs) : Fs := mk_ext2 d (e_mount s) (e_reserve s).
Definition set_mount (m : option (outcome E Metadata)) (s : Fs) : Fs := mk_ext2 (e_disk s) m (e_reserve s).

(** A call of the driver; [map_err(Ext2Error::Disk)]. *)
Definition device_read (lba count : Z) (n : nat) : Op Fs E (list Z) := fun s =>
  let '(d, r) := read_sectors lba count n (e_disk s) in (set_disk d s, map_err Ext2Error.Disk r).

Definition device_write (lba count : Z) (input : list Z) : Op Fs E unit := fun s =>
  let '(d, r) := write_sectors lba count input (e_disk s) in (set_disk d s, map_err Ext2Error.Disk r).

(** [v.try_reserve(..).map_err(|_| Ext2Error::AllocationFailed)]. *)
Definition try_reserve : Op Fs E unit := fun s =>
  match e_reserve s with
  | [] => (s, Ok tt)
  | ok :: rest =>
      (mk_ext2 (e_disk s) (e_mount s) rest, if ok then Ok tt else Err Ext2Error.AllocationFailed)
  end.

(** [read_block]: the buffer after the read. *)
Definition read_block (md : Metadata) (block : Z) (output : list Z) : Op Fs E (list Z) :=
  if (blocks_count md <=? block) || (Z.of_nat (length output) <? block_size md)
  then fail Ext2Error.InvalidFilesystem
  else
    let length_ := Z.to_nat (block_size md) in
    sectors ← lift (disk_block_size (block_size md));
    lba ← lift (ok_or (checked_mul u32_limit block sectors) Ext2Error.InvalidFilesystem);
    bytes ← device_read lba sectors length_;
    mret (bytes ++ drop length_ output).

Definition write_block (md : Metadata) (block : Z) (input : list Z) : Op Fs E unit :=
  if (blocks_count md <=? block) || (Z.of_nat (length input) <? block_size md)
  then fail Ext2Error.InvalidFilesystem
  else
    sectors ← lift (disk_block_size (block_size md));
    lba ← lift (ok_or (checked_mul u32_limit block sectors) Ext2Error.InvalidFilesystem);
    device_write lba sectors (take (Z.to_nat (block_size md)) input).

(** [BlockTransaction]: the blocks saved, in the order of their first write. *)
Definition BlockTransaction : Type := list (Z * list Z).

(** The state of the functions that take [Option<&mut BlockTransaction>]. *)
Abbreviation Tx := (Fs * option BlockTransaction)%type.

Definition on_fs {A} (op : Op Fs E A) : Op Tx E A := fun '(s, tx) =>
  let '(s, r) := op s in (s, tx, r).

(** [None] for the transaction. *)
Definition without_tx {A} (op : Op Tx E A) : Op Fs E A := fun s =>
  let '(s, _, r) := op (s, None) in (s, r).

(** [BlockTransaction::write]. *)
Definition transaction_write (md : Metadata) (block : Z) (contents : list Z) : Op Tx E unit :=
  '(_, tx) ← get;
  let undo := default [] tx in
  _ ← (if existsb (fun saved => saved.1 =? block) undo then mret tt
       else
         _ ← on_fs try_reserve;
         original ← on_fs (read_block md block zeroed_block);
         modify (fun '(s, _) => (s, Some (undo ++ [(block, original)]))));
  on_fs (write_block md block contents).

(** [match transaction { Some(transaction) => .., None => .. }]. *)
Definition write_through (md : Metadata) (block : Z) (contents : list Z) : Op Tx E unit :=
  '(_, tx) ← get;
  match tx with
  | Some _ => transaction_write md block contents
  | None => on_fs (write_block md block contents)
  end.

(** The loop of [rollback] over the saved blocks, the last first; did a write fail? *)
Fixpoint restore_blocks (md : Metadata) (undo : BlockTransaction) : Op Fs E bool :=
  match undo with
  | [] => mret false
  | (block, contents) :: undo => fun s =>
      match write_block md block contents s with
      | (s, Ok _) => restore_blocks md undo s
      | (s, Err _) => (_ ← restore_blocks md undo; mret true) s
      | (s, Panic) => (s, Panic)
      end
  end.

Definition rollback (md : Metadata) (undo : BlockTransaction) : Op Fs E unit :=
  failed ← restore_blocks md (reverse undo);
  if failed : bool then fail Ext2Error.RecoveryFailed else mret tt.

(** ** Mounting *)

(** The fields of the superblock and their checks. *)
Definition parse_superblock (superblock : list Z) : outcome E Metadata :=
  magic ← le16 superblock 56;
  if negb (magic =? 0xef53) then Err Ext2Error.InvalidFilesystem
  else
  log_block_size ← le32 superblock 24;
  log_fragment_size ← le32 superblock 28;
  if 2 <? log_block_size then Err Ext2Error.UnsupportedFeature
  else if negb (log_fragment_size =? log_block_size) then Err Ext2Error.UnsupportedFeature
  else
  block_size ← ok_or (if log_block_size <? 64 then Some (Z.shiftl 1024 log_block_size) else None)
                 Ext2Error.InvalidFilesystem;
  blocks_count ← le32 superblock 4;
  inodes_count ← le32 superblock 0;
  first_data_block ← le32 superblock 20;
  blocks_per_group ← le32 superblock 32;
  inodes_per_group ← le32 superblock 40;
  revision ← le32 superblock 76;
  inode_size ← (if revision =? 0 then Ok 128 else le16 superblock 88);
  incompat_features ← (if revision =? 0 then Ok 0 else le32 superblock 96);
  compat_features ← (if revision =? 0 then Ok 0 else le32 superblock 92);
  read_only_features ← (if revision =? 0 then Ok 0 else le32 superblock 100);
  if (blocks_count =? 0) || (inodes_count <? ROOT_INODE) || (blocks_per_group =? 0)
    || (inodes_per_group =? 0) || (blocks_count <=? first_data_block)
    || (block_size * 8 <? blocks_per_group) || (block_size * 8 <? inodes_per_group)
    || negb ((128 <=? inode_size) && (inode_size <=? block_size))
    || negb (block_size mod inode_size =? 0) || (1 <? revision)
    || ((block_size =? 1024) && negb (first_data_block =? 1))
    || ((1024 <? block_size) && negb (first_data_block =? 0))
  then Err Ext2Error.InvalidFilesystem
  else
  let known_compat := Z.lor FEATURE_COMPAT_EXT_ATTR FEATURE_COMPAT_RESIZE_INODE in
  let known_ro_compat := Z.lor FEATURE_RO_COMPAT_SPARSE_SUPER FEATURE_RO_COMPAT_LARGE_FILE in
  if negb (Z.ldiff incompat_features FEATURE_INCOMPAT_FILETYPE =? 0)
    || negb (Z.ldiff compat_features known_compat =? 0)
    || negb (Z.ldiff read_only_features known_ro_compat =? 0)
  then Err Ext2Error.UnsupportedFeature
  else
  blocks ← ok_or (count ← checked_sub blocks_count first_data_block;
                  checked_add u32_limit count (blocks_per_group - 1)) Ext2Error.InvalidFilesystem;
  inodes ← ok_or (checked_add u32_limit inodes_count (inodes_per_group - 1))
             Ext2Error.InvalidFilesystem;
  let group_count := Z.max (blocks / blocks_per_group) (inodes / inodes_per_group) in
  if (group_count =? 0) || (MAX_GROUPS <? group_count) then Err Ext2Error.UnsupportedFeature
  else
  descriptors ← ok_or (bytes ← checked_mul u32_limit group_count 32;
                       checked_add u32_limit bytes (block_size - 1)) Ext2Error.InvalidFilesystem;
  let descriptor_blocks := descriptors / block_size in
  if match (block ← checked_add u32_limit first_data_block 1;
            checked_add u32_limit block descriptor_blocks) with
     | Some end_ => blocks_count <? end_
     | None => true
     end
  then Err Ext2Error.InvalidFilesystem
  else
  sectors_per_block ← disk_block_size block_size;
  disk_sectors ← ok_or (checked_mul u32_limit blocks_count sectors_per_block)
                   Ext2Error.InvalidFilesystem;
  if 0x10000000 <? disk_sectors then Err Ext2Error.UnsupportedFeature
  else Ok (mk_metadata block_size blocks_count inodes_count first_data_block blocks_per_group
             inodes_per_group inode_size group_count incompat_features).

Definition mount : Op Fs E Metadata :=
  superblock ← device_read (SUPERBLOCK_OFFSET / 512) 2 SUPERBLOCK_SIZE;
  lift (parse_superblock superblock).

(** [EXT2.call_once(mount)]. *)
Definition initialize : Op Fs E unit := fun s =>
  let '(s, r) := match e_mount s with
                 | Some r => (s, r)
                 | None => let '(s, r) := mount s in (set_mount (Some r) s, r)
                 end in
  (s, _ ← r; Ok tt).

Definition metadata : Op Fs E Metadata := fun s =>
  (s, match e_mount s with None => Err Ext2Error.NotInitialized | Some r => r end).

Definition writable_metadata : Op Fs E Metadata :=
  md ← metadata;
  if negb (block_size md =? 1024) || negb (group_count md =? 1) || negb (inode_size md =? 128)
    || (blocks_per_group md <? blocks_count md - first_data_block md)
    || (inodes_per_group md <? inodes_count md)
  then fail Ext2Error.UnsupportedFeature
  else mret md.

(** ** Inodes *)

(** The inode table of a group, and the buffer with the descriptor block. *)
Definition read_group_descriptor (md : Metadata) (group : Z) (output : list Z) :
  Op Fs E (Z * list Z) :=
  if group_count md <=? group then fail Ext2Error.InvalidFilesystem
  else
    descriptor_table ← lift (ok_or (checked_add u32_limit (first_data_block md) 1)
                               Ext2Error.InvalidFilesystem);
    byte_offset ← lift (ok_or (checked_mul u64_limit group 32) Ext2Error.InvalidFilesystem);
    let block_offset := byte_offset / block_size md in
    let descriptor_offset := byte_offset mod block_size md in
    offset ← lift (ok_or (to_u32 block_offset) Ext2Error.InvalidFilesystem);
    descriptor_block ← lift (ok_or (checked_add u32_limit descriptor_table offset)
                               Ext2Error.InvalidFilesystem);
    output ← read_block md descriptor_block output;
    inode_table ← lift (le32 output (descriptor_offset + 8));
    if blocks_count md <=? inode_table then fail Ext2Error.InvalidFilesystem
    else mret (inode_table, output).

(** The loop over the direct pointers. *)
Fixpoint direct_pointers (md : Metadata) (raw : list Z) (n index : nat) : outcome E (list Z) :=
  match n with
  | O => Ok []
  | S n =>
      block ← le32 raw (INODE_BLOCK_POINTERS_OFFSET + Z.of_nat index * 4);
      if negb (block =? 0) && (blocks_count md <=? block) then Err Ext2Error.InvalidFilesystem
      else rest ← direct_pointers md raw n (S index); Ok (block :: rest)
  end.

(** The fields of an inode. *)
Definition parse_inode (md : Metadata) (raw : list Z) : outcome E Inode :=
  low_size ← le32 raw 4;
  mode ← le16 raw 0;
  size ← (if (Z.land mode 0xf000 =? 0x8000) && (112 <=? inode_size md)
          then high ← le32 raw 108; Ok (Z.lor low_size (Z.shiftl high 32))
          else Ok low_size);
  blocks ← direct_pointers md raw DIRECT_BLOCKS 0;
  single_indirect ← le32 raw (INODE_BLOCK_POINTERS_OFFSET + Z.of_nat DIRECT_BLOCKS * 4);
  if negb (single_indirect =? 0) && (blocks_count md <=? single_indirect)
  then Err Ext2Error.InvalidFilesystem
  else
    double_indirect ← le32 raw (INODE_BLOCK_POINTERS_OFFSET + (Z.of_nat DIRECT_BLOCKS + 1) * 4);
    if negb (double_indirect =? 0) && (blocks_count md <=? double_indirect)
    then Err Ext2Error.InvalidFilesystem
    else
      links ← le16 raw 26;
      allocated_blocks_512 ← le32 raw 28;
      Ok (mk_inode mode links size allocated_blocks_512 blocks single_indirect double_indirect).

Definition read_inode (md : Metadata) (inode_number : Z) : Op Fs E Inode :=
  if (inode_number =? 0) || (inodes_count md <? inode_number)
  then fail Ext2Error.InvalidFilesystem
  else
    let inode_index := inode_number - 1 in
    let group := inode_index / inodes_per_group md in
    let local_index := inode_index mod inodes_per_group md in
    '(inode_table, block) ← read_group_descriptor md group zeroed_block;
    inode_table_bytes ← lift (ok_or (bytes ← checked_mul u64_limit (inodes_per_group md) (inode_size md);
                                     checked_add u64_limit bytes (block_size md - 1))
                                Ext2Error.InvalidFilesystem);
    let inode_table_blocks := inode_table_bytes / block_size md in
    if match checked_add u64_limit inode_table inode_table_blocks with
       | Some end_ => blocks_count md <? end_
       | None => true
       end
    then fail Ext2Error.InvalidFilesystem
    else
      inode_offset ← lift (ok_or (checked_mul u64_limit local_index (inode_size md))
                             Ext2Error.InvalidFilesystem);
      let block_delta := inode_offset / block_size md in
      let within_block := inode_offset mod block_size md in
      delta ← lift (ok_or (to_u32 block_delta) Ext2Error.InvalidFilesystem);
      block_number ← lift (ok_or (checked_add u32_limit inode_table delta)
                             Ext2Error.InvalidFilesystem);
      block ← read_block md block_number block;
      if block_size md <? within_block + inode_size md then fail Ext2Error.InvalidFilesystem
      else
        raw ← lift (index_range block within_block (within_block + inode_size md));
        lift (parse_inode md raw).

(** The stores of [write_inode_fields] into the inode. *)
Fixpoint put_pointers (raw : list Z) (index : nat) (blocks : list Z) : outcome E (list Z) :=
  match blocks with
  | [] => Ok raw
  | block :: blocks =>
      raw ← put_le 4 raw (INODE_BLOCK_POINTERS_OFFSET + Z.of_nat index * 4) block;
      put_pointers raw (S index) blocks
  end.

Definition inode_fields (md : Metadata) (raw : list Z) (mode size link_count : Z)
  (data_blocks : list Z) (single_indirect double_indirect allocated_blocks_512 : Z)
  (is_new : bool) : outcome E (list Z) :=
  let raw := if is_new then replicate (length raw) 0 else raw in
  raw ← put_le 2 raw 0 mode;
  raw ← put_le 4 raw 4 size;
  raw ← put_le 2 raw 26 link_count;
  raw ← (if 112 <=? inode_size md then fill_zero raw 108 112 else Ok raw);
  raw ← put_le 4 raw 28 allocated_blocks_512;
  raw ← put_pointers raw 0 data_blocks;
  let single_offset := INODE_BLOCK_POINTERS_OFFSET + Z.of_nat DIRECT_BLOCKS * 4 in
  raw ← put_le 4 raw single_offset single_indirect;
  put_le 4 raw (single_offset + 4) double_indirect.

Definition write_inode_fields (md : Metadata) (inode_number mode size link_count : Z)
  (data_blocks : list Z) (single_indirect double_indirect allocated_blocks_512 : Z)
  (is_new : bool) : Op Tx E unit :=
  inode_index ← lift (ok_or (checked_sub inode_number 1) Ext2Error.InvalidFilesystem);
  let group := inode_index / inodes_per_group md in
  let local_index := inode_index mod inodes_per_group md in
  '(inode_table, block) ← on_fs (read_group_descriptor md group zeroed_block);
  inode_offset ← lift (ok_or (checked_mul u64_limit local_index (inode_size md))
                         Ext2Error.InvalidFilesystem);
  delta ← lift (ok_or (to_u32 (inode_offset / block_size md)) Ext2Error.InvalidFilesystem);
  block_number ← lift (ok_or (checked_add u32_limit inode_table delta) Ext2Error.InvalidFilesystem);
  let within_block := inode_offset mod block_size md in
  if block_size md <? within_block + inode_size md then fail Ext2Error.InvalidFilesystem
  else
    block ← on_fs (read_block md block_number block);
    raw ← lift (index_range block within_block (within_block + inode_size md));
    raw ← lift (inode_fields md raw mode size link_count data_blocks single_indirect
                  double_indirect allocated_blocks_512 is_new);
    block ← lift (copy_at block (Z.to_nat within_block) raw);
    write_through md block_number block.

(** ** The blocks of a file *)

(** The two buffers of pointers and the blocks they hold. *)
Record Caches := mk_caches {
  indirect_data : list Z;
  cached_indirect_block : Z;
  double_indirect_data : list Z;
  cached_double_indirect_block : Z;
}.

Definition new_caches : Caches := mk_caches zeroed_block 0 zeroed_block 0.

(** [if *cached != block { read_block(..)?; *cached = block }] for the two caches. *)
Definition load_indirect (md : Metadata) (block : Z) (c : Caches) : Op Fs E Caches :=
  if cached_indirect_block c =? block then mret c
  else
    data ← read_block md block (indirect_data c);
    mret (mk_caches data block (double_indirect_data c) (cached_double_indirect_block c)).

Definition load_double (md : Metadata) (block : Z) (c : Caches) : Op Fs E Caches :=
  if cached_double_indirect_block c =? block then mret c
  else
    data ← read_block md block (double_indirect_data c);
    mret (mk_caches (indirect_data c) 0 data block).

(** [if block != 0 && block >= metadata.blocks_count { return Err(..) }]. *)
Definition check_pointer (md : Metadata) (block : Z) : outcome E Z :=
  if negb (block =? 0) && (blocks_count md <=? block) then Err Ext2Error.InvalidFilesystem
  else Ok block.

Definition inode_data_block (md : Metadata) (inode : Inode) (logical_index : Z) (c : Caches) :
  Op Fs E (Z * Caches) :=
  if logical_index <? Z.of_nat DIRECT_BLOCKS then
    block ← lift (expect (i_blocks inode !! Z.to_nat logical_index));
    mret (block, c)
  else
    let indirect_index := logical_index - Z.of_nat DIRECT_BLOCKS in
    let pointers_per_block := block_size md / 4 in
    if indirect_index <? pointers_per_block then
      if i_single_indirect inode =? 0 then mret (0, c)
      else
        c ← load_indirect md (i_single_indirect inode) c;
        pointer ← lift (le32 (indirect_data c) (indirect_index * 4));
        block ← lift (check_pointer md pointer);
        mret (block, c)
    else
      let double_index := indirect_index - pointers_per_block in
      let outer_index := double_index / pointers_per_block in
      let inner_index := double_index mod pointers_per_block in
      if pointers_per_block <=? outer_index then fail Ext2Error.UnsupportedFeature
      else if i_double_indirect inode =? 0 then mret (0, c)
      else
        c ← load_double md (i_double_indirect inode) c;
        indirect_block ← lift (le32 (double_indirect_data c) (outer_index * 4));
        if indirect_block =? 0 then mret (0, c)
        else if blocks_count md <=? indirect_block then fail Ext2Error.InvalidFilesystem
        else
          c ← load_indirect md indirect_block c;
          pointer ← lift (le32 (indirect_data c) (inner_index * 4));
          block ← lift (check_pointer md pointer);
          mret (block, c).

(** ** Directories *)

(** The loop of [find_child] over the blocks of the directory. *)
Fixpoint find_child_blocks (n : nat) (md : Metadata) (directory : Inode) (child : list Z)
  (logical_index remaining : Z) (block : list Z) (c : Caches) : Op Fs E (option Z) :=
  match n with
  | O => mret None
  | S n =>
      '(block_number, c) ← inode_data_block md directory logical_index c;
      if block_number =? 0 then fail Ext2Error.InvalidFilesystem
      else
        block ← read_block md block_number block;
        found ← lift (find_in_block MAX_RECORDS md block (Z.min remaining (block_size md)) child 0);
        match found with
        | Some inode => mret (Some inode)
        | None =>
            find_child_blocks n md directory child (logical_index + 1)
              (saturating_sub remaining (block_size md)) block c
        end
  end.

Definition find_child (md : Metadata) (directory : Inode) (child : list Z) : Op Fs E (option Z) :=
  if negb (is_directory directory) then mret None
  else
    block_count ← lift (inode_block_count md directory);
    find_child_blocks (Z.to_nat block_count) md directory child 0 (i_size directory)
      zeroed_block new_caches.

(** The loop of [lookup] and [find_inode_number] over the components: the number and
    the inode of the last. *)
Fixpoint walk (md : Metadata) (components : list (list Z)) (number : Z) (inode : Inode) :
  Op Fs E (option (Z * Inode)) :=
  match components with
  | [] => mret (Some (number, inode))
  | component :: components =>
      if bool_decide (component = []) then walk md components number inode
      else if negb (safe_component component) || negb (is_directory inode) then mret None
      else
        found ← find_child md inode component;
        match found with
        | None => mret None
        | Some child_number =>
            child ← read_inode md child_number;
            walk md components child_number child
        end
  end.

Definition lookup_path (path : list Z) : Op Fs E (option Inode) :=
  md ← metadata;
  inode ← read_inode md ROOT_INODE;
  found ← walk md (split_slash path) ROOT_INODE inode;
  mret (snd <$> found).

Definition find_inode_number (md : Metadata) (path : list Z) : Op Fs E (option Z) :=
  inode ← read_inode md ROOT_INODE;
  found ← walk md (split_slash path) ROOT_INODE inode;
  mret (fst <$> found).

(** [bytes.iter().rposition(|byte| *byte == b'/')]. *)
Definition last_slash (path : list Z) : option nat :=
  (fun i => (length path - 1 - i)%nat) <$> position (fun b => b =? 47) (reverse path).

Definition resolve_parent (md : Metadata) (path : list Z) : Op Fs E (Z * Inode * list Z) :=
  let '(parent_path, name) := match last_slash path with
                              | Some index => (take index path, drop (S index) path)
                              | None => ([], path)
                              end in
  if negb (safe_component name) then fail Ext2Error.InvalidPath
  else if existsb (fun component => negb (bool_decide (component = [])) && negb (safe_component component))
            (split_slash parent_path)
  then fail Ext2Error.InvalidPath
  else
    parent_number ←
      (if bool_decide (parent_path = []) || bool_decide (parent_path = [47]) then mret ROOT_INODE
       else
         found ← lookup_path parent_path;
         parent ← lift (ok_or found Ext2Error.NotFound);
         if negb (is_directory parent) then fail Ext2Error.InvalidPath
         else
           found ← find_inode_number md parent_path;
           lift (ok_or found Ext2Error.InvalidFilesystem));
    parent ← read_inode md parent_number;
    if negb (is_directory parent) then fail Ext2Error.InvalidPath
    else mret (parent_number, parent, name).

Definition add_directory_entry (md : Metadata) (directory : Inode) (name : list Z)
  (inode_number file_type : Z) : Op Tx E unit :=
  single ← (if negb (is_directory directory) then mret false
            else count ← lift (inode_block_count md directory); mret (count =? 1));
  if negb single then fail Ext2Error.UnsupportedFeature
  else
    block_number ← lift (expect (i_blocks directory !! 0%nat));
    if block_number =? 0 then fail Ext2Error.InvalidFilesystem
    else
      block ← on_fs (read_block md block_number zeroed_block);
      space ← lift (find_space MAX_RECORDS md block (entry_size (Z.of_nat (length name))) 0);
      match space with
      | None => fail Ext2Error.NoSpace
      | Some space =>
          block ← lift (place_entry md block space name inode_number file_type);
          write_through md block_number block
      end.

(** The check [ensure_directory_entry_space] and [remove_directory_entry] begin with:
    the block of a directory that has only one. *)
Definition directory_block (md : Metadata) (directory : Inode) : Op Fs E Z :=
  single ← (if negb (is_directory directory) then mret false
            else count ← lift (inode_block_count md directory); mret (count =? 1));
  block_number ← (if negb single then fail Ext2Error.UnsupportedFeature
                  else lift (expect (i_blocks directory !! 0%nat)));
  if block_number =? 0 then fail Ext2Error.UnsupportedFeature else mret block_number.

Definition ensure_directory_entry_space (md : Metadata) (directory : Inode) (name : list Z) :
  Op Fs E unit :=
  block_number ← directory_block md directory;
  block ← read_block md block_number zeroed_block;
  space ← lift (find_space MAX_RECORDS md block (entry_size (Z.of_nat (length name))) 0);
  match space with
  | None => fail Ext2Error.NoSpace
  | Some _ => mret tt
  end.

Definition remove_directory_entry (md : Metadata) (directory : Inode) (name : list Z) : Op Fs E unit :=
  block_number ← directory_block md directory;
  block ← read_block md block_number zeroed_block;
  entry ← lift (find_entry MAX_RECORDS md block name None 0);
  match entry with
  | None => fail Ext2Error.NotFound
  | Some entry =>
      block ← lift (erase_entry md block entry);
      write_block md block_number block
  end.

(** ** Allocation tables *)

(** The numbers and contents of the bitmaps, and the descriptor block. *)
Record Tables := mk_tables {
  block_bitmap_number : Z;
  inode_bitmap_number : Z;
  descriptor : list Z;
  block_bitmap : list Z;
  inode_bitmap : list Z;
}.

Definition read_allocation_tables (md : Metadata) : Op Fs E Tables :=
  descriptor ← read_block md (first_data_block md + 1) zeroed_block;
  block_bitmap_number ← lift (le32 descriptor 0);
  inode_bitmap_number ← lift (le32 descriptor 4);
  if (blocks_count md <=? block_bitmap_number) || (blocks_count md <=? inode_bitmap_number)
  then fail Ext2Error.InvalidFilesystem
  else
    block_bitmap ← read_block md block_bitmap_number zeroed_block;
    inode_bitmap ← read_block md inode_bitmap_number zeroed_block;
    mret (mk_tables block_bitmap_number inode_bitmap_number descriptor block_bitmap inode_bitmap).

(** [i32::from(..).checked_add(delta).filter(|count| (0..limit).contains(count))]. *)
Definition add_delta (limit count delta : Z) : outcome E Z :=
  if (0 <=? count + delta) && (count + delta <? limit) then Ok (count + delta)
  else Err Ext2Error.InvalidFilesystem.

Definition update_free_counters (md : Metadata) (descriptor : list Z) (blocks_delta inodes_delta : Z) :
  Op Tx E unit :=
  if (blocks_delta =? 0) && (inodes_delta =? 0) then mret tt
  else
    descriptor_blocks ← lift (x ← le16 descriptor 12; add_delta u16_limit x blocks_delta);
    descriptor_inodes ← lift (x ← le16 descriptor 14; add_delta u16_limit x inodes_delta);
    superblock ← on_fs (read_block md (first_data_block md) zeroed_block);
    super_blocks ← lift (x ← le32 superblock 12; add_delta u32_limit x blocks_delta);
    super_inodes ← lift (x ← le32 superblock 16; add_delta u32_limit x inodes_delta);
    descriptor ← lift (d ← put_le 2 descriptor 12 descriptor_blocks; put_le 2 d 14 descriptor_inodes);
    superblock ← lift (b ← put_le 4 superblock 12 super_blocks; put_le 4 b 16 super_inodes);
    _ ← write_through md (first_data_block md + 1) descriptor;
    write_through md (first_data_block md) superblock.

(** An operation on a bitmap. *)
Definition on_bitmap {S A} (bitmap : list Z) (op : Op (list Z) E A) : Op S E (A * list Z) :=
  let '(bitmap, r) := op bitmap in lift (a ← r; Ok (a, bitmap)).

(** [i32::try_from] of a [usize]. *)
Definition to_i32 (x : Z) : option Z := if x <? 2 ^ 31 then Some x else None.

Definition free_data_blocks (md : Metadata) (blocks : list Z) : Op Tx E unit :=
  if bool_decide (blocks = []) then mret tt
  else
    t ← on_fs (read_allocation_tables md);
    '(_, bitmap) ← on_bitmap (block_bitmap t)
                     (for_op blocks (fun block => update_block_bitmap md block false));
    _ ← write_through md (block_bitmap_number t) bitmap;
    count ← lift (ok_or (to_i32 (Z.of_nat (length blocks))) Ext2Error.InvalidFilesystem);
    update_free_counters md (descriptor t) count 0.

Definition push_unique_block (blocks : list Z) (block : Z) : outcome E (list Z) :=
  if existsb (fun b => b =? block) blocks then Err Ext2Error.InvalidFilesystem
  else Ok (blocks ++ [block]).

(** [if block >= metadata.blocks_count { return Err(..) } push_unique_block(..)?]. *)
Definition push_checked (md : Metadata) (blocks : list Z) (block : Z) : outcome E (list Z) :=
  if blocks_count md <=? block then Err Ext2Error.InvalidFilesystem
  else push_unique_block blocks block.

(** The pointers that are not zero, from [index] on. *)
Fixpoint push_pointers (md : Metadata) (pointers : list Z) (index n : nat) (blocks : list Z) :
  outcome E (list Z) :=
  match n with
  | O => Ok blocks
  | S n =>
      block ← le32 pointers (Z.of_nat index * 4);
      blocks ← (if block =? 0 then Ok blocks else push_checked md blocks block);
      push_pointers md pointers (S index) n blocks
  end.

(** The blocks behind a block of pointers, and the block itself. *)
Definition push_indirect (md : Metadata) (indirect : Z) (blocks : list Z) : Op Fs E (list Z) :=
  if blocks_count md <=? indirect then fail Ext2Error.InvalidFilesystem
  else
    pointers ← read_block md indirect zeroed_block;
    blocks ← lift (push_pointers md pointers 0 (Z.to_nat (block_size md / 4)) blocks);
    lift (push_unique_block blocks indirect).

(** The loop over the pointers of the double indirect block. *)
Fixpoint push_double (md : Metadata) (root : list Z) (index n : nat) (blocks : list Z) :
  Op Fs E (list Z) :=
  match n with
  | O => mret blocks
  | S n =>
      indirect ← lift (le32 root (Z.of_nat index * 4));
      blocks ← (if indirect =? 0 then mret blocks else push_indirect md indirect blocks);
      push_double md root (S index) n blocks
  end.

(** [allocation_capacity]. *)
Definition allocation_capacity (md : Metadata) (inode : Inode) : outcome E Z :=
  let pointer_capacity := block_size md / 4 in
  capacity ← (if i_single_indirect inode =? 0 then Ok (Z.of_nat DIRECT_BLOCKS)
              else ok_or (checked_add u64_limit (Z.of_nat DIRECT_BLOCKS) (pointer_capacity + 1))
                     Ext2Error.AllocationFailed);
  if i_double_indirect inode =? 0 then Ok capacity
  else
    double ← ok_or (blocks ← checked_mul u64_limit pointer_capacity pointer_capacity;
                    checked_add u64_limit blocks (pointer_capacity + 1)) Ext2Error.AllocationFailed;
    ok_or (checked_add u64_limit capacity double) Ext2Error.AllocationFailed.

Definition collect_file_allocations (md : Metadata) (inode : Inode) : Op Fs E (list Z) :=
  capacity ← lift (double_indirect_capacity md);
  if capacity * block_size md <? i_size inode then fail Ext2Error.UnsupportedFeature
  else
    _ ← lift (allocation_capacity md inode);
    _ ← try_reserve;
    blocks ← lift (foldl (fun r block => blocks ← r; push_checked md blocks block) (Ok [])
                     (filter (fun block => block <> 0) (i_blocks inode)));
    blocks ← (if i_single_indirect inode =? 0 then mret blocks
              else push_indirect md (i_single_indirect inode) blocks);
    if i_double_indirect inode =? 0 then mret blocks
    else if blocks_count md <=? i_double_indirect inode then fail Ext2Error.InvalidFilesystem
    else
      root ← read_block md (i_double_indirect inode) zeroed_block;
      blocks ← push_double md root 0 (Z.to_nat (block_size md / 4)) blocks;
      lift (push_unique_block blocks (i_double_indirect inode)).

Definition update_directory_link_count (md : Metadata) (inode_number : Z) (increase : bool) :
  Op Fs E unit :=
  root ← read_inode md inode_number;
  links ← lift (ok_or (if increase then checked_add u16_limit (i_links root) 1
                       else checked_sub (i_links root) 1) Ext2Error.InvalidFilesystem);
  size ← lift (ok_or (to_u32 (i_size root)) Ext2Error.UnsupportedFeature);
  without_tx (write_inode_fields md inode_number (i_mode root) size links (i_blocks root)
                (i_single_indirect root) (i_double_indirect root) (i_allocated_blocks_512 root) false).

(** ** Creating and removing *)

(** [find_free_bit(&inode_bitmap, ..).and_then(|index| index.checked_add(1))]. *)
Definition free_inode (md : Metadata) (bitmap : list Z) : outcome E Z :=
  found ← find_free_bit bitmap (inodes_count md);
  ok_or (index ← found; checked_add u32_limit index 1) Ext2Error.NoSpace.

Definition create_directory_in (md : Metadata) (parent_number : Z) (parent : Inode) (name : list Z) :
  Op Fs E unit :=
  _ ← ensure_directory_entry_space md parent name;
  t ← read_allocation_tables md;
  inode_number ← lift (free_inode md (inode_bitmap t));
  found ← lift (find_free_bit (block_bitmap t) (blocks_count md - first_data_block md));
  block_index ← lift (ok_or found Ext2Error.NoSpace);
  data_block ← lift (ok_or (checked_add u32_limit block_index (first_data_block md))
                       Ext2Error.InvalidFilesystem);
  '(_, inodes) ← on_bitmap (inode_bitmap t) (update_inode_bitmap inode_number true);
  '(_, blocks) ← on_bitmap (block_bitmap t) (update_block_bitmap md data_block true);
  directory ← lift (new_directory md inode_number parent_number);
  _ ← write_block md data_block directory;
  sectors ← lift (ok_or (to_u32 (block_size md / 512)) Ext2Error.InvalidFilesystem);
  _ ← without_tx (write_inode_fields md inode_number 0x41ed (block_size md) 2
                    (data_block :: replicate 11 0) 0 0 sectors true);
  _ ← write_block md (block_bitmap_number t) blocks;
  _ ← write_block md (inode_bitmap_number t) inodes;
  _ ← without_tx (update_free_counters md (descriptor t) (-1) (-1));
  _ ← update_directory_link_count md parent_number true;
  without_tx (add_directory_entry md parent name inode_number 2).

Definition remove_root_entry_allocations (md : Metadata) (parent_number : Z) (parent : Inode)
  (name : list Z) (inode_number : Z) (inode : Inode) (data_blocks : list Z) : Op Fs E unit :=
  if negb (i_links inode =? (if is_directory inode then 2 else 1)) then fail Ext2Error.UnsupportedFeature
  else
    t ← read_allocation_tables md;
    '(_, inodes) ← on_bitmap (inode_bitmap t) (update_inode_bitmap inode_number false);
    '(_, blocks) ← on_bitmap (block_bitmap t)
                     (for_op data_blocks (fun block => update_block_bitmap md block false));
    _ ← remove_directory_entry md parent name;
    _ ← write_block md (block_bitmap_number t) blocks;
    _ ← write_block md (inode_bitmap_number t) inodes;
    count ← lift (ok_or (to_i32 (Z.of_nat (length data_blocks))) Ext2Error.InvalidFilesystem);
    _ ← without_tx (update_free_counters md (descriptor t) count 1);
    _ ← without_tx (write_inode_fields md inode_number 0 0 0 (replicate DIRECT_BLOCKS 0) 0 0 0 true);
    if is_directory inode then update_directory_link_count md parent_number false else mret tt.

Definition create_directory (path : list Z) : Op Fs E unit :=
  md ← writable_metadata;
  '(parent_number, parent, name) ← resolve_parent md path;
  found ← find_child md parent name;
  match found with
  | Some _ => fail Ext2Error.AlreadyExists
  | None => create_directory_in md parent_number parent name
  end.

Definition remove_file (path : list Z) : Op Fs E unit :=
  md ← writable_metadata;
  '(parent_number, parent, name) ← resolve_parent md path;
  found ← find_child md parent name;
  inode_number ← lift (ok_or found Ext2Error.NotFound);
  inode ← read_inode md inode_number;
  if negb (is_regular inode) then fail Ext2Error.InvalidPath
  else
    capacity ← lift (double_indirect_capacity md);
    if capacity * block_size md <? i_size inode then fail Ext2Error.UnsupportedFeature
    else
      blocks ← collect_file_allocations md inode;
      remove_root_entry_allocations md parent_number parent name inode_number inode blocks.

(** ** Writing files *)

(** [a.div_ceil(b)]. *)
Definition div_ceil (a b : Z) : Z := a / b + (if a mod b =? 0 then 0 else 1).

(** [contents.chunks(size)]. *)
Definition chunks (size : Z) (contents : list Z) : list (list Z) :=
  (fun i => take (Z.to_nat size) (drop (i * Z.to_nat size) contents))
    <$> seq 0 (Z.to_nat (div_ceil (Z.of_nat (length contents)) size)).

(** The loop that writes the chunks, from chunk [index] on. *)
Fixpoint write_chunks (md : Metadata) (data_blocks : list Z) (index : nat) (l : list (list Z)) :
  Op Fs E unit :=
  match l with
  | [] => mret tt
  | contents_chunk :: l =>
      data ← lift (copy_at zeroed_block 0 contents_chunk);
      block ← lift (expect (data_blocks !! index));
      _ ← write_block md block data;
      write_chunks md data_blocks (S index) l
  end.

(** The loops that fill a block of pointers. *)
Fixpoint put_table (buffer : list Z) (index : nat) (pointers : list Z) : outcome E (list Z) :=
  match pointers with
  | [] => Ok buffer
  | p :: pointers =>
      buffer ← put_le 4 buffer (Z.of_nat index * 4) p;
      put_table buffer (S index) pointers
  end.

(** [data_blocks.get(start + index).copied().unwrap_or(0)] for [index] in [0..n]. *)
Definition pointers_from (data_blocks : list Z) (start n : Z) : list Z :=
  (fun i => default 0 (data_blocks !! (Z.to_nat start + i)%nat)) <$> seq 0 (Z.to_nat n).

Fixpoint write_leaves (md : Metadata) (data_blocks : list Z) (start : Z) (leaves : list Z) :
  Op Fs E unit :=
  match leaves with
  | [] => mret tt
  | leaf :: leaves =>
      let pointer_capacity := block_size md / 4 in
      pointers ← lift (put_table zeroed_block 0 (pointers_from data_blocks start pointer_capacity));
      _ ← write_block md leaf pointers;
      write_leaves md data_blocks (start + pointer_capacity) leaves
  end.

(** The blocks of the new contents: the pointer blocks and the data. *)
Record NewBlocks := mk_new_blocks {
  nb_single : Z;
  nb_double : Z;
  nb_leaves : list Z;
  nb_data : list Z;
}.

Definition allocate_file (md : Metadata) (required_blocks required_leaves : Z) :
  Op (list Z) E NewBlocks :=
  single ← (if Z.of_nat DIRECT_BLOCKS <? required_blocks then allocate_data_block md else mret 0);
  double ← (if negb (required_leaves =? 0) then allocate_data_block md else mret 0);
  leaves ← allocate_blocks md (Z.to_nat required_leaves);
  data ← allocate_blocks md (Z.to_nat required_blocks);
  mret (mk_new_blocks single double leaves data).

(** The contents and the pointers, in blocks no file uses yet. *)
Definition write_new_blocks (md : Metadata) (nb : NewBlocks) (contents : list Z) : Op Fs E unit :=
  let pointer_capacity := block_size md / 4 in
  _ ← write_chunks md (nb_data nb) 0 (chunks (block_size md) contents);
  _ ← (if nb_single nb =? 0 then mret tt
       else
         pointers ← lift (put_table zeroed_block 0
                            (pointers_from (nb_data nb) (Z.of_nat DIRECT_BLOCKS) pointer_capacity));
         write_block md (nb_single nb) pointers);
  if bool_decide (nb_leaves nb = []) then mret tt
  else
    single_capacity ← lift (single_indirect_capacity md);
    root ← lift (put_table zeroed_block 0 (nb_leaves nb));
    _ ← write_leaves md (nb_data nb) single_capacity (nb_leaves nb);
    write_block md (nb_double nb) root.

(** [required_blocks + usize::from(..) + usize::from(..) + required_double_leaves]. *)
Definition allocated_blocks (required_blocks required_leaves : Z) : Z :=
  required_blocks + (if Z.of_nat DIRECT_BLOCKS <? required_blocks then 1 else 0)
  + (if required_leaves =? 0 then 0 else 1) + required_leaves.

(** The file [write_file] replaces, if there is one. *)
Definition write_target (md : Metadata) (parent : Inode) (name : list Z) (max_file_size : Z) :
  Op Fs E (option (Z * Inode)) :=
  found ← find_child md parent name;
  match found with
  | None => mret None
  | Some inode_number =>
      inode ← read_inode md inode_number;
      if negb (is_regular inode) then fail Ext2Error.InvalidPath
      else if max_file_size <? i_size inode then fail Ext2Error.UnsupportedFeature
      else mret (Some (inode_number, inode))
  end.

(** The closure of [commit_result]. *)
Definition commit (md : Metadata) (t : Tables) (parent : Inode) (name : list Z) (number : Z)
  (new_inode : bool) (blocks : list Z) (nb : NewBlocks) (allocated count size sectors : Z) :
  Op Tx E unit :=
  _ ← (if negb (allocated =? 0) then transaction_write md (block_bitmap_number t) blocks else mret tt);
  _ ← (if new_inode then
         let bit := number - 1 in
         value ← lift (expect (inode_bitmap t !! Z.to_nat (bit / 8)));
         transaction_write md (inode_bitmap_number t)
           (<[Z.to_nat (bit / 8) := Z.lor value (Z.shiftl 1 (bit mod 8))]> (inode_bitmap t))
       else mret tt);
  _ ← update_free_counters md (descriptor t) (- count) (if new_inode then -1 else 0);
  length_ ← lift (ok_or (to_u32 size) Ext2Error.UnsupportedFeature);
  _ ← write_inode_fields md number 0x81a4 length_ 1
        (take DIRECT_BLOCKS (nb_data nb ++ replicate DIRECT_BLOCKS 0)) (nb_single nb) (nb_double nb)
        sectors new_inode;
  if new_inode then add_directory_entry md parent name number 1 else mret tt.

(** An operation with a transaction of its own: its result and the blocks it saved. *)
Definition transact (op : Op Tx E unit) : Op Fs E (option E * BlockTransaction) := fun s =>
  let '(s, tx, r) := op (s, Some []) in
  match r with
  | Ok _ => (s, Ok (None, default [] tx))
  | Err e => (s, Ok (Some e, default [] tx))
  | Panic => (s, Panic)
  end.

(** [result.is_err()]. *)
Definition failed (op : Op Fs E unit) : Op Fs E bool := fun s =>
  match op s with
  | (s, Ok _) => (s, Ok false)
  | (s, Err _) => (s, Ok true)
  | (s, Panic) => (s, Panic)
  end.

(** The end of [write_file]: commit, then free the blocks of the old contents. *)
Definition commit_and_free (md : Metadata) (commit_ : Op Tx E unit) (old_blocks : list Z) :
  Op Fs E unit :=
  '(error, undo) ← transact commit_;
  match error with
  | Some error => _ ← rollback md undo; fail error
  | None =>
      '(error, cleanup) ← transact (free_data_blocks md old_blocks);
      match error with
      | None => mret tt
      | Some error =>
          cleanup_failed ← failed (rollback md cleanup);
          commit_failed ← failed (rollback md undo);
          if cleanup_failed || commit_failed then fail Ext2Error.RecoveryFailed else fail error
      end
  end.

Definition write_file (path contents : list Z) : Op Fs E unit :=
  md ← writable_metadata;
  '(_, parent, name) ← resolve_parent md path;
  let pointer_capacity := block_size md / 4 in
  let size := Z.of_nat (length contents) in
  single_capacity ← lift (single_indirect_capacity md);
  max_file_size ← lift (capacity ← double_indirect_capacity md;
                        ok_or (checked_mul u64_limit (block_size md) capacity)
                          Ext2Error.UnsupportedFeature);
  if (max_file_size <? size) || (u32_limit <=? size) then fail Ext2Error.UnsupportedFeature
  else
    target ← write_target md parent name max_file_size;
    let new_inode := is_none target in
    _ ← (if new_inode then ensure_directory_entry_space md parent name else mret tt);
    old_blocks ← match target with
                 | Some (_, inode) => collect_file_allocations md inode
                 | None => mret []
                 end;
    t ← read_allocation_tables md;
    number ← match target with
             | Some (number, _) => mret number
             | None => lift (free_inode md (inode_bitmap t))
             end;
    let required_blocks := div_ceil size (block_size md) in
    _ ← try_reserve;
    let required_leaves := div_ceil (saturating_sub required_blocks single_capacity) pointer_capacity in
    _ ← try_reserve;
    '(nb, blocks) ← on_bitmap (block_bitmap t) (allocate_file md required_blocks required_leaves);
    let allocated := allocated_blocks required_blocks required_leaves in
    count ← lift (ok_or (to_i32 allocated) Ext2Error.InvalidFilesystem);
    _ ← write_new_blocks md nb contents;
    sectors_per_block ← lift (ok_or (to_u32 (block_size md / 512)) Ext2Error.InvalidFilesystem);
    sectors ← lift (ok_or (n ← to_u32 allocated; checked_mul u32_limit n sectors_per_block)
                      Ext2Error.InvalidFilesystem);
    commit_and_free md
      (commit md t parent name number new_inode blocks nb allocated count size sectors) old_blocks.

(** ** Listing *)

(** The names, kinds and sizes the closure of [for_each_child] is called with. *)
Definition Visits : Type := list (list Z * bool * Z).
Abbreviation Listing := (Fs * Visits)%type.

Definition quietly {A} (op : Op Fs E A) : Op Listing E A := fun '(s, visits) =>
  let '(s, r) := op s in (s, visits, r).

(** The records of a block, from [offset] on. *)
Fixpoint visit_records (fuel : nat) (md : Metadata) (block : list Z) (valid_bytes offset : Z) :
  Op Listing E unit :=
  if negb (offset + 8 <=? valid_bytes) then mret tt
  else match fuel with
       | O => panic
       | S fuel =>
           '(inode_number, record_len, name_len) ← lift (dir_record md block valid_bytes offset);
           _ ← (if inode_number =? 0 then mret tt
                else if inodes_count md <? inode_number then fail Ext2Error.InvalidFilesystem
                else
                  name ← lift (index_range block (offset + 8) (offset + 8 + name_len));
                  if bool_decide (name = [46]) || bool_decide (name = [46; 46]) then mret tt
                  else if negb (safe_component name) then fail Ext2Error.UnsupportedFeature
                  else
                    inode ← quietly (read_inode md inode_number);
                    if negb (is_directory inode) && negb (is_regular inode)
                    then fail Ext2Error.UnsupportedFeature
                    else if negb (valid_utf8 name) then fail Ext2Error.UnsupportedFeature
                    else modify (fun '(s, visits) =>
                           (s, visits ++ [(name, is_directory inode, i_size inode)])));
           visit_records fuel md block valid_bytes (offset + record_len)
       end.

Fixpoint visit_blocks (n : nat) (md : Metadata) (directory : Inode) (logical_index remaining : Z)
  (block : list Z) (c : Caches) : Op Listing E unit :=
  match n with
  | O => mret tt
  | S n =>
      '(block_number, c) ← quietly (inode_data_block md directory logical_index c);
      if block_number =? 0 then fail Ext2Error.InvalidFilesystem
      else
        block ← quietly (read_block md block_number block);
        _ ← visit_records MAX_RECORDS md block (Z.min remaining (block_size md)) 0;
        visit_blocks n md directory (logical_index + 1) (saturating_sub remaining (block_size md))
          block c
  end.

Definition for_each_child (directory : Inode) : Op Listing E unit :=
  md ← quietly metadata;
  if negb (is_directory directory) then mret tt
  else
    block_count ← lift (inode_block_count md directory);
    visit_blocks (Z.to_nat block_count) md directory 0 (i_size directory) zeroed_block new_caches.

Definition directory_exists (path : list Z) : Op Fs E bool :=
  found ← lookup_path path;
  mret (is_some_and found is_directory).

Definition for_each_entry (path : list Z) : Op Listing E unit :=
  found ← quietly (lookup_path path);
  match found with
  | Some directory => if is_directory directory then for_each_child directory else mret tt
  | None => mret tt
  end.

(** The visits of an operation on a listing, from none. *)
Definition listing {A} (op : Op Listing E A) : Op Fs E (A * Visits) := fun s =>
  let '(s, visits, r) := op (s, []) in (s, a ← r; Ok (a, visits)).

Definition remove_empty_directory (path : list Z) : Op Fs E unit :=
  md ← writable_metadata;
  '(parent_number, parent, name) ← resolve_parent md path;
  found ← find_child md parent name;
  inode_number ← lift (ok_or found Ext2Error.NotFound);
  inode ← read_inode md inode_number;
  if negb (is_directory inode) then fail Ext2Error.InvalidPath
  else
    '(_, visits) ← listing (for_each_child inode);
    if negb (bool_decide (visits = [])) then fail Ext2Error.NotEmpty
    else
      first ← (if negb (i_size inode =? block_size md) || negb (i_single_indirect inode =? 0)
                 || negb (i_double_indirect inode =? 0) then fail Ext2Error.UnsupportedFeature
               else lift (expect (i_blocks inode !! 0%nat)));
      if (first =? 0) || existsb (fun block => negb (block =? 0)) (drop 1 (i_blocks inode))
      then fail Ext2Error.UnsupportedFeature
      else remove_root_entry_allocations md parent_number parent name inode_number inode [first].

(** ** Reading files *)

(** The state while a buffer is filled. *)
Abbreviation Reading := (Fs * list Z)%type.

Definition beside {A} (op : Op Fs E A) : Op Reading E A := fun '(s, output) =>
  let '(s, r) := op s in (s, output, r).

(** The [while] loop of [read_inode_contents]; each round fills at least a byte, and
    all but the first and the last a block. *)
Fixpoint read_rounds (fuel : nat) (md : Metadata) (inode : Inode) (block_count copy_len copied : Z)
  (block : list Z) (c : Caches) : Op Reading E Z :=
  if negb (copied <? copy_len) then mret copied
  else match fuel with
       | O => panic
       | S fuel =>
           let block_index := copied / block_size md in
           let block_offset := copied mod block_size md in
           if block_count <=? block_index then fail Ext2Error.InvalidFilesystem
           else
             '(block_number, c) ← beside (inode_data_block md inode block_index c);
             let amount := Z.min (block_size md - block_offset) (copy_len - copied) in
             '(_, output) ← get;
             if block_number =? 0 then
               output ← lift (fill_zero output copied (copied + amount));
               _ ← modify (fun '(s, _) => (s, output));
               read_rounds fuel md inode block_count copy_len (copied + amount) block c
             else
               block ← beside (read_block md block_number block);
               bytes ← lift (index_range block block_offset (block_offset + amount));
               output ← lift (copy_at output (Z.to_nat copied) bytes);
               _ ← modify (fun '(s, _) => (s, output));
               read_rounds fuel md inode block_count copy_len (copied + amount) block c
       end.

Definition read_inode_contents (md : Metadata) (inode : Inode) : Op Reading E (Z * Z) :=
  block_count ← lift (inode_block_count md inode);
  '(_, output) ← get;
  let copy_len := Z.min (i_size inode) (Z.of_nat (length output)) in
  copied ← read_rounds (S (length output)) md inode block_count copy_len 0 zeroed_block new_caches;
  mret (copied, i_size inode).

Definition read_file (path : list Z) : Op Reading E (option (Z * Z)) :=
  md ← beside metadata;
  found ← beside (lookup_path path);
  match found with
  | None => mret None
  | Some inode =>
      if negb (is_regular inode) then mret None
      else r ← read_inode_contents md inode; mret (Some r)
  end.

(** An operation on a reading from a buffer: the buffer it filled. *)
Definition filling {A} (output : list Z) (op : Op Reading E A) : Op Fs E (A * list Z) := fun s =>
  let '(s, output, r) := op (s, output) in (s, a ← r; Ok (a, output)).

Definition read_file_vec (path : list Z) (max_size : Z) : Op Fs E (option (list Z)) :=
  md ← metadata;
  found ← lookup_path path;
  match found with
  | None => mret None
  | Some inode =>
      if negb (is_regular inode) then mret None
      else if max_size <? i_size inode then fail Ext2Error.FileTooLarge
      else
        _ ← try_reserve;
        '(_, contents) ← filling (replicate (Z.to_nat (i_size inode)) 0) (read_inode_contents md inode);
        mret (Some contents)
  end.

Definition free_block_count : Op Fs E Z :=
  md ← metadata;
  superblock ← read_block md (first_data_block md) zeroed_block;
  lift (le32 superblock 12).

(** ** The file system its clients call *)

#[global] Instance ext2_fs : FileSystem Fs E := {|
  fs_write_file path contents := write_file path contents;
  fs_read_file_vec path max_size := read_file_vec path (Z.of_nat max_size);
  fs_read_file path output s :=
    let '(s, output, r) := read_file path (s, output) in
    (s, output, match r with
                | Ok (Some (copied, size)) => Ok (Some (Z.to_nat copied, size))
                | Ok None => Ok None
                | Err e => Err e
                | Panic => Panic
                end);
  fs_for_each_entry path s :=
    let '(s, visits, r) := for_each_entry path (s, []) in (s, visits, r);
|}.

End ext2.
