(* ===== verification/Ext2Bits.v ===== *)
(** * Fields of blocks and bitmaps

    What the byte accessors and the bitmap functions of [fs/ext2.rs] compute: the
    integers a buffer holds, and the blocks and inodes a bitmap marks. *)

From S2P Require Import Prelude Refine Utf8 FileSystem Disk Ext2.

Local Open Scope Z_scope.

#[local] Abbreviation E := Ext2Error.t.

(** The [n]-byte integer at an offset. *)
Definition field (n : nat) (l : list Z) (off : Z) : Z :=
  le_decode (slice l (Z.to_nat off) (Z.to_nat off + n)).

(** A [zeroed_block] and what is read into it. *)
Definition buffer (l : list Z) : Prop := length l = 4096%nat /\ bytes_ok l.

Create HintDb ext2.

(** ** Bytes *)

Lemma bytes_ok_splice l off src : bytes_ok l -> bytes_ok src -> bytes_ok (splice l off src).
Proof.
  intros Hl Hs. unfold splice. apply Forall_app. split; [by apply Forall_take|].
  apply Forall_app. split; [done|by apply Forall_drop].
Qed.

Lemma bytes_ok_zeros n : bytes_ok (replicate n 0).
Proof. apply Forall_replicate. done. Qed.

Lemma bytes_ok_insert l i b : bytes_ok l -> is_byte b -> bytes_ok (<[i := b]> l).
Proof. intros. by apply Forall_insert. Qed.

Lemma byte_at l i b : bytes_ok l -> l !! i = Some b -> 0 <= b < 256.
Proof. intros Hl Hi. unfold bytes_ok in Hl. rewrite Forall_lookup in Hl. apply (Hl i b Hi). Qed.

Lemma byte_exists l i : bytes_ok l -> (i < length l)%nat -> exists b, l !! i = Some b /\ 0 <= b < 256.
Proof.
  intros Hl Hi. destruct (lookup_lt_is_Some_2 l i Hi) as [b Hb]. exists b. split; [done|].
  by eapply byte_at.
Qed.

Lemma zeroed_buffer : buffer zeroed_block.
Proof. split; [apply length_replicate|apply bytes_ok_zeros]. Qed.

Lemma splice_buffer l off src :
  buffer l -> bytes_ok src -> (off + length src <= 4096)%nat -> buffer (splice l off src).
Proof. intros [Hl Hb] Hs Ho. split; [rewrite length_splice; lia|by apply bytes_ok_splice]. Qed.

#[export] Hint Resolve bytes_ok_slice bytes_ok_splice bytes_ok_zeros le_encode_bytes zeroed_buffer
  splice_buffer : ext2.

(** ** Integers *)

Lemma field_bound n l off : bytes_ok l -> 0 <= field n l off < 256 ^ Z.of_nat n.
Proof.
  intros Hl. unfold field. pose proof (le_decode_bound (slice l (Z.to_nat off) (Z.to_nat off + n))
    (bytes_ok_slice _ _ _ Hl)) as Hb.
  assert (length (slice l (Z.to_nat off) (Z.to_nat off + n)) <= n)%nat as Hn.
  { unfold slice. rewrite length_take. lia. }
  split; [lia|]. eapply Z.lt_le_trans; [apply Hb|]. apply Z.pow_le_mono_r; lia.
Qed.

Lemma field_length n (l : list Z) off :
  0 <= off -> off + Z.of_nat n <= Z.of_nat (length l) ->
  length (slice l (Z.to_nat off) (Z.to_nat off + n)) = n.
Proof. intros. rewrite length_slice; lia. Qed.

Lemma field_S n (l : list Z) off :
  0 <= off < Z.of_nat (length l) ->
  field (S n) l off = field 1 l off + 256 * field n l (off + 1).
Proof.
  intros Ho. unfold field, slice.
  destruct (lookup_lt_is_Some_2 l (Z.to_nat off)) as [b Hb]; [lia|].
  replace (Z.to_nat off + S n - Z.to_nat off)%nat with (S n) by lia.
  replace (Z.to_nat off + 1 - Z.to_nat off)%nat with 1%nat by lia.
  replace (Z.to_nat (off + 1) + n - Z.to_nat (off + 1))%nat with n by lia.
  replace (Z.to_nat (off + 1)) with (S (Z.to_nat off)) by lia.
  rewrite !(drop_S _ _ _ Hb). cbn [take le_decode]. rewrite take_0. cbn [le_decode]. lia.
Qed.

Lemma le_decode_zeros l : Forall (fun b => b = 0) l -> le_decode l = 0.
Proof. induction 1 as [|b l -> _ IH]; [done|]. cbn [le_decode]. lia. Qed.

Lemma field_zeroed n off : field n zeroed_block off = 0.
Proof.
  unfold field, slice, zeroed_block. apply le_decode_zeros, Forall_take, Forall_drop. by apply Forall_replicate.
Qed.

Lemma le16_ok l off : 0 <= off -> off + 2 <= Z.of_nat (length l) -> le16 l off = Ok (field 2 l off).
Proof.
  intros. unfold le16. rewrite index_range_in by lia. cbn. unfold field. do 3 f_equal. lia.
Qed.

Lemma le32_ok l off : 0 <= off -> off + 4 <= Z.of_nat (length l) -> le32 l off = Ok (field 4 l off).
Proof.
  intros. unfold le32. rewrite index_range_in by lia. cbn. unfold field. do 3 f_equal. lia.
Qed.

Lemma copy_at_ok {F} l off src :
  (off + length src <= length l)%nat -> copy_at (E := F) l off src = Ok (splice l off src).
Proof. intros. unfold copy_at. by rewrite (proj2 (Nat.leb_le _ _)). Qed.

Lemma put_le_ok n l off v :
  0 <= off -> off + Z.of_nat n <= Z.of_nat (length l) ->
  put_le n l off v = Ok (splice l (Z.to_nat off) (le_encode n v)).
Proof. intros. unfold put_le. apply copy_at_ok. rewrite length_le_encode. lia. Qed.

Lemma fill_zero_ok l a b :
  0 <= a <= b -> b <= Z.of_nat (length l) ->
  fill_zero l a b = Ok (splice l (Z.to_nat a) (replicate (Z.to_nat (b - a)) 0)).
Proof.
  intros. unfold fill_zero. rewrite (proj2 (Z.ltb_ge _ _)) by lia. apply copy_at_ok.
  rewrite length_replicate. lia.
Qed.

Lemma slice_splice_same {A} (l : list A) off src :
  (off + length src <= length l)%nat -> slice (splice l off src) off (off + length src) = src.
Proof.
  intros Hl. unfold splice, slice. rewrite drop_app_ge by (rewrite length_take; lia).
  rewrite length_take. replace (off - off `min` length l)%nat with 0%nat by lia.
  rewrite drop_0. replace (off + length src - off)%nat with (length src) by lia.
  apply take_app_length.
Qed.

Lemma slice_splice_other {A} (l : list A) off src a b :
  (off + length src <= length l)%nat -> (b <= off \/ off + length src <= a)%nat ->
  slice (splice l off src) a b = slice l a b.
Proof.
  intros Hl Hd. apply list_eq. intros i. destruct (decide (i < b - a)%nat) as [Hi|Hi].
  - rewrite !lookup_slice by lia. apply lookup_splice_out; [done|]. lia.
  - unfold slice. rewrite !lookup_take_ge by lia. done.
Qed.

Lemma field_splice_same n l off v :
  0 <= off -> off + Z.of_nat n <= Z.of_nat (length l) -> 0 <= v < 256 ^ Z.of_nat n ->
  field n (splice l (Z.to_nat off) (le_encode n v)) off = v.
Proof.
  intros Ho Hl Hv. unfold field. rewrite <-(length_le_encode n v) at 2.
  rewrite slice_splice_same by (rewrite length_le_encode; lia). by apply le_decode_encode.
Qed.

Lemma field_splice_other n l o src off :
  (o + length src <= length l)%nat -> 0 <= off ->
  (off + Z.of_nat n <= Z.of_nat o \/ Z.of_nat o + Z.of_nat (length src) <= off) ->
  field n (splice l o src) off = field n l off.
Proof. intros Hl Ho Hd. unfold field. rewrite slice_splice_other; [done|done|lia]. Qed.

Lemma field_take n (l : list Z) k off :
  0 <= off -> off + Z.of_nat n <= Z.of_nat k -> field n (take k l) off = field n l off.
Proof.
  intros Ho Hk. unfold field. f_equal. apply list_eq. intros i.
  destruct (decide (i < n)%nat) as [Hi|Hi].
  - rewrite !lookup_slice by lia. apply lookup_take_lt. lia.
  - unfold slice. rewrite !lookup_take_ge by lia. done.
Qed.

(** ** Stores *)

(** [k] bytes. *)
Definition sized (k : nat) (l : list Z) : Prop := length l = k /\ bytes_ok l.

(** Only bytes of [[a, b)] differ. *)
Definition changed (l l' : list Z) (a b : Z) : Prop :=
  forall i : nat, Z.of_nat i < a \/ b <= Z.of_nat i -> l' !! i = l !! i.

Lemma slice_same (l l' : list Z) x y :
  (forall i, (x <= i < y)%nat -> l' !! i = l !! i) -> slice l' x y = slice l x y.
Proof.
  intros Hs. apply list_eq. intros i. destruct (decide (i < y - x)%nat) as [Hi|Hi].
  - rewrite !lookup_slice by lia. apply Hs. lia.
  - unfold slice. rewrite !lookup_take_ge by lia. done.
Qed.

Lemma field_same n l l' off :
  0 <= off -> (forall i : nat, off <= Z.of_nat i < off + Z.of_nat n -> l' !! i = l !! i) ->
  field n l' off = field n l off.
Proof. intros Ho Hs. unfold field. f_equal. apply slice_same. intros i Hi. apply Hs. lia. Qed.

Lemma slice_changed l l' a b x y :
  changed l l' a b -> (Z.of_nat y <= a \/ b <= Z.of_nat x) -> slice l' x y = slice l x y.
Proof. intros Hc Hd. apply slice_same. intros i Hi. apply Hc. lia. Qed.

Lemma field_changed n l l' a b off :
  changed l l' a b -> 0 <= off -> (off + Z.of_nat n <= a \/ b <= off) -> field n l' off = field n l off.
Proof. intros Hc Ho Hd. unfold field. erewrite slice_changed; [done|done|lia]. Qed.

Lemma changed_splice l off src a b :
  (off + length src <= length l)%nat -> a <= Z.of_nat off -> Z.of_nat off + Z.of_nat (length src) <= b ->
  changed l (splice l off src) a b.
Proof. intros Hl Ha Hb i Hi. apply lookup_splice_out; [done|lia]. Qed.

Lemma changed_trans l l1 l2 a b :
  changed l l1 a b -> changed l1 l2 a b -> changed l l2 a b.
Proof. intros H1 H2 i Hi. by rewrite H2, H1. Qed.

Lemma changed_mono l l' a b a' b' : changed l l' a b -> a' <= a -> b <= b' -> changed l l' a' b'.
Proof. intros Hc ? ? i Hi. apply Hc. lia. Qed.

Lemma changed_refl l a b : changed l l a b.
Proof. done. Qed.

Lemma copy_at_spec k l off src :
  sized k l -> bytes_ok src -> (off + length src <= k)%nat ->
  holds (copy_at (E := E) l off src) (fun l' => sized k l' /\
    changed l l' (Z.of_nat off) (Z.of_nat off + Z.of_nat (length src)) /\
    slice l' off (off + length src) = src) (fun _ => False).
Proof.
  intros [Hl Hb] Hs Ho. rewrite copy_at_ok by lia. cbn. split_and!.
  - split; [rewrite length_splice; lia|by apply bytes_ok_splice].
  - apply changed_splice; lia.
  - apply slice_splice_same. lia.
Qed.

Lemma put_le_spec k n l off v :
  sized k l -> 0 <= off -> off + Z.of_nat n <= Z.of_nat k ->
  holds (put_le n l off v) (fun l' => sized k l' /\ changed l l' off (off + Z.of_nat n) /\
    (0 <= v < 256 ^ Z.of_nat n -> field n l' off = v)) (fun _ => False).
Proof.
  intros Hl Ho Hk. unfold put_le. eapply holds_mono; [apply (copy_at_spec k); [done|apply le_encode_bytes|]| |done].
  { rewrite length_le_encode. lia. }
  intros l' (Hl' & Hc & Hs). rewrite length_le_encode in *. split_and!; [done| |].
  - eapply changed_mono; [done|lia..].
  - intros Hv. unfold field. rewrite Hs. by apply le_decode_encode.
Qed.

Lemma fill_zero_spec k l a b :
  sized k l -> 0 <= a <= b -> b <= Z.of_nat k ->
  holds (fill_zero l a b) (fun l' => sized k l' /\ changed l l' a b /\
    slice l' (Z.to_nat a) (Z.to_nat b) = replicate (Z.to_nat (b - a)) 0) (fun _ => False).
Proof.
  intros Hl Ha Hk. unfold fill_zero. rewrite (proj2 (Z.ltb_ge _ _)) by lia.
  eapply holds_mono; [apply (copy_at_spec k); [done|apply bytes_ok_zeros|]| |done].
  { rewrite length_replicate. lia. }
  intros l' (Hl' & Hc & Hs). rewrite length_replicate in *. split_and!; [done| |].
  - eapply changed_mono; [done|lia..].
  - rewrite <-Hs. f_equal. lia.
Qed.

Lemma buffer_sized l : buffer l <-> sized 4096 l.
Proof. done. Qed.

(** ** Bitmaps *)

Definition bit_set (bitmap : list Z) (i : Z) : bool :=
  Z.testbit (default 0 (bitmap !! Z.to_nat (i / 8))) (i mod 8).

(** An operation on a bitmap is a function of the bitmap. *)
#[export] Instance bitmap_itself : Abstraction (list Z) (list Z) := eq.

Lemma lor_bound k x y : 0 <= k -> 0 <= x < 2 ^ k -> 0 <= y < 2 ^ k -> 0 <= Z.lor x y < 2 ^ k.
Proof.
  intros Hk Hx Hy. split; [apply Z.lor_nonneg; lia|].
  destruct (decide (Z.lor x y = 0)) as [->|Hn]; [lia|].
  assert (0 < k) as Hk0.
  { destruct (decide (k = 0)) as [->|]; [|lia]. change (2 ^ 0) with 1 in *.
    assert (x = 0) as -> by lia. assert (y = 0) as -> by lia. done. }
  assert (forall z, 0 <= z < 2 ^ k -> Z.log2 z < k) as Hlog.
  { intros z Hz. destruct (decide (z = 0)) as [->|]; [done|]. apply Z.log2_lt_pow2; lia. }
  apply Z.log2_lt_pow2; [pose proof (proj2 (Z.lor_nonneg x y)); lia|]. rewrite Z.log2_lor by lia.
  apply Z.max_lub_lt; auto.
Qed.

Lemma lor_bit_byte x k : 0 <= x < 256 -> 0 <= k < 8 -> 0 <= Z.lor x (Z.shiftl 1 k) < 256.
Proof.
  intros Hx Hk. rewrite Z.shiftl_1_l. change 256 with (2 ^ 8) in *. apply lor_bound; [lia|done|].
  split; [lia|]. apply Z.pow_lt_mono_r; lia.
Qed.

Lemma ldiff_bit_byte x k : 0 <= x < 256 -> 0 <= Z.ldiff x k < 256.
Proof.
  intros Hx. split; [apply Z.ldiff_nonneg; lia|].
  assert (Z.ldiff x k = x - Z.land x k) as ->.
  { rewrite Z.sub_nocarry_ldiff; apply Z.bits_inj'; intros j Hj;
      rewrite !Z.ldiff_spec, Z.land_spec, ?Z.bits_0; by destruct (Z.testbit x j), (Z.testbit k j). }
  assert (0 <= Z.land x k) by (apply Z.land_nonneg; lia). lia.
Qed.

Lemma land_bit_eqb x k : 0 <= k -> (Z.land x (Z.shiftl 1 k) =? 0) = negb (Z.testbit x k).
Proof.
  intros Hk. rewrite Z.shiftl_1_l. destruct (Z.testbit x k) eqn:Hb; simpl.
  - apply Z.eqb_neq. intros H0. apply (f_equal (fun z => Z.testbit z k)) in H0.
    rewrite Z.land_spec, Hb, Z.pow2_bits_true, Z.bits_0 in H0 by lia. done.
  - apply Z.eqb_eq. apply Z.bits_inj'. intros j Hj. rewrite Z.land_spec, Z.bits_0, Z.pow2_bits_eqb by lia.
    destruct (Z.eqb_spec k j) as [<-|]; [by rewrite Hb|by rewrite andb_false_r].
Qed.

Lemma bit_index i n : 0 <= i < 8 * n -> 0 <= i / 8 < n /\ 0 <= i mod 8 < 8.
Proof. intros Hi. split; [|apply Z.mod_pos_bound; lia]. split; [apply Z.div_pos; lia|].
  apply Z.div_lt_upper_bound; lia. Qed.

Lemma bit_clear_ok bm i :
  0 <= i < 8 * Z.of_nat (length bm) -> bit_clear bm i = Ok (negb (bit_set bm i)).
Proof.
  intros Hi. destruct (bit_index i _ Hi) as [Hq Hr]. unfold bit_clear, bit_set.
  destruct (lookup_lt_is_Some_2 bm (Z.to_nat (i / 8))) as [b Hb]; [lia|]. rewrite Hb. cbn.
  by rewrite land_bit_eqb by lia.
Qed.

Lemma find_free_from_spec bm n i :
  0 <= i -> i + Z.of_nat n <= 8 * Z.of_nat (length bm) ->
  holds (find_free_from bm i n) (fun r =>
    match r with
    | Some j => i <= j < i + Z.of_nat n /\ bit_set bm j = false /\
        (forall k, i <= k < j -> bit_set bm k = true)
    | None => forall k, i <= k < i + Z.of_nat n -> bit_set bm k = true
    end) (fun _ => False).
Proof.
  revert i. induction n as [|n IH]; intros i Hi Hn; simpl; [intros; lia|].
  rewrite bit_clear_ok by lia. cbn. destruct (bit_set bm i) eqn:Hb; cbn.
  - eapply holds_mono; [apply IH; lia| |done]. intros [j|] Hj.
    + destruct Hj as (Hj & Hc & Hk). split_and!; [lia|lia|done|]. intros k Hr.
      destruct (decide (k = i)) as [->|]; [done|apply Hk; lia].
    + intros k Hk. destruct (decide (k = i)) as [->|]; [done|apply Hj; lia].
  - split_and!; [lia|lia|done|]. intros; lia.
Qed.

(** The first bit that is clear. *)
Lemma find_free_bit_spec bm count :
  0 <= count <= 8 * Z.of_nat (length bm) ->
  holds (find_free_bit bm count) (fun r =>
    match r with
    | Some j => 0 <= j < count /\ bit_set bm j = false /\ (forall k, 0 <= k < j -> bit_set bm k = true)
    | None => forall k, 0 <= k < count -> bit_set bm k = true
    end) (fun _ => False).
Proof.
  intros Hc. unfold find_free_bit. eapply holds_mono; [apply find_free_from_spec; lia| |done].
  intros [j|] Hj; rewrite Z2Nat.id in Hj by lia; exact Hj.
Qed.

Lemma bit_set_insert bm i x j :
  0 <= j -> 0 <= i -> (Z.to_nat (i / 8) < length bm)%nat ->
  (i / 8 = j / 8 -> i mod 8 <> j mod 8 -> Z.testbit x (j mod 8) = bit_set bm j) ->
  bit_set (<[Z.to_nat (i / 8) := x]> bm) j =
  if decide (i = j) then Z.testbit x (i mod 8) else bit_set bm j.
Proof.
  intros Hj Hi Hl Hx. unfold bit_set in *.
  pose proof (Z.div_mod i 8). pose proof (Z.div_mod j 8).
  assert (0 <= i / 8 /\ 0 <= j / 8) as [? ?] by (split; apply Z.div_pos; lia).
  destruct (decide (i / 8 = j / 8)) as [Hq|Hq].
  - rewrite <-Hq, list_lookup_insert_eq by done. simpl default. case_decide as Hd; [by rewrite <-Hd|].
    rewrite Hx; [by rewrite <-Hq|done|lia].
  - rewrite list_lookup_insert_ne by lia. case_decide; [by subst|done].
Qed.

(** Setting or clearing a bit of a byte. *)
Lemma bit_set_update bm i v (a : bool) j :
  bm !! Z.to_nat (i / 8) = Some v -> 0 <= i -> 0 <= j ->
  bit_set (<[Z.to_nat (i / 8) := if a then Z.lor v (Z.shiftl 1 (i mod 8)) else Z.ldiff v (Z.shiftl 1 (i mod 8))]> bm) j =
  if decide (i = j) then a else bit_set bm j.
Proof.
  intros Hv Hi Hj. pose proof (Z.mod_pos_bound i 8). pose proof (Z.mod_pos_bound j 8).
  rewrite bit_set_insert; [|done|done|by eapply lookup_lt_Some|].
  - case_decide; [|done]. destruct a;
      rewrite ?Z.lor_spec, ?Z.ldiff_spec, Z.shiftl_1_l, Z.pow2_bits_true by lia;
      [by rewrite orb_true_r|by rewrite andb_false_r].
  - intros Hq' Hr'. unfold bit_set. rewrite <-Hq', Hv. simpl default.
    destruct a; rewrite ?Z.lor_spec, ?Z.ldiff_spec, Z.shiftl_1_l, Z.pow2_bits_false by lia;
      [by rewrite orb_false_r|by rewrite andb_true_r].
Qed.

Lemma update_bit_spec bm i allocated :
  buffer bm -> 0 <= i < 8 * 4096 ->
  runs bm (update_bit i allocated)
    (fun _ bm' => buffer bm' /\ bit_set bm i = negb allocated /\
       forall j, 0 <= j -> bit_set bm' j = if decide (i = j) then allocated else bit_set bm j)
    (fun e bm' => bm' = bm /\ bit_set bm i = allocated /\ e = Ext2Error.InvalidFilesystem).
Proof.
  intros [Hl Hb] Hi. destruct (bit_index i 4096) as [Hq Hr]; [lia|].
  destruct (byte_exists bm (Z.to_nat (i / 8)) Hb) as (v & Hv & Hv'); [lia|].
  assert (bit_set bm i = Z.testbit v (i mod 8)) as Hset by (unfold bit_set; by rewrite Hv).
  unfold update_bit. apply runs_get. cbv zeta. rewrite Hv. apply runs_ok_bind. rewrite land_bit_eqb, negb_involutive, <-Hset by lia.
  apply runs_if; intros He.
  { apply runs_fail. split_and!; [done| |done]. by apply Bool.eqb_prop. }
  assert (bit_set bm i = negb allocated) as Hneg by (by destruct (bit_set bm i), allocated).
  intros s <-. unfold put. cbn [fst snd holds]. eexists. split; [done|]. split; [|split; [done|]].
  - split; [by rewrite length_insert|]. apply bytes_ok_insert; [done|].
    destruct allocated; [by apply lor_bit_byte|by apply ldiff_bit_byte].
  - intros j Hj. apply (bit_set_update bm i v allocated j); [done|lia|done].
Qed.

(** ** The metadata of a mounted volume *)

(** What [parse_superblock] accepts. *)
Record metadata_ok (md : Metadata) : Prop := {
  ok_block_size : block_size md = 1024 \/ block_size md = 2048 \/ block_size md = 4096;
  ok_blocks : 0 <= first_data_block md < blocks_count md;
  ok_blocks_max : blocks_count md < u32_limit;
  ok_disk : blocks_count md * (block_size md / 512) <= 0x10000000;
  ok_inodes : ROOT_INODE <= inodes_count md < u32_limit;
  ok_blocks_per_group : 0 < blocks_per_group md <= 8 * block_size md;
  ok_inodes_per_group : 0 < inodes_per_group md <= 8 * block_size md;
  ok_inode_size : 128 <= inode_size md <= block_size md;
  ok_inode_fits : (inode_size md | block_size md);
  ok_groups : 0 < group_count md <= MAX_GROUPS;
  ok_descriptors : first_data_block md + 1 + div_ceil (32 * group_count md) (block_size md)
                   <= blocks_count md;
  ok_first_block : first_data_block md = if block_size md =? 1024 then 1 else 0;
}.

(** What [writable_metadata] asks for. *)
Record writable_ok (md : Metadata) : Prop := {
  wr_ok : metadata_ok md;
  wr_block_size : block_size md = 1024;
  wr_groups : group_count md = 1;
  wr_inode_size : inode_size md = 128;
  wr_blocks : blocks_count md - first_data_block md <= blocks_per_group md;
  wr_inodes : inodes_count md <= inodes_per_group md;
}.

(** ** Allocation *)

Section allocation.
Context (md : Metadata) (Hmd : writable_ok md).

(** Blocks the bitmap has a bit for, and their bits. *)
Definition data_block (b : Z) : Prop := first_data_block md <= b < blocks_count md.
Definition used (bm : list Z) (b : Z) : bool := bit_set bm (b - first_data_block md).

(** The bitmap after the blocks [l], which were free, were allocated. *)
Record allocated (bm : list Z) (l : list Z) (bm' : list Z) : Prop := {
  al_nodup : NoDup l;
  al_free : forall b, b ∈ l -> data_block b /\ used bm b = false;
  al_buffer : buffer bm';
  al_used : forall b, data_block b -> used bm' b = used bm b || bool_decide (b ∈ l);
}.

(** The bitmap after the blocks [l], which were allocated, were freed. *)
Record freed (bm : list Z) (l : list Z) (bm' : list Z) : Prop := {
  fr_nodup : NoDup l;
  fr_used : forall b, b ∈ l -> data_block b /\ used bm b = true;
  fr_buffer : buffer bm';
  fr_after : forall b, data_block b -> used bm' b = used bm b && negb (bool_decide (b ∈ l));
}.

Lemma data_blocks_bits : blocks_count md - first_data_block md <= 8192.
Proof. destruct Hmd as [Hok Hb _ _ Hw _]. destruct Hok. rewrite Hb in *. lia. Qed.

Lemma inode_bits : inodes_count md <= 8192.
Proof. destruct Hmd as [Hok Hb _ _ _ Hw]. destruct Hok. rewrite Hb in *. lia. Qed.

Lemma first_block_nonneg : 0 <= first_data_block md.
Proof. destruct Hmd as [Hok]. destruct Hok. lia. Qed.

Lemma allocated_nil bm : buffer bm -> allocated bm [] bm.
Proof.
  intros Hb. split; [apply NoDup_nil_2|by intros b Hb'%not_elem_of_nil|done|].
  intros b _. by rewrite bool_decide_eq_false_2, orb_false_r by apply not_elem_of_nil.
Qed.

Lemma allocated_app bm l bm1 l' bm2 :
  allocated bm l bm1 -> allocated bm1 l' bm2 -> allocated bm (l ++ l') bm2.
Proof.
  intros [Hn1 Hf1 Hb1 Hu1] [Hn2 Hf2 Hb2 Hu2].
  assert (forall b, b ∈ l' -> used bm b = false /\ b ∉ l) as Hl'.
  { intros b Hb. destruct (Hf2 b Hb) as [Hd Hu]. rewrite Hu1, orb_false_iff in Hu by done.
    destruct Hu as [Hu Hn]. by apply bool_decide_eq_false in Hn. }
  split; [apply NoDup_app; split_and!; [done| |done]| |done|].
  - intros b Hb Hb'. by destruct (Hl' b Hb').
  - intros b [Hb|Hb]%elem_of_app; [by apply Hf1|]. split; [by apply Hf2|by apply Hl'].
  - intros b Hb. rewrite Hu2, Hu1 by done. rewrite <-orb_assoc. f_equal.
    rewrite <-bool_decide_or. apply bool_decide_ext. by rewrite elem_of_app.
Qed.

Lemma update_block_bitmap_spec bm b a :
  buffer bm ->
  runs bm (update_block_bitmap md b a)
    (fun _ bm' => data_block b /\ used bm b = negb a /\ buffer bm' /\
       forall b', data_block b' -> used bm' b' = if decide (b = b') then a else used bm b')
    (fun e bm' => bm' = bm /\ e = Ext2Error.InvalidFilesystem /\ (data_block b -> used bm b = a)).
Proof.
  intros Hbm. pose proof data_blocks_bits. pose proof first_block_nonneg.
  unfold update_block_bitmap. run_step.
  { run_step. split_and!; [done|done|]. unfold data_block. apply orb_true_iff in H1 as [?|?]; bools; lia. }
  bools. eapply runs_mono; [apply update_bit_spec; [done|lia]| |].
  - intros _ bm' (Hb' & Hset & Hbits). split_and!; [split; lia|done|done|].
    intros b' [? ?]. unfold used. rewrite Hbits by lia. repeat case_decide; done || lia.
  - intros e bm' (-> & Hs & ->). done.
Qed.

Lemma allocate_data_block_spec bm :
  buffer bm ->
  runs bm (allocate_data_block md) (fun b bm' => allocated bm [b] bm') (fun e bm' => e = Ext2Error.NoSpace).
Proof.
  intros Hbm. pose proof data_blocks_bits. pose proof first_block_nonneg.
  destruct (ok_blocks _ (wr_ok _ Hmd)). pose proof (ok_blocks_max _ (wr_ok _ Hmd)).
  unfold allocate_data_block. apply runs_get. eapply runs_lift_bind.
  { eapply holds_mono; [apply find_free_bit_spec|intros r Hr; exact Hr|done]. destruct Hbm as [-> _]. lia. }
  intros [i|] Hr; [|eapply runs_lift_bind with (R := fun _ => False); done].
  destruct Hr as (Hi & Hc & _). apply runs_ok_bind.
  unfold checked_add. rewrite (proj2 (Z.ltb_lt _ _)) by lia. apply runs_ok_bind.
  eapply runs_bind.
  { eapply runs_mono; [by apply update_block_bitmap_spec|intros a w Ha; exact Ha|].
    intros e w (_ & _ & Hu). unfold used, data_block in Hu. rewrite Z.add_simpl_r, Hc in Hu.
    exfalso. assert (false = true) by (apply Hu; lia). done. }
  intros [] w (Hd & Hu & Hb' & Ha). apply runs_ret. split; [apply NoDup_singleton| |done|].
  - intros b ->%list_elem_of_singleton. done.
  - intros b Hb. rewrite Ha by done. case_decide as Hd'.
    + rewrite bool_decide_eq_true_2, orb_true_r by (rewrite Hd'; apply list_elem_of_here). done.
    + rewrite bool_decide_eq_false_2, orb_false_r; [done|]. intros ->%list_elem_of_singleton. done.
Qed.

Lemma allocate_blocks_spec bm n :
  buffer bm ->
  runs bm (allocate_blocks md n) (fun l bm' => length l = n /\ allocated bm l bm')
    (fun e bm' => e = Ext2Error.NoSpace).
Proof.
  revert bm. induction n as [|n IH]; intros bm Hbm; simpl allocate_blocks.
  { apply runs_ret. split; [done|by apply allocated_nil]. }
  eapply runs_bind; [by apply allocate_data_block_spec|]. intros b bm1 H1.
  eapply runs_bind; [apply IH, H1|]. intros l bm2 [Hl H2]. apply runs_ret.
  split; [simpl; lia|]. by apply (allocated_app bm [b] bm1 l bm2).
Qed.

Lemma freed_nil bm : buffer bm -> freed bm [] bm.
Proof.
  intros Hb. split; [apply NoDup_nil_2|by intros b Hb'%not_elem_of_nil|done|].
  intros b _. rewrite bool_decide_eq_false_2 by apply not_elem_of_nil. by rewrite andb_true_r.
Qed.

Lemma free_blocks_spec bm l :
  buffer bm ->
  runs bm (for_op l (fun block => update_block_bitmap md block false))
    (fun _ bm' => freed bm l bm') (fun e _ => e = Ext2Error.InvalidFilesystem).
Proof.
  revert bm. induction l as [|b l IH]; intros bm Hbm; simpl for_op.
  { apply runs_ret. by apply freed_nil. }
  eapply runs_bind; [eapply runs_mono; [by apply update_block_bitmap_spec|intros a w Ha; exact Ha|]|].
  { by intros e w (_ & -> & _). }
  intros [] bm1 (Hd & Hu & Hb1 & Ha). eapply runs_mono; [by apply IH| |done].
  intros _ bm2 [Hn Hu2 Hb2 Hf]. simpl in Hu.
  assert (b ∉ l) as Hbl.
  { intros Hin. destruct (Hu2 b Hin) as [_ Hub]. rewrite Ha in Hub by done. by case_decide. }
  split; [by apply NoDup_cons|  |done|].
  - intros b' [->|Hin]%elem_of_cons; [done|]. destruct (Hu2 b' Hin) as [Hd' Hub].
    rewrite Ha in Hub by done. by case_decide.
  - intros b' Hb'. rewrite Hf, Ha by done. case_decide as Hd'.
    + subst b'. rewrite (bool_decide_eq_true_2 (b ∈ b :: l)) by apply list_elem_of_here.
      by rewrite andb_false_r.
    + f_equal. f_equal. apply bool_decide_ext. rewrite elem_of_cons. split; [by right|].
      intros [->|?]; done.
Qed.

(** The blocks of the new contents of a file. *)
Definition new_blocks (nb : NewBlocks) : list Z :=
  (if nb_single nb =? 0 then [] else [nb_single nb])
  ++ (if nb_double nb =? 0 then [] else [nb_double nb]) ++ nb_leaves nb ++ nb_data nb.

(** A block that is allocated when it is needed, and is then not block zero. *)
Lemma allocate_if_spec bm (c : bool) :
  buffer bm ->
  runs bm (if c then allocate_data_block md else mret 0)
    (fun b bm' => allocated bm (if b =? 0 then [] else [b]) bm' /\ (b =? 0) = negb c)
    (fun e bm' => e = Ext2Error.NoSpace).
Proof.
  intros Hbm. run_step; rename H into Hc; rewrite Hc.
  - eapply runs_mono; [by apply allocate_data_block_spec| |done]. intros b bm' Ha.
    destruct (al_free _ _ _ Ha b) as [[Hd _] _]; [apply list_elem_of_here|].
    pose proof (ok_first_block _ (wr_ok _ Hmd)) as Hf. rewrite (wr_block_size _ Hmd) in Hf. simpl in Hf.
    rewrite (proj2 (Z.eqb_neq b 0)) by lia. done.
  - run_step. split; [by apply allocated_nil|done].
Qed.

Lemma allocate_file_spec bm required leaves :
  buffer bm -> 0 <= required -> 0 <= leaves ->
  runs bm (allocate_file md required leaves)
    (fun nb bm' => allocated bm (new_blocks nb) bm' /\
       Z.of_nat (length (nb_data nb)) = required /\ Z.of_nat (length (nb_leaves nb)) = leaves /\
       (nb_single nb =? 0) = negb (Z.of_nat DIRECT_BLOCKS <? required) /\
       (nb_double nb =? 0) = (leaves =? 0))
    (fun e bm' => e = Ext2Error.NoSpace).
Proof.
  intros Hbm Hr Hl. unfold allocate_file.
  eapply runs_bind; [by apply allocate_if_spec|]. intros single bm1 [H1 Hs].
  eapply runs_bind; [apply allocate_if_spec, H1|]. intros double bm2 [H2 Hd].
  eapply runs_bind; [apply allocate_blocks_spec, H2|]. intros ls bm3 [Hls H3].
  eapply runs_bind; [apply allocate_blocks_spec, H3|]. intros ds bm4 [Hds H4].
  apply runs_ret. rewrite negb_involutive in Hd. unfold new_blocks. cbn [nb_single nb_double nb_leaves nb_data].
  split; [|split_and!; [lia|lia|done|done]].
  eapply allocated_app; [done|]. eapply allocated_app; [done|]. by eapply allocated_app.
Qed.

Lemma free_inode_spec bm :
  buffer bm ->
  holds (free_inode md bm) (fun n => 0 < n <= inodes_count md /\ bit_set bm (n - 1) = false)
    (fun e => e = Ext2Error.NoSpace).
Proof.
  intros [Hl Hb]. pose proof inode_bits. destruct (ok_inodes _ (wr_ok _ Hmd)) as [H1 H2].
  unfold ROOT_INODE in H1. unfold free_inode. eapply holds_bind.
  { eapply holds_mono; [apply find_free_bit_spec; lia|intros r Hr; exact Hr|done]. }
  intros [i|] Hi; cbn; [|done]. destruct Hi as (Hi & Hc & _). unfold checked_add.
  rewrite (proj2 (Z.ltb_lt _ _)) by lia. cbn. split; [lia|]. by rewrite Z.add_simpl_r.
Qed.

Lemma update_inode_bitmap_spec bm n a :
  buffer bm -> 0 < n <= inodes_count md ->
  runs bm (update_inode_bitmap n a)
    (fun _ bm' => buffer bm' /\ bit_set bm (n - 1) = negb a /\
       forall j, 0 <= j -> bit_set bm' j = if decide (n - 1 = j) then a else bit_set bm j)
    (fun e bm' => bm' = bm /\ e = Ext2Error.InvalidFilesystem).
Proof.
  intros Hbm Hn. pose proof inode_bits. unfold update_inode_bitmap, checked_sub.
  rewrite (proj2 (Z.leb_le _ _)) by lia. apply runs_ok_bind.
  eapply runs_mono; [apply update_bit_spec; [done|lia]|done|]. by intros e w (-> & _ & ->).
Qed.
End allocation.
