(* ===== verification/Ext2Dir.v ===== *)
(** * Directory blocks

    The records of a directory block of [fs/ext2.rs]: the walks over them end, and
    an entry that is added or removed changes the lookup of its own name only. *)

From S2P Require Import Prelude Refine Utf8 FileSystem Disk Ext2 Ext2Bits.

Local Open Scope Z_scope.

#[local] Abbreviation E := Ext2Error.t.

(** ** Records *)

Definition record_len (block : list Z) (off : Z) : Z := field 2 block (off + 4).

Definition name_length (md : Metadata) (block : list Z) (off : Z) : Z :=
  field (if has_filetype md then 1 else 2) block (off + 6).

Definition record_name (md : Metadata) (block : list Z) (off : Z) : list Z :=
  slice block (Z.to_nat (off + 8)) (Z.to_nat (off + 8 + name_length md block off)).

(** The checks of a record. *)
Definition record_ok (md : Metadata) (block : list Z) (limit off : Z) : bool :=
  (8 <=? record_len block off) && (record_len block off mod 4 =? 0)
  && (off + record_len block off <=? limit) && (name_length md block off <=? record_len block off - 8).

Lemma dir_record_eq md block limit off :
  buffer block -> 0 <= off -> off + 8 <= limit <= 4096 ->
  dir_record md block limit off =
    if record_ok md block limit off
    then Ok (field 4 block off, record_len block off, name_length md block off)
    else Err Ext2Error.InvalidFilesystem.
Proof.
  intros [Hl Hb] Ho Hlim. unfold dir_record, record_ok, record_len, name_length.
  rewrite le32_ok, (le16_ok block (off + 4)) by (rewrite ?Hl; lia). rewrite !Ok_bind.
  set (rl := field 2 block (off + 4)).
  assert ((if has_filetype md then expect (block !! Z.to_nat (off + 6)) else le16 block (off + 6)) =
          Ok (E := E) (field (if has_filetype md then 1 else 2) block (off + 6))) as ->.
  { destruct (has_filetype md); [|apply le16_ok; rewrite ?Hl; lia].
    destruct (byte_exists block (Z.to_nat (off + 6)) Hb) as (b & Hlb & Hr); [lia|].
    rewrite Hlb. cbn. unfold field, slice. erewrite drop_S by done.
    replace (Z.to_nat (off + 6) + 1 - Z.to_nat (off + 6))%nat with 1%nat by lia. cbn. rewrite take_0. cbn. f_equal. lia. }
  rewrite Ok_bind. destruct (Z.ltb_spec rl 8), (Z.leb_spec 8 rl); try lia; cbn; [done|].
  destruct (rl mod 4 =? 0); cbn; [|done].
  destruct (Z.ltb_spec limit (off + rl)), (Z.leb_spec (off + rl) limit); try lia; cbn; [done|].
  set (nl := field _ _ _). destruct (Z.ltb_spec (rl - 8) nl), (Z.leb_spec nl (rl - 8)); try lia; done.
Qed.

Lemma name_length_bound md block off : bytes_ok block -> 0 <= name_length md block off < 65536.
Proof.
  intros Hb. unfold name_length. destruct (has_filetype md).
  - pose proof (field_bound 1 block (off + 6) Hb). change (256 ^ Z.of_nat 1) with 256 in *. lia.
  - by pose proof (field_bound 2 block (off + 6) Hb).
Qed.

Lemma record_ok_spec md block limit off :
  bytes_ok block -> record_ok md block limit off = true ->
  8 <= record_len block off /\ (4 | record_len block off) /\ off + record_len block off <= limit /\
  0 <= name_length md block off <= record_len block off - 8.
Proof.
  intros Hb Hr. unfold record_ok in Hr. bools. pose proof (name_length_bound md block off Hb).
  split_and!; [lia| |lia..]. apply Z.mod_divide; [lia|done].
Qed.

Lemma record_name_ok {F} md block limit off :
  buffer block -> 0 <= off -> limit <= 4096 -> record_ok md block limit off = true ->
  index_range (E := F) block (off + 8) (off + 8 + name_length md block off) =
  Ok (record_name md block off).
Proof.
  intros [Hl Hb] Ho Hlim Hr. apply record_ok_spec in Hr; [|done]. apply index_range_in; lia.
Qed.

Lemma length_record_name md block limit off :
  buffer block -> 0 <= off -> limit <= 4096 -> record_ok md block limit off = true ->
  Z.of_nat (length (record_name md block off)) = name_length md block off.
Proof.
  intros [Hl Hb] Ho Hlim Hr. apply record_ok_spec in Hr; [|done]. unfold record_name.
  rewrite length_slice; lia.
Qed.

(** Enough records for the bytes that remain. *)
Definition enough (fuel : nat) (limit off : Z) : Prop := limit < off + 8 * Z.of_nat fuel + 8.

Lemma enough_start limit : limit <= 4096 -> enough MAX_RECORDS limit 0.
Proof. unfold enough, MAX_RECORDS. lia. Qed.

(** ** Walks *)

(** A walk over the records ends within its bound. *)
Lemma find_in_block_spec md block limit child fuel off :
  buffer block -> limit <= 4096 -> 0 <= off -> enough fuel limit off ->
  holds (find_in_block fuel md block limit child off)
    (fun r => match r with Some n => 0 < n <= inodes_count md | None => True end)
    (fun e => e = Ext2Error.InvalidFilesystem).
Proof.
  intros Hbuf Hlim. revert off. induction fuel as [|fuel IH]; intros off Ho Hf; simpl find_in_block;
    (destruct (Z.leb_spec (off + 8) limit); cbn [negb]; [|done]).
  { unfold enough in Hf. lia. }
  rewrite dir_record_eq by (done || lia). destruct (record_ok md block limit off) eqn:Hr; [|done].
  cbn -[find_in_block]. rewrite (record_name_ok md block limit off) by done. cbn -[find_in_block].
  pose proof (record_ok_spec md block limit off (proj2 Hbuf) Hr).
  pose proof (field_bound 4 block off (proj2 Hbuf)).
  destruct (Z.eqb_spec (field 4 block off) 0); cbn -[find_in_block].
  { apply IH; [lia|]. unfold enough in *. lia. }
  destruct (Z.ltb_spec (inodes_count md) (field 4 block off)); [done|].
  case_bool_decide; [cbn; lia|]. apply IH; [lia|]. unfold enough in *. lia.
Qed.

Lemma ldiff_3 x : Z.ldiff x 3 = 4 * (x / 4).
Proof.
  change 3 with (Z.ones 2). rewrite Z.ldiff_ones_r by lia. rewrite Z.shiftl_mul_pow2, Z.shiftr_div_pow2 by lia.
  change (2 ^ 2) with 4. lia.
Qed.

Lemma entry_size_bounds n : 0 <= n -> 8 + n <= entry_size n < 8 + n + 4 /\ (4 | entry_size n).
Proof.
  intros Hn. unfold entry_size. rewrite ldiff_3. pose proof (Z.div_mod (8 + n + 3) 4).
  pose proof (Z.mod_pos_bound (8 + n + 3) 4). split; [lia|]. apply Z.divide_factor_l.
Qed.

(** The part of a record its name uses is within the record. *)
Lemma entry_size_fits n len : 0 <= n <= len - 8 -> (4 | len) -> entry_size n <= len.
Proof. intros Hn [k ->]. destruct (entry_size_bounds n) as [? [j Hj]]; [lia|]. lia. Qed.

(** The record [find_space] returns: one with room for the name. *)
Record space_ok (md : Metadata) (block : list Z) (required : Z) (sp : Z * Z * Z * Z) : Prop := {
  sp_offset : 0 <= sp.1.1.1;
  sp_record : record_ok md block (block_size md) sp.1.1.1 = true;
  sp_inode : sp.1.1.2 = field 4 block sp.1.1.1;
  sp_len : sp.1.2 = record_len block sp.1.1.1;
  sp_used : sp.2 = entry_size (name_length md block sp.1.1.1);
  sp_room : if sp.1.1.2 =? 0 then required <= sp.1.2 else required <= sp.1.2 - sp.2;
}.

Lemma find_space_spec md block required fuel off :
  buffer block -> block_size md <= 4096 -> 0 <= off -> enough fuel (block_size md) off ->
  holds (find_space fuel md block required off)
    (fun r => match r with Some sp => space_ok md block required sp | None => True end)
    (fun e => e = Ext2Error.InvalidFilesystem).
Proof.
  intros Hbuf Hlim. revert off. induction fuel as [|fuel IH]; intros off Ho Hf; simpl find_space;
    (destruct (Z.leb_spec (off + 8) (block_size md)); cbn [negb]; [|done]).
  { unfold enough in Hf. lia. }
  rewrite dir_record_eq by (done || lia).
  destruct (record_ok md block (block_size md) off) eqn:Hr; [|done]. cbn -[find_space].
  pose proof (record_ok_spec md block _ off (proj2 Hbuf) Hr) as Hk.
  destruct (_ || _) eqn:Hroom; cbn -[find_space].
  - split; [done..|]. cbn. destruct (field 4 block off =? 0); cbn in *; bools; [|lia].
    rewrite orb_false_r in Hroom. bools. lia.
  - apply IH; [lia|]. unfold enough in *. lia.
Qed.

(** The record before the one at [off]. *)
Definition previous_ok (md : Metadata) (block : list Z) (previous : option Z) (off : Z) : Prop :=
  forall p, previous = Some p -> 0 <= p /\ p + record_len block p = off /\
    record_ok md block (block_size md) p = true.

(** The record [find_entry] returns: the entry of the name. *)
Definition entry_ok (md : Metadata) (block : list Z) (name : list Z) (en : option Z * Z * Z) : Prop :=
  let '(previous, off, len) := en in
  0 <= off /\ record_ok md block (block_size md) off = true /\ len = record_len block off /\
  field 4 block off <> 0 /\ record_name md block off = name /\ previous_ok md block previous off.

Lemma find_entry_spec md block name fuel previous off :
  buffer block -> block_size md <= 4096 -> 0 <= off -> enough fuel (block_size md) off ->
  previous_ok md block previous off ->
  holds (find_entry fuel md block name previous off)
    (fun r => match r with Some en => entry_ok md block name en | None => True end)
    (fun e => e = Ext2Error.InvalidFilesystem).
Proof.
  intros Hbuf Hlim. revert previous off.
  induction fuel as [|fuel IH]; intros previous off Ho Hf Hp; simpl find_entry;
    (destruct (Z.leb_spec (off + 8) (block_size md)); cbn [negb]; [|done]).
  { unfold enough in Hf. lia. }
  rewrite dir_record_eq by (done || lia).
  destruct (record_ok md block (block_size md) off) eqn:Hr; [|done].
  pose proof (record_ok_spec md block _ off (proj2 Hbuf) Hr) as Hk.
  cbn -[find_entry]. rewrite (record_name_ok md block (block_size md) off) by done.
  destruct (Z.eqb_spec (field 4 block off) 0); cbn -[find_entry]; [|case_bool_decide; cbn -[find_entry]; [done|]].
  all: apply IH; [lia|unfold enough in *; lia|by intros p [= <-]].
Qed.

(** ** Storing a record *)

(** A record of a given inode, length and name. *)
Record record_at (md : Metadata) (block : list Z) (off n len : Z) (name : list Z) : Prop := {
  ra_inode : field 4 block off = n;
  ra_len : record_len block off = len;
  ra_name_length : name_length md block off = Z.of_nat (length name);
  ra_name : slice block (Z.to_nat (off + 8)) (Z.to_nat (off + 8) + length name) = name;
}.

(** The stores of a new record. *)
Definition store_record (md : Metadata) (block : list Z) (off n len : Z) (name : list Z) (type : Z) :
  outcome E (list Z) :=
  b ← put_le 4 block off n;
  b ← put_le 2 b (off + 4) len;
  b ← (if has_filetype md then
         b ← put_le 1 b (off + 6) (Z.of_nat (length name)); put_le 1 b (off + 7) type
       else put_le 2 b (off + 6) (Z.of_nat (length name)));
  copy_at b (Z.to_nat (off + 8)) name.

Lemma place_name_length md k block off len type :
  sized k block -> 0 <= off -> off + 8 <= Z.of_nat k -> 0 <= len < 256 ->
  holds (if has_filetype md then (b ← put_le 1 block (off + 6) len; put_le 1 b (off + 7) type)
         else put_le 2 block (off + 6) len)
    (fun block' => sized k block' /\ changed block block' (off + 6) (off + 8) /\
       name_length md block' off = len) (fun _ => False).
Proof.
  intros Hb Ho Hk Hl. unfold name_length. destruct (has_filetype md).
  - eapply holds_bind; [apply (put_le_spec k); [done|lia..]|]. intros b1 (H1 & C1 & F1).
    eapply holds_mono; [apply (put_le_spec k); [done|lia..]| |done]. intros b2 (H2 & C2 & _).
    split_and!; [done| |].
    + eapply changed_trans; (eapply changed_mono; [done|lia..]).
    + rewrite (field_changed 1 b1 b2 _ _ (off + 6) C2) by lia. apply F1. lia.
  - eapply holds_mono; [apply (put_le_spec k); [done|lia..]| |done]. intros b2 (H2 & C2 & F2).
    split_and!; [done| |].
    + eapply changed_mono; [done|lia..].
    + apply F2. lia.
Qed.

Lemma store_record_spec md block off n len name type :
  buffer block -> bytes_ok name -> 0 <= off -> off + 8 + Z.of_nat (length name) <= 4096 ->
  0 <= n < u32_limit -> 0 <= len < u16_limit -> (length name <= 255)%nat ->
  holds (store_record md block off n len name type)
    (fun b => buffer b /\ changed block b off (off + 8 + Z.of_nat (length name)) /\
       record_at md b off n len name) (fun _ => False).
Proof.
  intros Hb Hnb Ho Hle Hn Hl Hnl. unfold store_record.
  eapply holds_bind; [apply (put_le_spec 4096); [done|lia..]|]. intros b3 (H3 & C3 & F3).
  eapply holds_bind; [apply (put_le_spec 4096); [done|lia..]|]. intros b4 (H4 & C4 & F4).
  eapply holds_bind; [apply (place_name_length md 4096); [done|lia..]|]. intros b5 (H5 & C5 & F5).
  eapply holds_mono; [apply (copy_at_spec 4096); [done|done|lia]| |done]. intros b6 (H6 & C6 & F6).
  split; [done|]. split; [|split].
  - intros j Hj. rewrite C6, C5, C4, C3 by lia. done.
  - rewrite (field_changed 4 _ _ _ _ _ C6), (field_changed 4 _ _ _ _ _ C5), (field_changed 4 _ _ _ _ _ C4) by lia.
    apply F3. lia.
  - unfold record_len. rewrite (field_changed 2 _ _ _ _ _ C6), (field_changed 2 _ _ _ _ _ C5) by lia.
    apply F4. lia.
  - unfold name_length in *. rewrite (field_changed _ _ _ _ _ _ C6) by (destruct (has_filetype md); lia). done.
  - done.
Qed.

(** ** Adding an entry *)

(** Where the new record starts, and its length. *)
Definition entry_start (sp : Z * Z * Z * Z) : Z :=
  let '(offset, inode, _, used_len) := sp in if inode =? 0 then offset else offset + used_len.

Definition entry_room (sp : Z * Z * Z * Z) : Z :=
  let '(_, inode, len, used_len) := sp in if inode =? 0 then len else len - used_len.

(** The block after [place_entry]: the old record keeps the part its name uses, the
    new one has the rest, and no other record changes. *)
Record placed (md : Metadata) (block block' : list Z) (sp : Z * Z * Z * Z) (name : list Z) (n : Z) :
  Prop := {
  pl_buffer : buffer block';
  pl_others : changed block block' sp.1.1.1 (sp.1.1.1 + sp.1.2);
  pl_previous : sp.1.1.2 <> 0 -> record_len block' sp.1.1.1 = sp.2 /\
    forall i : nat, sp.1.1.1 <= Z.of_nat i < sp.1.1.1 + 4 \/ sp.1.1.1 + 6 <= Z.of_nat i < sp.1.1.1 + sp.2 ->
      block' !! i = block !! i;
  pl_record : record_at md block' (entry_start sp) n (entry_room sp) name;
}.

Lemma place_entry_spec md block sp name n type :
  buffer block -> block_size md <= 4096 -> space_ok md block (entry_size (Z.of_nat (length name))) sp ->
  bytes_ok name -> (length name <= 255)%nat -> 0 <= n < u32_limit ->
  holds (place_entry md block sp name n type) (fun block' => placed md block block' sp name n)
    (fun _ => False).
Proof.
  destruct sp as [[[o i] rl] u]. intros Hbuf Hbs [Ho Hr Hi Hl Hu Hroom] Hn Hlen Hn32. cbn in *.
  pose proof (record_ok_spec md block _ o (proj2 Hbuf) Hr) as (Hr1 & Hr2 & Hr3 & Hr4).
  destruct (entry_size_bounds (Z.of_nat (length name))) as [Hs1 _]; [lia|].
  destruct (entry_size_bounds (name_length md block o)) as [Hs2 _]; [lia|].
  pose proof (entry_size_fits (name_length md block o) (record_len block o)) as Hfit.
  rewrite <-Hl, <-Hu in *. specialize (Hfit ltac:(lia) Hr2).
  unfold place_entry. eapply holds_bind with (R := fun '(b1, eo) =>
    buffer b1 /\ eo = entry_start (o, i, rl, u) /\ changed block b1 (o + 4) (o + 6) /\
    (i <> 0 -> record_len b1 o = u)).
  { unfold entry_start. destruct (Z.eqb_spec i 0); [done|]. rewrite (proj2 (Z.ltb_lt _ _)) by lia.
    cbn [ok_or]. rewrite Ok_bind. eapply holds_bind; [apply (put_le_spec 4096); [done|lia..]|].
    intros b1 (H1 & C1 & F1). cbn. split_and!; [done|done|eapply changed_mono; [done|lia..]|].
    intros _. apply F1. lia. }
  intros [b1 eo] (H1 & -> & C1 & P1). set (eo := entry_start (o, i, rl, u)).
  change (if i =? 0 then rl else rl - u) with (entry_room (o, i, rl, u)).
  set (el := entry_room (o, i, rl, u)).
  assert (o <= eo /\ eo + el = o + rl /\ entry_size (Z.of_nat (length name)) <= el /\
          (i <> 0 -> eo = o + u)) as (Heo & Hend & Hel & Heo').
  { unfold eo, el, entry_start, entry_room. destruct (Z.eqb_spec i 0); lia. }
  eapply holds_bind; [apply (fill_zero_spec 4096); [done|lia..]|]. intros b2 (H2 & C2 & _).
  eapply holds_mono; [apply store_record_spec; [done|done|lia..]| |done]. intros b6 (H6 & C6 & F6).
  split; cbn [fst snd]; fold eo el.
  - done.
  - intros j Hj. rewrite C6, C2, C1 by lia. done.
  - intros Hi0. specialize (Heo' Hi0). split.
    + unfold record_len in *. rewrite (field_changed 2 _ _ _ _ _ C6), (field_changed 2 _ _ _ _ _ C2) by lia. auto.
    + intros j Hj. rewrite C6, C2, C1 by lia. done.
  - done.
Qed.

(** ** A block as a list of entries *)

(** The entries in use from [off] on: their names and inodes. *)
Fixpoint dir_entries (fuel : nat) (md : Metadata) (block : list Z) (limit off : Z) :
  outcome E (list (list Z * Z)) :=
  if limit <? off + 8 then Ok []
  else match fuel with
       | O => Panic
       | S fuel =>
           if negb (record_ok md block limit off) || (inodes_count md <? field 4 block off)
           then Err Ext2Error.InvalidFilesystem
           else
             rest ← dir_entries fuel md block limit (off + record_len block off);
             Ok (if field 4 block off =? 0 then rest else (record_name md block off, field 4 block off) :: rest)
       end.

(** The inode of a name. *)
Fixpoint entry_inode (name : list Z) (l : list (list Z * Z)) : option Z :=
  match l with
  | [] => None
  | (n, inode) :: l => if bool_decide (n = name) then Some inode else entry_inode name l
  end.

Lemma entry_inode_app name l l' :
  entry_inode name (l ++ l') =
  match entry_inode name l with Some n => Some n | None => entry_inode name l' end.
Proof. induction l as [|[n i] l IH]; simpl; [done|]. by case_bool_decide. Qed.

Lemma dir_entries_fuel md block limit f f' off :
  buffer block -> enough f limit off -> enough f' limit off ->
  dir_entries f md block limit off = dir_entries f' md block limit off.
Proof.
  intros [_ Hb]. revert f' off. induction f as [|f IH]; intros f' off Hf Hf'; simpl dir_entries.
  - unfold enough in Hf. rewrite (proj2 (Z.ltb_lt _ _)) by lia. destruct f'; simpl; by rewrite (proj2 (Z.ltb_lt _ _)) by lia.
  - destruct (Z.ltb_spec limit (off + 8)).
    { destruct f'; simpl; by rewrite (proj2 (Z.ltb_lt _ _)) by lia. }
    destruct f' as [|f']; [unfold enough in Hf'; lia|]. simpl.
    rewrite (proj2 (Z.ltb_ge limit (off + 8))) by lia. destruct (record_ok md block limit off) eqn:Hr; [|done].
    apply record_ok_spec in Hr; [|done]. destruct (_ || _); [done|].
    rewrite (IH f') by (unfold enough in *; lia). done.
Qed.

(** One record. *)
Lemma dir_entries_step md block limit f off :
  buffer block -> 0 <= off -> enough f limit off -> off + 8 <= limit ->
  dir_entries f md block limit off =
    if negb (record_ok md block limit off) || (inodes_count md <? field 4 block off)
    then Err Ext2Error.InvalidFilesystem
    else
      rest ← dir_entries f md block limit (off + record_len block off);
      Ok (if field 4 block off =? 0 then rest else (record_name md block off, field 4 block off) :: rest).
Proof.
  intros Hb Ho Hf Hl. destruct f as [|f]; [unfold enough in Hf; lia|].
  simpl dir_entries at 1. rewrite (proj2 (Z.ltb_ge limit (off + 8))) by lia.
  destruct (record_ok md block limit off) eqn:Hr; [|done]. cbn [negb orb]. destruct (_ <? _); [done|].
  apply record_ok_spec in Hr; [|apply Hb].
  rewrite (dir_entries_fuel _ _ _ f (S f)) by (done || unfold enough in *; lia). done.
Qed.

(** [find_child] looks its name up in the entries. *)
Lemma find_in_block_entries md block limit child f off l :
  buffer block -> limit <= 4096 -> 0 <= off ->
  dir_entries f md block limit off = Ok l -> find_in_block f md block limit child off = Ok (entry_inode child l).
Proof.
  intros Hb Hlim. revert off l. induction f as [|f IH]; intros off l Ho Hl; simpl in Hl; simpl find_in_block;
    (destruct (Z.ltb_spec limit (off + 8)), (Z.leb_spec (off + 8) limit); try lia; cbn [negb] in *;
     [by injection Hl as <-|]); [done|].
  rewrite dir_record_eq by (done || lia). destruct (record_ok md block limit off) eqn:Hr; [|done].
  cbn [negb orb] in Hl. destruct (inodes_count md <? field 4 block off) eqn:Hi; [done|].
  apply bind_Ok_inv in Hl as (rest & Hrest & Hl). injection Hl as <-.
  rewrite Ok_bind, (record_name_ok md block limit off), Ok_bind, Hi, andb_false_r by done.
  apply record_ok_spec in Hr; [|apply Hb]. apply IH in Hrest as IHr; [|lia].
  destruct (field 4 block off =? 0); cbn -[find_in_block]; [done|]. by case_bool_decide.
Qed.

Lemma record_same md block block' a b off :
  changed block block' a b -> 0 <= off -> off + 8 <= a \/ b <= off ->
  field 4 block' off = field 4 block off /\ record_len block' off = record_len block off /\
  name_length md block' off = name_length md block off.
Proof.
  intros Hc Ho Hd. unfold record_len, name_length.
  rewrite (field_changed 4 _ _ _ _ _ Hc), (field_changed 2 _ _ _ _ (off + 4) Hc) by lia.
  rewrite (field_changed _ _ _ _ _ (off + 6) Hc) by (destruct (has_filetype md); lia). done.
Qed.

Lemma record_ok_same md block block' limit off :
  record_len block' off = record_len block off -> name_length md block' off = name_length md block off ->
  record_ok md block' limit off = record_ok md block limit off.
Proof. intros Hl Hn. unfold record_ok. by rewrite Hl, Hn. Qed.

Lemma record_name_same md block block' a b off :
  changed block block' a b -> 0 <= off -> 0 <= name_length md block off ->
  name_length md block' off = name_length md block off ->
  off + 8 + name_length md block off <= a \/ b <= off ->
  record_name md block' off = record_name md block off.
Proof.
  intros Hc Ho Hn Hl Hd. unfold record_name. rewrite Hl. eapply slice_changed; [done|lia].
Qed.

(** The records behind the bytes that changed. *)
Lemma dir_entries_after md block block' a b limit f off :
  buffer block -> changed block block' a b -> 0 <= off -> b <= off ->
  dir_entries f md block' limit off = dir_entries f md block limit off.
Proof.
  intros Hb Hc. revert off. induction f as [|f IH]; intros off Ho Hbo; simpl; [done|].
  destruct (record_same md block block' a b off Hc Ho ltac:(lia)) as (Hi & Hl & Hn).
  rewrite (record_ok_same md block block' limit off Hl Hn), Hi, Hl.
  destruct (_ <? _); [done|]. destruct (record_ok md block limit off) eqn:Hr; [|done].
  apply record_ok_spec in Hr; [|apply Hb]. destruct (_ || _); [done|].
  rewrite (IH (off + record_len block off)) by lia.
  rewrite (record_name_same md block block' a b off Hc) by (done || lia). done.
Qed.

(** The record at [off], when [block'] has the same entry there. *)
Lemma dir_entries_cons md block limit f off :
  buffer block -> 0 <= off -> enough f limit off -> off + 8 <= limit ->
  record_ok md block limit off = true -> field 4 block off <= inodes_count md ->
  dir_entries f md block limit off =
    (rest ← dir_entries f md block limit (off + record_len block off);
     Ok (if field 4 block off =? 0 then rest else (record_name md block off, field 4 block off) :: rest)).
Proof.
  intros Hb Ho Hf Hl Hr Hi. rewrite dir_entries_step at 1 by done. rewrite Hr.
  rewrite (proj2 (Z.ltb_ge (inodes_count md) _)) by lia. done.
Qed.

Lemma dir_entries_inv md block limit f off l :
  buffer block -> 0 <= off -> enough f limit off -> off + 8 <= limit ->
  dir_entries f md block limit off = Ok l ->
  record_ok md block limit off = true /\ field 4 block off <= inodes_count md /\
  exists rest, dir_entries f md block limit (off + record_len block off) = Ok rest /\
    l = if field 4 block off =? 0 then rest else (record_name md block off, field 4 block off) :: rest.
Proof.
  intros Hb Ho Hf Hl E1. rewrite dir_entries_step in E1 by done.
  destruct (record_ok md block limit off); [|done]. cbn [negb orb] in E1.
  destruct (Z.ltb_spec (inodes_count md) (field 4 block off)); [done|].
  apply bind_Ok_inv in E1 as (rest & Hrest & [= <-]). split_and!; [done|lia|by exists rest].
Qed.

Lemma record_at_changed md block block' a b off n len name :
  record_at md block off n len name -> changed block block' a b -> 0 <= off ->
  off + 8 + Z.of_nat (length name) <= a \/ b <= off -> record_at md block' off n len name.
Proof.
  intros [Hi Hl Hnl Hn] Hc Ho Hd.
  destruct (record_same md block block' a b off Hc Ho) as (Hi' & Hl' & Hnl'); [lia|].
  split; [by rewrite Hi'|by rewrite Hl'|by rewrite Hnl'|].
  rewrite <-Hn at 2. eapply slice_changed; [done|lia].
Qed.

Lemma record_entry md block limit f off n len name rest :
  buffer block -> 0 <= off -> enough f limit 0 -> record_at md block off n len name ->
  0 < n <= inodes_count md -> 8 + Z.of_nat (length name) <= len -> (4 | len) -> off + len <= limit ->
  dir_entries f md block limit (off + len) = Ok rest ->
  dir_entries f md block limit off = Ok ((name, n) :: rest).
Proof.
  intros Hb Ho Hf [Hi Hl Hnl Hn] Hn0 Hlen Hd Hle Hrest.
  rewrite dir_entries_cons; [|done|done|unfold enough in *; lia|lia| |lia].
  - rewrite Hl, Hrest, Ok_bind, Hi, (proj2 (Z.eqb_neq n 0)) by lia. do 3 f_equal.
    unfold record_name. rewrite Hnl. rewrite <-Hn at 2. f_equal. lia.
  - unfold record_ok. rewrite Hl, Hnl, (proj2 (Z.mod_divide _ 4 ltac:(lia)) Hd).
    rewrite !(proj2 (Z.leb_le _ _)) by lia. done.
Qed.

Lemma find_space_ge md block required f off sp :
  buffer block -> block_size md <= 4096 -> 0 <= off ->
  find_space f md block required off = Ok (Some sp) -> off <= sp.1.1.1.
Proof.
  intros Hb Hbs. revert off. induction f as [|f IH]; intros off Ho Hs; simpl in Hs;
    (destruct (Z.leb_spec (off + 8) (block_size md)); cbn [negb] in Hs; [|done]); [done|].
  rewrite dir_record_eq in Hs by (done || lia).
  destruct (record_ok md block (block_size md) off) eqn:Hr; [|done].
  apply record_ok_spec in Hr; [|apply Hb]. rewrite Ok_bind in Hs. cbv beta iota zeta in Hs.
  destruct (_ || _); [by injection Hs as <-|]. apply IH in Hs; lia.
Qed.

Section place.
Context (md : Metadata) (block block' : list Z) (sp : Z * Z * Z * Z) (name : list Z) (n : Z).
Context (Hb : buffer block) (Hbs : block_size md <= 4096) (Hn : 0 < n <= inodes_count md).
Context (Hsp : space_ok md block (entry_size (Z.of_nat (length name))) sp).
Context (Hpl : placed md block block' sp name n).

Context (F : nat) (HF : enough F (block_size md) 0).

#[local] Abbreviation entries b off := (dir_entries F md b (block_size md) off).

Lemma placed_new_entry rest :
  0 <= entry_start sp -> entry_start sp + entry_room sp = sp.1.1.1 + sp.1.2 ->
  sp.1.1.1 + sp.1.2 <= block_size md -> (4 | entry_room sp) ->
  8 + Z.of_nat (length name) <= entry_room sp ->
  entries block (sp.1.1.1 + sp.1.2) = Ok rest ->
  entries block' (entry_start sp) = Ok ((name, n) :: rest).
Proof.
  intros Ho Hend Hle Hdiv Hroom Hrest. destruct Hpl as [Hb' Hother _ Hrec].
  eapply record_entry; [done|done|done|done|done|lia|done|lia|].
  by rewrite Hend, (dir_entries_after md block block' _ _ (block_size md) F _ Hb Hother) by lia.
Qed.

(** Adding an entry inserts it into the list, between two others. *)
Lemma place_entries f off l :
  0 <= off -> find_space f md block (entry_size (Z.of_nat (length name))) off = Ok (Some sp) ->
  entries block off = Ok l ->
  exists l1 l2, l = l1 ++ l2 /\ entries block' off = Ok (l1 ++ (name, n) :: l2).
Proof.
  pose proof placed_new_entry as Hnew.
  revert off l. induction f as [|f IH]; intros off l Ho Hs Hl; simpl in Hs;
    (destruct (Z.leb_spec (off + 8) (block_size md)); cbn [negb] in Hs; [|done]); [done|].
  apply dir_entries_inv in Hl as (Hr & Hi & rest & Hrest & ->);
    [|done|done|unfold enough in *; lia|done].
  rewrite dir_record_eq, Hr, Ok_bind in Hs by (done || lia). cbv beta iota zeta in Hs.
  pose proof (record_ok_spec md block _ off (proj2 Hb) Hr) as (R1 & R2 & R3 & R4).
  destruct (entry_size_bounds (Z.of_nat (length name))) as [S1 S1']; [lia|].
  destruct (entry_size_bounds (name_length md block off)) as [S2 S2']; [lia|].
  destruct (_ || _) eqn:Hroom.
  - injection Hs as <-. cbn in Hnew.
    destruct (Z.eqb_spec (field 4 block off) 0) as [E0|E0]; cbn in Hroom; rewrite ?orb_false_r in Hroom; bools.
    + exists [], rest. split; [done|]. apply Hnew; [lia|done|lia|done|lia|done].
    + destruct (pl_previous _ _ _ _ _ _ Hpl) as [Hlen Hsame]; [done|]. cbn in Hlen, Hsame.
      assert (name_length md block' off = name_length md block off) as Hnl.
      { apply field_same; [lia|]. intros j Hj. apply Hsame. destruct (has_filetype md); lia. }
      exists [(record_name md block off, field 4 block off)], rest. split; [done|].
      assert (field 4 block' off = field 4 block off) as Hni.
      { apply field_same; [lia|]. intros j Hj. apply Hsame. lia. }
      rewrite dir_entries_cons; [|apply Hpl|done|unfold enough in *; lia|done| |lia].
      2: { unfold record_ok. rewrite Hlen, Hnl. apply Z.mod_divide in S2'; [|lia].
           rewrite S2', !(proj2 (Z.leb_le _ _)) by lia. done. }
      rewrite Hlen, Hni, (proj2 (Z.eqb_neq _ _)) by done. rewrite (Hnew rest); [|lia|lia|lia| |lia|done].
      * rewrite Ok_bind. enough (record_name md block' off = record_name md block off) as -> by done.
        unfold record_name. rewrite Hnl. apply slice_same. intros j Hj. apply Hsame. lia.
      * by apply Z.divide_sub_r.
  - apply find_space_ge in Hs as Hge; [|done|done|lia].
    destruct (IH (off + record_len block off) rest) as (l1 & l2 & -> & Hl'); [lia|done|done|].
    destruct (record_same md block block' _ _ off (pl_others _ _ _ _ _ _ Hpl)) as (Hi' & Hlen & Hnl); [lia..|].
    rewrite dir_entries_cons; [|apply Hpl|done|unfold enough in *; lia|done| |lia].
    2: { by rewrite (record_ok_same md block block'). }
    rewrite Hlen, Hl', Ok_bind, Hi'. destruct (_ =? 0); [by exists l1, l2|].
    rewrite (record_name_same md block block' _ _ off (pl_others _ _ _ _ _ _ Hpl)) by (done || lia).
    by eexists (_ :: l1), l2.
Qed.
End place.

(** ** Removing an entry *)

(** The block after [erase_entry]: the record before the entry takes its space, or
    the first record becomes unused. *)
Definition erased (md : Metadata) (block block' : list Z) (en : option Z * Z * Z) : Prop :=
  let '(previous, off, len) := en in
  buffer block' /\
  match previous with
  | Some p => changed block block' (p + 4) (p + 6) /\ record_len block' p = record_len block p + len
  | None => changed block block' off (off + len) /\ field 4 block' off = 0 /\
      record_len block' off = len /\ name_length md block' off = 0
  end.

Lemma slice_zeros l a b x y :
  slice l a b = replicate (b - a) 0 -> (a <= x)%nat -> (y <= b)%nat -> le_decode (slice l x y) = 0.
Proof.
  intros Hs Hx Hy. assert (Forall (fun z => z = 0) (slice l x y)) as Hz.
  { apply Forall_lookup. intros i z Hi. destruct (decide (i < y - x)%nat) as [Hlt|Hge].
    - rewrite lookup_slice in Hi by lia.
      assert (slice l a b !! (x + i - a)%nat = Some z) as Hz.
      { rewrite lookup_slice by lia. rewrite <-Hi. f_equal. lia. }
      rewrite Hs in Hz. apply lookup_replicate in Hz as [-> _]. done.
    - unfold slice in Hi. rewrite lookup_take_ge in Hi by lia. done. }
  induction Hz as [|z l' -> _ IH]; [done|]. simpl. lia.
Qed.

Lemma field_zeros n l a b off :
  slice l (Z.to_nat a) (Z.to_nat b) = replicate (Z.to_nat (b - a)) 0 ->
  0 <= a <= off -> off + Z.of_nat n <= b -> field n l off = 0.
Proof.
  intros Hs Ha Hb. unfold field. eapply slice_zeros with (a := Z.to_nat a) (b := Z.to_nat b); [|lia..].
  rewrite Hs. f_equal. lia.
Qed.

Lemma erase_entry_spec md block name en :
  buffer block -> block_size md <= 4096 -> entry_ok md block name en ->
  holds (erase_entry md block en) (fun block' => erased md block block' en) (fun _ => False).
Proof.
  destruct en as [[previous off] len]. intros Hb Hbs (Ho & Hr & -> & Hi & Hn & Hp).
  pose proof (record_ok_spec md block _ off (proj2 Hb) Hr) as (R1 & _ & R3 & R4).
  unfold erase_entry. destruct previous as [p|].
  - destruct (Hp p eq_refl) as (Hp0 & Hpo & Hpr).
    pose proof (record_ok_spec md block _ p (proj2 Hb) Hpr) as (P1 & _ & P3 & _).
    rewrite le16_ok by (rewrite ?(proj1 Hb); lia). rewrite Ok_bind. fold (record_len block p).
    unfold checked_add. rewrite (proj2 (Z.ltb_lt _ _)) by lia. cbn [mbind option_bind].
    rewrite (proj2 (Z.leb_le _ _)), (proj2 (Z.ltb_lt _ _)) by lia. cbn [andb ok_or]. rewrite Ok_bind.
    eapply holds_mono; [apply (put_le_spec 4096); [done|lia..]| |done]. intros b1 (H1 & C1 & F1).
    split; [done|]. split; [eapply changed_mono; [done|lia..]|]. apply F1. lia.
  - eapply holds_bind; [apply (fill_zero_spec 4096); [done|lia..]|]. intros b1 (H1 & C1 & F1).
    eapply holds_bind; [apply (put_le_spec 4096); [done|lia..]|]. intros b2 (H2 & C2 & F2).
    eapply holds_bind; [apply (put_le_spec 4096); [done|lia..]|]. intros b3 (H3 & C3 & F3).
    eapply holds_mono; [apply (fill_zero_spec 4096); [done|lia..]| |done]. intros b4 (H4 & C4 & F4).
    split_and!; [done| | | |].
    + intros i Hj. by rewrite C4, C3, C2, C1 by lia.
    + rewrite (field_changed 4 _ _ _ _ _ C4), (field_changed 4 _ _ _ _ _ C3), (field_changed 4 _ _ _ _ _ C2) by lia.
      eapply field_zeros; [done|lia..].
    + unfold record_len. rewrite (field_changed 2 _ _ _ _ _ C4), (field_changed 2 _ _ _ _ _ C3),
        (field_changed 2 _ _ _ _ _ C2), (field_changed 2 _ _ _ _ _ C1) by lia. done.
    + unfold name_length. destruct (has_filetype md).
      * rewrite (field_changed 1 _ _ _ _ _ C4), (field_changed 1 _ _ _ _ _ C3) by lia. apply F2. lia.
      * rewrite (field_changed 2 _ _ _ _ _ C4), field_S by (lia || (rewrite (proj1 H3); lia)).
        rewrite (field_changed 1 _ _ _ _ _ C3), F2 by lia. replace (off + 6 + 1) with (off + 7) by lia.
        rewrite F3 by lia. done.
Qed.

Section erase.
Context (md : Metadata) (block block' : list Z) (name : list Z) (en : option Z * Z * Z).
Context (Hb : buffer block) (Hbs : block_size md <= 4096).
Context (Hen : entry_ok md block name en) (Her : erased md block block' en).
Context (F : nat) (HF : enough F (block_size md) 0).

#[local] Abbreviation entries b off := (dir_entries F md b (block_size md) off).

(** From the entry on, or from before the record in front of it. *)
Definition erases (previous : option Z) (off : Z) (l : list (list Z * Z)) : Prop :=
  (en.1.2 = off /\ en.1.1 = previous /\ exists n rest, l = (name, n) :: rest /\ entries block (off + en.2) = Ok rest) \/
  (exists p, en.1.1 = Some p /\ off <= p < en.1.2 /\
   exists l1 n l2, l = l1 ++ (name, n) :: l2 /\ entry_inode name l1 = None /\
     entries block' off = Ok (l1 ++ l2)).

(** The record in front of the entry, with its space. *)
Lemma erased_previous off rest :
  0 <= off -> off + 8 <= block_size md -> record_ok md block (block_size md) off = true ->
  field 4 block off <= inodes_count md -> en.1.1 = Some off -> en.1.2 = off + record_len block off ->
  entries block (en.1.2 + en.2) = Ok rest ->
  entries block' off =
    Ok (if field 4 block off =? 0 then rest else (record_name md block off, field 4 block off) :: rest).
Proof.
  destruct en as [[previous o] len]. cbn [fst snd]. intros Ho H8 Hr Hi -> -> Hrest.
  destruct Hen as (_ & Hr' & -> & _). destruct Her as (Hb' & Hc & Hlen).
  pose proof (record_ok_spec md block _ off (proj2 Hb) Hr) as (R1 & R2 & R3 & R4).
  pose proof (record_ok_spec md block _ _ (proj2 Hb) Hr') as (Q1 & Q2 & Q3 & Q4).
  assert (field 4 block' off = field 4 block off) as Hi' by (eapply field_changed; [done|lia..]).
  assert (name_length md block' off = name_length md block off) as Hnl.
  { eapply field_changed; [done|lia|]. destruct (has_filetype md); lia. }
  rewrite dir_entries_cons; [|done|done|unfold enough in *; lia|done| |lia].
  2: { unfold record_ok. rewrite Hlen, Hnl. rewrite (proj2 (Z.mod_divide _ 4 ltac:(lia)));
         [|by apply Z.divide_add_r]. rewrite !(proj2 (Z.leb_le _ _)) by lia. done. }
  rewrite Hlen, Z.add_assoc, (dir_entries_after md block block' _ _ _ F _ Hb Hc), Hrest, Ok_bind, Hi' by lia.
  assert (record_name md block' off = record_name md block off) as ->; [|done].
  unfold record_name. rewrite Hnl. eapply slice_changed; [done|lia].
Qed.

Lemma erase_entries_from f previous off l :
  0 <= off -> find_entry f md block name previous off = Ok (Some en) -> entries block off = Ok l ->
  erases previous off l.
Proof.
  pose proof erased_previous as Hprev.
  revert previous off l. induction f as [|f IH]; intros previous off l Ho Hs Hl; simpl in Hs;
    (destruct (Z.leb_spec (off + 8) (block_size md)); cbn [negb] in Hs; [|done]); [done|].
  apply dir_entries_inv in Hl as (Hr & Hi & rest & Hrest & ->); [|done|done|unfold enough in *; lia|done].
  rewrite dir_record_eq, Hr, Ok_bind in Hs by (done || lia). cbv beta iota zeta in Hs.
  pose proof (record_ok_spec md block _ off (proj2 Hb) Hr) as (R1 & _ & R3 & R4).
  rewrite (record_name_ok md block (block_size md) off), Ok_bind in Hs by (done || lia).
  assert ((field 4 block off =? 0) = false /\ record_name md block off = name /\
            en = (previous, off, record_len block off) \/
          ((field 4 block off =? 0) = false -> record_name md block off <> name) /\
            find_entry f md block name (Some off) (off + record_len block off) = Ok (Some en))
    as [(E0 & Hn & Hen')|[Hn Hs']].
  { destruct (field 4 block off =? 0); [right; by split|]. rewrite Ok_bind in Hs.
    case_bool_decide; [left; by injection Hs as <-|right; by split]. }
  { left. rewrite E0, Hn, Hen'. cbn. split_and!; [done|done|]. by eexists _, rest. }
  specialize (IH (Some off) (off + record_len block off) rest ltac:(lia) Hs' Hrest). right.
  destruct IH as [(Ho' & Hp & n & l2 & -> & Hl2)|(p & Hp & Hlt & l1 & n & l2 & -> & Hl1 & Hl2)].
  - exists off. split; [done|]. split; [lia|].
    exists (if field 4 block off =? 0 then [] else [(record_name md block off, field 4 block off)]), n, l2.
    rewrite (Hprev off l2) by (done || (rewrite Ho'; done)).
    destruct (field 4 block off =? 0); [done|]. cbn. rewrite bool_decide_eq_false_2 by auto. done.
  - exists p. split; [done|]. split; [lia|].
    exists (if field 4 block off =? 0 then l1 else (record_name md block off, field 4 block off) :: l1), n, l2.
    assert (erased md block block' en) as Her' by done.
    destruct en as [[pr o] len]. cbn in Hp, Hlt. subst pr. destruct Her' as (Hb' & Hc & _).
    destruct (record_same md block block' _ _ off Hc) as (Hi' & Hlen & Hnl); [lia..|].
    rewrite dir_entries_cons; [|done|done|unfold enough in *; lia|done| |lia].
    2: { by rewrite (record_ok_same md block block'). }
    rewrite Hlen, Hl2, Ok_bind, Hi', (record_name_same md block block' _ _ off Hc) by (done || lia).
    destruct (field 4 block off =? 0); [done|]. cbn. rewrite bool_decide_eq_false_2 by auto. done.
Qed.

(** Removing an entry takes the first one of its name out of the list. *)
Lemma erase_entries f l :
  find_entry f md block name None 0 = Ok (Some en) -> entries block 0 = Ok l ->
  exists l1 n l2, l = l1 ++ (name, n) :: l2 /\ entry_inode name l1 = None /\
    entries block' 0 = Ok (l1 ++ l2).
Proof.
  intros Hs Hl. destruct (erase_entries_from f None 0 l) as
    [(Ho & Hp & n & rest & -> & Hrest)|(p & _ & _ & Hl')]; [lia|done|done| |done].
  exists [], n, rest. split_and!; [done|done|]. cbn [app].
  destruct en as [[pr o] len]. cbn in Ho, Hp, Hrest. subst pr o.
  destruct Hen as (_ & Hr & -> & _). destruct Her as (Hb' & Hc & Hi & Hlen & Hnl).
  pose proof (record_ok_spec md block _ 0 (proj2 Hb) Hr) as (R1 & R2 & R3 & R4).
  assert (0 <= inodes_count md) as Hcount.
  { apply dir_entries_inv in Hl as (_ & Hi0 & _); [|done|done|done|lia].
    pose proof (field_bound 4 block 0 (proj2 Hb)). lia. }
  rewrite dir_entries_cons; [|done|done|done|lia| |lia].
  2: { unfold record_ok. rewrite Hlen, Hnl. rewrite (proj2 (Z.mod_divide _ 4 ltac:(lia)) R2).
       rewrite !(proj2 (Z.leb_le _ _)) by lia. done. }
  rewrite Hlen, (dir_entries_after md block block' _ _ _ F _ Hb Hc), Hrest, Hi by lia. done.
Qed.
End erase.

(** ** A new directory *)

Lemma bind_assoc {F A B C} (m : outcome F A) (f : A -> outcome F B) (g : B -> outcome F C) :
  (m ≫= f) ≫= g = m ≫= (fun a => f a ≫= g).
Proof. by destruct m. Qed.

Lemma new_directory_stores md n parent :
  new_directory md n parent =
    (b ← store_record md zeroed_block 0 n 12 [46] 2;
     store_record md b 12 parent (block_size md - 12) [46; 46] 2).
Proof.
  unfold new_directory, store_record. generalize zeroed_block. intros z. rewrite bind_assoc.
  change (0 + 4) with 4. change (0 + 6) with 6. change (0 + 7) with 7. cbn [length Z.of_nat].
  destruct (put_le 4 z 0 n) as [b| |]; [|done..]. rewrite !Ok_bind, bind_assoc.
  destruct (put_le 2 b 4 12) as [b1| |]; [|done..]. rewrite !Ok_bind, bind_assoc. reflexivity.
Qed.

(** The entries of a new directory are [.] and [..]. *)
Lemma new_directory_spec md n parent :
  32 <= block_size md <= 4096 -> (4 | block_size md) -> inodes_count md < u32_limit ->
  0 < n <= inodes_count md -> 0 < parent <= inodes_count md ->
  holds (new_directory md n parent) (fun b => buffer b /\
    forall f, enough f (block_size md) 0 ->
      dir_entries f md b (block_size md) 0 = Ok [([46], n); ([46; 46], parent)]) (fun _ => False).
Proof.
  intros Hbs Hd Hc Hn Hp. rewrite new_directory_stores.
  assert (bytes_ok [46] /\ bytes_ok [46; 46]) as [? ?] by (split; repeat (apply Forall_cons; split; [done|]); by apply Forall_nil).
  eapply holds_bind; [apply store_record_spec; (done || (simpl; lia) || apply zeroed_buffer)|].
  intros b1 (H1 & C1 & R1).
  eapply holds_mono; [apply store_record_spec; (done || (simpl; lia))| |done]. intros b2 (H2 & C2 & R2).
  split; [done|]. intros f Hf.
  eapply record_entry with (len := 12); [done|done|done| |done|simpl; lia|by exists 3|lia|].
  { eapply record_at_changed; [done|done|done|simpl; lia]. }
  eapply record_entry; [done|done|done|done|done|simpl; lia| |lia|].
  { apply Z.divide_sub_r; [done|by exists 3]. }
  replace (0 + 12 + (block_size md - 12)) with (block_size md) by lia.
  destruct f; simpl; by rewrite (proj2 (Z.ltb_lt _ _)) by lia.
Qed.
