(* ===== verification/Ext2View.v ===== *)
(** * What the read operations of ext2 compute

    A mounted volume is abstracted to the contents of its blocks.  An operation of
    [fs/ext2.rs] that only reads then computes a function of these contents, or
    fails because the disk or an allocation did; the caches of indirect blocks make
    no difference. *)

From S2P Require Import Prelude Refine Utf8 FileSystem Disk Ext2 Ext2Bits Ext2Dir.

Local Open Scope Z_scope.

#[local] Abbreviation E := Ext2Error.t.

(** Errors any read or allocation may return. *)
Definition soft (e : E) : Prop :=
  match e with
  | Ext2Error.Disk _ | Ext2Error.AllocationFailed => True
  | _ => False
  end.

(** The contents of the blocks. *)
Definition View : Type := Z -> list Z.

(** A buffer that holds block [b]. *)
Definition page (md : Metadata) (V : View) (b : Z) : list Z :=
  V b ++ drop (Z.to_nat (block_size md)) zeroed_block.

(** ** The functions *)

Section functions.
Context (md : Metadata) (V : View).

Definition inode_table (group : Z) : Z :=
  field 4 (V (first_data_block md + 1 + group * 32 / block_size md)) (group * 32 mod block_size md + 8).

(** The block and the offset of an inode. *)
Definition inode_block (n : Z) : Z :=
  inode_table ((n - 1) / inodes_per_group md)
  + (n - 1) mod inodes_per_group md * inode_size md / block_size md.

Definition inode_offset (n : Z) : Z :=
  (n - 1) mod inodes_per_group md * inode_size md mod block_size md.

Definition table_blocks : Z := (inodes_per_group md * inode_size md + block_size md - 1) / block_size md.

Definition inode_of (n : Z) : outcome E Inode :=
  if (n =? 0) || (inodes_count md <? n) then Err Ext2Error.InvalidFilesystem
  else if group_count md <=? (n - 1) / inodes_per_group md then Err Ext2Error.InvalidFilesystem
  else if blocks_count md <? inode_table ((n - 1) / inodes_per_group md) + table_blocks
  then Err Ext2Error.InvalidFilesystem
  else parse_inode md (slice (page md V (inode_block n)) (Z.to_nat (inode_offset n))
                         (Z.to_nat (inode_offset n + inode_size md))).

(** The block of a file. *)
Definition file_block (inode : Inode) (index : Z) : outcome E Z :=
  let pointers_per_block := block_size md / 4 in
  let indirect_index := index - Z.of_nat DIRECT_BLOCKS in
  let double_index := indirect_index - pointers_per_block in
  if index <? Z.of_nat DIRECT_BLOCKS then Ok (default 0 (i_blocks inode !! Z.to_nat index))
  else if indirect_index <? pointers_per_block then
    if i_single_indirect inode =? 0 then Ok 0
    else check_pointer md (field 4 (page md V (i_single_indirect inode)) (indirect_index * 4))
  else if pointers_per_block <=? double_index / pointers_per_block then Err Ext2Error.UnsupportedFeature
  else if i_double_indirect inode =? 0 then Ok 0
  else
    let indirect := field 4 (page md V (i_double_indirect inode))
                      (double_index / pointers_per_block * 4) in
    if indirect =? 0 then Ok 0
    else if blocks_count md <=? indirect then Err Ext2Error.InvalidFilesystem
    else check_pointer md (field 4 (page md V indirect) (double_index mod pointers_per_block * 4)).

(** The inode of a name in a directory, from block [index] on. *)
Fixpoint child_in_blocks (n : nat) (directory : Inode) (child : list Z) (index remaining : Z) :
  outcome E (option Z) :=
  match n with
  | O => Ok None
  | S n =>
      b ← file_block directory index;
      if b =? 0 then Err Ext2Error.InvalidFilesystem
      else
        found ← find_in_block MAX_RECORDS md (page md V b) (Z.min remaining (block_size md)) child 0;
        match found with
        | Some inode => Ok (Some inode)
        | None => child_in_blocks n directory child (index + 1) (saturating_sub remaining (block_size md))
        end
  end.

Definition child_of (directory : Inode) (child : list Z) : outcome E (option Z) :=
  if negb (is_directory directory) then Ok None
  else
    block_count ← inode_block_count md directory;
    child_in_blocks (Z.to_nat block_count) directory child 0 (i_size directory).

Fixpoint walk_of (components : list (list Z)) (number : Z) (inode : Inode) :
  outcome E (option (Z * Inode)) :=
  match components with
  | [] => Ok (Some (number, inode))
  | component :: components =>
      if bool_decide (component = []) then walk_of components number inode
      else if negb (safe_component component) || negb (is_directory inode) then Ok None
      else
        found ← child_of inode component;
        match found with
        | None => Ok None
        | Some child_number =>
            child ← inode_of child_number;
            walk_of components child_number child
        end
  end.

Definition path_of (path : list Z) : outcome E (option (Z * Inode)) :=
  inode ← inode_of ROOT_INODE;
  walk_of (split_slash path) ROOT_INODE inode.

Definition path_inode (path : list Z) : outcome E (option Inode) :=
  found ← path_of path; Ok (option_map snd found).

Definition path_number (path : list Z) : outcome E (option Z) :=
  found ← path_of path; Ok (option_map fst found).

(** The number of the directory of a path. *)
Definition directory_number (path : list Z) : outcome E Z :=
  if bool_decide (path = []) || bool_decide (path = [47]) then Ok ROOT_INODE
  else
    found ← path_inode path;
    parent ← ok_or found Ext2Error.NotFound;
    if negb (is_directory parent) then Err Ext2Error.InvalidPath
    else found ← path_number path; ok_or found Ext2Error.InvalidFilesystem.

(** The directory a path is in, its number and the name in it. *)
Definition parent_of (path : list Z) : outcome E (Z * Inode * list Z) :=
  let '(parent_path, name) := match last_slash path with
                              | Some index => (take index path, drop (S index) path)
                              | None => ([], path)
                              end in
  if negb (safe_component name) then Err Ext2Error.InvalidPath
  else if existsb (fun component => negb (bool_decide (component = [])) && negb (safe_component component))
            (split_slash parent_path)
  then Err Ext2Error.InvalidPath
  else
    number ← directory_number parent_path;
    parent ← inode_of number;
    if negb (is_directory parent) then Err Ext2Error.InvalidPath else Ok (number, parent, name).
End functions.

(** ** The abstraction *)

Section view.
Context {D : Type} `{SectorDeviceLaws D}.
Context (md : Metadata) (Hmd : metadata_ok md).

#[local] Abbreviation Fs := (Ext2 D).
#[local] Abbreviation sectors_per_block := (block_size md / 512).

Definition block_at (d : D) (b : Z) : list Z :=
  sectors_from (sector d) (b * sectors_per_block) (Z.to_nat sectors_per_block).

#[local] Instance fs_view : Abstraction View Fs := fun V s =>
  e_mount s = Some (Ok md) /\ forall b, block_at (e_disk s) b = V b.

(** The operation computes [r], unless a read or an allocation fails. *)
Definition computes {A} (V : View) (op : Op Fs E A) (r : outcome E A) : Prop :=
  reads V op (fun a => r = Ok a) (fun e => soft e \/ r = Err e).

Lemma block_size_facts :
  1024 <= block_size md <= 4096 /\ sectors_per_block * 512 = block_size md /\
  2 <= sectors_per_block <= 8 /\ block_size md / 4 * 4 = block_size md.
Proof. destruct (ok_block_size _ Hmd) as [->|[->| ->]]; vm_compute; intuition discriminate. Qed.

Lemma block_at_ok d b : length (block_at d b) = Z.to_nat (block_size md) /\ bytes_ok (block_at d b).
Proof.
  destruct block_size_facts as (_ & Hs & Hr & _). split.
  - unfold block_at. rewrite length_sectors_from by apply sector_bytes. lia.
  - apply sectors_from_bytes, sector_bytes.
Qed.

(** What a view that abstracts a state is like. *)
Definition view_ok (V : View) : Prop :=
  forall b, length (V b) = Z.to_nat (block_size md) /\ bytes_ok (V b).

Lemma abstracts_ok V s : abstracts V s -> view_ok V.
Proof. intros [_ Hs] b. rewrite <-Hs. apply block_at_ok. Qed.

Lemma runs_view {A} V (op : Op Fs E A) Q X : (view_ok V -> runs V op Q X) -> runs V op Q X.
Proof. intros Hop s Hs. apply (Hop (abstracts_ok V s Hs) s Hs). Qed.

(** A buffer nothing but blocks were read into. *)
Definition tailed (l : list Z) : Prop :=
  buffer l /\ drop (Z.to_nat (block_size md)) l = drop (Z.to_nat (block_size md)) zeroed_block.

Lemma tailed_zeroed : tailed zeroed_block.
Proof. split; [apply zeroed_buffer|done]. Qed.

Lemma tailed_page V b : view_ok V -> tailed (page md V b).
Proof.
  intros HV. destruct (HV b) as [Hl Hb]. destruct block_size_facts as ((_ & Hmax) & _). unfold page, tailed.
  rewrite drop_app_length' by done. split; [|done]. split.
  - rewrite length_app, Hl, length_drop, (proj1 zeroed_buffer). lia.
  - apply Forall_app. split; [done|]. apply Forall_drop, bytes_ok_zeros.
Qed.

Lemma page_buffer V b : view_ok V -> buffer (page md V b).
Proof. intros HV. by apply tailed_page. Qed.

Lemma block_disjoint b b' s :
  b <> b' -> b' * sectors_per_block <= s < b' * sectors_per_block + sectors_per_block ->
  ~ (b * sectors_per_block <= s < b * sectors_per_block + sectors_per_block).
Proof. destruct block_size_facts as (_ & _ & Hr & _). intros Hn Hs Hs'. nia. Qed.

Lemma read_block_spec V b out :
  tailed out ->
  reads V (read_block md b out) (fun l => b < blocks_count md /\ l = page md V b)
    (fun e => (exists d, e = Ext2Error.Disk d) \/
       (blocks_count md <= b /\ e = Ext2Error.InvalidFilesystem)).
Proof.
  intros [[Hlen _] Htail]. destruct block_size_facts as (Hbs & Hs & Hr & _).
  pose proof (ok_disk _ Hmd) as Hdisk. pose proof (ok_blocks _ Hmd) as Hblocks.
  unfold read_block. rewrite (proj2 (Z.ltb_ge (Z.of_nat _) _)) by lia. rewrite orb_false_r.
  run_step; bools; [run_step; by right|].
  unfold disk_block_size. rewrite (proj2 (Z.ltb_lt _ _)) by lia. apply reads_ok_bind.
  unfold checked_mul. rewrite (proj2 (Z.ltb_lt _ _)) by nia. apply reads_ok_bind.
  intros s [Hm Hv]. unfold mbind, op_bind, device_read.
  destruct (read_sectors _ _ _ (e_disk s)) as [d' r] eqn:Er.
  destruct (read_sectors_spec _ _ _ _ _ _ Er) as (Hsame & Hnp & Hok).
  exists V. assert (abstracts V (set_disk d' s)) as Habs.
  { split; [done|]. intros b'. cbn. rewrite <-Hv. unfold block_at. apply sectors_from_ext. auto. }
  destruct r as [bytes|e|]; cbn; [|split; [done|]; split; [done|]; left; by exists e|done].
  destruct (Hok bytes eq_refl) as (_ & _ & ->). split; [done|]. split; [done|]. split; [lia|].
  unfold page. rewrite Htail, <-Hv. done.
Qed.

(** ** Rules *)

Lemma computes_bind {A B} V (m : Op Fs E A) (k : A -> Op Fs E B) r (f : A -> outcome E B) :
  computes V m r -> (forall a, r = Ok a -> computes V (k a) (f a)) -> computes V (m ≫= k) (r ≫= f).
Proof.
  intros Hm Hk. eapply reads_bind; [eapply reads_mono; [apply Hm|intros a Ha; exact Ha|]|].
  - intros e [He| ->]; [by left|by right].
  - intros a ->. apply (Hk a eq_refl).
Qed.

Lemma computes_lift {A} V (r : outcome E A) : r <> Panic -> computes V (lift r) r.
Proof. intros Hr. apply reads_lift. destruct r; cbn; auto. Qed.

Lemma computes_lift_bind {A B} V (r : outcome E A) (k : A -> Op Fs E B) (f : A -> outcome E B) :
  r <> Panic -> (forall a, r = Ok a -> computes V (k a) (f a)) -> computes V (lift r ≫= k) (r ≫= f).
Proof. intros Hr Hk. by apply computes_bind; [apply computes_lift|]. Qed.

Lemma computes_ok {A B} V (a : A) (k : A -> Op Fs E B) r :
  computes V (k a) r -> computes V (lift (Ok a) ≫= k) r.
Proof. done. Qed.

Lemma computes_ret {A} V (a : A) : computes V (mret a) (Ok a).
Proof. by apply reads_ret. Qed.

Lemma computes_fail {A} V e : computes (A := A) V (fail e) (Err e).
Proof. apply reads_fail. by right. Qed.

Lemma computes_if {A} V (b : bool) (op op' : Op Fs E A) r r' :
  (b = true -> computes V op r) -> (b = false -> computes V op' r') ->
  computes V (if b then op else op') (if b then r else r').
Proof. destruct b; auto. Qed.

Lemma computes_view {A} V (op : Op Fs E A) r : (view_ok V -> computes V op r) -> computes V op r.
Proof. apply runs_view. Qed.

(** What is known of the result. *)
Lemma computes_reads {A} V (op : Op Fs E A) r Q X :
  computes V op r -> (forall a, r = Ok a -> Q a) -> (forall e, soft e \/ r = Err e -> X e) ->
  reads V op Q X.
Proof. apply reads_mono. Qed.

Lemma read_block_in V b out :
  tailed out -> b < blocks_count md -> computes V (read_block md b out) (Ok (page md V b)).
Proof.
  intros Ho Hb. eapply reads_mono; [by apply read_block_spec| |]; cbn.
  - by intros a [_ ->].
  - intros e [[d ->]|[? ->]]; [by left|lia].
Qed.

Lemma read_block_out V b out :
  blocks_count md <= b -> computes V (read_block md b out) (Err Ext2Error.InvalidFilesystem).
Proof.
  intros Hb. unfold read_block. rewrite (proj2 (Z.leb_le _ _)) by done. apply computes_fail.
Qed.

Lemma try_reserve_spec V : computes V try_reserve (Ok tt).
Proof.
  intros s [Hm Hv]. exists V. unfold try_reserve. destruct (e_reserve s) as [|[] rest]; cbn.
  - split; [by split|done].
  - split; [by split|done].
  - split; [by split|]. split; [done|]. by left.
Qed.

Lemma metadata_spec V : computes V metadata (Ok md).
Proof. intros s [Hm Hv]. exists V. split; [by split|]. cbn. by rewrite Hm. Qed.

(** ** Inodes *)

Definition pointer_ok (b : Z) : Prop := 0 <= b /\ (b = 0 \/ b < blocks_count md).

Record inode_ok (i : Inode) : Prop := {
  io_mode : 0 <= i_mode i < u16_limit;
  io_links : 0 <= i_links i < u16_limit;
  io_size : 0 <= i_size i < u64_limit;
  io_sectors : 0 <= i_allocated_blocks_512 i < u32_limit;
  io_direct : length (i_blocks i) = DIRECT_BLOCKS;
  io_blocks : Forall pointer_ok (i_blocks i);
  io_single : pointer_ok (i_single_indirect i);
  io_double : pointer_ok (i_double_indirect i);
}.

Lemma pointer_check b : 0 <= b -> negb (b =? 0) && (blocks_count md <=? b) = false -> pointer_ok b.
Proof.
  intros Hb Hc. split; [done|]. destruct (Z.eqb_spec b 0); [by left|]. right. cbn in Hc. bools. lia.
Qed.

Lemma check_pointer_spec b :
  0 <= b -> holds (check_pointer md b) (fun b' => b' = b /\ pointer_ok b)
    (fun e => e = Ext2Error.InvalidFilesystem).
Proof.
  intros Hb. unfold check_pointer. destruct (_ && _) eqn:Hc; [done|]. cbn.
  split; [done|]. by apply pointer_check.
Qed.

Lemma direct_pointers_spec raw n index :
  bytes_ok raw -> INODE_BLOCK_POINTERS_OFFSET + (Z.of_nat index + Z.of_nat n) * 4 <= Z.of_nat (length raw) ->
  holds (direct_pointers md raw n index)
    (fun l => l = (fun j => field 4 raw (INODE_BLOCK_POINTERS_OFFSET + Z.of_nat j * 4)) <$> seq index n /\
       Forall pointer_ok l) (fun e => e = Ext2Error.InvalidFilesystem).
Proof.
  unfold INODE_BLOCK_POINTERS_OFFSET. intros Hb. revert index.
  induction n as [|n IH]; intros index Hl; [by split|]. cbn [direct_pointers].
  unfold INODE_BLOCK_POINTERS_OFFSET. rewrite le32_ok, Ok_bind by lia.
  set (b := field 4 raw (40 + Z.of_nat index * 4)).
  pose proof (field_bound 4 raw (40 + Z.of_nat index * 4) Hb) as Hbound.
  destruct (_ && _) eqn:Hc; [done|]. eapply holds_bind; [apply IH; lia|].
  intros rest [-> Hr]. cbn. split; [done|]. apply Forall_cons. split; [|done].
  apply pointer_check; [|done]. apply Hbound.
Qed.

Lemma parse_inode_spec raw :
  bytes_ok raw -> Z.of_nat (length raw) = inode_size md ->
  holds (parse_inode md raw) inode_ok (fun e => e = Ext2Error.InvalidFilesystem).
Proof.
  intros Hb Hl. pose proof (ok_inode_size _ Hmd) as His.
  assert (forall n off, 0 <= field n raw off < 256 ^ Z.of_nat n) as Hf by (intros; by apply field_bound).
  unfold parse_inode. rewrite (le32_ok raw 4), Ok_bind, (le16_ok raw 0), Ok_bind by lia.
  eapply holds_bind with (R := fun size => 0 <= size < u64_limit).
  { pose proof (Hf 4%nat 4). pose proof (Hf 4%nat 108). run_step; [|cbn in *; lia].
    rewrite (le32_ok raw 108), Ok_bind by lia. cbn [holds]. change u64_limit with (2 ^ 64).
    rewrite Z.shiftl_mul_pow2 by lia. change (256 ^ Z.of_nat 4) with (2 ^ 32) in *. apply lor_bound; lia. }
  intros size Hsize. eapply holds_bind.
  { apply direct_pointers_spec; [done|]. unfold INODE_BLOCK_POINTERS_OFFSET, DIRECT_BLOCKS. lia. }
  intros blocks [-> Hblocks]. unfold INODE_BLOCK_POINTERS_OFFSET, DIRECT_BLOCKS in *.
  rewrite (le32_ok raw (40 + Z.of_nat 12 * 4)), Ok_bind by lia. destruct (_ && _) eqn:Hs; [done|].
  rewrite (le32_ok raw (40 + (Z.of_nat 12 + 1) * 4)), Ok_bind by lia.
  destruct (negb (field 4 raw (40 + (Z.of_nat 12 + 1) * 4) =? 0) && _) eqn:Hd; [done|].
  rewrite (le16_ok raw 26), Ok_bind, (le32_ok raw 28), Ok_bind by lia. cbn [holds].
  split; cbn; [apply (Hf 2%nat)|apply (Hf 2%nat)|done|apply (Hf 4%nat)|done|done| |];
    (apply pointer_check; [apply Hf|done]).
Qed.

Lemma div_ceil_spec a b : 0 <= a -> 0 < b -> a <= div_ceil a b * b < a + b /\ 0 <= div_ceil a b.
Proof.
  intros Ha Hb. unfold div_ceil. pose proof (Z.div_mod a b). pose proof (Z.mod_pos_bound a b).
  pose proof (Z.div_pos a b). destruct (Z.eqb_spec (a mod b) 0); nia.
Qed.

(** The block of a group descriptor and of an inode are on the volume. *)
Lemma descriptor_block_in group :
  0 <= group < group_count md -> first_data_block md + 1 + group * 32 / block_size md < blocks_count md.
Proof.
  intros Hg. destruct block_size_facts as (Hbs & _). pose proof (ok_descriptors _ Hmd) as Hd.
  destruct (div_ceil_spec (32 * group_count md) (block_size md)) as [Hc _]; [lia..|].
  assert (group * 32 / block_size md < div_ceil (32 * group_count md) (block_size md)); [|lia].
  apply Z.div_lt_upper_bound; nia.
Qed.

Lemma descriptor_offset_in group : 0 <= group -> 0 <= group * 32 mod block_size md <= block_size md - 32.
Proof.
  intros Hg.
  assert (exists k, 0 < k /\ block_size md = k * 32) as (k & Hk & ->).
  { destruct (ok_block_size _ Hmd) as [->|[->| ->]]; [exists 32|exists 64|exists 128]; lia. }
  rewrite Z.mul_mod_distr_r by lia. pose proof (Z.mod_pos_bound group k). lia.
Qed.

Lemma field_page n V b off :
  view_ok V -> 0 <= off -> off + Z.of_nat n <= block_size md -> field n (page md V b) off = field n (V b) off.
Proof.
  intros HV Ho Hl. destruct (HV b) as [Hlen _]. unfold field. f_equal. apply slice_same. intros i Hi.
  unfold page. apply lookup_app_l. lia.
Qed.

Lemma inode_table_nonneg V group : view_ok V -> 0 <= inode_table md V group < u32_limit.
Proof. intros HV. unfold inode_table. apply field_bound, HV. Qed.

Lemma read_group_descriptor_spec V group out :
  tailed out -> 0 <= group ->
  computes V (read_group_descriptor md group out)
    (if group_count md <=? group then Err Ext2Error.InvalidFilesystem
     else if blocks_count md <=? inode_table md V group then Err Ext2Error.InvalidFilesystem
     else Ok (inode_table md V group, page md V (first_data_block md + 1 + group * 32 / block_size md))).
Proof.
  intros Ho Hg. apply computes_view. intros HV. destruct block_size_facts as (Hbs & _).
  pose proof (ok_groups _ Hmd) as Hgc. unfold MAX_GROUPS in Hgc. pose proof (ok_blocks _ Hmd) as Hb.
  pose proof (ok_blocks_max _ Hmd). unfold read_group_descriptor.
  apply computes_if; intros Hc; bools; [apply computes_fail|].
  assert (0 <= group * 32 / block_size md) by (apply Z.div_pos; lia).
  pose proof (descriptor_block_in group ltac:(lia)) as Hin.
  pose proof (descriptor_offset_in group Hg) as Hoff.
  unfold checked_add, checked_mul, to_u32. rewrite (proj2 (Z.ltb_lt (first_data_block md + 1) _)) by lia.
  apply computes_ok. rewrite (proj2 (Z.ltb_lt (group * 32) _)) by lia. apply computes_ok.
  rewrite (proj2 (Z.ltb_lt (group * 32 / block_size md) _)) by lia. apply computes_ok.
  rewrite (proj2 (Z.ltb_lt (_ + group * 32 / block_size md) _)) by lia. apply computes_ok.
  rewrite <-(Ok_bind (page md V (first_data_block md + 1 + group * 32 / block_size md))
    (fun output => if blocks_count md <=? inode_table md V group then Err Ext2Error.InvalidFilesystem
                   else Ok (inode_table md V group, output))).
  apply computes_bind; [apply read_block_in; [done|lia]|]. intros output [= <-].
  rewrite le32_ok by (rewrite ?(proj1 (page_buffer V _ HV)); lia). apply computes_ok.
  rewrite field_page by (done || lia). fold (inode_table md V group).
  apply computes_if; intros _; [apply computes_fail|apply computes_ret].
Qed.

(** An inode does not cross a block. *)
Lemma inode_offset_in n :
  0 < n -> 0 <= inode_offset md n /\ inode_offset md n + inode_size md <= block_size md.
Proof.
  intros Hn. destruct block_size_facts as (Hbs & _). pose proof (ok_inode_size _ Hmd) as His.
  pose proof (ok_inodes_per_group _ Hmd) as Hg. unfold inode_offset.
  pose proof (Z.mod_pos_bound (n - 1) (inodes_per_group md)) as Hm.
  set (k := (n - 1) mod inodes_per_group md) in *. set (sz := inode_size md) in *. set (bs := block_size md) in *.
  pose proof (Z.mod_pos_bound (k * sz) bs) as Hr. split; [lia|].
  destruct (ok_inode_fits _ Hmd) as [q Hq]. fold sz bs in Hq.
  pose proof (Z.div_mod (k * sz) bs ltac:(lia)) as Hdm.
  revert Hdm Hr. generalize ((k * sz) mod bs), (k * sz / bs). intros r x Hdm Hr.
  assert (r = (k - q * x) * sz) as ->.
  { rewrite Hq in Hdm. rewrite Z.mul_sub_distr_r. lia. }
  assert (k - q * x < q) by (apply (Z.mul_lt_mono_pos_r sz); lia).
  replace ((k - q * x) * sz + sz) with ((k - q * x + 1) * sz) by lia. rewrite Hq.
  apply Z.mul_le_mono_nonneg_r; lia.
Qed.

Lemma inode_block_in V n :
  view_ok V -> 0 < n -> inode_table md V ((n - 1) / inodes_per_group md) + table_blocks md <= blocks_count md ->
  0 <= inode_block md V n < blocks_count md.
Proof.
  intros HV Hn Ht. destruct block_size_facts as (Hbs & _). pose proof (ok_inode_size _ Hmd) as His.
  pose proof (ok_inodes_per_group _ Hmd) as Hg. unfold inode_block, table_blocks in *.
  set (t := inode_table md V ((n - 1) / inodes_per_group md)) in *.
  assert (0 <= t) by apply (inode_table_nonneg V _ HV).
  pose proof (Z.mod_pos_bound (n - 1) (inodes_per_group md)) as Hm.
  set (k := (n - 1) mod inodes_per_group md) in *. set (sz := inode_size md) in *. set (bs := block_size md) in *.
  assert (k * sz / bs < (inodes_per_group md * sz + bs - 1) / bs) as Hlt.
  { apply Z.div_lt_upper_bound; [lia|].
    pose proof (Z.div_mod (inodes_per_group md * sz + bs - 1) bs).
    pose proof (Z.mod_pos_bound (inodes_per_group md * sz + bs - 1) bs). nia. }
  assert (0 <= k * sz / bs) by (apply Z.div_pos; nia). lia.
Qed.

(** [read_inode] parses the inode's bytes of the table. *)
Lemma read_inode_spec V n : 0 <= n -> computes V (read_inode md n) (inode_of md V n).
Proof.
  intros Hn. apply computes_view. intros HV. destruct block_size_facts as (Hbs & _).
  pose proof (ok_inode_size _ Hmd) as His. pose proof (ok_inodes_per_group _ Hmd) as Hg.
  pose proof (ok_blocks_max _ Hmd). unfold read_inode, inode_of.
  apply computes_if; intros Hc; [apply computes_fail|]. bools.
  set (g := (n - 1) / inodes_per_group md).
  assert (0 <= g) by (apply Z.div_pos; lia). pose proof (inode_table_nonneg V g HV) as Ht0.
  pose proof (Z.mod_pos_bound (n - 1) (inodes_per_group md)) as Hm.
  eapply (reads_bind _ _ _ (fun p => g < group_count md /\ inode_table md V g < blocks_count md /\
    p = (inode_table md V g, page md V (first_data_block md + 1 + g * 32 / block_size md)))).
  { eapply computes_reads; [apply read_group_descriptor_spec; [apply tailed_zeroed|done]| |].
    - intros p. destruct (Z.leb_spec (group_count md) g); [done|].
      destruct (Z.leb_spec (blocks_count md) (inode_table md V g)); [done|]. intros [= <-]. split_and!; [lia|lia|done].
    - intros e [He|He]; [by left|]. right. revert He. destruct (Z.leb_spec (group_count md) g); [by intros [= <-]|].
      destruct (Z.leb_spec (blocks_count md) (inode_table md V g)); [|done]. intros [= <-].
      rewrite (proj2 (Z.ltb_lt _ _)); [done|]. unfold table_blocks.
      assert (0 < (inodes_per_group md * inode_size md + block_size md - 1) / block_size md); [|lia].
      apply Z.div_str_pos. nia. }
  intros ? (Hg1 & Ht1 & ->). rewrite (proj2 (Z.leb_gt _ _)) by done.
  fold (computes V (A := Inode)). cbv beta iota.
  assert (inodes_per_group md * inode_size md <= 8 * 4096 * 4096) by nia.
  unfold checked_mul, checked_add. rewrite (proj2 (Z.ltb_lt (inodes_per_group md * _) _)) by lia.
  cbn [mbind option_bind]. rewrite (proj2 (Z.ltb_lt (inodes_per_group md * _ + _) _)) by lia.
  apply computes_ok. rewrite Z.add_sub_assoc. fold (table_blocks md).
  assert (0 <= table_blocks md <= 8 * 4096 * 4096 + 4096) as Htb.
  { unfold table_blocks. split; [apply Z.div_pos; lia|]. apply Z.div_le_upper_bound; nia. }
  rewrite (proj2 (Z.ltb_lt (inode_table md V g + _) _)) by lia.
  apply computes_if; intros Hend; bools; [apply computes_fail|].
  destruct (inode_block_in V n HV) as (Hi0 & Hi1); [lia|done|]. destruct (inode_offset_in n) as [Ho0 Ho1]; [lia|].
  unfold inode_block, inode_offset in *. fold g in Hi0, Hi1 |- *.
  set (o := (n - 1) mod inodes_per_group md * inode_size md) in *.
  assert (0 <= o <= 8 * 4096 * 4096) by (unfold o; nia).
  assert (0 <= o / block_size md) by (apply Z.div_pos; lia).
  rewrite (proj2 (Z.ltb_lt o _)) by lia. apply computes_ok.
  unfold to_u32. rewrite (proj2 (Z.ltb_lt (o / block_size md) _)) by lia. apply computes_ok.
  rewrite (proj2 (Z.ltb_lt (inode_table md V g + _) _)) by lia. apply computes_ok.
  set (f := fun block => parse_inode md (slice block (Z.to_nat (o mod block_size md))
                                           (Z.to_nat (o mod block_size md + inode_size md)))).
  apply (computes_bind V _ _ (Ok (page md V (inode_table md V g + o / block_size md))) f).
  { apply read_block_in; [by apply tailed_page|lia]. }
  intros block [= <-]. unfold f. rewrite (proj2 (Z.ltb_ge (block_size md) _)) by lia.
  rewrite index_range_in by (rewrite ?(proj1 (page_buffer V _ HV)); lia). apply computes_ok, computes_lift.
  eapply holds_not_panic, parse_inode_spec; [apply bytes_ok_slice, page_buffer, HV|].
  rewrite length_slice by (rewrite ?(proj1 (page_buffer V _ HV)); lia). lia.
Qed.

Lemma inode_of_ok V n i : view_ok V -> 0 <= n -> inode_of md V n = Ok i -> inode_ok i.
Proof.
  intros HV Hn Hi. unfold inode_of in Hi. destruct (_ || _) eqn:Hc; [done|]. bools.
  destruct (_ <=? _); [done|]. destruct (Z.ltb_spec (blocks_count md)
    (inode_table md V ((n - 1) / inodes_per_group md) + table_blocks md)); [done|].
  destruct (inode_offset_in n) as [Ho0 Ho1]; [lia|].
  pose proof (ok_inode_size _ Hmd). destruct block_size_facts as (Hbs & _).
  assert (holds (parse_inode md (slice (page md V (inode_block md V n)) (Z.to_nat (inode_offset md n))
    (Z.to_nat (inode_offset md n + inode_size md)))) inode_ok (fun e => e = Ext2Error.InvalidFilesystem)) as Hh.
  { apply parse_inode_spec; [apply bytes_ok_slice, page_buffer, HV|].
    rewrite length_slice by (rewrite ?(proj1 (page_buffer V _ HV)); lia). lia. }
  by rewrite Hi in Hh.
Qed.

(** ** The blocks of a file *)

Lemma inode_block_count_spec i :
  inode_ok i ->
  holds (inode_block_count md i) (fun c => c = div_ceil (i_size i) (block_size md) /\
      c <= Z.of_nat DIRECT_BLOCKS + block_size md / 4 + block_size md / 4 * (block_size md / 4))
    (fun e => e = Ext2Error.UnsupportedFeature).
Proof.
  intros Hi. pose proof (io_size _ Hi) as Hs. unfold inode_block_count, DIRECT_BLOCKS, checked_add, checked_mul.
  assert (0 <= block_size md / 4 <= 1024) as Hp.
  { destruct (ok_block_size _ Hmd) as [->|[->| ->]]; done. }
  rewrite (proj2 (Z.ltb_lt (Z.of_nat 12 + _) _)) by lia. cbn [mbind option_bind].
  rewrite (proj2 (Z.ltb_lt (block_size md / 4 * _) _)) by nia. cbn [mbind option_bind].
  rewrite (proj2 (Z.ltb_lt (_ + _ * _) _)) by nia. cbn [ok_or]. rewrite Ok_bind.
  fold (div_ceil (i_size i) (block_size md)).
  run_step; bools; run_step; [done|]. split; [done|lia].
Qed.

(** A cache that is filled holds its block. *)
Record caches_ok (V : View) (c : Caches) : Prop := {
  ca_indirect : tailed (indirect_data c);
  ca_double : tailed (double_indirect_data c);
  ca_indirect_at : cached_indirect_block c <> 0 -> indirect_data c = page md V (cached_indirect_block c);
  ca_double_at : cached_double_indirect_block c <> 0 ->
    double_indirect_data c = page md V (cached_double_indirect_block c);
}.

Lemma new_caches_ok V : caches_ok V new_caches.
Proof. split; cbn; [apply tailed_zeroed..|done|done]. Qed.

Lemma load_indirect_spec V b c :
  caches_ok V c -> b <> 0 -> b < blocks_count md ->
  reads V (load_indirect md b c) (fun c' => caches_ok V c' /\ indirect_data c' = page md V b) soft.
Proof.
  intros Hc Hb0 Hb. apply runs_view. intros HV. unfold load_indirect. apply reads_if; intros Heq; bools.
  { apply reads_ret. split; [done|]. rewrite (ca_indirect_at _ _ Hc), Heq; [done|lia]. }
  eapply reads_bind; [eapply computes_reads; [by apply read_block_in, Hb; apply Hc| |]|].
  - intros l Hl. exact Hl.
  - by intros e [He|He].
  - intros l [= <-]. apply reads_ret. split; [|done].
    split; cbn; [by apply tailed_page|apply Hc|done|apply (ca_double_at _ _ Hc)].
Qed.

Lemma load_double_spec V b c :
  caches_ok V c -> b <> 0 -> b < blocks_count md ->
  reads V (load_double md b c) (fun c' => caches_ok V c' /\ double_indirect_data c' = page md V b) soft.
Proof.
  intros Hc Hb0 Hb. apply runs_view. intros HV. unfold load_double. apply reads_if; intros Heq; bools.
  { apply reads_ret. split; [done|]. rewrite (ca_double_at _ _ Hc), Heq; [done|lia]. }
  eapply reads_bind; [eapply computes_reads; [by apply read_block_in, Hb; apply Hc| |]|].
  - intros l Hl. exact Hl.
  - by intros e [He|He].
  - intros l [= <-]. apply reads_ret. split; [|done].
    split; cbn; [apply Hc|by apply tailed_page|done|done].
Qed.

Lemma page_le32 V b off :
  view_ok V -> 0 <= off -> off + 4 <= block_size md -> le32 (page md V b) off = Ok (field 4 (page md V b) off).
Proof.
  intros HV Ho Hl. destruct block_size_facts as (Hbs & _).
  apply le32_ok; [done|]. rewrite (proj1 (page_buffer V b HV)). lia.
Qed.

(** A pointer of a block that is in the cache. *)
Lemma cached_pointer_spec V c b off :
  view_ok V -> caches_ok V c -> indirect_data c = page md V b -> 0 <= off -> off + 4 <= block_size md ->
  reads V (pointer ← lift (le32 (indirect_data c) off); block ← lift (check_pointer md pointer);
           mret (M := Op Fs E) (block, c))
    (fun p => check_pointer md (field 4 (page md V b) off) = Ok p.1 /\ caches_ok V p.2 /\ pointer_ok p.1)
    (fun e => soft e \/ check_pointer md (field 4 (page md V b) off) = Err e).
Proof.
  intros HV Hc Hd Ho Hl. rewrite Hd, page_le32 by done. apply reads_ok_bind.
  pose proof (field_bound 4 (page md V b) off (proj2 (page_buffer V b HV))) as Hf.
  pose proof (check_pointer_spec (field 4 (page md V b) off) ltac:(lia)) as Hp.
  destruct (check_pointer md _) as [p|e|]; cbn in Hp; [|apply reads_fail; by right|done].
  destruct Hp as [-> Hp]. by apply reads_ret.
Qed.

(** A file may have holes. *)
Lemma hole V c X :
  caches_ok V c -> reads V (mret (M := Op Fs E) (0, c))
    (fun p => @Ok E _ 0 = Ok p.1 /\ caches_ok V p.2 /\ pointer_ok p.1) X.
Proof. intros Hc. apply reads_ret. split_and!; [done|done|]. split; [done|by left]. Qed.

(** [inode_data_block] finds the file's block, whatever the caches hold. *)
Lemma inode_data_block_spec V inode index c :
  caches_ok V c -> inode_ok inode -> 0 <= index ->
  reads V (inode_data_block md inode index c)
    (fun p => file_block md V inode index = Ok p.1 /\ caches_ok V p.2 /\ pointer_ok p.1)
    (fun e => soft e \/ file_block md V inode index = Err e).
Proof.
  intros Hc Hi Hidx. apply runs_view. intros HV. destruct block_size_facts as (Hbs & _ & _ & H4).
  unfold inode_data_block, file_block. destruct (Z.ltb_spec index (Z.of_nat DIRECT_BLOCKS)) as [Hd|Hd].
  { destruct (lookup_lt_is_Some_2 (i_blocks inode) (Z.to_nat index)) as [b Hb];
      [rewrite (io_direct _ Hi); lia|]. rewrite Hb. apply reads_ok_bind. apply reads_ret. split_and!; [done|done|].
    pose proof (io_blocks _ Hi) as Hall. rewrite Forall_lookup in Hall. by apply (Hall _ _ Hb). }
  set (ppb := block_size md / 4) in *. set (k := index - Z.of_nat DIRECT_BLOCKS) in *.
  destruct (Z.ltb_spec k ppb) as [Hk|Hk].
  { destruct (Z.eqb_spec (i_single_indirect inode) 0) as [E0|E0]; [by apply (hole V)|].
    destruct (io_single _ Hi) as [? [?|?]]; [done|].
    eapply reads_bind; [eapply reads_mono; [by apply load_indirect_spec|intros c' Hc'; exact Hc'|by left]|].
    intros c' [Hc' Hdata]. apply cached_pointer_spec; [done|done|done|lia|lia]. }
  destruct (Z.leb_spec ppb ((k - ppb) / ppb)) as [Ho|Ho]; [apply reads_fail; by right|].
  destruct (Z.eqb_spec (i_double_indirect inode) 0) as [E0|E0]; [by apply (hole V)|].
  destruct (io_double _ Hi) as [? [?|?]]; [done|].
  assert (0 <= (k - ppb) / ppb) by (apply Z.div_pos; lia).
  eapply reads_bind; [eapply reads_mono; [by apply load_double_spec|intros c' Hc'; exact Hc'|by left]|].
  intros c' [Hc' Hdata]. rewrite Hdata, page_le32 by (done || lia). apply reads_ok_bind.
  set (b := field 4 (page md V (i_double_indirect inode)) ((k - ppb) / ppb * 4)).
  destruct (Z.eqb_spec b 0) as [Eb|Eb]; [by apply (hole V)|].
  destruct (Z.leb_spec (blocks_count md) b) as [Hb|Hb]; [apply reads_fail; by right|].
  eapply reads_bind; [eapply reads_mono; [by apply load_indirect_spec|intros c2 Hc2; exact Hc2|by left]|].
  intros c2 [Hc2 Hdata2]. pose proof (Z.mod_pos_bound (k - ppb) ppb).
  apply cached_pointer_spec; [done|done|done|lia|lia].
Qed.

(** ** Directories and paths *)

(** The next part of an operation whose result [r] tells what the part returned. *)
Lemma computes_step {A A' B} V (m : Op Fs E A') (k : A' -> Op Fs E B) (r : outcome E A)
  (f : A -> outcome E B) (R : A' -> A -> Prop) :
  reads V m (fun a' => exists a, r = Ok a /\ R a' a) (fun e => soft e \/ r = Err e) ->
  (forall a' a, r = Ok a -> R a' a -> computes V (k a') (f a)) -> computes V (m ≫= k) (r ≫= f).
Proof.
  intros Hm Hk. eapply reads_bind; [eapply reads_mono; [apply Hm|intros a Ha; exact Ha|]|].
  - intros e [He| ->]; [by left|by right].
  - intros a' (a & -> & HR). apply (Hk a' a eq_refl HR).
Qed.

Lemma data_block_step {B} V inode index c (k : Z * Caches -> Op Fs E B) (f : Z -> outcome E B) :
  caches_ok V c -> inode_ok inode -> 0 <= index ->
  (forall b c', caches_ok V c' -> pointer_ok b -> computes V (k (b, c')) (f b)) ->
  computes V (inode_data_block md inode index c ≫= k) (file_block md V inode index ≫= f).
Proof.
  intros Hc Hi Hidx Hk. eapply computes_step with (R := fun p b => p.1 = b /\ caches_ok V p.2 /\ pointer_ok b).
  - eapply reads_mono; [by apply inode_data_block_spec| |done].
    intros p (Hb & Hc' & Hp). by exists p.1.
  - intros [b' c'] b _ (<- & Hc' & Hp). by apply Hk.
Qed.

Lemma find_in_page V b limit child :
  view_ok V -> limit <= block_size md ->
  holds (find_in_block MAX_RECORDS md (page md V b) limit child 0)
    (fun r => match r with Some n => 0 < n <= inodes_count md | None => True end)
    (fun e => e = Ext2Error.InvalidFilesystem).
Proof.
  intros HV Hl. destruct block_size_facts as (Hbs & _).
  apply find_in_block_spec; [by apply page_buffer|lia|done|apply enough_start; lia].
Qed.

Lemma find_child_blocks_spec V n directory child index remaining block c :
  caches_ok V c -> inode_ok directory -> 0 <= index -> tailed block ->
  computes V (find_child_blocks n md directory child index remaining block c)
    (child_in_blocks md V n directory child index remaining).
Proof.
  intros Hc Hi Hidx Hb. apply computes_view. intros HV. revert index remaining block c Hidx Hb Hc.
  induction n as [|n IH]; intros index remaining block c Hidx Hb Hc; [apply computes_ret|].
  cbn [find_child_blocks child_in_blocks]. apply data_block_step; [done..|]. intros b c' Hc' Hp.
  destruct (Z.eqb_spec b 0) as [|Hb0]; [apply computes_fail|]. destruct Hp as [_ [?|Hp]]; [done|].
  rewrite <-(Ok_bind (page md V b) (fun block => found ← find_in_block MAX_RECORDS md block _ child 0; _)).
  apply computes_bind; [by apply read_block_in|]. intros ? [= <-].
  pose proof (find_in_page V b (Z.min remaining (block_size md)) child HV ltac:(lia)) as Hf.
  apply computes_lift_bind; [by eapply holds_not_panic|]. intros [inode|] _; [apply computes_ret|].
  apply IH; [lia|by apply tailed_page|done].
Qed.

Lemma find_child_spec V directory child :
  inode_ok directory -> computes V (find_child md directory child) (child_of md V directory child).
Proof.
  intros Hi. unfold find_child, child_of. apply computes_if; intros Hd; [apply computes_ret|].
  apply computes_lift_bind; [by eapply holds_not_panic, inode_block_count_spec|]. intros count _.
  apply find_child_blocks_spec; [apply new_caches_ok|done|done|apply tailed_zeroed].
Qed.

Lemma child_in_blocks_range V n directory child index remaining k :
  view_ok V -> child_in_blocks md V n directory child index remaining = Ok (Some k) ->
  0 < k <= inodes_count md.
Proof.
  intros HV. revert index remaining. induction n as [|n IH]; intros index remaining; [done|].
  cbn [child_in_blocks]. intros (b & _ & Hk)%bind_Ok_inv. destruct (_ =? 0); [done|].
  apply bind_Ok_inv in Hk as (found & Hfound & Hk).
  pose proof (find_in_page V b (Z.min remaining (block_size md)) child HV ltac:(lia)) as Hf.
  rewrite Hfound in Hf. destruct found as [inode|]; [by injection Hk as <-|]. by eapply IH.
Qed.

Lemma child_of_range V directory child n :
  view_ok V -> child_of md V directory child = Ok (Some n) -> 0 < n <= inodes_count md.
Proof.
  intros HV. unfold child_of. destruct (negb _); [done|]. intros (count & _ & Hc)%bind_Ok_inv.
  by eapply child_in_blocks_range.
Qed.

Lemma walk_spec V components number inode :
  inode_ok inode -> computes V (walk md components number inode) (walk_of md V components number inode).
Proof.
  intros Hi. apply computes_view. intros HV. revert number inode Hi.
  induction components as [|component components IH]; intros number inode Hi; [apply computes_ret|].
  cbn [walk walk_of]. apply computes_if; intros He; [by apply IH|].
  apply computes_if; intros Hs; [apply computes_ret|].
  apply computes_bind; [by apply find_child_spec|]. intros [n|] Hn; [|apply computes_ret].
  apply child_of_range in Hn; [|done].
  apply computes_bind; [apply read_inode_spec; lia|]. intros child Hc. apply IH.
  eapply inode_of_ok; [done| |done]. lia.
Qed.

Lemma lookup_path_spec V path :
  computes V (lookup_path path) (path_inode md V path).
Proof.
  apply computes_view. intros HV. unfold lookup_path, path_inode, path_of, ROOT_INODE. rewrite bind_assoc.
  rewrite <-(Ok_bind md (fun md => inode_of md V 2 ≫= _)).
  apply computes_bind; [apply metadata_spec|]. intros ? [= <-].
  apply computes_bind; [by apply read_inode_spec|]. intros inode Hi.
  apply computes_bind; [|intros; apply computes_ret]. apply walk_spec.
  eapply inode_of_ok; [done| |done]. lia.
Qed.

Lemma find_inode_number_spec V path :
  computes V (find_inode_number md path) (path_number md V path).
Proof.
  apply computes_view. intros HV. unfold find_inode_number, path_number, path_of, ROOT_INODE. rewrite bind_assoc.
  apply computes_bind; [by apply read_inode_spec|]. intros inode Hi.
  apply computes_bind; [|intros; apply computes_ret]. apply walk_spec.
  eapply inode_of_ok; [done| |done]. lia.
Qed.

(** The inode a path leads to is the one of its number. *)
Lemma walk_of_inode V components number inode n i :
  view_ok V -> 0 < number <= inodes_count md -> inode_of md V number = Ok inode ->
  walk_of md V components number inode = Ok (Some (n, i)) ->
  0 < n <= inodes_count md /\ inode_of md V n = Ok i.
Proof.
  intros HV. revert number inode. induction components as [|component components IH]; intros number inode Hn Hi.
  { by intros [= <- <-]. }
  cbn [walk_of]. case_bool_decide; [by apply IH|]. destruct (_ || _); [done|].
  intros (found & Hf & Hw)%bind_Ok_inv. destruct found as [child|]; [|done].
  apply bind_Ok_inv in Hw as (ci & Hci & Hw). apply child_of_range in Hf; [|done]. by eapply IH.
Qed.

Lemma path_of_inode V path n i :
  view_ok V -> path_of md V path = Ok (Some (n, i)) ->
  0 < n <= inodes_count md /\ inode_of md V n = Ok i /\ inode_ok i.
Proof.
  intros HV. unfold path_of. intros (root & Hr & Hw)%bind_Ok_inv.
  pose proof (ok_inodes _ Hmd) as Hroot. unfold ROOT_INODE in *.
  apply walk_of_inode in Hw as [Hn Hi]; [|done|lia|done]. split_and!; [lia|lia|done|].
  eapply inode_of_ok; [done| |done]. lia.
Qed.

Lemma directory_number_range V path n :
  view_ok V -> directory_number md V path = Ok n -> 0 < n <= inodes_count md.
Proof.
  intros HV. pose proof (ok_inodes _ Hmd) as Hroot. unfold directory_number, ROOT_INODE in *.
  destruct (_ || _); [intros [= <-]; lia|]. intros (? & _ & Hn)%bind_Ok_inv.
  apply bind_Ok_inv in Hn as (? & _ & Hn). destruct (negb _); [done|].
  apply bind_Ok_inv in Hn as (found & Hf & ->%ok_or_Ok_inv). unfold path_number in Hf.
  apply bind_Ok_inv in Hf as ([[n' i]|] & Hf & [= <-]).
  by destruct (path_of_inode V path n' i HV Hf) as [? _].
Qed.

Lemma resolve_parent_spec V path : computes V (resolve_parent md path) (parent_of md V path).
Proof.
  apply computes_view. intros HV. unfold resolve_parent, parent_of.
  destruct (match last_slash path with Some _ => _ | None => _ end) as [parent_path name].
  apply computes_if; intros _; [apply computes_fail|]. apply computes_if; intros _; [apply computes_fail|].
  apply computes_bind.
  - unfold directory_number. apply computes_if; intros _; [apply computes_ret|].
    apply computes_bind; [apply lookup_path_spec|]. intros found _.
    apply computes_lift_bind; [apply ok_or_safe|]. intros parent _.
    apply computes_if; intros _; [apply computes_fail|].
    apply computes_bind; [apply find_inode_number_spec|]. intros found' _. apply computes_lift, ok_or_safe.
  - intros n Hn%directory_number_range; [|done]. apply computes_bind; [apply read_inode_spec; lia|].
    intros parent _. apply computes_if; intros _; [apply computes_fail|apply computes_ret].
Qed.

(** What is known of the parent. *)
Lemma parent_of_ok V path n parent name :
  view_ok V -> parent_of md V path = Ok (n, parent, name) ->
  0 < n <= inodes_count md /\ inode_of md V n = Ok parent /\ inode_ok parent /\
  is_directory parent = true /\ safe_component name = true.
Proof.
  intros HV. unfold parent_of.
  destruct (match last_slash path with Some _ => _ | None => _ end) as [parent_path name'].
  destruct (safe_component name') eqn:Hsafe; [|done]. cbn [negb]. destruct (existsb _ _); [done|].
  intros (k & Hk%directory_number_range & Hp)%bind_Ok_inv; [|done].
  apply bind_Ok_inv in Hp as (i & Hi & Hp). destruct (is_directory i) eqn:Hdir; [|done].
  injection Hp as <- <- <-. split_and!; [lia|lia|done| |done|done].
  eapply inode_of_ok; [done| |done]. lia.
Qed.
End view.
