(* ===== verification/Ext2Read.v ===== *)
(** * Reading files and listing directories

    [read_inode_contents] fills its buffer with the bytes of the file's blocks, and
    [for_each_child] visits the entries of a directory. *)

From S2P Require Import Prelude Refine Utf8 FileSystem Disk Ext2 Ext2Bits Ext2Dir Ext2View.

Local Open Scope Z_scope.

#[local] Abbreviation E := Ext2Error.t.

(** The bytes behind a pointer; a hole reads as zeros. *)
Definition block_bytes (md : Metadata) (V : View) (b : Z) : list Z :=
  if b =? 0 then replicate (Z.to_nat (block_size md)) 0 else V b.

(** The bytes of [n] blocks of a file from block [index] on. *)
Fixpoint data_from (md : Metadata) (V : View) (inode : Inode) (index : Z) (n : nat) : outcome E (list Z) :=
  match n with
  | O => Ok []
  | S n =>
      b ← file_block md V inode index;
      rest ← data_from md V inode (index + 1) n;
      Ok (block_bytes md V b ++ rest)
  end.

(** The first [n] bytes of a file. *)
Definition file_bytes (md : Metadata) (V : View) (inode : Inode) (n : Z) : outcome E (list Z) :=
  data ← data_from md V inode 0 (Z.to_nat (div_ceil n (block_size md)));
  Ok (take (Z.to_nat n) data).

(** The first [n] bytes of a file, if its size is one the pointers can reach. *)
Definition contents_of (md : Metadata) (V : View) (inode : Inode) (n : Z) : outcome E (list Z) :=
  _ ← inode_block_count md inode; file_bytes md V inode n.

Definition file_of (md : Metadata) (V : View) (path : list Z) (max_size : Z) : outcome E (option (list Z)) :=
  found ← path_inode md V path;
  match found with
  | None => Ok None
  | Some inode =>
      if negb (is_regular inode) then Ok None
      else if max_size <? i_size inode then Err Ext2Error.FileTooLarge
      else contents ← contents_of md V inode (i_size inode); Ok (Some contents)
  end.

(** What [for_each_child] calls its closure with for the entries of a directory. *)
Definition visit_of (md : Metadata) (V : View) (entry : list Z * Z) : outcome E Visits :=
  let '(name, n) := entry in
  if bool_decide (name = [46]) || bool_decide (name = [46; 46]) then Ok []
  else if negb (safe_component name) then Err Ext2Error.UnsupportedFeature
  else
    inode ← inode_of md V n;
    if negb (is_directory inode) && negb (is_regular inode) then Err Ext2Error.UnsupportedFeature
    else if negb (valid_utf8 name) then Err Ext2Error.UnsupportedFeature
    else Ok [(name, is_directory inode, i_size inode)].

Fixpoint visits_of (md : Metadata) (V : View) (entries : list (list Z * Z)) : outcome E Visits :=
  match entries with
  | [] => Ok []
  | entry :: entries =>
      v ← visit_of md V entry;
      rest ← visits_of md V entries;
      Ok (v ++ rest)
  end.

(** The entries of a directory, from block [index] on. *)
Fixpoint entries_in_blocks (n : nat) (md : Metadata) (V : View) (directory : Inode) (index remaining : Z) :
  outcome E (list (list Z * Z)) :=
  match n with
  | O => Ok []
  | S n =>
      b ← file_block md V directory index;
      if b =? 0 then Err Ext2Error.InvalidFilesystem
      else
        l ← dir_entries MAX_RECORDS md (page md V b) (Z.min remaining (block_size md)) 0;
        rest ← entries_in_blocks n md V directory (index + 1) (saturating_sub remaining (block_size md));
        Ok (l ++ rest)
  end.

Definition entries_of (md : Metadata) (V : View) (directory : Inode) : outcome E (list (list Z * Z)) :=
  if negb (is_directory directory) then Ok []
  else
    count ← inode_block_count md directory;
    entries_in_blocks (Z.to_nat count) md V directory 0 (i_size directory).

Section read.
Context {D : Type} `{SectorDeviceLaws D}.
Context (md : Metadata) (Hmd : metadata_ok md).

#[local] Abbreviation Fs := (Ext2 D).
#[local] Instance here : Abstraction View Fs := fs_view md.

(** ** Buffers and visits beside the volume *)

Lemma reads_beside {A} V out (op : Op Fs E A) Q X : reads V op Q X -> reads (V, out) (beside op) Q X.
Proof. apply reads_beside_of. intros s. unfold beside. by destruct (op s). Qed.

Lemma reads_quietly {A} V v (op : Op Fs E A) Q X : reads V op Q X -> reads (V, v) (quietly op) Q X.
Proof. apply reads_beside_of. intros s. unfold quietly. by destruct (op s). Qed.

Lemma runs_beside_view {A B} (w : View * B) (op : Op (Fs * B) E A) Q X :
  (view_ok md w.1 -> runs w op Q X) -> runs w op Q X.
Proof. intros Hop s [Hs Hb]. apply (Hop (abstracts_ok md Hmd _ _ Hs) s). by split. Qed.

(** ** The contents of a file *)

Lemma splice_splice {A} (l : list A) a x y :
  (a + length x + length y <= length l)%nat ->
  splice (splice l a x) (a + length x) y = splice l a (x ++ y).
Proof.
  intros Hl. apply list_eq. intros i.
  destruct (decide (i < a)%nat); [|destruct (decide (i < a + length x)%nat);
    [|destruct (decide (i < a + length x + length y)%nat)]].
  - rewrite !lookup_splice_out by (rewrite ?length_splice, ?length_app by lia; lia). done.
  - rewrite lookup_splice_out by (rewrite ?length_splice, ?length_app by lia; lia).
    rewrite !lookup_splice_in by (rewrite ?length_app; lia). by rewrite lookup_app_l by lia.
  - rewrite !lookup_splice_in by (rewrite ?length_splice, ?length_app by lia; lia).
    rewrite lookup_app_r by lia. f_equal. lia.
  - rewrite !lookup_splice_out by (rewrite ?length_splice, ?length_app by lia; lia). done.
Qed.

Lemma length_block_bytes V b : view_ok md V -> length (block_bytes md V b) = Z.to_nat (block_size md).
Proof. intros HV. unfold block_bytes. destruct (b =? 0); [apply length_replicate|apply HV]. Qed.

Lemma data_from_length V inode index n data :
  view_ok md V -> data_from md V inode index n = Ok data ->
  length data = (n * Z.to_nat (block_size md))%nat.
Proof.
  intros HV. revert index data. induction n as [|n IH]; intros index data; [by intros [= <-]|].
  cbn [data_from]. intros (b & _ & Hd)%bind_Ok_inv. apply bind_Ok_inv in Hd as (rest & Hr & [= <-]).
  rewrite length_app, (IH _ _ Hr), length_block_bytes by done. lia.
Qed.

Lemma div_ceil_step n b : 0 < b -> 0 < n -> div_ceil n b = div_ceil (n - Z.min b n) b + 1.
Proof.
  intros Hb Hn. destruct (div_ceil_spec n b) as [H1 H2]; [lia..|].
  destruct (div_ceil_spec (n - Z.min b n) b) as [H3 H4]; [lia..|].
  set (p := div_ceil n b) in *. set (q := div_ceil (n - Z.min b n) b) in *.
  assert (n <= b -> q < 1) as Hq by (intros; apply (Z.mul_lt_mono_pos_r b); lia).
  assert (0 < (p - q) * b < 2 * b) as [Hl Hu].
  { destruct (decide (n <= b)) as [Hle|]; [|lia]. assert (q = 0) as -> by (specialize (Hq Hle); lia). lia. }
  assert (0 < p - q) by (apply (Z.mul_pos_cancel_r (p - q) b); lia).
  assert (p - q < 2) by (apply (Z.mul_lt_mono_pos_r b); lia). lia.
Qed.

Lemma div_ceil_zero a b : 0 < b -> 0 <= a -> (div_ceil a b = 0 <-> a = 0).
Proof.
  intros Hb Ha. destruct (div_ceil_spec a b) as [H1 H2]; [lia..|]. split; [intros Hz; rewrite Hz in *; lia|].
  intros ->. assert (div_ceil 0 b < 1) by (apply (Z.mul_lt_mono_pos_r b); lia). lia.
Qed.

Lemma fill_zero_block V out copied amount :
  0 <= copied -> 0 <= amount <= block_size md -> copied + amount <= Z.of_nat (length out) ->
  fill_zero out copied (copied + amount) =
  Ok (splice out (Z.to_nat copied) (take (Z.to_nat amount) (block_bytes md V 0))).
Proof.
  intros Hc Ha Hl. rewrite fill_zero_ok by lia. unfold block_bytes. rewrite Z.eqb_refl, take_replicate. repeat f_equal. lia.
Qed.

Lemma copy_block V out copied amount b :
  view_ok md V -> b <> 0 -> 0 <= copied -> 0 <= amount <= block_size md ->
  copied + amount <= Z.of_nat (length out) ->
  (bytes ← index_range (E := E) (page md V b) 0 (0 + amount); copy_at out (Z.to_nat copied) bytes) =
  Ok (splice out (Z.to_nat copied) (take (Z.to_nat amount) (block_bytes md V b))).
Proof.
  intros HV Hb Hc Ha Hl. destruct (block_size_facts md Hmd) as (Hbs & _).
  rewrite index_range_in by (rewrite ?(proj1 (page_buffer md Hmd V b HV)); lia). rewrite Ok_bind.
  assert (slice (page md V b) (Z.to_nat 0) (Z.to_nat (0 + amount)) = take (Z.to_nat amount) (block_bytes md V b)) as ->.
  { unfold slice, page, block_bytes. rewrite (proj2 (Z.eqb_neq b 0)) by done. rewrite drop_0.
    rewrite take_app_le by (rewrite (proj1 (HV b)); lia). f_equal. lia. }
  apply copy_at_ok. rewrite length_take, length_block_bytes by done. lia.
Qed.

(** A round and the rest. *)
Lemma splice_rounds V out copied len bs b data :
  view_ok md V -> bs = block_size md -> 0 <= copied < len -> len <= Z.of_nat (length out) ->
  let amount := Z.min bs (len - copied) in
  splice (splice out (Z.to_nat copied) (take (Z.to_nat amount) (block_bytes md V b)))
    (Z.to_nat (copied + amount)) (take (Z.to_nat (len - (copied + amount))) data) =
  splice out (Z.to_nat copied) (take (Z.to_nat (len - copied)) (block_bytes md V b ++ data)).
Proof.
  intros HV -> Hc Hl. destruct (block_size_facts md Hmd) as (Hbs & _). intros amount.
  assert (length (take (Z.to_nat amount) (block_bytes md V b)) = Z.to_nat amount) as Hlen.
  { rewrite length_take, length_block_bytes by done. lia. }
  replace (Z.to_nat (copied + amount)) with (Z.to_nat copied + length (take (Z.to_nat amount) (block_bytes md V b)))%nat by lia.
  rewrite splice_splice by (rewrite Hlen, length_take; lia). f_equal.
  pose proof (length_block_bytes V b HV) as Hb.
  destruct (decide (block_size md <= len - copied)).
  - rewrite (take_ge (block_bytes md V b)) by lia. rewrite take_app_ge by lia. f_equal. f_equal. lia.
  - replace (Z.to_nat (len - (copied + amount))) with 0%nat by lia. rewrite take_0, app_nil_r.
    rewrite take_app_le by lia. f_equal. lia.
Qed.

Lemma read_rounds_spec V inode count len n fuel index copied out block c :
  inode_ok md inode -> caches_ok md V c -> tailed md block ->
  0 <= copied <= len -> len <= Z.of_nat (length out) -> len <= count * block_size md ->
  (copied < len -> copied = index * block_size md) -> 0 <= index ->
  n = Z.to_nat (div_ceil (len - copied) (block_size md)) -> (n <= fuel)%nat ->
  runs (V, out) (read_rounds fuel md inode count len copied block c)
    (fun m w => w.1 = V /\ m = len /\ exists data, data_from md V inode index n = Ok data /\
       w.2 = splice out (Z.to_nat copied) (take (Z.to_nat (len - copied)) data))
    (fun e w => w.1 = V /\ length w.2 = length out /\ (soft e \/ data_from md V inode index n = Err e)).
Proof.
  intros Hi Hc Hb Hcop Hlen Hcount Hidx Hindex Hn Hfuel.
  destruct (block_size_facts md Hmd) as (Hbs & _). set (bs := block_size md) in *.
  revert fuel index copied out block c Hc Hb Hcop Hlen Hidx Hindex Hn Hfuel.
  induction n as [|n IH]; intros fuel index copied out block c Hc Hb Hcop Hlen Hidx Hindex Hn Hfuel.
  { assert (copied = len) as ->.
    { enough (len - copied = 0) by lia. apply (div_ceil_zero _ bs); [lia|lia|].
      destruct (div_ceil_spec (len - copied) bs); lia. }
    destruct fuel; cbn [read_rounds]; rewrite Z.ltb_irrefl; apply runs_ret;
      (split_and!; [done|done|]; exists []; split; [done|]; cbn [snd]; rewrite take_nil;
       unfold splice; cbn [app length]; rewrite Nat.add_0_r; by rewrite take_drop). }
  assert (copied < len) as Hlt.
  { destruct (decide (copied < len)); [done|]. assert (len - copied = 0) as Hz by lia.
    apply (div_ceil_zero _ bs) in Hz; lia. }
  specialize (Hidx Hlt). destruct fuel as [|fuel]; [lia|]. cbn [read_rounds data_from].
  rewrite (proj2 (Z.ltb_lt _ _)) by done. cbn [negb]. fold bs.
  rewrite Hidx, Z.div_mul, Z.mod_mul, <-Hidx, Z.sub_0_r by lia.
  rewrite (proj2 (Z.leb_gt count index)) by nia.
  set (amount := Z.min bs (len - copied)).
  eapply runs_read_bind.
  { apply reads_beside. eapply reads_mono; [by apply inode_data_block_spec|intros p Hp; exact Hp|].
    intros e He. exact He. }
  { cbn. intros e [He| ->]; split_and!; auto. }
  intros [b c'] (Hfb & Hc' & Hp). cbn [fst snd] in *. rewrite Hfb, Ok_bind.
  apply runs_get_beside. intros s. cbv beta iota zeta.
  apply runs_beside_view. intros HV. cbn [fst] in HV.
  set (out1 := splice out (Z.to_nat copied) (take (Z.to_nat amount) (block_bytes md V b))).
  assert (length (take (Z.to_nat amount) (block_bytes md V b)) = Z.to_nat amount) as Hla.
  { rewrite length_take, length_block_bytes by done. lia. }
  assert (length out1 = length out) as Hl1 by (apply length_splice; lia).
  assert (forall block', tailed md block' ->
    runs (V, out1) (read_rounds fuel md inode count len (copied + amount) block' c')
      (fun m w => w.1 = V /\ m = len /\ exists data,
         (rest ← data_from md V inode (index + 1) n; Ok (block_bytes md V b ++ rest)) = Ok data /\
         w.2 = splice out (Z.to_nat copied) (take (Z.to_nat (len - copied)) data))
      (fun e w => w.1 = V /\ length w.2 = length out /\
         (soft e \/ (rest ← data_from md V inode (index + 1) n; Ok (block_bytes md V b ++ rest)) = Err e))) as Hnext.
  { intros block' Hb'. pose proof (div_ceil_step (len - copied) bs ltac:(lia) ltac:(lia)) as Hstep.
    fold amount in Hstep. replace (len - copied - amount) with (len - (copied + amount)) in Hstep by lia.
    destruct (div_ceil_spec (len - (copied + amount)) bs) as [_ ?]; [lia..|].
    eapply runs_mono; [apply (IH fuel (index + 1)); [done|done|lia|lia|lia|lia|lia|lia]| |].
    - intros m w (-> & -> & data & Hd & ->). split_and!; [done|done|]. rewrite Hd. eexists. split; [done|].
      apply (splice_rounds V out copied len bs b data); [done|done|lia|lia].
    - intros e w (-> & -> & He). split_and!; [done|done|]. destruct He as [He| ->]; auto. }
  destruct (Z.eqb_spec b 0) as [->|Hb0].
  - rewrite (fill_zero_block V) by lia. apply runs_ok_bind.
    eapply runs_bind; [apply (runs_set_beside V out out1 (fun _ w => w = (V, out1))); done|].
    intros _ ? ->. by apply Hnext.
  - destruct Hp as [_ [?|Hp]]; [done|].
    eapply runs_read_bind; [apply reads_beside; by apply (read_block_in md Hmd V b)| |].
    { intros e [He|He]; [|done]. cbn. auto. }
    intros block' [= <-]. pose proof (copy_block V out copied amount b HV Hb0) as Hcopy.
    destruct (index_range (page md V b) 0 (0 + amount)) as [bytes| |] eqn:Hbytes; cbn in Hcopy;
      [|specialize (Hcopy ltac:(lia) ltac:(lia) ltac:(lia)); done..].
    apply runs_ok_bind. rewrite Hcopy by lia. apply runs_ok_bind.
    eapply runs_bind; [apply (runs_set_beside V out out1 (fun _ w => w = (V, out1))); done|].
    intros _ ? ->. apply (Hnext (page md V b)). by apply tailed_page.
Qed.

Lemma read_inode_contents_spec V inode out :
  inode_ok md inode ->
  let n := Z.min (i_size inode) (Z.of_nat (length out)) in
  runs (V, out) (read_inode_contents md inode)
    (fun r w => w.1 = V /\ r = (n, i_size inode) /\
       exists data, contents_of md V inode n = Ok data /\ w.2 = splice out 0 data)
    (fun e w => w.1 = V /\ length w.2 = length out /\ (soft e \/ contents_of md V inode n = Err e)).
Proof.
  intros Hi n. destruct (block_size_facts md Hmd) as (Hbs & _). pose proof (io_size _ _ Hi) as Hs.
  unfold read_inode_contents, contents_of.
  pose proof (inode_block_count_spec md Hmd inode Hi) as Hcount.
  destruct (inode_block_count md inode) as [count|e|]; cbn in Hcount; [|apply runs_fail; auto|done].
  destruct Hcount as [Hcount _]. apply runs_ok_bind. apply runs_get_beside. intros s. cbv beta iota zeta.
  fold n. rewrite Ok_bind. unfold file_bytes.
  destruct (div_ceil_spec (i_size inode) (block_size md)) as [Hdc _]; [lia..|].
  destruct (div_ceil_spec n (block_size md)) as [Hdn Hdn0]; [lia..|].
  eapply runs_bind.
  - eapply runs_mono; [apply (read_rounds_spec V inode count n
      (Z.to_nat (div_ceil n (block_size md))) (S (length out)) 0 0 out)| |].
    + done.
    + apply new_caches_ok.
    + apply tailed_zeroed.
    + lia.
    + lia.
    + subst count. lia.
    + done.
    + done.
    + by rewrite Z.sub_0_r.
    + assert (div_ceil n (block_size md) - 1 < Z.of_nat (length out) + 1); [|lia].
      apply (Z.mul_lt_mono_pos_r (block_size md)); [lia|]. nia.
    + intros m w Hw. exact Hw.
    + intros e w (Hw & Hl & He). split_and!; [done|done|]. destruct He as [He| ->]; auto.
  - intros m [V' out'] (HV & -> & data & Hd & Ho). cbn in HV, Ho. subst V'. apply runs_ret. cbn.
    split_and!; [done|done|]. rewrite Hd. rewrite Z.sub_0_r in Ho. by eexists.
Qed.

Lemma filling_spec {A} V out (op : Op (Fs * list Z) E A) Q X :
  runs (V, out) op Q X ->
  runs V (filling out op) (fun p V' => Q p.1 (V', p.2)) (fun e V' => exists out', X e (V', out')).
Proof.
  intros Hop s Hs. destruct (Hop (s, out)) as ([V' out'] & [HV Ho] & Hr); [done|]. unfold filling.
  destruct (op (s, out)) as [[s' o] r]. cbn in *. subst o. exists V'.
  destruct r; cbn in *; eauto.
Qed.

Lemma path_inode_ok V path i : view_ok md V -> path_inode md V path = Ok (Some i) -> inode_ok md i.
Proof.
  intros HV Hf. unfold path_inode in Hf. apply bind_Ok_inv in Hf as ([[n i']|] & Hp & [= <-]).
  by apply (path_of_inode md Hmd) in Hp as (_ & _ & ?).
Qed.

(** [read_file_vec] returns the bytes of the file. *)
Lemma read_file_vec_spec V path max_size : computes md V (read_file_vec path max_size) (file_of md V path max_size).
Proof.
  apply (computes_view md Hmd). intros HV. unfold read_file_vec, file_of.
  change (path_inode md V path ≫= ?f) with (Ok (E := E) md ≫= fun md => path_inode md V path ≫= f).
  apply computes_bind; [apply metadata_spec|]. intros ? [= <-].
  apply computes_bind; [by apply lookup_path_spec|]. intros [inode|] Hfound; [|apply computes_ret].
  assert (inode_ok md inode) as Hi by (by eapply path_inode_ok).
  apply computes_if; intros _; [apply computes_ret|]. apply computes_if; intros _; [apply computes_fail|].
  change (contents_of md V inode (i_size inode) ≫= ?f) with
    (Ok (E := E) tt ≫= fun _ => contents_of md V inode (i_size inode) ≫= f).
  apply computes_bind; [apply try_reserve_spec|]. intros _ _.
  pose proof (io_size _ _ Hi) as Hs. set (out := replicate (Z.to_nat (i_size inode)) 0).
  assert (Z.min (i_size inode) (Z.of_nat (length out)) = i_size inode) as Hmin.
  { unfold out. rewrite length_replicate. lia. }
  eapply runs_bind; [eapply runs_mono; [apply filling_spec, (read_inode_contents_spec V inode out Hi)| |]|].
  - intros p V' Hp. exact Hp.
  - rewrite Hmin. intros e V' (out' & HV' & _ & He). cbn in HV'. subst V'. split; [done|]. destruct He as [He| ->]; auto.
  - rewrite Hmin. intros [r contents] V' (HV' & Hr & data & Hd & Hc). cbn in HV', Hr, Hc. subst V' r contents.
    apply runs_ret. split; [done|]. rewrite Hd. cbn. do 2 f_equal.
    assert (length data = length out) as Hl.
    { unfold out. rewrite length_replicate. unfold contents_of, file_bytes in Hd.
      apply bind_Ok_inv in Hd as (? & _ & Hd). apply bind_Ok_inv in Hd as (all & Hall & [= <-]).
      rewrite length_take, (data_from_length _ _ _ _ _ HV Hall).
      destruct (block_size_facts md Hmd) as (Hbs & _).
      destruct (div_ceil_spec (i_size inode) (block_size md)) as [Hdc ?]; [lia..|].
      rewrite Nat.min_l; [done|]. rewrite <-Z2Nat.inj_mul by lia. lia. }
    unfold splice. cbn. rewrite Hl, drop_all. by rewrite app_nil_r.
Qed.

Lemma read_file_spec V path out :
  runs (V, out) (read_file path)
    (fun r w => w.1 = V /\ length w.2 = length out /\
       match r with Some (n, _) => 0 <= n <= Z.of_nat (length out) | None => True end)
    (fun e w => w.1 = V /\ length w.2 = length out).
Proof.
  apply runs_beside_view. intros HV. cbn [fst] in HV. unfold read_file.
  eapply runs_read_bind; [apply reads_beside, metadata_spec|done|]. intros ? [= <-].
  eapply runs_read_bind; [apply reads_beside, lookup_path_spec, Hmd|done|]. intros [inode|] Hf; [|by apply runs_ret].
  assert (inode_ok md inode) as Hi by (by eapply path_inode_ok).
  apply runs_if; intros _; [by apply runs_ret|]. pose proof (io_size _ _ Hi).
  eapply runs_bind; [eapply runs_mono; [apply (read_inode_contents_spec V inode out Hi)|intros r w Hw; exact Hw|]|].
  { by intros e w (Hw & Hl & _). }
  intros r [V' out'] (HV' & -> & data & Hd & Ho). cbn in HV', Ho. subst V' out'. apply runs_ret. cbn.
  split_and!; [done| |lia|lia]. apply length_splice. unfold contents_of, file_bytes in Hd.
  apply bind_Ok_inv in Hd as (? & _ & Hd). apply bind_Ok_inv in Hd as (all & Hall & [= <-]).
  rewrite length_take. lia.
Qed.

(** ** Listing *)

(** A size is a [u64]. *)
Definition visit_ok (v : list Z * bool * Z) : Prop := 0 <= v.2 < u64_limit.

Lemma visit_records_spec V v block limit fuel off :
  tailed md block -> limit <= 4096 -> 0 <= off -> enough fuel limit off ->
  runs (V, v) (visit_records fuel md block limit off)
    (fun _ w => w.1 = V /\ exists l l', dir_entries fuel md block limit off = Ok l /\
       visits_of md V l = Ok l' /\ w.2 = v ++ l' /\ Forall visit_ok l')
    (fun e w => w.1 = V /\ exists l', w.2 = v ++ l' /\ Forall visit_ok l').
Proof.
  intros [Hb _] Hlim Ho Hf. apply runs_beside_view. intros HV. cbn [fst] in HV. revert v off Ho Hf.
  assert (forall v : Visits, exists l' : Visits, v = v ++ l' /\ Forall visit_ok l') as Hnil.
  { intros v. exists []. by rewrite app_nil_r. }
  induction fuel as [|fuel IH]; intros v off Ho Hf; cbn [visit_records dir_entries];
    (destruct (Z.leb_spec (off + 8) limit), (Z.ltb_spec limit (off + 8)); try lia; cbn [negb]).
  { unfold enough in Hf. lia. }
  1, 3: apply runs_ret; split; [done|]; exists [], []; split_and!; [done|done|by rewrite app_nil_r|done].
  rewrite dir_record_eq by (done || lia).
  destruct (record_ok md block limit off) eqn:Hr; [|apply runs_fail; auto]. apply runs_ok_bind.
  pose proof (record_ok_spec md block limit off (proj2 Hb) Hr) as Hk.
  pose proof (field_bound 4 block off (proj2 Hb)) as Hn. set (n := field 4 block off) in *. cbv beta iota.
  rewrite (record_name_ok md block limit off) by done. set (name := record_name md block off).
  eapply runs_bind with (R := fun _ w => w.1 = V /\ n <= inodes_count md /\ exists l',
    (if n =? 0 then Ok [] else visit_of md V (name, n)) = Ok l' /\ w.2 = v ++ l' /\ Forall visit_ok l').
  { destruct (Z.eqb_spec n 0) as [Hn0|Hn0].
    { apply runs_ret. split; [done|]. split; [pose proof (ok_inodes _ Hmd); unfold ROOT_INODE in *; lia|].
      exists []. by rewrite app_nil_r. }
    destruct (Z.ltb_spec (inodes_count md) n); [apply runs_fail; auto|]. apply runs_ok_bind. unfold visit_of.
    destruct (_ || _); [apply runs_ret; split; [done|]; split; [done|]; exists []; by rewrite app_nil_r|].
    destruct (safe_component name); [|apply runs_fail; auto]. cbn [negb].
    eapply runs_read_bind; [apply reads_quietly, read_inode_spec; [done|lia]|auto|].
    intros inode Hi. rewrite Hi, Ok_bind.
    assert (inode_ok md inode) as Hok by (eapply (inode_of_ok md Hmd V n); [done|lia|done]).
    destruct (_ && _); [apply runs_fail; auto|]. destruct (valid_utf8 name); [|apply runs_fail; auto].
    cbn [negb]. intros [s v'] [Hs Hv]. cbn in Hs, Hv. subst v'.
    exists (V, v ++ [(name, is_directory inode, i_size inode)]). split; [done|]. cbn.
    split; [done|]. split; [lia|]. eexists. split_and!; [done|done|].
    apply Forall_singleton. apply (io_size _ _ Hok). }
  intros [] [V' v'] (HV' & Hle & l' & Hl' & Hv' & Hall). cbn in HV', Hv'. subst V' v'.
  rewrite (proj2 (Z.ltb_ge (inodes_count md) n)) by lia. cbn [negb orb].
  eapply runs_mono; [apply IH; [lia|unfold enough in *; lia]| |]; cbn beta.
  - intros _ w (Hw & l & l2 & Hl & Hl2 & Hw2 & Hall2). split; [done|]. rewrite Hl, Ok_bind.
    exists (if n =? 0 then l else (name, n) :: l), (l' ++ l2).
    rewrite Hw2, app_assoc. split_and!; [done| |done|by apply Forall_app].
    destruct (n =? 0); [by injection Hl' as <-|]. cbn [visits_of]. by rewrite Hl', Ok_bind, Hl2, Ok_bind.
  - intros e w (Hw & l2 & Hw2 & Hall2). split; [done|]. exists (l' ++ l2).
    rewrite Hw2, app_assoc. split; [done|by apply Forall_app].
Qed.

Lemma visits_of_app V l l2 :
  visits_of md V (l ++ l2) = (v ← visits_of md V l; v2 ← visits_of md V l2; Ok (v ++ v2)).
Proof.
  induction l as [|x l IH]; cbn [app visits_of].
  - rewrite Ok_bind. by destruct (visits_of md V l2).
  - destruct (visit_of md V x) as [v| |]; [|done..]. rewrite !Ok_bind, IH.
    destruct (visits_of md V l) as [v1| |]; [|done..]. rewrite !Ok_bind.
    destruct (visits_of md V l2) as [v2| |]; [|done..]. rewrite !Ok_bind. by rewrite app_assoc.
Qed.

(** The visits of a part of a directory. *)
Definition visited (V : View) (v : Visits) (r : outcome E (list (list Z * Z))) (w : View * Visits) : Prop :=
  w.1 = V /\ exists l l', r = Ok l /\ visits_of md V l = Ok l' /\ w.2 = v ++ l' /\ Forall visit_ok l'.

Definition some_visited (V : View) (v : Visits) (w : View * Visits) : Prop :=
  w.1 = V /\ exists l', w.2 = v ++ l' /\ Forall visit_ok l'.

Lemma some_visited_nil V v : some_visited V v (V, v).
Proof. split; [done|]. exists []. by rewrite app_nil_r. Qed.

Lemma some_visited_app V v v' w :
  Forall visit_ok v' -> some_visited V (v ++ v') w -> some_visited V v w.
Proof.
  intros Hv (HV & l' & Hw & Hl). split; [done|]. exists (v' ++ l'). rewrite Hw, app_assoc.
  split; [done|by apply Forall_app].
Qed.

Lemma visit_blocks_spec V v n directory index remaining block c :
  caches_ok md V c -> inode_ok md directory -> 0 <= index -> tailed md block ->
  runs (V, v) (visit_blocks n md directory index remaining block c)
    (fun _ => visited V v (entries_in_blocks n md V directory index remaining))
    (fun _ => some_visited V v).
Proof.
  intros Hc Hi Hidx Hb. apply runs_beside_view. intros HV. cbn [fst] in HV.
  destruct (block_size_facts md Hmd) as (Hbs & _).
  revert v index remaining block c Hc Hidx Hb.
  induction n as [|n IH]; intros v index remaining block c Hc Hidx Hb; cbn [visit_blocks entries_in_blocks].
  { apply runs_ret. split; [done|]. exists [], []. split_and!; [done|done|by rewrite app_nil_r|done]. }
  eapply runs_read_bind; [apply reads_quietly, inode_data_block_spec; done|intros; apply some_visited_nil|].
  intros [b c'] (Hfb & Hc' & Hp). cbn [fst snd] in *. rewrite Hfb, Ok_bind.
  destruct (Z.eqb_spec b 0) as [Hb0|Hb0]; [apply runs_fail, some_visited_nil|]. destruct Hp as [_ [?|Hp]]; [done|].
  eapply runs_read_bind; [apply reads_quietly, read_block_in; done|intros; apply some_visited_nil|].
  intros ? [= <-]. eapply runs_bind.
  { apply visit_records_spec; [by apply tailed_page|lia|done|apply enough_start; lia]. }
  intros [] [V' v'] (HV' & l & l' & Hl & Hl' & Hv' & Hall). cbn in HV', Hv'. subst V' v'.
  eapply runs_mono; [apply IH; [done|lia|by apply tailed_page]| |]; cbn beta.
  - intros _ w (Hw & l2 & l2' & Hl2 & Hl2' & Hw2 & Hall2). split; [done|].
    rewrite Hl, Ok_bind, Hl2, Ok_bind. eexists _, (l' ++ l2'). split_and!; [done| | |by apply Forall_app].
    + by rewrite visits_of_app, Hl', Ok_bind, Hl2', Ok_bind.
    + by rewrite Hw2, app_assoc.
  - intros e w. by apply some_visited_app.
Qed.

Lemma for_each_child_spec V v directory :
  inode_ok md directory ->
  runs (V, v) (for_each_child directory)
    (fun _ => visited V v (entries_of md V directory)) (fun _ => some_visited V v).
Proof.
  intros Hi. unfold for_each_child, entries_of.
  eapply runs_read_bind; [apply reads_quietly, metadata_spec|intros; apply some_visited_nil|]. intros ? [= <-].
  destruct (is_directory directory); cbn [negb].
  2: { apply runs_ret. split; [done|]. exists [], []. split_and!; [done|done|by rewrite app_nil_r|done]. }
  pose proof (inode_block_count_spec md Hmd directory Hi) as Hcount.
  destruct (inode_block_count md directory) as [count|e|]; [|apply runs_fail, some_visited_nil|done].
  apply runs_ok_bind. rewrite Ok_bind.
  apply visit_blocks_spec; [apply new_caches_ok|done|done|apply tailed_zeroed].
Qed.

(** The entries of the directory of a path. *)
Definition listing_of (V : View) (path : list Z) : outcome E (list (list Z * Z)) :=
  found ← path_inode md V path;
  match found with
  | Some directory => if is_directory directory then entries_of md V directory else Ok []
  | None => Ok []
  end.

(** [for_each_entry] visits the entries of the directory in their order. *)
Lemma for_each_entry_spec V v path :
  runs (V, v) (for_each_entry path) (fun _ => visited V v (listing_of V path)) (fun _ => some_visited V v).
Proof.
  apply runs_beside_view. intros HV. cbn [fst] in HV. unfold for_each_entry, listing_of.
  assert (visited V v (Ok []) (V, v)) as Hnone.
  { split; [done|]. exists [], []. split_and!; [done|done|by rewrite app_nil_r|done]. }
  eapply runs_read_bind; [apply reads_quietly, lookup_path_spec, Hmd|intros; apply some_visited_nil|].
  intros found Hf. rewrite Hf, Ok_bind. destruct found as [i|]; [|by apply runs_ret].
  destruct (is_directory i); [|by apply runs_ret]. apply for_each_child_spec. by eapply path_inode_ok.
Qed.

Lemma listing_spec {A} V (op : Op (Fs * Visits) E A) Q X :
  runs (V, []) op Q X ->
  runs V (listing op) (fun p V' => Q p.1 (V', p.2)) (fun e V' => exists v, X e (V', v)).
Proof.
  intros Hop s Hs. destruct (Hop (s, [])) as ([V' v] & [HV Hv] & Hr); [done|]. unfold listing.
  destruct (op (s, [])) as [[s' v'] r]. cbn in *. subst v'. exists V'. destruct r; cbn in *; eauto.
Qed.
End read.
