(* ===== verification/Ext2Write.v ===== *)
(** * Writing blocks, transactions and metadata

    What the operations of [fs/ext2.rs] that change the volume do to the contents of
    its blocks.  A transaction saves each block before it is first written, so that
    its rollback brings the volume back. *)

From S2P Require Import Prelude Refine Utf8 FileSystem Disk Ext2 Ext2Bits Ext2Dir Ext2View.

Local Open Scope Z_scope.

#[local] Abbreviation E := Ext2Error.t.

(** No block but [b] differs. *)
Definition others_same (V V' : View) (b : Z) : Prop := forall b', b' <> b -> V' b' = V b'.

(** [V'] is [V] with [data] in block [b]. *)
Definition stored (md : Metadata) (V V' : View) (b : Z) (data : list Z) : Prop :=
  others_same V V' b /\ V' b = take (Z.to_nat (block_size md)) data.

(** A field a store does not change. *)
Ltac through C := rewrite (field_changed _ _ _ _ _ _ C) by lia.

Section write.
Context {D : Type} `{SectorDeviceLaws D}.
Context (md : Metadata) (Hmd : metadata_ok md).

#[local] Abbreviation Fs := (Ext2 D).
#[local] Instance here : Abstraction View Fs := fs_view md.

Lemma write_block_spec V b data :
  length data = 4096%nat ->
  runs V (write_block md b data)
    (fun _ V' => b < blocks_count md /\ others_same V V' b /\ (bytes_ok data -> stored md V V' b data))
    (fun e V' => others_same V V' b /\
       ((exists d, e = Ext2Error.Disk d) \/ (blocks_count md <= b /\ e = Ext2Error.InvalidFilesystem))).
Proof.
  intros Hlen. destruct (block_size_facts md Hmd) as (Hbs & Hs & Hr & _).
  pose proof (ok_disk _ Hmd) as Hdisk. pose proof (ok_blocks _ Hmd) as Hblocks.
  unfold write_block. rewrite (proj2 (Z.ltb_ge (Z.of_nat _) _)) by lia. rewrite orb_false_r.
  apply runs_if; intros Hb; bools; [apply runs_fail; split; [done|by right]|].
  unfold disk_block_size. rewrite (proj2 (Z.ltb_lt _ _)) by lia. apply runs_ok_bind.
  unfold checked_mul. rewrite (proj2 (Z.ltb_lt _ _)) by nia. apply runs_ok_bind.
  intros s [Hm Hv]. unfold device_write.
  destruct (write_sectors _ _ _ (e_disk s)) as [d' r] eqn:Ew.
  destruct (write_sectors_spec _ _ _ _ _ _ Ew) as (Hsame & Hnp & Hok). cbn [fst snd].
  exists (block_at md d'). split; [by split|].
  assert (others_same V (block_at md d') b) as Hothers.
  { intros b' Hb'. rewrite <-Hv. apply sectors_from_ext. intros x Hx. apply Hsame.
    rewrite Z2Nat.id in Hx by lia. by apply (block_disjoint md Hmd b b'). }
  destruct r as [[]|e|]; cbn; [|by eauto|done]. split_and!; [lia|done|]. intros Hbytes.
  split; [done|]. apply (Hok eq_refl). by apply Forall_take.
Qed.

(** ** Transactions *)

(** The volume [V0] when the transaction began, from the present one and the blocks
    saved. *)
Definition undoable (V0 V : View) (undo : BlockTransaction) : Prop :=
  exists l, undo = (fun b => (b, page md V0 b)) <$> l /\ NoDup l /\
    Forall (fun b => b < blocks_count md) l /\ forall b, b ∉ l -> V b = V0 b.

Lemma undoable_start V : undoable V V [].
Proof. exists []. split_and!; [done|apply NoDup_nil_2|done|done]. Qed.

(** The state of an operation that may have a transaction: it keeps having it. *)
Definition tx_ok (V0 : View) (tx : option BlockTransaction) (w : View * option BlockTransaction) : Prop :=
  match tx, w.2 with
  | None, None => True
  | Some _, Some undo => undoable V0 w.1 undo
  | _, _ => False
  end.

Lemma tx_ok_trans V0 tx w w' : tx_ok V0 tx w -> tx_ok V0 w.2 w' -> tx_ok V0 tx w'.
Proof. unfold tx_ok. destruct tx, (w.2), (w'.2); done. Qed.

Lemma tx_ok_next V0 tx V tx' : tx_ok V0 tx (V, tx') -> tx_ok V0 tx' (V, tx').
Proof. unfold tx_ok. cbn. by destruct tx, tx'. Qed.

Lemma reads_on_fs {A} V tx (op : Op Fs E A) Q X : reads V op Q X -> reads (V, tx) (on_fs op) Q X.
Proof. apply reads_beside_of. intros s. unfold on_fs. by destruct (op s). Qed.

Lemma runs_on_fs {A} V tx (op : Op Fs E A) Q X :
  runs V op Q X ->
  runs (V, tx) (on_fs op) (fun a w => w.2 = tx /\ Q a w.1) (fun e w => w.2 = tx /\ X e w.1).
Proof. apply runs_beside. intros s. unfold on_fs. by destruct (op s). Qed.

Lemma undoable_write V0 V V' b undo :
  undoable V0 V undo -> b ∈ undo.*1 -> others_same V V' b -> undoable V0 V' undo.
Proof.
  intros (l & -> & Hn & Hl & Hsame) Hb Ho. rewrite <-list_fmap_compose in Hb. cbn in Hb.
  exists l. split_and!; [done|done|done|]. intros b' Hb'. rewrite Ho, Hsame; [done|done|].
  intros ->. apply Hb'. apply list_elem_of_fmap in Hb as (y & -> & Hy). done.
Qed.

Lemma undoable_save V0 V b undo :
  undoable V0 V undo -> b ∉ undo.*1 -> b < blocks_count md -> undoable V0 V (undo ++ [(b, page md V b)]).
Proof.
  intros (l & -> & Hn & Hl & Hsame) Hb Hc. rewrite <-list_fmap_compose in Hb. cbn in Hb.
  assert (b ∉ l) as Hbl by (intros Hin; apply Hb, list_elem_of_fmap; by exists b).
  exists (l ++ [b]). rewrite fmap_app. split_and!.
  - unfold page. cbn. by rewrite (Hsame b).
  - apply NoDup_app. split_and!; [done| |apply NoDup_singleton].
    intros x Hx ->%list_elem_of_singleton. done.
  - apply Forall_app. split; [done|by apply Forall_singleton].
  - intros b' Hb'. apply Hsame. intros Hin. apply Hb', elem_of_app. by left.
Qed.

Lemma saved_elem undo b : existsb (fun saved : Z * list Z => saved.1 =? b) undo = true <-> b ∈ undo.*1.
Proof.
  rewrite existsb_exists. split.
  - intros ([b' c] & Hin & Hb). cbn in Hb. bools. subst b'. apply list_elem_of_fmap. exists (b, c).
    split; [done|]. by apply list_elem_of_In.
  - intros ([b' c] & -> & Hin)%list_elem_of_fmap. exists (b', c). split; [by apply list_elem_of_In|].
    cbn. apply Z.eqb_refl.
Qed.

Lemma transaction_write_spec V0 V undo b data :
  undoable V0 V undo -> buffer data ->
  runs (V, Some undo) (transaction_write md b data)
    (fun _ w => tx_ok V0 (Some undo) w /\ stored md V w.1 b data /\ b < blocks_count md)
    (fun e w => tx_ok V0 (Some undo) w /\ (soft e \/ blocks_count md <= b /\ e = Ext2Error.InvalidFilesystem)).
Proof.
  intros Hu [Hlen Hbytes]. unfold transaction_write. apply runs_get_beside. intros s. cbv beta iota zeta.
  change (default [] (Some undo)) with undo.
  eapply runs_bind with (R := fun _ w => w.1 = V /\ exists undo', w.2 = Some undo' /\
    undoable V0 V undo' /\ b ∈ undo'.*1).
  { destruct (existsb (fun saved => saved.1 =? b) undo) eqn:Hs.
    { apply runs_ret. split; [done|]. exists undo. by apply saved_elem in Hs. }
    assert (b ∉ undo.*1) as Hb by (intros Hin%saved_elem; congruence).
    eapply runs_read_bind; [apply reads_on_fs, try_reserve_spec| |].
    { intros e [He|He]; [|done]. auto. }
    intros _ _. eapply runs_read_bind; [apply reads_on_fs, (read_block_spec md Hmd), tailed_zeroed| |].
    { intros e [[d ->]|[? ->]]; [by split; [|left]|by split; [|right]]. }
    intros original [Hb' ->]. apply runs_set_beside. split; [done|]. eexists. split; [done|].
    split; [by apply undoable_save|]. rewrite fmap_app. apply elem_of_app. right. apply list_elem_of_here. }
  intros [] [V' tx] (HV' & undo' & Htx & Hu' & Hb'). cbn in HV', Htx. subst V' tx.
  eapply runs_mono; [apply runs_on_fs, write_block_spec, Hlen| |].
  - intros [] w (Htx & Hb & Ho & Hst). split_and!; [|by apply Hst|done].
    unfold tx_ok. rewrite Htx. by eapply undoable_write.
  - intros e w (Htx & Ho & He). split; [unfold tx_ok; rewrite Htx; by eapply undoable_write|].
    destruct He as [[d ->]|?]; [by left|by right].
Qed.

Lemma write_through_spec V0 V tx b data :
  tx_ok V0 tx (V, tx) -> buffer data ->
  runs (V, tx) (write_through md b data)
    (fun _ w => tx_ok V0 tx w /\ stored md V w.1 b data /\ b < blocks_count md)
    (fun e w => tx_ok V0 tx w /\ (soft e \/ blocks_count md <= b /\ e = Ext2Error.InvalidFilesystem)).
Proof.
  intros Htx Hd. unfold write_through. apply runs_get_beside. intros s. cbv beta iota.
  destruct tx as [undo|]; [by apply transaction_write_spec|].
  eapply runs_mono; [apply runs_on_fs, write_block_spec, Hd| |].
  - intros [] w (Hw & Hb & Ho & Hst). unfold tx_ok. rewrite Hw. split_and!; [done|apply Hst, Hd|done].
  - intros e w (Hw & Ho & He). unfold tx_ok. rewrite Hw. split; [done|].
    destruct He as [[d ->]|?]; [by left|by right].
Qed.

(** ** Rollback *)

Lemma restore_blocks_spec V0 V l :
  NoDup l -> view_ok md V0 ->
  runs V (restore_blocks md ((fun b => (b, page md V0 b)) <$> l))
    (fun failed V' => failed = false ->
       (forall b, b ∈ l -> V' b = V0 b) /\ (forall b, b ∉ l -> V' b = V b)) (fun e V' => False).
Proof.
  intros Hn HV0. revert V. induction l as [|b l IH]; intros V; cbn [fmap list_fmap restore_blocks].
  { apply runs_ret. intros _. split; [by intros b ?%not_elem_of_nil|done]. }
  apply NoDup_cons in Hn as [Hbl Hn]. specialize (IH Hn).
  intros s Hs. pose proof (page_buffer md Hmd V0 b HV0) as [Hlen Hbytes].
  destruct (write_block_spec V b (page md V0 b) Hlen s Hs) as (V1 & HV1 & Hr).
  destruct (write_block md b (page md V0 b) s) as [s1 [[]|e|]]; cbn in Hr, HV1; [| |done].
  - destruct Hr as (_ & _ & Hst). destruct (Hst Hbytes) as [Ho Hb'].
    destruct (IH V1 s1 HV1) as (V2 & HV2 & Hr2). exists V2. split; [done|].
    eapply holds_mono; [apply Hr2| |done]. intros failed Hf Hfailed. destruct (Hf Hfailed) as [Hin Hout]. split.
    + intros b' [->|Hb2]%elem_of_cons; [|by apply Hin]. rewrite Hout, Hb' by done. unfold page.
      rewrite take_app_le, take_ge by (rewrite (proj1 (HV0 b)); lia). done.
    + intros b' [Hne Hb2]%not_elem_of_cons. by rewrite Hout, Ho.
  - assert (runs V1 (_ ← restore_blocks md ((fun b => (b, page md V0 b)) <$> l); mret (M := Op Fs E) true)
      (fun failed V' => failed = true) (fun e V' => False)) as Hw.
    { eapply runs_bind; [apply IH|]. intros. by apply runs_ret. }
    destruct (Hw s1 HV1) as (V2 & HV2 & Hr2). exists V2. split; [done|].
    eapply holds_mono; [apply Hr2| |done]. by intros failed ->.
Qed.

(** A rollback brings back the blocks that were saved, or says that it could not. *)
Lemma rollback_any V0 V1 V undo :
  undoable V0 V1 undo -> view_ok md V0 ->
  runs V (rollback md undo) (fun _ V' => (forall b, b ∈ undo.*1 -> V' b = V0 b) /\ (forall b, b ∉ undo.*1 -> V' b = V b))
    (fun e V' => e = Ext2Error.RecoveryFailed).
Proof.
  intros (l & -> & Hn & Hl & Hsame) HV0. unfold rollback. rewrite <-fmap_reverse.
  assert (((fun b => (b, page md V0 b)) <$> l).*1 = l) as ->.
  { rewrite <-list_fmap_compose. apply list_fmap_id. }
  eapply runs_bind; [eapply runs_mono; [apply restore_blocks_spec; [by rewrite reverse_Permutation|done]|
    intros a w Ha; exact Ha|done]|].
  intros failed V' Hf. destruct failed; [by apply runs_fail|]. apply runs_ret.
  destruct (Hf eq_refl) as [Hin Hout]. split; intros b Hb; [apply Hin|apply Hout]; by rewrite elem_of_reverse.
Qed.

Lemma undoable_outside V0 V undo b : undoable V0 V undo -> b ∉ undo.*1 -> V b = V0 b.
Proof.
  intros (l & -> & _ & _ & Hsame) Hb. apply Hsame. rewrite <-list_fmap_compose in Hb.
  intros Hin. apply Hb, list_elem_of_fmap. by exists b.
Qed.

Lemma rollback_spec V0 V undo :
  undoable V0 V undo -> view_ok md V0 ->
  runs V (rollback md undo) (fun _ V' => forall b, V' b = V0 b) (fun e V' => e = Ext2Error.RecoveryFailed).
Proof.
  intros Hu HV0. eapply runs_mono; [by apply (rollback_any V0 V)| |done]. intros [] V' [Hin Hout] b.
  destruct (decide (b ∈ undo.*1)) as [Hb|Hb]; [by apply Hin|]. rewrite Hout by done.
  by eapply undoable_outside.
Qed.

Lemma undoable_ext V0 V V' undo : undoable V0 V undo -> (forall b, V' b = V b) -> undoable V0 V' undo.
Proof.
  intros (l & -> & Hn & Hl & Hsame) Heq. exists l. split_and!; [done|done|done|].
  intros b Hb. rewrite Heq. by apply Hsame.
Qed.

(** ** Inodes *)

Lemma put_pointers_spec k raw index blocks :
  sized k raw -> INODE_BLOCK_POINTERS_OFFSET + (Z.of_nat index + Z.of_nat (length blocks)) * 4 <= Z.of_nat k ->
  Forall (fun b => 0 <= b < u32_limit) blocks ->
  holds (put_pointers raw index blocks) (fun raw' => sized k raw' /\
    changed raw raw' (INODE_BLOCK_POINTERS_OFFSET + Z.of_nat index * 4)
      (INODE_BLOCK_POINTERS_OFFSET + (Z.of_nat index + Z.of_nat (length blocks)) * 4) /\
    forall j b, blocks !! j = Some b ->
      field 4 raw' (INODE_BLOCK_POINTERS_OFFSET + Z.of_nat (index + j) * 4) = b) (fun _ => False).
Proof.
  unfold INODE_BLOCK_POINTERS_OFFSET. intros Hs Hl Hall. revert raw index Hs Hl.
  induction Hall as [|b blocks Hb Hall IH]; intros raw index Hs Hl; cbn [put_pointers length] in *.
  { split_and!; [done|done|]. intros j b Hj. done. }
  unfold INODE_BLOCK_POINTERS_OFFSET.
  eapply holds_bind; [apply (put_le_spec k); [done|lia..]|]. intros raw1 (H1 & C1 & F1).
  eapply holds_mono; [apply IH; [done|lia]| |done]. intros raw2 (H2 & C2 & F2). split_and!; [done| |].
  - intros i Hi. rewrite C2, C1 by lia. done.
  - intros [|j] b' Hj.
    + injection Hj as <-. rewrite Nat.add_0_r, (field_changed 4 _ _ _ _ _ C2) by lia. apply F1. lia.
    + rewrite <-(F2 j b' Hj). do 2 f_equal. lia.
Qed.

Lemma direct_pointers_eq raw n index blocks :
  INODE_BLOCK_POINTERS_OFFSET + (Z.of_nat index + Z.of_nat n) * 4 <= Z.of_nat (length raw) ->
  length blocks = n -> Forall (pointer_ok md) blocks ->
  (forall j b, blocks !! j = Some b ->
     field 4 raw (INODE_BLOCK_POINTERS_OFFSET + Z.of_nat (index + j) * 4) = b) ->
  direct_pointers md raw n index = Ok blocks.
Proof.
  unfold INODE_BLOCK_POINTERS_OFFSET. intros Hl Hn Hall. revert n index Hl Hn.
  induction Hall as [|b blocks [Hb0 Hb] Hall IH]; intros n index Hl <- Hf; [done|].
  cbn [direct_pointers length] in *. unfold INODE_BLOCK_POINTERS_OFFSET. rewrite le32_ok, Ok_bind by lia.
  pose proof (Hf 0%nat b eq_refl) as Hb'. rewrite Nat.add_0_r in Hb'. rewrite Hb'.
  assert (negb (b =? 0) && (blocks_count md <=? b) = false) as ->.
  { destruct Hb as [->|Hb]; [done|]. rewrite (proj2 (Z.leb_gt _ _)) by done. by rewrite andb_false_r. }
  rewrite (IH (length blocks) (S index)); [done|lia|done|].
  intros j b' Hj. rewrite <-(Hf (S j) b' Hj). do 2 f_equal. lia.
Qed.

Lemma parse_inode_eq raw new :
  sized (Z.to_nat (inode_size md)) raw -> inode_ok md new -> i_size new < u32_limit ->
  field 2 raw 0 = i_mode new -> field 4 raw 4 = i_size new -> field 4 raw 108 = 0 ->
  field 2 raw 26 = i_links new -> field 4 raw 28 = i_allocated_blocks_512 new ->
  (forall j b, i_blocks new !! j = Some b -> field 4 raw (40 + Z.of_nat j * 4) = b) ->
  field 4 raw 88 = i_single_indirect new -> field 4 raw 92 = i_double_indirect new ->
  parse_inode md raw = Ok new.
Proof.
  intros [Hl _] Hok Hsz Hmode Hsize Hhigh Hlinks Hsec Hblocks Hsingle Hdouble.
  pose proof (ok_inode_size _ Hmd) as His.
  assert (forall b, pointer_ok md b -> negb (b =? 0) && (blocks_count md <=? b) = false) as Hptr.
  { intros b [_ [->|Hb]]; [done|]. rewrite (proj2 (Z.leb_gt _ _)) by done. by rewrite andb_false_r. }
  unfold parse_inode. rewrite (le32_ok raw 4), Ok_bind, (le16_ok raw 0), Ok_bind by lia.
  rewrite (le32_ok raw 108), Hhigh, Hsize, Hmode by lia.
  rewrite Ok_bind. change (Z.shiftl 0 32) with 0. rewrite Z.lor_0_r.
  assert ((if (Z.land (i_mode new) 0xf000 =? 0x8000) && (112 <=? inode_size md) then Ok (E := E) (i_size new)
           else Ok (i_size new)) = Ok (i_size new)) as -> by (by destruct (_ && _)).
  rewrite Ok_bind, (direct_pointers_eq raw _ _ (i_blocks new)); [|unfold INODE_BLOCK_POINTERS_OFFSET, DIRECT_BLOCKS; lia|
    apply Hok|apply Hok|done].
  rewrite Ok_bind. unfold INODE_BLOCK_POINTERS_OFFSET, DIRECT_BLOCKS.
  change (40 + Z.of_nat 12 * 4) with 88. change (40 + (Z.of_nat 12 + 1) * 4) with 92.
  rewrite (le32_ok raw 88), Ok_bind, Hsingle, Hptr by (lia || apply Hok).
  rewrite (le32_ok raw 92), Ok_bind, Hdouble, Hptr by (lia || apply Hok).
  rewrite (le16_ok raw 26), Ok_bind, (le32_ok raw 28), Ok_bind, Hlinks, Hsec by lia. by destruct new.
Qed.

(** The fields [write_inode_fields] stores are those [read_inode] returns. *)
Lemma inode_fields_spec raw new is_new :
  sized (Z.to_nat (inode_size md)) raw -> inode_ok md new -> i_size new < u32_limit ->
  holds (inode_fields md raw (i_mode new) (i_size new) (i_links new) (i_blocks new)
           (i_single_indirect new) (i_double_indirect new) (i_allocated_blocks_512 new) is_new)
    (fun raw' => sized (Z.to_nat (inode_size md)) raw' /\ parse_inode md raw' = Ok new) (fun _ => False).
Proof.
  intros Hraw Hok Hsz. pose proof (ok_inode_size _ Hmd) as His. pose proof (ok_blocks_max _ Hmd) as Hmax.
  set (k := Z.to_nat (inode_size md)) in *. assert (Z.of_nat k = inode_size md) as Hk by lia.
  destruct Hok as [Hmode Hlinks Hsize Hsec Hdirect Hblocks Hsingle Hdouble] eqn:Hok'. clear Hok'.
  assert (forall b, pointer_ok md b -> 0 <= b < 256 ^ Z.of_nat 4) as Hp.
  { intros b [? [->|?]]; cbn; lia. }
  unfold inode_fields, INODE_BLOCK_POINTERS_OFFSET, DIRECT_BLOCKS.
  set (raw0 := if is_new then replicate (length raw) 0 else raw).
  assert (sized k raw0) as H0'.
  { unfold raw0. destruct is_new; [|done]. split; [by rewrite length_replicate, (proj1 Hraw)|apply bytes_ok_zeros]. }
  eapply holds_bind; [apply (put_le_spec k); [done|lia..]|]. intros raw1 (H1 & C1 & F1).
  eapply holds_bind; [apply (put_le_spec k); [done|lia..]|]. intros raw2 (H2 & C2 & F2).
  eapply holds_bind; [apply (put_le_spec k); [done|lia..]|]. intros raw3 (H3 & C3 & F3).
  rewrite (proj2 (Z.leb_le _ _)) by lia.
  eapply holds_bind; [apply (fill_zero_spec k); [done|lia..]|]. intros raw4 (H4 & C4 & F4).
  eapply holds_bind; [apply (put_le_spec k); [done|lia..]|]. intros raw5 (H5 & C5 & F5).
  eapply holds_bind; [apply (put_pointers_spec k); [done|unfold INODE_BLOCK_POINTERS_OFFSET, DIRECT_BLOCKS in *; lia|]|].
  { eapply Forall_impl; [done|]. intros b Hb. by apply Hp. }
  intros raw6 (H6 & C6 & F6). unfold INODE_BLOCK_POINTERS_OFFSET, DIRECT_BLOCKS in *. rewrite Hdirect in C6.
  eapply holds_bind; [apply (put_le_spec k); [done|lia..]|]. intros raw7 (H7 & C7 & F7).
  eapply holds_mono; [apply (put_le_spec k); [done|lia..]| |done]. intros raw8 (H8 & C8 & F8).
  split; [done|]. apply parse_inode_eq; [done|done|done|..].
  - through C8. through C7. through C6. through C5. through C4. through C3. through C2. apply F1. done.
  - through C8. through C7. through C6. through C5. through C4. through C3. apply F2. cbn. lia.
  - through C8. through C7. through C6. through C5. eapply field_zeros; [done|lia..].
  - through C8. through C7. through C6. through C5. through C4. apply F3. done.
  - through C8. through C7. through C6. apply F5. done.
  - intros j b Hj. assert (j < 12)%nat by (rewrite <-Hdirect; by eapply lookup_lt_Some).
    through C8. through C7. apply (F6 j b Hj).
  - through C8. apply F7. by apply Hp.
  - apply F8. by apply Hp.
Qed.

(** The volume after inode [n] was stored. *)
Definition inode_written (V V' : View) (n : Z) (new : Inode) : Prop :=
  inode_block md V n < blocks_count md /\
  exists raw, sized (Z.to_nat (inode_size md)) raw /\ parse_inode md raw = Ok new /\
    stored md V V' (inode_block md V n)
      (splice (page md V (inode_block md V n)) (Z.to_nat (inode_offset md n)) raw).

Lemma runs_tx_view {A B} (w : View * B) (op : Op (Fs * B) E A) Q X :
  (view_ok md w.1 -> runs w op Q X) -> runs w op Q X.
Proof. intros Hop s [Hs Hb]. apply (Hop (abstracts_ok md Hmd _ _ Hs) s). by split. Qed.

Lemma write_inode_fields_spec V0 V tx n new is_new :
  tx_ok V0 tx (V, tx) -> 0 < n <= inodes_count md -> inode_ok md new -> i_size new < u32_limit ->
  runs (V, tx) (write_inode_fields md n (i_mode new) (i_size new) (i_links new) (i_blocks new)
                  (i_single_indirect new) (i_double_indirect new) (i_allocated_blocks_512 new) is_new)
    (fun _ w => tx_ok V0 tx w /\ inode_written V w.1 n new) (fun e w => tx_ok V0 tx w).
Proof.
  intros Htx Hn Hok Hsz. apply runs_tx_view. intros HV. cbn [fst] in HV.
  destruct (block_size_facts md Hmd) as (Hbs & _). pose proof (ok_inode_size _ Hmd) as His.
  pose proof (ok_inodes_per_group _ Hmd) as Hg. pose proof (ok_blocks_max _ Hmd) as Hmax.
  destruct (inode_offset_in md Hmd n) as [Ho0 Ho1]; [lia|].
  unfold write_inode_fields, checked_sub. rewrite (proj2 (Z.leb_le 1 n)) by lia. apply runs_ok_bind.
  set (g := (n - 1) / inodes_per_group md). assert (0 <= g) by (apply Z.div_pos; lia).
  pose proof (inode_table_nonneg md V g HV) as Ht.
  pose proof (Z.mod_pos_bound (n - 1) (inodes_per_group md)) as Hm.
  eapply runs_read_bind.
  { apply reads_on_fs, (read_group_descriptor_spec md Hmd V g); [apply tailed_zeroed|done]. }
  { done. }
  intros p Hp. destruct (group_count md <=? g); [done|].
  destruct (blocks_count md <=? inode_table md V g) eqn:Htab; [done|]. injection Hp as <-. bools.
  cbv beta iota zeta. pose proof (conj Ho0 Ho1) as Ho. unfold inode_offset in Ho. set (o := (n - 1) mod inodes_per_group md * inode_size md) in *.
  assert (0 <= o <= 8 * 4096 * 4096) by (unfold o; nia).
  assert (0 <= o / block_size md <= o) by (split; [apply Z.div_pos; lia|apply Z.div_le_upper_bound; nia]).
  unfold checked_mul, checked_add, to_u32. rewrite (proj2 (Z.ltb_lt o _)) by lia. apply runs_ok_bind.
  rewrite (proj2 (Z.ltb_lt (o / block_size md) _)) by lia. apply runs_ok_bind.
  cbv beta. fold o. destruct (Z.ltb_spec (inode_table md V g + o / block_size md) u32_limit);
    cbn [ok_or]; [|by apply runs_err_bind].
  apply runs_ok_bind. cbv beta zeta. rewrite (proj2 (Z.ltb_ge (block_size md) _)) by lia.
  change (inode_table md V g + o / block_size md) with (inode_block md V n).
  change (o mod block_size md) with (inode_offset md n).
  eapply runs_read_bind; [apply reads_on_fs, (read_block_spec md Hmd V); by apply tailed_page| |].
  { done. }
  intros block [Hin ->]. pose proof (page_buffer md Hmd V (inode_block md V n) HV) as Hbuf.
  rewrite index_range_in by (rewrite ?(proj1 Hbuf); lia). apply runs_ok_bind.
  eapply runs_lift_bind.
  { eapply holds_mono; [apply (inode_fields_spec _ new is_new); [|done|done]|intros r Hr; exact Hr|done].
    split; [|apply bytes_ok_slice, Hbuf]. rewrite length_slice by (rewrite ?(proj1 Hbuf); lia). lia. }
  intros raw [Hraw Hparse]. rewrite copy_at_ok by (rewrite (proj1 Hbuf), (proj1 Hraw); lia). apply runs_ok_bind.
  eapply runs_mono; [apply (write_through_spec V0); [done|]| |].
  - apply splice_buffer; [done|apply Hraw|]. rewrite (proj1 Hraw). lia.
  - intros [] w (Hw & Hst & _). split; [done|]. split; [done|]. by exists raw.
  - by intros e w [Hw _].
Qed.

(** ** Directories *)

(** The only block of a directory. *)
Definition single_block (directory : Inode) (b : Z) : Prop :=
  is_directory directory = true /\ inode_block_count md directory = Ok 1 /\
  i_blocks directory !! 0%nat = Some b /\ 0 < b < blocks_count md.

(** The volume after an entry was added to, or removed from, a directory. *)
Definition entry_added (V V' : View) (directory : Inode) (name : list Z) (n : Z) : Prop :=
  exists b sp block, single_block directory b /\
    find_space MAX_RECORDS md (page md V b) (entry_size (Z.of_nat (length name))) 0 = Ok (Some sp) /\
    space_ok md (page md V b) (entry_size (Z.of_nat (length name))) sp /\
    placed md (page md V b) block sp name n /\ stored md V V' b block.

Definition entry_removed (V V' : View) (directory : Inode) (name : list Z) : Prop :=
  exists b en block, single_block directory b /\
    find_entry MAX_RECORDS md (page md V b) name None 0 = Ok (Some en) /\
    entry_ok md (page md V b) name en /\ erased md (page md V b) block en /\ stored md V V' b block.

Lemma first_block directory :
  inode_ok md directory -> exists b, i_blocks directory !! 0%nat = Some b /\ pointer_ok md b.
Proof.
  intros Hi. destruct (lookup_lt_is_Some_2 (i_blocks directory) 0) as [b Hb].
  { rewrite (io_direct _ _ Hi). unfold DIRECT_BLOCKS. lia. }
  exists b. split; [done|]. pose proof (io_blocks _ _ Hi) as Hall. rewrite Forall_lookup in Hall. by eapply Hall.
Qed.

(** The first check of the functions that change a directory. *)
Lemma single_check_spec {W S} `{Abstraction W S} (w : W) directory :
  inode_ok md directory ->
  reads w (if negb (is_directory directory) then mret false
           else count ← lift (inode_block_count md directory); mret (M := Op S E) (count =? 1))
    (fun single => single = true -> is_directory directory = true /\ inode_block_count md directory = Ok 1)
    (fun _ => True).
Proof.
  intros Hi. apply reads_if; intros Hd; bools; [by apply reads_ret|].
  pose proof (inode_block_count_spec md Hmd directory Hi) as Hc.
  destruct (inode_block_count md directory) as [c|e|]; [|by apply reads_fail|done].
  apply reads_ok_bind, reads_ret. intros Hc1. bools. by subst c.
Qed.

Lemma find_space_page V b required :
  view_ok md V ->
  holds (find_space MAX_RECORDS md (page md V b) required 0)
    (fun r => match r with Some sp => space_ok md (page md V b) required sp | None => True end)
    (fun e => e = Ext2Error.InvalidFilesystem).
Proof.
  intros HV. destruct (block_size_facts md Hmd) as (Hbs & _).
  apply find_space_spec; [by apply page_buffer|lia|done|apply enough_start; lia].
Qed.

Lemma safe_component_ok name : safe_component name = true -> (length name <= 255)%nat /\ bytes_ok name.
Proof.
  unfold safe_component. intros Hs. bools. split; [done|]. apply Forall_forall. intros b Hb.
  rewrite forallb_forall in *.
  assert (name_byte b = true) as Hn by (apply list_elem_of_In in Hb; auto).
  unfold name_byte, in_range in Hn. unfold is_byte. rewrite !orb_true_iff, !andb_true_iff in Hn.
  rewrite ?Z.leb_le, ?Z.eqb_eq in Hn. lia.
Qed.

Lemma add_directory_entry_spec V0 V tx directory name n type :
  tx_ok V0 tx (V, tx) -> inode_ok md directory -> safe_component name = true -> 0 < n <= inodes_count md ->
  runs (V, tx) (add_directory_entry md directory name n type)
    (fun _ w => tx_ok V0 tx w /\ entry_added V w.1 directory name n) (fun e w => tx_ok V0 tx w).
Proof.
  intros Htx Hi Hs Hn. apply runs_tx_view. intros HV. cbn [fst] in HV.
  destruct (block_size_facts md Hmd) as (Hbs & _). destruct (safe_component_ok name Hs) as [Hlen Hbytes].
  destruct (first_block directory Hi) as (b & Hb & Hb0 & Hb1). pose proof (ok_inodes _ Hmd) as Hino.
  unfold add_directory_entry. eapply runs_read_bind; [by apply single_check_spec|done|].
  intros single Hsingle. destruct single; [|by apply runs_fail]. destruct (Hsingle eq_refl) as [Hd Hc]. cbn [negb].
  rewrite Hb. apply runs_ok_bind. destruct (Z.eqb_spec b 0) as [|Hbn]; [by apply runs_fail|].
  destruct Hb1 as [|Hb1]; [done|].
  eapply runs_read_bind; [apply reads_on_fs, (read_block_in md Hmd V b); [apply tailed_zeroed|done]|done|].
  intros ? [= <-]. pose proof (find_space_page V b (entry_size (Z.of_nat (length name))) HV) as Hfs.
  destruct (find_space MAX_RECORDS md (page md V b) (entry_size (Z.of_nat (length name))) 0)
    as [[sp|]|e|] eqn:Efs; [| |by apply runs_err_bind|done].
  2: { apply runs_ok_bind. by apply runs_fail. }
  apply runs_ok_bind. cbn in Hfs. eapply runs_lift_bind.
  { eapply holds_mono; [apply (place_entry_spec md _ sp name n type); [by apply page_buffer|lia|done|done|done|lia]
      |intros r Hr; exact Hr|done]. }
  intros block Hpl. eapply runs_mono; [apply (write_through_spec V0); [done|apply Hpl]| |].
  - intros [] w (Hw & Hst & _). split; [done|]. exists b, sp, block. split_and!; [|done..].
    split_and!; [done|done|done|lia|lia].
  - by intros e w [Hw _].
Qed.

Lemma directory_block_spec V directory :
  inode_ok md directory ->
  reads V (directory_block md directory) (fun b => single_block directory b) (fun _ => True).
Proof.
  intros Hi. destruct (first_block directory Hi) as (b & Hb & Hb0 & Hb1). unfold directory_block.
  eapply reads_bind; [by apply single_check_spec|]. intros single Hsingle.
  destruct single; [|by apply reads_fail]. destruct (Hsingle eq_refl) as [Hd Hc]. cbn [negb].
  rewrite Hb. apply reads_ok_bind. destruct (Z.eqb_spec b 0); [by apply reads_fail|].
  destruct Hb1 as [|Hb1]; [done|]. apply reads_ret. split_and!; [done|done|done|lia|done].
Qed.

Lemma ensure_directory_entry_space_spec V directory name :
  inode_ok md directory ->
  reads V (ensure_directory_entry_space md directory name) (fun _ => True) (fun _ => True).
Proof.
  intros Hi. apply (runs_view md Hmd). intros HV. unfold ensure_directory_entry_space.
  eapply reads_bind; [by apply directory_block_spec|]. intros b (_ & _ & _ & Hb).
  eapply reads_bind; [eapply reads_mono; [apply (read_block_in md Hmd V b);
    [apply tailed_zeroed|lia]|intros l Hl; exact Hl|done]|]. intros ? [= <-].
  pose proof (find_space_page V b (entry_size (Z.of_nat (length name))) HV) as Hfs.
  eapply reads_lift_bind; [eapply holds_mono; [exact Hfs|intros r Hr; exact I|done]|].
  intros [sp|] _; [by apply reads_ret|by apply reads_fail].
Qed.

Lemma remove_directory_entry_spec V directory name :
  inode_ok md directory ->
  runs V (remove_directory_entry md directory name)
    (fun _ V' => entry_removed V V' directory name) (fun _ _ => True).
Proof.
  intros Hi. apply (runs_view md Hmd). intros HV. destruct (block_size_facts md Hmd) as (Hbs & _).
  unfold remove_directory_entry.
  eapply runs_read_bind; [by apply directory_block_spec|done|]. intros b Hb. pose proof Hb as (_ & _ & _ & Hb').
  eapply runs_read_bind; [apply (read_block_in md Hmd V b); [apply tailed_zeroed|lia]|done|]. intros ? [= <-].
  pose proof (page_buffer md Hmd V b HV) as Hbuf.
  pose proof (find_entry_spec md (page md V b) name MAX_RECORDS None 0 Hbuf ltac:(lia) ltac:(lia)
    (enough_start (block_size md) ltac:(lia)) ltac:(done)) as Hfe.
  destruct (find_entry MAX_RECORDS md (page md V b) name None 0) as [[en|]|e|] eqn:Efe;
    [| |by apply runs_err_bind|done].
  2: { apply runs_ok_bind. by apply runs_fail. }
  apply runs_ok_bind. cbn in Hfe. eapply runs_lift_bind.
  { eapply holds_mono; [apply (erase_entry_spec md _ name en); [done|lia|done]|intros r Hr; exact Hr|done]. }
  intros block Her. assert (buffer block) as Hblock by (destruct en as [[? ?] ?]; apply Her).
  eapply runs_mono; [apply write_block_spec, Hblock| |done].
  intros [] V' (_ & _ & Hst). exists b, en, block. split_and!; [done|done|done|done|apply Hst, Hblock].
Qed.

(** ** Counters *)

(** The volume after the counts of free blocks and inodes were changed. *)
Definition counters_changed (V V' : View) (descriptor : list Z) (blocks inodes : Z) : Prop :=
  (blocks = 0 /\ inodes = 0 /\ V' = V) \/
  exists V1 descriptor' superblock,
    changed descriptor descriptor' 12 16 /\ changed (page md V (first_data_block md)) superblock 12 20 /\
    field 4 superblock 12 = field 4 (V (first_data_block md)) 12 + blocks /\
    field 4 superblock 16 = field 4 (V (first_data_block md)) 16 + inodes /\
    buffer descriptor' /\ buffer superblock /\
    stored md V V1 (first_data_block md + 1) descriptor' /\ stored md V1 V' (first_data_block md) superblock.

Lemma add_delta_spec limit count delta :
  holds (add_delta limit count delta) (fun x => x = count + delta /\ 0 <= x < limit)
    (fun e => e = Ext2Error.InvalidFilesystem).
Proof. unfold add_delta. run_step; bools; run_step; [split; [done|lia]|done]. Qed.

Lemma first_blocks_in : first_data_block md + 1 < blocks_count md.
Proof.
  pose proof (descriptor_block_in md Hmd 0) as Hd. rewrite Z.mul_0_l, Z.div_0_l, Z.add_0_r in Hd.
  - apply Hd. pose proof (ok_groups _ Hmd). lia.
  - destruct (block_size_facts md Hmd) as (Hbs & _). lia.
Qed.

Lemma update_free_counters_spec V0 V tx descriptor blocks inodes :
  tx_ok V0 tx (V, tx) -> buffer descriptor ->
  runs (V, tx) (update_free_counters md descriptor blocks inodes)
    (fun _ w => tx_ok V0 tx w /\ counters_changed V w.1 descriptor blocks inodes) (fun e w => tx_ok V0 tx w).
Proof.
  intros Htx Hd. apply runs_tx_view. intros HV. cbn [fst] in HV. pose proof first_blocks_in as Hin.
  destruct (block_size_facts md Hmd) as (Hbs & _).
  unfold update_free_counters. destruct (_ && _) eqn:H00.
  { apply runs_ret. bools. subst. split; [done|]. by left. }
  rewrite !le16_ok by (rewrite ?(proj1 Hd); lia).
  eapply runs_lift_bind; [rewrite Ok_bind; eapply holds_mono; [apply add_delta_spec|intros x Hx; exact Hx|done]|].
  intros d1 [Hd1 Hd1']. eapply runs_lift_bind; [rewrite Ok_bind; eapply holds_mono; [apply add_delta_spec|intros x Hx; exact Hx|done]|].
  intros d2 [Hd2 Hd2'].
  eapply runs_read_bind; [apply reads_on_fs, (read_block_in md Hmd V (first_data_block md)); [apply tailed_zeroed|lia]|done|].
  intros ? [= <-]. pose proof (page_buffer md Hmd V (first_data_block md) HV) as Hsb.
  rewrite !page_le32 by (done || lia).
  eapply runs_lift_bind; [rewrite Ok_bind; eapply holds_mono; [apply add_delta_spec|intros x Hx; exact Hx|done]|].
  intros s1 [Hs1 Hs1']. eapply runs_lift_bind; [rewrite Ok_bind; eapply holds_mono; [apply add_delta_spec|intros x Hx; exact Hx|done]|].
  intros s2 [Hs2 Hs2']. eapply runs_lift_bind.
  { eapply holds_bind; [eapply holds_mono; [apply (put_le_spec 4096); [done|lia..]|intros r Hr; exact Hr|done]|].
    intros b1 (B1 & C1 & F1).
    eapply holds_mono; [apply (put_le_spec 4096); [done|lia..]| |done].
    intros b2 (B2 & C2 & F2). exact (conj B2 (changed_trans _ _ _ 12 16
      (changed_mono _ _ _ _ 12 16 C1 ltac:(lia) ltac:(lia)) (changed_mono _ _ _ _ 12 16 C2 ltac:(lia) ltac:(lia)))). }
  intros descriptor' [Hdesc Hcd]. eapply runs_lift_bind with (R := fun b => buffer b /\
    changed (page md V (first_data_block md)) b 12 20 /\ field 4 b 12 = s1 /\ field 4 b 16 = s2).
  { eapply holds_bind; [eapply holds_mono; [apply (put_le_spec 4096); [done|lia..]|intros r Hr; exact Hr|done]|].
    intros b1 (B1 & C1 & F1).
    eapply holds_mono; [apply (put_le_spec 4096); [done|lia..]| |done].
    intros b2 (B2 & C2 & F2). split_and!; [done| | |apply F2; cbn; lia].
    - eapply changed_trans; (eapply changed_mono; [done|lia..]).
    - through C2. apply F1. cbn. lia. }
  intros superblock (Hsb' & Hcs & Hf1 & Hf2).
  eapply runs_bind; [eapply runs_mono; [apply (write_through_spec V0); [done|apply Hdesc]|intros a w Hw; exact Hw|]|].
  { by intros e w [Hw _]. }
  intros [] [V1 tx1] (Hw & Hst & _). cbn [fst] in Hst.
  eapply runs_mono; [apply (write_through_spec V0 V1 tx1); [by eapply tx_ok_next|done]| |]; cbn beta.
  - intros [] w (Hw2 & Hst2 & _). split; [by eapply tx_ok_trans|]. right.
    exists V1, descriptor', superblock.
    rewrite <-!(field_page md 4 V) by (done || lia). split_and!; [done|done|lia|lia|done|done|done|done].
  - intros e w [Hw2 _]. by eapply tx_ok_trans.
Qed.
End write.
