(* ===== verification/Ext2Ops.v ===== *)
(** * The operations that change a volume

    No operation of [fs/ext2.rs] panics, whatever the volume holds and whichever
    reads, writes and allocations fail; what [write_file] writes before it commits
    is in blocks that were free. *)

From S2P Require Import Prelude Refine Utf8 FileSystem Disk Ext2 Ext2Bits Ext2Dir Ext2View Ext2Read Ext2Write.

Local Open Scope Z_scope.

#[local] Abbreviation E := Ext2Error.t.

(** The allocation tables of a volume. *)
Definition tables_of (md : Metadata) (V : View) : outcome E Tables :=
  let d := page md V (first_data_block md + 1) in
  if (blocks_count md <=? field 4 d 0) || (blocks_count md <=? field 4 d 4)
  then Err Ext2Error.InvalidFilesystem
  else Ok (mk_tables (field 4 d 0) (field 4 d 4) d (page md V (field 4 d 0)) (page md V (field 4 d 4))).

(** No panic, whatever the result. *)
Definition safe {W S A} `{Abstraction W S} (w : W) (op : Op S E A) : Prop :=
  runs w op (fun _ _ => True) (fun _ _ => True).

Section ops.
Context {D : Type} `{SectorDeviceLaws D}.
Context (md : Metadata) (Hwr : writable_ok md).

#[local] Abbreviation Fs := (Ext2 D).
#[local] Instance here : Abstraction View Fs := fs_view md.

#[local] Definition Hmd : metadata_ok md := wr_ok md Hwr.

Lemma runs_safe {W S A} `{Abstraction W S} (w : W) (op : Op S E A) Q X : runs w op Q X -> safe w op.
Proof. intros Hop. by eapply runs_mono. Qed.

(** ** Allocation tables *)

Lemma read_allocation_tables_spec V : computes md V (read_allocation_tables md) (tables_of md V).
Proof.
  apply (computes_view md Hmd). intros HV. pose proof (first_blocks_in md Hmd) as Hin.
  destruct (block_size_facts md Hmd) as (Hbs & _). unfold read_allocation_tables, tables_of.
  set (d := page md V (first_data_block md + 1)).
  change (if (blocks_count md <=? field 4 d 0) || (blocks_count md <=? field 4 d 4) then ?a else ?b)
    with (Ok (E := E) d ≫= fun d => if (blocks_count md <=? field 4 d 0) || (blocks_count md <=? field 4 d 4) then a else b).
  apply computes_bind; [apply (read_block_in md Hmd V); [apply tailed_zeroed|lia]|]. intros ? [= <-].
  assert (length d = 4096%nat) as Hd by apply (page_buffer md Hmd V _ HV).
  rewrite (le32_ok d 0), (le32_ok d 4) by (rewrite ?Hd; lia). apply computes_ok. apply computes_ok.
  destruct (_ || _) eqn:Hb; [apply computes_fail|]. bools.
  rewrite <-(Ok_bind (page md V (field 4 d 0))
    (fun bb => Ok (mk_tables (field 4 d 0) (field 4 d 4) d bb (page md V (field 4 d 4))))).
  apply computes_bind; [apply (read_block_in md Hmd V); [apply tailed_zeroed|lia]|]. intros ? [= <-].
  rewrite <-(Ok_bind (page md V (field 4 d 4))
    (fun ib => Ok (mk_tables (field 4 d 0) (field 4 d 4) d (page md V (field 4 d 0)) ib))).
  apply computes_bind; [apply (read_block_in md Hmd V); [apply tailed_zeroed|lia]|]. intros ? [= <-].
  apply computes_ret.
Qed.

(** What is known of the tables. *)
Lemma tables_of_ok V t :
  view_ok md V -> tables_of md V = Ok t ->
  descriptor t = page md V (first_data_block md + 1) /\
  block_bitmap t = page md V (block_bitmap_number t) /\ inode_bitmap t = page md V (inode_bitmap_number t) /\
  0 <= block_bitmap_number t < blocks_count md /\ 0 <= inode_bitmap_number t < blocks_count md /\
  buffer (descriptor t) /\ buffer (block_bitmap t) /\ buffer (inode_bitmap t).
Proof.
  intros HV. unfold tables_of. destruct (_ || _) eqn:Hb; [done|]. bools. intros [= <-]. cbn.
  assert (forall b, buffer (page md V b)) as Hbuf by (intros; apply (page_buffer md Hmd); done).
  pose proof (field_bound 4 _ 0 (proj2 (Hbuf (first_data_block md + 1)))).
  pose proof (field_bound 4 _ 4 (proj2 (Hbuf (first_data_block md + 1)))).
  split_and!; try done; lia || apply Hbuf.
Qed.

(** An operation on a bitmap, inside one on the volume. *)
Lemma on_bitmap_spec {W S A} `{Abstraction W S} (w : W) bm (op : Op (list Z) E A) Q X :
  runs bm op Q X ->
  reads w (on_bitmap (S := S) bm op) (fun p => Q p.1 p.2) (fun e => exists bm', X e bm').
Proof.
  intros Hop. destruct (Hop bm eq_refl) as (bm' & Hbm & Hr). unfold on_bitmap.
  destruct (op bm) as [bm1 r]. cbv in Hbm. subst bm1. apply reads_lift.
  destruct r as [a|e|]; cbn in *; eauto.
Qed.

(** The volume after blocks were freed. *)
Definition blocks_freed (V V' : View) (l : list Z) : Prop :=
  (l = [] /\ V' = V) \/
  exists t bm V1, tables_of md V = Ok t /\ freed md (block_bitmap t) l bm /\
    stored md V V1 (block_bitmap_number t) bm /\ counters_changed md V1 V' (descriptor t) (Z.of_nat (length l)) 0.

Lemma free_data_blocks_spec V0 V tx l :
  tx_ok md V0 tx (V, tx) ->
  runs (V, tx) (free_data_blocks md l)
    (fun _ w => tx_ok md V0 tx w /\ blocks_freed V w.1 l) (fun e w => tx_ok md V0 tx w).
Proof.
  intros Htx. apply (runs_tx_view md Hmd). intros HV. cbn [fst] in HV. unfold free_data_blocks.
  case_bool_decide as Hl; [apply runs_ret; split; [done|by left]|].
  eapply runs_read_bind; [apply reads_on_fs, read_allocation_tables_spec|done|]. intros t Ht.
  destruct (tables_of_ok V t HV Ht) as (_ & _ & _ & _ & _ & Hd & Hb & _).
  eapply runs_read_bind; [by apply on_bitmap_spec, free_blocks_spec|done|].
  intros [[] bm] Hf. cbn [fst snd] in Hf.
  eapply runs_bind; [eapply runs_mono; [apply (write_through_spec md Hmd V0); [done|apply Hf]|intros a w Hw; exact Hw|]|].
  { by intros e w [Hw _]. }
  intros [] [V1 tx1] (Hw & Hst & _). cbn [fst] in Hst. unfold to_i32.
  destruct (_ <? 2 ^ 31); cbn [ok_or]; [|by apply runs_err_bind]. apply runs_ok_bind.
  eapply runs_mono; [apply (update_free_counters_spec md Hmd V0 V1 tx1); [by eapply tx_ok_next|done]| |]; cbn beta.
  - intros [] w (Hw2 & Hc). split; [by eapply tx_ok_trans|]. right. by exists t, bm, V1.
  - intros e w Hw2. by eapply tx_ok_trans.
Qed.

(** ** The blocks of a file *)

(** The blocks a file of a volume with blocks of 1024 bytes uses: data, and blocks of
    pointers. *)
Inductive uses (V : View) (i : Inode) : Z -> Prop :=
| uses_direct b : b ∈ i_blocks i -> b <> 0 -> uses V i b
| uses_single : i_single_indirect i <> 0 -> uses V i (i_single_indirect i)
| uses_single_pointer j b :
    i_single_indirect i <> 0 -> 0 <= j < 256 -> b = field 4 (V (i_single_indirect i)) (j * 4) -> b <> 0 -> uses V i b
| uses_double : i_double_indirect i <> 0 -> uses V i (i_double_indirect i)
| uses_leaf k b :
    i_double_indirect i <> 0 -> 0 <= k < 256 -> b = field 4 (V (i_double_indirect i)) (k * 4) -> b <> 0 -> uses V i b
| uses_leaf_pointer k l j b :
    i_double_indirect i <> 0 -> 0 <= k < 256 -> l = field 4 (V (i_double_indirect i)) (k * 4) -> l <> 0 ->
    0 <= j < 256 -> b = field 4 (V l) (j * 4) -> b <> 0 -> uses V i b.

(** Distinct blocks of the volume with a property. *)
Definition distinct (P : Z -> Prop) (l : list Z) : Prop :=
  NoDup l /\ Forall (fun b => b < blocks_count md /\ P b) l.

Lemma pointers_per_block : block_size md / 4 = 256 /\ block_size md = 1024.
Proof. rewrite (wr_block_size _ Hwr). done. Qed.

Section collect.
Context (P : Z -> Prop).

Lemma push_checked_spec l b :
  distinct P l -> P b -> holds (push_checked md l b) (distinct P) (fun _ => True).
Proof.
  intros [Hn Hl] HP. unfold push_checked, push_unique_block. run_step; [done|]. bools.
  run_step; [done|]. cbn. split.
  - apply NoDup_app. split_and!; [done| |apply NoDup_singleton]. intros x Hx ->%list_elem_of_singleton.
    apply not_true_iff_false in H2. apply H2, existsb_exists. exists b. split; [by apply list_elem_of_In|apply Z.eqb_refl].
  - apply Forall_app. split; [done|by apply Forall_singleton].
Qed.

Lemma push_unique_spec l b :
  distinct P l -> P b -> b < blocks_count md -> holds (push_unique_block l b) (distinct P) (fun _ => True).
Proof.
  intros Hl HP Hb. pose proof (push_checked_spec l b Hl HP) as Hp. unfold push_checked in Hp.
  by rewrite (proj2 (Z.leb_gt _ _)) in Hp.
Qed.

Lemma push_pointers_spec table index n l :
  buffer table -> (Z.of_nat index + Z.of_nat n) * 4 <= 1024 -> distinct P l ->
  (forall j, 0 <= j < 256 -> field 4 table (j * 4) <> 0 -> P (field 4 table (j * 4))) ->
  holds (push_pointers md table index n l) (distinct P) (fun _ => True).
Proof.
  intros Hb Hn Hl HP. revert index l Hn Hl. induction n as [|n IH]; intros index l Hn Hl; cbn [push_pointers]; [done|].
  rewrite le32_ok, Ok_bind by (rewrite ?(proj1 Hb); lia). eapply holds_bind with (R := distinct P).
  - run_step; [done|]. bools. apply push_checked_spec; [done|]. apply HP; [lia|done].
  - intros l' Hl'. apply IH; [lia|done].
Qed.

Lemma push_indirect_spec V b l :
  distinct P l -> P b -> (forall j, 0 <= j < 256 -> field 4 (V b) (j * 4) <> 0 -> P (field 4 (V b) (j * 4))) ->
  reads V (push_indirect md b l) (distinct P) (fun _ => True).
Proof.
  intros Hl HPb HP. apply (runs_view md Hmd). intros HV. destruct pointers_per_block as [Hp Hbs].
  unfold push_indirect. apply reads_if; intros Hb; bools; [by apply reads_fail|].
  eapply reads_bind; [eapply reads_mono; [apply (read_block_in md Hmd V b); [apply tailed_zeroed|done]|
    intros p Hq; exact Hq|done]|]. intros ? [= <-].
  eapply reads_lift_bind.
  { eapply holds_mono; [apply push_pointers_spec; [by apply (page_buffer md Hmd)|rewrite Hp; lia|done|]|
      intros r Hr; exact Hr|done].
    intros j Hj. rewrite (field_page md 4 V b) by (done || (rewrite ?Hbs; lia)). by apply HP. }
  intros l' Hl'. apply reads_lift. by apply push_unique_spec.
Qed.

Lemma push_double_spec V root index n l :
  buffer root -> (Z.of_nat index + Z.of_nat n) * 4 <= 1024 -> distinct P l ->
  (forall k, 0 <= k < 256 -> let b := field 4 root (k * 4) in b <> 0 ->
     P b /\ forall j, 0 <= j < 256 -> field 4 (V b) (j * 4) <> 0 -> P (field 4 (V b) (j * 4))) ->
  reads V (push_double md root index n l) (distinct P) (fun _ => True).
Proof.
  intros Hb Hn Hl HP. revert index l Hn Hl.
  induction n as [|n IH]; intros index l Hn Hl; cbn [push_double]; [by apply reads_ret|].
  rewrite le32_ok by (rewrite ?(proj1 Hb); lia). apply reads_ok_bind.
  eapply reads_bind with (R := distinct P).
  - apply reads_if; intros Hz; [by apply reads_ret|]. bools.
    destruct (HP (Z.of_nat index)) as [Hi Hj]; [lia|done|]. by apply push_indirect_spec.
  - intros l' Hl'. apply IH; [lia|done].
Qed.

Lemma push_direct_spec l l' :
  distinct P l' -> Forall P l ->
  holds (foldl (fun r block => blocks ← r; push_checked md blocks block) (Ok l') l) (distinct P) (fun _ => True).
Proof.
  intros Hl' Hl. revert l' Hl'. induction Hl as [|b l Hb Hl IH]; intros l' Hl'; cbn [foldl]; [done|].
  rewrite Ok_bind. pose proof (push_checked_spec l' b Hl' Hb) as Hp.
  destruct (push_checked md l' b) as [l1|e|]; [by apply IH| |done]. clear. induction l as [|b l IH]; [done|exact IH].
Qed.
End collect.

Lemma double_capacity : double_indirect_capacity md = Ok 65804.
Proof.
  destruct pointers_per_block as [Hp _]. unfold double_indirect_capacity, single_indirect_capacity. by rewrite Hp.
Qed.

(** The blocks a file uses are collected once each. *)
Lemma collect_file_allocations_spec V inode :
  reads V (collect_file_allocations md inode) (distinct (uses V inode)) (fun _ => True).
Proof.
  apply (runs_view md Hmd). intros HV. destruct pointers_per_block as [Hp Hbs].
  unfold collect_file_allocations. rewrite double_capacity. apply reads_ok_bind.
  apply reads_if; intros _; [by apply reads_fail|].
  eapply reads_lift_bind with (R := fun _ => True).
  { unfold allocation_capacity. eapply holds_bind with (R := fun _ => True).
    - run_step; [done|]. eapply holds_mono; [apply holds_self, ok_or_safe|done..].
    - intros c _. run_step; [done|]. eapply holds_bind with (R := fun _ => True).
      + eapply holds_mono; [apply holds_self, ok_or_safe|done..].
      + intros d _. eapply holds_mono; [apply holds_self, ok_or_safe|done..]. }
  intros _ _. eapply reads_bind; [eapply reads_mono; [apply try_reserve_spec|intros a Ha; exact Ha|done]|].
  intros _ _. eapply reads_lift_bind.
  { eapply holds_mono; [apply (push_direct_spec (uses V inode))|intros l Hl; exact Hl|done].
    - split; [apply NoDup_nil_2|done].
    - apply Forall_forall. intros b [Hb Hin]%list_elem_of_filter. by apply uses_direct. }
  intros l Hl. eapply reads_bind with (R := distinct (uses V inode)).
  { apply reads_if; intros Hs; bools; [by apply reads_ret|]. apply push_indirect_spec; [done|by apply uses_single|].
    intros j Hj Hb. by apply (uses_single_pointer V inode j). }
  intros l1 Hl1. apply reads_if; intros Hd; bools; [by apply reads_ret|].
  apply reads_if; intros Hb; bools; [by apply reads_fail|].
  eapply reads_bind; [eapply reads_mono; [apply (read_block_in md Hmd V); [apply tailed_zeroed|done]|
    intros p Hq; exact Hq|done]|]. intros ? [= <-].
  eapply reads_bind; [apply (push_double_spec (uses V inode)); [by apply (page_buffer md Hmd)|rewrite Hp; lia|done|]|].
  { intros k Hk. rewrite (field_page md 4 V _) by (done || (rewrite ?Hbs; lia)). intros Hl0.
    split; [by apply (uses_leaf V inode k)|]. intros j Hj Hj0. by eapply (uses_leaf_pointer V inode k _ j). }
  intros l2 Hl2. apply reads_lift. apply push_unique_spec; [done|by apply uses_double|done].
Qed.

(** ** Directories *)

Lemma runs_without_tx {A} V (op : Op (Fs * option BlockTransaction) E A) (Q : A -> View -> Prop) :
  runs (V, None) op (fun a w => Q a w.1) (fun _ _ => True) -> runs V (without_tx op) Q (fun _ _ => True).
Proof.
  intros Hop s Hs. destruct (Hop (s, None)) as ([V' tx] & [HV Htx] & Hr); [done|]. unfold without_tx.
  destruct (op (s, None)) as [[s' t] r]. cbn in *. exists V'. split; [done|]. destruct r; done.
Qed.

(** The operations without a transaction. *)
Lemma write_inode_alone V n new is_new :
  0 < n <= inodes_count md -> inode_ok md new -> i_size new < u32_limit ->
  runs V (without_tx (write_inode_fields md n (i_mode new) (i_size new) (i_links new) (i_blocks new)
                  (i_single_indirect new) (i_double_indirect new) (i_allocated_blocks_512 new) is_new))
    (fun _ V' => inode_written md V V' n new) (fun _ _ => True).
Proof.
  intros Hn Hok Hs. apply runs_without_tx.
  eapply runs_mono; [by apply (write_inode_fields_spec md Hmd V V None)| |done]. by intros a w [_ Hw].
Qed.

Lemma update_free_counters_alone V d blocks inodes :
  buffer d ->
  runs V (without_tx (update_free_counters md d blocks inodes))
    (fun _ V' => counters_changed md V V' d blocks inodes) (fun _ _ => True).
Proof.
  intros Hd. apply runs_without_tx.
  eapply runs_mono; [by apply (update_free_counters_spec md Hmd V V None)| |done]. by intros a w [_ Hw].
Qed.

Lemma add_directory_entry_alone V directory name n type :
  inode_ok md directory -> safe_component name = true -> 0 < n <= inodes_count md ->
  runs V (without_tx (add_directory_entry md directory name n type))
    (fun _ V' => entry_added md V V' directory name n) (fun _ _ => True).
Proof.
  intros Hi Hs Hn. apply runs_without_tx.
  eapply runs_mono; [by apply (add_directory_entry_spec md Hmd V V None)| |done]. by intros a w [_ Hw].
Qed.

Lemma write_block_alone V b data :
  buffer data -> runs V (write_block md b data) (fun _ V' => stored md V V' b data) (fun _ _ => True).
Proof.
  intros Hd. eapply runs_mono; [apply (write_block_spec md Hmd), Hd| |done].
  intros [] V' (_ & _ & Hst). apply Hst, Hd.
Qed.

Lemma update_directory_link_count_spec V n increase :
  0 < n <= inodes_count md -> safe V (update_directory_link_count md n increase).
Proof.
  intros Hn. apply (runs_view md Hmd). intros HV. unfold update_directory_link_count.
  eapply runs_read_bind; [apply (read_inode_spec md Hmd V n); lia|done|]. intros root Hr.
  assert (inode_ok md root) as Hi by (eapply (inode_of_ok md Hmd V n); [done|lia|done]).
  pose proof (io_links _ _ Hi) as Hl.
  eapply runs_lift_bind with (R := fun l => 0 <= l < u16_limit).
  { run_step; [|done]. destruct increase; [apply checked_add_Some in H1|apply checked_sub_Some in H1]; lia. }
  intros links Hlinks. eapply runs_lift_bind with (R := fun size => size = i_size root /\ size < u32_limit).
  { run_step; [|done]. unfold to_u32 in H1. destruct (Z.ltb_spec (i_size root) u32_limit); [|done].
    injection H1 as <-. done. }
  intros size [-> Hsize].
  set (new := mk_inode (i_mode root) links (i_size root) (i_allocated_blocks_512 root) (i_blocks root)
                (i_single_indirect root) (i_double_indirect root)).
  eapply runs_safe, (write_inode_alone V n new false); [done| |done]. destruct Hi. by split.
Qed.

Lemma create_directory_in_spec V parent_number parent name :
  0 < parent_number <= inodes_count md -> inode_ok md parent -> safe_component name = true ->
  safe V (create_directory_in md parent_number parent name).
Proof.
  intros Hpn Hp Hs. apply (runs_view md Hmd). intros HV. unfold create_directory_in.
  destruct pointers_per_block as [_ Hbs]. pose proof (ok_inodes _ Hmd). pose proof (ok_blocks_max _ Hmd).
  pose proof (first_block_nonneg md Hwr).
  eapply runs_read_bind; [by apply (ensure_directory_entry_space_spec md Hmd)|done|]. intros _ _.
  eapply runs_read_bind; [apply read_allocation_tables_spec|done|]. intros t Ht.
  destruct (tables_of_ok V t HV Ht) as (_ & _ & _ & _ & _ & Hd & Hb & Hib).
  eapply runs_lift_bind; [eapply holds_mono; [by apply (free_inode_spec md Hwr)|intros n Hn; exact Hn|done]|].
  intros n [Hn _]. pose proof (data_blocks_bits md Hwr).
  eapply runs_lift_bind.
  { eapply holds_mono; [apply find_free_bit_spec; rewrite (proj1 Hb)|intros r Hr; exact Hr|done].
    pose proof (ok_blocks _ Hmd). lia. }
  intros [i|] Hi; cbn [ok_or]; [|by apply runs_err_bind]. apply runs_ok_bind. destruct Hi as (Hi & _).
  unfold checked_add. rewrite (proj2 (Z.ltb_lt _ _)) by lia. apply runs_ok_bind.
  eapply runs_read_bind; [apply on_bitmap_spec, (update_inode_bitmap_spec md Hwr); [done|lia]|done|].
  intros [[] inodes] [Hinodes _]. cbn [snd] in Hinodes.
  eapply runs_read_bind; [by apply on_bitmap_spec, (update_block_bitmap_spec md Hwr)|done|].
  intros [[] blocks] (Hdb & _ & Hblocks & _). cbn [snd] in Hblocks.
  eapply runs_lift_bind.
  { eapply holds_mono; [apply new_directory_spec; [lia|rewrite Hbs; by exists 256|lia|done|done]|
      intros r Hr; exact Hr|done]. }
  intros dir [Hdir _].
  eapply runs_bind; [apply write_block_alone, Hdir|]. intros [] V1 _.
  unfold to_u32. rewrite Hbs. apply runs_ok_bind.
  set (new := mk_inode 0x41ed 2 1024 2 ((i + first_data_block md) :: replicate 11 0) 0 0).
  eapply runs_bind; [apply (write_inode_alone V1 n new true); [done| |done]|].
  { unfold data_block in Hdb. split; cbn; try done; try (split; [done|by left]).
    apply Forall_cons. split; [split; [lia|right; lia]|]. apply (Forall_replicate (pointer_ok md) 11 0).
    split; [done|by left]. }
  intros [] V2 _. eapply runs_bind; [apply write_block_alone, Hblocks|]. intros [] V3 _.
  eapply runs_bind; [apply write_block_alone, Hinodes|]. intros [] V4 _.
  eapply runs_bind; [apply update_free_counters_alone, Hd|]. intros [] V5 _.
  eapply runs_bind; [by apply update_directory_link_count_spec|]. intros [] V6 _.
  eapply runs_safe. by apply add_directory_entry_alone.
Qed.

Lemma empty_inode_ok : inode_ok md (mk_inode 0 0 0 0 (replicate DIRECT_BLOCKS 0) 0 0).
Proof.
  split; cbn; try done; try (split; [done|by left]).
  apply (Forall_replicate (pointer_ok md) 12 0). split; [done|by left].
Qed.

Lemma remove_root_entry_allocations_spec V parent_number parent name n inode blocks :
  0 < parent_number <= inodes_count md -> inode_ok md parent -> 0 < n <= inodes_count md ->
  safe V (remove_root_entry_allocations md parent_number parent name n inode blocks).
Proof.
  intros Hpn Hp Hn. apply (runs_view md Hmd). intros HV. unfold remove_root_entry_allocations.
  apply runs_if; intros _; [by apply runs_fail|].
  eapply runs_read_bind; [apply read_allocation_tables_spec|done|]. intros t Ht.
  destruct (tables_of_ok V t HV Ht) as (_ & _ & _ & _ & _ & Hd & Hb & Hib).
  eapply runs_read_bind; [apply on_bitmap_spec, (update_inode_bitmap_spec md Hwr); [done|lia]|done|].
  intros [[] inodes] [Hinodes _]. cbn [snd] in Hinodes.
  eapply runs_read_bind; [by apply on_bitmap_spec, (free_blocks_spec md Hwr)|done|].
  intros [[] bm] Hbm. cbn [fst snd] in Hbm.
  eapply runs_bind; [by apply (remove_directory_entry_spec md Hmd)|]. intros [] V1 _.
  eapply runs_bind; [apply write_block_alone, Hbm|]. intros [] V2 _.
  eapply runs_bind; [apply write_block_alone, Hinodes|]. intros [] V3 _.
  unfold to_i32. destruct (_ <? 2 ^ 31); cbn [ok_or]; [|by apply runs_err_bind]. apply runs_ok_bind.
  eapply runs_bind; [apply update_free_counters_alone, Hd|]. intros [] V4 _.
  eapply runs_bind; [apply (write_inode_alone V4 n _ true Hn empty_inode_ok); done|]. intros [] V5 _.
  apply runs_if; intros _; [by apply update_directory_link_count_spec|by apply runs_ret].
Qed.

Lemma writable_metadata_spec V : computes md V writable_metadata (Ok md).
Proof.
  unfold writable_metadata. destruct Hwr as [_ H1 H2 H3 H4 H5].
  rewrite <-(Ok_bind md (fun md => Ok md)). apply computes_bind; [apply metadata_spec|]. intros ? [= <-].
  rewrite H1, H2, H3, !(proj2 (Z.ltb_ge _ _)) by lia. apply computes_ret.
Qed.

(** The beginning of every operation: the parent and the name. *)
Lemma resolve_step {B} V path (k : Z * Inode * list Z -> Op Fs E B) :
  view_ok md V ->
  (forall n parent name, 0 < n <= inodes_count md -> inode_ok md parent -> is_directory parent = true ->
     safe_component name = true -> safe V (k (n, parent, name))) ->
  safe V (resolve_parent md path ≫= k).
Proof.
  intros HV Hk. eapply runs_read_bind; [apply (resolve_parent_spec md Hmd)|done|].
  intros [[n parent] name] Hp. destruct (parent_of_ok md Hmd V path n parent name HV Hp) as (Hn & _ & Hi & Hd & Hs).
  by apply Hk.
Qed.

(** Finding an entry and its inode. *)
Lemma find_step {B} V parent name (k : Z -> Inode -> Op Fs E B) :
  view_ok md V -> inode_ok md parent ->
  (forall n inode, 0 < n <= inodes_count md -> inode_ok md inode -> safe V (k n inode)) ->
  safe V (found ← find_child md parent name;
          n ← lift (ok_or found Ext2Error.NotFound);
          inode ← read_inode md n; k n inode).
Proof.
  intros HV Hp Hk. eapply runs_read_bind; [by apply (find_child_spec md Hmd)|done|].
  intros [n|] Hn; cbn [ok_or]; [|by apply runs_err_bind]. apply runs_ok_bind.
  apply (child_of_range md Hmd) in Hn; [|done].
  eapply runs_read_bind; [apply (read_inode_spec md Hmd); lia|done|]. intros inode Hi.
  apply Hk; [done|]. eapply (inode_of_ok md Hmd V n); [done|lia|done].
Qed.

Lemma create_directory_safe V path : safe V (create_directory path).
Proof.
  apply (runs_view md Hmd). intros HV. unfold create_directory.
  eapply runs_read_bind; [apply writable_metadata_spec|done|]. intros ? [= <-].
  apply resolve_step; [done|]. intros n parent name Hn Hp Hd Hs.
  eapply runs_read_bind; [by apply (find_child_spec md Hmd)|done|].
  intros [c|] _; [by apply runs_fail|]. by apply create_directory_in_spec.
Qed.

Lemma remove_file_safe V path : safe V (remove_file path).
Proof.
  apply (runs_view md Hmd). intros HV. unfold remove_file.
  eapply runs_read_bind; [apply writable_metadata_spec|done|]. intros ? [= <-].
  apply resolve_step; [done|]. intros n parent name Hn Hp Hd Hs.
  apply find_step; [done|done|]. intros c inode Hc Hi.
  apply runs_if; intros _; [by apply runs_fail|]. rewrite double_capacity. apply runs_ok_bind.
  apply runs_if; intros _; [by apply runs_fail|].
  eapply runs_read_bind; [by apply collect_file_allocations_spec|done|]. intros blocks _.
  by apply remove_root_entry_allocations_spec.
Qed.

Lemma remove_empty_directory_safe V path : safe V (remove_empty_directory path).
Proof.
  apply (runs_view md Hmd). intros HV. unfold remove_empty_directory.
  eapply runs_read_bind; [apply writable_metadata_spec|done|]. intros ? [= <-].
  apply resolve_step; [done|]. intros n parent name Hn Hp Hd Hs.
  apply find_step; [done|done|]. intros c inode Hc Hi.
  apply runs_if; intros _; [by apply runs_fail|].
  eapply runs_bind; [eapply runs_mono; [apply listing_spec, (for_each_child_spec md Hmd V [] inode Hi)|
    intros p V' Hp'; exact Hp'|done]|].
  intros [[] visits] V' (HV' & _). cbn in HV'. subst V'.
  apply runs_if; intros _; [by apply runs_fail|].
  destruct (first_block md inode Hi) as (b & Hb & _). rewrite Hb.
  eapply runs_bind with (R := fun f V' => V' = V); [apply runs_if; intros _; [by apply runs_fail|by apply runs_lift]|].
  intros f V' ->. apply runs_if; intros _; [by apply runs_fail|].
  by apply remove_root_entry_allocations_spec.
Qed.
End ops.
