(* ===== verification/Ext2File.v ===== *)
(** * Writing a file

    [write_file] of [fs/ext2.rs]: the contents and their pointers go to blocks that
    were free, a transaction replaces the metadata, and an error rolls it back. *)

From S2P Require Import Prelude Refine Utf8 FileSystem Disk Ext2 Ext2Bits Ext2Dir Ext2View Ext2Read Ext2Write Ext2Ops.

Local Open Scope Z_scope.

#[local] Abbreviation E := Ext2Error.t.

(** Block [i] of the contents, filled up with zeros. *)
Definition chunk (size : Z) (contents : list Z) (i : nat) : list Z :=
  take (Z.to_nat size) (drop (i * Z.to_nat size) contents ++ replicate (Z.to_nat size) 0).

Section file.
Context {D : Type} `{SectorDeviceLaws D}.
Context (md : Metadata) (Hwr : writable_ok md).

#[local] Abbreviation Fs := (Ext2 D).
#[local] Instance here : Abstraction View Fs := fs_view md.

#[local] Definition Hmd : metadata_ok md := wr_ok md Hwr.

(** Only the blocks [l] may differ. *)
Definition within (l : list Z) (V V' : View) : Prop := forall b, b ∉ l -> V' b = V b.

Lemma within_refl l V : within l V V.
Proof. done. Qed.

Lemma within_trans l V V1 V2 : within l V V1 -> within l V1 V2 -> within l V V2.
Proof. intros H1 H2 b Hb. by rewrite H2, H1. Qed.

Lemma within_others l V V' b : b ∈ l -> others_same V V' b -> within l V V'.
Proof. intros Hb Ho b' Hb'. apply Ho. by intros ->. Qed.

Lemma within_mono l l' V V' : within l V V' -> (forall b, b ∈ l -> b ∈ l') -> within l' V V'.
Proof. intros Hw Hl b Hb. apply Hw. auto. Qed.

(** ** The contents *)

Lemma write_chunks_spec V data index l :
  (index + length l <= length data)%nat -> Forall (fun c => length c <= 4096)%nat l ->
  runs V (write_chunks md data index l)
    (fun _ V' => within (drop index data) V V' /\
       (NoDup data -> Forall bytes_ok l -> forall i c b, l !! i = Some c -> data !! (index + i)%nat = Some b ->
          V' b = take (Z.to_nat (block_size md)) (splice zeroed_block 0 c)))
    (fun e V' => within (drop index data) V V').
Proof.
  revert V index. induction l as [|c l IH]; intros V index Hl Hlen; cbn [write_chunks length] in *.
  { apply runs_ret. split; [apply within_refl|]. done. }
  apply Forall_cons in Hlen as [Hc Hlen]. pose proof zeroed_buffer as [Hz Hzb].
  rewrite copy_at_ok by (rewrite Hz; lia). apply runs_ok_bind.
  destruct (lookup_lt_is_Some_2 data index) as [b Hb]; [lia|]. rewrite Hb. apply runs_ok_bind.
  assert (b ∈ drop index data) as Hin by (erewrite drop_S by done; apply list_elem_of_here).
  assert (forall b', b' ∈ drop (S index) data -> b' ∈ drop index data) as Hmono.
  { intros b' Hb'. erewrite drop_S by done. by apply list_elem_of_further. }
  eapply runs_bind; [eapply runs_mono; [apply (write_block_spec md Hmd V b)|intros a w Hw; exact Hw|]|].
  { rewrite length_splice; lia. }
  { intros e V' [Ho _]. by eapply within_others. }
  intros [] V1 (_ & Ho & Hst).
  eapply runs_mono; [apply IH; [lia|done]| |]; cbn beta.
  - intros [] V2 [Hw Hf]. split.
    + eapply within_trans; [by eapply within_others|]. by eapply within_mono.
    + intros Hn [Hcb Hlb]%Forall_cons i c' b' Hi Hb'. destruct i as [|i].
      * injection Hi as <-. rewrite Nat.add_0_r, Hb in Hb'. injection Hb' as <-.
        rewrite Hw; [apply Hst; by apply bytes_ok_splice|].
        intros Hbad. apply list_elem_of_lookup in Hbad as (j & Hj). rewrite lookup_drop in Hj.
        pose proof (NoDup_lookup data index (S index + j) b Hn Hb Hj). lia.
      * apply (Hf Hn Hlb i c' b' Hi). rewrite <-Hb'. f_equal. lia.
  - intros e V2 Hw. eapply within_trans; [by eapply within_others|]. by eapply within_mono.
Qed.

(** ** Blocks of pointers *)

Lemma put_table_spec table index pointers :
  buffer table -> (Z.of_nat index + Z.of_nat (length pointers)) * 4 <= 4096 ->
  Forall (fun p => 0 <= p < u32_limit) pointers ->
  holds (put_table table index pointers) (fun table' => buffer table' /\
    changed table table' (Z.of_nat index * 4) ((Z.of_nat index + Z.of_nat (length pointers)) * 4) /\
    forall j p, pointers !! j = Some p -> field 4 table' (Z.of_nat (index + j) * 4) = p) (fun _ => False).
Proof.
  intros Hb Hl Hall. revert table index Hb Hl.
  induction Hall as [|p pointers Hp Hall IH]; intros table index Hb Hl; cbn [put_table length] in *.
  { split_and!; [done|done|]. done. }
  eapply holds_bind; [apply (put_le_spec 4096); [done|lia..]|]. intros t1 (H1 & C1 & F1).
  eapply holds_mono; [apply IH; [done|lia]| |done]. intros t2 (H2 & C2 & F2). split_and!; [done| |].
  - intros i Hi. rewrite C2, C1 by lia. done.
  - intros [|j] q Hj.
    + injection Hj as <-. rewrite Nat.add_0_r. through C2. apply F1. cbn. lia.
    + rewrite <-(F2 j q Hj). do 2 f_equal. lia.
Qed.

Lemma pointers_from_lookup data start n (j : nat) :
  Z.of_nat j < n -> pointers_from data start n !! j = Some (default 0 (data !! (Z.to_nat start + j)%nat)).
Proof.
  intros Hj. unfold pointers_from. rewrite list_lookup_fmap, lookup_seq_lt by lia. done.
Qed.

Lemma pointers_from_range data start n :
  Forall (fun b => 0 <= b < u32_limit) data -> Forall (fun b => 0 <= b < u32_limit) (pointers_from data start n).
Proof.
  intros Hd. apply Forall_fmap, Forall_true. intros i. cbn.
  destruct (data !! (Z.to_nat start + i)%nat) as [b|] eqn:Hb; cbn; [|lia].
  rewrite Forall_lookup in Hd. by eapply Hd.
Qed.

Lemma length_pointers_from data start n : length (pointers_from data start n) = Z.to_nat n.
Proof. unfold pointers_from. by rewrite length_fmap, length_seq. Qed.

(** A block of the pointers to blocks [start .. start + 256) of the contents. *)
Definition table_at (V : View) (b : Z) (data : list Z) (start : Z) : Prop :=
  forall j : nat, (j < 256)%nat -> field 4 (V b) (Z.of_nat j * 4) = default 0 (data !! (Z.to_nat start + j)%nat).

Lemma write_table_spec V b data start :
  Forall (fun b => 0 <= b < u32_limit) data ->
  runs V (pointers ← lift (put_table zeroed_block 0 (pointers_from data start (block_size md / 4)));
          write_block md b pointers)
    (fun _ V' => others_same V V' b /\ table_at V' b data start) (fun e V' => others_same V V' b).
Proof.
  intros Hd. destruct (pointers_per_block md Hwr) as [Hp Hbs].
  eapply runs_lift_bind.
  { eapply holds_mono; [apply (put_table_spec zeroed_block 0)|intros t Ht; exact Ht|done].
    - apply zeroed_buffer.
    - rewrite length_pointers_from, Hp. lia.
    - by apply pointers_from_range. }
  intros t (Ht & _ & Hf). eapply runs_mono; [apply (write_block_spec md Hmd V b), Ht| |].
  - intros [] V' (_ & Ho & Hst). split; [done|]. destruct (Hst (proj2 Ht)) as [_ Hb]. intros j Hj.
    rewrite Hb, field_take by lia. rewrite <-(Hf j _ (pointers_from_lookup data start (block_size md / 4) j ltac:(lia))).
    done.
  - by intros e V' [Ho _].
Qed.

Lemma write_leaves_spec V data start leaves :
  Forall (fun b => 0 <= b < u32_limit) data -> 0 <= start ->
  runs V (write_leaves md data start leaves)
    (fun _ V' => within leaves V V' /\
       (NoDup leaves -> forall k leaf, leaves !! k = Some leaf -> table_at V' leaf data (start + Z.of_nat k * 256)))
    (fun e V' => within leaves V V').
Proof.
  intros Hd. destruct (pointers_per_block md Hwr) as [Hp _]. revert V start.
  induction leaves as [|leaf leaves IH]; intros V start Hs; cbn [write_leaves].
  { apply runs_ret. split; [apply within_refl|]. done. }
  assert (forall b, b ∈ leaves -> b ∈ leaf :: leaves) as Hmono by (intros; by apply list_elem_of_further).
  apply (runs_group V _ (fun pointers => write_block md leaf pointers)).
  eapply runs_bind; [eapply runs_mono; [by apply write_table_spec|intros a w Hw; exact Hw|]|].
  { intros e V' Ho. apply (within_others _ _ _ leaf); [apply list_elem_of_here|exact Ho]. }
  intros [] V1 [Ho Ht]. assert (within (leaf :: leaves) V V1) as Hw1.
  { apply (within_others _ _ _ leaf); [apply list_elem_of_here|exact Ho]. }
  rewrite Hp. eapply runs_mono; [apply IH; lia| |]; cbn beta.
  - intros [] V2 [Hw Hf]. split; [eapply within_trans; [done|by eapply within_mono]|].
    intros [Hn1 Hn]%NoDup_cons k l Hk. destruct k as [|k].
    + injection Hk as <-. intros j Hj. rewrite Hw by done. rewrite Ht by done. do 3 f_equal. lia.
    + intros j Hj. rewrite (Hf Hn k l Hk j Hj). do 3 f_equal. lia.
  - intros e V2 Hw. eapply within_trans; [done|by eapply within_mono].
Qed.

Lemma chunk_stored size contents i :
  size = block_size md -> 0 <= size <= 4096 -> 
  take (Z.to_nat size) (splice zeroed_block 0 (take (Z.to_nat size) (drop (i * Z.to_nat size) contents))) =
  chunk size contents i.
Proof.
  intros _ Hs. unfold chunk, splice, zeroed_block. rewrite take_0, app_nil_l, Nat.add_0_l.
  set (l := drop (i * Z.to_nat size) contents). rewrite drop_replicate, length_take.
  destruct (decide (Z.to_nat size <= length l)%nat) as [Hl|Hl].
  - rewrite (take_app_le (take _ l)) by (rewrite length_take; lia). rewrite take_app_le by lia.
    by rewrite take_take, Nat.min_id.
  - rewrite (take_ge l) by lia. rewrite !take_app_ge by lia. f_equal. rewrite !take_replicate. f_equal. lia.
Qed.

(** The blocks a file of [size] bytes needs. *)
Record new_blocks_ok (nb : NewBlocks) (size : Z) : Prop := {
  nb_nodup : NoDup (new_blocks nb);
  nb_in : forall b, b ∈ new_blocks nb -> data_block md b;
  nb_data_count : Z.of_nat (length (nb_data nb)) = div_ceil size (block_size md);
  nb_leaf_count : Z.of_nat (length (nb_leaves nb)) = div_ceil (saturating_sub (div_ceil size (block_size md)) 268) 256;
  nb_leaf_max : (length (nb_leaves nb) <= 256)%nat;
  nb_single_needed : (nb_single nb =? 0) = negb (12 <? div_ceil size (block_size md));
  nb_double_needed : (nb_double nb =? 0) = bool_decide (nb_leaves nb = []);
}.

(** The contents are in the blocks, and the pointers lead to them. *)
Record contents_written (nb : NewBlocks) (contents : list Z) (V : View) : Prop := {
  cw_data : forall i b, nb_data nb !! i = Some b -> V b = chunk (block_size md) contents i;
  cw_single : nb_single nb <> 0 -> table_at V (nb_single nb) (nb_data nb) 12;
  cw_root : forall k leaf, nb_leaves nb !! k = Some leaf -> field 4 (V (nb_double nb)) (Z.of_nat k * 4) = leaf;
  cw_root_end : nb_leaves nb <> [] -> forall k, (length (nb_leaves nb) <= k < 256)%nat ->
    field 4 (V (nb_double nb)) (Z.of_nat k * 4) = 0;
  cw_leaf : forall k leaf, nb_leaves nb !! k = Some leaf ->
    table_at V leaf (nb_data nb) (268 + Z.of_nat k * 256);
}.

Lemma new_blocks_elem nb b :
  b ∈ new_blocks nb <->
  (b = nb_single nb /\ nb_single nb <> 0) \/ (b = nb_double nb /\ nb_double nb <> 0) \/
  b ∈ nb_leaves nb \/ b ∈ nb_data nb.
Proof.
  unfold new_blocks. rewrite !elem_of_app.
  destruct (Z.eqb_spec (nb_single nb) 0), (Z.eqb_spec (nb_double nb) 0);
    rewrite ?list_elem_of_singleton, ?elem_of_nil; tauto.
Qed.

(** The parts of the new blocks do not overlap. *)
Lemma new_blocks_disjoint nb :
  NoDup (new_blocks nb) ->
  NoDup (nb_data nb) /\ NoDup (nb_leaves nb) /\
  (forall b, b ∈ nb_data nb -> b ∉ nb_leaves nb) /\
  (nb_single nb <> 0 -> (nb_single nb ∉ nb_data nb) /\ (nb_single nb ∉ nb_leaves nb)) /\
  (nb_double nb <> 0 ->
     (nb_double nb ∉ nb_data nb) /\ (nb_double nb ∉ nb_leaves nb) /\ nb_double nb <> nb_single nb).
Proof.
  unfold new_blocks. intros Hn.
  apply NoDup_app in Hn as (_ & Hs & Hn). apply NoDup_app in Hn as (_ & Hd & Hn).
  apply NoDup_app in Hn as (Hl & Hld & Hdata). split_and!; [done|done| | |].
  - intros b Hb Hb'. by apply (Hld b).
  - intros H0s. rewrite (proj2 (Z.eqb_neq _ _)) in Hs by done.
    specialize (Hs (nb_single nb) (list_elem_of_here _ _)). rewrite !not_elem_of_app in Hs. tauto.
  - intros H0d. rewrite (proj2 (Z.eqb_neq (nb_double nb) _)) in Hd, Hs by done.
    specialize (Hd (nb_double nb) (list_elem_of_here _ _)). rewrite !not_elem_of_app in Hd.
    split_and!; [tauto|tauto|]. intros Heq.
    destruct (Z.eqb_spec (nb_single nb) 0) as [E0|E0]; [congruence|].
    specialize (Hs (nb_single nb) (list_elem_of_here _ _)). rewrite !not_elem_of_app in Hs.
    destruct Hs as [Hs _]. apply Hs, list_elem_of_singleton. done.
Qed.

Lemma table_at_same V V' b data start : V' b = V b -> table_at V b data start -> table_at V' b data start.
Proof. intros Hb Ht j Hj. rewrite Hb. by apply Ht. Qed.

Lemma write_data_spec V nb contents :
  new_blocks_ok nb (Z.of_nat (length contents)) ->
  runs V (write_chunks md (nb_data nb) 0 (chunks (block_size md) contents))
    (fun _ V' => within (nb_data nb) V V' /\ (bytes_ok contents -> forall i b, nb_data nb !! i = Some b ->
       V' b = chunk (block_size md) contents i))
    (fun e V' => within (nb_data nb) V V').
Proof.
  intros Hnb. destruct (pointers_per_block md Hwr) as [_ Hbs].
  destruct (div_ceil_spec (Z.of_nat (length contents)) (block_size md)) as [_ Hdc]; [lia..|].
  pose proof (nb_data_count _ _ Hnb) as Hcount.
  eapply runs_mono; [apply write_chunks_spec| |done].
  - unfold chunks. rewrite length_fmap, length_seq. lia.
  - unfold chunks. apply Forall_fmap, Forall_true. intros i. cbn. rewrite length_take. lia.
  - intros [] V' [Hw Hf]. split; [done|]. intros Hb i b Hi.
    rewrite <-chunk_stored by (done || lia). apply (Hf (proj1 (new_blocks_disjoint nb (nb_nodup _ _ Hnb)))) with (i := i).
    + unfold chunks. apply Forall_fmap, Forall_true. intros k. cbn. by apply Forall_take, Forall_drop.
    + unfold chunks. rewrite list_lookup_fmap, lookup_seq_lt; [done|]. apply lookup_lt_Some in Hi. lia.
    + done.
Qed.

Lemma new_blocks_u32 nb size :
  new_blocks_ok nb size -> Forall (fun b => 0 <= b < u32_limit) (nb_data nb) /\
    Forall (fun b => 0 <= b < u32_limit) (nb_leaves nb).
Proof.
  intros Hnb. pose proof (ok_blocks_max _ Hmd). pose proof (first_block_nonneg md Hwr).
  split; apply Forall_forall; intros b Hb; destruct (nb_in _ _ Hnb b); try lia;
    apply new_blocks_elem; tauto.
Qed.

(** The contents and pointers, in the new blocks only. *)
Lemma write_new_blocks_spec V nb contents :
  new_blocks_ok nb (Z.of_nat (length contents)) ->
  runs V (write_new_blocks md nb contents)
    (fun _ V' => within (new_blocks nb) V V' /\ (bytes_ok contents -> contents_written nb contents V'))
    (fun e V' => within (new_blocks nb) V V').
Proof.
  intros Hnb. destruct (pointers_per_block md Hwr) as [Hp Hbs].
  destruct (new_blocks_disjoint nb (nb_nodup _ _ Hnb)) as (Hnd & Hnl & Hdl & Hsingle & Hdouble).
  destruct (new_blocks_u32 nb _ Hnb) as [Hu32 Hu32'].
  assert (forall b, b ∈ nb_data nb -> b ∈ new_blocks nb) as Md by (intros; apply new_blocks_elem; tauto).
  assert (forall b, b ∈ nb_leaves nb -> b ∈ new_blocks nb) as Ml by (intros; apply new_blocks_elem; tauto).
  unfold write_new_blocks. cbv zeta. eapply runs_bind.
  { eapply runs_mono; [by apply write_data_spec|intros a w Hw; exact Hw|]. intros e V' Hw. exact (within_mono _ _ _ _ Hw Md). }
  intros [] V1 [Hw1 Hdata]. assert (within (new_blocks nb) V V1) as HV1 by exact (within_mono _ _ _ _ Hw1 Md).
  eapply runs_bind with (R := fun _ V2 => others_same V1 V2 (nb_single nb) /\
    (nb_single nb = 0 -> V2 = V1) /\ (nb_single nb <> 0 -> table_at V2 (nb_single nb) (nb_data nb) 12)).
  { destruct (Z.eqb_spec (nb_single nb) 0) as [Hs0|Hs0]; [by apply runs_ret|].
    eapply runs_mono; [apply write_table_spec, Hu32| |]; cbn beta.
    - intros [] V2 [Ho Ht]. split_and!; [done|done|]. done.
    - intros e V2 Ho. eapply within_trans; [done|]. eapply within_others; [|exact Ho]. apply new_blocks_elem. tauto. }
  intros [] V2 (Ho2 & Hz2 & Ht2).
  assert (within (new_blocks nb) V1 V2) as HV2.
  { destruct (decide (nb_single nb = 0)) as [Hs0|Hs0]; [by rewrite Hz2|].
    eapply within_others; [|exact Ho2]. apply new_blocks_elem. tauto. }
  assert (forall b, b ∈ nb_data nb -> V2 b = V1 b) as Hd2.
  { intros b Hb. destruct (decide (nb_single nb = 0)) as [Hs0|Hs0]; [by rewrite Hz2|]. apply Ho2.
    intros ->. by apply (proj1 (Hsingle Hs0)). }
  case_bool_decide as Hleaves.
  { apply runs_ret. split; [by eapply within_trans|]. intros Hb. specialize (Hdata Hb).
    split; [|done|by rewrite Hleaves|done|by rewrite Hleaves]. intros i b Hi. rewrite Hd2; [by apply Hdata|].
    by eapply list_elem_of_lookup_2. }
  assert (nb_double nb <> 0) as Hd0.
  { pose proof (nb_double_needed _ _ Hnb) as Hd. rewrite bool_decide_eq_false_2 in Hd by done. by bools. }
  destruct (Hdouble Hd0) as (Hdd & Hdle & Hds).
  unfold single_indirect_capacity. rewrite Hp. apply runs_ok_bind.
  pose proof (nb_leaf_max _ _ Hnb) as Hmax. eapply runs_lift_bind.
  { eapply holds_mono; [apply (put_table_spec zeroed_block 0 (nb_leaves nb) zeroed_buffer); [lia|done]|
      intros t Ht; exact Ht|done]. }
  intros root (Hroot & Hrest & Hf). eapply runs_bind.
  { eapply runs_mono; [apply write_leaves_spec; [done|done]|intros a w Hw; exact Hw|].
    intros e V3 Hw. eapply within_trans; [exact HV1|]. eapply within_trans; [exact HV2|].
    exact (within_mono _ _ _ _ Hw Ml). }
  intros [] V3 [Hw3 Ht3]. specialize (Ht3 Hnl).
  assert (within (new_blocks nb) V V3) as HV3.
  { eapply within_trans; [exact HV1|]. eapply within_trans; [exact HV2|].
    exact (within_mono _ _ _ _ Hw3 Ml). }
  assert (nb_double nb ∈ new_blocks nb) as Mdouble by (apply new_blocks_elem; tauto).
  eapply runs_mono; [apply (write_block_spec md Hmd V3), Hroot| |]; cbn beta.
  - intros [] V4 (_ & Ho4 & Hst). split; [eapply within_trans; [done|by eapply within_others]|].
    intros Hb. specialize (Hdata Hb). destruct (Hst (proj2 Hroot)) as [_ Hb4]. split.
    + intros i b Hi. assert (b ∈ nb_data nb) as Hin by (by eapply list_elem_of_lookup_2).
      rewrite Ho4, Hw3, Hd2; [by apply Hdata|done|by apply Hdl|]. by intros ->.
    + intros Hs0. destruct (Hsingle Hs0). eapply table_at_same; [|by apply Ht2].
      rewrite Ho4 by congruence. by rewrite Hw3.
    + intros k leaf Hk. rewrite Hb4, Hbs, field_take by (apply lookup_lt_Some in Hk; lia).
      by apply (Hf k leaf).
    + intros _ k Hk. rewrite Hb4, Hbs, field_take by lia. rewrite (field_changed 4 _ _ _ _ _ Hrest) by lia.
      apply field_zeroed.
    + intros k leaf Hk. eapply table_at_same; [|by apply Ht3]. apply Ho4. intros ->.
      apply Hdle. by eapply list_elem_of_lookup_2.
  - intros e V4 [Ho4 _]. eapply within_trans; [done|by eapply within_others].
Qed.

(** ** The transaction *)

(** The inode of the new contents. *)
Definition file_inode (nb : NewBlocks) (size sectors : Z) : Inode :=
  mk_inode 0x81a4 1 size sectors (take DIRECT_BLOCKS (nb_data nb ++ replicate DIRECT_BLOCKS 0))
    (nb_single nb) (nb_double nb).

(** The inode bitmap with the bit of [n] set. *)
Definition inode_marked (t : Tables) (n : Z) (inodes : list Z) : Prop :=
  buffer inodes /\
  forall j, 0 <= j -> bit_set inodes j = if decide (n - 1 = j) then true else bit_set (inode_bitmap t) j.

(** The volume after the commit, one write after the other. *)
Definition committed (t : Tables) (parent : Inode) (name : list Z) (n : Z) (new_inode : bool)
  (blocks : list Z) (nb : NewBlocks) (allocated count size sectors : Z) (V V' : View) : Prop :=
  exists V1 V2 V3 V4,
    (if allocated =? 0 then V1 = V else stored md V V1 (block_bitmap_number t) blocks) /\
    (if new_inode then exists inodes, inode_marked t n inodes /\ stored md V1 V2 (inode_bitmap_number t) inodes
     else V2 = V1) /\
    counters_changed md V2 V3 (descriptor t) (- count) (if new_inode then -1 else 0) /\
    inode_written md V3 V4 n (file_inode nb size sectors) /\
    (if new_inode then entry_added md V4 V' parent name n else V' = V4).

Lemma file_inode_ok nb size sectors :
  new_blocks_ok nb size -> 0 <= size < u32_limit -> 0 <= sectors < u32_limit ->
  inode_ok md (file_inode nb size sectors).
Proof.
  intros Hnb Hs Hsec. pose proof (first_block_nonneg md Hwr).
  assert (forall b, b = 0 \/ b ∈ new_blocks nb -> pointer_ok md b) as Hp.
  { intros b [->|Hb]; [by split; [|left]|]. destruct (nb_in _ _ Hnb b Hb). split; [lia|]. right. lia. }
  assert (Forall (pointer_ok md) (nb_data nb ++ replicate DIRECT_BLOCKS 0)) as Hall.
  { apply Forall_app. split; [|apply Forall_replicate, Hp; by left].
    apply Forall_forall. intros b Hb. apply Hp. right. apply new_blocks_elem. tauto. }
  split; cbn -[DIRECT_BLOCKS]; [done|done|lia|done| |by apply Forall_take|..].
  - rewrite length_take, length_app, length_replicate. lia.
  - apply Hp. destruct (decide (nb_single nb = 0)); [by left|]. right. apply new_blocks_elem. tauto.
  - apply Hp. destruct (decide (nb_double nb = 0)); [by left|]. right. apply new_blocks_elem. tauto.
Qed.

(** The next write of a transaction. *)
Lemma tx_step {A B} V0 tx V tx' (m : Op (Fs * option BlockTransaction) E A)
  (k : A -> Op (Fs * option BlockTransaction) E B) (R : A -> View -> Prop) Q :
  tx_ok md V0 tx (V, tx') ->
  (tx_ok md V0 tx' (V, tx') -> runs (V, tx') m (fun a w => tx_ok md V0 tx' w /\ R a w.1) (fun e w => tx_ok md V0 tx' w)) ->
  (forall a V1 tx1, tx_ok md V0 tx (V1, tx1) -> R a V1 -> runs (V1, tx1) (k a) Q (fun e w => tx_ok md V0 tx w)) ->
  runs (V, tx') (m ≫= k) Q (fun e w => tx_ok md V0 tx w).
Proof.
  intros Htx Hm Hk. eapply runs_bind.
  - eapply runs_mono; [apply Hm; by eapply tx_ok_next|intros a w Hw; exact Hw|].
    intros e w Hw. by eapply tx_ok_trans.
  - intros a [V1 tx1] [Hw HR]. apply Hk; [|done]. by eapply tx_ok_trans.
Qed.

Lemma commit_spec V t parent name n new_inode blocks nb allocated count size sectors :
  buffer blocks -> buffer (descriptor t) -> buffer (inode_bitmap t) ->
  inode_ok md parent -> safe_component name = true -> 0 < n <= inodes_count md ->
  new_blocks_ok nb size -> 0 <= size < u32_limit -> 0 <= sectors < u32_limit ->
  runs (V, Some []) (commit md t parent name n new_inode blocks nb allocated count size sectors)
    (fun _ w => tx_ok md V (Some []) w /\
       committed t parent name n new_inode blocks nb allocated count size sectors V w.1)
    (fun e w => tx_ok md V (Some []) w).
Proof.
  intros Hblocks Hd Hib Hp Hname Hn Hnb Hsize Hsec. unfold commit.
  assert (tx_ok md V (Some []) (V, Some [])) as Hstart by apply undoable_start.
  eapply tx_step with (R := fun _ V1 => if allocated =? 0 then V1 = V else stored md V V1 (block_bitmap_number t) blocks);
    [done| |].
  { intros Htx. destruct (allocated =? 0); cbn [negb]; [by apply runs_ret|].
    eapply runs_mono; [by apply (transaction_write_spec md Hmd V)| |]; cbn beta.
    - by intros a w (Hw & Hst & _).
    - by intros e w [Hw _]. }
  intros [] V1 tx1 Htx1 H1. eapply tx_step with (R := fun _ V2 =>
    if new_inode then exists inodes, inode_marked t n inodes /\ stored md V1 V2 (inode_bitmap_number t) inodes else V2 = V1);
    [done| |].
  { intros Htx. destruct new_inode; [|by apply runs_ret]. pose proof (inode_bits md Hwr).
    destruct (bit_index (n - 1) 4096) as [Hq Hr]; [lia|].
    destruct (byte_exists (inode_bitmap t) (Z.to_nat ((n - 1) / 8)) (proj2 Hib)) as (v & Hv & Hv');
      [rewrite (proj1 Hib); lia|].
    cbv zeta. rewrite Hv. apply runs_ok_bind.
    destruct tx1 as [undo|]; [|done].
    assert (buffer (<[Z.to_nat ((n - 1) / 8) := Z.lor v (Z.shiftl 1 ((n - 1) mod 8))]> (inode_bitmap t))) as Hib'.
    { split; [by rewrite length_insert, (proj1 Hib)|]. apply bytes_ok_insert; [apply Hib|]. by apply lor_bit_byte. }
    eapply runs_mono; [apply (transaction_write_spec md Hmd V); [done|exact Hib']| |]; cbn beta.
    - intros a w (Hw & Hst & _). split; [done|]. eexists. split; [|done]. split; [done|].
      intros j Hj. apply (bit_set_update _ _ _ true); [done|lia|done].
    - by intros e w [Hw _]. }
  intros [] V2 tx2 Htx2 H2.
  eapply tx_step with (R := fun _ V3 => counters_changed md V2 V3 (descriptor t) (- count) (if new_inode then -1 else 0));
    [done|intros Htx; by apply (update_free_counters_spec md Hmd V)|].
  intros [] V3 tx3 Htx3 H3. unfold to_u32. rewrite (proj2 (Z.ltb_lt _ _)) by lia. apply runs_ok_bind.
  eapply tx_step with (R := fun _ V4 => inode_written md V3 V4 n (file_inode nb size sectors));
    [done|intros Htx; apply (write_inode_fields_spec md Hmd V V3 tx3 n (file_inode nb size sectors));
    [done|done|by apply file_inode_ok|cbn; lia]|].
  intros [] V4 tx4 Htx4 H4. destruct new_inode.
  - eapply runs_mono; [apply (add_directory_entry_spec md Hmd V V4 tx4); [by eapply tx_ok_next|done..]| |]; cbn beta.
    + intros [] w [Hw H5]. split; [by eapply tx_ok_trans|]. by exists V1, V2, V3, V4.
    + intros e w Hw. by eapply tx_ok_trans.
  - apply runs_ret. split; [done|]. by exists V1, V2, V3, V4.
Qed.

(** ** Commit, or roll back *)

Lemma transact_spec V (op : Op (Fs * option BlockTransaction) E unit) (Q : View -> Prop) :
  runs (V, Some []) op (fun _ w => tx_ok md V (Some []) w /\ Q w.1) (fun e w => tx_ok md V (Some []) w) ->
  runs V (transact op) (fun p V' => undoable md V V' p.2 /\ (p.1 = None -> Q V')) (fun _ _ => False).
Proof.
  intros Hop s Hs. destruct (Hop (s, Some [])) as ([V' tx] & [HV Htx] & Hr); [done|]. unfold transact.
  destruct (op (s, Some [])) as [[s' t] r]. cbn in HV, Htx, Hr. subst t. exists V'.
  destruct r as [[]|e|]; [| |done]; cbn in Hr; (split; [done|]); unfold tx_ok in Hr; cbn in Hr |- *;
    (destruct tx as [undo|]; [|by destruct Hr || done]).
  - destruct Hr as [Hu HQ]. split; [done|]. done.
  - split; [done|]. done.
Qed.

Lemma failed_spec V (op : Op Fs E unit) Q X :
  runs V op (fun _ => Q) (fun _ => X) ->
  runs V (failed op) (fun (f : bool) V' => if f then X V' else Q V') (fun _ _ => False).
Proof.
  intros Hop s Hs. destruct (Hop s Hs) as (V' & HV & Hr). unfold failed.
  destruct (op s) as [s' [[]|e|]]; cbn in *; [by exists V'|by exists V'|done].
Qed.

(** Either everything is done, or the volume is as it was (unless a write of the
    rollback failed). *)
Lemma commit_and_free_spec V op old (Q : View -> Prop) :
  runs (V, Some []) op (fun _ w => tx_ok md V (Some []) w /\ Q w.1) (fun e w => tx_ok md V (Some []) w) ->
  runs V (commit_and_free md op old)
    (fun _ V' => exists V1, Q V1 /\ blocks_freed md V1 V' old)
    (fun e V' => e = Ext2Error.RecoveryFailed \/ forall b, V' b = V b).
Proof.
  intros Hop. apply (runs_view md Hmd). intros HV. unfold commit_and_free.
  eapply runs_bind; [eapply runs_mono; [by apply transact_spec|intros p w Hw; exact Hw|done]|].
  intros [[e|] undo] V1 [Hu HQ]; cbn [fst snd] in *.
  { eapply runs_bind; [eapply runs_mono; [by apply (rollback_spec md Hmd V V1)|intros a w Hw; exact Hw|]|].
    - intros e' w ->. by left.
    - intros [] V2 HV2. apply runs_fail. by right. }
  apply (runs_view md Hmd). intros HV1.
  eapply runs_bind; [eapply runs_mono; [apply (transact_spec V1 _ (fun V2 => blocks_freed md V1 V2 old)),
    (free_data_blocks_spec md Hwr V1 V1 (Some []) old); apply undoable_start|
    intros p w Hw; exact Hw|done]|].
  intros [[e|] cleanup] V2 [Hu2 HQ2]; cbn [fst snd] in *.
  2: { apply runs_ret. exists V1. auto. }
  eapply runs_bind; [eapply runs_mono; [apply (failed_spec V2 _ (fun V3 => forall b, V3 b = V1 b) (fun _ => True)),
    runs_mono with (1 := rollback_spec md Hmd V1 V2 cleanup Hu2 HV1); [by intros a|done]|intros f w Hw; exact Hw|done]|].
  intros cleanup_failed V3 H3.
  eapply runs_bind; [eapply runs_mono; [apply (failed_spec V3 _
    (fun V4 => cleanup_failed = false -> forall b, V4 b = V b) (fun _ => True))|intros f w Hw; exact Hw|done]|].
  { eapply runs_mono; [by apply (rollback_any md Hmd V V1)| |done]. intros [] V4 [Hin Hout] -> b.
    destruct (decide (b ∈ undo.*1)) as [Hb|Hb]; [by apply Hin|]. rewrite Hout, H3 by done.
    by eapply undoable_outside. }
  intros commit_failed V4 H4. destruct cleanup_failed, commit_failed; apply runs_fail; auto.
Qed.

(** ** [write_file] *)

(** A block that is not free: the bitmap marks it, or has no bit for it. *)
Definition in_use (V : View) (b : Z) : Prop :=
  forall t, tables_of md V = Ok t -> data_block md b -> used md (block_bitmap t) b = true.

(** How the volume changes when a file is written. *)
Record file_written (V V' : View) (path contents : list Z) (parent : Inode) (name : list Z) (n : Z)
  (target : option Inode) (t : Tables) (nb : NewBlocks) (bm : list Z) (V1 V2 : View) : Prop := {
  fw_parent : exists number, parent_of md V path = Ok (number, parent, name);
  fw_target : match target with
              | Some inode => child_of md V parent name = Ok (Some n) /\ inode_of md V n = Ok inode /\
                  is_regular inode = true
              | None => child_of md V parent name = Ok None /\ 0 < n <= inodes_count md /\
                  bit_set (inode_bitmap t) (n - 1) = false
              end;
  fw_tables : tables_of md V = Ok t;
  fw_size : Z.of_nat (length contents) <= 65804 * 1024;
  fw_new : new_blocks_ok nb (Z.of_nat (length contents));
  fw_allocated : allocated md (block_bitmap t) (new_blocks nb) bm;
  fw_within : within (new_blocks nb) V V1;
  fw_contents : bytes_ok contents -> contents_written nb contents V1;
  fw_committed : exists count sectors, 0 <= sectors < u32_limit /\
    committed t parent name n (is_none target) bm nb (Z.of_nat (length (new_blocks nb))) count
      (Z.of_nat (length contents)) sectors V1 V2;
  fw_freed : exists old, blocks_freed md V2 V' old /\
    Forall (fun b => exists inode, target = Some inode /\ uses V inode b) old;
}.

Lemma write_target_spec V parent name max_size :
  inode_ok md parent ->
  reads V (write_target md parent name max_size)
    (fun target => match target with
       | Some (n, inode) => child_of md V parent name = Ok (Some n) /\ inode_of md V n = Ok inode /\
           is_regular inode = true
       | None => child_of md V parent name = Ok None
       end) (fun _ => True).
Proof.
  intros Hp. apply (runs_view md Hmd). intros HV. unfold write_target.
  eapply reads_bind; [eapply reads_mono; [by apply (find_child_spec md Hmd)|intros a Ha; exact Ha|done]|].
  intros [n|] Hn; [|by apply reads_ret]. apply (child_of_range md Hmd) in Hn as Hr; [|done].
  eapply reads_bind; [eapply reads_mono; [apply (read_inode_spec md Hmd); lia|intros a Ha; exact Ha|done]|].
  intros inode Hi. apply reads_if; intros Hreg; [by apply reads_fail|].
  apply reads_if; intros _; [by apply reads_fail|]. apply reads_ret. by bools.
Qed.

Lemma allocated_blocks_spec nb size required leaves :
  new_blocks_ok nb size -> required = div_ceil size (block_size md) ->
  leaves = div_ceil (saturating_sub required 268) 256 ->
  allocated_blocks required leaves = Z.of_nat (length (new_blocks nb)).
Proof.
  intros Hnb -> ->. unfold allocated_blocks, new_blocks, DIRECT_BLOCKS.
  rewrite <-(nb_leaf_count _ _ Hnb), <-(nb_data_count _ _ Hnb).
  pose proof (nb_single_needed _ _ Hnb) as Hs. rewrite <-(nb_data_count _ _ Hnb) in Hs.
  pose proof (nb_double_needed _ _ Hnb) as Hd. rewrite !length_app, Hs, Hd.
  assert (bool_decide (nb_leaves nb = []) = (Z.of_nat (length (nb_leaves nb)) =? 0)) as ->.
  { destruct (nb_leaves nb); [done|]. rewrite bool_decide_eq_false_2 by done. done. }
  change (Z.of_nat 12) with 12. destruct (12 <? Z.of_nat (length (nb_data nb))); cbn [negb];
    destruct (Z.of_nat (length (nb_leaves nb)) =? 0); cbn [length]; lia.
Qed.

(** The blocks [allocate_file] returns for contents of a given size. *)
Lemma allocate_file_ok bm size :
  buffer bm -> 0 <= size <= 65804 * 1024 ->
  runs bm (allocate_file md (div_ceil size (block_size md))
             (div_ceil (saturating_sub (div_ceil size (block_size md)) 268) 256))
    (fun nb bm' => new_blocks_ok nb size /\ allocated md bm (new_blocks nb) bm') (fun _ _ => True).
Proof.
  intros Hbm Hsize. destruct (pointers_per_block md Hwr) as [_ Hbs].
  destruct (div_ceil_spec size (block_size md)) as [Hdc Hdc0]; [lia..|].
  set (required := div_ceil size (block_size md)) in *.
  assert (required <= 65804) as Hreq.
  { assert (required - 1 < 65804); [|lia]. apply (Z.mul_lt_mono_pos_r 1024); lia. }
  assert (0 <= saturating_sub required 268 <= 65536) as Hss by (unfold saturating_sub; lia).
  destruct (div_ceil_spec (saturating_sub required 268) 256) as [Hdl Hdl0]; [lia..|].
  set (leaves := div_ceil (saturating_sub required 268) 256) in *.
  eapply runs_mono; [apply (allocate_file_spec md Hwr); [done|lia|lia]| |done].
  intros nb bm' (Ha & Hdata & Hleaves & Hs & Hd). split; [|done].
  split; [apply Ha| |done|done|lia|done|].
  - intros b Hb. apply (al_free _ _ _ _ Ha b Hb).
  - rewrite Hd. destruct (Z.eqb_spec leaves 0) as [E0|E0], (nb_leaves nb) as [|x xs]; cbn in *; try done; lia.
Qed.

(** The last part of [write_file], once the blocks are chosen. *)
Lemma write_and_commit V t parent name n new_inode nb bm contents old :
  view_ok md V -> tables_of md V = Ok t -> inode_ok md parent -> safe_component name = true ->
  0 < n <= inodes_count md -> new_blocks_ok nb (Z.of_nat (length contents)) ->
  Z.of_nat (length contents) <= 65804 * 1024 -> allocated md (block_bitmap t) (new_blocks nb) bm ->
  let allocated := Z.of_nat (length (new_blocks nb)) in
  runs V (count ← lift (ok_or (to_i32 allocated) Ext2Error.InvalidFilesystem);
          _ ← write_new_blocks md nb contents;
          sectors_per_block ← lift (ok_or (to_u32 (block_size md / 512)) Ext2Error.InvalidFilesystem);
          sectors ← lift (ok_or (k ← to_u32 allocated; checked_mul u32_limit k sectors_per_block)
                            Ext2Error.InvalidFilesystem);
          commit_and_free md (commit md t parent name n new_inode bm nb allocated count
                                (Z.of_nat (length contents)) sectors) old)
    (fun _ V' => exists V1 V2 count sectors, within (new_blocks nb) V V1 /\
       (bytes_ok contents -> contents_written nb contents V1) /\ 0 <= sectors < u32_limit /\
       committed t parent name n new_inode bm nb allocated count (Z.of_nat (length contents)) sectors V1 V2 /\
       blocks_freed md V2 V' old)
    (fun e V' => e = Ext2Error.RecoveryFailed \/ forall b, in_use V b -> V' b = V b).
Proof.
  intros HV Ht Hp Hname Hn Hnb Hsize Hal alloc.
  destruct (tables_of_ok md Hwr V t HV Ht) as (_ & _ & _ & _ & _ & Hd & _ & Hib).
  assert (forall V', within (new_blocks nb) V V' -> forall b, in_use V b -> V' b = V b) as Huse.
  { intros V' Hw b Hb. apply Hw. intros Hin. destruct (al_free _ _ _ _ Hal b Hin) as [Hdb Hu].
    rewrite (Hb t Ht Hdb) in Hu. done. }
  destruct (to_i32 alloc) as [count|]; cbn [ok_or]; [|apply runs_err_bind; by right]. apply runs_ok_bind.
  eapply runs_bind; [eapply runs_mono; [by apply write_new_blocks_spec|intros a w Hw; exact Hw|]|].
  { intros e V1 Hw. right. by apply Huse. }
  intros [] V1 [Hw1 Hc1]. destruct (pointers_per_block md Hwr) as [_ Hbs]. rewrite Hbs.
  change (to_u32 (1024 / 512)) with (Some 2). apply runs_ok_bind.
  eapply runs_lift_bind with (R := fun sectors => 0 <= sectors < u32_limit).
  { run_step; [|right; by apply Huse]. unfold to_u32 in H1. destruct (alloc <? u32_limit); [|done]. cbn in H1.
    apply checked_mul_Some in H1 as [-> ?]. split; [lia|done]. }
  intros sectors Hsec. eapply runs_mono; [apply (commit_and_free_spec V1 _ old
    (fun V2 => committed t parent name n new_inode bm nb alloc count (Z.of_nat (length contents)) sectors V1 V2))| |].
  - apply commit_spec; try done; [apply Hal|lia].
  - cbn beta. intros [] V' (V2 & H2 & Hf). by exists V1, V2, count, sectors.
  - cbn beta. intros e V' [He|HV']; [by left|]. right. intros b Hb. rewrite HV'. by apply (Huse V1).
Qed.

Lemma write_file_spec V path contents :
  runs V (write_file path contents)
    (fun _ V' => exists parent name n target t nb bm V1 V2,
       file_written V V' path contents parent name n target t nb bm V1 V2)
    (fun e V' => e = Ext2Error.RecoveryFailed \/ forall b, in_use V b -> V' b = V b).
Proof.
  apply (runs_view md Hmd). intros HV. destruct (pointers_per_block md Hwr) as [Hp Hbs]. unfold write_file.
  eapply runs_read_bind; [apply (writable_metadata_spec md Hwr)|intros; by right|]. intros ? [= <-].
  eapply runs_read_bind; [apply (resolve_parent_spec md Hmd)|intros; by right|]. intros [[pn parent] name] Hpar.
  destruct (parent_of_ok md Hmd V path pn parent name HV Hpar) as (_ & _ & Hpi & _ & Hname).
  cbv beta iota zeta. rewrite (double_capacity md Hwr), Ok_bind. unfold single_indirect_capacity, checked_add.
  rewrite Hp, Hbs. apply runs_ok_bind. apply runs_ok_bind.
  apply runs_if; intros Hsize; [apply runs_fail; by right|]. bools.
  eapply runs_read_bind; [by apply write_target_spec|intros; by right|]. intros target Htarget.
  eapply runs_read_bind with (R := fun _ => True) (X' := fun _ => True); [|intros; by right|].
  { apply reads_if; intros _; [by apply (ensure_directory_entry_space_spec md Hmd)|by apply reads_ret]. }
  intros _ _. eapply runs_read_bind with (X' := fun _ => True)
    (R := Forall (fun b => exists inode, snd <$> target = Some inode /\ uses V inode b)); [|intros; by right|].
  { destruct target as [[n inode]|]; [|by apply reads_ret].
    eapply reads_mono; [apply (collect_file_allocations_spec md Hwr V inode)| |done].
    intros l [_ Hl]. eapply Forall_impl; [exact Hl|]. intros b [_ Hb]. by exists inode. }
  intros old Hold. eapply runs_read_bind; [apply (read_allocation_tables_spec md Hwr)|intros; by right|].
  intros t Ht. destruct (tables_of_ok md Hwr V t HV Ht) as (_ & _ & _ & _ & _ & Hd & Hbb & Hib).
  eapply runs_read_bind with (R := fun n => 0 < n <= inodes_count md /\ match target with
    | Some (n', _) => n = n' | None => bit_set (inode_bitmap t) (n - 1) = false end)
    (X' := fun _ => True); [|intros; by right|].
  { destruct target as [[n inode]|].
    - apply reads_ret. split; [|done]. destruct Htarget as (Hc & _). by apply (child_of_range md Hmd) in Hc.
    - apply reads_lift. eapply holds_mono; [by apply (free_inode_spec md Hwr)|done|done]. }
  intros n [Hn Hbit].
  eapply runs_read_bind; [apply (try_reserve_spec md)|intros; by right|]. intros _ _.
  eapply runs_read_bind; [apply (try_reserve_spec md)|intros; by right|]. intros _ _.
  change (12 + 256) with 268. rewrite <-Hbs.
  eapply runs_read_bind; [apply on_bitmap_spec, (allocate_file_ok (block_bitmap t) (Z.of_nat (length contents))); [done|lia]|
    intros; by right|].
  intros [nb bm] [Hnb Hal]. cbn [fst snd] in Hnb, Hal.
  rewrite (allocated_blocks_spec nb (Z.of_nat (length contents))) by done.
  eapply runs_mono; [apply (write_and_commit V t parent name n (is_none target) nb bm contents old); try done; lia| |done].
  cbn beta. intros [] V' (V1 & V2 & count & sectors & Hw & Hc & Hsec & Hcom & Hfree).
  exists parent, name, n, (snd <$> target), t, nb, bm, V1, V2.
  split; [by exists pn| |done|lia|done|done|done|done| |by exists old].
  - destruct target as [[n' inode]|]; cbn; [by destruct Htarget as (? & ? & ?); subst n'|done].
  - exists count, sectors. by destruct target.
Qed.
End file.
