(* ===== verification/Ext2Trip.v ===== *)
(** * What a written file reads back as

    After [write_file] succeeded on a volume whose metadata is where the bitmap says,
    the file has the new contents, and the other files have the contents they had. *)

From S2P Require Import Prelude Refine Utf8 FileSystem Disk Ext2 Ext2Bits Ext2Dir Ext2View Ext2Read Ext2Write Ext2Ops Ext2File.

Local Open Scope Z_scope.

#[local] Abbreviation E := Ext2Error.t.

Section trip.
Context (md : Metadata) (Hwr : writable_ok md).

#[local] Definition Hmd : metadata_ok md := wr_ok md Hwr.

(** ** The layout of a volume *)

(** The superblock, the group descriptor, the bitmaps and the inode table. *)
Definition reserved (V : View) (t : Tables) (b : Z) : Prop :=
  b = first_data_block md \/ b = first_data_block md + 1 \/ b = block_bitmap_number t \/
  b = inode_bitmap_number t \/ inode_table md V 0 <= b < inode_table md V 0 + table_blocks md.

(** They do not overlap, and the bitmap marks them. *)
Record layout (V : View) (t : Tables) : Prop := {
  la_tables : tables_of md V = Ok t;
  la_table_end : inode_table md V 0 + table_blocks md <= blocks_count md;
  la_used : forall b, reserved V t b -> data_block md b /\ used md (block_bitmap t) b = true;
  la_bitmaps : block_bitmap_number t <> inode_bitmap_number t;
  la_apart : forall b, b = block_bitmap_number t \/ b = inode_bitmap_number t ->
    b <> first_data_block md /\ b <> first_data_block md + 1;
  la_outside : forall b, b = first_data_block md \/ b = first_data_block md + 1 \/
      b = block_bitmap_number t \/ b = inode_bitmap_number t ->
    ~ (inode_table md V 0 <= b < inode_table md V 0 + table_blocks md);
}.

(** An inode in use, whose blocks are marked and hold no metadata. *)
Record clean (V : View) (t : Tables) (n : Z) (i : Inode) : Prop := {
  cl_inode : inode_of md V n = Ok i;
  cl_range : 0 < n <= inodes_count md;
  cl_bit : bit_set (inode_bitmap t) (n - 1) = true;
  cl_blocks : forall b, uses V i b -> data_block md b /\ used md (block_bitmap t) b = true /\ ~ reserved V t b;
}.

(** ** What the contents of a file depend on *)

Lemma block_size_1024 : block_size md = 1024 /\ inode_size md = 128 /\ group_count md = 1.
Proof. destruct Hwr. done. Qed.

Lemma file_block_same V V' i index :
  view_ok md V -> view_ok md V' -> 0 <= index ->
  (forall b, uses V i b -> V' b = V b) ->
  file_block md V' i index = file_block md V i index.
Proof.
  intros HV HV' Hidx Hsame. destruct block_size_1024 as [Hbs _]. unfold file_block. rewrite Hbs.
  change (1024 / 4) with 256. set (k := index - Z.of_nat DIRECT_BLOCKS).
  destruct (Z.ltb_spec index (Z.of_nat DIRECT_BLOCKS)); [done|].
  destruct (Z.ltb_spec k 256).
  - destruct (Z.eqb_spec (i_single_indirect i) 0) as [|Hs]; [done|].
    rewrite !field_page by (done || (rewrite ?Hbs; lia)).
    by rewrite (Hsame _ (uses_single V i Hs)).
  - assert (0 <= (k - 256) / 256) by (apply Z.div_pos; lia).
    destruct (Z.leb_spec 256 ((k - 256) / 256)); [done|].
    destruct (Z.eqb_spec (i_double_indirect i) 0) as [|Hd]; [done|].
    pose proof (Z.mod_pos_bound (k - 256) 256).
    rewrite !(field_page md 4 _ (i_double_indirect i)) by (done || (rewrite ?Hbs; lia)).
    rewrite (Hsame _ (uses_double V i Hd)).
    set (l := field 4 (V (i_double_indirect i)) ((k - 256) / 256 * 4)).
    destruct (Z.eqb_spec l 0) as [|Hl]; [done|]. destruct (blocks_count md <=? l); [done|].
    rewrite !field_page by (done || (rewrite ?Hbs; lia)).
    rewrite (Hsame l); [done|]. eapply (uses_leaf V i ((k - 256) / 256)); [done|lia|done|done].
Qed.

(** A block of the file is one of those it uses. *)
Lemma file_block_uses V i index b :
  view_ok md V -> inode_ok md i -> 0 <= index -> file_block md V i index = Ok b -> b <> 0 -> uses V i b.
Proof.
  intros HV Hi Hidx. destruct block_size_1024 as [Hbs _]. unfold file_block. rewrite Hbs.
  change (1024 / 4) with 256. set (k := index - Z.of_nat DIRECT_BLOCKS).
  assert (forall x, check_pointer md x = Ok b -> b = x) as Hc.
  { intros x. unfold check_pointer. destruct (_ && _); [done|]. by intros [= ->]. }
  destruct (Z.ltb_spec index (Z.of_nat DIRECT_BLOCKS)).
  { intros [= <-] Hb. destruct (lookup_lt_is_Some_2 (i_blocks i) (Z.to_nat index)) as [x Hx];
      [rewrite (io_direct _ _ Hi); lia|]. rewrite Hx in *. apply uses_direct; [|done].
    by eapply list_elem_of_lookup_2. }
  destruct (Z.ltb_spec k 256).
  - destruct (Z.eqb_spec (i_single_indirect i) 0) as [|Hs]; [by intros [= <-]|].
    rewrite field_page by (done || (rewrite ?Hbs; lia)). intros ->%Hc Hb.
    eapply (uses_single_pointer V i k); [done|lia|done|done].
  - assert (0 <= (k - 256) / 256) by (apply Z.div_pos; lia).
    destruct (Z.leb_spec 256 ((k - 256) / 256)); [done|].
    destruct (Z.eqb_spec (i_double_indirect i) 0) as [|Hd]; [by intros [= <-]|].
    pose proof (Z.mod_pos_bound (k - 256) 256).
    rewrite !(field_page md 4 _ (i_double_indirect i)) by (done || (rewrite ?Hbs; lia)).
    set (l := field 4 (V (i_double_indirect i)) ((k - 256) / 256 * 4)).
    destruct (Z.eqb_spec l 0) as [|Hl]; [by intros [= <-]|]. destruct (blocks_count md <=? l); [done|].
    rewrite field_page by (done || (rewrite ?Hbs; lia)). intros ->%Hc Hb.
    eapply (uses_leaf_pointer V i ((k - 256) / 256) l ((k - 256) mod 256)); [done|lia|done|done|lia|done|done].
Qed.
(** ** What each write leaves *)

#[local] Abbreviation fdb := (first_data_block md).

Lemma page_same V V' b : V' b = V b -> page md V' b = page md V b.
Proof. intros Hb. unfold page. by rewrite Hb. Qed.

(** A field of a block that was read. *)
Lemma page_field n V b off :
  length (V b) = 1024%nat -> 0 <= off -> off + Z.of_nat n <= 1024 -> field n (page md V b) off = field n (V b) off.
Proof.
  intros Hl Ho Hn. unfold field. f_equal. apply slice_same. intros i Hi. unfold page. apply lookup_app_l. lia.
Qed.

(** The counters are in the superblock and in the last bytes of the descriptor. *)
Lemma counters_frame V V' d x y b :
  counters_changed md V V' d x y -> b <> fdb -> b <> fdb + 1 -> V' b = V b.
Proof.
  intros [(_ & _ & ->)|(V1 & d' & sb & _ & _ & _ & _ & _ & _ & [H1 _] & [H2 _])] Ha Hb; [done|].
  by rewrite H2, H1.
Qed.

Lemma counters_fields V0 V V' x y off :
  length (V0 (fdb + 1)) = 1024%nat -> V (fdb + 1) = V0 (fdb + 1) ->
  counters_changed md V V' (page md V0 (fdb + 1)) x y ->
  0 <= off -> off + 4 <= 12 ->
  length (V' (fdb + 1)) = 1024%nat /\ field 4 (V' (fdb + 1)) off = field 4 (V (fdb + 1)) off.
Proof.
  intros HV Hd [(_ & _ & ->)|(V1 & d' & sb & Hc & _ & _ & _ & [Hl _] & _ & [_ H1] & [H2 _])] H0 H12.
  { by rewrite Hd. }
  destruct block_size_1024 as [Hbs _]. rewrite H2 by lia. rewrite H1, Hbs, length_take, field_take by lia.
  split; [lia|]. rewrite (field_changed 4 _ _ _ _ _ Hc) by lia. rewrite page_field by (done || lia). by rewrite Hd.
Qed.

(** The numbers the descriptor holds. *)
Lemma tables_numbers V t :
  length (V (fdb + 1)) = 1024%nat -> tables_of md V = Ok t ->
  block_bitmap_number t = field 4 (V (fdb + 1)) 0 /\ inode_bitmap_number t = field 4 (V (fdb + 1)) 4 /\
  descriptor t = page md V (fdb + 1).
Proof.
  intros HV. unfold tables_of. rewrite !page_field by (done || lia). destruct (_ || _); [done|]. by intros [= <-].
Qed.

Lemma inode_table_field V : inode_table md V 0 = field 4 (V (fdb + 1)) 8.
Proof.
  destruct block_size_1024 as [Hbs _]. unfold inode_table. rewrite Hbs. by rewrite Z.add_0_r.
Qed.

(** Inodes are in one table, eight in a block. *)
Lemma inode_place V n : 0 < n <= inodes_count md ->
  (n - 1) / inodes_per_group md = 0 /\ (n - 1) mod inodes_per_group md = n - 1 /\
  inode_block md V n = inode_table md V 0 + (n - 1) / 8 /\ inode_offset md n = (n - 1) mod 8 * 128 /\
  (n - 1) / 8 < table_blocks md.
Proof.
  intros Hn. destruct Hwr as [_ Hbs _ His _ Hipg]. unfold inode_block, inode_offset, table_blocks.
  rewrite Z.div_small, Z.mod_small, His, Hbs by lia.
  assert ((n - 1) * 128 / 1024 = (n - 1) / 8) as ->.
  { change 1024 with (8 * 128). rewrite Z.div_mul_cancel_r by lia. done. }
  split_and!; [done..| |].
  - change 1024 with (8 * 128). by rewrite Z.mul_mod_distr_r by lia.
  - Z.to_euclidean_division_equations. lia.
Qed.

(** The bits of a bitmap that was written. *)
Lemma bit_page V x bm j :
  V x = take 1024 bm -> length bm = 4096%nat -> 0 <= j < 8192 -> bit_set (page md V x) j = bit_set bm j.
Proof.
  intros Hx Hl Hj. destruct (bit_index j 1024) as [Hq _]; [lia|]. unfold bit_set, page.
  rewrite lookup_app_l by (rewrite Hx, length_take; lia). by rewrite Hx, lookup_take_lt by lia.
Qed.

Lemma used_page V x bm b :
  V x = take 1024 bm -> length bm = 4096%nat -> data_block md b -> used md (page md V x) b = used md bm b.
Proof. intros Hx Hl [H1 H2]. pose proof (data_blocks_bits md Hwr). apply bit_page; [done|done|lia]. Qed.

(** ** What [write_file] leaves *)

(** The volume [V'] after the contents of [nb] went to [n], the blocks of [nb] as in
    [V1]; [added] says which block of the parent has a new entry, [old] which blocks were
    freed. *)
Record rewritten (V V' : View) (t : Tables) (nb : NewBlocks) (V1 : View) (n : Z) (new : Inode)
  (added : option (Z * list Z)) (old : list Z) : Prop := {
  rw_fields : forall off, 0 <= off -> off + 4 <= 12 -> field 4 (V' (fdb + 1)) off = field 4 (V (fdb + 1)) off;
  rw_new : forall b, b ∈ new_blocks nb -> V' b = V1 b;
  rw_inode : exists raw, length raw = 128%nat /\ parse_inode md raw = Ok new /\
    V' (inode_block md V n) =
      take 1024 (splice (page md V (inode_block md V n)) (Z.to_nat (inode_offset md n)) raw);
  rw_table : forall b, inode_table md V 0 <= b < inode_table md V 0 + table_blocks md ->
    b <> inode_block md V n -> V' b = V b;
  rw_added : forall b data, added = Some (b, data) -> V' b = data;
  rw_others : forall b, ~ reserved V t b -> b ∉ new_blocks nb -> (forall data, added <> Some (b, data)) -> V' b = V b;
  rw_tables : exists t', tables_of md V' = Ok t' /\ block_bitmap_number t' = block_bitmap_number t /\
    inode_bitmap_number t' = inode_bitmap_number t /\
    (forall b, data_block md b -> used md (block_bitmap t') b =
       (used md (block_bitmap t) b || bool_decide (b ∈ new_blocks nb)) && negb (bool_decide (b ∈ old))) /\
    (forall m, 0 < m <= inodes_count md -> bit_set (inode_bitmap t') (m - 1) =
       bit_set (inode_bitmap t) (m - 1) || (negb (is_none added) && bool_decide (m = n)));
}.

Section commit.
Context (V V1 V2 V' : View) (t : Tables) (parent : Inode) (name : list Z) (n : Z) (is_new : bool)
  (nb : NewBlocks) (bm : list Z) (count size sectors pn : Z) (old : list Z).
Context (HV : view_ok md V) (HV' : view_ok md V') (Hla : layout V t) (Hn : 0 < n <= inodes_count md).
Context (Hparent : clean V t pn parent).
Context (Hal : allocated md (block_bitmap t) (new_blocks nb) bm).
Context (Hwithin : within (new_blocks nb) V V1).
Context (Hcom : committed md t parent name n is_new bm nb (Z.of_nat (length (new_blocks nb))) count size sectors V1 V2).
Context (Hfree : blocks_freed md V2 V' old).

Lemma used_old b : used md (block_bitmap t) b = true -> b ∉ new_blocks nb.
Proof. intros Hu Hb. destruct (al_free _ _ _ _ Hal b Hb) as [_ Hf]. congruence. Qed.

Lemma reserved_old b : reserved V t b -> b ∉ new_blocks nb.
Proof. intros Hr. apply used_old, (la_used _ _ Hla b Hr). Qed.

Lemma descriptor_length : length (V (fdb + 1)) = 1024%nat.
Proof. destruct block_size_1024 as [Hbs _]. destruct (HV (fdb + 1)) as [Hl _]. rewrite Hl, Hbs. done. Qed.

Lemma inode_block_table : inode_table md V 0 <= inode_block md V n < inode_table md V 0 + table_blocks md.
Proof.
  destruct (inode_place V n Hn) as (_ & _ & -> & _ & Hlt). pose proof (Z.div_pos (n - 1) 8). lia.
Qed.

(** The bitmaps after their writes. *)
Lemma commit_bitmaps W1 W2 :
  (if Z.of_nat (length (new_blocks nb)) =? 0 then W1 = V1 else stored md V1 W1 (block_bitmap_number t) bm) ->
  (if is_new then exists inodes, inode_marked t n inodes /\ stored md W1 W2 (inode_bitmap_number t) inodes
   else W2 = W1) ->
  (forall b, b <> block_bitmap_number t -> b <> inode_bitmap_number t -> W2 b = V1 b) /\
  (forall b, data_block md b -> used md (page md W2 (block_bitmap_number t)) b =
     used md (block_bitmap t) b || bool_decide (b ∈ new_blocks nb)) /\
  (forall m, 0 < m <= inodes_count md -> bit_set (page md W2 (inode_bitmap_number t)) (m - 1) =
     bit_set (inode_bitmap t) (m - 1) || (is_new && bool_decide (m = n))).
Proof.
  intros H1 H2. destruct block_size_1024 as (Hbs & _). pose proof (la_bitmaps _ _ Hla) as Hne.
  destruct (tables_of_ok md Hwr V t HV (la_tables _ _ Hla)) as (_ & Hbb & Hib & _ & _ & _ & _ & _).
  assert (forall x, reserved V t x -> V1 x = V x) as HV1 by (intros; by apply Hwithin, reserved_old).
  assert ((forall b, b <> block_bitmap_number t -> W1 b = V1 b) /\
    forall b, data_block md b -> used md (page md W1 (block_bitmap_number t)) b =
      used md (block_bitmap t) b || bool_decide (b ∈ new_blocks nb)) as [Ho1 Hu1].
  { destruct (Z.eqb_spec (Z.of_nat (length (new_blocks nb))) 0) as [Hz|Hz].
    - subst W1. split; [done|]. intros b Hb. destruct (new_blocks nb) eqn:En; [|done].
      rewrite bool_decide_eq_false_2, orb_false_r, Hbb by apply not_elem_of_nil.
      by rewrite (page_same V V1) by (apply HV1; unfold reserved; auto).
    - destruct H1 as [Ho Hs]. rewrite Hbs in Hs. split; [done|]. intros b Hb.
      rewrite (used_page _ _ bm) by (done || apply (al_buffer _ _ _ _ Hal)). by apply (al_used _ _ _ _ Hal). }
  destruct is_new; cbn [andb].
  - destruct H2 as (inodes & [Hbuf Hbits] & Ho2 & Hs2). rewrite Hbs in Hs2. split_and!.
    + intros b Hb Hi. by rewrite Ho2, Ho1.
    + intros b Hb. rewrite (page_same W1 W2) by (by apply Ho2). by apply Hu1.
    + intros m Hm. pose proof (inode_bits md Hwr). rewrite (bit_page _ _ inodes) by (done || apply Hbuf || lia).
      rewrite Hbits by lia. case_decide.
      * rewrite (bool_decide_eq_true_2 (m = n)) by lia. by rewrite orb_true_r.
      * rewrite (bool_decide_eq_false_2 (m = n)) by lia. by rewrite orb_false_r.
  - subst W2. split_and!; [by auto|done|]. intros m Hm. rewrite orb_false_r, Hib.
    by rewrite (page_same V W1) by (rewrite Ho1 by done; apply HV1; unfold reserved; auto).
Qed.

(** The views between the writes agree with the first outside the metadata. *)
Lemma commit_counters : exists W3 W4,
  (forall b, b <> fdb -> b <> fdb + 1 -> b <> block_bitmap_number t -> b <> inode_bitmap_number t -> W3 b = V1 b) /\
  length (W3 (fdb + 1)) = 1024%nat /\
  (forall off, 0 <= off -> off + 4 <= 12 -> field 4 (W3 (fdb + 1)) off = field 4 (V (fdb + 1)) off) /\
  (forall b, data_block md b -> used md (page md W3 (block_bitmap_number t)) b =
     used md (block_bitmap t) b || bool_decide (b ∈ new_blocks nb)) /\
  (forall m, 0 < m <= inodes_count md -> bit_set (page md W3 (inode_bitmap_number t)) (m - 1) =
     bit_set (inode_bitmap t) (m - 1) || (is_new && bool_decide (m = n))) /\
  inode_written md W3 W4 n (file_inode nb size sectors) /\
  (if is_new then entry_added md W4 V2 parent name n else V2 = W4).
Proof.
  destruct Hcom as (W1 & W2 & W3 & W4 & H1 & H2 & H3 & H4 & H5). exists W3, W4.
  destruct (commit_bitmaps W1 W2 H1 H2) as (H12 & Hbb & Hib).
  destruct (tables_numbers V t descriptor_length (la_tables _ _ Hla)) as (_ & _ & Hd). rewrite Hd in H3.
  assert (W2 (fdb + 1) = V (fdb + 1)) as H2d.
  { rewrite H12; [apply Hwithin, reserved_old; right; by left| |]; apply not_eq_sym, (la_apart _ _ Hla); auto. }
  assert (forall b, b = block_bitmap_number t \/ b = inode_bitmap_number t -> W3 b = W2 b) as Hbm.
  { intros b Hb. destruct (la_apart _ _ Hla b Hb). by apply (counters_frame _ _ _ _ _ b H3). }
  split_and!; [| | | | |done|done].
  - intros b Hf Hf1 Hb Hi. rewrite (counters_frame _ _ _ _ _ b H3) by done. by apply H12.
  - by destruct (counters_fields V W2 W3 _ _ 0 descriptor_length H2d H3) as [Hl _]; [lia..|].
  - intros off H0 Hoff. destruct (counters_fields V W2 W3 _ _ off descriptor_length H2d H3 H0 Hoff) as [_ ->].
    by rewrite H2d.
  - intros b Hb. rewrite (page_same W2 W3) by auto. by apply Hbb.
  - intros m Hm. rewrite (page_same W2 W3) by auto. by apply Hib.
Qed.

(** The cleanup writes where the commit did. *)
Lemma freed_frame :
  length (V2 (fdb + 1)) = 1024%nat ->
  (forall off, 0 <= off -> off + 4 <= 12 -> field 4 (V2 (fdb + 1)) off = field 4 (V (fdb + 1)) off) ->
  (forall b, b <> fdb -> b <> fdb + 1 -> b <> block_bitmap_number t -> V' b = V2 b) /\
  (forall off, 0 <= off -> off + 4 <= 12 -> field 4 (V' (fdb + 1)) off = field 4 (V (fdb + 1)) off) /\
  (forall b, data_block md b -> used md (page md V' (block_bitmap_number t)) b =
     used md (page md V2 (block_bitmap_number t)) b && negb (bool_decide (b ∈ old))).
Proof.
  intros Hl Hfields. destruct Hfree as [[-> ->]|(t2 & bm2 & W & Ht2 & Hfr & [Ho Hs] & Hc)].
  { split_and!; [done|done|]. intros b _.
    by rewrite bool_decide_eq_false_2, andb_true_r by apply not_elem_of_nil. }
  destruct (tables_numbers V t descriptor_length (la_tables _ _ Hla)) as (Hb1 & _ & _).
  destruct (tables_numbers V2 t2 Hl Ht2) as (Hb2 & _ & Hd). rewrite Hd in Hc.
  rewrite (Hfields 0), <-Hb1 in Hb2 by lia. rewrite Hb2 in Ho, Hs.
  assert (W (fdb + 1) = V2 (fdb + 1)) as HW by (apply Ho, not_eq_sym, (la_apart _ _ Hla); auto).
  destruct block_size_1024 as [Hbs _]. rewrite Hbs in Hs. split_and!.
  - intros b Hf Hf1 Hb. rewrite (counters_frame _ _ _ _ _ b Hc) by done. by apply Ho.
  - intros off H0 Hoff. destruct (counters_fields V2 W V' _ _ off Hl HW Hc H0 Hoff) as [_ ->].
    rewrite HW. auto.
  - intros b Hb. destruct (la_apart _ _ Hla (block_bitmap_number t)) as [H1 H2]; [auto|].
    rewrite (page_same W V') by (by apply (counters_frame _ _ _ _ _ _ Hc)).
    rewrite (used_page _ _ bm2), (fr_after _ _ _ _ Hfr) by (done || apply (fr_buffer _ _ _ _ Hfr)).
    do 2 f_equal. unfold tables_of in Ht2. destruct (_ || _); [done|]. injection Ht2 as <-. cbn in *. by rewrite Hb2.
Qed.

(** The tables after all writes. *)
Lemma rewritten_tables (added : option (Z * list Z)) :
  is_new = negb (is_none added) ->
  (forall off, 0 <= off -> off + 4 <= 12 -> field 4 (V' (fdb + 1)) off = field 4 (V (fdb + 1)) off) ->
  (forall b, data_block md b -> used md (page md V' (block_bitmap_number t)) b =
     (used md (block_bitmap t) b || bool_decide (b ∈ new_blocks nb)) && negb (bool_decide (b ∈ old))) ->
  (forall m, 0 < m <= inodes_count md -> bit_set (page md V' (inode_bitmap_number t)) (m - 1) =
     bit_set (inode_bitmap t) (m - 1) || (is_new && bool_decide (m = n))) ->
  exists t', tables_of md V' = Ok t' /\ block_bitmap_number t' = block_bitmap_number t /\
    inode_bitmap_number t' = inode_bitmap_number t /\
    (forall b, data_block md b -> used md (block_bitmap t') b =
       (used md (block_bitmap t) b || bool_decide (b ∈ new_blocks nb)) && negb (bool_decide (b ∈ old))) /\
    (forall m, 0 < m <= inodes_count md -> bit_set (inode_bitmap t') (m - 1) =
       bit_set (inode_bitmap t) (m - 1) || (negb (is_none added) && bool_decide (m = n))).
Proof.
  intros Hnew Hfields Hbb Hib. destruct block_size_1024 as [Hbs _].
  assert (length (V' (fdb + 1)) = 1024%nat) as Hl' by (destruct (HV' (fdb + 1)) as [-> _]; by rewrite Hbs).
  destruct (tables_numbers V t descriptor_length (la_tables _ _ Hla)) as (H1 & H2 & _).
  destruct (tables_of_ok md Hwr V t HV (la_tables _ _ Hla)) as (_ & _ & _ & H3 & H4 & _).
  unfold tables_of. rewrite !page_field, !Hfields, <-H1, <-H2 by (done || lia).
  rewrite !(proj2 (Z.leb_gt _ _)) by lia. eexists. split; [done|]. cbn. by rewrite <-Hnew.
Qed.

(** An entry goes to a block of the parent. *)
Lemma entry_block b : single_block md parent b -> ~ reserved V t b /\ b ∉ new_blocks nb.
Proof.
  intros (_ & _ & Hb & Hr). destruct (cl_blocks _ _ _ _ Hparent b) as (_ & Hu & Hres).
  - apply uses_direct; [by eapply list_elem_of_lookup_2|lia].
  - split; [done|]. by apply used_old.
Qed.

(** The last write of the commit. *)
Lemma commit_entry W4 :
  (forall b, single_block md parent b -> W4 b = V b) ->
  (if is_new then entry_added md W4 V2 parent name n else V2 = W4) ->
  exists added,
    (forall b, (forall data, added <> Some (b, data)) -> V2 b = W4 b) /\
    (forall b data, added = Some (b, data) -> single_block md parent b /\ V2 b = data) /\
    (if is_new then exists b sp block, added = Some (b, take 1024 block) /\ single_block md parent b /\
       find_space MAX_RECORDS md (page md V b) (entry_size (Z.of_nat (length name))) 0 = Ok (Some sp) /\
       space_ok md (page md V b) (entry_size (Z.of_nat (length name))) sp /\
       placed md (page md V b) block sp name n
     else added = None).
Proof.
  intros Hpb Hentry. destruct block_size_1024 as (Hbs & _). destruct is_new; [|subst; by exists None].
  destruct Hentry as (b & sp & block & Hb & Hsp & Hok & Hpl & Ho & Hs).
  rewrite (page_same V W4 b (Hpb b Hb)) in *. rewrite Hbs in Hs. change (Z.to_nat 1024) with 1024%nat in Hs.
  exists (Some (b, take 1024 block)). split_and!.
  - intros b' Hb'. apply Ho. intros ->. by apply (Hb' (take 1024 block)).
  - by intros b' data [= <- <-].
  - by exists b, sp, block.
Qed.

Lemma commit_rewritten : exists added,
  rewritten V V' t nb V1 n (file_inode nb size sectors) added old /\
  (if is_new then exists b sp block, added = Some (b, take 1024 block) /\ single_block md parent b /\
     find_space MAX_RECORDS md (page md V b) (entry_size (Z.of_nat (length name))) 0 = Ok (Some sp) /\
     space_ok md (page md V b) (entry_size (Z.of_nat (length name))) sp /\
     placed md (page md V b) block sp name n
   else added = None).
Proof.
  destruct commit_counters as (W3 & W4 & Hframe & Hlen & Hfields & Hbb3 & Hib3 & Hinode & Hentry).
  destruct block_size_1024 as (Hbs & His & _). pose proof inode_block_table as Htab.
  destruct Hinode as (Hin & raw & [Hraw _] & Hparse & Ho4 & Hs4).
  assert (inode_block md W3 n = inode_block md V n) as Hib.
  { destruct (inode_place W3 n Hn) as (_ & _ & -> & _), (inode_place V n Hn) as (_ & _ & -> & _).
    by rewrite !inode_table_field, Hfields by lia. }
  rewrite Hib, His in *. set (ib := inode_block md V n) in *.
  assert (forall b, ~ reserved V t b -> W3 b = V1 b) as Hfree3.
  { intros b Hr. apply Hframe; intros ->; apply Hr; unfold reserved; auto. }
  assert (forall b, inode_table md V 0 <= b < inode_table md V 0 + table_blocks md -> W3 b = V b) as Htable3.
  { intros b Hb. rewrite Hframe by (intros ->; eapply (la_outside _ _ Hla); [|exact Hb]; auto).
    apply Hwithin, reserved_old. unfold reserved. auto. }
  assert (forall b, b <> ib -> W4 b = W3 b) as H4 by done. clear Ho4.
  assert (forall b, single_block md parent b -> W4 b = V b) as Hpb.
  { intros b Hb. destruct (entry_block b Hb) as [Hr Hnb]. rewrite H4, Hfree3 by (done || intros ->; apply Hr; unfold reserved; auto).
    by apply Hwithin. }
  destruct (commit_entry W4 Hpb Hentry) as (added & Hno & Hadd & Htail). exists added. split; [|exact Htail].
  assert (forall b, reserved V t b -> V2 b = W4 b) as Hres.
  { intros b Hr. apply Hno. intros data Heq. destruct (Hadd b data Heq) as [Hb _]. by destruct (entry_block b Hb). }
  assert (reserved V t (fdb + 1)) as Hrd by (unfold reserved; auto).
  assert (V2 (fdb + 1) = W3 (fdb + 1)) as Hd2.
  { rewrite Hres by done. apply H4. intros Heq. apply (la_outside _ _ Hla (fdb + 1)); [auto|]. by rewrite Heq. }
  destruct freed_frame as (Hf' & Hfields' & Hbb'); [by rewrite Hd2|by rewrite Hd2|].
  assert (forall b, inode_table md V 0 <= b < inode_table md V 0 + table_blocks md -> V' b = V2 b) as Htable'.
  { intros b Hb. apply Hf'; intros ->; eapply (la_outside _ _ Hla); [|exact Hb| |exact Hb| |exact Hb]; auto. }
  assert (forall b, ~ reserved V t b -> V' b = V2 b) as Hother'.
  { intros b Hr. apply Hf'; intros ->; apply Hr; unfold reserved; auto. }
  split.
  - exact Hfields'.
  - intros b Hb. assert (~ reserved V t b) as Hr by (intros Hr; by apply (reserved_old b Hr)).
    rewrite Hother', Hno by (done || intros data Heq; destruct (Hadd b data Heq) as [Hs _];
      by destruct (entry_block b Hs)).
    rewrite H4; [by apply Hfree3|]. intros ->. apply Hr. unfold reserved. auto.
  - exists raw. split_and!; [done|done|]. fold ib. rewrite Htable' by done.
    rewrite Hres by (unfold reserved; auto). rewrite Hs4, Hbs, (page_same V W3 ib (Htable3 ib Htab)). done.
  - intros b Hb Hne. rewrite Htable', Hres by (done || unfold reserved; auto). rewrite H4 by done. auto.
  - intros b data Heq. destruct (Hadd b data Heq) as [Hs <-]. apply Hother'. by destruct (entry_block b Hs).
  - intros b Hr Hb Hna. rewrite Hother', Hno by done.
    rewrite H4; [rewrite Hfree3 by done; by apply Hwithin|]. intros ->. apply Hr. unfold reserved. auto.
  - assert (forall b, b = block_bitmap_number t \/ b = inode_bitmap_number t -> V2 b = W3 b) as Hbm.
    { intros b Hb. rewrite Hres by (unfold reserved; tauto). apply H4. intros Heq.
      apply (la_outside _ _ Hla b); [tauto|]. by rewrite Heq. }
    apply rewritten_tables; [by destruct is_new; [destruct Htail as (? & ? & ? & -> & _)|subst]|done| |].
    + intros b Hb. rewrite Hbb', (page_same W3 V2) by auto. by rewrite Hbb3.
    + intros m Hm. destruct (la_apart _ _ Hla (inode_bitmap_number t)); [auto|].
      rewrite (page_same W3 V'); [by apply Hib3|].
      rewrite Hf' by (done || apply not_eq_sym, (la_bitmaps _ _ Hla)). auto.
Qed.
End commit.

(** ** Inodes after [write_file] *)

Lemma slice_page V b (data : list Z) x y :
  V b = take 1024 data -> length data = 4096%nat -> (y <= 1024)%nat -> slice (page md V b) x y = slice data x y.
Proof.
  intros Hb Hl Hy. apply slice_same. intros i Hi. unfold page. rewrite Hb, lookup_app_l by (rewrite length_take; lia).
  apply lookup_take_lt. lia.
Qed.

Section inodes.
Context (V V' : View) (t : Tables) (nb : NewBlocks) (V1 : View) (n : Z) (new : Inode) (added : option (Z * list Z)) (old : list Z).
Context (HV : view_ok md V) (Hla : layout V t) (Hn : 0 < n <= inodes_count md).
Context (Hrw : rewritten V V' t nb V1 n new added old).

Lemma rewritten_table : inode_table md V' 0 = inode_table md V 0.
Proof. rewrite !inode_table_field. apply (rw_fields _ _ _ _ _ _ _ _ _ Hrw); lia. Qed.

(** What [inode_of] is in a volume with this layout. *)
Lemma inode_of_layout W m : inode_table md W 0 = inode_table md V 0 -> 0 < m <= inodes_count md ->
  inode_of md W m = parse_inode md (slice (page md W (inode_block md V m)) (Z.to_nat (inode_offset md m))
    (Z.to_nat (inode_offset md m) + 128)).
Proof.
  intros Ht Hm. unfold inode_of. destruct (inode_place W m Hm) as (Hg & _ & Hb & Hoff & _).
  destruct (inode_place V m Hm) as (_ & _ & Hb' & _). destruct block_size_1024 as (_ & His & Hgc).
  rewrite (proj2 (Z.eqb_neq m 0)), (proj2 (Z.ltb_ge (inodes_count md) m)) by lia.
  rewrite Hg, Hgc, Ht. pose proof (la_table_end _ _ Hla).
  rewrite (proj2 (Z.ltb_ge (blocks_count md) _)) by lia. cbn [orb]. change (1 <=? 0) with false. cbv iota.
  rewrite Hb, Ht, <-Hb', His. do 2 f_equal. pose proof (Z.mod_pos_bound (m - 1) 8). lia.
Qed.

Lemma inode_place_in m : 0 < m <= inodes_count md -> 0 <= inode_offset md m /\ inode_offset md m + 128 <= 1024.
Proof.
  intros Hm. destruct (inode_place V m Hm) as (_ & _ & _ & -> & _). pose proof (Z.mod_pos_bound (m - 1) 8). lia.
Qed.

Lemma page_length b : length (page md V b) = 4096%nat.
Proof. apply (page_buffer md Hmd V b HV). Qed.

(** The bytes of an inode in the block that was written. *)
Lemma slice_rewritten x y : (y <= 1024)%nat ->
  exists raw, length raw = 128%nat /\ parse_inode md raw = Ok new /\
    slice (page md V' (inode_block md V n)) x y =
    slice (splice (page md V (inode_block md V n)) (Z.to_nat (inode_offset md n)) raw) x y /\
    (Z.to_nat (inode_offset md n) + length raw <= length (page md V (inode_block md V n)))%nat.
Proof.
  intros Hy. destruct (rw_inode _ _ _ _ _ _ _ _ _ Hrw) as (raw & Hraw & Hparse & Hs).
  destruct (inode_place_in n Hn) as [H1 H2]. set (off := Z.to_nat (inode_offset md n)) in *.
  assert (off + length raw <= length (page md V (inode_block md V n)))%nat as Hfit.
  { rewrite Hraw, page_length. unfold off. lia. }
  exists raw. split_and!; [done|done| |done]. apply slice_page; [done| |done].
  rewrite length_splice by done. apply page_length.
Qed.

Lemma inode_rewritten : inode_of md V' n = Ok new.
Proof.
  rewrite inode_of_layout by (done || apply rewritten_table). destruct (inode_place_in n Hn).
  destruct (slice_rewritten (Z.to_nat (inode_offset md n)) (Z.to_nat (inode_offset md n) + 128)) as
    (raw & Hraw & Hparse & -> & Hfit); [lia|].
  rewrite <-Hraw, slice_splice_same by done. done.
Qed.

Lemma inode_kept m : 0 < m <= inodes_count md -> m <> n -> inode_of md V' m = inode_of md V m.
Proof.
  intros Hm Hne. rewrite !inode_of_layout by (done || apply rewritten_table).
  apply (f_equal (parse_inode md)).
  destruct (inode_place_in n Hn), (inode_place_in m Hm).
  destruct (inode_place V n Hn) as (_ & _ & Hbn & Hon & _), (inode_place V m Hm) as (_ & _ & Hbm & Hom & Hlt).
  destruct (decide (inode_block md V m = inode_block md V n)) as [Heq|Hdiff].
  - rewrite Heq. destruct (slice_rewritten (Z.to_nat (inode_offset md m)) (Z.to_nat (inode_offset md m) + 128)) as
      (raw & Hraw & _ & -> & Hfit); [lia|].
    apply slice_splice_other; [done|]. rewrite Hraw.
    pose proof (Z.div_mod (m - 1) 8). pose proof (Z.div_mod (n - 1) 8). lia.
  - apply (f_equal (fun l => slice l _ _)), page_same, (rw_table _ _ _ _ _ _ _ _ _ Hrw); [|done].
    rewrite Hbm. pose proof (Z.div_pos (m - 1) 8). lia.
Qed.
End inodes.

(** ** The contents of the file that was written *)

Section contents.
Context (V : View) (nb : NewBlocks) (contents : list Z) (sectors : Z).
Context (HV : view_ok md V).
Context (Hnb : new_blocks_ok md nb (Z.of_nat (length contents))) (Hcw : contents_written md nb contents V).
Context (Hmax : Z.of_nat (length contents) <= 65804 * 1024).

#[local] Abbreviation new := (file_inode nb (Z.of_nat (length contents)) sectors).

Lemma new_block_pointer b : b ∈ new_blocks nb -> b <> 0 /\ check_pointer md b = Ok b /\ b < blocks_count md.
Proof.
  intros Hb. destruct (nb_in _ _ _ Hnb b Hb) as [H1 H2]. destruct block_size_1024 as [Hbs _].
  pose proof (ok_first_block _ Hmd) as Hf. rewrite Hbs in Hf. change (first_data_block md = 1) in Hf.
  unfold check_pointer. rewrite (proj2 (Z.leb_gt _ _)) by lia. rewrite andb_false_r. split_and!; [lia|done|lia].
Qed.

Lemma view_length b : length (V b) = 1024%nat.
Proof. destruct block_size_1024 as [Hbs _]. destruct (HV b) as [-> _]. by rewrite Hbs. Qed.

Lemma new_file_block (index : nat) b :
  nb_data nb !! index = Some b -> file_block md V new (Z.of_nat index) = Ok b.
Proof.
  intros Hb. destruct block_size_1024 as [Hbs _]. pose proof (lookup_lt_Some _ _ _ Hb) as Hlt.
  assert (b ∈ new_blocks nb) as Hin by (apply new_blocks_elem; right; right; right; by eapply list_elem_of_lookup_2).
  destruct (new_block_pointer b Hin) as (_ & Hcheck & _).
  pose proof (nb_data_count _ _ _ Hnb) as Hcount. unfold file_block. rewrite Hbs.
  change (1024 / 4) with 256. change (Z.of_nat DIRECT_BLOCKS) with 12. cbn [i_blocks i_single_indirect i_double_indirect file_inode].
  destruct (Z.ltb_spec (Z.of_nat index) 12).
  { rewrite Nat2Z.id, lookup_take_lt by (unfold DIRECT_BLOCKS; lia). by rewrite lookup_app_l, Hb by done. }
  destruct (Z.ltb_spec (Z.of_nat index - 12) 256).
  - pose proof (nb_single_needed _ _ _ Hnb) as Hs. rewrite (proj2 (Z.ltb_lt _ _)) in Hs by lia.
    cbn [negb] in Hs. rewrite Hs. cbv iota. bools. rewrite page_field by (apply view_length || lia).
    pose proof (cw_single _ _ _ _ Hcw Hs (index - 12)%nat) as Ht.
    replace (Z.of_nat (index - 12)) with (Z.of_nat index - 12) in Ht by lia. rewrite Ht by lia.
    replace (Z.to_nat 12 + (index - 12))%nat with index by lia. by rewrite Hb.
  - set (k := (Z.of_nat index - 12 - 256) / 256). set (j := (Z.of_nat index - 12 - 256) mod 256).
    assert (Z.of_nat index - 268 = 256 * k + j /\ 0 <= j < 256 /\ 0 <= k) as (Hkj & Hj & Hk).
    { unfold k, j. Z.to_euclidean_division_equations. lia. }
    pose proof (nb_leaf_count _ _ _ Hnb) as Hlc. pose proof (nb_leaf_max _ _ _ Hnb) as Hlm. rewrite <-Hcount in Hlc.
    destruct (div_ceil_spec (saturating_sub (Z.of_nat (length (nb_data nb))) 268) 256) as [Hdc _];
      [unfold saturating_sub; lia|lia|]. rewrite <-Hlc in Hdc. unfold saturating_sub in Hdc.
    assert (k < Z.of_nat (length (nb_leaves nb))) as Hkl by lia.
    destruct (lookup_lt_is_Some_2 (nb_leaves nb) (Z.to_nat k)) as [leaf Hleaf]; [lia|].
    rewrite (proj2 (Z.leb_gt 256 k)) by lia.
    pose proof (nb_double_needed _ _ _ Hnb) as Hd. rewrite bool_decide_eq_false_2 in Hd by (intros E0; by rewrite E0 in Hleaf).
    rewrite Hd. cbv iota zeta. bools.
    destruct (new_block_pointer leaf) as (Hl0 & _ & Hlb).
    { apply new_blocks_elem. right. right. left. by eapply list_elem_of_lookup_2. }
    rewrite !(page_field 4 V (nb_double nb)) by (apply view_length || lia).
    pose proof (cw_root _ _ _ _ Hcw _ _ Hleaf) as Hroot. rewrite Z2Nat.id in Hroot by lia. rewrite Hroot.
    rewrite (proj2 (Z.eqb_neq leaf 0)), (proj2 (Z.leb_gt _ leaf)) by lia.
    rewrite page_field by (apply view_length || lia).
    pose proof (cw_leaf _ _ _ _ Hcw _ _ Hleaf (Z.to_nat j)) as Ht. rewrite !Z2Nat.id in Ht by lia. rewrite Ht by lia.
    replace (Z.to_nat (268 + k * 256) + Z.to_nat j)%nat with index by lia. by rewrite Hb.
Qed.

Lemma new_block_count : inode_block_count md new = Ok (Z.of_nat (length (nb_data nb))).
Proof.
  destruct block_size_1024 as [Hbs _]. rewrite (nb_data_count _ _ _ Hnb).
  unfold inode_block_count, checked_add, checked_mul. rewrite Hbs. cbn [i_size file_inode].
  fold (div_ceil (Z.of_nat (length contents)) 1024).
  destruct (div_ceil_spec (Z.of_nat (length contents)) 1024) as [H1 _]; [lia..|].
  match goal with |- ?m ≫= _ = _ => change m with (Ok (E := E) 65804) end.
  rewrite Ok_bind, (proj2 (Z.ltb_ge _ _)) by lia. done.
Qed.

Lemma length_chunk i : length (chunk 1024 contents i) = 1024%nat.
Proof. unfold chunk. rewrite length_take, length_app, length_replicate. lia. Qed.

(** The chunks are the contents, with zeros at the end. *)
Lemma join_chunks n i :
  (length contents <= (i + n) * 1024)%nat ->
  take (length contents - i * 1024) (mjoin (chunk 1024 contents <$> seq i n)) = drop (i * 1024) contents.
Proof.
  revert i. induction n as [|n IH]; intros i Hl.
  { rewrite drop_ge by lia. apply take_nil. }
  cbn [seq fmap list_fmap mjoin list_join]. specialize (IH (S i) ltac:(lia)).
  destruct (decide (length contents - i * 1024 <= 1024)%nat) as [Hs|Hs].
  - rewrite take_app_le by (rewrite length_chunk; lia). unfold chunk. rewrite take_take.
    rewrite Nat.min_l by lia. rewrite take_app_le by (rewrite length_drop; lia).
    apply take_ge. rewrite length_drop. lia.
  - rewrite take_app_ge by (rewrite length_chunk; lia). rewrite length_chunk.
    replace (length contents - i * 1024 - 1024)%nat with (length contents - S i * 1024)%nat by lia.
    etrans; [apply (f_equal (app _)), IH|]. unfold chunk. rewrite take_app_le by (rewrite length_drop; lia).
    replace (S i * 1024)%nat with (i * 1024 + Z.to_nat 1024)%nat by lia. rewrite <-drop_drop. apply take_drop.
Qed.

Lemma new_data_from n i :
  (i + n = length (nb_data nb))%nat ->
  data_from md V new (Z.of_nat i) n = Ok (mjoin (chunk 1024 contents <$> seq i n)).
Proof.
  destruct block_size_1024 as [Hbs _].
  revert i. induction n as [|n IH]; intros i Hi; [done|]. cbn [data_from seq fmap list_fmap mjoin list_join].
  destruct (lookup_lt_is_Some_2 (nb_data nb) i) as [b Hb]; [lia|]. rewrite (new_file_block i b Hb), Ok_bind.
  replace (Z.of_nat i + 1) with (Z.of_nat (S i)) by lia. rewrite IH by lia. rewrite Ok_bind.
  unfold block_bytes. rewrite (proj2 (Z.eqb_neq b 0)), (cw_data _ _ _ _ Hcw i b Hb), Hbs; [done|].
  apply new_block_pointer, new_blocks_elem. right. right. right. by eapply list_elem_of_lookup_2.
Qed.

(** The inode reads as the contents. *)
Lemma new_contents : contents_of md V new (Z.of_nat (length contents)) = Ok contents.
Proof.
  unfold contents_of. rewrite new_block_count, Ok_bind. unfold file_bytes.
  rewrite <-(nb_data_count _ _ _ Hnb), Nat2Z.id.
  change (data_from md V new 0) with (data_from md V new (Z.of_nat 0)). rewrite new_data_from, Ok_bind by lia.
  pose proof (join_chunks (length (nb_data nb)) 0) as Hj. rewrite Nat.sub_0_r in Hj. rewrite Nat2Z.id, Hj; [done|].
  destruct block_size_1024 as [Hbs _]. pose proof (nb_data_count _ _ _ Hnb) as Hc. rewrite Hbs in Hc.
  destruct (div_ceil_spec (Z.of_nat (length contents)) 1024) as [H1 _]; lia.
Qed.

(** The file uses the new blocks. *)
Lemma new_uses b : uses V new b -> b ∈ new_blocks nb.
Proof.
  assert (forall c, c <> 0 -> forall i, c = default 0 (nb_data nb !! i) -> c ∈ new_blocks nb) as Hdata.
  { intros c Hc i Hi. destruct (nb_data nb !! i) as [x|] eqn:Hx; cbn in Hi; [|done]. subst c.
    apply new_blocks_elem. right. right. right. by eapply list_elem_of_lookup_2. }
  assert (forall k l, l <> 0 -> nb_double nb <> 0 -> 0 <= k < 256 -> l = field 4 (V (nb_double nb)) (k * 4) ->
    nb_leaves nb !! Z.to_nat k = Some l) as Hleaf.
  { intros k l Hl Hd Hk ->. pose proof (nb_double_needed _ _ _ Hnb) as Hn.
    rewrite (proj2 (Z.eqb_neq _ _) Hd) in Hn. symmetry in Hn. apply bool_decide_eq_false in Hn.
    destruct (nb_leaves nb !! Z.to_nat k) as [x|] eqn:Hx.
    - apply (cw_root _ _ _ _ Hcw) in Hx. rewrite Z2Nat.id in Hx by lia. by rewrite Hx.
    - apply lookup_ge_None in Hx. destruct Hl. rewrite <-(Z2Nat.id k) by lia. apply (cw_root_end _ _ _ _ Hcw Hn). lia. }
  intros [c Hc Hc0|Hs|j c Hs Hj -> Hc0|Hd|k c Hd Hk Hc Hc0|k l j c Hd Hk Hl Hl0 Hj -> Hc0]; cbn -[replicate DIRECT_BLOCKS] in *.
  - apply list_elem_of_lookup in Hc as [k Hk]. apply lookup_take_Some in Hk as [Hk _].
    apply (Hdata c Hc0 k). destruct (nb_data nb !! k) as [x|] eqn:Hx.
    + rewrite (lookup_app_l_Some _ _ _ _ Hx) in Hk. by injection Hk.
    + apply lookup_ge_None in Hx. rewrite lookup_app_r in Hk by done. by apply lookup_replicate in Hk as [-> _].
  - apply new_blocks_elem. auto.
  - apply (Hdata _ Hc0 (Z.to_nat 12 + Z.to_nat j)%nat). rewrite <-(Z2Nat.id j) at 1 by lia.
    apply (cw_single _ _ _ _ Hcw Hs). lia.
  - apply new_blocks_elem. auto.
  - apply new_blocks_elem. right. right. left. by eapply list_elem_of_lookup_2, Hleaf.
  - pose proof (cw_leaf _ _ _ _ Hcw _ _ (Hleaf k l Hl0 Hd Hk Hl) (Z.to_nat j)) as Ht.
    rewrite Z2Nat.id in Ht by lia. apply (Hdata _ Hc0 _ (Ht ltac:(lia))).
Qed.
End contents.

Lemma contents_written_same V V' nb contents :
  new_blocks_ok md nb (Z.of_nat (length contents)) -> (forall b, b ∈ new_blocks nb -> V' b = V b) ->
  contents_written md nb contents V -> contents_written md nb contents V'.
Proof.
  intros Hnb Hsame [H1 H2 H3 H4 H5].
  assert (nb_leaves nb <> [] -> V' (nb_double nb) = V (nb_double nb)) as Hd.
  { intros Hl. apply Hsame, new_blocks_elem. right. left. split; [done|]. pose proof (nb_double_needed _ _ _ Hnb) as Hn.
    rewrite bool_decide_eq_false_2 in Hn by done. by bools. }
  split.
  - intros i b Hi. rewrite Hsame; [by apply H1|]. apply new_blocks_elem. right. right. right.
    by eapply list_elem_of_lookup_2.
  - intros Hs. eapply table_at_same; [|by apply H2]. apply Hsame, new_blocks_elem. auto.
  - intros k leaf Hk. rewrite Hd by (intros El; by rewrite El in Hk). by apply H3.
  - intros Hl k Hk. rewrite Hd by done. by apply H4.
  - intros k leaf Hk. eapply table_at_same; [|by apply H5]. apply Hsame, new_blocks_elem. right. right. left.
    by eapply list_elem_of_lookup_2.
Qed.
End trip.
