(* ===== verification/Ext2Volume.v ===== *)
(** * Consistent volumes

    What a file system check would ask of a volume: the bitmaps mark the blocks and the
    inodes in use, no block belongs to two files, directories lead to inodes in use.
    [write_file] keeps it, the file reads as it was written, and the others as before. *)

From S2P Require Import Prelude Refine Utf8 FileSystem Disk Ext2 Ext2Bits Ext2Dir Ext2View Ext2Read Ext2Write Ext2Ops Ext2File Ext2Trip.

Local Open Scope Z_scope.

#[local] Abbreviation E := Ext2Error.t.

(** ** Paths *)

(** The last component of a path. *)
Lemma last_slash_spec path :
  match last_slash path with
  | Some i => path = take i path ++ 47 :: drop (S i) path /\ Forall (fun b => b <> 47) (drop (S i) path)
  | None => Forall (fun b => b <> 47) path
  end.
Proof.
  unfold last_slash. destruct (position _ _) as [i|] eqn:Hp; cbn.
  - apply position_Some in Hp as (a & Ha & Hfa & Hbefore). bools. subst a. pose proof (lookup_lt_Some _ _ _ Ha) as Hl.
    rewrite length_reverse in Hl. rewrite reverse_lookup in Ha by done.
    replace (length path - S i)%nat with (length path - 1 - i)%nat in Ha by lia. split.
    + symmetry. by apply take_drop_middle.
    + apply Forall_lookup. intros j b Hb. rewrite lookup_drop in Hb. pose proof (lookup_lt_Some _ _ _ Hb).
      apply Z.eqb_neq. apply (Hbefore (length path - S (S (length path - 1 - i) + j))%nat); [lia|].
      rewrite reverse_lookup by lia. rewrite <-Hb. f_equal. lia.
  - rewrite position_None in Hp. apply Forall_lookup. intros j b Hb. pose proof (lookup_lt_Some _ _ _ Hb).
    apply Z.eqb_neq, (Hp (length path - S j)%nat). rewrite reverse_lookup by lia. rewrite <-Hb. f_equal. lia.
Qed.

Section volume.
Context (md : Metadata) (Hwr : writable_ok md).

#[local] Definition Hmd : metadata_ok md := wr_ok md Hwr.

Lemma walk_app V p q n i :
  walk_of md V (p ++ q) n i =
  (found ← walk_of md V p n i; match found with Some (m, j) => walk_of md V q m j | None => Ok None end).
Proof.
  revert n i. induction p as [|c p IH]; intros n i; [done|]. cbn [app walk_of].
  case_bool_decide; [done|]. destruct (_ || _); [done|]. destruct (child_of md V i c) as [[k|]|e|]; try done.
  cbn. destruct (inode_of md V k) as [j|e|]; [|done|done]. cbn. apply IH.
Qed.

(** ** Consistency *)

(** An inode in use. *)
Definition live (V : View) (t : Tables) (n : Z) (i : Inode) : Prop :=
  inode_of md V n = Ok i /\ 0 < n <= inodes_count md /\ bit_set (inode_bitmap t) (n - 1) = true.

(** A directory of full blocks, without blocks of pointers, of inodes in use. *)
Record directory_ok (V : View) (t : Tables) (i : Inode) : Prop := {
  dk_single : i_single_indirect i = 0;
  dk_double : i_double_indirect i = 0;
  dk_size : (1024 | i_size i);
  dk_children : forall name m, child_of md V i name = Ok (Some m) -> exists j, live V t m j;
}.

Record consistent (V : View) (t : Tables) : Prop := {
  co_layout : layout md V t;
  co_blocks : forall n i b, live V t n i -> uses V i b ->
    data_block md b /\ used md (block_bitmap t) b = true /\ ~ reserved md V t b;
  co_disjoint : forall n m i j b, live V t n i -> live V t m j -> uses V i b -> uses V j b -> n = m;
  co_directory : forall n i, live V t n i -> is_directory i = true -> directory_ok V t i;
  co_root : exists i, live V t ROOT_INODE i;
}.

Lemma live_inode V t n i j : live V t n i -> live V t n j -> i = j.
Proof. intros [Hi _] [Hj _]. rewrite Hi in Hj. by injection Hj. Qed.

Lemma consistent_clean V t n i : consistent V t -> live V t n i -> clean md V t n i.
Proof. intros Hco [Hi [Hn Hb]]. split; [done|done|done|]. intros b Hu. by apply (co_blocks _ _ Hco n i b). Qed.

(** Paths lead to inodes in use. *)
Lemma walk_live V t p n i m j :
  consistent V t -> live V t n i -> walk_of md V p n i = Ok (Some (m, j)) -> live V t m j.
Proof.
  intros Hco. revert n i. induction p as [|c p IH]; intros n i Hl; cbn [walk_of]; [by intros [= <- <-]|].
  case_bool_decide; [by apply IH|]. destruct (safe_component c), (is_directory i) eqn:Hd; try done.
  intros (found & Hf & Hw)%bind_Ok_inv. destruct found as [k|]; [|done].
  destruct (dk_children _ _ _ (co_directory _ _ Hco n i Hl Hd) c k Hf) as [ci Hci].
  rewrite (proj1 Hci) in Hw. by apply (IH k ci).
Qed.

Lemma path_live V t path m j : consistent V t -> path_of md V path = Ok (Some (m, j)) -> live V t m j.
Proof.
  intros Hco. destruct (co_root _ _ Hco) as [r Hr]. unfold path_of. rewrite (proj1 Hr). by apply walk_live.
Qed.

(** The directory of a path and the name in it. *)
Definition split_path (path : list Z) : list Z * list Z :=
  match last_slash path with
  | Some index => (take index path, drop (S index) path)
  | None => ([], path)
  end.

Lemma walk_split V path n i :
  walk_of md V (split_slash path) n i = walk_of md V (split_slash (split_path path).1 ++ [(split_path path).2]) n i.
Proof.
  unfold split_path. pose proof (last_slash_spec path) as Hls. destruct (last_slash path) as [k|]; cbn [fst snd].
  - destruct Hls as [Hp Hn]. rewrite Hp at 1. by rewrite split_slash_app, (split_slash_none (drop _ _)).
  - by rewrite split_slash_none.
Qed.

(** The parent of a path is where the path of the directory leads. *)
Lemma parent_path V path pn parent name :
  view_ok md V -> parent_of md V path = Ok (pn, parent, name) ->
  name = (split_path path).2 /\ path_of md V (split_path path).1 = Ok (Some (pn, parent)).
Proof.
  intros HV. unfold parent_of. fold (split_path path). destruct (split_path path) as [p nm]. cbn [fst snd].
  destruct (negb (safe_component nm)); [done|]. destruct (existsb _ _); [done|].
  intros (number & Hnum & Hpar)%bind_Ok_inv. apply bind_Ok_inv in Hpar as (par & Hpi & Hpar).
  destruct (negb _); [done|]. injection Hpar as -> -> ->. split; [done|]. unfold directory_number in Hnum.
  destruct (bool_decide (p = []) || bool_decide (p = [47])) eqn:Hroot.
  - injection Hnum as <-. unfold path_of. rewrite Hpi. apply orb_true_iff in Hroot as [Hp|Hp];
      apply bool_decide_eq_true in Hp; by subst p.
  - apply bind_Ok_inv in Hnum as (f & _ & Hnum). apply bind_Ok_inv in Hnum as (d & _ & Hnum).
    destruct (negb _); [done|]. apply bind_Ok_inv in Hnum as (f' & Hf' & Hnum%ok_or_Ok_inv). subst f'.
    unfold path_number in Hf'. apply bind_Ok_inv in Hf' as ([[m j]|] & Hpath & Hf'); [|done].
    injection Hf' as ->. destruct (path_of_inode md Hmd V p pn j HV Hpath) as (_ & Hj & _). congruence.
Qed.

(** What the path of a file resolves to, when the parent is known. *)
Lemma path_through V path pn parent name n i :
  path_of md V (split_path path).1 = Ok (Some (pn, parent)) -> name = (split_path path).2 ->
  safe_component name = true -> is_directory parent = true ->
  child_of md V parent name = Ok (Some n) -> inode_of md V n = Ok i ->
  path_of md V path = Ok (Some (n, i)).
Proof.
  unfold path_of. intros (r & Hr & Hw)%bind_Ok_inv -> Hs Hd Hc Hi. rewrite Hr, Ok_bind, walk_split, walk_app, Hw, Ok_bind.
  cbn [walk_of]. rewrite Hs, Hd. cbn [negb orb]. case_bool_decide as Hempty; [by rewrite Hempty in Hs|].
  rewrite Hc, Ok_bind, Hi. done.
Qed.

(** ** Directories with blocks that did not change *)

Lemma child_blocks_same V V' k i name index remaining :
  view_ok md V -> view_ok md V' -> inode_ok md i -> (forall b, uses V i b -> V' b = V b) -> 0 <= index ->
  child_in_blocks md V' k i name index remaining = child_in_blocks md V k i name index remaining.
Proof.
  intros HV HV' Hi Hsame. revert index remaining. induction k as [|k IH]; intros index remaining Hx; [done|].
  cbn [child_in_blocks]. rewrite (file_block_same md Hwr V V' i index) by done.
  destruct (file_block md V i index) as [b|e|] eqn:Hb; [|done|done]. rewrite !Ok_bind.
  destruct (Z.eqb_spec b 0) as [|Hb0]; [done|].
  rewrite (page_same md V V') by (apply Hsame; by eapply (file_block_uses md Hwr V)).
  destruct (find_in_block _ _ _ _ _ _) as [[m|]|e|]; [done| |done|done]. rewrite !Ok_bind. apply IH. lia.
Qed.

Lemma child_same V V' i name :
  view_ok md V -> view_ok md V' -> inode_ok md i -> (forall b, uses V i b -> V' b = V b) ->
  child_of md V' i name = child_of md V i name.
Proof.
  intros HV HV' Hi Hsame. unfold child_of. destruct (negb _); [done|].
  destruct (inode_block_count md i) as [c|e|]; [|done|done]. rewrite !Ok_bind. by apply child_blocks_same.
Qed.

(** Files whose blocks did not change. *)
Lemma data_same V V' i index k :
  view_ok md V -> view_ok md V' -> inode_ok md i -> (forall b, uses V i b -> V' b = V b) -> 0 <= index ->
  data_from md V' i index k = data_from md V i index k.
Proof.
  intros HV HV' Hi Hsame. revert index. induction k as [|k IH]; intros index Hx; [done|].
  cbn [data_from]. rewrite (file_block_same md Hwr V V' i index) by done.
  destruct (file_block md V i index) as [b|e|] eqn:Hb; [|done|done]. rewrite !Ok_bind, IH by lia.
  unfold block_bytes. destruct (Z.eqb_spec b 0) as [|Hb0]; [done|].
  by rewrite Hsame by (by eapply (file_block_uses md Hwr V)).
Qed.

Lemma contents_same V V' i k :
  view_ok md V -> view_ok md V' -> inode_ok md i -> (forall b, uses V i b -> V' b = V b) ->
  contents_of md V' i k = contents_of md V i k.
Proof. intros HV HV' Hi Hsame. unfold contents_of, file_bytes. by rewrite (data_same V V'). Qed.

(** ** Single-block directories *)

Lemma find_none_entries block limit child f off :
  buffer block -> limit <= 4096 -> 0 <= off ->
  find_in_block f md block limit child off = Ok None -> exists l, dir_entries f md block limit off = Ok l.
Proof.
  intros Hb Hlim. revert off. induction f as [|f IH]; intros off Ho; simpl find_in_block; simpl dir_entries;
    (destruct (Z.ltb_spec limit (off + 8)), (Z.leb_spec (off + 8) limit); try lia; cbn [negb]; [by eauto|]); [done|].
  rewrite dir_record_eq by (done || lia). destruct (record_ok md block limit off) eqn:Hr; [|done].
  rewrite Ok_bind, (record_name_ok md block limit off), Ok_bind by done. cbn [negb orb].
  apply record_ok_spec in Hr; [|apply Hb].
  destruct (Z.ltb_spec (inodes_count md) (field 4 block off)) as [Hi|Hi].
  { destruct (Z.eqb_spec (field 4 block off) 0) as [Hz|]; [|done]. pose proof (ok_inodes _ Hmd).
    unfold ROOT_INODE in *. lia. }
  rewrite andb_false_r. destruct (_ && _); [done|]. intros Hf. destruct (IH (off + record_len block off)) as [l ->]; [lia|done|].
  rewrite Ok_bind. eauto.
Qed.

Lemma child_single V i b name :
  single_block md i b -> (1024 | i_size i) -> inode_ok md i ->
  child_of md V i name = find_in_block MAX_RECORDS md (page md V b) 1024 name 0.
Proof.
  intros (Hd & Hc & Hb & Hr) [q Hq] Hi. destruct (block_size_1024 md Hwr) as [Hbs _].
  pose proof (inode_block_count_spec md Hmd i Hi) as Hcount. rewrite Hc in Hcount. destruct Hcount as [Hcount _].
  rewrite Hbs in Hcount. destruct (div_ceil_spec (i_size i) 1024) as [Hdc _]; [apply (io_size _ _ Hi)|lia|].
  rewrite <-Hcount in Hdc. assert (i_size i = 1024) as Hsize by lia.
  unfold child_of. rewrite Hd, Hc, Ok_bind. cbn [negb]. change (Z.to_nat 1) with 1%nat. cbn [child_in_blocks].
  unfold file_block. change (0 <? Z.of_nat DIRECT_BLOCKS) with true. change (Z.to_nat 0) with 0%nat. cbv iota.
  rewrite Hb, Ok_bind. cbn [default id]. rewrite (proj2 (Z.eqb_neq b 0)), Hsize, Hbs by lia. change (Z.min 1024 1024) with 1024.
  by destruct (find_in_block _ _ _ _ _ _) as [[m|]|e|].
Qed.

(** A block that was changed before its end, read back. *)
Lemma page_changed V V' b block x y :
  view_ok md V -> buffer block -> changed (page md V b) block x y -> y <= 1024 -> V' b = take 1024 block ->
  page md V' b = block.
Proof.
  intros HV [Hl _] Hc Hy Hb. destruct (block_size_1024 md Hwr) as [Hbs _]. destruct (HV b) as [Hlb _].
  unfold page in *. rewrite Hb, Hbs in *. rewrite <-(take_drop 1024 block) at 2. f_equal.
  apply list_eq. intros j. rewrite !lookup_drop. rewrite Hc by lia. rewrite lookup_app_r by lia.
  rewrite Hlb, lookup_drop. f_equal. lia.
Qed.

(** A new entry is found, and the others as before. *)
Lemma entry_found V V' i b sp block name n :
  view_ok md V -> inode_ok md i -> single_block md i b -> (1024 | i_size i) -> 0 < n <= inodes_count md ->
  find_space MAX_RECORDS md (page md V b) (entry_size (Z.of_nat (length name))) 0 = Ok (Some sp) ->
  space_ok md (page md V b) (entry_size (Z.of_nat (length name))) sp ->
  placed md (page md V b) block sp name n -> V' b = take 1024 block ->
  child_of md V i name = Ok None ->
  child_of md V' i name = Ok (Some n) /\ forall x, x <> name -> child_of md V' i x = child_of md V i x.
Proof.
  intros HV Hi Hsb Hdiv Hn Hsp Hok Hpl Hb Hnone. destruct (block_size_1024 md Hwr) as [Hbs _].
  pose proof (page_buffer md Hmd V b HV) as Hbuf.
  destruct (record_ok_spec md _ _ _ (proj2 Hbuf) (sp_record _ _ _ _ Hok)) as (_ & _ & Hend & _).
  rewrite <-(sp_len _ _ _ _ Hok), Hbs in Hend.
  pose proof (page_changed V V' b block _ _ HV (pl_buffer _ _ _ _ _ _ Hpl) (pl_others _ _ _ _ _ _ Hpl) Hend Hb) as Hpage.
  rewrite (child_single V i b) in Hnone by done.
  destruct (find_none_entries _ 1024 name MAX_RECORDS 0 Hbuf ltac:(lia) ltac:(lia) Hnone) as [l Hl].
  rewrite <-Hbs in Hl. destruct (place_entries md (page md V b) block sp name n Hbuf ltac:(lia) Hn Hok Hpl MAX_RECORDS
    ltac:(apply enough_start; lia) MAX_RECORDS 0 l ltac:(lia) Hsp Hl) as (l1 & l2 & -> & Hl').
  rewrite Hbs in Hl, Hl'.
  pose proof (fun x => find_in_block_entries md _ 1024 x _ 0 _ Hbuf ltac:(lia) ltac:(lia) Hl) as Hf.
  pose proof (fun x => find_in_block_entries md _ 1024 x _ 0 _ (pl_buffer _ _ _ _ _ _ Hpl) ltac:(lia) ltac:(lia) Hl') as Hf'.
  rewrite Hf, entry_inode_app in Hnone. injection Hnone as Hnone.
  split; [|intros x Hx]; rewrite !(child_single _ i b), Hpage, Hf', ?Hf, !entry_inode_app by done; cbn [entry_inode].
  - destruct (entry_inode name l1); [done|]. by rewrite bool_decide_eq_true_2.
  - by rewrite bool_decide_eq_false_2.
Qed.

(** ** After a file was written *)

Lemma regular_not_directory i : is_regular i = true -> is_directory i = false.
Proof. unfold is_regular, is_directory. intros ->%Z.eqb_eq. done. Qed.

Lemma uses_same V V' i b :
  (i_single_indirect i = 0 /\ i_double_indirect i = 0) \/ (forall c, uses V i c -> V' c = V c) ->
  uses V' i b -> uses V i b.
Proof.
  intros Hsame Hu. destruct Hsame as [[Hs Hd]|Hsame].
  { by destruct Hu; [apply uses_direct|..]. }
  destruct Hu as [c Hc Hc0|Hs|j c Hs Hj -> Hc0|Hd|k c Hd Hk -> Hc0|k l j c Hd Hk -> Hl0 Hj -> Hc0].
  - by apply uses_direct.
  - by apply uses_single.
  - rewrite Hsame in * by (by apply uses_single). by apply (uses_single_pointer V i j).
  - by apply uses_double.
  - rewrite Hsame in * by (by apply uses_double). by apply (uses_leaf V i k).
  - rewrite !(Hsame (i_double_indirect i)) in * by (by apply uses_double).
    rewrite Hsame in * by (by apply (uses_leaf V i k)). by eapply (uses_leaf_pointer V i k _ j).
Qed.

Section after.
Context (V V' V1 : View) (t t' : Tables) (nb : NewBlocks) (n : Z) (new : Inode) (added : option (Z * list Z))
  (old : list Z) (pn : Z) (parent : Inode) (name : list Z).
Context (HV : view_ok md V) (HV' : view_ok md V') (Hco : consistent V t).
Context (Hpn : live V t pn parent) (Hpd : is_directory parent = true) (Hn : 0 < n <= inodes_count md).
Context (Hfile : forall i, live V t n i -> is_regular i = true) (Hreg : is_regular new = true).
Context (Hrw : rewritten md V V' t nb V1 n new added old).
Context (Hfree : forall b, b ∈ new_blocks nb -> data_block md b /\ used md (block_bitmap t) b = false).
Context (Huses : forall b, uses V' new b -> b ∈ new_blocks nb).
Context (Hold : forall b, b ∈ old -> exists i, live V t n i /\ uses V i b).
Context (Hentry : match added with
  | Some (b, data) => child_of md V parent name = Ok None /\ single_block md parent b /\
      exists sp block, data = take 1024 block /\
        find_space MAX_RECORDS md (page md V b) (entry_size (Z.of_nat (length name))) 0 = Ok (Some sp) /\
        space_ok md (page md V b) (entry_size (Z.of_nat (length name))) sp /\ placed md (page md V b) block sp name n
  | None => child_of md V parent name = Ok (Some n)
  end).

Lemma directory_not_n m i : live V t m i -> is_directory i = true -> m <> n.
Proof. intros Hl Hd ->. by rewrite (regular_not_directory i (Hfile i Hl)) in Hd. Qed.

Lemma live_ok m i : live V t m i -> inode_ok md i.
Proof. intros (Hi & Hm & _). eapply (inode_of_ok md Hmd V m); [done|lia|done]. Qed.

(** The blocks of the other files are as they were. *)
Lemma blocks_kept m i b :
  live V t m i -> uses V i b -> m <> pn \/ (forall data, added <> Some (b, data)) -> V' b = V b.
Proof.
  intros Hl Hu Hadd. destruct (co_blocks _ _ Hco m i b Hl Hu) as (_ & Hused & Hres).
  apply (rw_others _ _ _ _ _ _ _ _ _ _ Hrw); [done| |].
  - intros Hb. destruct (Hfree b Hb) as [_ Hf]. congruence.
  - intros data Heq. destruct Hadd as [Hm|Hadd]; [|by apply (Hadd data)]. apply Hm.
    rewrite Heq in Hentry. destruct Hentry as (_ & (_ & _ & Hb & Hr) & _).
    apply (co_disjoint _ _ Hco m pn i parent b); [done|done|done|]. apply uses_direct; [|lia].
    by eapply list_elem_of_lookup_2.
Qed.

(** The entries of the directories are those they had, and the new one. *)
Lemma children_kept m i x :
  live V t m i -> is_directory i = true ->
  child_of md V' i x = if decide (m = pn /\ x = name) then Ok (Some n) else child_of md V i x.
Proof.
  intros Hl Hd. pose proof (live_ok m i Hl) as Hi. pose proof (fun b => blocks_kept m i b Hl) as Hkept.
  destruct added as [[b data]|] eqn:Ha.
  - destruct Hentry as (Hnone & Hsb & sp & block & -> & Hsp & Hok & Hpl).
    destruct (decide (m = pn)) as [->|Hm].
    + rewrite (live_inode V t pn i parent) in * by done.
      destruct (entry_found V V' parent b sp block name n) as [Hname Hothers]; try done.
      * apply (dk_size _ _ _ (co_directory _ _ Hco pn parent Hpn Hpd)).
      * by apply (rw_added _ _ _ _ _ _ _ _ _ _ Hrw).
      * destruct (decide (x = name)) as [->|Hx].
        -- rewrite decide_True by done. done.
        -- rewrite decide_False by tauto. by apply Hothers.
    + rewrite decide_False by tauto. apply child_same; [done..|]. intros c Hc.
      apply (Hkept c Hc). by left.
  - assert (child_of md V' i x = child_of md V i x) as ->.
    { apply child_same; [done..|]. intros c Hc. apply (Hkept c Hc). by right. }
    case_decide as Hx; [|done]. destruct Hx as [-> ->]. by rewrite (live_inode V t pn i parent).
Qed.

Lemma child_kept m i x q :
  live V t m i -> is_directory i = true -> child_of md V i x = Ok (Some q) -> child_of md V' i x = Ok (Some q).
Proof.
  intros Hl Hd Hc. rewrite (children_kept m i x Hl Hd). case_decide as Hx; [|done]. destruct Hx as [-> ->].
  rewrite (live_inode V t pn i parent) in Hc by done. destruct added as [[b data]|]; [|congruence].
  destruct Hentry as [Hnone _]. congruence.
Qed.

(** A walk that does not end at the file. *)
Lemma walk_file p i k j :
  is_directory i = false -> walk_of md V p n i = Ok (Some (k, j)) -> k = n.
Proof.
  intros Hd. induction p as [|c p IH]; cbn [walk_of]; [by intros [= <- <-]|].
  case_bool_decide; [done|]. rewrite Hd, orb_true_r. done.
Qed.

Lemma walk_kept p m i k j :
  live V t m i -> walk_of md V p m i = Ok (Some (k, j)) -> k <> n -> walk_of md V' p m i = Ok (Some (k, j)).
Proof.
  revert m i. induction p as [|c p IH]; intros m i Hl; [done|]. cbn [walk_of].
  case_bool_decide; [by apply IH|]. destruct (_ || _) eqn:Hb; [done|]. bools.
  intros (found & Hf & Hw)%bind_Ok_inv Hk. destruct found as [q|]; [|done].
  rewrite (child_kept m i c q) by done. rewrite Ok_bind. apply bind_Ok_inv in Hw as (ci & Hci & Hw).
  destruct (dk_children _ _ _ (co_directory _ _ Hco m i Hl ltac:(done)) c q Hf) as [ci' Hlive].
  assert (ci' = ci) as -> by (destruct Hlive as [Hci' _]; congruence).
  destruct (decide (q = n)) as [->|Hq].
  { destruct Hk. eapply walk_file; [|exact Hw]. by apply regular_not_directory, Hfile. }
  rewrite (inode_kept md Hwr V V' t nb V1 n new added old) by (done || apply (co_layout _ _ Hco) || apply Hlive).
  rewrite Hci, Ok_bind. by apply IH.
Qed.

(** Other paths lead to the inodes they led to. *)
Lemma path_kept path k j : path_of md V path = Ok (Some (k, j)) -> k <> n -> path_of md V' path = Ok (Some (k, j)).
Proof.
  destruct (co_root _ _ Hco) as [r Hr]. unfold path_of. rewrite (proj1 Hr), Ok_bind. intros Hw Hk.
  destruct (decide (ROOT_INODE = n)) as [Hroot|Hroot].
  { destruct Hk. rewrite Hroot in Hr, Hw. eapply walk_file; [|exact Hw]. by apply regular_not_directory, Hfile. }
  rewrite (inode_kept md Hwr V V' t nb V1 n new added old) by (done || apply (co_layout _ _ Hco) || apply Hr).
  rewrite (proj1 Hr), Ok_bind. by apply walk_kept.
Qed.

(** The path of the file leads to the new inode. *)
Lemma path_written path :
  path_of md V (split_path path).1 = Ok (Some (pn, parent)) -> name = (split_path path).2 ->
  safe_component name = true -> path_of md V' path = Ok (Some (n, new)).
Proof.
  intros Hp Hname Hs. pose proof (directory_not_n pn parent Hpn Hpd) as Hne.
  eapply path_through; [by apply path_kept|done|done|done| |].
  - rewrite (children_kept pn parent) by done. by rewrite decide_True.
  - eapply (inode_rewritten md Hwr V V' t nb V1 n new added old); [done|apply (co_layout _ _ Hco)|done|done].
Qed.

(** The other files have the contents they had. *)
Lemma contents_kept m i k :
  live V t m i -> is_directory i = false -> contents_of md V' i k = contents_of md V i k.
Proof.
  intros Hl Hd. apply contents_same; [done|done|by eapply live_ok|]. intros b Hb. apply (blocks_kept m i b Hl Hb).
  left. intros ->. rewrite (live_inode V t pn i parent) in Hd by done. congruence.
Qed.

(** ** Consistency is kept *)

Context (Ht' : tables_of md V' = Ok t').
Context (Hnum : block_bitmap_number t' = block_bitmap_number t /\ inode_bitmap_number t' = inode_bitmap_number t).
Context (Hused' : forall b, data_block md b -> used md (block_bitmap t') b =
  (used md (block_bitmap t) b || bool_decide (b ∈ new_blocks nb)) && negb (bool_decide (b ∈ old))).
Context (Hbits' : forall m, 0 < m <= inodes_count md -> bit_set (inode_bitmap t') (m - 1) =
  bit_set (inode_bitmap t) (m - 1) || (negb (is_none added) && bool_decide (m = n))).

Lemma reserved_after b : reserved md V' t' b <-> reserved md V t b.
Proof.
  unfold reserved. destruct Hnum as [-> ->].
  by rewrite (rewritten_table md Hwr V V' t nb V1 n new added old Hrw).
Qed.

Lemma live_before m i : m <> n -> live V' t' m i <-> live V t m i.
Proof.
  intros Hm. unfold live.
  assert (0 < m <= inodes_count md -> inode_of md V' m = inode_of md V m /\
    bit_set (inode_bitmap t') (m - 1) = bit_set (inode_bitmap t) (m - 1)) as Hsame.
  { intros Hr. split.
    - exact (inode_kept md Hwr V V' t nb V1 n new added old HV (co_layout _ _ Hco) Hn Hrw m Hr Hm).
    - rewrite Hbits' by exact Hr. by rewrite bool_decide_eq_false_2, andb_false_r, orb_false_r. }
  split; intros (Hi & Hr & Hb); destruct (Hsame Hr) as [H1 H2].
  - rewrite H1 in Hi. rewrite H2 in Hb. auto.
  - rewrite H1, H2. auto.
Qed.

Lemma live_new : live V' t' n new.
Proof.
  split; [exact (inode_rewritten md Hwr V V' t nb V1 n new added old HV (co_layout _ _ Hco) Hn Hrw)|].
  split; [done|]. rewrite Hbits' by done. destruct added as [[b data]|]; cbn.
  - by rewrite bool_decide_eq_true_2, orb_true_r.
  - destruct (dk_children _ _ _ (co_directory _ _ Hco pn parent Hpn Hpd) name n Hentry) as [i (_ & _ & ->)]. done.
Qed.

Lemma live_after m i : live V' t' m i -> (m = n /\ i = new) \/ (m <> n /\ live V t m i).
Proof.
  intros Hl. destruct (decide (m = n)) as [->|Hm]; [left|right].
  - split; [done|]. apply (live_inode V' t' n i new Hl live_new).
  - split; [done|]. by apply live_before.
Qed.

Lemma uses_after m i b : live V t m i -> m <> n -> uses V' i b -> uses V i b.
Proof.
  intros Hl Hm. apply uses_same. destruct (decide (m = pn)) as [->|Hpm].
  - left. rewrite (live_inode V t pn i parent) by done.
    destruct (co_directory _ _ Hco pn parent Hpn Hpd) as [Hs Hd _ _]. done.
  - right. intros c Hc. apply (blocks_kept m i c Hl Hc). by left.
Qed.

Lemma layout_after : layout md V' t'.
Proof.
  pose proof (co_layout _ _ Hco) as Hla. pose proof (rewritten_table md Hwr V V' t nb V1 n new added old Hrw) as Htab.
  destruct Hnum as [Hbb Hib]. split; [done|rewrite Htab; apply Hla| |rewrite Hbb, Hib; apply Hla|
    rewrite Hbb, Hib; apply Hla|rewrite Htab, Hbb, Hib; apply Hla].
  intros b Hr%reserved_after. destruct (la_used _ _ _ Hla b Hr) as [Hd Hu]. split; [done|].
  rewrite Hused', Hu by done. cbn. apply negb_true_iff, bool_decide_eq_false. intros Hb.
  destruct (Hold b Hb) as (i & Hl & Hi). by destruct (co_blocks _ _ Hco n i b Hl Hi) as (_ & _ & Hn').
Qed.

Lemma blocks_after m i b : live V' t' m i -> uses V' i b ->
  data_block md b /\ used md (block_bitmap t') b = true /\ ~ reserved md V' t' b.
Proof.
  intros [[-> ->]|[Hm Hl]]%live_after Hu.
  - apply Huses in Hu. destruct (Hfree b Hu) as [Hd Hf]. split_and!; [done| |].
    + rewrite Hused', (bool_decide_eq_true_2 (b ∈ new_blocks nb)), orb_true_r by done. cbn.
      apply negb_true_iff, bool_decide_eq_false. intros Hb. destruct (Hold b Hb) as (i & Hl & Hi).
      destruct (co_blocks _ _ Hco n i b Hl Hi) as (_ & Ht & _). congruence.
    + intros Hr%reserved_after. destruct (la_used _ _ _ (co_layout _ _ Hco) b Hr) as [_ Ht]. congruence.
  - apply (uses_after m i b Hl Hm) in Hu. destruct (co_blocks _ _ Hco m i b Hl Hu) as (Hd & Ht & Hr).
    split_and!; [done| |by rewrite reserved_after]. rewrite Hused', Ht by done. cbn.
    apply negb_true_iff, bool_decide_eq_false. intros Hb. destruct (Hold b Hb) as (j & Hj & Huj).
    by apply Hm, (co_disjoint _ _ Hco m n i j b).
Qed.

Lemma disjoint_after m k i j b :
  live V' t' m i -> live V' t' k j -> uses V' i b -> uses V' j b -> m = k.
Proof.
  assert (forall m i, m <> n -> live V t m i -> uses V' i b -> uses V' new b -> False) as Hnew.
  { intros m' i' Hm Hl Hu%(uses_after m' i' b Hl Hm) Hu'%Huses. destruct (Hfree b Hu') as [_ Hf].
    destruct (co_blocks _ _ Hco m' i' b Hl Hu) as (_ & Ht & _). congruence. }
  intros [[-> ->]|[Hm Hl]]%live_after [[-> ->]|[Hk Hl']]%live_after Hu Hu'; [done|by destruct (Hnew k j)|by destruct (Hnew m i)|].
  apply (co_disjoint _ _ Hco m k i j b); [done|done|by eapply uses_after..].
Qed.

Lemma consistent_after : consistent V' t'.
Proof.
  split; [apply layout_after|apply blocks_after|apply disjoint_after| |].
  - intros m i [[-> ->]|[Hm Hl]]%live_after Hd; [by rewrite (regular_not_directory new Hreg) in Hd|].
    destruct (co_directory _ _ Hco m i Hl Hd) as [Hs Hdb Hsize Hchild]. split; [done|done|done|].
    intros x q. rewrite (children_kept m i x Hl Hd). case_decide; [intros [= <-]; exists new; apply live_new|].
    intros Hc. destruct (decide (q = n)) as [->|Hq]; [exists new; apply live_new|].
    destruct (Hchild x q Hc) as [j Hj]. exists j. by apply live_before.
  - destruct (decide (ROOT_INODE = n)) as [->|Hr]; [exists new; apply live_new|].
    destruct (co_root _ _ Hco) as [r Hl]. exists r. by apply live_before.
Qed.
End after.

(** ** A volume whose blocks in use did not change *)

Section unchanged.
Context (V V' : View) (t : Tables) (HV : view_ok md V) (HV' : view_ok md V') (Hco : consistent V t).
Context (Hsame : forall b, in_use md V b -> V' b = V b).

Lemma marked_same b : used md (block_bitmap t) b = true -> V' b = V b.
Proof.
  intros Hu. apply Hsame. intros t0 Ht0 _. pose proof (la_tables _ _ _ (co_layout _ _ Hco)) as Ht.
  rewrite Ht in Ht0. by injection Ht0 as <-.
Qed.

Lemma reserved_same b : reserved md V t b -> V' b = V b.
Proof. intros Hr. apply marked_same, (la_used _ _ _ (co_layout _ _ Hco) b Hr). Qed.

Lemma tables_same : tables_of md V' = Ok t.
Proof.
  pose proof (la_tables _ _ _ (co_layout _ _ Hco)) as Ht. rewrite <-Ht. unfold tables_of in *.
  rewrite (page_same md V V' (first_data_block md + 1)) by (apply reserved_same; unfold reserved; auto).
  destruct (_ || _); [done|].
  assert (forall b, b = block_bitmap_number t \/ b = inode_bitmap_number t -> page md V' b = page md V b) as Hbm.
  { intros b Hb. apply page_same, reserved_same. unfold reserved. tauto. }
  injection Ht as Ht. rewrite <-Ht in Hbm. cbn in Hbm. by rewrite !Hbm by auto.
Qed.

Lemma inode_table_same : inode_table md V' 0 = inode_table md V 0.
Proof. rewrite !(inode_table_field md Hwr). by rewrite reserved_same by (unfold reserved; auto). Qed.

Lemma inode_same m : 0 < m <= inodes_count md -> inode_of md V' m = inode_of md V m.
Proof.
  intros Hm. pose proof (co_layout _ _ Hco) as Hla.
  rewrite !(inode_of_layout md Hwr V t) by (done || apply inode_table_same).
  rewrite (page_same md V V'); [done|]. apply reserved_same. do 4 right.
  by apply (inode_block_table md Hwr V m).
Qed.

Lemma live_same m i : live V' t m i <-> live V t m i.
Proof.
  unfold live. split; intros (Hi & Hr & Hb).
  - rewrite (inode_same m Hr) in Hi. auto.
  - rewrite (inode_same m Hr). auto.
Qed.

Lemma used_blocks_same m i b : live V t m i -> uses V i b -> V' b = V b.
Proof. intros Hl Hu. by apply marked_same, (co_blocks _ _ Hco m i b). Qed.

Lemma child_unchanged m i x : live V t m i -> child_of md V' i x = child_of md V i x.
Proof.
  intros Hl. apply child_same; [done|done|exact (live_ok V t HV m i Hl)|].
  intros b Hb. by apply (used_blocks_same m i b).
Qed.

Lemma walk_unchanged p m i : live V t m i -> walk_of md V' p m i = walk_of md V p m i.
Proof.
  revert m i. induction p as [|c p IH]; intros m i Hl; [done|]. cbn [walk_of].
  case_bool_decide; [by apply IH|]. destruct (_ || _) eqn:Hb; [done|]. bools.
  rewrite (child_unchanged m i c Hl). destruct (child_of md V i c) as [[q|]|e|] eqn:Hc;
    [|exact (eq_refl (Ok None))|exact (eq_refl (Err e))|exact (eq_refl Panic)]. rewrite !Ok_bind.
  destruct (dk_children _ _ _ (co_directory _ _ Hco m i Hl ltac:(done)) c q Hc) as [j Hj].
  rewrite (inode_same q (proj1 (proj2 Hj))), (proj1 Hj), !Ok_bind. by apply IH.
Qed.

Lemma file_unchanged path max : file_of md V' path max = file_of md V path max.
Proof.
  assert (path_of md V' path = path_of md V path) as Hp.
  { destruct (co_root _ _ Hco) as [r Hr]. unfold path_of.
    rewrite (inode_same _ (proj1 (proj2 Hr))), (proj1 Hr), !Ok_bind. by apply walk_unchanged. }
  unfold file_of, path_inode. rewrite Hp. destruct (path_of md V path) as [[[m i]|]|e|] eqn:Hi;
    [|exact (eq_refl (Ok None))|exact (eq_refl (Err e))|exact (eq_refl Panic)].
  apply (path_live V t) in Hi; [|done]. rewrite !Ok_bind. cbn [option_map snd].
  destruct (negb (is_regular i)); [done|]. destruct (max <? i_size i); [done|]. rewrite (contents_same V V'); [done..|exact (live_ok V t HV m i Hi)|].
  intros b Hb. by apply (used_blocks_same m i b).
Qed.

Lemma consistent_unchanged : consistent V' t.
Proof.
  assert (forall m i b, live V t m i -> uses V' i b -> uses V i b) as Hu.
  { intros m i b Hl. apply uses_same. right. intros c Hc. by apply (used_blocks_same m i c). }
  assert (forall b, reserved md V' t b <-> reserved md V t b) as Hr.
  { intros b. unfold reserved. by rewrite inode_table_same. }
  pose proof (co_layout _ _ Hco) as Hla. split.
  - split; [apply tables_same|rewrite inode_table_same; apply Hla| |apply Hla|apply Hla|rewrite inode_table_same; apply Hla].
    intros b Hb%Hr. by apply Hla.
  - intros m i b Hl%live_same Hb. rewrite Hr. apply (co_blocks _ _ Hco m i b Hl), (Hu m i b Hl Hb).
  - intros m k i j b Hl%live_same Hl'%live_same Hb Hb'. apply (co_disjoint _ _ Hco m k i j b Hl Hl');
      [exact (Hu m i b Hl Hb)|exact (Hu k j b Hl' Hb')].
  - intros m i Hl%live_same Hd. destruct (co_directory _ _ Hco m i Hl Hd) as [H1 H2 H3 H4].
    split; [done|done|done|]. intros x q. rewrite (child_unchanged m i x Hl). intros [j Hj]%H4.
    exists j. by apply live_same.
  - destruct (co_root _ _ Hco) as [r Hl]. exists r. by apply live_same.
Qed.
End unchanged.

(** ** [write_file] on a consistent volume *)

(** The file has the new contents, and the files of other inodes those they had. *)
Record file_replaced (V V' : View) (path contents : list Z) (n : Z) (new : Inode) : Prop := {
  fp_path : path_of md V' path = Ok (Some (n, new));
  fp_regular : is_regular new = true;
  fp_size : i_size new = Z.of_nat (length contents);
  fp_contents : contents_of md V' new (i_size new) = Ok contents;
  fp_known : forall p i, path_of md V p = Ok (Some (n, i)) -> exists j, path_of md V path = Ok (Some (n, j));
  fp_others : forall p k j, path_of md V p = Ok (Some (k, j)) -> k <> n ->
    path_of md V' p = Ok (Some (k, j)) /\
    (is_directory j = false -> forall c, contents_of md V' j c = contents_of md V j c);
}.

(** What the lemmas on the volume after a write ask for. *)
Record change (V V' V1 : View) (t : Tables) (nb : NewBlocks) (n : Z) (new : Inode) (added : option (Z * list Z))
  (old : list Z) (pn : Z) (parent : Inode) (name : list Z) : Prop := {
  ch_parent : live V t pn parent;
  ch_directory : is_directory parent = true;
  ch_range : 0 < n <= inodes_count md;
  ch_file : forall i, live V t n i -> is_regular i = true /\ child_of md V parent name = Ok (Some n);
  ch_rewritten : rewritten md V V' t nb V1 n new added old;
  ch_free : forall b, b ∈ new_blocks nb -> data_block md b /\ used md (block_bitmap t) b = false;
  ch_old : forall b, b ∈ old -> exists i, live V t n i /\ uses V i b;
  ch_entry : match added with
    | Some (b, data) => child_of md V parent name = Ok None /\ single_block md parent b /\
        exists sp block, data = take 1024 block /\
          find_space MAX_RECORDS md (page md V b) (entry_size (Z.of_nat (length name))) 0 = Ok (Some sp) /\
          space_ok md (page md V b) (entry_size (Z.of_nat (length name))) sp /\ placed md (page md V b) block sp name n
    | None => child_of md V parent name = Ok (Some n)
    end;
}.

Lemma file_written_change V V' path contents parent name n target t nb bm V1 V2 pn :
  view_ok md V -> view_ok md V' -> consistent V t -> live V t pn parent -> is_directory parent = true ->
  file_written md V V' path contents parent name n target t nb bm V1 V2 ->
  exists sectors added old,
    change V V' V1 t nb n (file_inode nb (Z.of_nat (length contents)) sectors) added old pn parent name.
Proof.
  intros HV HV' Hco Hpn Hpd [_ Htarget _ _ _ Hal Hwithin _ (count & sectors & _ & Hcom) (old & Hfr & Hold)].
  assert (0 < n <= inodes_count md) as Hn.
  { destruct target; [|apply Htarget]. destruct Htarget as [Hc _]. by apply (child_of_range md Hmd) in Hc. }
  destruct (commit_rewritten md Hwr V V1 V2 V' t parent name n (is_none target) nb bm count (Z.of_nat (length contents))
    sectors pn old HV HV' (co_layout _ _ Hco) Hn (consistent_clean V t pn parent Hco Hpn) Hal Hwithin Hcom Hfr) as
    (added & Hrw & Htail).
  exists sectors, added, old. split; [done|done|done| |done|apply (al_free _ _ _ _ Hal)| |].
  - intros i (Hi & _ & Hb). destruct target as [inode|].
    + destruct Htarget as (Hc & Hi' & Hreg). split; [congruence|done].
    + destruct Htarget as (_ & _ & Hb'). congruence.
  - intros b Hb. rewrite Forall_forall in Hold. destruct (Hold b Hb) as (i & Ht & Hu). exists i. split; [|done].
    rewrite Ht in Htarget. destruct Htarget as (Hc & Hi & _).
    destruct (dk_children _ _ _ (co_directory _ _ Hco pn parent Hpn Hpd) name n Hc) as [j Hj].
    assert (j = i) as <- by (destruct Hj as [Hj _]; congruence). done.
  - destruct target as [inode|]; cbn [is_none] in Htail; [subst added; apply Htarget|].
    destruct Htail as (b & sp & block & -> & Hsb & Hrest). split_and!; [apply Htarget|done|].
    exists sp, block. auto.
Qed.

Lemma change_replaced V V' V1 t nb n sectors added old pn parent path contents :
  let new := file_inode nb (Z.of_nat (length contents)) sectors in
  let name := (split_path path).2 in
  view_ok md V -> view_ok md V' -> consistent V t -> Z.of_nat (length contents) <= 65804 * 1024 ->
  new_blocks_ok md nb (Z.of_nat (length contents)) -> contents_written md nb contents V1 ->
  path_of md V (split_path path).1 = Ok (Some (pn, parent)) -> safe_component name = true ->
  change V V' V1 t nb n new added old pn parent name ->
  exists t', consistent V' t' /\ file_replaced V V' path contents n new.
Proof.
  intros new name HV HV' Hco Hsize Hnb Hcw Hpath Hsafe [Hpn Hpd Hn Hf Hrw Hfree Hold Hentry].
  pose proof (contents_written_same md V1 V' nb contents Hnb (rw_new _ _ _ _ _ _ _ _ _ _ Hrw) Hcw) as Hcw'.
  pose proof (fun i Hi => proj1 (Hf i Hi)) as Hfile.
  destruct (rw_tables _ _ _ _ _ _ _ _ _ _ Hrw) as (t' & Ht' & Hb' & Hi' & Hused' & Hbits'). exists t'. split.
  - exact (consistent_after V V' V1 t t' nb n new added old pn parent name HV HV' Hco Hpn Hpd Hn eq_refl Hrw Hfree
      (new_uses md V' nb contents sectors Hnb Hcw') Hold Hentry Ht' (conj Hb' Hi') Hused' Hbits').
  - split; [|done|done| | |].
    + exact (path_written V V' V1 t nb n new added old pn parent name HV HV' Hco Hpn Hpd Hn Hfile Hrw Hfree Hentry
        path Hpath eq_refl Hsafe).
    + exact (new_contents md Hwr V' nb contents sectors HV' Hnb Hcw' Hsize).
    + intros p i Hp%(path_live V t); [|done]. exists i. destruct (Hf i Hp) as [_ Hc].
      exact (path_through V path pn parent name n i Hpath eq_refl Hsafe Hpd Hc (proj1 Hp)).
    + intros p k j Hp Hk. split.
      * exact (path_kept V V' V1 t nb n new added old pn parent name HV HV' Hco Hpn Hpd Hn Hfile Hrw Hfree Hentry p k j Hp Hk).
      * intros Hd c. exact (contents_kept V V' V1 t nb n new added old pn parent name HV HV' Hco Hpn Hpd eq_refl Hrw Hfree
          Hentry k j c (path_live V t p k j Hco Hp) Hd).
Qed.
End volume.

(** ** The operation *)

Section operation.
Context {D : Type} `{SectorDeviceLaws D}.
Context (md : Metadata) (Hwr : writable_ok md).

#[local] Instance here : Abstraction View (Ext2 D) := fs_view md.

Lemma runs_with_view {A} V (op : Op (Ext2 D) E A) Q X :
  runs V op Q X -> runs V op (fun a V' => view_ok md V' /\ Q a V') (fun e V' => view_ok md V' /\ X e V').
Proof.
  intros Hop s Hs. destruct (Hop s Hs) as (V' & HV' & Hr). exists V'. split; [done|].
  pose proof (abstracts_ok md (wr_ok md Hwr) V' _ HV'). eapply holds_mono; [exact Hr|done|done].
Qed.

Lemma write_file_volume V t path contents :
  consistent md V t -> bytes_ok contents ->
  runs V (write_file path contents)
    (fun _ V' => exists t' n new, consistent md V' t' /\ file_replaced md V V' path contents n new)
    (fun e V' => e = Ext2Error.RecoveryFailed \/
       (consistent md V' t /\ forall p max, file_of md V' p max = file_of md V p max)).
Proof.
  intros Hco Hbytes. apply (runs_view md (wr_ok md Hwr)). intros HV.
  eapply runs_mono; [apply runs_with_view, (write_file_spec md Hwr)| |]; cbn beta.
  - intros [] V' [HV' (parent & name & n & target & t0 & nb & bm & V1 & V2 & Hfw)].
    assert (t0 = t) as ->.
    { pose proof (fw_tables _ _ _ _ _ _ _ _ _ _ _ _ _ _ Hfw) as Ht. rewrite (la_tables _ _ _ (co_layout _ _ _ Hco)) in Ht.
      by injection Ht. }
    destruct (fw_parent _ _ _ _ _ _ _ _ _ _ _ _ _ _ Hfw) as [pn Hpar].
    destruct (parent_path md Hwr V path pn parent name HV Hpar) as [-> Hppath].
    destruct (parent_of_ok md (wr_ok md Hwr) V path pn parent _ HV Hpar) as (_ & _ & _ & Hpd & Hsafe).
    pose proof (path_live md V t _ pn parent Hco Hppath) as Hpn.
    destruct (file_written_change md Hwr _ _ _ _ _ _ _ _ _ _ _ _ _ pn HV HV' Hco Hpn Hpd Hfw) as (sectors & added & old & Hch).
    destruct (change_replaced md Hwr V V' V1 t nb n sectors added old pn parent path contents HV HV' Hco
      (fw_size _ _ _ _ _ _ _ _ _ _ _ _ _ _ Hfw) (fw_new _ _ _ _ _ _ _ _ _ _ _ _ _ _ Hfw)
      (fw_contents _ _ _ _ _ _ _ _ _ _ _ _ _ _ Hfw Hbytes) Hppath Hsafe Hch) as (t' & Hco' & Hrep).
    eauto.
  - intros e V' [HV' [->|Hsame]]; [by left|]. right. split.
    + by apply (consistent_unchanged md Hwr V V').
    + intros p max. by apply (file_unchanged md Hwr V V' t).
Qed.
End operation.
