(* ===== verification/Ext2Example.v ===== *)
(** * An example volume

    A disk of 64 blocks of 1024 bytes with 16 inodes: the superblock, the descriptor,
    two bitmaps, the inode table and an empty root directory in block 7. *)

From S2P Require Import Prelude Refine FileSystem Disk Ext2 Ext2Bits Ext2Dir Ext2View Ext2Read Ext2Write Ext2Ops Ext2File Ext2Trip Ext2Volume.

Local Open Scope Z_scope.

(** Fields in a sector: where, how many bytes, what. *)
Definition sector_with (fields : list (Z * Z * Z)) : list Z :=
  foldl (fun l '(offset, n, value) => splice l (Z.to_nat offset) (le_encode (Z.to_nat n) value)) blank_sector fields.

Definition example_sectors : gmap Z (list Z) := list_to_map [
  (2, sector_with [(0, 4, 16); (4, 4, 64); (12, 4, 56); (16, 4, 6); (20, 4, 1); (32, 4, 8192); (40, 4, 16);
                   (56, 2, 0xef53)]);
  (4, sector_with [(0, 4, 3); (4, 4, 4); (8, 4, 5); (12, 2, 56); (14, 2, 6)]);
  (6, sector_with [(0, 1, 0x7f)]);
  (8, sector_with [(0, 2, 0x3ff)]);
  (10, sector_with [(128, 2, 0x41ed); (132, 4, 1024); (154, 2, 2); (156, 4, 2); (168, 4, 7)]);
  (14, sector_with [(0, 4, 2); (4, 2, 12); (6, 2, 1); (8, 1, 46); (12, 4, 2); (16, 2, 1012); (18, 2, 2);
                    (20, 2, 0x2e2e)])].

(** [failures] says which of the next writes fail. *)
Definition example_volume (failures : list bool) : Ext2 mem_disk :=
  mk_ext2 (mk_mem_disk example_sectors failures) None [].

Definition example_md : Metadata := mk_metadata 1024 64 16 1 8192 16 128 1 0.

(** The volume once it is mounted. *)
Definition example_mounted (failures : list bool) : Ext2 mem_disk :=
  mk_ext2 (mk_mem_disk example_sectors failures) (Some (Ok example_md)) [].

Lemma example_mount failures :
  initialize (H := mem_device) (example_volume failures) = (example_mounted failures, Ok tt).
Proof. by vm_compute. Qed.

Lemma example_writable : writable_ok example_md.
Proof.
  split; [split|..]; try (by vm_compute); cbn; try lia; try (by auto).
  all: by exists 8.
Qed.

#[local] Existing Instances mem_device mem_device_laws.

(** Its blocks, which do not depend on the failures. *)
Definition example_view : View := block_at example_md (mk_mem_disk example_sectors []).

Lemma example_abstracts failures : fs_view example_md example_view (example_mounted failures).
Proof. by split. Qed.

Lemma example_view_ok : view_ok example_md example_view.
Proof. apply (abstracts_ok example_md (wr_ok _ example_writable) _ _ (example_abstracts [])). Qed.

Definition example_tables : Tables :=
  match tables_of example_md example_view with Ok t => t | _ => mk_tables 0 0 [] [] [] end.

Definition example_root : Inode := mk_inode 0x41ed 2 1024 2 (7 :: replicate 11 0) 0 0.
Definition unused_inode : Inode := mk_inode 0 0 0 0 (replicate 12 0) 0 0.

Lemma example_inode n : 0 < n <= 16 ->
  inode_of example_md example_view n = Ok (if n =? 2 then example_root else unused_inode).
Proof.
  intros Hn. assert (n ∈ seqZ 1 16) as Hin by (apply elem_of_seqZ; lia). clear Hn. revert Hin.
  change (seqZ 1 16) with [1; 2; 3; 4; 5; 6; 7; 8; 9; 10; 11; 12; 13; 14; 15; 16].
  intros Hin. repeat (apply elem_of_cons in Hin as [->|Hin]; [by vm_compute|]). by apply not_elem_of_nil in Hin.
Qed.

Lemma example_uses n i b :
  live example_md example_view example_tables n i -> uses example_view i b -> n = 2 /\ b = 7.
Proof.
  intros (Hi & Hn & _). rewrite example_inode in Hi by exact Hn. injection Hi as <-.
  destruct (Z.eqb_spec n 2) as [->|Hn2].
  - intros [c Hc Hc0| | | | |]; try done. split; [done|]. apply elem_of_cons in Hc as [->|Hc]; [done|].
    by apply elem_of_replicate_inv in Hc.
  - intros [c Hc Hc0| | | | |]; try done. by apply elem_of_replicate_inv in Hc.
Qed.

Lemma example_reserved b : reserved example_md example_view example_tables b -> b ∈ [1; 2; 3; 4; 5; 6].
Proof.
  unfold reserved.
  replace (inode_table example_md example_view 0) with 5 by (by vm_compute).
  replace (block_bitmap_number example_tables) with 3 by (by vm_compute).
  replace (inode_bitmap_number example_tables) with 4 by (by vm_compute).
  change (table_blocks example_md) with 2. cbn [first_data_block example_md]. intros Hb.
  assert (b = 1 \/ b = 2 \/ b = 3 \/ b = 4 \/ b = 5 \/ b = 6) as Hc by lia.
  rewrite !elem_of_cons. tauto.
Qed.

Lemma example_layout : layout example_md example_view example_tables.
Proof.
  split.
  - by vm_compute.
  - by vm_compute.
  - intros b Hb%example_reserved.
    repeat (apply elem_of_cons in Hb as [->|Hb]; [split; [by vm_compute|by vm_compute]|]). by apply not_elem_of_nil in Hb.
  - by vm_compute.
  - intros b Hb. replace (block_bitmap_number example_tables) with 3 in Hb by (by vm_compute).
    replace (inode_bitmap_number example_tables) with 4 in Hb by (by vm_compute). cbn. lia.
  - intros b Hb. replace (block_bitmap_number example_tables) with 3 in Hb by (by vm_compute).
    replace (inode_bitmap_number example_tables) with 4 in Hb by (by vm_compute).
    replace (inode_table example_md example_view 0) with 5 by (by vm_compute). change (table_blocks example_md) with 2.
    cbn in Hb. lia.
Qed.

Lemma example_live_root : live example_md example_view example_tables ROOT_INODE example_root.
Proof. split; [by rewrite example_inode|]. split; [done|by vm_compute]. Qed.

Lemma example_children name m :
  child_of example_md example_view example_root name = Ok (Some m) -> m = 2.
Proof.
  assert (dir_entries MAX_RECORDS example_md (page example_md example_view 7) 1024 0 = Ok [([46], 2); ([46; 46], 2)]) as He
    by (by vm_compute).
  rewrite (child_single example_md example_writable example_view example_root 7).
  - rewrite (find_in_block_entries example_md _ 1024 name _ 0 _ (page_buffer _ (wr_ok _ example_writable) _ 7 example_view_ok)
      ltac:(lia) ltac:(lia) He).
    cbn [entry_inode]. repeat case_bool_decide; congruence.
  - by split_and!.
  - by exists 1.
  - eapply (inode_of_ok example_md (wr_ok _ example_writable) example_view 2 example_root example_view_ok); [lia|].
    by rewrite example_inode.
Qed.

Lemma example_consistent : consistent example_md example_view example_tables.
Proof.
  split.
  - apply example_layout.
  - intros n i b Hl [_ ->]%(example_uses n); [|done]. split; [done|]. split; [by vm_compute|].
    intros Hr%example_reserved. repeat (apply elem_of_cons in Hr as [Hr|Hr]; [done|]). by apply not_elem_of_nil in Hr.
  - intros n m i j b Hl Hl' [-> _]%(example_uses n) [-> _]%(example_uses m); done.
  - intros n i (Hi & Hn & _) Hd. rewrite example_inode in Hi by done. injection Hi as <-.
    destruct (Z.eqb_spec n 2) as [->|]; [|done]. split; [done|done|by exists 1|].
    intros name m ->%example_children. exists example_root. apply example_live_root.
  - exists example_root. apply example_live_root.
Qed.
