(* ===== verification/Paging.v ===== *)
(** * The memory manager and address spaces

    The second half of [memory/mod.rs]: [MemoryManager] and the operations of
    [AddressSpace] that change page tables.  The page-table walks are code of the
    [x86_64] crate ([OffsetPageTable]): the class [Mapper] lists the calls, with
    the root frame of the tables they work on as the first argument. *)

From S2P Require Import Prelude FrameAlloc FrameCount UserRange.

Local Open Scope Z_scope.

Inductive MapToError := MapFrameAllocationFailed | ParentEntryHugePage | PageAlreadyMapped.
Inductive UnmapError := UnmapParentEntryHugePage | UnmapPageNotMapped | InvalidFrameAddress.

Inductive MappingError :=
| MapPhysicalAddressOutOfRange
| MapInvalidPageTableRoot
| MapMapper (e : MapToError).

Inductive UnmappingError :=
| PageNotMapped
| FrameNotAllocatorOwned
| ReclaimCapacityExceeded
| UnmapMapper (e : UnmapError).

Inductive AddressSpaceError :=
| AsMemory (e : MemoryError)
| AsMapping (e : MappingError)
| AsUnmapping (e : UnmappingError)
| InvalidUserPage
| DuplicateUserPage
| UserPageNotMapped
| AsAllocationFailed
| Released
| ActiveAddressSpace.

(** [PageTableFlags]. *)
Definition PRESENT : Z := 1.
Definition WRITABLE : Z := 2.
Definition USER_ACCESSIBLE : Z := 4.
Definition NO_EXECUTE : Z := 2 ^ 63.

Definition access_flags (access : UserPageAccess) : Z :=
  match access with
  | ReadOnly => Z.lor (Z.lor PRESENT USER_ACCESSIBLE) NO_EXECUTE
  | ReadWrite => Z.lor (Z.lor (Z.lor PRESENT WRITABLE) USER_ACCESSIBLE) NO_EXECUTE
  | ReadExecute => Z.lor PRESENT USER_ACCESSIBLE
  end.

(** The calls into the [x86_64] crate.  [PT] is the contents of the frames that
    hold page tables and zeroed pages. *)
Class Mapper (PT : Type) := {
  pt_map_to : Z -> Z -> Z -> Z -> PT -> Allocator -> PT * Allocator * outcome MapToError unit;
  pt_unmap : Z -> Z -> PT -> PT * outcome UnmapError Z;
  pt_clean_up : Z -> Z -> PT -> Allocator -> PT * Allocator * outcome Empty_set unit;
  pt_translate : Z -> Z -> PT -> option Z;
  pt_level4 : Z -> nat -> PT -> option (Z * Z);
  pt_set_level4 : Z -> nat -> Z * Z -> PT -> PT;
  pt_clear_table : Z -> PT -> PT;
  pt_zero_frame : Z -> PT -> PT;
}.

Record MemoryManager (PT : Type) := mk_manager {
  mm_tables : PT;
  mm_allocator : Allocator;
  mm_limit : Z;
  mm_kernel_root : Z;
  mm_offset : Z;
}.

Arguments mk_manager {PT} _ _ _ _ _.
Arguments mm_tables {PT} _.
Arguments mm_allocator {PT} _.
Arguments mm_limit {PT} _.
Arguments mm_kernel_root {PT} _.
Arguments mm_offset {PT} _.

Section manager.
Context {PT : Type} `{Mapper PT}.
Variable from_start_address : Z -> option Z.
Variable try_new : Z -> option Z.

Definition set_allocator (a : Allocator) (m : MemoryManager PT) : MemoryManager PT :=
  mk_manager (mm_tables m) a (mm_limit m) (mm_kernel_root m) (mm_offset m).
Definition set_tables (t : PT) (m : MemoryManager PT) : MemoryManager PT :=
  mk_manager t (mm_allocator m) (mm_limit m) (mm_kernel_root m) (mm_offset m).

Definition physical_to_virtual (m : MemoryManager PT) (frame : Z) : option Z :=
  address ← checked_add u64_limit (mm_offset m) frame; try_new address.

(** [self.frame_allocator.allocate_frame()]. *)
Definition allocate_frame {E} : Op (MemoryManager PT) E (option Z) := fun m =>
  match next_usable_frame from_start_address (mm_allocator m) with
  | (a, Ok f) => (set_allocator a m, Ok f)
  | (a, _) => (set_allocator a m, Panic)
  end.

(** [assert!(self.frame_allocator.reclaim_frame(frame))]. *)
Definition assert_reclaim {E} (frame : Z) : Op (MemoryManager PT) E unit := fun m =>
  let '(a, done) := reclaim_frame frame (mm_allocator m) in
  (set_allocator a m, if done then Ok tt else Panic).

(** [mapper.map_to(..)] and [mapper.clean_up_addr_range(..)] on the tables of a root. *)
Definition map_to_at {E} (root page frame flags : Z) (err : MapToError -> E) :
  Op (MemoryManager PT) E unit := fun m =>
  let '(t, a, r) := pt_map_to root page frame flags (mm_tables m) (mm_allocator m) in
  (set_tables t (set_allocator a m), map_err err r).

Definition clean_up_at {E} (root page : Z) : Op (MemoryManager PT) E unit := fun m =>
  let '(t, a, r) := pt_clean_up root page (mm_tables m) (mm_allocator m) in
  (set_tables t (set_allocator a m), match r with Ok _ => Ok tt | _ => Panic end).

(** The [match] on the result of a [map_to]: on an error clean up and pass it on. *)
Definition map_or_clean_up {E} (root page frame flags : Z) (err : MapToError -> E)
  (undo : Op (MemoryManager PT) E unit) : Op (MemoryManager PT) E unit := fun m =>
  match map_to_at root page frame flags err m with
  | (m, Err e) => (_ ← clean_up_at root page; _ ← undo; fail e) m
  | other => other
  end.

(** [MemoryManager::map_user_page]. *)
Definition mm_map_user_page (root page : Z) (access : UserPageAccess) :
  Op (MemoryManager PT) MappingError Z :=
  found ← allocate_frame;
  frame ← lift (ok_or found (MapMapper MapFrameAllocationFailed));
  m ← get;
  match physical_to_virtual m frame with
  | None => _ ← assert_reclaim frame; fail MapPhysicalAddressOutOfRange
  | Some _ =>
      _ ← modify (fun m => set_tables (pt_zero_frame frame (mm_tables m)) m);
      match physical_to_virtual m root with
      | None => _ ← assert_reclaim frame; fail MapInvalidPageTableRoot
      | Some _ =>
          _ ← map_or_clean_up root page frame (access_flags access) MapMapper
                (assert_reclaim frame);
          mret frame
      end
  end.

(** [MemoryManager::unmap_page]; [unmap_and_deallocate] is this on the kernel's
    own tables. *)
Definition mm_unmap_tables (root page : Z) : Op (MemoryManager PT) UnmappingError unit :=
  m ← get;
  mapped_address ← lift (ok_or (pt_translate root page (mm_tables m)) PageNotMapped);
  let frame := page_down mapped_address in
  owned ← lift (map_err (fun _ => PageNotMapped) (is_allocatable_frame (mm_allocator m) frame));
  if negb owned then fail FrameNotAllocatorOwned
  else
    let '(t, r) := pt_unmap root page (mm_tables m) in
    _ ← modify (set_tables t);
    unmapped ← lift (map_err UnmapMapper r);
    if negb (unmapped =? frame) then panic
    else
      _ ← assert_reclaim frame;
      clean_up_at root page.

Definition reclaim_full (m : MemoryManager PT) : bool :=
  (RECLAIMED_FRAME_CAPACITY - MAX_FRAMES_RECLAIMED_PER_UNMAP <?
    reclaimed_count (mm_allocator m))%nat.

Definition mm_unmap_page (root page : Z) : Op (MemoryManager PT) UnmappingError unit :=
  m ← get;
  if reclaim_full m then fail ReclaimCapacityExceeded
  else match physical_to_virtual m root with
       | None => fail PageNotMapped
       | Some _ => mm_unmap_tables root page
       end.

Definition mm_unmap_and_deallocate (page : Z) : Op (MemoryManager PT) UnmappingError unit :=
  m ← get;
  if reclaim_full m then fail ReclaimCapacityExceeded
  else mm_unmap_tables (mm_kernel_root m) page.

(** [MemoryManager::map_to] and [allocate_and_map], on the kernel's tables. *)
Definition mm_map_to (page frame flags : Z) : Op (MemoryManager PT) MappingError unit :=
  m ← get;
  if (mm_limit m <=? frame) || (mm_limit m <? frame + PAGE_SIZE)
  then fail MapPhysicalAddressOutOfRange
  else map_or_clean_up (mm_kernel_root m) page frame flags MapMapper (mret tt).

(** The [match] of [allocate_and_map]: a frame that could not be mapped is returned. *)
Definition map_or_reclaim (page frame flags : Z) : Op (MemoryManager PT) MappingError Z := fun m =>
  match mm_map_to page frame flags m with
  | (m, Ok _) => (m, Ok frame)
  | (m, Err e) => (_ ← assert_reclaim frame; fail e) m
  | (m, Panic) => (m, Panic)
  end.

Definition mm_allocate_and_map (page flags : Z) : Op (MemoryManager PT) MappingError Z :=
  found ← allocate_frame;
  frame ← lift (ok_or found (MapMapper MapFrameAllocationFailed));
  map_or_reclaim page frame flags.

(** [MemoryManager::create_address_space]: the kernel half of the new root. *)
Definition copy_kernel_entries (kernel_root root : Z) (t : PT) : PT :=
  foldl (fun t index =>
    if (index =? Z.to_nat USER_PML4_INDEX)%nat then t
    else match pt_level4 kernel_root index t with
         | Some (addr, flags) => pt_set_level4 root index (addr, Z.ldiff flags USER_ACCESSIBLE) t
         | None => t
         end) t (seq 0 512).

Definition mm_create_address_space : Op (MemoryManager PT) MemoryError AddressSpace :=
  m ← get;
  match pt_level4 (mm_kernel_root m) (Z.to_nat USER_PML4_INDEX) (mm_tables m) with
  | Some _ => fail NoUserAddressSpaceSlot
  | None =>
      found ← allocate_frame;
      root ← lift (ok_or found FrameAllocationFailed);
      m ← get;
      match physical_to_virtual m root with
      | None => _ ← assert_reclaim root; fail InvalidPhysicalMemoryOffset
      | Some _ =>
          _ ← modify (fun m => set_tables
                (copy_kernel_entries (mm_kernel_root m) root (pt_clear_table root (mm_tables m))) m);
          mret (mk_address_space (Some root) [])
      end
  end.

(** ** The global manager and [AddressSpace] *)

(** [MEMORY_MANAGER]: not initialised, failed, or the manager. *)
Definition Memory : Type := option (outcome MemoryError (MemoryManager PT)).

Definition with_manager {E A} (op : Op (MemoryManager PT) E A) (err : E -> AddressSpaceError) :
  Op Memory AddressSpaceError A := fun mem =>
  match mem with
  | None => (mem, Err (AsMemory NotInitialized))
  | Some (Err e) => (mem, Err (AsMemory e))
  | Some Panic => (mem, Panic)
  | Some (Ok m) => let '(m, r) := op m in (Some (Ok m), map_err err r)
  end.

Definition create_address_space : Op Memory AddressSpaceError AddressSpace :=
  with_manager mm_create_address_space AsMemory.

(** [page.p4_index()]. *)
Definition p4_index (page : Z) : Z := Z.land (Z.shiftr page 39) 511.

(** [AddressSpace::map_user_page]; [reserved] is the result of [try_reserve]. *)
Definition map_user_page (reserved : bool) (page : Z) (access : UserPageAccess) :
  Op (Memory * AddressSpace) AddressSpaceError Z := fun '(mem, self) =>
  match root self with
  | None => (mem, self, Err Released)
  | Some r =>
      if negb (p4_index page =? USER_PML4_INDEX) then (mem, self, Err InvalidUserPage)
      else if existsb (fun p => p.1 =? page) (user_pages self)
      then (mem, self, Err DuplicateUserPage)
      else if negb reserved then (mem, self, Err AsAllocationFailed)
      else match with_manager (mm_map_user_page r page access) AsMapping mem with
           | (mem, Ok frame) =>
               (mem, mk_address_space (root self) (user_pages self ++ [(page, access)]), Ok frame)
           | (mem, Err e) => (mem, self, Err e)
           | (mem, Panic) => (mem, self, Panic)
           end
  end.

(** [Vec::remove]. *)
Definition remove_nth {A} (i : nat) (l : list A) : list A := take i l ++ drop (S i) l.

Definition unmap_user_page (page : Z) : Op (Memory * AddressSpace) AddressSpaceError unit :=
  fun '(mem, self) =>
  match root self with
  | None => (mem, self, Err Released)
  | Some r =>
      match position (fun p => p.1 =? page) (user_pages self) with
      | None => (mem, self, Err UserPageNotMapped)
      | Some index =>
          match with_manager (mm_unmap_page r page) AsUnmapping mem with
          | (mem, Ok _) => (mem, mk_address_space (root self) (remove_nth index (user_pages self)), Ok tt)
          | (mem, Err e) => (mem, self, Err e)
          | (mem, Panic) => (mem, self, Panic)
          end
      end
  end.

(** The [while let Some((page, _)) = self.user_pages.last()] loop of [destroy], on
    the reversed list: the pages left and the result. *)
Fixpoint destroy_pages (r : Z) (rev_pages : list (Z * UserPageAccess)) (mem : Memory) :
  Memory * list (Z * UserPageAccess) * outcome AddressSpaceError unit :=
  match rev_pages with
  | [] => (mem, [], Ok tt)
  | (page, access) :: rest =>
      match with_manager (mm_unmap_page r page) AsUnmapping mem with
      | (mem, Ok _) => destroy_pages r rest mem
      | (mem, Err e) => (mem, rev_pages, Err e)
      | (mem, Panic) => (mem, rev_pages, Panic)
      end
  end.

(** [deallocate_frame] of the manager. *)
Definition mm_deallocate_frame (frame : Z) : Op (MemoryManager PT) MemoryError unit := fun m =>
  let '(a, r) := deallocate_frame frame (mm_allocator m) in (set_allocator a m, r).

Definition destroy (cr3 : Z) : Op (Memory * AddressSpace) AddressSpaceError unit :=
  fun '(mem, self) =>
  match root self with
  | None => (mem, self, Err Released)
  | Some r =>
      if cr3 =? r then (mem, self, Err ActiveAddressSpace)
      else
        let '(mem, remaining, res) := destroy_pages r (reverse (user_pages self)) mem in
        let self := mk_address_space (Some r) (reverse remaining) in
        match res with
        | Ok _ =>
            match with_manager (mm_deallocate_frame r) AsMemory mem with
            | (mem, Ok _) => (mem, mk_address_space None (user_pages self), Ok tt)
            | (mem, Err e) => (mem, self, Err e)
            | (mem, Panic) => (mem, self, Panic)
            end
        | Err e => (mem, self, Err e)
        | Panic => (mem, self, Panic)
        end
  end.

(** ** Lemmas *)

(** The pages of a process: each once, all in the user slot. *)
Definition pages_ok (self : AddressSpace) : Prop :=
  NoDup (user_pages self).*1 /\ Forall (fun p => p4_index p.1 = USER_PML4_INDEX) (user_pages self).

Lemma pages_ok_prefix r l l' :
  pages_ok (mk_address_space r (l ++ l')) -> pages_ok (mk_address_space r l).
Proof.
  intros [Hn Hf]. unfold pages_ok in *. simpl in *. rewrite fmap_app in Hn.
  apply NoDup_app in Hn as (Hn & _ & _). by apply Forall_app in Hf as [Hf _].
Qed.

Lemma map_user_page_pages reserved page access mem self mem' self' r :
  map_user_page reserved page access (mem, self) = (mem', self', r) ->
  root self' = root self /\
  match r with
  | Ok _ => user_pages self' = user_pages self ++ [(page, access)] /\
      p4_index page = USER_PML4_INDEX /\ page ∉ (user_pages self).*1
  | _ => self' = self
  end.
Proof.
  unfold map_user_page. destruct (root self) as [rt|] eqn:Hr; [|by intros [= <- <- <-]].
  destruct (Z.eqb_spec (p4_index page) USER_PML4_INDEX) as [Hp|Hp]; simpl negb; cbv iota;
    [|by intros [= <- <- <-]].
  destruct (existsb _ _) eqn:Hdup; [by intros [= <- <- <-]|].
  destruct reserved; simpl negb; cbv iota; [|by intros [= <- <- <-]].
  destruct (with_manager _ _ mem) as [m [f|e|]]; intros [= <- <- <-]; [|done..].
  split; [done|]. split; [done|]. split; [done|].
  intros (q & -> & Hq)%list_elem_of_fmap. apply not_true_iff_false in Hdup. destruct Hdup.
  apply existsb_exists. exists q. split; [by apply list_elem_of_In|apply Z.eqb_refl].
Qed.

Lemma map_user_page_ok reserved page access mem self mem' self' r :
  pages_ok self -> map_user_page reserved page access (mem, self) = (mem', self', r) ->
  pages_ok self'.
Proof.
  intros [Hn Hf] E. apply map_user_page_pages in E as [_ E].
  destruct r; [|by subst..]. destruct E as (E & Hp & Hnew). split; rewrite E.
  - rewrite fmap_app. apply NoDup_app. split_and!; [done| |apply NoDup_singleton].
    intros x Hx ->%list_elem_of_singleton. done.
  - apply Forall_app. split; [done|]. by apply Forall_singleton.
Qed.

Lemma unmap_user_page_ok page mem self mem' self' r :
  pages_ok self -> unmap_user_page page (mem, self) = (mem', self', r) -> pages_ok self'.
Proof.
  intros [Hn Hf]. unfold unmap_user_page. destruct (root self) as [rt|]; [|by intros [= <- <- <-]].
  destruct (position _ _) as [i|]; [|by intros [= <- <- <-]].
  destruct (with_manager _ _ mem) as [m [f|e|]]; intros [= <- <- <-]; [|done..].
  assert (remove_nth i (user_pages self) `sublist_of` user_pages self) as Hs.
  { unfold remove_nth. rewrite <-(take_drop i (user_pages self)) at 3. apply sublist_app; [done|].
    replace (drop (S i) (user_pages self)) with (drop 1 (drop i (user_pages self)))
      by (rewrite drop_drop; f_equal; lia). apply sublist_drop. }
  split; simpl.
  - eapply sublist_NoDup; [exact Hn|]. by apply (fmap_sublist fst).
  - apply Forall_app. split; [by apply Forall_take|by apply Forall_drop].
Qed.

(** What the loop of [destroy] leaves is what it had not reached. *)
Lemma destroy_pages_suffix r pages mem mem' rest res :
  destroy_pages r pages mem = (mem', rest, res) ->
  exists gone, pages = gone ++ rest /\ (res = Ok tt -> rest = []).
Proof.
  revert mem. induction pages as [|[page access] pages IH]; intros mem; simpl.
  - intros [= <- <- <-]. by exists [].
  - destruct (with_manager _ _ mem) as [m [[]|e|]].
    + intros (gone & -> & H0)%IH. by exists ((page, access) :: gone).
    + intros [= <- <- <-]. by exists [].
    + intros [= <- <- <-]. by exists [].
Qed.

Lemma destroy_spec cr3 mem self mem' self' res :
  destroy cr3 (mem, self) = (mem', self', res) ->
  (res = Ok tt /\ root self' = None /\ user_pages self' = []) \/
  (res <> Ok tt /\ root self' = root self /\ exists gone, user_pages self = user_pages self' ++ gone).
Proof.
  unfold destroy. destruct (root self) as [r|] eqn:Hr.
  2: { intros [= <- <- <-]. right. split_and!; [done..|]. exists []. by rewrite app_nil_r. }
  destruct (Z.eqb_spec cr3 r) as [->|Hne].
  { intros [= <- <- <-]. right. split_and!; [done..|]. exists []. by rewrite app_nil_r. }
  destruct (destroy_pages _ _ _) as [[m rest] res1] eqn:E.
  apply destroy_pages_suffix in E as (gone & Hrev & Hok).
  assert (user_pages self = reverse rest ++ reverse gone) as Hp.
  { rewrite <-reverse_app, <-Hrev. by rewrite reverse_involutive. }
  destruct res1 as [[]|e|].
  - rewrite (Hok eq_refl) in *. destruct (with_manager _ _ m) as [m2 [[]|e|]]; intros [= <- <- <-].
    + left. done.
    + right. split_and!; [done..|]. eauto.
    + right. split_and!; [done..|]. eauto.
  - intros [= <- <- <-]. right. split_and!; [done..|]. eauto.
  - intros [= <- <- <-]. right. split_and!; [done..|]. eauto.
Qed.

Lemma destroy_ok cr3 mem self mem' self' res :
  pages_ok self -> destroy cr3 (mem, self) = (mem', self', res) -> pages_ok self'.
Proof.
  intros Hok [(_ & _ & Hp)|(_ & _ & gone & Hp)]%destroy_spec.
  - split; rewrite Hp; constructor.
  - destruct self, self'. simpl in Hp. subst. by apply (pages_ok_prefix _ _ gone) in Hok.
Qed.

End manager.

(** ** A failed mapping *)

(** What the page-table code promises about frames: [map_to] takes at most three
    frames, for tables, and after it fails [clean_up_addr_range] on the page
    returns them. *)
Class MapperLaws (PT : Type) `{Mapper PT} := {
  map_to_frames : forall root page frame flags t a t1 a1 r,
    allocator_ok a -> pt_map_to root page frame flags t a = (t1, a1, r) ->
    r <> Panic /\ allocator_ok a1 /\
    exists taken, pool a = taken ++ pool a1 /\ (length taken <= 3)%nat /\
      reclaimed_count a1 = (reclaimed_count a - length taken)%nat /\
      forall e, r = Err e -> exists t2 a2,
        pt_clean_up root page t1 a1 = (t2, a2, Ok tt) /\ allocator_ok a2 /\
        pool a2 ≡ₚ taken ++ pool a1 /\
        reclaimed_count a2 = (reclaimed_count a1 + length taken)%nat;
}.

Section no_leak.
Context {PT : Type} `{MapperLaws PT}.
Variable from_start_address : Z -> option Z.
Variable try_new : Z -> option Z.
Hypothesis from_start_address_aligned : forall address,
  0 <= address < 2 ^ 52 -> address mod PAGE_SIZE = 0 ->
  from_start_address address = Some address.

Lemma assert_reclaim_spec {E} f (m : MemoryManager PT) :
  allocator_ok (mm_allocator m) ->
  (reclaimed_count (mm_allocator m) < RECLAIMED_FRAME_CAPACITY)%nat ->
  exists m', assert_reclaim (E := E) f m = (m', Ok tt) /\ allocator_ok (mm_allocator m') /\
    pool (mm_allocator m') = f :: pool (mm_allocator m).
Proof.
  intros Ha Hc. unfold assert_reclaim. pose proof (reclaim_frame_spec f _ Ha) as Hr.
  rewrite (proj2 (Nat.ltb_lt _ _) Hc) in Hr. destruct Hr as (b & -> & Hp & Hb & _).
  eexists. by split.
Qed.

(** A frame just taken from the pool can be given back. *)
Lemma allocate_frame_spec {E} (m : MemoryManager PT) :
  allocator_ok (mm_allocator m) ->
  exists m', allocate_frame from_start_address (E := E) m = (m', Ok (head (pool (mm_allocator m)))) /\
    allocator_ok (mm_allocator m') /\ pool (mm_allocator m') = tail (pool (mm_allocator m)) /\
    reclaimed_count (mm_allocator m') = (reclaimed_count (mm_allocator m) - 1)%nat /\
    mm_offset m' = mm_offset m.
Proof.
  intros Ha. unfold allocate_frame.
  destruct (next_usable_frame_spec _ from_start_address_aligned _ Ha) as (b & -> & ? & ? & _ & ?).
  eexists. by split.
Qed.

(** The allocator after a mapping: a success keeps the frame and the tables, a
    failure keeps nothing. *)
Definition frames_kept (m m' : MemoryManager PT) (r : outcome MappingError Z) : Prop :=
  allocator_ok (mm_allocator m') /\
  match r with
  | Ok frame => exists taken, (length taken <= 3)%nat /\
      pool (mm_allocator m) = frame :: taken ++ pool (mm_allocator m')
  | Err _ => pool (mm_allocator m') ≡ₚ pool (mm_allocator m)
  | Panic => False
  end.

Lemma map_or_clean_up_spec root page frame flags (m : MemoryManager PT) :
  allocator_ok (mm_allocator m) ->
  (reclaimed_count (mm_allocator m) < RECLAIMED_FRAME_CAPACITY)%nat ->
  exists m' r, map_or_clean_up root page frame flags MapMapper (assert_reclaim frame) m = (m', r) /\
    allocator_ok (mm_allocator m') /\
    match r with
    | Ok _ => exists taken, (length taken <= 3)%nat /\
        pool (mm_allocator m) = taken ++ pool (mm_allocator m')
    | Err _ => pool (mm_allocator m') ≡ₚ frame :: pool (mm_allocator m)
    | Panic => False
    end.
Proof.
  intros Ha Hc. unfold map_or_clean_up, map_to_at.
  destruct (pt_map_to root page frame flags (mm_tables m) (mm_allocator m)) as [[t1 a1] r] eqn:E.
  destruct (map_to_frames _ _ _ _ _ _ _ _ _ Ha E) as (Hnp & Ha1 & taken & Hpool & Hlen & Hcnt & Herr).
  destruct r as [[]|e|]; simpl map_err; cbv iota; [|..|done].
  { eexists _, _. split; [done|]. split; [done|]. eauto. }
  destruct (Herr e eq_refl) as (t2 & a2 & Ecl & Ha2 & Hp2 & Hc2). simpl.
  unfold clean_up_at, fail, mbind, op_bind. simpl. rewrite Ecl. simpl.
  destruct (assert_reclaim_spec (E := MappingError) frame
    (set_tables t2 (set_allocator a2 (set_tables t1 (set_allocator a1 m))))) as (m3 & -> & Ha3 & Hp3).
  { done. }
  { simpl. lia. }
  simpl in Hp3. eexists _, _. split; [done|]. split; [done|]. simpl.
  by rewrite Hp3, Hp2, Hpool.
Qed.

Lemma mm_map_user_page_spec root page access (m : MemoryManager PT) m' r :
  allocator_ok (mm_allocator m) ->
  mm_map_user_page from_start_address try_new root page access m = (m', r) -> frames_kept m m' r.
Proof.
  intros Ha E. unfold mm_map_user_page in E. unfold mbind at 1, op_bind at 1 in E.
  destruct (allocate_frame_spec (E := MappingError) m Ha) as (m1 & E1 & Ha1 & Hp1 & Hc1 & _).
  rewrite E1 in E. unfold frames_kept.
  pose proof (aok_count _ Ha). assert (reclaimed_count (mm_allocator m1) < RECLAIMED_FRAME_CAPACITY)%nat as Hlt by lia.
  destruct (pool (mm_allocator m)) as [|f l] eqn:Hp.
  { unfold_op. simplify_eq. split; [done|]. by rewrite Hp1. }
  simpl in Hp1. subst l.
  destruct (assert_reclaim_spec (E := MappingError) f m1 Ha1 Hlt) as (m2 & E2 & Ha2 & Hp2).
  unfold mbind, op_bind, fail, mret, op_ret in E. cbn [head lift ok_or get] in E.
  destruct (physical_to_virtual try_new m1 f); [|rewrite E2 in E; simplify_eq; by rewrite Hp2].
  cbn [modify] in E. destruct (physical_to_virtual try_new m1 root).
  - set (m3 := set_tables _ m1) in E.
    destruct (map_or_clean_up_spec root page f (access_flags access) m3 Ha1 Hlt)
      as (m4 & r4 & E4 & Ha4 & Hr4).
    rewrite E4 in E. simpl in Hr4.
    destruct r4 as [[]|e|]; [| |done]; simplify_eq; (split; [done|]); [|done].
    destruct Hr4 as (taken & ? & ->). eauto.
  - destruct (assert_reclaim_spec (E := MappingError) f
      (set_tables (pt_zero_frame f (mm_tables m1)) m1) Ha1 Hlt) as (m5 & E5 & Ha5 & Hp5).
    rewrite E5 in E. simplify_eq. split; [done|]. by rewrite Hp5.
Qed.

End no_leak.

(** ** An example page-table module

    [map_to] takes a frame for a table, if there is one, and fails; [clean_up]
    returns the frame the last [map_to] took. *)

Definition example_mapper : Mapper (option Z) := {|
  pt_map_to root page frame flags t a :=
    match next_usable_frame example_frame a with
    | (a, Ok (Some f)) => (Some f, a, Err ParentEntryHugePage)
    | (a, _) => (None, a, Err MapFrameAllocationFailed)
    end;
  pt_unmap root page t := (t, Err UnmapPageNotMapped);
  pt_clean_up root page t a :=
    match t with
    | Some f => let '(a, done) := reclaim_frame f a in (None, a, if done then Ok tt else Panic)
    | None => (t, a, Ok tt)
    end;
  pt_translate root page t := None;
  pt_level4 root index t := None;
  pt_set_level4 root index entry t := t;
  pt_clear_table root t := t;
  pt_zero_frame frame t := t;
|}.

Lemma example_mapper_laws : @MapperLaws (option Z) example_mapper.
Proof.
  split. intros root page frame flags t a t1 a1 r Ha. simpl.
  destruct (next_usable_frame_spec _ example_frame_aligned a Ha) as (b & -> & Hp & Hb & _ & Hc).
  pose proof (aok_count _ Ha).
  destruct (pool a) as [|f l] eqn:Hpool; simpl; intros [= <- <- <-]; (split; [done|]); (split; [done|]).
  - exists []. simpl in *. split; [done|]. split; [lia|]. split.
    + pose proof (length_cached a Ha) as Hl. apply app_eq_nil in Hpool as [Hnil _].
      rewrite Hnil in Hl. simpl in Hl. lia.
    + intros e _. eexists _, _. split; [done|]. split; [done|]. split; [done|lia].
  - exists [f]. simpl in *. split; [by rewrite Hp|]. split; [lia|]. split; [lia|].
    intros e _. pose proof (reclaim_frame_spec f b Hb) as Hr.
    rewrite (proj2 (Nat.ltb_lt _ _)) in Hr by lia. destruct Hr as (c & -> & Hpc & Hcok & _ & Hcc).
    eexists _, _. split; [done|]. split; [done|]. split; [by rewrite Hpc|lia].
Qed.

Definition example_manager : MemoryManager (option Z) :=
  mk_manager None example_allocator example_limit 0x20C000 0xFFFF800000000000.

Definition example_memory : @Memory (option Z) := Some (Ok example_manager).

(** ** Properties *)

(** Destroying an address space either releases it, with no page left, or fails
    and keeps its root and exactly the pages that are still mapped (a prefix of
    the list: pages are unmapped from its end), so that it can be destroyed later;
    the active address space is never touched. *)
Theorem destroy_is_resumable {PT : Type} `{Mapper PT} try_new cr3 mem self :
  let '(mem', self', res) := destroy try_new cr3 (mem, self) in
  ((res = Ok tt /\ root self' = None /\ user_pages self' = []) \/
   (res <> Ok tt /\ root self' = root self /\
    exists gone, user_pages self = user_pages self' ++ gone)) /\
  (root self = Some cr3 -> mem' = mem /\ self' = self /\ res = Err ActiveAddressSpace).
Proof.
  destruct (destroy try_new cr3 (mem, self)) as [[mem' self'] res] eqn:E.
  split; [by eapply destroy_spec|]. intros Hr. unfold destroy in E. rewrite Hr, Z.eqb_refl in E.
  by simplify_eq.
Qed.

Lemma destroy_is_resumable_witness :
  @destroy _ example_mapper example_try_new 0x300000 (example_memory, example_space)
  = (example_memory, example_space, Err ActiveAddressSpace).
Proof.
  generalize (@destroy_is_resumable _ example_mapper example_try_new 0x300000
    example_memory example_space).
  destruct (@destroy _ example_mapper example_try_new 0x300000 (example_memory, example_space))
    as [[m s] r].
  intros [_ Hd]. destruct (Hd eq_refl) as (Em & Es & Er). by subst.
Defined.

(** Mapping, unmapping and destroying keep the page list of a process free of
    duplicates and inside the user slot of the address space, on every path. *)
Theorem address_space_pages {PT : Type} `{Mapper PT} from_start_address try_new
  cr3 mem self reserved page access :
  pages_ok self ->
  pages_ok (map_user_page from_start_address try_new reserved page access (mem, self)).1.2 /\
  pages_ok (unmap_user_page try_new page (mem, self)).1.2 /\
  pages_ok (destroy try_new cr3 (mem, self)).1.2.
Proof.
  intros Hok.
  destruct (map_user_page from_start_address try_new reserved page access (mem, self))
    as [[m1 s1] r1] eqn:E1.
  destruct (unmap_user_page try_new page (mem, self)) as [[m2 s2] r2] eqn:E2.
  destruct (destroy try_new cr3 (mem, self)) as [[m3 s3] r3] eqn:E3. simpl.
  split_and!; [by eapply map_user_page_ok|by eapply unmap_user_page_ok|by eapply destroy_ok].
Qed.

Lemma address_space_pages_witness :
  let mem := example_memory in
  pages_ok example_space /\
  pages_ok (@map_user_page _ example_mapper example_frame example_try_new true
    USER_SPACE_START ReadWrite (mem, example_space)).1.2 /\
  pages_ok (@unmap_user_page _ example_mapper example_try_new USER_SPACE_START
    (mem, example_space)).1.2 /\
  pages_ok (@destroy _ example_mapper example_try_new 0 (mem, example_space)).1.2.
Proof.
  assert (Hok : pages_ok example_space).
  { split; [apply (bool_decide_unpack _); by vm_compute|by repeat constructor]. }
  exact (conj Hok (@address_space_pages _ example_mapper example_frame example_try_new 0
    example_memory example_space true USER_SPACE_START ReadWrite Hok)).
Defined.

(** Mapping a user page never trips the assertions on the reclaim cache, and
    when it fails every frame it took, for the page and for page tables, is back
    in the allocator. *)
Theorem failed_mapping_returns_frames {PT : Type} `{MapperLaws PT} from_start_address try_new
  root page access (m m' : MemoryManager PT) r :
  (forall address, 0 <= address < 2 ^ 52 -> address mod PAGE_SIZE = 0 ->
     from_start_address address = Some address) ->
  allocator_ok (mm_allocator m) ->
  mm_map_user_page from_start_address try_new root page access m = (m', r) ->
  r <> Panic /\ allocator_ok (mm_allocator m') /\
  (forall e, r = Err e -> pool (mm_allocator m') ≡ₚ pool (mm_allocator m)).
Proof.
  intros Hfs Ha E. destruct (mm_map_user_page_spec _ try_new Hfs _ _ _ _ _ _ Ha E) as [Ha' Hr].
  by destruct r.
Qed.

Lemma failed_mapping_returns_frames_witness :
  let '(m', r) := @mm_map_user_page _ example_mapper example_frame example_try_new
    0x20C000 USER_SPACE_START ReadWrite example_manager in
  r = Err (MapMapper ParentEntryHugePage) /\
  r <> Panic /\ allocator_ok (mm_allocator m') /\
  (forall e, r = Err e -> pool (mm_allocator m') ≡ₚ pool (mm_allocator example_manager)).
Proof.
  destruct (@mm_map_user_page _ example_mapper example_frame example_try_new
    0x20C000 USER_SPACE_START ReadWrite example_manager) as [m' r] eqn:E.
  split; [vm_compute in E; by injection E as _ <-|].
  exact (@failed_mapping_returns_frames _ example_mapper example_mapper_laws example_frame
    example_try_new 0x20C000 USER_SPACE_START ReadWrite example_manager m' r
    example_frame_aligned example_allocator_ok E).
Defined.
