(* ===== verification/Heap.v ===== *)
(** * The kernel heap

    [memory/heap.rs]: the size computations of a growth, [grow] with its rollback,
    and the global allocator.  The free lists are code of the crate
    [linked_list_allocator]: the class [LinkedHeap] lists the calls, and
    [LinkedHeapLaws] what the crate documents of them.  A null pointer is [None].

    Every state change happens under the allocator's lock with interrupts
    disabled ([with_heap]), so that an operation is one step. *)

From S2P Require Import Prelude FrameAlloc FrameCount UserRange Paging.

Local Open Scope Z_scope.

Definition HEAP_SIZE : Z := 1024 * 1024.
Definition HEAP_PAGES : Z := HEAP_SIZE / PAGE_SIZE.
Definition HEAP_GROWTH_PAGES : Z := HEAP_PAGES.
Definition PML4_SLOT_SIZE : Z := Z.shiftl 1 39.
Definition LOWER_HALF_PML4_ENTRIES : Z := 256.
Definition PML4_SLOT_PAGES : Z := PML4_SLOT_SIZE / PAGE_SIZE.
Definition MIN_HOLE_SIZE : Z := 2 * 8.
Definition PAGES_PER_PAGE_TABLE : Z := 512.
Definition PAGES_PER_PAGE_DIRECTORY : Z := Z.shiftl 1 18.

Inductive HeapError :=
| HeapMemory (e : MemoryError)
| HeapMapping (e : MappingError)
| AlreadyInitialized
| NoVirtualRange
| InsufficientPhysicalMemory
| RollbackFailed.

(** [core::alloc::Layout]. *)
Record Layout := mk_layout { l_size : Z; l_align : Z }.

(** ** Sizes *)

Definition growth_pages_for_layout (layout : Layout) : option (Z * Z) :=
  let allocation_bytes := Z.max (l_size layout) MIN_HOLE_SIZE in
  minimum_bytes ← checked_add u64_limit allocation_bytes (PAGE_SIZE - 1);
  let minimum_pages := minimum_bytes / PAGE_SIZE in
  slack ← checked_sub (l_align layout) 1;
  aligned_bytes ← checked_add u64_limit allocation_bytes slack;
  rounded_aligned_bytes ← checked_add u64_limit aligned_bytes (PAGE_SIZE - 1);
  let target_pages := rounded_aligned_bytes / PAGE_SIZE in
  Some (minimum_pages, target_pages).

Definition ceil_div (value divisor : Z) : option Z :=
  d ← checked_sub divisor 1;
  v ← checked_add u64_limit value d;
  if divisor =? 0 then None else Some (v / divisor).

Definition added_table_pages (previous_pages growth_pages pages_per_table : Z) : option Z :=
  end_pages ← checked_add u64_limit previous_pages growth_pages;
  after ← ceil_div end_pages pages_per_table;
  before ← ceil_div previous_pages pages_per_table;
  checked_sub after before.

Definition required_frames_for_growth (previous_pages growth_pages : Z) : option Z :=
  if growth_pages =? 0 then None
  else
    tables ← added_table_pages previous_pages growth_pages PAGES_PER_PAGE_TABLE;
    leaf_and_pt ← checked_add u64_limit growth_pages tables;
    directories ← added_table_pages previous_pages growth_pages PAGES_PER_PAGE_DIRECTORY;
    with_pd ← checked_add u64_limit leaf_and_pt directories;
    checked_add u64_limit with_pd (if previous_pages =? 0 then 1 else 0).

Definition growth_chunk_pages (target_total_pages already_mapped_pages available_pages : Z) : Z :=
  let desired_pages :=
    if already_mapped_pages <? target_total_pages
    then target_total_pages - already_mapped_pages else HEAP_GROWTH_PAGES in
  Z.min (Z.min desired_pages HEAP_GROWTH_PAGES) available_pages.

(** The test both functions below make: the base of a lower-half slot, not 0. *)
Definition slot_of (start_address : Z) : option Z :=
  if negb (start_address mod PML4_SLOT_SIZE =? 0) then None
  else
    let slot_index := start_address / PML4_SLOT_SIZE in
    if (slot_index =? 0) || (LOWER_HALF_PML4_ENTRIES <=? slot_index) then None
    else Some slot_index.

Definition available_pages_in_slot (heap_start mapped_pages : Z) : option Z :=
  _ ← slot_of heap_start;
  checked_sub PML4_SLOT_PAGES mapped_pages.

(** [linked_list_allocator::Heap]. *)
Class LinkedHeap (H : Type) := {
  heap_allocate : Layout -> H -> H * option Z;
  heap_deallocate : Z -> Layout -> H -> H;
  heap_extend : Z -> H -> H;
  heap_init : Z -> Z -> H -> H;
  heap_bottom : H -> Z;
  heap_size : H -> Z;
}.

(** The crate: [init] sets the region, [extend] adds bytes at its end, no other call
    changes it, and a block is aligned and inside the region. *)
Class LinkedHeapLaws (H : Type) `{LinkedHeap H} := {
  init_bottom : forall p n h, heap_bottom (heap_init p n h) = p;
  init_size : forall p n h, heap_size (heap_init p n h) = n;
  extend_bottom : forall n h, heap_bottom (heap_extend n h) = heap_bottom h;
  extend_size : forall n h, heap_size (heap_extend n h) = heap_size h + n;
  allocate_bottom : forall l h, heap_bottom (heap_allocate l h).1 = heap_bottom h;
  allocate_size : forall l h, heap_size (heap_allocate l h).1 = heap_size h;
  deallocate_bottom : forall p l h, heap_bottom (heap_deallocate p l h) = heap_bottom h;
  deallocate_size : forall p l h, heap_size (heap_deallocate p l h) = heap_size h;
  allocate_inside : forall l h p, (heap_allocate l h).2 = Some p ->
    heap_bottom h <= p /\ p + l_size l <= heap_bottom h + heap_size h /\ p mod l_align l = 0;
}.

Record HeapState (H : Type) := mk_heap_state {
  hs_heap : H;
  hs_initialized : bool;
  hs_poisoned : bool;
  hs_start : option Z;
  hs_mapped_pages : Z;
}.

Arguments mk_heap_state {H} _ _ _ _ _.
Arguments hs_heap {H} _.
Arguments hs_initialized {H} _.
Arguments hs_poisoned {H} _.
Arguments hs_start {H} _.
Arguments hs_mapped_pages {H} _.

Section heap.
Context {PT : Type} `{Mapper PT} {HP : Type} `{LinkedHeap HP}.
Variable from_start_address : Z -> option Z.
Variable try_new : Z -> option Z.

(** [sort_unstable_by_key(|reserved| reserved.start)]. *)
Variable sort_by_start : list PhysicalRange -> list PhysicalRange.

Definition checked_growth_start (heap_start mapped_pages additional_pages : Z) : option Z :=
  if additional_pages =? 0 then None
  else
    slot_index ← slot_of heap_start;
    total_pages ← checked_add u64_limit mapped_pages additional_pages;
    total_bytes ← checked_mul u64_limit total_pages PAGE_SIZE;
    end_exclusive ← checked_add u64_limit heap_start total_bytes;
    next_slot ← checked_add u64_limit slot_index 1;
    slot_end ← checked_mul u64_limit next_slot PML4_SLOT_SIZE;
    if slot_end <? end_exclusive then None
    else
      last ← checked_sub end_exclusive 1;
      _ ← try_new last;
      offset ← checked_mul u64_limit mapped_pages PAGE_SIZE;
      growth ← checked_add u64_limit heap_start offset;
      try_new growth.

(** [MemoryManager::first_unused_low_half_page]. *)
Definition first_unused_low_half_page (m : MemoryManager PT) : option Z :=
  index ← head (filter (fun index =>
    index <> Z.to_nat USER_PML4_INDEX /\
    is_none (pt_level4 (mm_kernel_root m) index (mm_tables m)) = true) (seq 1 255));
  Some (Z.shiftl (Z.of_nat index) 39).

Definition heap_flags : Z := Z.lor (Z.lor PRESENT WRITABLE) NO_EXECUTE.

(** [Page::containing_address(growth_start + index * PAGE_SIZE)]; the addition of
    the [x86_64] crate panics on an address that is not canonical. *)
Definition growth_page {E} (growth_start : Z) (index : nat) : Op (MemoryManager PT) E Z :=
  address ← lift (expect (try_new (growth_start + Z.of_nat index * PAGE_SIZE)));
  mret (page_down address).

(** A call whose error the caller looks at. *)
Definition attempt {E F A} (op : Op (MemoryManager PT) E A) :
  Op (MemoryManager PT) F (option E) := fun m =>
  match op m with
  | (m, Ok _) => (m, Ok None)
  | (m, Err e) => (m, Ok (Some e))
  | (m, Panic) => (m, Panic)
  end.

(** The rollback loop: unmap the pages below [mapped_pages], from the last. *)
Fixpoint rollback (growth_start : Z) (mapped_pages : nat) (rollback_failed : bool) :
  Op (MemoryManager PT) HeapError bool :=
  match mapped_pages with
  | O => mret rollback_failed
  | S mapped_pages =>
      rollback_page ← growth_page growth_start mapped_pages;
      error ← attempt (mm_unmap_and_deallocate rollback_page);
      rollback growth_start mapped_pages
        (match error with Some _ => true | None => rollback_failed end)
  end.

(** The mapping loop, with [remaining] pages to go. *)
Fixpoint map_pages (growth_start : Z) (remaining mapped_pages : nat) :
  Op (MemoryManager PT) HeapError unit :=
  match remaining with
  | O => mret tt
  | S remaining =>
      page ← growth_page growth_start mapped_pages;
      error ← attempt (mm_allocate_and_map from_start_address page heap_flags);
      match error with
      | None => map_pages growth_start remaining (S mapped_pages)
      | Some error =>
          rollback_failed ← rollback growth_start mapped_pages false;
          fail (if rollback_failed : bool then RollbackFailed else HeapMapping error)
      end
  end.

(** The closure [grow] passes to [with_manager]. *)
Definition grow_pages (heap_start : option Z) (already_mapped_pages target_total_pages : Z) :
  Op (MemoryManager PT) HeapError (Z * Z) :=
  m ← get;
  base ← lift (match heap_start with
               | Some start => Ok start
               | None => ok_or (first_unused_low_half_page m) NoVirtualRange
               end);
  available_pages ← lift (ok_or (available_pages_in_slot base already_mapped_pages) NoVirtualRange);
  let pages := growth_chunk_pages target_total_pages already_mapped_pages available_pages in
  if pages =? 0 then fail NoVirtualRange
  else
    growth_start ← lift (ok_or (checked_growth_start base already_mapped_pages pages) NoVirtualRange);
    required_frames ← lift (ok_or (required_frames_for_growth already_mapped_pages pages)
                              InsufficientPhysicalMemory);
    available_frames ← lift (expect (available_frame_count (mm_allocator m)
                               (sort_by_start (reserved (mm_allocator m)))));
    if available_frames <? required_frames then fail InsufficientPhysicalMemory
    else
      _ ← map_pages growth_start (Z.to_nat pages) 0;
      mret (growth_start, pages).

(** ** The allocator *)

Definition HM : Type := HeapState HP * @Memory PT.

Definition set_heap (h : HP) (s : HeapState HP) : HeapState HP :=
  mk_heap_state h (hs_initialized s) (hs_poisoned s) (hs_start s) (hs_mapped_pages s).
Definition set_initialized (s : HeapState HP) : HeapState HP :=
  mk_heap_state (hs_heap s) true (hs_poisoned s) (hs_start s) (hs_mapped_pages s).
Definition set_poisoned (s : HeapState HP) : HeapState HP :=
  mk_heap_state (hs_heap s) (hs_initialized s) true (hs_start s) (hs_mapped_pages s).

(** The end of [grow]: the heap takes the new pages. *)
Definition commit (growth_start pages : Z) (s : HeapState HP) : HeapState HP :=
  match hs_start s with
  | Some start =>
      mk_heap_state (heap_extend (pages * PAGE_SIZE) (hs_heap s)) (hs_initialized s) (hs_poisoned s)
        (Some start) (hs_mapped_pages s + pages)
  | None =>
      mk_heap_state (heap_init growth_start (pages * PAGE_SIZE) (hs_heap s)) (hs_initialized s)
        (hs_poisoned s) (Some growth_start) (hs_mapped_pages s + pages)
  end.

Definition grow (target_total_pages : Z) : Op HM HeapError unit := fun '(s, mem) =>
  if hs_poisoned s then ((s, mem), Err RollbackFailed)
  else
    match mem with
    | None => ((s, mem), Err (HeapMemory NotInitialized))
    | Some (Err e) => ((s, mem), Err (HeapMemory e))
    | Some Panic => ((s, mem), Panic)
    | Some (Ok m) =>
        match grow_pages (hs_start s) (hs_mapped_pages s) target_total_pages m with
        | (m, Ok (growth_start, pages)) => ((commit growth_start pages s, Some (Ok m)), Ok tt)
        | (m, Err RollbackFailed) => ((set_poisoned s, Some (Ok m)), Err RollbackFailed)
        | (m, Err e) => ((s, Some (Ok m)), Err e)
        | (m, Panic) => ((s, Some (Ok m)), Panic)
        end
    end.

(** [manager.available_frame_count()] through [with_manager]; [Err] stands for the
    manager's absence. *)
Definition frames_available (mem : @Memory PT) : outcome MemoryError Z :=
  match mem with
  | None => Err NotInitialized
  | Some (Err e) => Err e
  | Some Panic => Panic
  | Some (Ok m) =>
      expect (available_frame_count (mm_allocator m) (sort_by_start (reserved (mm_allocator m))))
  end.

(** The checks of [alloc] before it maps anything: [Ok target] to go on, [Err] for
    a null pointer. *)
Definition alloc_preflight (layout : Layout) (s : HeapState HP) (mem : @Memory PT) :
  outcome unit Z :=
  '(minimum_total_pages, target_total_pages) ← ok_or (growth_pages_for_layout layout) tt;
  if PML4_SLOT_PAGES <? target_total_pages then Err tt
  else
    let minimum_additional_pages := saturating_sub minimum_total_pages (hs_mapped_pages s) in
    if minimum_additional_pages =? 0 then Ok target_total_pages
    else
      required_frames ← ok_or (required_frames_for_growth (hs_mapped_pages s)
                                 minimum_additional_pages) tt;
      available_frames ← map_err (fun _ => tt) (frames_available mem);
      if available_frames <? required_frames then Err tt else Ok target_total_pages.

(** [state.heap.allocate_first_fit(layout)]. *)
Definition try_allocate (layout : Layout) (s : HeapState HP) : HeapState HP * option Z :=
  let '(h, p) := heap_allocate layout (hs_heap s) in (set_heap h s, p).

(** One round of the [loop] of [alloc]. *)
Definition alloc_round (layout : Layout) (target_total_pages : Z) (target_requires_growth : bool)
  (st : HM) : HM + HM * outcome Empty_set (option Z) :=
  match grow target_total_pages st with
  | ((s, mem), Ok _) =>
      match try_allocate layout s with
      | (s, Some p) => inr ((s, mem), Ok (Some p))
      | (s, None) =>
          if target_requires_growth && (target_total_pages <=? hs_mapped_pages s)
          then inr ((s, mem), Ok None) else inl (s, mem)
      end
  | (st, Err _) => inr (st, Ok None)
  | (st, Panic) => inr (st, Panic)
  end.

(** The [loop]; a slot has fewer pages than the bound on its rounds. *)
Definition alloc_loop (layout : Layout) (target_total_pages : Z) (st : HM) :
  option (HM * outcome Empty_set (option Z)) :=
  while_loop (PML4_SLOT_PAGES + 1)
    (alloc_round layout target_total_pages (hs_mapped_pages st.1 <? target_total_pages)) st.

(** [GlobalAlloc::alloc]. *)
Definition alloc (layout : Layout) : Op HM Empty_set (option Z) := fun '(s, mem) =>
  if negb (hs_initialized s) || hs_poisoned s then ((s, mem), Ok None)
  else
    match try_allocate layout s with
    | (s, Some p) => ((s, mem), Ok (Some p))
    | (s, None) =>
        match alloc_preflight layout s mem with
        | Err _ => ((s, mem), Ok None)
        | Panic => ((s, mem), Panic)
        | Ok target_total_pages =>
            default ((s, mem), Panic) (alloc_loop layout target_total_pages (s, mem))
        end
    end.

(** [GlobalAlloc::dealloc]. *)
Definition dealloc (pointer : Z) (layout : Layout) : Op HM Empty_set unit := fun '(s, mem) =>
  if negb (hs_initialized s) || (pointer =? 0) then ((s, mem), Panic)
  else ((set_heap (heap_deallocate pointer layout (hs_heap s)) s, mem), Ok tt).

Definition heap_initialize : Op HM HeapError unit := fun '(s, mem) =>
  if hs_initialized s then ((s, mem), Err AlreadyInitialized)
  else if hs_poisoned s then ((s, mem), Err RollbackFailed)
  else
    match grow HEAP_GROWTH_PAGES (s, mem) with
    | ((s, mem), Ok _) => ((set_initialized s, mem), Ok tt)
    | other => other
    end.

Definition mapped_bytes (s : HeapState HP) : Z := hs_mapped_pages s * PAGE_SIZE.

End heap.

(** ** Specification *)

(** Page-table [i] of a level whose tables map [d] pages each holds a page of
    [a, b), counted from the base of the heap. *)
Definition touches (d a b i : Z) : bool := (a <? b) && (a <? (i + 1) * d) && (i * d <? b).

(** The tables a growth from [p] by [g] pages needs and that are not there yet. *)
Definition new_tables (d p g : Z) : list Z :=
  filter (fun i => touches d p (p + g) i = true /\ touches d 0 p i = false) (seqZ 0 (p + g)).

Definition slot_base (b : Z) : Prop :=
  exists i, 1 <= i < USER_PML4_INDEX /\ b = i * PML4_SLOT_SIZE.

(** The committed extent is one range of whole pages at the base of a slot of the
    kernel's lower half, and it is the region of the free list. *)
Definition heap_ok {HP} `{LinkedHeap HP} (s : HeapState HP) : Prop :=
  0 <= hs_mapped_pages s <= PML4_SLOT_PAGES /\
  match hs_start s with
  | None => hs_mapped_pages s = 0 /\ hs_initialized s = false
  | Some b => 0 < hs_mapped_pages s /\ slot_base b /\
      heap_bottom (hs_heap s) = b /\ heap_size (hs_heap s) = hs_mapped_pages s * PAGE_SIZE
  end.

(** ** Lemmas on sizes *)

Lemma ceil_div_spec v d :
  0 < d -> 0 <= v -> v + d <= u64_limit -> ceil_div v d = Some ((v + d - 1) / d).
Proof.
  intros Hd Hv Hl. unfold ceil_div, checked_sub, checked_add. rewrite (proj2 (Z.leb_le _ _)) by lia.
  cbn [mbind option_bind]. rewrite (proj2 (Z.ltb_lt _ _)) by lia. cbn [mbind option_bind].
  rewrite (proj2 (Z.eqb_neq _ _)) by lia. do 2 f_equal. lia.
Qed.

(** [ceil] as a bound. *)
Lemma ceil_le v d i : 0 < d -> (v + d - 1) / d <= i <-> v <= i * d.
Proof.
  intros Hd. split; intros Hi.
  - pose proof (Z.mul_succ_div_gt (v + d - 1) d Hd). nia.
  - apply Z.lt_succ_r, Z.div_lt_upper_bound; lia.
Qed.

Lemma elem_of_new_tables d p g i :
  0 < d -> 0 <= p -> 0 < g ->
  i ∈ new_tables d p g <-> (p + d - 1) / d <= i < (p + g + d - 1) / d.
Proof.
  intros Hd Hp Hg. unfold new_tables, touches. rewrite list_elem_of_filter, elem_of_seqZ.
  pose proof (ceil_le p d i Hd). pose proof (ceil_le (p + g) d i Hd).
  rewrite <-not_true_iff_false, !andb_true_iff, !Z.ltb_lt. split.
  - intros [[[[_ ?] ?] Hn] ?]. destruct (Z.le_gt_cases p (i * d)) as [?|Hlt]; [lia|].
    destruct Hn. split_and!; nia.
  - intros [? ?]. assert (p <= i * d < p + g) by lia. assert (0 <= i) by nia.
    split; [split; [split; [split; [lia|nia]|lia]|lia]|nia].
Qed.

Lemma length_new_tables d p g :
  0 < d -> 0 <= p -> 0 < g ->
  Z.of_nat (length (new_tables d p g)) = (p + g + d - 1) / d - (p + d - 1) / d.
Proof.
  intros Hd Hp Hg.
  assert ((p + d - 1) / d <= (p + g + d - 1) / d) by (apply Z.div_le_mono; lia).
  assert (new_tables d p g ≡ₚ seqZ ((p + d - 1) / d) ((p + g + d - 1) / d - (p + d - 1) / d)) as ->.
  { apply NoDup_Permutation; [apply NoDup_filter, NoDup_seqZ|apply NoDup_seqZ|].
    intros i. rewrite elem_of_new_tables, elem_of_seqZ by done. lia. }
  rewrite length_seqZ. lia.
Qed.

Lemma added_table_pages_spec p g d :
  0 < d -> 0 <= p -> 0 < g -> p + g + d <= u64_limit ->
  added_table_pages p g d = Some (Z.of_nat (length (new_tables d p g))).
Proof.
  intros Hd Hp Hg Hl. unfold added_table_pages, checked_add at 1.
  rewrite (proj2 (Z.ltb_lt _ _)) by lia. cbn [mbind option_bind].
  rewrite !ceil_div_spec by lia. cbn [mbind option_bind]. rewrite length_new_tables by done.
  apply checked_sub_Some. split; [done|]. apply Z.div_le_mono; lia.
Qed.

(** ** Lemmas on growth *)

Section growth.
Context {PT : Type} `{Mapper PT} {HP : Type} `{LinkedHeapLaws HP}.
Variable from_start_address : Z -> option Z.
Variable try_new : Z -> option Z.
Variable sort_by_start : list PhysicalRange -> list PhysicalRange.
Hypothesis try_new_same : forall address v, try_new address = Some v -> v = address.

Lemma slot_of_base i : 1 <= i < 256 -> slot_of (i * PML4_SLOT_SIZE) = Some i.
Proof.
  intros Hi. unfold slot_of. rewrite Z.mod_mul, Z.div_mul by done. simpl.
  unfold LOWER_HALF_PML4_ENTRIES. rewrite (proj2 (Z.eqb_neq _ _)), (proj2 (Z.leb_gt _ _)) by lia. done.
Qed.

Lemma first_unused_base (m : MemoryManager PT) b :
  first_unused_low_half_page m = Some b -> slot_base b.
Proof.
  unfold first_unused_low_half_page. intros (i & Hi & [= <-])%bind_Some.
  apply head_Some_elem_of in Hi. rewrite list_elem_of_filter, elem_of_seq in Hi.
  destruct Hi as [[Hi _] ?]. exists (Z.of_nat i).
  rewrite Z.shiftl_mul_pow2 by lia. split; [lia|done].
Qed.

Lemma growth_chunk_bounds target already available :
  0 <= available ->
  0 <= growth_chunk_pages target already available <= Z.min 256 available /\
  (already < target -> already + growth_chunk_pages target already available <= target).
Proof.
  intros Ha. unfold growth_chunk_pages. change HEAP_GROWTH_PAGES with 256. case_match; bools; lia.
Qed.

Lemma checked_growth_start_same b n k g :
  slot_base b -> checked_growth_start try_new b n k = Some g -> g = b + n * PAGE_SIZE.
Proof.
  intros (i & Hi & ->). unfold checked_growth_start. case_match; [done|].
  rewrite slot_of_base by lia. intros Hg. cbn [mbind option_bind] in Hg.
  repeat match type of Hg with
  | mbind _ _ = Some _ => apply bind_Some in Hg as (? & ? & Hg)
  | (if ?b then _ else _) = _ => destruct b; [done|]
  end.
  apply try_new_same in Hg as ->.
  by repeat match goal with Hx : _ = Some _ |- _ =>
    first [apply checked_add_Some in Hx as [-> _]|apply checked_mul_Some in Hx as [-> _]|clear Hx] end.
Qed.

(** A successful growth maps the next pages of the slot. *)
Lemma grow_pages_Ok start n target (m m' : MemoryManager PT) g k :
  match start with Some b => slot_base b | None => True end ->
  0 <= n ->
  grow_pages from_start_address try_new sort_by_start start n target m = (m', Ok (g, k)) ->
  exists b, slot_base b /\ (forall c, start = Some c -> b = c) /\ g = b + n * PAGE_SIZE /\
    1 <= k <= 256 /\ n + k <= PML4_SLOT_PAGES /\ (n < target -> n + k <= target).
Proof.
  intros Hs Hn. unfold grow_pages, get, lift, mbind, op_bind.
  destruct (match start with Some _ => _ | None => _ end) as [b|e|] eqn:Hb; [|done..].
  assert (slot_base b /\ forall c, start = Some c -> b = c) as [Hbase Hc].
  { destruct start as [c|]; [injection Hb as <-; split; [done|by intros ? [= <-]]|].
    apply ok_or_Ok_inv, first_unused_base in Hb. done. }
  unfold available_pages_in_slot. pose proof Hbase as (i & Hi & ->).
  rewrite slot_of_base by lia. cbn [mbind option_bind].
  destruct (checked_sub _ _) as [avail|] eqn:Ha; [|done]. apply checked_sub_Some in Ha as [-> Ha].
  cbn [ok_or].
  pose proof (growth_chunk_bounds target n (PML4_SLOT_PAGES - n) ltac:(lia)) as [Hk Ht].
  set (pages := growth_chunk_pages _ _ _) in *.
  destruct (pages =? 0) eqn:Hzero; [done|]. bools.
  destruct (checked_growth_start _ _ _ _) as [gs|] eqn:Hg; [|done]. cbn [ok_or].
  apply checked_growth_start_same in Hg as ->; [|done].
  destruct (required_frames_for_growth _ _); [|done]. cbn [ok_or].
  destruct (available_frame_count _ _); [|done]. cbn [expect].
  destruct (_ <? _); [done|].
  destruct (map_pages _ _ _ _ _ m) as [m2 [[]|e|]]; [|done..]. intros [= <- <- <-].
  exists (i * PML4_SLOT_SIZE). split_and!; [done|done|done|lia..].
Qed.

Definition same_extent (s s' : HeapState HP) : Prop :=
  hs_heap s' = hs_heap s /\ hs_start s' = hs_start s /\ hs_mapped_pages s' = hs_mapped_pages s /\
  hs_initialized s' = hs_initialized s.

Lemma heap_ok_same s s' : same_extent s s' -> heap_ok s -> heap_ok s'.
Proof. unfold heap_ok. by intros (-> & -> & -> & ->). Qed.

(** What [grow] does to the state of the heap. *)
Lemma grow_spec target s (mem : @Memory PT) s' mem' r :
  heap_ok s -> grow from_start_address try_new sort_by_start target (s, mem) = ((s', mem'), r) ->
  match r with
  | Ok _ => exists k, 1 <= k <= 256 /\ hs_mapped_pages s' = hs_mapped_pages s + k /\
      (hs_mapped_pages s < target -> hs_mapped_pages s' <= target) /\
      (forall b, hs_start s = Some b -> hs_start s' = Some b) /\
      hs_initialized s' = hs_initialized s /\ hs_poisoned s' = false /\ heap_ok s'
  | Err e => same_extent s s' /\
      (hs_poisoned s' = hs_poisoned s \/ hs_poisoned s' = true /\ e = RollbackFailed)
  | Panic => s' = s
  end.
Proof.
  intros Hok. unfold grow. destruct (hs_poisoned s) eqn:Hp.
  { intros [= <- <- <-]. split; [done|by left]. }
  destruct mem as [[m|e|]|]; [|intros [= <- <- <-]; try (split; [done|by left]); done..].
  destruct (grow_pages _ _ _ _ _ _ _) as [m2 [[g k]|e|]] eqn:Hg.
  - intros [= <- <- <-]. pose proof Hok as [Hn Hst].
    apply grow_pages_Ok in Hg as (b & Hb & Hsame & -> & Hk & Hslot & Ht);
      [|destruct (hs_start s); tauto|lia].
    exists k. unfold commit, heap_ok. destruct (hs_start s) as [c|]; simpl.
    + rewrite extend_bottom, extend_size. destruct Hst as (? & ? & -> & ->).
      split_and!; try done; try lia.
    + destruct Hst as [Hst _]. rewrite init_bottom, init_size, Hst. replace (b + 0 * PAGE_SIZE) with b by lia.
      split_and!; try done; try lia.
  - destruct e; intros [= <- <- <-]; (split; [done|]); simpl; auto.
  - by intros [= <- <- <-].
Qed.

Lemma try_allocate_ok layout s s' p :
  heap_ok s -> try_allocate layout s = (s', p) ->
  heap_ok s' /\ hs_mapped_pages s' = hs_mapped_pages s /\ hs_start s' = hs_start s /\
  hs_initialized s' = hs_initialized s /\ hs_poisoned s' = hs_poisoned s /\
  forall q b, p = Some q -> hs_start s = Some b ->
    b <= q /\ q + l_size layout <= b + hs_mapped_pages s * PAGE_SIZE /\ q mod l_align layout = 0.
Proof.
  intros Hok. unfold try_allocate. pose proof (allocate_bottom layout (hs_heap s)) as Hb.
  pose proof (allocate_size layout (hs_heap s)) as Hsz.
  pose proof (allocate_inside layout (hs_heap s)) as Hin.
  destruct (heap_allocate layout (hs_heap s)) as [h o]. intros [= <- <-]. simpl in *.
  unfold heap_ok in *. simpl. rewrite Hb, Hsz. split; [exact Hok|]. do 4 (split; [done|]).
  intros q b -> Hst. rewrite Hst in Hok. destruct Hok as (_ & _ & _ & <- & <-). by apply Hin.
Qed.

(** A block of the layout inside the committed extent. *)
Definition block_in (layout : Layout) (s : HeapState HP) (q : Z) : Prop :=
  exists b, hs_start s = Some b /\ b <= q /\
    q + l_size layout <= b + hs_mapped_pages s * PAGE_SIZE /\ q mod l_align layout = 0.

(** What the [loop] of [alloc] ends with, from [n] pages. *)
Definition alloc_end (layout : Layout) (n target : Z)
  (r : HM (PT := PT) (HP := HP) * outcome Empty_set (option Z)) : Prop :=
  heap_ok r.1.1 /\ n <= hs_mapped_pages r.1.1 /\ (n < target -> hs_mapped_pages r.1.1 <= target) /\
  forall q, r.2 = Ok (Some q) -> block_in layout r.1.1 q.

Abbreviation round := (alloc_round from_start_address try_new sort_by_start).
Abbreviation loop := (alloc_loop from_start_address try_new sort_by_start).

Lemma alloc_round_spec layout n target s (mem : @Memory PT) :
  heap_ok s -> n <= hs_mapped_pages s -> (n < target -> hs_mapped_pages s < target) ->
  match round layout target (n <? target) (s, mem) with
  | inl (s', _) => heap_ok s' /\ hs_mapped_pages s < hs_mapped_pages s' <= PML4_SLOT_PAGES /\
      (n < target -> hs_mapped_pages s' < target)
  | inr r => alloc_end layout n target r
  end.
Proof.
  intros Hok Hn Ht. pose proof (proj1 Hok) as Hb. unfold alloc_round.
  destruct (grow _ _ _ _ _) as [[s1 mem1] r] eqn:Hg. apply grow_spec in Hg; [|done].
  destruct r as [[]|e|].
  - destruct Hg as (k & Hk & Hm & Hle & Hst & Hi & _ & Hok1).
    destruct (try_allocate layout s1) as [s2 p] eqn:Hta.
    apply try_allocate_ok in Hta as (Hok2 & Hm2 & Hst2 & _ & _ & Hq); [|done].
    pose proof (proj1 Hok2) as Hb2.
    destruct p as [q|].
    + unfold alloc_end, block_in. simpl. split; [done|]. split; [lia|]. split; [lia|].
      intros q' [= <-]. pose proof (proj2 Hok1) as Hs1. rewrite Hst2, Hm2.
      destruct (hs_start s1) as [b|]; [|destruct Hs1; lia]. exists b. split; [done|]. by apply Hq.
    + destruct (Z.ltb_spec n target); simpl; [|split_and!; [done|lia..]].
      destruct (Z.leb_spec target (hs_mapped_pages s2)); [|split_and!; [done|lia..]].
      split_and!; simpl; [done|lia|lia|done].
  - destruct Hg as [Hsame _]. split_and!; simpl; [by eapply heap_ok_same| |
      |done]; destruct Hsame as (_ & _ & -> & _); lia.
  - subst. split_and!; simpl; [done|lia|lia|done].
Qed.

Lemma alloc_loop_spec layout target s (mem : @Memory PT) :
  heap_ok s ->
  exists r, loop layout target (s, mem) = Some r /\ alloc_end layout (hs_mapped_pages s) target r.
Proof.
  intros Hok. unfold alloc_loop. simpl fst.
  apply (while_loop_ends
    (fun st : HM => heap_ok st.1 /\ hs_mapped_pages s <= hs_mapped_pages st.1 /\
       (hs_mapped_pages s < target -> hs_mapped_pages st.1 < target))
    (fun st => PML4_SLOT_PAGES - hs_mapped_pages st.1)).
  - intros [s1 mem1] (Hok1 & Hn & Ht). cbn [fst] in *.
    pose proof (alloc_round_spec layout (hs_mapped_pages s) target s1 mem1 Hok1 Hn Ht) as Hr.
    destruct (round _ _ _ _) as [[s2 mem2]|r]; [|done].
    destruct Hr as (? & ? & ?). simpl. split; [|lia]. split; [done|]. split; [lia|done].
  - simpl. split; [done|]. split; [lia|done].
  - destruct Hok as [? _]. simpl. lia.
Qed.

Lemma alloc_spec layout s (mem : @Memory PT) st r :
  heap_ok s -> alloc from_start_address try_new sort_by_start layout (s, mem) = (st, r) ->
  heap_ok st.1 /\ hs_mapped_pages s <= hs_mapped_pages st.1 /\
  (forall q, r = Ok (Some q) -> block_in layout st.1 q) /\
  (forall minimum target, growth_pages_for_layout layout = Some (minimum, target) ->
     hs_mapped_pages s < target -> hs_mapped_pages st.1 <= target).
Proof.
  intros Hok. unfold alloc. destruct (negb _ || _) eqn:Hi.
  { intros [= <- <-]. simpl. split; [done|]. split_and!; [lia|done|lia]. }
  destruct (try_allocate layout s) as [s1 p] eqn:Hta.
  apply try_allocate_ok in Hta as (Hok1 & Hm1 & Hst1 & Hin1 & _ & Hq); [|done].
  destruct p as [q|].
  { intros [= <- <-]. simpl. split; [done|]. split_and!; [lia| |lia]. intros q' [= <-].
    unfold block_in. rewrite Hst1, Hm1. destruct Hok as [_ Hst]. bools.
    destruct (hs_start s) as [b|]; [|destruct Hst; congruence]. exists b. split; [done|]. by apply Hq. }
  destruct (alloc_preflight _ _ _ _) as [target|e|] eqn:Hp;
    [|intros [= <- <-]; simpl; (split; [done|]); split_and!; [lia|done|lia]..].
  destruct (alloc_loop_spec layout target s1 mem Hok1) as (e & -> & He1 & He2 & He3 & He4).
  simpl. intros ->. simpl in *. split; [done|]. split; [lia|]. split; [exact He4|].
  intros mn t Hgp Hlt. unfold alloc_preflight in Hp. rewrite Hgp in Hp. cbn [ok_or mbind outcome_bind] in Hp.
  assert (target = t) as ->; [|lia].
  destruct (_ <? t); [done|]. destruct (_ =? 0); [by simplify_eq|].
  apply bind_Ok_inv in Hp as (? & _ & Hp). apply bind_Ok_inv in Hp as (? & _ & Hp).
  destruct (_ <? _); by simplify_eq.
Qed.

Lemma heap_initialize_ok s (mem : @Memory PT) :
  heap_ok s -> heap_ok (heap_initialize from_start_address try_new sort_by_start (s, mem)).1.1.
Proof.
  intros Hok. unfold heap_initialize. destruct (hs_initialized s); [done|].
  destruct (hs_poisoned s); [done|]. destruct (grow _ _ _ _ _) as [[s1 mem1] r] eqn:Hg.
  apply grow_spec in Hg; [|done]. destruct r as [[]|e|]; simpl.
  - destruct Hg as (k & Hk & Hm & _ & _ & _ & _ & Hb1 & Hs1). pose proof (proj1 Hok) as Hb.
    split; [done|]. simpl. destruct (hs_start s1); [done|]. destruct Hs1. lia.
  - destruct Hg as [Hsame _]. by eapply heap_ok_same.
  - by subst.
Qed.

Lemma dealloc_ok p layout s (mem : @Memory PT) :
  heap_ok s -> heap_ok (dealloc p layout (s, mem)).1.1.
Proof.
  intros Hok. unfold dealloc. destruct (_ || _); [done|]. unfold heap_ok in *. simpl.
  by rewrite deallocate_bottom, deallocate_size.
Qed.

End growth.

(** ** Examples *)

(** A heap that hands out blocks one after the other: bottom, size, bytes used. *)
Definition bump_heap : LinkedHeap (Z * Z * Z) := {|
  heap_allocate l h :=
    let '(bottom, size, used) := h in
    let p := - (- (bottom + used) / l_align l) * l_align l in
    if (0 <? l_align l) && (bottom <=? p) && (p + l_size l <=? bottom + size)
    then ((bottom, size, p + l_size l - bottom), Some p) else (h, None);
  heap_deallocate p l h := h;
  heap_extend n h := let '(bottom, size, used) := h in (bottom, size + n, used);
  heap_init p n h := (p, n, 0);
  heap_bottom h := h.1.1;
  heap_size h := h.1.2;
|}.

Lemma bump_heap_laws : @LinkedHeapLaws _ bump_heap.
Proof.
  split; try (intros; repeat match goal with h : Z * Z * Z |- _ => destruct h as [[? ?] ?] end;
    simpl; by repeat case_match).
  intros l [[bottom size] used] p. simpl. destruct (_ && _) eqn:Hc; [|done]. bools.
  intros [= <-]. split; [lia|]. split; [lia|]. apply Z.mod_mul. lia.
Qed.

(** Page tables that take no frames; the [n]-th mapping from now on fails. *)
Definition flat_mapper : Mapper (option nat) := {|
  pt_map_to root page frame flags t a :=
    match t with
    | Some O => (None, a, Err PageAlreadyMapped)
    | Some (S n) => (Some n, a, Ok tt)
    | None => (None, a, Ok tt)
    end;
  pt_unmap root page t := (t, Ok 0x100000);
  pt_clean_up root page t a := (t, a, Ok tt);
  pt_translate root page t := Some 0x100000;
  pt_level4 root index t := if (index <? 2)%nat then Some (0, 0) else None;
  pt_set_level4 root index entry t := t;
  pt_clear_table root t := t;
  pt_zero_frame frame t := t;
|}.

(** 1024 frames at 1 MiB, the first of them returned to the reclaim cache. *)
Definition heap_allocator (cache : list Z) : Allocator :=
  mk_allocator (descriptor_bytes 7 0x100000 1024) 40 1 0 (Z.of_nat (length cache)) example_limit []
    ((Some <$> cache) ++ replicate (RECLAIMED_FRAME_CAPACITY - length cache) None) (length cache).

Definition heap_memory (cache : list Z) (fails : option nat) : @Memory (option nat) :=
  Some (Ok (mk_manager fails (heap_allocator cache) example_limit 0x20C000 0xFFFF800000000000)).

Definition empty_heap : HeapState (Z * Z * Z) := mk_heap_state (0, 0, 0) false false None 0.

Abbreviation example_grow :=
  (@grow _ flat_mapper _ bump_heap example_frame example_try_new (fun l => l)).
Abbreviation example_initialize :=
  (@heap_initialize _ flat_mapper _ bump_heap example_frame example_try_new (fun l => l)).
Abbreviation example_alloc :=
  (@alloc _ flat_mapper _ bump_heap example_frame example_try_new (fun l => l)).

Definition example_heap : HM (PT := option nat) (HP := Z * Z * Z) :=
  (example_initialize (empty_heap, heap_memory [] None)).1.

Lemma empty_heap_ok : heap_ok (H := bump_heap) empty_heap.
Proof. split; [vm_compute; split; discriminate|done]. Qed.

Lemma example_heap_ok : heap_ok (H := bump_heap) example_heap.1.
Proof.
  exact (@heap_initialize_ok _ flat_mapper _ bump_heap bump_heap_laws example_frame example_try_new
    (fun l => l) example_try_new_same empty_heap (heap_memory [] None) empty_heap_ok).
Qed.

(** With a full reclaim cache a growth whose second mapping fails cannot undo the
    first one: the cache has no room for the frames of an unmapping, although one
    page is all there is to roll back, and the heap is poisoned. *)
Lemma full_cache_poisons_heap :
  let cache := (fun i => 0x100000 + Z.of_nat i * PAGE_SIZE) <$> seq 0 260 in
  let st := example_initialize (empty_heap, heap_memory cache (Some 1%nat)) in
  st.2 = Err RollbackFailed /\ hs_poisoned st.1.1 = true /\
  (forall layout, (example_alloc layout st.1).2 = Ok None).
Proof.
  cbv zeta. match goal with |- context [example_initialize ?x] =>
    remember (example_initialize x) as st eqn:Est end.
  vm_compute in Est. subst st. split; [done|]. split; done.
Qed.

(** ** Properties *)

(** Every operation of the allocator keeps the heap one contiguous range of
    pages: it starts at the base of one 512 GiB slot of the kernel's lower half,
    never leaves that slot (nor enters slot 0 or the user slot), and it is the
    region the free list works on.  A growth either adds 1 to 256 pages at the end,
    or fails and leaves the extent and the free list as they were. *)
Theorem heap_extent {PT : Type} `{Mapper PT} {HP : Type} `{LinkedHeapLaws HP}
  from_start_address try_new sort_by_start (s : HeapState HP) (mem : @Memory PT) :
  (forall address v, try_new address = Some v -> v = address) ->
  heap_ok s ->
  (forall target s' mem' r,
     grow from_start_address try_new sort_by_start target (s, mem) = ((s', mem'), r) ->
     match r with
     | Ok _ => heap_ok s' /\ (forall b, hs_start s = Some b -> hs_start s' = Some b) /\
         1 <= hs_mapped_pages s' - hs_mapped_pages s <= 256
     | _ => same_extent s s'
     end) /\
  heap_ok (heap_initialize from_start_address try_new sort_by_start (s, mem)).1.1 /\
  (forall layout, heap_ok (alloc from_start_address try_new sort_by_start layout (s, mem)).1.1) /\
  (forall p layout, heap_ok (dealloc p layout (s, mem)).1.1).
Proof.
  intros Hsame Hok. split_and!.
  - intros target s' mem' r Hg. eapply grow_spec in Hg; [|done..]. destruct r as [u|e|].
    + destruct Hg as (k & ? & ? & _ & ? & _ & _ & ?). split; [done|]. split; [done|lia].
    + by destruct Hg.
    + by subst.
  - by apply heap_initialize_ok.
  - intros layout. destruct (alloc _ _ _ layout (s, mem)) as [st r] eqn:Ha.
    eapply alloc_spec in Ha as [? _]; done.
  - intros p layout. by apply dealloc_ok.
Qed.

Lemma heap_extent_witness :
  hs_mapped_pages example_heap.1 = 256 /\ hs_start example_heap.1 = Some (2 * PML4_SLOT_SIZE) /\
  heap_ok (H := bump_heap) example_heap.1.
Proof.
  split; [vm_compute; reflexivity|]. split; [vm_compute; reflexivity|].
  exact (proj1 (proj2 (@heap_extent _ flat_mapper _ bump_heap bump_heap_laws example_frame
    example_try_new (fun l => l) empty_heap (heap_memory [] None) example_try_new_same
    empty_heap_ok))).
Defined.

(** C32: An allocation terminates: the loop that grows the heap ends, whatever the
    free list answers, because every growth adds a page of the slot.  The pointer
    it returns is aligned for the layout, with the whole block inside the mapped
    extent of the heap; a request beyond the present extent never grows it past the
    target computed for the layout; and an allocator that is not initialised, or
    whose rollback failed, returns null and changes nothing. *)
Theorem alloc_terminates {PT : Type} `{Mapper PT} {HP : Type} `{LinkedHeapLaws HP}
  from_start_address try_new sort_by_start layout (s : HeapState HP) (mem : @Memory PT) :
  (forall address v, try_new address = Some v -> v = address) ->
  heap_ok s ->
  let '(st, r) := alloc from_start_address try_new sort_by_start layout (s, mem) in
  (forall target, is_Some (alloc_loop from_start_address try_new sort_by_start layout target (s, mem))) /\
  (forall q, r = Ok (Some q) -> block_in layout st.1 q) /\
  (forall minimum target, growth_pages_for_layout layout = Some (minimum, target) ->
     hs_mapped_pages s < target -> hs_mapped_pages st.1 <= target) /\
  (hs_initialized s = false \/ hs_poisoned s = true -> st = (s, mem) /\ r = Ok None).
Proof.
  intros Hsame Hok. destruct (alloc _ _ _ layout (s, mem)) as [st r] eqn:Ha.
  pose proof (alloc_spec _ _ _ Hsame _ _ _ _ _ Hok Ha) as (_ & _ & Hq & Ht). split_and!.
  - intros target. destruct (alloc_loop_spec from_start_address try_new sort_by_start Hsame layout
      target s mem Hok) as (e & -> & _). done.
  - done.
  - done.
  - intros Hi. unfold alloc in Ha.
    assert (negb (hs_initialized s) || hs_poisoned s = true) as Hb
      by (destruct Hi as [-> | ->]; [done|apply orb_true_r]).
    rewrite Hb in Ha. by simplify_eq.
Qed.

Lemma alloc_terminates_witness :
  let layout := mk_layout 2000000 4096 in
  (example_alloc layout example_heap).2 = Ok (Some (2 * PML4_SLOT_SIZE)) /\
  forall q, (example_alloc layout example_heap).2 = Ok (Some q) ->
    block_in layout (example_alloc layout example_heap).1.1 q.
Proof.
  cbv zeta. split; [vm_compute; reflexivity|].
  pose proof (@alloc_terminates _ flat_mapper _ bump_heap bump_heap_laws example_frame
    example_try_new (fun l => l) (mk_layout 2000000 4096) example_heap.1 example_heap.2
    example_try_new_same) as Ht.
  destruct (example_alloc (mk_layout 2000000 4096) example_heap) as [st r] eqn:E.
  rewrite <-surjective_pairing, E in Ht.
  exact (proj1 (proj2 (Ht example_heap_ok))).
Defined.

(** The number of frames a growth asks for before it maps anything is exact:
    one frame per page, one per page table and one per page directory that holds a
    page of the new range and none of the old one, and one for the directory
    pointer table of the first growth. *)
Theorem required_frames_exact p g :
  0 <= p -> 0 < g -> 4 * (p + g) + 2 ^ 20 <= u64_limit ->
  required_frames_for_growth p g =
  Some (g + Z.of_nat (length (new_tables PAGES_PER_PAGE_TABLE p g))
          + Z.of_nat (length (new_tables PAGES_PER_PAGE_DIRECTORY p g))
          + (if p =? 0 then 1 else 0)).
Proof.
  intros Hp Hg Hl. change (2 ^ 20) with 1048576 in Hl. unfold required_frames_for_growth.
  change PAGES_PER_PAGE_TABLE with 512. change PAGES_PER_PAGE_DIRECTORY with 262144.
  rewrite (proj2 (Z.eqb_neq _ _)) by lia. rewrite !added_table_pages_spec by lia.
  cbn [mbind option_bind].
  assert (forall d, 0 < d -> Z.of_nat (length (new_tables d p g)) <= p + g) as Hb.
  { intros d Hd. rewrite <-(Z2Nat.id (p + g)) by lia. apply Nat2Z.inj_le. unfold new_tables.
    etrans; [apply length_filter|]. by rewrite length_seqZ. }
  pose proof (Hb 512 ltac:(lia)). pose proof (Hb 262144 ltac:(lia)).
  unfold checked_add. do 2 (rewrite (proj2 (Z.ltb_lt _ _)) by lia; cbn [mbind option_bind]).
  rewrite (proj2 (Z.ltb_lt _ _)) by (destruct (p =? 0); lia). done.
Qed.

Lemma required_frames_exact_witness :
  required_frames_for_growth 0 256 = Some 259 /\
  required_frames_for_growth 0 256 =
  Some (256 + Z.of_nat (length (new_tables PAGES_PER_PAGE_TABLE 0 256))
          + Z.of_nat (length (new_tables PAGES_PER_PAGE_DIRECTORY 0 256))
          + (if 0 =? 0 then 1 else 0)).
Proof.
  split; [vm_compute; reflexivity|]. apply (required_frames_exact 0 256); [lia|lia|vm_compute; discriminate].
Defined.
