(* ===== verification/Scheduler.v ===== *)
(** * The scheduler's task table

    [Scheduler] of [tasking/scheduler.rs] and [UserContext] of [arch/user.rs]:
    the task table, the choice of the next task and the state changes of tasks.
    Descriptors, address spaces and context switches are in [Kernel]. *)

From S2P Require Import Prelude Fd FrameAlloc UserRange.

Abbreviation MAX_TASKS := 16.
Definition KERNEL_STACK_SIZE : Z := 64 * 1024.

(** ** [arch/user.rs] *)

Inductive UserContextError := InvalidEntry | InvalidStack | EntryNotExecutable | StackNotWritable.

Record UserContext := mk_user_context {
  uc_entry : Z;
  uc_stack : Z;
  uc_argument_count : Z;
  uc_argument_vector : Z;
}.

Definition with_arguments (entry stack argument_count argument_vector : Z) :
  outcome UserContextError UserContext :=
  if negb (contains_user_address entry) then Err InvalidEntry
  else if negb (contains_user_address stack) || negb (stack mod 16 =? 0)%Z then Err InvalidStack
  else if negb (argument_count =? 0)%Z && negb (contains_user_address argument_vector)
  then Err InvalidStack
  else Ok (mk_user_context entry stack argument_count argument_vector).

Definition for_address_space_with_arguments (space : AddressSpace)
  (entry stack argument_count argument_vector : Z) : outcome UserContextError UserContext :=
  context ← with_arguments entry stack argument_count argument_vector;
  let entry_page := page_down entry in
  let stack_page := page_down (stack - 1) in
  let argument_page := page_down argument_vector in
  if negb (bool_decide (user_page_access space entry_page = Some ReadExecute))
  then Err EntryNotExecutable
  else if negb (bool_decide (user_page_access space stack_page = Some ReadWrite))
  then Err StackNotWritable
  else if negb (argument_count =? 0)%Z
    && negb (bool_decide (user_page_access space argument_page = Some ReadWrite))
  then Err StackNotWritable
  else Ok context.

(** ** Tasks *)

Inductive TaskState := Ready | Running | Blocked | Sleeping | Terminated.

#[export] Instance TaskState_eq_dec : EqDecision TaskState.
Proof. solve_decision. Defined.

Record CpuContext := mk_cpu {
  stack_pointer : Z;
  rbx : Z;
  rbp : Z;
  r12 : Z;
  r13 : Z;
  r14 : Z;
  r15 : Z;
  rflags : Z;
}.

Definition CpuContext_empty : CpuContext := mk_cpu 0 0 0 0 0 0 0 0.

Record UserTask := mk_user_task {
  address_space : AddressSpace;
  user_context : UserContext;
  syscall_user_rsp : Z;
}.

(** [entry] is the address of the entry function, [t_stack] the boxed stack. *)
Record Task := mk_task {
  t_id : Z;
  t_parent : option Z;
  t_state : TaskState;
  t_exit_code : option Z;
  t_context : CpuContext;
  t_entry : option Z;
  t_user : option UserTask;
  t_stack : option (list Z);
  t_stack_top : option Z;
  t_wake_at : option Z;
  t_is_idle : bool;
  t_fds : list (option FileDescriptor);
}.

Record TaskInfo := mk_task_info {
  info_id : Z;
  info_parent : option Z;
  info_state : TaskState;
  info_exit_code : option Z;
  info_is_idle : bool;
  info_is_user : bool;
}.

Inductive SchedulerError :=
| Full
| AlreadyStarted
| NotStarted
| NoRunnableTasks
| UnknownTask
| InvalidState
| InvalidContext
| InvalidUserContext (e : UserContextError)
| AddressSpaceCleanup
| TaskIdExhausted
| InvalidFd
| WouldBlock
| SchedBrokenPipe
| SchedIo
| NoChild
| ChildRunning
| NotChild.

Record Scheduler := mk_scheduler {
  tasks : list (option Task);
  current : option nat;
  next_id : Z;
  idle_index : option nat;
}.

Definition Scheduler_new : Scheduler := mk_scheduler (replicate MAX_TASKS None) None 1 None.

(** *** Field updates *)

Definition with_state (st : TaskState) (t : Task) : Task :=
  mk_task (t_id t) (t_parent t) st (t_exit_code t) (t_context t) (t_entry t) (t_user t)
    (t_stack t) (t_stack_top t) (t_wake_at t) (t_is_idle t) (t_fds t).

Definition with_wake_at (w : option Z) (t : Task) : Task :=
  mk_task (t_id t) (t_parent t) (t_state t) (t_exit_code t) (t_context t) (t_entry t) (t_user t)
    (t_stack t) (t_stack_top t) w (t_is_idle t) (t_fds t).

Definition with_exit_code (c : option Z) (t : Task) : Task :=
  mk_task (t_id t) (t_parent t) (t_state t) c (t_context t) (t_entry t) (t_user t)
    (t_stack t) (t_stack_top t) (t_wake_at t) (t_is_idle t) (t_fds t).

Definition with_context (c : CpuContext) (t : Task) : Task :=
  mk_task (t_id t) (t_parent t) (t_state t) (t_exit_code t) c (t_entry t) (t_user t)
    (t_stack t) (t_stack_top t) (t_wake_at t) (t_is_idle t) (t_fds t).

Definition with_user (u : option UserTask) (t : Task) : Task :=
  mk_task (t_id t) (t_parent t) (t_state t) (t_exit_code t) (t_context t) (t_entry t) u
    (t_stack t) (t_stack_top t) (t_wake_at t) (t_is_idle t) (t_fds t).

Definition with_idle (b : bool) (t : Task) : Task :=
  mk_task (t_id t) (t_parent t) (t_state t) (t_exit_code t) (t_context t) (t_entry t) (t_user t)
    (t_stack t) (t_stack_top t) (t_wake_at t) b (t_fds t).

Definition with_fds (fds : list (option FileDescriptor)) (t : Task) : Task :=
  mk_task (t_id t) (t_parent t) (t_state t) (t_exit_code t) (t_context t) (t_entry t) (t_user t)
    (t_stack t) (t_stack_top t) (t_wake_at t) (t_is_idle t) fds.

Definition set_tasks (ts : list (option Task)) (s : Scheduler) : Scheduler :=
  mk_scheduler ts (current s) (next_id s) (idle_index s).
Definition set_current (c : option nat) (s : Scheduler) : Scheduler :=
  mk_scheduler (tasks s) c (next_id s) (idle_index s).
Definition set_next_id (n : Z) (s : Scheduler) : Scheduler :=
  mk_scheduler (tasks s) (current s) n (idle_index s).
Definition set_idle_index (i : option nat) (s : Scheduler) : Scheduler :=
  mk_scheduler (tasks s) (current s) (next_id s) i.

(** [self.tasks[index].as_mut()] followed by assignments to its fields. *)
Definition update_task (index : nat) (f : Task -> Task) (s : Scheduler) : Scheduler :=
  set_tasks (alter (fmap f) index (tasks s)) s.

(** [for task in self.tasks.iter_mut().flatten()]. *)
Definition update_all (f : nat -> Task -> Task) (s : Scheduler) : Scheduler :=
  set_tasks (imap (fun i => fmap (f i)) (tasks s)) s.

(** [tasks.iter().position(|task| task.is_some_and(|task| task.id == id))]; also
    the place of [tasks.iter().flatten().find(|task| task.id == id)]. *)
Definition index_of (id : Z) (s : Scheduler) : option nat :=
  position (fun slot => is_some_and slot (fun t => t_id t =? id)%Z) (tasks s).

(** [self.tasks[index].as_ref()], a panic out of range. *)
Definition slot_at {E} (index : nat) : Op Scheduler E (option Task) :=
  s ← get; lift (expect (tasks s !! index)).

(** ** [impl Scheduler] *)

Definition check_task_capacity : Op Scheduler SchedulerError nat :=
  s ← get; lift (ok_or (position is_none (tasks s)) Full).

Definition insert_task (context : CpuContext) (parent entry : option Z) (user : option UserTask)
  (stack : option (list Z)) (stack_top : option Z) : Op Scheduler SchedulerError Z :=
  slot ← check_task_capacity;
  id ← gets next_id;
  next ← lift (ok_or (checked_add u64_limit id 1) TaskIdExhausted);
  _ ← modify (set_next_id next);
  _ ← modify (fun s => set_tasks (<[slot := Some (mk_task id parent Ready None context entry user
        stack stack_top None false initial_table)]> (tasks s)) s);
  mret id.

Definition create_task (context : CpuContext) : Op Scheduler SchedulerError Z :=
  insert_task context None None None None None.

(** [create_task_stack]: the context, the stack and its top.  [stack_base] is the
    address of the boxed slice, [trampoline] that of [task_trampoline]. *)
Definition create_task_stack (stack_base trampoline : Z) :
  outcome SchedulerError (CpuContext * list Z * Z) :=
  let stack := replicate (Z.to_nat (KERNEL_STACK_SIZE / 8)) 0%Z in
  let len := Z.of_nat (length stack) in
  stack_top ← ok_or (checked_add u64_limit stack_base (len * 8)) InvalidContext;
  let aligned_top := Z.ldiff stack_top 0xf in
  initial_stack ← ok_or (checked_sub aligned_top (2 * 8)) InvalidContext;
  stack_index ← ok_or (
    offset ← checked_sub initial_stack stack_base;
    if (offset mod 8 =? 0)%Z then
      let index := (offset / 8)%Z in if (index <? len)%Z then Some index else None
    else None) InvalidContext;
  Ok (mk_cpu initial_stack 0 0 0 0 0 0 0x202,
      <[Z.to_nat stack_index := trampoline]> stack, aligned_top).

Definition create_kernel_task (stack_base trampoline entry : Z) (parent : option Z) :
  Op Scheduler SchedulerError Z :=
  _ ← check_task_capacity;
  id ← gets next_id;
  _ ← lift (ok_or (checked_add u64_limit id 1) TaskIdExhausted);
  '(context, stack, stack_top) ← lift (create_task_stack stack_base trampoline);
  insert_task context parent (Some entry) None (Some stack) (Some stack_top).

(** The slots in the order [select_next] looks at them. *)
Definition slot_order (start : nat) : list nat :=
  (fun offset => (start + offset) mod MAX_TASKS) <$> seq 0 MAX_TASKS.

(** One pass of [select_next]: the first ready task that is idle or not. *)
Definition runnable (idle : bool) (s : Scheduler) (index : nat) : bool :=
  match tasks s !! index with
  | Some (Some t) => bool_decide (t_state t = Ready) && Bool.eqb (t_is_idle t) idle
  | _ => false
  end.

Definition find_runnable (idle : bool) (s : Scheduler) (start : nat) : option nat :=
  head (filter (fun i => runnable idle s i = true) (slot_order start)).

Definition run_slot (index : nat) : Op Scheduler SchedulerError Z :=
  _ ← modify (fun s => set_current (Some index) (update_task index (with_state Running) s));
  slot ← slot_at index;
  t ← lift (expect slot);
  mret (t_id t).

Definition select_next (start : nat) : Op Scheduler SchedulerError Z :=
  _ ← modify (set_current None);
  s ← get;
  match find_runnable false s start with
  | Some index => run_slot index
  | None =>
      match find_runnable true s start with
      | Some index => run_slot index
      | None => fail NoRunnableTasks
      end
  end.

Definition start : Op Scheduler SchedulerError Z :=
  s ← get;
  if is_none (current s) then select_next 0 else fail AlreadyStarted.

(** [task_mut]. *)
Definition task_mut (index : nat) : Op Scheduler SchedulerError Task :=
  slot ← slot_at index; lift (ok_or slot UnknownTask).

Definition transition_current (next_state : TaskState) : Op Scheduler SchedulerError Z :=
  s ← get;
  current ← lift (ok_or (current s) NotStarted);
  task ← task_mut current;
  if negb (bool_decide (t_state task = Running)) then fail InvalidState
  else if t_is_idle task && negb (bool_decide (next_state = Ready)) then fail InvalidState
  else
    _ ← modify (update_task current (fun t =>
          let t := with_state next_state t in
          if bool_decide (next_state = Sleeping) then t else with_wake_at None t));
    _ ← modify (set_current None);
    select_next ((current + 1) mod MAX_TASKS).

Definition yield_current : Op Scheduler SchedulerError Z := transition_current Ready.
Definition block_current : Op Scheduler SchedulerError Z := transition_current Blocked.
Definition terminate_current : Op Scheduler SchedulerError Z := transition_current Terminated.

Definition sleep_current_until (deadline : Z) : Op Scheduler SchedulerError Z :=
  s ← get;
  current ← lift (ok_or (current s) NotStarted);
  task ← task_mut current;
  if negb (bool_decide (t_state task = Running)) || t_is_idle task then fail InvalidState
  else
    _ ← modify (update_task current (fun t => with_wake_at (Some deadline) (with_state Sleeping t)));
    _ ← modify (set_current None);
    select_next ((current + 1) mod MAX_TASKS).

(** [now.wrapping_sub(deadline) < (1 << 63)]. *)
Definition expired (now deadline : Z) : bool :=
  (wrapping_sub u64_limit now deadline <? 2 ^ 63)%Z.

Definition wake_expired_sleepers (now : Z) (s : Scheduler) : Scheduler :=
  update_all (fun _ t =>
    if bool_decide (t_state t = Sleeping) && is_some_and (t_wake_at t) (expired now)
    then with_wake_at None (with_state Ready t) else t) s.

Definition has_live_non_idle_tasks (s : Scheduler) : bool :=
  existsb (fun slot => is_some_and slot (fun t =>
    negb (t_is_idle t) && negb (bool_decide (t_state t = Terminated)))) (tasks s).

Definition wake (id : Z) : Op Scheduler SchedulerError unit :=
  s ← get;
  index ← lift (ok_or (index_of id s) UnknownTask);
  t ← task_mut index;
  if negb (bool_decide (t_state t = Blocked)) then fail InvalidState
  else modify (update_task index (with_state Ready)).

Definition wake_parent (child_index : nat) : Op Scheduler SchedulerError unit :=
  slot ← slot_at child_index;
  s ← get;
  match (t ← slot; t_parent t) with
  | Some parent =>
      match index_of parent s with
      | Some index => modify (update_task index (fun t =>
          if bool_decide (t_state t = Blocked) then with_state Ready t else t))
      | None => mret tt
      end
  | None => mret tt
  end.

Definition terminate_task (id exit_code : Z) : Op Scheduler SchedulerError unit :=
  s ← get;
  index ← lift (ok_or (index_of id s) UnknownTask);
  if bool_decide (current s = Some index) then fail InvalidState
  else
    t ← task_mut index;
    if t_is_idle t || bool_decide (t_state t = Terminated) then fail InvalidState
    else
      _ ← modify (update_task index (fun t => with_state Terminated (with_exit_code (Some exit_code) t)));
      wake_parent index.

Definition wake_all_blocked (s : Scheduler) : Scheduler :=
  update_all (fun _ t => if bool_decide (t_state t = Blocked) then with_state Ready t else t) s.

Definition save_current_context (context : CpuContext) : Op Scheduler SchedulerError unit :=
  s ← get;
  current ← lift (ok_or (current s) NotStarted);
  _ ← task_mut current;
  modify (update_task current (with_context context)).

(** [task(id)]. *)
Definition task (id : Z) : Op Scheduler SchedulerError Task :=
  s ← get;
  index ← lift (ok_or (index_of id s) UnknownTask);
  task_mut index.

(** The children [terminated_child] looks at, in slot order. *)
Definition is_child (parent : Z) (child : option Z) (t : Task) : bool :=
  bool_decide (t_parent t = Some parent)
  && match child with None => true | Some c => (t_id t =? c)%Z end.

Definition children (parent : Z) (child : option Z) (s : Scheduler) : list Task :=
  filter (fun t => is_child parent child t = true) (omap id (tasks s)).

Definition terminated_child (parent : Z) (child : option Z) : Op Scheduler SchedulerError Z :=
  s ← get;
  let matching := children parent child s in
  match filter (fun t => t_state t = Terminated) matching with
  | t :: _ => mret (t_id t)
  | [] =>
      match matching, child with
      | _ :: _, _ => fail ChildRunning
      | [], Some _ => fail UnknownTask
      | [], None => fail NoChild
      end
  end.

Definition current_task (s : Scheduler) : option Z :=
  i ← current s; slot ← tasks s !! i; t_id <$> slot.

Definition task_info (t : Task) : TaskInfo :=
  mk_task_info (t_id t) (t_parent t) (t_state t) (t_exit_code t) (t_is_idle t)
    (negb (is_none (t_user t))).

Definition task_snapshot (s : Scheduler) : list (option TaskInfo) :=
  map (option_map task_info) (tasks s).

(** The group termination of [exit_current_with_status_and_group]. *)
Definition terminate_siblings (current : nat) (exit_code : option Z) (s : Scheduler) : Scheduler :=
  match (slot ← tasks s !! current; t ← slot; t_parent t) with
  | Some parent => update_all (fun index t =>
      if negb (index =? current) && bool_decide (t_parent t = Some parent)
        && negb (bool_decide (t_state t = Terminated))
      then with_state Terminated (with_exit_code exit_code t) else t) s
  | None => s
  end.

(** [find_free_fd] and [find_free_fd_pair]. *)
Definition find_free_fd (fds : list (option FileDescriptor)) : option nat := position is_none fds.

Definition find_free_fd_pair (fds : list (option FileDescriptor)) : option (nat * nat) :=
  match filter (fun i => fds !! i = Some None) (seq 0 (length fds)) with
  | a :: b :: _ => Some (a, b)
  | _ => None
  end.

(** ** Invariant *)

Record task_ok (next : Z) (t : Task) : Prop := mk_task_ok {
  tok_id : (0 < t_id t < next)%Z;
  tok_parent : forall p, t_parent t = Some p -> (0 < p < t_id t)%Z;
  tok_fds : length (t_fds t) = MAX_FDS;
  tok_sleep : t_state t = Sleeping -> is_Some (t_wake_at t);
  tok_idle : t_is_idle t = true -> t_state t = Ready \/ t_state t = Running;
  tok_idle_parent : t_is_idle t = true -> t_parent t = None;
}.

(** Sixteen slots, identifiers that are distinct and were handed out, one running
    task at most, which is the current one, and one idle task at most. *)
Record sched_ok (s : Scheduler) : Prop := mk_sched_ok {
  sok_len : length (tasks s) = MAX_TASKS;
  sok_next : (0 < next_id s < u64_limit)%Z;
  sok_tasks : forall i t, tasks s !! i = Some (Some t) -> task_ok (next_id s) t;
  sok_ids : forall i j t u, tasks s !! i = Some (Some t) -> tasks s !! j = Some (Some u) ->
    t_id t = t_id u -> i = j;
  sok_running : forall i t, tasks s !! i = Some (Some t) ->
    t_state t = Running <-> current s = Some i;
  sok_current : forall i, current s = Some i -> exists t, tasks s !! i = Some (Some t);
  sok_idle : forall i t, tasks s !! i = Some (Some t) ->
    t_is_idle t = true <-> idle_index s = Some i;
  sok_idle_slot : forall i, idle_index s = Some i -> exists t, tasks s !! i = Some (Some t);
}.

(** ** Lemmas *)

(** What an update of a task keeps. *)
Definition same_identity (t t' : Task) : Prop :=
  t_id t' = t_id t /\ t_parent t' = t_parent t /\ t_is_idle t' = t_is_idle t.

(** The table after an update, slot by slot. *)
Definition updates (R : nat -> Task -> Task -> Prop) (ts ts' : list (option Task)) : Prop :=
  length ts' = length ts /\
  forall i, match ts !! i, ts' !! i with
            | Some (Some t), Some (Some t') => R i t t'
            | Some None, Some None => True
            | None, None => True
            | _, _ => False
            end.

Lemma updates_alter (f : Task -> Task) i ts :
  updates (fun j t t' => if decide (j = i) then t' = f t else t' = t) ts (alter (fmap f) i ts).
Proof.
  split; [apply length_alter|]. intros j. destruct (decide (j = i)) as [->|Hne].
  - rewrite list_lookup_alter_eq. by destruct (ts !! i) as [[t|]|]; simpl.
  - rewrite list_lookup_alter_ne by done. by destruct (ts !! j) as [[t|]|].
Qed.

Lemma updates_imap (f : nat -> Task -> Task) ts :
  updates (fun i t t' => t' = f i t) ts (imap (fun i => fmap (f i)) ts).
Proof.
  split; [apply length_imap|]. intros i. rewrite list_lookup_imap.
  by destruct (ts !! i) as [[t|]|].
Qed.

Lemma updates_back R ts ts' i t' :
  updates R ts ts' -> ts' !! i = Some (Some t') ->
  exists t, ts !! i = Some (Some t) /\ R i t t'.
Proof.
  intros [_ H] Ht'. specialize (H i). rewrite Ht' in H.
  destruct (ts !! i) as [[t|]|]; try done. eauto.
Qed.

Lemma updates_forth R ts ts' i t :
  updates R ts ts' -> ts !! i = Some (Some t) ->
  exists t', ts' !! i = Some (Some t') /\ R i t t'.
Proof.
  intros [_ H] Ht. specialize (H i). rewrite Ht in H.
  destruct (ts' !! i) as [[t'|]|]; try done. eauto.
Qed.

(** An update of the table that keeps identities keeps the invariant, when the
    new states fit the new [current]. *)
Lemma sched_ok_updates R s ts' c' :
  sched_ok s -> updates R (tasks s) ts' ->
  (forall i t t', tasks s !! i = Some (Some t) -> R i t t' ->
     same_identity t t' /\ length (t_fds t') = MAX_FDS /\
     (t_state t' = Sleeping -> is_Some (t_wake_at t')) /\
     (t_is_idle t' = true -> t_state t' = Ready \/ t_state t' = Running) /\
     (t_state t' = Running <-> c' = Some i)) ->
  (forall i, c' = Some i -> exists t, tasks s !! i = Some (Some t)) ->
  sched_ok (mk_scheduler ts' c' (next_id s) (idle_index s)).
Proof.
  intros Hs Hu HR Hc. pose proof Hu as [Hlen _]. destruct Hs. split; simpl.
  - congruence.
  - done.
  - intros i t' Ht'. destruct (updates_back _ _ _ _ _ Hu Ht') as (t & Ht & Hr).
    destruct (HR i t t' Ht Hr) as ((E1 & E2 & E3) & Hf & Hsl & Hid & _).
    destruct (sok_tasks0 i t Ht). split; [by rewrite E1|by rewrite E1, E2|done..|by rewrite E2, E3].
  - intros i j t' u' Ht' Hu'. destruct (updates_back _ _ _ _ _ Hu Ht') as (t & Ht & Hr).
    destruct (updates_back _ _ _ _ _ Hu Hu') as (u & Hu0 & Hr').
    destruct (HR i t t' Ht Hr) as ((-> & _ & _) & _). destruct (HR j u u' Hu0 Hr') as ((-> & _ & _) & _).
    by apply sok_ids0.
  - intros i t' Ht'. destruct (updates_back _ _ _ _ _ Hu Ht') as (t & Ht & Hr).
    by destruct (HR i t t' Ht Hr) as (_ & _ & _ & _ & ?).
  - intros i [t Ht]%Hc. destruct (updates_forth _ _ _ _ _ Hu Ht) as (t' & ? & _). eauto.
  - intros i t' Ht'. destruct (updates_back _ _ _ _ _ Hu Ht') as (t & Ht & Hr).
    destruct (HR i t t' Ht Hr) as ((_ & _ & ->) & _). by apply sok_idle0.
  - intros i [t Ht]%sok_idle_slot0. destruct (updates_forth _ _ _ _ _ Hu Ht) as (t' & ? & _). eauto.
Qed.

Lemma Scheduler_new_ok : sched_ok Scheduler_new.
Proof.
  assert (forall i t, tasks Scheduler_new !! i <> Some (Some t)) as Hno.
  { intros i t H. unfold Scheduler_new in H. cbn [tasks] in H.
    by apply lookup_replicate in H as [? _]. }
  split; simpl; try done; intros; exfalso; by eapply Hno.
Qed.

(** *** [select_next] *)

Lemma slot_order_lt start i : i ∈ slot_order start -> i < MAX_TASKS.
Proof.
  intros (o & -> & _)%list_elem_of_fmap. apply Nat.mod_upper_bound. lia.
Qed.

(** Every slot is visited. *)
Lemma slot_order_all start i : i < MAX_TASKS -> i ∈ slot_order start.
Proof.
  intros Hi. apply list_elem_of_fmap.
  exists ((i + (MAX_TASKS - start mod MAX_TASKS)) mod MAX_TASKS).
  pose proof (Nat.mod_upper_bound start MAX_TASKS ltac:(lia)).
  split; [|apply elem_of_seq; split; [lia|]; apply Nat.mod_upper_bound; lia].
  rewrite Nat.Div0.add_mod_idemp_r.
  pose proof (Nat.div_mod_eq start MAX_TASKS).
  replace (start + (i + (MAX_TASKS - start mod MAX_TASKS)))
    with (i + (start / MAX_TASKS + 1) * MAX_TASKS) by lia.
  by rewrite Nat.Div0.mod_add, Nat.mod_small by lia.
Qed.

Lemma runnable_spec idle s i :
  runnable idle s i = true <->
  exists t, tasks s !! i = Some (Some t) /\ t_state t = Ready /\ t_is_idle t = idle.
Proof.
  unfold runnable. destruct (tasks s !! i) as [[t|]|].
  - rewrite andb_true_iff, bool_decide_eq_true, eqb_true_iff.
    split; [intros [? ?]; eauto|by intros (? & [= <-] & ? & ?)].
  - split; [done|]. by intros (? & ? & _).
  - split; [done|]. by intros (? & ? & _).
Qed.

Lemma find_runnable_Some idle s start i :
  find_runnable idle s start = Some i -> runnable idle s i = true /\ i < MAX_TASKS.
Proof.
  unfold find_runnable. intros H%head_Some_elem_of.
  apply list_elem_of_filter in H as [? ?%slot_order_lt]. done.
Qed.

Lemma find_runnable_None idle s start i :
  find_runnable idle s start = None -> i < MAX_TASKS -> runnable idle s i = false.
Proof.
  unfold find_runnable. intros H Hi. apply not_true_is_false. intros Hr.
  assert (i ∈ filter (fun i => runnable idle s i = true) (slot_order start)) as Hin
    by (apply list_elem_of_filter; auto using slot_order_all).
  destruct (filter _ _); [by apply not_elem_of_nil in Hin|done].
Qed.

(** The slot [select_next] chooses: the first runnable task in cyclic order from
    [start], the idle task when there is no other. *)
Definition choice (s : Scheduler) (start : nat) : option nat :=
  match find_runnable false s start with
  | Some i => Some i
  | None => find_runnable true s start
  end.

Lemma select_next_spec s start :
  match choice s start with
  | Some i => exists t, tasks s !! i = Some (Some t) /\ t_state t = Ready /\
      select_next start s =
        (set_current (Some i) (update_task i (with_state Running) s), Ok (t_id t))
  | None => select_next start s = (set_current None s, Err NoRunnableTasks)
  end.
Proof.
  unfold choice, select_next. unfold_op.
  change (find_runnable false (set_current None s) start) with (find_runnable false s start).
  change (find_runnable true (set_current None s) start) with (find_runnable true s start).
  assert (forall idle i, find_runnable idle s start = Some i ->
    exists t, tasks s !! i = Some (Some t) /\ t_state t = Ready /\
      run_slot i (set_current None s) =
        (set_current (Some i) (update_task i (with_state Running) s), Ok (t_id t))) as Hrun.
  { intros idle i (Hr & _)%find_runnable_Some. apply runnable_spec in Hr as (t & Ht & Hst & _).
    exists t. split_and!; [done..|]. unfold run_slot, slot_at. unfold_op.
    rewrite list_lookup_alter_eq, Ht. done. }
  destruct (find_runnable false s start) eqn:E1; [by eapply Hrun|].
  destruct (find_runnable true s start) eqn:E2; [by eapply Hrun|done].
Qed.

(** [select_next] keeps the invariant when no task is running. *)
Lemma select_next_ok start s :
  sched_ok s -> current s = None -> sched_ok (select_next start s).1.
Proof.
  intros Hs Hc. pose proof (select_next_spec s start) as H.
  destruct (choice s start) as [i|]; [|rewrite H; destruct s; simpl in *; by subst].
  destruct H as (t & Ht & Hst & ->). simpl.
  apply (sched_ok_updates (fun j u u' => if decide (j = i) then u' = with_state Running u else u' = u) s);
    [done|apply updates_alter| |intros ? [= <-]; eauto].
  intros j u u' Hu Hr. destruct (sok_tasks _ Hs j u Hu).
  pose proof (sok_running _ Hs j u Hu) as Hrun. rewrite Hc in Hrun.
  case_decide; subst; simpl.
  - split_and!; done || auto.
  - split_and!; try done. rewrite Hrun. split; [done|congruence].
Qed.

(** *** Updates that keep [current] *)

(** The conditions on an update of a task [t] to [t']. *)
Definition good_update (t t' : Task) : Prop :=
  same_identity t t' /\ length (t_fds t') = length (t_fds t) /\
  (t_state t' = Sleeping -> is_Some (t_wake_at t')) /\
  (t_is_idle t = true -> t_state t' = Ready \/ t_state t' = Running).

Lemma good_update_id s i t :
  sched_ok s -> tasks s !! i = Some (Some t) -> good_update t t.
Proof. intros Hs Ht. destruct (sok_tasks _ Hs i t Ht). by split_and!. Qed.

Lemma sched_ok_update_all f s :
  sched_ok s ->
  (forall i t, tasks s !! i = Some (Some t) -> good_update t (f i t) /\
     (t_state (f i t) = Running <-> t_state t = Running)) ->
  sched_ok (update_all f s).
Proof.
  intros Hs Hf. apply (sched_ok_updates (fun i t t' => t' = f i t) s); [done|apply updates_imap| |].
  - intros i t t' Ht ->. destruct (Hf i t Ht) as [(Hi & Hl & Hsl & Hid) Hr].
    pose proof Hi as (_ & _ & E). rewrite E, Hl.
    split; [done|]. split; [apply (tok_fds _ _ (sok_tasks _ Hs i t Ht))|].
    split; [done|]. split; [done|]. rewrite Hr. by apply sok_running.
  - intros i Hi. by apply (sok_current _ Hs).
Qed.

Lemma update_task_all i f s :
  tasks (update_task i f s) = tasks (update_all (fun j t => if decide (j = i) then f t else t) s).
Proof.
  simpl. apply list_eq. intros j. rewrite list_lookup_imap.
  destruct (decide (j = i)) as [->|Hne].
  - rewrite list_lookup_alter_eq. destruct (tasks s !! i) as [[t|]|]; simpl; [|done..].
    by destruct (decide (i = i)).
  - rewrite list_lookup_alter_ne by done. destruct (tasks s !! j) as [[t|]|]; simpl; [|done..].
    by destruct (decide (j = i)).
Qed.

Lemma sched_ok_update_task f i s :
  sched_ok s ->
  (forall t, tasks s !! i = Some (Some t) -> good_update t (f t) /\
     (t_state (f t) = Running <-> t_state t = Running)) ->
  sched_ok (update_task i f s).
Proof.
  intros Hs Hf. unfold update_task.
  replace (alter (fmap f) i (tasks s)) with (tasks (update_task i f s)) by done.
  rewrite update_task_all.
  apply (sched_ok_update_all (fun j t => if decide (j = i) then f t else t)); [done|].
  intros j t Ht. case_decide; [subst; auto|]. split; [by eapply good_update_id|done].
Qed.

(** The current task leaves the processor. *)
Lemma leave_ok f i s :
  sched_ok s -> current s = Some i ->
  (forall t, tasks s !! i = Some (Some t) -> good_update t (f t) /\ t_state (f t) <> Running) ->
  sched_ok (set_current None (update_task i f s)).
Proof.
  intros Hs Hc Hf.
  apply (sched_ok_updates (fun j t t' => if decide (j = i) then t' = f t else t' = t) s);
    [done|apply updates_alter| |done].
  intros j t t' Ht Hr. destruct (sok_tasks _ Hs j t Ht). case_decide; subst.
  - destruct (Hf t Ht) as [(Hi & Hl & Hsl & Hid) Hnr]. pose proof Hi as (_ & _ & E).
    rewrite E. split; [done|]. split; [congruence|]. split; [done|]. split; [done|]. done.
  - split_and!; try done. rewrite (sok_running _ Hs j t Ht). split; [congruence|done].
Qed.

(** *** Each method *)

Ltac state_cases :=
  unfold good_update, same_identity; repeat case_bool_decide; repeat case_match;
  simpl in *; bools; split_and?; try done; try congruence; eauto.

(** The current task, in a well-formed table. *)
Lemma current_running s i :
  sched_ok s -> current s = Some i ->
  exists t, tasks s !! i = Some (Some t) /\ t_state t = Running.
Proof.
  intros Hs Hc. destruct (sok_current _ Hs i Hc) as [t Ht]. exists t.
  split; [done|]. by apply (sok_running _ Hs i t Ht).
Qed.

(** How a task leaves the processor, and where the search for the next starts. *)
Definition leaves (next_state : TaskState) (wake_at : option Z) (t : Task) : Task :=
  with_wake_at wake_at (with_state next_state t).

Lemma transition_current_spec s st i :
  sched_ok s -> current s = Some i -> st <> Sleeping ->
  exists t, tasks s !! i = Some (Some t) /\ t_state t = Running /\
    transition_current st s =
      if t_is_idle t && negb (bool_decide (st = Ready)) then (s, Err InvalidState)
      else select_next ((i + 1) mod MAX_TASKS)
             (set_current None (update_task i (leaves st None) s)).
Proof.
  intros Hs Hc Hst. destruct (current_running s i Hs Hc) as (t & Ht & Hr).
  exists t. split_and!; [done..|]. unfold transition_current, task_mut, slot_at. unfold_op.
  rewrite Hc. simpl. rewrite Ht. simpl. rewrite Hr, bool_decide_true by done. simpl.
  destruct (t_is_idle t && _); [done|]. unfold leaves.
  replace (bool_decide (st = Sleeping)) with false; [done|].
  by rewrite bool_decide_false.
Qed.

Lemma transition_current_ok st s :
  st = Ready \/ st = Blocked \/ st = Terminated -> sched_ok s ->
  sched_ok (transition_current st s).1.
Proof.
  intros Hst Hs. destruct (current s) as [i|] eqn:Hc.
  2: { unfold transition_current. unfold_op. by rewrite Hc. }
  destruct (transition_current_spec s st i Hs Hc) as (t & Ht & Hr & ->).
  { by destruct Hst as [->|[->| ->]]. }
  destruct (t_is_idle t && _) eqn:Hi; [done|]. apply select_next_ok; [|done].
  apply leave_ok; [done..|]. intros u Hu. assert (u = t) as -> by congruence.
  unfold good_update, same_identity, leaves. simpl. split_and!; try done.
  - by destruct Hst as [->|[->| ->]].
  - intros Hid. rewrite Hid in Hi. simpl in Hi. bools. auto.
  - by destruct Hst as [->|[->| ->]].
Qed.

Lemma sleep_current_until_spec s deadline i :
  sched_ok s -> current s = Some i ->
  exists t, tasks s !! i = Some (Some t) /\ t_state t = Running /\
    sleep_current_until deadline s =
      if t_is_idle t then (s, Err InvalidState)
      else select_next ((i + 1) mod MAX_TASKS)
             (set_current None (update_task i (leaves Sleeping (Some deadline)) s)).
Proof.
  intros Hs Hc. destruct (current_running s i Hs Hc) as (t & Ht & Hr).
  exists t. split_and!; [done..|]. unfold sleep_current_until, task_mut, slot_at. unfold_op.
  rewrite Hc. simpl. rewrite Ht. simpl. rewrite Hr, bool_decide_true by done. simpl.
  by destruct (t_is_idle t).
Qed.

Lemma sleep_current_until_ok deadline s : sched_ok s -> sched_ok (sleep_current_until deadline s).1.
Proof.
  intros Hs. destruct (current s) as [i|] eqn:Hc.
  2: { unfold sleep_current_until. unfold_op. by rewrite Hc. }
  destruct (sleep_current_until_spec s deadline i Hs Hc) as (t & Ht & Hr & ->).
  destruct (t_is_idle t) eqn:Hi; [done|]. apply select_next_ok; [|done].
  apply leave_ok; [done..|]. intros u Hu. assert (u = t) as -> by congruence.
  unfold good_update, same_identity, leaves. simpl. split_and!; try done; eauto. congruence.
Qed.

Lemma wake_expired_sleepers_ok now s : sched_ok s -> sched_ok (wake_expired_sleepers now s).
Proof.
  intros Hs. apply sched_ok_update_all; [done|]. intros i t Ht.
  case_match eqn:Hc; [|split; [by eapply good_update_id|done]]. bools.
  split; [split_and!; simpl; auto; done|]. simpl. split; congruence.
Qed.

(** Waking a blocked task. *)
Lemma unblock_ok f i s :
  sched_ok s ->
  (forall t, f t = t \/ (t_state t = Blocked /\ f t = with_state Ready t)) ->
  sched_ok (update_task i f s).
Proof.
  intros Hs Hf. apply sched_ok_update_task; [done|]. intros t Ht.
  destruct (good_update_id s i t Hs Ht) as (? & ? & ? & ?).
  destruct (Hf t) as [E|[Hb E]]; unfold good_update; rewrite !E; [done|].
  split; [split_and!; simpl; auto; done|]. simpl. split; congruence.
Qed.

Lemma wake_all_blocked_ok s : sched_ok s -> sched_ok (wake_all_blocked s).
Proof.
  intros Hs. apply sched_ok_update_all; [done|]. intros i t Ht.
  case_bool_decide; [|split; [by eapply good_update_id|done]].
  split; [split_and!; simpl; auto; done|]. simpl. split; congruence.
Qed.

(** The slot of an identifier. *)
Lemma index_of_Some id s i :
  index_of id s = Some i -> exists t, tasks s !! i = Some (Some t) /\ t_id t = id.
Proof.
  unfold index_of. intros (slot & Hs & Hid & _)%position_Some.
  destruct slot as [t|]; [|done]. simpl in Hid. bools. eauto.
Qed.

Lemma index_of_id s i t :
  sched_ok s -> tasks s !! i = Some (Some t) -> index_of (t_id t) s = Some i.
Proof.
  intros Hs Ht. apply position_Some. exists (Some t). split; [done|]. split; [apply Z.eqb_refl|].
  intros j slot Hj Hslot. destruct slot as [u|]; [|done]. simpl. apply Z.eqb_neq. intros E.
  pose proof (sok_ids _ Hs j i u t Hslot Ht E). lia.
Qed.

Lemma index_of_None id s i t :
  index_of id s = None -> tasks s !! i = Some (Some t) -> t_id t <> id.
Proof.
  unfold index_of. rewrite position_None. intros H Ht. specialize (H i _ Ht). simpl in H. by bools.
Qed.

Lemma task_mut_Ok i s t : tasks s !! i = Some (Some t) -> task_mut i s = (s, Ok t).
Proof. intros Ht. unfold task_mut, slot_at. unfold_op. by rewrite Ht. Qed.

Lemma wake_ok id s : sched_ok s -> sched_ok (wake id s).1.
Proof.
  intros Hs. unfold wake. unfold_op. destruct (index_of id s) as [i|] eqn:Hi; [|done].
  apply index_of_Some in Hi as (t & Ht & _). rewrite (task_mut_Ok i s t Ht).
  case_bool_decide as Hb; [|done]. simpl.
  apply sched_ok_update_task; [done|]. intros u Hu. assert (u = t) as -> by congruence.
  split; [split_and!; simpl; auto; done|]. simpl. split; congruence.
Qed.

Lemma wake_parent_spec i s t :
  tasks s !! i = Some (Some t) ->
  wake_parent i s = (match (p ← t_parent t; index_of p s) with
    | Some j => update_task j (fun t => if bool_decide (t_state t = Blocked)
                                         then with_state Ready t else t) s
    | None => s
    end, Ok tt).
Proof.
  intros Ht. unfold wake_parent, slot_at. unfold_op. rewrite Ht. simpl.
  destruct (t_parent t) as [p|]; [|done]. simpl. by destruct (index_of p s).
Qed.

Lemma wake_parent_ok i s t :
  sched_ok s -> tasks s !! i = Some (Some t) -> sched_ok (wake_parent i s).1.
Proof.
  intros Hs Ht. rewrite (wake_parent_spec i s t Ht). simpl. case_match; [|done].
  apply unblock_ok; [done|]. intros u. case_bool_decide; auto.
Qed.

Lemma terminate_task_ok id code s : sched_ok s -> sched_ok (terminate_task id code s).1.
Proof.
  intros Hs. unfold terminate_task. unfold_op. destruct (index_of id s) as [i|] eqn:Hi; [|done].
  apply index_of_Some in Hi as (t & Ht & _). case_bool_decide as Hc; [done|].
  rewrite (task_mut_Ok i s t Ht). destruct (_ || _) eqn:Hf; [done|]. bools.
  assert (sched_ok (update_task i (fun t => with_state Terminated (with_exit_code (Some code) t)) s))
    as Hs'.
  { apply sched_ok_update_task; [done|]. intros u Hu. assert (u = t) as -> by congruence.
    split; [split_and!; simpl; done || congruence|]. simpl.
    rewrite (sok_running _ Hs i t Ht). split; [done|congruence]. }
  eapply wake_parent_ok; [done|]. simpl. rewrite list_lookup_alter_eq, Ht. done.
Qed.

Lemma save_current_context_ok c s : sched_ok s -> sched_ok (save_current_context c s).1.
Proof.
  intros Hs. unfold save_current_context. unfold_op. destruct (current s) as [i|] eqn:Hc; [|done].
  destruct (current_running s i Hs Hc) as (t & Ht & _). rewrite (task_mut_Ok i s t Ht). simpl.
  apply sched_ok_update_task; [done|]. intros u Hu.
  by destruct (good_update_id s i u Hs Hu).
Qed.

Lemma terminate_siblings_ok i code s :
  sched_ok s -> current s = Some i -> sched_ok (terminate_siblings i code s).
Proof.
  intros Hs Hc. unfold terminate_siblings.
  destruct (_ ≫= _) as [p|] eqn:Hp; [|done].
  apply sched_ok_update_all; [done|]. intros j t Ht.
  destruct (_ && _) eqn:Hb; [|split; [by eapply good_update_id|done]]. bools.
  assert (t_is_idle t <> true) as Hni.
  { intros Hidle. pose proof (tok_idle_parent _ _ (sok_tasks _ Hs j t Ht) Hidle). congruence. }
  split; [split_and!; simpl; done || congruence|]. simpl.
  rewrite (sok_running _ Hs j t Ht). split; [done|congruence].
Qed.

(** A new task in a free slot. *)
Definition new_task (id : Z) (context : CpuContext) (parent entry : option Z)
  (user : option UserTask) (stack : option (list Z)) (stack_top : option Z)
  (fds : list (option FileDescriptor)) : Task :=
  mk_task id parent Ready None context entry user stack stack_top None false fds.

Lemma sched_ok_insert s slot context parent entry user stack stack_top fds :
  sched_ok s -> tasks s !! slot = Some None -> (next_id s + 1 < u64_limit)%Z ->
  length fds = MAX_FDS -> (forall p, parent = Some p -> (0 < p < next_id s)%Z) ->
  sched_ok (set_tasks (<[slot := Some (new_task (next_id s) context parent entry user stack
    stack_top fds)]> (tasks s)) (set_next_id (next_id s + 1) s)).
Proof.
  intros Hs Hslot Hn Hfds Hpar. destruct Hs.
  set (t0 := new_task _ _ _ _ _ _ _ _).
  assert (slot < length (tasks s)) as Hlt by (by eapply lookup_lt_Some).
  assert (forall i t, <[slot := Some t0]> (tasks s) !! i = Some (Some t) ->
    (i = slot /\ t = t0) \/ (i <> slot /\ tasks s !! i = Some (Some t))) as Hl.
  { intros i t. rewrite list_lookup_insert_Some. intros [(-> & [= <-] & _)|[Hne ?]]; auto. }
  assert (forall i t, tasks s !! i = Some (Some t) ->
    <[slot := Some t0]> (tasks s) !! i = Some (Some t)) as Hl'.
  { intros i t Ht. rewrite list_lookup_insert_ne; [done|congruence]. }
  split; simpl.
  - by rewrite length_insert.
  - lia.
  - intros i t [[-> ->]|[Hne Ht]]%Hl.
    + split; simpl; [lia|intros p Hp; specialize (Hpar p Hp); lia|done..].
    + destruct (sok_tasks0 i t Ht). split; [lia|done..].
  - intros i j t u [[-> ->]|[Hi Ht]]%Hl [[-> ->]|[Hj Hu]]%Hl E; [done|..|eauto].
    + pose proof (tok_id _ _ (sok_tasks0 j u Hu)). simpl in E. lia.
    + pose proof (tok_id _ _ (sok_tasks0 i t Ht)). simpl in E. lia.
  - intros i t [[-> ->]|[Hi Ht]]%Hl; [|by apply sok_running0]. simpl.
    split; [done|]. intros [t Ht]%sok_current0. congruence.
  - intros i [t Ht]%sok_current0. eauto.
  - intros i t [[-> ->]|[Hi Ht]]%Hl; [|by apply sok_idle0]. simpl.
    split; [done|]. intros [t Ht]%sok_idle_slot0. congruence.
  - intros i [t Ht]%sok_idle_slot0. eauto.
Qed.

(** The free slot [check_task_capacity] finds. *)
Lemma check_task_capacity_spec s :
  match position is_none (tasks s) with
  | Some slot => check_task_capacity s = (s, Ok slot) /\ tasks s !! slot = Some None
  | None => check_task_capacity s = (s, Err Full) /\
      forall i slot, tasks s !! i = Some slot -> is_Some slot
  end.
Proof.
  unfold check_task_capacity. unfold_op. destruct (position is_none (tasks s)) as [slot|] eqn:E.
  - split; [done|]. apply position_Some in E as (o & Ho & Hn & _). by destruct o.
  - split; [done|]. intros i o Ho. rewrite position_None in E. specialize (E i o Ho).
    destruct o; [eauto|done].
Qed.

Lemma insert_task_spec s context parent entry user stack stack_top :
  match position is_none (tasks s) with
  | None => insert_task context parent entry user stack stack_top s = (s, Err Full)
  | Some slot =>
      insert_task context parent entry user stack stack_top s =
        if (next_id s + 1 <? u64_limit)%Z
        then (set_tasks (<[slot := Some (new_task (next_id s) context parent entry user stack
                stack_top initial_table)]> (tasks s)) (set_next_id (next_id s + 1) s),
              Ok (next_id s))
        else (s, Err TaskIdExhausted)
  end.
Proof.
  unfold insert_task, check_task_capacity. unfold_op.
  destruct (position is_none (tasks s)) as [slot|]; [|done].
  unfold checked_add. by destruct (_ <? _)%Z.
Qed.

Lemma insert_task_ok context parent entry user stack stack_top s :
  sched_ok s -> (forall p, parent = Some p -> (0 < p < next_id s)%Z) ->
  sched_ok (insert_task context parent entry user stack stack_top s).1.
Proof.
  intros Hs Hp. pose proof (insert_task_spec s context parent entry user stack stack_top) as H.
  pose proof (check_task_capacity_spec s) as Hc.
  destruct (position is_none (tasks s)) as [slot|]; rewrite H; [|done].
  destruct (Z.ltb_spec (next_id s + 1) u64_limit); [|done]. simpl.
  apply sched_ok_insert; [done|apply Hc|done..].
Qed.

Lemma create_kernel_task_ok base trampoline entry parent s :
  sched_ok s -> (forall p, parent = Some p -> (0 < p < next_id s)%Z) ->
  sched_ok (create_kernel_task base trampoline entry parent s).1.
Proof.
  intros Hs Hp. unfold create_kernel_task, check_task_capacity. unfold_op.
  destruct (position is_none (tasks s)) as [slot|]; [|done].
  destruct (checked_add _ _ _); [|done].
  destruct (create_task_stack _ _) as [[[context stack] top]|e|]; [|done..].
  exact (insert_task_ok context parent (Some entry) None (Some stack) (Some top) s Hs Hp).
Qed.

Lemma current_task_id s p : sched_ok s -> current_task s = Some p -> (0 < p < next_id s)%Z.
Proof.
  intros Hs H. unfold current_task in H. destruct (current s) as [i|] eqn:Hc; [|done].
  destruct (sok_current _ Hs i Hc) as [t Ht]. simpl in H. rewrite Ht in H. simpl in H. simplify_eq.
  apply (tok_id _ _ (sok_tasks _ Hs i t Ht)).
Qed.

Lemma create_task_ok context s : sched_ok s -> sched_ok (create_task context s).1.
Proof. intros Hs. exact (insert_task_ok context None None None None None s Hs ltac:(done)). Qed.

Lemma start_ok s : sched_ok s -> sched_ok (start s).1.
Proof.
  intros Hs. unfold start. unfold_op. destruct (current s) eqn:Hc; [done|].
  by apply select_next_ok.
Qed.

#[export] Hint Resolve create_task_ok start_ok wake_ok terminate_task_ok save_current_context_ok
  sleep_current_until_ok wake_expired_sleepers_ok wake_all_blocked_ok : leaf.
