(* ===== verification/SchedulerProps.v ===== *)
(** * Properties of the task table

    Round-robin fairness, the wake-up of sleepers across the wrap-around of the
    tick counter, and the initial stack of a task. *)

From S2P Require Import Prelude Fd FrameAlloc UserRange Scheduler.

(** ** Fairness *)

(** Slot [j] holds a task that waits for the processor. *)
Definition waiting (j : nat) (s : Scheduler) : Prop := runnable false s j = true.

(** How many slots after [i] the search reaches [j]. *)
Definition distance (i j : nat) : nat := (j + 15 - i) mod MAX_TASKS.

(** [n] switches of the processor during which the task in slot [j] waits, with
    any other changes of the table that keep the current task in between. *)
Inductive waits (j : nat) (s : Scheduler) : nat -> Scheduler -> Prop :=
| waits_start : waits j s 0 s
| waits_change n s1 s2 :
    waits j s n s1 -> sched_ok s2 -> current s2 = current s1 -> waiting j s2 ->
    waits j s n s2
| waits_switch n s1 s2 st id :
    waits j s n s1 -> st = Ready \/ st = Blocked \/ st = Terminated ->
    transition_current st s1 = (s2, Ok id) -> waiting j s2 ->
    waits j s (S n) s2
| waits_sleep n s1 s2 deadline id :
    waits j s n s1 -> sleep_current_until deadline s1 = (s2, Ok id) -> waiting j s2 ->
    waits j s (S n) s2.

(** ** Lemmas *)

Lemma head_filter_least (p : nat -> bool) (f : nat -> nat) n o k :
  head (filter (fun i => p i = true) (f <$> seq 0 n)) = Some k ->
  o < n -> p (f o) = true -> exists o', o' <= o /\ k = f o'.
Proof.
  assert (forall m, head (filter (fun i => p i = true) (f <$> seq m n)) = Some k ->
    m <= o < m + n -> p (f o) = true -> exists o', m <= o' <= o /\ k = f o') as H.
  { induction n as [|n IH]; intros m Hh Ho Hp; [lia|]. simpl in Hh.
    rewrite filter_cons in Hh. destruct (decide (p (f m) = true)) as [Hm|Hm].
    - simplify_eq/=. exists m. split; [lia|done].
    - assert (m <> o) by congruence.
      destruct (IH (S m) Hh ltac:(lia) Hp) as (o' & ? & ?). exists o'. split; [lia|done]. }
  intros Hh Ho Hp. destruct (H 0 Hh ltac:(lia) Hp) as (o' & ? & ?). exists o'. split; [lia|done].
Qed.

Lemma distance_cases i j : i < MAX_TASKS -> j < MAX_TASKS ->
  distance i j = if decide (j <= i) then j + 15 - i else j - i - 1.
Proof.
  intros Hi Hj. unfold distance. case_decide.
  - apply Nat.mod_small. lia.
  - replace (j + 15 - i) with (j - i - 1 + 1 * MAX_TASKS) by lia.
    rewrite Nat.Div0.mod_add. apply Nat.mod_small. lia.
Qed.

Lemma slot_cases i o : i < MAX_TASKS -> o < MAX_TASKS ->
  ((i + 1) mod MAX_TASKS + o) mod MAX_TASKS =
  if decide (i + 1 + o < MAX_TASKS) then i + 1 + o else i + 1 + o - MAX_TASKS.
Proof.
  intros Hi Ho. rewrite Nat.Div0.add_mod_idemp_l. case_decide.
  - apply Nat.mod_small. lia.
  - replace (i + 1 + o) with (i + 1 + o - MAX_TASKS + 1 * MAX_TASKS) at 1 by lia.
    rewrite Nat.Div0.mod_add. apply Nat.mod_small. lia.
Qed.

(** The search from the slot after [i] finds [j] or a slot closer to [j] than [i]. *)
Lemma choice_advances s i j k :
  i < MAX_TASKS -> j < MAX_TASKS -> i <> j -> waiting j s ->
  choice s ((i + 1) mod MAX_TASKS) = Some k ->
  k < MAX_TASKS /\ (k = j \/ distance k j < distance i j).
Proof.
  intros Hi Hj Hne Hw Hc. unfold choice in Hc.
  destruct (find_runnable false s ((i + 1) mod MAX_TASKS)) as [k'|] eqn:E.
  2: { unfold waiting in Hw. by rewrite (find_runnable_None _ _ _ j E Hj) in Hw. }
  simplify_eq. pose proof (find_runnable_Some _ _ _ _ E) as [_ Hk]. split; [done|].
  pose proof (distance_cases i j Hi Hj) as Hd.
  destruct (head_filter_least (runnable false s) (fun o => ((i + 1) mod MAX_TASKS + o) mod MAX_TASKS)
    MAX_TASKS (distance i j) k E) as (o & Ho & Hko).
  - rewrite Hd. case_decide; lia.
  - rewrite slot_cases by (rewrite ?Hd; case_decide; lia).
    replace (if decide _ then _ else _) with j; [done|].
    rewrite Hd. repeat case_decide; lia.
  - assert (o < MAX_TASKS) by (rewrite Hd in Ho; case_decide; lia).
    rewrite slot_cases in Hko by done.
    rewrite (distance_cases k j Hk Hj), Hd. rewrite Hd in Ho.
    repeat case_decide; subst; lia.
Qed.

Lemma waiting_lt j s : sched_ok s -> waiting j s -> j < MAX_TASKS.
Proof.
  intros Hs (t & Ht & _)%runnable_spec. rewrite <-(sok_len _ Hs). by eapply lookup_lt_Some.
Qed.

Lemma current_lt i s : sched_ok s -> current s = Some i -> i < MAX_TASKS.
Proof.
  intros Hs [t Ht]%(sok_current _ Hs). rewrite <-(sok_len _ Hs). by eapply lookup_lt_Some.
Qed.

Lemma waiting_not_current i j s :
  sched_ok s -> current s = Some i -> waiting j s -> i <> j.
Proof.
  intros Hs Hc (t & Ht & Hr & _)%runnable_spec ->.
  apply (sok_running _ Hs j t Ht) in Hc. congruence.
Qed.

(** Other slots are as before when the current task leaves. *)
Lemma waiting_leave i j f s :
  i <> j -> waiting j s -> waiting j (set_current None (update_task i f s)).
Proof.
  intros Hne (t & Ht & Hr & Hi)%runnable_spec. apply runnable_spec. exists t.
  split; [|done]. simpl. by rewrite list_lookup_alter_ne.
Qed.

(** After a switch the current slot is [j] or closer to it. *)
Lemma select_advances i j f s s' id :
  sched_ok s -> current s = Some i -> waiting j s ->
  select_next ((i + 1) mod MAX_TASKS) (set_current None (update_task i f s)) = (s', Ok id) ->
  exists k, current s' = Some k /\ k < MAX_TASKS /\ (k = j \/ distance k j < distance i j).
Proof.
  intros Hs Hc Hw E. pose proof (waiting_not_current i j s Hs Hc Hw) as Hne.
  set (s1 := set_current None (update_task i f s)) in *.
  pose proof (select_next_spec s1 ((i + 1) mod MAX_TASKS)) as H.
  destruct (choice s1 ((i + 1) mod MAX_TASKS)) as [k|] eqn:Hch; [|congruence].
  destruct H as (t & _ & _ & E'). rewrite E' in E. simplify_eq. exists k. split; [done|].
  apply (choice_advances s1 i j k); [by eapply current_lt|by eapply waiting_lt|done| |done].
  by apply waiting_leave.
Qed.

Lemma waits_distance i j s n s' :
  sched_ok s -> current s = Some i -> waiting j s -> waits j s n s' ->
  sched_ok s' /\ waiting j s' /\
  exists k, current s' = Some k /\ k < MAX_TASKS /\ n + distance k j <= distance i j.
Proof.
  intros Hs Hc Hw H.
  induction H as [|n s1 s2 H IH Hok Hcur Hw2|n s1 s2 st id H IH Hst E Hw2|n s1 s2 d id H IH E Hw2].
  - split; [done|]. split; [done|]. exists i. split; [done|]. split; [by eapply current_lt|lia].
  - destruct IH as (_ & _ & k & Hk & Hlt & Hd). split; [done|]. split; [done|].
    exists k. split; [congruence|done].
  - destruct IH as (Hok1 & Hw1 & k & Hk & Hlt & Hd).
    assert (sched_ok s2) as Hok2 by (pose proof (transition_current_ok st s1 Hst Hok1); by rewrite E in *).
    split; [done|]. split; [done|].
    destruct (transition_current_spec s1 st k Hok1 Hk) as (t & _ & _ & E').
    { by destruct Hst as [->|[->| ->]]. }
    rewrite E' in E. destruct (t_is_idle t && _); [done|].
    destruct (select_advances _ _ _ _ _ _ Hok1 Hk Hw1 E) as (k' & Hk' & Hlt' & Hadv).
    exists k'. split_and!; [done..|]. destruct Hadv as [->|?]; [|lia].
    by destruct (waiting_not_current j j s2 Hok2 Hk' Hw2).
  - destruct IH as (Hok1 & Hw1 & k & Hk & Hlt & Hd).
    assert (sched_ok s2) as Hok2 by (pose proof (sleep_current_until_ok d s1 Hok1); by rewrite E in *).
    split; [done|]. split; [done|].
    destruct (sleep_current_until_spec s1 d k Hok1 Hk) as (t & _ & _ & E').
    rewrite E' in E. destruct (t_is_idle t); [done|].
    destruct (select_advances _ _ _ _ _ _ Hok1 Hk Hw1 E) as (k' & Hk' & Hlt' & Hadv).
    exists k'. split_and!; [done..|]. destruct Hadv as [->|?]; [|lia].
    by destruct (waiting_not_current j j s2 Hok2 Hk' Hw2).
Qed.

(** *** Deadlines *)

(** A deadline [d] ticks ahead has passed after [e] ticks exactly when [d <= e],
    also across the wrap-around of the counter. *)
Lemma expired_after now d e :
  (0 < d <= 2 ^ 63)%Z -> (0 <= e < 2 ^ 63)%Z ->
  expired (wrapping_add u64_limit now e) (wrapping_add u64_limit now d) = (d <=? e)%Z.
Proof.
  intros Hd He. unfold expired, wrapping_sub, wrapping_add.
  rewrite <-Zminus_mod. replace (now + e - (now + d))%Z with (e - d)%Z by lia.
  destruct (Z.leb_spec d e).
  - rewrite Z.mod_small by lia. apply Z.ltb_lt. lia.
  - rewrite <-(Z.mod_add _ 1), Z.mod_small by lia. apply Z.ltb_ge. lia.
Qed.

Lemma wake_expired_lookup now s i t :
  tasks s !! i = Some (Some t) ->
  tasks (wake_expired_sleepers now s) !! i = Some (Some
    (if bool_decide (t_state t = Sleeping) && is_some_and (t_wake_at t) (expired now)
     then with_wake_at None (with_state Ready t) else t)).
Proof. intros Ht. simpl. by rewrite list_lookup_imap, Ht. Qed.

(** *** The stack of a new task *)

Lemma ldiff_15 x : Z.ldiff x 0xf = (x - x mod 16)%Z.
Proof.
  change 0xf%Z with (Z.ones 4). rewrite Z.ldiff_ones_r, Z.shiftl_mul_pow2, Z.shiftr_div_pow2 by lia.
  change (2 ^ 4)%Z with 16%Z. pose proof (Z.div_mod x 16). lia.
Qed.

(** ** Properties *)

(** C15: A ready task that is not the idle task waits for at most fourteen switches of
    the processor, whatever the other tasks do (yield, block, sleep, end) and
    whatever becomes ready in between; and while it waits a switch always finds a
    task to run. *)
Theorem round_robin_bound i j s n s' :
  sched_ok s -> current s = Some i -> waiting j s -> waits j s n s' ->
  n <= 14 /\ exists s'' id, transition_current Ready s' = (s'', Ok id).
Proof.
  intros Hs Hc Hw H. destruct (waits_distance i j s n s' Hs Hc Hw H) as (Hs' & Hw' & k & Hk & Hlt & Hn).
  pose proof (current_lt i s Hs Hc) as Hi. pose proof (waiting_lt j s Hs Hw) as Hj.
  pose proof (waiting_not_current i j s Hs Hc Hw). split.
  { rewrite (distance_cases i j Hi Hj) in Hn. case_decide; lia. }
  destruct (transition_current_spec s' Ready k Hs' Hk ltac:(done)) as (t & _ & _ & ->).
  rewrite (bool_decide_true (Ready = Ready)) by done. rewrite andb_false_r.
  set (s1 := set_current None _). pose proof (select_next_spec s1 ((k + 1) mod MAX_TASKS)) as Hsel.
  destruct (choice s1 _) as [m|] eqn:Hch; [destruct Hsel as (u & _ & _ & ->); eauto|].
  unfold choice in Hch. destruct (find_runnable false s1 _) eqn:E; [done|].
  assert (waiting j s1) as Hw1.
  { apply waiting_leave; [|done]. by apply (waiting_not_current k j s'). }
  unfold waiting in Hw1. by rewrite (find_runnable_None _ _ _ j E Hj) in Hw1.
Qed.

(** Three tasks; the first runs, the second after it, the third waits. *)
Definition example_ops : Op Scheduler SchedulerError Z :=
  _ ← create_task CpuContext_empty; _ ← create_task CpuContext_empty;
  _ ← create_task CpuContext_empty; start.

Definition example_sched : Scheduler := (example_ops Scheduler_new).1.

Lemma example_sched_ok : sched_ok example_sched.
Proof.
  assert (preserves sched_ok example_ops) as H.
  { do 3 (apply preserves_bind; [intros s Hs; auto with leaf|intros ?]).
    intros s Hs. auto with leaf. }
  apply H, Scheduler_new_ok.
Qed.

Lemma round_robin_bound_witness :
  1 <= 14 /\ exists s'' id,
    transition_current Ready (transition_current Ready example_sched).1 = (s'', Ok id).
Proof.
  apply (round_robin_bound 0 2 example_sched).
  - apply example_sched_ok.
  - reflexivity.
  - reflexivity.
  - eapply (waits_switch 2 example_sched 0 example_sched _ Ready 2%Z).
    + apply waits_start.
    + by left.
    + reflexivity.
    + reflexivity.
Defined.

(** A task put to sleep for [d] ticks is made ready by the first check of the
    sleepers at least [d] ticks later and by none before it, also when the tick
    counter wraps around; every other task that is not due keeps its state. *)
Theorem sleepers_wake_on_time s i t now d e :
  tasks s !! i = Some (Some t) -> t_state t = Sleeping ->
  t_wake_at t = Some (wrapping_add u64_limit now d) ->
  (0 < d <= 2 ^ 63)%Z -> (0 <= e < 2 ^ 63)%Z ->
  let s' := wake_expired_sleepers (wrapping_add u64_limit now e) s in
  (tasks s' !! i = Some (Some (if (d <=? e)%Z then with_wake_at None (with_state Ready t) else t))) /\
  (forall j u, tasks s !! j = Some (Some u) -> t_state u <> Sleeping ->
     tasks s' !! j = Some (Some u)).
Proof.
  intros Ht Hst Hw Hd He s'. split.
  - unfold s'. rewrite (wake_expired_lookup _ s i t Ht), Hst, Hw, bool_decide_true by done.
    simpl is_some_and. by rewrite expired_after.
  - intros j u Hu Hnst. unfold s'. rewrite (wake_expired_lookup _ s j u Hu).
    by rewrite bool_decide_false.
Qed.

(** Two ticks, across the wrap-around. *)
Lemma sleepers_wake_on_time_witness :
  let s := (sleep_current_until 1%Z example_sched).1 in
  let t := leaves Sleeping (Some 1%Z)
    (with_state Running (new_task 1 CpuContext_empty None None None None None initial_table)) in
  (tasks (wake_expired_sleepers 1%Z s) !! 0 = Some (Some (with_wake_at None (with_state Ready t)))) /\
  (forall j u, tasks s !! j = Some (Some u) -> t_state u <> Sleeping ->
     tasks (wake_expired_sleepers 1%Z s) !! j = Some (Some u)).
Proof.
  exact (sleepers_wake_on_time (sleep_current_until 1%Z example_sched).1 0
    (leaves Sleeping (Some 1%Z)
      (with_state Running (new_task 1 CpuContext_empty None None None None None initial_table)))
    18446744073709551615%Z 2%Z 2%Z eq_refl eq_refl eq_refl ltac:(lia) ltac:(lia)).
Defined.

(** The stack of a new task is built for every 8-byte aligned allocation: the
    saved stack pointer is 16-byte aligned and lies in the stack, the word it
    points to is the trampoline (so that [ret] enters it with the alignment the
    ABI requires) and interrupts are enabled in the saved flags. *)
Theorem task_stack_well_formed base trampoline :
  (0 <= base)%Z -> (base mod 8 = 0)%Z -> (base + KERNEL_STACK_SIZE < u64_limit)%Z ->
  exists context stack top, create_task_stack base trampoline = Ok (context, stack, top) /\
    (stack_pointer context mod 16 = 0)%Z /\ (base <= stack_pointer context)%Z /\
    (stack_pointer context + 16 = top)%Z /\ (top <= base + KERNEL_STACK_SIZE)%Z /\
    stack !! Z.to_nat ((stack_pointer context - base) / 8) = Some trampoline /\
    Z.testbit (rflags context) 9 = true.
Proof.
  intros H0 Hal Hb. unfold create_task_stack, KERNEL_STACK_SIZE in *.
  set (stack := replicate _ 0%Z).
  assert (Z.of_nat (length stack) = 8192%Z) as Hlen
    by (unfold stack; rewrite length_replicate; done).
  rewrite Hlen. unfold checked_add. change (8192 * 8)%Z with 65536%Z.
  rewrite (proj2 (Z.ltb_lt _ _)) by lia. cbn [ok_or mbind outcome_bind]. rewrite ldiff_15.
  set (top := (base + 65536 - (base + 65536) mod 16)%Z).
  pose proof (Z.mod_pos_bound (base + 65536) 16 ltac:(lia)).
  assert (top mod 16 = 0)%Z as Htop by (unfold top; rewrite Zminus_mod, Z.mod_mod, Z.sub_diag by lia; done).
  unfold checked_sub. change (2 * 8)%Z with 16%Z.
  rewrite (proj2 (Z.leb_le 16 top)) by (unfold top; lia). cbn [ok_or mbind outcome_bind].
  rewrite (proj2 (Z.leb_le base (top - 16))) by (unfold top; lia). cbn [mbind option_bind].
  assert ((top - 16 - base) mod 8 = 0)%Z as Hmod.
  { assert (top mod 8 = 0)%Z as Ht8.
    { pose proof (Z.div_mod top 16 ltac:(lia)). rewrite Htop in *.
      replace top with (2 * (top / 16) * 8)%Z by lia. apply Z.mod_mul. lia. }
    rewrite Zminus_mod, (Zminus_mod top 16), Ht8, Hal. done. }
  rewrite Hmod. simpl Z.eqb. cbv iota.
  assert ((top - 16 - base) / 8 < 8192)%Z as Hidx by (apply Z.div_lt_upper_bound; unfold top; lia).
  rewrite (proj2 (Z.ltb_lt _ _) Hidx). cbn [ok_or mbind outcome_bind].
  eexists _, _, _. split; [done|]. cbn [stack_pointer rflags].
  assert (0 <= (top - 16 - base) / 8)%Z by (apply Z.div_pos; unfold top; lia).
  split_and!; [|unfold top; lia..| |done].
  - rewrite Zminus_mod, Htop. done.
  - apply list_lookup_insert_eq. lia.
Qed.

Lemma task_stack_well_formed_witness :
  exists context stack top, create_task_stack 0x200008 0x1234 = Ok (context, stack, top) /\
    (stack_pointer context mod 16 = 0)%Z /\ (0x200008 <= stack_pointer context)%Z /\
    (stack_pointer context + 16 = top)%Z /\ (top <= 0x200008 + KERNEL_STACK_SIZE)%Z /\
    stack !! Z.to_nat ((stack_pointer context - 0x200008) / 8) = Some 0x1234%Z /\
    Z.testbit (rflags context) 9 = true.
Proof. apply task_stack_well_formed; [lia|reflexivity|reflexivity]. Defined.
