(* ===== verification/Kernel.v ===== *)
(** * The kernel's tasks, descriptors and address spaces together

    The functions of [tasking/scheduler.rs] that use the global scheduler: they
    change the task table ([Scheduler]), the descriptors ([Fd]), the address
    spaces ([Paging]) and the processor (the registers of a context, [CR3] and the
    per-CPU data of [arch/syscall.rs]).

    The scheduler lock and [InterruptGuard] disable interrupts, so each function
    runs without interruption up to its context switch.  A context switch ends
    the operation with [Switched]: another task is running.  What the source does
    after the switch it does when the task is selected again. *)

From S2P Require Import Prelude Ring Input Utf8 FileSystem Fd FrameAlloc UserRange Paging Scheduler.

(** [LEAFOS_CPU_LOCAL] of [arch/syscall.rs]. *)
Record CpuLocal := mk_cpu_local {
  user_rsp : Z;
  kernel_rsp : Z;
}.

(** [k_cpu] are the registers of the running code at the call of
    [leafos_context_switch], [k_cr3] is the root of the active page tables. *)
Record Kernel (D PT : Type) := mk_kernel {
  k_sched : Scheduler;
  k_io : Io D;
  k_mem : @Memory PT;
  k_cr3 : Z;
  k_cpu : CpuContext;
  k_bootstrap : CpuContext;
  k_local : CpuLocal;
  k_ticks : Z;
}.

Arguments mk_kernel {D PT} _ _ _ _ _ _ _ _.
Arguments k_sched {D PT} _.
Arguments k_io {D PT} _.
Arguments k_mem {D PT} _.
Arguments k_cr3 {D PT} _.
Arguments k_cpu {D PT} _.
Arguments k_bootstrap {D PT} _.
Arguments k_local {D PT} _.
Arguments k_ticks {D PT} _.

Record FdMapping := mk_fd_mapping {
  source : nat;
  target : nat;
}.

(** How a call ends, seen from the running task: it returned, or it gave the
    processor to another context. *)
Inductive flow (A : Type) := Returned (a : A) | Switched.
Arguments Returned {A} a.
Arguments Switched {A}.

(** The two pointers [leafos_context_switch] takes. *)
Inductive context_ptr := TaskContext (slot : nat) | BootstrapContext.

(** The descriptors in the tables of all tasks. *)
Definition fds_of (slot : option Task) : list FileDescriptor :=
  match slot with Some t => omap id (t_fds t) | None => [] end.

Definition live_fds (s : Scheduler) : list FileDescriptor := mjoin (fds_of <$> tasks s).

Definition set_rflags (f : Z) (c : CpuContext) : CpuContext :=
  mk_cpu (stack_pointer c) (rbx c) (rbp c) (r12 c) (r13 c) (r14 c) (r15 c) f.

Definition with_address_space (space : AddressSpace) (t : Task) : Task :=
  with_user (u ← t_user t; Some (mk_user_task space (user_context u) (syscall_user_rsp u))) t.

Definition with_syscall_rsp (rsp : Z) (t : Task) : Task :=
  with_user (u ← t_user t; Some (mk_user_task (address_space u) (user_context u) rsp)) t.

Definition read_error (e : ReadError) : SchedulerError :=
  match e with
  | ReadInvalid => InvalidFd
  | ReadWouldBlock => WouldBlock
  | ReadIo => SchedIo
  end.

Definition write_error (e : WriteError) : SchedulerError :=
  match e with
  | WriteInvalid => InvalidFd
  | WriteWouldBlock => WouldBlock
  | BrokenPipe => SchedBrokenPipe
  | WriteIo => SchedIo
  end.

Section kernel.
Context {D DE : Type} `{FileSystem D DE}.
Context {PT : Type} `{Mapper PT}.
Variable try_new : Z -> option Z.
(** The address of [task_trampoline]. *)
Variable trampoline : Z.
(** The address of [idle_task_entry]. *)
Variable idle_entry : Z.

Definition K : Type := Kernel D PT.

Definition set_sched (s : Scheduler) (k : K) : K :=
  mk_kernel s (k_io k) (k_mem k) (k_cr3 k) (k_cpu k) (k_bootstrap k) (k_local k) (k_ticks k).
Definition set_io (io : Io D) (k : K) : K :=
  mk_kernel (k_sched k) io (k_mem k) (k_cr3 k) (k_cpu k) (k_bootstrap k) (k_local k) (k_ticks k).
Definition set_mem (mem : @Memory PT) (k : K) : K :=
  mk_kernel (k_sched k) (k_io k) mem (k_cr3 k) (k_cpu k) (k_bootstrap k) (k_local k) (k_ticks k).
Definition set_cr3 (r : Z) (k : K) : K :=
  mk_kernel (k_sched k) (k_io k) (k_mem k) r (k_cpu k) (k_bootstrap k) (k_local k) (k_ticks k).
Definition set_cpu (c : CpuContext) (k : K) : K :=
  mk_kernel (k_sched k) (k_io k) (k_mem k) (k_cr3 k) c (k_bootstrap k) (k_local k) (k_ticks k).
Definition set_bootstrap (c : CpuContext) (k : K) : K :=
  mk_kernel (k_sched k) (k_io k) (k_mem k) (k_cr3 k) (k_cpu k) c (k_local k) (k_ticks k).
Definition set_local (l : CpuLocal) (k : K) : K :=
  mk_kernel (k_sched k) (k_io k) (k_mem k) (k_cr3 k) (k_cpu k) (k_bootstrap k) l (k_ticks k).
Definition set_ticks (n : Z) (k : K) : K :=
  mk_kernel (k_sched k) (k_io k) (k_mem k) (k_cr3 k) (k_cpu k) (k_bootstrap k) (k_local k) n.

(** An operation on one part of the kernel. *)
Definition on_sched {E A} (op : Op Scheduler E A) : Op K E A := fun k =>
  let '(s, r) := op (k_sched k) in (set_sched s k, r).
Definition on_io {E A} (op : Op (Io D) E A) : Op K E A := fun k =>
  let '(io, r) := op (k_io k) in (set_io io k, r).
Definition modify_sched {E} (f : Scheduler -> Scheduler) : Op K E unit := on_sched (modify f).

(** ** The processor *)

Definition interrupts_enabled (k : K) : bool := Z.testbit (rflags (k_cpu k)) 9.

Definition set_interrupts (on : bool) (k : K) : K :=
  let c := k_cpu k in
  set_cpu (set_rflags (if on then Z.lor (rflags c) 0x200 else Z.ldiff (rflags c) 0x200) c) k.

(** A function that begins with [InterruptGuard::new()]: the guard is dropped on
    return, and when the task runs again after a switch. *)
Definition with_guard {E A} (body : Op K E (flow A)) : Op K E (flow A) := fun k =>
  let restore_enabled := interrupts_enabled k in
  match body (set_interrupts false k) with
  | (k, Ok Switched) => (k, Ok Switched)
  | (k, Panic) => (k, Panic)
  | (k, r) => (if restore_enabled then set_interrupts true k else k, r)
  end.

Definition store_context (p : context_ptr) (c : CpuContext) (k : K) : K :=
  match p with
  | TaskContext i => set_sched (update_task i (with_context c) (k_sched k)) k
  | BootstrapContext => set_bootstrap c k
  end.

Definition load_context (p : context_ptr) (k : K) : option CpuContext :=
  match p with
  | TaskContext i => slot ← tasks (k_sched k) !! i; t_context <$> slot
  | BootstrapContext => Some (k_bootstrap k)
  end.

(** [leafos_context_switch(old, new)]. *)
Definition context_switch {E} (old new : context_ptr) : Op K E unit := fun k =>
  let k := store_context old (k_cpu k) k in
  match load_context new k with
  | Some c => (set_cpu c k, Ok tt)
  | None => (k, Panic)
  end.

(** [syscall::initialize(stack_top)]: the part of it that depends on the task. *)
Definition initialize {E} (stack_top : Z) : Op K E unit :=
  modify (fun k => set_local (mk_cpu_local (user_rsp (k_local k)) (Z.ldiff stack_top 0xf)) k).

Definition set_user_rsp {E} (rsp : Z) : Op K E unit :=
  modify (fun k => set_local (mk_cpu_local rsp (kernel_rsp (k_local k))) k).

(** [AddressSpace::activate] and [memory::activate_kernel_address_space], with the
    [expect] of their callers.  Writing [CR3] only when it differs is the same
    state. *)
Definition activate {E} (space : AddressSpace) : Op K E unit :=
  root ← lift (expect (root space));
  modify (set_cr3 root).

Definition activate_kernel_address_space {E} : Op K E unit :=
  k ← get;
  match k_mem k with
  | Some (Ok m) => modify (set_cr3 (mm_kernel_root m))
  | _ => panic
  end.

Definition activate_task_address_space {E} (index : option nat) : Op K E unit :=
  match index with
  | None => activate_kernel_address_space
  | Some index =>
      slot ← on_sched (slot_at index);
      task ← lift (expect slot);
      match t_user task with
      | Some user =>
          stack_top ← lift (expect (t_stack_top task));
          _ ← initialize stack_top;
          _ ← set_user_rsp (syscall_user_rsp user);
          activate (address_space user)
      | None => activate_kernel_address_space
      end
  end.

Definition save_current_user_rsp {E} (current : nat) : Op K E unit :=
  _ ← on_sched (slot_at current);
  k ← get;
  modify_sched (update_task current (with_syscall_rsp (user_rsp (k_local k)))).

(** [scheduler.tasks[index].as_ref().ok_or(UnknownTask)?.context as *const _]. *)
Definition context_of (index : nat) : Op K SchedulerError context_ptr :=
  _ ← on_sched (task_mut index);
  mret (TaskContext index).

(** [match scheduler.current { Some(next) => .., None => &raw const BOOTSTRAP_CONTEXT }]
    with the activation of the address space. *)
Definition next_context : Op K SchedulerError context_ptr :=
  k ← get;
  _ ← activate_task_address_space (current (k_sched k));
  match current (k_sched k) with
  | Some next => context_of next
  | None => mret BootstrapContext
  end.

(** [Ok(_) | Err(NoRunnableTasks) => {}, Err(error) => return Err(error)]. *)
Definition allow_idle (op : Op Scheduler SchedulerError Z) : Op K SchedulerError unit := fun k =>
  match on_sched op k with
  | (k, Ok _) | (k, Err NoRunnableTasks) => (k, Ok tt)
  | (k, Err e) => (k, Err e)
  | (k, Panic) => (k, Panic)
  end.

(** The end of every blocking call: the address space and the context of the next
    task, then the switch. *)
Definition switch_away {A} (current : nat) : Op K SchedulerError (flow A) :=
  old_context ← context_of current;
  next_context ← next_context;
  _ ← context_switch old_context next_context;
  mret Switched.

(** ** Giving up the processor *)

Definition yield_now : Op K SchedulerError (flow unit) := with_guard (
  k ← get;
  cur ← lift (ok_or (current (k_sched k)) NotStarted);
  _ ← save_current_user_rsp cur;
  _ ← on_sched (transition_current Ready);
  k ← get;
  next ← lift (ok_or (current (k_sched k)) NoRunnableTasks);
  _ ← activate_task_address_space (Some next);
  old_context ← context_of cur;
  next_context ← context_of next;
  _ ← context_switch old_context next_context;
  mret Switched).

(** [crate::time::timer::ticks()] is [k_ticks]. *)
Definition preempt_from_timer : Op K SchedulerError (flow unit) := with_guard (
  k ← get;
  match current (k_sched k) with
  | None => mret (Returned tt)
  | Some cur =>
      _ ← modify_sched (wake_expired_sleepers (k_ticks k));
      _ ← or_panic (allow_idle (transition_current Ready));
      k ← get;
      match current (k_sched k) with
      | None => mret (Returned tt)
      | Some next =>
          if next =? cur then mret (Returned tt)
          else
            _ ← activate_task_address_space (Some next);
            old_context ← or_panic (context_of cur);
            next_context ← or_panic (context_of next);
            _ ← context_switch old_context next_context;
            mret Switched
      end
  end).

Definition block_now : Op K SchedulerError (flow unit) := with_guard (
  k ← get;
  cur ← lift (ok_or (current (k_sched k)) NotStarted);
  _ ← save_current_user_rsp cur;
  _ ← allow_idle (transition_current Blocked);
  switch_away cur).

Definition sleep_ticks (duration : Z) : Op K SchedulerError (flow unit) :=
  if (duration =? 0)%Z then mret (Returned tt)
  else with_guard (
    k ← get;
    let deadline := wrapping_add u64_limit (k_ticks k) duration in
    cur ← lift (ok_or (current (k_sched k)) NotStarted);
    _ ← save_current_user_rsp cur;
    _ ← allow_idle (sleep_current_until deadline);
    switch_away cur).

(** [exit_current_with_status_and_group]; [exit_current], [exit_current_with_code]
    and [exit_current_group_with_code] call it. *)
Definition exit_current_with_status_and_group (exit_code : option Z) (terminate_group : bool) :
  Op K SchedulerError (flow unit) := with_guard (
  k ← get;
  cur ← lift (expect (current (k_sched k)));
  _ ← save_current_user_rsp cur;
  _ ← (if terminate_group then modify_sched (terminate_siblings cur exit_code) else mret tt);
  slot ← on_sched (slot_at cur);
  _ ← lift (expect slot);
  _ ← modify_sched (update_task cur (with_exit_code exit_code));
  _ ← on_sched (wake_parent cur);
  _ ← or_panic (allow_idle (transition_current Terminated));
  or_panic (switch_away cur)).

(** One round of the loop of [idle_task_entry].  After [let _ = yield_now()] the
    idle task enables interrupts and halts, when it runs again. *)
Definition idle_yield : Op K SchedulerError (flow unit) := fun k =>
  match yield_now k with
  | (k, Err _) => (set_interrupts true k, Ok (Returned tt))
  | r => r
  end.

Definition idle_round : Op K SchedulerError (flow unit) :=
  k ← get;
  _ ← modify_sched (wake_expired_sleepers (k_ticks k));
  k ← get;
  if negb (has_live_non_idle_tasks (k_sched k)) then
    cur ← lift (expect (current (k_sched k)));
    slot ← on_sched (slot_at cur);
    idle ← lift (expect slot);
    if negb (t_is_idle idle) then panic
    else
      _ ← modify_sched (update_task cur (with_state Ready));
      _ ← modify_sched (set_current None);
      _ ← activate_task_address_space None;
      _ ← context_switch (TaskContext cur) BootstrapContext;
      mret Switched
  else idle_yield.

(** ** Releasing tasks *)

(** The drop of a descriptor table, in order. *)
Definition drop_fds {E} (fds : list (option FileDescriptor)) : Op (Io D) E unit :=
  for_op fds (fun fd => match fd with Some d => drop_fd d | None => mret tt end).

(** [user.address_space.destroy()] on the task of a slot. *)
Definition destroy_task_space (index : nat) (space : AddressSpace) : Op K SchedulerError unit :=
  fun k =>
  let '(mem, space, r) := destroy try_new (k_cr3 k) (k_mem k, space) in
  (set_sched (update_task index (with_address_space space) (k_sched k)) (set_mem mem k),
   map_err (fun _ => AddressSpaceCleanup) r).

Definition clear_slot (index : nat) (s : Scheduler) : Scheduler :=
  set_tasks (<[index := None]> (tasks s)) s.

Definition reap_terminated (id : Z) : Op K SchedulerError unit :=
  k ← get;
  index ← lift (ok_or (index_of id (k_sched k)) UnknownTask);
  slot ← on_sched (slot_at index);
  if bool_decide (current (k_sched k) = Some index)
     || negb (is_some_and slot (fun t => bool_decide (t_state t = Terminated)))
  then fail InvalidState
  else
    _ ← match (t ← slot; t_user t) with
        | Some user => destroy_task_space index (address_space user)
        | None => mret tt
        end;
    _ ← modify_sched (clear_slot index);
    on_io (drop_fds (match slot with Some t => t_fds t | None => [] end)).

(** One round of the loop of [wait_for_child]. *)
Definition check_child (parent : Z) (child : option Z) : Op K SchedulerError unit :=
  match child with
  | Some child_id =>
      t ← on_sched (task child_id);
      if bool_decide (t_parent t = Some parent) then mret tt else fail NotChild
  | None => mret tt
  end.

(** The [match] on [terminated_child]: a child to reap, or [None] to wait. *)
Definition find_terminated (parent : Z) (child : option Z) : Op K SchedulerError (option Z) :=
  fun k =>
  match on_sched (terminated_child parent child) k with
  | (k, Ok child_id) => (k, Ok (Some child_id))
  | (k, Err ChildRunning) => (k, Ok None)
  | (k, Err UnknownTask) =>
      match child with Some _ => (k, Err UnknownTask) | None => (k, Ok None) end
  | (k, Err e) => (k, Err e)
  | (k, Panic) => (k, Panic)
  end.

Definition wait_for_child (child : option Z) : Op K SchedulerError (flow (Z * option Z)) :=
  with_guard (
  k ← get;
  cur ← lift (ok_or (current (k_sched k)) NotStarted);
  t ← on_sched (task_mut cur);
  let parent := t_id t in
  _ ← check_child parent child;
  found ← find_terminated parent child;
  match found with
  | Some child_id =>
      c ← on_sched (task child_id);
      _ ← reap_terminated child_id;
      mret (Returned (child_id, t_exit_code c))
  | None =>
      _ ← save_current_user_rsp cur;
      _ ← on_sched (transition_current Blocked);
      switch_away cur
  end).

(** ** Creating tasks *)

(** A descriptor table under construction. *)
Definition FdTable : Type := Io D * list (option FileDescriptor).

Definition table_io {E A} (op : Op (Io D) E A) : Op FdTable E A := fun '(io, fds) =>
  let '(io, r) := op io in (io, fds, r).

(** [if let Some(descriptor) = fds[i].take() { fd::close(descriptor) }]. *)
Definition close_slot {E} (i : nat) : Op FdTable E unit :=
  '(_, fds) ← get;
  slot ← lift (expect (fds !! i));
  match slot with
  | Some d =>
      _ ← modify (fun '(io, fds) => (io, <[i := None]> fds));
      table_io (drop_fd d)
  | None => mret tt
  end.

(** The body of the first loop over [fd_mappings]. *)
Definition map_fd (m : FdMapping) : Op FdTable SchedulerError unit :=
  if (MAX_FDS <=? source m) || (MAX_FDS <=? target m) then fail InvalidFd
  else
    '(_, fds) ← get;
    slot ← lift (expect (fds !! source m));
    d ← lift (ok_or slot InvalidFd);
    descriptor ← table_io (clone d);
    _ ← close_slot (target m);
    modify (fun '(io, fds) => (io, <[target m := Some descriptor]> fds)).

(** The body of the second loop, and of the loop over [fd_closes]. *)
Definition close_source (m : FdMapping) : Op FdTable SchedulerError unit :=
  if source m =? target m then mret tt else close_slot (source m).

Definition close_extra (fd : nat) : Op FdTable SchedulerError unit :=
  if MAX_FDS <=? fd then fail InvalidFd else close_slot fd.

(** [fds.clone()]. *)
Fixpoint clone_fds {E} (fds : list (option FileDescriptor)) :
  Op (Io D) E (list (option FileDescriptor)) :=
  match fds with
  | [] => mret []
  | None :: fds => rest ← clone_fds fds; mret (None :: rest)
  | Some d :: fds => d ← clone d; rest ← clone_fds fds; mret (Some d :: rest)
  end.

(** The table of a new task; on an error the table is dropped. *)
Definition arrange_fds (mappings : list FdMapping) (closes : list nat)
  (fds : list (option FileDescriptor)) : Op (Io D) SchedulerError (list (option FileDescriptor)) :=
  fun io =>
  match (_ ← for_op mappings map_fd; _ ← for_op mappings close_source; for_op closes close_extra)
          (io, fds) with
  | ((io, fds), Ok _) => (io, Ok fds)
  | ((io, fds), Err e) => (_ ← drop_fds fds; fail e) io
  | ((io, fds), Panic) => (io, Panic)
  end.

Definition child_fds (inherited : option (list (option FileDescriptor)))
  (mappings : list FdMapping) (closes : list nat) :
  Op (Io D) SchedulerError (list (option FileDescriptor)) :=
  fds ← match inherited with
        | Some fds => clone_fds fds
        | None => mret initial_table
        end;
  arrange_fds mappings closes fds.

(** The kernel and the address space a new task takes. *)
Definition KS : Type := K * option AddressSpace.

Definition on_k {E A} (op : Op K E A) : Op KS E A := fun '(k, space) =>
  let '(k, r) := op k in (k, space, r).

Definition parent_fds (parent : option Z) (s : Scheduler) : option (list (option FileDescriptor)) :=
  p ← parent; i ← index_of p s; slot ← tasks s !! i; t_fds <$> slot.

(** [self.tasks[slot] = Some(Task { .. })] and [self.next_id = next_id]. *)
Definition place_task (slot : nat) (t : Task) (next : Z) (s : Scheduler) : Scheduler :=
  set_tasks (<[slot := Some t]> (tasks s)) (set_next_id next s).

Definition create_user_task (stack_base : Z) (context : UserContext) (parent : option Z)
  (fd_mappings : list FdMapping) (fd_closes : list nat) : Op KS SchedulerError Z :=
  _ ← on_k (on_sched check_task_capacity);
  id ← on_k (on_sched (gets next_id));
  next ← lift (ok_or (checked_add u64_limit id 1) TaskIdExhausted);
  '(cpu_context, stack, stack_top) ← lift (create_task_stack stack_base trampoline);
  '(k, taken) ← get;
  _ ← put (k, None);
  space ← lift (ok_or taken InvalidContext);
  fds ← on_k (on_io (child_fds (parent_fds parent (k_sched k)) fd_mappings fd_closes));
  slot ← or_panic (on_k (on_sched check_task_capacity));
  _ ← on_k (modify_sched (place_task slot
        (mk_task id parent Ready None cpu_context None (Some (mk_user_task space context 0))
           (Some stack) (Some stack_top) None false fds) next));
  mret id.

Definition destroy_unspawned_address_space : Op KS SchedulerError unit := fun '(k, space) =>
  match space with
  | Some space =>
      let '(mem, _, r) := destroy try_new (k_cr3 k) (k_mem k, space) in
      (set_mem mem k, None, map_err (fun _ => AddressSpaceCleanup) r)
  | None => (k, None, Ok tt)
  end.

(** One slot is kept for the idle task until it is installed. *)
Definition slot_reserved (s : Scheduler) : bool :=
  is_none (idle_index s) && (count is_none (tasks s) <=? 1).

Definition try_create_user (stack_base : Z) (context : UserContext)
  (fd_mappings : list FdMapping) (fd_closes : list nat) : Op KS SchedulerError Z :=
  '(k, _) ← get;
  if slot_reserved (k_sched k) then fail Full
  else create_user_task stack_base context (current_task (k_sched k)) fd_mappings fd_closes.

(** [op], and on an error the address space is destroyed. *)
Definition or_destroy (op : Op KS SchedulerError Z) : Op KS SchedulerError Z := fun ks =>
  match op ks with
  | (ks, Err e) => (_ ← destroy_unspawned_address_space; fail e) ks
  | r => r
  end.

Definition spawn_user_with_arguments_and_fds (stack_base : Z) (space : AddressSpace)
  (entry stack argument_count argument_vector : Z) (fd_mappings : list FdMapping)
  (fd_closes : list nat) : Op K SchedulerError Z := fun k =>
  let op :=
    match for_address_space_with_arguments space entry stack argument_count argument_vector with
    | Err e => fail (InvalidUserContext e)
    | Panic => panic
    | Ok context => try_create_user stack_base context fd_mappings fd_closes
    end in
  let '(k, _, r) := or_destroy op (k, Some space) in (k, r).

Definition spawn (stack_base entry : Z) : Op K SchedulerError Z := on_sched (
  s ← get;
  if slot_reserved s then fail Full
  else create_kernel_task stack_base trampoline entry (current_task s)).

(** ** Starting and leaving the scheduler *)

Definition install_idle (stack_base : Z) : Op Scheduler SchedulerError unit :=
  s ← get;
  if is_none (idle_index s) then
    id ← create_kernel_task stack_base trampoline idle_entry None;
    s ← get;
    index ← lift (ok_or (index_of id s) UnknownTask);
    _ ← task_mut index;
    _ ← modify (update_task index (with_idle true));
    modify (set_idle_index (Some index))
  else mret tt.

(** [run_tasks], up to the switch to the first task. *)
Definition run_tasks (stack_base : Z) : Op K SchedulerError (flow unit) := with_guard (
  _ ← on_sched (install_idle stack_base);
  _ ← on_sched start;
  k ← get;
  index ← lift (ok_or (current (k_sched k)) NotStarted);
  _ ← activate_task_address_space (Some index);
  next_context ← context_of index;
  _ ← context_switch BootstrapContext next_context;
  mret Switched).

(** [run_tasks] after the switch back: the idle task is released. *)
Definition run_tasks_resumed : Op K SchedulerError unit :=
  k ← get;
  let s := k_sched k in
  match idle_index s with
  | Some index =>
      slot ← on_sched (slot_at index);
      if is_none (current s)
         && is_some_and slot (fun t => t_is_idle t && bool_decide (t_state t = Ready)) then
        _ ← modify_sched (set_idle_index None);
        _ ← modify_sched (clear_slot index);
        on_io (drop_fds (match slot with Some t => t_fds t | None => [] end))
      else mret tt
  | None => mret tt
  end.

(** ** Descriptors of the current task *)

(** [scheduler.current.and_then(|index| scheduler.tasks[index].as_ref())]. *)
Definition running_task {E} : Op K E (option Task) :=
  k ← get;
  match current (k_sched k) with
  | Some i => on_sched (slot_at i)
  | None => mret None
  end.

Definition current_task_is_user {E} : Op K E bool :=
  t ← running_task; mret (is_some_and t (fun t => negb (is_none (t_user t)))).

(** A call of [fd::read] or [fd::write] with its error translated. *)
Definition on_fd {E A} (op : Op (Io D) E A) (g : E -> SchedulerError) : Op K SchedulerError A :=
  fun k => let '(io, r) := op (k_io k) in (set_io io k, map_err g r).

Definition current_fd (fd_number : nat) : Op K SchedulerError FileDescriptor :=
  found ← running_task;
  t ← lift (ok_or found NotStarted);
  lift (ok_or (mjoin (t_fds t !! fd_number)) InvalidFd).

Definition read_current_fd (fd_number : nat) (output : list Z) :
  Op K SchedulerError (nat * list Z) :=
  d ← current_fd fd_number; on_fd (read d output) read_error.

Definition write_current_fd (fd_number : nat) (input : list Z) : Op K SchedulerError nat :=
  d ← current_fd fd_number; on_fd (write d input) write_error.

(** [scheduler.current.ok_or(NotStarted)?] and
    [scheduler.tasks[current].as_ref().ok_or(UnknownTask)?]. *)
Definition current_slot : Op K SchedulerError (nat * Task) :=
  k ← get;
  cur ← lift (ok_or (current (k_sched k)) NotStarted);
  t ← on_sched (task_mut cur);
  mret (cur, t).

(** [task.fds[fd] = Some(d)], which drops nothing: the slot is free. *)
Definition put_fd (cur fd : nat) (d : option FileDescriptor) : Op K SchedulerError unit :=
  modify_sched (update_task cur (fun t => with_fds (<[fd := d]> (t_fds t)) t)).

(** [d] is dropped when [op] fails. *)
Definition or_drop {A} (d : FileDescriptor) (op : Op K SchedulerError A) :
  Op K SchedulerError A := fun k =>
  match op k with
  | (k, Err e) => (_ ← on_io (drop_fd d); fail e) k
  | r => r
  end.

(** The end of [create_file_write_for_current] and [create_file_read_for_current]. *)
Definition install_file (file_fd : nat) (d : FileDescriptor) : Op K SchedulerError nat :=
  or_drop d (
    '(cur, t) ← current_slot;
    slot ← lift (expect (t_fds t !! file_fd));
    if negb (is_none slot) then fail Full
    else
      _ ← put_fd cur file_fd (Some d);
      mret file_fd).

Definition create_file_for_current (create : Op (Io D) unit FileDescriptor) :
  Op K SchedulerError (flow nat) := with_guard (
  '(_, t) ← current_slot;
  file_fd ← lift (ok_or (find_free_fd (t_fds t)) Full);
  d ← on_fd create (fun _ => SchedIo);
  n ← install_file file_fd d;
  mret (Returned n)).

Definition create_file_write_for_current (path : list Z) : Op K SchedulerError (flow nat) :=
  create_file_for_current (create_file_write path).

Definition create_file_read_for_current (path : list Z) : Op K SchedulerError (flow nat) :=
  create_file_for_current (create_file_read path).

Definition install_pipe (read_end write_end : FileDescriptor) : Op K SchedulerError (nat * nat) :=
  '(cur, t) ← current_slot;
  '(read_fd, write_fd) ← lift (ok_or (find_free_fd_pair (t_fds t)) Full);
  _ ← put_fd cur read_fd (Some read_end);
  _ ← put_fd cur write_fd (Some write_end);
  mret (read_fd, write_fd).

Definition create_pipe_for_current : Op K SchedulerError (nat * nat) :=
  created ← on_io create_pipe;
  '(read_end, write_end) ← lift (ok_or created Full);
  or_drop read_end (or_drop write_end (install_pipe read_end write_end)).

Definition wake_all_blocked_tasks {E} : Op K E unit := modify_sched wake_all_blocked.

Definition close_current_fd (fd_number : nat) : Op K SchedulerError unit :=
  k ← get;
  cur ← lift (ok_or (current (k_sched k)) NotStarted);
  t ← lift (ok_or (mjoin (tasks (k_sched k) !! cur)) InvalidFd);
  d ← lift (ok_or (mjoin (t_fds t !! fd_number)) InvalidFd);
  _ ← put_fd cur fd_number None;
  _ ← on_io (drop_fd d);
  wake_all_blocked_tasks.

(** [if let Some(previous) = task.fds[target].take() { fd::close(previous) }]. *)
Definition close_previous (cur : nat) (t : Task) (fd : nat) : Op K SchedulerError unit :=
  slot ← lift (expect (t_fds t !! fd));
  match slot with
  | Some d => _ ← put_fd cur fd None; on_io (drop_fd d)
  | None => mret tt
  end.

Definition duplicate_current_fd (source_fd target_fd : nat) : Op K SchedulerError unit :=
  if (MAX_FDS <=? source_fd) || (MAX_FDS <=? target_fd) then fail InvalidFd
  else if source_fd =? target_fd then
    k ← get;
    cur ← lift (ok_or (current (k_sched k)) NotStarted);
    slot ← on_sched (slot_at cur);
    match slot with
    | Some t =>
        fd ← lift (expect (t_fds t !! source_fd));
        if is_none fd then fail InvalidFd else mret tt
    | None => fail InvalidFd
    end
  else
    k ← get;
    cur ← lift (ok_or (current (k_sched k)) NotStarted);
    t ← lift (ok_or (mjoin (tasks (k_sched k) !! cur)) InvalidFd);
    fd ← lift (expect (t_fds t !! source_fd));
    d ← lift (ok_or fd InvalidFd);
    duplicate ← on_io (clone d);
    _ ← close_previous cur t target_fd;
    put_fd cur target_fd (Some duplicate).

(** ** The kernel as a transition system *)

(** The calls that change the kernel's state. *)
Inductive call :=
| Spawn (stack_base entry : Z)
| SpawnUser (stack_base : Z) (space : AddressSpace) (entry stack argc argv : Z)
    (mappings : list FdMapping) (closes : list nat)
| Yield
| Block
| Sleep (duration : Z)
| Exit (exit_code : option Z) (group : bool)
| WaitChild (child : option Z)
| WakeTask (id : Z)
| TerminateTask (id exit_code : Z)
| WakeAll
| Reap (id : Z)
| ReadFd (fd : nat) (output : list Z)
| WriteFd (fd : nat) (input : list Z)
| OpenWrite (path : list Z)
| OpenRead (path : list Z)
| MakePipe
| CloseFd (fd : nat)
| DupFd (source target : nat)
| Preempt
| IdleRound
| RunTasks (stack_base : Z)
| RunTasksResumed.

(** The call has returned, whatever its value. *)
Definition void {A} (op : Op K SchedulerError A) : Op K SchedulerError (flow unit) :=
  _ ← op; mret (Returned tt).

Definition void_flow {A} (op : Op K SchedulerError (flow A)) : Op K SchedulerError (flow unit) :=
  f ← op; mret (match f with Returned _ => Returned tt | Switched => Switched end).

Definition exec (c : call) : Op K SchedulerError (flow unit) :=
  match c with
  | Spawn stack_base entry => void (spawn stack_base entry)
  | SpawnUser stack_base space entry stack argc argv mappings closes =>
      void (spawn_user_with_arguments_and_fds stack_base space entry stack argc argv mappings closes)
  | Yield => yield_now
  | Block => block_now
  | Sleep duration => sleep_ticks duration
  | Exit exit_code group => exit_current_with_status_and_group exit_code group
  | WaitChild child => void_flow (wait_for_child child)
  | WakeTask id => void (on_sched (wake id))
  | TerminateTask id exit_code => void (on_sched (terminate_task id exit_code))
  | WakeAll => void wake_all_blocked_tasks
  | Reap id => void (reap_terminated id)
  | ReadFd fd output => void (read_current_fd fd output)
  | WriteFd fd input => void (write_current_fd fd input)
  | OpenWrite path => void_flow (create_file_write_for_current path)
  | OpenRead path => void_flow (create_file_read_for_current path)
  | MakePipe => void create_pipe_for_current
  | CloseFd fd => void (close_current_fd fd)
  | DupFd source target => void (duplicate_current_fd source target)
  | Preempt => preempt_from_timer
  | IdleRound => idle_round
  | RunTasks stack_base => run_tasks stack_base
  | RunTasksResumed => void run_tasks_resumed
  end.

End kernel.
