(* ===== verification/KernelOk.v ===== *)
(** * The kernel invariant

    What holds between the task table, the descriptors, the address spaces and the
    processor, and that every call of [Kernel] keeps it. *)

From S2P Require Import Prelude Ring Input Utf8 FileSystem Fd FrameAlloc UserRange Paging Scheduler Timer Kernel.

(** What a task owns beside its place in the schedule. *)
Definition task_res (t : Task) : list (option FileDescriptor) * option AddressSpace * option Z :=
  (t_fds t, address_space <$> t_user t, t_stack_top t).

(** A part of every task, slot by slot. *)
Definition view {A} (g : Task -> A) (s : Scheduler) : list (option A) :=
  fmap (M := option) g <$> tasks s.

Abbreviation resources := (view task_res).

(** The address space of a task and its kernel stack. *)
Definition task_space (t : Task) : option AddressSpace * option Z :=
  (address_space <$> t_user t, t_stack_top t).

Abbreviation spaces := (view task_space).

(** What a context switch saves and restores. *)
Definition task_regs (t : Task) : Z * CpuContext := (t_id t, t_context t).
Abbreviation registers := (view task_regs).

(** A part of a task that its state and its wake-up time are not in. *)
Definition schedule_free {A} (g : Task -> A) : Prop :=
  (forall st t, g (with_state st t) = g t) /\ (forall w t, g (with_wake_at w t) = g t).

(** The root of the page tables a slot runs on; [kr] is the kernel's. *)
Definition slot_root (kr : Z) (slot : option Task) : Z :=
  match (t ← slot; u ← t_user t; root (address_space u)) with Some r => r | None => kr end.

Definition active_root (kr : Z) (s : Scheduler) : Z :=
  match current s with
  | Some i => slot_root kr (mjoin (tasks s !! i))
  | None => kr
  end.

(** A user task has page tables and a kernel stack. *)
Definition task_user_ok (t : Task) : Prop :=
  forall u, t_user t = Some u -> is_Some (root (address_space u)) /\ is_Some (t_stack_top t).

(** The table: well formed, with an idle task while a task runs. *)
Record table_ok (s : Scheduler) : Prop := mk_table_ok {
  tab_sched : sched_ok s;
  tab_user : forall i t, tasks s !! i = Some (Some t) -> task_user_ok t;
  tab_idle : is_Some (current s) -> is_Some (idle_index s);
}.

(** ** Parts of tasks *)

Lemma view_lookup {A} (g : Task -> A) s i : view g s !! i = fmap (M := option) g <$> tasks s !! i.
Proof. unfold view. apply list_lookup_fmap. Qed.

Lemma view_update {A} (g : Task -> A) f i s :
  (forall t, tasks s !! i = Some (Some t) -> g (f t) = g t) ->
  view g (update_task i f s) = view g s.
Proof.
  intros Hf. apply list_eq. intros j. rewrite !view_lookup. simpl.
  destruct (decide (j = i)) as [->|Hne]; [|by rewrite list_lookup_alter_ne].
  rewrite list_lookup_alter_eq. destruct (tasks s !! i) as [[t|]|] eqn:Ht; simpl; [|done..].
  by rewrite Hf.
Qed.

Lemma view_update_all {A} (g : Task -> A) f s :
  (forall i t, tasks s !! i = Some (Some t) -> g (f i t) = g t) ->
  view g (update_all f s) = view g s.
Proof.
  intros Hf. apply list_eq. intros j. rewrite !view_lookup. simpl.
  rewrite list_lookup_imap. destruct (tasks s !! j) as [[t|]|] eqn:Ht; simpl; [|done..].
  by rewrite Hf.
Qed.

(** The same part in both tables: the slots correspond. *)
Lemma view_slot {A} (g : Task -> A) s s' i slot :
  view g s' = view g s -> tasks s !! i = Some slot ->
  exists slot', tasks s' !! i = Some slot' /\ g <$> slot' = g <$> slot.
Proof.
  intros E Hs. pose proof (view_lookup g s i) as H1. pose proof (view_lookup g s' i) as H2.
  rewrite E, H1, Hs in H2. destruct (tasks s' !! i) as [slot'|]; simpl in H2; [|done].
  injection H2 as H2. eauto.
Qed.

Lemma view_task {A} (g : Task -> A) s s' i t :
  view g s' = view g s -> tasks s !! i = Some (Some t) ->
  exists t', tasks s' !! i = Some (Some t') /\ g t' = g t.
Proof.
  intros E Ht. destruct (view_slot g s s' i _ E Ht) as ([t'|] & Ht' & Hg); [|done].
  simpl in Hg. apply (inj Some) in Hg. eauto.
Qed.

Lemma task_res_free : schedule_free task_res.
Proof. done. Qed.

Lemma registers_free : schedule_free task_regs.
Proof. done. Qed.

Section kernel_ok.
Context {D DE : Type} `{FileSystem D DE}.
Context {PT : Type} `{Mapper PT}.

Abbreviation K := (Kernel D PT).

(** Everything but the processor. *)
Record core_ok (kr : Z) (k : K) : Prop := mk_core_ok {
  kok_table : table_ok (k_sched k);
  kok_io : io_ok (live_fds (k_sched k)) (k_io k);
  kok_mem : exists m, k_mem k = Some (Ok m) /\ mm_kernel_root m = kr;
}.

(** The active page tables are those of the current task. *)
Definition kernel_ok (kr : Z) (k : K) : Prop :=
  core_ok kr k /\ k_cr3 k = active_root kr (k_sched k).

(** ** Resources *)

(** The descriptors of all tasks are a function of the tables. *)
Lemma live_fds_view s s' : view t_fds s' = view t_fds s -> live_fds s' = live_fds s.
Proof.
  assert (forall s, live_fds s = mjoin ((fun o => match o with Some fds => omap id fds | None => [] end)
    <$> view t_fds s)) as Hl.
  { intros s0. unfold live_fds, view. f_equal. rewrite <-list_fmap_compose. apply list_fmap_ext.
    by intros i [t|] _. }
  intros E. by rewrite !Hl, E.
Qed.

Lemma live_fds_res s s' : resources s' = resources s -> live_fds s' = live_fds s.
Proof.
  intros E. apply live_fds_view. unfold view in *.
  assert (forall s, fmap (M := option) t_fds <$> tasks s
    = fmap (fun r => r.1.1) <$> (fmap (M := option) task_res <$> tasks s)) as Hl.
  { intros s0. rewrite <-list_fmap_compose. apply list_fmap_ext. by intros i [t|] _. }
  by rewrite !Hl, E.
Qed.

Lemma user_ok_space t t' : task_space t' = task_space t -> task_user_ok t -> task_user_ok t'.
Proof.
  intros [= Hu Ht] Hok u' Hu'. rewrite Hu' in Hu. simpl in Hu. rewrite Ht.
  destruct (t_user t) as [u|] eqn:Eu; [|done]. simpl in Hu. injection Hu as ->. by apply Hok.
Qed.

Lemma resources_spaces s s' : resources s' = resources s -> spaces s' = spaces s.
Proof.
  intros E. apply list_eq. intros i. pose proof (view_lookup task_res s i) as H1.
  pose proof (view_lookup task_res s' i) as H2. rewrite E, H1 in H2. rewrite !view_lookup.
  destruct (tasks s !! i) as [[t|]|], (tasks s' !! i) as [[t'|]|]; simpl in *; try done.
  unfold task_space. unfold task_res in H2. congruence.
Qed.

Lemma active_root_spaces kr s s' :
  spaces s' = spaces s -> current s' = current s -> active_root kr s' = active_root kr s.
Proof.
  intros E Hc. unfold active_root. rewrite Hc. destruct (current s) as [i|]; [|done].
  pose proof (view_lookup task_space s i) as H1. pose proof (view_lookup task_space s' i) as H2.
  rewrite E, H1 in H2. unfold slot_root.
  destruct (tasks s !! i) as [[t|]|], (tasks s' !! i) as [[t'|]|]; simpl in *; try done.
  unfold task_space in H2. injection H2 as H2 _.
  destruct (t_user t), (t_user t'); simpl in *; try done. injection H2 as H2. by rewrite H2.
Qed.

Lemma active_root_res kr s s' :
  resources s' = resources s -> current s' = current s -> active_root kr s' = active_root kr s.
Proof. intros E. by apply active_root_spaces, resources_spaces. Qed.

(** The same address spaces, with a well-formed schedule. *)
Lemma table_ok_spaces s s' :
  table_ok s -> sched_ok s' -> spaces s' = spaces s ->
  (is_Some (current s') -> is_Some (idle_index s')) -> table_ok s'.
Proof.
  intros Hok Hs E Hi. split; [done| |done]. intros i t' Ht'.
  destruct (view_task _ _ _ _ _ (eq_sym E) Ht') as (t & Ht & Hr).
  apply (user_ok_space t); [done|]. by apply (tab_user _ Hok i).
Qed.

Lemma table_ok_res s s' :
  table_ok s -> sched_ok s' -> resources s' = resources s ->
  (is_Some (current s') -> is_Some (idle_index s')) -> table_ok s'.
Proof. intros Hok Hs E. apply (table_ok_spaces s); [done..|by apply resources_spaces]. Qed.

Lemma core_ok_sched kr k s' :
  core_ok kr k -> table_ok s' -> resources s' = resources (k_sched k) ->
  core_ok kr (set_sched s' k).
Proof. intros [] Hs E. split; simpl; [done| |done]. by rewrite (live_fds_res _ _ E). Qed.

(** ** Leaving the processor *)

(** The table after the current task [i] left and [j] was selected. *)
Definition rescheduled (i j : nat) (st : TaskState) (w : option Z) (s : Scheduler) : Scheduler :=
  set_current (Some j) (update_task j (with_state Running)
    (set_current None (update_task i (leaves st w) s))).

Lemma rescheduled_view {A} (g : Task -> A) i j st w s :
  schedule_free g -> view g (rescheduled i j st w s) = view g s.
Proof.
  intros [H1 H2]. transitivity (view g (update_task i (leaves st w) s)).
  - apply (view_update g (with_state Running) j (set_current None (update_task i (leaves st w) s))).
    auto.
  - apply view_update. intros t _. unfold leaves. by rewrite H2, H1.
Qed.

(** Some task can always be selected: the idle task is ready. *)
Lemma leave_choice s i t st w start :
  table_ok s -> current s = Some i -> tasks s !! i = Some (Some t) ->
  (t_is_idle t = true -> st = Ready) ->
  is_Some (choice (set_current None (update_task i (leaves st w) s)) start).
Proof.
  intros [Hs _ Hidle] Hc Ht Hst. destruct Hidle as [j Hj]; [by rewrite Hc|].
  destruct (sok_idle_slot _ Hs j Hj) as [u Hu].
  pose proof (proj2 (sok_idle _ Hs j u Hu) Hj) as Hui.
  set (s0 := set_current None (update_task i (leaves st w) s)).
  assert (runnable true s0 j = true) as Hr.
  { apply runnable_spec. destruct (decide (j = i)) as [->|Hne].
    - assert (u = t) as -> by congruence. exists (leaves st w t).
      split; [simpl; by rewrite list_lookup_alter_eq, Ht|]. simpl. auto.
    - exists u. split; [simpl; by rewrite list_lookup_alter_ne|]. split; [|done].
      destruct (tok_idle _ _ (sok_tasks _ Hs j u Hu) Hui) as [?|Hrun]; [done|].
      apply (sok_running _ Hs j u Hu) in Hrun. congruence. }
  unfold choice. destruct (find_runnable false s0 start); [done|].
  destruct (find_runnable true s0 start) eqn:E; [done|].
  rewrite (find_runnable_None true s0 start j E) in Hr; [done|].
  rewrite <-(sok_len _ Hs). by eapply lookup_lt_Some.
Qed.

Lemma leave_spec s i t st w :
  table_ok s -> current s = Some i -> tasks s !! i = Some (Some t) ->
  (t_is_idle t = true -> st = Ready) -> st <> Running -> (st = Sleeping -> is_Some w) ->
  exists j tj, choice (set_current None (update_task i (leaves st w) s)) ((i + 1) mod MAX_TASKS)
      = Some j /\
    select_next ((i + 1) mod MAX_TASKS) (set_current None (update_task i (leaves st w) s))
      = (rescheduled i j st w s, Ok (t_id tj)) /\
    tasks (rescheduled i j st w s) !! j = Some (Some (with_state Running tj)) /\
    table_ok (rescheduled i j st w s).
Proof.
  intros Hok Hc Ht Hst Hnr Hw. pose proof Hok as [Hs Hu Hidle].
  set (s0 := set_current None (update_task i (leaves st w) s)).
  destruct (leave_choice s i t st w ((i + 1) mod MAX_TASKS) Hok Hc Ht Hst) as [j Hj].
  fold s0 in Hj. pose proof (select_next_spec s0 ((i + 1) mod MAX_TASKS)) as Hsel.
  rewrite Hj in Hsel. destruct Hsel as (tj & Htj & _ & Hsel).
  exists j, tj. split; [done|]. split; [done|].
  assert (tasks (rescheduled i j st w s) = alter (fmap (with_state Running)) j (tasks s0))
    as Hts by done.
  split; [by rewrite Hts, list_lookup_alter_eq, Htj|].
  apply (table_ok_res s); [done| |by apply rescheduled_view|].
  - assert (sched_ok (select_next ((i + 1) mod MAX_TASKS) s0).1) as Hsn.
    { apply select_next_ok; [|done]. apply leave_ok; [done..|]. intros u Hu'.
      assert (u = t) as -> by congruence.
      split; [|done]. split; [done|]. split; [done|]. split; [done|]. intros Hi. left. by apply Hst. }
    by rewrite Hsel in Hsn.
  - intros _. simpl. apply Hidle. by rewrite Hc.
Qed.

Lemma transition_Ok s i t st :
  table_ok s -> current s = Some i -> tasks s !! i = Some (Some t) ->
  (t_is_idle t = true -> st = Ready) -> st <> Running -> st <> Sleeping ->
  exists j tj, choice (set_current None (update_task i (leaves st None) s)) ((i + 1) mod MAX_TASKS)
      = Some j /\
    transition_current st s = (rescheduled i j st None s, Ok (t_id tj)) /\
    tasks (rescheduled i j st None s) !! j = Some (Some (with_state Running tj)) /\
    table_ok (rescheduled i j st None s).
Proof.
  intros Hok Hc Ht Hi Hr Hsl.
  destruct (transition_current_spec s st i (tab_sched _ Hok) Hc Hsl) as (u & Hu & _ & ->).
  assert (u = t) as -> by congruence.
  destruct (leave_spec s i t st None Hok Hc Ht Hi Hr ltac:(done)) as (j & tj & Hj & Hsel & Htj & Hok').
  exists j, tj. split; [done|]. split; [|done].
  destruct (t_is_idle t); [rewrite (Hi eq_refl) in *|]; done.
Qed.

Lemma sleep_Ok s i t deadline :
  table_ok s -> current s = Some i -> tasks s !! i = Some (Some t) -> t_is_idle t = false ->
  exists j tj, choice (set_current None (update_task i (leaves Sleeping (Some deadline)) s))
      ((i + 1) mod MAX_TASKS) = Some j /\
    sleep_current_until deadline s = (rescheduled i j Sleeping (Some deadline) s, Ok (t_id tj)) /\
    tasks (rescheduled i j Sleeping (Some deadline) s) !! j = Some (Some (with_state Running tj)) /\
    table_ok (rescheduled i j Sleeping (Some deadline) s).
Proof.
  intros Hok Hc Ht Hi.
  destruct (sleep_current_until_spec s deadline i (tab_sched _ Hok) Hc) as (u & Hu & _ & ->).
  assert (u = t) as -> by congruence. rewrite Hi.
  destruct (leave_spec s i t Sleeping (Some deadline) Hok Hc Ht) as (j & tj & Hj & Hsel & Htj & Hok');
    [congruence|done|done|]. exists j, tj. done.
Qed.

(** ** The switch *)

Definition ptr_of (c : option nat) : context_ptr :=
  match c with Some j => TaskContext j | None => BootstrapContext end.

(** The stacks of the system calls of a user task: the one of the program, kept in the task,
    and the kernel stack of the task, aligned. *)
Definition syscall_stacks (t : Task) (u : UserTask) (l : CpuLocal) : Prop :=
  user_rsp l = syscall_user_rsp u /\ exists top, t_stack_top t = Some top /\ kernel_rsp l = Z.ldiff top 0xf.

(** The kernel after the switch from the context [old] to that of the current
    task: registers saved and loaded, page tables and system call stack of the
    current task. *)
Record switch_to (kr : Z) (old : context_ptr) (k k' : K) : Prop := mk_switch_to {
  sw_sched : k_sched k' = match old with
    | TaskContext i => update_task i (with_context (k_cpu k)) (k_sched k)
    | BootstrapContext => k_sched k
    end;
  sw_bootstrap : k_bootstrap k' = match old with
    | TaskContext _ => k_bootstrap k
    | BootstrapContext => k_cpu k
    end;
  sw_io : k_io k' = k_io k;
  sw_mem : k_mem k' = k_mem k;
  sw_ticks : k_ticks k' = k_ticks k;
  sw_cr3 : k_cr3 k' = active_root kr (k_sched k);
  sw_cpu : load_context (ptr_of (current (k_sched k))) k' = Some (k_cpu k');
  sw_rsp : forall j t u, current (k_sched k) = Some j -> tasks (k_sched k) !! j = Some (Some t) ->
    t_user t = Some u -> syscall_stacks t u (k_local k');
}.

Lemma with_context_resources c i s : resources (update_task i (with_context c) s) = resources s.
Proof. by apply view_update. Qed.

Lemma with_context_ok c i s : table_ok s -> table_ok (update_task i (with_context c) s).
Proof.
  intros Hok. apply (table_ok_res s); [done| |apply with_context_resources|apply (tab_idle _ Hok)].
  apply sched_ok_update_task; [apply Hok|]. intros t Ht.
  destruct (good_update_id s i t (tab_sched _ Hok) Ht) as (? & ? & ? & ?). done.
Qed.

Lemma switch_to_ok kr old k k' : core_ok kr k -> switch_to kr old k k' -> kernel_ok kr k'.
Proof.
  intros [Ht Hio Hm] []. split.
  - split; [| |by rewrite sw_mem0].
    + rewrite sw_sched0. destruct old; [by apply with_context_ok|done].
    + rewrite sw_io0, sw_sched0. destruct old; [|done].
      by rewrite (live_fds_res _ _ (with_context_resources _ _ _)).
  - rewrite sw_cr4, sw_sched0. destruct old; [|done]. symmetry.
    by apply active_root_res; [apply with_context_resources|].
Qed.

(** Activation: the page tables, and for a user task the stacks of system calls. *)
Lemma activate_spec {E} kr (k : K) :
  core_ok kr k ->
  exists k', activate_task_address_space (E := E) (current (k_sched k)) k = (k', Ok tt) /\
    k_sched k' = k_sched k /\ k_bootstrap k' = k_bootstrap k /\ k_io k' = k_io k /\
    k_mem k' = k_mem k /\ k_ticks k' = k_ticks k /\ k_cpu k' = k_cpu k /\
    k_cr3 k' = active_root kr (k_sched k) /\
    (forall j t u, current (k_sched k) = Some j -> tasks (k_sched k) !! j = Some (Some t) ->
       t_user t = Some u -> syscall_stacks t u (k_local k')).
Proof.
  intros [Ht _ (m & Hm & Hkr)]. unfold activate_task_address_space, active_root.
  destruct (current (k_sched k)) as [j|] eqn:Hc.
  2: { unfold activate_kernel_address_space. unfold_op. rewrite Hm. eexists. split; [done|].
       simpl. by split_and!. }
  destruct (sok_current _ (tab_sched _ Ht) j Hc) as [t Hj].
  unfold on_sched, slot_at. unfold_op. rewrite Hj. simpl. unfold slot_root. simpl.
  destruct (t_user t) as [u|] eqn:Hu; simpl.
  - destruct (tab_user _ Ht j t Hj u Hu) as [[r Hr] [top Htop]].
    unfold activate, initialize, set_user_rsp. unfold_op. rewrite Htop, Hr. simpl.
    eexists. split; [done|]. simpl. split_and!; try done.
    intros j' t' u' [= <-] Ht' Hu'. simplify_eq. split; [done|]. by exists top.
  - unfold activate_kernel_address_space. unfold_op. rewrite Hm. eexists. split; [done|]. simpl.
    split_and!; try done. intros j' t' u' [= <-] Ht' Hu'. congruence.
Qed.

(** Loading the context of the current task after saving into [old]. *)
Lemma context_switch_spec {E} kr old (k k1 : K) :
  core_ok kr k ->
  k_sched k1 = k_sched k -> k_bootstrap k1 = k_bootstrap k -> k_io k1 = k_io k ->
  k_mem k1 = k_mem k -> k_ticks k1 = k_ticks k -> k_cpu k1 = k_cpu k ->
  k_cr3 k1 = active_root kr (k_sched k) ->
  (forall j t u, current (k_sched k) = Some j -> tasks (k_sched k) !! j = Some (Some t) ->
     t_user t = Some u -> syscall_stacks t u (k_local k1)) ->
  exists k', context_switch (E := E) old (ptr_of (current (k_sched k))) k1 = (k', Ok tt) /\
    switch_to kr old k k'.
Proof.
  intros [Ht _ _] E1 E2 E3 E4 E5 E6 E7 Hrsp. unfold context_switch.
  assert (exists c, load_context (ptr_of (current (k_sched k))) (store_context old (k_cpu k1) k1)
    = Some c) as [c Hc].
  { destruct (current (k_sched k)) as [j|] eqn:Hcur; [|simpl; eauto].
    destruct (sok_current _ (tab_sched _ Ht) j Hcur) as [t Hj]. simpl.
    destruct old as [i|]; simpl; rewrite E1; [|rewrite Hj; simpl; eauto].
    destruct (decide (i = j)) as [->|Hne].
    - rewrite list_lookup_alter_eq, Hj. simpl. eauto.
    - rewrite list_lookup_alter_ne by done. rewrite Hj. simpl. eauto. }
  rewrite Hc. eexists. split; [done|].
  assert (load_context (ptr_of (current (k_sched k))) (set_cpu c (store_context old (k_cpu k1) k1))
    = Some c) as Hc' by (rewrite <-Hc; by destruct (current (k_sched k))).
  destruct old; split; try done; simpl; by rewrite ?E1, ?E6.
Qed.

Lemma context_of_Ok (k : K) i t :
  tasks (k_sched k) !! i = Some (Some t) -> context_of i k = (k, Ok (TaskContext i)).
Proof.
  intros Ht. unfold context_of, on_sched, mbind, op_bind. rewrite (task_mut_Ok _ _ _ Ht).
  by destruct k.
Qed.

Lemma switch_away_spec {A} kr (k : K) i t :
  core_ok kr k -> tasks (k_sched k) !! i = Some (Some t) ->
  exists k', switch_away (A := A) i k = (k', Ok Switched) /\ switch_to kr (TaskContext i) k k'.
Proof.
  intros Hok Ht. unfold switch_away, mbind at 1, op_bind at 1. rewrite (context_of_Ok k i t Ht).
  unfold next_context, mbind, op_bind, get.
  destruct (activate_spec (E := SchedulerError) kr k Hok)
    as (k1 & -> & E1 & E2 & E3 & E4 & E5 & E6 & E7 & Hrsp).
  destruct (context_switch_spec (E := SchedulerError) kr (TaskContext i) k k1) as (k' & Hsw & Hto);
    [done..|].
  exists k'. split; [|done]. destruct (current (k_sched k)) as [j|] eqn:Hc; simpl in Hsw.
  - destruct (sok_current _ (tab_sched _ (kok_table _ _ Hok)) j Hc) as [tj Hj].
    rewrite (context_of_Ok k1 j tj) by (by rewrite E1). by rewrite Hsw.
  - unfold mret, op_ret. by rewrite Hsw.
Qed.

(** ** Calls that give up the processor *)

(** The user stack pointer of a system call, kept in the task. *)
Definition rsp_saved (i : nat) (k : K) : Scheduler :=
  update_task i (with_syscall_rsp (user_rsp (k_local k))) (k_sched k).

(** Task [i] left the processor in state [st] with the table [s], and the kernel
    switched to the task the scheduler chose. *)
Definition gives_up (kr : Z) (i : nat) (st : TaskState) (w : option Z) (s : Scheduler)
  (k k' : K) : Prop :=
  exists j, choice (set_current None (update_task i (leaves st w) s)) ((i + 1) mod MAX_TASKS)
      = Some j /\
    core_ok kr (set_sched (rescheduled i j st w s) k) /\
    switch_to kr (TaskContext i) (set_sched (rescheduled i j st w s) k) k'.

Lemma gives_up_ok kr i st w s k k' : gives_up kr i st w s k k' -> kernel_ok kr k'.
Proof. intros (j & _ & Hc & Hsw). by eapply switch_to_ok. Qed.

Lemma with_syscall_rsp_res r t : task_res (with_syscall_rsp r t) = task_res t.
Proof. unfold task_res. simpl. by destruct (t_user t). Qed.

(** An update of one task that keeps its resources and its place in the schedule. *)
Lemma table_ok_update f i s :
  table_ok s ->
  (forall t, tasks s !! i = Some (Some t) -> good_update t (f t) /\
     (t_state (f t) = Running <-> t_state t = Running)) ->
  (forall t, task_res (f t) = task_res t) ->
  table_ok (update_task i f s).
Proof.
  intros Hok Hf Hr. apply (table_ok_res s); [done| |by apply view_update|apply (tab_idle _ Hok)].
  by apply sched_ok_update_task; [apply Hok|].
Qed.

Lemma rsp_saved_ok i k : table_ok (k_sched k) -> table_ok (rsp_saved i k).
Proof.
  intros Hok. apply table_ok_update; [done| |apply with_syscall_rsp_res]. intros t Ht.
  destruct (good_update_id _ i t (tab_sched _ Hok) Ht) as (? & ? & ? & ?). done.
Qed.

Lemma rsp_saved_res i k : resources (rsp_saved i k) = resources (k_sched k).
Proof. apply view_update. intros t _. apply with_syscall_rsp_res. Qed.

Lemma rsp_saved_task i t k :
  tasks (k_sched k) !! i = Some (Some t) ->
  tasks (rsp_saved i k) !! i = Some (Some (with_syscall_rsp (user_rsp (k_local k)) t)).
Proof. intros Ht. simpl. by rewrite list_lookup_alter_eq, Ht. Qed.

Lemma save_rsp_Ok {E} i t (k : K) :
  tasks (k_sched k) !! i = Some (Some t) ->
  save_current_user_rsp (E := E) i k = (set_sched (rsp_saved i k) k, Ok tt).
Proof.
  intros Ht. unfold save_current_user_rsp, modify_sched, on_sched, slot_at. unfold_op.
  rewrite Ht. simpl. by destruct k.
Qed.

(** The end of a call that gives up the processor. *)
Lemma switch_away_gives_up {A} kr (k : K) i t st w s j tj :
  core_ok kr k -> resources s = resources (k_sched k) -> tasks s !! i = Some (Some t) ->
  choice (set_current None (update_task i (leaves st w) s)) ((i + 1) mod MAX_TASKS) = Some j ->
  tasks (rescheduled i j st w s) !! j = Some (Some (with_state Running tj)) ->
  table_ok (rescheduled i j st w s) ->
  exists k', switch_away (A := A) i (set_sched (rescheduled i j st w s) k) = (k', Ok Switched) /\
    gives_up kr i st w s k k'.
Proof.
  intros Hok Hres Ht Hj Htj Hok'.
  assert (core_ok kr (set_sched (rescheduled i j st w s) k)) as Hcore.
  { apply core_ok_sched; [done..|]. by rewrite (rescheduled_view _ _ _ _ _ _ task_res_free). }
  destruct (view_task task_res s (rescheduled i j st w s) i t) as (t' & Ht' & _);
    [by apply rescheduled_view|done|].
  destruct (switch_away_spec (A := A) kr _ i t' Hcore Ht') as (k' & E & Hsw).
  exists k'. split; [done|]. by exists j.
Qed.

Lemma core_ok_interrupts kr b k : core_ok kr k -> core_ok kr (set_interrupts b k).
Proof. intros []. by split. Qed.

Lemma kernel_ok_interrupts kr b k : kernel_ok kr k -> kernel_ok kr (set_interrupts b k).
Proof. intros [? ?]. split; [by apply core_ok_interrupts|done]. Qed.

Lemma with_guard_switched {E A} (body : Op K E (flow A)) k k' :
  body (set_interrupts false k) = (k', Ok Switched) -> with_guard body k = (k', Ok Switched).
Proof. intros Hb. unfold with_guard. by rewrite Hb. Qed.

(** A body under the guard keeps the invariant when it does on its own. *)
Lemma with_guard_keeps {E A} kr (body : Op K E (flow A)) k k' r :
  with_guard body k = (k', r) -> r <> Panic -> kernel_ok kr k ->
  (forall k1 k2 r2, body k1 = (k2, r2) -> r2 <> Panic -> kernel_ok kr k1 -> kernel_ok kr k2) ->
  kernel_ok kr k'.
Proof.
  unfold with_guard. intros E1 Hr Hok Hb.
  destruct (body (set_interrupts false k)) as [k1 r1] eqn:E2.
  assert (r1 <> Panic -> kernel_ok kr k1) as Hk1
    by (intros ?; eapply Hb; [done..|by apply kernel_ok_interrupts]).
  destruct r1 as [[a|]|e|]; simplify_eq; try (by apply Hk1);
    case_match; try apply kernel_ok_interrupts; by apply Hk1.
Qed.

(** The current task leaves with a new table [s] of the same resources. *)
Lemma transition_gives_up {A} kr (k : K) i st s u :
  core_ok kr k -> table_ok s -> resources s = resources (k_sched k) -> current s = Some i ->
  tasks s !! i = Some (Some u) -> (t_is_idle u = true -> st = Ready) ->
  st <> Running -> st <> Sleeping ->
  exists s' id k', transition_current st s = (s', Ok id) /\
    switch_away (A := A) i (set_sched s' k) = (k', Ok Switched) /\ gives_up kr i st None s k k'.
Proof.
  intros Hok Hs Hres Hc Hu Hi Hr Hsl.
  destruct (transition_Ok s i u st Hs Hc Hu Hi Hr Hsl) as (j & tj & Hj & Htr & Htj & Hok').
  destruct (switch_away_gives_up (A := A) kr k i u st None s j tj Hok Hres Hu Hj Htj Hok')
    as (k' & Hsw & Hg).
  by exists (rescheduled i j st None s), (t_id tj), k'.
Qed.

Lemma sleep_gives_up {A} kr (k : K) i deadline s u :
  core_ok kr k -> table_ok s -> resources s = resources (k_sched k) -> current s = Some i ->
  tasks s !! i = Some (Some u) -> t_is_idle u = false ->
  exists s' id k', sleep_current_until deadline s = (s', Ok id) /\
    switch_away (A := A) i (set_sched s' k) = (k', Ok Switched) /\
    gives_up kr i Sleeping (Some deadline) s k k'.
Proof.
  intros Hok Hs Hres Hc Hu Hi.
  destruct (sleep_Ok s i u deadline Hs Hc Hu Hi) as (j & tj & Hj & Htr & Htj & Hok').
  destruct (switch_away_gives_up (A := A) kr k i u Sleeping (Some deadline) s j tj Hok Hres Hu Hj
    Htj Hok') as (k' & Hsw & Hg).
  by exists (rescheduled i j Sleeping (Some deadline) s), (t_id tj), k'.
Qed.

(** [yield_now] and [preempt_from_timer] activate the next task first. *)
Lemma eager_switch_spec {E} kr (k : K) i j :
  core_ok kr k -> current (k_sched k) = Some j ->
  exists k1 k', activate_task_address_space (E := E) (Some j) k = (k1, Ok tt) /\
    k_sched k1 = k_sched k /\
    context_switch (E := E) (TaskContext i) (TaskContext j) k1 = (k', Ok tt) /\
    switch_to kr (TaskContext i) k k'.
Proof.
  intros Hok Hj. destruct (activate_spec (E := E) kr k Hok)
    as (k1 & Ha & E1 & E2 & E3 & E4 & E5 & E6 & E7 & Hrsp).
  destruct (context_switch_spec (E := E) kr (TaskContext i) k k1) as (k' & Hsw & Hto); [done..|].
  rewrite Hj in Ha, Hsw. by exists k1, k'.
Qed.

(** ** Updates of the schedule *)

(** [s'] differs from [s] in states, wake-up times, exit codes and user stack
    pointers only. *)
Record quiet (s s' : Scheduler) : Prop := mk_quiet {
  q_table : table_ok s';
  q_res : resources s' = resources s;
  q_regs : registers s' = registers s;
  q_current : current s' = current s;
  q_idle : idle_index s' = idle_index s;
}.

Lemma quiet_refl s : table_ok s -> quiet s s.
Proof. done. Qed.

Lemma quiet_trans s1 s2 s3 : quiet s1 s2 -> quiet s2 s3 -> quiet s1 s3.
Proof. intros [] []. split; congruence. Qed.

Lemma quiet_update_all f s :
  table_ok s -> sched_ok (update_all f s) ->
  (forall j t, task_res (f j t) = task_res t /\ task_regs (f j t) = task_regs t) ->
  quiet s (update_all f s).
Proof.
  intros Hok Hs Hf. assert (resources (update_all f s) = resources s) as Hres
    by (apply view_update_all; intros j t _; apply Hf).
  split; try done.
  - apply (table_ok_res s); [done..|apply (tab_idle _ Hok)].
  - apply view_update_all. intros j t _. apply Hf.
Qed.

Lemma quiet_update f j s :
  table_ok s -> sched_ok (update_task j f s) ->
  (forall t, task_res (f t) = task_res t /\ task_regs (f t) = task_regs t) ->
  quiet s (update_task j f s).
Proof.
  intros Hok Hs Hf. assert (resources (update_task j f s) = resources s) as Hres
    by (apply view_update; intros t _; apply Hf).
  split; try done.
  - apply (table_ok_res s); [done..|apply (tab_idle _ Hok)].
  - apply view_update. intros t _. apply Hf.
Qed.

Lemma wake_expired_quiet now s : table_ok s -> quiet s (wake_expired_sleepers now s).
Proof.
  intros Hok. apply quiet_update_all; [done|apply wake_expired_sleepers_ok, Hok|].
  intros j t. by case_match.
Qed.

Lemma wake_all_quiet s : table_ok s -> quiet s (wake_all_blocked s).
Proof.
  intros Hok. apply quiet_update_all; [done|apply wake_all_blocked_ok, Hok|].
  intros j t. by case_match.
Qed.

Lemma terminate_siblings_quiet i code s :
  table_ok s -> current s = Some i -> quiet s (terminate_siblings i code s).
Proof.
  intros Hok Hc. pose proof (terminate_siblings_ok i code s (tab_sched _ Hok) Hc) as Hs.
  revert Hs. unfold terminate_siblings. destruct (_ ≫= _) as [p|]; [|done]. intros Hs.
  apply quiet_update_all; [done..|]. intros j t. by case_match.
Qed.

Lemma exit_code_quiet i code s : table_ok s -> quiet s (update_task i (with_exit_code code) s).
Proof.
  intros Hok. apply quiet_update; [done| |done].
  apply sched_ok_update_task; [apply Hok|]. intros t Ht.
  by destruct (good_update_id s i t (tab_sched _ Hok) Ht).
Qed.

Lemma rsp_saved_quiet i k : table_ok (k_sched k) -> quiet (k_sched k) (rsp_saved i k).
Proof.
  intros Hok. apply quiet_update; [done|apply (rsp_saved_ok i k Hok)|].
  intros t. by rewrite with_syscall_rsp_res.
Qed.

Lemma wake_parent_quiet i s t :
  table_ok s -> tasks s !! i = Some (Some t) ->
  exists s', wake_parent i s = (s', Ok tt) /\ quiet s s'.
Proof.
  intros Hok Ht. pose proof (wake_parent_ok i s t (tab_sched _ Hok) Ht) as Hs.
  rewrite (wake_parent_spec i s t Ht) in *. eexists. split; [done|]. simpl in Hs.
  case_match; [|done]. apply quiet_update; [done..|]. intros u. by case_match.
Qed.

Lemma quiet_task s s' i t :
  quiet s s' -> tasks s !! i = Some (Some t) -> exists t', tasks s' !! i = Some (Some t').
Proof. intros [] Ht. destruct (view_task task_res s s' i t) as (t' & ? & _); eauto. Qed.

(** The idle task stays the idle task. *)
Lemma quiet_is_idle s s' i t t' :
  table_ok s -> quiet s s' -> tasks s !! i = Some (Some t) -> tasks s' !! i = Some (Some t') ->
  t_is_idle t' = t_is_idle t.
Proof.
  intros [Hs _ _] [[Hs' _ _] _ _ _ Hi] Ht Ht'.
  pose proof (sok_idle _ Hs i t Ht). pose proof (sok_idle _ Hs' i t' Ht').
  rewrite Hi in *. destruct (t_is_idle t), (t_is_idle t'); intuition congruence.
Qed.

Section call.
Context (kr : Z) (k : K) (i : nat) (t : Task).
Hypothesis Hok : core_ok kr k.
Hypothesis Hcur : current (k_sched k) = Some i.
Hypothesis Htask : tasks (k_sched k) !! i = Some (Some t).

Local Abbreviation k0 := (set_interrupts false k).
Local Abbreviation u := (with_syscall_rsp (user_rsp (k_local k)) t).

Lemma block_spec :
  t_is_idle t = false ->
  exists k', block_now k = (k', Ok Switched) /\ gives_up kr i Blocked None (rsp_saved i k) k0 k'.
Proof.
  intros Hi.
  destruct (transition_gives_up (A := unit) kr k0 i Blocked (rsp_saved i k) u)
    as (s' & id & k' & Htr & Hsw & Hg);
    [by apply core_ok_interrupts|apply rsp_saved_ok, Hok|exact (rsp_saved_res i k)|done
    |by apply rsp_saved_task|simpl; congruence|done..|].
  exists k'. split; [|done]. apply with_guard_switched.
  unfold mbind, op_bind, get, lift. cbn [k_sched set_interrupts set_cpu]. rewrite Hcur. cbn [ok_or].
  rewrite (save_rsp_Ok i t) by done. unfold allow_idle, on_sched.
  change (k_sched (set_sched (rsp_saved i k0) k0)) with (rsp_saved i k). by rewrite Htr.
Qed.

Lemma sleep_spec duration :
  duration <> 0%Z -> t_is_idle t = false ->
  exists k', sleep_ticks duration k = (k', Ok Switched) /\
    gives_up kr i Sleeping (Some (wrapping_add u64_limit (k_ticks k) duration))
      (rsp_saved i k) k0 k'.
Proof.
  intros Hd Hi.
  destruct (sleep_gives_up (A := unit) kr k0 i (wrapping_add u64_limit (k_ticks k) duration)
    (rsp_saved i k) u) as (s' & id & k' & Htr & Hsw & Hg);
    [by apply core_ok_interrupts|apply rsp_saved_ok, Hok|exact (rsp_saved_res i k)|done
    |by apply rsp_saved_task|done|].
  exists k'. split; [|done]. unfold sleep_ticks. rewrite (proj2 (Z.eqb_neq _ _) Hd).
  apply with_guard_switched.
  unfold mbind, op_bind, get, lift. cbn [k_sched set_interrupts set_cpu]. rewrite Hcur. cbn [ok_or].
  rewrite (save_rsp_Ok i t) by done. unfold allow_idle, on_sched.
  change (k_sched (set_sched (rsp_saved i k0) k0)) with (rsp_saved i k).
  change (k_ticks k0) with (k_ticks k). by rewrite Htr.
Qed.

(** The table in which an exiting task leaves: its siblings terminated when it is
    the end of the group, its exit code set, its parent woken. *)
Definition exit_group (code : option Z) (group : bool) : Scheduler :=
  if group then terminate_siblings i code (rsp_saved i k) else rsp_saved i k.

Definition exit_table (code : option Z) (group : bool) : Scheduler :=
  (wake_parent i (update_task i (with_exit_code code) (exit_group code group))).1.

Lemma exit_group_quiet code group : quiet (k_sched k) (exit_group code group).
Proof.
  assert (quiet (k_sched k) (rsp_saved i k)) as Q1 by (apply rsp_saved_quiet, Hok).
  unfold exit_group. destruct group; [|done]. eapply quiet_trans; [done|].
  apply terminate_siblings_quiet; [apply Q1|]. by rewrite (q_current _ _ Q1).
Qed.

Lemma exit_table_spec code group :
  wake_parent i (update_task i (with_exit_code code) (exit_group code group)) =
    (exit_table code group, Ok tt) /\ quiet (k_sched k) (exit_table code group).
Proof.
  unfold exit_table. pose proof (exit_group_quiet code group) as Q2.
  assert (quiet (k_sched k) (update_task i (with_exit_code code) (exit_group code group))) as Q3.
  { eapply quiet_trans; [done|]. apply exit_code_quiet, Q2. }
  destruct (quiet_task _ _ i t Q3 Htask) as (t' & Ht').
  destruct (wake_parent_quiet i _ t' (q_table _ _ Q3) Ht') as (s' & -> & Q4).
  split; [done|]. by eapply quiet_trans.
Qed.

(** [exit_current_with_status_and_group] up to the transition. *)
Lemma exit_run code group :
  exit_current_with_status_and_group code group k =
  with_guard (fun _ => (_ ← or_panic (allow_idle (transition_current Terminated));
    or_panic (switch_away i)) (set_sched (exit_table code group) k0)) k.
Proof.
  destruct (exit_table_spec code group) as [Hwp Q].
  destruct (quiet_task _ _ i t (exit_group_quiet code group) Htask) as (t1 & Ht1).
  unfold exit_current_with_status_and_group, with_guard.
  unfold mbind, op_bind, get, lift. cbn [k_sched set_interrupts set_cpu]. rewrite Hcur. cbn [expect].
  rewrite (save_rsp_Ok i t) by done. change (rsp_saved i k0) with (rsp_saved i k).
  assert ((if group then modify_sched (E := SchedulerError) (terminate_siblings i code) else mret tt)
    (set_sched (rsp_saved i k) k0) = (set_sched (exit_group code group) k0, Ok tt)) as ->
    by (by destruct group).
  unfold on_sched at 1, slot_at, mbind, op_bind, get, lift. cbn [k_sched set_sched].
  rewrite Ht1. cbn [expect]. unfold modify_sched, on_sched, modify. cbn [k_sched set_sched].
  by rewrite Hwp.
Qed.

Lemma exit_spec code group :
  t_is_idle t = false ->
  exists k', exit_current_with_status_and_group code group k = (k', Ok Switched) /\
    gives_up kr i Terminated None (exit_table code group) k0 k'.
Proof.
  intros Hi. destruct (exit_table_spec code group) as [_ Q].
  destruct (quiet_task _ _ i t Q Htask) as (t' & Ht').
  destruct (transition_gives_up (A := unit) kr k0 i Terminated (exit_table code group) t')
    as (s' & id & k' & Htr & Hsw & Hg);
    [by apply core_ok_interrupts|apply Q|exact (q_res _ _ Q)|by rewrite (q_current _ _ Q)|done
    |by rewrite (quiet_is_idle _ _ i t t' (kok_table _ _ Hok) Q Htask Ht'), Hi|done..|].
  exists k'. split; [|done]. rewrite exit_run. apply with_guard_switched.
  unfold mbind, op_bind, or_panic, allow_idle, on_sched. cbn [k_sched set_sched]. rewrite Htr.
  change (set_sched s' _) with (set_sched s' k0). by rewrite Hsw.
Qed.

(** The scheduler's part of [yield_now] and [preempt_from_timer]. *)
Lemma ready_again s :
  quiet (k_sched k) s ->
  exists j tj, choice (set_current None (update_task i (leaves Ready None) s))
      ((i + 1) mod MAX_TASKS) = Some j /\
    transition_current Ready s = (rescheduled i j Ready None s, Ok (t_id tj)) /\
    core_ok kr (set_sched (rescheduled i j Ready None s) k0) /\
    (exists t', tasks (rescheduled i j Ready None s) !! i = Some (Some t')) /\
    (exists t', tasks (rescheduled i j Ready None s) !! j = Some (Some t')).
Proof.
  intros Q. destruct (quiet_task _ _ i t Q Htask) as (t' & Ht').
  destruct (transition_Ok s i t' Ready) as (j & tj & Hj & Htr & Htj & Hok');
    [apply Q|by rewrite (q_current _ _ Q)|done..|].
  exists j, tj. split; [done|]. split; [done|]. split; [|split; [|eauto]].
  - apply core_ok_sched; [by apply core_ok_interrupts|done|].
    rewrite (rescheduled_view _ _ _ _ _ _ task_res_free). apply (q_res _ _ Q).
  - destruct (view_task task_res s (rescheduled i j Ready None s) i t') as (? & ? & _);
      [by apply rescheduled_view|done|eauto].
Qed.

Lemma yield_spec :
  exists k', yield_now k = (k', Ok Switched) /\ gives_up kr i Ready None (rsp_saved i k) k0 k'.
Proof.
  destruct (ready_again (rsp_saved i k)) as (j & tj & Hj & Htr & Hcore & [ti Hti] & [tj' Htj]).
  { apply rsp_saved_quiet, Hok. }
  destruct (eager_switch_spec (E := SchedulerError) kr _ i j Hcore eq_refl)
    as (k1 & k' & Ha & E1 & Hsw & Hto).
  exists k'. split; [|by exists j]. apply with_guard_switched.
  unfold mbind, op_bind, get, lift. cbn [k_sched set_interrupts set_cpu]. rewrite Hcur. cbn [ok_or].
  rewrite (save_rsp_Ok i t) by done. unfold on_sched.
  change (k_sched (set_sched (rsp_saved i k0) k0)) with (rsp_saved i k). rewrite Htr.
  change (set_sched _ (set_sched _ _)) with (set_sched (rescheduled i j Ready None (rsp_saved i k)) k0).
  cbn [k_sched set_sched current rescheduled set_current ok_or].
  rewrite Ha. rewrite (context_of_Ok k1 i ti) by (by rewrite E1).
  rewrite (context_of_Ok k1 j tj') by (by rewrite E1). by rewrite Hsw.
Qed.

Lemma preempt_spec :
  let s := wake_expired_sleepers (k_ticks k) (k_sched k) in
  exists j, choice (set_current None (update_task i (leaves Ready None) s))
      ((i + 1) mod MAX_TASKS) = Some j /\
    if decide (j = i)
    then exists c, preempt_from_timer k =
        (set_cpu c (set_sched (rescheduled i i Ready None s) k0), Ok (Returned tt)) /\
      core_ok kr (set_sched (rescheduled i i Ready None s) k0)
    else exists k', preempt_from_timer k = (k', Ok Switched) /\ gives_up kr i Ready None s k0 k'.
Proof.
  intros s. destruct (ready_again s) as (j & tj & Hj & Htr & Hcore & [ti Hti] & [tj' Htj]).
  { apply wake_expired_quiet, Hok. }
  exists j. split; [done|]. unfold preempt_from_timer, with_guard, mbind, op_bind, get, lift.
  cbn [k_sched set_interrupts set_cpu]. rewrite Hcur.
  unfold modify_sched, modify, or_panic, allow_idle, on_sched. cbn [k_sched set_sched].
  change (wake_expired_sleepers (k_ticks k0) (k_sched k0)) with s. rewrite Htr.
  cbn [k_sched set_sched current rescheduled set_current].
  destruct (decide (j = i)) as [->|Hne].
  { rewrite Nat.eqb_refl. destruct (interrupts_enabled k); by eexists. }
  rewrite (proj2 (Nat.eqb_neq _ _) Hne).
  destruct (eager_switch_spec (E := SchedulerError) kr _ i j Hcore eq_refl)
    as (k1 & k' & Ha & E1 & Hsw & Hto).
  exists k'. split; [|by exists j].
  change (set_sched _ (set_sched _ _)) with (set_sched (rescheduled i j Ready None s) k0).
  rewrite Ha. rewrite (context_of_Ok k1 i ti) by (by rewrite E1).
  rewrite (context_of_Ok k1 j tj') by (by rewrite E1). by rewrite Hsw.
Qed.

End call.

End kernel_ok.
