(* ===== verification/KernelInv.v ===== *)
(** * Every call keeps the kernel invariant

    The calls of [Kernel] that create and release tasks and descriptors, and the
    transition system of the whole kernel. *)

From S2P Require Import Prelude Ring Input Utf8 FileSystem Fd FrameAlloc UserRange Paging Scheduler Timer Kernel KernelOk.

(** ** Memory *)

Section memory.
Context {PT : Type} `{Mapper PT}.
Variable try_new : Z -> option Z.

(** No operation of the manager changes the kernel's own page tables' root. *)
Abbreviation keeps_root kr op := (preserves (fun m : MemoryManager PT => mm_kernel_root m = kr) op).

Lemma assert_reclaim_root {E} kr f : keeps_root kr (assert_reclaim (E := E) f).
Proof. intros m Hm. unfold assert_reclaim. by destruct (reclaim_frame f (mm_allocator m)). Qed.

Lemma clean_up_root {E} kr r p : keeps_root kr (clean_up_at (E := E) r p).
Proof.
  intros m Hm. unfold clean_up_at. by destruct (pt_clean_up r p (mm_tables m) (mm_allocator m)) as [[? ?] ?].
Qed.

Lemma unmap_page_root kr r p : keeps_root kr (mm_unmap_page try_new r p).
Proof.
  unfold mm_unmap_page. apply preserves_bind; [by intros ?|]. intros m.
  destruct (reclaim_full m); [apply preserves_fail|].
  destruct (physical_to_virtual try_new m r); [|apply preserves_fail].
  unfold mm_unmap_tables. apply preserves_bind; [by intros ?|]. intros m1.
  apply preserves_bind; [apply preserves_lift|]. intros addr.
  apply preserves_bind; [apply preserves_lift|]. intros owned.
  destruct owned; simpl; [|apply preserves_fail].
  destruct (pt_unmap r p (mm_tables m1)) as [tt1 ru].
  apply preserves_bind; [by intros ?|]. intros _.
  apply preserves_bind; [apply preserves_lift|]. intros f.
  destruct (f =? _)%Z; simpl; [|by intros ?].
  apply preserves_bind; [apply assert_reclaim_root|]. intros _. apply clean_up_root.
Qed.

Lemma deallocate_root kr f : keeps_root kr (mm_deallocate_frame f).
Proof.
  intros m Hm. unfold mm_deallocate_frame. by destruct (deallocate_frame f (mm_allocator m)).
Qed.

Lemma with_manager_root {E A} kr (op : Op (MemoryManager PT) E A) err m :
  keeps_root kr op -> mm_kernel_root m = kr ->
  exists m' r, with_manager op err (Some (Ok m)) = (Some (Ok m'), r) /\ mm_kernel_root m' = kr.
Proof.
  intros Hop Hm. unfold with_manager. specialize (Hop m Hm). destruct (op m) as [m' r].
  by exists m', (map_err err r).
Qed.

Lemma destroy_pages_root kr r pages m :
  mm_kernel_root m = kr ->
  exists m' rest res, destroy_pages try_new r pages (Some (Ok m)) = (Some (Ok m'), rest, res) /\
    mm_kernel_root m' = kr.
Proof.
  revert m. induction pages as [|[page access] pages IH]; intros m Hm;
    cbn [destroy_pages]; [by exists m, [], (Ok tt)|].
  destruct (with_manager_root kr (mm_unmap_page try_new r page) AsUnmapping m
    (unmap_page_root kr r page) Hm) as (m1 & r1 & E1 & Hm1).
  rewrite E1. destruct r1; [by apply IH|eauto..].
Qed.

Lemma destroy_root kr cr3 self (mem mem' : @Memory PT) self' res :
  (exists m, mem = Some (Ok m) /\ mm_kernel_root m = kr) ->
  destroy try_new cr3 (mem, self) = (mem', self', res) ->
  exists m', mem' = Some (Ok m') /\ mm_kernel_root m' = kr.
Proof.
  intros (m & -> & Hm). unfold destroy. destruct (root self) as [r|].
  2: { intros [= <- _ _]. eauto. }
  destruct (cr3 =? r)%Z; [intros [= <- _ _]; eauto|].
  destruct (destroy_pages_root kr r (reverse (user_pages self)) m Hm) as (m1 & rest & r1 & -> & Hm1).
  destruct r1 as [[]|e|]; [|intros [= <- _ _]; eauto..].
  destruct (with_manager_root kr (mm_deallocate_frame r) AsMemory m1 (deallocate_root kr r) Hm1)
    as (m2 & r2 & -> & Hm2).
  destruct r2 as [[]|e|]; intros [= <- _ _]; eauto.
Qed.

End memory.

(** ** Descriptor tables *)

(** Replacing an entry of a list whose entries contribute lists. *)
Lemma join_insert {A B} (f : A -> list B) (l : list A) i x y :
  l !! i = Some x ->
  mjoin (f <$> <[i := y]> l) ++ f x ≡ₚ f y ++ mjoin (f <$> l).
Proof.
  revert i. induction l as [|z l IH]; intros [|i]; simpl; try done.
  - intros [= ->]. rewrite (Permutation_app_comm (f x)), app_assoc. done.
  - intros Hx. rewrite <-app_assoc, (IH i Hx), !app_assoc.
    by rewrite (Permutation_app_comm (f z)).
Qed.

(** Permutations of lists of descriptors, by counting. *)
Ltac by_count :=
  repeat match goal with
  | HP : Permutation _ _ |- _ =>
      rewrite (Permutation_count_occ (fun x y : FileDescriptor => decide (x = y))) in HP
  end;
  rewrite (Permutation_count_occ (fun x y : FileDescriptor => decide (x = y)));
  let d := fresh "d" in intros d;
  repeat match goal with HP : forall _ : FileDescriptor, _ = _ |- _ => specialize (HP d) end;
  repeat (rewrite !count_occ_app in * || (progress simpl in * )); repeat case_decide; lia.

(** The descriptors of a table. *)
Definition held (fds : list (option FileDescriptor)) : list FileDescriptor :=
  mjoin (option_list <$> fds).

Lemma held_omap fds : omap id fds = held fds.
Proof.
  unfold held. induction fds as [|[d|] fds IH]; [done|..].
  - change (d :: omap id fds = d :: mjoin (option_list <$> fds)). by rewrite IH.
  - exact IH.
Qed.

Lemma held_insert fds i x y :
  fds !! i = Some x -> held (<[i := y]> fds) ++ option_list x ≡ₚ option_list y ++ held fds.
Proof. apply join_insert. Qed.

Lemma live_insert s i x y :
  tasks s !! i = Some x ->
  live_fds (set_tasks (<[i := y]> (tasks s)) s) ++ fds_of x ≡ₚ fds_of y ++ live_fds s.
Proof. apply (join_insert fds_of). Qed.

(** A task's table within all of them. *)
Lemma live_task s i t :
  tasks s !! i = Some (Some t) ->
  live_fds s ≡ₚ held (t_fds t) ++ live_fds (set_tasks (<[i := None]> (tasks s)) s).
Proof.
  intros Ht. pose proof (live_insert s i _ None Ht) as HP. simpl in HP.
  rewrite held_omap in HP. by rewrite <-HP, Permutation_app_comm.
Qed.

Lemma held_live s i t n d :
  tasks s !! i = Some (Some t) -> t_fds t !! n = Some (Some d) -> d ∈ live_fds s.
Proof.
  intros Ht Hd. rewrite (live_task s i t Ht). apply elem_of_app. left. apply list_elem_of_join.
  exists [d]. split; [by apply list_elem_of_singleton|]. apply list_elem_of_fmap.
  exists (Some d). split; [done|]. by eapply list_elem_of_lookup_2.
Qed.

(** A task whose table changed at one entry. *)
Lemma live_put_fd s i t n x y :
  tasks s !! i = Some (Some t) -> t_fds t !! n = Some x ->
  live_fds (update_task i (fun t => with_fds (<[n := y]> (t_fds t)) t) s) ++ option_list x
    ≡ₚ option_list y ++ live_fds s.
Proof.
  intros Ht Hx. set (t' := with_fds (<[n := y]> (t_fds t)) t).
  assert (live_fds (update_task i (fun t => with_fds (<[n := y]> (t_fds t)) t) s) =
    live_fds (set_tasks (<[i := Some t']> (tasks s)) s)) as ->.
  { unfold live_fds, update_task, set_tasks. simpl. do 2 f_equal. apply list_eq. intros j.
    destruct (decide (j = i)) as [->|Hne].
    - rewrite list_lookup_alter_eq, Ht. simpl. rewrite list_lookup_insert_eq; [done|].
      by eapply lookup_lt_Some.
    - by rewrite list_lookup_alter_ne, list_lookup_insert_ne. }
  apply (Permutation_app_inv_r (held (t_fds t))).
  pose proof (live_insert s i _ (Some t') Ht) as HP. simpl in HP. rewrite !held_omap in HP.
  pose proof (held_insert (t_fds t) n x y Hx) as HQ. change (held (t_fds t')) with (held (<[n:=y]> (t_fds t))) in HP.
  by_count.
Qed.

(** A state predicate that an operation keeps without a panic. *)
Definition safe {S E A} (I : S -> Prop) (op : Op S E A) : Prop :=
  forall s, I s -> I (op s).1 /\ (op s).2 <> Panic.

Lemma safe_bind {S E A B} (I : S -> Prop) (m : Op S E A) (f : A -> Op S E B) :
  safe I m -> (forall a, safe I (f a)) -> safe I (m ≫= f).
Proof.
  intros Hm Hf s Hs. unfold mbind, op_bind. specialize (Hm s Hs).
  destruct (m s) as [s' [a|e|]]; destruct Hm as [HI Hnp]; [by apply Hf|by split|done].
Qed.

Lemma safe_for {S E A} (I : S -> Prop) (l : list A) (f : A -> Op S E unit) :
  (forall x, x ∈ l -> safe I (f x)) -> safe I (for_op l f).
Proof.
  intros Hf. induction l as [|x l IH]; simpl; [by intros s Hs|].
  apply safe_bind; [apply Hf; left|intros _; apply IH; intros y Hy; apply Hf; by right].
Qed.

(** A loop that ends normally ran its body normally on every element. *)
Lemma for_op_Ok {S E A} (P : A -> Prop) (l : list A) (f : A -> Op S E unit) s s' :
  (forall x s s', f x s = (s', Ok tt) -> P x) -> for_op l f s = (s', Ok tt) -> Forall P l.
Proof.
  intros Hf. revert s. induction l as [|x l IH]; intros s Hl; [done|]. cbn [for_op] in Hl.
  unfold mbind, op_bind in Hl. destruct (f x s) as [s1 [[]|e|]] eqn:E1; try done.
  constructor; eauto.
Qed.

Section tables.
Context {D DE : Type} `{FileSystem D DE}.

Lemma drop_fds_spec {E} live fds (io : Io D) :
  io_ok (held fds ++ live) io ->
  exists io', drop_fds (E := E) fds io = (io', Ok tt) /\ io_ok live io'.
Proof.
  unfold drop_fds, held. revert io. induction fds as [|[d|] fds IH]; intros io Hio.
  - by exists io.
  - destruct (drop_fd_spec (E := E) _ io d Hio) as (io1 & E1 & Hio1).
    destruct (IH io1 Hio1) as (io2 & E2 & Hio2). exists io2. split; [|done].
    cbn [for_op]. unfold mbind, op_bind. by rewrite E1.
  - destruct (IH io Hio) as (io2 & E2 & Hio2). exists io2. split; [|done].
    cbn [for_op]. unfold mbind, op_bind, mret, op_ret. done.
Qed.

Lemma clone_fds_spec {E} live fds (io : Io D) :
  io_ok live io -> (forall d, d ∈ held fds -> d ∈ live) ->
  exists io', clone_fds (E := E) fds io = (io', Ok fds) /\ io_ok (held fds ++ live) io'.
Proof.
  unfold held. revert live io. induction fds as [|[d|] fds IH]; intros live io Hio Hin.
  - by exists io.
  - destruct (clone_spec (E := E) live io d Hio) as (io1 & E1 & Hio1); [apply Hin; left|].
    destruct (IH (d :: live) io1 Hio1) as (io2 & E2 & Hio2).
    { intros d' Hd'. right. apply Hin. by right. }
    exists io2. split.
    + cbn [clone_fds]. unfold mbind, op_bind, mret, op_ret. rewrite E1. by rewrite E2.
    + simpl. by rewrite Permutation_middle.
  - destruct (IH live io Hio Hin) as (io2 & E2 & Hio2). exists io2. split; [|done].
    cbn [clone_fds]. unfold mbind, op_bind, mret, op_ret. by rewrite E2.
Qed.

(** The invariant of a table under construction. *)
Definition building (live : list FileDescriptor) (st : FdTable (D := D)) : Prop :=
  io_ok (held st.2 ++ live) st.1 /\ length st.2 = MAX_FDS.

Lemma close_slot_spec {E} live i st :
  i < MAX_FDS -> building live st ->
  exists st', close_slot (E := E) i st = (st', Ok tt) /\ building live st' /\ st'.2 !! i = Some None.
Proof.
  destruct st as [io fds]. intros Hi [Hio Hlen]. simpl in Hio, Hlen.
  unfold close_slot, mbind, op_bind, get, lift.
  destruct (fds !! i) as [[d|]|] eqn:Hd; simpl; [|by exists (io, fds)|].
  2: { apply lookup_ge_None in Hd. lia. }
  unfold modify, table_io. pose proof (held_insert fds i _ None Hd) as HP. simpl in HP.
  assert (io_ok (d :: held (<[i:=None]> fds) ++ live) io) as Hio1.
  { eapply (io_ok_proper _ (held fds ++ live)); [|done..]. by_count. }
  destruct (drop_fd_spec (E := E) _ io d Hio1) as (io1 & -> & Hio2). simpl.
  eexists. split; [done|]. split; [split; [done|]; simpl; by rewrite length_insert|].
  apply list_lookup_insert_eq. lia.
Qed.

Lemma close_slot_safe {E} live i :
  i < MAX_FDS -> safe (building live) (close_slot (E := E) i).
Proof.
  intros Hi st Hst. destruct (close_slot_spec (E := E) live i st Hi Hst) as (st' & -> & Hst' & _). done.
Qed.

Lemma map_fd_safe live m : safe (building live) (map_fd m).
Proof.
  intros [io fds] [Hio Hlen]. unfold map_fd. destruct (_ || _) eqn:Hb; [done|]. bools.
  simpl in Hio, Hlen. unfold mbind, op_bind, get, lift, table_io.
  destruct (fds !! source m) as [[d|]|] eqn:Hd; simpl; [|done|].
  2: { apply lookup_ge_None in Hd. lia. }
  assert (d ∈ held fds ++ live) as Hin.
  { apply elem_of_app. left. apply list_elem_of_join. exists [d].
    split; [by apply list_elem_of_singleton|]. apply list_elem_of_fmap. exists (Some d).
    split; [done|]. by eapply list_elem_of_lookup_2. }
  destruct (clone_spec (E := SchedulerError) _ io d Hio Hin) as (io1 & -> & Hio1).
  destruct (close_slot_spec (E := SchedulerError) (d :: live) (target m) (io1, fds))
    as ([io2 fds2] & -> & [Hio2 Hlen2] & Hfree); [lia|split; [|done]|].
  { simpl. by rewrite <-Permutation_middle. }
  simpl in *. split; [|done]. split; [|simpl; by rewrite length_insert]. simpl.
  pose proof (held_insert fds2 (target m) _ (Some d) Hfree) as HP. simpl in HP.
  eapply (io_ok_proper _ (held fds2 ++ d :: live)); [|done..]. by_count.
Qed.

Lemma arrange_fds_spec live mappings closes fds (io : Io D) :
  io_ok (held fds ++ live) io -> length fds = MAX_FDS ->
  exists io' r, arrange_fds mappings closes fds io = (io', r) /\
    match r with
    | Ok fds' => io_ok (held fds' ++ live) io' /\ length fds' = MAX_FDS
    | Err _ => io_ok live io'
    | Panic => False
    end.
Proof.
  intros Hio Hlen. unfold arrange_fds.
  set (op := for_op mappings map_fd ≫= _).
  assert (building live (op (io, fds)).1 /\ (op (io, fds)).2 <> Panic) as [Hb Hnp].
  { subst op. unfold mbind, op_bind.
    assert (building live (io, fds)) as Hst by done.
    pose proof (safe_for _ mappings map_fd (fun m _ => map_fd_safe live m) _ Hst) as [H1 H1'].
    destruct (for_op mappings map_fd (io, fds)) as [st1 [[]|e|]] eqn:E1; [|done..].
    assert (Forall (fun m => source m < MAX_FDS) mappings) as Hsrc.
    { eapply for_op_Ok; [|done]. intros m st st' Hm. unfold map_fd in Hm.
      destruct (_ || _) eqn:Hc; [done|]. bools. lia. }
    rewrite Forall_forall in Hsrc. apply (safe_bind _ (for_op mappings close_source)); [..|done].
    - apply safe_for. intros m Hm. unfold close_source.
      destruct (_ =? _); [by intros ?|]. by apply close_slot_safe, Hsrc.
    - intros _. apply safe_for. intros fd _. unfold close_extra.
      destruct (MAX_FDS <=? fd) eqn:Hc; [by intros ?|]. bools. by apply close_slot_safe. }
  destruct (op (io, fds)) as [[io' fds'] [[]|e|]]; simpl in *; [| |done].
  - destruct Hb. eexists _, _. split; [done|]. by split.
  - destruct Hb as [Hb _]. destruct (drop_fds_spec (E := SchedulerError) live fds' io' Hb)
      as (io2 & E2 & Hio2). unfold mbind, op_bind. rewrite E2. by eexists _, _.
Qed.

Lemma child_fds_spec live inherited mappings closes (io : Io D) :
  io_ok live io ->
  (forall fds, inherited = Some fds -> length fds = MAX_FDS /\ forall d, d ∈ held fds -> d ∈ live) ->
  exists io' r, child_fds inherited mappings closes io = (io', r) /\
    match r with
    | Ok fds' => io_ok (held fds' ++ live) io' /\ length fds' = MAX_FDS
    | Err _ => io_ok live io'
    | Panic => False
    end.
Proof.
  intros Hio Hin. unfold child_fds, mbind, op_bind. destruct inherited as [fds|].
  - destruct (Hin fds eq_refl) as [Hlen Hd].
    destruct (clone_fds_spec (E := SchedulerError) live fds io Hio Hd) as (io1 & -> & Hio1).
    by apply arrange_fds_spec.
  - apply arrange_fds_spec; [|done]. change (held initial_table) with [Stdin; Console; Console].
    by repeat apply io_ok_add.
Qed.

End tables.

(** ** Calls on the schedule and on descriptors *)

Section calls.
Context {D DE : Type} `{FileSystem D DE}.
Context {PT : Type} `{Mapper PT}.
Variable try_new : Z -> option Z.
Variable trampoline idle_entry : Z.

Abbreviation K := (Kernel D PT).

(** The operation keeps the invariant, unless it panics. *)
Definition keeps {E A} (kr : Z) (op : Op K E A) : Prop :=
  forall k k' r, op k = (k', r) -> r <> Panic -> kernel_ok kr k -> kernel_ok kr k'.

Lemma keeps_bind {E A B} kr (m : Op K E A) (f : A -> Op K E B) :
  keeps kr m -> (forall a, keeps kr (f a)) -> keeps kr (m ≫= f).
Proof.
  intros Hm Hf k k' r E1 Hr Hk. unfold mbind, op_bind in E1.
  destruct (m k) as [k1 [a|e|]] eqn:E2; simplify_eq; [|by eapply Hm].
  eapply Hf; [done..|]. by eapply Hm.
Qed.

(** The operation keeps the invariant and does not panic. *)
Definition sound {E A} (kr : Z) (op : Op K E A) : Prop :=
  forall k k' r, op k = (k', r) -> kernel_ok kr k -> r <> Panic /\ kernel_ok kr k'.

Lemma sound_keeps {E A} kr (op : Op K E A) : sound kr op -> keeps kr op.
Proof. intros Hop k k' r E1 _ Hk. by apply (Hop k k' r). Qed.

Lemma keeps_pure {E A} kr (f : K -> outcome E A) : keeps kr (fun k => (k, f k)).
Proof. by intros k k' r [= <- _]. Qed.

Lemma keeps_void {A} kr (op : Op K SchedulerError A) : keeps kr op -> keeps kr (void op).
Proof. intros Hop. apply keeps_bind; [done|]. intros a. apply keeps_pure. Qed.

(** The same registers, but for the flags. *)
Definition same_regs (c c' : CpuContext) : Prop := set_rflags 0 c = set_rflags 0 c'.

(** The running task gave the processor to another context: [k1] is the state in
    which it left, with every task's registers as they were. *)
Definition hands_over (kr : Z) (k k' : K) : Prop :=
  exists i k1, current (k_sched k) = Some i /\ core_ok kr k1 /\
    registers (k_sched k1) = registers (k_sched k) /\ same_regs (k_cpu k1) (k_cpu k) /\
    k_bootstrap k1 = k_bootstrap k /\ switch_to kr (TaskContext i) k1 k'.

(** The operation keeps the invariant and switches only by handing over. *)
Definition keeps_flow {E A} (kr : Z) (op : Op K E (flow A)) : Prop :=
  forall k k' r, op k = (k', r) -> r <> Panic -> kernel_ok kr k ->
    kernel_ok kr k' /\ (r = Ok Switched -> hands_over kr k k').

Lemma keeps_flow_keeps {E A} kr (op : Op K E (flow A)) : keeps_flow kr op -> keeps kr op.
Proof. intros Hop k k' r E1 Hr Hk. by apply (Hop k k' r E1 Hr Hk). Qed.

Lemma gives_up_hands_over kr (k k' : K) i st w s :
  current (k_sched k) = Some i -> quiet (k_sched k) s ->
  gives_up kr i st w s (set_interrupts false k) k' -> hands_over kr k k'.
Proof.
  intros Hc Q (j & _ & Hcore & Hsw). exists i. eexists. split; [done|]. split; [exact Hcore|].
  split; [|done]. simpl. rewrite (rescheduled_view _ _ _ _ _ _ registers_free). apply Q.
Qed.

Lemma keeps_guard {E A} kr (op : Op K E (flow A)) : keeps kr op -> keeps kr (with_guard op).
Proof. intros Hop k k' r E1 Hr Hk. by eapply with_guard_keeps. Qed.

Lemma kernel_ok_quiet kr (k : K) s' : kernel_ok kr k -> quiet (k_sched k) s' -> kernel_ok kr (set_sched s' k).
Proof.
  intros [Hc Ha] Q. split; [by apply core_ok_sched; [|apply Q..]|].
  simpl. rewrite Ha. symmetry. by apply active_root_res; apply Q.
Qed.

Lemma kernel_ok_io kr (k : K) io :
  kernel_ok kr k -> io_ok (live_fds (k_sched k)) io -> kernel_ok kr (set_io io k).
Proof. intros [[] Ha] Hio. done. Qed.

(** A scheduler operation whose every outcome is a quiet update. *)
Lemma keeps_sched {E A} kr (op : Op Scheduler E A) :
  (forall s, table_ok s -> quiet s (op s).1) -> keeps kr (on_sched op).
Proof.
  intros Hop k k' r E1 _ Hk. unfold on_sched in E1. specialize (Hop (k_sched k)).
  destruct (op (k_sched k)) as [s' r']. injection E1 as <- _.
  apply kernel_ok_quiet; [done|]. apply Hop, Hk.
Qed.

Lemma wake_quiet id s : table_ok s -> quiet s (wake id s).1.
Proof.
  intros Hok. pose proof (wake_ok id s (tab_sched _ Hok)) as Hs. revert Hs. unfold wake. unfold_op.
  destruct (index_of id s) as [i|] eqn:Hi; [|done].
  apply index_of_Some in Hi as (t & Ht & _). rewrite (task_mut_Ok i s t Ht).
  case_bool_decide; [|done]. simpl. intros Hs. by apply quiet_update.
Qed.

Lemma terminate_task_quiet id code s : table_ok s -> quiet s (terminate_task id code s).1.
Proof.
  intros Hok. pose proof (terminate_task_ok id code s (tab_sched _ Hok)) as Hs. revert Hs.
  unfold terminate_task. unfold_op. destruct (index_of id s) as [i|] eqn:Hi; [|done].
  apply index_of_Some in Hi as (t & Ht & _). case_bool_decide as Hc; [done|].
  rewrite (task_mut_Ok i s t Ht). destruct (_ || _) eqn:Hf; [done|]. bools. intros Hs.
  set (f := fun t => _) in *.
  assert (table_ok (update_task i f s)) as Hok'.
  { apply table_ok_update; [done| |done]. intros u Hu. assert (u = t) as -> by congruence.
    split; [split_and!; simpl; done || congruence|]. simpl.
    rewrite (sok_running _ (tab_sched _ Hok) i t Ht).
    split; [done|congruence]. }
  destruct (wake_parent_quiet i (update_task i f s) (f t) Hok') as (s' & E1 & Q).
  { simpl. by rewrite list_lookup_alter_eq, Ht. }
  rewrite E1. eapply quiet_trans; [|done]. apply quiet_update; [done|apply Hok'|done].
Qed.

Lemma running_task_spec {E} kr (k : K) k' r :
  kernel_ok kr k -> running_task (E := E) k = (k', r) ->
  k' = k /\ exists o, r = Ok o /\
    forall t, o = Some t -> exists i, current (k_sched k) = Some i /\
      tasks (k_sched k) !! i = Some (Some t).
Proof.
  intros [[Ht _ _] _] E1. unfold running_task, mbind, op_bind, get in E1.
  destruct (current (k_sched k)) as [i|] eqn:Hc.
  - destruct (sok_current _ (tab_sched _ Ht) i Hc) as [t Hi]. unfold on_sched, slot_at in E1.
    unfold_op. rewrite Hi in E1. simplify_eq/=. split; [by destruct k|].
    eexists. split; [done|]. intros t' [= <-]. eauto.
  - unfold mret, op_ret in E1. simplify_eq. split; [done|]. by exists None.
Qed.

(** The descriptor of the running task is live. *)
Lemma current_fd_spec kr (k : K) n k' r :
  kernel_ok kr k -> current_fd n k = (k', r) ->
  k' = k /\ r <> Panic /\ forall d, r = Ok d -> d ∈ live_fds (k_sched k).
Proof.
  intros Hk E1. unfold current_fd, mbind, op_bind, lift in E1.
  destruct (running_task k) as [k1 r1] eqn:E2.
  destruct (running_task_spec kr k k1 r1 Hk E2) as (-> & o & -> & Ho).
  destruct o as [t|]; simplify_eq/=; [|done]. split; [done|]. split; [apply ok_or_safe|].
  intros d Hd. destruct (Ho t eq_refl) as (i & _ & Hi).
  destruct (t_fds t !! n) as [[d'|]|] eqn:Hn; simplify_eq/=. by eapply held_live.
Qed.

Lemma map_err_safe {E F A} (f : E -> F) (r : outcome E A) : r <> Panic -> map_err f r <> Panic.
Proof. by destruct r. Qed.

Lemma read_fd_sound kr n output : sound kr (read_current_fd n output).
Proof.
  intros k k' r E1 Hk. unfold read_current_fd, mbind, op_bind in E1.
  destruct (current_fd n k) as [k1 r1] eqn:E2.
  destruct (current_fd_spec kr k n k1 r1 Hk E2) as (-> & Hn & Hd).
  destruct r1 as [d|e|]; simplify_eq; [|done..]. unfold on_fd in E1.
  destruct (read d output (k_io k)) as [io r1] eqn:E3. injection E1 as <- <-.
  destruct (read_spec (live_fds (k_sched k)) (k_io k) d output io r1) as [Hio Hr];
    [apply Hk|by apply Hd|done|].
  split; [by apply map_err_safe|]. by apply kernel_ok_io.
Qed.

Lemma write_fd_keeps kr n input : keeps kr (write_current_fd n input).
Proof.
  intros k k' r E1 Hr Hk. unfold write_current_fd, mbind, op_bind in E1.
  destruct (current_fd n k) as [k1 r1] eqn:E2.
  destruct (current_fd_spec kr k n k1 r1 Hk E2) as (-> & _ & Hd).
  destruct r1 as [d|e|]; simplify_eq; [|done..]. unfold on_fd in E1.
  destruct (write d input (k_io k)) as [io r1] eqn:E3. simplify_eq.
  apply kernel_ok_io; [done|]. eapply write_spec; [apply Hk|by apply Hd|done].
Qed.

(** Storing into the descriptor table of a task. *)
Abbreviation put_in i n y s := (update_task i (fun t => with_fds (<[n := y]> (t_fds t)) t) s).

Lemma put_table i n y s :
  table_ok s -> table_ok (put_in i n y s) /\ spaces (put_in i n y s) = spaces s.
Proof.
  intros Hok. assert (spaces (put_in i n y s) = spaces s) as Hsp by (by apply view_update).
  split; [|done]. apply (table_ok_spaces s); [done| |done|apply (tab_idle _ Hok)].
  apply sched_ok_update_task; [apply Hok|]. intros t Ht.
  destruct (good_update_id _ i t (tab_sched _ Hok) Ht) as (? & ? & ? & ?).
  split; [|done]. split; [done|]. split; [apply length_insert|done].
Qed.

Lemma put_task i n y s t :
  tasks s !! i = Some (Some t) ->
  tasks (put_in i n y s) !! i = Some (Some (with_fds (<[n := y]> (t_fds t)) t)).
Proof. intros Ht. simpl. by rewrite list_lookup_alter_eq, Ht. Qed.

(** A new table of the same address spaces, with descriptors that match. *)
Lemma kernel_ok_spaces kr (k : K) s' io :
  kernel_ok kr k -> table_ok s' -> spaces s' = spaces (k_sched k) ->
  current s' = current (k_sched k) -> io_ok (live_fds s') io ->
  kernel_ok kr (set_io io (set_sched s' k)).
Proof.
  intros [[_ _ Hm] Ha] Ht Hsp Hc Hio. split; [done|]. simpl. rewrite Ha. symmetry.
  by apply active_root_spaces.
Qed.

Lemma current_slot_spec kr (k : K) k' r :
  kernel_ok kr k -> current_slot k = (k', r) ->
  k' = k /\ (r = Err NotStarted \/ exists i t, r = Ok (i, t) /\
    current (k_sched k) = Some i /\ tasks (k_sched k) !! i = Some (Some t)).
Proof.
  intros [[Ht _ _] _] E1. unfold current_slot, mbind, op_bind, get, lift in E1.
  destruct (current (k_sched k)) as [i|] eqn:Hc; simplify_eq/=; [|by auto].
  destruct (sok_current _ (tab_sched _ Ht) i Hc) as [t Hi]. unfold on_sched in E1.
  rewrite (task_mut_Ok _ _ _ Hi) in E1. unfold mret, op_ret in E1. simplify_eq.
  split; [by destruct k|]. right. eauto.
Qed.

Lemma close_fd_sound kr n : sound kr (close_current_fd n).
Proof.
  intros k k' r E1 Hk. unfold close_current_fd, mbind, op_bind, get, lift in E1.
  destruct (current (k_sched k)) as [i|] eqn:Hc; simplify_eq/=; [|done].
  destruct (tasks (k_sched k) !! i) as [[t|]|] eqn:Hi; simplify_eq/=; [|done..].
  destruct (t_fds t !! n) as [[d|]|] eqn:Hn; simplify_eq/=; [|done..].
  unfold put_fd, wake_all_blocked_tasks, modify_sched, on_sched, modify in E1.
  unfold on_io in E1. cbn [k_sched k_io set_sched] in E1.
  pose proof (live_put_fd _ _ _ _ _ None Hi Hn) as HP. simpl in HP.
  assert (io_ok (d :: live_fds (put_in i n None (k_sched k))) (k_io k)) as Hio.
  { eapply io_ok_proper; [|done|apply Hk]. by_count. }
  destruct (drop_fd_spec (E := SchedulerError) _ _ d Hio) as (io & E2 & Hio').
  rewrite E2 in E1. injection E1 as <- <-. split; [done|].
  destruct (put_table i n None (k_sched k)) as [Ht Hsp]; [apply Hk|].
  pose proof (kernel_ok_spaces kr k _ io Hk Ht Hsp eq_refl Hio') as Hk1.
  apply (kernel_ok_quiet kr _ _ Hk1). by apply wake_all_quiet.
Qed.

(** [close_previous] frees the entry. *)
Lemma close_previous_spec (k : K) live i t n x :
  table_ok (k_sched k) -> tasks (k_sched k) !! i = Some (Some t) -> t_fds t !! n = Some x ->
  io_ok (live ++ live_fds (k_sched k)) (k_io k) ->
  exists s' io, close_previous i t n k = (set_io io (set_sched s' k), Ok tt) /\
    io_ok (live ++ live_fds s') io /\ table_ok s' /\ spaces s' = spaces (k_sched k) /\
    current s' = current (k_sched k) /\
    exists t', tasks s' !! i = Some (Some t') /\ t_fds t' !! n = Some None.
Proof.
  intros Hok Hi Hn Hio. unfold close_previous, mbind, op_bind, lift. rewrite Hn. simpl.
  destruct x as [d|]; [|exists (k_sched k), (k_io k); destruct k; by eauto 10].
  pose proof (live_put_fd _ _ _ _ _ None Hi Hn) as HP. simpl in HP.
  unfold put_fd, modify_sched, on_sched, modify, on_io. cbn [k_sched k_io set_sched].
  assert (io_ok (d :: live ++ live_fds (put_in i n None (k_sched k))) (k_io k)) as Hio1.
  { eapply io_ok_proper; [|done|apply Hio]. by_count. }
  destruct (drop_fd_spec (E := SchedulerError) _ _ d Hio1) as (io & -> & Hio').
  destruct (put_table i n None (k_sched k) Hok) as [Ht Hsp].
  eexists _, io. split; [done|]. split; [done|]. split; [done|]. split; [done|]. split; [done|].
  eexists. split; [by apply put_task|]. apply list_lookup_insert_eq. by eapply lookup_lt_Some.
Qed.

(** Storing a new descriptor in a free entry. *)
Lemma kernel_ok_store kr (k : K) s' io i t n d :
  kernel_ok kr k -> table_ok s' -> spaces s' = spaces (k_sched k) ->
  current s' = current (k_sched k) -> tasks s' !! i = Some (Some t) ->
  t_fds t !! n = Some None -> io_ok (d :: live_fds s') io ->
  kernel_ok kr (set_io io (set_sched (put_in i n (Some d) s') k)).
Proof.
  intros Hk Ht Hsp Hc Hi Hn Hio. destruct (put_table i n (Some d) s' Ht) as [Ht' Hsp'].
  apply kernel_ok_spaces; [done|done|congruence|done|].
  pose proof (live_put_fd _ _ _ _ _ (Some d) Hi Hn) as HP. rewrite app_nil_r in HP.
  by rewrite HP.
Qed.

Lemma dup_fd_sound kr a b : sound kr (duplicate_current_fd a b).
Proof.
  intros k k' r E1 Hk. unfold duplicate_current_fd in E1.
  destruct (_ || _) eqn:Hb; [by injection E1 as <- <-|]. bools.
  destruct (a =? b) eqn:Hab; unfold mbind, op_bind, get, lift in E1.
  - destruct (current (k_sched k)) as [i|] eqn:Hc; simplify_eq/=; [|done].
    destruct (sok_current _ (tab_sched _ (kok_table _ _ (proj1 Hk))) i Hc) as [t Hi].
    unfold on_sched, slot_at in E1. unfold_op. rewrite Hi in E1. simpl in E1.
    assert (length (t_fds t) = MAX_FDS) as Hlen
      by (eapply tok_fds, sok_tasks; [apply Hk|done]).
    destruct (t_fds t !! a) as [[d|]|] eqn:Ha; simplify_eq/=; [by destruct k..|].
    apply lookup_ge_None in Ha. lia.
  - destruct (current (k_sched k)) as [i|] eqn:Hc; simplify_eq/=; [|done].
    destruct (tasks (k_sched k) !! i) as [[t|]|] eqn:Hi; simplify_eq/=; [|done..].
    assert (length (t_fds t) = MAX_FDS) as Hlen
      by (eapply tok_fds, sok_tasks; [apply Hk|done]).
    destruct (t_fds t !! a) as [[d|]|] eqn:Ha; simplify_eq/=;
      [|done|apply lookup_ge_None in Ha; lia].
    unfold on_io in E1.
    destruct (clone_spec (E := SchedulerError) (live_fds (k_sched k)) (k_io k) d) as (io & E2 & Hio);
      [apply Hk|by eapply held_live|]. rewrite E2 in E1.
    destruct (t_fds t !! b) as [x|] eqn:Hb'; [|apply lookup_ge_None in Hb'; lia].
    destruct (close_previous_spec (set_io io k) [d] i t b x) as (s' & io' & E3 & Hio' & Ht' & Hsp & Hc' & t' & Hi' & Hn');
      [apply Hk|done..|].
    rewrite E3 in E1. injection E1 as <- <-. split; [done|].
    apply (kernel_ok_store kr k s' io' i t' b d); done.
Qed.

Lemma find_free_fd_Some fds n : find_free_fd fds = Some n -> fds !! n = Some None.
Proof. unfold find_free_fd. intros ([d|] & Hn & Hp & _)%position_Some; done. Qed.

Lemma find_free_fd_pair_Some fds a b :
  find_free_fd_pair fds = Some (a, b) -> fds !! a = Some None /\ fds !! b = Some None /\ a <> b.
Proof.
  unfold find_free_fd_pair. destruct (filter _ _) as [|x [|y l]] eqn:E1; intros Hs; try done.
  injection Hs as -> ->.
  assert (NoDup (a :: b :: l)) as Hnd by (rewrite <-E1; apply NoDup_filter, NoDup_seq).
  assert (forall x, x ∈ a :: b :: l -> fds !! x = Some None) as Hin.
  { intros x. rewrite <-E1. by intros [? _]%list_elem_of_filter. }
  split; [apply Hin; left|]. split; [apply Hin; right; left|].
  apply NoDup_cons in Hnd as [Hnd _]. intros ->. apply Hnd. left.
Qed.

Lemma current_slot_io (k : K) io i t :
  current (k_sched k) = Some i -> tasks (k_sched k) !! i = Some (Some t) ->
  current_slot (set_io io k) = (set_io io k, Ok (i, t)).
Proof.
  intros Hc Hi. unfold current_slot, mbind, op_bind, get, lift. cbn [k_sched set_io]. rewrite Hc.
  cbn [ok_or]. unfold on_sched. cbn [k_sched set_io]. by rewrite (task_mut_Ok _ _ _ Hi).
Qed.

Lemma create_file_keeps kr (create : Op (Io D) unit FileDescriptor) :
  (forall live io io' res, io_ok live io -> create io = (io', res) ->
     io_ok (match res with Ok d => d :: live | _ => live end) io') ->
  keeps kr (create_file_for_current create).
Proof.
  intros Hcr. apply keeps_guard. intros k k' r E1 Hr Hk. unfold mbind, op_bind, lift in E1.
  destruct (current_slot k) as [k1 r1] eqn:E2.
  destruct (current_slot_spec kr k k1 r1 Hk E2) as [-> [->|(i & t & -> & Hc & Hi)]].
  { by injection E1 as <- _. }
  destruct (find_free_fd (t_fds t)) as [n|] eqn:Hn; simpl in E1; [|by injection E1 as <- _].
  apply find_free_fd_Some in Hn. unfold on_fd in E1.
  destruct (create (k_io k)) as [io res] eqn:E3.
  assert (io_ok (live_fds (k_sched k)) (k_io k)) as Hio0 by apply Hk.
  specialize (Hcr _ _ _ _ Hio0 E3) as Hio.
  destruct res as [d|[]|]; simpl in E1; [|injection E1 as <- _; by apply kernel_ok_io|by simplify_eq].
  unfold install_file, or_drop, mbind, op_bind, lift in E1.
  rewrite (current_slot_io k io i t Hc Hi) in E1. rewrite Hn in E1. cbn in E1. injection E1 as <- _.
  by apply (kernel_ok_store kr k (k_sched k) io i t n d); [|apply Hk|..].
Qed.

(** [install_pipe] fails without a change, or stores both ends. *)
Lemma install_pipe_spec kr (k : K) io rd wr k' r :
  kernel_ok kr k -> io_ok (rd :: wr :: live_fds (k_sched k)) io ->
  install_pipe rd wr (set_io io k) = (k', r) ->
  (exists e, r = Err e /\ k' = set_io io k) \/ (is_ok r = true /\ kernel_ok kr k').
Proof.
  intros Hk Hio E1. unfold install_pipe, mbind, op_bind, lift in E1.
  destruct (current (k_sched k)) as [i|] eqn:Hc.
  2: { unfold current_slot, mbind, op_bind, get, lift in E1. cbn [k_sched set_io] in E1.
       rewrite Hc in E1. left. by simplify_eq/=; eauto. }
  destruct (sok_current _ (tab_sched _ (kok_table _ _ (proj1 Hk))) i Hc) as [t Hi].
  rewrite (current_slot_io k io i t Hc Hi) in E1.
  destruct (find_free_fd_pair (t_fds t)) as [[a b]|] eqn:Hp; simpl in E1; [|left; simplify_eq; eauto].
  apply find_free_fd_pair_Some in Hp as (Ha & Hb & Hab).
  right. injection E1 as <- <-. split; [done|].
  destruct (put_table i a (Some rd) (k_sched k)) as [Ht1 Hsp1]; [apply Hk|].
  apply (kernel_ok_store kr k (put_in i a (Some rd) (k_sched k)) io i
    (with_fds (<[a := Some rd]> (t_fds t)) t) b wr); try done.
  - by apply put_task.
  - simpl. by rewrite list_lookup_insert_ne.
  - pose proof (live_put_fd _ _ _ _ _ (Some rd) Hi Ha) as HP. rewrite app_nil_r in HP.
    rewrite HP. eapply io_ok_proper; [|done|exact Hio]. by_count.
Qed.

Lemma make_pipe_sound kr : sound kr create_pipe_for_current.
Proof.
  intros k k' r E1 Hk. unfold create_pipe_for_current, mbind, op_bind, lift, on_io in E1.
  assert (io_ok (live_fds (k_sched k)) (k_io k)) as Hio0 by apply Hk.
  destruct (create_pipe_spec (E := SchedulerError) _ _ Hio0) as (io & E2 & Hio & _).
  rewrite E2 in E1. cbn [ok_or] in E1. set (rd := PipeReadEnd _) in *. set (wr := PipeWriteEnd _) in *.
  destruct (install_pipe rd wr (set_io io k)) as [k1 r1] eqn:E3.
  destruct (install_pipe_spec kr k io rd wr k1 r1 Hk Hio E3) as [(e & -> & ->)|[Hr1 Hk1]].
  - assert (io_ok (wr :: rd :: live_fds (k_sched k)) io) as Hio1
      by (eapply io_ok_proper; [|done|exact Hio]; by_count).
    destruct (drop_fd_spec (E := SchedulerError) _ io wr Hio1) as (io1 & E4 & Hio2).
    destruct (drop_fd_spec (E := SchedulerError) _ io1 rd Hio2) as (io2 & E5 & Hio3).
    unfold or_drop, mbind, op_bind, on_io in E1. rewrite E3 in E1. cbn [k_io set_io] in E1.
    rewrite E4 in E1. cbn [fail k_io set_io] in E1. rewrite E5 in E1. injection E1 as <- <-.
    split; [done|]. by apply (kernel_ok_io kr k io2).
  - unfold or_drop in E1. rewrite E3 in E1. destruct r1; [by simplify_eq|done..].
Qed.

(** *** Releasing tasks *)

(** A table without the task of a slot that is not running. *)
Lemma sched_ok_clear s i t idle' :
  sched_ok s -> tasks s !! i = Some (Some t) -> current s <> Some i ->
  (forall j, idle' = Some j <-> idle_index s = Some j /\ j <> i) ->
  sched_ok (mk_scheduler (<[i := None]> (tasks s)) (current s) (next_id s) idle').
Proof.
  intros Hs Ht Hc Hidle. destruct Hs.
  assert (forall j u, <[i := None]> (tasks s) !! j = Some (Some u) ->
    j <> i /\ tasks s !! j = Some (Some u)) as Hl.
  { intros j u. rewrite list_lookup_insert_Some. by intros [(-> & ? & _)|[? ?]]. }
  assert (forall j u, tasks s !! j = Some (Some u) -> j <> i ->
    <[i := None]> (tasks s) !! j = Some (Some u)) as Hl'.
  { intros j u Hu Hne. by rewrite list_lookup_insert_ne. }
  split; simpl.
  - by rewrite length_insert.
  - done.
  - intros j u [_ Hu]%Hl. eauto.
  - intros j j' u u' [_ Hu]%Hl [_ Hu']%Hl. eauto.
  - intros j u [_ Hu]%Hl. auto.
  - intros j Hj. destruct (sok_current j Hj) as [u Hu]. exists u. apply Hl'; [done|congruence].
  - intros j u [Hne Hu]%Hl. rewrite Hidle, (sok_idle j u Hu). by intuition.
  - intros j [Hj Hne]%Hidle. destruct (sok_idle_slot j Hj) as [u Hu]. eauto.
Qed.

Lemma table_ok_clear s i t idle' :
  table_ok s -> tasks s !! i = Some (Some t) -> current s <> Some i ->
  (forall j, idle' = Some j <-> idle_index s = Some j /\ j <> i) ->
  (is_Some (current s) -> is_Some idle') ->
  table_ok (mk_scheduler (<[i := None]> (tasks s)) (current s) (next_id s) idle').
Proof.
  intros [Hs Hu Hi] Ht Hc Hidle Hi'. split; simpl; [by eapply sched_ok_clear| |done].
  intros j u Hj. apply (Hu j). apply list_lookup_insert_Some in Hj as [(_ & ? & _)|[_ ?]]; done.
Qed.

(** The page tables of the current task do not depend on the other slots. *)
Lemma active_root_other kr s s' :
  current s' = current s ->
  (forall i, current s = Some i -> tasks s' !! i = tasks s !! i) ->
  active_root kr s' = active_root kr s.
Proof.
  intros Hc Ht. unfold active_root. rewrite Hc. destruct (current s) as [i|]; [|done].
  by rewrite Ht.
Qed.

(** Clearing a slot and dropping its descriptors. *)
Lemma clear_slot_keeps {E} kr (k : K) i t s' k' r :
  kernel_ok kr k -> tasks (k_sched k) !! i = Some (Some t) -> current (k_sched k) <> Some i ->
  tasks s' = <[i := None]> (tasks (k_sched k)) -> current s' = current (k_sched k) -> table_ok s' ->
  on_io (E := E) (drop_fds (t_fds t)) (set_sched s' k) = (k', r) -> kernel_ok kr k'.
Proof.
  intros Hk Ht Hc Hts Hcur Hok E1. unfold on_io in E1. cbn [k_io set_sched] in E1.
  pose proof (live_task _ _ _ Ht) as HP.
  assert (live_fds s' = live_fds (set_tasks (<[i := None]> (tasks (k_sched k))) (k_sched k))) as El
    by (unfold live_fds; by rewrite Hts).
  assert (io_ok (held (t_fds t) ++ live_fds s') (k_io k)) as Hio
    by (rewrite El, <-HP; apply Hk).
  destruct (drop_fds_spec (E := E) _ _ _ Hio) as (io & E2 & Hio').
  rewrite E2 in E1. injection E1 as <- _. destruct Hk as [[_ _ Hm] Ha].
  split; [done|]. simpl. rewrite Ha. symmetry. apply active_root_other; [done|].
  intros j Hj. rewrite Hts. apply list_lookup_insert_ne. congruence.
Qed.

(** A slot's task replaced, and then the slot cleared. *)
Lemma insert_alter_None (f : Task -> Task) i (l : list (option Task)) :
  <[i := None]> (alter (fmap f) i l) = <[i := None]> l.
Proof.
  apply list_eq. intros j. destruct (decide (j = i)) as [->|Hne].
  - destruct (decide (i < length l)).
    + by rewrite !list_lookup_insert_eq by (by rewrite ?length_alter).
    + rewrite !list_insert_ge by (rewrite ?length_alter; lia).
      rewrite list_lookup_alter_eq. by rewrite lookup_ge_None_2 by lia.
  - by rewrite !list_lookup_insert_ne, list_lookup_alter_ne.
Qed.

Lemma set_sched_id (k : K) : set_sched (k_sched k) k = k.
Proof. by destruct k. Qed.

Lemma kernel_ok_mem kr (k : K) m :
  kernel_ok kr k -> mm_kernel_root m = kr -> kernel_ok kr (set_mem (Some (Ok m)) k).
Proof. intros [[] Ha] Hm. split; [split; [done..|]|done]. by exists m. Qed.

(** A task that is not running and whose address space shrank. *)
Lemma kernel_ok_space kr (k : K) i t u space :
  kernel_ok kr k -> tasks (k_sched k) !! i = Some (Some t) -> current (k_sched k) <> Some i ->
  t_user t = Some u -> root space = root (address_space u) ->
  kernel_ok kr (set_sched (update_task i (with_address_space space) (k_sched k)) k).
Proof.
  intros [[Ht Hio Hm] Ha] Hi Hc Hu Hr. split; [split; [| |done]|].
  - pose proof Ht as [Hs Hus Hid]. split; [| |done].
    + apply sched_ok_update_task; [done|]. intros t' Ht'.
      by destruct (good_update_id _ i t' Hs Ht').
    + intros j t' Hj. simpl in Hj. destruct (decide (j = i)) as [->|Hne].
      * rewrite list_lookup_alter_eq, Hi in Hj. simpl in Hj. injection Hj as <-.
        intros u'. simpl. rewrite Hu. simpl. intros [= <-]. simpl. rewrite Hr.
        by apply (Hus i t Hi u Hu).
      * rewrite list_lookup_alter_ne in Hj by done. by apply (Hus j).
  - cbn [k_io k_sched set_sched]. rewrite (live_fds_view (k_sched k)); [done|].
    by apply view_update.
  - simpl. rewrite Ha. symmetry. apply active_root_other; [done|]. intros j Hj. simpl.
    apply list_lookup_alter_ne. congruence.
Qed.

(** What [reap_terminated] does with the task it found. *)
Lemma reap_slot_keeps kr (k : K) i t k' r :
  kernel_ok kr k -> tasks (k_sched k) !! i = Some (Some t) -> current (k_sched k) <> Some i ->
  t_state t = Terminated -> r <> Panic ->
  (_ ← match t_user t with
       | Some user => destroy_task_space try_new i (address_space user)
       | None => mret tt
       end;
   _ ← modify_sched (clear_slot i); on_io (drop_fds (t_fds t))) k = (k', r) ->
  kernel_ok kr k'.
Proof.
  intros Hk Hi Hc Hst Hr E1.
  assert (table_ok (clear_slot i (k_sched k))) as Hclear.
  { destruct Hk as [[Ht _ _] _]. apply (table_ok_clear _ _ t); [done..| |apply Ht].
    intros j. split; [|by intros [? _]]. intros Hj. split; [done|]. intros ->.
    pose proof (proj2 (sok_idle _ (tab_sched _ Ht) i t Hi) Hj) as Hid.
    destruct (tok_idle _ _ (sok_tasks _ (tab_sched _ Ht) i t Hi) Hid); congruence. }
  unfold mbind, op_bind in E1. destruct (t_user t) as [u|] eqn:Hu.
  - unfold destroy_task_space in E1. pose proof Hk as [[Ht Hio Hmem] Ha].
    destruct (destroy try_new (k_cr3 k) (k_mem k, address_space u)) as [[mem' space] res] eqn:Hd.
    destruct (destroy_root try_new kr _ _ _ _ _ _ Hmem Hd) as (m' & -> & Hkr').
    assert (kernel_ok kr (set_mem (Some (Ok m')) k)) as Hk1.
    { by apply kernel_ok_mem. }
    destruct (destroy_spec _ _ _ _ _ _ _ Hd) as [(-> & _ & _)|(Hne & Hroot & _)]; simpl in E1.
    + eapply (clear_slot_keeps kr _ i t); [exact Hk1|done..| | | |exact E1];
        [apply insert_alter_None|done|].
      unfold clear_slot, update_task. simpl. rewrite insert_alter_None. apply Hclear.
    + destruct res as [[]|e|]; [done| |by injection E1 as _ <-]. injection E1 as <- _.
      by apply (kernel_ok_space kr _ i t u space Hk1).
  - by apply (clear_slot_keeps kr k i t (clear_slot i (k_sched k)) _ r).
Qed.

Lemma reap_keeps kr id : keeps kr (reap_terminated try_new id).
Proof.
  intros k k' r E1 Hr Hk. unfold reap_terminated, mbind at 1, op_bind at 1, get in E1.
  unfold mbind at 1, op_bind at 1, lift in E1.
  destruct (index_of id (k_sched k)) as [i|] eqn:Hix; [|by injection E1 as <- _].
  apply index_of_Some in Hix as (t & Hi & _). cbn [ok_or] in E1.
  unfold mbind at 1, op_bind at 1, on_sched at 1, slot_at in E1.
  unfold mbind at 1, op_bind at 1, get, lift in E1. rewrite Hi in E1. cbn [expect] in E1.
  rewrite set_sched_id in E1. destruct (_ || _) eqn:Hb; [by injection E1 as <- _|]. bools.
  simpl in *. bools. by eapply reap_slot_keeps.
Qed.

Lemma resumed_keeps kr : keeps kr run_tasks_resumed.
Proof.
  intros k k' r E1 Hr Hk. pose proof Hk as [[Ht _ _] _].
  unfold run_tasks_resumed, mbind at 1, op_bind at 1, get in E1.
  destruct (idle_index (k_sched k)) as [i|] eqn:Hi; [|by injection E1 as <- _].
  destruct (sok_idle_slot _ (tab_sched _ Ht) i Hi) as [t Hti].
  unfold mbind at 1, op_bind at 1, on_sched at 1, slot_at in E1.
  unfold mbind at 1, op_bind at 1, get, lift in E1. rewrite Hti in E1. cbn [expect] in E1.
  rewrite set_sched_id in E1. destruct (_ && _) eqn:Hb; [|by injection E1 as <- _].
  simpl in Hb. bools. destruct (current (k_sched k)) eqn:Hc; [done|].
  apply (clear_slot_keeps kr k i t (clear_slot i (set_idle_index None (k_sched k))) _ r);
    [done..|by rewrite Hc|done|done| |exact E1].
  unfold clear_slot. simpl. apply (table_ok_clear (k_sched k) i t None); [done..|by rewrite Hc| |].
  - intros j. rewrite Hi. split; [done|]. intros [[= ->] ?]. done.
  - rewrite Hc. by intros [? ?].
Qed.

(** *** Creating tasks *)

(** A new task in a free slot. *)
Lemma kernel_ok_insert kr (k : K) slot t io :
  kernel_ok kr k -> tasks (k_sched k) !! slot = Some None -> task_user_ok t ->
  sched_ok (place_task slot t (next_id (k_sched k) + 1)%Z (k_sched k)) ->
  io_ok (held (t_fds t) ++ live_fds (k_sched k)) io ->
  kernel_ok kr (set_io io (set_sched
    (place_task slot t (next_id (k_sched k) + 1)%Z (k_sched k)) k)).
Proof.
  intros [[Ht Hio0 Hm] Ha] Hslot Hu Hs Hio.
  pose proof (live_insert _ slot _ (Some t) Hslot) as HP. simpl in HP.
  rewrite app_nil_r, held_omap in HP. split; [split; [|by rewrite <-HP in Hio|done]|].
  - split; [done| |apply Ht]. intros i t' Hi. simpl in Hi.
    apply list_lookup_insert_Some in Hi as [(_ & [= <-] & _)|[_ Hi]]; [done|].
    by apply (tab_user _ Ht i).
  - simpl. rewrite Ha. symmetry. apply active_root_other; [done|]. intros i Hc. simpl.
    apply list_lookup_insert_ne. intros ->.
    destruct (sok_current _ (tab_sched _ Ht) i Hc). congruence.
Qed.

(** [create_kernel_task] fails without a change, or places a kernel task. *)
Lemma create_kernel_task_spec base entry parent s s' r :
  sched_ok s -> (forall p, parent = Some p -> (0 < p < next_id s)%Z) ->
  create_kernel_task base trampoline entry parent s = (s', r) ->
  (exists e, r = Err e /\ s' = s) \/
  (exists slot context stack top, r = Ok (next_id s) /\ tasks s !! slot = Some None /\
     s' = place_task slot (new_task (next_id s) context parent (Some entry) None (Some stack)
       (Some top) initial_table) (next_id s + 1)%Z s /\ sched_ok s').
Proof.
  intros Hs Hp E1. pose proof (create_kernel_task_ok base trampoline entry parent s Hs Hp) as Hok.
  rewrite E1 in Hok. unfold create_kernel_task, mbind, op_bind, gets, lift in E1.
  pose proof (check_task_capacity_spec s) as Hc.
  destruct (position is_none (tasks s)) as [slot|] eqn:Hpos; destruct Hc as [Ec Hslot];
    rewrite Ec in E1; [|left; simplify_eq; eauto].
  unfold checked_add in E1. destruct (next_id s + 1 <? u64_limit)%Z eqn:Hn; cbn [ok_or] in E1;
    [|left; simplify_eq; eauto].
  destruct (create_task_stack base trampoline) as [[[context stack] top]|e|] eqn:Hst;
    [|left; simplify_eq; eauto|].
  2: { exfalso. revert Hst. unfold create_task_stack.
       repeat (match goal with |- context [@ok_or SchedulerError ?A ?o ?e] =>
         destruct o; [|done]; cbn [ok_or mbind outcome_bind] end); done. }
  pose proof (insert_task_spec s context parent (Some entry) None (Some stack) (Some top)) as Hi.
  rewrite Hpos, Hn in Hi. rewrite Hi in E1. right. exists slot, context, stack, top.
  injection E1 as <- <-. done.
Qed.

Lemma kernel_task_keeps kr (k : K) base entry parent s' r :
  kernel_ok kr k -> (forall p, parent = Some p -> (0 < p < next_id (k_sched k))%Z) ->
  create_kernel_task base trampoline entry parent (k_sched k) = (s', r) ->
  kernel_ok kr (set_sched s' k).
Proof.
  intros Hk Hp E1. assert (sched_ok (k_sched k)) as Hs by apply Hk.
  destruct (create_kernel_task_spec _ _ _ _ _ _ Hs Hp E1)
    as [(e & _ & ->)|(slot & context & stack & top & _ & Hslot & -> & Hs')];
    [by rewrite set_sched_id|].
  apply (kernel_ok_insert kr k slot _ (k_io k)); [done..|].
  change (held _) with [Stdin; Console; Console]. by repeat apply io_ok_add; [apply Hk|..].
Qed.

Lemma spawn_keeps kr base entry : keeps kr (spawn trampoline base entry).
Proof.
  intros k k' r E1 Hr Hk. unfold spawn, on_sched, mbind, op_bind, get in E1.
  destruct (slot_reserved (k_sched k)); [injection E1 as <- _; by rewrite set_sched_id|].
  destruct (create_kernel_task _ _ _ _ _) as [s1 r1] eqn:E2. injection E1 as <- _.
  eapply kernel_task_keeps; [done| |done]. intros p. apply current_task_id. apply Hk.
Qed.

Lemma destroy_unspawned_keeps kr (k : K) space k' space' r :
  kernel_ok kr k -> destroy_unspawned_address_space try_new (k, space) = (k', space', r) ->
  kernel_ok kr k'.
Proof.
  intros Hk E1. unfold destroy_unspawned_address_space in E1.
  destruct space as [space|]; [|by injection E1 as <- _ _].
  destruct (destroy try_new (k_cr3 k) (k_mem k, space)) as [[mem' sp] res] eqn:Hd.
  destruct (destroy_root try_new kr _ _ _ _ _ _ (kok_mem _ _ (proj1 Hk)) Hd) as (m' & -> & Hkr').
  injection E1 as <- _ _. by apply kernel_ok_mem.
Qed.

Lemma parent_fds_live (k : K) parent fds :
  sched_ok (k_sched k) -> parent_fds parent (k_sched k) = Some fds ->
  length fds = MAX_FDS /\ forall d, d ∈ held fds -> d ∈ live_fds (k_sched k).
Proof.
  intros Hs. unfold parent_fds. destruct parent as [p|]; [|done]. cbn [mbind option_bind].
  destruct (index_of p (k_sched k)) as [i|] eqn:Hi; [|done]. cbn [mbind option_bind].
  apply index_of_Some in Hi as (t & Ht & _). rewrite Ht. intros [= <-].
  split; [eapply tok_fds, sok_tasks; done|].
  intros d Hd. rewrite (live_task _ _ _ Ht). apply elem_of_app. by left.
Qed.

(** What [create_user_task] does once the address space is taken. *)
Lemma create_user_keeps kr (k : K) base space context parent mappings closes k' space' r :
  kernel_ok kr k -> is_Some (root space) ->
  (forall p, parent = Some p -> (0 < p < next_id (k_sched k))%Z) -> r <> Panic ->
  create_user_task trampoline base context parent mappings closes (k, Some space)
    = (k', space', r) ->
  kernel_ok kr k'.
Proof.
  intros Hk Hroot Hp Hr E1. unfold create_user_task, mbind, op_bind, lift, get, put in E1.
  unfold on_k at 1, on_sched at 1 in E1. pose proof (check_task_capacity_spec (k_sched k)) as Hc.
  destruct (position is_none (tasks (k_sched k))) as [slot|] eqn:Hpos; destruct Hc as [Ec Hslot];
    rewrite Ec, set_sched_id in E1; [|by injection E1 as <- _ _].
  unfold on_k at 1, on_sched at 1, gets in E1. rewrite set_sched_id in E1. unfold checked_add in E1.
  destruct (Z.ltb_spec (next_id (k_sched k) + 1) u64_limit) as [Hn|_]; cbn [ok_or] in E1;
    [|by injection E1 as <- _ _].
  destruct (create_task_stack base trampoline) as [[[cpu stack] top]|e|];
    [|by injection E1 as <- _ _|by injection E1 as _ _ <-]. cbn [ok_or] in E1.
  unfold on_k at 1, on_io in E1.
  destruct (child_fds_spec (live_fds (k_sched k)) (parent_fds parent (k_sched k)) mappings closes
    (k_io k)) as (io & res & E2 & Hres); [apply Hk|intros fds; by apply parent_fds_live; apply Hk|].
  rewrite E2 in E1. destruct res as [fds|e|]; [|injection E1 as <- _ _; by apply kernel_ok_io|done].
  destruct Hres as [Hio Hlen]. unfold or_panic, on_k, on_sched in E1. cbn [k_sched set_io] in E1.
  rewrite Ec in E1. injection E1 as <- _ _.
  apply (kernel_ok_insert kr k slot (new_task (next_id (k_sched k)) cpu parent None
    (Some (mk_user_task space context 0)) (Some stack) (Some top) fds) io); [done..| | |done].
  - intros u [= <-]. simpl. eauto.
  - by apply sched_ok_insert; [apply Hk|..].
Qed.

Lemma spawn_user_keeps kr base space entry stack argc argv mappings closes :
  is_Some (root space) ->
  keeps kr (spawn_user_with_arguments_and_fds try_new trampoline base space entry stack argc argv
    mappings closes).
Proof.
  intros Hroot k k' r E1 Hr Hk. unfold spawn_user_with_arguments_and_fds in E1.
  set (op := match for_address_space_with_arguments _ _ _ _ _ with Ok _ => _ | Err _ => _ | Panic => _ end) in E1.
  assert (forall k1 sp1 r1, op (k, Some space) = (k1, sp1, r1) -> r1 <> Panic -> kernel_ok kr k1)
    as Hop.
  { intros k1 sp1 r1 E2 Hr1. subst op. destruct (for_address_space_with_arguments _ _ _ _ _).
    - unfold try_create_user, mbind, op_bind, get in E2.
      destruct (slot_reserved (k_sched k)); [by injection E2 as <- _ _|].
      eapply create_user_keeps; [done..| |done|done]. intros p. apply current_task_id. apply Hk.
    - unfold fail in E2. by injection E2 as <- _ _.
    - unfold panic in E2. by injection E2 as <- _ _. }
  unfold or_destroy in E1.
  match type of E1 with context [op ?ks] => destruct (op ks) as [[k1 sp1] r1] eqn:E2 end.
  destruct r1 as [id|e|]; cbv iota in E1;
    [injection E1 as <- <-; by eapply Hop| |by injection E1 as _ <-].
  assert (kernel_ok kr k1) as Hk1 by (by eapply Hop). unfold mbind, op_bind in E1.
  match type of E1 with context [destroy_unspawned_address_space _ ?ks] =>
    destruct (destroy_unspawned_address_space try_new ks) as [[k2 sp2] r2] eqn:E3 end.
  apply (destroy_unspawned_keeps kr k1 sp1 k2 sp2 r2 Hk1) in E3.
  by destruct r2; injection E1 as <- _.
Qed.

(** *** Starting the scheduler *)

(** A ready kernel task without a parent becomes the idle task. *)
Lemma sched_ok_set_idle s i t :
  sched_ok s -> idle_index s = None -> tasks s !! i = Some (Some t) ->
  t_state t = Ready -> t_parent t = None ->
  sched_ok (set_idle_index (Some i) (update_task i (with_idle true) s)).
Proof.
  intros Hs Hi Ht Hst Hpar. destruct Hs.
  assert (forall j u', alter (fmap (with_idle true)) i (tasks s) !! j = Some (Some u') ->
    exists u, tasks s !! j = Some (Some u) /\ t_id u' = t_id u /\ t_state u' = t_state u /\
      (if decide (j = i) then u' = with_idle true t else u' = u)) as Hl.
  { intros j u' Hu'. destruct (decide (j = i)) as [->|Hne].
    - rewrite list_lookup_alter_eq, Ht in Hu'. injection Hu' as <-. by exists t.
    - rewrite list_lookup_alter_ne in Hu' by done. by exists u'. }
  assert (forall j u, tasks s !! j = Some (Some u) ->
    exists u', alter (fmap (with_idle true)) i (tasks s) !! j = Some (Some u')) as Hl'.
  { intros j u Hu. destruct (decide (j = i)) as [->|Hne].
    - rewrite list_lookup_alter_eq, Hu. simpl. eauto.
    - rewrite list_lookup_alter_ne by done. eauto. }
  split; simpl.
  - by rewrite length_alter.
  - done.
  - intros j u' (u & Hu & _ & _ & Hd)%Hl. case_decide; subst; [|by apply (sok_tasks j)].
    destruct (sok_tasks i t Ht). split; simpl; auto.
  - intros j j' u' v' (u & Hu & Eu & _)%Hl (v & Hv & Ev & _)%Hl. rewrite Eu, Ev. eauto.
  - intros j u' (u & Hu & _ & Eu & _)%Hl. rewrite Eu. auto.
  - intros j Hj. destruct (sok_current j Hj) as [u Hu]. eauto.
  - intros j u' (u & Hu & _ & _ & Hd)%Hl. case_decide; subst; [done|].
    rewrite (sok_idle j u Hu), Hi. split; [done|congruence].
  - intros j [= <-]. eauto.
Qed.

Lemma install_idle_keeps kr (k : K) base s' r :
  kernel_ok kr k -> install_idle trampoline idle_entry base (k_sched k) = (s', r) ->
  kernel_ok kr (set_sched s' k) /\ current s' = current (k_sched k) /\
  (r = Ok tt -> is_Some (idle_index s')).
Proof.
  intros Hk E1. unfold install_idle, mbind at 1, op_bind at 1, get in E1.
  destruct (idle_index (k_sched k)) as [i|] eqn:Hi; cbn [is_none] in E1.
  { injection E1 as <- _. rewrite set_sched_id, Hi. eauto. }
  destruct (create_kernel_task base trampoline idle_entry None (k_sched k)) as [s1 r1] eqn:E2.
  assert (forall p : Z, None = Some p -> (0 < p < next_id (k_sched k))%Z) as Hpar by done.
  pose proof (kernel_task_keeps kr k _ _ _ _ _ Hk Hpar E2) as Hk1.
  assert (sched_ok (k_sched k)) as Hs by apply Hk.
  unfold mbind at 1, op_bind at 1 in E1. rewrite E2 in E1.
  destruct (create_kernel_task_spec _ _ _ _ _ _ Hs Hpar E2)
    as [(e & -> & ->)|(slot & context & stack & top & -> & Hslot & Hs1 & Hok1)].
  { injection E1 as <- <-. by split; [|split]. }
  set (t := new_task _ _ _ _ _ _ _ _) in Hs1.
  assert (tasks s1 !! slot = Some (Some t)) as Ht.
  { subst s1. simpl. apply list_lookup_insert_eq. by eapply lookup_lt_Some. }
  unfold mbind, op_bind, get, lift, modify in E1.
  pose proof (index_of_id s1 slot t Hok1 Ht) as Hix. cbn [t_id t new_task] in Hix.
  rewrite Hix in E1. cbn [ok_or] in E1. rewrite (task_mut_Ok _ _ _ Ht) in E1. injection E1 as <- _.
  assert (idle_index s1 = None) as Hi1 by (by subst s1).
  split; [|split; [by subst s1|done]].
  apply (kernel_ok_spaces kr (set_sched s1 k) _ (k_io k)); [done| |by apply view_update|done|].
  - apply (table_ok_spaces s1); [apply Hk1| |by apply view_update|done].
    by apply (sched_ok_set_idle s1 slot t).
  - rewrite (live_fds_view s1); [apply Hk1|by apply view_update].
Qed.

Lemma start_Ok s :
  table_ok s -> current s = None -> is_Some (idle_index s) ->
  exists j tj, start s = (set_current (Some j) (update_task j (with_state Running) s), Ok (t_id tj)) /\
    tasks s !! j = Some (Some tj) /\
    table_ok (set_current (Some j) (update_task j (with_state Running) s)).
Proof.
  intros Hok Hc [i Hi]. pose proof Hok as [Hs Hu _].
  destruct (sok_idle_slot _ Hs i Hi) as [t Ht].
  pose proof (proj2 (sok_idle _ Hs i t Ht) Hi) as Hidle.
  assert (runnable true s i = true) as Hr.
  { apply runnable_spec. exists t. split; [done|]. split; [|done].
    destruct (tok_idle _ _ (sok_tasks _ Hs i t Ht) Hidle) as [?|Hrun]; [done|].
    apply (sok_running _ Hs i t Ht) in Hrun. congruence. }
  assert (is_Some (choice s 0)) as [j Hj].
  { unfold choice. destruct (find_runnable false s 0); [done|].
    destruct (find_runnable true s 0) eqn:E; [done|].
    rewrite (find_runnable_None true s 0 i E) in Hr; [done|].
    rewrite <-(sok_len _ Hs). by eapply lookup_lt_Some. }
  pose proof (select_next_spec s 0) as Hsel. pose proof (select_next_ok 0 s Hs Hc) as Hsok.
  rewrite Hj in Hsel. destruct Hsel as (tj & Htj & _ & Hsel). rewrite Hsel in Hsok.
  exists j, tj. split; [|split; [done|]].
  - unfold start, mbind, op_bind, get. by rewrite Hc.
  - apply (table_ok_res s); [done|done| |by eauto].
    apply (view_update task_res (with_state Running) j s). done.
Qed.

Lemma run_tasks_keeps kr base : keeps kr (run_tasks trampoline idle_entry base).
Proof.
  apply keeps_guard. intros k k' r E1 Hr Hk. unfold mbind, op_bind, get, lift, on_sched in E1.
  destruct (install_idle trampoline idle_entry base (k_sched k)) as [s1 r1] eqn:E2.
  destruct (install_idle_keeps kr k base s1 r1 Hk E2) as (Hk1 & Hc1 & Hi1).
  destruct r1 as [[]|e|]; [|by injection E1 as <- _|by injection E1 as _ <-].
  cbn [k_sched set_sched] in E1.
  destruct (current s1) as [i|] eqn:Hc.
  { unfold start in E1. unfold mbind, op_bind, get in E1. rewrite Hc in E1. cbn in E1.
    injection E1 as <- _. exact Hk1. }
  destruct (start_Ok s1) as (j & tj & Est & Htj & Hok'); [apply Hk1|done|by apply Hi1|].
  rewrite Est in E1. cbn [k_sched set_sched current set_current ok_or] in E1.
  set (k2 := set_sched _ (set_sched s1 k)) in E1.
  assert (core_ok kr k2) as Hcore.
  { apply (core_ok_sched kr (set_sched s1 k)); [apply Hk1|done|].
    apply (view_update task_res (with_state Running) j s1). done. }
  destruct (activate_spec (E := SchedulerError) kr k2 Hcore)
    as (k3 & Ha & E3 & E4 & E5 & E6 & E7 & E8 & E9 & Hrsp).
  destruct (context_switch_spec (E := SchedulerError) kr BootstrapContext k2 k3) as (k4 & Hsw & Hto);
    [done..|].
  change (current (k_sched k2)) with (Some j) in Ha, Hsw. rewrite Ha in E1.
  rewrite (context_of_Ok k3 j (with_state Running tj)) in E1.
  2: { rewrite E3. simpl. by rewrite list_lookup_alter_eq, Htj. }
  simpl in Hsw. rewrite Hsw in E1. injection E1 as <- _. by eapply switch_to_ok.
Qed.

(** *** Giving up the processor *)

(** The idle task may only yield. *)
Lemma idle_stays s i t st :
  table_ok s -> current s = Some i -> tasks s !! i = Some (Some t) -> t_is_idle t = true ->
  st <> Ready -> st <> Sleeping -> transition_current st s = (s, Err InvalidState).
Proof.
  intros Hok Hc Ht Hi Hst Hsl.
  destruct (transition_current_spec s st i (tab_sched _ Hok) Hc Hsl) as (u & Hu & _ & ->).
  assert (u = t) as -> by congruence. rewrite Hi. by rewrite bool_decide_false.
Qed.

Lemma idle_wakes s i t d :
  table_ok s -> current s = Some i -> tasks s !! i = Some (Some t) -> t_is_idle t = true ->
  sleep_current_until d s = (s, Err InvalidState).
Proof.
  intros Hok Hc Ht Hi.
  destruct (sleep_current_until_spec s d i (tab_sched _ Hok) Hc) as (u & Hu & _ & ->).
  assert (u = t) as -> by congruence. by rewrite Hi.
Qed.

(** The current task of a kernel state, if there is one. *)
Lemma current_cases kr (k : K) :
  kernel_ok kr k -> current (k_sched k) = None \/
  exists i t, current (k_sched k) = Some i /\ tasks (k_sched k) !! i = Some (Some t).
Proof.
  intros Hk. destruct (current (k_sched k)) as [i|] eqn:Hc; [|by left]. right.
  destruct (sok_current _ (tab_sched _ (kok_table _ _ (proj1 Hk))) i Hc) as [t Ht]. eauto.
Qed.

(** The body of a call fails with an error after saving the user stack pointer. *)
Lemma guard_saved {A} kr (k : K) (body : Op K SchedulerError (flow A)) i e k' r :
  kernel_ok kr k ->
  body (set_interrupts false k) =
    (set_sched (rsp_saved i k) (set_interrupts false k), Err e) ->
  with_guard body k = (k', r) -> kernel_ok kr k' /\ r = Err e.
Proof.
  intros Hk Hb E1. unfold with_guard in E1. rewrite Hb in E1.
  assert (kernel_ok kr (set_sched (rsp_saved i k) (set_interrupts false k))) as Hk1.
  { apply (kernel_ok_quiet kr (set_interrupts false k)); [by apply kernel_ok_interrupts|].
    apply (rsp_saved_quiet i k). apply Hk. }
  destruct (interrupts_enabled k); injection E1 as <- <-; [|done].
  split; [by apply kernel_ok_interrupts|done].
Qed.

Lemma guard_unchanged {A} kr (k : K) (body : Op K SchedulerError (flow A)) e k' r :
  kernel_ok kr k -> body (set_interrupts false k) = (set_interrupts false k, e) -> e <> Panic ->
  e <> Ok Switched -> with_guard body k = (k', r) -> kernel_ok kr k' /\ r = e.
Proof.
  intros Hk Hb He Hsw E1. unfold with_guard in E1. rewrite Hb in E1.
  pose proof (kernel_ok_interrupts kr false k Hk) as Hk0.
  destruct e as [[a|]|e|]; try done; destruct (interrupts_enabled k); injection E1 as <- <-;
    try done; (split; [by apply kernel_ok_interrupts|done]).
Qed.

Lemma yield_keeps kr : keeps_flow kr yield_now.
Proof.
  intros k k' r E1 Hr Hk. destruct (current_cases kr k Hk) as [Hc|(i & t & Hc & Ht)].
  - eapply (guard_unchanged kr k _ (Err NotStarted)) in E1; [|done| |done..].
    { destruct E1 as [? ->]. done. }
    unfold mbind, op_bind, get, lift. cbn [k_sched set_interrupts set_cpu]. by rewrite Hc.
  - destruct (yield_spec kr k i t (proj1 Hk) Hc Ht) as (k1 & E2 & Hg).
    rewrite E2 in E1. injection E1 as <- _. split; [by eapply gives_up_ok|]. intros _.
    eapply gives_up_hands_over; [done|apply rsp_saved_quiet; apply Hk|done].
Qed.

Lemma block_keeps kr : keeps_flow kr block_now.
Proof.
  intros k k' r E1 Hr Hk. destruct (current_cases kr k Hk) as [Hc|(i & t & Hc & Ht)].
  { eapply (guard_unchanged kr k _ (Err NotStarted)) in E1; [|done| |done..].
    { destruct E1 as [? ->]. done. }
    unfold mbind, op_bind, get, lift. cbn [k_sched set_interrupts set_cpu]. by rewrite Hc. }
  destruct (t_is_idle t) eqn:Hi.
  - eapply (guard_saved kr k _ i InvalidState) in E1; [|done|].
    { destruct E1 as [? ->]. done. }
    unfold mbind, op_bind, get, lift. cbn [k_sched set_interrupts set_cpu]. rewrite Hc. cbn [ok_or].
    rewrite (save_rsp_Ok i t) by done. unfold allow_idle, on_sched. cbn [k_sched set_sched].
    erewrite (idle_stays (rsp_saved i (set_interrupts false k)) i);
      [done|apply rsp_saved_ok, Hk|done|by apply rsp_saved_task|done..].
  - destruct (block_spec kr k i t (proj1 Hk) Hc Ht Hi) as (k1 & E2 & Hg).
    rewrite E2 in E1. injection E1 as <- _. split; [by eapply gives_up_ok|]. intros _.
    eapply gives_up_hands_over; [done|apply rsp_saved_quiet; apply Hk|done].
Qed.

Lemma sleep_keeps kr duration : keeps_flow kr (sleep_ticks duration).
Proof.
  intros k k' r E1 Hr Hk. destruct (Z.eq_dec duration 0%Z) as [->|Hd].
  { by injection E1 as <- <-. }
  destruct (current_cases kr k Hk) as [Hc|(i & t & Hc & Ht)].
  { unfold sleep_ticks in E1. rewrite (proj2 (Z.eqb_neq _ _) Hd) in E1.
    eapply (guard_unchanged kr k _ (Err NotStarted)) in E1; [|done| |done..].
    { destruct E1 as [? ->]. done. }
    unfold mbind, op_bind, get, lift. cbn [k_sched set_interrupts set_cpu]. by rewrite Hc. }
  destruct (t_is_idle t) eqn:Hi.
  - unfold sleep_ticks in E1. rewrite (proj2 (Z.eqb_neq _ _) Hd) in E1.
    eapply (guard_saved kr k _ i InvalidState) in E1; [|done|].
    { destruct E1 as [? ->]. done. }
    unfold mbind, op_bind, get, lift. cbn [k_sched set_interrupts set_cpu]. rewrite Hc. cbn [ok_or].
    rewrite (save_rsp_Ok i t) by done. unfold allow_idle, on_sched. cbn [k_sched set_sched].
    erewrite (idle_wakes (rsp_saved i (set_interrupts false k)) i);
      [done|apply rsp_saved_ok, Hk|done|by apply rsp_saved_task|done..].
  - destruct (sleep_spec kr k i t (proj1 Hk) Hc Ht duration Hd Hi) as (k1 & E2 & Hg).
    rewrite E2 in E1. injection E1 as <- _. split; [by eapply gives_up_ok|]. intros _.
    eapply gives_up_hands_over; [done|apply rsp_saved_quiet; apply Hk|done].
Qed.

Lemma exit_keeps kr code group : keeps_flow kr (exit_current_with_status_and_group code group).
Proof.
  intros k k' r E1 Hr Hk. destruct (current_cases kr k Hk) as [Hc|(i & t & Hc & Ht)].
  { exfalso. unfold exit_current_with_status_and_group, with_guard, mbind, op_bind, get, lift in E1.
    cbn [k_sched set_interrupts set_cpu] in E1. rewrite Hc in E1. cbn in E1. by simplify_eq. }
  destruct (t_is_idle t) eqn:Hi.
  - exfalso. destruct (exit_table_spec kr k i t (proj1 Hk) Hc Ht code group) as [Hwp Q].
    destruct (quiet_task _ _ i t Q Ht) as (t2 & Ht2).
    rewrite (exit_run kr k i t (proj1 Hk) Hc Ht code group) in E1.
    unfold with_guard, mbind, op_bind, or_panic, allow_idle, on_sched in E1.
    cbn [k_sched set_sched] in E1.
    rewrite (idle_stays (exit_table k i code group) i t2 Terminated) in E1;
      [by simplify_eq|apply Q|by rewrite (q_current _ _ Q)|done| |done..].
    by rewrite (quiet_is_idle _ _ i t t2 (kok_table _ _ (proj1 Hk)) Q Ht Ht2).
  - destruct (exit_spec kr k i t (proj1 Hk) Hc Ht code group Hi) as (k1 & E2 & Hg).
    rewrite E2 in E1. injection E1 as <- _. split; [by eapply gives_up_ok|]. intros _.
    eapply gives_up_hands_over; [done| |done].
    apply (proj2 (exit_table_spec kr k i t (proj1 Hk) Hc Ht code group)).
Qed.

Lemma preempt_keeps kr : keeps_flow kr preempt_from_timer.
Proof.
  intros k k' r E1 Hr Hk. destruct (current_cases kr k Hk) as [Hc|(i & t & Hc & Ht)].
  { eapply (guard_unchanged kr k _ (Ok (Returned tt))) in E1; [|done| |done..].
    { destruct E1 as [? ->]. done. }
    unfold mbind, op_bind, get. cbn [k_sched set_interrupts set_cpu]. by rewrite Hc. }
  destruct (preempt_spec kr k i t (proj1 Hk) Hc Ht) as (j & _ & Hp). case_decide as Hji.
  - destruct Hp as (c & E2 & Hcore). rewrite E2 in E1. injection E1 as <- <-. split; [|done].
    destruct Hk as [[Htab _ _] Ha].
    pose proof (wake_expired_quiet (k_ticks k) (k_sched k) Htab) as Q.
    destruct Hcore as [? ? ?]. split; [by split|]. simpl. rewrite Ha. symmetry.
    apply active_root_res; [|by rewrite Hc].
    rewrite (rescheduled_view _ _ _ _ _ _ task_res_free). apply (q_res _ _ Q).
  - destruct Hp as (k1 & E2 & Hg). rewrite E2 in E1. injection E1 as <- _.
    split; [by eapply gives_up_ok|]. intros _.
    eapply gives_up_hands_over; [done|apply wake_expired_quiet; apply Hk|done].
Qed.

(** The idle task returns to the bootstrap context. *)
Lemma idle_leaves kr (k : K) i t :
  kernel_ok kr k -> current (k_sched k) = Some i -> tasks (k_sched k) !! i = Some (Some t) ->
  t_is_idle t = true ->
  let k1 := set_sched (set_current None (update_task i (with_state Ready) (k_sched k))) k in
  exists k2 k', activate_task_address_space (E := SchedulerError) None k1 = (k2, Ok tt) /\
    context_switch (E := SchedulerError) (TaskContext i) BootstrapContext k2 = (k', Ok tt) /\
    core_ok kr k1 /\ switch_to kr (TaskContext i) k1 k' /\ kernel_ok kr k'.
Proof.
  intros Hk Hc Ht Hi k1.
  assert (core_ok kr k1) as Hcore.
  { apply core_ok_sched; [apply Hk| |by apply (view_update task_res (with_state Ready) i)].
    apply (table_ok_res (k_sched k)); [apply Hk| |by apply (view_update task_res (with_state Ready) i)
      |by intros [? ?]].
    apply leave_ok; [apply Hk|done|]. intros u Hu. assert (u = t) as -> by congruence.
    split; [split_and!; simpl; done || auto|done]. }
  destruct (activate_spec (E := SchedulerError) kr k1 Hcore)
    as (k2 & Ha & E3 & E4 & E5 & E6 & E7 & E8 & E9 & Hrsp).
  destruct (context_switch_spec (E := SchedulerError) kr (TaskContext i) k1 k2) as (k3 & Hsw & Hto);
    [done..|].
  exists k2, k3. split; [exact Ha|]. split; [exact Hsw|]. split; [done|]. split; [done|].
  by eapply switch_to_ok.
Qed.

Lemma hands_over_quiet kr (k k' : K) s :
  quiet (k_sched k) s -> hands_over kr (set_sched s k) k' -> hands_over kr k k'.
Proof.
  intros Q (i & k1 & Hc & Hcore & Hregs & Hsw). exists i, k1. simpl in *.
  rewrite (q_current _ _ Q) in Hc. by rewrite (q_regs _ _ Q) in Hregs.
Qed.

Lemma idle_keeps kr : keeps_flow kr idle_round.
Proof.
  unfold idle_round. intros k k' r E1 Hr Hk. unfold mbind at 1, op_bind at 1, get in E1.
  unfold mbind at 1, op_bind at 1, modify_sched at 1, on_sched at 1, modify in E1.
  set (s1 := wake_expired_sleepers (k_ticks k) (k_sched k)) in E1.
  assert (quiet (k_sched k) s1) as Q by (apply wake_expired_quiet; apply Hk).
  assert (kernel_ok kr (set_sched s1 k)) as Hk1 by (by apply kernel_ok_quiet).
  unfold mbind at 1, op_bind at 1 in E1. cbn [k_sched set_sched] in E1.
  destruct (negb (has_live_non_idle_tasks s1)).
  - unfold mbind at 1, op_bind at 1, lift in E1.
    destruct (current_cases kr _ Hk1) as [Hc|(i & t & Hc & Ht)]; cbn [k_sched set_sched] in *.
    { exfalso. rewrite Hc in E1. cbn in E1. by injection E1 as _ <-. }
    rewrite Hc in E1. cbn [expect] in E1. unfold mbind, op_bind, slot_at, on_sched at 1 in E1.
    unfold mbind, op_bind, get, lift in E1. cbn [k_sched set_sched] in E1. rewrite Ht in E1.
    cbn [expect] in E1. destruct (t_is_idle t) eqn:Hi; [|exfalso; by injection E1 as _ <-].
    destruct (idle_leaves kr (set_sched s1 k) i t Hk1 Hc Ht Hi)
      as (k2 & k3 & Ha & Hsw & Hcore & Hto & Hk3).
    cbn [negb] in E1. unfold modify_sched, on_sched, modify in E1.
    change (set_sched _ _) with
      (set_sched (set_current None (update_task i (with_state Ready) s1)) (set_sched s1 k)) in E1.
    cbn [k_sched set_sched] in Ha. rewrite Ha in E1. rewrite Hsw in E1. injection E1 as <- _.
    split; [done|]. intros _. apply (hands_over_quiet kr k k3 s1 Q). exists i. eexists.
    split; [done|]. split; [exact Hcore|]. split; [by apply (view_update task_regs)|done].
  - unfold idle_yield in E1. destruct (yield_now (set_sched s1 k)) as [k2 r2] eqn:E2.
    pose proof (yield_keeps kr _ _ _ E2) as Hy.
    destruct r2 as [f|e|]; injection E1 as <- <-; [| |done].
    + destruct Hy as [Hk2 Hh]; [done..|]. split; [done|]. intros Hf.
      by apply (hands_over_quiet kr k k2 s1 Q), Hh.
    + split; [|done]. apply kernel_ok_interrupts. by apply Hy.
Qed.

(** *** Waiting for a child *)

Lemma task_pure (k : K) id : exists r, on_sched (task id) k = (k, r).
Proof.
  unfold on_sched, task, mbind, op_bind, get, lift.
  destruct (index_of id (k_sched k)) as [i|] eqn:Hi; cbn [ok_or].
  - apply index_of_Some in Hi as (t & Ht & _). rewrite (task_mut_Ok _ _ _ Ht).
    rewrite set_sched_id. eauto.
  - rewrite set_sched_id. eauto.
Qed.

Lemma check_child_pure (k : K) parent child : exists r, check_child parent child k = (k, r).
Proof.
  unfold check_child. destruct child as [c|]; [|by eexists].
  destruct (task_pure k c) as [r Ht]. unfold mbind, op_bind. rewrite Ht.
  destruct r as [t|e|]; [case_bool_decide|..]; by eexists.
Qed.

Lemma terminated_child_pure s parent child :
  terminated_child parent child s =
  (s, match filter (fun t => t_state t = Terminated) (children parent child s) with
      | t :: _ => Ok (t_id t)
      | [] => match children parent child s, child with
              | _ :: _, _ => Err ChildRunning
              | [], Some _ => Err UnknownTask
              | [], None => Err NoChild
              end
      end).
Proof.
  unfold terminated_child, mbind, op_bind, get.
  destruct (filter _ _); [|done]. by destruct (children parent child s), child.
Qed.

Lemma find_terminated_pure (k : K) parent child : exists r, find_terminated parent child k = (k, r).
Proof.
  unfold find_terminated, on_sched. rewrite terminated_child_pure, set_sched_id.
  destruct (filter _ _); [|by eexists]. destruct (children _ _ _), child; by eexists.
Qed.

(** The current task blocks, as [wait_for_child] does while its child runs. *)
Lemma wait_blocks kr (k : K) i t :
  kernel_ok kr k -> current (k_sched k) = Some i -> tasks (k_sched k) !! i = Some (Some t) ->
  exists k' r, (_ ← save_current_user_rsp i; _ ← on_sched (transition_current Blocked);
      switch_away (A := Z * option Z) i) k = (k', r) /\ kernel_ok kr k' /\
    (if t_is_idle t then r = Err InvalidState
     else r = Ok Switched /\ gives_up kr i Blocked None (rsp_saved i k) k k').
Proof.
  intros Hk Hc Ht. unfold mbind, op_bind. rewrite (save_rsp_Ok i t) by done.
  pose proof (rsp_saved_task i t k Ht) as Hu. unfold on_sched. cbn [k_sched set_sched].
  assert (table_ok (rsp_saved i k)) as Hok by (apply rsp_saved_ok; apply Hk).
  destruct (t_is_idle t) eqn:Hi.
  - rewrite (idle_stays (rsp_saved i k) i _ Blocked Hok Hc Hu Hi) by done.
    eexists _, _. split; [done|]. split; [|done]. apply (kernel_ok_quiet kr k); [done|].
    apply rsp_saved_quiet. apply Hk.
  - destruct (transition_gives_up (A := Z * option Z) kr k i Blocked (rsp_saved i k) _ (proj1 Hk) Hok
      (rsp_saved_res i k) Hc Hu) as (s' & id & k' & Htr & Hsw & Hg); [simpl; congruence|done..|].
    rewrite Htr. exists k', (Ok Switched). split; [exact Hsw|]. split; [by eapply gives_up_ok|done].
Qed.

Lemma hands_over_interrupts kr b (k k' : K) :
  hands_over kr (set_interrupts b k) k' -> hands_over kr k k'.
Proof. intros (i & k1 & Hc & Hcore & Hregs & Hs & Hsw). exists i, k1. done. Qed.

Lemma keeps_flow_guard {E A} kr (op : Op K E (flow A)) :
  keeps_flow kr op -> keeps_flow kr (with_guard op).
Proof.
  intros Hop k k' r E1 Hr Hk. split; [by eapply keeps_guard; [apply keeps_flow_keeps|..]|].
  intros ->. unfold with_guard in E1. destruct (op (set_interrupts false k)) as [k1 r1] eqn:E2.
  destruct r1 as [[a|]|e|]; simplify_eq. apply (hands_over_interrupts kr false).
  eapply Hop; [done..|by apply kernel_ok_interrupts|done].
Qed.

(** An operation that returns hands nothing over. *)
Lemma keeps_flow_returns {E A} kr (op : Op K E A) :
  keeps kr op -> keeps_flow kr (a ← op; mret (Returned a)).
Proof.
  intros Hop k k' r E1 Hr Hk. unfold mbind, op_bind in E1.
  destruct (op k) as [k1 [a|e|]] eqn:E2; injection E1 as <- <-; [|..|done];
    (split; [by eapply Hop|done]).
Qed.

Lemma wait_keeps kr child : keeps_flow kr (wait_for_child try_new child).
Proof.
  apply keeps_flow_guard. intros k k' r E1 Hr Hk. unfold mbind at 1, op_bind at 1, get in E1.
  unfold mbind at 1, op_bind at 1, lift in E1.
  destruct (current_cases kr k Hk) as [Hc|(i & t & Hc & Ht)]; rewrite Hc in E1; cbn [ok_or] in E1.
  { by injection E1 as <- <-. }
  unfold mbind at 1, op_bind at 1, on_sched at 1 in E1. rewrite (task_mut_Ok _ _ _ Ht) in E1.
  rewrite set_sched_id in E1. unfold mbind at 1, op_bind at 1 in E1.
  destruct (check_child_pure k (t_id t) child) as [r1 Ec]. rewrite Ec in E1.
  destruct r1 as [[]|e|]; [|by injection E1 as <- <-..].
  unfold mbind at 1, op_bind at 1 in E1.
  destruct (find_terminated_pure k (t_id t) child) as [r2 Ef]. rewrite Ef in E1.
  destruct r2 as [[c|]|e|]; [| |by injection E1 as <- <-..].
  - unfold mbind at 1, op_bind at 1 in E1. destruct (task_pure k c) as [r3 E3]. rewrite E3 in E1.
    destruct r3 as [tc|e|]; [|by injection E1 as <- <-..].
    unfold mbind, op_bind in E1. destruct (reap_terminated try_new c k) as [k1 r1] eqn:E4.
    destruct r1 as [[]|e|]; injection E1 as <- <-; [..|done];
      (split; [by eapply (reap_keeps kr c)|done]).
  - destruct (wait_blocks kr k i t Hk Hc Ht) as (k1 & r1 & E2 & Hk1 & Hw).
    rewrite E2 in E1. injection E1 as <- <-. split; [done|]. intros ->.
    destruct (t_is_idle t) eqn:Hi; [done|]. destruct Hw as [_ (j & _ & Hcore & Hsw)].
    exists i. eexists. split; [done|]. split; [exact Hcore|]. split; [|done]. simpl.
    rewrite (rescheduled_view _ _ _ _ _ _ registers_free).
    apply (q_regs _ _ (rsp_saved_quiet i k ltac:(apply Hk))).
Qed.

(** *** Every call *)

(** What the callers guarantee: a path is a [&str], a new address space is not
    released. *)
Definition call_ok (c : call) : Prop :=
  match c with
  | OpenWrite path => valid_utf8 path = true
  | SpawnUser _ space _ _ _ _ _ _ => is_Some (root space)
  | _ => True
  end.

Lemma exec_keeps kr c : call_ok c -> keeps kr (exec try_new trampoline idle_entry c).
Proof.
  destruct c; intros Hc; simpl; try apply keeps_void;
    auto using spawn_keeps, spawn_user_keeps, keeps_flow_keeps, yield_keeps, block_keeps,
      sleep_keeps, exit_keeps, reap_keeps, sound_keeps, read_fd_sound, write_fd_keeps, make_pipe_sound,
      close_fd_sound, dup_fd_sound, preempt_keeps, idle_keeps, run_tasks_keeps, resumed_keeps.
  - apply keeps_bind; [apply keeps_flow_keeps, wait_keeps|]. intros f. apply keeps_pure.
  - apply keeps_sched, wake_quiet.
  - apply keeps_sched, terminate_task_quiet.
  - apply keeps_sched, wake_all_quiet.
  - apply keeps_bind; [|intros f; apply keeps_pure]. apply create_file_keeps. intros live io io' res.
    intros Hio. by apply create_file_write_spec.
  - apply keeps_bind; [|intros f; apply keeps_pure]. apply create_file_keeps. intros live io io' res.
    apply create_file_read_spec.
Qed.

End calls.
