(* ===== verification/KernelProps.v ===== *)
(** * Properties of the kernel

    The reachable states of the kernel, and what its calls do. *)

From S2P Require Import Prelude Ring Input Utf8 FileSystem Fd FrameAlloc UserRange Paging Scheduler Timer Kernel KernelOk KernelInv.

(** ** The kernel as a transition system *)

Section system.
Context {D DE : Type} `{FileSystem D DE}.
Context {PT : Type} `{Mapper PT}.
Variable try_new : Z -> option Z.
Variable trampoline idle_entry : Z.

Abbreviation K := (Kernel D PT).

(** A step: a call that does not panic; the running code changes registers and
    enters system calls; the timer ticks; a key arrives; pages are mapped or
    unmapped; the disk changes. *)
Inductive kstep : K -> K -> Prop :=
| kstep_call c k k' r :
    call_ok c -> exec try_new trampoline idle_entry c k = (k', r) -> r <> Panic -> kstep k k'
| kstep_run k regs rsp :
    kstep k (set_cpu regs (set_local (mk_cpu_local rsp (kernel_rsp (k_local k))) k))
| kstep_tick k : kstep k (set_ticks (on_interrupt (k_ticks k)) k)
| kstep_key k byte i :
    InputBuffer_push byte (io_input (k_io k)) = Some i ->
    kstep k (set_io (set_input i (k_io k)) k)
| kstep_memory k m m' :
    k_mem k = Some (Ok m) -> mm_kernel_root m' = mm_kernel_root m ->
    kstep k (set_mem (Some (Ok m')) k)
| kstep_disk k disk : kstep k (set_io (set_disk disk (k_io k)) k).

(** The state in which the boot context calls [spawn] and [run_tasks]. *)
Definition boot_kernel (disk : D) (m : MemoryManager PT) : K :=
  mk_kernel Scheduler_new (io_init disk) (Some (Ok m)) (mm_kernel_root m)
    CpuContext_empty CpuContext_empty (mk_cpu_local 0 0) 0.

(** ** Lemmas *)

Lemma boot_kernel_ok disk m : kernel_ok (mm_kernel_root m) (boot_kernel disk m).
Proof.
  split; [|done]. split; [|by apply (io_init_ok 0)|by exists m].
  split; [apply Scheduler_new_ok| |by intros [? ?]]. intros i t Ht.
  apply (lookup_replicate MAX_TASKS None) in Ht as [? _]. done.
Qed.

Lemma kstep_ok kr k k' : kstep k k' -> kernel_ok kr k -> kernel_ok kr k'.
Proof.
  intros Hs Hk. destruct Hs as [c k k' r Hc E Hr|k regs rsp|k|k byte i Hi|k m m' Hm Hr|k disk].
  - by eapply exec_keeps.
  - destruct Hk as [[] ?]. done.
  - destruct Hk as [[] ?]. done.
  - apply kernel_ok_io; [done|]. apply io_ok_set_input; [apply Hk|].
    destruct (InputBuffer_push_spec byte (io_input (k_io k))) as (i' & E & Hok & _);
      [eapply ok_input; apply Hk|]. congruence.
  - apply kernel_ok_mem; [done|]. destruct Hk as [[_ _ (m0 & Hm0 & Hr0)] _]. congruence.
  - apply kernel_ok_io; [done|]. apply io_ok_set_disk. apply Hk.
Qed.

Lemma reachable_kernel_ok disk m k :
  rtc kstep (boot_kernel disk m) k -> kernel_ok (mm_kernel_root m) k.
Proof.
  intros Hr. apply (rtc_invariant kstep (kernel_ok (mm_kernel_root m))) with (boot_kernel disk m);
    [apply kstep_ok|done|apply boot_kernel_ok].
Qed.

(** Calls that return give the processor to nobody. *)
Lemma void_returns {A} (op : Op K SchedulerError A) k k' : void op k <> (k', Ok Switched).
Proof. unfold void, mbind, op_bind. by destruct (op k) as [? []]. Qed.

Lemma create_file_returns (create : Op (Io D) unit FileDescriptor) (k k' : K) :
  create_file_for_current create k <> (k', Ok Switched).
Proof.
  unfold create_file_for_current, with_guard, mbind, op_bind, lift.
  destruct (current_slot (set_interrupts false k)) as [k1 [[i t]|e|]]; [|by destruct (interrupts_enabled k)|done].
  destruct (find_free_fd (t_fds t)); [|by destruct (interrupts_enabled k)]. cbn [ok_or].
  destruct (on_fd create _ k1) as [k2 [d|e|]]; [|by destruct (interrupts_enabled k)|done].
  destruct (install_file n d k2) as [k3 [x|e|]]; [..|done]; by destruct (interrupts_enabled k).
Qed.

Lemma exec_hands_over kr c k k' :
  kernel_ok kr k -> call_ok c -> exec try_new trampoline idle_entry c k = (k', Ok Switched) ->
  (exists base, c = RunTasks base) \/ hands_over kr k k'.
Proof.
  intros Hk Hc E. destruct c; simpl in E;
    try (by apply void_returns in E); try (by left; eauto); right.
  - by eapply yield_keeps.
  - by eapply block_keeps.
  - by eapply sleep_keeps.
  - by eapply exit_keeps.
  - unfold void_flow, mbind, op_bind in E.
    destruct (wait_for_child try_new child k) as [k1 [[a|]|e|]] eqn:E2; try done.
    injection E as <-. by eapply wait_keeps.
  - unfold void_flow, mbind, op_bind in E.
    destruct (create_file_write_for_current path k) as [k1 [[a|]|e|]] eqn:E2; try done.
    by apply create_file_returns in E2.
  - unfold void_flow, mbind, op_bind in E.
    destruct (create_file_read_for_current path k) as [k1 [[a|]|e|]] eqn:E2; try done.
    by apply create_file_returns in E2.
  - by eapply preempt_keeps.
  - by eapply idle_keeps.
Qed.

(** A reaped task: it was terminated and not running, and only its slot changed. *)
Lemma reap_Ok kr (k : K) id k' :
  kernel_ok kr k -> reap_terminated try_new id k = (k', Ok tt) ->
  exists i t, tasks (k_sched k) !! i = Some (Some t) /\ t_id t = id /\ t_state t = Terminated /\
    current (k_sched k) <> Some i /\ k_sched k' = clear_slot i (k_sched k).
Proof.
  intros Hk E1. unfold reap_terminated, mbind at 1, op_bind at 1, get in E1.
  unfold mbind at 1, op_bind at 1, lift in E1.
  destruct (index_of id (k_sched k)) as [i|] eqn:Hix; [|done].
  apply index_of_Some in Hix as (t & Hi & Hid). cbn [ok_or] in E1.
  unfold mbind at 1, op_bind at 1, on_sched at 1, slot_at in E1.
  unfold mbind at 1, op_bind at 1, get, lift in E1. rewrite Hi in E1. cbn [expect] in E1.
  rewrite set_sched_id in E1. destruct (_ || _) eqn:Hb; [done|]. bools. simpl in *. bools.
  exists i, t. do 4 (split; [done|]). unfold mbind, op_bind in E1. simpl in E1.
  unfold modify_sched, on_sched, on_io, modify in E1.
  destruct (t_user t) as [u|]; cbn in E1.
  - unfold destroy_task_space in E1.
    destruct (destroy try_new (k_cr3 k) (k_mem k, address_space u)) as [[mem space] [[]|e|]];
      cbn in E1; [|done..].
    destruct (drop_fds (t_fds t) (k_io k)) as [io r]. injection E1 as <- ->. simpl.
    unfold clear_slot, update_task, set_tasks. simpl. by rewrite insert_alter_None.
  - destruct (drop_fds (t_fds t) (k_io k)) as [io r]. by injection E1 as <- ->.
Qed.

Lemma children_elem parent child s tc :
  tc ∈ children parent child s <->
  exists j, tasks s !! j = Some (Some tc) /\ t_parent tc = Some parent /\
    (child = None \/ child = Some (t_id tc)).
Proof.
  unfold children. rewrite list_elem_of_filter, list_elem_of_omap. unfold is_child.
  assert (match child with None => true | Some c => (t_id tc =? c)%Z end = true <->
    (child = None \/ child = Some (t_id tc))) as Hc.
  { destruct child as [c|]; [|by split; [left|]]. rewrite Z.eqb_eq.
    split; [intros ->; by right|]. by intros [?|[= ->]]. }
  rewrite andb_true_iff, bool_decide_eq_true, Hc. split.
  - intros [[Hp Hch] (slot & [j Hj]%list_elem_of_lookup & Hs)]. simpl in Hs. subst slot. eauto.
  - intros (j & Hj & Hp & Hch). split; [done|]. exists (Some tc). split; [|done].
    by eapply list_elem_of_lookup_2.
Qed.

(** A guard does not change the result nor the table. *)
Lemma with_guard_result {A} (body : Op K SchedulerError (flow A)) k k' r :
  with_guard body k = (k', r) ->
  exists k1, body (set_interrupts false k) = (k1, r) /\ k_sched k' = k_sched k1.
Proof.
  unfold with_guard. destruct (body (set_interrupts false k)) as [k1 r1]. intros E. exists k1.
  destruct r1 as [[a|]|e|]; destruct (interrupts_enabled k); by injection E as <- <-.
Qed.

(** A round of [wait_for_child] that found a terminated child. *)
Lemma wait_reaps kr (k k' : K) parent child c r :
  kernel_ok kr k -> find_terminated parent child k = (k, Ok (Some c)) ->
  (c' ← on_sched (task c); _ ← reap_terminated try_new c;
   mret (Returned (c, t_exit_code c'))) k = (k', r) -> r <> Ok Switched /\
  forall x, r = Ok (Returned x) -> exists j tc, tasks (k_sched k) !! j = Some (Some tc) /\
    x = (t_id tc, t_exit_code tc) /\ t_state tc = Terminated /\ t_parent tc = Some parent /\
    (child = None \/ child = Some (t_id tc)) /\
    k_sched k' = clear_slot j (k_sched k).
Proof.
  intros Hk Hf E. unfold find_terminated, on_sched in Hf.
  rewrite terminated_child_pure, set_sched_id in Hf.
  destruct (filter _ _) as [|tc l] eqn:Hfl; [by destruct (children _ _ _), child|].
  injection Hf as <-.
  assert (tc ∈ filter (fun t => t_state t = Terminated) (children parent child (k_sched k))) as Hin
    by (rewrite Hfl; left).
  apply list_elem_of_filter in Hin as [Hst (j & Hj & Hp & Hch)%children_elem].
  unfold mbind at 1, op_bind at 1, on_sched, task, mbind at 1, op_bind at 1, get, lift in E.
  assert (sched_ok (k_sched k)) as Hs by apply Hk.
  rewrite (index_of_id _ j tc Hs Hj) in E. unfold mbind, op_bind in E. cbn [ok_or] in E.
  rewrite (task_mut_Ok _ _ _ Hj), set_sched_id in E.
  destruct (reap_terminated try_new (t_id tc) k) as [k1 r1] eqn:Er.
  destruct r1 as [[]|e|]; injection E as <- <-.
  - split; [done|]. intros x [= <-]. exists j, tc.
    destruct (reap_Ok kr k _ _ Hk Er) as (j' & u & Hu & Hid & _ & _ & Hts).
    pose proof (sok_ids _ Hs j j' tc u Hj Hu (eq_sym Hid)) as ->. done.
  - done.
  - done.
Qed.

(** The task that is selected was ready. *)
Lemma choice_ready s start j :
  choice s start = Some j -> exists t, tasks s !! j = Some (Some t) /\ t_state t = Ready.
Proof.
  intros Hj. pose proof (select_next_spec s start) as Hs. rewrite Hj in Hs.
  destruct Hs as (t & ? & ? & _). eauto.
Qed.

(** The table after the running task left and another was selected. *)
Lemma gives_up_states kr i st w s (k k' : K) t :
  gives_up kr i st w s k k' -> tasks s !! i = Some (Some t) ->
  exists j t', current (k_sched k') = Some j /\ tasks (k_sched k') !! i = Some (Some t') /\
    (j <> i -> t_state t' = st) /\ (st <> Ready -> j <> i).
Proof.
  intros (j & Hj & _ & Hsw) Ht.
  assert (st <> Ready -> j <> i) as Hne.
  { intros Hst ->. apply Hst. apply choice_ready in Hj as (u & Hu & <-). simpl in Hu.
    rewrite list_lookup_alter_eq, Ht in Hu. by injection Hu as <-. }
  pose proof (sw_sched _ _ _ _ Hsw) as Hs. simpl in Hs.
  exists j, (with_context (k_cpu k) (if decide (j = i) then with_state Running (leaves st w t)
    else leaves st w t)).
  rewrite Hs. split; [done|]. cbn [tasks update_task set_tasks rescheduled set_current].
  rewrite list_lookup_alter_eq. case_decide as Hji.
  - subst j. by rewrite list_lookup_alter_eq, list_lookup_alter_eq, Ht.
  - rewrite list_lookup_alter_ne, list_lookup_alter_eq, Ht by done. by split.
Qed.

(** One round of [wait_for_child]. *)
Lemma wait_round kr (k k' : K) child i t r :
  kernel_ok kr k -> current (k_sched k) = Some i -> tasks (k_sched k) !! i = Some (Some t) ->
  wait_for_child try_new child k = (k', r) ->
  (forall x, r = Ok (Returned x) -> exists j tc, tasks (k_sched k) !! j = Some (Some tc) /\
    x = (t_id tc, t_exit_code tc) /\ t_state tc = Terminated /\ t_parent tc = Some (t_id t) /\
    (child = None \/ child = Some (t_id tc)) /\
    k_sched k' = clear_slot j (k_sched k)) /\
  (r = Ok Switched -> children (t_id t) child (k_sched k) <> [] /\
    (forall tc, tc ∈ children (t_id t) child (k_sched k) -> t_state tc <> Terminated) /\
    exists t', tasks (k_sched k') !! i = Some (Some t') /\ t_state t' = Blocked) /\
  (child = None -> children (t_id t) None (k_sched k) = [] -> r = Err NoChild).
Proof.
  intros Hk0 Hc Ht (k1 & E1 & Hs')%with_guard_result. rewrite Hs'. clear Hs'.
  pose proof (kernel_ok_interrupts kr false k Hk0) as Hk.
  change (k_sched k) with (k_sched (set_interrupts false k)) in *.
  generalize dependent (set_interrupts false k). clear k k' Hk0. intros k Hc Ht E1 Hk.
  unfold mbind at 1, op_bind at 1, get in E1. unfold mbind at 1, op_bind at 1, lift in E1.
  rewrite Hc in E1; cbn [ok_or] in E1.
  unfold mbind at 1, op_bind at 1, on_sched at 1 in E1. rewrite (task_mut_Ok _ _ _ Ht) in E1.
  rewrite set_sched_id in E1. unfold mbind at 1, op_bind at 1 in E1.
  destruct (check_child_pure k (t_id t) child) as [r1 Ec]. rewrite Ec in E1.
  destruct r1 as [[]|e|].
  2: { injection E1 as <- <-. split; [done|]. split; [done|]. intros ->. by injection Ec. }
  2: { injection E1 as <- <-. split; [done|]. split; [done|]. intros ->. by injection Ec. }
  unfold mbind at 1, op_bind at 1 in E1.
  destruct (find_terminated_pure k (t_id t) child) as [r2 Ef]. rewrite Ef in E1.
  destruct r2 as [[c|]|e|].
  - destruct (wait_reaps kr k k1 (t_id t) child c r Hk Ef E1) as [Hns Hret].
    split; [done|]. split; [done|]. intros -> Hnil. exfalso. revert Ef.
    unfold find_terminated, on_sched. by rewrite terminated_child_pure, Hnil, set_sched_id.
  - destruct (wait_blocks kr k i t Hk Hc Ht) as (k2 & r3 & E2 & _ & Hw). rewrite E2 in E1.
    injection E1 as <- <-. unfold find_terminated, on_sched in Ef.
    rewrite terminated_child_pure, set_sched_id in Ef.
    destruct (filter _ _) as [|tc l] eqn:Hfl; [|done].
    split; [by destruct (t_is_idle t); [subst|destruct Hw as [-> _]]|]. split.
    + intros ->. destruct (t_is_idle t); [done|]. destruct Hw as [_ Hg]. split; [|split].
      * intros Hnil. rewrite Hnil in Ef. by destruct child.
      * intros tc Htc Hst.
        assert (tc ∈ filter (fun t => t_state t = Terminated) (children (t_id t) child (k_sched k)))
          as Hin by (by apply list_elem_of_filter).
        rewrite Hfl in Hin. by apply not_elem_of_nil in Hin.
      * destruct (gives_up_states _ _ _ _ _ _ _ _ Hg (rsp_saved_task i t k Ht))
          as (j & t' & _ & Ht' & Hst & Hne). exists t'. split; [done|]. auto.
    + intros -> Hnil. by rewrite Hnil in Ef.
  - injection E1 as <- <-. split; [done|]. split; [done|]. intros -> Hnil. revert Ef.
    unfold find_terminated, on_sched. rewrite terminated_child_pure, Hnil, set_sched_id.
    by intros [= <-].
  - injection E1 as <- <-. split; [done|]. split; [done|]. intros -> Hnil. revert Ef.
    unfold find_terminated, on_sched. by rewrite terminated_child_pure, Hnil, set_sched_id.
Qed.

(** What a task is after the calls that give up the processor. *)
Definition left_state (c : call) : option TaskState :=
  match c with
  | Yield => Some Ready
  | Block => Some Blocked
  | Sleep d => if (d =? 0)%Z then None else Some Sleeping
  | Exit _ _ => Some Terminated
  | _ => None
  end.

Lemma leave_call_spec kr c (k : K) i t st :
  kernel_ok kr k -> current (k_sched k) = Some i -> tasks (k_sched k) !! i = Some (Some t) ->
  t_is_idle t = false -> left_state c = Some st ->
  exists k' j t', exec try_new trampoline idle_entry c k = (k', Ok Switched) /\
    current (k_sched k') = Some j /\ tasks (k_sched k') !! i = Some (Some t') /\
    (j <> i -> t_state t' = st) /\ (st <> Ready -> j <> i).
Proof.
  intros Hk Hc Ht Hi Hst.
  assert (forall s, quiet (k_sched k) s -> exists t', tasks s !! i = Some (Some t')) as Hq
    by (intros s Q; by eapply quiet_task).
  assert (quiet (k_sched k) (rsp_saved i k)) as Q by (apply rsp_saved_quiet; apply Hk).
  destruct (Hq _ Q) as [t1 Ht1]. destruct c; simpl in Hst; simplify_eq; simpl.
  - destruct (yield_spec kr k i t (proj1 Hk) Hc Ht) as (k' & E & Hg).
    destruct (gives_up_states _ _ _ _ _ _ _ _ Hg Ht1) as (j & t' & ?). eauto 10.
  - destruct (block_spec kr k i t (proj1 Hk) Hc Ht Hi) as (k' & E & Hg).
    destruct (gives_up_states _ _ _ _ _ _ _ _ Hg Ht1) as (j & t' & ?). eauto 10.
  - destruct (Z.eqb_spec duration 0) as [|Hd]; simplify_eq.
    destruct (sleep_spec kr k i t (proj1 Hk) Hc Ht duration Hd Hi) as (k' & E & Hg).
    destruct (gives_up_states _ _ _ _ _ _ _ _ Hg Ht1) as (j & t' & ?). eauto 10.
  - destruct (exit_spec kr k i t (proj1 Hk) Hc Ht exit_code group Hi) as (k' & E & Hg).
    destruct (exit_table_spec kr k i t (proj1 Hk) Hc Ht exit_code group) as [_ Q2].
    destruct (Hq _ Q2) as [t2 Ht2].
    destruct (gives_up_states _ _ _ _ _ _ _ _ Hg Ht2) as (j & t' & ?). eauto 10.
Qed.

End system.

(** ** An example: a shell task, a pipe and a user program *)

Definition example_program : AddressSpace :=
  mk_address_space (Some 0x300000%Z)
    [(USER_SPACE_START, ReadExecute); (USER_SPACE_START + PAGE_SIZE, ReadWrite)%Z].

Abbreviation example_exec := (exec (D := example_disk) (DE := unit) (H := example_fs)
  (PT := option Z) (H0 := example_mapper) example_try_new 0x1000%Z 0x2000%Z).

Abbreviation example_kstep := (kstep (D := example_disk) (DE := unit) (H := example_fs)
  (PT := option Z) (H0 := example_mapper) example_try_new 0x1000%Z 0x2000%Z).

(** The calls run in order, from the boot state. *)
Definition example_run (calls : list call) : Kernel example_disk (option Z) :=
  foldl (fun k c => (example_exec c k).1) (boot_kernel (∅, []) example_manager) calls.

(** No call of the sequence panics. *)
Fixpoint example_safe (k : Kernel example_disk (option Z)) (calls : list call) : bool :=
  match calls with
  | [] => true
  | c :: calls =>
      match example_exec c k with
      | (_, Panic) => false
      | (k, _) => example_safe k calls
      end
  end.

(** The shell starts, opens a pipe (descriptors 3 and 4) and spawns a program that
    inherits its table. *)
Definition example_calls : list call :=
  [Spawn 0x400000 0x3000; RunTasks 0x500000; MakePipe;
   SpawnUser 0x600000 example_program USER_SPACE_START (USER_SPACE_START + 2 * PAGE_SIZE) 0 0 [] []].

Lemma example_reachable calls k0 :
  Forall call_ok calls -> example_safe k0 calls = true ->
  rtc example_kstep k0 (foldl (fun k c => (example_exec c k).1) k0 calls).
Proof.
  intros Hok. revert k0. induction Hok as [|c calls Hc Hok IH]; intros k0 Hs; simpl; [done|].
  simpl in Hs. eapply rtc_l; [|apply IH].
  - apply (kstep_call _ _ _ c k0 _ (example_exec c k0).2 Hc); [apply surjective_pairing|].
    by destruct (example_exec c k0) as [? []].
  - by destruct (example_exec c k0) as [? []].
Qed.

Lemma example_run_reachable calls :
  Forall call_ok calls -> example_safe (boot_kernel (∅, []) example_manager) calls = true ->
  rtc example_kstep (boot_kernel (∅, []) example_manager) (example_run calls).
Proof. apply example_reachable. Qed.

Lemma example_calls_reachable c :
  call_ok c ->
  example_safe (boot_kernel (∅, []) example_manager) (example_calls ++ [c]) = true ->
  rtc example_kstep (boot_kernel (∅, []) example_manager) (example_run (example_calls ++ [c])).
Proof.
  intros Hc. apply example_run_reachable. apply Forall_app. split; [|by constructor].
  unfold example_calls. repeat constructor. by eexists.
Qed.

(** ** Properties *)

Section properties.
Context {D DE : Type} `{FileSystem D DE}.
Context {PT : Type} `{Mapper PT}.
Variable try_new : Z -> option Z.
Variable trampoline idle_entry : Z.

(** The page tables of the running task are the active ones. *)
Definition runs_on_own_tables (kernel_root : Z) (k : Kernel D PT) : Prop :=
  match current (k_sched k) with
  | Some i => exists t, tasks (k_sched k) !! i = Some (Some t) /\ t_state t = Running /\
      match t_user t with
      | Some u => root (address_space u) = Some (k_cr3 k)
      | None => k_cr3 k = kernel_root
      end
  | None => k_cr3 k = kernel_root
  end.

Lemma kernel_ok_tables kr (k : Kernel D PT) : kernel_ok kr k -> runs_on_own_tables kr k.
Proof.
  intros [[[Hs Hu _] _ _] Ha]. unfold runs_on_own_tables. rewrite Ha. unfold active_root.
  destruct (current (k_sched k)) as [i|] eqn:Hc; [|done].
  destruct (current_running _ _ Hs Hc) as (t & Ht & Hr). exists t. do 2 (split; [done|]).
  rewrite Ht. unfold slot_root. simpl. destruct (t_user t) as [u|] eqn:Eu; [|done].
  destruct (Hu i t Ht u Eu) as [[r Hr'] _]. simpl. by rewrite Hr'.
Qed.

(** C11: In every reachable state the active page tables are those of the task that
    runs: the root of the current user task's address space, and the kernel's own
    root while a kernel task or the boot context runs. *)
Theorem active_page_tables disk (m : MemoryManager PT) (k : Kernel D PT) :
  rtc (kstep try_new trampoline idle_entry) (boot_kernel disk m) k ->
  match current (k_sched k) with
  | Some i => exists t, tasks (k_sched k) !! i = Some (Some t) /\ t_state t = Running /\
      match t_user t with
      | Some u => root (address_space u) = Some (k_cr3 k)
      | None => k_cr3 k = mm_kernel_root m
      end
  | None => k_cr3 k = mm_kernel_root m
  end.
Proof. intros Hk%reachable_kernel_ok. by apply kernel_ok_tables. Qed.

(** C12: In every reachable state the reader and writer counters of each pipe are
    the numbers of its read and write ends in the descriptor tables of the tasks,
    and every descriptor of every task refers to an object that exists. *)
Theorem descriptors_of_tasks disk (m : MemoryManager PT) (k : Kernel D PT) :
  rtc (kstep try_new trampoline idle_entry) (boot_kernel disk m) k ->
  (forall id p, io_pipes (k_io k) !! id = Some p ->
     readers p = count (is_reader id) (live_fds (k_sched k)) /\
     writers p = count (is_writer id) (live_fds (k_sched k))) /\
  (forall i t n d, tasks (k_sched k) !! i = Some (Some t) -> t_fds t !! n = Some (Some d) ->
     backed (k_io k) d).
Proof.
  intros [[_ Hio _] _]%reachable_kernel_ok. split.
  - intros id p Hp. by destruct (ok_pipes _ _ Hio id p Hp) as (_ & ? & ?).
  - intros i t n d Ht Hd. apply (ok_live _ _ Hio). by eapply held_live.
Qed.

(** In every reachable state a running task that is not the idle task can
    yield, block, sleep and exit: the call neither fails nor panics, another task is
    then the current one (after a yield it may be the same), and the caller is in
    the state the call asked for. *)
Theorem leaving_never_fails disk (m : MemoryManager PT) (k : Kernel D PT) c i t st :
  rtc (kstep try_new trampoline idle_entry) (boot_kernel disk m) k ->
  current (k_sched k) = Some i -> tasks (k_sched k) !! i = Some (Some t) ->
  t_is_idle t = false -> left_state c = Some st ->
  exists k' j t', exec try_new trampoline idle_entry c k = (k', Ok Switched) /\
    current (k_sched k') = Some j /\ tasks (k_sched k') !! i = Some (Some t') /\
    (j <> i -> t_state t' = st) /\ (st <> Ready -> j <> i).
Proof. intros Hk%reachable_kernel_ok. by eapply leave_call_spec. Qed.

(** C13: When a call gives the processor away (only [run_tasks] starts from the boot
    context), the registers of the task that leaves are saved in its context, the
    saved registers of every other task stay as they are, and the registers of the task
    that is now current are loaded from its own context.  The active page tables are then
    those of this task, or the kernel's own for a kernel task, and for a user task the
    stack pointers of system calls are its own: that of the program, and the aligned top
    of its kernel stack. *)
Theorem context_switch_correct disk (m : MemoryManager PT) (k k' : Kernel D PT) c :
  rtc (kstep try_new trampoline idle_entry) (boot_kernel disk m) k -> call_ok c ->
  (forall base, c <> RunTasks base) ->
  exec try_new trampoline idle_entry c k = (k', Ok Switched) ->
  exists i t, current (k_sched k) = Some i /\ tasks (k_sched k') !! i = Some (Some t) /\
    same_regs (t_context t) (k_cpu k) /\
    (forall j u, j <> i -> tasks (k_sched k) !! j = Some (Some u) ->
       exists u', tasks (k_sched k') !! j = Some (Some u') /\ t_id u' = t_id u /\
         t_context u' = t_context u) /\
    load_context (ptr_of (current (k_sched k'))) k' = Some (k_cpu k') /\
    (forall j u us, current (k_sched k') = Some j -> tasks (k_sched k') !! j = Some (Some u) ->
       t_user u = Some us -> syscall_stacks u us (k_local k')) /\
    runs_on_own_tables (mm_kernel_root m) k'.
Proof.
  intros Hreach Hc Hne E.
  assert (runs_on_own_tables (mm_kernel_root m) k') as Htables.
  { eapply kernel_ok_tables, reachable_kernel_ok, rtc_r; [exact Hreach|]. by eapply kstep_call. }
  pose proof (reachable_kernel_ok _ _ _ _ _ _ Hreach) as Hk. clear Hreach.
  destruct (exec_hands_over _ _ _ _ _ _ _ Hk Hc E) as [[base ->]|Hh]; [by destruct (Hne base)|].
  destruct Hh as (i & k1 & Hcur & Hcore & Hregs & Hsame & _ & Hsw).
  destruct (current_running _ _ (tab_sched _ (kok_table _ _ (proj1 Hk))) Hcur) as (t & Ht & _).
  destruct (view_task _ _ _ _ _ Hregs Ht) as (t1 & Ht1 & _).
  pose proof (sw_sched _ _ _ _ Hsw) as Hs. simpl in Hs.
  assert (current (k_sched k') = current (k_sched k1)) as Hc' by (by rewrite Hs).
  assert (forall j, j <> i -> tasks (k_sched k') !! j = tasks (k_sched k1) !! j) as Hother.
  { intros j Hj. rewrite Hs. simpl. by rewrite list_lookup_alter_ne. }
  assert (tasks (k_sched k') !! i = Some (Some (with_context (k_cpu k1) t1))) as Ht'.
  { rewrite Hs. simpl. by rewrite list_lookup_alter_eq, Ht1. }
  exists i, (with_context (k_cpu k1) t1). split; [done|]. split; [done|]. split; [done|]. split.
  { intros j u Hj Hu. destruct (view_task _ _ _ _ _ Hregs Hu) as (u' & Hu' & [= E1 E2]).
    exists u'. by rewrite Hother. }
  rewrite Hc'. split; [apply (sw_cpu _ _ _ _ Hsw)|]. split; [|done]. intros j u us Hj Hu Hus.
  destruct (decide (j = i)) as [->|Hji].
  - rewrite Ht' in Hu. injection Hu as <-. by apply (sw_rsp _ _ _ _ Hsw i t1 us).
  - rewrite Hother in Hu by done. by apply (sw_rsp _ _ _ _ Hsw j u us).
Qed.

End properties.

(** The program runs: the shell is blocked. *)
Definition program_runs : Kernel example_disk (option Z) := example_run (example_calls ++ [Block]).

Lemma program_runs_reachable :
  rtc example_kstep (boot_kernel (∅, []) example_manager) program_runs.
Proof. apply example_calls_reachable; [done|]. by vm_compute. Qed.

Lemma active_page_tables_witness :
  current (k_sched program_runs) = Some 2 /\ k_cr3 program_runs = 0x300000%Z /\
  match current (k_sched program_runs) with
  | Some i => exists t, tasks (k_sched program_runs) !! i = Some (Some t) /\ t_state t = Running /\
      match t_user t with
      | Some u => root (address_space u) = Some (k_cr3 program_runs)
      | None => k_cr3 program_runs = mm_kernel_root example_manager
      end
  | None => k_cr3 program_runs = mm_kernel_root example_manager
  end.
Proof.
  split; [by vm_compute|]. split; [by vm_compute|].
  apply (active_page_tables (H := example_fs) (H0 := example_mapper) example_try_new 0x1000
    0x2000 (∅, []) example_manager program_runs program_runs_reachable).
Defined.

Lemma descriptors_of_tasks_witness :
  (forall id p, io_pipes (k_io program_runs) !! id = Some p ->
     readers p = count (is_reader id) (live_fds (k_sched program_runs)) /\
     writers p = count (is_writer id) (live_fds (k_sched program_runs))) /\
  (forall i t n d, tasks (k_sched program_runs) !! i = Some (Some t) ->
     t_fds t !! n = Some (Some d) -> backed (k_io program_runs) d) /\
  (readers <$> io_pipes (k_io program_runs) !! 0) = Some 2.
Proof.
  destruct (descriptors_of_tasks (H := example_fs) (H0 := example_mapper) example_try_new 0x1000
    0x2000 (∅, []) example_manager program_runs program_runs_reachable) as [H1 H2].
  split; [exact H1|]. split; [exact H2|]. by vm_compute.
Defined.

(** The running program. *)
Definition program_task : Task :=
  match tasks (k_sched program_runs) !! 2 with
  | Some (Some t) => t
  | _ => mk_task 0 None Ready None CpuContext_empty None None None None None false []
  end.

Lemma leaving_never_fails_witness :
  exists k' j t', example_exec (Exit (Some 7%Z) false) program_runs = (k', Ok Switched) /\
    current (k_sched k') = Some j /\ tasks (k_sched k') !! 2 = Some (Some t') /\
    (j <> 2 -> t_state t' = Terminated) /\ (Terminated <> Ready -> j <> 2).
Proof.
  apply (leaving_never_fails (H := example_fs) (H0 := example_mapper) example_try_new 0x1000
    0x2000 (∅, []) example_manager program_runs (Exit (Some 7%Z) false) 2 program_task Terminated
    program_runs_reachable); by vm_compute.
Defined.

Lemma context_switch_correct_witness :
  let k' := (example_exec Yield program_runs).1 in
  exists i t, current (k_sched program_runs) = Some i /\ tasks (k_sched k') !! i = Some (Some t) /\
    same_regs (t_context t) (k_cpu program_runs) /\
    (forall j u, j <> i -> tasks (k_sched program_runs) !! j = Some (Some u) ->
       exists u', tasks (k_sched k') !! j = Some (Some u') /\ t_id u' = t_id u /\
         t_context u' = t_context u) /\
    load_context (ptr_of (current (k_sched k'))) k' = Some (k_cpu k') /\
    (forall j u us, current (k_sched k') = Some j -> tasks (k_sched k') !! j = Some (Some u) ->
       t_user u = Some us -> syscall_stacks u us (k_local k')) /\
    runs_on_own_tables (mm_kernel_root example_manager) k'.
Proof.
  apply (context_switch_correct (H := example_fs) (H0 := example_mapper) example_try_new 0x1000
    0x2000 (∅, []) example_manager program_runs _ Yield program_runs_reachable);
    [done|done|by vm_compute].
Defined.

Section properties2.
Context {D DE : Type} `{FileSystem D DE}.
Context {PT : Type} `{Mapper PT}.
Variable try_new : Z -> option Z.
Variable trampoline idle_entry : Z.

(** C39: Reaping a task drops its descriptors but wakes nobody: every other task
    keeps its state, so that a task that is blocked writing to a pipe whose last
    read end the reaped task held stays blocked, although its write would now fail
    with [BrokenPipe]. *)
Theorem reap_wakes_nobody disk (m : MemoryManager PT) (k k' : Kernel D PT) id i t :
  rtc (kstep try_new trampoline idle_entry) (boot_kernel disk m) k ->
  reap_terminated try_new id k = (k', Ok tt) ->
  tasks (k_sched k) !! i = Some (Some t) -> t_id t <> id ->
  tasks (k_sched k') !! i = Some (Some t).
Proof.
  intros Hk%reachable_kernel_ok E Ht Hid.
  destruct (reap_Ok _ _ _ _ _ Hk E) as (j & u & Hu & Hid' & _ & _ & ->).
  simpl. rewrite list_lookup_insert_ne; [done|]. intros ->. congruence.
Qed.

(** C38: When a user task cannot be created because of its descriptors, whether a mapping has a
    bad source or target, its source is not open or a descriptor to close is out of range, the
    address space it was to run on is dropped without being destroyed: once the user
    context, the slot, the identifier and the kernel stack are there, every spawn that
    fails leaves the memory manager as it is, no task owns the pages and the caller has
    given them away. *)
Theorem failed_spawn_leaks_address_space (k k' : Kernel D PT)
  base space entry stack argc argv context mappings closes slot stack_ e :
  for_address_space_with_arguments space entry stack argc argv = Ok context ->
  slot_reserved (k_sched k) = false -> position is_none (tasks (k_sched k)) = Some slot ->
  (next_id (k_sched k) + 1 < u64_limit)%Z -> create_task_stack base trampoline = Ok stack_ ->
  spawn_user_with_arguments_and_fds try_new trampoline base space entry stack argc argv mappings closes k = (k', Err e) ->
  k_mem k' = k_mem k /\ k_sched k' = k_sched k.
Proof.
  intros Hctx Hres Hpos Hn Hst E.
  unfold spawn_user_with_arguments_and_fds in E. rewrite Hctx in E.
  unfold or_destroy, try_create_user, create_user_task, mbind, op_bind, lift, get, put in E.
  rewrite Hres in E. unfold on_k at 1, on_sched at 1 in E.
  pose proof (check_task_capacity_spec (k_sched k)) as Hc. rewrite Hpos in Hc. destruct Hc as [Ec _].
  rewrite Ec, set_sched_id in E. unfold on_k at 1, on_sched at 1, gets in E.
  rewrite set_sched_id in E. unfold checked_add in E. rewrite (proj2 (Z.ltb_lt _ _) Hn) in E.
  cbn [ok_or] in E. destruct stack_ as [[cpu stk] top]. rewrite Hst in E. cbn [ok_or] in E.
  unfold on_k at 1, on_io in E. destruct (child_fds _ mappings closes (k_io k)) as [io [fds|e'|]].
  - unfold or_panic, on_k at 1, on_sched at 1 in E. cbn [k_sched set_io] in E. by rewrite Ec in E.
  - cbn in E. by injection E as <- _.
  - done.
Qed.

End properties2.

(** A reader that exits while the writer is blocked on the full pipe: the shell
    (slot 0) waits for the reader (slot 2), the writer is in slot 3. *)
Definition reader_exits : list call :=
  [Spawn 0x400000 0x3000; RunTasks 0x500000; Spawn 0x700000 0x3000; WaitChild (Some 3%Z); MakePipe;
   SpawnUser 0x600000 example_program USER_SPACE_START (USER_SPACE_START + 2 * PAGE_SIZE) 0 0 [] [3];
   CloseFd 4; Yield; WriteFd 4 (replicate 4096 65%Z); Block; WaitChild (Some 3%Z);
   Exit (Some 0%Z) false].

Definition writer_stuck : Kernel example_disk (option Z) := example_run reader_exits.

Lemma writer_stuck_reachable :
  rtc example_kstep (boot_kernel (∅, []) example_manager) writer_stuck.
Proof.
  apply example_run_reachable; [|by vm_compute]. unfold reader_exits. repeat constructor. by eexists.
Qed.

(** The task of a slot, for examples. *)
Definition slot_task (i : nat) (k : Kernel example_disk (option Z)) : Task :=
  match tasks (k_sched k) !! i with
  | Some (Some t) => t
  | _ => mk_task 0 None Ready None CpuContext_empty None None None None None false []
  end.

Lemma reap_wakes_nobody_witness :
  let k' := (reap_terminated (D := example_disk) (H0 := example_mapper) example_try_new 3 writer_stuck).1 in
  tasks (k_sched k') !! 3 = Some (Some (slot_task 3 writer_stuck)) /\
  t_state (slot_task 3 writer_stuck) = Blocked /\
  t_fds (slot_task 3 writer_stuck) !! 4 = Some (Some (PipeWriteEnd 0)) /\
  (readers <$> io_pipes (k_io k') !! 0) = Some 0.
Proof.
  split; [|by vm_compute].
  apply (reap_wakes_nobody (H := example_fs) (H0 := example_mapper) example_try_new 0x1000
    0x2000 (∅, []) example_manager writer_stuck _ 3 3 _ writer_stuck_reachable); by vm_compute.
Defined.

(** The shell is about to spawn a program with a bad mapping. *)
Definition shell_runs : Kernel example_disk (option Z) :=
  example_run [Spawn 0x400000 0x3000; RunTasks 0x500000].

Lemma shell_runs_reachable :
  rtc example_kstep (boot_kernel (∅, []) example_manager) shell_runs.
Proof. apply example_run_reachable; [by repeat constructor|by vm_compute]. Qed.

Definition bad_spawn :=
  spawn_user_with_arguments_and_fds (D := example_disk) (H0 := example_mapper) example_try_new 0x1000
    0x600000 example_program USER_SPACE_START (USER_SPACE_START + 2 * PAGE_SIZE) 0 0
    [mk_fd_mapping 16 0] [] shell_runs.

Definition program_context : UserContext :=
  mk_user_context USER_SPACE_START (USER_SPACE_START + 2 * PAGE_SIZE) 0 0.

Definition program_stack : CpuContext * list Z * Z :=
  match create_task_stack 0x600000 0x1000 with
  | Ok x => x
  | _ => (CpuContext_empty, [], 0%Z)
  end.

Lemma failed_spawn_leaks_address_space_witness :
  bad_spawn.2 = Err InvalidFd /\ k_mem bad_spawn.1 = k_mem shell_runs /\
  k_sched bad_spawn.1 = k_sched shell_runs.
Proof.
  assert (bad_spawn.2 = Err InvalidFd) as Hbad by (by vm_compute). split; [done|].
  assert (bad_spawn = (bad_spawn.1, Err InvalidFd)) as E by (rewrite <-Hbad; apply surjective_pairing).
  refine (failed_spawn_leaks_address_space (D := example_disk) (H0 := example_mapper) example_try_new
    0x1000 shell_runs bad_spawn.1 0x600000 example_program
    USER_SPACE_START (USER_SPACE_START + 2 * PAGE_SIZE) 0 0 program_context [mk_fd_mapping 16 0] []
    2 program_stack InvalidFd _ _ _ _ _ E); by vm_compute.
Defined.


Section properties3.
Context {D DE : Type} `{FileSystem D DE}.
Context {PT : Type} `{Mapper PT}.
Variable try_new : Z -> option Z.
Variable trampoline idle_entry : Z.

(** Waiting for a child returns only the identifier and exit code of a
    terminated child of the caller, the one asked for if one was, and frees its
    slot and no other; it gives the processor away, leaving the caller blocked,
    only when the caller has such children and none has terminated; without a
    child to wait for it fails with [NoChild]. *)
Theorem wait_for_child_outcomes disk (m : MemoryManager PT) (k k' : Kernel D PT) child i t r :
  rtc (kstep try_new trampoline idle_entry) (boot_kernel disk m) k ->
  current (k_sched k) = Some i -> tasks (k_sched k) !! i = Some (Some t) ->
  wait_for_child try_new child k = (k', r) ->
  (forall x, r = Ok (Returned x) -> exists j tc, tasks (k_sched k) !! j = Some (Some tc) /\
    x = (t_id tc, t_exit_code tc) /\ t_state tc = Terminated /\ t_parent tc = Some (t_id t) /\
    (child = None \/ child = Some (t_id tc)) /\
    k_sched k' = clear_slot j (k_sched k)) /\
  (r = Ok Switched -> children (t_id t) child (k_sched k) <> [] /\
    (forall tc, tc ∈ children (t_id t) child (k_sched k) -> t_state tc <> Terminated) /\
    exists t', tasks (k_sched k') !! i = Some (Some t') /\ t_state t' = Blocked) /\
  (child = None -> children (t_id t) None (k_sched k) = [] -> r = Err NoChild).
Proof. intros Hk%reachable_kernel_ok. by eapply wait_round. Qed.

End properties3.

Lemma wait_for_child_outcomes_witness :
  let '(k', r) := wait_for_child (H0 := example_mapper) example_try_new (Some 3%Z) writer_stuck in
  r = Ok (Returned (3, Some 0))%Z /\
  exists j tc, tasks (k_sched writer_stuck) !! j = Some (Some tc) /\
    (3, Some 0)%Z = (t_id tc, t_exit_code tc) /\ t_state tc = Terminated /\
    t_parent tc = Some (t_id (slot_task 0 writer_stuck)) /\
    (Some 3%Z = None \/ Some 3%Z = Some (t_id tc)) /\
    k_sched k' = clear_slot j (k_sched writer_stuck).
Proof.
  assert ((wait_for_child (H0 := example_mapper) example_try_new (Some 3%Z) writer_stuck).2
    = Ok (Returned (3, Some 0))%Z) as Hr by (by vm_compute).
  destruct (wait_for_child (H0 := example_mapper) example_try_new (Some 3%Z) writer_stuck)
    as [k' r] eqn:E. simpl in Hr. split; [done|].
  apply (wait_for_child_outcomes (H := example_fs) (H0 := example_mapper) example_try_new 0x1000
    0x2000 (∅, []) example_manager writer_stuck k' (Some 3%Z) 0 (slot_task 0 writer_stuck) r
    writer_stuck_reachable); [by vm_compute|by vm_compute|done|done].
Defined.
