(* ===== verification/Interrupts.v ===== *)
(** * The timer and keyboard interrupt handlers

    [timer_interrupt_handler] and [keyboard_interrupt_handler] of
    [arch/interrupts.rs], on the kernel, the keyboard decoder with its lock, the
    shell's key queue and the end-of-interrupt commands sent to the interrupt
    controller. *)

From S2P Require Import Prelude Ring Input Utf8 FileSystem Fd FrameAlloc UserRange Paging Scheduler Timer Keyboard Kernel KernelOk KernelInv KernelProps.

(** [InterruptIndex::as_u8() - PIC_1_OFFSET]. *)
Definition TIMER_IRQ : Z := 0.
Definition KEYBOARD_IRQ : Z := 1.

(** [m_keyboard_locked] is the state of the spin lock of [KEYBOARD], [m_eoi] the
    arguments of [signal_eoi], in order. *)
Record Machine (D PT : Type) := mk_machine {
  m_kernel : Kernel D PT;
  m_keyboard : Keyboard;
  m_keyboard_locked : bool;
  m_keys : key_queue;
  m_eoi : list Z;
}.

Arguments mk_machine {D PT} _ _ _ _ _.
Arguments m_kernel {D PT} _.
Arguments m_keyboard {D PT} _.
Arguments m_keyboard_locked {D PT} _.
Arguments m_keys {D PT} _.
Arguments m_eoi {D PT} _.

(** How a handler ends: it returns to the interrupted code, it gives the processor
    to another task and does not return, it spins on a lock that is never
    released (interrupts are disabled), or it panics. *)
Inductive irq_end := IrqReturned | IrqSwitched | IrqSpins | IrqPanics.

(** [matches!(byte, b'\n' | b'\t' | 0x08 | 0x03 | 0x11 | 0x13 | 0x1b)
    || (0x20..=0x7e).contains(&byte)]. *)
Definition accepted_byte (byte : Z) : bool :=
  bool_decide (byte ∈ [0x0a; 0x09; 0x08; 0x03; 0x11; 0x13; 0x1b]%Z)
  || ((0x20 <=? byte) && (byte <=? 0x7e))%Z.

Definition special_key (c : KeyCode) : option Z :=
  match c with
  | ArrowLeft => Some 0x80
  | ArrowRight => Some 0x81
  | ArrowUp => Some 0x82
  | ArrowDown => Some 0x83
  | Home => Some 0x84
  | End_ => Some 0x85
  | Delete => Some 0x86
  | PageUp => Some 0x87
  | PageDown => Some 0x88
  | _ => None
  end%Z.

Section handlers.
Context {D DE : Type} `{FileSystem D DE}.
Context {PT : Type} `{Mapper PT}.

Abbreviation M := (Machine D PT).

Definition set_m_kernel (k : Kernel D PT) (m : M) : M :=
  mk_machine k (m_keyboard m) (m_keyboard_locked m) (m_keys m) (m_eoi m).
Definition set_keyboard (kb : Keyboard) (m : M) : M :=
  mk_machine (m_kernel m) kb (m_keyboard_locked m) (m_keys m) (m_eoi m).
Definition set_locked (b : bool) (m : M) : M :=
  mk_machine (m_kernel m) (m_keyboard m) b (m_keys m) (m_eoi m).
Definition set_keys (q : key_queue) (m : M) : M :=
  mk_machine (m_kernel m) (m_keyboard m) (m_keyboard_locked m) q (m_eoi m).
Definition signal_eoi (irq : Z) (m : M) : M :=
  mk_machine (m_kernel m) (m_keyboard m) (m_keyboard_locked m) (m_keys m) (m_eoi m ++ [irq]).

(** [current_task_is_user()]. *)
Definition user_task_running (m : M) : bool :=
  match (current_task_is_user (E := unit) (m_kernel m)).2 with Ok b => b | _ => false end.

(** [drivers::input::enqueue(byte)]; [None] is a panic. *)
Definition enqueue (byte : Z) (m : M) : option M :=
  let k := m_kernel m in
  i ← InputBuffer_push byte (io_input (k_io k));
  Some (set_m_kernel (set_io (set_input i (k_io k)) k) m).

Definition wake_all (m : M) : M :=
  set_m_kernel (set_sched (wake_all_blocked (k_sched (m_kernel m))) (m_kernel m)) m.

(** [shell::enqueue_key(byte)]. *)
Definition shell_enqueue (byte : Z) (m : M) : option M :=
  q ← enqueue_key byte (m_keys m); Some (set_keys q m).

(** The [if event.state == KeyState::Pressed] block, when it does not exit: the
    machine after it. *)
Definition deliver (user : bool) (event : KeyEvent) (m : M) : option M :=
  match ascii_byte event with
  | Some byte =>
      if accepted_byte byte then
        if user then m ← enqueue byte m; Some (wake_all m) else shell_enqueue byte m
      else Some m
  | None =>
      match special_key (code event) with
      | Some key => if user then enqueue key m else shell_enqueue key m
      | None => Some m
      end
  end.

(** The end of the handler: the interrupt is acknowledged and the guard of
    [KEYBOARD] is dropped. *)
Definition keyboard_return (m : option M) (old : M) : M * irq_end :=
  match m with
  | Some m => (set_locked false (signal_eoi KEYBOARD_IRQ m), IrqReturned)
  | None => (old, IrqPanics)
  end.

(** [scheduler::exit_current_group_with_code(130)], which does not return: the
    guard of [KEYBOARD] stays. *)
Definition exit_group_130 (m : M) : M * irq_end :=
  match exit_current_with_status_and_group (Some 130%Z) true (m_kernel m) with
  | (k, Ok _) => (set_m_kernel k m, IrqSwitched)
  | (k, _) => (set_m_kernel k m, IrqPanics)
  end.

(** [keyboard_interrupt_handler]; [scancode] is the byte read from port 0x60. *)
Definition keyboard_interrupt_handler (scancode : Z) (m : M) : M * irq_end :=
  let user := user_task_running m in
  if m_keyboard_locked m then (m, IrqSpins)
  else
    let m := set_locked true m in
    let '(kb, event) := process_scancode (m_keyboard m) scancode in
    let m := set_keyboard kb m in
    match event with
    | Some event =>
        if bool_decide (state event = Pressed) then
          if user && bool_decide (ascii_byte event = Some 0x03%Z)
          then exit_group_130 (signal_eoi KEYBOARD_IRQ m)
          else keyboard_return (deliver user event m) m
        else keyboard_return (Some m) m
    | None => keyboard_return (Some m) m
    end.

(** [timer_interrupt_handler], without the exchange of the GS base. *)
Definition timer_interrupt_handler (m : M) : M * irq_end :=
  let k := m_kernel m in
  let m := set_m_kernel (set_ticks (on_interrupt (k_ticks k)) k) m in
  let m := signal_eoi TIMER_IRQ m in
  match preempt_from_timer (m_kernel m) with
  | (k, Ok Switched) => (set_m_kernel k m, IrqSwitched)
  | (k, Panic) => (set_m_kernel k m, IrqPanics)
  | (k, _) => (set_m_kernel k m, IrqReturned)
  end.

(** ** Lemmas *)

(** The byte a key press delivers, if it delivers one. *)
Definition delivered (event : KeyEvent) : option Z :=
  match ascii_byte event with
  | Some byte => if accepted_byte byte then Some byte else None
  | None => special_key (code event)
  end.

Definition m_input (m : M) : list Z := fifo_items (io_input (k_io (m_kernel m))).

(** The queues of the machine are well formed. *)
Definition machine_ok (kr : Z) (m : M) : Prop :=
  kernel_ok kr (m_kernel m) /\ key_queue_ok (m_keys m).

Lemma enqueue_spec kr byte m :
  machine_ok kr m ->
  exists m', enqueue byte m = Some m' /\ machine_ok kr m' /\
    m_input m' = (if length (m_input m) <? INPUT_CAPACITY then m_input m ++ [byte] else m_input m) /\
    m_keys m' = m_keys m /\ m_keyboard m' = m_keyboard m /\ m_eoi m' = m_eoi m /\
    k_sched (m_kernel m') = k_sched (m_kernel m).
Proof.
  intros [Hk Hq]. assert (ring_ok INPUT_CAPACITY (input_ring (io_input (k_io (m_kernel m))))) as Hi
    by (eapply ok_input; apply Hk).
  destruct (InputBuffer_push_spec byte _ Hi) as (i & E & Hi' & Hit).
  unfold enqueue. rewrite E. simpl. eexists. split; [done|]. split.
  { split; [|done]. apply kernel_ok_io; [done|]. apply io_ok_set_input; [apply Hk|done]. }
  split; [|done]. unfold m_input. simpl. by rewrite Hit, length_ring_items.
Qed.

Lemma shell_enqueue_spec kr byte m :
  machine_ok kr m ->
  exists m', shell_enqueue byte m = Some m' /\ machine_ok kr m' /\
    key_items (m_keys m') = (if length (key_items (m_keys m)) <? QUEUE_CAPACITY - 1
                             then key_items (m_keys m) ++ [byte] else key_items (m_keys m)) /\
    m_kernel m' = m_kernel m /\ m_keyboard m' = m_keyboard m /\ m_eoi m' = m_eoi m.
Proof.
  intros [Hk Hq]. destruct (enqueue_key_spec byte (m_keys m) Hq) as (q & E & Hq' & _ & Hi).
  unfold shell_enqueue. rewrite E. simpl. eexists. split; [done|]. split; [done|].
  split; [|done]. simpl. case_match; [by destruct Hi as [_ ->]|by subst q].
Qed.

(** A bounded queue that takes a byte, or drops it when full. *)
Definition pushed (capacity : nat) (byte : option Z) (l : list Z) : list Z :=
  match byte with
  | Some b => if length l <? capacity then l ++ [b] else l
  | None => l
  end.

Lemma machine_ok_wake kr m : machine_ok kr m -> machine_ok kr (wake_all m).
Proof.
  intros [Hk Hq]. split; [|done]. apply kernel_ok_quiet; [done|]. apply wake_all_quiet. apply Hk.
Qed.

(** A key press that does not end a program delivers its byte to one queue. *)
Lemma deliver_spec kr user event m :
  machine_ok kr m ->
  exists m', deliver user event m = Some m' /\ machine_ok kr m' /\
    m_keyboard m' = m_keyboard m /\ m_eoi m' = m_eoi m /\
    m_input m' = (if user then pushed INPUT_CAPACITY (delivered event) (m_input m) else m_input m) /\
    key_items (m_keys m') = (if user then key_items (m_keys m)
      else pushed (QUEUE_CAPACITY - 1) (delivered event) (key_items (m_keys m))).
Proof.
  intros Hm. unfold deliver, delivered.
  assert (forall byte, exists m', (if user then enqueue byte m else shell_enqueue byte m) = Some m' /\
    machine_ok kr m' /\ m_keyboard m' = m_keyboard m /\ m_eoi m' = m_eoi m /\
    m_input m' = (if user then pushed INPUT_CAPACITY (Some byte) (m_input m) else m_input m) /\
    key_items (m_keys m') = (if user then key_items (m_keys m)
      else pushed (QUEUE_CAPACITY - 1) (Some byte) (key_items (m_keys m)))) as Hq.
  { intros byte. destruct user.
    - destruct (enqueue_spec kr byte m Hm) as (m' & E & ? & ? & Hkeys & ? & ? & ?).
      exists m'. by rewrite Hkeys.
    - destruct (shell_enqueue_spec kr byte m Hm) as (m' & -> & ? & Hi & Hk & ? & ?).
      eexists. split; [done|]. unfold m_input. rewrite Hk. done. }
  destruct (ascii_byte event) as [byte|].
  - destruct (accepted_byte byte); [|exists m; by destruct user].
    destruct (Hq byte) as (m' & E & Hm' & E1 & E2 & E3 & E4). destruct user.
    + rewrite E. simpl. eexists. split; [done|]. split; [by apply machine_ok_wake|done].
    + rewrite E. by eexists.
  - destruct (special_key (code event)) as [key|]; [|exists m; by destruct user].
    destruct (Hq key) as (m' & E & ?). destruct user; rewrite E; by eexists.
Qed.

Lemma user_task_running_spec kr m :
  machine_ok kr m -> user_task_running m = true ->
  exists i t u, current (k_sched (m_kernel m)) = Some i /\
    tasks (k_sched (m_kernel m)) !! i = Some (Some t) /\ t_user t = Some u.
Proof.
  intros [Hk _]. unfold user_task_running, current_task_is_user, mbind, op_bind.
  destruct (running_task (m_kernel m)) as [k1 r1] eqn:E.
  destruct (running_task_spec kr _ k1 r1 Hk E) as (-> & o & -> & Ho). simpl.
  destruct o as [t|]; [|done]. simpl. destruct (t_user t) as [u|] eqn:Hu; [|done]. intros _.
  destruct (Ho t eq_refl) as (i & Hc & Ht). eauto 10.
Qed.

End handlers.

(** ** Properties *)

Section properties.
Context {D DE : Type} `{FileSystem D DE}.
Context {PT : Type} `{Mapper PT}.

(** The byte of the scan code, when it completes a key press. *)
Definition pressed_byte (event : option KeyEvent) : option Z :=
  match event with
  | Some event => if bool_decide (state event = Pressed) then delivered event else None
  | None => None
  end.

(** Unless a program is interrupted with Ctrl-C, a keyboard interrupt returns,
    acknowledged once and with the decoder's lock free, and a key press that stands
    for a byte puts it in exactly one queue, unless that is full: in standard input
    while a user task runs, in the shell's queue otherwise. *)
Theorem keyboard_delivers kr scancode (m : Machine D PT) :
  machine_ok kr m -> m_keyboard_locked m = false ->
  let '(kb, event) := process_scancode (m_keyboard m) scancode in
  let user := user_task_running m in
  user = false \/ pressed_byte event <> Some 0x03%Z ->
  exists m', keyboard_interrupt_handler scancode m = (m', IrqReturned) /\ machine_ok kr m' /\
    m_keyboard m' = kb /\ m_keyboard_locked m' = false /\ m_eoi m' = m_eoi m ++ [KEYBOARD_IRQ] /\
    m_input m' = (if user then pushed INPUT_CAPACITY (pressed_byte event) (m_input m)
                  else m_input m) /\
    key_items (m_keys m') = (if user then key_items (m_keys m)
      else pushed (QUEUE_CAPACITY - 1) (pressed_byte event) (key_items (m_keys m))).
Proof.
  intros Hm Hl. unfold keyboard_interrupt_handler. rewrite Hl. cbn [m_keyboard set_locked].
  destruct (process_scancode (m_keyboard m) scancode) as [kb event]. intros Hu.
  set (m1 := set_keyboard kb (set_locked true m)).
  assert (machine_ok kr m1) as Hm1 by done.
  destruct event as [event|]; [|by eexists; destruct (user_task_running m)].
  simpl pressed_byte in *.
  destruct (bool_decide (state event = Pressed)) eqn:Hp;
    [|by eexists; destruct (user_task_running m)].
  assert (user_task_running m && bool_decide (ascii_byte event = Some 3%Z) = false) as ->.
  { apply andb_false_iff. destruct Hu as [->|Hu]; [by left|right].
    apply bool_decide_eq_false. intros Ha. unfold delivered in Hu. by rewrite Ha in Hu. }
  destruct (deliver_spec kr (user_task_running m) event m1 Hm1)
    as (m2 & -> & Hm2 & E1 & E2 & E3 & E4).
  eexists. split; [done|]. split; [done|]. split; [done|]. split; [done|].
  split; [simpl; by rewrite E2|]. done.
Qed.

(** C37: Ctrl-C while a program runs ends its group and gives the processor to
    another task inside the handler, so that the decoder's lock is never released:
    every later keyboard interrupt spins on it, with interrupts disabled. *)
Theorem ctrl_c_keeps_keyboard_locked kr scancode (m : Machine D PT) kb event i t u :
  machine_ok kr m -> m_keyboard_locked m = false ->
  current (k_sched (m_kernel m)) = Some i -> tasks (k_sched (m_kernel m)) !! i = Some (Some t) ->
  t_user t = Some u -> t_is_idle t = false ->
  process_scancode (m_keyboard m) scancode = (kb, Some event) ->
  state event = Pressed -> ascii_byte event = Some 0x03%Z ->
  exists m', keyboard_interrupt_handler scancode m = (m', IrqSwitched) /\
    (forall m2 : Machine D PT, m_keyboard_locked m2 = m_keyboard_locked m' ->
       forall next, keyboard_interrupt_handler next m2 = (m2, IrqSpins)).
Proof.
  intros [Hk Hq] Hl Hc Ht Hu Hi Hev Hp Ha. unfold keyboard_interrupt_handler at 1. rewrite Hl.
  cbn [m_keyboard set_locked]. rewrite Hev. rewrite bool_decide_true by done.
  assert (user_task_running m = true) as ->.
  { unfold user_task_running, current_task_is_user, running_task, mbind, op_bind, get, on_sched.
    rewrite Hc. unfold slot_at, mbind, op_bind, get, lift. rewrite Ht. simpl. by rewrite Hu. }
  rewrite bool_decide_true by done. cbn [andb]. unfold exit_group_130.
  destruct (exit_spec kr (m_kernel m) i t (proj1 Hk) Hc Ht (Some 130%Z) true Hi) as (k' & E & _).
  cbn [m_kernel signal_eoi set_keyboard set_locked]. rewrite E. eexists. split; [done|].
  intros m2 Hl2 next. unfold keyboard_interrupt_handler. rewrite Hl2. done.
Qed.

(** A timer interrupt never panics: it counts one tick, modulo 2^64, is
    acknowledged once before any switch, keeps the kernel's invariant, and either
    returns to the interrupted task or has switched to another one. *)
Theorem timer_interrupt_total kr (m : Machine D PT) :
  machine_ok kr m ->
  exists m' e, timer_interrupt_handler m = (m', e) /\ machine_ok kr m' /\
    m_eoi m' = m_eoi m ++ [TIMER_IRQ] /\
    k_ticks (m_kernel m') = ((k_ticks (m_kernel m) + 1) mod u64_limit)%Z /\
    ((e = IrqReturned /\ current (k_sched (m_kernel m')) = current (k_sched (m_kernel m))) \/
     (e = IrqSwitched /\ current (k_sched (m_kernel m')) <> current (k_sched (m_kernel m)))).
Proof.
  intros [Hk Hq]. unfold timer_interrupt_handler.
  set (k := set_ticks (on_interrupt (k_ticks (m_kernel m))) (m_kernel m)).
  assert (kernel_ok kr k) as Hk1 by (destruct Hk as [[] ?]; done).
  change (m_kernel (signal_eoi TIMER_IRQ (set_m_kernel k m))) with k.
  destruct (preempt_from_timer k) as [k' r] eqn:E.
  assert (r <> Panic -> kernel_ok kr k') as Hk' by (intros Hr; by eapply (preempt_keeps kr)).
  destruct (current_cases kr k Hk1) as [Hc|(i & t & Hc & Ht)].
  - unfold preempt_from_timer, with_guard, mbind, op_bind, get in E.
    cbn [k_sched set_interrupts set_cpu] in E. rewrite Hc in E. unfold mret, op_ret in E.
    destruct (interrupts_enabled k); injection E as <- <-; eexists _, IrqReturned;
      (split; [done|]); (split; [split; [by apply Hk'|done]|]);
      (split; [done|]); (split; [exact eq_refl|]); by left.
  - destruct (preempt_spec kr k i t (proj1 Hk1) Hc Ht) as (j & Hj & Hp). case_decide as Hji.
    + destruct Hp as (c & E2 & _). rewrite E in E2. injection E2 as -> ->.
      eexists _, _. split; [done|]. split; [split; [by apply Hk'|done]|].
      split; [done|]. split; [done|]. left. split; [done|]. exact (eq_sym Hc).
    + destruct Hp as (k2 & E2 & (j2 & Hch & _ & Hsw)). rewrite E in E2. injection E2 as -> ->.
      eexists _, _. split; [done|]. split; [split; [by apply Hk'|done]|]. split; [done|].
      split; [exact (sw_ticks _ _ _ _ Hsw)|]. right. split; [done|].
      cbn [m_kernel set_m_kernel]. rewrite (sw_sched _ _ _ _ Hsw). simpl.
      change (current (k_sched (m_kernel m))) with (current (k_sched k)). rewrite Hc.
      intros [= Hj2]. congruence.
Qed.

End properties.

(** *** Examples: the program of [KernelProps] runs and Ctrl is held down *)

Definition ctrl_down : Keyboard := (process_scancode Keyboard_new 0x1d).1.

Definition example_machine : Machine example_disk (option Z) :=
  mk_machine program_runs ctrl_down false key_queue_new [].

Lemma example_machine_ok : machine_ok 0x20C000 example_machine.
Proof.
  split; [|by vm_compute; lia].
  apply (reachable_kernel_ok (H := example_fs) (H0 := example_mapper) example_try_new 0x1000 0x2000
    (∅, []) example_manager).
  apply program_runs_reachable.
Qed.

Lemma keyboard_delivers_witness :
  exists m', keyboard_interrupt_handler 0x1e example_machine = (m', IrqReturned) /\
    machine_ok 0x20C000 m' /\
    m_keyboard m' = (process_scancode ctrl_down 0x1e).1 /\ m_keyboard_locked m' = false /\
    m_eoi m' = [] ++ [KEYBOARD_IRQ] /\
    m_input m' = pushed INPUT_CAPACITY (pressed_byte (process_scancode ctrl_down 0x1e).2)
      (m_input example_machine) /\
    key_items (m_keys m') = key_items (m_keys example_machine).
Proof.
  apply (keyboard_delivers 0x20C000 0x1e example_machine example_machine_ok
    eq_refl). right. by vm_compute.
Defined.

(** Ctrl-C: the scan code of the key C. *)
Definition ctrl_c_event : KeyEvent :=
  default (mk_event Enter Released None) (process_scancode ctrl_down 0x2e).2.

Lemma ctrl_c_keeps_keyboard_locked_witness :
  exists m', keyboard_interrupt_handler 0x2e example_machine = (m', IrqSwitched) /\
    (forall m2 : Machine example_disk (option Z), m_keyboard_locked m2 = m_keyboard_locked m' ->
       forall next, keyboard_interrupt_handler next m2 = (m2, IrqSpins)).
Proof.
  apply (ctrl_c_keeps_keyboard_locked 0x20C000 0x2e example_machine ctrl_down
    ctrl_c_event 2 program_task
    (mk_user_task example_program program_context 0)); try (by vm_compute).
  apply example_machine_ok.
Defined.

Lemma timer_interrupt_total_witness :
  exists m' e, timer_interrupt_handler example_machine = (m', e) /\
    machine_ok 0x20C000 m' /\ m_eoi m' = [] ++ [TIMER_IRQ] /\
    k_ticks (m_kernel m') = ((0 + 1) mod u64_limit)%Z /\
    ((e = IrqReturned /\
        current (k_sched (m_kernel m')) = current (k_sched (m_kernel example_machine))) \/
     (e = IrqSwitched /\
        current (k_sched (m_kernel m')) <> current (k_sched (m_kernel example_machine)))).
Proof.
  apply (timer_interrupt_total 0x20C000 example_machine example_machine_ok).
Defined.
