(* ===== verification/UserProgram.v ===== *)
(** * User programs

    [user_program.rs]: the formats of program images, the argument vector of a
    new program, the mapping and filling of its pages, and its start.

    A [&str] is the list of its bytes.  The memory behind the page frames is the
    state [PT] of the page-table module; the class [DirectMap] adds the copy through
    the kernel's direct map of physical memory. *)

From S2P Require Import Prelude Ring Input Utf8 FileSystem Tar Fd FrameAlloc UserRange Paging Scheduler Kernel.

Local Open Scope Z_scope.

Definition RAW_PROGRAM_BASE : Z := USER_SPACE_START + PAGE_SIZE.
Definition RAW_PROGRAM_MAX_SIZE : Z := 64 * 1024.
Definition APP_MAGIC : list Z := [76; 69; 65; 70; 65; 80; 80; 0].
Definition APP_VERSION : Z := 1.
Definition APP_HEADER_SIZE : Z := 48.
Definition APP_MAX_MEMORY_SIZE : Z := 64 * 1024.
Definition MAX_PROGRAM_ARGUMENTS : Z := 16.
Definition MAX_PROGRAM_ARGUMENT_BYTES : Z := 1024.
Definition USER_STACK_SIZE : Z := 16 * 1024.
Definition USER_STACK_TOP : Z := USER_SPACE_START + 0x200000.
Definition USER_STACK_ARGUMENT_RESERVE : Z := 256.

Module ProgramError.
Inductive t :=
| InvalidExtension
| FileNotFound
| FileSystem (e : FsError)
| Ext2 (e : Ext2Error.t)
| EmptyImage
| ImageTooLarge
| InvalidAppFormat
| UnsupportedAppVersion
| InvalidArguments
| Memory (e : MemoryError)
| AddressSpace (e : AddressSpaceError)
| AddressSpaceCleanup (e : AddressSpaceError)
| InvalidPhysicalAddress
| Scheduler (e : SchedulerError).
End ProgramError.

Record LoadedProgram := mk_program {
  lp_address_space : AddressSpace;
  lp_entry : Z;
  lp_stack : Z;
  lp_argument_count : Z;
  lp_argument_vector : Z;
  lp_data_start : option Z;
}.

(** ** Image formats *)

Record AppLayout := mk_layout {
  entry_offset : Z;
  code_len : Z;
  data_offset : Z;
  data_len : Z;
  bss_len : Z;
}.

(** [read_u16], [read_u32] and [read_u64]. *)
Definition read_u16 (image : list Z) (offset : Z) : option Z :=
  le_decode <$> get_range image offset (offset + 2).
Definition read_u32 (image : list Z) (offset : Z) : option Z :=
  le_decode <$> get_range image offset (offset + 4).
Definition read_u64 (image : list Z) (offset : Z) : option Z :=
  le_decode <$> get_range image offset (offset + 8).

(** [usize::try_from] of a [u64] does not fail on the target. *)
Definition parse_app_image (image : list Z) : outcome ProgramError.t AppLayout :=
  if (Z.of_nat (length image) <? APP_HEADER_SIZE)
    || negb (bool_decide (get_range image 0 8 = Some APP_MAGIC))
  then Err ProgramError.InvalidAppFormat
  else
    version ← ok_or (read_u16 image 8) ProgramError.InvalidAppFormat;
    if negb (version =? APP_VERSION) then Err ProgramError.UnsupportedAppVersion
    else if negb (bool_decide (read_u16 image 10 = Some APP_HEADER_SIZE))
      || negb (bool_decide (read_u32 image 12 = Some 0))
    then Err ProgramError.InvalidAppFormat
    else
      entry_offset ← ok_or (read_u64 image 16) ProgramError.InvalidAppFormat;
      code_len ← ok_or (read_u64 image 24) ProgramError.InvalidAppFormat;
      data_len ← ok_or (read_u64 image 32) ProgramError.InvalidAppFormat;
      bss_len ← ok_or (read_u64 image 40) ProgramError.InvalidAppFormat;
      if code_len =? 0 then Err ProgramError.EmptyImage
      else if code_len <=? entry_offset then Err ProgramError.InvalidAppFormat
      else
        memory_size ← ok_or (size ← checked_add u64_limit code_len data_len;
                             checked_add u64_limit size bss_len) ProgramError.ImageTooLarge;
        if APP_MAX_MEMORY_SIZE <? memory_size then Err ProgramError.ImageTooLarge
        else
          data_offset ← ok_or (checked_add u64_limit APP_HEADER_SIZE code_len)
                          ProgramError.InvalidAppFormat;
          file_size ← ok_or (checked_add u64_limit data_offset data_len)
                        ProgramError.InvalidAppFormat;
          if negb (file_size =? Z.of_nat (length image)) then Err ProgramError.InvalidAppFormat
          else Ok (mk_layout entry_offset code_len data_offset data_len bss_len).

(** ** The argument vector *)

(** [argument.as_bytes().contains(&0)]. *)
Definition contains_nul (s : list Z) : bool := existsb (fun b => b =? 0) s.

(** [arguments.iter().try_fold(initial, ..)]. *)
Fixpoint strings_size (total : Z) (arguments : list (list Z)) : option Z :=
  match arguments with
  | [] => Some total
  | argument :: arguments =>
      total ← checked_add u64_limit total (Z.of_nat (length argument));
      total ← checked_add u64_limit total 1;
      strings_size total arguments
  end.

(** The body of the loop that fills [stack_data]; the state is the buffer and
    [string_offset]. *)
Definition place_argument (stack_start : Z) (item : nat * list Z) :
  Op (list Z * Z) ProgramError.t unit :=
  let '(index, argument) := item in
  '(stack_data, string_offset) ← get;
  string_address ← lift (ok_or (checked_add u64_limit stack_start string_offset)
                           ProgramError.InvalidArguments);
  pointer_offset ← lift (ok_or (checked_mul u64_limit (Z.of_nat index) 8)
                           ProgramError.InvalidArguments);
  stack_data ← lift (copy_at stack_data (Z.to_nat pointer_offset) (le_encode 8 string_address));
  string_end ← lift (ok_or (checked_add u64_limit string_offset (Z.of_nat (length argument)))
                       ProgramError.InvalidArguments);
  stack_data ← lift (copy_at stack_data (Z.to_nat string_offset) argument);
  put (stack_data, string_end + 1).

(** [Iterator::enumerate]. *)
Definition enumerate {A} (l : list A) : list (nat * A) := zip (seq 0 (length l)) l.

(** [reserved] is the result of [try_reserve_exact]. *)
Definition build_argument_vector (reserved : bool) (path : list Z) (arguments : list (list Z)) :
  outcome ProgramError.t (list Z * Z) :=
  if (MAX_PROGRAM_ARGUMENTS <? Z.of_nat (length arguments))
    || contains_nul path || existsb contains_nul arguments
  then Err ProgramError.InvalidArguments
  else
    argument_count ← ok_or (checked_add u64_limit (Z.of_nat (length arguments)) 1)
                       ProgramError.InvalidArguments;
    pointer_bytes ← ok_or (count ← checked_add u64_limit argument_count 1;
                           checked_mul u64_limit count 8) ProgramError.InvalidArguments;
    initial ← ok_or (checked_add u64_limit (Z.of_nat (length path)) 1)
                ProgramError.InvalidArguments;
    strings_bytes ← ok_or (strings_size initial arguments) ProgramError.InvalidArguments;
    if MAX_PROGRAM_ARGUMENT_BYTES <? strings_bytes then Err ProgramError.InvalidArguments
    else
      unaligned_size ← ok_or (checked_add u64_limit pointer_bytes strings_bytes)
                         ProgramError.InvalidArguments;
      total_size ← ok_or (size ← checked_add u64_limit unaligned_size 7; Some (Z.ldiff size 7))
                     ProgramError.InvalidArguments;
      if USER_STACK_SIZE <? total_size then Err ProgramError.InvalidArguments
      else
        stack_start ← ok_or (address ← checked_sub USER_STACK_TOP USER_STACK_ARGUMENT_RESERVE;
                             checked_sub address total_size) ProgramError.InvalidArguments;
        if negb reserved then Err ProgramError.InvalidArguments
        else
          let stack_data := replicate (Z.to_nat total_size) 0 in
          let '((stack_data, _), r) :=
            for_op (enumerate (path :: arguments)) (place_argument stack_start)
              (stack_data, pointer_bytes) in
          _ ← r;
          Ok (stack_data, argument_count).

(** ** Loading *)

(** [count.div_ceil(PAGE_SIZE)]. *)
Definition page_count (n : Z) : Z := (n + PAGE_SIZE - 1) / PAGE_SIZE.

(** Memory behind the frames: [pt_copy a bytes] writes the bytes from physical
    address [a], [pt_byte a] reads one. *)
Class DirectMap (PT : Type) := {
  pt_copy : Z -> list Z -> PT -> PT;
  pt_byte : Z -> PT -> Z;
}.

Section load.
Context {PT : Type} `{Mapper PT} `{DirectMap PT}.
Variable from_start_address : Z -> option Z.
Variable try_new : Z -> option Z.

(** [memory::with_manager(|manager| manager.physical_memory_offset())]. *)
Definition physical_memory_offset : Op (@Memory PT) MemoryError Z := fun mem =>
  (mem, match mem with
        | None => Err NotInitialized
        | Some (Err e) => Err e
        | Some Panic => Panic
        | Some (Ok m) => Ok (mm_offset m)
        end).

(** A copy to [destination], an address of the direct map at [offset]. *)
Definition copy_nonoverlapping {E} (offset destination : Z) (bytes : list Z) :
  Op (@Memory PT) E unit :=
  modify (fun mem =>
    match mem with
    | Some (Ok m) => Some (Ok (set_tables (pt_copy (destination - offset) bytes (mm_tables m)) m))
    | _ => mem
    end).

(** The loop of [copy_to_pages]: [copied] at its end. *)
Fixpoint copy_pages (bytes : list Z) (physical_offset : Z) (pages : list (Z * Z))
  (copied current_address : Z) : Op (@Memory PT) ProgramError.t Z :=
  match pages with
  | [] => mret copied
  | (page_start, frame) :: pages =>
      if copied =? Z.of_nat (length bytes) then mret copied
      else
        let page_end := page_start + PAGE_SIZE in
        if page_end <=? current_address
        then copy_pages bytes physical_offset pages copied current_address
        else if current_address <? page_start
        then fail (ProgramError.AddressSpace UserPageNotMapped)
        else
          let page_offset := current_address - page_start in
          let chunk_len := Z.min (Z.of_nat (length bytes) - copied) (PAGE_SIZE - page_offset) in
          destination ← lift (ok_or (address ← checked_add u64_limit physical_offset frame;
                                     address ← checked_add u64_limit address page_offset;
                                     try_new address) ProgramError.InvalidPhysicalAddress);
          _ ← copy_nonoverlapping physical_offset destination
                (slice bytes (Z.to_nat copied) (Z.to_nat (copied + chunk_len)));
          copy_pages bytes physical_offset pages (copied + chunk_len)
            (current_address + chunk_len)
  end.

Definition copy_to_pages (bytes : list Z) (pages : list (Z * Z))
  (physical_offset destination_start : Z) : Op (@Memory PT) ProgramError.t unit :=
  copied ← copy_pages bytes physical_offset pages 0 destination_start;
  if copied =? Z.of_nat (length bytes) then mret tt else panic.

(** One of the three mapping loops, from page [index] on; [reserve] tells which of
    the allocations of a load succeed. *)
Fixpoint map_segment (reserve : nat -> bool) (base : Z) (access : UserPageAccess)
  (remaining index : nat) : Op (@Memory PT * AddressSpace) ProgramError.t (list (Z * Z)) :=
  match remaining with
  | O => mret []
  | S remaining =>
      address ← lift (expect (try_new (base + Z.of_nat index * PAGE_SIZE)));
      let page := page_down address in
      frame ← map_error ProgramError.AddressSpace
                (map_user_page from_start_address try_new (reserve index) page access);
      pages ← map_segment reserve base access remaining (S index);
      mret ((page, frame) :: pages)
  end.

(** An operation on the memory while an address space is at hand. *)
Definition on_memory {E A} (op : Op (@Memory PT) E A) : Op (@Memory PT * AddressSpace) E A :=
  fun '(mem, space) => let '(mem, r) := op mem in (mem, space, r).

(** The closure of [load_segments]. *)
Definition fill_address_space (reserve : nat -> bool) (code data argument_data : list Z)
  (code_page_count data_page_count stack_page_count : Z)
  (data_start stack_start argument_vector physical_offset : Z) :
  Op (@Memory PT * AddressSpace) ProgramError.t unit :=
  let codes := Z.to_nat code_page_count in
  let datas := Z.to_nat data_page_count in
  code_pages ← map_segment reserve RAW_PROGRAM_BASE ReadExecute codes 0;
  data_pages ← map_segment (fun i => reserve (codes + i)%nat) data_start ReadWrite datas 0;
  stack_pages ← map_segment (fun i => reserve (codes + datas + i)%nat) stack_start ReadWrite
                  (Z.to_nat stack_page_count) 0;
  code_address ← lift (expect (try_new RAW_PROGRAM_BASE));
  _ ← on_memory (copy_to_pages code code_pages physical_offset code_address);
  data_address ← lift (expect (try_new data_start));
  _ ← on_memory (copy_to_pages data data_pages physical_offset data_address);
  on_memory (copy_to_pages argument_data stack_pages physical_offset argument_vector).

(** [op] on a new address space; on an error the address space is destroyed. *)
Definition or_destroy_space (cr3 : Z) (space : AddressSpace)
  (op : Op (@Memory PT * AddressSpace) ProgramError.t unit) :
  Op (@Memory PT) ProgramError.t AddressSpace := fun mem =>
  match op (mem, space) with
  | (mem, space, Ok _) => (mem, Ok space)
  | (mem, space, Err e) =>
      let '(mem, _, r) := destroy try_new cr3 (mem, space) in
      (mem, match r with
            | Ok _ => Err e
            | Err cleanup => Err (ProgramError.AddressSpaceCleanup cleanup)
            | Panic => Panic
            end)
  | (mem, _, Panic) => (mem, Panic)
  end.

(** The sizes and addresses [load_segments] computes before it maps anything. *)
Record Segments := mk_segments {
  sg_code_pages : Z;
  sg_data_pages : Z;
  sg_data_start : Z;
  sg_stack_start : Z;
}.

Definition segment_layout (code data : list Z) (bss_len entry_offset : Z) :
  outcome ProgramError.t Segments :=
  if bool_decide (code = []) then Err ProgramError.EmptyImage
  else
    data_memory_len ← ok_or (checked_add u64_limit (Z.of_nat (length data)) bss_len)
                        ProgramError.ImageTooLarge;
    memory_size ← ok_or (checked_add u64_limit (Z.of_nat (length code)) data_memory_len)
                    ProgramError.ImageTooLarge;
    if APP_MAX_MEMORY_SIZE <? memory_size then Err ProgramError.ImageTooLarge
    else if Z.of_nat (length code) <=? entry_offset then Err ProgramError.InvalidAppFormat
    else
      let code_page_count := page_count (Z.of_nat (length code)) in
      let data_page_count := page_count data_memory_len in
      code_size ← ok_or (checked_mul u64_limit code_page_count PAGE_SIZE) ProgramError.ImageTooLarge;
      data_start ← ok_or (checked_add u64_limit RAW_PROGRAM_BASE code_size)
                     ProgramError.ImageTooLarge;
      data_mapped_size ← ok_or (checked_mul u64_limit data_page_count PAGE_SIZE)
                           ProgramError.ImageTooLarge;
      data_end ← ok_or (checked_add u64_limit data_start data_mapped_size)
                   ProgramError.ImageTooLarge;
      stack_start ← ok_or (checked_sub USER_STACK_TOP USER_STACK_SIZE) ProgramError.ImageTooLarge;
      if saturating_sub stack_start PAGE_SIZE <? data_end then Err ProgramError.ImageTooLarge
      else Ok (mk_segments code_page_count data_page_count data_start stack_start).

(** [reserve i] for [i] below 4: the argument vector and the three page vectors;
    then one per page mapped. *)
Definition load_segments (reserve : nat -> bool) (cr3 : Z) (code data : list Z)
  (bss_len entry_offset : Z) (path : list Z) (arguments : list (list Z)) :
  Op (@Memory PT) ProgramError.t LoadedProgram :=
  sg ← lift (segment_layout code data bss_len entry_offset);
  '(argument_data, argument_count) ← lift (build_argument_vector (reserve 0%nat) path arguments);
  argument_address ← lift (ok_or (address ← checked_sub USER_STACK_TOP USER_STACK_ARGUMENT_RESERVE;
                                  checked_sub address (Z.of_nat (length argument_data)))
                             ProgramError.InvalidArguments);
  argument_vector ← lift (expect (try_new argument_address));
  let stack_page_count := USER_STACK_SIZE / PAGE_SIZE in
  if negb (reserve 1%nat && reserve 2%nat && reserve 3%nat)
  then fail (ProgramError.AddressSpace AsAllocationFailed)
  else
    space ← map_error ProgramError.AddressSpace (create_address_space from_start_address try_new);
    space ← (fun mem =>
      match physical_memory_offset mem with
      | (mem, Ok physical_offset) =>
          or_destroy_space cr3 space
            (fill_address_space (fun i => reserve (4 + i)%nat) code data argument_data
               (sg_code_pages sg) (sg_data_pages sg) stack_page_count
               (sg_data_start sg) (sg_stack_start sg) argument_vector physical_offset) mem
      | (mem, Err e) => or_destroy_space cr3 space (fail (ProgramError.Memory e)) mem
      | (mem, Panic) => (mem, Panic)
      end);
    entry ← lift (expect (try_new (RAW_PROGRAM_BASE + entry_offset)));
    stack ← lift (expect (try_new USER_STACK_TOP));
    data_start ← lift (expect (try_new (sg_data_start sg)));
    mret (mk_program space entry stack argument_count argument_vector
            (if sg_data_pages sg =? 0 then None else Some data_start)).

Definition load_app_image (reserve : nat -> bool) (cr3 : Z) (image path : list Z)
  (arguments : list (list Z)) : Op (@Memory PT) ProgramError.t LoadedProgram :=
  layout ← lift (parse_app_image image);
  data_end ← lift (ok_or (checked_add u64_limit (data_offset layout) (data_len layout))
                     ProgramError.InvalidAppFormat);
  code ← lift (ok_or (get_range image APP_HEADER_SIZE (data_offset layout))
                 ProgramError.InvalidAppFormat);
  data ← lift (ok_or (get_range image (data_offset layout) data_end)
                 ProgramError.InvalidAppFormat);
  load_segments reserve cr3 code data (bss_len layout) (entry_offset layout) path arguments.

Definition load_raw_image (reserve : nat -> bool) (cr3 : Z) (image path : list Z)
  (arguments : list (list Z)) : Op (@Memory PT) ProgramError.t LoadedProgram :=
  if bool_decide (image = []) then fail ProgramError.EmptyImage
  else if RAW_PROGRAM_MAX_SIZE <? Z.of_nat (length image) then fail ProgramError.ImageTooLarge
  else load_segments reserve cr3 image [] 0 0 path arguments.

(** [path.ends_with(suffix)]. *)
Definition ends_with (suffix path : list Z) : bool :=
  bool_decide (drop (length path - length suffix) path = suffix).

Definition DOT_BIN : list Z := [46; 98; 105; 110].
Definition DOT_APP : list Z := [46; 97; 112; 112].

Definition load_image (reserve : nat -> bool) (cr3 : Z) (path image : list Z)
  (arguments : list (list Z)) : Op (@Memory PT) ProgramError.t LoadedProgram :=
  if ends_with DOT_BIN path then load_raw_image reserve cr3 image path arguments
  else if ends_with DOT_APP path then load_app_image reserve cr3 image path arguments
  else fail ProgramError.InvalidExtension.

(** [load_with_arguments]: from the boot archive, which does not change. *)
Definition load_with_arguments (initrd : Mounted) (reserve : nat -> bool) (cr3 : Z)
  (path : list Z) (arguments : list (list Z)) : Op (@Memory PT) ProgramError.t LoadedProgram :=
  if negb (ends_with DOT_BIN path) && negb (ends_with DOT_APP path)
  then fail ProgramError.InvalidExtension
  else
    found ← lift (map_err ProgramError.FileSystem (Tar.read_file initrd path));
    image ← lift (ok_or found ProgramError.FileNotFound);
    load_image reserve cr3 path image arguments.

End load.

(** ** Programs and tasks *)

Section launch.
Context {D : Type} `{FileSystem D Ext2Error.t}.
Context {PT : Type} `{Mapper PT} `{DirectMap PT}.
Variable from_start_address : Z -> option Z.
Variable try_new : Z -> option Z.
Variable trampoline : Z.

(** An operation on the memory with the current [CR3]. *)
Definition in_memory {A} (op : Z -> Op (@Memory PT) ProgramError.t A) :
  Op (Kernel D PT) ProgramError.t A := fun k =>
  let '(mem, r) := op (k_cr3 k) (k_mem k) in (set_mem mem k, r).

Definition ext2_error (e : Ext2Error.t) : ProgramError.t :=
  match e with
  | Ext2Error.FileTooLarge => ProgramError.ImageTooLarge
  | e => ProgramError.Ext2 e
  end.

(** [load_from_ext2_with_arguments]: from the data disk. *)
Definition load_from_ext2_with_arguments (reserve : nat -> bool) (path : list Z)
  (arguments : list (list Z)) : Op (Kernel D PT) ProgramError.t LoadedProgram :=
  max_size ← lift (if ends_with DOT_BIN path then Ok RAW_PROGRAM_MAX_SIZE
                   else if ends_with DOT_APP path
                   then ok_or (checked_add u64_limit APP_HEADER_SIZE APP_MAX_MEMORY_SIZE)
                          ProgramError.ImageTooLarge
                   else Err ProgramError.InvalidExtension);
  found ← on_io (on_disk (fs_read_file_vec path (Z.to_nat max_size)) ext2_error);
  image ← lift (ok_or found ProgramError.FileNotFound);
  in_memory (fun cr3 => load_image from_start_address try_new reserve cr3 path image arguments).

(** [LoadedProgram::spawn_with_fd_mappings_and_closes]; [spawn_with_fd_mappings]
    and [spawn] pass empty slices. *)
Definition spawn_with_fd_mappings_and_closes (stack_base : Z) (self : LoadedProgram)
  (fd_mappings : list FdMapping) (fd_closes : list nat) : Op (Kernel D PT) ProgramError.t Z :=
  map_error ProgramError.Scheduler
    (spawn_user_with_arguments_and_fds try_new trampoline stack_base (lp_address_space self)
       (lp_entry self) (lp_stack self) (lp_argument_count self) (lp_argument_vector self)
       fd_mappings fd_closes).

(** [launch_with_arguments] and [launch_from_ext2_with_arguments]; [launch] and
    [launch_from_ext2] pass no arguments. *)
Definition launch_with_arguments (initrd : Mounted) (reserve : nat -> bool) (stack_base : Z)
  (path : list Z) (arguments : list (list Z)) : Op (Kernel D PT) ProgramError.t Z :=
  program ← in_memory (fun cr3 =>
    load_with_arguments from_start_address try_new initrd reserve cr3 path arguments);
  spawn_with_fd_mappings_and_closes stack_base program [] [].

Definition launch_from_ext2_with_arguments (reserve : nat -> bool) (stack_base : Z)
  (path : list Z) (arguments : list (list Z)) : Op (Kernel D PT) ProgramError.t Z :=
  program ← load_from_ext2_with_arguments reserve path arguments;
  spawn_with_fd_mappings_and_closes stack_base program [] [].

End launch.
