(* ===== verification/ProgramImage.v ===== *)
(** * Program images and argument vectors: properties

    The [.app] parser accepts exactly the images the format describes, and the
    argument vector a new program finds on its stack is the command it was
    started with. *)

From S2P Require Import Prelude FrameAlloc UserRange UserProgram.

Local Open Scope Z_scope.

(** ** The [.app] format *)

Definition app_image (entry bss : Z) (code data : list Z) : list Z :=
  APP_MAGIC ++ le_encode 2 APP_VERSION ++ le_encode 2 APP_HEADER_SIZE ++ le_encode 4 0 ++
  le_encode 8 entry ++ le_encode 8 (Z.of_nat (length code)) ++
  le_encode 8 (Z.of_nat (length data)) ++ le_encode 8 bss ++ code ++ data.

(** What a program may ask for: an entry point in its code, and no more memory than
    a program gets. *)
Definition app_fits (entry bss : Z) (code data : list Z) : Prop :=
  0 <= entry < Z.of_nat (length code) /\ 0 <= bss /\
  Z.of_nat (length code) + Z.of_nat (length data) + bss <= APP_MAX_MEMORY_SIZE.

Definition app_layout (entry bss : Z) (code data : list Z) : AppLayout :=
  mk_layout entry (Z.of_nat (length code)) (APP_HEADER_SIZE + Z.of_nat (length code))
    (Z.of_nat (length data)) bss.

Lemma get_range_mid {A} (p q r : list A) a b :
  a = Z.of_nat (length p) -> b = a + Z.of_nat (length q) -> get_range (p ++ q ++ r) a b = Some q.
Proof.
  intros -> ->. apply get_range_Some. split; [lia|]. split; [len|].
  rewrite <-Nat2Z.inj_add, !Nat2Z.id. by rewrite slice_app_mid.
Qed.

(** A field of a header, read back. *)
Lemma read_field n (p r : list Z) x a b :
  0 <= x < 256 ^ Z.of_nat n -> a = Z.of_nat (length p) -> b = a + Z.of_nat n ->
  le_decode <$> get_range (p ++ le_encode n x ++ r) a b = Some x.
Proof.
  intros Hx Ha Hb. rewrite get_range_mid by (rewrite ?length_le_encode; done).
  simpl. by rewrite le_decode_encode.
Qed.

Lemma length_app_image entry bss code data :
  Z.of_nat (length (app_image entry bss code data)) =
  APP_HEADER_SIZE + Z.of_nat (length code) + Z.of_nat (length data).
Proof. unfold app_image. rewrite !length_app, !length_le_encode. unfold APP_HEADER_SIZE. simpl. lia. Qed.

(** The header of an image, read back. *)
Ltac field n p :=
  apply (read_field n p); [|done..];
  let v := eval vm_compute in (256 ^ Z.of_nat n) in change (256 ^ Z.of_nat n) with v;
  unfold APP_VERSION, APP_HEADER_SIZE, APP_MAX_MEMORY_SIZE in *; lia.

Lemma app_image_fields entry bss code data :
  app_fits entry bss code data ->
  let image := app_image entry bss code data in
  get_range image 0 8 = Some APP_MAGIC /\ read_u16 image 8 = Some APP_VERSION /\
  read_u16 image 10 = Some APP_HEADER_SIZE /\ read_u32 image 12 = Some 0 /\
  read_u64 image 16 = Some entry /\ read_u64 image 24 = Some (Z.of_nat (length code)) /\
  read_u64 image 32 = Some (Z.of_nat (length data)) /\ read_u64 image 40 = Some bss.
Proof.
  intros (He & Hb & Hs). cbv zeta.
  set (h := APP_MAGIC ++ le_encode 2 APP_VERSION ++ le_encode 2 APP_HEADER_SIZE ++ le_encode 4 0).
  set (e := le_encode 8 entry). set (c := le_encode 8 (Z.of_nat (length code))).
  set (d := le_encode 8 (Z.of_nat (length data))).
  split_and!.
  - by apply (get_range_mid [] APP_MAGIC).
  - field 2%nat APP_MAGIC.
  - field 2%nat (APP_MAGIC ++ le_encode 2 APP_VERSION).
  - field 4%nat (APP_MAGIC ++ le_encode 2 APP_VERSION ++ le_encode 2 APP_HEADER_SIZE).
  - field 8%nat h.
  - field 8%nat (h ++ e).
  - field 8%nat (h ++ e ++ c).
  - field 8%nat (h ++ e ++ c ++ d).
Qed.

Lemma parse_app_image_accepts entry bss code data :
  app_fits entry bss code data ->
  parse_app_image (app_image entry bss code data) = Ok (app_layout entry bss code data).
Proof.
  intros Hfit. pose proof (length_app_image entry bss code data) as Hlen.
  destruct (app_image_fields _ _ _ _ Hfit) as (H0 & H8 & H10 & H12 & H16 & H24 & H32 & H40).
  destruct Hfit as (He & Hb & Hs). unfold parse_app_image.
  rewrite H0, H8, H10, H12, H16, H24, H32, H40, Hlen. unfold app_layout.
  unfold APP_MAX_MEMORY_SIZE, APP_HEADER_SIZE, APP_VERSION in *.
  set (C := Z.of_nat (length code)) in *. set (N := Z.of_nat (length data)) in *.
  rewrite (proj2 (Z.ltb_ge _ _)) by lia. rewrite bool_decide_true by done.
  unfold mbind, outcome_bind, option_bind, ok_or, checked_add. cbv beta iota.
  rewrite !bool_decide_true by done. simpl orb. cbv iota.
  change (1 =? 1) with true. simpl negb. cbv iota.
  rewrite (proj2 (Z.eqb_neq C 0)) by lia. rewrite (proj2 (Z.leb_gt C entry)) by lia.
  rewrite (proj2 (Z.ltb_lt (C + N) u64_limit)) by lia.
  rewrite (proj2 (Z.ltb_lt (C + N + bss) u64_limit)) by lia.
  rewrite (proj2 (Z.ltb_ge (64 * 1024) _)) by lia.
  rewrite (proj2 (Z.ltb_lt (48 + C) u64_limit)) by lia.
  rewrite (proj2 (Z.ltb_lt (48 + C + N) u64_limit)) by lia.
  by rewrite Z.eqb_refl.
Qed.

(** A field that is read is the encoding of its value. *)
Lemma read_field_inv n (image : list Z) a x :
  bytes_ok image -> 0 <= a -> le_decode <$> get_range image a (a + Z.of_nat n) = Some x ->
  drop (Z.to_nat a) image = le_encode n x ++ drop (Z.to_nat a + n) image /\
  0 <= x < 256 ^ Z.of_nat n.
Proof.
  intros Hb Ha (l & Hl & ->)%fmap_Some. pose proof (get_range_length _ _ _ _ Hl) as Hlen.
  apply get_range_Some in Hl as (_ & Hle & ->).
  assert (bytes_ok (slice image (Z.to_nat a) (Z.to_nat (a + Z.of_nat n)))) as Hbs
    by (by apply Forall_take, Forall_drop).
  replace (Z.to_nat (a + Z.of_nat n)) with (Z.to_nat a + n)%nat in * by lia.
  assert (length (slice image (Z.to_nat a) (Z.to_nat a + n)) = n) as Hn by lia.
  split.
  - rewrite <-(slice_drop image (Z.to_nat a) (Z.to_nat a + n)) by lia. f_equal.
    pose proof (le_encode_decode _ Hbs) as Hed. by rewrite Hn in Hed.
  - pose proof (le_decode_bound _ Hbs) as Hbd. by rewrite Hn in Hbd.
Qed.

Lemma parse_app_image_sound image layout :
  bytes_ok image -> parse_app_image image = Ok layout ->
  exists entry bss code data, image = app_image entry bss code data /\
    app_fits entry bss code data /\ layout = app_layout entry bss code data.
Proof.
  intros Hb. unfold parse_app_image. destruct (_ || _) eqn:E0; [done|]. bools. intros Hp. ok_inv Hp.
  apply ok_or_Ok_inv in Ha.
  destruct (negb (_ =? _)) eqn:E1; [done|]. destruct (_ || _) eqn:E2; [done|]. bools. ok_inv Hp.
  apply ok_or_Ok_inv in Ha0, Ha1, Ha2, Ha3.
  destruct (a1 =? 0) eqn:E3; [done|]. destruct (a1 <=? a0) eqn:E4; [done|]. ok_inv Hp.
  apply ok_or_Ok_inv, bind_Some in Ha4 as (? & (-> & ?)%checked_add_Some & (-> & ?)%checked_add_Some).
  destruct (_ <? _) eqn:E5; [done|]. ok_inv Hp. apply ok_or_Ok_inv, checked_add_Some in Ha4 as [-> ?].
  apply ok_or_Ok_inv, checked_add_Some in Ha5 as [-> ?].
  destruct (negb _) eqn:E6; [done|]. bools. injection Hp as <-. subst a.
  apply get_range_Some in H0 as (_ & _ & Hmagic).
  apply (read_field_inv 2) in Ha as [F8 _]; [|done..]. apply (read_field_inv 2) in H1 as [F10 _]; [|done..].
  apply (read_field_inv 4) in H2 as [F12 _]; [|done..].
  apply (read_field_inv 8) in Ha0 as [F16 ?]; [|done..]. apply (read_field_inv 8) in Ha1 as [F24 ?]; [|done..].
  apply (read_field_inv 8) in Ha2 as [F32 ?]; [|done..]. apply (read_field_inv 8) in Ha3 as [F40 ?]; [|done..].
  set (code := slice image 48 (48 + Z.to_nat a1)). set (data := drop (48 + Z.to_nat a1) image).
  unfold APP_HEADER_SIZE, APP_MAX_MEMORY_SIZE, app_fits, app_layout in *.
  assert (Z.of_nat (length code) = a1) as Hc by (unfold code; rewrite length_slice; lia).
  assert (Z.of_nat (length data) = a2) as Hd by (unfold data; rewrite length_drop; lia).
  exists a0, a3, code, data. rewrite Hc, Hd. split; [|split; [unfold APP_MAX_MEMORY_SIZE; lia|done]].
  unfold app_image. rewrite Hc, Hd, Hmagic. unfold APP_VERSION, APP_HEADER_SIZE, code, data.
  rewrite slice_drop by lia. etrans; [symmetry; apply (slice_drop image 0 8); lia|]. f_equal.
  etrans; [exact F8|]. f_equal. etrans; [exact F10|]. f_equal. etrans; [exact F12|]. f_equal.
  etrans; [exact F16|]. f_equal. etrans; [exact F24|]. f_equal. etrans; [exact F32|]. f_equal.
  exact F40.
Qed.

(** ** The argument vector *)

(** What the program finds at the address in [rsi]: pointers, a null pointer, the
    strings. *)
Definition argv_address (v : list Z) : Z :=
  USER_STACK_TOP - USER_STACK_ARGUMENT_RESERVE - Z.of_nat (length v).

Definition argv_pointer (v : list Z) (i : nat) : Z := le_decode (slice v (8 * i) (8 * i + 8)).

(** The C string at the head of a list of bytes. *)
Fixpoint until_nul (l : list Z) : list Z :=
  match l with
  | [] => []
  | x :: l => if x =? 0 then [] else x :: until_nul l
  end.

Definition argv_string (v : list Z) (i : nat) : list Z :=
  until_nul (drop (Z.to_nat (argv_pointer v i - argv_address v)) v).

Fixpoint strings (l : list (list Z)) : list Z :=
  match l with
  | [] => []
  | s :: l => s ++ [0] ++ strings l
  end.

Fixpoint pointers (address : Z) (l : list (list Z)) : list Z :=
  match l with
  | [] => []
  | s :: l => le_encode 8 address ++ pointers (address + Z.of_nat (length s) + 1) l
  end.

Definition arguments_ok (path : list Z) (arguments : list (list Z)) : bool :=
  (length arguments <=? 16)%nat && forallb (fun s => negb (contains_nul s)) (path :: arguments)
  && (length (strings (path :: arguments)) <=? 1024)%nat.

Lemma until_nul_app s rest : contains_nul s = false -> until_nul (s ++ 0 :: rest) = s.
Proof.
  induction s as [|x s IH]; simpl; [done|]. intros [Hx Hs]%orb_false_iff.
  rewrite Hx. by rewrite IH.
Qed.

Lemma length_pointers address l : length (pointers address l) = (8 * length l)%nat.
Proof.
  revert address. induction l as [|s l IH]; intros address; [done|].
  cbn [pointers]. rewrite length_app, length_le_encode, IH. simpl. lia.
Qed.

Lemma pointers_app address l k :
  pointers address (l ++ k) =
  pointers address l ++ pointers (address + Z.of_nat (length (strings l))) k.
Proof.
  revert address. induction l as [|s l IH]; intros address; cbn [pointers app strings length].
  { by rewrite Z.add_0_r. }
  rewrite IH, <-app_assoc. do 3 f_equal. len.
Qed.

Lemma strings_app l k : strings (l ++ k) = strings l ++ strings k.
Proof. induction l as [|s l IH]; simpl; [done|]. by rewrite IH, <-app_assoc. Qed.

Lemma strings_size_spec total arguments :
  0 <= total < u64_limit ->
  strings_size total arguments =
    if total + Z.of_nat (length (strings arguments)) <? u64_limit
    then Some (total + Z.of_nat (length (strings arguments))) else None.
Proof.
  revert total. induction arguments as [|s l IH]; intros total Ht; cbn [strings_size strings].
  { cbn [length]. rewrite Z.add_0_r, (proj2 (Z.ltb_lt _ _)) by lia. done. }
  rewrite !length_app. cbn [length]. unfold checked_add, mbind, option_bind.
  destruct (Z.ltb_spec (total + Z.of_nat (length s)) u64_limit) as [H1|H1];
    [|by rewrite (proj2 (Z.ltb_ge _ _)) by lia].
  destruct (Z.ltb_spec (total + Z.of_nat (length s) + 1) u64_limit) as [H2|H2];
    [|by rewrite (proj2 (Z.ltb_ge _ _)) by lia].
  rewrite IH by lia.
  replace (total + Z.of_nat (length s + (1 + length (strings l)))) with
    (total + Z.of_nat (length s) + 1 + Z.of_nat (length (strings l))) by lia. done.
Qed.

Lemma copy_at_mid {E} (p q q' r : list Z) off :
  off = length p -> length q = length q' -> copy_at (E := E) (p ++ q ++ r) off q' = Ok (p ++ q' ++ r).
Proof.
  intros -> Hl. unfold copy_at. rewrite splice_app by done.
  by rewrite (proj2 (Nat.leb_le _ _)) by len.
Qed.

(** The loop: the first [k] arguments are placed, the others go into the zeroed
    rest of the two areas. *)
Lemma place_arguments start l k P Q r :
  length P = (8 * k)%nat ->
  let off := (length P + 8 * (length l + 1) + length Q)%nat in
  0 <= start -> start + Z.of_nat off + Z.of_nat (length (strings l)) < u64_limit ->
  (length (strings l) <= r)%nat ->
  for_op (zip (seq k (length l)) l) (place_argument start)
    (P ++ replicate (8 * (length l + 1)) 0 ++ Q ++ replicate r 0, Z.of_nat off) =
  ((P ++ pointers (start + Z.of_nat off) l ++ replicate 8 0 ++ Q ++ strings l ++
      replicate (r - length (strings l)) 0, Z.of_nat (off + length (strings l))), Ok tt).
Proof.
  revert k P Q r. induction l as [|s l IH]; intros k P Q r Hk off Hs Hlim Hr.
  { cbn -[Z.of_nat replicate]. rewrite Nat.add_0_r, Nat.sub_0_r. done. }
  cbn [strings] in *. rewrite !length_app in *. cbn [length] in *.
  specialize (IH (S k) (P ++ le_encode 8 (start + Z.of_nat off)) (Q ++ s ++ [0])
    (r - length s - 1)%nat). rewrite !length_app, length_le_encode in IH. cbn [length] in IH.
  specialize (IH ltac:(lia) Hs ltac:(lia) ltac:(lia)).
  cbn [length seq zip zip_with for_op]. unfold mbind, op_bind, place_argument at 1.
  unfold mbind, op_bind, get, lift, put. cbv beta iota. fold off.
  unfold checked_add, checked_mul, ok_or.
  rewrite (proj2 (Z.ltb_lt (start + Z.of_nat off) u64_limit)) by lia.
  rewrite (proj2 (Z.ltb_lt (Z.of_nat k * 8) u64_limit)) by lia.
  rewrite (proj2 (Z.ltb_lt (Z.of_nat off + _) u64_limit)) by lia.
  replace (8 * (S (length l) + 1))%nat with (8 + 8 * (length l + 1))%nat by lia.
  rewrite replicate_add, <-(app_assoc (replicate 8 0)).
  rewrite copy_at_mid by (rewrite ?length_le_encode; len).
  replace r with (length s + (1 + (r - length s - 1)))%nat at 1 by lia.
  rewrite (replicate_add (length s)), (replicate_add 1).
  set (e := le_encode 8 (start + Z.of_nat off)) in *.
  replace (P ++ e ++ replicate (8 * (length l + 1)) 0 ++ Q ++ replicate (length s) 0 ++
      replicate 1 0 ++ replicate (r - length s - 1) 0) with
    ((P ++ e ++ replicate (8 * (length l + 1)) 0 ++ Q) ++ replicate (length s) 0 ++
      replicate 1 0 ++ replicate (r - length s - 1) 0) by (by rewrite <-!app_assoc).
  rewrite copy_at_mid by (unfold off, e; rewrite ?length_app, ?length_replicate, ?length_le_encode; lia).
  cbn [replicate]. rewrite <-!app_assoc in *. cbn [app] in *.
  replace (Z.of_nat off + Z.of_nat (length s) + 1) with
    (Z.of_nat (length P + 8 + 8 * (length l + 1) + (length Q + (length s + 1)))) by (unfold off; lia).
  rewrite IH. f_equal. f_equal; [|unfold off; lia]. cbn [pointers]. rewrite <-app_assoc.
  replace (start + Z.of_nat off + Z.of_nat (length s) + 1) with
    (start + Z.of_nat (length P + 8 + 8 * (length l + 1) + (length Q + (length s + 1))))
    by (unfold off; lia).
  replace (r - length s - 1 - length (strings l))%nat with
    (r - (length s + (1 + length (strings l))))%nat by lia. done.
Qed.

Lemma ldiff_7 x : Z.ldiff x 7 = 8 * (x / 8).
Proof.
  change 7 with (Z.ones 3). rewrite Z.ldiff_ones_r, Z.shiftl_mul_pow2, Z.shiftr_div_pow2 by lia.
  change (2 ^ 3) with 8. lia.
Qed.

(** The bytes below the reserve: their number, and the bytes. *)
Definition vector_size (l : list (list Z)) : nat :=
  8 * ((8 * (length l + 1) + length (strings l) + 7) / 8).

Definition argument_bytes (l : list (list Z)) : list Z :=
  pointers (USER_STACK_TOP - USER_STACK_ARGUMENT_RESERVE - Z.of_nat (vector_size l)
            + Z.of_nat (8 * (length l + 1))) l ++
  replicate 8 0 ++ strings l ++
  replicate (vector_size l - 8 * (length l + 1) - length (strings l)) 0.

Lemma vector_size_bounds l :
  (8 * (length l + 1) + length (strings l) <= vector_size l
   < 8 * (length l + 1) + length (strings l) + 8)%nat.
Proof.
  unfold vector_size. set (n := (8 * (length l + 1) + length (strings l))%nat).
  pose proof (Nat.div_mod (n + 7) 8). pose proof (Nat.mod_upper_bound (n + 7) 8). lia.
Qed.

Lemma length_argument_bytes l : length (argument_bytes l) = vector_size l.
Proof.
  unfold argument_bytes. rewrite !length_app, !length_replicate, length_pointers.
  pose proof (vector_size_bounds l). lia.
Qed.

Lemma arguments_ok_spec path arguments :
  (MAX_PROGRAM_ARGUMENTS <? Z.of_nat (length arguments)) || contains_nul path
    || existsb contains_nul arguments =
  negb ((length arguments <=? 16)%nat
    && forallb (fun s => negb (contains_nul s)) (path :: arguments)).
Proof.
  rewrite negb_andb. cbn [forallb]. rewrite negb_andb, negb_involutive, <-orb_assoc. f_equal.
  - unfold MAX_PROGRAM_ARGUMENTS. destruct (Z.ltb_spec 16 (Z.of_nat (length arguments)));
      destruct (Nat.leb_spec (length arguments) 16); simpl; done || lia.
  - f_equal. induction arguments as [|s l IH]; [done|]. cbn [existsb forallb].
    rewrite negb_andb, negb_involutive. by rewrite IH.
Qed.

Lemma build_argument_vector_spec reserved path arguments :
  build_argument_vector reserved path arguments =
  if arguments_ok path arguments && reserved
  then Ok (argument_bytes (path :: arguments), Z.of_nat (length arguments) + 1)
  else Err ProgramError.InvalidArguments.
Proof.
  unfold build_argument_vector, arguments_ok. rewrite arguments_ok_spec.
  destruct (_ && forallb _ _) eqn:Hok; simpl negb; cbv iota; [|done].
  apply andb_true_iff in Hok as [Hn%Nat.leb_le _].
  assert (Z.of_nat (length (strings (path :: arguments))) =
    Z.of_nat (length path) + 1 + Z.of_nat (length (strings arguments))) as Hlen
    by (cbn [strings]; rewrite !length_app; simpl; lia).
  set (l := path :: arguments) in *. pose proof (vector_size_bounds l) as Hv.
  assert (length l = S (length arguments)) as Hl by done.
  unfold mbind, outcome_bind, option_bind, ok_or, checked_add, checked_mul, checked_sub.
  unfold MAX_PROGRAM_ARGUMENT_BYTES, USER_STACK_SIZE, USER_STACK_TOP, USER_STACK_ARGUMENT_RESERVE.
  change USER_SPACE_START with 140187732541440.
  rewrite (proj2 (Z.ltb_lt (Z.of_nat (length arguments) + 1) _)) by lia.
  rewrite (proj2 (Z.ltb_lt (Z.of_nat (length arguments) + 1 + 1) _)) by lia.
  rewrite (proj2 (Z.ltb_lt ((Z.of_nat (length arguments) + 1 + 1) * 8) _)) by lia.
  destruct (Z.ltb_spec (Z.of_nat (length path) + 1) u64_limit) as [Hp|Hp];
    [|by rewrite (proj2 (Nat.leb_gt _ _)) by lia].
  rewrite strings_size_spec by lia. rewrite <-Hlen.
  destruct (Z.ltb_spec (Z.of_nat (length (strings l))) u64_limit) as [Hs|Hs];
    [|by rewrite (proj2 (Nat.leb_gt _ _)) by lia].
  destruct (Z.ltb_spec 1024 (Z.of_nat (length (strings l)))) as [Hb|Hb];
    [by rewrite (proj2 (Nat.leb_gt _ _)) by lia|].
  rewrite (proj2 (Nat.leb_le _ _)) by lia.
  set (u := (Z.of_nat (length arguments) + 1 + 1) * 8 + Z.of_nat (length (strings l))).
  assert (Z.ldiff (u + 7) 7 = Z.of_nat (vector_size l)) as Hu.
  { rewrite ldiff_7. unfold vector_size. rewrite Nat2Z.inj_mul, Nat2Z.inj_div. do 2 f_equal. lia. }
  rewrite (proj2 (Z.ltb_lt u _)) by lia. rewrite (proj2 (Z.ltb_lt (u + 7) _)) by lia. rewrite Hu.
  rewrite (proj2 (Z.ltb_ge (16 * 1024) _)) by lia.
  rewrite !(proj2 (Z.leb_le _ _)) by lia.
  destruct reserved; simpl negb; simpl andb; cbv iota; [|done]. rewrite Nat2Z.id.
  set (start := 140187732541440 + 2097152 - 256 - Z.of_nat (vector_size l)).
  pose proof (place_arguments start l 0 [] [] (vector_size l - 8 * (length l + 1)) eq_refl) as Hpl.
  cbn [length app] in Hpl. rewrite Nat.add_0_r, Nat.add_0_l in Hpl. rewrite <-replicate_add in Hpl.
  replace (8 * (length l + 1) + (vector_size l - 8 * (length l + 1)))%nat with (vector_size l) in Hpl by lia.
  replace (Z.of_nat (8 * (length l + 1))) with ((Z.of_nat (length arguments) + 1 + 1) * 8) in Hpl by lia.
  unfold enumerate. rewrite Hpl by lia. f_equal. f_equal. unfold argument_bytes. f_equal. f_equal.
  change (USER_STACK_TOP - USER_STACK_ARGUMENT_RESERVE) with (140187732541440 + 2097152 - 256). lia.
Qed.

(** An argument and its pointer. *)
Lemma argument_bytes_lookup (l : list (list Z)) (i : nat) (s : list Z) :
  l !! i = Some s -> forallb (fun s => negb (contains_nul s)) l = true ->
  Z.of_nat (vector_size l) <= USER_STACK_SIZE ->
  let v := argument_bytes l in
  argv_address v <= argv_pointer v i /\
  argv_pointer v i + Z.of_nat (length s) < argv_address v + Z.of_nat (length v) /\
  argv_string v i = s.
Proof.
  intros Hi Hnul Hsize v.
  assert (argv_address v = USER_STACK_TOP - USER_STACK_ARGUMENT_RESERVE - Z.of_nat (vector_size l)) as Ha
    by (unfold argv_address, v; by rewrite length_argument_bytes).
  assert (contains_nul s = false) as Hs.
  { apply negb_true_iff. rewrite forallb_forall in Hnul. apply Hnul.
    apply list_elem_of_In. by eapply list_elem_of_lookup_2. }
  apply list_elem_of_split_length in Hi as (l1 & l2 & -> & ->).
  set (l := l1 ++ s :: l2) in *. pose proof (vector_size_bounds l) as Hv.
  assert (length (strings l) = length (strings l1) + length s + 1 + length (strings l2))%nat as Hls.
  { unfold l. rewrite strings_app, length_app. cbn [strings]. rewrite !length_app. simpl. lia. }
  set (off := (8 * (length l + 1) + length (strings l1))%nat).
  assert (argv_pointer v (length l1) = argv_address v + Z.of_nat off) as Hptr.
  { unfold argv_pointer. rewrite Ha. unfold v, argument_bytes.
    set (A := USER_STACK_TOP - _ - _ + Z.of_nat _).
    change (pointers A l) with (pointers A (l1 ++ s :: l2)). rewrite pointers_app. cbn [pointers]. rewrite <-!app_assoc.
    rewrite <-(length_pointers A l1).
    replace 8%nat with (length (le_encode 8 (A + Z.of_nat (length (strings l1))))) at 1
      by apply length_le_encode.
    rewrite slice_app_mid, le_decode_encode; [unfold A, off; lia|].
    rewrite length_le_encode. change (256 ^ Z.of_nat 8) with u64_limit. unfold A, USER_STACK_SIZE in *.
    change (USER_STACK_TOP - USER_STACK_ARGUMENT_RESERVE) with 140187734638336. lia. }
  rewrite Hptr. split; [lia|]. split.
  { unfold v. rewrite length_argument_bytes. unfold off. lia. }
  unfold argv_string. rewrite Hptr. replace (argv_address v + Z.of_nat off - argv_address v) with (Z.of_nat off) by lia.
  rewrite Nat2Z.id. unfold v, argument_bytes. change (strings l) with (strings (l1 ++ s :: l2)) at 1.
  rewrite strings_app. cbn [strings].
  set (A := USER_STACK_TOP - _ - _ + Z.of_nat _). set (r := (vector_size l - _ - _)%nat).
  replace (pointers A l ++ replicate 8 0 ++ (strings l1 ++ s ++ [0] ++ strings l2) ++ replicate r 0)
    with ((pointers A l ++ replicate 8 0 ++ strings l1) ++ s ++ 0 :: strings l2 ++ replicate r 0)
    by (by rewrite <-!app_assoc).
  rewrite drop_app_length'; [by apply until_nul_app|].
  rewrite !length_app, length_replicate, length_pointers. unfold off. lia.
Qed.

(** The null pointer after the arguments. *)
Lemma argument_bytes_null l : argv_pointer (argument_bytes l) (length l) = 0.
Proof.
  unfold argv_pointer, argument_bytes. set (A := USER_STACK_TOP - _ - _ + Z.of_nat _).
  rewrite <-(length_pointers A l). replace 8%nat with (length (replicate 8 0)) at 1 by done.
  by rewrite slice_app_mid.
Qed.

(** A vector fits below the reserve of the stack. *)
Lemma build_argument_vector_size reserved path arguments v argc :
  build_argument_vector reserved path arguments = Ok (v, argc) ->
  reserved = true /\ Z.of_nat (length v) <= USER_STACK_SIZE - PAGE_SIZE.
Proof.
  rewrite build_argument_vector_spec. destruct (_ && reserved) eqn:Hok; [|done].
  apply andb_true_iff in Hok as [Hok ->]. intros [= <- <-]. split; [done|].
  unfold arguments_ok in Hok. apply andb_true_iff in Hok as [Hok Hb%Nat.leb_le].
  apply andb_true_iff in Hok as [Hn%Nat.leb_le _].
  pose proof (vector_size_bounds (path :: arguments)) as Hv. cbn [length] in Hv.
  rewrite length_argument_bytes. unfold USER_STACK_SIZE. lia.
Qed.

(** ** Properties *)

(** C33: The [.app] parser is total and accepts exactly the images of the format: the
    48-byte header with its magic, version and sizes, then the code and the
    initialised data and nothing else, with the entry point in the code and no
    more memory than a program gets; the layout it returns is the one encoded. *)
Theorem parse_app_image_exact image :
  bytes_ok image ->
  parse_app_image image <> Panic /\
  forall layout, parse_app_image image = Ok layout <->
    exists entry bss code data, image = app_image entry bss code data /\
      app_fits entry bss code data /\ layout = app_layout entry bss code data.
Proof.
  intros Hb. split.
  - unfold parse_app_image.
    repeat first [done | apply bind_safe; [apply ok_or_safe|intros ? _] | case_match].
  - intros layout. split; [by apply parse_app_image_sound|].
    intros (entry & bss & code & data & -> & Hfit & ->). by apply parse_app_image_accepts.
Qed.

Definition example_code : list Z := [144; 235; 253].

Lemma parse_app_image_exact_witness :
  parse_app_image (app_image 1 4096 example_code [7]) = Ok (app_layout 1 4096 example_code [7]).
Proof.
  apply parse_app_image_exact.
  - apply (bool_decide_unpack _). by vm_compute.
  - exists 1, 4096, example_code, [7]. split; [done|]. split; [|done].
    unfold app_fits, APP_MAX_MEMORY_SIZE. simpl. lia.
Defined.

(** A new program finds the command it was started with: its argument vector
    is 8-aligned, holds a pointer per argument, the path first, and then a null
    pointer, each pointer leads to the bytes of its argument, terminated by NUL,
    inside the vector.  More than 16 arguments, an embedded NUL or more than 1024
    bytes of strings are refused, as is an allocation that fails. *)
Theorem argument_vector_exact reserved path arguments :
  match build_argument_vector reserved path arguments with
  | Ok (v, argc) =>
      arguments_ok path arguments = true /\ argc = Z.of_nat (length arguments) + 1 /\
      argv_address v mod 8 = 0 /\ Z.of_nat (length v) <= USER_STACK_SIZE - PAGE_SIZE /\
      argv_pointer v (Z.to_nat argc) = 0 /\
      forall i s, (path :: arguments) !! i = Some s ->
        argv_address v <= argv_pointer v i /\
        argv_pointer v i + Z.of_nat (length s) < argv_address v + Z.of_nat (length v) /\
        argv_string v i = s
  | Err e => e = ProgramError.InvalidArguments /\ arguments_ok path arguments && reserved = false
  | Panic => False
  end.
Proof.
  rewrite build_argument_vector_spec. destruct (_ && reserved) eqn:Hok; [|done].
  apply andb_true_iff in Hok as [Hok _]. split; [done|]. split; [done|].
  unfold arguments_ok in Hok. apply andb_true_iff in Hok as [Hok Hb%Nat.leb_le].
  apply andb_true_iff in Hok as [Hn%Nat.leb_le Hnul].
  pose proof (vector_size_bounds (path :: arguments)) as Hv. cbn [length] in Hv.
  split; [|split; [|split]].
  - unfold argv_address. rewrite length_argument_bytes. unfold vector_size, USER_STACK_TOP, USER_STACK_ARGUMENT_RESERVE.
    rewrite Nat2Z.inj_mul. change USER_SPACE_START with (8 * 17523466567680).
    set (q := (_ / 8)%nat). rewrite <-(Z.mod_add _ (Z.of_nat q) 8) by lia.
    replace (_ + _ * 8) with ((17523466567680 + 262144 - 32) * 8) by lia. by rewrite Z.mod_mul.
  - rewrite length_argument_bytes. unfold USER_STACK_SIZE. lia.
  - replace (Z.to_nat _) with (length (path :: arguments)) by (cbn [length]; lia).
    apply argument_bytes_null.
  - intros i s Hi. apply argument_bytes_lookup; [done|done|]. unfold USER_STACK_SIZE. lia.
Qed.
