(* ===== verification/ProgramLoad.v ===== *)
(** * Loaded programs: properties

    The memory a new program starts with: each of its pages is mapped, to a frame
    of its own, with the bytes of the image. *)

From S2P Require Import Prelude FrameAlloc UserRange Paging Scheduler UserProgram ProgramImage.

Local Open Scope Z_scope.

(** ** Physical memory and page tables

    What the loader relies on: bytes written to a frame are read back, page tables
    are in frames of their own ([pt_table]), taken from the allocator, and
    [map_to] changes nothing but page tables and the translation of its page. *)
Class DirectMapLaws (PT : Type) `{MapperLaws PT} `{DirectMap PT} := {
  pt_table : Z -> PT -> Prop;
  zero_byte : forall f x t, f mod PAGE_SIZE = 0 ->
    pt_byte x (pt_zero_frame f t) = if page_down x =? f then 0 else pt_byte x t;
  zero_table : forall f g t, ~ pt_table f t -> pt_table g (pt_zero_frame f t) -> pt_table g t;
  zero_translate : forall f root page t, ~ pt_table f t ->
    pt_translate root page (pt_zero_frame f t) = pt_translate root page t;
  copy_byte : forall a bytes x t,
    pt_byte x (pt_copy a bytes t) =
      if (a <=? x) && (x <? a + Z.of_nat (length bytes))
      then default 0 (bytes !! Z.to_nat (x - a)) else pt_byte x t;
  copy_table : forall a bytes g t,
    (forall x, a <= x < a + Z.of_nat (length bytes) -> ~ pt_table (page_down x) t) ->
    pt_table g (pt_copy a bytes t) -> pt_table g t;
  copy_translate : forall a bytes root page t,
    (forall x, a <= x < a + Z.of_nat (length bytes) -> ~ pt_table (page_down x) t) ->
    pt_translate root page (pt_copy a bytes t) = pt_translate root page t;
  map_translate : forall root page frame flags t a t' a' other,
    page mod PAGE_SIZE = 0 -> other mod PAGE_SIZE = 0 ->
    pt_map_to root page frame flags t a = (t', a', Ok tt) ->
    pt_translate root other t' = if other =? page then Some frame else pt_translate root other t;
  map_byte : forall root page frame flags t a t' a' r x,
    pt_map_to root page frame flags t a = (t', a', r) ->
    ~ pt_table (page_down x) t -> page_down x ∉ pool a -> pt_byte x t' = pt_byte x t;
  map_table : forall root page frame flags t a t' a' r g,
    pt_map_to root page frame flags t a = (t', a', r) -> pt_table g t' ->
    pt_table g t \/ (g ∈ pool a /\ g ∉ pool a');
  clear_table_table : forall root g t, pt_table g (pt_clear_table root t) -> pt_table g t \/ g = root;
  set_level4_table : forall root index entry g t,
    pt_table g (pt_set_level4 root index entry t) -> pt_table g t;
}.

Section image.
Context {PT : Type} `{DirectMapLaws PT}.
Variable from_start_address : Z -> option Z.
Variable try_new : Z -> option Z.
Hypothesis from_start_address_aligned : forall address,
  0 <= address < 2 ^ 52 -> address mod PAGE_SIZE = 0 -> from_start_address address = Some address.
Hypothesis try_new_same : forall address v, try_new address = Some v -> v = address.

(** The allocator's frames are page frames, each once, and none is a page table;
    [FrameAlloc] proves the first two of every run. *)
Definition frames_free (m : MemoryManager PT) : Prop :=
  allocator_ok (mm_allocator m) /\ NoDup (pool (mm_allocator m)) /\
  Forall (fun f => f mod PAGE_SIZE = 0) (pool (mm_allocator m)) /\
  forall f, f ∈ pool (mm_allocator m) -> ~ pt_table f (mm_tables m).

(** A page that is mapped to a frame of its own. *)
Definition page_mapped (m : MemoryManager PT) (r : Z) (p : Z * Z) : Prop :=
  p.2 mod PAGE_SIZE = 0 /\ (p.2 ∉ pool (mm_allocator m)) /\ ~ pt_table p.2 (mm_tables m) /\
  pt_translate r p.1 (mm_tables m) = Some p.2.

Definition page_zero (m : MemoryManager PT) (p : Z * Z) : Prop :=
  forall i, 0 <= i < PAGE_SIZE -> pt_byte (p.2 + i) (mm_tables m) = 0.

(** The state between two mappings. *)
Record filling (m : MemoryManager PT) (space : AddressSpace) (r : Z) (done : list (Z * Z)) : Prop := {
  fl_free : frames_free m;
  fl_root : root space = Some r;
  fl_pages : done.*1 = (user_pages space).*1;
  fl_aligned : Forall (fun p => p.1 mod PAGE_SIZE = 0) done;
  fl_distinct : NoDup done.*1;
  fl_frames : NoDup done.*2;
  fl_mapped : Forall (page_mapped m r) done;
  fl_zero : Forall (page_zero m) done;
}.

(** A successful mapping: the frame comes from the allocator and is zeroed. *)
Lemma mm_map_user_page_Ok r page access (m m' : MemoryManager PT) f :
  allocator_ok (mm_allocator m) ->
  mm_map_user_page from_start_address try_new r page access m = (m', Ok f) ->
  exists a, allocator_ok a /\ pool (mm_allocator m) = f :: pool a /\
    pt_map_to r page f (access_flags access) (pt_zero_frame f (mm_tables m)) a
      = (mm_tables m', mm_allocator m', Ok tt) /\ mm_offset m' = mm_offset m.
Proof.
  intros Ha E. unfold mm_map_user_page in E. unfold mbind at 1, op_bind at 1 in E.
  unfold allocate_frame in E.
  destruct (next_usable_frame_spec _ from_start_address_aligned _ Ha) as (b & Eb & Hp & Hb & _ & _).
  rewrite Eb in E. destruct (pool (mm_allocator m)) as [|g l] eqn:Hpool; [done|].
  unfold mbind, op_bind, fail, mret, op_ret, assert_reclaim in E.
  cbn [head lift ok_or get modify] in E.
  destruct (physical_to_virtual try_new _ g); [|by destruct (reclaim_frame _ _) as [? []]].
  destruct (physical_to_virtual try_new _ r); [|by destruct (reclaim_frame _ _) as [? []]].
  unfold map_or_clean_up, map_to_at in E. simpl in E.
  destruct (pt_map_to _ _ _ _ _ _) as [[t2 a2] r2] eqn:Em.
  destruct r2 as [[]|e|]; simpl in E; [| |done].
  - simplify_eq. exists b. split; [done|]. split; [by rewrite Hp|]. split; [exact Em|done].
  - unfold mbind, op_bind, clean_up_at in E. destruct (pt_clean_up _ _ _ _) as [[? ?] [[]|?|]]; simpl in E; try done.
    destruct (reclaim_frame _ _) as [? []]; simpl in E; done.
Qed.

(** One mapping, in terms of the memory before and after. *)
Section mapping.
Variables (r page f flags : Z) (m m' : MemoryManager PT) (a : Allocator).
Hypothesis page_aligned : page mod PAGE_SIZE = 0.
Hypothesis before_free : frames_free m.
Hypothesis a_ok : allocator_ok a.
Hypothesis taken_first : pool (mm_allocator m) = f :: pool a.
Hypothesis mapping : pt_map_to r page f flags (pt_zero_frame f (mm_tables m)) a
  = (mm_tables m', mm_allocator m', Ok tt).

Lemma pool_after : exists taken, pool a = taken ++ pool (mm_allocator m').
Proof. destruct (map_to_frames _ _ _ _ _ _ _ _ _ a_ok mapping) as (_ & _ & taken & ? & _). eauto. Qed.

Lemma frame_taken :
  f mod PAGE_SIZE = 0 /\ (f ∉ pool a) /\ ~ pt_table f (mm_tables m).
Proof.
  destruct before_free as (_ & Hnd & Hal & Hfree). rewrite taken_first in Hnd, Hal.
  split; [by inversion_clear Hal|]. split; [by inversion_clear Hnd|]. apply Hfree. rewrite taken_first. left.
Qed.

(** A frame that is neither free nor a page table is not touched. *)
Lemma other_frame g :
  g ∉ pool a -> ~ pt_table g (mm_tables m) ->
  (g ∉ pool (mm_allocator m')) /\ ~ pt_table g (mm_tables m') /\
  (forall i, 0 <= i < PAGE_SIZE -> g mod PAGE_SIZE = 0 ->
     pt_byte (g + i) (mm_tables m') = if g =? f then 0 else pt_byte (g + i) (mm_tables m)).
Proof.
  destruct frame_taken as (Hfa & Hfp & Hft). destruct pool_after as [taken Hpool].
  intros Hg Hgt. assert (~ pt_table g (pt_zero_frame f (mm_tables m))) as Hgz by (by intros ?%zero_table).
  split; [|split].
  - rewrite Hpool in Hg. intros ?. apply Hg, elem_of_app. by right.
  - intros [?|[? _]]%(map_table _ _ _ _ _ _ _ _ _ _ mapping); done.
  - intros i Hi Hga. assert (page_down (g + i) = g) as Hpd by (apply page_down_unique; [done|lia]).
    rewrite (map_byte _ _ _ _ _ _ _ _ _ _ mapping) by (by rewrite Hpd).
    rewrite zero_byte by done. by rewrite Hpd.
Qed.

Lemma frames_free_after : frames_free m'.
Proof.
  destruct before_free as (_ & Hnd & Hal & Hfree). destruct pool_after as [taken Hpool].
  destruct frame_taken as (Hfa & Hfp & Hft). rewrite taken_first, Hpool in Hnd, Hal, Hfree.
  split; [by destruct (map_to_frames _ _ _ _ _ _ _ _ _ a_ok mapping) as (_ & ? & _)|].
  apply NoDup_cons in Hnd as [_ (_ & _ & Hnd)%NoDup_app].
  apply Forall_cons in Hal as [_ [_ Hal]%Forall_app]. split; [done|]. split; [done|].
  intros g Hg [Ht|[_ ?]]%(map_table _ _ _ _ _ _ _ _ _ _ mapping); [|done].
  apply zero_table in Ht; [|done]. apply (Hfree g); [|done].
  apply elem_of_cons. right. apply elem_of_app. by right.
Qed.

Lemma page_mapped_new : page_mapped m' r (page, f) /\ page_zero m' (page, f).
Proof.
  destruct frame_taken as (Hfa & Hfp & Hft). destruct (other_frame f Hfp Hft) as (Hn & Ht & Hb).
  split; [split_and!; [done|done|done|]|].
  - simpl. rewrite (map_translate _ _ _ _ _ _ _ _ page page_aligned page_aligned mapping).
    by rewrite Z.eqb_refl.
  - intros i Hi. simpl. rewrite Hb by done. by rewrite Z.eqb_refl.
Qed.

Lemma page_mapped_kept p :
  p.1 mod PAGE_SIZE = 0 -> p.1 <> page -> page_mapped m r p ->
  page_mapped m' r p /\ (page_zero m p -> page_zero m' p).
Proof.
  intros Hp Hne (Hf & Hnp & Hnt & Htr). destruct frame_taken as (Hfa & Hfp & Hft).
  rewrite taken_first in Hnp. apply not_elem_of_cons in Hnp as [Hnf Hnp].
  destruct (other_frame p.2 Hnp Hnt) as (Hn & Ht & Hb).
  split; [split_and!; [done|done|done|]|].
  - rewrite (map_translate _ _ _ _ _ _ _ _ p.1 page_aligned Hp mapping).
    rewrite (proj2 (Z.eqb_neq _ _)) by done. by rewrite zero_translate.
  - intros Hz i Hi. rewrite Hb by done. rewrite (proj2 (Z.eqb_neq _ _)) by done. by apply Hz.
Qed.

End mapping.

Lemma map_user_page_filling reserved page access m space r done mem' space' f :
  page mod PAGE_SIZE = 0 -> filling m space r done ->
  map_user_page from_start_address try_new reserved page access (Some (Ok m), space)
    = (mem', space', Ok f) ->
  exists m', mem' = Some (Ok m') /\ filling m' space' r (done ++ [(page, f)]) /\
    user_pages space' = user_pages space ++ [(page, access)] /\ mm_offset m' = mm_offset m.
Proof.
  intros Hpg [Hfree Hroot Hpages Hal Hdis Hnd Hmap Hz] E.
  pose proof (map_user_page_pages _ _ _ _ _ _ _ _ _ _ E) as (Hr' & Hpages' & _ & Hnew).
  unfold map_user_page in E. rewrite Hroot in E.
  destruct (negb (p4_index page =? _)); [done|]. destruct (existsb _ _); [done|].
  destruct (negb reserved); [done|]. unfold with_manager in E.
  destruct (mm_map_user_page _ _ _ _ _ m) as [m' res] eqn:Emm.
  destruct res as [f'|e|]; simpl map_err in E; cbv iota in E; [|done|done]. injection E as <- <- <-.
  destruct (mm_map_user_page_Ok _ _ _ _ _ _ (proj1 Hfree) Emm) as (a & Ha & Hpool & Emap & Hoff).
  exists m'. split; [done|]. split; [|done].
  destruct (page_mapped_new _ _ _ _ _ _ _ Hpg Hfree Ha Hpool Emap) as [Hnm Hnz].
  assert (forall p, p ∈ done -> page_mapped m' r p /\ page_zero m' p) as Hkeep.
  { intros p Hp. rewrite Forall_forall in Hal, Hmap, Hz.
    destruct (page_mapped_kept _ _ _ _ _ _ _ Hpg Hfree Ha Hpool Emap p) as [? ?]; auto.
    intros <-. apply Hnew. rewrite <-Hpages. by apply list_elem_of_fmap_2. }
  split; simpl.
  - by eapply frames_free_after.
  - done.
  - by rewrite !fmap_app, Hpages.
  - apply Forall_app. split; [done|]. by apply Forall_singleton.
  - rewrite fmap_app. apply NoDup_app. split_and!; [done| |apply NoDup_singleton].
    intros q Hq ->%list_elem_of_singleton. apply Hnew. by rewrite <-Hpages.
  - rewrite fmap_app. apply NoDup_app. split_and!; [done| |apply NoDup_singleton].
    intros g Hg ->%list_elem_of_singleton. apply list_elem_of_fmap in Hg as (p & Hpf & Hp).
    rewrite Forall_forall in Hmap. destruct (Hmap p Hp) as (_ & Hn & _). apply Hn.
    rewrite Hpool, <-Hpf. left.
  - apply Forall_app. split; [|by apply Forall_singleton]. apply Forall_forall. intros p Hp. by apply Hkeep.
  - apply Forall_app. split; [|by apply Forall_singleton]. apply Forall_forall. intros p Hp. by apply Hkeep.
Qed.

(** The pages of a segment, one after the other. *)
Fixpoint chain (base : Z) (pages : list (Z * Z)) : Prop :=
  match pages with
  | [] => True
  | p :: pages => p.1 = base /\ chain (base + PAGE_SIZE) pages
  end.

Lemma map_segment_filling reserve base access n index m space r done mem' space' pages :
  base mod PAGE_SIZE = 0 -> filling m space r done ->
  map_segment from_start_address try_new reserve base access n index (Some (Ok m), space)
    = (mem', space', Ok pages) ->
  exists m', mem' = Some (Ok m') /\ filling m' space' r (done ++ pages) /\
    chain (base + Z.of_nat index * PAGE_SIZE) pages /\ length pages = n /\
    user_pages space' = user_pages space ++ ((fun p => (p.1, access)) <$> pages) /\
    mm_offset m' = mm_offset m.
Proof.
  intros Hb. revert index m space done pages.
  induction n as [|n IH]; intros index m space done pages Hfill E; cbn [map_segment] in E.
  { unfold mret, op_ret in E. simplify_eq. exists m. rewrite !app_nil_r. by split_and!. }
  unfold mbind, op_bind, lift, mret, op_ret in E.
  destruct (try_new _) as [v|] eqn:Ev; [|done]. apply try_new_same in Ev as ->. cbn [expect] in E.
  set (address := base + Z.of_nat index * PAGE_SIZE) in *.
  assert (address mod PAGE_SIZE = 0) as Hal by (unfold address; by rewrite Z.mod_add).
  rewrite page_down_id in E by done. unfold map_error in E.
  destruct (map_user_page _ _ _ _ _ _) as [[mem1 space1] [f|e|]] eqn:E1; simpl in E; [|done|done].
  destruct (map_user_page_filling _ _ _ _ _ _ _ _ _ _ Hal Hfill E1) as (m1 & -> & Hfill1 & Hp1 & Ho1).
  destruct (map_segment _ _ _ _ _ _ _ _) as [[mem2 space2] [rest|e|]] eqn:E2; simplify_eq.
  destruct (IH _ _ _ _ _ Hfill1 E2) as (m2 & -> & Hfill2 & Hch & Hlen & Hp2 & Ho2).
  exists m2. rewrite <-app_assoc in Hfill2. split_and!; [done|done| |simpl; lia| |congruence].
  - simpl. split; [done|]. unfold address.
    replace (base + Z.of_nat index * PAGE_SIZE + PAGE_SIZE) with (base + Z.of_nat (S index) * PAGE_SIZE) by lia.
    done.
  - rewrite Hp2, Hp1, <-app_assoc. done.
Qed.

Lemma chain_ge base pages p : chain base pages -> p ∈ pages -> base <= p.1.
Proof.
  revert base. induction pages as [|q pages IH]; intros base; [by intros _ ?%not_elem_of_nil|].
  intros [Hq Hch] [->|Hp]%elem_of_cons; [lia|]. specialize (IH _ Hch Hp). lia.
Qed.

(** What copying [bytes] from index [copied] to [current] on changes: the bytes of
    the pages in that range, up to index [n]. *)
Record copied_bytes (bytes : list Z) (pages : list (Z * Z)) (copied current n : Z) (t t' : PT) : Prop := {
  cb_table : forall g, pt_table g t' -> pt_table g t;
  cb_translate : forall r p, pt_translate r p t' = pt_translate r p t;
  cb_other : forall x, page_down x ∉ pages.*2 -> pt_byte x t' = pt_byte x t;
  cb_byte : forall p i, p ∈ pages -> 0 <= i < PAGE_SIZE ->
    pt_byte (p.2 + i) t' =
      if (current <=? p.1 + i) && (p.1 + i <? current + (n - copied))
      then default 0 (bytes !! Z.to_nat (p.1 + i - current + copied)) else pt_byte (p.2 + i) t;
}.

Lemma copied_nothing bytes pages copied current t : copied_bytes bytes pages copied current copied t t.
Proof.
  split; [done..|]. intros p i Hp Hi. destruct (_ && _) eqn:E; [|done]. bools. lia.
Qed.

(** A chunk within one frame. *)
Lemma pt_copy_chunk f off bytes t :
  f mod PAGE_SIZE = 0 -> 0 <= off -> off + Z.of_nat (length bytes) <= PAGE_SIZE -> ~ pt_table f t ->
  (forall g, pt_table g (pt_copy (f + off) bytes t) -> pt_table g t) /\
  (forall r p, pt_translate r p (pt_copy (f + off) bytes t) = pt_translate r p t) /\
  (forall x, page_down x <> f -> pt_byte x (pt_copy (f + off) bytes t) = pt_byte x t).
Proof.
  intros Hf Ho Hl Ht.
  assert (forall x, f + off <= x < f + off + Z.of_nat (length bytes) -> page_down x = f) as Hpd
    by (intros x Hx; apply page_down_unique; [done|lia]).
  assert (forall x, f + off <= x < f + off + Z.of_nat (length bytes) -> ~ pt_table (page_down x) t) as Hnt
    by (intros x Hx; by rewrite Hpd).
  split_and!.
  - intros g. by apply copy_table.
  - intros r p. by apply copy_translate.
  - intros x Hx. rewrite copy_byte. destruct (_ && _) eqn:E; [|done]. bools. destruct Hx. by apply Hpd.
Qed.

(** A chunk in the first page, then the others. *)
Lemma copied_chunk bytes page f pages base copied current chunk n t t' :
  page = base -> f mod PAGE_SIZE = 0 -> chain (base + PAGE_SIZE) pages -> f ∉ pages.*2 ->
  Forall (fun p => p.2 mod PAGE_SIZE = 0) pages -> ~ pt_table f t ->
  0 <= copied -> base <= current < base + PAGE_SIZE ->
  chunk = Z.min (Z.of_nat (length bytes) - copied) (base + PAGE_SIZE - current) -> 0 < chunk ->
  copied + chunk <= n <= Z.of_nat (length bytes) ->
  copied_bytes bytes pages (copied + chunk) (current + chunk) n
    (pt_copy (f + (current - base)) (slice bytes (Z.to_nat copied) (Z.to_nat (copied + chunk))) t) t' ->
  copied_bytes bytes ((page, f) :: pages) copied current n t t'.
Proof.
  intros -> Hf Hch Hnf Hal Ht Hc Hcur Hchunk Hpos Hn [Htb Htr Hot Hby].
  set (s := slice bytes (Z.to_nat copied) (Z.to_nat (copied + chunk))) in *.
  assert (Z.of_nat (length s) = chunk) as Hs by (unfold s; rewrite length_slice; lia).
  destruct (pt_copy_chunk f (current - base) s t) as (Ctb & Ctr & Cot); [done|lia|lia|done|].
  split.
  - auto.
  - intros r p. by rewrite Htr, Ctr.
  - intros x Hx. cbn in Hx. apply not_elem_of_cons in Hx as [Hx Hxs]. rewrite Hot by done. by apply Cot.
  - intros p i [->|Hp]%elem_of_cons Hi; cbn [fst snd].
    + assert (page_down (f + i) = f) as Hpd by (apply page_down_unique; [done|lia]).
      rewrite Hot, copy_byte by (by rewrite Hpd). rewrite Hs.
      destruct (Z.leb_spec current (base + i)) as [H1'|H1'], (Z.ltb_spec (base + i) (current + (n - copied))) as [H2'|H2'];
        destruct (Z.leb_spec (f + (current - base)) (f + i)) as [H3'|H3'],
          (Z.ltb_spec (f + i) (f + (current - base) + chunk)) as [H4'|H4']; cbn [andb]; try lia; try done.
      f_equal. unfold s. rewrite lookup_slice by lia. f_equal. lia.
    + rewrite Hby by done. pose proof (chain_ge _ _ _ Hch Hp) as Hge.
      rewrite Forall_forall in Hal. specialize (Hal p Hp).
      assert (page_down (p.2 + i) = p.2) as Hpd by (apply page_down_unique; [done|lia]).
      rewrite Cot.
      2: { rewrite Hpd. intros <-. apply Hnf. by apply list_elem_of_fmap_2. }
      replace (current + chunk + (n - (copied + chunk))) with (current + (n - copied)) by lia.
      replace (p.1 + i - (current + chunk) + (copied + chunk)) with (p.1 + i - current + copied) by lia.
      rewrite (proj2 (Z.leb_le current _)) by lia.
      destruct (Z.leb_spec (current + chunk) (p.1 + i)); [done|].
      rewrite (proj2 (Z.ltb_ge _ _)) by lia. done.
Qed.

Lemma copied_skip bytes q pages base copied current n t t' :
  q.1 = base -> base + PAGE_SIZE <= current -> q.2 ∉ pages.*2 -> q.2 mod PAGE_SIZE = 0 ->
  copied_bytes bytes pages copied current n t t' ->
  copied_bytes bytes (q :: pages) copied current n t t'.
Proof.
  intros Hq Hcur Hnq Hal [Htb Htr Hot Hby]. split; [done|done| |].
  - intros x [_ Hx]%not_elem_of_cons. by apply Hot.
  - intros p i [->|Hp]%elem_of_cons Hi; [|by apply Hby].
    rewrite (proj2 (Z.leb_gt _ _)) by lia. apply Hot.
    assert (page_down (q.2 + i) = q.2) as -> by (apply page_down_unique; [done|lia]). done.
Qed.

Lemma copy_pages_spec bytes pages base copied current m mem' n :
  chain base pages -> NoDup pages.*2 ->
  Forall (fun p => p.2 mod PAGE_SIZE = 0 /\ ~ pt_table p.2 (mm_tables m)) pages ->
  0 <= copied <= Z.of_nat (length bytes) ->
  copy_pages try_new bytes (mm_offset m) pages copied current (Some (Ok m)) = (mem', Ok n) ->
  exists t', mem' = Some (Ok (set_tables t' m)) /\ copied <= n <= Z.of_nat (length bytes) /\
    copied_bytes bytes pages copied current n (mm_tables m) t'.
Proof.
  revert base copied current m. induction pages as [|[p f] pages IH];
    intros base copied current m Hch Hnd Hfr Hc E; cbn [copy_pages] in E.
  { unfold mret, op_ret in E. injection E as <- <-. exists (mm_tables m). split; [by destruct m|].
    split; [lia|]. apply copied_nothing. }
  destruct (Z.eqb_spec copied (Z.of_nat (length bytes))) as [Heq|Hneq].
  { unfold mret, op_ret in E. injection E as <- <-. exists (mm_tables m). split; [by destruct m|].
    split; [lia|]. apply copied_nothing. }
  destruct Hch as [Hp Hch]. cbn in Hp, Hnd. apply NoDup_cons in Hnd as [Hnf Hnd].
  apply Forall_cons in Hfr as [[Hf Hft] Hfr]. cbn [fst snd] in *. subst base.
  destruct (Z.leb_spec (p + PAGE_SIZE) current) as [Hskip|Hin].
  { destruct (IH _ _ _ _ Hch Hnd Hfr Hc E) as (t' & -> & Hn & Hcb). exists t'. split_and!; [done|lia|lia|].
    by eapply copied_skip. }
  destruct (Z.ltb_spec current p) as [|Hge]; [done|].
  set (chunk := Z.min _ _) in E. unfold mbind at 1, op_bind at 1, lift in E.
  destruct (_ ≫= _) as [d|] eqn:Ed in E; [|done]. cbn [ok_or] in E.
  apply bind_Some in Ed as (x & [-> _]%checked_add_Some & Ed).
  apply bind_Some in Ed as (y & [-> _]%checked_add_Some & ->%try_new_same).
  unfold mbind, op_bind, copy_nonoverlapping, modify in E.
  replace (mm_offset m + f + (current - p) - mm_offset m) with (f + (current - p)) in E by lia.
  set (s := slice bytes _ _) in E.
  destruct (pt_copy_chunk f (current - p) s (mm_tables m)) as (Ctb & _ & _); [done|lia| |done|].
  { unfold s. rewrite length_slice; unfold chunk; lia. }
  apply (IH (p + PAGE_SIZE) _ _ (set_tables _ m)) in E as (t' & -> & Hn & Hcb); [|done|done| |unfold chunk; lia].
  - exists t'. split; [by destruct m|]. split; [unfold chunk in *; lia|].
    eapply (copied_chunk bytes p f pages p); [done|done|done|done| |done|lia|lia| | | |exact Hcb];
      [|unfold chunk; lia|unfold chunk; lia|lia].
    eapply Forall_impl; [exact Hfr|]. by intros ? [? _].
  - simpl. eapply Forall_impl; [exact Hfr|]. intros q [? Hq]. split; [done|]. by intros ?%Ctb.
Qed.

(** The whole copy. *)
Lemma copy_to_pages_spec bytes pages base start m mem' :
  chain base pages -> NoDup pages.*2 ->
  Forall (fun p => p.2 mod PAGE_SIZE = 0 /\ ~ pt_table p.2 (mm_tables m)) pages ->
  copy_to_pages try_new bytes pages (mm_offset m) start (Some (Ok m)) = (mem', Ok tt) ->
  exists t', mem' = Some (Ok (set_tables t' m)) /\
    copied_bytes bytes pages 0 start (Z.of_nat (length bytes)) (mm_tables m) t'.
Proof.
  intros Hch Hnd Hfr E. unfold copy_to_pages, mbind, op_bind in E.
  destruct (copy_pages _ _ _ _ _ _ _) as [mem1 [n|e|]] eqn:E1; [|done|done].
  destruct (Z.eqb_spec n (Z.of_nat (length bytes))) as [->|]; [|done].
  unfold mret, op_ret in E. injection E as <-.
  eapply copy_pages_spec in E1 as (t' & -> & _ & ?); [eauto|exact Hch|exact Hnd|exact Hfr|lia].
Qed.

(** The byte a segment has at an address. *)
Definition byte_at (start : Z) (bytes : list Z) (x : Z) : Z :=
  if (start <=? x) && (x <? start + Z.of_nat (length bytes))
  then default 0 (bytes !! Z.to_nat (x - start)) else 0.

Definition segment_bytes (start : Z) (bytes : list Z) (pages : list (Z * Z)) (t : PT) : Prop :=
  forall p i, p ∈ pages -> 0 <= i < PAGE_SIZE -> pt_byte (p.2 + i) t = byte_at start bytes (p.1 + i).

Lemma copied_segment bytes start pages t t' :
  copied_bytes bytes pages 0 start (Z.of_nat (length bytes)) t t' ->
  (forall p i, p ∈ pages -> 0 <= i < PAGE_SIZE -> pt_byte (p.2 + i) t = 0) ->
  segment_bytes start bytes pages t'.
Proof.
  intros [_ _ _ Hby] Hz p i Hp Hi. rewrite Hby by done. unfold byte_at.
  rewrite Z.sub_0_r, Z.add_0_r. by rewrite Hz.
Qed.

(** Copying to other frames changes nothing. *)
Lemma copied_apart bytes start n pages t t' (p : Z * Z) i :
  copied_bytes bytes pages 0 start n t t' -> p.2 mod PAGE_SIZE = 0 -> p.2 ∉ pages.*2 ->
  0 <= i < PAGE_SIZE -> pt_byte (p.2 + i) t' = pt_byte (p.2 + i) t.
Proof.
  intros [_ _ Hot _] Hal Hn Hi. apply Hot.
  assert (page_down (p.2 + i) = p.2) as -> by (apply page_down_unique; [done|lia]). done.
Qed.

Lemma page_mapped_copied bytes start n pages m t' r p :
  copied_bytes bytes pages 0 start n (mm_tables m) t' ->
  page_mapped m r p -> page_mapped (set_tables t' m) r p.
Proof.
  intros [Htb Htr _ _] (Hal & Hn & Ht & Htl). split_and!; [done|done|by intros ?%Htb|].
  simpl. by rewrite Htr.
Qed.

(** Three copies to three groups of pages with frames of their own. *)
Lemma three_copies m r (cp dp sp : list (Z * Z)) code data arguments c0 d0 a0 t1 t2 t3 :
  Forall (page_mapped m r) (cp ++ dp ++ sp) -> NoDup (cp ++ dp ++ sp).*2 ->
  Forall (page_zero m) (cp ++ dp ++ sp) ->
  copied_bytes code cp 0 c0 (Z.of_nat (length code)) (mm_tables m) t1 ->
  copied_bytes data dp 0 d0 (Z.of_nat (length data)) t1 t2 ->
  copied_bytes arguments sp 0 a0 (Z.of_nat (length arguments)) t2 t3 ->
  segment_bytes c0 code cp t3 /\ segment_bytes d0 data dp t3 /\ segment_bytes a0 arguments sp t3.
Proof.
  intros Hmap Hnd Hz C1 C2 C3. rewrite !fmap_app in Hnd.
  apply NoDup_app in Hnd as (_ & Hcds & (_ & Hds & _)%NoDup_app).
  rewrite !Forall_app, !Forall_forall in Hmap. destruct Hmap as (Mc & Md & Ms).
  rewrite !Forall_app, !Forall_forall in Hz. destruct Hz as (Zc & Zd & Zs).
  assert (forall p, p ∈ cp -> (p.2 ∉ dp.*2) /\ (p.2 ∉ sp.*2)) as Hc.
  { intros p Hp. specialize (Hcds p.2 (list_elem_of_fmap_2 snd _ _ Hp)). rewrite elem_of_app in Hcds. tauto. }
  assert (forall p, p ∈ dp -> (p.2 ∉ cp.*2) /\ (p.2 ∉ sp.*2)) as Hd.
  { intros p Hp. pose proof (list_elem_of_fmap_2 snd _ _ Hp) as Hpd. split; [|by apply Hds].
    intros Hpc. apply (Hcds _ Hpc), elem_of_app. by left. }
  assert (forall p, p ∈ sp -> (p.2 ∉ cp.*2) /\ (p.2 ∉ dp.*2)) as Hs.
  { intros p Hp. pose proof (list_elem_of_fmap_2 snd _ _ Hp) as Hps. split.
    - intros Hpc. apply (Hcds _ Hpc), elem_of_app. by right.
    - intros Hpd. by apply (Hds _ Hpd). }
  split_and!.
  - intros p i Hp Hi. destruct (Hc p Hp), (Mc p Hp) as [? _].
    rewrite (copied_apart _ _ _ _ _ _ p i C3), (copied_apart _ _ _ _ _ _ p i C2) by done.
    apply (copied_segment _ _ _ _ _ C1); [|done..]. intros q j Hq. by apply Zc.
  - intros p i Hp Hi. destruct (Hd p Hp), (Md p Hp) as [? _].
    rewrite (copied_apart _ _ _ _ _ _ p i C3) by done.
    apply (copied_segment _ _ _ _ _ C2); [|done..]. intros q j Hq Hj. destruct (Hd q Hq), (Md q Hq) as [? _].
    rewrite (copied_apart _ _ _ _ _ _ q j C1) by done. by apply Zd.
  - apply (copied_segment _ _ _ _ _ C3). intros p i Hp Hi. destruct (Hs p Hp), (Ms p Hp) as [? _].
    rewrite (copied_apart _ _ _ _ _ _ p i C2), (copied_apart _ _ _ _ _ _ p i C1) by done. by apply Zs.
Qed.

Lemma page_mapped_frames m r (l : list (Z * Z)) :
  Forall (page_mapped m r) l ->
  Forall (fun p => p.2 mod PAGE_SIZE = 0 /\ ~ pt_table p.2 (mm_tables m)) l.
Proof. intros Hl. eapply Forall_impl; [exact Hl|]. by intros p (? & _ & ? & _). Qed.

(** The copies of [load_segments], on mapped and zeroed pages. *)
Lemma copies_spec m r cp dp sp cb db sb code data arguments c0 d0 a0 mem' :
  Forall (page_mapped m r) (cp ++ dp ++ sp) -> NoDup (cp ++ dp ++ sp).*2 ->
  Forall (page_zero m) (cp ++ dp ++ sp) -> chain cb cp -> chain db dp -> chain sb sp ->
  (_ ← copy_to_pages try_new code cp (mm_offset m) c0;
   _ ← copy_to_pages try_new data dp (mm_offset m) d0;
   copy_to_pages try_new arguments sp (mm_offset m) a0) (Some (Ok m)) = (mem', Ok tt) ->
  exists m', mem' = Some (Ok m') /\ Forall (page_mapped m' r) (cp ++ dp ++ sp) /\
    segment_bytes c0 code cp (mm_tables m') /\ segment_bytes d0 data dp (mm_tables m') /\
    segment_bytes a0 arguments sp (mm_tables m').
Proof.
  intros Hmap Hnd Hz Hc Hd Hs E. unfold mbind, op_bind in E.
  assert (NoDup cp.*2 /\ NoDup dp.*2 /\ NoDup sp.*2) as (Nc & Nd & Ns).
  { rewrite !fmap_app in Hnd. apply NoDup_app in Hnd as (? & _ & (? & _ & ?)%NoDup_app). done. }
  assert (forall t, Forall (page_mapped (set_tables t m) r) (cp ++ dp ++ sp) ->
    Forall (page_mapped (set_tables t m) r) dp /\ Forall (page_mapped (set_tables t m) r) sp) as Hparts.
  { intros t Ht. rewrite !Forall_app in Ht. tauto. }
  destruct (copy_to_pages _ code _ _ _ _) as [mem1 [[]|e|]] eqn:E1; [|done|done].
  eapply copy_to_pages_spec in E1 as (t1 & -> & C1);
    [|exact Hc|done|apply (page_mapped_frames m r); by apply Forall_app in Hmap as [? _]].
  assert (Forall (page_mapped (set_tables t1 m) r) (cp ++ dp ++ sp)) as Hmap1
    by (eapply Forall_impl; [exact Hmap|]; intros p; by eapply page_mapped_copied).
  change (mm_offset m) with (mm_offset (set_tables t1 m)) in E.
  destruct (copy_to_pages _ data _ _ _ _) as [mem2 [[]|e|]] eqn:E2; [|done|done].
  eapply copy_to_pages_spec in E2 as (t2 & -> & C2);
    [|exact Hd|done|apply (page_mapped_frames _ r); by apply Hparts].
  assert (Forall (page_mapped (set_tables t2 m) r) (cp ++ dp ++ sp)) as Hmap2
    by (eapply Forall_impl; [exact Hmap1|]; intros p; exact (page_mapped_copied _ _ _ _ (set_tables t1 m) t2 r p C2)).
  change (mm_offset (set_tables t1 m)) with (mm_offset (set_tables t2 m)) in E.
  eapply (copy_to_pages_spec _ _ _ _ (set_tables t2 m)) in E as (t3 & -> & C3);
    [|exact Hs|done|apply (page_mapped_frames _ r); by apply Hparts].
  exists (set_tables t3 m). split; [done|]. split.
  - eapply Forall_impl; [exact Hmap2|]. intros p. exact (page_mapped_copied _ _ _ _ (set_tables t2 m) t3 r p C3).
  - exact (three_copies m r cp dp sp code data arguments c0 d0 a0 t1 t2 t3 Hmap Hnd Hz C1 C2 C3).
Qed.

(** The closure of [load_segments]. *)
Lemma fill_address_space_spec reserve code data arguments cn dn sn data_start stack_start
  argument_vector m space r mem' space' :
  data_start mod PAGE_SIZE = 0 -> stack_start mod PAGE_SIZE = 0 -> filling m space r [] ->
  fill_address_space from_start_address try_new reserve code data arguments cn dn sn
    data_start stack_start argument_vector (mm_offset m) (Some (Ok m), space) = (mem', space', Ok tt) ->
  exists m' cp dp sp, mem' = Some (Ok m') /\ root space' = Some r /\
    NoDup (cp ++ dp ++ sp).*1 /\ NoDup (cp ++ dp ++ sp).*2 /\
    Forall (page_mapped m' r) (cp ++ dp ++ sp) /\
    user_pages space' = ((fun p => (p.1, ReadExecute)) <$> cp) ++
      ((fun p => (p.1, ReadWrite)) <$> dp) ++ ((fun p => (p.1, ReadWrite)) <$> sp) /\
    (chain RAW_PROGRAM_BASE cp /\ length cp = Z.to_nat cn /\
     segment_bytes RAW_PROGRAM_BASE code cp (mm_tables m')) /\
    (chain data_start dp /\ length dp = Z.to_nat dn /\
     segment_bytes data_start data dp (mm_tables m')) /\
    (chain stack_start sp /\ length sp = Z.to_nat sn /\
     segment_bytes argument_vector arguments sp (mm_tables m')).
Proof.
  intros Hd Hs Hfill E. unfold fill_address_space in E. unfold mbind at 1, op_bind at 1 in E.
  destruct (map_segment _ _ _ _ ReadExecute _ _ _) as [[mem1 space1] [cp|e|]] eqn:E1; [|done|done].
  eapply map_segment_filling in E1 as (m1 & -> & F1 & C1 & L1 & U1 & O1); [|done|exact Hfill].
  unfold mbind at 1, op_bind at 1 in E.
  destruct (map_segment _ _ _ data_start _ _ _ _) as [[mem2 space2] [dp|e|]] eqn:E2; [|done|done].
  eapply map_segment_filling in E2 as (m2 & -> & F2 & C2 & L2 & U2 & O2); [|done|exact F1].
  unfold mbind at 1, op_bind at 1 in E.
  destruct (map_segment _ _ _ stack_start _ _ _ _) as [[mem3 space3] [sp|e|]] eqn:E3; [|done|done].
  eapply map_segment_filling in E3 as (m3 & -> & F3 & C3 & L3 & U3 & O3); [|done|exact F2].
  rewrite Z.add_0_r in C1, C2, C3. rewrite app_nil_l, <-app_assoc in F3.
  assert ((_ ← copy_to_pages try_new code cp (mm_offset m3) RAW_PROGRAM_BASE;
    _ ← copy_to_pages try_new data dp (mm_offset m3) data_start;
    copy_to_pages try_new arguments sp (mm_offset m3) argument_vector) (Some (Ok m3)) = (mem', Ok tt)
    /\ space' = space3) as [Ecp ->].
  { unfold mbind, op_bind, lift, on_memory in E. rewrite <-O1, <-O2, <-O3 in E.
    destruct (try_new RAW_PROGRAM_BASE) as [v|] eqn:Ev; [|done]. apply try_new_same in Ev as ->. cbn [expect] in E.
    unfold mbind, op_bind. destruct (copy_to_pages _ code _ _ _ _) as [? [[]|?|]]; [|done|done].
    destruct (try_new data_start) as [v|] eqn:Ev; [|done]. apply try_new_same in Ev as ->. cbn [expect] in E.
    destruct (copy_to_pages _ data _ _ _ _) as [? [[]|?|]]; [|done|done].
    destruct (copy_to_pages _ arguments _ _ _ _) as [? ?]. by injection E as <- <- <-. }
  eapply copies_spec in Ecp as (m' & -> & Hmap & Sc & Sd & Sa);
    [|apply F3|apply F3|apply F3|exact C1|exact C2|exact C3].
  assert (user_pages space = []) as Hnil
    by (pose proof (fl_pages _ _ _ _ Hfill) as Hp; symmetry in Hp; by apply fmap_nil_inv in Hp).
  exists m', cp, dp, sp. rewrite Hnil in U1. rewrite U2, U1, <-app_assoc in U3.
  split_and!; [done|apply F3..|done|done|done|done|done|done|done|done|done|done|done].
Qed.

Lemma copy_kernel_entries_table kernel_root r g (t : PT) :
  pt_table g (copy_kernel_entries kernel_root r t) -> pt_table g t.
Proof.
  unfold copy_kernel_entries. generalize (seq 0 512). intros l. revert t.
  induction l as [|index l IH]; intros t Hg; [done|]. apply IH in Hg.
  destruct (index =? _)%nat; [done|]. destruct (pt_level4 _ _ _) as [[addr flags]|]; [|done].
  by eapply set_level4_table.
Qed.

(** A new address space: nothing is mapped yet. *)
Lemma create_address_space_filling m mem' space :
  frames_free m ->
  create_address_space from_start_address try_new (Some (Ok m)) = (mem', Ok space) ->
  exists m' r, mem' = Some (Ok m') /\ filling m' space r [] /\ mm_offset m' = mm_offset m.
Proof.
  intros (Ha & Hnd & Hal & Hfree) E. unfold create_address_space, with_manager, mm_create_address_space in E.
  unfold mbind, op_bind, get, allocate_frame in E.
  destruct (pt_level4 _ _ _); [done|].
  destruct (next_usable_frame_spec _ from_start_address_aligned _ Ha) as (b & Eb & Hp & Hb & _ & _).
  rewrite Eb in E. destruct (pool (mm_allocator m)) as [|r l]; [done|].
  unfold lift, fail, mret, op_ret, assert_reclaim, modify in E. cbn [head ok_or] in E.
  destruct (physical_to_virtual try_new _ r); [|by destruct (reclaim_frame _ _) as [? []]].
  simpl in E. injection E as <- <-. eexists _, r. split; [done|]. split; [|done].
  apply NoDup_cons in Hnd as [Hr Hnd]. apply Forall_cons in Hal as [_ Hal]. simpl in Hp. subst l.
  split; [|done|done|by constructor|by constructor|by constructor|by constructor|by constructor].
  split; [done|]. split; [done|]. split; [done|]. simpl.
  intros g Hg [Ht| ->]%copy_kernel_entries_table%clear_table_table; [|done].
  apply (Hfree g); [by right|done].
Qed.

End image.

(** ** The layout of a program *)

Lemma page_count_spec n : 0 <= n -> n <= page_count n * PAGE_SIZE < n + PAGE_SIZE.
Proof.
  intros Hn. unfold page_count. pose proof (Z.div_mod (n + PAGE_SIZE - 1) PAGE_SIZE).
  pose proof (Z.mod_pos_bound (n + PAGE_SIZE - 1) PAGE_SIZE). lia.
Qed.

Lemma segment_layout_spec code data bss_len entry_offset sg :
  0 <= bss_len -> segment_layout code data bss_len entry_offset = Ok sg ->
  entry_offset < Z.of_nat (length code) /\
  Z.of_nat (length code) <= sg_code_pages sg * PAGE_SIZE /\
  Z.of_nat (length data) + bss_len <= sg_data_pages sg * PAGE_SIZE /\ 0 <= sg_data_pages sg /\
  sg_data_start sg = RAW_PROGRAM_BASE + sg_code_pages sg * PAGE_SIZE /\
  sg_stack_start sg = USER_STACK_TOP - USER_STACK_SIZE /\
  sg_data_start sg + sg_data_pages sg * PAGE_SIZE + PAGE_SIZE <= sg_stack_start sg.
Proof.
  intros Hb. unfold segment_layout. destruct (bool_decide _); [done|]. intros E. ok_inv E.
  apply ok_or_Ok_inv, checked_add_Some in Ha as [-> _]. apply ok_or_Ok_inv, checked_add_Some in Ha0 as [-> _].
  destruct (_ <? _); [done|]. destruct (_ <=? _) eqn:E1; [done|]. ok_inv E.
  apply ok_or_Ok_inv, checked_mul_Some in Ha as [-> _]. apply ok_or_Ok_inv, checked_add_Some in Ha0 as [-> _].
  apply ok_or_Ok_inv, checked_mul_Some in Ha1 as [-> _]. apply ok_or_Ok_inv, checked_add_Some in Ha2 as [-> _].
  apply ok_or_Ok_inv, checked_sub_Some in Ha3 as [-> _].
  destruct (_ <? _) eqn:E2; [done|]. injection E as <-. bools. simpl.
  pose proof (page_count_spec (Z.of_nat (length code)) ltac:(lia)).
  pose proof (page_count_spec (Z.of_nat (length data) + bss_len) ltac:(lia)).
  unfold saturating_sub in E2. unfold USER_STACK_TOP, USER_STACK_SIZE in *.
  change USER_SPACE_START with 140187732541440 in *. split_and!; lia.
Qed.

(** The pages of a segment with their access. *)
Definition pages_of (base : Z) (n : nat) (access : UserPageAccess) : list (Z * UserPageAccess) :=
  (fun i => (base + Z.of_nat i * PAGE_SIZE, access)) <$> seq 0 n.

Definition program_pages (sg : Segments) : list (Z * UserPageAccess) :=
  pages_of RAW_PROGRAM_BASE (Z.to_nat (sg_code_pages sg)) ReadExecute ++
  pages_of (sg_data_start sg) (Z.to_nat (sg_data_pages sg)) ReadWrite ++
  pages_of (sg_stack_start sg) (Z.to_nat (USER_STACK_SIZE / PAGE_SIZE)) ReadWrite.

(** The byte a new program finds at an address: code, initialised data, the
    argument vector, and zero elsewhere. *)
Definition image_byte (code data argv : list Z) (data_start x : Z) : Z :=
  if x <? data_start then byte_at RAW_PROGRAM_BASE code x
  else if x <? USER_STACK_TOP - USER_STACK_SIZE then byte_at data_start data x
  else byte_at (argv_address argv) argv x.

Lemma chain_pages base pages access :
  chain base pages -> (fun p => (p.1, access)) <$> pages = pages_of base (length pages) access.
Proof.
  revert base. induction pages as [|[p f] pages IH]; intros base; [done|]. intros [Hp Hch].
  cbn in Hp. subst p. rewrite fmap_cons, (IH _ Hch). unfold pages_of. cbn [length seq].
  rewrite fmap_cons. f_equal; [simpl; f_equal; lia|]. rewrite <-fmap_S_seq, <-list_fmap_compose.
  apply list_fmap_ext. intros i x _. cbn. f_equal. lia.
Qed.

Lemma snd_inj {A B} (l : list (A * B)) x y b : NoDup l.*2 -> (x, b) ∈ l -> (y, b) ∈ l -> x = y.
Proof.
  intros Hnd [i Hi]%list_elem_of_lookup_1 [j Hj]%list_elem_of_lookup_1.
  assert (i = j) as ->; [|congruence].
  eapply (NoDup_lookup l.*2 i j b); [done|by rewrite list_lookup_fmap, Hi|by rewrite list_lookup_fmap, Hj].
Qed.

Lemma fst_access (access : UserPageAccess) (l : list (Z * Z)) :
  ((fun p => (p.1, access)) <$> l).*1 = l.*1.
Proof. rewrite <-list_fmap_compose. done. Qed.

Lemma elem_of_pages_of base n access page a :
  (page, a) ∈ pages_of base n access <->
  a = access /\ base <= page < base + Z.of_nat n * PAGE_SIZE /\ (page - base) mod PAGE_SIZE = 0.
Proof.
  unfold pages_of. rewrite list_elem_of_fmap. setoid_rewrite elem_of_seq. split.
  - intros (i & [= -> ->] & Hi). split; [done|]. split; [lia|].
    replace (base + Z.of_nat i * PAGE_SIZE - base) with (Z.of_nat i * PAGE_SIZE) by lia. by apply Z.mod_mul.
  - intros (-> & Hp & Hm). exists (Z.to_nat ((page - base) / PAGE_SIZE)).
    pose proof (Z.div_mod (page - base) PAGE_SIZE). split; [f_equal; lia|lia].
Qed.

Lemma find_access_elem page access pages :
  NoDup pages.*1 -> (page, access) ∈ pages -> find_access page pages = Some access.
Proof.
  induction pages as [|[q a] pages IH]; [by intros _ ?%not_elem_of_nil|].
  cbn. intros [Hq Hnd]%NoDup_cons [[= -> ->]|Hp]%elem_of_cons; [by rewrite Z.eqb_refl|].
  destruct (Z.eqb_spec q page) as [->|]; [|by apply IH].
  destruct Hq. by apply (list_elem_of_fmap_2 fst _ (page, access)).
Qed.

Section load.
Context {PT : Type} `{DirectMapLaws PT}.
Variable from_start_address : Z -> option Z.
Variable try_new : Z -> option Z.
Hypothesis from_start_address_aligned : forall address,
  0 <= address < 2 ^ 52 -> address mod PAGE_SIZE = 0 -> from_start_address address = Some address.
Hypothesis try_new_same : forall address v, try_new address = Some v -> v = address.

Lemma load_segments_Ok reserve cr3 code data bss_len entry_offset path arguments (m : MemoryManager PT)
  mem' p :
  load_segments from_start_address try_new reserve cr3 code data bss_len entry_offset path arguments
    (Some (Ok m)) = (mem', Ok p) ->
  exists sg argv argc mem1 space offset,
    segment_layout code data bss_len entry_offset = Ok sg /\
    build_argument_vector (reserve 0%nat) path arguments = Ok (argv, argc) /\
    create_address_space from_start_address try_new (Some (Ok m)) = (mem1, Ok space) /\
    (physical_memory_offset mem1).2 = Ok offset /\
    fill_address_space from_start_address try_new (fun i => reserve (4 + i)%nat) code data argv
      (sg_code_pages sg) (sg_data_pages sg) (USER_STACK_SIZE / PAGE_SIZE) (sg_data_start sg)
      (sg_stack_start sg) (argv_address argv) offset (mem1, space) = (mem', lp_address_space p, Ok tt) /\
    p = mk_program (lp_address_space p) (RAW_PROGRAM_BASE + entry_offset) USER_STACK_TOP argc
          (argv_address argv) (if sg_data_pages sg =? 0 then None else Some (sg_data_start sg)).
Proof.
  unfold load_segments. unfold mbind at 1, op_bind at 1, lift at 1.
  destruct (segment_layout _ _ _ _) as [sg|e|] eqn:Esg; [|done|done].
  unfold mbind at 1, op_bind at 1, lift at 1.
  destruct (build_argument_vector _ _ _) as [[argv argc]|e|] eqn:Eargv; [|done|done].
  unfold mbind at 1, op_bind at 1, lift at 1.
  destruct (ok_or _ _) as [addr|e|] eqn:Eaddr; [|done|done].
  apply ok_or_Ok_inv, bind_Some in Eaddr as (x & [-> _]%checked_sub_Some & [-> _]%checked_sub_Some).
  unfold mbind at 1, op_bind at 1, lift at 1.
  destruct (try_new _) as [v|] eqn:Ev; [|done]. apply try_new_same in Ev as ->. cbn [expect].
  destruct (negb _); [done|]. unfold mbind at 1, op_bind at 1, map_error at 1.
  destruct (create_address_space _ _ _) as [mem1 [space|e|]] eqn:Ecr; [|done|done].
  cbn [map_err]. unfold mbind at 1, op_bind at 1.
  destruct (physical_memory_offset mem1) as [mem2 [offset|e|]] eqn:Eo.
  - assert (mem2 = mem1) as -> by (unfold physical_memory_offset in Eo; congruence).
    unfold or_destroy_space. fold (argv_address argv).
    destruct (fill_address_space _ _ _ _ _ _ _ _ _ _ _ _ _ _) as [[mem3 space3] [[]|e|]] eqn:Ef.
    + unfold mbind, op_bind, lift, mret, op_ret.
      destruct (try_new (RAW_PROGRAM_BASE + entry_offset)) as [v|] eqn:Ev; [|done]. apply try_new_same in Ev as ->.
      destruct (try_new USER_STACK_TOP) as [v|] eqn:Ev; [|done]. apply try_new_same in Ev as ->.
      destruct (try_new (sg_data_start sg)) as [v|] eqn:Ev; [|done]. apply try_new_same in Ev as ->.
      cbn [expect]. intros [= <- <-]. exists sg, argv, argc, mem1, space, offset. by rewrite Eo.
    + by destruct (destroy _ _ _) as [[? ?] [?|?|]].
    + done.
  - unfold or_destroy_space, fail. by destruct (destroy _ _ _) as [[? ?] [?|?|]].
  - done.
Qed.

Lemma chain_lt base pages p :
  chain base pages -> p ∈ pages -> p.1 + PAGE_SIZE <= base + Z.of_nat (length pages) * PAGE_SIZE.
Proof.
  revert base. induction pages as [|q pages IH]; intros base; [by intros _ ?%not_elem_of_nil|].
  intros [Hq Hch] [->|Hp]%elem_of_cons; [simpl; lia|]. specialize (IH _ Hch Hp). simpl. lia.
Qed.

(** A loaded page holds the bytes of the image. *)
Lemma image_of_segments code data argv sg (cp dp sp : list (Z * Z)) (t : PT) p i :
  sg_data_start sg = RAW_PROGRAM_BASE + sg_code_pages sg * PAGE_SIZE ->
  sg_stack_start sg = USER_STACK_TOP - USER_STACK_SIZE ->
  sg_data_start sg + sg_data_pages sg * PAGE_SIZE + PAGE_SIZE <= sg_stack_start sg ->
  0 <= sg_code_pages sg -> 0 <= sg_data_pages sg ->
  chain RAW_PROGRAM_BASE cp -> length cp = Z.to_nat (sg_code_pages sg) ->
  chain (sg_data_start sg) dp -> length dp = Z.to_nat (sg_data_pages sg) ->
  chain (sg_stack_start sg) sp ->
  segment_bytes RAW_PROGRAM_BASE code cp t -> segment_bytes (sg_data_start sg) data dp t ->
  segment_bytes (argv_address argv) argv sp t ->
  p ∈ cp ++ dp ++ sp -> 0 <= i < PAGE_SIZE ->
  pt_byte (p.2 + i) t = image_byte code data argv (sg_data_start sg) (p.1 + i).
Proof.
  intros Hds Hss Hgap Hcn Hdn Cc Lc Cd Ld Cs Sc Sd Ss Hp Hi. unfold image_byte.
  apply elem_of_app in Hp as [Hp|[Hp|Hp]%elem_of_app].
  - pose proof (chain_lt _ _ _ Cc Hp). rewrite Sc by done. by rewrite (proj2 (Z.ltb_lt _ _)) by lia.
  - pose proof (chain_lt _ _ _ Cd Hp). pose proof (chain_ge _ _ _ Cd Hp). rewrite Sd by done.
    rewrite (proj2 (Z.ltb_ge _ _)) by lia. by rewrite (proj2 (Z.ltb_lt _ _)) by lia.
  - pose proof (chain_ge _ _ _ Cs Hp). rewrite Ss by done.
    rewrite (proj2 (Z.ltb_ge _ _)) by lia. by rewrite (proj2 (Z.ltb_ge _ _)) by lia.
Qed.

(** [UserContext::for_address_space_with_arguments] accepts the pages of a program. *)
Lemma program_context space sg entry argc vector :
  user_pages space = program_pages sg -> NoDup (program_pages sg).*1 ->
  RAW_PROGRAM_BASE <= entry < RAW_PROGRAM_BASE + sg_code_pages sg * PAGE_SIZE ->
  sg_stack_start sg = USER_STACK_TOP - USER_STACK_SIZE ->
  sg_code_pages sg * PAGE_SIZE <= USER_STACK_TOP - RAW_PROGRAM_BASE ->
  sg_stack_start sg <= vector < USER_STACK_TOP ->
  for_address_space_with_arguments space entry USER_STACK_TOP argc vector
    = Ok (mk_user_context entry USER_STACK_TOP argc vector).
Proof.
  intros Hpg Hnd He Hss Hcn Hv. unfold for_address_space_with_arguments, with_arguments.
  assert (forall x, RAW_PROGRAM_BASE <= x <= USER_STACK_TOP -> contains_user_address x = true) as Hin.
  { intros x Hx. unfold contains_user_address. apply andb_true_iff. rewrite Z.leb_le, Z.ltb_lt.
    unfold RAW_PROGRAM_BASE, USER_STACK_TOP, USER_SPACE_END in *. change USER_SPACE_START with 140187732541440 in *.
    change (Z.shiftl 1 39) with 549755813888. lia. }
  unfold USER_STACK_SIZE in *.
  assert (sg_stack_start sg mod PAGE_SIZE = 0) as Hssm by (rewrite Hss; done).
  assert (forall x, sg_stack_start sg <= x < USER_STACK_TOP ->
    user_page_access space (page_down x) = Some ReadWrite) as Hstack.
  { intros x Hx. unfold user_page_access. rewrite Hpg. apply find_access_elem; [done|].
    apply elem_of_app. right. apply elem_of_app. right. apply elem_of_pages_of.
    pose proof (page_down_le x). rewrite page_down_spec in *.
    pose proof (Z.div_mod x PAGE_SIZE). pose proof (Z.div_mod (sg_stack_start sg) PAGE_SIZE).
    split; [done|]. change (USER_STACK_SIZE / PAGE_SIZE) with 4. split; [lia|].
    replace (x - x mod PAGE_SIZE - sg_stack_start sg) with ((x / PAGE_SIZE - sg_stack_start sg / PAGE_SIZE) * PAGE_SIZE) by lia.
    by apply Z.mod_mul. }
  assert (user_page_access space (page_down entry) = Some ReadExecute) as Hentry.
  { unfold user_page_access. rewrite Hpg. apply find_access_elem; [done|].
    apply elem_of_app. left. apply elem_of_pages_of.
    pose proof (page_down_le entry). rewrite page_down_spec in *.
    pose proof (Z.div_mod entry PAGE_SIZE). split; [done|].
    assert (RAW_PROGRAM_BASE = 34225520641 * PAGE_SIZE) as HR by done. split; [lia|].
    rewrite HR. replace (entry - entry mod PAGE_SIZE - 34225520641 * PAGE_SIZE) with
      ((entry / PAGE_SIZE - 34225520641) * PAGE_SIZE) by lia. by apply Z.mod_mul. }
  rewrite !Hin by (unfold RAW_PROGRAM_BASE, USER_STACK_TOP in *; lia).
  change (USER_STACK_TOP mod 16 =? 0) with true. cbn [negb orb andb].
  rewrite andb_false_r. cbn [mbind outcome_bind]. rewrite Hentry, !Hstack by lia.
  rewrite !bool_decide_true by done. cbn [negb]. by rewrite andb_false_r.
Qed.

End load.

(** ** A memory for examples

    Mappings in a table, and bytes; the tables take no frames. *)
Record ram := mk_ram {
  ram_maps : gmap (Z * Z) Z;
  ram_bytes : Z -> Z;
}.

Definition ram_mapper : Mapper ram := {|
  pt_map_to root page frame flags t a :=
    (mk_ram (<[(root, page) := frame]> (ram_maps t)) (ram_bytes t), a, Ok tt);
  pt_unmap root page t :=
    match ram_maps t !! (root, page) with
    | Some frame => (mk_ram (delete (root, page) (ram_maps t)) (ram_bytes t), Ok frame)
    | None => (t, Err UnmapPageNotMapped)
    end;
  pt_clean_up root page t a := (t, a, Ok tt);
  pt_translate root page t := ram_maps t !! (root, page);
  pt_level4 root index t := None;
  pt_set_level4 root index entry t := t;
  pt_clear_table root t := t;
  pt_zero_frame frame t :=
    mk_ram (ram_maps t) (fun x => if page_down x =? frame then 0 else ram_bytes t x);
|}.

Definition ram_direct_map : DirectMap ram := {|
  pt_copy a bytes t := mk_ram (ram_maps t) (fun x =>
    if (a <=? x) && (x <? a + Z.of_nat (length bytes))
    then default 0 (bytes !! Z.to_nat (x - a)) else ram_bytes t x);
  pt_byte x t := ram_bytes t x;
|}.

Lemma ram_mapper_laws : @MapperLaws ram ram_mapper.
Proof.
  split. intros root page frame flags t a t1 a1 r Ha [= <- <- <-]. split; [done|]. split; [done|].
  exists []. split_and!; [done|simpl; lia|simpl; lia|]. done.
Qed.

Definition ram_laws : @DirectMapLaws ram ram_mapper ram_mapper_laws ram_direct_map.
Proof.
  refine (Build_DirectMapLaws _ _ _ _ (fun _ _ => False) _ _ _ _ _ _ _ _ _ _ _); try done.
  - intros root page frame flags t a t' a' other _ _ [= <- _]. cbn.
    destruct (Z.eqb_spec other page) as [->|Hne]; [by rewrite lookup_insert_eq|].
    rewrite lookup_insert_ne; [done|congruence].
  - intros root page frame flags t a t' a' r x [= <- _ _]. done.
Defined.

(** ** Properties *)

Section properties.
Context {PT : Type} `{DirectMapLaws PT}.
Variable from_start_address : Z -> option Z.
Variable try_new : Z -> option Z.
Hypothesis from_start_address_aligned : forall address,
  0 <= address < 2 ^ 52 -> address mod PAGE_SIZE = 0 -> from_start_address address = Some address.
Hypothesis try_new_same : forall address v, try_new address = Some v -> v = address.

(** C6: A program that is loaded starts with its image: its pages are the code pages,
    read-only and executable, the data and bss pages and the stack, writable and
    not executable, each mapped to a zeroed frame of its own that is neither free
    nor a page table; they hold the code, the initialised data and the argument
    vector at their addresses and zero elsewhere; and the context the scheduler
    builds for it is accepted. *)
Theorem loaded_image reserve cr3 code data bss_len entry_offset path arguments m mem' p :
  frames_free m -> 0 <= bss_len -> 0 <= entry_offset ->
  load_segments from_start_address try_new reserve cr3 code data bss_len entry_offset path arguments
    (Some (Ok m)) = (mem', Ok p) ->
  exists m' r sg argv, mem' = Some (Ok m') /\
    segment_layout code data bss_len entry_offset = Ok sg /\
    build_argument_vector true path arguments = Ok (argv, lp_argument_count p) /\
    root (lp_address_space p) = Some r /\ user_pages (lp_address_space p) = program_pages sg /\
    (forall page access, (page, access) ∈ program_pages sg ->
       exists frame, page_mapped m' r (page, frame) /\
       forall i, 0 <= i < PAGE_SIZE ->
         pt_byte (frame + i) (mm_tables m')
           = image_byte code data argv (sg_data_start sg) (page + i)) /\
    (forall page page' frame, page ∈ (program_pages sg).*1 -> page' ∈ (program_pages sg).*1 ->
       pt_translate r page (mm_tables m') = Some frame ->
       pt_translate r page' (mm_tables m') = Some frame -> page = page') /\
    for_address_space_with_arguments (lp_address_space p) (lp_entry p) (lp_stack p)
      (lp_argument_count p) (lp_argument_vector p)
      = Ok (mk_user_context (RAW_PROGRAM_BASE + entry_offset) USER_STACK_TOP (lp_argument_count p)
              (argv_address argv)).
Proof.
  intros Hfree Hb He (sg & argv & argc & mem1 & space & offset & Esg & Eargv & Ecr & Eo & Ef & Ep)
    %load_segments_Ok; [|done].
  destruct (create_address_space_filling _ _ from_start_address_aligned _ _ _ Hfree Ecr)
    as (m1 & r & -> & Hfill & _).
  destruct (segment_layout_spec _ _ _ _ _ Hb Esg) as (Hent & Hcl & Hdl & Hdn & Hds & Hss & Hgap).
  assert (0 <= sg_code_pages sg) as Hcn by lia.
  injection Eo as <-.
  assert (sg_data_start sg mod PAGE_SIZE = 0) as Hdm by (rewrite Hds; by rewrite Z.mod_add).
  apply (fill_address_space_spec _ _ from_start_address_aligned try_new_same) with (r := r) in Ef
    as (m' & cp & dp & sp & -> & Hr & Nd1 & Nd2 & Hmap & Hup & (Cc & Lc & Sc) & (Cd & Ld & Sd) & (Cs & Ls & Ss));
    [|done|by rewrite Hss|done].
  assert ((user_pages (lp_address_space p)).*1 = (cp ++ dp ++ sp).*1) as Hfst
    by (rewrite Hup, !fmap_app, !fst_access; done).
  rewrite (chain_pages _ _ ReadExecute Cc), (chain_pages _ _ ReadWrite Cd), (chain_pages _ _ ReadWrite Cs) in Hup.
  rewrite Lc, Ld, Ls in Hup. fold (program_pages sg) in Hup. rewrite Hup in Hfst.
  destruct (build_argument_vector_size _ _ _ _ _ Eargv) as [Hres Hvl]. rewrite Hres in Eargv.
  assert (lp_argument_count p = argc /\ lp_entry p = RAW_PROGRAM_BASE + entry_offset /\
    lp_stack p = USER_STACK_TOP /\ lp_argument_vector p = argv_address argv) as (-> & -> & -> & ->)
    by (rewrite Ep; done).
  exists m', r, sg, argv.
  split_and!; [done|done|done|done|done| | |].
  - intros page access Hp%(list_elem_of_fmap_2 fst). rewrite Hfst in Hp.
    apply list_elem_of_fmap in Hp as ([q f] & Hq & Hp). cbn in Hq. subst q. exists f.
    rewrite Forall_forall in Hmap. split; [by apply Hmap|]. intros i Hi.
    exact (image_of_segments code data argv sg cp dp sp _ (page, f) i Hds Hss Hgap Hcn Hdn Cc Lc Cd Ld Cs Sc Sd Ss Hp Hi).
  - intros page page' frame Hp Hp' Ht Ht'. rewrite Hfst in Hp, Hp'.
    apply list_elem_of_fmap in Hp as ([q f] & -> & Hp), Hp' as ([q' f'] & -> & Hp'). cbn in *.
    rewrite Forall_forall in Hmap. destruct (Hmap _ Hp) as (_ & _ & _ & E1), (Hmap _ Hp') as (_ & _ & _ & E2).
    cbn in E1, E2. rewrite Ht in E1. rewrite Ht' in E2. simplify_eq. by eapply snd_inj.
  - unfold argv_address, USER_STACK_SIZE, USER_STACK_ARGUMENT_RESERVE in *.
    eapply program_context; [exact Hup|by rewrite Hfst|lia|done|unfold RAW_PROGRAM_BASE, USER_STACK_TOP in *; lia|lia].
Qed.

End properties.

(** A machine with sixteen free frames. *)
Definition program_map : list Z :=
  descriptor_bytes 7 0x100000 16 ++ descriptor_bytes 2 0x200000 16.

Definition program_allocator : Allocator :=
  mk_allocator program_map 40 2 0 0 example_limit (reserved example_allocator)
    (replicate RECLAIMED_FRAME_CAPACITY None) 0.

Definition program_manager : MemoryManager ram :=
  mk_manager (mk_ram ∅ (fun _ => 255)) program_allocator example_limit 0x20C000 0xFFFF800000000000.

Lemma program_manager_free :
  @frames_free ram ram_mapper ram_mapper_laws ram_direct_map ram_laws program_manager.
Proof.
  split; [|split; [|split]].
  - eapply (Allocator_new_spec example_boot_info program_map 0x20D000 example_limit);
      [apply example_boot_info_ok| | | |]; try by vm_compute.
    by repeat apply Forall_app_2; apply le_encode_bytes.
  - apply (bool_decide_unpack _). by vm_compute.
  - apply (bool_decide_unpack _). by vm_compute.
  - intros f _ Hf. exact Hf.
Qed.

Abbreviation example_load :=
  (@load_segments ram ram_mapper ram_direct_map example_frame example_try_new (fun _ => true) 0x20C000
    example_code [7] 100 1 [97; 46; 97; 112; 112] [[120]] (Some (Ok program_manager))).

Lemma loaded_image_witness :
  match example_load.2 with
  | Ok p => user_pages (lp_address_space p) =
      [(RAW_PROGRAM_BASE, ReadExecute); (RAW_PROGRAM_BASE + 0x1000, ReadWrite);
       (USER_STACK_TOP - 0x4000, ReadWrite); (USER_STACK_TOP - 0x3000, ReadWrite);
       (USER_STACK_TOP - 0x2000, ReadWrite); (USER_STACK_TOP - 0x1000, ReadWrite)]
  | _ => False
  end.
Proof.
  assert (is_ok example_load.2 = true) as Hok by (vm_compute; reflexivity).
  destruct example_load as [mem' [p|e|]] eqn:E; [|discriminate Hok..]. cbn [snd].
  destruct (@loaded_image ram ram_mapper ram_mapper_laws ram_direct_map ram_laws example_frame
    example_try_new example_frame_aligned example_try_new_same (fun _ => true) 0x20C000
    example_code [7] 100 1 [97; 46; 97; 112; 112] [[120]] program_manager mem' p
    program_manager_free ltac:(lia) ltac:(lia) E)
    as (m' & rt & sg & argv & _ & Hsg & _ & _ & -> & _).
  vm_compute in Hsg. injection Hsg as <-. vm_compute. reflexivity.
Defined.
