(* ===== verification/Syscall.v ===== *)
(** * System calls

    [arch/syscall.rs]: the entry and exit of a system call, the dispatch and the
    handlers.  A handler is an operation on the kernel whose error is the value it
    returns early; a call that gives up the processor ends with [Switched], and
    goes on when its task is selected again.

    User memory is the memory behind the frames the page tables of the active
    address space lead to. *)

From S2P Require Import Prelude Ring Input Utf8 FileSystem Tar Fd FrameAlloc UserRange Paging Scheduler Kernel UserProgram.

Local Open Scope Z_scope.

Definition MAX_SYSCALL_BUFFER : Z := 4096.
Definition MAX_SYSCALL_PATH : nat := 255.
Definition MAX_SYSCALL_SLEEP_TICKS : Z := 360000.

(** Negative error numbers as [u64]. *)
Definition SYS_ERR_E2BIG : Z := u64_limit - 7.
Definition SYS_ERR_EIO : Z := u64_limit - 5.
Definition SYS_ERR_EPIPE : Z := u64_limit - 32.
Definition SYS_ERR_EAGAIN : Z := u64_limit - 11.
Definition SYS_ERR_EFAULT : Z := u64_limit - 14.
Definition SYS_ERR_EINVAL : Z := u64_limit - 22.
Definition SYS_ERR_ENOENT : Z := u64_limit - 2.
Definition SYSCALL_NOT_IMPLEMENTED : Z := u64_limit - 38.

Record SyscallFrame := mk_frame {
  f_r15 : Z; f_r14 : Z; f_r13 : Z; f_r12 : Z; f_r11 : Z; f_r10 : Z; f_r9 : Z; f_r8 : Z;
  f_rbp : Z; f_rdi : Z; f_rsi : Z; f_rdx : Z; f_rcx : Z; f_rbx : Z; f_rax : Z;
}.

(** ** Decimal numbers in a buffer *)

(** The loop that fills [digits], least significant first; a [u64] has at most as
    many digits as the array. *)
Fixpoint decimal_digits (room : nat) (value : Z) : option (list Z) :=
  match room with
  | O => None
  | S room =>
      let digit := 48 + value mod 10 in
      if value / 10 =? 0 then Some [digit]
      else rest ← decimal_digits room (value / 10); Some (digit :: rest)
  end.

(** [append_decimal]; the state is the buffer and the position. *)
Definition append_decimal {E} (value : Z) : Op (list Z * nat) E bool :=
  '(output, position) ← get;
  digits ← lift (expect (decimal_digits 20 value));
  if (length output <? position + length digits)%nat then mret false
  else
    output ← lift (copy_at output position (reverse digits));
    _ ← put (output, (position + length digits)%nat);
    mret true.

(** [output[length] = byte; length += 1]. *)
Definition push_byte {E} (byte : Z) : Op (list Z * nat) E unit :=
  '(output, len) ← get;
  output ← lift (copy_at output len [byte]);
  put (output, S len).

(** The closure of [sys_list_dir]. *)
Definition list_entry {E} (capacity : nat) (entry : list Z * bool * Z) : Op (list Z * nat) E unit :=
  let '(name, is_dir, size) := entry in
  '(_, start) ← get;
  if (capacity <=? start)%nat then mret tt
  else
    let rewind : Op (list Z * nat) E unit := modify (fun '(output, _) => (output, start)) in
    appended ← append_decimal size;
    '(_, len) ← get;
    if negb appended || (capacity <? len + 1)%nat then rewind
    else
      _ ← push_byte 32;
      '(output, len) ← get;
      let required := (length name + (if is_dir : bool then 1 else 0) + 1)%nat in
      if (len + required <=? capacity)%nat then
        output ← lift (copy_at output len name);
        _ ← put (output, (len + length name)%nat);
        _ ← (if is_dir : bool then push_byte 47 else mret tt);
        push_byte 10
      else rewind.

(** ** Entry and exit

    [leafos_syscall_entry]: the registers on return to user mode, or [None] when the
    return address or the user stack pointer is not a user address; the task is
    then terminated. *)

Definition RFLAGS_USER_MASK : Z := 0xad5.

Record UserReturn := mk_return {
  ur_frame : SyscallFrame;
  ur_rip : Z;
  ur_rsp : Z;
  ur_rflags : Z;
}.

Definition syscall_return (frame : SyscallFrame) (result rsp : Z) : option UserReturn :=
  let rip := f_rcx frame in
  if (rip <? USER_SPACE_START) || (USER_SPACE_END <=? rip) then None
  else if (rsp <? USER_SPACE_START) || (USER_SPACE_END <=? rsp) then None
  else
    let r11 := Z.lor (Z.land (f_r11 frame) RFLAGS_USER_MASK) 0x202 in
    Some (mk_return
      (mk_frame (f_r15 frame) (f_r14 frame) (f_r13 frame) (f_r12 frame) r11 (f_r10 frame)
         (f_r9 frame) (f_r8 frame) (f_rbp frame) (f_rdi frame) (f_rsi frame) (f_rdx frame)
         rip (f_rbx frame) result)
      rip rsp r11).

Section syscall.
Context {D : Type} `{FileSystem D Ext2Error.t}.
Context {PT : Type} `{Mapper PT} `{DirectMap PT}.
Variable from_start_address : Z -> option Z.
Variable try_new : Z -> option Z.
Variable trampoline : Z.

Abbreviation K := (Kernel D PT).

(** ** User memory *)

(** The byte at a virtual address of the address space [root]. *)
Definition user_byte (root : Z) (t : PT) (x : Z) : Z :=
  match pt_translate root (page_down x) t with
  | Some frame => pt_byte (frame + (x - page_down x)) t
  | None => 0
  end.

Definition write_user_byte (root x b : Z) (t : PT) : PT :=
  match pt_translate root (page_down x) t with
  | Some frame => pt_copy (frame + (x - page_down x)) [b] t
  | None => t
  end.

Fixpoint write_user (root x : Z) (bytes : list Z) (t : PT) : PT :=
  match bytes with
  | [] => t
  | b :: bytes => write_user root (x + 1) bytes (write_user_byte root x b t)
  end.

(** The memory of the kernel's page tables and frames. *)
Definition tables (k : K) : option PT :=
  match k_mem k with Some (Ok m) => Some (mm_tables m) | _ => None end.

Definition user_memory (k : K) (x : Z) : Z :=
  match tables k with Some t => user_byte (k_cr3 k) t x | None => 0 end.

(** The address space of the current user task. *)
Definition current_space : Op K UserMemoryError AddressSpace :=
  t ← running_task;
  user ← lift (ok_or (t ≫= t_user) InactiveAddressSpace);
  mret (address_space user).

Definition validate_current_user_range (address length_ : Z) (writable : bool) :
  Op K UserMemoryError unit :=
  space ← current_space;
  k ← get;
  lift (validate_user_range try_new (k_cr3 k) space address length_ writable).

(** The first [n] bytes of the buffer after the call. *)
Definition copy_from_current_user (address : Z) (n : nat) : Op K UserMemoryError (list Z) :=
  space ← current_space;
  k ← get;
  lift (copy_from_user try_new (k_cr3 k) space (user_memory k) address (replicate n 0)).

Definition copy_to_current_user (address : Z) (input : list Z) : Op K UserMemoryError unit :=
  space ← current_space;
  k ← get;
  _ ← lift (validate_user_range try_new (k_cr3 k) space address (Z.of_nat (length input)) true);
  modify (fun k =>
    match k_mem k with
    | Some (Ok m) =>
        set_mem (Some (Ok (set_tables (write_user (k_cr3 k) address input (mm_tables m)) m))) k
    | _ => k
    end).

(** [if op.is_err() { return errno }]. *)
Definition or_return {E A} (errno : Z) (op : Op K E A) : Op K Z A := map_error (fun _ => errno) op.

(** A call that gives up the processor with [errno] for its errors. *)
Definition blocking {E} (errno : E -> Z) (op : Op K E (flow unit)) : Op K Z (flow Z) :=
  f ← map_error errno op;
  mret (match f with Returned _ => Returned 0 | Switched => Switched end).

(** [&buffer[..count]] of a buffer of [MAX_SYSCALL_BUFFER] bytes that begins with
    [output] and holds zeros after it. *)
Definition buffer_prefix (output : list Z) (count : nat) : outcome Z (list Z) :=
  index_range (output ++ replicate (Z.to_nat MAX_SYSCALL_BUFFER - length output) 0)
    0 (Z.of_nat count).

(** ** Handlers *)

Definition fd_errno (e : SchedulerError) : Z :=
  match e with
  | InvalidFd => SYS_ERR_EINVAL
  | SchedBrokenPipe => SYS_ERR_EPIPE
  | _ => SYS_ERR_EIO
  end.

(** The rest of [sys_fd_read] from its loop on: a read that would block ends in a
    switch, after which the loop goes on. *)
Definition fd_read_loop (frame : SyscallFrame) : Op K Z (flow Z) := fun k =>
  let length_ := Z.to_nat (f_rdx frame) in
  match read_current_fd (Z.to_nat (f_rdi frame)) (replicate length_ 0) k with
  | (k, Ok (count, buffer)) =>
      (_ ← wake_all_blocked_tasks;
       bytes ← lift (buffer_prefix buffer count);
       _ ← or_return SYS_ERR_EFAULT (copy_to_current_user (f_rsi frame) bytes);
       mret (Returned (Z.of_nat count))) k
  | (k, Err WouldBlock) =>
      if f_rdi frame =? Z.of_nat STDIN then (k, Err SYS_ERR_EAGAIN)
      else blocking (fun _ => SYS_ERR_EIO) block_now k
  | (k, Err e) => (k, Err (fd_errno e))
  | (k, Panic) => (k, Panic)
  end.

Definition sys_fd_read (frame : SyscallFrame) : Op K Z (flow Z) :=
  if (Z.of_nat MAX_FDS <=? f_rdi frame) || (MAX_SYSCALL_BUFFER <? f_rdx frame)
  then fail SYS_ERR_EINVAL
  else if f_rdx frame =? 0 then mret (Returned 0)
  else
    _ ← or_return SYS_ERR_EFAULT (validate_current_user_range (f_rsi frame) (f_rdx frame) true);
    fd_read_loop frame.

(** The same for [sys_fd_write], with the bytes it copied. *)
Definition fd_write_loop (frame : SyscallFrame) (buffer : list Z) : Op K Z (flow Z) := fun k =>
  match write_current_fd (Z.to_nat (f_rdi frame)) buffer k with
  | (k, Ok count) => (_ ← wake_all_blocked_tasks; mret (Returned (Z.of_nat count))) k
  | (k, Err WouldBlock) => blocking (fun _ => SYS_ERR_EIO) block_now k
  | (k, Err e) => (k, Err (fd_errno e))
  | (k, Panic) => (k, Panic)
  end.

Definition sys_fd_write (frame : SyscallFrame) : Op K Z (flow Z) :=
  if (Z.of_nat MAX_FDS <=? f_rdi frame) || (MAX_SYSCALL_BUFFER <? f_rdx frame)
  then fail SYS_ERR_EINVAL
  else if f_rdx frame =? 0 then mret (Returned 0)
  else
    buffer ← or_return SYS_ERR_EFAULT
               (copy_from_current_user (f_rsi frame) (Z.to_nat (f_rdx frame)));
    fd_write_loop frame buffer.

Definition sys_pipe (frame : SyscallFrame) : Op K Z (flow Z) :=
  _ ← or_return SYS_ERR_EFAULT (validate_current_user_range (f_rdi frame) 8 true);
  _ ← or_return SYS_ERR_EFAULT (validate_current_user_range (f_rsi frame) 8 true);
  '(read_fd, write_fd) ← or_return SYS_ERR_EIO create_pipe_for_current;
  mret (Returned (Z.lor (Z.of_nat read_fd) (Z.shiftl (Z.of_nat write_fd) 32))).

(** [Err(InvalidFd) => SYS_ERR_EINVAL, Err(_) => SYS_ERR_EIO]. *)
Definition close_errno (e : SchedulerError) : Z :=
  match e with InvalidFd => SYS_ERR_EINVAL | _ => SYS_ERR_EIO end.

Definition sys_close (frame : SyscallFrame) : Op K Z (flow Z) :=
  if Z.of_nat MAX_FDS <=? f_rdi frame then fail SYS_ERR_EINVAL
  else
    _ ← map_error close_errno (close_current_fd (Z.to_nat (f_rdi frame)));
    _ ← wake_all_blocked_tasks;
    mret (Returned 0).

Definition sys_dup2 (frame : SyscallFrame) : Op K Z (flow Z) :=
  if (Z.of_nat MAX_FDS <=? f_rdi frame) || (Z.of_nat MAX_FDS <=? f_rsi frame)
  then fail SYS_ERR_EINVAL
  else
    _ ← map_error close_errno
          (duplicate_current_fd (Z.to_nat (f_rdi frame)) (Z.to_nat (f_rsi frame)));
    mret (Returned (f_rsi frame)).

Definition sys_yield : Op K Z (flow Z) :=
  blocking (fun e => match e with NoRunnableTasks => 0 | _ => SYS_ERR_EIO end) yield_now.

Definition sys_sleep (ticks : Z) : Op K Z (flow Z) :=
  if MAX_SYSCALL_SLEEP_TICKS <? ticks then fail SYS_ERR_E2BIG
  else blocking (fun _ => SYS_ERR_EIO) (sleep_ticks ticks).

(** The part of a path argument that four handlers repeat: the bytes from user
    memory, without a NUL, in UTF-8. *)
Definition copy_path (address : Z) (path_length : nat) : Op K Z (list Z) :=
  path_bytes ← or_return SYS_ERR_EFAULT (copy_from_current_user address path_length);
  if contains_nul path_bytes then fail SYS_ERR_EINVAL
  else if negb (valid_utf8 path_bytes) then fail SYS_ERR_EINVAL
  else mret path_bytes.

(** [match] on the result of a launch. *)
Definition launch_errno (e : ProgramError.t) : Z :=
  match e with
  | ProgramError.FileNotFound => SYS_ERR_ENOENT
  | ProgramError.InvalidExtension
  | ProgramError.InvalidAppFormat
  | ProgramError.UnsupportedAppVersion
  | ProgramError.InvalidArguments => SYS_ERR_EINVAL
  | ProgramError.ImageTooLarge => SYS_ERR_E2BIG
  | _ => SYS_ERR_EIO
  end.

(** [reserve] and [stack_base]: the allocations of the launch. *)
Definition launch (reserve : nat -> bool) (stack_base : Z) (path : list Z)
  (arguments : list (list Z)) : Op K Z (flow Z) :=
  id ← map_error launch_errno
         (launch_from_ext2_with_arguments from_start_address try_new trampoline reserve stack_base
            path arguments);
  mret (Returned id).

Definition sys_spawn (reserve : nat -> bool) (stack_base : Z) (frame : SyscallFrame) :
  Op K Z (flow Z) :=
  if f_rsi frame =? 0 then fail SYS_ERR_EINVAL
  else if Z.of_nat MAX_SYSCALL_PATH <? f_rsi frame then fail SYS_ERR_E2BIG
  else
    path ← copy_path (f_rdi frame) (Z.to_nat (f_rsi frame));
    if bool_decide (path = []) then fail SYS_ERR_EINVAL
    else launch reserve stack_base path [].

(** The [while] loop over the bytes of an argument, [remaining] of which fit. *)
Fixpoint read_argument (argument_address : Z) (remaining : nat) (len : nat) :
  Op K Z (list Z) :=
  match remaining with
  | O => fail SYS_ERR_E2BIG
  | S remaining =>
      byte_address ← lift (ok_or (checked_add u64_limit argument_address (Z.of_nat len))
                             SYS_ERR_EFAULT);
      byte ← or_return SYS_ERR_EFAULT (copy_from_current_user byte_address 1);
      if bool_decide (byte = [0]) then mret []
      else
        rest ← read_argument argument_address remaining (S len);
        mret (byte ++ rest)
  end.

(** The loop over the arguments, with [total_length] so far. *)
Fixpoint read_arguments (argv : Z) (remaining index : nat) (total_length : Z) :
  Op K Z (list (list Z)) :=
  match remaining with
  | O => mret []
  | S remaining =>
      pointer_address ← lift (ok_or (checked_add u64_limit argv (Z.of_nat index * 8)) SYS_ERR_EFAULT);
      pointer_bytes ← or_return SYS_ERR_EFAULT (copy_from_current_user pointer_address 8);
      argument ← read_argument (le_decode pointer_bytes) MAX_SYSCALL_PATH 0;
      if negb (valid_utf8 argument) then fail SYS_ERR_EINVAL
      else
        let total := total_length + (Z.of_nat (length argument) + 1) in
        if MAX_PROGRAM_ARGUMENT_BYTES <? total then fail SYS_ERR_E2BIG
        else
          rest ← read_arguments argv remaining (S index) total;
          mret (argument :: rest)
  end.

Definition sys_spawn_with_arguments (reserve : nat -> bool) (stack_base : Z)
  (frame : SyscallFrame) : Op K Z (flow Z) :=
  if MAX_PROGRAM_ARGUMENTS <? f_r10 frame then fail SYS_ERR_E2BIG
  else
    _ ← (if f_r10 frame =? 0 then mret tt
         else or_return SYS_ERR_EFAULT
                (validate_current_user_range (f_rdx frame) (f_r10 frame * 8) false));
    if f_rsi frame =? 0 then fail SYS_ERR_EINVAL
    else if Z.of_nat MAX_SYSCALL_PATH <? f_rsi frame then fail SYS_ERR_E2BIG
    else
      path ← copy_path (f_rdi frame) (Z.to_nat (f_rsi frame));
      if bool_decide (path = []) then fail SYS_ERR_EINVAL
      else
        arguments ← read_arguments (f_rdx frame) (Z.to_nat (f_r10 frame)) 0 0;
        launch reserve stack_base path arguments.

Definition wait_errno (e : SchedulerError) : Z :=
  match e with
  | NoChild | UnknownTask => SYS_ERR_ENOENT
  | NotChild => SYS_ERR_EINVAL
  | _ => SYS_ERR_EIO
  end.

(** The rest of [sys_wait] after the validation: a wait that blocks goes on here. *)
Definition wait_loop (frame : SyscallFrame) : Op K Z (flow Z) :=
  f ← map_error wait_errno
        (wait_for_child try_new (if f_rdi frame =? 0 then None else Some (f_rdi frame)));
  match f with
  | Switched => mret Switched
  | Returned (task, status) =>
      _ ← or_return SYS_ERR_EFAULT
            (copy_to_current_user (f_rsi frame) (le_encode 8 (default 0 status)));
      mret (Returned task)
  end.

Definition sys_wait (frame : SyscallFrame) : Op K Z (flow Z) :=
  _ ← or_return SYS_ERR_EFAULT (validate_current_user_range (f_rsi frame) 8 true);
  wait_loop frame.

Definition sys_write (frame : SyscallFrame) : Op K Z (flow Z) :=
  if MAX_SYSCALL_BUFFER <? f_rsi frame then fail SYS_ERR_E2BIG
  else if f_rsi frame =? 0 then mret (Returned 0)
  else
    buffer ← or_return SYS_ERR_EFAULT
               (copy_from_current_user (f_rdi frame) (Z.to_nat (f_rsi frame)));
    _ ← on_io (modify (fun s => set_console (io_console s ++ buffer) s));
    mret (Returned (f_rsi frame)).

(** [drivers::input::read_available]. *)
Definition read_available {E} (n : nat) : Op K E (nat * list Z) :=
  i ← gets (fun k => io_input (k_io k));
  '(count, out, i) ← lift (expect (InputBuffer_read i (replicate n 0)));
  _ ← on_io (modify (set_input i));
  mret (count, out).

Definition sys_read (frame : SyscallFrame) : Op K Z (flow Z) :=
  if MAX_SYSCALL_BUFFER <? f_rsi frame then fail SYS_ERR_E2BIG
  else if f_rsi frame =? 0 then mret (Returned 0)
  else
    _ ← or_return SYS_ERR_EFAULT (validate_current_user_range (f_rdi frame) (f_rsi frame) true);
    '(count, buffer) ← read_available (Z.to_nat (f_rsi frame));
    if (count =? 0)%nat then mret (Returned 0)
    else
      bytes ← lift (buffer_prefix buffer count);
      _ ← or_return SYS_ERR_EFAULT (copy_to_current_user (f_rdi frame) bytes);
      mret (Returned (Z.of_nat count)).

(** The checks before the disk is used: the sizes and the output buffer. *)
Definition check_output (frame : SyscallFrame) : Op K Z unit :=
  if f_r10 frame =? 0 then mret tt
  else or_return SYS_ERR_EFAULT (validate_current_user_range (f_rdx frame) (f_r10 frame) true).

(** [if count != 0 && copy_to_current_user(..).is_err()]. *)
Definition copy_output (frame : SyscallFrame) (bytes : list Z) : Op K Z (flow Z) :=
  _ ← (if bool_decide (bytes = []) then mret tt
       else or_return SYS_ERR_EFAULT (copy_to_current_user (f_rdx frame) bytes));
  mret (Returned (Z.of_nat (length bytes))).

(** [Err(InvalidPath) => SYS_ERR_EINVAL, Err(_) => SYS_ERR_EIO]. *)
Definition path_errno (e : Ext2Error.t) : Z :=
  match e with Ext2Error.InvalidPath => SYS_ERR_EINVAL | _ => SYS_ERR_EIO end.

(** [ext2::read_file(path, &mut buffer[..capacity])]: the buffer and the count. *)
Definition read_file (path : list Z) (capacity : nat) :
  Op K Ext2Error.t (option (list Z * nat)) := fun k =>
  let '(disk, output, r) := fs_read_file path (replicate capacity 0) (io_disk (k_io k)) in
  (set_io (set_disk disk (k_io k)) k,
   match r with
   | Ok (Some (count, _)) => Ok (Some (output, count))
   | Ok None => Ok None
   | Err e => Err e
   | Panic => Panic
   end).

Definition sys_read_file (frame : SyscallFrame) : Op K Z (flow Z) :=
  if f_rsi frame =? 0 then fail SYS_ERR_EINVAL
  else if (Z.of_nat MAX_SYSCALL_PATH <? f_rsi frame) || (MAX_SYSCALL_BUFFER <? f_r10 frame)
  then fail SYS_ERR_E2BIG
  else
    _ ← check_output frame;
    path ← copy_path (f_rdi frame) (Z.to_nat (f_rsi frame));
    found ← map_error path_errno (read_file path (Z.to_nat (f_r10 frame)));
    match found with
    | Some (output, count) =>
        bytes ← lift (buffer_prefix output count);
        copy_output frame bytes
    | None => fail SYS_ERR_ENOENT
    end.

Definition write_errno (e : Ext2Error.t) : Z :=
  match e with
  | Ext2Error.InvalidPath => SYS_ERR_EINVAL
  | Ext2Error.NotFound => SYS_ERR_ENOENT
  | _ => SYS_ERR_EIO
  end.

Definition sys_write_file (frame : SyscallFrame) : Op K Z (flow Z) :=
  if f_rsi frame =? 0 then fail SYS_ERR_EINVAL
  else if (Z.of_nat MAX_SYSCALL_PATH <? f_rsi frame) || (MAX_SYSCALL_BUFFER <? f_r10 frame)
  then fail SYS_ERR_E2BIG
  else
    path ← copy_path (f_rdi frame) (Z.to_nat (f_rsi frame));
    if bool_decide (path = []) then fail SYS_ERR_EINVAL
    else
      contents ← (if f_r10 frame =? 0 then mret []
                  else or_return SYS_ERR_EFAULT
                         (copy_from_current_user (f_rdx frame) (Z.to_nat (f_r10 frame))));
      _ ← on_io (on_disk (fs_write_file path contents) write_errno);
      mret (Returned 0).

(** [ext2::for_each_entry(path, ..)]: the entries the closure sees. *)
Definition directory_entries (path : list Z) : Op K Ext2Error.t (list (list Z * bool * Z)) := fun k =>
  let '(disk, entries, r) := fs_for_each_entry path (io_disk (k_io k)) in
  (set_io (set_disk disk (k_io k)) k,
   match r with Ok _ => Ok entries | Err e => Err e | Panic => Panic end).

(** The closure run on the entries: the bytes of [output[..length]]. *)
Definition list_entries (capacity : nat) (entries : list (list Z * bool * Z)) :
  outcome Empty_set (list Z) :=
  let '((output, len), r) :=
    for_op entries (list_entry capacity) (replicate (Z.to_nat MAX_SYSCALL_BUFFER) 0, 0%nat) in
  _ ← r; index_range output 0 (Z.of_nat len).

Definition sys_list_dir (frame : SyscallFrame) : Op K Z (flow Z) :=
  if (Z.of_nat MAX_SYSCALL_PATH <? f_rsi frame) || (MAX_SYSCALL_BUFFER <? f_r10 frame)
  then fail SYS_ERR_E2BIG
  else
    _ ← check_output frame;
    path ← copy_path (f_rdi frame) (Z.to_nat (f_rsi frame));
    entries ← map_error path_errno (directory_entries path);
    bytes ← lift (map_err (fun e => match e : Empty_set with end)
              (list_entries (Z.to_nat (f_r10 frame)) entries));
    copy_output frame bytes.

(** [exit_current_with_code], which does not return. *)
Definition sys_exit (code : Z) : Op K Z (flow Z) :=
  blocking (fun _ => 0) (exit_current_with_status_and_group (Some code) false).

Definition syscall_handler (reserve : nat -> bool) (stack_base : Z) (frame : SyscallFrame) :
  Op K Z (flow Z) :=
  match f_rax frame with
  | 0 => k ← get; mret (Returned (k_ticks k))
  | 1 => sys_exit (f_rdi frame)
  | 2 => sys_write frame
  | 3 => sys_read frame
  | 4 => sys_read_file frame
  | 5 => sys_write_file frame
  | 6 => sys_yield
  | 7 => sys_sleep (f_rdi frame)
  | 8 => sys_spawn reserve stack_base frame
  | 9 => sys_wait frame
  | 10 => sys_spawn_with_arguments reserve stack_base frame
  | 11 => sys_fd_read frame
  | 12 => sys_fd_write frame
  | 13 => sys_pipe frame
  | 14 => sys_close frame
  | 15 => sys_dup2 frame
  | 16 => sys_list_dir frame
  | _ => mret (Returned SYSCALL_NOT_IMPLEMENTED)
  end.

(** [syscall_dispatch]: the value in [rax], or a switch. *)
Definition syscall_dispatch (reserve : nat -> bool) (stack_base : Z) (frame : SyscallFrame) :
  Op K Empty_set (flow Z) := fun k =>
  match syscall_handler reserve stack_base frame k with
  | (k, Ok f) => (k, Ok f)
  | (k, Err errno) => (k, Ok (Returned errno))
  | (k, Panic) => (k, Panic)
  end.

End syscall.
