(* ===== verification/SyscallOk.v ===== *)
(** * System calls and the kernel invariant

    What the parts of a system call handler do: directory listings, copies from and
    to user memory, programs loaded and tasks created, and that each handler keeps
    the invariant of the kernel. *)

From S2P Require Import Prelude Ring Input Utf8 FileSystem Tar Fd FrameAlloc UserRange Paging Scheduler Kernel KernelOk KernelInv KernelProps UserProgram ProgramLoad Syscall.

Local Open Scope Z_scope.

(** ** Directory listings *)

Definition is_digit (b : Z) : Prop := 48 <= b <= 57.

(** The number a list of decimal digits stands for. *)
Definition decimal_value (digits : list Z) : Z :=
  foldl (fun value digit => 10 * value + (digit - 48)) 0 digits.

(** The digits of a [u64], most significant first. *)
Definition decimal (value : Z) : list Z := reverse (default [] (decimal_digits 20 value)).

(** The line of an entry. *)
Definition entry_line (entry : list Z * bool * Z) : list Z :=
  let '(name, is_dir, size) := entry in
  decimal size ++ [32] ++ name ++ (if is_dir : bool then [47] else []) ++ [10].

(** A line is added when all of it fits. *)
Definition add_line (capacity : nat) (out : list Z) (entry : list Z * bool * Z) : list Z :=
  if (length out + length (entry_line entry) <=? capacity)%nat then out ++ entry_line entry else out.

Lemma decimal_value_app l k : decimal_value (l ++ k) =
  foldl (fun value digit => 10 * value + (digit - 48)) (decimal_value l) k.
Proof. apply foldl_app. Qed.

Lemma decimal_digits_spec room value :
  0 <= value < 10 ^ Z.of_nat (S room) ->
  exists digits, decimal_digits (S room) value = Some digits /\ Forall is_digit digits /\
    decimal_value (reverse digits) = value /\ (1 <= length digits <= S room)%nat /\
    (forall d, last digits = Some d -> d = 48 -> value = 0).
Proof.
  revert value. induction room as [|room IH]; intros value Hv;
    rewrite Nat2Z.inj_succ, Z.pow_succ_r in Hv by lia;
    pose proof (Z.div_mod value 10 ltac:(lia)) as Hdm;
    pose proof (Z.mod_pos_bound value 10 ltac:(lia)) as Hm;
    cbn [decimal_digits]; destruct (Z.eqb_spec (value / 10) 0) as [H0|H0].
  2: { change (10 ^ Z.of_nat 0) with 1 in Hv. lia. }
  3: { destruct (IH (value / 10)) as (rest & E & Hd & Hval & Hlen & Hlast); [lia|].
    cbn [decimal_digits] in E. rewrite E. exists (48 + value mod 10 :: rest).
    split; [done|]. split; [|split; [|split]].
    - constructor; [unfold is_digit; lia|done].
    - rewrite reverse_cons, decimal_value_app, Hval. simpl. lia.
    - simpl. lia.
    - intros d Hd' ->. exfalso. destruct rest; [simpl in Hlen; lia|]. simpl in Hd'.
      specialize (Hlast _ Hd' eq_refl). lia. }
  all: exists [48 + value mod 10]; split; [done|]; split; [|split; [|split]];
    [apply Forall_singleton; unfold is_digit; lia|unfold decimal_value; simpl; lia|simpl; lia|].
  all: intros d [= <-]; lia.
Qed.

Lemma decimal_spec value :
  0 <= value < u64_limit ->
  decimal_digits 20 value = Some (reverse (decimal value)) /\ Forall is_digit (decimal value) /\
  decimal_value (decimal value) = value /\ (1 <= length (decimal value) <= 20)%nat /\
  (head (decimal value) = Some 48 -> value = 0).
Proof.
  intros Hv. destruct (decimal_digits_spec 19 value) as (digits & E & Hd & Hval & Hlen & Hlast).
  { change (10 ^ Z.of_nat 20) with 100000000000000000000. lia. }
  unfold decimal. rewrite E. simpl. rewrite reverse_involutive, length_reverse.
  split; [done|]. split; [by apply Forall_reverse|]. split; [done|]. split; [done|].
  rewrite head_reverse. intros Hh. by apply (Hlast 48).
Qed.

(** Writing at the end of the filled part of a buffer. *)
Definition filled (buffer : list Z * nat) (out : list Z) : Prop :=
  length buffer.1 = Z.to_nat MAX_SYSCALL_BUFFER /\ buffer.2 = length out /\
  take (length out) buffer.1 = out.

Lemma filled_append {E} output out bytes :
  filled (output, length out) out -> (length out + length bytes <= Z.to_nat MAX_SYSCALL_BUFFER)%nat ->
  exists output', copy_at (E := E) output (length out) bytes = Ok output' /\
    filled (output', length (out ++ bytes)) (out ++ bytes).
Proof.
  intros (Hl & _ & Ht) Hb. cbn [fst] in *.
  destruct (copy_at_append (E := E) output out bytes Ht) as (o' & -> & Hl' & Ht'); [lia|].
  exists o'. split; [done|]. unfold filled. cbn [fst snd]. split; [congruence|]. done.
Qed.

Lemma append_decimal_spec {E} value output out :
  0 <= value < u64_limit -> filled (output, length out) out ->
  if (length out + length (decimal value) <=? Z.to_nat MAX_SYSCALL_BUFFER)%nat
  then exists output', append_decimal (E := E) value (output, length out)
         = ((output', length (out ++ decimal value)), Ok true) /\
       filled (output', length (out ++ decimal value)) (out ++ decimal value)
  else append_decimal (E := E) value (output, length out) = ((output, length out), Ok false).
Proof.
  intros Hv Hf. destruct (decimal_spec value Hv) as (E1 & _ & _ & _ & _).
  unfold append_decimal, mbind, op_bind, get, lift, put. rewrite E1. cbn [expect].
  rewrite length_reverse, reverse_involutive.
  pose proof Hf as (Hl & _ & _). cbn [fst] in Hl. rewrite Hl.
  destruct (Nat.leb_spec (length out + length (decimal value)) (Z.to_nat MAX_SYSCALL_BUFFER)) as [Hle|Hgt].
  - rewrite (proj2 (Nat.ltb_ge _ _)) by lia.
    destruct (filled_append (E := E) _ _ (decimal value) Hf Hle) as (o' & -> & Hf').
    exists o'. rewrite length_app in *. done.
  - by rewrite (proj2 (Nat.ltb_lt _ _)) by lia.
Qed.

Lemma push_byte_spec {E} b output out :
  filled (output, length out) out -> (length out < Z.to_nat MAX_SYSCALL_BUFFER)%nat ->
  exists output', push_byte (E := E) b (output, length out) = ((output', length (out ++ [b])), Ok tt) /\
    filled (output', length (out ++ [b])) (out ++ [b]).
Proof.
  intros Hf Hl. unfold push_byte, mbind, op_bind, get, lift, put.
  destruct (filled_append (E := E) _ _ [b] Hf) as (o' & -> & Hf'); [simpl; lia|].
  exists o'. rewrite length_app in *. simpl in *. by rewrite Nat.add_1_r in *.
Qed.

Lemma filled_rewind output out more :
  filled (output, length (out ++ more)) (out ++ more) -> filled (output, length out) out.
Proof.
  intros (Hl & _ & Ht). split; [done|]. split; [done|]. cbn [fst] in *.
  rewrite length_app in Ht.
  replace (take (length out) output) with (take (length out) (take (length out + length more) output))
    by (rewrite take_take; f_equal; lia).
  by rewrite Ht, take_app_length.
Qed.

(** The name, the slash and the newline, when there is room. *)
Lemma entry_tail_spec {E} name (is_dir : bool) output out :
  filled (output, length out) out ->
  (length out + (length name + (if is_dir then 1 else 0) + 1) <= Z.to_nat MAX_SYSCALL_BUFFER)%nat ->
  exists output', (output0 ← lift (copy_at output (length out) name);
     _ ← put (output0, (length out + length name)%nat);
     _ ← (if is_dir then push_byte 47 else mret tt); push_byte (E := E) 10) (output, length out)
    = ((output', length (out ++ name ++ (if is_dir then [47] else []) ++ [10])), Ok tt) /\
    filled (output', length (out ++ name ++ (if is_dir then [47] else []) ++ [10]))
      (out ++ name ++ (if is_dir then [47] else []) ++ [10]).
Proof.
  intros Hf Hl. unfold mbind, op_bind, lift, put.
  destruct (filled_append (E := E) _ _ name Hf) as (o1 & -> & Hf1); [destruct is_dir; lia|].
  rewrite <-length_app. destruct is_dir; cbn [app].
  - destruct (push_byte_spec (E := E) 47 _ _ Hf1) as (o2 & -> & Hf2); [rewrite length_app; lia|].
    destruct (push_byte_spec (E := E) 10 _ _ Hf2) as (o3 & -> & Hf3); [rewrite !length_app; simpl; lia|].
    rewrite <-!app_assoc in *. eauto.
  - unfold mret, op_ret.
    destruct (push_byte_spec (E := E) 10 _ _ Hf1) as (o3 & -> & Hf3); [rewrite !length_app; simpl; lia|].
    rewrite <-!app_assoc in *. eauto.
Qed.

Lemma list_entry_spec {E} capacity entry output out :
  0 <= entry.2 < u64_limit -> (capacity <= Z.to_nat MAX_SYSCALL_BUFFER)%nat ->
  filled (output, length out) out ->
  exists output', list_entry (E := E) capacity entry (output, length out)
      = ((output', length (add_line capacity out entry)), Ok tt) /\
    filled (output', length (add_line capacity out entry)) (add_line capacity out entry).
Proof.
  destruct entry as [[name is_dir] size]. cbn [snd]. intros Hs Hc Hf.
  assert (length (entry_line (name, is_dir, size)) =
    length (decimal size) + 1 + (length name + (if is_dir then 1 else 0) + 1))%nat as Hll.
  { unfold entry_line. rewrite !length_app. destruct is_dir; simpl; lia. }
  destruct (decimal_spec size Hs) as (_ & _ & _ & Hd & _).
  unfold list_entry. unfold mbind at 1, op_bind at 1, get at 1. unfold add_line. rewrite Hll.
  destruct (Nat.leb_spec capacity (length out)) as [Hfull|Hroom].
  { rewrite (proj2 (Nat.leb_gt _ _)) by lia. by exists output. }
  pose proof (append_decimal_spec (E := E) size output out Hs Hf) as Ha. unfold mbind at 1, op_bind at 1.
  destruct (Nat.leb_spec (length out + length (decimal size)) (Z.to_nat MAX_SYSCALL_BUFFER)) as [Hle|Hgt].
  2: { rewrite Ha. unfold mbind, op_bind, get, modify. cbn [negb orb].
    rewrite (proj2 (Nat.leb_gt _ _)) by lia. by exists output. }
  destruct Ha as (o1 & -> & Hf1). unfold mbind at 1, op_bind at 1, get at 1. cbn [negb orb].
  rewrite length_app.
  destruct (Nat.ltb_spec capacity (length out + length (decimal size) + 1)) as [Hgt1|Hle1].
  { unfold modify. rewrite (proj2 (Nat.leb_gt _ _)) by lia. exists o1. split; [done|].
    by eapply filled_rewind. }
  unfold mbind at 1, op_bind at 1. rewrite <-length_app.
  destruct (push_byte_spec (E := E) 32 _ _ Hf1) as (o2 & -> & Hf2); [rewrite length_app; lia|].
  unfold mbind at 1, op_bind at 1, get at 1.
  assert (length ((out ++ decimal size) ++ [32%Z]) = length out + length (decimal size) + 1)%nat as Hlen
    by (rewrite !length_app; simpl; lia).
  destruct (Nat.leb_spec (length ((out ++ decimal size) ++ [32%Z]) +
    (length name + (if is_dir then 1 else 0) + 1)) capacity) as [Hfit|Hnofit].
  - rewrite (proj2 (Nat.leb_le _ _)) by lia.
    destruct (entry_tail_spec (E := E) name is_dir o2 _ Hf2) as (o3 & -> & Hf3); [lia|].
    assert (((out ++ decimal size) ++ [32]) ++ name ++ (if is_dir then [47] else []) ++ [10] =
      out ++ entry_line (name, is_dir, size)) as <- by (unfold entry_line; by rewrite <-!app_assoc).
    by exists o3.
  - unfold modify. rewrite (proj2 (Nat.leb_gt _ _)) by lia. exists o2. split; [done|].
    rewrite <-app_assoc in Hf2. by eapply filled_rewind.
Qed.

Lemma list_entries_spec capacity entries :
  (capacity <= Z.to_nat MAX_SYSCALL_BUFFER)%nat -> Forall (fun e => 0 <= e.2 < u64_limit) entries ->
  list_entries capacity entries = Ok (foldl (add_line capacity) [] entries).
Proof.
  intros Hc Hs. unfold list_entries.
  assert (forall output out, filled (output, length out) out -> exists output',
    for_op entries (list_entry (E := Empty_set) capacity) (output, length out)
      = ((output', length (foldl (add_line capacity) out entries)), Ok tt) /\
    filled (output', length (foldl (add_line capacity) out entries)) (foldl (add_line capacity) out entries))
    as Hloop.
  { induction Hs as [|e entries He _ IH]; intros output out Hf; [by exists output|].
    cbn [for_op foldl]. unfold mbind, op_bind.
    destruct (list_entry_spec (E := Empty_set) capacity e output out He Hc Hf) as (o1 & -> & Hf1).
    by apply IH. }
  destruct (Hloop (replicate (Z.to_nat MAX_SYSCALL_BUFFER) 0) []) as (o & Eo & (Hol & _ & Ht)).
  { split; [apply length_replicate|]. done. }
  cbn [length fst snd] in *. rewrite Eo. cbn [mbind outcome_bind].
  pose proof (f_equal length Ht) as Htl. rewrite length_take in Htl.
  rewrite index_range_in by lia. rewrite Nat2Z.id. unfold slice. change (Z.to_nat 0) with 0%nat.
  by rewrite drop_0, Nat.sub_0_r, Ht.
Qed.

Lemma listing_length capacity out entries :
  (length out <= capacity)%nat -> (length (foldl (add_line capacity) out entries) <= capacity)%nat.
Proof.
  revert out. induction entries as [|e entries IH]; intros out Hl; [done|]. cbn [foldl]. apply IH.
  unfold add_line. destruct (Nat.leb_spec (length out + length (entry_line e)) capacity); [|done].
  rewrite length_app. lia.
Qed.

(** ** Loading and the root of the kernel's tables *)

Section roots.
Context {PT : Type} `{Mapper PT} `{DirectMap PT}.
Variable from_start_address : Z -> option Z.
Variable try_new : Z -> option Z.

Abbreviation keeps_root kr op := (preserves (fun m : MemoryManager PT => mm_kernel_root m = kr) op).

(** The manager is there, with its kernel root. *)
Definition mem_root (kr : Z) (mem : @Memory PT) : Prop :=
  exists m, mem = Some (Ok m) /\ mm_kernel_root m = kr.

Abbreviation keeps_mem kr op := (preserves (mem_root kr) op).

(** The same beside an address space, whose root stays. *)
Definition space_root (kr : Z) (r : option Z) (s : @Memory PT * AddressSpace) : Prop :=
  mem_root kr s.1 /\ root s.2 = r.

Lemma preserves_map_error {S E F A} (I : S -> Prop) (f : E -> F) (op : Op S E A) :
  preserves I op -> preserves I (map_error f op).
Proof. intros Hop s Hs. unfold map_error. specialize (Hop s Hs). by destruct (op s). Qed.

Lemma preserves_modify {S E} (I : S -> Prop) (f : S -> S) :
  (forall s, I s -> I (f s)) -> preserves I (modify (E := E) f).
Proof. intros Hf s Hs. by apply Hf. Qed.

Lemma preserves_get {S E} (I : S -> Prop) : preserves I (get (S := S) (E := E)).
Proof. by intros s Hs. Qed.

Hint Resolve preserves_bind preserves_lift preserves_fail preserves_ret preserves_map_error
  preserves_get : core.

Lemma allocate_frame_root {E} kr : keeps_root kr (allocate_frame from_start_address (E := E)).
Proof.
  intros m Hm. unfold allocate_frame.
  by destruct (next_usable_frame from_start_address (mm_allocator m)) as [a [f|e|]].
Qed.

Lemma map_or_clean_up_root {E} kr r page frame flags (err : MapToError -> E) undo :
  keeps_root kr undo -> keeps_root kr (map_or_clean_up r page frame flags err undo).
Proof.
  intros Hu m Hm. unfold map_or_clean_up.
  assert (keeps_root kr (map_to_at (H := H) r page frame flags err)) as Hmap.
  { intros m1 Hm1. unfold map_to_at.
    by destruct (pt_map_to r page frame flags (mm_tables m1) (mm_allocator m1)) as [[t a] x]. }
  specialize (Hmap m Hm). destruct (map_to_at r page frame flags err m) as [m1 [[]|e|]]; [done| |done].
  apply (preserves_bind (fun m : MemoryManager PT => mm_kernel_root m = kr) (clean_up_at r page)
    (fun _ => _ ← undo; fail e)); [apply clean_up_root|auto|done].
Qed.

Lemma mm_map_user_page_root kr r page access :
  keeps_root kr (mm_map_user_page from_start_address try_new r page access).
Proof.
  unfold mm_map_user_page. apply preserves_bind; [apply allocate_frame_root|]. intros found.
  apply preserves_bind; [auto|]. intros f. apply preserves_bind; [auto|]. intros m.
  destruct (physical_to_virtual try_new m f);
    [|apply preserves_bind; [apply assert_reclaim_root|auto]].
  apply preserves_bind; [by apply preserves_modify|]. intros _.
  destruct (physical_to_virtual try_new m r);
    [|apply preserves_bind; [apply assert_reclaim_root|auto]].
  apply preserves_bind; [apply map_or_clean_up_root, assert_reclaim_root|auto].
Qed.

Lemma with_manager_mem {E A} kr (op : Op (MemoryManager PT) E A) err :
  keeps_root kr op -> keeps_mem kr (with_manager op err).
Proof.
  intros Hop mem (m & -> & Hm). unfold with_manager. specialize (Hop m Hm).
  destruct (op m) as [m' r]. by exists m'.
Qed.

Lemma map_user_page_root kr r reserved page access :
  preserves (space_root kr r) (map_user_page from_start_address try_new reserved page access).
Proof.
  intros [mem space] [Hm Hr]. cbn [fst snd] in *. unfold map_user_page.
  assert (space_root kr r (mem, space)) as Hs by done.
  destruct (root space) as [r0|] eqn:Hroot; [|done].
  destruct (negb _); [done|]. destruct (existsb _ _); [done|]. destruct (negb reserved); [done|].
  pose proof (with_manager_mem kr _ AsMapping (mm_map_user_page_root kr r0 page access) mem Hm) as Hw.
  destruct (with_manager _ _ mem) as [mem' [f|e|]]; split; simpl; congruence || done.
Qed.

Lemma create_address_space_root kr mem mem' res :
  create_address_space from_start_address try_new mem = (mem', res) -> mem_root kr mem ->
  mem_root kr mem' /\ forall space, res = Ok space -> is_Some (root space).
Proof.
  intros E1 Hmem. split.
  - replace mem' with (create_address_space from_start_address try_new mem).1 by by rewrite E1.
    revert Hmem. apply with_manager_mem.
    unfold mm_create_address_space. apply preserves_bind; [auto|]. intros m.
    destruct (pt_level4 _ _ _); [auto|]. apply preserves_bind; [apply allocate_frame_root|]. intros found.
    apply preserves_bind; [auto|]. intros r. apply preserves_bind; [auto|]. intros m1.
    destruct (physical_to_virtual _ _ _); [|apply preserves_bind; [apply assert_reclaim_root|auto]].
    apply preserves_bind; [by apply preserves_modify|auto].
  - intros space ->. destruct Hmem as (m & -> & _).
    unfold create_address_space, with_manager, mm_create_address_space in E1. unfold_op.
    destruct (pt_level4 _ _ _); [done|]. destruct (allocate_frame _ _) as [m1 [[f|]|e|]]; simpl in E1; try done.
    destruct (physical_to_virtual _ _ _); [by injection E1 as _ <-|].
    by destruct (assert_reclaim _ _) as [m2 [[]|e|]].
Qed.

Lemma copy_pages_root kr bytes offset pages copied address :
  keeps_mem kr (copy_pages try_new bytes offset pages copied address).
Proof.
  revert copied address. induction pages as [|[page f] pages IH]; intros copied address;
    cbn [copy_pages]; [auto|].
  destruct (_ =? _); [auto|]. destruct (_ <=? _); [auto|]. destruct (_ <? _); [auto|].
  apply preserves_bind; [auto|]. intros destination. apply preserves_bind; [|auto].
  apply preserves_modify. intros mem (m & -> & Hm). by eexists.
Qed.

Lemma copy_to_pages_root kr r bytes pages offset start :
  preserves (space_root kr r) (on_memory (copy_to_pages try_new bytes pages offset start)).
Proof.
  intros [mem space] [Hm Hr]. unfold on_memory.
  assert (keeps_mem kr (copy_to_pages try_new bytes pages offset start)) as Hop.
  { apply preserves_bind; [apply copy_pages_root|]. intros copied.
    destruct (_ =? _); [auto|by intros ?]. }
  specialize (Hop mem Hm). by destruct (copy_to_pages _ _ _ _ _ mem).
Qed.

Lemma map_segment_root kr r reserve base access n index :
  preserves (space_root kr r) (map_segment from_start_address try_new reserve base access n index).
Proof.
  revert index. induction n as [|n IH]; intros index; cbn [map_segment]; [auto|].
  apply preserves_bind; [auto|]. intros address.
  apply preserves_bind; [apply preserves_map_error, map_user_page_root|auto].
Qed.

Lemma fill_address_space_root kr r reserve code data arguments cn dn sn data_start stack_start
  vector offset :
  preserves (space_root kr r) (fill_address_space from_start_address try_new reserve code data
    arguments cn dn sn data_start stack_start vector offset).
Proof.
  unfold fill_address_space. do 3 (apply preserves_bind; [apply map_segment_root|intros ?]).
  do 2 (apply preserves_bind; [auto|intros ?]; apply preserves_bind; [apply copy_to_pages_root|intros ?]).
  apply copy_to_pages_root.
Qed.

Lemma or_destroy_space_root kr cr3 space op mem mem' res :
  preserves (space_root kr (root space)) op -> mem_root kr mem ->
  or_destroy_space try_new cr3 space op mem = (mem', res) ->
  mem_root kr mem' /\ forall space', res = Ok space' -> root space' = root space.
Proof.
  intros Hop Hm E1. unfold or_destroy_space in E1. specialize (Hop (mem, space) (conj Hm eq_refl)).
  destruct (op (mem, space)) as [[mem1 space1] [[]|e|]]; destruct Hop as [Hm1 Hr1]; cbn [fst snd] in *.
  - injection E1 as <- <-. split; [done|]. by intros space' [= <-].
  - destruct (destroy try_new cr3 (mem1, space1)) as [[mem2 space2] r] eqn:Ed. injection E1 as <- <-.
    split; [exact (destroy_root try_new kr _ _ _ _ _ _ Hm1 Ed)|]. by destruct r.
  - by injection E1 as <- <-.
Qed.

(** A loaded program has an address space, and the memory is still there. *)
Definition loads (kr : Z) (op : Op (@Memory PT) ProgramError.t LoadedProgram) : Prop :=
  forall mem mem' res, op mem = (mem', res) -> mem_root kr mem ->
    mem_root kr mem' /\ forall p, res = Ok p -> is_Some (root (lp_address_space p)).

Lemma loads_lift {A} kr (m : outcome ProgramError.t A) f :
  (forall a, loads kr (f a)) -> loads kr (lift m ≫= f).
Proof.
  intros Hf mem mem' res E1 Hm. unfold mbind, op_bind, lift in E1.
  destruct m as [a|e|]; [by eapply Hf|by injection E1 as <- <-..].
Qed.

Lemma loads_fail kr e : loads kr (fail e).
Proof. by intros mem mem' res [= <- <-] Hm. Qed.

Lemma load_segments_root kr reserve cr3 code data bss_len entry_offset path arguments :
  loads kr (load_segments from_start_address try_new reserve cr3 code data bss_len entry_offset
    path arguments).
Proof.
  unfold load_segments. do 2 (apply loads_lift; intros ?). case_match.
  do 2 (apply loads_lift; intros ?). destruct (negb _); [apply loads_fail|].
  intros mem mem' res E1 Hm. unfold mbind at 1, op_bind at 1, map_error in E1.
  destruct (create_address_space _ _ mem) as [mem1 r1] eqn:E2.
  destruct (create_address_space_root kr _ _ _ E2 Hm) as [Hm1 Hsp].
  destruct r1 as [space|e|]; cbn [map_err] in E1; [|by injection E1 as <- <-..].
  unfold mbind at 1, op_bind at 1 in E1. pose proof Hm1 as (m1 & -> & Hm1').
  cbn [physical_memory_offset] in E1.
  destruct (or_destroy_space try_new cr3 space _ _) as [mem2 r2] eqn:E3.
  destruct (or_destroy_space_root kr cr3 space _ _ _ _ (fill_address_space_root kr _ _ _ _ _ _ _ _ _ _ _ _)
    Hm1 E3) as [Hm2 Hr2].
  destruct r2 as [space2|e|]; [|by injection E1 as <- <-..].
  unfold mbind, op_bind, lift, mret, op_ret in E1.
  repeat case_match; simplify_eq; split; try done; intros p [= <-]; cbn;
    rewrite (Hr2 _ eq_refl); by apply Hsp.
Qed.

Lemma load_image_root kr reserve cr3 path image arguments :
  loads kr (load_image from_start_address try_new reserve cr3 path image arguments).
Proof.
  unfold load_image. destruct (ends_with _ _); [|destruct (ends_with _ _); [|apply loads_fail]].
  - unfold load_raw_image. destruct (bool_decide _); [apply loads_fail|].
    destruct (_ <? _); [apply loads_fail|]. apply load_segments_root.
  - unfold load_app_image. do 4 (apply loads_lift; intros ?). apply load_segments_root.
Qed.

End roots.

(** ** System calls and the kernel invariant *)

Section kernel.
Context {D : Type} `{FileSystem D Ext2Error.t}.
Context {PT : Type} `{Mapper PT} `{DirectMap PT}.
Variable from_start_address : Z -> option Z.
Variable try_new : Z -> option Z.
Variable trampoline idle_entry : Z.
Hypothesis try_new_same : forall address v, try_new address = Some v -> v = address.
Hypothesis try_new_low : forall address, 0 <= address < 2 ^ 47 -> try_new address = Some address.

Abbreviation K := (Kernel D PT).

(** A user task runs: the state in which a system call is entered. *)
Definition user_running (k : K) : Prop :=
  exists i t u, current (k_sched k) = Some i /\ tasks (k_sched k) !! i = Some (Some t) /\
    t_user t = Some u /\ t_is_idle t = false.

Definition entered (kr : Z) (k : K) : Prop := kernel_ok kr k /\ user_running k.

(** The file system does not panic, and reports sizes as [u64] and no more bytes
    than fit. *)
Definition fs_total : Prop := forall path contents output d,
  (fs_write_file path contents d).2 <> Panic /\
  (fs_read_file path output d).2 <> Panic /\
  (forall n total, (fs_read_file path output d).2 = Ok (Some (n, total)) -> (n <= length output)%nat) /\
  length (fs_read_file path output d).1.2 = length output /\
  (fs_for_each_entry path d).2 <> Panic /\
  Forall (fun e => 0 <= e.2 < u64_limit) (fs_for_each_entry path d).1.2.

(** A part of a handler after which the same task runs. *)
Definition stays {E A} (kr : Z) (op : Op K E A) : Prop :=
  forall k k' r, op k = (k', r) -> entered kr k -> r <> Panic /\ entered kr k'.

(** The end of a handler. *)
Definition ends {E A} (kr : Z) (op : Op K E A) : Prop :=
  forall k k' r, op k = (k', r) -> entered kr k -> r <> Panic /\ kernel_ok kr k'.

(** The end of a handler that may panic. *)
Definition ends_or_panics {E A} (kr : Z) (op : Op K E A) : Prop :=
  forall k k' r, op k = (k', r) -> entered kr k -> r <> Panic -> kernel_ok kr k'.

Lemma stays_ends {E A} kr (op : Op K E A) : stays kr op -> ends kr op.
Proof. intros Hop k k' r E1 Hk. by destruct (Hop k k' r E1 Hk) as [? [? _]]. Qed.

Lemma ends_weaken {E A} kr (op : Op K E A) : ends kr op -> ends_or_panics kr op.
Proof. intros Hop k k' r E1 Hk _. by apply (Hop k k' r). Qed.

Lemma keeps_ends {E A} kr (op : Op K E A) : keeps kr op -> ends_or_panics kr op.
Proof. intros Hop k k' r E1 [Hk _] Hr. by eapply Hop. Qed.

Lemma sound_ends {E A} kr (op : Op K E A) : sound kr op -> ends kr op.
Proof. intros Hop k k' r E1 [Hk _]. by eapply Hop. Qed.

Lemma ends_bind {E A B} kr (m : Op K E A) (f : A -> Op K E B) :
  stays kr m -> (forall a, ends kr (f a)) -> ends kr (m ≫= f).
Proof.
  intros Hm Hf k k' r E1 Hk. unfold mbind, op_bind in E1.
  destruct (m k) as [k1 r1] eqn:E2. destruct (Hm _ _ _ E2 Hk) as [Hr1 Hk1].
  destruct r1 as [a|e|]; [by eapply Hf| |done]. injection E1 as <- <-. split; [done|apply Hk1].
Qed.

Lemma stays_bind {E A B} kr (m : Op K E A) (f : A -> Op K E B) :
  stays kr m -> (forall a, stays kr (f a)) -> stays kr (m ≫= f).
Proof.
  intros Hm Hf k k' r E1 Hk. unfold mbind, op_bind in E1.
  destruct (m k) as [k1 r1] eqn:E2. destruct (Hm _ _ _ E2 Hk) as [Hr1 Hk1].
  destruct r1 as [a|e|]; [by eapply Hf| |done]. by injection E1 as <- <-.
Qed.

Lemma ends_or_panics_bind {E A B} kr (m : Op K E A) (f : A -> Op K E B) :
  stays kr m -> (forall a, ends_or_panics kr (f a)) -> ends_or_panics kr (m ≫= f).
Proof.
  intros Hm Hf k k' r E1 Hk Hr. unfold mbind, op_bind in E1.
  destruct (m k) as [k1 r1] eqn:E2. destruct (Hm _ _ _ E2 Hk) as [Hr1 Hk1].
  destruct r1 as [a|e|]; [by eapply Hf| |done]. injection E1 as <- <-. apply Hk1.
Qed.

(** A handler's last operation, and the value it returns. *)
Lemma ends_then {E A B} kr (m : Op K E A) (f : A -> B) : ends kr m -> ends kr (a ← m; mret (f a)).
Proof.
  intros Hm k k' r E1 Hk. unfold mbind, op_bind, mret, op_ret in E1.
  destruct (m k) as [k1 r1] eqn:E2. destruct (Hm _ _ _ E2 Hk) as [Hr1 Hk1].
  destruct r1; [..|done]; by injection E1 as <- <-.
Qed.

Lemma weak_then {E A B} kr (m : Op K E A) (f : A -> B) :
  ends_or_panics kr m -> ends_or_panics kr (a ← m; mret (f a)).
Proof.
  intros Hm k k' r E1 Hk Hr. unfold mbind, op_bind, mret, op_ret in E1.
  destruct (m k) as [k1 r1] eqn:E2. destruct r1; injection E1 as <- <-; by eapply Hm.
Qed.

Lemma ends_map_error {E F A} kr (f : E -> F) (m : Op K E A) : ends kr m -> ends kr (map_error f m).
Proof.
  intros Hm k k' r E1 Hk. unfold map_error in E1. destruct (m k) as [k1 r1] eqn:E2.
  injection E1 as <- <-. destruct (Hm _ _ _ E2 Hk) as [Hr1 Hk1]. split; [by apply map_err_safe|done].
Qed.

Lemma weak_map_error {E F A} kr (f : E -> F) (m : Op K E A) :
  ends_or_panics kr m -> ends_or_panics kr (map_error f m).
Proof.
  intros Hm k k' r E1 Hk Hr. unfold map_error in E1. destruct (m k) as [k1 r1] eqn:E2.
  injection E1 as <- <-. eapply Hm; [done..|]. by intros ->.
Qed.

Lemma stays_map_error {E F A} kr (f : E -> F) (m : Op K E A) : stays kr m -> stays kr (map_error f m).
Proof.
  intros Hm k k' r E1 Hk. unfold map_error in E1. destruct (m k) as [k1 r1] eqn:E2.
  injection E1 as <- <-. destruct (Hm _ _ _ E2 Hk) as [Hr1 Hk1]. split; [by apply map_err_safe|done].
Qed.

Lemma stays_ret {E A} kr (a : A) : stays kr (mret (M := Op K E) a).
Proof. intros k k' r [= <- <-] Hk. done. Qed.

Lemma stays_fail {E A} kr (e : E) : stays kr (fail (A := A) e).
Proof. intros k k' r [= <- <-] Hk. done. Qed.

Lemma stays_lift {E A} kr (m : outcome E A) : m <> Panic -> stays kr (lift m).
Proof. intros Hm k k' r [= <- <-] Hk. done. Qed.

(** The running task's address space. *)
Lemma current_space_entered kr (k : K) :
  entered kr k -> exists i t u, current (k_sched k) = Some i /\
    tasks (k_sched k) !! i = Some (Some t) /\ t_user t = Some u /\
    current_space k = (k, Ok (address_space u)).
Proof.
  intros [Hk (i & t & u & Hc & Ht & Hu & Hi)]. exists i, t, u. do 3 (split; [done|]).
  unfold current_space, running_task, mbind, op_bind, get, lift, mret, op_ret. rewrite Hc.
  unfold on_sched, slot_at, mbind, op_bind, get, lift. rewrite Ht. cbn [expect].
  rewrite set_sched_id. cbn [option_bind mbind]. by rewrite Hu.
Qed.

Lemma entered_io kr (k : K) io :
  entered kr k -> io_ok (live_fds (k_sched k)) io -> entered kr (set_io io k).
Proof. intros [Hk Hu] Hio. split; [by apply kernel_ok_io|done]. Qed.

Lemma entered_tables kr (k : K) m t :
  k_mem k = Some (Ok m) -> entered kr k -> entered kr (set_mem (Some (Ok (set_tables t m))) k).
Proof.
  intros Hm [Hk Hu]. split; [|done]. destruct (kok_mem _ _ (proj1 Hk)) as (m0 & Hm0 & Hr).
  rewrite Hm in Hm0. injection Hm0 as <-. by apply kernel_ok_mem.
Qed.

Lemma validate_stays kr address n writable :
  0 <= n -> stays kr (validate_current_user_range try_new address n writable).
Proof.
  intros Hn k k' r E1 Hk. destruct (current_space_entered kr k Hk) as (i & t & u & _ & _ & _ & Es).
  unfold validate_current_user_range, mbind, op_bind, get, lift in E1. rewrite Es in E1.
  injection E1 as <- <-. split; [|done].
  by apply (validate_user_range_spec try_new try_new_same try_new_low).
Qed.

Lemma copy_from_stays kr address n : stays kr (copy_from_current_user try_new address n).
Proof.
  intros k k' r E1 Hk. destruct (current_space_entered kr k Hk) as (i & t & u & _ & _ & _ & Es).
  unfold copy_from_current_user, mbind, op_bind, get, lift in E1. rewrite Es in E1.
  injection E1 as <- <-. split; [|done]. unfold copy_from_user. apply bind_safe; [|done].
  apply (validate_user_range_spec try_new try_new_same try_new_low). lia.
Qed.

Lemma copy_to_stays kr address input : stays kr (copy_to_current_user try_new address input).
Proof.
  intros k k' r E1 Hk. destruct (current_space_entered kr k Hk) as (i & t & u & _ & _ & _ & Es).
  unfold copy_to_current_user, mbind, op_bind, get, lift, modify in E1. rewrite Es in E1.
  pose proof (validate_user_range_spec try_new try_new_same try_new_low (k_cr3 k) (address_space u)
    address (Z.of_nat (length input)) true ltac:(lia)) as [_ Hp].
  destruct (validate_user_range _ _ _ _ _ _) as [[]|e|]; [|by injection E1 as <- <-|done].
  destruct (kok_mem _ _ (proj1 (proj1 Hk))) as (m & Hm & _). rewrite Hm in E1. injection E1 as <- <-.
  split; [done|]. by apply entered_tables.
Qed.

Lemma entered_quiet kr (k : K) s :
  entered kr k -> quiet (k_sched k) s -> entered kr (set_sched s k).
Proof.
  intros [Hk (i & t & u & Hc & Ht & Hu & Hi)] Q. split; [by apply kernel_ok_quiet|].
  destruct (quiet_task _ _ i t Q Ht) as (t' & Ht').
  destruct (view_task task_res (k_sched k) s i t (q_res _ _ Q) Ht) as (t1 & Ht1 & Hres).
  assert (t1 = t') as -> by congruence. unfold task_res in Hres. rewrite Hu in Hres.
  destruct (t_user t') as [u'|] eqn:Hu'; [|done].
  exists i, t', u'. split; [by rewrite <-Hc; apply (q_current _ _ Q)|]. split; [done|]. split; [done|].
  rewrite <-Hi. eapply quiet_is_idle; [apply Hk|exact Q|done|done].
Qed.

Lemma wake_all_stays {E} kr : stays kr (wake_all_blocked_tasks (E := E)).
Proof.
  intros k k' r [= <- <-] Hk. split; [done|]. apply entered_quiet; [done|].
  apply wake_all_quiet. apply Hk.
Qed.

Lemma read_fd_stays kr n output : stays kr (read_current_fd n output).
Proof.
  intros k k' r E1 Hk. destruct (read_fd_sound kr n output k k' r E1 (proj1 Hk)) as [Hr Hk'].
  split; [done|]. split; [done|]. unfold read_current_fd, mbind, op_bind in E1.
  destruct (current_fd n k) as [k1 r1] eqn:E2.
  destruct (current_fd_spec kr k n k1 r1 (proj1 Hk) E2) as (-> & _ & _).
  destruct r1 as [d|e|]; [|injection E1 as <- <-; apply Hk..]. unfold on_fd in E1.
  destruct (read d output (k_io k)) as [io r1]. injection E1 as <- <-. apply Hk.
Qed.

Lemma read_available_stays {E} kr n : stays kr (read_available (E := E) n).
Proof.
  intros k k' r E1 Hk. unfold read_available, mbind, op_bind, gets, lift in E1.
  assert (io_ok (live_fds (k_sched k)) (k_io k)) as Hio by apply Hk.
  destruct (InputBuffer_read_spec (io_input (k_io k)) (replicate n 0) (ok_input _ _ Hio))
    as (i & Ei & Hi & _).
  rewrite Ei in E1. cbn [expect] in E1. injection E1 as <- <-. split; [done|].
  apply entered_io; [done|]. by apply io_ok_set_input.
Qed.

Lemma read_available_count {E} kr n (k k' : K) count buffer :
  entered kr k -> read_available (E := E) n k = (k', Ok (count, buffer)) ->
  (count <= n)%nat /\ length buffer = n.
Proof.
  intros Hk E1. unfold read_available, mbind, op_bind, gets, lift in E1.
  assert (io_ok (live_fds (k_sched k)) (k_io k)) as Hio by apply Hk.
  destruct (InputBuffer_read_spec (io_input (k_io k)) (replicate n 0) (ok_input _ _ Hio))
    as (i & Ei & _).
  rewrite Ei in E1. cbn [expect] in E1. injection E1 as _ <- <-.
  rewrite length_app, length_take, length_drop, length_replicate. lia.
Qed.

(** A read returns no more than fits, in a buffer of the same size. *)
Lemma read_count live (io io' : Io D) d output n out :
  io_ok live io -> d ∈ live -> read d output io = (io', Ok (n, out)) ->
  (n <= length output)%nat /\ length out = length output.
Proof.
  intros Hok Hd E1. pose proof (ok_live _ _ Hok d Hd) as Hb.
  assert (forall items, let n := (length output `min` length items)%nat in
    length (take n items ++ drop n output) = length output) as Hlen
    by (intros items n0; unfold n0; rewrite length_app, length_take, length_drop; lia).
  destruct d as [| |id|id|id|id]; simpl in Hb; try done.
  - unfold read in E1. unfold_op.
    destruct (InputBuffer_read_spec (io_input io) output (ok_input _ _ Hok)) as (i & Ei & _ & _).
    rewrite Ei in E1. simpl in E1. case_match; [done|]. injection E1 as _ <- <-. split; [lia|apply Hlen].
  - destruct Hb as [p Hp]. pose proof (read_pipe_spec live io id p output Hok Hp) as Hr.
    cbv zeta in Hr. case_match; [rewrite Hr in E1; done|]. destruct Hr as (p' & Er & _ & _).
    rewrite Er in E1. injection E1 as _ <- <-. split; [lia|apply Hlen].
  - destruct Hb as [f Hf]. unfold read, fread_at in E1. unfold_op. rewrite Hf in E1. simpl in E1.
    case_match; [done|]. injection E1 as _ <- <-. split; [lia|].
    rewrite length_splice; [done|]. rewrite length_take. lia.
Qed.

Lemma read_current_fd_count kr (k k' : K) fd output n out :
  kernel_ok kr k -> read_current_fd fd output k = (k', Ok (n, out)) ->
  (n <= length output)%nat /\ length out = length output.
Proof.
  intros Hk E1. unfold read_current_fd, mbind, op_bind in E1.
  destruct (current_fd fd k) as [k1 r1] eqn:E2.
  destruct (current_fd_spec kr k fd k1 r1 Hk E2) as (-> & _ & Hd).
  destruct r1 as [d|e|]; [|done..]. unfold on_fd in E1.
  destruct (read d output (k_io k)) as [io r1] eqn:E3. injection E1 as _ E1.
  destruct r1 as [[n' out']|e|]; simplify_eq/=.
  eapply read_count; [apply Hk|by apply Hd|done].
Qed.

Lemma buffer_prefix_Ok output count :
  (count <= length output)%nat -> buffer_prefix output count = Ok (take count output).
Proof.
  intros Hc. unfold buffer_prefix. rewrite index_range_in by (rewrite ?length_app; lia).
  rewrite Nat2Z.id. unfold slice. change (Z.to_nat 0) with 0%nat.
  rewrite drop_0, Nat.sub_0_r, take_app_le by done. done.
Qed.

(** [block_now] of a running user task always switches. *)
Lemma blocking_ends {E} kr (errno : E -> Z) op :
  (forall k, entered kr k -> exists k' f, op k = (k', Ok f) /\ kernel_ok kr k') ->
  ends kr (blocking errno op).
Proof.
  intros Hop k k' r E1 Hk. destruct (Hop k Hk) as (k1 & f & Eop & Hk1).
  unfold blocking, mbind, op_bind, map_error, mret, op_ret in E1. rewrite Eop in E1.
  injection E1 as <- <-. done.
Qed.

Lemma block_now_entered kr (k : K) : entered kr k -> exists k' f, block_now k = (k', Ok f) /\ kernel_ok kr k'.
Proof.
  intros [Hk (i & t & u & Hc & Ht & Hu & Hi)].
  destruct (block_spec kr k i t (proj1 Hk) Hc Ht Hi) as (k' & E1 & Hg). exists k', Switched.
  split; [done|]. by eapply gives_up_ok.
Qed.

Lemma sleep_entered kr d (k : K) : entered kr k -> exists k' f, sleep_ticks d k = (k', Ok f) /\ kernel_ok kr k'.
Proof.
  intros [Hk (i & t & u & Hc & Ht & Hu & Hi)]. destruct (Z.eqb_spec d 0) as [->|Hd].
  { exists k, (Returned tt). done. }
  destruct (sleep_spec kr k i t (proj1 Hk) Hc Ht d Hd Hi) as (k' & E1 & Hg). exists k', Switched.
  split; [done|]. by eapply gives_up_ok.
Qed.

Lemma yield_entered kr (k : K) : entered kr k -> exists k' f, yield_now k = (k', Ok f) /\ kernel_ok kr k'.
Proof.
  intros [Hk (i & t & u & Hc & Ht & Hu & Hi)].
  destruct (yield_spec kr k i t (proj1 Hk) Hc Ht) as (k' & E1 & Hg). exists k', Switched.
  split; [done|]. by eapply gives_up_ok.
Qed.

Lemma exit_entered kr code group (k : K) :
  entered kr k -> exists k' f, exit_current_with_status_and_group code group k = (k', Ok f) /\ kernel_ok kr k'.
Proof.
  intros [Hk (i & t & u & Hc & Ht & Hu & Hi)].
  destruct (exit_spec kr k i t (proj1 Hk) Hc Ht code group Hi) as (k' & E1 & Hg). exists k', Switched.
  split; [done|]. by eapply gives_up_ok.
Qed.

(** The registers of a frame hold [u64] values. *)
Definition frame_ok (f : SyscallFrame) : Prop :=
  0 <= f_rdi f < u64_limit /\ 0 <= f_rsi f < u64_limit /\ 0 <= f_rdx f < u64_limit /\
  0 <= f_r10 f < u64_limit.

Create HintDb syscall.
Hint Resolve stays_ends stays_ret stays_fail stays_map_error stays_bind ends_bind ends_then
  ends_map_error validate_stays copy_from_stays copy_to_stays wake_all_stays read_available_stays
  read_fd_stays sound_ends blocking_ends : syscall.

Lemma or_return_stays {E A} kr errno (op : Op K E A) : stays kr op -> stays kr (or_return errno op).
Proof. apply stays_map_error. Qed.
Hint Resolve or_return_stays : syscall.

Lemma fd_read_loop_ends kr frame :
  frame_ok frame -> f_rdx frame <= MAX_SYSCALL_BUFFER -> ends kr (fd_read_loop try_new frame).
Proof.
  intros Hf Hlen k k' r E1 Hk. unfold fd_read_loop in E1.
  destruct (read_current_fd _ _ k) as [k1 r1] eqn:E2.
  destruct (read_fd_stays kr _ _ _ _ _ E2 Hk) as [Hr1 Hk1].
  destruct r1 as [[count buffer]|e|]; [| |done].
  - destruct (read_current_fd_count kr _ _ _ _ _ _ (proj1 Hk) E2) as [Hc Hl].
    revert E1 Hk1. apply (ends_bind kr wake_all_blocked_tasks); [apply wake_all_stays|]. intros _.
    apply ends_bind; [apply stays_lift; rewrite buffer_prefix_Ok by lia; done|]. intros bytes.
    apply ends_bind; [auto with syscall|]. auto with syscall.
  - destruct e; try (by injection E1 as <- <-; split; [done|apply Hk1]).
    destruct (f_rdi frame =? _); [injection E1 as <- <-; split; [done|apply Hk1]|].
    eapply (blocking_ends kr); [apply block_now_entered|done|done].
Qed.

Lemma sys_fd_read_ends kr frame : frame_ok frame -> ends kr (sys_fd_read try_new frame).
Proof.
  intros Hf. unfold sys_fd_read. destruct (_ || _) eqn:Hb; [auto with syscall|]. bools.
  destruct (_ =? _); [auto with syscall|]. apply ends_bind.
  - apply or_return_stays, validate_stays. apply Hf.
  - intros _. by apply fd_read_loop_ends.
Qed.

Hypothesis fs_ok : fs_total.

Lemma write_fd_ends kr n input (k k' : K) r :
  write_current_fd n input k = (k', r) -> entered kr k -> r <> Panic /\ entered kr k'.
Proof.
  intros E1 Hk. unfold write_current_fd, mbind, op_bind in E1.
  destruct (current_fd n k) as [k1 r1] eqn:E2.
  destruct (current_fd_spec kr k n k1 r1 (proj1 Hk) E2) as (-> & Hn & Hd).
  destruct r1 as [d|e|]; [|by injection E1 as <- <-|done]. unfold on_fd in E1.
  destruct (write d input (k_io k)) as [io r1] eqn:E3. injection E1 as <- <-.
  destruct (write_spec (live_fds (k_sched k)) (k_io k) d input io r1) as [Hio Hr];
    [apply Hk|by apply Hd|done|].
  split; [apply map_err_safe, Hr; intros path c; apply (fs_ok path c [])|].
  by apply entered_io.
Qed.

Lemma fd_write_loop_ends kr frame buffer : ends kr (fd_write_loop (D := D) (PT := PT) frame buffer).
Proof.
  intros k k' r E1 Hk. unfold fd_write_loop in E1.
  destruct (write_current_fd _ _ k) as [k1 r1] eqn:E2.
  destruct (write_fd_ends kr _ _ _ _ _ E2 Hk) as [Hr1 Hk1].
  destruct r1 as [count|e|]; [| |done].
  - revert E1 Hk1. apply (ends_bind kr wake_all_blocked_tasks); auto with syscall.
  - destruct e; try (by injection E1 as <- <-; split; [done|apply Hk1]).
    eapply (blocking_ends kr); [apply block_now_entered|done|done].
Qed.

Lemma sys_fd_write_ends kr frame : ends kr (sys_fd_write (D := D) (PT := PT) try_new frame).
Proof.
  unfold sys_fd_write. destruct (_ || _) eqn:Hb; [auto with syscall|].
  destruct (_ =? _); [auto with syscall|]. apply ends_bind; [auto with syscall|].
  intros buffer. apply fd_write_loop_ends.
Qed.

Lemma sys_pipe_ends kr frame : ends kr (sys_pipe try_new frame).
Proof.
  unfold sys_pipe. do 2 (apply ends_bind; [apply or_return_stays, validate_stays; lia|intros _]).
  intros k k' r E1 Hk. unfold mbind, op_bind, or_return, map_error in E1.
  destruct (create_pipe_for_current k) as [k1 r1] eqn:E2.
  destruct (make_pipe_sound kr _ _ _ E2 (proj1 Hk)) as [Hr1 Hk1].
  destruct r1 as [[a b]|e|]; [..|done]; by injection E1 as <- <-.
Qed.

Lemma sys_close_ends kr frame : ends kr (sys_close (D := D) (PT := PT) frame).
Proof.
  unfold sys_close. destruct (_ <=? _); [auto with syscall|]. intros k k' r E1 Hk.
  unfold mbind, op_bind, map_error, mret, op_ret in E1.
  destruct (close_current_fd _ k) as [k1 r1] eqn:E2.
  destruct (close_fd_sound kr _ _ _ _ E2 (proj1 Hk)) as [Hr1 Hk1].
  destruct r1 as [[]|e|]; [|by injection E1 as <- <-|done]. injection E1 as <- <-.
  split; [done|]. apply kernel_ok_quiet; [done|]. apply wake_all_quiet, Hk1.
Qed.

Lemma sys_dup2_ends kr frame : ends kr (sys_dup2 (D := D) (PT := PT) frame).
Proof.
  unfold sys_dup2. destruct (_ || _); [auto with syscall|].
  apply (ends_then kr _ (fun _ => Returned (f_rsi frame))). apply ends_map_error, sound_ends, dup_fd_sound.
Qed.

Lemma sys_write_ends kr frame : ends kr (sys_write (D := D) (PT := PT) try_new frame).
Proof.
  unfold sys_write. destruct (_ <? _); [auto with syscall|]. destruct (_ =? _); [auto with syscall|].
  apply ends_bind; [auto with syscall|]. intros buffer k k' r [= <- <-] Hk.
  split; [done|]. apply kernel_ok_io; [apply Hk|]. apply io_ok_set_console, Hk.
Qed.

Lemma sys_read_ends kr frame : frame_ok frame -> ends kr (sys_read (D := D) (PT := PT) try_new frame).
Proof.
  intros Hf. unfold sys_read. destruct (_ <? _); [auto with syscall|].
  destruct (_ =? _); [auto with syscall|].
  apply ends_bind; [apply or_return_stays, validate_stays, Hf|]. intros _ k k' r E1 Hk.
  unfold mbind at 1, op_bind at 1 in E1. destruct (read_available _ k) as [k1 r1] eqn:E2.
  destruct (read_available_stays kr _ _ _ _ E2 Hk) as [Hr1 Hk1].
  destruct r1 as [[count buffer]|e|]; [|injection E1 as <- <-; split; [done|apply Hk1]|done].
  destruct (count =? 0)%nat; [injection E1 as <- <-; split; [done|apply Hk1]|].
  revert E1 Hk1. apply ends_bind; [|intros bytes; apply ends_bind; auto with syscall].
  apply stays_lift. rewrite buffer_prefix_Ok; [done|].
  apply (read_available_count kr) in E2 as [? ->]; done.
Qed.

(** *** The file system *)

Lemma on_disk_stays {E A} kr (op : Op D Ext2Error.t A) (f : Ext2Error.t -> E) :
  (forall d, (op d).2 <> Panic) -> stays kr (on_io (on_disk op f)).
Proof.
  intros Hop k k' r E1 Hk. unfold on_io, on_disk in E1. specialize (Hop (io_disk (k_io k))).
  destruct (op (io_disk (k_io k))) as [d r1]. injection E1 as <- <-.
  split; [by apply map_err_safe|]. apply entered_io; [done|]. apply io_ok_set_disk, Hk.
Qed.

Lemma check_output_stays kr frame : frame_ok frame -> stays kr (check_output (D := D) (PT := PT) try_new frame).
Proof.
  intros Hf. unfold check_output. destruct (_ =? _); [auto with syscall|].
  apply or_return_stays, validate_stays, Hf.
Qed.

Lemma copy_path_stays kr address n : stays kr (copy_path (D := D) (PT := PT) try_new address n).
Proof.
  unfold copy_path. apply stays_bind; [auto with syscall|]. intros path.
  destruct (contains_nul path); [auto with syscall|]. destruct (negb _); auto with syscall.
Qed.

Lemma copy_output_ends kr frame bytes : ends kr (copy_output (D := D) (PT := PT) try_new frame bytes).
Proof.
  unfold copy_output. apply ends_bind; [|auto with syscall].
  destruct (bool_decide _); auto with syscall.
Qed.

Hint Resolve check_output_stays copy_path_stays copy_output_ends : syscall.

Lemma sys_read_file_ends kr frame : frame_ok frame -> ends kr (sys_read_file (D := D) (PT := PT) try_new frame).
Proof.
  intros Hf. unfold sys_read_file. destruct (_ =? _); [auto with syscall|].
  destruct (_ || _); [auto with syscall|].
  apply ends_bind; [auto with syscall|]. intros _. apply ends_bind; [auto with syscall|]. intros path.
  intros k k' r E1 Hk. unfold mbind at 1, op_bind at 1, map_error, read_file, fail in E1.
  destruct (fs_ok path [] (replicate (Z.to_nat (f_r10 frame)) 0) (io_disk (k_io k)))
    as (_ & Hp & Hn & Hl & _).
  destruct (fs_read_file path _ _) as [[disk output] res]. cbn [fst snd] in *.
  assert (entered kr (set_io (set_disk disk (k_io k)) k)) as Hk1.
  { apply entered_io; [done|]. apply io_ok_set_disk, Hk. }
  destruct res as [[[count total]|]|e|]; cbn [map_err] in E1;
    [|by injection E1 as <- <-; split; [|apply Hk1]..|done].
  revert E1 Hk1. apply ends_bind; [|auto with syscall].
  apply stays_lift. rewrite buffer_prefix_Ok; [done|]. rewrite Hl. by eapply Hn.
Qed.

Lemma sys_write_file_ends kr frame : ends kr (sys_write_file (D := D) (PT := PT) try_new frame).
Proof.
  unfold sys_write_file. destruct (_ =? _); [auto with syscall|]. destruct (_ || _); [auto with syscall|].
  apply ends_bind; [auto with syscall|]. intros path. destruct (bool_decide _); [auto with syscall|].
  apply ends_bind; [destruct (_ =? _); auto with syscall|]. intros contents.
  apply ends_bind; [|auto with syscall]. apply on_disk_stays. intros d. apply (fs_ok path contents []).
Qed.

Lemma sys_list_dir_ends kr frame : frame_ok frame -> ends kr (sys_list_dir (D := D) (PT := PT) try_new frame).
Proof.
  intros Hf. unfold sys_list_dir. destruct (_ || _) eqn:Hb; [auto with syscall|]. bools.
  apply ends_bind; [auto with syscall|]. intros _. apply ends_bind; [auto with syscall|]. intros path.
  intros k k' r E1 Hk. unfold mbind at 1, op_bind at 1, map_error, directory_entries in E1.
  destruct (fs_ok path [] [] (io_disk (k_io k))) as (_ & _ & _ & _ & Hp & Hs).
  destruct (fs_for_each_entry path _) as [[disk entries] res]. cbn [fst snd] in *.
  assert (entered kr (set_io (set_disk disk (k_io k)) k)) as Hk1.
  { apply entered_io; [done|]. apply io_ok_set_disk, Hk. }
  destruct res as [[]|e|]; cbn [map_err] in E1; [|by injection E1 as <- <-; split; [|apply Hk1]|done].
  revert E1 Hk1. apply ends_bind; [|auto with syscall].
  apply stays_lift, map_err_safe. rewrite list_entries_spec; [done| |done].
  unfold MAX_SYSCALL_BUFFER in *. lia.
Qed.

(** *** Programs and children *)

Lemma in_memory_keeps kr (op : Z -> Op (@Memory PT) ProgramError.t LoadedProgram) (k k' : K) r :
  (forall cr3, loads kr (op cr3)) -> in_memory op k = (k', r) -> kernel_ok kr k ->
  kernel_ok kr k' /\ forall p, r = Ok p -> is_Some (root (lp_address_space p)).
Proof.
  intros Hop E1 Hk. unfold in_memory in E1. destruct (op (k_cr3 k) (k_mem k)) as [mem r1] eqn:E2. injection E1 as <- <-.
  destruct (Hop _ _ _ _ E2 (kok_mem _ _ (proj1 Hk))) as [(m & -> & Hm) Hp]. split; [by apply kernel_ok_mem|done].
Qed.

Lemma load_from_ext2_keeps kr reserve path arguments (k k' : K) r :
  load_from_ext2_with_arguments from_start_address try_new reserve path arguments k = (k', r) -> kernel_ok kr k ->
  kernel_ok kr k' /\ forall p, r = Ok p -> is_Some (root (lp_address_space p)).
Proof.
  intros E1 Hk. unfold load_from_ext2_with_arguments, mbind at 1, op_bind at 1, lift at 1 in E1.
  destruct (if ends_with DOT_BIN path then _ else _) as [max_size|e|];
    [|by injection E1 as <- <-..]. unfold mbind at 1, op_bind at 1, on_io, on_disk in E1.
  destruct (fs_read_file_vec _ _ _) as [d res].
  assert (kernel_ok kr (set_io (set_disk d (k_io k)) k)) as Hk0
    by (apply kernel_ok_io; [done|]; apply io_ok_set_disk, Hk).
  destruct (map_err ext2_error res) as [found|e|]; [|by injection E1 as <- <-..].
  unfold mbind at 1, op_bind at 1, lift at 1 in E1.
  destruct (ok_or found _) as [image|e|]; [|by injection E1 as <- <-..].
  refine (in_memory_keeps kr _ _ _ _ _ E1 Hk0). intros cr3. apply load_image_root.
Qed.

Lemma spawn_program_keeps kr base p mappings closes :
  is_Some (root (lp_address_space p)) ->
  keeps kr (spawn_with_fd_mappings_and_closes (D := D) (PT := PT) try_new trampoline base p mappings closes).
Proof.
  intros Hp k k' r E1 Hr Hk. unfold spawn_with_fd_mappings_and_closes, map_error in E1.
  destruct (spawn_user_with_arguments_and_fds _ _ _ _ _ _ _ _ _ _ _) as [k2 r2] eqn:E3.
  injection E1 as <- <-. eapply spawn_user_keeps; [done|exact E3| |done]. by intros ->.
Qed.

Lemma launch_ends kr reserve base path arguments :
  ends_or_panics kr (launch (D := D) (PT := PT) from_start_address try_new trampoline reserve base
    path arguments).
Proof.
  intros k k' r E1 Hk Hr. revert k k' r E1 Hk Hr.
  apply (weak_then kr _ Returned). apply weak_map_error. unfold launch_from_ext2_with_arguments.
  intros k k' r E1 [Hk _] Hr. unfold mbind at 1, op_bind at 1 in E1.
  destruct (load_from_ext2_with_arguments _ _ _ _ _ k) as [k1 r1] eqn:E2.
  apply (load_from_ext2_keeps kr) in E2 as [Hk1 Hp]; [|done].
  destruct r1 as [p|e|]; [|by injection E1 as <- <-..].
  eapply spawn_program_keeps; [by apply Hp|done..].
Qed.

Lemma read_argument_stays kr address remaining len :
  stays kr (read_argument (D := D) (PT := PT) try_new address remaining len).
Proof.
  revert len. induction remaining as [|remaining IH]; intros len; cbn [read_argument]; [auto with syscall|].
  apply stays_bind; [apply stays_lift, ok_or_safe|]. intros byte_address.
  apply stays_bind; [auto with syscall|]. intros byte.
  destruct (bool_decide _); [auto with syscall|]. apply stays_bind; auto with syscall.
Qed.

Lemma read_arguments_stays kr argv remaining index total :
  stays kr (read_arguments (D := D) (PT := PT) try_new argv remaining index total).
Proof.
  revert index total. induction remaining as [|remaining IH]; intros index total;
    cbn [read_arguments]; [auto with syscall|].
  apply stays_bind; [apply stays_lift, ok_or_safe|]. intros pointer_address.
  apply stays_bind; [auto with syscall|]. intros pointer_bytes.
  apply stays_bind; [apply read_argument_stays|]. intros argument.
  destruct (negb _); [auto with syscall|]. destruct (_ <? _); [auto with syscall|].
  apply stays_bind; auto with syscall.
Qed.

Lemma sys_spawn_ends kr reserve base frame :
  ends_or_panics kr (sys_spawn (D := D) (PT := PT) from_start_address try_new trampoline reserve base
    frame).
Proof.
  unfold sys_spawn. do 2 (destruct (_ : bool); [apply ends_weaken; auto with syscall|]).
  apply ends_or_panics_bind; [auto with syscall|]. intros path.
  destruct (bool_decide _); [apply ends_weaken; auto with syscall|apply launch_ends].
Qed.

Lemma sys_spawn_with_arguments_ends kr reserve base frame :
  frame_ok frame ->
  ends_or_panics kr (sys_spawn_with_arguments (D := D) (PT := PT) from_start_address try_new trampoline
    reserve base frame).
Proof.
  intros Hf. unfold sys_spawn_with_arguments. destruct (_ <? _); [apply ends_weaken; auto with syscall|].
  apply ends_or_panics_bind.
  { destruct (_ =? _); [auto with syscall|]. apply or_return_stays, validate_stays.
    destruct Hf as (_ & _ & _ & ?). lia. }
  intros _. destruct (_ =? _); [apply ends_weaken; auto with syscall|].
  destruct (_ <? _); [apply ends_weaken; auto with syscall|].
  apply ends_or_panics_bind; [auto with syscall|]. intros path.
  destruct (bool_decide _); [apply ends_weaken; auto with syscall|].
  apply ends_or_panics_bind; [apply read_arguments_stays|]. intros arguments. apply launch_ends.
Qed.

Lemma copy_to_keeps kr address input :
  keeps kr (copy_to_current_user (D := D) (PT := PT) try_new address input).
Proof.
  intros k k' r E1 Hr Hk. unfold copy_to_current_user, mbind, op_bind, get, lift, modify in E1.
  destruct (current_space k) as [k1 r1] eqn:E2.
  assert (k1 = k) as ->.
  { unfold current_space, running_task, mbind, op_bind, get, lift, mret, op_ret, on_sched, slot_at in E2.
    unfold mbind, op_bind, get, lift in E2.
    destruct (current (k_sched k)) as [i|]; [|by simplify_eq/=].
    rewrite set_sched_id in E2. repeat case_match; by simplify_eq/=. }
  destruct r1 as [space|e|]; [|by injection E1 as <- <-..].
  destruct (validate_user_range _ _ _ _ _ _) as [[]|e|]; [|by injection E1 as <- <-..].
  destruct (kok_mem _ _ (proj1 Hk)) as (m & Hm & Hkr). rewrite Hm in E1. injection E1 as <- <-.
  by apply kernel_ok_mem.
Qed.

Lemma wait_loop_ends kr frame : ends_or_panics kr (wait_loop (D := D) (PT := PT) try_new frame).
Proof.
  intros k k' r E1 [Hk _] Hr. unfold wait_loop, mbind at 1, op_bind at 1, map_error in E1.
  destruct (wait_for_child try_new _ k) as [k1 r1] eqn:E2.
  assert (r1 <> Panic) as Hr1 by (intros ->; by injection E1 as <- <-).
  assert (kernel_ok kr k1) as Hk1 by (eapply keeps_flow_keeps; [apply (wait_keeps try_new idle_entry)|exact E2|done..]).
  destruct r1 as [[[task status]|]|e|]; cbn [map_err] in E1; [|by injection E1 as <- <-..].
  unfold mbind, op_bind, or_return, map_error in E1.
  destruct (copy_to_current_user try_new _ _ k1) as [k2 r2] eqn:E3.
  assert (kernel_ok kr k2) as Hk2.
  { eapply copy_to_keeps; [exact E3| |done]. intros ->. by injection E1 as <- <-. }
  destruct r2 as [[]|e|]; by injection E1 as <- <-.
Qed.

Lemma sys_wait_ends kr frame : ends_or_panics kr (sys_wait (D := D) (PT := PT) try_new frame).
Proof.
  unfold sys_wait. apply ends_or_panics_bind; [apply or_return_stays, validate_stays; lia|].
  intros _. apply wait_loop_ends.
Qed.

(** *** Every system call *)

Definition creates_or_waits (frame : SyscallFrame) : bool :=
  (f_rax frame =? 8) || (f_rax frame =? 9) || (f_rax frame =? 10).

Lemma syscall_handler_ends kr reserve base frame :
  frame_ok frame -> creates_or_waits frame = false ->
  ends kr (syscall_handler (D := D) (PT := PT) from_start_address try_new trampoline reserve base frame).
Proof.
  intros Hf Hc. unfold creates_or_waits in Hc. bools. unfold syscall_handler.
  destruct (f_rax frame) as [|p|p] eqn:Hrax; [|do 5 (try destruct p as [p|p|])|];
    try lia; try (auto with syscall; fail);
    auto using sys_write_ends, sys_read_ends, sys_read_file_ends, sys_write_file_ends,
      sys_fd_read_ends, sys_fd_write_ends, sys_pipe_ends, sys_close_ends, sys_dup2_ends, sys_list_dir_ends.
  - intros k k' r [= <- <-] Hk. split; [done|apply Hk].
  - unfold sys_sleep. destruct (_ <? _); [auto with syscall|]. apply blocking_ends, sleep_entered.
  - apply blocking_ends, yield_entered.
  - apply blocking_ends. intros k Hk. by apply exit_entered.
Qed.

Lemma syscall_handler_keeps kr reserve base frame :
  frame_ok frame ->
  ends_or_panics kr
    (syscall_handler (D := D) (PT := PT) from_start_address try_new trampoline reserve base frame).
Proof.
  intros Hf. destruct (creates_or_waits frame) eqn:Hc;
    [|by apply ends_weaken, syscall_handler_ends].
  unfold creates_or_waits in Hc. unfold syscall_handler.
  apply orb_true_iff in Hc as [[Hc|Hc]%orb_true_iff|Hc]; bools.
  - rewrite Hc. apply sys_spawn_ends.
  - rewrite Hc. apply sys_wait_ends.
  - rewrite Hc. by apply sys_spawn_with_arguments_ends.
Qed.

End kernel.
