(* ===== verification/SyscallProps.v ===== *)
(** * System calls: properties

    What a system call may do to the kernel and to user memory, what a pipe
    carries between the memories of two processes, directory listings, and the
    return to user mode. *)

From S2P Require Import Prelude Ring Input Utf8 FileSystem Tar Fd FrameAlloc UserRange Paging Scheduler Kernel KernelOk KernelInv KernelProps UserProgram ProgramLoad Syscall SyscallOk.

Local Open Scope Z_scope.

(** ** User memory *)

Section memory.
Context {PT : Type} `{DirectMapLaws PT}.

(** The pages of a process are mapped to frames of their own, which are not page
    tables; a loaded program has this ([ProgramLoad.loaded_image]). *)
Record private_pages (r : Z) (pages : list Z) (t : PT) : Prop := {
  pp_mapped : forall p, p ∈ pages -> exists f, pt_translate r p t = Some f /\
    f mod PAGE_SIZE = 0 /\ ~ pt_table f t;
  pp_apart : forall p q f, p ∈ pages -> q ∈ pages ->
    pt_translate r p t = Some f -> pt_translate r q t = Some f -> p = q;
}.

(** A byte of the buffer that starts at [start], or else [old]. *)
Definition overlay (start : Z) (bytes : list Z) (x old : Z) : Z :=
  if (start <=? x) && (x <? start + Z.of_nat (length bytes))
  then default 0 (bytes !! Z.to_nat (x - start)) else old.

(** What a copy to user memory does: the user bytes of the buffer, and no byte of a
    frame that is not one of the pages'. *)
Record copied_out (r : Z) (pages : list Z) (start : Z) (bytes : list Z) (t t' : PT) : Prop := {
  co_bytes : forall x, page_down x ∈ pages ->
    user_byte r t' x = overlay start bytes x (user_byte r t x);
  co_others : forall a, (forall p, p ∈ pages -> pt_translate r p t <> Some (page_down a)) ->
    pt_byte a t' = pt_byte a t;
  co_translate : forall r' p, pt_translate r' p t' = pt_translate r' p t;
  co_table : forall f, pt_table f t' -> pt_table f t;
}.

Lemma page_down_frame f x : f mod PAGE_SIZE = 0 -> page_down (f + (x - page_down x)) = f.
Proof. intros Hf. pose proof (page_down_le x). by apply page_down_unique; [|lia]. Qed.

Lemma overlay_other start bytes x old :
  ~ (start <= x < start + Z.of_nat (length bytes)) -> overlay start bytes x old = old.
Proof.
  intros Hx. unfold overlay. destruct (_ && _) eqn:Hb; [|done]. bools. lia.
Qed.

Lemma overlay_cons start b bytes x old :
  overlay start (b :: bytes) x old = overlay (start + 1) bytes x (overlay start [b] x old).
Proof.
  unfold overlay. cbn [length].
  destruct (Z.leb_spec start x), (Z.leb_spec (start + 1) x), (Z.ltb_spec x (start + Z.of_nat 1)),
    (Z.ltb_spec x (start + Z.of_nat (S (length bytes)))),
    (Z.ltb_spec x (start + 1 + Z.of_nat (length bytes))); try lia; cbn [andb]; try done.
  - by replace (Z.to_nat (x - start)) with (S (Z.to_nat (x - (start + 1)))) by lia.
  - by replace (Z.to_nat (x - start)) with 0%nat by lia.
Qed.

Lemma write_user_byte_copied r pages x b t :
  private_pages r pages t -> page_down x ∈ pages ->
  copied_out r pages x [b] t (write_user_byte r x b t).
Proof.
  intros [Hmap Hap] Hx. destruct (Hmap _ Hx) as (f & Ef & Hf & Hnt). unfold write_user_byte. rewrite Ef.
  set (a := f + (x - page_down x)). assert (page_down a = f) as Ha by by apply page_down_frame.
  assert (forall y, a <= y < a + Z.of_nat (length [b]) -> ~ pt_table (page_down y) t) as Htab.
  { intros y Hy. simpl in Hy. replace y with a by lia. by rewrite Ha. }
  split.
  - intros y Hy. unfold user_byte. rewrite copy_translate by done.
    destruct (Hmap _ Hy) as (g & Eg & Hg & _). rewrite Eg, copy_byte. unfold overlay.
    destruct (Z.eq_dec y x) as [->|Hne].
    + replace g with f by congruence. fold a.
      rewrite (proj2 (Z.leb_le a a)), (proj2 (Z.leb_le x x)) by lia. cbn [length].
      rewrite (proj2 (Z.ltb_lt a _)), (proj2 (Z.ltb_lt x _)) by lia. cbn [andb].
      by rewrite !Z.sub_diag.
    + assert (g + (y - page_down y) <> a) as Hga.
      { intros Ega. assert (g = f) as -> by (rewrite <-Ha, <-Ega; symmetry; by apply page_down_frame).
        assert (page_down x = page_down y) by by eapply Hap. unfold a in Ega. lia. }
      cbn [length]. destruct ((_ <=? _) && _) eqn:Hb1; bools; [lia|].
      destruct ((x <=? y) && _) eqn:Hb2; bools; [lia|done].
  - intros y Hy. rewrite copy_byte. destruct (_ && _) eqn:Hb; [|done]. bools. cbn [length] in *.
    exfalso. apply (Hy _ Hx). replace y with a by lia. by rewrite Ha.
  - intros r' p. by apply copy_translate.
  - intros g. by apply copy_table.
Qed.

Lemma private_copied r pages start bytes t t' :
  private_pages r pages t -> copied_out r pages start bytes t t' -> private_pages r pages t'.
Proof.
  intros [Hmap Hap] Hc. split.
  - intros p Hp. destruct (Hmap p Hp) as (f & Ef & Hf & Hnt). exists f.
    rewrite (co_translate _ _ _ _ _ _ Hc). split_and!; [done..|].
    intros Ht. apply Hnt. by apply (co_table _ _ _ _ _ _ Hc).
  - intros p q f. rewrite !(co_translate _ _ _ _ _ _ Hc). apply Hap.
Qed.

Lemma write_user_copied r pages start bytes t :
  private_pages r pages t ->
  (forall x, start <= x < start + Z.of_nat (length bytes) -> page_down x ∈ pages) ->
  copied_out r pages start bytes t (write_user r start bytes t).
Proof.
  revert start t. induction bytes as [|b bytes IH]; intros start t Hp Hin; cbn [write_user].
  { split; try done. intros x _. symmetry. apply overlay_other. simpl. lia. }
  assert (copied_out r pages start [b] t (write_user_byte r start b t)) as H1c.
  { apply write_user_byte_copied; [done|]. apply Hin. simpl. lia. }
  destruct (IH (start + 1) (write_user_byte r start b t)) as [Hb Ho Ht Htab].
  { by eapply private_copied. }
  { intros x Hx. apply Hin. simpl. lia. }
  destruct H1c as [Hb1 Ho1 Ht1 Htab1]. split.
  - intros x Hx. rewrite Hb, Hb1 by done. symmetry. apply overlay_cons.
  - intros a Ha. rewrite Ho, Ho1; [done..|]. intros p Hp'. rewrite Ht1. by apply Ha.
  - intros r' p. by rewrite Ht, Ht1.
  - auto.
Qed.

End memory.

(** ** The address space of the caller *)

Section kernel.
Context {D : Type} `{FileSystem D Ext2Error.t}.
Context {PT : Type} `{Mapper PT} `{DirectMap PT}.
Variable from_start_address : Z -> option Z.
Variable try_new : Z -> option Z.
Variable trampoline idle_entry : Z.
Hypothesis try_new_same : forall address v, try_new address = Some v -> v = address.
Hypothesis try_new_low : forall address, 0 <= address < 2 ^ 47 -> try_new address = Some address.

Abbreviation K := (Kernel D PT).

Definition active_space (k : K) : option AddressSpace :=
  i ← current (k_sched k); slot ← tasks (k_sched k) !! i; t ← slot; address_space <$> t_user t.

Lemma active_current_space k sp : active_space k = Some sp -> current_space k = (k, Ok sp).
Proof.
  intros Hs. unfold active_space in Hs.
  apply bind_Some in Hs as (i & Hc & (slot & Ht & (t & -> & Hu)%bind_Some)%bind_Some).
  apply fmap_Some in Hu as (u & Hu & ->).
  unfold current_space, running_task, mbind, op_bind, get, lift, mret, op_ret. rewrite Hc.
  unfold on_sched, slot_at, mbind, op_bind, get, lift. rewrite Ht. cbn [expect].
  rewrite set_sched_id. cbn [option_bind mbind]. by rewrite Hu.
Qed.

Lemma entered_active kr k : entered kr k -> exists sp, active_space k = Some sp.
Proof.
  intros [Hk (i & t & u & Hc & Ht & Hu & _)]. exists (address_space u). unfold active_space.
  rewrite Hc. cbn. rewrite Ht. cbn. by rewrite Hu.
Qed.

(** The active tables are those of the caller's address space. *)
Lemma active_cr3 kr k sp : kernel_ok kr k -> active_space k = Some sp -> root sp = Some (k_cr3 k).
Proof.
  intros [Hk Ha] Hs. rewrite Ha. unfold active_space in Hs.
  apply bind_Some in Hs as (i & Hc & (slot & Ht & (t & -> & Hu)%bind_Some)%bind_Some).
  apply fmap_Some in Hu as (u & Hu & ->). unfold active_root. rewrite Hc, Ht. unfold slot_root. simpl.
  rewrite Hu. simpl. destruct (kok_table _ _ Hk) as [_ Hus _].
  destruct (Hus i t Ht u Hu) as [[r Hr] _]. by rewrite Hr.
Qed.

Lemma quiet_active k s : quiet (k_sched k) s -> active_space (set_sched s k) = active_space k.
Proof.
  intros Q. unfold active_space. cbn [k_sched set_sched]. rewrite (q_current _ _ Q).
  destruct (current (k_sched k)) as [i|]; [|done]. cbn.
  pose proof (f_equal (lookup i) (q_res _ _ Q)) as Hi. unfold resources, view in Hi.
  rewrite !list_lookup_fmap in Hi.
  destruct (tasks s !! i) as [[t|]|], (tasks (k_sched k) !! i) as [[t0|]|]; simpl in *; try done.
  by injection Hi as _ -> _.
Qed.

(** A buffer the caller may write. *)
Definition writable_buffer (k : K) (address n : Z) : Prop :=
  exists sp, active_space k = Some sp /\
    validate_user_range try_new (k_cr3 k) sp address n true = Ok tt.

Lemma validate_user_range_prefix cr3 sp address n m writable :
  0 <= m <= n -> validate_user_range try_new cr3 sp address n writable = Ok tt ->
  validate_user_range try_new cr3 sp address m writable = Ok tt.
Proof.
  intros Hm Hn. apply (validate_user_range_spec try_new try_new_same try_new_low) in Hn; [|lia].
  apply (validate_user_range_spec try_new try_new_same try_new_low); [lia|].
  destruct (Z.eq_dec m 0) as [->|Hne]; [by left|]. right.
  destruct Hn as [->|(Hlo & Hhi & Hr & Hc)]; [lia|]. split_and!; [lia|lia| |done].
  intros x Hx. apply Hr. lia.
Qed.

Lemma copy_to_writable kr k address n input :
  kernel_ok kr k -> writable_buffer k address n -> Z.of_nat (length input) <= n ->
  exists m, k_mem k = Some (Ok m) /\ copy_to_current_user try_new address input k =
    (set_mem (Some (Ok (set_tables (write_user (k_cr3 k) address input (mm_tables m)) m))) k, Ok tt).
Proof.
  intros Hk (sp & Hs & Hv) Hn. destruct (kok_mem _ _ (proj1 Hk)) as (m & Hm & _). exists m.
  split; [done|]. unfold copy_to_current_user, mbind, op_bind, get, lift, modify.
  rewrite (active_current_space _ _ Hs), (validate_user_range_prefix _ _ _ n) by (lia || done).
  by rewrite Hm.
Qed.

Lemma writable_transfer kr k k' address n :
  kernel_ok kr k -> kernel_ok kr k' -> active_space k' = active_space k ->
  writable_buffer k address n -> writable_buffer k' address n.
Proof.
  intros Hk Hk' Hs (sp & Hsp & Hv). exists sp. split; [congruence|].
  pose proof (active_cr3 kr k sp Hk Hsp) as E1.
  pose proof (active_cr3 kr k' sp Hk' ltac:(congruence)) as E2. congruence.
Qed.

Lemma validate_writable kr k k' address n r :
  entered kr k -> validate_current_user_range try_new address n true k = (k', r) ->
  k' = k /\ (r = Ok tt -> writable_buffer k address n).
Proof.
  intros Hk E1. destruct (entered_active kr k Hk) as (sp & Hs).
  unfold validate_current_user_range, mbind, op_bind, get, lift in E1.
  rewrite (active_current_space _ _ Hs) in E1. injection E1 as <- <-. split; [done|].
  intros Hv. by exists sp.
Qed.

(** Waiting that returns keeps the caller's address space. *)
Lemma wait_active kr k k' child x :
  entered kr k -> wait_for_child try_new child k = (k', Ok (Returned x)) ->
  active_space k' = active_space k.
Proof.
  intros [Hk (i & t & u & Hc & Ht & Hu & _)] E1.
  destruct (wait_round try_new kr k k' child i t _ Hk Hc Ht E1) as (Hw & _ & _).
  destruct (Hw x eq_refl) as (j & tc & Hj & _ & Hst & _ & _ & Hs).
  unfold active_space. rewrite Hs. cbn [current clear_slot set_tasks tasks]. rewrite Hc. cbn.
  rewrite list_lookup_insert_ne; [done|]. intros ->.
  destruct (current_running (k_sched k) i) as (t' & Ht' & Hrun); [apply Hk|done|]. congruence.
Qed.

(** ** Bad addresses *)

(** The operation only looks. *)
Definition looks {E A} (op : Op K E A) : Prop := forall k, (op k).1 = k.

(** Started in a state where [P] holds, the operation returns [EFAULT] only when it
    changed nothing. *)
Definition clean {A} (kr : Z) (P : K -> Prop) (op : Op K Z A) : Prop :=
  forall k k', entered kr k -> P k -> op k = (k', Err SYS_ERR_EFAULT) -> k' = k.

Abbreviation always := (fun _ : K => True).

Lemma clean_bind {A B} kr P (m : Op K Z A) (f : A -> Op K Z B) :
  looks m -> (forall a, clean kr P (f a)) -> clean kr P (m ≫= f).
Proof.
  intros Hm Hf k k' Hk HP E1. unfold mbind, op_bind in E1. specialize (Hm k).
  destruct (m k) as [k1 [a|e|]]; cbn [fst] in Hm; subst k1; [by eapply Hf|by injection E1 as <-|done].
Qed.

Lemma clean_looks {A} kr P (op : Op K Z A) : looks op -> clean kr P op.
Proof. intros Hop k k' _ _ E1. specialize (Hop k). by rewrite E1 in Hop. Qed.

(** An error that is never [EFAULT]. *)
Lemma clean_errors {E A} kr P (f : E -> Z) (op : Op K E A) :
  (forall e, f e <> SYS_ERR_EFAULT) -> clean kr P (map_error f op).
Proof.
  intros Hf k k' _ _ E1. unfold map_error in E1. destruct (op k) as [k1 [a|e|]]; try done.
  exfalso. injection E1 as _ E1. by apply (Hf e).
Qed.

Lemma clean_then {A B} kr P (m : Op K Z A) (f : A -> B) :
  clean kr P m -> clean kr P (a ← m; mret (f a)).
Proof.
  intros Hm k k' Hk HP E1. unfold mbind, op_bind, mret, op_ret in E1.
  destruct (m k) as [k1 [a|e|]] eqn:E2; simplify_eq. by eapply Hm.
Qed.

Lemma looks_bind {E A B} (m : Op K E A) (f : A -> Op K E B) :
  looks m -> (forall a, looks (f a)) -> looks (m ≫= f).
Proof.
  intros Hm Hf k. unfold mbind, op_bind. specialize (Hm k).
  destruct (m k) as [k1 [a|e|]]; cbn [fst] in Hm; subst k1; [apply Hf|done..].
Qed.

Lemma looks_fail {E A} (e : E) : looks (fail (A := A) e).
Proof. done. Qed.

Lemma looks_ret {E A} (a : A) : looks (mret (M := Op K E) a).
Proof. done. Qed.

Lemma looks_lift {E A} (m : outcome E A) : looks (lift m).
Proof. done. Qed.

Lemma looks_map_error {E F A} (f : E -> F) (op : Op K E A) : looks op -> looks (map_error f op).
Proof. intros Hop k. specialize (Hop k). unfold map_error. by destruct (op k). Qed.

Lemma looks_space : looks (current_space (D := D) (PT := PT)).
Proof.
  intros k. unfold current_space, running_task, mbind, op_bind, get, lift, mret, op_ret, on_sched, slot_at.
  unfold mbind, op_bind, get, lift. destruct (current (k_sched k)) as [i|]; [|done].
  rewrite set_sched_id. destruct (tasks (k_sched k) !! i) as [[t|]|]; cbn; try done.
  by destruct (t_user t).
Qed.

Lemma looks_validate address n writable :
  looks (validate_current_user_range (D := D) (PT := PT) try_new address n writable).
Proof. apply looks_bind; [apply looks_space|]. intros sp. by apply looks_bind. Qed.

Lemma looks_copy_from address n : looks (copy_from_current_user (D := D) (PT := PT) try_new address n).
Proof. apply looks_bind; [apply looks_space|]. intros sp. by apply looks_bind. Qed.

Create HintDb looks.
Hint Resolve looks_bind looks_fail looks_ret looks_lift looks_map_error looks_validate
  looks_copy_from : looks.

Lemma looks_or_return {E A} errno (op : Op K E A) : looks op -> looks (or_return errno op).
Proof. apply looks_map_error. Qed.
Hint Resolve looks_or_return : looks.

Lemma looks_copy_path address n : looks (copy_path (D := D) (PT := PT) try_new address n).
Proof.
  apply looks_bind; [auto with looks|]. intros path.
  destruct (contains_nul path); [auto with looks|]. destruct (negb _); auto with looks.
Qed.

Lemma looks_read_argument address remaining len :
  looks (read_argument (D := D) (PT := PT) try_new address remaining len).
Proof.
  revert len. induction remaining as [|remaining IH]; intros len; cbn [read_argument]; [auto with looks|].
  apply looks_bind; [auto with looks|]. intros ba. apply looks_bind; [auto with looks|]. intros byte.
  destruct (bool_decide _); auto with looks.
Qed.

Lemma looks_read_arguments argv remaining index total :
  looks (read_arguments (D := D) (PT := PT) try_new argv remaining index total).
Proof.
  revert index total. induction remaining as [|remaining IH]; intros index total;
    cbn [read_arguments]; [auto with looks|].
  do 2 (apply looks_bind; [auto with looks|intros ?]).
  apply looks_bind; [apply looks_read_argument|]. intros argument.
  destruct (negb _); [auto with looks|]. destruct (_ <? _); auto with looks.
Qed.

(** A handler that checked the buffer it is going to write. *)
Lemma clean_validate {B} kr address n (f : unit -> Op K Z B) :
  clean kr (fun k => writable_buffer k address n) (f tt) ->
  clean kr always (_ ← or_return SYS_ERR_EFAULT (validate_current_user_range try_new address n true); f tt).
Proof.
  intros Hf k k' Hk _ E1. unfold mbind, op_bind, or_return, map_error in E1.
  destruct (validate_current_user_range _ _ _ _ k) as [k1 r] eqn:E2.
  destruct (validate_writable kr _ _ _ _ _ Hk E2) as [-> Hv].
  destruct r as [[]|e|]; cbn [map_err] in E1; [|by injection E1 as <-|done]. by apply Hf; auto.
Qed.

(** A copy to a checked buffer, from a state with the same address space. *)
Lemma copy_to_not_efault {B} kr k k1 k' address n input (b : B) :
  kernel_ok kr k -> kernel_ok kr k1 -> active_space k1 = active_space k ->
  writable_buffer k address n -> Z.of_nat (length input) <= n ->
  (_ ← or_return SYS_ERR_EFAULT (copy_to_current_user try_new address input); mret b) k1
    = (k', Err SYS_ERR_EFAULT) -> k' = k.
Proof.
  intros Hk Hk1 Hs Hw Hn E1. pose proof (writable_transfer kr k k1 _ _ Hk Hk1 Hs Hw) as Hw1.
  destruct (copy_to_writable kr k1 address n input Hk1 Hw1 Hn) as (m & _ & E2).
  unfold mbind, op_bind, or_return, map_error in E1. by rewrite E2 in E1.
Qed.

Lemma block_not_efault kr (k k' : K) :
  entered kr k -> blocking (fun _ => SYS_ERR_EIO) block_now k <> (k', Err SYS_ERR_EFAULT).
Proof.
  intros Hk. unfold blocking, mbind, op_bind, map_error.
  destruct (block_now_entered kr k Hk) as (k1 & f & -> & _). done.
Qed.

Lemma fd_read_clean kr frame :
  frame_ok frame -> f_rdx frame <= MAX_SYSCALL_BUFFER ->
  clean kr (fun k => writable_buffer k (f_rsi frame) (f_rdx frame)) (fd_read_loop try_new frame).
Proof.
  intros Hf Hlen k k' Hk Hw E1. unfold fd_read_loop in E1.
  destruct (read_current_fd _ _ k) as [k1 r1] eqn:E2.
  destruct (read_fd_stays kr _ _ _ _ _ E2 Hk) as [Hr1 Hk1].
  assert (active_space k1 = active_space k) as Hs.
  { unfold read_current_fd, mbind, op_bind in E2. destruct (current_fd _ k) as [k0 r0] eqn:E3.
    destruct (current_fd_spec kr _ _ _ _ (proj1 Hk) E3) as (-> & _ & _).
    destruct r0 as [d|e|]; [|by injection E2 as <- _..]. unfold on_fd in E2.
    destruct (read d _ (k_io k)). by injection E2 as <- _. }
  destruct r1 as [[count buffer]|e|]; [| |done].
  - destruct (read_current_fd_count kr _ _ _ _ _ _ (proj1 Hk) E2) as [Hc Hl].
    rewrite length_replicate in Hc, Hl. unfold mbind at 1, op_bind at 1 in E1.
    destruct (wake_all_blocked_tasks k1) as [k2 r2] eqn:E3.
    destruct (wake_all_stays kr _ _ _ E3 Hk1) as [_ Hk2]. injection E3 as <- <-.
    unfold mbind at 1, op_bind at 1, lift in E1. rewrite buffer_prefix_Ok in E1 by lia.
    revert E1. eapply (copy_to_not_efault kr); [apply Hk|apply Hk2| |exact Hw|].
    + rewrite quiet_active; [done|]. apply wake_all_quiet, Hk1.
    + rewrite length_take. destruct Hf as (_ & _ & ? & _). lia.
  - destruct e; try (by injection E1). destruct (_ =? _); [done|].
    exfalso. by eapply (block_not_efault kr).
Qed.

Lemma sys_fd_read_clean kr frame : frame_ok frame -> clean kr always (sys_fd_read try_new frame).
Proof.
  intros Hf. unfold sys_fd_read. destruct (_ || _) eqn:Hb; [by apply clean_looks|]. bools.
  destruct (_ =? _); [by apply clean_looks|].
  apply (clean_validate kr _ _ (fun _ => fd_read_loop try_new frame)). by apply fd_read_clean.
Qed.

Lemma sys_fd_write_clean kr frame : frame_ok frame -> clean kr always (sys_fd_write try_new frame).
Proof.
  intros Hf. unfold sys_fd_write. destruct (_ || _); [by apply clean_looks|].
  destruct (_ =? _); [by apply clean_looks|]. apply clean_bind; [auto with looks|]. intros buffer.
  intros k k' Hk _ E1. unfold fd_write_loop in E1. exfalso.
  destruct (write_current_fd _ _ k) as [k1 [count|e|]] eqn:E2; [done| |done].
  destruct e; try (by injection E1). unfold blocking, mbind, op_bind, map_error, mret, op_ret in E1.
  by destruct (block_now k1) as [k2 [f|e|]].
Qed.

Lemma sys_wait_clean kr frame : clean kr always (sys_wait try_new frame).
Proof.
  unfold sys_wait. apply (clean_validate kr _ _ (fun _ => wait_loop try_new frame)).
  intros k k' Hk Hw E1. unfold wait_loop, mbind at 1, op_bind at 1, map_error in E1.
  destruct (wait_for_child try_new _ k) as [k1 r1] eqn:E2.
  destruct r1 as [[[task status]|]|e|]; cbn [map_err] in E1; [|done| |done].
  - assert (kernel_ok kr k1) as Hk1
      by (eapply keeps_flow_keeps; [apply (wait_keeps try_new idle_entry)|exact E2|done|apply Hk]).
    revert E1. eapply (copy_to_not_efault kr); [apply Hk|done| |exact Hw|].
    + by eapply wait_active.
    + by rewrite length_le_encode.
  - exfalso. injection E1 as _ E1. by destruct e.
Qed.

Lemma sys_read_clean kr frame : frame_ok frame -> clean kr always (sys_read try_new frame).
Proof.
  intros Hf. unfold sys_read. destruct (_ <? _); [by apply clean_looks|].
  destruct (_ =? _); [by apply clean_looks|].
  match goal with |- clean _ _ (_ ≫= ?f) => apply (clean_validate kr _ _ f) end.
  intros k k' Hk Hw E1. unfold mbind at 1, op_bind at 1 in E1.
  destruct (read_available _ k) as [k1 r1] eqn:E2.
  destruct (read_available_stays kr _ _ _ _ E2 Hk) as [Hr1 Hk1].
  destruct r1 as [[count buffer]|e|]; [| |done].
  2: { exfalso. unfold read_available, mbind, op_bind, gets, lift in E2.
    by destruct (InputBuffer_read _ _) as [[[]]|]. }
  destruct (read_available_count kr _ _ _ _ _ Hk E2) as [Hc Hl].
  destruct (count =? 0)%nat; [done|]. unfold mbind at 1, op_bind at 1, lift in E1.
  rewrite buffer_prefix_Ok in E1 by lia. revert E1.
  eapply (copy_to_not_efault kr); [apply Hk|apply Hk1| |exact Hw|].
  - unfold read_available, mbind, op_bind, gets, lift in E2.
    destruct (InputBuffer_read _ _) as [[[]]|]; [|done]. by injection E2 as <- _.
  - rewrite length_take. destruct Hf as (_ & ? & _). lia.
Qed.

(** The buffer of a file or a directory listing. *)
Definition output_checked (frame : SyscallFrame) (k : K) : Prop :=
  f_r10 frame = 0 \/ writable_buffer k (f_rdx frame) (f_r10 frame).

Lemma clean_check {B} kr frame (f : unit -> Op K Z B) :
  clean kr (output_checked frame) (f tt) -> clean kr always (_ ← check_output try_new frame; f tt).
Proof.
  intros Hf. unfold check_output. destruct (Z.eqb_spec (f_r10 frame) 0) as [Hz|Hz].
  - intros k k' Hk _ E1. apply (Hf k k'); [done|by left|done].
  - apply (clean_validate kr _ _ f). intros k k' Hk Hw. apply Hf; [done|by right].
Qed.

Lemma copy_output_clean kr frame bytes k k1 k' :
  kernel_ok kr k -> kernel_ok kr k1 -> active_space k1 = active_space k ->
  output_checked frame k -> Z.of_nat (length bytes) <= f_r10 frame ->
  copy_output try_new frame bytes k1 = (k', Err SYS_ERR_EFAULT) -> k' = k.
Proof.
  intros Hk Hk1 Hs Ho Hn. unfold copy_output. case_bool_decide as Hb; [done|].
  destruct Ho as [Hz|Hw]; [destruct bytes; simpl in *; [done|lia]|].
  by apply (copy_to_not_efault kr k k1 k' _ (f_r10 frame)).
Qed.

Hypothesis fs_ok : fs_total.

Lemma sys_read_file_clean kr frame : frame_ok frame -> clean kr always (sys_read_file try_new frame).
Proof.
  intros Hf. unfold sys_read_file. destruct (_ =? _); [by apply clean_looks|].
  destruct (_ || _); [by apply clean_looks|].
  match goal with |- clean _ _ (_ ≫= ?f) => apply (clean_check kr _ f) end.
  apply clean_bind; [apply looks_copy_path|]. intros path.
  intros k k' Hk Hw E1. unfold mbind at 1, op_bind at 1, map_error, read_file, fail in E1.
  destruct (fs_ok path [] (replicate (Z.to_nat (f_r10 frame)) 0) (io_disk (k_io k)))
    as (_ & Hp & Hn & Hl & _).
  destruct (fs_read_file path _ _) as [[disk output] res]. cbn [fst snd] in *.
  assert (kernel_ok kr (set_io (set_disk disk (k_io k)) k)) as Hk1.
  { apply kernel_ok_io; [apply Hk|]. apply io_ok_set_disk, Hk. }
  destruct res as [[[count total]|]|e|]; cbn [map_err] in E1; [|done| |done].
  - specialize (Hn _ _ eq_refl). rewrite length_replicate in Hn, Hl.
    unfold mbind at 1, op_bind at 1, lift in E1. rewrite buffer_prefix_Ok in E1 by lia.
    revert E1. eapply (copy_output_clean kr); [apply Hk|done..|].
    rewrite length_take. destruct Hf as (_ & _ & _ & ?). lia.
  - exfalso. injection E1 as _ E1. by destruct e.
Qed.

Lemma sys_list_dir_clean kr frame : frame_ok frame -> clean kr always (sys_list_dir try_new frame).
Proof.
  intros Hf. unfold sys_list_dir. destruct (_ || _) eqn:Hb; [by apply clean_looks|]. bools.
  match goal with |- clean _ _ (_ ≫= ?f) => apply (clean_check kr _ f) end.
  apply clean_bind; [apply looks_copy_path|]. intros path.
  intros k k' Hk Hw E1. unfold mbind at 1, op_bind at 1, map_error, directory_entries in E1.
  destruct (fs_ok path [] [] (io_disk (k_io k))) as (_ & _ & _ & _ & Hp & Hs).
  destruct (fs_for_each_entry path _) as [[disk entries] res]. cbn [fst snd] in *.
  assert (kernel_ok kr (set_io (set_disk disk (k_io k)) k)) as Hk1.
  { apply kernel_ok_io; [apply Hk|]. apply io_ok_set_disk, Hk. }
  destruct res as [[]|e|]; cbn [map_err] in E1; [| |done].
  - unfold mbind at 1, op_bind at 1, lift in E1.
    rewrite list_entries_spec in E1; [|unfold MAX_SYSCALL_BUFFER in *; lia|done]. cbn [map_err] in E1.
    revert E1. eapply (copy_output_clean kr); [apply Hk|done..|].
    pose proof (listing_length (Z.to_nat (f_r10 frame)) [] entries ltac:(simpl; lia)).
    destruct Hf as (_ & _ & _ & ?). lia.
  - exfalso. injection E1 as _ E1. by destruct e.
Qed.

Lemma sys_write_file_clean kr frame : clean kr always (sys_write_file try_new frame).
Proof.
  unfold sys_write_file. destruct (_ =? _); [by apply clean_looks|]. destruct (_ || _); [by apply clean_looks|].
  apply clean_bind; [apply looks_copy_path|]. intros path. destruct (bool_decide _); [by apply clean_looks|].
  apply clean_bind; [destruct (_ =? _); auto with looks|]. intros contents.
  apply (clean_then kr _ _ (fun _ => Returned 0)). intros k k' Hk _ E1. exfalso. unfold on_io, on_disk in E1.
  destruct (fs_write_file _ _ _) as [d [[]|e|]]; [done| |done]. injection E1 as _ E1. by destruct e.
Qed.

Lemma clean_errors_bind {E A B} kr P (f : E -> Z) (op : Op K E A) (g : A -> Op K Z B) :
  (forall e, f e <> SYS_ERR_EFAULT) -> (forall a k k', g a k <> (k', Err SYS_ERR_EFAULT)) ->
  clean kr P (map_error f op ≫= g).
Proof.
  intros Hf Hg k k' _ _ E1. exfalso. unfold mbind, op_bind, map_error in E1.
  destruct (op k) as [k1 [a|e|]]; cbn [map_err] in E1; [by eapply Hg| |done].
  injection E1 as _ E1. by apply (Hf e).
Qed.

(** The calls that use no output buffer. *)
Lemma plain_clean kr frame :
  clean kr always (sys_write (D := D) (PT := PT) try_new frame) /\
  clean kr always (sys_pipe (D := D) (PT := PT) try_new frame) /\
  clean kr always (sys_close (D := D) (PT := PT) frame) /\
  clean kr always (sys_dup2 (D := D) (PT := PT) frame) /\
  clean kr always (sys_yield (D := D) (PT := PT)) /\
  clean kr always (sys_sleep (D := D) (PT := PT) (f_rdi frame)) /\
  clean kr always (sys_exit (D := D) (PT := PT) (f_rdi frame)).
Proof.
  split_and!.
  - unfold sys_write. do 2 (destruct (_ : bool); [by apply clean_looks|]).
    apply clean_bind; [auto with looks|]. intros buffer k k' _ _ E1. done.
  - do 2 (apply clean_bind; [auto with looks|intros _]). apply clean_errors_bind; [done|].
    by intros [a b] k k'.
  - unfold sys_close. destruct (_ <=? _); [by apply clean_looks|].
    apply clean_errors_bind; [by intros []|]. done.
  - unfold sys_dup2. destruct (_ || _); [by apply clean_looks|].
    apply clean_errors_bind; [by intros []|]. done.
  - apply clean_errors_bind; [by intros []|done].
  - unfold sys_sleep. destruct (_ <? _); [by apply clean_looks|]. by apply clean_errors_bind.
  - by apply clean_errors_bind.
Qed.

Lemma launch_clean kr reserve base path arguments :
  clean kr always (launch (D := D) (PT := PT) from_start_address try_new trampoline reserve base path arguments).
Proof. apply (clean_then kr _ _ Returned), clean_errors. intros e. by destruct e. Qed.

Lemma sys_spawn_clean kr reserve base frame :
  clean kr always (sys_spawn (D := D) (PT := PT) from_start_address try_new trampoline reserve base frame).
Proof.
  unfold sys_spawn. do 2 (destruct (_ : bool); [by apply clean_looks|]).
  apply clean_bind; [apply looks_copy_path|]. intros path.
  destruct (bool_decide _); [by apply clean_looks|apply launch_clean].
Qed.

Lemma sys_spawn_with_arguments_clean kr reserve base frame :
  clean kr always
    (sys_spawn_with_arguments (D := D) (PT := PT) from_start_address try_new trampoline reserve base frame).
Proof.
  unfold sys_spawn_with_arguments. destruct (_ <? _); [by apply clean_looks|].
  apply clean_bind; [destruct (_ =? _); auto with looks|]. intros _.
  do 2 (destruct (_ : bool); [by apply clean_looks|]).
  apply clean_bind; [apply looks_copy_path|]. intros path. destruct (bool_decide _); [by apply clean_looks|].
  apply clean_bind; [apply looks_read_arguments|]. intros arguments. apply launch_clean.
Qed.

End kernel.

(** ** Bytes delivered to user memory *)

Section delivery.
Context {D : Type} `{FileSystem D Ext2Error.t}.
Context {PT : Type} `{DirectMapLaws PT}.
Variable try_new : Z -> option Z.
Hypothesis try_new_same : forall address v, try_new address = Some v -> v = address.
Hypothesis try_new_low : forall address, 0 <= address < 2 ^ 47 -> try_new address = Some address.

Abbreviation K := (Kernel D PT).

(** The pages of the caller are private. *)
Definition caller_private (k : K) (pages : list Z) : Prop :=
  exists sp m, active_space k = Some sp /\ pages = (user_pages sp).*1 /\ k_mem k = Some (Ok m) /\
    private_pages (k_cr3 k) pages (mm_tables m).

(** From [k] to [k'] the caller's memory got [bytes] at [address], and no other
    physical memory changed. *)
Record delivered (pages : list Z) (k k' : K) (address : Z) (bytes : list Z) : Prop := {
  dl_user : forall x, page_down x ∈ pages ->
    user_memory k' x = overlay address bytes x (user_memory k x);
  dl_others : forall t t' a, tables k = Some t -> tables k' = Some t' ->
    (forall p, p ∈ pages -> pt_translate (k_cr3 k) p t <> Some (page_down a)) ->
    pt_byte a t' = pt_byte a t;
}.

Lemma find_access_mem page pages access : find_access page pages = Some access -> page ∈ pages.*1.
Proof.
  induction pages as [|[q a] pages IH]; [done|]. cbn.
  destruct (Z.eqb_spec q page) as [->|]; [by left|]. right. by apply IH.
Qed.

Lemma buffer_in_pages cr3 sp address n writable x :
  user_buffer cr3 sp address n writable -> address <= x < address + n -> page_down x ∈ (user_pages sp).*1.
Proof.
  intros (_ & _ & Hr & _) Hx. destruct (Hr x Hx) as (access & Ha & _).
  by eapply find_access_mem.
Qed.

(** The copy of a handler that ends with it, from a state [k1] whose memory and
    address space are those of [k]. *)
Lemma copy_to_delivered kr (k k1 k' : K) pages address n input :
  kernel_ok kr k -> kernel_ok kr k1 -> active_space k1 = active_space k -> k_mem k1 = k_mem k ->
  caller_private k pages -> writable_buffer try_new k address n -> Z.of_nat (length input) <= n ->
  copy_to_current_user try_new address input k1 = (k', Ok tt) -> delivered pages k k' address input.
Proof.
  intros Hk Hk1 Hs Hm (sp & m & Hsp & -> & Hkm & Hp) Hw Hn E1.
  pose proof (active_cr3 kr k sp Hk Hsp) as Hc.
  pose proof (active_cr3 kr k1 sp Hk1 ltac:(congruence)) as Hc1.
  assert (k_cr3 k1 = k_cr3 k) as Hcr by congruence.
  pose proof (writable_transfer try_new kr k k1 _ _ Hk Hk1 Hs Hw) as Hw1.
  destruct (copy_to_writable try_new try_new_same try_new_low kr k1 address n input Hk1 Hw1 Hn)
    as (m1 & Hm1 & E2).
  rewrite E2 in E1. injection E1 as <-. assert (m1 = m) as -> by congruence.
  assert (copied_out (k_cr3 k) (user_pages sp).*1 address input (mm_tables m)
    (write_user (k_cr3 k) address input (mm_tables m))) as [Hb Ho _ _].
  { apply write_user_copied; [done|]. intros x Hx. destruct Hw as (sp' & Hsp' & Hv).
    assert (sp' = sp) as -> by congruence.
    apply (validate_user_range_prefix try_new try_new_same try_new_low _ _ _ _ (Z.of_nat (length input)))
      in Hv; [|lia].
    apply (validate_user_range_spec try_new try_new_same try_new_low) in Hv; [|lia].
    destruct Hv as [?|Hv]; [lia|]. by eapply buffer_in_pages. }
  split.
  - intros x Hx. unfold user_memory, tables. rewrite Hkm. cbn. rewrite Hcr. by apply Hb.
  - intros t t' a Ht Ht'. unfold tables in *. rewrite Hkm in Ht. cbn in Ht'.
    injection Ht as <-. injection Ht' as <-. rewrite Hcr. apply Ho.
Qed.

Lemma copy_to_io address input (k k' : K) r :
  copy_to_current_user try_new address input k = (k', r) -> k_io k' = k_io k.
Proof.
  unfold copy_to_current_user, mbind, op_bind, get, lift, modify.
  pose proof (looks_space k) as Hl. destruct (current_space k) as [k1 [sp|e|]]; cbn [fst] in Hl; subst k1;
    [|by intros [= <- _]..].
  destruct (validate_user_range _ _ _ _ _ _) as [[]|e|]; [|by intros [= <- _]..].
  intros [= <- _]. by destruct (k_mem k) as [[m|e|]|].
Qed.

Lemma block_not_returned kr (errno : SchedulerError -> Z) (k k' : K) n :
  entered kr k -> blocking errno block_now k <> (k', Ok (Returned n)).
Proof.
  intros [Hk (i & t & u & Hc & Ht & Hu & Hi)]. unfold blocking, mbind, op_bind, map_error.
  destruct (block_spec kr k i t (proj1 Hk) Hc Ht Hi) as (k1 & -> & _). done.
Qed.

(** A read that returned after bytes were read from the descriptor. *)
Lemma fd_read_round kr frame pages (k k' : K) n :
  entered kr k -> frame_ok frame -> caller_private k pages -> f_rdx frame <> 0 ->
  sys_fd_read try_new frame k = (k', Ok (Returned n)) ->
  exists d out, current_fd (Z.to_nat (f_rdi frame)) k = (k, Ok d) /\
    read d (replicate (Z.to_nat (f_rdx frame)) 0) (k_io k) = (k_io k', Ok (Z.to_nat n, out)) /\
    0 <= n /\ delivered pages k k' (f_rsi frame) (take (Z.to_nat n) out).
Proof.
  intros Hk Hf Hp Hz E1. unfold sys_fd_read in E1. destruct (_ || _) eqn:Hb; [done|]. bools.
  destruct (Z.eqb_spec (f_rdx frame) 0) as [?|_]; [done|].
  unfold mbind at 1, op_bind at 1, or_return, map_error in E1.
  destruct (validate_current_user_range _ _ _ _ k) as [k0 r0] eqn:E0.
  destruct (validate_writable try_new kr _ _ _ _ _ Hk E0) as [-> Hw].
  destruct r0 as [[]|e|]; cbn [map_err] in E1; [|done..]. specialize (Hw eq_refl).
  unfold fd_read_loop in E1. destruct (read_current_fd _ _ k) as [k1 r1] eqn:E2.
  destruct (read_fd_stays kr _ _ _ _ _ E2 Hk) as [Hr1 Hk1].
  destruct r1 as [[count buffer]|e|].
  2: { destruct e; try done. destruct (_ =? _); [done|].
    by apply (block_not_returned kr) in E1. }
  2: done.
  destruct (read_current_fd_count kr _ _ _ _ _ _ (proj1 Hk) E2) as [Hcnt Hl].
  rewrite length_replicate in Hcnt, Hl.
  unfold read_current_fd, mbind, op_bind in E2. destruct (current_fd _ k) as [k0 r0] eqn:E3.
  destruct (current_fd_spec kr _ _ _ _ (proj1 Hk) E3) as (-> & _ & _).
  destruct r0 as [d|e|]; [|done..]. unfold on_fd in E2.
  destruct (read d _ (k_io k)) as [io r] eqn:E4. injection E2 as <- Er.
  destruct r as [[c o]|e|]; simplify_eq/=.
  unfold mbind at 1, op_bind at 1 in E1.
  destruct (wake_all_blocked_tasks (set_io io k)) as [k2 r2] eqn:E5.
  destruct (wake_all_stays kr _ _ _ E5 Hk1) as [_ Hk2]. injection E5 as <- <-.
  unfold mbind at 1, op_bind at 1, lift in E1. rewrite buffer_prefix_Ok in E1 by lia.
  unfold mbind, op_bind, or_return, map_error, mret, op_ret in E1.
  destruct (copy_to_current_user try_new _ _ _) as [k3 r3] eqn:E6.
  destruct r3 as [[]|e|]; [|done..]. injection E1 as <- <-. rewrite Nat2Z.id.
  exists d, buffer. split; [done|]. split; [by rewrite (copy_to_io _ _ _ _ _ E6)|]. split; [lia|].
  eapply (copy_to_delivered kr k _ k3 pages _ (f_rdx frame)); [apply Hk|apply Hk2| |done|done|done| |exact E6].
  - rewrite quiet_active; [done|]. apply wake_all_quiet, Hk1.
  - rewrite length_take. destruct Hf as (_ & _ & ? & _). lia.
Qed.

Hypothesis fs_ok : fs_total.

Lemma fd_write_round kr frame (k k' : K) n :
  entered kr k -> frame_ok frame -> f_rdx frame <> 0 ->
  sys_fd_write try_new frame k = (k', Ok (Returned n)) ->
  exists d, current_fd (Z.to_nat (f_rdi frame)) k = (k, Ok d) /\
    write d (read_bytes (user_memory k) (f_rsi frame) (Z.to_nat (f_rdx frame))) (k_io k)
      = (k_io k', Ok (Z.to_nat n)) /\ 0 <= n /\ k_mem k' = k_mem k.
Proof.
  intros Hk Hf Hz E1. unfold sys_fd_write in E1. destruct (_ || _) eqn:Hb; [done|]. bools.
  destruct (Z.eqb_spec (f_rdx frame) 0) as [?|_]; [done|].
  unfold mbind at 1, op_bind at 1, or_return, map_error in E1.
  destruct (entered_active kr k Hk) as (sp & Hs).
  unfold copy_from_current_user, mbind at 1, op_bind at 1, lift in E1.
  rewrite (active_current_space _ _ Hs) in E1. unfold mbind, op_bind, get, copy_from_user in E1.
  rewrite length_replicate in E1.
  destruct (validate_user_range _ _ _ _ _ _) as [[]|e|]; cbn [mbind outcome_bind map_err] in E1; [|done..].
  unfold fd_write_loop in E1. destruct (write_current_fd _ _ k) as [k1 r1] eqn:E2.
  destruct r1 as [count|e|].
  2: { destruct e; try done. destruct (write_fd_ends fs_ok kr _ _ _ _ _ E2 Hk) as [_ Hk1].
    by apply (block_not_returned kr) in E1. }
  2: done.
  injection E1 as <- <-. rewrite Nat2Z.id.
  unfold write_current_fd, mbind, op_bind in E2. destruct (current_fd _ k) as [k0 r0] eqn:E3.
  destruct (current_fd_spec kr _ _ _ _ (proj1 Hk) E3) as (-> & _ & _).
  destruct r0 as [d|e|]; [|done..]. unfold on_fd in E2.
  destruct (write d _ (k_io k)) as [io r] eqn:E4. injection E2 as <- Er.
  destruct r as [c|e|]; simplify_eq/=. exists d. split_and!; [done..|lia|done].
Qed.

Lemma copy_path_Ok kr (k k' : K) address n path :
  entered kr k -> copy_path try_new address n k = (k', Ok path) ->
  k' = k /\ path = read_bytes (user_memory k) address n.
Proof.
  intros Hk E1. destruct (entered_active kr k Hk) as (sp & Hs).
  unfold copy_path, mbind at 1, op_bind at 1, or_return, map_error in E1.
  unfold copy_from_current_user, mbind at 1, op_bind at 1 in E1.
  rewrite (active_current_space _ _ Hs) in E1. unfold mbind, op_bind, get, lift, copy_from_user in E1.
  rewrite length_replicate in E1.
  destruct (validate_user_range _ _ _ _ _ _) as [[]|e|]; cbn [mbind outcome_bind map_err] in E1; [|done..].
  destruct (contains_nul _); [done|]. destruct (negb _); [done|]. by injection E1 as <- <-.
Qed.

Lemma delivered_nothing pages (k k' : K) address :
  k_mem k' = k_mem k -> k_cr3 k' = k_cr3 k -> delivered pages k k' address [].
Proof.
  intros Hm Hc. split.
  - intros x _. rewrite overlay_other by (simpl; lia). unfold user_memory, tables. by rewrite Hm, Hc.
  - intros t t' a Ht Ht' _. unfold tables in *. rewrite Hm, Ht in Ht'. by injection Ht' as <-.
Qed.

(** The end of the calls that return a file or a listing. *)
Lemma copy_output_delivered kr frame pages (k k1 k' : K) bytes n :
  kernel_ok kr k -> kernel_ok kr k1 -> active_space k1 = active_space k -> k_mem k1 = k_mem k ->
  k_cr3 k1 = k_cr3 k -> caller_private k pages -> output_checked try_new frame k ->
  Z.of_nat (length bytes) <= f_r10 frame -> copy_output try_new frame bytes k1 = (k', Ok (Returned n)) ->
  n = Z.of_nat (length bytes) /\ delivered pages k k' (f_rdx frame) bytes.
Proof.
  intros Hk Hk1 Hs Hm Hc Hp Ho Hn E1. unfold copy_output, mbind, op_bind, mret, op_ret in E1.
  case_bool_decide as Hb.
  { subst bytes. injection E1 as <- <-. split; [done|]. by apply delivered_nothing. }
  unfold or_return, map_error in E1.
  destruct (copy_to_current_user try_new _ _ _) as [k3 r3] eqn:E6.
  destruct r3 as [[]|e|]; cbn [map_err] in E1; [|done..]. injection E1 as <- <-. split; [done|].
  destruct Ho as [Hz|Hw]; [destruct bytes; simpl in *; [done|lia]|]. by eapply (copy_to_delivered kr k k1).
Qed.

Lemma check_output_Ok kr frame (k k' : K) :
  entered kr k -> check_output try_new frame k = (k', Ok tt) -> k' = k /\ output_checked try_new frame k.
Proof.
  intros Hk E1. unfold check_output in E1. destruct (Z.eqb_spec (f_r10 frame) 0) as [Hz|Hz].
  { injection E1 as <-. split; [done|]. by left. }
  unfold or_return, map_error in E1. destruct (validate_current_user_range _ _ _ _ k) as [k0 r0] eqn:E0.
  destruct (validate_writable try_new kr _ _ _ _ _ Hk E0) as [-> Hw].
  destruct r0 as [[]|e|]; [|done..]. injection E1 as <-. split; [done|]. right. by apply Hw.
Qed.

Lemma list_dir_round kr frame pages (k k' : K) n :
  entered kr k -> frame_ok frame -> caller_private k pages ->
  sys_list_dir try_new frame k = (k', Ok (Returned n)) ->
  exists disk entries,
    fs_for_each_entry (read_bytes (user_memory k) (f_rdi frame) (Z.to_nat (f_rsi frame)))
      (io_disk (k_io k)) = (disk, entries, Ok tt) /\
    let listing := foldl (add_line (Z.to_nat (f_r10 frame))) [] entries in
    n = Z.of_nat (length listing) /\ delivered pages k k' (f_rdx frame) listing.
Proof.
  intros Hk Hf Hp E1. unfold sys_list_dir in E1. destruct (_ || _) eqn:Hb; [done|]. bools.
  unfold mbind at 1, op_bind at 1 in E1. destruct (check_output _ _ k) as [k0 r0] eqn:E0.
  destruct r0 as [[]|e|]; [|done..]. destruct (check_output_Ok kr _ _ _ Hk E0) as [-> Ho].
  unfold mbind at 1, op_bind at 1 in E1. destruct (copy_path _ _ _ k) as [k0 r0] eqn:E2.
  destruct r0 as [path|e|]; [|done..]. destruct (copy_path_Ok kr _ _ _ _ _ Hk E2) as [-> ->].
  unfold mbind at 1, op_bind at 1, map_error, directory_entries in E1.
  destruct (fs_ok (read_bytes (user_memory k) (f_rdi frame) (Z.to_nat (f_rsi frame))) [] []
    (io_disk (k_io k))) as (_ & _ & _ & _ & Hpn & Hs).
  destruct (fs_for_each_entry _ _) as [[disk entries] res]. cbn [fst snd] in *.
  assert (kernel_ok kr (set_io (set_disk disk (k_io k)) k)) as Hk1.
  { apply kernel_ok_io; [apply Hk|]. apply io_ok_set_disk, Hk. }
  destruct res as [[]|e|]; cbn [map_err] in E1; [|done..]. exists disk, entries. split; [done|].
  unfold mbind at 1, op_bind at 1, lift in E1.
  rewrite list_entries_spec in E1; [|unfold MAX_SYSCALL_BUFFER in *; lia|done]. cbn [map_err] in E1.
  eapply (copy_output_delivered kr); [apply Hk|exact Hk1|done..| |exact E1].
  pose proof (listing_length (Z.to_nat (f_r10 frame)) [] entries ltac:(simpl; lia)).
  destruct Hf as (_ & _ & _ & ?). lia.
Qed.

Lemma read_file_round kr frame pages (k k' : K) n :
  entered kr k -> frame_ok frame -> caller_private k pages ->
  sys_read_file try_new frame k = (k', Ok (Returned n)) ->
  exists disk output total,
    fs_read_file (read_bytes (user_memory k) (f_rdi frame) (Z.to_nat (f_rsi frame)))
      (replicate (Z.to_nat (f_r10 frame)) 0) (io_disk (k_io k))
      = (disk, output, Ok (Some (Z.to_nat n, total))) /\
    0 <= n <= f_r10 frame /\ delivered pages k k' (f_rdx frame) (take (Z.to_nat n) output).
Proof.
  intros Hk Hf Hp E1. unfold sys_read_file in E1. destruct (_ =? _); [done|].
  destruct (_ || _) eqn:Hb; [done|]. bools.
  unfold mbind at 1, op_bind at 1 in E1. destruct (check_output _ _ k) as [k0 r0] eqn:E0.
  destruct r0 as [[]|e|]; [|done..]. destruct (check_output_Ok kr _ _ _ Hk E0) as [-> Ho].
  unfold mbind at 1, op_bind at 1 in E1. destruct (copy_path _ _ _ k) as [k0 r0] eqn:E2.
  destruct r0 as [path|e|]; [|done..]. destruct (copy_path_Ok kr _ _ _ _ _ Hk E2) as [-> ->].
  unfold mbind at 1, op_bind at 1, map_error, read_file in E1.
  destruct (fs_ok (read_bytes (user_memory k) (f_rdi frame) (Z.to_nat (f_rsi frame))) []
    (replicate (Z.to_nat (f_r10 frame)) 0) (io_disk (k_io k))) as (_ & _ & Hn & Hl & _).
  destruct (fs_read_file _ _ _) as [[disk output] res]. cbn [fst snd] in *.
  assert (kernel_ok kr (set_io (set_disk disk (k_io k)) k)) as Hk1.
  { apply kernel_ok_io; [apply Hk|]. apply io_ok_set_disk, Hk. }
  destruct res as [[[count total]|]|e|]; cbn [map_err] in E1; [|done..].
  specialize (Hn _ _ eq_refl). rewrite length_replicate in Hn, Hl.
  unfold mbind at 1, op_bind at 1, lift in E1. rewrite buffer_prefix_Ok in E1 by lia.
  destruct Hf as (_ & _ & _ & Hf).
  destruct (copy_output_delivered kr frame pages k _ k' (take count output) n (proj1 Hk) Hk1
    eq_refl eq_refl eq_refl Hp Ho) as [-> Hd]; [rewrite length_take; lia|done|].
  rewrite length_take in *. rewrite Nat2Z.id. replace (count `min` length output)%nat with count by lia.
  exists disk, output, total. split; [done|]. split; [lia|done].
Qed.

End delivery.

(** ** The kernel with system calls as a transition system *)

Section system.
Context {D : Type} `{FileSystem D Ext2Error.t}.
Context {PT : Type} `{Mapper PT} `{DirectMap PT}.
Variable from_start_address : Z -> option Z.
Variable try_new : Z -> option Z.
Variable trampoline idle_entry : Z.

Abbreviation K := (Kernel D PT).

(** A user task enters a system call, or goes on with one that gave up the
    processor: a read, a write or a wait looks again; any other step is one of
    [KernelProps.kstep]. *)
Inductive sstep : K -> K -> Prop :=
| sstep_kernel k k' : kstep try_new trampoline idle_entry k k' -> sstep k k'
| sstep_syscall reserve base frame k k' r :
    user_running k -> frame_ok frame ->
    syscall_dispatch from_start_address try_new trampoline reserve base frame k = (k', r) ->
    r <> Panic -> sstep k k'
| sstep_read frame k k' r :
    user_running k -> frame_ok frame -> f_rdx frame <= MAX_SYSCALL_BUFFER ->
    fd_read_loop try_new frame k = (k', r) -> r <> Panic -> sstep k k'
| sstep_write frame buffer k k' r :
    user_running k -> fd_write_loop frame buffer k = (k', r) -> r <> Panic -> sstep k k'
| sstep_wait frame k k' r :
    user_running k -> wait_loop try_new frame k = (k', r) -> r <> Panic -> sstep k k'.

Hypothesis try_new_same : forall address v, try_new address = Some v -> v = address.
Hypothesis try_new_low : forall address, 0 <= address < 2 ^ 47 -> try_new address = Some address.
Hypothesis fs_ok : fs_total.

Lemma sstep_ok kr k k' : sstep k k' -> kernel_ok kr k -> kernel_ok kr k'.
Proof.
  intros Hs Hk. destruct Hs as [k k' Hs|reserve base frame k k' r Hu Hf E1 Hr|frame k k' r Hu Hf Hl E1 Hr
    |frame buffer k k' r Hu E1 Hr|frame k k' r Hu E1 Hr].
  - by eapply kstep_ok.
  - unfold syscall_dispatch in E1. destruct (syscall_handler _ _ _ _ _ _ k) as [k1 r1] eqn:E2.
    assert (k1 = k' /\ r1 <> Panic) as [<- Hr1] by (destruct r1; by simplify_eq).
    by eapply (syscall_handler_keeps from_start_address try_new trampoline idle_entry).
  - by eapply (fd_read_loop_ends try_new).
  - by eapply (fd_write_loop_ends fs_ok).
  - by eapply (wait_loop_ends try_new idle_entry).
Qed.

Lemma sreachable_ok disk m k : rtc sstep (boot_kernel disk m) k -> kernel_ok (mm_kernel_root m) k.
Proof.
  intros Hr. apply (rtc_invariant sstep (kernel_ok (mm_kernel_root m))) with (boot_kernel disk m);
    [apply sstep_ok|done|apply boot_kernel_ok].
Qed.

End system.

(** ** Properties *)

Section properties.
Context {D : Type} `{FileSystem D Ext2Error.t}.
Context {PT : Type} `{DirectMapLaws PT}.
Variable from_start_address : Z -> option Z.
Variable try_new : Z -> option Z.
Variable trampoline idle_entry : Z.
Hypothesis try_new_same : forall address v, try_new address = Some v -> v = address.
Hypothesis try_new_low : forall address, 0 <= address < 2 ^ 47 -> try_new address = Some address.
Hypothesis fs_ok : fs_total (D := D).

(** C2: In every state that the kernel reaches by system calls, interrupts and
    scheduling, the kernel invariant holds, and no system call but those that create
    or reap a process can panic, whatever the registers hold: it returns a value or
    gives up the processor. *)
Theorem syscalls_never_panic disk (m : MemoryManager PT) (k : Kernel D PT) reserve base frame :
  rtc (sstep from_start_address try_new trampoline idle_entry) (boot_kernel disk m) k ->
  user_running k -> frame_ok frame ->
  kernel_ok (mm_kernel_root m) k /\
  (creates_or_waits frame = false ->
   exists k' f, syscall_dispatch from_start_address try_new trampoline reserve base frame k = (k', Ok f)).
Proof.
  intros Hk%sreachable_ok Hu Hf; [|done..]. split; [done|]. intros Hc. unfold syscall_dispatch.
  destruct (syscall_handler _ _ _ _ _ _ k) as [k' r] eqn:E1.
  destruct (syscall_handler_ends from_start_address try_new trampoline try_new_same try_new_low
    fs_ok (mm_kernel_root m) reserve base frame Hf Hc k k' r E1 (conj Hk Hu)) as [Hr _].
  destruct r as [f|e|]; [by exists k', f|by eexists k', _|done].
Qed.

(** C9: A system call that reports a bad address has changed nothing: no bytes were
    taken from a pipe or from the keyboard, no child was reaped and nothing was read
    or written on the disk. *)
Theorem efault_changes_nothing disk (m : MemoryManager PT) (k k' : Kernel D PT) reserve base frame :
  rtc (sstep from_start_address try_new trampoline idle_entry) (boot_kernel disk m) k ->
  user_running k -> frame_ok frame ->
  syscall_handler from_start_address try_new trampoline reserve base frame k
    = (k', Err SYS_ERR_EFAULT) -> k' = k.
Proof.
  intros Hk%sreachable_ok Hu Hf; [|done..]. intros E1.
  assert (clean (mm_kernel_root m) (fun _ => True)
    (syscall_handler (D := D) (PT := PT) from_start_address try_new trampoline reserve base frame)) as Hc;
    [|by apply (Hc k k' (conj Hk Hu))]. clear E1.
  destruct (plain_clean (D := D) (PT := PT) try_new (mm_kernel_root m) frame) as (? & ? & ? & ? & ? & ? & ?).
  unfold syscall_handler. destruct (f_rax frame) as [|p|p] eqn:Hrax; [|do 5 (try destruct p as [p|p|])|];
    try (by apply clean_looks);
    eauto using sys_read_clean, sys_read_file_clean, sys_write_file_clean, sys_fd_read_clean,
      sys_fd_write_clean, sys_wait_clean, sys_spawn_clean, sys_spawn_with_arguments_clean,
      sys_list_dir_clean.
Qed.

(** C10: A read from a pipe takes the oldest bytes, as many as fit, and delivers them,
    in order, to the caller's buffer; no other byte of the caller's memory and no
    frame of anybody else changes. *)
Theorem pipe_read_delivers disk (m : MemoryManager PT) (k k' : Kernel D PT) frame pages id p n :
  rtc (sstep from_start_address try_new trampoline idle_entry) (boot_kernel disk m) k ->
  user_running k -> frame_ok frame -> caller_private k pages ->
  current_fd (Z.to_nat (f_rdi frame)) k = (k, Ok (PipeReadEnd id)) ->
  io_pipes (k_io k) !! id = Some p -> f_rdx frame <> 0 ->
  sys_fd_read try_new frame k = (k', Ok (Returned n)) ->
  exists bytes p', n = Z.of_nat (length bytes) /\ pipe_items p = bytes ++ pipe_items p' /\
    length bytes = (Z.to_nat (f_rdx frame) `min` length (pipe_items p))%nat /\
    io_pipes (k_io k') !! id = Some p' /\ delivered pages k k' (f_rsi frame) bytes.
Proof.
  intros Hk%sreachable_ok Hu Hf Hp Hfd Hpipe Hz E1; [|done..].
  destruct (fd_read_round try_new try_new_same try_new_low (mm_kernel_root m) frame pages k k' n
    (conj Hk Hu) Hf Hp Hz E1) as (d & out & Ed & Er & Hn & Hd).
  rewrite Hfd in Ed. injection Ed as <-.
  pose proof (read_pipe_spec (live_fds (k_sched k)) (k_io k) id p
    (replicate (Z.to_nat (f_rdx frame)) 0) ltac:(apply Hk) Hpipe) as Hs.
  cbv zeta in Hs. case_match; [by rewrite Er in Hs|]. destruct Hs as (p' & Er' & Hi & _).
  rewrite Er in Er'. injection Er' as Hio Hn' Hout. rewrite length_replicate in *.
  set (c := (Z.to_nat (f_rdx frame) `min` length (pipe_items p))%nat) in *.
  assert (length (take c (pipe_items p)) = c) as Hlc by (rewrite length_take; lia).
  exists (take c (pipe_items p)), p'. rewrite Hlc. split; [lia|].
  split; [by rewrite Hi, take_drop|]. split; [done|]. split; [by rewrite Hio; apply lookup_insert_eq|].
  rewrite Hn', Hout in Hd. by rewrite take_app_length' in Hd.
Qed.

(** A write to a pipe appends the first bytes of the caller's buffer, as many as
    it reports, and changes no memory. *)
Theorem pipe_write_takes disk (m : MemoryManager PT) (k k' : Kernel D PT) frame id p n :
  rtc (sstep from_start_address try_new trampoline idle_entry) (boot_kernel disk m) k ->
  user_running k -> frame_ok frame ->
  current_fd (Z.to_nat (f_rdi frame)) k = (k, Ok (PipeWriteEnd id)) ->
  io_pipes (k_io k) !! id = Some p -> f_rdx frame <> 0 ->
  sys_fd_write try_new frame k = (k', Ok (Returned n)) ->
  exists p', io_pipes (k_io k') !! id = Some p' /\
    pipe_items p' = pipe_items p ++ read_bytes (user_memory k) (f_rsi frame) (Z.to_nat n) /\
    0 < n <= f_rdx frame /\ k_mem k' = k_mem k.
Proof.
  intros Hk%sreachable_ok Hu Hf Hfd Hpipe Hz E1; [|done..].
  destruct (fd_write_round try_new fs_ok (mm_kernel_root m) frame k k' n (conj Hk Hu) Hf Hz E1)
    as (d & Ed & Ew & Hn & Hm).
  rewrite Hfd in Ed. injection Ed as <-.
  set (input := read_bytes (user_memory k) (f_rsi frame) (Z.to_nat (f_rdx frame))) in *.
  assert (length input = Z.to_nat (f_rdx frame)) as Hl
    by (unfold input, read_bytes; by rewrite length_fmap, length_seq).
  pose proof (write_pipe_spec (live_fds (k_sched k)) (k_io k) id p input ltac:(apply Hk) Hpipe) as Hs.
  cbv zeta in Hs. case_decide; [|by rewrite Ew in Hs]. destruct Hs as (p' & Ew' & Hi & _).
  rewrite Ew in Ew'. injection Ew' as Hio Hn'. case_decide as Hd; [done|]. injection Hn' as Hn'.
  destruct Hf as (_ & _ & Hr & _).
  exists p'. split; [rewrite Hio; apply lookup_insert_eq|]. split; [|split; [|done]].
  - rewrite Hi, <-Hn'. f_equal. unfold input, read_bytes. rewrite <-fmap_take. f_equal.
    rewrite take_seq. f_equal. lia.
  - assert (Z.to_nat n <> 0%nat) by (intros Hn0; apply Hd; split; [lia|]; intros Hnil;
      rewrite Hnil in Hl; simpl in Hl; lia). lia.
Qed.

(** A directory listing delivers to the caller's buffer one line for each entry
    of the directory at the path the caller gave, in order, leaving out exactly the
    lines that no longer fit; a line is the size in decimal, a blank, the name, a
    slash for a directory and a newline; the call returns the number of bytes. *)
Theorem list_dir_exact disk (m : MemoryManager PT) (k k' : Kernel D PT) frame pages n :
  rtc (sstep from_start_address try_new trampoline idle_entry) (boot_kernel disk m) k ->
  user_running k -> frame_ok frame -> caller_private k pages ->
  sys_list_dir try_new frame k = (k', Ok (Returned n)) ->
  exists disk' entries,
    fs_for_each_entry (read_bytes (user_memory k) (f_rdi frame) (Z.to_nat (f_rsi frame)))
      (io_disk (k_io k)) = (disk', entries, Ok tt) /\
    let listing := foldl (add_line (Z.to_nat (f_r10 frame))) [] entries in
    n = Z.of_nat (length listing) /\ delivered pages k k' (f_rdx frame) listing /\
    forall name (is_dir : bool) size, (name, is_dir, size) ∈ entries -> exists digits,
      entry_line (name, is_dir, size) = digits ++ [32] ++ name ++ (if is_dir then [47] else []) ++ [10] /\
      Forall is_digit digits /\ decimal_value digits = size /\ (head digits = Some 48 -> size = 0).
Proof.
  intros Hk%sreachable_ok Hu Hf Hp E1; [|done..].
  destruct (list_dir_round try_new try_new_same try_new_low fs_ok (mm_kernel_root m) frame pages k k' n
    (conj Hk Hu) Hf Hp E1) as (disk' & entries & Ee & Hn & Hd).
  exists disk', entries. split; [done|]. split; [done|]. split; [done|].
  intros name is_dir size Hin. exists (decimal size). split; [done|].
  destruct (fs_ok (read_bytes (user_memory k) (f_rdi frame) (Z.to_nat (f_rsi frame))) [] []
    (io_disk (k_io k))) as (_ & _ & _ & _ & _ & Hs).
  rewrite Ee in Hs. cbn [fst snd] in Hs. rewrite Forall_forall in Hs. specialize (Hs _ Hin).
  destruct (decimal_spec size Hs) as (_ & ? & ? & _ & ?). done.
Qed.

(** Reading a file delivers the bytes the file system returned for the path the
    caller gave to the caller's buffer, no more than it holds, and nothing else in
    memory changes. *)
Theorem file_read_delivers disk (m : MemoryManager PT) (k k' : Kernel D PT) frame pages n :
  rtc (sstep from_start_address try_new trampoline idle_entry) (boot_kernel disk m) k ->
  user_running k -> frame_ok frame -> caller_private k pages ->
  sys_read_file try_new frame k = (k', Ok (Returned n)) ->
  exists disk' output total,
    fs_read_file (read_bytes (user_memory k) (f_rdi frame) (Z.to_nat (f_rsi frame)))
      (replicate (Z.to_nat (f_r10 frame)) 0) (io_disk (k_io k))
      = (disk', output, Ok (Some (Z.to_nat n, total))) /\
    0 <= n <= f_r10 frame /\ delivered pages k k' (f_rdx frame) (take (Z.to_nat n) output).
Proof.
  intros Hk%sreachable_ok Hu Hf Hp E1; [|done..].
  by apply (read_file_round try_new try_new_same try_new_low fs_ok (mm_kernel_root m)).
Qed.

End properties.

(** The return from a system call goes to user mode at a user address with a user
    stack, or not at all: it needs both addresses in the user slot; the result is in
    [rax], every other register is the caller's, and of the flags only carry,
    parity, adjust, zero, sign and overflow are the caller's, interrupts are on, and
    the I/O privilege level, trap, direction and nested-task flags are clear. *)
Theorem sysret_safe frame result rsp :
  match syscall_return frame result rsp with
  | Some u =>
      USER_SPACE_START <= ur_rip u < USER_SPACE_END /\ ur_rip u = f_rcx frame /\
      USER_SPACE_START <= ur_rsp u < USER_SPACE_END /\ ur_rsp u = rsp /\
      f_rax (ur_frame u) = result /\
      [f_rbx (ur_frame u); f_rdx (ur_frame u); f_rsi (ur_frame u); f_rdi (ur_frame u);
       f_rbp (ur_frame u); f_r8 (ur_frame u); f_r9 (ur_frame u); f_r10 (ur_frame u);
       f_r12 (ur_frame u); f_r13 (ur_frame u); f_r14 (ur_frame u); f_r15 (ur_frame u)]
      = [f_rbx frame; f_rdx frame; f_rsi frame; f_rdi frame; f_rbp frame; f_r8 frame; f_r9 frame;
         f_r10 frame; f_r12 frame; f_r13 frame; f_r14 frame; f_r15 frame] /\
      forall i, 0 <= i -> Z.testbit (ur_rflags u) i =
        if bool_decide (i = 1 \/ i = 9) then true
        else if bool_decide (i ∈ [0; 2; 4; 6; 7; 11]) then Z.testbit (f_r11 frame) i else false
  | None => ~ (USER_SPACE_START <= f_rcx frame < USER_SPACE_END /\
               USER_SPACE_START <= rsp < USER_SPACE_END)
  end.
Proof.
  unfold syscall_return. destruct (_ || _) eqn:H1.
  { apply orb_true_iff in H1 as [H1|H1]; bools; lia. }
  destruct ((rsp <? _) || _) eqn:H2.
  { apply orb_true_iff in H2 as [H2|H2]; bools; lia. }
  bools. cbn [ur_rip ur_rsp ur_frame ur_rflags f_rax]. split_and!; try done; try lia.
  intros i Hi. rewrite Z.lor_spec, Z.land_spec. destruct (Z.le_gt_cases i 11) as [Hle|Hgt].
  - assert (i ∈ [0; 1; 2; 3; 4; 5; 6; 7; 8; 9; 10; 11]) as Hin.
    { rewrite !elem_of_cons. lia. }
    repeat (apply elem_of_cons in Hin as [->|Hin]; [by destruct (Z.testbit (f_r11 frame) _)|]).
    by apply not_elem_of_nil in Hin.
  - rewrite (Z.bits_above_log2 RFLAGS_USER_MASK), (Z.bits_above_log2 0x202) by (done || (cbn; lia)).
    rewrite andb_false_r. rewrite !bool_decide_false; [done| |lia].
    rewrite !elem_of_cons, elem_of_nil. lia.
Qed.

(** ** An example: a program that uses its pipe *)

Definition call_fs : FileSystem example_disk Ext2Error.t := memory_fs Ext2Error.NotFound.

Lemma call_fs_total : @fs_total _ call_fs.
Proof.
  intros path contents output d. destruct d as [files fails]. split_and!; simpl.
  - by destruct fails as [|[] ?].
  - by destruct (files !! path).
  - destruct (files !! path) as [c|]; [|done]. intros n total [= <- _]. lia.
  - destruct (files !! path) as [c|]; [|done]. simpl. rewrite length_splice; [done|].
    rewrite length_take. lia.
  - done.
  - apply Forall_fmap, Forall_forall. intros [name c] _. simpl. apply Z.mod_pos_bound. done.
Qed.

(** The two pages of the program, and a byte pattern in memory. *)
Definition call_manager : MemoryManager ram :=
  mk_manager
    (mk_ram {[ (0x300000, USER_SPACE_START) := 0x301000;
               (0x300000, USER_SPACE_START + PAGE_SIZE) := 0x302000 ]} (fun x => x mod 251))
    program_allocator example_limit 0x20C000 0xFFFF800000000000.

Abbreviation call_exec := (exec (D := example_disk) (DE := Ext2Error.t) (H := call_fs)
  (PT := ram) (H0 := ram_mapper) example_try_new 0x1000%Z 0x2000%Z).

Abbreviation call_sstep := (sstep (D := example_disk) (H := call_fs) (PT := ram) (H0 := ram_mapper)
  (H1 := ram_direct_map) example_frame example_try_new 0x1000 0x2000).

(** The shell has spawned the program, which inherits its pipe, and is blocked. *)
Definition call_kernel : Kernel example_disk ram :=
  foldl (fun k c => (call_exec c k).1) (boot_kernel ({[ [97] := [1; 2; 3] ]}, []) call_manager)
    (example_calls ++ [Block]).

Fixpoint calls_safe (k : Kernel example_disk ram) (calls : list call) : bool :=
  match calls with
  | [] => true
  | c :: calls => match call_exec c k with (_, Panic) => false | (k, _) => calls_safe k calls end
  end.

Lemma calls_reachable calls k0 :
  Forall call_ok calls -> calls_safe k0 calls = true ->
  rtc call_sstep k0 (foldl (fun k c => (call_exec c k).1) k0 calls).
Proof.
  intros Hok. revert k0. induction Hok as [|c calls Hc Hok IH]; intros k0 Hs; simpl; [done|].
  simpl in Hs. eapply rtc_l; [|apply IH].
  - apply sstep_kernel, (kstep_call _ _ _ c k0 _ (call_exec c k0).2 Hc); [apply surjective_pairing|].
    by destruct (call_exec c k0) as [? []].
  - by destruct (call_exec c k0) as [? []].
Qed.

Lemma call_kernel_reachable :
  rtc call_sstep (boot_kernel ({[ [97] := [1; 2; 3] ]}, []) call_manager) call_kernel.
Proof.
  apply calls_reachable; [|by vm_compute]. unfold example_calls. repeat constructor. by eexists.
Qed.

Definition running (k : Kernel example_disk ram) : option (nat * Task * UserTask) :=
  i ← current (k_sched k); slot ← tasks (k_sched k) !! i; t ← slot; u ← t_user t;
  guard (t_is_idle t = false);; Some (i, t, u).

Lemma running_user k : negb (is_none (running k)) = true -> user_running k.
Proof.
  intros Hb. destruct (running k) as [[[i t] u]|] eqn:Hr; [|done]. clear Hb. unfold running in Hr.
  apply bind_Some in Hr as (i' & Hc & (slot & Ht & (t' & -> & (u' & Hu & Hr)%bind_Some)%bind_Some)%bind_Some).
  apply bind_Some in Hr as (Hi & _ & [= <- <- <-]). by exists i', t', u'.
Qed.

(** [rdi], [rsi], [rdx] and [r10] of a call. *)
Definition call_frame (rax rdi rsi rdx r10 : Z) : SyscallFrame :=
  mk_frame 0 0 0 0 0 r10 0 0 0 rdi rsi rdx 0 0 rax.

Definition buffer_at (offset : Z) : Z := USER_SPACE_START + PAGE_SIZE + offset.

Lemma call_frame_ok rax rdi rsi rdx r10 :
  forallb (fun x => (0 <=? x) && (x <? u64_limit)) [rdi; rsi; rdx; r10] = true ->
  frame_ok (call_frame rax rdi rsi rdx r10).
Proof. cbn. intros Hb. bools. unfold frame_ok. cbn. lia. Qed.

Abbreviation call_dispatch := (syscall_dispatch (D := example_disk) (H := call_fs) (PT := ram)
  (H0 := ram_mapper) (H1 := ram_direct_map) example_frame example_try_new 0x1000 (fun _ => true) 0x700000).

(** The program writes five bytes to the pipe. *)
Definition write_call : SyscallFrame := call_frame 12 4 (buffer_at 8) 5 0.
Definition written_kernel : Kernel example_disk ram := (call_dispatch write_call call_kernel).1.

Lemma written_kernel_reachable :
  rtc call_sstep (boot_kernel ({[ [97] := [1; 2; 3] ]}, []) call_manager) written_kernel.
Proof.
  eapply rtc_r; [apply call_kernel_reachable|].
  apply (sstep_syscall example_frame example_try_new 0x1000 0x2000 (fun _ => true) 0x700000 write_call _ _
    (call_dispatch write_call call_kernel).2).
  - apply running_user. by vm_compute.
  - by apply call_frame_ok.
  - apply surjective_pairing.
  - by vm_compute.
Qed.

Definition program_page_list : list Z := [USER_SPACE_START; USER_SPACE_START + PAGE_SIZE].

Lemma program_private (k : Kernel example_disk ram) :
  active_space k = Some example_program -> k_mem k = Some (Ok call_manager) -> k_cr3 k = 0x300000 ->
  @caller_private _ ram ram_mapper ram_mapper_laws ram_direct_map ram_laws k program_page_list.
Proof.
  intros Hs Hm Hc. exists example_program, call_manager. split_and!; [done|by vm_compute|done|].
  rewrite Hc. split.
  - intros p [->|[->| []%not_elem_of_nil]%elem_of_cons]%elem_of_cons; eexists; by vm_compute.
  - intros p q f [->|[->| []%not_elem_of_nil]%elem_of_cons]%elem_of_cons
      [->|[->| []%not_elem_of_nil]%elem_of_cons]%elem_of_cons; vm_compute; congruence.
Qed.

Lemma call_kernel_private :
  @caller_private _ ram ram_mapper ram_mapper_laws ram_direct_map ram_laws call_kernel program_page_list.
Proof. by apply program_private; vm_compute. Qed.

Lemma written_kernel_private :
  @caller_private _ ram ram_mapper ram_mapper_laws ram_direct_map ram_laws written_kernel program_page_list.
Proof. by apply program_private; vm_compute. Qed.

Lemma syscalls_never_panic_witness :
  kernel_ok 0x20C000 call_kernel /\ exists k' f, call_dispatch write_call call_kernel = (k', Ok f).
Proof.
  destruct (syscalls_never_panic (H := call_fs) (H0 := ram_mapper) (H2 := ram_direct_map) example_frame
    example_try_new 0x1000 0x2000 example_try_new_same example_try_new_low call_fs_total
    ({[ [97] := [1; 2; 3] ]}, []) call_manager call_kernel (fun _ => true) 0x700000 write_call
    call_kernel_reachable) as [Hk Hd].
  - apply running_user. by vm_compute.
  - by apply call_frame_ok.
  - split; [exact Hk|]. by apply Hd.
Defined.

(** A read into an address outside the program. *)
Definition bad_call : SyscallFrame := call_frame 11 3 0 16 0.

Abbreviation call_handler := (syscall_handler (D := example_disk) (H := call_fs) (PT := ram)
  (H0 := ram_mapper) (H1 := ram_direct_map) example_frame example_try_new 0x1000 (fun _ => true) 0x700000).

Lemma efault_changes_nothing_witness :
  let '(k', r) := call_handler bad_call written_kernel in
  r = Err SYS_ERR_EFAULT /\ k' = written_kernel.
Proof.
  assert ((call_handler bad_call written_kernel).2 = Err SYS_ERR_EFAULT) as E by by vm_compute.
  destruct (call_handler bad_call written_kernel) as [k' r] eqn:E0. cbn [snd] in E. subst r.
  split; [reflexivity|].
  refine (efault_changes_nothing (H := call_fs) (H0 := ram_mapper) (H2 := ram_direct_map) example_frame
    example_try_new 0x1000 0x2000 example_try_new_same example_try_new_low call_fs_total
    ({[ [97] := [1; 2; 3] ]}, []) call_manager written_kernel k' (fun _ => true) 0x700000 bad_call
    written_kernel_reachable _ _ E0).
  - apply running_user. by vm_compute.
  - by apply call_frame_ok.
Defined.

Definition first_pipe (k : Kernel example_disk ram) : Pipe := default Pipe_new (io_pipes (k_io k) !! 0%nat).

Lemma pipe_write_takes_witness :
  let '(k', r) := sys_fd_write (H := call_fs) (H0 := ram_mapper) (H1 := ram_direct_map) example_try_new write_call
                    call_kernel in
  r = Ok (Returned 5) /\
  exists p', io_pipes (k_io k') !! 0%nat = Some p' /\ pipe_items p' = [113; 114; 115; 116; 117].
Proof.
  assert ((sys_fd_write (H := call_fs) (H0 := ram_mapper) (H1 := ram_direct_map) example_try_new write_call
    call_kernel).2 = Ok (Returned 5)) as E by by vm_compute.
  destruct (sys_fd_write (H := call_fs) (H0 := ram_mapper) (H1 := ram_direct_map) example_try_new write_call
    call_kernel) as [k' r] eqn:E0. cbn [snd] in E. subst r. split; [reflexivity|].
  destruct (pipe_write_takes (H := call_fs) (H0 := ram_mapper) (H2 := ram_direct_map) example_frame
    example_try_new 0x1000 0x2000 example_try_new_same example_try_new_low call_fs_total
    ({[ [97] := [1; 2; 3] ]}, []) call_manager call_kernel k' write_call 0%nat (first_pipe call_kernel) 5
    call_kernel_reachable) as (p' & Hp & Hi & _).
  - apply running_user. by vm_compute.
  - by apply call_frame_ok.
  - by vm_compute.
  - by vm_compute.
  - done.
  - exact E0.
  - exists p'. split; [exact Hp|]. rewrite Hi. by vm_compute.
Defined.

(** The program reads back what it wrote, into another part of its page. *)
Definition read_call : SyscallFrame := call_frame 11 3 (buffer_at 100) 16 0.

Lemma pipe_read_delivers_witness :
  let '(k', r) := sys_fd_read (H0 := ram_mapper) (H1 := ram_direct_map) example_try_new
                    read_call written_kernel in
  r = Ok (Returned 5) /\ user_memory (H0 := ram_mapper) (H1 := ram_direct_map) k' (buffer_at 102) = 115.
Proof.
  assert ((sys_fd_read (H0 := ram_mapper) (H1 := ram_direct_map) example_try_new read_call
    written_kernel).2 = Ok (Returned 5)) as E by by vm_compute.
  destruct (sys_fd_read (H0 := ram_mapper) (H1 := ram_direct_map) example_try_new read_call
    written_kernel) as [k' r] eqn:E0. cbn [snd] in E. subst r. split; [reflexivity|].
  destruct (pipe_read_delivers (H := call_fs) (H0 := ram_mapper) (H2 := ram_direct_map) (H3 := ram_laws)
    example_frame example_try_new 0x1000 0x2000 example_try_new_same example_try_new_low call_fs_total
    ({[ [97] := [1; 2; 3] ]}, []) call_manager written_kernel k' read_call program_page_list 0%nat
    (first_pipe written_kernel) 5 written_kernel_reachable) as (bytes & p' & Hn & Hi & Hl & _ & Hd).
  - apply running_user. by vm_compute.
  - by apply call_frame_ok.
  - apply written_kernel_private.
  - by vm_compute.
  - by vm_compute.
  - done.
  - exact E0.
  - assert (pipe_items (first_pipe written_kernel) = [113; 114; 115; 116; 117]) as Hp by by vm_compute.
    rewrite Hp in Hi. assert (length bytes = 5%nat) as Hb by lia.
    assert (bytes = [113; 114; 115; 116; 117]) as ->.
    { apply (f_equal (take 5)) in Hi. rewrite <-Hb, take_app_length, Hb in Hi. by rewrite <-Hi. }
    rewrite (dl_user _ _ _ _ _ Hd) by (apply (bool_decide_unpack _); by vm_compute). by vm_compute.
Defined.

(** A listing of the example's only file, and its contents. *)
Definition list_call : SyscallFrame := call_frame 16 (buffer_at 0) 0 (buffer_at 64) 40.

Lemma list_dir_exact_witness :
  let '(k', r) := sys_list_dir (H := call_fs) (H0 := ram_mapper) (H1 := ram_direct_map) example_try_new
                    list_call call_kernel in
  r = Ok (Returned 4) /\ user_memory (H0 := ram_mapper) (H1 := ram_direct_map) k' (buffer_at 64) = 51.
Proof.
  assert ((sys_list_dir (H := call_fs) (H0 := ram_mapper) (H1 := ram_direct_map) example_try_new list_call
    call_kernel).2 = Ok (Returned 4)) as E by by vm_compute.
  destruct (sys_list_dir (H := call_fs) (H0 := ram_mapper) (H1 := ram_direct_map) example_try_new list_call
    call_kernel) as [k' r] eqn:E0. cbn [snd] in E. subst r. split; [reflexivity|].
  destruct (list_dir_exact (H := call_fs) (H0 := ram_mapper) (H2 := ram_direct_map) (H3 := ram_laws)
    example_frame example_try_new 0x1000 0x2000 example_try_new_same example_try_new_low call_fs_total
    ({[ [97] := [1; 2; 3] ]}, []) call_manager call_kernel k' list_call program_page_list 4
    call_kernel_reachable) as (disk' & entries & Ee & _ & Hd & _).
  - apply running_user. by vm_compute.
  - by apply call_frame_ok.
  - apply call_kernel_private.
  - exact E0.
  - assert (entries = [([97], false, 3)]) as ->.
    { apply (f_equal (fun x => x.1.2)) in Ee. cbn [fst snd] in Ee. rewrite <-Ee. by vm_compute. }
    rewrite (dl_user _ _ _ _ _ Hd) by (apply (bool_decide_unpack _); by vm_compute). by vm_compute.
Defined.

(** The byte at offset 243 of the page is the name of the file. *)
Definition file_call : SyscallFrame := call_frame 4 (buffer_at 243) 1 (buffer_at 64) 2.

Lemma file_read_delivers_witness :
  let '(k', r) := sys_read_file (H := call_fs) (H0 := ram_mapper) (H1 := ram_direct_map) example_try_new
                    file_call call_kernel in
  r = Ok (Returned 2) /\ user_memory (H0 := ram_mapper) (H1 := ram_direct_map) k' (buffer_at 65) = 2.
Proof.
  assert ((sys_read_file (H := call_fs) (H0 := ram_mapper) (H1 := ram_direct_map) example_try_new file_call
    call_kernel).2 = Ok (Returned 2)) as E by by vm_compute.
  destruct (sys_read_file (H := call_fs) (H0 := ram_mapper) (H1 := ram_direct_map) example_try_new file_call
    call_kernel) as [k' r] eqn:E0. cbn [snd] in E. subst r. split; [reflexivity|].
  destruct (file_read_delivers (H := call_fs) (H0 := ram_mapper) (H2 := ram_direct_map) (H3 := ram_laws)
    example_frame example_try_new 0x1000 0x2000 example_try_new_same example_try_new_low call_fs_total
    ({[ [97] := [1; 2; 3] ]}, []) call_manager call_kernel k' file_call program_page_list 2
    call_kernel_reachable) as (disk' & output & total & Er & _ & Hd).
  - apply running_user. by vm_compute.
  - by apply call_frame_ok.
  - apply call_kernel_private.
  - exact E0.
  - assert (output = [1; 2]) as ->.
    { apply (f_equal (fun x => x.1.2)) in Er. cbn [fst snd] in Er. rewrite <-Er. by vm_compute. }
    rewrite (dl_user _ _ _ _ _ Hd) by (apply (bool_decide_unpack _); by vm_compute). by vm_compute.
Defined.
