(* ===== verification/Ext2Props.v ===== *)
(** * What the file system guarantees

    Whatever a disk holds, mounting it gives metadata with which no operation panics;
    a write that fails leaves the files as they were; files and directories read as
    the blocks say. *)

From S2P Require Import Prelude SyscallOk Refine Utf8 FileSystem Disk Ext2 Ext2Bits Ext2Dir Ext2View Ext2Read Ext2Write Ext2Ops Ext2File Ext2Trip Ext2Volume Ext2Example.

Local Open Scope Z_scope.

#[local] Abbreviation E := Ext2Error.t.

(** ** The superblock *)

(** What the superblock says fits in 32 bits and in the disk's sectors, and the group
    count covers the blocks and the inodes. *)
Definition covered (md : Metadata) : Prop :=
  blocks_count md - first_data_block md <= group_count md * blocks_per_group md /\
  inodes_count md <= group_count md * inodes_per_group md.

Lemma round_up a b : 0 < b -> a <= (a + (b - 1)) / b * b.
Proof. intros Hb. pose proof (Z.div_mod (a + (b - 1)) b). pose proof (Z.mod_pos_bound (a + (b - 1)) b). lia. Qed.

Lemma round_up_ceil a b : 0 <= a -> 0 < b -> (a + (b - 1)) / b = div_ceil a b.
Proof.
  intros Ha Hb. destruct (div_ceil_spec a b) as [H1 H2]; [done..|].
  symmetry. apply (Z.div_unique_pos _ _ _ (a + (b - 1) - div_ceil a b * b)); lia.
Qed.

Lemma block_size_of l : 0 <= l <= 2 -> Z.shiftl 1024 l = 1024 \/ Z.shiftl 1024 l = 2048 \/ Z.shiftl 1024 l = 4096.
Proof. intros Hl. assert (l = 0 \/ l = 1 \/ l = 2) as [->|[->| ->]] by lia; auto. Qed.

(** What the checks of the geometry give. *)
Lemma geometry_ok bs bc ic fdb bpg ipg isz incompat :
  let gc := Z.max ((bc - fdb + (bpg - 1)) / bpg) ((ic + (ipg - 1)) / ipg) in
  let md := mk_metadata bs bc ic fdb bpg ipg isz gc incompat in
  bs = 1024 \/ bs = 2048 \/ bs = 4096 -> 0 <= fdb < bc -> bc < u32_limit -> ROOT_INODE <= ic < u32_limit ->
  0 < bpg <= bs * 8 -> 0 < ipg <= bs * 8 -> 128 <= isz <= bs -> bs mod isz = 0 ->
  fdb = (if bs =? 1024 then 1 else 0) -> gc <> 0 -> gc <= MAX_GROUPS ->
  fdb + 1 + (gc * 32 + (bs - 1)) / bs <= bc -> bc * (bs / 512) <= 0x10000000 ->
  metadata_ok md /\ covered md.
Proof.
  intros gc md Hbs Hf Hbc Hic Hbpg Hipg Hisz Hmod Hfdb Hgc Hmax Hd Hdisk.
  pose proof (round_up (bc - fdb) bpg). pose proof (round_up ic ipg).
  assert (0 <= gc) by (unfold gc; pose proof (Z.div_pos (ic + (ipg - 1)) ipg); unfold ROOT_INODE in *; lia).
  rewrite round_up_ceil in Hd by lia.
  split; split; cbn; try lia; try done.
  - apply Z.mod_divide; [lia|done].
  - by rewrite (Z.mul_comm 32).
  - unfold gc. nia.
  - unfold gc. nia.
Qed.

Lemma parse_superblock_spec sb :
  length sb = 1024%nat -> bytes_ok sb ->
  holds (parse_superblock sb) (fun md => metadata_ok md /\ covered md)
    (fun e => e = Ext2Error.InvalidFilesystem \/ e = Ext2Error.UnsupportedFeature).
Proof.
  intros Hl Hb. unfold parse_superblock. rewrite !le16_ok, !le32_ok by lia.
  pose proof (fun off => field_bound 4 sb off Hb) as H4. pose proof (fun off => field_bound 2 sb off Hb) as H2.
  change (256 ^ Z.of_nat 4) with u32_limit in H4. change (256 ^ Z.of_nat 2) with 65536 in H2.
  rewrite !Ok_bind. apply holds_if; intros _; [by left|]. apply holds_if; intros Hlog; [by right|].
  apply holds_if; intros _; [by right|]. bools. pose proof (H4 24).
  rewrite (proj2 (Z.ltb_lt _ 64)) by lia. cbn [ok_or]. rewrite Ok_bind.
  pose proof (block_size_of (field 4 sb 24)) as Hbs. set (bs := Z.shiftl 1024 _) in *.
  set (bc := field 4 sb 4). set (ic := field 4 sb 0). set (fdb := field 4 sb 20).
  set (bpg := field 4 sb 32). set (ipg := field 4 sb 40). set (rev := field 4 sb 76).
  rewrite !Ok_bind.
  eapply holds_bind with (R := fun _ => True); [by destruct (rev =? 0)|]. intros isz _.
  eapply holds_bind with (R := fun _ => True); [by destruct (rev =? 0)|]. intros incompat _.
  eapply holds_bind with (R := fun _ => True); [by destruct (rev =? 0)|]. intros compat _.
  eapply holds_bind with (R := fun _ => True); [by destruct (rev =? 0)|]. intros ro _.
  apply holds_if; intros Hc; [by left|]. apply holds_if; intros _; [by right|].
  assert (0 <= bc < u32_limit /\ 0 <= ic < u32_limit /\ 0 <= fdb < u32_limit /\ 0 <= bpg < u32_limit /\
    0 <= ipg < u32_limit) as (? & ? & ? & ? & ?) by (split_and!; apply H4).
  assert (Hbs' : bs = 1024 \/ bs = 2048 \/ bs = 4096) by (apply Hbs; lia). clear Hbs H4 H2.
  clearbody bs bc ic fdb bpg ipg rev. bools.
  assert (fdb = if bs =? 1024 then 1 else 0) as Hfdb.
  { destruct (Z.eqb_spec bs 1024); cbn in *; bools; [done|]. destruct (Z.ltb_spec 1024 bs); cbn in *; bools; lia. }
  eapply holds_bind; [apply holds_ok_or; [|by left]; intros blocks Hblocks; exact Hblocks|].
  intros blocks Hblocks. eapply holds_bind; [apply holds_ok_or; [|by left]; intros inodes Hi; exact Hi|].
  intros inodes Hinodes. cbv zeta. set (gc := Z.max _ _). apply holds_if; intros Hgc; [by right|].
  eapply holds_bind; [apply holds_ok_or; [|by left]; intros d Hd; exact Hd|]. intros d Hd.
  apply holds_if; intros Hend; [by left|].
  unfold checked_add, checked_sub, checked_mul in *.
  repeat match goal with
  | H : context [if ?b then Some _ else None] |- _ =>
      let E := fresh "E" in destruct b eqn:E; cbn [mbind option_bind] in H; [|discriminate H]
  end.
  injection Hblocks as <-. injection Hinodes as <-. injection Hd as <-. bools.
  assert (disk_block_size bs = Ok (bs / 512)) as -> by (by destruct Hbs' as [->|[->| ->]]).
  rewrite Ok_bind. eapply holds_bind with (R := fun n => n = bc * (bs / 512)).
  { apply holds_ok_or; [|by left]. intros a Ha. case_match; congruence. }
  intros n ->. apply holds_if; intros Hn; [by right|]. bools. apply geometry_ok; try done; lia.
Qed.

(** ** Mounting *)

(** What the [EXT2] static holds. *)
Definition mount_ok {D} (s : Ext2 D) : Prop :=
  match e_mount s with
  | Some (Ok md) => metadata_ok md
  | Some Panic => False
  | _ => True
  end.

Section props.
Context {D : Type} `{SectorDeviceLaws D}.

#[local] Abbreviation Fs := (Ext2 D).

(** Never a panic, and the mount is as good as before. *)
Definition total {A} (op : Op Fs E A) : Prop :=
  forall s, mount_ok s -> (op s).2 <> Panic /\ mount_ok (op s).1.

Lemma mount_total (s : Fs) : (mount s).2 <> Panic /\ e_mount (mount s).1 = e_mount s /\
  forall md, (mount s).2 = Ok md -> metadata_ok md /\ covered md.
Proof.
  unfold mount, mbind, op_bind, device_read, lift.
  destruct (read_sectors _ _ _ _) as [d r] eqn:Er. destruct (read_sectors_spec _ _ _ _ _ _ Er) as (_ & Hnp & Hok).
  destruct r as [sb|e|]; cbn [map_err fst snd]; [|done|done].
  destruct (Hok sb eq_refl) as (_ & _ & ->).
  pose proof (parse_superblock_spec (sectors_from (sector (e_disk s)) (SUPERBLOCK_OFFSET / 512) (Z.to_nat 2))) as Hp.
  set (sb := sectors_from _ _ _) in *.
  assert (holds (parse_superblock sb) (fun md => metadata_ok md /\ covered md)
    (fun e => e = Ext2Error.InvalidFilesystem \/ e = Ext2Error.UnsupportedFeature)) as Hh.
  { apply Hp; unfold sb; [by rewrite length_sectors_from by apply sector_bytes|]. apply sectors_from_bytes, sector_bytes. }
  split; [by eapply holds_not_panic|]. split; [done|]. intros md Hmd. by rewrite Hmd in Hh.
Qed.

Lemma initialize_total : total initialize.
Proof.
  intros s Hs. unfold initialize, mount_ok in *. destruct (e_mount s) as [r|] eqn:Em; cbn [fst snd].
  - rewrite Em. by destruct r.
  - pose proof (mount_total s) as (Hnp & _ & Hok). destruct (mount s) as [s1 r]. cbn in *.
    destruct r as [md|e|]; [|done|done]. split; [done|]. by apply Hok.
Qed.

(** The blocks of the mounted volume. *)
Lemma mounted (s : Fs) md : mount_ok s -> e_mount s = Some (Ok md) ->
  metadata_ok md /\ abstracts (Abstraction := fs_view md) (block_at md (e_disk s)) s.
Proof. unfold mount_ok. intros Hs Hm. by rewrite Hm in Hs. Qed.

(** Where no volume is mounted, an operation returns an error. *)
Definition needs_mount {A} (op : Op Fs E A) : Prop :=
  forall s, mount_ok s -> (forall md, e_mount s <> Some (Ok md)) -> (op s).1 = s /\ exists e, (op s).2 = Err e.

Lemma needs_metadata {A} (k : Metadata -> Op Fs E A) : needs_mount (metadata ≫= k).
Proof.
  intros s Hs Hno. unfold metadata, mbind, op_bind, mount_ok in *. destruct (e_mount s) as [[md|e|]|] eqn:Em; cbn.
  - by destruct (Hno md).
  - eauto.
  - done.
  - eauto.
Qed.

Lemma needs_bind {A B} (m : Op Fs E A) (k : A -> Op Fs E B) : needs_mount m -> needs_mount (m ≫= k).
Proof.
  intros Hm s Hs Hno. destruct (Hm s Hs Hno) as (H1 & e & H2). unfold mbind, op_bind.
  destruct (m s) as [s1 r]. cbn in *. subst. eauto.
Qed.

Lemma needs_writable {A} (k : Metadata -> Op Fs E A) : needs_mount (writable_metadata ≫= k).
Proof. apply needs_bind, needs_metadata. Qed.

(** What is proved of every volume that is mounted. *)
Lemma total_mounted {A} (op : Op Fs E A) :
  needs_mount op -> (forall md V, metadata_ok md -> safe (H := fs_view md) V op) -> total op.
Proof.
  intros Hn Hop s Hs. destruct (e_mount s) as [[md| |]|] eqn:Em.
  - destruct (mounted s md Hs Em) as [Hmd Hv]. destruct (Hop md _ Hmd s Hv) as (V' & [HV' _] & Hr).
    split; [by eapply holds_not_panic|]. unfold mount_ok. by rewrite HV'.
  - destruct (Hn s Hs) as (-> & e' & ->); [by rewrite Em|]. done.
  - unfold mount_ok in Hs. by rewrite Em in Hs.
  - destruct (Hn s Hs) as (-> & e' & ->); [by rewrite Em|]. done.
Qed.

(** [writable_metadata] accepts the volumes it is meant to. *)
Lemma writable_cases (s : Fs) md :
  e_mount s = Some (Ok md) -> metadata_ok md ->
  writable_ok md \/ writable_metadata s = (s, Err Ext2Error.UnsupportedFeature).
Proof.
  intros Em Hmd. unfold writable_metadata, mbind, op_bind, metadata. rewrite Em. cbn [fst snd].
  match goal with |- _ \/ (if ?b then _ else _) s = _ => destruct b eqn:Hb end; [by right|left].
  bools. by split.
Qed.

(** An operation that writes fails on volumes it may not write to. *)
Lemma total_writable {A} (k : Metadata -> Op Fs E A) :
  (forall md V, writable_ok md -> safe (H := fs_view md) V (writable_metadata ≫= k)) ->
  total (writable_metadata ≫= k).
Proof.
  intros Hop. apply total_mounted; [apply needs_writable|]. intros md V Hmd s Hs.
  destruct (writable_cases s md (proj1 Hs) Hmd) as [Hwr|Hf]; [by apply (Hop md V Hwr)|].
  exists V. unfold mbind, op_bind. by rewrite Hf.
Qed.

Lemma lookup_path_safe md V path : metadata_ok md -> safe (H := fs_view md) V (lookup_path path).
Proof. intros Hmd. eapply runs_safe, lookup_path_spec, Hmd. Qed.

(** ** Calls *)

(** The public functions of [fs/ext2.rs]. *)
Inductive Call :=
| Initialize
| CreateDirectory (path : list Z)
| RemoveFile (path : list Z)
| RemoveEmptyDirectory (path : list Z)
| WriteFile (path contents : list Z)
| ReadFile (path output : list Z)
| ReadFileVec (path : list Z) (max_size : Z)
| DirectoryExists (path : list Z)
| ForEachEntry (path : list Z)
| FreeBlockCount.

(** A call, without its result. *)
Definition call (c : Call) : Op Fs E unit :=
  match c with
  | Initialize => initialize
  | CreateDirectory path => create_directory path
  | RemoveFile path => remove_file path
  | RemoveEmptyDirectory path => remove_empty_directory path
  | WriteFile path contents => write_file path contents
  | ReadFile path output => _ ← filling output (read_file path); mret tt
  | ReadFileVec path max_size => _ ← read_file_vec path max_size; mret tt
  | DirectoryExists path => _ ← directory_exists path; mret tt
  | ForEachEntry path => _ ← listing (for_each_entry path); mret tt
  | FreeBlockCount => _ ← free_block_count; mret tt
  end.

Fixpoint calls (l : list Call) (s : Fs) : list (outcome E unit) :=
  match l with
  | [] => []
  | c :: l => let '(s, r) := call c s in r :: calls l s
  end.

Lemma total_bind {A B} (m : Op Fs E A) (k : A -> Op Fs E B) : total m -> (forall a, total (k a)) -> total (m ≫= k).
Proof.
  intros Hm Hk s Hs. destruct (Hm s Hs) as [H1 H2]. unfold mbind, op_bind.
  destruct (m s) as [s1 [a|e|]]; cbn in *; [by apply Hk|done|done].
Qed.

Lemma total_ret {A} (a : A) : total (mret a).
Proof. intros s Hs. by split. Qed.

Lemma free_block_count_spec md V :
  metadata_ok md -> reads (H := fs_view md) V free_block_count (fun _ => True) (fun _ => True).
Proof.
  intros Hmd. apply (runs_view md Hmd). intros HV. pose proof (ok_blocks _ Hmd). unfold free_block_count.
  eapply runs_read_bind; [apply metadata_spec|done|]. intros ? [= <-].
  eapply runs_read_bind; [apply (read_block_in md Hmd); [apply tailed_zeroed|lia]|done|]. intros ? [= <-].
  apply runs_lift. rewrite le32_ok; [done|lia|]. rewrite (proj1 (page_buffer md Hmd V _ HV)). lia.
Qed.

(** Operations on the volume and a buffer or a list beside it. *)
Lemma total_beside {A B} (b : B) (op : Op (Fs * B) E A) (P : B -> Prop) (R : A -> Prop) :
  (forall s, mount_ok s -> (forall md, e_mount s <> Some (Ok md)) ->
     (op (s, b)).1 = (s, b) /\ exists e, (op (s, b)).2 = Err e) ->
  P b ->
  (forall md V, metadata_ok md ->
     runs (H := beside_abstraction (H := fs_view md)) (V, b) op (fun a w => P w.2 /\ R a) (fun _ w => P w.2)) ->
  forall s, mount_ok s ->
    mount_ok (op (s, b)).1.1 /\ P (op (s, b)).1.2 /\ holds (op (s, b)).2 R (fun _ => True).
Proof.
  intros Hn Hb Hop s Hs. destruct (e_mount s) as [[md| |]|] eqn:Em.
  - destruct (mounted s md Hs Em) as [Hmd Hv].
    destruct (Hop md (block_at md (e_disk s)) Hmd (s, b)) as ([V' b'] & [[HV' _] Hb'] & Hr); [by split|].
    destruct (op (s, b)) as [[s1 b1] r]. cbn in *. subst b1. unfold mount_ok. rewrite HV'. split; [done|].
    destruct r; cbn in *; tauto.
  - destruct (Hn s Hs) as (-> & e' & ->); [by rewrite Em|]. done.
  - unfold mount_ok in Hs. by rewrite Em in Hs.
  - destruct (Hn s Hs) as (-> & e' & ->); [by rewrite Em|]. done.
Qed.

Lemma read_file_total path out s : mount_ok s ->
  mount_ok (read_file path (s, out)).1.1 /\ length (read_file path (s, out)).1.2 = length out /\
  holds (read_file path (s, out)).2
    (fun r => match r with Some (n, _) => 0 <= n <= Z.of_nat (length out) | None => True end) (fun _ => True).
Proof.
  apply (total_beside out (read_file path) (fun out' => length out' = length out)); [|done|].
  - intros s' Hs Hno. destruct (needs_metadata (fun md => mret md) s' Hs Hno) as (H1 & e & H2).
    unfold read_file, mbind, op_bind, beside. unfold metadata, mbind, op_bind in *.
    destruct (e_mount s') as [[md| |]|]; [by destruct (Hno md)|by eauto|done|by eauto].
  - intros md V Hmd. eapply runs_mono; [apply (read_file_spec md Hmd)| |]; cbn beta; tauto.
Qed.

Lemma for_each_entry_total path s : mount_ok s ->
  mount_ok (for_each_entry path (s, [])).1.1 /\ Forall visit_ok (for_each_entry path (s, [])).1.2 /\
  holds (for_each_entry path (s, [])).2 (fun _ => True) (fun _ => True).
Proof.
  apply (total_beside [] (for_each_entry path) (Forall visit_ok)); [|done|].
  - intros s' Hs Hno. destruct (needs_metadata (fun md => mret md) s' Hs Hno) as (H1 & e & H2).
    unfold for_each_entry, quietly, lookup_path. unfold metadata, mbind, op_bind in *.
    destruct (e_mount s') as [[md| |]|]; [by destruct (Hno md)|by eauto|done|by eauto].
  - intros md V Hmd. eapply runs_mono; [apply (for_each_entry_spec md Hmd)| |].
    + intros _ [V' v'] (_ & l & l' & _ & _ & Hw & Hl). cbn in *. by subst.
    + intros _ [V' v'] (_ & l' & Hw & Hl). cbn in *. by subst.
Qed.

Lemma call_total c : total (call c).
Proof.
  destruct c as [|path|path|path|path contents|path out|path max|path|path|]; cbn [call].
  - apply initialize_total.
  - apply total_writable. intros md V Hwr. apply (create_directory_safe md Hwr).
  - apply total_writable. intros md V Hwr. apply (remove_file_safe md Hwr).
  - apply total_writable. intros md V Hwr. apply (remove_empty_directory_safe md Hwr).
  - apply total_writable. intros md V Hwr. eapply runs_safe, (write_file_spec md Hwr).
  - apply total_bind; [|intros; apply total_ret]. intros s Hs. destruct (read_file_total path out s Hs) as (H1 & _ & H2).
    unfold filling. destruct (read_file path (s, out)) as [[s1 o] r]. by destruct r.
  - apply total_bind; [|intros; apply total_ret]. apply total_mounted; [apply needs_metadata|].
    intros md V Hmd. eapply runs_safe, (read_file_vec_spec md Hmd).
  - apply total_bind; [|intros; apply total_ret]. apply total_bind; [|intros; apply total_ret].
    apply total_mounted; [apply needs_metadata|]. intros md V Hmd. by apply lookup_path_safe.
  - apply total_bind; [|intros; apply total_ret]. intros s Hs. destruct (for_each_entry_total path s Hs) as (H1 & _ & H2).
    unfold listing. destruct (for_each_entry path (s, [])) as [[s1 v] r]. by destruct r.
  - apply total_bind; [|intros; apply total_ret]. apply total_mounted; [apply needs_metadata|].
    intros md V Hmd. by eapply runs_safe, free_block_count_spec.
Qed.

(** C7: From the moment the kernel starts, and whatever the disk holds, no sequence
    of calls of the file system panics: not on a superblock, an inode, a directory or
    a bitmap that is corrupt, not on a disk that fails, not when [try_reserve] fails.  The
    buffers of [zeroed_block] are taken to be there: the kernel halts without them. *)
Theorem ext2_never_panics d reserve l : Forall (fun r => r <> Panic) (calls l (mk_ext2 d None reserve)).
Proof.
  assert (mount_ok (mk_ext2 d None reserve)) as Hs by done. revert Hs. generalize (mk_ext2 d None reserve).
  induction l as [|c l IH]; intros s Hs; [by apply Forall_nil|]. destruct (call_total c s Hs) as [H1 H2].
  cbn [calls]. destruct (call c s) as [s1 r]. apply Forall_cons. split; [done|]. by apply IH.
Qed.

(** ** The contract of the file system *)

(** A state in which the mount is as [initialize] leaves it. *)
Definition Mounted : Type := { s : Fs | mount_ok s }.

Lemma write_file_total path contents s : mount_ok s ->
  (write_file path contents s).2 <> Panic /\ mount_ok (write_file path contents s).1.
Proof. apply (call_total (WriteFile path contents)). Qed.

Lemma read_file_vec_total path max_size : total (read_file_vec path max_size).
Proof.
  apply total_mounted; [apply needs_metadata|]. intros md V Hmd. eapply runs_safe, (read_file_vec_spec md Hmd).
Qed.

Lemma fs_read_file_mount path out (s : Fs) : mount_ok s -> mount_ok (fs_read_file path out s).1.1.
Proof.
  intros Hs. destruct (read_file_total path out s Hs) as (H1 & _). cbn.
  destruct (read_file path (s, out)) as [[s1 o] r]. exact H1.
Qed.

Lemma fs_for_each_entry_mount path (s : Fs) : mount_ok s -> mount_ok (fs_for_each_entry path s).1.1.
Proof.
  intros Hs. destruct (for_each_entry_total path s Hs) as (H1 & _). cbn.
  destruct (for_each_entry path (s, [])) as [[s1 v] r]. exact H1.
Qed.

(** The operations of [ext2_fs] on such states. *)
#[global] Instance mounted_fs : FileSystem Mounted E := {|
  fs_write_file path contents s :=
    (exist _ (fs_write_file path contents (proj1_sig s)).1 (proj2 (write_file_total path contents _ (proj2_sig s))),
     (fs_write_file path contents (proj1_sig s)).2);
  fs_read_file_vec path max_size s :=
    (exist _ (fs_read_file_vec path max_size (proj1_sig s)).1
       (proj2 (read_file_vec_total path (Z.of_nat max_size) _ (proj2_sig s))),
     (fs_read_file_vec path max_size (proj1_sig s)).2);
  fs_read_file path out s :=
    (exist _ (fs_read_file path out (proj1_sig s)).1.1 (fs_read_file_mount path out _ (proj2_sig s)),
     (fs_read_file path out (proj1_sig s)).1.2, (fs_read_file path out (proj1_sig s)).2);
  fs_for_each_entry path s :=
    (exist _ (fs_for_each_entry path (proj1_sig s)).1.1 (fs_for_each_entry_mount path _ (proj2_sig s)),
     (fs_for_each_entry path (proj1_sig s)).1.2, (fs_for_each_entry path (proj1_sig s)).2);
|}.

(** C28: Ext2 on any sector device, whatever the disk holds, is a file system as the
    system calls rely on: it never panics, [read_file] fills the buffer it is given
    and reports no more bytes than fit, and the sizes of a listing are [u64]. *)
Theorem ext2_meets_contract : fs_total (D := Mounted).
Proof.
  intros path contents out [s Hs]. destruct (write_file_total path contents s Hs) as [Hw _].
  destruct (read_file_total path out s Hs) as (_ & Hlen & Hr).
  destruct (for_each_entry_total path s Hs) as (_ & Hv & He). cbn [fs_write_file fs_read_file fs_for_each_entry mounted_fs
    ext2_fs proj1_sig snd fst].
  destruct (read_file path (s, out)) as [[s1 o] r]. destruct (for_each_entry path (s, [])) as [[s2 v] r2]. cbn in *.
  split; [done|]. destruct r as [[[n size]|]|e|]; [|by destruct r2..].
  split_and!; [done| |done|by destruct r2|done]. intros n' total' Heq. injection Heq as <- _. cbn in Hr. lia.
Qed.

(** ** Reading *)

(** The result of an operation that computes a function of the blocks. *)
Lemma computes_result {A} md V (op : Op Fs E A) r s s' r' :
  computes md V op r -> fs_view md V s -> op s = (s', r') ->
  fs_view md V s' /\ (r' = r \/ exists e, r' = Err e /\ soft e).
Proof.
  intros Hop Hs E1. destruct (Hop s Hs) as (V' & HV' & Hr). rewrite E1 in HV', Hr. cbn in HV', Hr.
  destruct r' as [a|e|]; cbn in Hr; [| |done]; destruct Hr as [-> Hr]; (split; [done|]).
  - left. by rewrite Hr.
  - destruct Hr as [Hsoft| ->]; [right; eauto|by left].
Qed.

(** C27: [read_file_vec] returns the bytes that the inode, its direct pointers and the
    blocks of pointers lead to, holes as zeros, block after block, or the error that
    the volume gives rise to; its caches of blocks of pointers make no difference.  It
    fails otherwise only when the disk or an allocation does, and it changes nothing. *)
Theorem read_file_vec_exact md V path max_size s s' r :
  metadata_ok md -> fs_view md V s -> read_file_vec path max_size s = (s', r) ->
  fs_view md V s' /\ (r = file_of md V path max_size \/ exists e, r = Err e /\ soft e).
Proof. intros Hmd. apply computes_result. by apply read_file_vec_spec. Qed.

(** [for_each_entry] calls its closure once for each entry of the directory in
    use, in the order of the directory, but for [.] and [..], with the kind and the
    size that the inode of the entry has; it changes nothing. *)
Theorem for_each_entry_exact md V path s s' visits :
  metadata_ok md -> fs_view md V s -> for_each_entry path (s, []) = (s', visits, Ok tt) ->
  fs_view md V s' /\ exists entries, listing_of md V path = Ok entries /\ visits_of md V entries = Ok visits.
Proof.
  intros Hmd Hs E1. destruct (for_each_entry_spec md Hmd V [] path (s, [])) as ([V' v'] & [HV' Hv'] & Hr).
  { by split. }
  rewrite E1 in HV', Hv', Hr. cbn in HV', Hv', Hr. subst v'. destruct Hr as (Hw & l & l' & Hl & Hl' & Hv & _).
  cbn in Hw, Hv. subst V' visits. split; [done|]. by exists l.
Qed.

(** ** Writing *)

(** C8: A [write_file] that returns an error other than [RecoveryFailed] leaves every
    block as it was that the bitmap marks as used, superblock, bitmaps, inodes and
    directories included, on any volume and wherever the disk failed. *)
Theorem failed_write_keeps_blocks md V path contents s s' e b :
  writable_ok md -> fs_view md V s -> write_file path contents s = (s', Err e) ->
  e <> Ext2Error.RecoveryFailed -> in_use md V b -> block_at md (e_disk s') b = V b.
Proof.
  intros Hwr Hs E1 He Hb. destruct (write_file_spec md Hwr V path contents s Hs) as (V' & [_ HV'] & Hr).
  rewrite E1 in HV', Hr. cbn in HV', Hr. rewrite HV'. destruct Hr as [->|Hr]; [done|]. by apply Hr.
Qed.

(** A mounted volume that is consistent. *)
Definition blocks (md : Metadata) (s : Fs) : View := block_at md (e_disk s).

Definition volume (md : Metadata) (s : Fs) : Prop :=
  e_mount s = Some (Ok md) /\ exists t, consistent md (blocks md s) t.

Lemma volume_view md s : volume md s -> exists t, fs_view md (blocks md s) s /\ consistent md (blocks md s) t.
Proof. intros [Hm [t Hco]]. by exists t. Qed.

Lemma volume_of md V t s : writable_ok md -> fs_view md V s -> consistent md V t -> volume md s.
Proof.
  intros Hwr Hs Hco. split; [apply Hs|]. exists t.
  apply (consistent_unchanged md Hwr V (blocks md s) t); [| |done|intros b _; apply Hs];
    apply (abstracts_ok md (wr_ok md Hwr) _ s); [done|by split; [apply Hs|]].
Qed.

(** What a path names after a file was replaced. *)
Lemma replaced_file md V V' path contents n new max_size :
  file_replaced md V V' path contents n new -> Z.of_nat (length contents) <= max_size ->
  file_of md V' path max_size = Ok (Some contents).
Proof.
  intros [Hp Hreg Hsize Hc _ _] Hmax. unfold file_of, path_inode. rewrite Hp, !Ok_bind. cbn [option_map snd].
  rewrite Hreg, Hc, Hsize, (proj2 (Z.ltb_ge _ _)) by done. done.
Qed.

(** C4: On a consistent volume, a file that [write_file] has written reads back as the
    bytes that were written, whether the file is new or replaces one, through direct,
    indirect and double indirect blocks; [read_file_vec] fails only when the disk or an
    allocation does. *)
Theorem written_file_reads_back md path contents max_size s s1 s2 r :
  writable_ok md -> volume md s -> bytes_ok contents -> Z.of_nat (length contents) <= max_size ->
  write_file path contents s = (s1, Ok tt) -> read_file_vec path max_size s1 = (s2, r) ->
  r = Ok (Some contents) \/ exists e, r = Err e /\ soft e.
Proof.
  intros Hwr (t & Hs & Hco)%volume_view Hb Hmax E1 E2. set (V := blocks md s) in *.
  destruct (write_file_volume md Hwr V t path contents Hco Hb s Hs) as (V' & HV' & Hr).
  rewrite E1 in HV', Hr. cbn in HV', Hr. destruct Hr as (t' & n & new & _ & Hrep).
  rewrite <-(replaced_file md V V' path contents n new max_size Hrep Hmax).
  by destruct (computes_result md V' _ _ s1 s2 r (read_file_vec_spec md (wr_ok md Hwr) V' path max_size) HV' E2).
Qed.

(** Two paths that lead to one inode. *)
Definition same_file (md : Metadata) (s : Fs) (p q : list Z) : Prop :=
  exists n, path_number md (blocks md s) p = Ok (Some n) /\ path_number md (blocks md s) q = Ok (Some n).

(** C5: On a consistent volume, writing one file, successfully or not, leaves the
    contents of every other file as they were: what [read_file_vec] returned before,
    it returns after, unless the recovery of a failed write fails. *)
Theorem other_files_are_kept md path contents p max_size c s s0 s1 s2 w r :
  writable_ok md -> volume md s -> bytes_ok contents ->
  read_file_vec p max_size s = (s0, Ok (Some c)) -> ~ same_file md s p path ->
  write_file path contents s = (s1, w) -> w <> Err Ext2Error.RecoveryFailed ->
  read_file_vec p max_size s1 = (s2, r) ->
  r = Ok (Some c) \/ exists e, r = Err e /\ soft e.
Proof.
  intros Hwr (t & Hs & Hco)%volume_view Hb E0 Hother E1 Hw E2. unfold same_file in Hother. set (V := blocks md s) in *.
  pose proof (read_file_vec_spec md (wr_ok md Hwr)) as Hspec.
  destruct (computes_result md V _ _ s s0 _ (Hspec V p max_size) Hs E0) as [_ [Hfile|(e & He & _)]]; [|done].
  destruct (write_file_volume md Hwr V t path contents Hco Hb s Hs) as (V' & HV' & Hr).
  rewrite E1 in HV', Hr. cbn in HV', Hr.
  destruct (computes_result md V' _ _ s1 s2 r (Hspec V' p max_size) HV' E2) as [_ Hres]. rewrite Hfile.
  assert (file_of md V' p max_size = file_of md V p max_size) as <-; [|done].
  destruct w as [[]|e|]; cbn in Hr; [|destruct Hr as [->|[_ Hr]]; [done|apply Hr]|done].
  destruct Hr as (t' & n & new & _ & Hrep). unfold file_of, path_inode in *.
  destruct (path_of md V p) as [[[k j]|]|e|] eqn:Hp; try done. rewrite !Ok_bind in Hfile. cbn [option_map snd] in Hfile.
  destruct (is_regular j) eqn:Hreg; [|done].
  destruct (fp_others _ _ _ _ _ _ _ Hrep p k j Hp) as [Hp' Hc'].
  { intros ->. destruct (fp_known _ _ _ _ _ _ _ Hrep p j Hp) as [j' Hj']. apply Hother. exists n.
    unfold path_number. by rewrite Hp, Hj'. }
  rewrite Hp', !Ok_bind. cbn [option_map snd]. by rewrite Hreg, Hc' by (by apply regular_not_directory).
Qed.

(** ** Sequences of calls *)

(** Calls that read, and [WriteFile]; the ones that create and remove entries do not
    undo their writes when they fail. *)
Definition transactional (c : Call) : Prop :=
  match c with
  | CreateDirectory _ | RemoveFile _ | RemoveEmptyDirectory _ => False
  | WriteFile _ contents => bytes_ok contents
  | _ => True
  end.

Definition reading (c : Call) : bool :=
  match c with
  | CreateDirectory _ | RemoveFile _ | RemoveEmptyDirectory _ | WriteFile _ _ => false
  | _ => true
  end.

Inductive fs_step : Fs -> Fs -> Prop :=
| fs_call c s s' r : call c s = (s', r) -> transactional c -> r <> Err Ext2Error.RecoveryFailed -> fs_step s s'.

Lemma runs_ignore {A} md V (op : Op Fs E A) (Q : A -> View -> Prop) (X : E -> View -> Prop) :
  runs (H := fs_view md) V op Q X -> (forall a V', Q a V' -> V' = V) -> (forall e V', X e V' -> V' = V) ->
  runs (H := fs_view md) V (_ ← op; mret tt) (fun _ V' => V' = V) (fun _ V' => V' = V).
Proof.
  intros Hop HQ HX. eapply runs_bind; [eapply runs_mono; [exact Hop|exact HQ|exact HX]|].
  cbn beta. intros _ V' ->. by apply runs_ret.
Qed.

Lemma reading_spec md V c :
  metadata_ok md -> reading c = true ->
  runs (H := fs_view md) V (call c) (fun _ V' => V' = V) (fun _ V' => V' = V).
Proof.
  intros Hmd Hc. destruct c as [| | | | |path out|path max|path|path|]; try done; cbn [call].
  - intros s [Hm Hs]. exists V. unfold initialize. rewrite Hm. by split.
  - eapply runs_ignore; [apply (filling_spec md V), (read_file_spec md Hmd)| |].
    + intros a V' [Hw _]. exact Hw.
    + intros e V' (o & Hw & _). exact Hw.
  - eapply runs_ignore; [apply (read_file_vec_spec md Hmd)|by intros ? ? [-> _]..].
  - eapply runs_ignore with (Q := fun _ V' => V' = V) (X := fun _ V' => V' = V); [|done|done].
    eapply runs_read_bind; [apply (lookup_path_spec md Hmd)|done|]. intros f _. by apply runs_ret.
  - eapply runs_ignore; [apply (listing_spec md V), (for_each_entry_spec md Hmd)| |].
    + intros a V' [Hw _]. exact Hw.
    + intros e V' (v & Hw & _). exact Hw.
  - eapply runs_ignore; [by apply free_block_count_spec|by intros ? ? [-> _]..].
Qed.

Lemma fs_step_volume md s s' : writable_ok md -> volume md s -> fs_step s s' -> volume md s'.
Proof.
  intros Hwr Hvol Hstep. revert Hvol. destruct Hstep as [c s0 s0' r E1 Ht Hr]. intros (t & Hs & Hco)%volume_view.
  set (V := blocks md s0) in *.
  destruct (reading c) eqn:Hc.
  - destruct (reading_spec md V c (wr_ok md Hwr) Hc s0 Hs) as (V' & HV' & Hres). rewrite E1 in HV', Hres.
    apply (volume_of md V t); [done| |done]. by destruct r; cbn in Hres; subst.
  - destruct c as [| | | |path contents| | | | |]; try done.
    destruct (write_file_volume md Hwr V t path contents Hco Ht s0 Hs) as (V' & HV' & Hres).
    cbn [call] in E1. rewrite E1 in HV', Hres. destruct r as [[]|e|]; cbn in Hres; [| |done].
    + destruct Hres as (t' & n & new & Hco' & _). by apply (volume_of md V' t').
    + destruct Hres as [->|[Hco' _]]; [done|]. by apply (volume_of md V' t).
Qed.

(** C3: Through any sequence of reads and of [write_file]s, successful or not, a
    consistent volume stays consistent, as long as no recovery of a failed write
    fails: the bitmaps mark what is in use, no block belongs to two files or to a file
    and the metadata, and every entry of a directory leads to an inode in use. *)
Theorem volume_stays_consistent md s s' : writable_ok md -> volume md s -> rtc fs_step s s' -> volume md s'.
Proof. intros Hwr Hs Hr. induction Hr as [|s s1 s' Hstep _ IH]; [done|]. by eapply IH, fs_step_volume. Qed.
End props.

(** A superblock that [mount] accepts describes a volume the rest of the code can
    work with: a block size of 1024, 2048 or 4096, inodes that divide a block, group
    descriptors inside the volume, enough groups for its blocks and inodes, and sectors
    that fit the disk's addresses; no superblock makes [mount] panic. *)
Theorem superblock_accepted sb :
  length sb = SUPERBLOCK_SIZE -> bytes_ok sb ->
  match parse_superblock sb with
  | Ok md => metadata_ok md /\ covered md
  | Err e => e = Ext2Error.InvalidFilesystem \/ e = Ext2Error.UnsupportedFeature
  | Panic => False
  end.
Proof. apply parse_superblock_spec. Qed.

(** ** Examples *)

#[local] Existing Instances mem_device mem_device_laws.

Definition name_a : list Z := [47; 97].
Definition name_b : list Z := [47; 98].

(** Contents that need a block of pointers. *)
Definition long_contents : list Z := replicate (Z.to_nat 12500) 7.

Lemma long_contents_bytes : bytes_ok long_contents.
Proof. by apply Forall_replicate. Qed.

Lemma short_contents_bytes : bytes_ok [1; 2; 3].
Proof. repeat (apply Forall_cons; split; [done|]). by apply Forall_nil. Qed.

Lemma example_volume_ok failures : volume example_md (example_mounted failures).
Proof. exact (volume_of _ _ _ _ example_writable (example_abstracts failures) example_consistent). Qed.

Lemma written_file_reads_back_witness :
  let '(s1, w) := write_file name_a long_contents (example_mounted []) in
  let '(s2, r) := read_file_vec name_a 20000 s1 in
  w = Ok tt /\ (r = Ok (Some long_contents) \/ exists e, r = Err e /\ soft e).
Proof.
  assert ((write_file name_a long_contents (example_mounted [])).2 = Ok tt) as E by (by vm_compute).
  destruct (write_file name_a long_contents (example_mounted [])) as [s1 w] eqn:E1. cbn [snd] in E. subst w.
  destruct (read_file_vec name_a 20000 s1) as [s2 r] eqn:E2. split; [reflexivity|].
  refine (written_file_reads_back example_md name_a long_contents 20000 (example_mounted []) s1 s2 r example_writable
    (example_volume_ok []) long_contents_bytes _ E1 E2). by vm_compute.
Defined.

(** The volume with a file. *)
Definition with_file : Ext2 mem_disk := (write_file name_b [1; 2; 3] (example_mounted [])).1.

Lemma with_file_written : write_file name_b [1; 2; 3] (example_mounted []) = (with_file, Ok tt).
Proof.
  rewrite (surjective_pairing (write_file _ _ _)). apply (f_equal (pair with_file)). vm_compute. reflexivity.
Qed.

Lemma with_file_volume : volume example_md with_file.
Proof.
  apply (fs_step_volume example_md (example_mounted []) with_file example_writable (example_volume_ok [])).
  apply (fs_call (WriteFile name_b [1; 2; 3]) _ _ (Ok tt)); [apply with_file_written|apply short_contents_bytes|done].
Qed.

Definition with_file_view : View := block_at example_md (e_disk with_file).

Lemma with_file_abstracts : fs_view example_md with_file_view with_file.
Proof. split; [by vm_compute|done]. Qed.

Lemma read_file_vec_exact_witness :
  let '(s', r) := read_file_vec name_b 100 with_file in
  file_of example_md with_file_view name_b 100 = Ok (Some [1; 2; 3]) /\
  fs_view example_md with_file_view s' /\
  (r = file_of example_md with_file_view name_b 100 \/ exists e, r = Err e /\ soft e).
Proof.
  destruct (read_file_vec name_b 100 with_file) as [s' r] eqn:E1. split; [vm_compute; reflexivity|].
  exact (read_file_vec_exact example_md with_file_view name_b 100 with_file s' r (wr_ok _ example_writable)
    with_file_abstracts E1).
Defined.

Lemma for_each_entry_exact_witness :
  let '(s', visits, r) := for_each_entry [47] (with_file, []) in
  visits = [([98], false, 3)] /\ r = Ok tt /\ fs_view example_md with_file_view s' /\
  exists entries, listing_of example_md with_file_view [47] = Ok entries /\
    visits_of example_md with_file_view entries = Ok visits.
Proof.
  assert ((for_each_entry [47] (with_file, [])).2 = Ok tt) as E by (by vm_compute).
  assert ((for_each_entry [47] (with_file, [])).1.2 = [([98], false, 3)]) as Ev by (by vm_compute).
  destruct (for_each_entry [47] (with_file, [])) as [[s' visits] r] eqn:E1. cbn [fst snd] in E, Ev. subst r.
  split; [exact Ev|]. split; [reflexivity|].
  exact (for_each_entry_exact example_md with_file_view [47] with_file s' visits (wr_ok _ example_writable)
    with_file_abstracts E1).
Defined.

(** The fourth write fails. *)
Definition fourth : list bool := [false; false; false; true].

Lemma failed_write_keeps_blocks_witness :
  let '(s', r) := write_file name_a [1; 2; 3] (example_mounted fourth) in
  r = Err (Ext2Error.Disk AtaError.Device) /\ block_at example_md (e_disk s') 3 = example_view 3.
Proof.
  assert ((write_file name_a [1; 2; 3] (example_mounted fourth)).2 = Err (Ext2Error.Disk AtaError.Device)) as E
    by (by vm_compute).
  destruct (write_file name_a [1; 2; 3] (example_mounted fourth)) as [s' r] eqn:E1. cbn [snd] in E. subst r.
  split; [reflexivity|].
  refine (failed_write_keeps_blocks example_md example_view name_a [1; 2; 3] (example_mounted fourth) s'
    (Ext2Error.Disk AtaError.Device) 3 example_writable (example_abstracts fourth) E1 _ _); [discriminate|].
  intros t Ht _. assert (t = example_tables) as -> by (unfold example_tables; rewrite Ht; reflexivity).
  vm_compute. reflexivity.
Defined.

Lemma other_files_are_kept_witness :
  let '(s1, w) := write_file name_a long_contents with_file in
  let '(s2, r) := read_file_vec name_b 100 s1 in
  w = Ok tt /\ (r = Ok (Some [1; 2; 3]) \/ exists e, r = Err e /\ soft e).
Proof.
  assert ((write_file name_a long_contents with_file).2 = Ok tt) as E by (by vm_compute).
  assert ((read_file_vec name_b 100 with_file).2 = Ok (Some [1; 2; 3])) as E0 by (by vm_compute).
  destruct (write_file name_a long_contents with_file) as [s1 w] eqn:E1. cbn [snd] in E. subst w.
  destruct (read_file_vec name_b 100 with_file) as [s0 r0] eqn:Er. cbn [snd] in E0. subst r0.
  destruct (read_file_vec name_b 100 s1) as [s2 r] eqn:E2. split; [reflexivity|].
  refine (other_files_are_kept example_md name_a long_contents name_b 100 [1; 2; 3] with_file s0 s1 s2 (Ok tt) r
    example_writable with_file_volume long_contents_bytes Er _ E1 _ E2); [|discriminate].
  intros (n & _ & Hn). vm_compute in Hn. discriminate Hn.
Defined.

(** A write that fails and is undone, and a read. *)
Lemma volume_stays_consistent_witness :
  volume example_md (read_file_vec name_a 100 (write_file name_a [1; 2; 3] (example_mounted fourth)).1).1.
Proof.
  refine (volume_stays_consistent example_md (example_mounted fourth) _ example_writable (example_volume_ok fourth) _).
  eapply rtc_l; [|eapply rtc_l; [|apply rtc_refl]].
  - apply (fs_call (WriteFile name_a [1; 2; 3]) _ _ (write_file name_a [1; 2; 3] (example_mounted fourth)).2);
      [apply surjective_pairing|apply short_contents_bytes|vm_compute; discriminate].
  - apply (fs_call (ReadFileVec name_a 100) _ _ (Ok tt)); [|exact I|discriminate]. cbn [call]. unfold mbind, op_bind.
    assert ((read_file_vec name_a 100 (write_file name_a [1; 2; 3] (example_mounted fourth)).1).2 = Ok None) as E
      by (by vm_compute).
    destruct (read_file_vec _ _ _) as [s2 r]. cbn [snd] in E. subst r. reflexivity.
Defined.

Lemma superblock_accepted_witness :
  parse_superblock (sectors_from (md_sector (mk_mem_disk example_sectors [])) 2 2) = Ok example_md /\
  match parse_superblock (sectors_from (md_sector (mk_mem_disk example_sectors [])) 2 2) with
  | Ok md => metadata_ok md /\ covered md
  | Err e => e = Ext2Error.InvalidFilesystem \/ e = Ext2Error.UnsupportedFeature
  | Panic => False
  end.
Proof.
  split; [vm_compute; reflexivity|].
  apply (superblock_accepted (sectors_from (md_sector (mk_mem_disk example_sectors [])) 2 2)).
  - vm_compute. reflexivity.
  - apply sectors_from_bytes. intros s. apply as_sector_ok.
Defined.
