(* ===== verification/LineEdit.v ===== *)
(** * The command line of the shell

    [LineEditor] and [CommandHistory] of [shell/mod.rs]: a line of bytes in a fixed
    array with a cursor, and the last eight commands in a ring of such arrays.  Together
    they are the line as the text before and after the cursor, and the list of the
    commands, the newest first. *)

From S2P Require Import Prelude Refine.

Definition INPUT_CAPACITY : nat := 256.
Definition HISTORY_CAPACITY : nat := 8.

(** Keys that are no ASCII characters. *)
Definition KEY_LEFT : Z := 0x80.
Definition KEY_RIGHT : Z := 0x81.
Definition KEY_UP : Z := 0x82.
Definition KEY_DOWN : Z := 0x83.
Definition KEY_HOME : Z := 0x84.
Definition KEY_END : Z := 0x85.
Definition KEY_DELETE : Z := 0x86.
Definition KEY_PAGE_UP : Z := 0x87.
Definition KEY_PAGE_DOWN : Z := 0x88.

(** A method that may panic and has no error. *)
Abbreviation Method S A := (Op S Empty_set A).

(** [&l[..n]]. *)
Definition slice_to {E A} (l : list A) (n : nat) : outcome E (list A) :=
  if n <=? length l then Ok (take n l) else Panic.

(** [x - y] on [usize]. *)
Definition sub_usize {E} (x y : nat) : outcome E nat := if y <=? x then Ok (x - y) else Panic.

(** [l[i]] and [l[i] = x]. *)
Definition index_of {E A} (l : list A) (i : nat) : outcome E A := expect (l !! i).

Definition set_index {E A} (l : list A) (i : nat) (x : A) : outcome E (list A) :=
  if i <? length l then Ok (<[i := x]> l) else Panic.

(** [l.copy_within(a..b, d)]. *)
Definition copy_within {E A} (l : list A) (a b d : nat) : outcome E (list A) :=
  if (a <=? b) && (b <=? length l) && (d + (b - a) <=? length l)
  then Ok (splice l d (slice l a b)) else Panic.

(** ** [LineEditor] *)

Record LineEditor := mk_line {
  bytes : list Z;
  length_ : nat;
  cursor : nat;
}.

Definition LineEditor_new : LineEditor := mk_line (replicate INPUT_CAPACITY 0%Z) 0 0.

Definition as_bytes (e : LineEditor) : outcome Empty_set (list Z) := slice_to (bytes e) (length_ e).

Definition replace (new : list Z) : Method LineEditor unit :=
  e ← get;
  let n := Nat.min (length new) INPUT_CAPACITY in
  src ← lift (slice_to new n);
  dst ← lift (copy_at (bytes e) 0 src);
  put (mk_line dst n n).

Definition line_insert (byte : Z) : Method LineEditor bool :=
  e ← get;
  if length_ e =? INPUT_CAPACITY then mret false
  else
    moved ← lift (copy_within (bytes e) (cursor e) (length_ e) (cursor e + 1));
    written ← lift (set_index moved (cursor e) byte);
    _ ← put (mk_line written (length_ e + 1) (cursor e + 1));
    mret true.

Definition line_backspace : Method LineEditor bool :=
  e ← get;
  if cursor e =? 0 then mret false
  else
    let c := cursor e - 1 in
    moved ← lift (copy_within (bytes e) (c + 1) (length_ e) c);
    n ← lift (sub_usize (length_ e) 1);
    _ ← put (mk_line moved n c);
    mret true.

Definition line_delete : Method LineEditor bool :=
  e ← get;
  if cursor e =? length_ e then mret false
  else
    moved ← lift (copy_within (bytes e) (cursor e + 1) (length_ e) (cursor e));
    n ← lift (sub_usize (length_ e) 1);
    _ ← put (mk_line moved n (cursor e));
    mret true.

Definition line_left : Method LineEditor bool :=
  e ← get;
  if cursor e =? 0 then mret false
  else _ ← put (mk_line (bytes e) (length_ e) (cursor e - 1)); mret true.

Definition line_right : Method LineEditor bool :=
  e ← get;
  if cursor e =? length_ e then mret false
  else _ ← put (mk_line (bytes e) (length_ e) (cursor e + 1)); mret true.

Definition line_clear : Method LineEditor unit := modify (fun e => mk_line (bytes e) 0 0).

(** ** [CommandHistory] *)

Record CommandHistory := mk_history {
  entries : list (list Z);
  lengths : list nat;
  next : nat;
  count_ : nat;
  browsing : option nat;
  draft : list Z;
  draft_len : nat;
}.

Definition CommandHistory_new : CommandHistory :=
  mk_history (replicate HISTORY_CAPACITY (replicate INPUT_CAPACITY 0%Z)) (replicate HISTORY_CAPACITY 0)
    0 0 None (replicate INPUT_CAPACITY 0%Z) 0.

Definition set_browsing (b : option nat) (h : CommandHistory) : CommandHistory :=
  mk_history (entries h) (lengths h) (next h) (count_ h) b (draft h) (draft_len h).

(** [&self.entries[index][..self.lengths[index]]]. *)
Definition entry (h : CommandHistory) (i : nat) : outcome Empty_set (list Z) :=
  row ← index_of (entries h) i;
  n ← index_of (lengths h) i;
  slice_to row n.

(** The line is the latest one. *)
Definition repeats (h : CommandHistory) (line : list Z) : outcome Empty_set bool :=
  if 0 <? count_ h then
    latest ← entry h ((next h + HISTORY_CAPACITY - 1) mod HISTORY_CAPACITY);
    Ok (bool_decide (latest = line))
  else Ok false.

Definition record (line : list Z) : Method CommandHistory unit :=
  if bool_decide (line = []) then modify (set_browsing None)
  else
    h ← get;
    again ← lift (repeats h line);
    if again : bool then modify (set_browsing None)
    else
      row ← lift (index_of (entries h) (next h));
      row ← lift (copy_at row 0 line);
      rows ← lift (set_index (entries h) (next h) row);
      ns ← lift (set_index (lengths h) (next h) (length line));
      put (mk_history rows ns ((next h + 1) mod HISTORY_CAPACITY)
             (Nat.min (count_ h + 1) HISTORY_CAPACITY) None (draft h) (draft_len h)).

Definition abandon_browsing : Method CommandHistory unit := modify (set_browsing None).

(** The methods that get the line of the editor as well. *)
Definition on_line {A} (m : Method LineEditor A) : Method (CommandHistory * LineEditor) A :=
  fun '(h, e) => let '(e, r) := m e in ((h, e), r).

(** [editor.replace(&self.entries[index][..self.lengths[index]])]. *)
Definition show_entry (i : nat) : Method (CommandHistory * LineEditor) unit :=
  '(h, _) ← get;
  line ← lift (entry h i);
  on_line (replace line).

Definition older : Method (CommandHistory * LineEditor) bool :=
  '(h, e) ← get;
  if count_ h =? 0 then mret false
  else
    '(h, age) ← lift match browsing h with
      | Some age => n ← sub_usize (count_ h) 1; Ok (h, Nat.min (age + 1) n)
      | None =>
          text ← as_bytes e;
          d ← copy_at (draft h) 0 text;
          Ok (mk_history (entries h) (lengths h) (next h) (count_ h) (browsing h) d (length_ e), 0)
      end;
    _ ← put (set_browsing (Some age) h, e);
    back ← lift (sub_usize (next h + HISTORY_CAPACITY - 1) age);
    _ ← show_entry (back mod HISTORY_CAPACITY);
    mret true.

Definition newer : Method (CommandHistory * LineEditor) bool :=
  '(h, e) ← get;
  match browsing h with
  | None => mret false
  | Some O =>
      _ ← put (set_browsing None h, e);
      line ← lift (slice_to (draft h) (draft_len h));
      _ ← on_line (replace line);
      mret true
  | Some age =>
      _ ← put (set_browsing (Some (age - 1)) h, e);
      back ← lift (sub_usize (next h + HISTORY_CAPACITY) age);
      _ ← show_entry (back mod HISTORY_CAPACITY);
      mret true
  end.

(** ** The keys of [run] *)

(** What a key means for the line: the branches of [run] that change it. *)
Inductive LineKey :=
| Enter
| Interrupt
| Backspace
| Delete
| Insert (byte : Z)
| MoveLeft
| MoveRight
| MoveHome
| MoveEnd
| Older
| Newer.

Definition line_key (key : Z) : option LineKey :=
  (if (key =? 10) || (key =? 13) then Some Enter
   else if (key =? 0x08) || (key =? 0x7f) then Some Backspace
   else if key =? 0x03 then Some Interrupt
   else if key =? 9 then Some (Insert 32)
   else if (0x20 <=? key) && (key <=? 0x7e) then Some (Insert key)
   else if key =? KEY_LEFT then Some MoveLeft
   else if key =? KEY_RIGHT then Some MoveRight
   else if key =? KEY_HOME then Some MoveHome
   else if key =? KEY_END then Some MoveEnd
   else if key =? KEY_DELETE then Some Delete
   else if key =? KEY_UP then Some Older
   else if key =? KEY_DOWN then Some Newer
   else None)%Z.

Definition on_history {A} (m : Method CommandHistory A) : Method (CommandHistory * LineEditor) A :=
  fun '(h, e) => let '(h, r) := m h in ((h, e), r).

(** An edit that changed the line ends the browsing of the history. *)
Definition editing (m : Method LineEditor bool) : Method (CommandHistory * LineEditor) unit :=
  changed ← on_line m;
  if changed : bool then on_history abandon_browsing else mret tt.

(** The change of the line; the line that is executed, after [Enter]. *)
Definition edit_line (k : LineKey) : Method (CommandHistory * LineEditor) (option (list Z)) :=
  match k with
  | Enter =>
      _ ← on_line (modify (fun e => mk_line (bytes e) (length_ e) (length_ e)));
      line ← on_line (e ← get; lift (as_bytes e));
      _ ← on_history (record line);
      _ ← on_line line_clear;
      mret (Some line)
  | Interrupt => _ ← on_line line_clear; mret None
  | Backspace => _ ← editing line_backspace; mret None
  | Delete => _ ← editing line_delete; mret None
  | Insert byte => _ ← editing (line_insert byte); mret None
  | MoveLeft => _ ← on_line line_left; mret None
  | MoveRight => _ ← on_line line_right; mret None
  | MoveHome => _ ← on_line (modify (fun e => mk_line (bytes e) (length_ e) 0)); mret None
  | MoveEnd => _ ← on_line (modify (fun e => mk_line (bytes e) (length_ e) (length_ e))); mret None
  | Older => _ ← older; mret None
  | Newer => _ ← newer; mret None
  end.

(** The lines executed while the keys arrive. *)
Fixpoint edit_lines (keys : list Z) : Method (CommandHistory * LineEditor) (list (list Z)) :=
  match keys with
  | [] => mret []
  | key :: keys =>
      match line_key key with
      | None => edit_lines keys
      | Some k =>
          submitted ← edit_line k;
          rest ← edit_lines keys;
          mret (match submitted with Some line => line :: rest | None => rest end)
      end
  end.

(** ** Reference: a line with a cursor and a list of commands *)

Record Prompt := mk_prompt {
  before : list Z;
  after : list Z;
  commands : list (list Z);
  browsed : option nat;
  saved : list Z;
}.

Definition prompt_new : Prompt := mk_prompt [] [] [] None [].

Definition text (p : Prompt) : list Z := before p ++ after p.

Definition with_text (l r : list Z) (b : option nat) (p : Prompt) : Prompt :=
  mk_prompt l r (commands p) b (saved p).

(** The command of an age, the newest being 0. *)
Definition recall (age : nat) (p : Prompt) : Prompt :=
  with_text (default [] (commands p !! age)) [] (Some age) p.

Definition remember (line : list Z) (l : list (list Z)) : list (list Z) :=
  if bool_decide (line = []) || bool_decide (head l = Some line) then l
  else take HISTORY_CAPACITY (line :: l).

Definition prompt_key (k : LineKey) (p : Prompt) : Prompt * option (list Z) :=
  match k with
  | Enter => (mk_prompt [] [] (remember (text p) (commands p)) None (saved p), Some (text p))
  | Interrupt => (with_text [] [] (browsed p) p, None)
  | Backspace =>
      (if bool_decide (before p = []) then p
       else with_text (take (length (before p) - 1) (before p)) (after p) None p, None)
  | Delete =>
      (match after p with [] => p | _ :: r => with_text (before p) r None p end, None)
  | Insert byte =>
      (if length (text p) =? INPUT_CAPACITY then p
       else with_text (before p ++ [byte]) (after p) None p, None)
  | MoveLeft =>
      (match last (before p) with
       | Some b => with_text (take (length (before p) - 1) (before p)) (b :: after p) (browsed p) p
       | None => p
       end, None)
  | MoveRight =>
      (match after p with [] => p | b :: r => with_text (before p ++ [b]) r (browsed p) p end, None)
  | MoveHome => (with_text [] (text p) (browsed p) p, None)
  | MoveEnd => (with_text (text p) [] (browsed p) p, None)
  | Older =>
      (if bool_decide (commands p = []) then p
       else match browsed p with
            | Some age => recall (Nat.min (age + 1) (length (commands p) - 1)) p
            | None => recall 0 (mk_prompt (before p) (after p) (commands p) (browsed p) (text p))
            end, None)
  | Newer =>
      (match browsed p with
       | None => p
       | Some O => with_text (saved p) [] None p
       | Some (S age) => recall age p
       end, None)
  end.

Fixpoint prompt_lines (keys : list Z) (p : Prompt) : list (list Z) :=
  match keys with
  | [] => []
  | key :: keys =>
      match line_key key with
      | None => prompt_lines keys p
      | Some k =>
          let '(p, submitted) := prompt_key k p in
          let rest := prompt_lines keys p in
          match submitted with Some line => line :: rest | None => rest end
      end
  end.

(** ** The line *)

(** The text before and after the cursor, and what is left of the array. *)
Definition line_at (l r : list Z) (e : LineEditor) : Prop :=
  exists z, e = mk_line (l ++ r ++ z) (length l + length r) (length l) /\
    length l + length r + length z = INPUT_CAPACITY.

Lemma slice_to_app {E A} (l z : list A) : slice_to (E := E) (l ++ z) (length l) = Ok l.
Proof.
  unfold slice_to. rewrite (proj2 (Nat.leb_le _ _)) by (rewrite length_app; lia). by rewrite take_app_length.
Qed.

Lemma line_text l r e : line_at l r e -> as_bytes e = Ok (l ++ r).
Proof.
  intros (z & -> & _). unfold as_bytes. cbn. rewrite (assoc_L (++)), <-length_app. apply slice_to_app.
Qed.

(** Moving the tail of the line by a cell, up or down. *)
Lemma copy_within_in {E A} (l : list A) a b d :
  a <= b -> b <= length l -> d + (b - a) <= length l ->
  copy_within (E := E) l a b d = Ok (splice l d (slice l a b)).
Proof. intros. unfold copy_within. by rewrite !(proj2 (Nat.leb_le _ _)) by done. Qed.

Lemma copy_up {E A} (l r z : list A) c : exists y,
  copy_within (E := E) (l ++ r ++ c :: z) (length l) (length l + length r) (length l + 1) = Ok (l ++ y :: r ++ z).
Proof.
  destruct (r ++ [c]) as [|y r'] eqn:Hr; [by destruct r|]. exists y.
  assert (length r' = length r) as Hlen by (apply (f_equal length) in Hr; rewrite length_app in Hr; cbn in Hr; lia).
  rewrite copy_within_in by (rewrite ?length_app; cbn; lia). rewrite slice_app_mid. f_equal.
  replace (l ++ r ++ c :: z) with ((l ++ [y]) ++ r' ++ z)
    by (rewrite <-(assoc_L (++) l); cbn; by rewrite app_comm_cons, <-Hr, <-(assoc_L (++) r)).
  replace (length l + 1) with (length (l ++ [y])) by (rewrite length_app; done).
  rewrite splice_app by done. by rewrite <-(assoc_L (++)).
Qed.

Lemma copy_down {E A} (l r z : list A) x : exists y,
  copy_within (E := E) (l ++ x :: r ++ z) (length l + 1) (length l + 1 + length r) (length l) = Ok (l ++ r ++ y :: z).
Proof.
  destruct (exists_last (l := x :: r)) as (q & y & Hq); [done|]. exists y.
  assert (length q = length r) as Hlen by (apply (f_equal length) in Hq; rewrite length_app in Hq; cbn in Hq; lia).
  rewrite copy_within_in by (rewrite ?length_app; cbn; rewrite ?length_app; lia). f_equal.
  replace (slice (l ++ x :: r ++ z) (length l + 1) (length l + 1 + length r)) with r.
  - replace (l ++ x :: r ++ z) with (l ++ q ++ y :: z) by (rewrite app_comm_cons, Hq, <-(assoc_L (++) q); done).
    by rewrite splice_app.
  - replace (length l + 1) with (length (l ++ [x])) by (rewrite length_app; done).
    replace (l ++ x :: r ++ z) with ((l ++ [x]) ++ r ++ z) by (by rewrite <-(assoc_L (++))). by rewrite slice_app_mid.
Qed.

Lemma insert_spec l r e b : line_at l r e ->
  exists e', line_insert b e = (e', Ok (negb (length (l ++ r) =? INPUT_CAPACITY))) /\
    if length (l ++ r) =? INPUT_CAPACITY then e' = e else line_at (l ++ [b]) r e'.
Proof.
  intros (z & -> & Hl). unfold line_insert, mbind, op_bind, get, put, lift. cbn [bytes length_ cursor].
  rewrite length_app. destruct (Nat.eqb_spec (length l + length r) INPUT_CAPACITY); [by eexists|].
  destruct z as [|c z]; cbn [length] in Hl; [lia|]. destruct (copy_up (E := Empty_set) l r z c) as [y ->].
  unfold set_index. rewrite (proj2 (Nat.ltb_lt _ _)) by (rewrite length_app; cbn; lia).
  eexists. split; [done|]. exists z. rewrite insert_app_r_alt, Nat.sub_diag by done. cbn [list_insert].
  rewrite <-(assoc_L (++) l [b]), length_app. cbn [length app]. split; [f_equal; lia|lia].
Qed.

Lemma backspace_spec l r e : line_at l r e ->
  exists e', line_backspace e = (e', Ok (negb (bool_decide (l = [])))) /\
    if bool_decide (l = []) then e' = e else line_at (take (length l - 1) l) r e'.
Proof.
  intros (z & -> & Hl). unfold line_backspace, mbind, op_bind, get, put, lift. cbn [bytes length_ cursor].
  destruct l as [|b l] using rev_ind; [by eexists|].
  rewrite bool_decide_eq_false_2 by (by destruct l). rewrite length_app, (proj2 (Nat.eqb_neq _ _)) by (cbn; lia).
  cbn [length] in *. rewrite length_app in Hl. cbn in Hl. rewrite <-(assoc_L (++) l). cbn [app].
  replace (length l + 1 - 1) with (length l) by lia.
  destruct (copy_down (E := Empty_set) l r z b) as [y ->]. unfold sub_usize.
  rewrite (proj2 (Nat.leb_le _ _)) by lia. eexists. split; [done|]. rewrite take_app_length.
  exists (y :: z). cbn [length]. split; [f_equal; lia|lia].
Qed.

Lemma delete_spec l r e : line_at l r e ->
  exists e', line_delete e = (e', Ok (negb (bool_decide (r = [])))) /\
    match r with [] => e' = e | _ :: r => line_at l r e' end.
Proof.
  intros (z & -> & Hl). unfold line_delete, mbind, op_bind, get, put, lift. cbn [bytes length_ cursor].
  destruct r as [|b r]; cbn [length] in *.
  { rewrite (proj2 (Nat.eqb_eq _ _)) by lia. by eexists. }
  rewrite (proj2 (Nat.eqb_neq _ _)) by lia. rewrite bool_decide_eq_false_2 by done. cbn [app].
  destruct (copy_down (E := Empty_set) l r z b) as [y Hy]. replace (length l + S (length r)) with (length l + 1 + length r) by lia.
  rewrite Hy. unfold sub_usize. rewrite (proj2 (Nat.leb_le _ _)) by lia. eexists. split; [done|].
  exists (y :: z). cbn [length]. split; [f_equal; lia|lia].
Qed.

Lemma left_spec l r e : line_at l r e ->
  exists e' b, line_left e = (e', Ok b) /\
    match last l with Some c => line_at (take (length l - 1) l) (c :: r) e' | None => e' = e end.
Proof.
  intros (z & -> & Hl). unfold line_left, mbind, op_bind, get, put, lift. cbn [bytes length_ cursor].
  destruct l as [|b l] using rev_ind; [by do 2 eexists|]. rewrite last_snoc.
  rewrite length_app in *. cbn [length] in *. rewrite (proj2 (Nat.eqb_neq _ _)) by lia. do 2 eexists. split; [done|].
  replace (length l + 1 - 1) with (length l) by lia. rewrite take_app_length. exists z. cbn [length].
  split; [|lia]. rewrite <-(assoc_L (++)). f_equal. lia.
Qed.

Lemma right_spec l r e : line_at l r e ->
  exists e' b, line_right e = (e', Ok b) /\
    match r with [] => e' = e | c :: r => line_at (l ++ [c]) r e' end.
Proof.
  intros (z & -> & Hl). unfold line_right, mbind, op_bind, get, put, lift. cbn [bytes length_ cursor].
  destruct r as [|c r]; cbn [length] in *.
  { rewrite (proj2 (Nat.eqb_eq _ _)) by lia. by do 2 eexists. }
  rewrite (proj2 (Nat.eqb_neq _ _)) by lia. do 2 eexists. split; [done|]. exists z.
  rewrite <-(assoc_L (++)), length_app. cbn [length app]. split; [f_equal; lia|lia].
Qed.

Lemma replace_spec l r e new : line_at l r e -> length new <= INPUT_CAPACITY ->
  exists e', replace new e = (e', Ok tt) /\ line_at new [] e'.
Proof.
  intros (z & -> & Hl) Hnew. unfold replace, mbind, op_bind, get, put, lift. cbn [bytes length_ cursor].
  rewrite Nat.min_l by done. unfold slice_to. rewrite (proj2 (Nat.leb_le _ _)), take_ge by lia.
  unfold copy_at. rewrite (proj2 (Nat.leb_le _ _)) by (rewrite !length_app; lia). eexists. split; [done|].
  exists (drop (length new) (l ++ r ++ z)). cbn. rewrite length_drop, !length_app. split; [f_equal; lia|lia].
Qed.

(** ** The history *)

(** The slot of the command of an age. *)
Definition slot (next age : nat) : nat := (next + HISTORY_CAPACITY - 1 - age) mod HISTORY_CAPACITY.

Record history_at (cs : list (list Z)) (b : option nat) (sv : list Z) (h : CommandHistory) : Prop := {
  ha_entries : length (entries h) = HISTORY_CAPACITY;
  ha_rows : Forall (fun row => length row = INPUT_CAPACITY) (entries h);
  ha_lengths : length (lengths h) = HISTORY_CAPACITY;
  ha_next : next h < HISTORY_CAPACITY;
  ha_count : count_ h = length cs;
  ha_limit : length cs <= HISTORY_CAPACITY;
  ha_commands : forall i line, cs !! i = Some line -> entry h (slot (next h) i) = Ok line;
  ha_lines : Forall (fun line => length line <= INPUT_CAPACITY) cs;
  ha_browsing : browsing h = b;
  ha_age : forall age, b = Some age -> age < length cs;
  ha_draft : length (draft h) = INPUT_CAPACITY;
  ha_saved : slice_to (E := Empty_set) (draft h) (draft_len h) = Ok sv;
}.

Lemma slot_lt next age : slot next age < HISTORY_CAPACITY.
Proof. apply Nat.mod_upper_bound. done. Qed.

Lemma slot_after next age : next < HISTORY_CAPACITY -> S age < HISTORY_CAPACITY ->
  slot ((next + 1) mod HISTORY_CAPACITY) (S age) = slot next age /\ slot next age <> next.
Proof.
  unfold slot, HISTORY_CAPACITY. intros.
  do 8 (destruct next as [|next]; [do 7 (destruct age as [|age]; [done|]); lia|]). lia.
Qed.

Lemma slot_newest next : next < HISTORY_CAPACITY -> slot ((next + 1) mod HISTORY_CAPACITY) 0 = next.
Proof. unfold slot, HISTORY_CAPACITY. intros. do 8 (destruct next as [|next]; [done|]). lia. Qed.

Lemma slice_to_length {E A} (l : list A) n k : slice_to (E := E) l n = Ok k -> length k <= length l /\ n = length k.
Proof. unfold slice_to. case_match; bools; intros [= <-]. rewrite length_take. lia. Qed.

Lemma history_browse cs b b' sv h : history_at cs b sv h ->
  (forall age, b' = Some age -> age < length cs) -> history_at cs b' sv (set_browsing b' h).
Proof. intros [] Hage. by constructor. Qed.

Lemma history_saved cs b sv h : history_at cs b sv h -> length sv <= INPUT_CAPACITY.
Proof. intros []. by apply slice_to_length in ha_saved0 as [? _]; lia. Qed.

Lemma repeats_spec cs b sv h line : history_at cs b sv h -> repeats h line = Ok (bool_decide (head cs = Some line)).
Proof.
  intros Hh. unfold repeats. rewrite (ha_count _ _ _ _ Hh). destruct cs as [|c cs]; [done|]. cbn [length Nat.ltb head].
  pose proof (ha_commands _ _ _ _ Hh 0 c eq_refl) as Hc. unfold slot in Hc. rewrite Nat.sub_0_r in Hc. rewrite Hc. cbn.
  f_equal. apply bool_decide_ext. split; congruence.
Qed.

Lemma entry_new h line row rows ns :
  next h < HISTORY_CAPACITY -> length (entries h) = HISTORY_CAPACITY -> length (lengths h) = HISTORY_CAPACITY ->
  rows = <[next h := line ++ row]> (entries h) -> ns = <[next h := length line]> (lengths h) ->
  forall n c b d dl, entry (mk_history rows ns n c b d dl) (next h) = Ok line /\
    forall i, i <> next h -> entry (mk_history rows ns n c b d dl) i = entry h i.
Proof.
  intros Hn He Hl -> -> n c b d dl. unfold entry, index_of. cbn [entries lengths].
  rewrite !list_lookup_insert_eq by lia. cbn. split; [apply slice_to_app|].
  intros i Hi. by rewrite !list_lookup_insert_ne.
Qed.

Lemma record_spec cs b sv h line : history_at cs b sv h -> length line <= INPUT_CAPACITY ->
  exists h', record line h = (h', Ok tt) /\ history_at (remember line cs) None sv h'.
Proof.
  intros Hh Hline. unfold record, remember. destruct (bool_decide_reflect (line = [])); cbn [orb].
  { eexists. split; [done|]. by eapply history_browse. }
  unfold mbind, op_bind, get, put, lift. rewrite (repeats_spec cs b sv) by done.
  destruct (bool_decide_reflect (head cs = Some line)) as [|Hnew].
  { eexists. split; [done|]. by eapply history_browse. }
  destruct Hh as [He Hr Hl Hn Hc Hm Hcmd Hlines Hb Hage Hd Hs].
  destruct (lookup_lt_is_Some_2 (entries h) (next h)) as [row Hrow]; [lia|].
  unfold index_of at 1. rewrite Hrow. cbn [expect]. assert (length row = INPUT_CAPACITY) as Hlen by (eapply Forall_lookup_1 in Hr; done).
  unfold copy_at, set_index. rewrite (proj2 (Nat.leb_le _ _)), !(proj2 (Nat.ltb_lt _ _)) by (cbn; lia).
  eexists. split; [done|]. set (rows := <[_ := _]> (entries h)). set (ns := <[_ := _]> (lengths h)).
  destruct (entry_new h line (drop (length line) row) rows ns Hn He Hl eq_refl eq_refl
    ((next h + 1) mod HISTORY_CAPACITY) (Nat.min (count_ h + 1) HISTORY_CAPACITY) None (draft h) (draft_len h)) as [Hnewest Hold].
  constructor; cbn [entries lengths next count_ browsing draft draft_len]; try done.
  - unfold rows. by rewrite length_insert.
  - apply Forall_insert; [done|]. rewrite length_splice by (cbn; lia). done.
  - unfold ns. by rewrite length_insert.
  - by apply Nat.mod_upper_bound.
  - rewrite length_take, Hc. cbn [length]. lia.
  - rewrite length_take. lia.
  - intros i x Hi. apply lookup_take_Some in Hi as [Hi Hlt]. destruct i as [|i]; cbn in Hi.
    + injection Hi as <-. by rewrite slot_newest.
    + destruct (slot_after (next h) i) as [-> Hne]; [done..|]. rewrite Hold by done. by apply Hcmd.
  - apply Forall_take. by constructor.
Qed.

(** ** The keys *)

Definition prompt_at (p : Prompt) (s : CommandHistory * LineEditor) : Prop :=
  history_at (commands p) (browsed p) (saved p) s.1 /\ line_at (before p) (after p) s.2.

Lemma line_limit l r e : line_at l r e -> length (l ++ r) <= INPUT_CAPACITY.
Proof. intros (z & _ & Hl). rewrite length_app. lia. Qed.

(** Showing a line of the history. *)
Lemma show_spec cs sv l r h e age i :
  history_at cs (Some age) sv h -> line_at l r e -> i = slot (next h) age ->
  exists e', show_entry i (h, e) = ((h, e'), Ok tt) /\ line_at (default [] (cs !! age)) [] e'.
Proof.
  intros Hh He ->. destruct (lookup_lt_is_Some_2 cs age (ha_age _ _ _ _ Hh age eq_refl)) as [line Hline].
  destruct (replace_spec l r e line He) as (e' & Hr & He').
  { apply (Forall_lookup_1 _ _ _ _ (ha_lines _ _ _ _ Hh) Hline). }
  exists e'. unfold show_entry, mbind, op_bind, get, lift. rewrite (ha_commands _ _ _ _ Hh age line Hline).
  unfold on_line. by rewrite Hr, Hline.
Qed.

(** The draft is the line that browsing starts from. *)
Lemma save_draft cs b sv h l r e : history_at cs b sv h -> line_at l r e ->
  exists d, copy_at (E := Empty_set) (draft h) 0 (l ++ r) = Ok d /\
    history_at cs b (l ++ r) (mk_history (entries h) (lengths h) (next h) (count_ h) (browsing h) d (length_ e)).
Proof.
  intros Hh He. pose proof (line_limit l r e He) as Hlim. pose proof (ha_draft _ _ _ _ Hh) as Hd.
  unfold copy_at. rewrite (proj2 (Nat.leb_le _ _)) by (cbn; lia). eexists. split; [done|].
  destruct Hh. constructor; try done; cbn [draft draft_len].
  - rewrite length_splice by (cbn; lia). done.
  - destruct He as (z & -> & _). cbn [length_]. unfold splice. rewrite take_0, app_nil_l, <-length_app. apply slice_to_app.
Qed.

Lemma older_spec p s : prompt_at p s ->
  exists s' b, older s = (s', Ok b) /\ prompt_at (prompt_key Older p).1 s'.
Proof.
  destruct p as [l r cs bw sv], s as [h e]. intros [Hh He]. cbn in Hh, He.
  unfold older. cbn [prompt_key fst commands browsed before after].
  unfold mbind at 1, op_bind at 1, get at 1. rewrite (ha_count _ _ _ _ Hh).
  destruct (bool_decide_reflect (cs = [])) as [->|Hne]; [by do 2 eexists|].
  assert (0 < length cs) by (destruct cs; [done|cbn; lia]). rewrite (proj2 (Nat.eqb_neq _ _)) by lia.
  assert (forall h1 sv1 age, history_at cs (Some age) sv1 (set_browsing (Some age) h1) -> exists s' b,
    (_ ← put (set_browsing (Some age) h1, e); back ← lift (sub_usize (next h1 + HISTORY_CAPACITY - 1) age);
     _ ← show_entry (back mod HISTORY_CAPACITY); mret true) (h, e) = (s', Ok (E := Empty_set) b) /\
    prompt_at (recall age (mk_prompt l r cs bw sv1)) s') as Hgo.
  { intros h1 sv1 age H1. pose proof (ha_age _ _ _ _ H1 age eq_refl). pose proof (ha_limit _ _ _ _ H1).
    unfold sub_usize. rewrite (proj2 (Nat.leb_le _ _)) by (unfold HISTORY_CAPACITY in *; lia).
    destruct (show_spec cs sv1 l r _ e age _ H1 He eq_refl) as (e' & Hshow & He').
    exists (set_browsing (Some age) h1, e'), true. split; [|by split].
    unfold mbind, op_bind, put, lift. change ((next h1 + HISTORY_CAPACITY - 1 - age) mod HISTORY_CAPACITY)
      with (slot (next (set_browsing (Some age) h1)) age). by rewrite Hshow. }
  rewrite (ha_browsing _ _ _ _ Hh). destruct bw as [age|].
  - unfold mbind at 1, op_bind at 1, lift at 1. unfold sub_usize at 1. rewrite (proj2 (Nat.leb_le _ _)) by lia.
    apply (Hgo h sv). eapply history_browse; [done|]. intros ? [= <-]. lia.
  - unfold mbind at 1, op_bind at 1, lift at 1. rewrite (line_text l r) by done. cbn [mbind outcome_bind].
    destruct (save_draft cs None sv h l r e Hh He) as (d & -> & Hd). cbn [mbind outcome_bind].
    rewrite (ha_browsing _ _ _ _ Hh), (ha_count _ _ _ _ Hh) in Hd. eapply (Hgo _ (l ++ r)), history_browse; [exact Hd|]. intros ? [= <-]. lia.
Qed.

Lemma newer_spec p s : prompt_at p s ->
  exists s' b, newer s = (s', Ok b) /\ prompt_at (prompt_key Newer p).1 s'.
Proof.
  destruct p as [l r cs bw sv], s as [h e]. intros [Hh He]. cbn in Hh, He.
  unfold newer. cbn [prompt_key fst commands browsed before after].
  unfold mbind at 1, op_bind at 1, get at 1. rewrite (ha_browsing _ _ _ _ Hh).
  destruct bw as [[|age]|]; [| |by do 2 eexists].
  - destruct (replace_spec l r e sv He (history_saved _ _ _ _ Hh)) as (e' & Hr & He').
    do 2 eexists. split; [unfold mbind, op_bind, put, lift; rewrite (ha_saved _ _ _ _ Hh); unfold on_line; by rewrite Hr|].
    split; [|done]. by eapply history_browse.
  - pose proof (ha_age _ _ _ _ Hh _ eq_refl). pose proof (ha_limit _ _ _ _ Hh).
    assert (history_at cs (Some age) sv (set_browsing (Some age) h)) as H1.
    { eapply history_browse; [done|]. intros ? [= <-]. lia. }
    destruct (show_spec cs sv l r _ e age _ H1 He eq_refl) as (e' & Hshow & He').
    exists (set_browsing (Some age) h, e'), true. split; [|by split]. unfold mbind, op_bind, put, lift, sub_usize.
    rewrite (proj2 (Nat.leb_le _ _)) by (unfold HISTORY_CAPACITY in *; lia). replace (S age - 1) with age by lia.
    replace ((next h + HISTORY_CAPACITY - S age) mod HISTORY_CAPACITY)
      with (slot (next (set_browsing (Some age) h)) age) by (unfold slot; cbn [next set_browsing]; f_equal; lia).
    by rewrite Hshow.
Qed.

Lemma editing_spec p h e (m : Method LineEditor bool) l r changed e' :
  prompt_at p (h, e) -> m e = (e', Ok changed) ->
  (if changed then line_at l r e' else e' = e) ->
  exists s', editing m (h, e) = (s', Ok tt) /\ prompt_at (if changed : bool then with_text l r None p else p) s'.
Proof.
  intros [Hh He] Hm Hat. cbn in Hh, He. unfold editing, mbind, op_bind, on_line. rewrite Hm. destruct changed.
  - eexists. split; [done|]. split; [|done]. by eapply history_browse.
  - subst e'. eexists. split; [done|]. by split.
Qed.

Lemma edit_line_spec p s k : prompt_at p s ->
  exists s', edit_line k s = (s', Ok (prompt_key k p).2) /\ prompt_at (prompt_key k p).1 s'.
Proof.
  destruct s as [h e]. intros Hp. pose proof Hp as [Hh He]. cbn in Hh, He.
  assert (forall l r e', line_at l r e' -> prompt_at (with_text l r (browsed p) p) (h, e')) as Hmove by (by split).
  destruct k; cbn [edit_line prompt_key fst snd].
  - unfold mbind, op_bind, on_line, modify. cbn.
    assert (as_bytes (mk_line (bytes e) (length_ e) (length_ e)) = Ok (text p)) as -> by (by apply line_text in He).
    destruct (record_spec _ _ _ h (text p) Hh (line_limit _ _ _ He)) as (h' & Hr & Hh'). unfold on_history. rewrite Hr.
    eexists. split; [done|]. split; [done|]. destruct He as (z & -> & Hl). exists (text p ++ z).
    unfold text. cbn. rewrite !length_app, <-(assoc_L (++)). split; [done|lia].
  - unfold mbind, op_bind, on_line, line_clear, modify. cbn. eexists. split; [done|]. split; [done|].
    destruct He as (z & -> & Hl). exists (text p ++ z). unfold text. cbn. rewrite !length_app, <-(assoc_L (++)). split; [done|lia].
  - destruct (backspace_spec _ _ _ He) as (e' & Hm & Hat).
    destruct (editing_spec p h e _ (take (length (before p) - 1) (before p)) (after p) _ e' Hp Hm) as (s' & Hs & Hp').
    { by destruct (bool_decide (before p = [])). }
    exists s'. unfold mbind, op_bind. rewrite Hs. split; [done|]. by destruct (bool_decide (before p = [])).
  - destruct (delete_spec _ _ _ He) as (e' & Hm & Hat).
    destruct (editing_spec p h e _ (before p) (tail (after p)) _ e' Hp Hm) as (s' & Hs & Hp').
    { by destruct (after p). }
    exists s'. unfold mbind, op_bind. rewrite Hs. split; [done|]. by destruct (after p).
  - destruct (insert_spec _ _ _ byte He) as (e' & Hm & Hat).
    destruct (editing_spec p h e _ (before p ++ [byte]) (after p) _ e' Hp Hm) as (s' & Hs & Hp').
    { by destruct (length _ =? _). }
    exists s'. unfold mbind, op_bind. rewrite Hs. split; [done|]. unfold text. by destruct (length _ =? _).
  - destruct (left_spec _ _ _ He) as (e' & b & Hm & Hat). unfold mbind, op_bind, on_line. rewrite Hm.
    eexists. split; [done|]. destruct (last (before p)); [by apply Hmove|by subst].
  - destruct (right_spec _ _ _ He) as (e' & b & Hm & Hat). unfold mbind, op_bind, on_line. rewrite Hm.
    eexists. split; [done|]. destruct (after p); [by subst|by apply Hmove].
  - eexists. split; [done|]. apply Hmove. destruct He as (z & -> & Hl). exists z. unfold text. cbn.
    rewrite length_app, <-(assoc_L (++)). split; [done|lia].
  - eexists. split; [done|]. apply Hmove. destruct He as (z & -> & Hl). exists z. unfold text. cbn.
    rewrite length_app, <-(assoc_L (++)), Nat.add_0_r. split; [done|lia].
  - destruct (older_spec p (h, e) Hp) as (s' & b & Hm & Hp'). unfold mbind, op_bind. rewrite Hm. by eexists.
  - destruct (newer_spec p (h, e) Hp) as (s' & b & Hm & Hp'). unfold mbind, op_bind. rewrite Hm. by eexists.
Qed.

Lemma edit_lines_spec keys p s : prompt_at p s ->
  exists s', edit_lines keys s = (s', Ok (prompt_lines keys p)).
Proof.
  revert p s. induction keys as [|key keys IH]; intros p s Hp; [by eexists|]. cbn [edit_lines prompt_lines].
  destruct (line_key key) as [k|]; [|by apply IH]. destruct (edit_line_spec p s k Hp) as (s1 & H1 & Hp1).
  destruct (prompt_key k p) as [p1 submitted]. cbn in H1, Hp1. destruct (IH p1 s1 Hp1) as (s2 & H2).
  exists s2. unfold mbind, op_bind. rewrite H1, H2. by destruct submitted.
Qed.

Lemma prompt_at_new : prompt_at prompt_new (CommandHistory_new, LineEditor_new).
Proof.
  split.
  - constructor; try done; first [by apply Forall_nil|by apply Forall_replicate|cbn; unfold HISTORY_CAPACITY; lia].
  - by exists (replicate INPUT_CAPACITY 0%Z).
Qed.

(** C29: Whatever keys arrive, the fixed arrays of the line editor and of the ring of commands
    behave as a text with a cursor and a list of the last eight commands: the lines that
    are executed are the same, with insertion and deletion in the middle, recall of older
    and newer commands and the draft kept while browsing; no index is out of range. *)
Theorem line_editing_refines keys :
  (edit_lines keys (CommandHistory_new, LineEditor_new)).2 = Ok (prompt_lines keys prompt_new).
Proof. destruct (edit_lines_spec keys _ _ prompt_at_new) as [s ->]. done. Qed.

(** The ring keeps the last commands: after the keys of some commands, [Older] [n] times
    and [Enter], the [n]-th last one is executed again. *)
Example recall_third :
  (edit_lines [97; 10; 98; 10; 99; 10; KEY_UP; KEY_UP; KEY_UP; KEY_UP; 10]%Z (CommandHistory_new, LineEditor_new)).2 =
  Ok [[97]; [98]; [99]; [97]]%Z.
Proof. vm_compute. reflexivity. Qed.
