(* ===== verification/Chars.v ===== *)
(** * Characters of UTF-8 text

    The methods of [str] the kernel uses: [chars], [char_indices] and slicing at character
    boundaries.  A [&str] is the list of its bytes, a character the list of the bytes that
    encode it. *)

From Stdlib Require Import Ascii String.
From S2P Require Import Prelude Utf8.

Local Open Scope Z_scope.

(** A byte string literal. *)
Definition str (s : string) : list Z := (fun c => Z.of_N (N_of_ascii c)) <$> list_ascii_of_string s.
Arguments str s%_string_scope.

(** [str::chars]: a byte and the continuation bytes after it. *)
Fixpoint chars (l : list Z) : list (list Z) :=
  match l with
  | [] => []
  | b :: l =>
      match chars l with
      | (b1 :: c) :: k => if utf8_cont b1 then (b :: b1 :: c) :: k else [b] :: (b1 :: c) :: k
      | k => [b] :: k
      end
  end.

(** [&text[..i]] and [&text[i..]], which panic inside a character. *)
Definition str_to {E} (text : list Z) (i : nat) : outcome E (list Z) :=
  if is_char_boundary text i then Ok (take i text) else Panic.

Definition str_from {E} (text : list Z) (i : nat) : outcome E (list Z) :=
  if is_char_boundary text i then Ok (drop i text) else Panic.

(** ** The encoding of one character *)

Definition utf8_char (c : list Z) : bool :=
  match c with
  | [b0] => in_range 0 0x7F b0
  | [b0; b1] => in_range 0xC2 0xDF b0 && utf8_cont b1
  | [b0; b1; b2] =>
      in_range 0xE0 0xEF b0 && utf8_cont b2 &&
      (if b0 =? 0xE0 then in_range 0xA0 0xBF b1
       else if b0 =? 0xED then in_range 0x80 0x9F b1 else utf8_cont b1)
  | [b0; b1; b2; b3] =>
      in_range 0xF0 0xF4 b0 && utf8_cont b2 && utf8_cont b3 &&
      (if b0 =? 0xF0 then in_range 0x90 0xBF b1
       else if b0 =? 0xF4 then in_range 0x80 0x8F b1 else utf8_cont b1)
  | _ => false
  end.

Definition is_text (cs : list (list Z)) : Prop := Forall (fun c => utf8_char c = true) cs.

Ltac ranges :=
  unfold utf8_cont, in_range in *;
  repeat match goal with
  | H : _ && _ = true |- _ => apply andb_true_iff in H; destruct H
  | H : (_ <=? _) = true |- _ => apply Z.leb_le in H
  end.

(** The first byte is no continuation byte, the others are. *)
Lemma utf8_char_shape c : utf8_char c = true ->
  exists b k, c = b :: k /\ utf8_cont b = false /\ Forall (fun b => utf8_cont b = true) k.
Proof.
  intros Hc. assert (forall b lo hi, (0x80 <= lo) -> (hi <= 0xBF) -> in_range lo hi b = true -> utf8_cont b = true) as Hin.
  { intros b lo hi Hlo Hhi Hb. ranges. apply andb_true_iff. rewrite !Z.leb_le. lia. }
  assert (forall b lo hi, (hi < 0x80 \/ 0xBF < lo) -> in_range lo hi b = true -> utf8_cont b = false) as Hout.
  { intros b lo hi Hd Hb. ranges. apply andb_false_iff. rewrite !Z.leb_gt. lia. }
  destruct c as [|b0 [|b1 [|b2 [|b3 [|]]]]]; try done; cbn in Hc;
    repeat match goal with H : _ && _ = true |- _ => apply andb_true_iff in H as [? ?] end;
    eexists _, _; (split_and!; [done| |]);
    try (match goal with H : in_range _ _ ?b = true |- utf8_cont ?b = false => eapply Hout; [|exact H]; lia end);
    repeat apply Forall_cons_2; try done; try apply Forall_nil_2;
    repeat case_match; try done; (eapply Hin; [..|done]; lia).
Qed.

Lemma utf8_char_valid c l : utf8_char c = true -> valid_utf8 (c ++ l) = valid_utf8 l.
Proof.
  assert (forall lo hi lo' hi' b, in_range lo hi b = true -> (hi' < lo \/ hi < lo') -> in_range lo' hi' b = false) as Hno.
  { intros lo hi lo' hi' b Hb Hd. ranges. apply andb_false_iff. rewrite !Z.leb_gt. lia. }
  destruct c as [|b0 [|b1 [|b2 [|b3 [|]]]]]; try done; cbn; intros Hc.
  - by rewrite Hc.
  - apply andb_true_iff in Hc as [H0 ->]. by rewrite (Hno _ _ _ _ _ H0), H0 by lia.
  - apply andb_true_iff in Hc as [[H0 ->]%andb_true_iff ->].
    rewrite (Hno _ _ 0 0x7F _ H0), (Hno _ _ 0xC2 0xDF _ H0), H0 by lia. done.
  - apply andb_true_iff in Hc as [[[H0 H2]%andb_true_iff H3]%andb_true_iff ->].
    rewrite (Hno _ _ 0 0x7F _ H0), (Hno _ _ 0xC2 0xDF _ H0), (Hno _ _ 0xE0 0xEF _ H0), H0, H2, H3 by lia. done.
Qed.

Lemma valid_utf8_split l : valid_utf8 l = true -> l = [] \/ exists c k, l = c ++ k /\ utf8_char c = true /\ valid_utf8 k = true.
Proof.
  intros Hl. destruct l as [|b0 l1]; [by left|]. right. cbn in Hl. destruct (in_range 0 0x7F b0) eqn:H0.
  { by exists [b0], l1. }
  destruct l1 as [|b1 l2]; [done|]. destruct (in_range 0xC2 0xDF b0) eqn:H1.
  { apply andb_true_iff in Hl as [Hb Hl]. exists [b0; b1], l2. cbn. by rewrite H1, Hb. }
  destruct l2 as [|b2 l3]; [done|]. destruct (in_range 0xE0 0xEF b0) eqn:H2.
  { apply andb_true_iff in Hl as [[Hb Hb2]%andb_true_iff Hl]. exists [b0; b1; b2], l3. cbn. by rewrite H2, Hb2. }
  destruct l3 as [|b3 l4]; [done|]. apply andb_true_iff in Hl as [[[[H3 Hb]%andb_true_iff Hb2]%andb_true_iff Hb3]%andb_true_iff Hl].
  exists [b0; b1; b2; b3], l4. cbn. by rewrite H3, Hb2, Hb3.
Qed.

(** ** Text as a list of characters *)

Lemma valid_text l : valid_utf8 l = true -> exists cs, is_text cs /\ l = mjoin cs.
Proof.
  remember (length l) as n eqn:Hn. revert l Hn. induction (lt_wf n) as [n _ IH]. intros l -> Hl.
  destruct (valid_utf8_split l Hl) as [->|(c & k & -> & Hc & Hk)]; [exists []; split; [by apply Forall_nil|done]|].
  destruct (utf8_char_shape c Hc) as (b & k' & Hck & _).
  destruct (IH (length k)) with (l := k) as (cs & Hcs & ->); [rewrite length_app, Hck; cbn; lia|done..|].
  exists (c :: cs). split; [by apply Forall_cons|done].
Qed.

Lemma text_valid cs : is_text cs -> valid_utf8 (mjoin cs) = true.
Proof. induction 1 as [|c cs Hc _ IH]; [done|]. cbn. by rewrite utf8_char_valid. Qed.

Lemma is_text_app bs ds : is_text (bs ++ ds) <-> is_text bs /\ is_text ds.
Proof. apply Forall_app. Qed.

Lemma chars_step b l :
  chars (b :: l) =
    match chars l with
    | (b1 :: c) :: k => if utf8_cont b1 then (b :: b1 :: c) :: k else [b] :: (b1 :: c) :: k
    | k => [b] :: k
    end.
Proof. done. Qed.

(** The first byte of a text starts a character. *)
Lemma chars_cons b k l : utf8_cont b = false -> Forall (fun b => utf8_cont b = true) k ->
  match l with [] => True | b :: _ => utf8_cont b = false end ->
  chars (b :: k ++ l) = (b :: k) :: chars l.
Proof.
  intros Hb Hk Hl. revert b Hb. assert (forall b, chars (b :: k ++ l) = (b :: k) :: chars l) as H; [|auto].
  induction Hk as [|b1 k Hb1 _ IH]; intros b.
  - destruct l as [|b0 l]; [done|]. cbn -[utf8_cont]. destruct (chars l) as [|[|b1 c] ks]; cbn; [by rewrite Hl| |].
    + by rewrite Hl.
    + destruct (utf8_cont b1); by rewrite Hl.
  - change ((b1 :: k) ++ l) with (b1 :: k ++ l). rewrite chars_step, IH. by rewrite Hb1.
Qed.

Lemma text_head cs : is_text cs -> match mjoin cs with [] => True | b :: _ => utf8_cont b = false end.
Proof. intros [|c cs' Hc _]; [done|]. destruct (utf8_char_shape c Hc) as (b & k & -> & Hb & _). done. Qed.

Lemma chars_text cs : is_text cs -> chars (mjoin cs) = cs.
Proof.
  induction 1 as [|c cs Hc Hcs IH]; [done|]. destruct (utf8_char_shape c Hc) as (b & k & -> & Hb & Hk).
  change (mjoin ((b :: k) :: cs)) with (b :: k ++ mjoin cs). rewrite chars_cons; [by rewrite IH|done..|by apply text_head].
Qed.

Lemma boundary_text bs ds : is_text ds -> is_char_boundary (mjoin (bs ++ ds)) (length (mjoin bs)) = true.
Proof.
  intros Hd. unfold is_char_boundary. rewrite join_app, lookup_app_r, Nat.sub_diag, length_app by done.
  pose proof (text_head ds Hd) as Hh. destruct (mjoin ds) as [|b l]; cbn; [by apply Nat.eqb_eq; lia|by rewrite Hh].
Qed.

Lemma text_boundary cs i : is_text cs -> is_char_boundary (mjoin cs) i = true ->
  exists bs ds, cs = bs ++ ds /\ i = length (mjoin bs).
Proof.
  intros Hcs. revert i. induction Hcs as [|c cs Hc Hcs IH]; intros i Hi.
  { exists [], []. split; [done|]. unfold is_char_boundary in Hi. cbn in *. by apply Nat.eqb_eq in Hi. }
  destruct (decide (i = 0%nat)) as [->|Hne]; [by exists [], (c :: cs)|].
  destruct (utf8_char_shape c Hc) as (b & k & -> & Hb & Hk). destruct (decide (i < length (b :: k))%nat) as [Hlt|Hge].
  - exfalso. unfold is_char_boundary in Hi. change (mjoin ((b :: k) :: cs)) with ((b :: k) ++ mjoin cs) in Hi.
    rewrite lookup_app_l in Hi by done. destruct i as [|i]; [done|]. cbn in Hlt.
    change ((b :: k) !! S i) with (k !! i) in Hi. destruct (lookup_lt_is_Some_2 k i) as [x Hx]; [lia|]. rewrite Hx in Hi. apply (Forall_lookup_1 _ _ _ _ Hk) in Hx.
    by rewrite Hx in Hi.
  - destruct (IH (i - length (b :: k))%nat) as (bs & ds & -> & Heq).
    + unfold is_char_boundary in *. change (mjoin ((b :: k) :: cs)) with ((b :: k) ++ mjoin cs) in Hi.
      rewrite lookup_app_r in Hi by lia. destruct (mjoin cs !! _); [done|]. apply Nat.eqb_eq in Hi. apply Nat.eqb_eq.
      rewrite Hi, length_app. lia.
    + exists ((b :: k) :: bs), ds. split; [done|]. change (mjoin ((b :: k) :: bs)) with ((b :: k) ++ mjoin bs).
      rewrite length_app. lia.
Qed.

Lemma str_to_text {E} bs ds : is_text ds -> str_to (E := E) (mjoin (bs ++ ds)) (length (mjoin bs)) = Ok (mjoin bs).
Proof. intros Hd. unfold str_to. rewrite boundary_text by done. by rewrite join_app, take_app_length. Qed.

Lemma str_from_text {E} bs ds : is_text ds -> str_from (E := E) (mjoin (bs ++ ds)) (length (mjoin bs)) = Ok (mjoin ds).
Proof. intros Hd. unfold str_from. rewrite boundary_text by done. by rewrite join_app, drop_app_length. Qed.
