(* ===== verification/TextEdit.v ===== *)
(** * The text editor of the shell

    [TextEditor] of [shell/mod.rs]: a UTF-8 text as a vector of bytes, with a cursor.  It
    is a list of characters before the cursor and one after it; up and down keep the
    column, counted in characters. *)

From S2P Require Import Prelude Utf8 Chars LineEdit.

Local Open Scope nat_scope.

Definition EDITOR_MAX_BYTES : nat := 12 * 1024.

Record TextEditor := mk_text {
  t_bytes : list Z;
  t_cursor : nat;
  t_dirty : bool;
}.

(** [b'\n']. *)
Definition newline : Z := 10%Z.

(** [core::str::from_utf8(&self.bytes).expect(...)]. *)
Definition as_text (e : TextEditor) : outcome Empty_set (list Z) :=
  if valid_utf8 (t_bytes e) then Ok (t_bytes e) else Panic.

Definition text_insert (byte : Z) : Method TextEditor bool :=
  e ← get;
  if EDITOR_MAX_BYTES <=? length (t_bytes e) then mret false
  else if t_cursor e <=? length (t_bytes e) then
    _ ← put (mk_text (take (t_cursor e) (t_bytes e) ++ byte :: drop (t_cursor e) (t_bytes e)) (t_cursor e + 1) true);
    mret true
  else panic.

(** The loops of [previous_boundary] and [next_boundary]. *)
Fixpoint back_to_boundary (text : list Z) (position : nat) : outcome Empty_set nat :=
  if is_char_boundary text position then Ok position
  else match position with
       | O => Panic
       | S position => back_to_boundary text position
       end.

Definition previous_boundary (e : TextEditor) : outcome Empty_set nat :=
  text ← as_text e;
  back_to_boundary text (t_cursor e - 1).

Definition next_boundary (e : TextEditor) : outcome Empty_set nat :=
  text ← as_text e;
  expect (while_loop (Z.of_nat (length text) + 1)
            (fun position => if is_char_boundary text position then inr position else inl (position + 1))
            (Nat.min (t_cursor e + 1) (length (t_bytes e)))).

(** [self.bytes.drain(a..b)]. *)
Definition drain {A} (l : list A) (a b : nat) : outcome Empty_set (list A) :=
  if (a <=? b) && (b <=? length l) then Ok (take a l ++ drop b l) else Panic.

Definition text_backspace : Method TextEditor bool :=
  e ← get;
  if t_cursor e =? 0 then mret false
  else
    previous ← lift (previous_boundary e);
    l ← lift (drain (t_bytes e) previous (t_cursor e));
    _ ← put (mk_text l previous true);
    mret true.

Definition text_delete : Method TextEditor bool :=
  e ← get;
  if t_cursor e =? length (t_bytes e) then mret false
  else
    next ← lift (next_boundary e);
    l ← lift (drain (t_bytes e) (t_cursor e) next);
    _ ← put (mk_text l (t_cursor e) true);
    mret true.

Definition set_cursor (c : nat) (e : TextEditor) : TextEditor := mk_text (t_bytes e) c (t_dirty e).

Definition text_left : Method TextEditor bool :=
  e ← get;
  if t_cursor e =? 0 then mret false
  else c ← lift (previous_boundary e); _ ← put (set_cursor c e); mret true.

Definition text_right : Method TextEditor bool :=
  e ← get;
  if t_cursor e =? length (t_bytes e) then mret false
  else c ← lift (next_boundary e); _ ← put (set_cursor c e); mret true.

Definition move_line_boundary (to_end : bool) : Method TextEditor bool :=
  e ← get;
  if t_cursor e <=? length (t_bytes e) then
    let target :=
      if to_end then
        match position (Z.eqb newline) (drop (t_cursor e) (t_bytes e)) with
        | Some offset => t_cursor e + offset
        | None => length (t_bytes e)
        end
      else
        match rposition (Z.eqb newline) (take (t_cursor e) (t_bytes e)) with
        | Some offset => offset + 1
        | None => 0
        end in
    _ ← put (set_cursor target e);
    mret (negb (target =? t_cursor e))
  else panic.

(** [char_indices().nth(n)] without the character. *)
Definition char_index (cs : list (list Z)) (n : nat) : option nat :=
  if n <? length cs then Some (length (mjoin (take n cs))) else None.

Definition not_newline (c : list Z) : bool := negb (bool_decide (c = [newline])).

Definition vertical_cursor_target (text : list Z) (cursor : nat) (down : bool) : outcome Empty_set (option nat) :=
  head ← str_to text cursor;
  let column := length (take_while not_newline (reverse (chars head))) in
  let current_start := match rposition (Z.eqb newline) head with Some offset => offset + 1 | None => 0 end in
  target_start ←
    (if down then
       tail ← str_from text cursor;
       Ok (match position (Z.eqb newline) tail with Some offset => Some (cursor + offset + 1) | None => None end)
     else if 0 <? current_start then
       above ← str_to text (current_start - 1);
       Ok (Some (match rposition (Z.eqb newline) above with Some offset => offset + 1 | None => 0 end))
     else Ok None);
  match target_start with
  | None => Ok None
  | Some target_start =>
      tail ← str_from text target_start;
      let target_end := match position (Z.eqb newline) tail with
                        | Some offset => target_start + offset
                        | None => length text
                        end in
      upto ← str_to text target_end;
      line ← str_from upto target_start;
      Ok (Some (match char_index (chars line) column with
                | Some offset => target_start + offset
                | None => target_end
                end))
  end.

Definition move_vertical (down : bool) : Method TextEditor bool :=
  e ← get;
  text ← lift (as_text e);
  target ← lift (vertical_cursor_target text (t_cursor e) down);
  match target with
  | None => mret false
  | Some target => _ ← put (set_cursor target e); mret (negb (target =? t_cursor e))
  end.

(** The [for] loop of [move_page]. *)
Fixpoint move_page_rounds (n : nat) (down moved : bool) : Method TextEditor bool :=
  match n with
  | O => mret moved
  | S n =>
      changed ← move_vertical down;
      if changed : bool then move_page_rounds n down true else mret moved
  end.

Definition move_page (down : bool) : Method TextEditor bool := move_page_rounds 12 down false.

(** The keys of [edit_disk_file] that edit the text. *)
Definition edit_key (key : Z) : Method TextEditor bool :=
  if (key =? newline)%Z then text_insert newline
  else if (key =? 0x08)%Z then text_backspace
  else if (key =? KEY_LEFT)%Z then text_left
  else if (key =? KEY_RIGHT)%Z then text_right
  else if (key =? KEY_UP)%Z then move_vertical false
  else if (key =? KEY_DOWN)%Z then move_vertical true
  else if (key =? KEY_PAGE_UP)%Z then move_page false
  else if (key =? KEY_PAGE_DOWN)%Z then move_page true
  else if (key =? KEY_HOME)%Z then move_line_boundary false
  else if (key =? KEY_END)%Z then move_line_boundary true
  else if (key =? KEY_DELETE)%Z then text_delete
  else if ((0x20 <=? key) && (key <=? 0x7e))%Z then text_insert key
  else mret false.

Fixpoint edit_keys (keys : list Z) : Method TextEditor unit :=
  match keys with
  | [] => mret tt
  | key :: keys => _ ← edit_key key; edit_keys keys
  end.

(** ** Reference: characters before and after the cursor *)

Record Page := mk_page {
  p_before : list (list Z);
  p_after : list (list Z);
  p_dirty : bool;
}.

Definition page_text (p : Page) : list (list Z) := p_before p ++ p_after p.

(** The lines of a text. *)
Fixpoint lines (cs : list (list Z)) : list (list (list Z)) :=
  match cs with
  | [] => [[]]
  | c :: cs =>
      if not_newline c
      then match lines cs with l :: ls => (c :: l) :: ls | [] => [[c]] end
      else [] :: lines cs
  end.

(** The line and the column of the cursor, from 0. *)
Definition row_of (bs : list (list Z)) : nat := count (fun c => negb (not_newline c)) bs.
Definition column_of (bs : list (list Z)) : nat := length (default [] (last (lines bs))).

(** What is before a place of a text. *)
Definition place (ls : list (list (list Z))) (row col : nat) : list (list Z) :=
  mjoin ((fun l => l ++ [[newline]]) <$> take row ls) ++ take col (default [] (ls !! row)).

Definition goto (row col : nat) (p : Page) : Page :=
  let b := place (lines (page_text p)) row col in
  mk_page b (drop (length b) (page_text p)) (p_dirty p).

Definition page_vertical (down : bool) (p : Page) : Page :=
  let row := row_of (p_before p) in
  if down then if row + 1 <? length (lines (page_text p)) then goto (row + 1) (column_of (p_before p)) p else p
  else if 0 <? row then goto (row - 1) (column_of (p_before p)) p else p.

Definition page_insert (byte : Z) (p : Page) : Page :=
  if EDITOR_MAX_BYTES <=? length (mjoin (page_text p)) then p
  else mk_page (p_before p ++ [[byte]]) (p_after p) true.

Definition page_key (key : Z) (p : Page) : Page :=
  let line := default [] (lines (page_text p) !! row_of (p_before p)) in
  if (key =? newline)%Z then page_insert newline p
  else if (key =? 0x08)%Z then
    match last (p_before p) with
    | None => p
    | Some _ => mk_page (take (length (p_before p) - 1) (p_before p)) (p_after p) true
    end
  else if (key =? KEY_LEFT)%Z then
    match last (p_before p) with
    | None => p
    | Some c => mk_page (take (length (p_before p) - 1) (p_before p)) (c :: p_after p) (p_dirty p)
    end
  else if (key =? KEY_RIGHT)%Z then
    match p_after p with [] => p | c :: ds => mk_page (p_before p ++ [c]) ds (p_dirty p) end
  else if (key =? KEY_UP)%Z then page_vertical false p
  else if (key =? KEY_DOWN)%Z then page_vertical true p
  else if (key =? KEY_PAGE_UP)%Z then Nat.iter 12 (page_vertical false) p
  else if (key =? KEY_PAGE_DOWN)%Z then Nat.iter 12 (page_vertical true) p
  else if (key =? KEY_HOME)%Z then goto (row_of (p_before p)) 0 p
  else if (key =? KEY_END)%Z then goto (row_of (p_before p)) (length line) p
  else if (key =? KEY_DELETE)%Z then
    match p_after p with [] => p | _ :: ds => mk_page (p_before p) ds true end
  else if ((0x20 <=? key) && (key <=? 0x7e))%Z then page_insert key p
  else p.

(** ** Lines *)

Definition no_newline (cs : list (list Z)) : Prop := Forall (fun c => not_newline c = true) cs.

(** Where a line may start, and where it may end. *)
Definition starts (q : list (list Z)) : Prop := q = [] \/ exists q', q = q' ++ [[newline]].
Definition ends (r : list (list Z)) : Prop := r = [] \/ exists r', r = [newline] :: r'.

Lemma not_newline_newline : not_newline [newline] = false.
Proof. done. Qed.

Lemma not_newline_ne c : not_newline c = false -> c = [newline].
Proof. unfold not_newline. intros H. apply negb_false_iff in H. by apply bool_decide_eq_true in H. Qed.

(** The line a text ends with, and the one it starts with. *)
Lemma last_line cs : exists q l, cs = q ++ l /\ no_newline l /\ starts q.
Proof.
  induction cs as [|c cs IH] using rev_ind; [exists [], []; split_and!; [done|by apply Forall_nil|by left]|].
  destruct (not_newline c) eqn:Hc.
  - destruct IH as (q & l & -> & Hl & Hq). exists q, (l ++ [c]). rewrite (assoc_L (++)). split_and!; [done| |done].
    apply Forall_app. split; [done|by apply Forall_singleton].
  - apply not_newline_ne in Hc as ->. exists (cs ++ [[newline]]), []. rewrite (right_id_L [] (++)).
    split_and!; [done|by apply Forall_nil|]. right. by eexists.
Qed.

Lemma first_line cs : exists l r, cs = l ++ r /\ no_newline l /\ ends r.
Proof.
  induction cs as [|c cs (l & r & -> & Hl & Hr)]; [exists [], []; split_and!; [done|by apply Forall_nil|by left]|].
  destruct (not_newline c) eqn:Hc; [exists (c :: l), r; split_and!; [done|by apply Forall_cons|done]|].
  apply not_newline_ne in Hc as ->. exists [], ([newline] :: l ++ r).
  split_and!; [done|by apply Forall_nil|]. right. by eexists.
Qed.

Lemma lines_ne cs : exists l ls, lines cs = l :: ls.
Proof.
  destruct cs as [|c cs]; [by do 2 eexists|]. cbn. destruct (not_newline c); [|by do 2 eexists].
  destruct (lines cs); by do 2 eexists.
Qed.

Lemma lines_newline p r : lines (p ++ [newline] :: r) = lines p ++ lines r.
Proof.
  induction p as [|c p IH]; [done|]. cbn. rewrite IH. destruct (not_newline c); [|done].
  destruct (lines_ne p) as (l & ls & ->). done.
Qed.

Lemma lines_one l : no_newline l -> lines l = [l].
Proof. induction 1 as [|c l Hc _ IH]; [done|]. cbn. by rewrite Hc, IH. Qed.

Lemma lines_prefix l r : no_newline l -> ends r -> exists ls, lines (l ++ r) = l :: ls.
Proof.
  intros Hl [->|[r' ->]]; [rewrite (right_id_L [] (++)), lines_one by done; by eexists|].
  rewrite lines_newline, lines_one by done. by eexists.
Qed.

Lemma row_app a b : row_of (a ++ b) = row_of a + row_of b.
Proof. apply count_app. Qed.

Lemma row_none l : no_newline l -> row_of l = 0.
Proof. induction 1 as [|c l Hc _ IH]; [done|]. unfold row_of in *. cbn. by rewrite Hc, IH. Qed.

Lemma length_lines cs : length (lines cs) = row_of cs + 1.
Proof.
  induction cs as [|c cs IH]; [done|]. unfold row_of in *. cbn. destruct (not_newline c); cbn.
  - destruct (lines cs) eqn:E; cbn in *; lia.
  - lia.
Qed.

Lemma join_lines q : mjoin ((fun l => l ++ [[newline]]) <$> lines q) = q ++ [[newline]].
Proof.
  induction q as [|c q IH]; [done|]. cbn. destruct (not_newline c) eqn:Hc.
  - destruct (lines_ne q) as (l & ls & Hl). rewrite Hl in *. cbn in *. by rewrite IH.
  - apply not_newline_ne in Hc as ->. exact (f_equal (cons [newline]) IH).
Qed.

(** The line that starts after [q]. *)
Lemma place_spec q l r col : starts q -> no_newline l -> ends r ->
  lines (q ++ l ++ r) !! row_of q = Some l /\ place (lines (q ++ l ++ r)) (row_of q) col = q ++ take col l.
Proof.
  intros Hq Hl Hr. destruct (lines_prefix l r Hl Hr) as [ls Hls]. unfold place.
  destruct Hq as [->|[q' ->]].
  - cbn [app]. change (row_of []) with 0. by rewrite Hls.
  - rewrite <-(assoc_L (++) q'). cbn [app]. rewrite lines_newline, Hls.
    assert (row_of (q' ++ [[newline]]) = length (lines q')) as -> by (rewrite row_app, length_lines; done).
    rewrite list_lookup_middle by done. cbn [default]. by rewrite take_app_length, join_lines.
Qed.

(** ** Newlines in the bytes *)

Lemma char_newline c : utf8_char c = true -> not_newline c = true -> Forall (fun b => Z.eqb newline b = false) c.
Proof.
  intros Hc Hn. destruct (utf8_char_shape c Hc) as (b & k & -> & Hb & Hk).
  assert (Forall (fun b => Z.eqb newline b = false) k) as Hk'.
  { eapply Forall_impl; [exact Hk|]. intros x Hx. apply Z.eqb_neq. by intros <-. }
  apply Forall_cons. split; [|done]. apply Z.eqb_neq. intros <-. destruct k as [|b1 k]; [done|]. clear -Hc.
  destruct k as [|b2 [|b3 [|]]]; done.
Qed.

Lemma text_newline l : is_text l -> no_newline l -> Forall (fun b => Z.eqb newline b = false) (mjoin l).
Proof.
  induction 1 as [|c l Hc _ IH]; intros Hn; [by apply Forall_nil|]. apply Forall_cons in Hn as [Hn Hl].
  cbn. apply Forall_app. split; [by apply char_newline|by apply IH].
Qed.

(** The byte where the last line starts, and where the first one ends. *)
Definition line_start (head : list Z) : nat :=
  match rposition (Z.eqb newline) head with Some offset => offset + 1 | None => 0 end.

Lemma line_start_spec q l : is_text (q ++ l) -> starts q -> no_newline l -> line_start (mjoin (q ++ l)) = length (mjoin q).
Proof.
  intros [Hq Hl]%is_text_app [->|[q' ->]] Hn; unfold line_start.
  - cbn [app]. by rewrite rposition_none by (by apply text_newline).
  - rewrite <-(assoc_L (++) q'), (join_app q' ([[newline]] ++ l)), (join_app q' [[newline]]). change (mjoin ([[newline]] ++ l)) with (newline :: mjoin l).
    rewrite rposition_app by (done || by apply text_newline). by rewrite length_app.
Qed.

Lemma take_while_reverse q l : starts q -> no_newline l ->
  take_while not_newline (reverse (q ++ l)) = reverse l.
Proof.
  intros Hq Hl. rewrite reverse_app.
  apply take_while_all; [by apply Forall_reverse|]. destruct Hq as [->|[q' ->]]; [done|]. by rewrite reverse_app.
Qed.

Lemma column_spec q l : starts q -> no_newline l -> column_of (q ++ l) = length l.
Proof.
  intros Hq Hl. unfold column_of. destruct Hq as [->|[q' ->]]; [cbn [app]; by rewrite lines_one|].
  rewrite <-(assoc_L (++) q'). cbn [app]. by rewrite lines_newline, (lines_one l Hl), last_snoc.
Qed.

Lemma line_end_spec l r : is_text (l ++ r) -> no_newline l -> ends r ->
  position (Z.eqb newline) (mjoin (l ++ r)) = if bool_decide (r = []) then None else Some (length (mjoin l)).
Proof.
  intros [Hl Hr]%is_text_app Hn [->|[r' ->]].
  - rewrite (right_id_L [] (++)), bool_decide_eq_true_2 by done. by apply position_none, text_newline.
  - rewrite bool_decide_eq_false_2 by done. rewrite join_app. change (mjoin ([newline] :: r')) with (newline :: mjoin r').
    apply position_app; [by apply text_newline|done].
Qed.

(** ** The cursor *)

Record page_at (p : Page) (e : TextEditor) : Prop := {
  pa_bytes : t_bytes e = mjoin (page_text p);
  pa_cursor : t_cursor e = length (mjoin (p_before p));
  pa_dirty : t_dirty e = p_dirty p;
  pa_text : is_text (page_text p);
}.

Lemma as_text_spec p e : page_at p e -> as_text e = Ok (mjoin (page_text p)).
Proof. intros [Hb _ _ Ht]. unfold as_text. by rewrite Hb, text_valid. Qed.

(** The target of a vertical movement: the column of the line after [q], or its end. *)
Lemma target_spec q l r column : is_text (q ++ l ++ r) -> no_newline l -> ends r ->
  let text := mjoin (q ++ l ++ r) in
  let target_start := length (mjoin q) in
  (tail ← str_from (E := Empty_set) text target_start;
   let target_end := match position (Z.eqb newline) tail with
                     | Some offset => target_start + offset
                     | None => length text
                     end in
   upto ← str_to text target_end;
   line ← str_from upto target_start;
   Ok (Some (match char_index (chars line) column with
             | Some offset => target_start + offset
             | None => target_end
             end))) = Ok (Some (length (mjoin (q ++ take column l)))).
Proof.
  intros Ht Hl Hr text target_start. pose proof Ht as [Hq Hlr]%is_text_app. pose proof Hlr as [Htl Htr]%is_text_app.
  unfold text, target_start. rewrite str_from_text by done. cbn [mbind outcome_bind].
  rewrite line_end_spec by done.
  assert (match (if bool_decide (r = []) then None else Some (length (mjoin l))) with
    | Some offset => length (mjoin q) + offset | None => length (mjoin (q ++ l ++ r)) end = length (mjoin (q ++ l))) as ->.
  { destruct (bool_decide_reflect (r = [])) as [->|]; [by rewrite (right_id_L [] (++))|]. by rewrite join_app, length_app. }
  rewrite (assoc_L (++)), str_to_text by done. cbn [mbind outcome_bind]. rewrite str_from_text by done.
  cbn [mbind outcome_bind]. rewrite chars_text by done. unfold char_index. rewrite !join_app, !length_app.
  destruct (Nat.ltb_spec column (length l)); [done|]. by rewrite take_ge.
Qed.

Lemma str_to_before p e : page_at p e -> str_to (E := Empty_set) (mjoin (page_text p)) (t_cursor e) = Ok (mjoin (p_before p)).
Proof. intros [_ -> _ Ht]. apply is_text_app in Ht as [_ Ht]. by apply str_to_text. Qed.

Lemma str_from_after p e : page_at p e -> str_from (E := Empty_set) (mjoin (page_text p)) (t_cursor e) = Ok (mjoin (p_after p)).
Proof. intros [_ -> _ Ht]. apply is_text_app in Ht as [_ Ht]. by apply str_from_text. Qed.

(** A place of the same text. *)
Lemma goto_spec p e row col q l r : page_at p e -> page_text p = q ++ l ++ r ->
  starts q -> no_newline l -> ends r -> row = row_of q ->
  page_at (goto row col p) (set_cursor (length (mjoin (q ++ take col l))) e).
Proof.
  intros [Hb Hc Hd Ht] Htext Hq Hl Hr ->. unfold goto. rewrite Htext in *.
  destruct (place_spec q l r col Hq Hl Hr) as [_ ->].
  assert ((q ++ take col l) ++ drop (length (q ++ take col l)) (q ++ l ++ r) = q ++ l ++ r) as Hsame.
  { rewrite length_app, drop_app_ge by lia. replace (length q + length (take col l) - length q) with (length (take col l)) by lia.
    rewrite <-(assoc_L (++)). f_equal. rewrite drop_app_le by (rewrite length_take; lia).
    rewrite length_take, (assoc_L (++)). f_equal. destruct (Nat.le_ge_cases col (length l)).
    - rewrite Nat.min_l by done. apply take_drop.
    - rewrite Nat.min_r, drop_all, take_ge by done. apply (right_id_L [] (++)). }
  constructor; unfold page_text in *; cbn [p_before p_after p_dirty set_cursor t_bytes t_cursor t_dirty]; rewrite ?Hsame; done.
Qed.

Lemma vertical_target down p e : page_at p e ->
  exists o, vertical_cursor_target (mjoin (page_text p)) (t_cursor e) down = Ok o /\
    match o with
    | Some target => page_at (page_vertical down p) (set_cursor target e)
    | None => page_vertical down p = p
    end.
Proof.
  intros Hp. pose proof (pa_text _ _ Hp) as Ht. pose proof Ht as [Htb Hta]%is_text_app.
  destruct (last_line (p_before p)) as (q & l & Hb & Hl & Hq).
  unfold vertical_cursor_target. rewrite (str_to_before p) by done. cbn [mbind outcome_bind].
  rewrite chars_text by done. fold (line_start (mjoin (p_before p))). unfold page_vertical. rewrite length_lines.
  rewrite Hb in Htb. pose proof (row_none l Hl) as Hrow.
  rewrite Hb, (take_while_reverse q l), length_reverse, (line_start_spec q l), (column_spec q l), row_app, Hrow, Nat.add_0_r by done.
  destruct down.
  - rewrite (str_from_after p) by done. cbn [mbind outcome_bind]. rewrite (pa_cursor _ _ Hp).
    destruct (first_line (p_after p)) as (l1 & r1 & Ha & Hl1 & Hr1). rewrite Ha in Hta |- *. rewrite line_end_spec by done.
    assert (row_of (page_text p) = row_of q + row_of r1) as Hrows.
    { unfold page_text. rewrite Ha, Hb, !row_app, Hrow, (row_none l1 Hl1). lia. }
    rewrite Hrows. destruct Hr1 as [->|[r2 ->]].
    { rewrite bool_decide_eq_true_2 by done. cbn [mbind outcome_bind]. eexists. split; [done|].
      rewrite (proj2 (Nat.ltb_ge _ _)) by (change (row_of []) with 0; lia). done. }
    rewrite bool_decide_eq_false_2 by done. cbn [mbind outcome_bind].
    destruct (first_line r2) as (l2 & r3 & -> & Hl2 & Hr3). set (q2 := p_before p ++ l1 ++ [[newline]]).
    assert (page_text p = q2 ++ l2 ++ r3) as Htext.
    { unfold page_text, q2. rewrite Ha, <-!(assoc_L (++)). done. }
    assert (row_of q2 = row_of q + 1) as Hq2 by (unfold q2; rewrite Hb, !row_app, Hrow, (row_none l1 Hl1), Nat.add_0_r; done).
    replace (length (mjoin (p_before p)) + length (mjoin l1) + 1) with (length (mjoin q2))
      by (unfold q2; rewrite !join_app, !length_app; cbn; lia).
    rewrite Htext in Ht |- *. rewrite target_spec by done. eexists. split; [done|].
    rewrite (proj2 (Nat.ltb_lt _ _)) by (change (row_of ([newline] :: l2 ++ r3)) with (S (row_of (l2 ++ r3))); lia).
    eapply (goto_spec p e _ _ q2 l2 r3); [done|done| |done|done|done]. right. exists (p_before p ++ l1). unfold q2. by rewrite (assoc_L (++)).
  - destruct Hq as [->|[q' ->]]; [by eexists|].
    assert (length (mjoin (q' ++ [[newline]])) = length (mjoin q') + 1) as Hlen by (rewrite join_app, length_app; done).
    rewrite Hlen, (proj2 (Nat.ltb_lt _ _)) by lia. replace (length (mjoin q') + 1 - 1) with (length (mjoin q')) by lia.
    assert (page_text p = q' ++ [newline] :: l ++ p_after p) as Htext.
    { unfold page_text. rewrite Hb, <-!(assoc_L (++)). done. }
    rewrite Htext in Ht |- *. pose proof Ht as [Htq Htr]%is_text_app. rewrite str_to_text by done. cbn [mbind outcome_bind].
    destruct (last_line q') as (q2 & l2 & -> & Hl2 & Hq2). fold (line_start (mjoin (q2 ++ l2))).
    rewrite line_start_spec by done. rewrite <-(assoc_L (++)) in Ht, Htext |- *.
    assert (ends ([newline] :: l ++ p_after p)) as Hends by (right; by eexists).
    rewrite target_spec by done. eexists. split; [done|].
    assert (row_of ((q2 ++ l2) ++ [[newline]]) = row_of q2 + 1) as -> by (rewrite !row_app, (row_none l2 Hl2); change (row_of [[newline]]) with 1; lia).
    rewrite (proj2 (Nat.ltb_lt _ _)) by lia. eapply (goto_spec p e _ _ q2 l2); [done..|lia].
Qed.

Lemma vertical_spec down p e : page_at p e ->
  exists e' b, move_vertical down e = (e', Ok b) /\ page_at (page_vertical down p) e' /\ (b = false -> e' = e).
Proof.
  intros Hp. unfold move_vertical, mbind, op_bind, get, lift. rewrite (as_text_spec p) by done.
  destruct (vertical_target down p e Hp) as (o & -> & Ho). destruct o as [target|].
  - do 2 eexists. split; [done|]. split; [done|]. intros Hsame%negb_false_iff%Nat.eqb_eq. rewrite Hsame. by destruct e.
  - do 2 eexists. split; [done|]. by rewrite Ho.
Qed.

(** ** One character to the left and to the right *)

Lemma inside_char bs c ds i : utf8_char c = true -> 0 < i < length c ->
  is_char_boundary (mjoin (bs ++ c :: ds)) (length (mjoin bs) + i) = false.
Proof.
  intros Hc Hi. destruct (utf8_char_shape c Hc) as (b & k & -> & _ & Hk). unfold is_char_boundary.
  rewrite join_app, lookup_app_r by lia. replace (length (mjoin bs) + i - length (mjoin bs)) with i by lia.
  change (mjoin ((b :: k) :: ds)) with ((b :: k) ++ mjoin ds). rewrite lookup_app_l by lia. destruct i as [|i]; [lia|].
  cbn in Hi. change ((b :: k) !! S i) with (k !! i). destruct (lookup_lt_is_Some_2 k i) as [x Hx]; [lia|]. rewrite Hx.
  apply (Forall_lookup_1 _ _ _ _ Hk) in Hx. by rewrite Hx.
Qed.

Lemma char_length c : utf8_char c = true -> 0 < length c.
Proof. intros Hc. destruct (utf8_char_shape c Hc) as (b & k & -> & _). cbn. lia. Qed.

Lemma back_spec bs c ds i : is_text (bs ++ c :: ds) -> i < length c ->
  back_to_boundary (mjoin (bs ++ c :: ds)) (length (mjoin bs) + i) = Ok (length (mjoin bs)).
Proof.
  intros [Hbs Hcs]%is_text_app Hi. assert (utf8_char c = true) as Hc by (by apply Forall_cons in Hcs as [? _]).
  induction i as [|i IH].
  - rewrite Nat.add_0_r. pose proof (boundary_text bs (c :: ds) Hcs) as Hb.
    by destruct (length (mjoin bs)); cbn [back_to_boundary]; rewrite Hb.
  - rewrite Nat.add_succ_r. cbn [back_to_boundary]. rewrite <-Nat.add_succ_r, inside_char by (done || lia). apply IH. lia.
Qed.

Lemma previous_spec p e bs c : page_at p e -> p_before p = bs ++ [c] -> previous_boundary e = Ok (length (mjoin bs)).
Proof.
  intros Hp Hb. unfold previous_boundary. rewrite (as_text_spec p) by done. cbn [mbind outcome_bind].
  pose proof (pa_text _ _ Hp) as Ht. unfold page_text in *. rewrite (pa_cursor _ _ Hp), Hb.
  rewrite Hb, <-(assoc_L (++)) in Ht. cbn [app] in Ht. rewrite <-(assoc_L (++) bs). cbn [app].
  assert (utf8_char c = true) as Hc by (by apply is_text_app in Ht as [_ [? _]%Forall_cons]). pose proof (char_length c Hc).
  replace (length (mjoin (bs ++ [c])) - 1) with (length (mjoin bs) + (length c - 1))
    by (rewrite join_app, length_app; cbn; rewrite (right_id_L [] (++)); lia).
  apply back_spec; [done|lia].
Qed.

Lemma next_spec p e c ds : page_at p e -> p_after p = c :: ds -> next_boundary e = Ok (length (mjoin (p_before p ++ [c]))).
Proof.
  intros Hp Ha. unfold next_boundary. rewrite (as_text_spec p) by done. cbn [mbind outcome_bind].
  pose proof (pa_text _ _ Hp) as Ht. rewrite (pa_bytes _ _ Hp), (pa_cursor _ _ Hp). unfold page_text in *. rewrite Ha in *.
  set (bs := p_before p) in *. assert (utf8_char c = true) as Hc by (by apply is_text_app in Ht as [_ [? _]%Forall_cons]).
  pose proof (char_length c Hc) as Hlen. assert (length (mjoin (bs ++ [c])) = length (mjoin bs) + length c) as Hend
    by (rewrite join_app, length_app; cbn; by rewrite (right_id_L [] (++))).
  assert (length (mjoin (bs ++ c :: ds)) = length (mjoin bs) + length c + length (mjoin ds)) as Hall
    by (rewrite join_app, length_app; change (mjoin (c :: ds)) with (c ++ mjoin ds); rewrite length_app; lia).
  rewrite Nat.min_l by lia. rewrite Hend.
  edestruct (while_loop_ends (fun i => length (mjoin bs) < i <= length (mjoin bs) + length c)
    (fun i => Z.of_nat (length (mjoin bs) + length c - i)) (fun r => r = length (mjoin bs) + length c)) as (r & -> & Hr);
    [| | |by rewrite Hr]; cbn beta; [|lia..].
  intros i Hi. destruct (is_char_boundary (mjoin (bs ++ c :: ds)) i) eqn:Hbd.
  - destruct (decide (i = length (mjoin bs) + length c)) as [|Hne]; [done|].
    pose proof (inside_char bs c ds (i - length (mjoin bs)) Hc) as Hin.
    replace (length (mjoin bs) + (i - length (mjoin bs))) with i in Hin by lia. rewrite Hin in Hbd by lia. done.
  - assert (i <> length (mjoin bs) + length c); [|lia]. intros ->. rewrite <-Hend in Hbd.
    change (c :: ds) with ([c] ++ ds) in Hbd. rewrite (assoc_L (++)), boundary_text in Hbd; [done|].
    by apply is_text_app in Ht as [_ [_ ?]%Forall_cons].
Qed.

(** ** The keys *)

Lemma page_at_intro b a d n : is_text (b ++ a) -> n = length (mjoin b) -> page_at (mk_page b a d) (mk_text (mjoin (b ++ a)) n d).
Proof. intros Ht ->. by constructor. Qed.

Lemma before_cases p : p_before p = [] \/ exists bs c, p_before p = bs ++ [c].
Proof. destruct (p_before p) as [|c bs] using rev_ind; [by left|right; by do 2 eexists]. Qed.

Lemma cursor_start p e : page_at p e -> t_cursor e = 0 <-> p_before p = [].
Proof.
  intros [_ Hc _ Ht]. rewrite Hc. destruct (p_before p) as [|c bs] eqn:Hb; [done|].
  unfold page_text in Ht. rewrite Hb in Ht. apply Forall_cons in Ht as [Hc1 _]. pose proof (char_length c Hc1).
  change (mjoin (c :: bs)) with (c ++ mjoin bs). rewrite length_app. split; [lia|done].
Qed.

Lemma cursor_end p e : page_at p e -> t_cursor e = length (t_bytes e) <-> p_after p = [].
Proof.
  intros [-> -> _ Ht]. unfold page_text in *. rewrite join_app, length_app.
  destruct (p_after p) as [|c ds]; [cbn; split; [done|lia]|]. apply is_text_app in Ht as [_ [Hc1 _]%Forall_cons]. pose proof (char_length c Hc1).
  change (mjoin (c :: ds)) with (c ++ mjoin ds). rewrite length_app. split; [lia|done].
Qed.

Lemma insert_text_spec p e byte : page_at p e -> (0 <= byte <= 127)%Z ->
  exists e' b, text_insert byte e = (e', Ok b) /\ page_at (page_insert byte p) e'.
Proof.
  intros Hp Hbyte. unfold text_insert, page_insert, mbind, op_bind, get, put. rewrite (pa_bytes _ _ Hp).
  case_match; [by do 2 eexists|]. rewrite (pa_cursor _ _ Hp). unfold page_text. rewrite join_app.
  rewrite (proj2 (Nat.leb_le _ _)) by (rewrite length_app; lia). rewrite take_app_length, drop_app_length.
  do 2 eexists. split; [done|]. pose proof (pa_text _ _ Hp) as [Hb Ha]%is_text_app.
  replace (mjoin (p_before p) ++ byte :: mjoin (p_after p)) with (mjoin ((p_before p ++ [[byte]]) ++ p_after p))
    by (rewrite !join_app, <-(assoc_L (++)); done).
  apply page_at_intro; [|rewrite join_app, length_app; done].
  rewrite !is_text_app. split_and!; [done| |done]. apply Forall_singleton. cbn. unfold in_range. apply andb_true_iff. lia.
Qed.

Lemma drain_spec {A} (p m r : list A) : drain (p ++ m ++ r) (length p) (length p + length m) = Ok (p ++ r).
Proof.
  unfold drain. rewrite !(proj2 (Nat.leb_le _ _)) by (rewrite ?length_app; lia). cbn [andb].
  rewrite take_app_length, drop_app_ge by lia. replace (length p + length m - length p) with (length m) by lia.
  by rewrite drop_app_length.
Qed.

Lemma backspace_text_spec p e : page_at p e ->
  exists e' b, text_backspace e = (e', Ok b) /\ page_at (page_key 0x08 p) e'.
Proof.
  intros Hp. change (page_key 0x08 p) with
    (match last (p_before p) with None => p | Some _ => mk_page (take (length (p_before p) - 1) (p_before p)) (p_after p) true end).
  unfold text_backspace, mbind, op_bind, get, put, lift. pose proof (cursor_start p e Hp) as Hstart.
  destruct (before_cases p) as [Hb|(bs & c & Hb)].
  { rewrite (proj2 (Nat.eqb_eq _ _)) by (by apply Hstart). rewrite Hb. by do 2 eexists. }
  rewrite (proj2 (Nat.eqb_neq _ _)) by (rewrite Hstart, Hb; by destruct bs). rewrite (previous_spec p e bs c Hp Hb).
  rewrite Hb, last_snoc, length_app. cbn [length]. replace (length bs + 1 - 1) with (length bs) by lia. rewrite take_app_length.
  rewrite (pa_bytes _ _ Hp), (pa_cursor _ _ Hp). pose proof (pa_text _ _ Hp) as Ht. unfold page_text in *.
  rewrite Hb, <-(assoc_L (++)) in Ht |- *. rewrite !join_app, (length_app (mjoin bs)), drain_spec, <-join_app.
  do 2 eexists. split; [done|]. apply is_text_app in Ht as [Hbs [_ Hta]%is_text_app].
  apply page_at_intro; [by apply is_text_app|done].
Qed.

Lemma delete_text_spec p e : page_at p e ->
  exists e' b, text_delete e = (e', Ok b) /\ page_at (page_key KEY_DELETE p) e'.
Proof.
  intros Hp. change (page_key KEY_DELETE p) with
    (match p_after p with [] => p | _ :: ds => mk_page (p_before p) ds true end).
  unfold text_delete, mbind, op_bind, get, put, lift. pose proof (cursor_end p e Hp) as Hend.
  destruct (p_after p) as [|c ds] eqn:Ha.
  { rewrite (proj2 (Nat.eqb_eq _ _)) by (by apply Hend). by do 2 eexists. }
  rewrite (proj2 (Nat.eqb_neq _ _)) by (by rewrite Hend). rewrite (next_spec p e c ds Hp Ha).
  rewrite (pa_bytes _ _ Hp), (pa_cursor _ _ Hp). pose proof (pa_text _ _ Hp) as Ht. unfold page_text in *.
  rewrite Ha in Ht |- *. change (c :: ds) with ([c] ++ ds) in Ht |- *. rewrite !join_app, length_app, drain_spec, <-join_app.
  do 2 eexists. split; [done|]. apply is_text_app in Ht as [Hbs [_ Hta]%is_text_app].
  apply page_at_intro; [by apply is_text_app|done].
Qed.

Lemma left_text_spec p e : page_at p e -> exists e' b, text_left e = (e', Ok b) /\ page_at (page_key KEY_LEFT p) e'.
Proof.
  intros Hp. change (page_key KEY_LEFT p) with
    (match last (p_before p) with None => p | Some c => mk_page (take (length (p_before p) - 1) (p_before p)) (c :: p_after p) (p_dirty p) end).
  unfold text_left, mbind, op_bind, get, put, lift. pose proof (cursor_start p e Hp) as Hstart.
  destruct (before_cases p) as [Hb|(bs & c & Hb)].
  { rewrite (proj2 (Nat.eqb_eq _ _)) by (by apply Hstart). rewrite Hb. by do 2 eexists. }
  rewrite (proj2 (Nat.eqb_neq _ _)) by (rewrite Hstart, Hb; by destruct bs). rewrite (previous_spec p e bs c Hp Hb).
  rewrite Hb, last_snoc, length_app. cbn [length]. replace (length bs + 1 - 1) with (length bs) by lia. rewrite take_app_length.
  do 2 eexists. split; [done|]. destruct Hp as [Hby Hcu Hdi Ht]. unfold page_text in *. rewrite Hb, <-(assoc_L (++)) in *.
  by constructor.
Qed.

Lemma right_text_spec p e : page_at p e -> exists e' b, text_right e = (e', Ok b) /\ page_at (page_key KEY_RIGHT p) e'.
Proof.
  intros Hp. change (page_key KEY_RIGHT p) with
    (match p_after p with [] => p | c :: ds => mk_page (p_before p ++ [c]) ds (p_dirty p) end).
  unfold text_right, mbind, op_bind, get, put, lift. pose proof (cursor_end p e Hp) as Hend.
  destruct (p_after p) as [|c ds] eqn:Ha.
  { rewrite (proj2 (Nat.eqb_eq _ _)) by (by apply Hend). by do 2 eexists. }
  rewrite (proj2 (Nat.eqb_neq _ _)) by (by rewrite Hend). rewrite (next_spec p e c ds Hp Ha).
  do 2 eexists. split; [done|]. destruct Hp as [Hby Hcu Hdi Ht]. unfold page_text in *. rewrite Ha in *.
  constructor; unfold page_text; cbn; rewrite <-?(assoc_L (++)); done.
Qed.

Lemma boundary_line_spec to_end p e : page_at p e ->
  exists e' b, move_line_boundary to_end e = (e', Ok b) /\
    page_at (page_key (if to_end then KEY_END else KEY_HOME) p) e'.
Proof.
  intros Hp. destruct (last_line (p_before p)) as (q & l & Hb & Hl & Hq).
  destruct (first_line (p_after p)) as (l1 & r & Ha & Hl1 & Hr).
  pose proof (pa_text _ _ Hp) as Ht. pose proof Ht as [Htb Hta]%is_text_app. rewrite Hb in Htb. rewrite Ha in Hta.
  assert (page_text p = q ++ (l ++ l1) ++ r) as Htext by (unfold page_text; rewrite Hb, Ha, <-!(assoc_L (++)); done).
  assert (no_newline (l ++ l1)) as Hll by (by apply Forall_app).
  assert (row_of (p_before p) = row_of q) as Hrow by (rewrite Hb, row_app, (row_none l Hl); lia).
  assert (lines (page_text p) !! row_of (p_before p) = Some (l ++ l1)) as Hline
    by (rewrite Htext, Hrow; by apply (place_spec q (l ++ l1) r 0)).
  unfold move_line_boundary, mbind, op_bind, get, put. assert (t_bytes e = mjoin (p_before p) ++ mjoin (p_after p)) as -> by (rewrite <-join_app; apply Hp).
  rewrite (pa_cursor _ _ Hp).
  rewrite (proj2 (Nat.leb_le _ _)) by (rewrite length_app; lia). rewrite take_app_length, drop_app_length.
  do 2 eexists. split; [done|]. destruct to_end.
  - change (page_key KEY_END p) with (goto (row_of (p_before p)) (length (default [] (lines (page_text p) !! row_of (p_before p)))) p).
    rewrite Hline. cbn [default]. rewrite Ha, line_end_spec by done.
    match goal with |- page_at _ (set_cursor ?n e) => replace n with (length (mjoin (q ++ take (length (l ++ l1)) (l ++ l1)))) end.
    + by eapply (goto_spec p e _ _ q (l ++ l1) r).
    + rewrite take_ge by lia. rewrite (assoc_L (++) q), <-Hb. destruct Hr as [->|[r' ->]].
      * rewrite bool_decide_eq_true_2 by done. rewrite (right_id_L [] (++)). by rewrite join_app.
      * rewrite bool_decide_eq_false_2 by done. by rewrite join_app, length_app.
  - change (page_key KEY_HOME p) with (goto (row_of (p_before p)) 0 p). fold (line_start (mjoin (p_before p))).
    rewrite Hb, line_start_spec by done. rewrite <-Hb.
    replace (length (mjoin q)) with (length (mjoin (q ++ take 0 (l ++ l1)))) by (by rewrite take_0, (right_id_L [] (++))).
    by eapply (goto_spec p e _ _ q (l ++ l1) r).
Qed.

(** A text and a cursor stand for one page. *)
Lemma page_inj p p' e : page_at p e -> page_at p' e -> p = p'.
Proof.
  destruct p as [b a d], p' as [b' a' d']. intros [H1 H2 H3 H4] [H1' H2' H3' H4']. cbn in *.
  assert (b ++ a = b' ++ a') as Heq by (rewrite <-(chars_text (b ++ a)), <-(chars_text (b' ++ a')) by done; congruence).
  assert (length (mjoin b) = length (mjoin b')) as Hlen by congruence.
  assert (b = b') as <-; [|by apply (inj (app b)) in Heq as <-; subst].
  unfold page_text in H4, H4'. cbn in H4, H4'. clear H1 H1' H2 H2'. revert b' a' Heq Hlen H4'.
  induction b as [|c b IH]; intros [|c' b'] a' Heq Hlen H4'; [done| | |].
  - apply Forall_cons in H4' as [Hc _]. pose proof (char_length c' Hc).
    change (mjoin (c' :: b')) with (c' ++ mjoin b') in Hlen. rewrite length_app in Hlen. cbn in Hlen. lia.
  - apply Forall_cons in H4 as [Hc _]. pose proof (char_length c Hc).
    change (mjoin (c :: b)) with (c ++ mjoin b) in Hlen. rewrite length_app in Hlen. cbn in Hlen. lia.
  - cbn in Heq. injection Heq as <- Heq. f_equal. change (mjoin (c :: b)) with (c ++ mjoin b) in Hlen.
    change (mjoin (c :: b')) with (c ++ mjoin b') in Hlen. rewrite !length_app in Hlen.
    apply (IH (proj2 (proj1 (Forall_cons _ _ _) H4)) b' a' Heq); [lia|by apply Forall_cons in H4' as [_ ?]].
Qed.

Lemma page_rounds_spec n down moved p e : page_at p e ->
  exists e' b, move_page_rounds n down moved e = (e', Ok b) /\ page_at (Nat.iter n (page_vertical down) p) e'.
Proof.
  revert p e moved. induction n as [|n IH]; intros p e moved Hp; [by do 2 eexists|].
  cbn [move_page_rounds]. unfold mbind, op_bind. destruct (vertical_spec down p e Hp) as (e1 & b & -> & Hp1 & Hsame).
  rewrite Nat.iter_succ_r. destruct b; [by apply IH|]. specialize (Hsame eq_refl). subst e1.
  rewrite <-(page_inj p (page_vertical down p) e Hp Hp1). do 2 eexists. split; [done|].
  clear IH. induction n as [|n IHn]; [done|]. rewrite Nat.iter_succ_r.
  by rewrite <-(page_inj p (page_vertical down p) e Hp Hp1).
Qed.

Lemma edit_key_spec key p e : page_at p e ->
  exists e' b, edit_key key e = (e', Ok b) /\ page_at (page_key key p) e'.
Proof.
  intros Hp. unfold edit_key.
  repeat lazymatch goal with
  | |- exists e' b, (if (key =? ?k)%Z then _ else _) e = _ /\ _ => destruct (Z.eqb_spec key k) as [->|?]
  end.
  - apply insert_text_spec; [done|unfold newline; lia].
  - by apply backspace_text_spec.
  - by apply left_text_spec.
  - by apply right_text_spec.
  - destruct (vertical_spec false p e Hp) as (e' & b & ? & ? & _). by exists e', b.
  - destruct (vertical_spec true p e Hp) as (e' & b & ? & ? & _). by exists e', b.
  - by apply page_rounds_spec.
  - by apply page_rounds_spec.
  - by apply (boundary_line_spec false).
  - by apply (boundary_line_spec true).
  - by apply delete_text_spec.
  - unfold page_key. rewrite !(proj2 (Z.eqb_neq _ _)) by done.
    destruct ((0x20 <=? key) && (key <=? 0x7e))%Z eqn:Hk; [|by do 2 eexists]. apply insert_text_spec; [done|].
    apply andb_true_iff in Hk. lia.
Qed.

(** The size of the text. *)
Definition fits (e : TextEditor) : Prop := length (t_bytes e) <= EDITOR_MAX_BYTES.

Lemma edit_key_fits key : preserves fits (edit_key key).
Proof.
  assert (forall m, (forall e, t_bytes (m e).1 = t_bytes e) -> preserves (E := Empty_set) (A := bool) fits m) as Hmove
    by (intros m Hm e He; unfold fits; by rewrite Hm).
  assert (forall down e, t_bytes (move_vertical down e).1 = t_bytes e) as Hv.
  { intros down e. unfold move_vertical, mbind, op_bind, get, lift. destruct (as_text e); [|done..].
    destruct (vertical_cursor_target _ _ _) as [[|]| |]; done. }
  assert (forall n down moved e, t_bytes (move_page_rounds n down moved e).1 = t_bytes e) as Hpage.
  { intros n down. induction n as [|n IH]; intros moved e; [done|]. cbn [move_page_rounds]. unfold mbind, op_bind.
    rewrite <-(Hv down e). destruct (move_vertical down e) as [e1 [[|]| |]]; [by rewrite IH|done..]. }
  assert (forall byte, preserves fits (text_insert byte)) as Hins.
  { intros byte e He. unfold text_insert, mbind, op_bind, get, put. case_match; [done|]. bools. case_match; bools; [|done].
    unfold fits in *. cbn [mret op_ret t_bytes fst]. rewrite length_app, length_take. cbn [length]. rewrite length_drop. lia. }
  unfold edit_key. repeat case_match; try apply Hins.
  - intros e He. unfold text_backspace, mbind, op_bind, get, put, lift, drain. repeat (case_match; simplify_eq/=; try done).
    bools. unfold fits in *. cbn [mret op_ret t_bytes fst]. rewrite length_app, length_take, length_drop. lia.
  - apply Hmove. intros e. unfold text_left, mbind, op_bind, get, put, lift. by repeat (case_match; simplify_eq/=; try done).
  - apply Hmove. intros e. unfold text_right, mbind, op_bind, get, put, lift. by repeat (case_match; simplify_eq/=; try done).
  - apply Hmove, Hv.
  - apply Hmove, Hv.
  - apply Hmove, Hpage.
  - apply Hmove, Hpage.
  - apply Hmove. intros e. unfold move_line_boundary, mbind, op_bind, get, put. by repeat (case_match; simplify_eq/=; try done).
  - apply Hmove. intros e. unfold move_line_boundary, mbind, op_bind, get, put. by repeat (case_match; simplify_eq/=; try done).
  - intros e He. unfold text_delete, mbind, op_bind, get, put, lift, drain. repeat (case_match; simplify_eq/=; try done).
    bools. unfold fits in *. cbn [mret op_ret t_bytes fst]. rewrite length_app, length_take, length_drop. lia.
  - by apply Hmove.
Qed.

Lemma edit_keys_spec keys p e : page_at p e -> fits e ->
  exists e', edit_keys keys e = (e', Ok tt) /\ page_at (foldl (fun p key => page_key key p) p keys) e' /\ fits e'.
Proof.
  revert p e. induction keys as [|key keys IH]; intros p e Hp He; [by eexists|]. cbn [edit_keys foldl].
  destruct (edit_key_spec key p e Hp) as (e1 & b & H1 & Hp1). pose proof (edit_key_fits key e He) as He1.
  unfold mbind, op_bind. rewrite H1 in *. by apply IH.
Qed.

(** C19: The editor never panics and edits characters, not bytes: whatever keys arrive, the
    bytes are the encoding of the text that the reference editor has, a list of characters
    before the cursor and one after it, and the cursor is between the two.  So the buffer
    stays valid UTF-8, the cursor on a character boundary and the text within the limit,
    and up, down and the page keys move by lines and keep the column. *)
Theorem text_editing_refines keys contents :
  valid_utf8 contents = true -> length contents <= EDITOR_MAX_BYTES ->
  exists e, edit_keys keys (mk_text contents (length contents) false) = (e, Ok tt) /\
    let p := foldl (fun p key => page_key key p) (mk_page (chars contents) [] false) keys in
    t_bytes e = mjoin (page_text p) /\ t_cursor e = length (mjoin (p_before p)) /\ t_dirty e = p_dirty p /\
    valid_utf8 (t_bytes e) = true /\ is_char_boundary (t_bytes e) (t_cursor e) = true /\
    length (t_bytes e) <= EDITOR_MAX_BYTES.
Proof.
  intros Hv Hl. destruct (valid_text contents Hv) as (cs & Hcs & ->). rewrite chars_text by done.
  destruct (edit_keys_spec keys (mk_page cs [] false) (mk_text (mjoin cs) (length (mjoin cs)) false)) as (e & He & Hp & Hf).
  { constructor; unfold page_text; cbn [p_before p_after]; by rewrite ?(right_id_L [] (++)). }
  { done. }
  exists e. split; [done|]. destruct Hp as [Hb Hc Hd Ht]. split_and!; try done.
  - rewrite Hb. by apply text_valid.
  - rewrite Hb, Hc. apply boundary_text. by apply is_text_app in Ht as [_ ?].
Qed.

(** [a], a newline and an [e] with an acute accent: up, right, backspace. *)
Lemma text_editing_refines_witness :
  exists e, edit_keys [KEY_UP; KEY_RIGHT; 0x08; 65]%Z (mk_text [97; 10; 195; 169]%Z 4 false) = (e, Ok tt) /\
    t_bytes e = [97; 65; 195; 169]%Z /\ t_cursor e = 2.
Proof.
  destruct (text_editing_refines [KEY_UP; KEY_RIGHT; 0x08; 65]%Z [97; 10; 195; 169]%Z) as (e & He & Hb & Hc & _).
  - vm_compute. reflexivity.
  - unfold EDITOR_MAX_BYTES. cbn [length]. lia.
  - exists e. split; [exact He|]. split; [rewrite Hb|rewrite Hc]; vm_compute; reflexivity.
Defined.
