(* ===== verification/ShellParse.v ===== *)
(** * Command lines

    The functions of [shell/mod.rs] that take a command line apart: the command and its
    arguments, numbers, colours, paths relative to the current directory, and the
    redirections of a program. *)

From Stdlib Require Import Ascii String.
From S2P Require Import Prelude Utf8 Chars LineEdit.

Local Open Scope Z_scope.

Definition PATH_CAPACITY : nat := 255.

(** ** Words *)

Definition is_ascii_whitespace (byte : Z) : bool :=
  (byte =? 32) || (byte =? 9) || (byte =? 10) || (byte =? 13).

(** The two loops of [trim_spaces]. *)
Definition trim_spaces (value : list Z) : list Z :=
  reverse (drop_while is_ascii_whitespace (reverse (drop_while is_ascii_whitespace value))).

(** [u8::to_ascii_lowercase], [<[u8]>::eq_ignore_ascii_case]. *)
Definition lower (b : Z) : Z := if (65 <=? b) && (b <=? 90) then b + 32 else b.

Definition eq_ignore_ascii_case (a b : list Z) : bool := bool_decide (lower <$> a = lower <$> b).

(** A single or a double quote. *)
Definition is_quote (b : Z) : bool := (b =? 39) || (b =? 34).

Definition split_first_word (value : list Z) : list Z * list Z :=
  let quoted :=
    match value with
    | quote :: rest =>
        if is_quote quote then
          match position (Z.eqb quote) rest with
          | Some end_ => Some (take end_ rest, trim_spaces (drop (end_ + 2) value))
          | None => None
          end
        else None
    | [] => None
    end in
  match quoted with
  | Some r => r
  | None =>
      match position is_ascii_whitespace value with
      | Some separator => (take separator value, trim_spaces (drop separator value))
      | None => (value, [])
      end
  end.

Definition strip_command_arguments (input command : list Z) : option (list Z) :=
  if (length command <=? length input)%nat then
    let remainder := drop (length command) input in
    if negb (eq_ignore_ascii_case (take (length command) input) command)
      || negb (is_some_and (head remainder) is_ascii_whitespace)
    then None else Some (trim_spaces remainder)
  else None.

(** ** Commands *)

Inductive Command :=
| Help
| Clear
| Echo (text : list Z)
| Memory
| Uptime
| Sleep (value : list Z)
| ListFiles (path : list Z)
| Cat (name : list Z)
| DiskList (path : list Z)
| DiskCat (path : list Z)
| DiskWrite (name contents : list Z)
| MakeDirectory (name : list Z)
| RemoveFile (name : list Z)
| RemoveDirectory (name : list Z)
| Edit (name : list Z)
| Run (path : list Z)
| DiskRun (path : list Z)
| ChangeDirectory (path : list Z)
| PrintWorkingDirectory
| Settings
| SetColor (value : list Z)
| SetResolution (value : list Z)
| Info
| InfoOs
| InfoHardware
| InfoSoftware
| Processes
| Kill (value : list Z)
| Shutdown
| Unknown
| Empty.

(** [if let Some(x) = o { return f(x) }], then the rest. *)
Definition or_else {A B} (o : option A) (f : A -> B) (rest : B) : B :=
  match o with Some a => f a | None => rest end.

(** [diskwrite]: the name and the text after it. *)
Definition disk_write (arguments : list Z) : option Command :=
  match position is_ascii_whitespace arguments with
  | Some separator =>
      let name := trim_spaces (take separator arguments) in
      let contents := trim_spaces (drop (separator + 1) arguments) in
      if bool_decide (name = []) then None else Some (DiskWrite name contents)
  | None => if bool_decide (arguments = []) then None else Some (DiskWrite arguments [])
  end.

Definition set_command (value : list Z) : Command :=
  let '(target, payload) := split_first_word value in
  if eq_ignore_ascii_case target (str "col") then SetColor (trim_spaces payload)
  else if eq_ignore_ascii_case target (str "res") then SetResolution (trim_spaces payload)
  else Settings.

Definition info_command (value : list Z) : option Command :=
  let '(target, _) := split_first_word value in
  if eq_ignore_ascii_case target (str "-os") then Some InfoOs
  else if eq_ignore_ascii_case target (str "-hw") then Some InfoHardware
  else if eq_ignore_ascii_case target (str "-sw") then Some InfoSoftware
  else None.

Definition parse_command (line : list Z) : Command :=
  let line := trim_spaces line in
  let bare word := eq_ignore_ascii_case line (str word) in
  let arguments word := strip_command_arguments line (str word) in
  if bool_decide (line = []) then Empty
  else if bare "help"%string then Help
  else if bare "shutdown"%string || bare "sd"%string then Shutdown
  else if bare "clear"%string || bare "cls"%string || bare "clr"%string then Clear
  else if bare "mem"%string then Memory
  else if bare "uptime"%string then Uptime
  else if bare "sleep"%string then Sleep []
  else or_else (arguments "sleep"%string) Sleep (
  if bare "ls"%string || bare "dir"%string then ListFiles []
  else or_else (arguments "ls"%string) ListFiles (
  or_else (arguments "dir"%string) ListFiles (
  or_else (arguments "cat"%string) Cat (
  if bare "diskls"%string then DiskList []
  else or_else (arguments "diskls"%string) DiskList (
  or_else (arguments "diskcat"%string) DiskCat (
  or_else (a ← arguments "diskwrite"%string; disk_write a) id (
  or_else (arguments "mkdir"%string) MakeDirectory (
  or_else (arguments "rm"%string) RemoveFile (
  or_else (arguments "rmdir"%string) RemoveDirectory (
  or_else (name ← arguments "edit"%string; if bool_decide (name = []) then None else Some name) Edit (
  if bare "run"%string then Run []
  else or_else (arguments "run"%string) Run (
  if bare "diskrun"%string then DiskRun []
  else or_else (arguments "diskrun"%string) DiskRun (
  if bare "cd"%string then ChangeDirectory []
  else or_else (arguments "cd"%string) ChangeDirectory (
  if bare "pwd"%string then PrintWorkingDirectory
  else if bare "info"%string then Info
  else if bare "ps"%string || bare "processes"%string then Processes
  else if bare "kill"%string then Kill []
  else or_else (arguments "kill"%string) Kill (
  if bare "set"%string || bare "settings"%string then Settings
  else or_else (arguments "set"%string) set_command (
  or_else (value ← arguments "info"%string; info_command value) id (
  if bare "echo"%string then Echo []
  else or_else (arguments "echo"%string) Echo
  Unknown))))))))))))))))).

(** ** Numbers and colours *)

Definition is_ascii_digit (b : Z) : bool := (48 <=? b) && (b <=? 57).

(** [try_fold] over decimal digits with checked arithmetic. *)
Fixpoint fold_decimal (n : Z) (value : list Z) : option Z :=
  match value with
  | [] => Some n
  | byte :: value =>
      if negb (is_ascii_digit byte) then None
      else
        n ← checked_mul u64_limit n 10;
        n ← checked_add u64_limit n (byte - 48);
        fold_decimal n value
  end.

Definition parse_sleep_seconds (value : list Z) : option Z :=
  if bool_decide (value = []) then None else fold_decimal 0 value.

(** A [TaskId] is its number. *)
Definition parse_task_id (value : list Z) : option Z :=
  if bool_decide (value = []) then None else fold_decimal 0 value.

Definition hex_digit (byte : Z) : option Z :=
  if (48 <=? byte) && (byte <=? 57) then Some (byte - 48)
  else if (97 <=? byte) && (byte <=? 102) then Some (byte - 97 + 10)
  else if (65 <=? byte) && (byte <=? 70) then Some (byte - 65 + 10)
  else None.

Definition parse_color (value : list Z) : option (Z * Z * Z) :=
  if bool_decide (value = str "default") || bool_decide (value = str "green") then Some (0, 255, 0)
  else if bool_decide (value = str "white") then Some (255, 255, 255)
  else if bool_decide (value = str "red") then Some (255, 64, 64)
  else if bool_decide (value = str "yellow") then Some (255, 255, 0)
  else if bool_decide (value = str "cyan") then Some (0, 255, 255)
  else match value with
       | [35; r1; r0; g1; g0; b1; b0] =>
           r1 ← hex_digit r1; r0 ← hex_digit r0;
           g1 ← hex_digit g1; g0 ← hex_digit g0;
           b1 ← hex_digit b1; b0 ← hex_digit b0;
           Some (r1 * 16 + r0, g1 * 16 + g0, b1 * 16 + b0)
       | _ => None
       end.

Definition valid_resolution (value : list Z) : bool :=
  match position (Z.eqb 58) value with
  | None => false
  | Some separator =>
      let width := take separator value in
      let height := drop (separator + 1) value in
      negb (bool_decide (width = [])) && negb (bool_decide (height = []))
      && forallb is_ascii_digit width && forallb is_ascii_digit height
      && existsb (fun d => negb (d =? 48)) width && existsb (fun d => negb (d =? 48)) height
  end.

(** ** Reference: the first word and the rest *)

Definition word (line : list Z) : list Z := take_while (fun b => negb (is_ascii_whitespace b)) line.
Definition arguments (line : list Z) : list Z := trim_spaces (drop (length (word line)) line).

(** The command of a word, in lower case, and what follows it. *)
Definition command_of (w a : list Z) : Command :=
  let named words := existsb (fun x => bool_decide (w = str x)) words in
  let alone c := if bool_decide (a = []) then c else Unknown in
  let needed c := if bool_decide (a = []) then Unknown else c in
  if named ["help"%string] then alone Help
  else if named ["shutdown"; "sd"]%string then alone Shutdown
  else if named ["clear"; "cls"; "clr"]%string then alone Clear
  else if named ["mem"%string] then alone Memory
  else if named ["uptime"%string] then alone Uptime
  else if named ["sleep"%string] then Sleep a
  else if named ["ls"; "dir"]%string then ListFiles a
  else if named ["cat"%string] then needed (Cat a)
  else if named ["diskls"%string] then DiskList a
  else if named ["diskcat"%string] then needed (DiskCat a)
  else if named ["diskwrite"%string] then needed (DiskWrite (word a) (arguments a))
  else if named ["mkdir"%string] then needed (MakeDirectory a)
  else if named ["rm"%string] then needed (RemoveFile a)
  else if named ["rmdir"%string] then needed (RemoveDirectory a)
  else if named ["edit"%string] then needed (Edit a)
  else if named ["run"%string] then Run a
  else if named ["diskrun"%string] then DiskRun a
  else if named ["cd"%string] then ChangeDirectory a
  else if named ["pwd"%string] then alone PrintWorkingDirectory
  else if named ["info"%string] then
    if bool_decide (a = []) then Info else default Unknown (info_command a)
  else if named ["ps"; "processes"]%string then alone Processes
  else if named ["kill"%string] then Kill a
  else if named ["set"%string] then if bool_decide (a = []) then Settings else set_command a
  else if named ["settings"%string] then alone Settings
  else if named ["echo"%string] then Echo a
  else Unknown.

(** ** Trimming *)

(** Neither the first nor the last byte is white space. *)
Definition trimmed (t : list Z) : Prop :=
  match t with [] => True | x :: _ => is_ascii_whitespace x = false end /\
  match reverse t with [] => True | x :: _ => is_ascii_whitespace x = false end.

Lemma trim_spec l : exists k k', l = k ++ trim_spaces l ++ k' /\
  Forall (fun b => is_ascii_whitespace b = true) k /\ Forall (fun b => is_ascii_whitespace b = true) k' /\ trimmed (trim_spaces l).
Proof.
  unfold trim_spaces. set (l1 := drop_while is_ascii_whitespace l).
  destruct (drop_while_spec is_ascii_whitespace l) as (k & Hk & Hkw & Hh).
  destruct (drop_while_spec is_ascii_whitespace (reverse l1)) as (k' & Hk' & Hkw' & Hh').
  exists k, (reverse k'). fold l1 in Hk, Hh. set (t := drop_while is_ascii_whitespace (reverse l1)) in *.
  assert (l1 = reverse t ++ reverse k') as Hl1 by (by rewrite <-reverse_app, <-Hk', reverse_involutive).
  split_and!; [by rewrite <-Hl1|done|by apply Forall_reverse|]. split; [|by rewrite reverse_involutive].
  destruct (reverse t) as [|x r] eqn:Hr; [done|]. by rewrite Hl1 in Hh.
Qed.

Lemma trim_id t : trimmed t -> trim_spaces t = t.
Proof.
  intros [Hf Hl]. unfold trim_spaces. rewrite (drop_while_none _ t) by done. rewrite drop_while_none by done.
  apply reverse_involutive.
Qed.

Lemma trim_trimmed l : trimmed (trim_spaces l).
Proof. by destruct (trim_spec l) as (k & k' & _ & _ & _ & ?). Qed.

Lemma trim_nil l : trim_spaces l = [] <-> Forall (fun b => is_ascii_whitespace b = true) l.
Proof.
  split.
  - intros H. destruct (trim_spec l) as (k & k' & -> & Hk & Hk' & _). rewrite H. by apply Forall_app.
  - intros H. unfold trim_spaces. by rewrite (drop_while_all _ l).
Qed.

(** A line is its first word and what follows. *)
Lemma word_exact t : exists r, t = word t ++ r /\
  Forall (fun b => is_ascii_whitespace b = false) (word t) /\
  match r with [] => True | x :: _ => is_ascii_whitespace x = true end /\ arguments t = trim_spaces r.
Proof.
  assert (exists r, t = word t ++ r /\ Forall (fun b => is_ascii_whitespace b = false) (word t) /\
    match r with [] => True | x :: _ => is_ascii_whitespace x = true end) as (r & Ht & Hw & Hr).
  { unfold word. induction t as [|x t (r & Ht & Hw & Hr)]; [by exists []|]. cbn. destruct (is_ascii_whitespace x) eqn:Hx; cbn.
    - by exists (x :: t).
    - exists r. split_and!; [by rewrite <-Ht|by apply Forall_cons|done]. }
  exists r. split_and!; [done..|]. unfold arguments. rewrite Ht at 2. by rewrite drop_app_length.
Qed.

(** A trimmed line without arguments is one word. *)
Lemma arguments_nil t r : trimmed t -> t = word t ++ r -> trim_spaces r = [] -> r = [].
Proof.
  intros [_ Hl] Ht Hr%trim_nil. destruct r as [|x r _] using rev_ind; [done|]. exfalso.
  rewrite Ht, (assoc_L (++)), reverse_app in Hl. cbn in Hl. apply Forall_app in Hr as [_ [Hx _]%Forall_cons]. congruence.
Qed.

(** ** Commands *)

Definition plain (c : list Z) : Prop :=
  Forall (fun b => is_ascii_whitespace b = false /\ lower b = b) c.

Lemma lower_whitespace b : is_ascii_whitespace (lower b) = is_ascii_whitespace b.
Proof.
  unfold lower. destruct ((65 <=? b) && (b <=? 90)) eqn:Hb; [|done]. bools. unfold is_ascii_whitespace.
  rewrite !(proj2 (Z.eqb_neq _ _)) by lia. done.
Qed.

Lemma plain_lower c : plain c -> lower <$> c = c.
Proof. induction 1 as [|b c [_ Hb] _ IH]; [done|]. cbn. by rewrite Hb, IH. Qed.

Lemma eq_ignore_plain t c : plain c -> eq_ignore_ascii_case t c = bool_decide (lower <$> t = c).
Proof. intros Hc. unfold eq_ignore_ascii_case. by rewrite (plain_lower c Hc). Qed.

Lemma lower_no_whitespace t c : plain c -> lower <$> t = c -> Forall (fun b => is_ascii_whitespace b = false) t.
Proof.
  intros Hc <-. apply Forall_fmap in Hc. eapply Forall_impl; [exact Hc|]. intros b [Hb _]. by rewrite <-lower_whitespace.
Qed.

Lemma bare_spec t c : trimmed t -> plain c ->
  eq_ignore_ascii_case t c = bool_decide (lower <$> word t = c) && bool_decide (arguments t = []).
Proof.
  intros Ht Hc. rewrite eq_ignore_plain by done. destruct (word_exact t) as (r & Hr & Hw & Hh & Ha).
  apply eq_true_iff_eq. rewrite andb_true_iff, !bool_decide_eq_true, Ha. split.
  - intros Heq. pose proof (lower_no_whitespace t c Hc Heq) as Hn. assert (r = []) as ->.
    { destruct r as [|x r]; [done|]. rewrite Hr in Hn. apply Forall_app in Hn as [_ [Hx _]%Forall_cons]. congruence. }
    rewrite (right_id_L [] (++)) in Hr. by rewrite <-Hr.
  - intros [Hword Hnil]. rewrite (arguments_nil t r Ht Hr Hnil), (right_id_L [] (++)) in Hr. by rewrite Hr.
Qed.

Lemma word_prefix (t c : list Z) : Forall (fun b => is_ascii_whitespace b = false) (take (length c) t) ->
  is_some_and (head (drop (length c) t)) is_ascii_whitespace = true -> word t = take (length c) t.
Proof.
  intros Hn Hh. rewrite <-(take_drop (length c) t) at 1. unfold word. apply take_while_all.
  - eapply Forall_impl; [exact Hn|]. intros b Hb. by rewrite Hb.
  - destruct (drop (length c) t); [done|]. cbn in Hh. by rewrite Hh.
Qed.

Lemma strip_spec t c : trimmed t -> plain c ->
  strip_command_arguments t c =
    if bool_decide (lower <$> word t = c) && negb (bool_decide (arguments t = [])) then Some (arguments t) else None.
Proof.
  intros Ht Hc. unfold strip_command_arguments. destruct (word_exact t) as (r & Hr & Hw & Hh & Ha).
  rewrite eq_ignore_plain by done.
  destruct (bool_decide_reflect (lower <$> word t = c)) as [Heq|Hne]; cbn [andb].
  - assert (length c = length (word t)) as Hlen by (rewrite <-Heq; apply length_fmap).
    assert (drop (length c) t = r) as Hdrop by (rewrite Hr, Hlen; apply drop_app_length).
    assert (take (length c) t = word t) as Htake by (rewrite Hr at 1; rewrite Hlen; apply take_app_length).
    rewrite (proj2 (Nat.leb_le _ _)) by (rewrite Hr, length_app; lia). rewrite Htake, Hdrop, bool_decide_eq_true_2, Ha by done.
    destruct r as [|x r].
    + by rewrite bool_decide_eq_true_2.
    + cbn [head is_some_and]. rewrite Hh. cbn. rewrite bool_decide_eq_false_2; [done|].
      intros Hnil. by apply (arguments_nil t (x :: r) Ht Hr) in Hnil.
  - destruct (length c <=? length t)%nat; [|done]. destruct (bool_decide_reflect (lower <$> take (length c) t = c)) as [Heq|]; [|done]. cbn [negb orb].
    destruct (is_some_and _ _) eqn:Hs; [|done]. exfalso. apply Hne.
    rewrite (word_prefix t c); [done| |done]. by eapply lower_no_whitespace.
Qed.

Lemma whitespace_trim x r : is_ascii_whitespace x = true -> trim_spaces (x :: r) = trim_spaces r.
Proof. intros Hx. unfold trim_spaces. cbn [drop_while]. by rewrite Hx. Qed.

Lemma no_whitespace_trimmed w : Forall (fun b => is_ascii_whitespace b = false) w -> trimmed w.
Proof.
  intros Hw. split; [destruct w; [done|]; by apply Forall_cons in Hw as [? _]|].
  apply Forall_reverse in Hw. destruct (reverse w); [done|]. by apply Forall_cons in Hw as [? _].
Qed.

Lemma disk_write_spec a : trimmed a -> a <> [] -> disk_write a = Some (DiskWrite (word a) (arguments a)).
Proof.
  intros [Hf _] Hne. unfold disk_write. destruct (word_exact a) as (r & Hr & Hw & Hh & Ha). rewrite Ha.
  generalize dependent (word a). intros w Hr Hw. subst a. destruct r as [|x r].
  - rewrite (right_id_L [] (++)) in *. by rewrite position_none, bool_decide_eq_false_2 by done.
  - rewrite position_app, take_app_length, (trim_id w), whitespace_trim by (done || by apply no_whitespace_trimmed).
    rewrite bool_decide_eq_false_2 by (intros ->; cbn in Hf; congruence).
    rewrite drop_app_ge by lia. by replace (length w + 1 - length w)%nat with 1%nat by lia.
Qed.

Ltac plain_literal := repeat (apply Forall_cons; split; [by vm_compute|]); apply Forall_nil_2.

Lemma parse_words t : trimmed t -> t <> [] ->
  (forall s, plain (str s) -> eq_ignore_ascii_case t (str s) =
     bool_decide (lower <$> word t = str s) && bool_decide (arguments t = [])) /\
  (forall s, plain (str s) -> strip_command_arguments t (str s) =
     if bool_decide (lower <$> word t = str s) && negb (bool_decide (arguments t = [])) then Some (arguments t) else None).
Proof. intros Ht _. split; intros s Hs; [by apply bare_spec|by apply strip_spec]. Qed.

(** C30: [parse_command] reads a line as a word, in any case, and arguments, whatever white
    space surrounds them: the command is the one of the table, and a line whose word is
    not in it, or that lacks or has arguments it should not, is unknown. *)
Theorem parse_command_exact line :
  parse_command line =
    if bool_decide (trim_spaces line = []) then Empty
    else command_of (lower <$> word (trim_spaces line)) (arguments (trim_spaces line)).
Proof.
  unfold parse_command. set (t := trim_spaces line). destruct (bool_decide_reflect (t = [])) as [|Hne]; [done|].
  destruct (parse_words t (trim_trimmed line) Hne) as [Hbare Hstrip].
  rewrite !Hbare, !Hstrip by plain_literal. clear Hbare Hstrip.
  assert (trimmed (arguments t)) as Ha by apply trim_trimmed.
  generalize dependent (arguments t). intros a Ha. generalize (lower <$> word t). intros w. clear t Hne.
  unfold command_of. cbn [existsb]. destruct (bool_decide_reflect (a = [])) as [->|Hne].
  - repeat lazymatch goal with |- context [bool_decide (w = str ?s)] =>
      destruct (bool_decide_reflect (w = str s)) as [->|?]; [reflexivity|] end.
    reflexivity.
  - repeat lazymatch goal with |- context [bool_decide (w = str ?s)] =>
      destruct (bool_decide_reflect (w = str s)) as [->|?];
      [first [reflexivity
             |transitivity (default Unknown (disk_write a)); [reflexivity|by rewrite disk_write_spec]
             |transitivity (or_else (if bool_decide (a = []) then None else Some a) Edit Unknown);
              [reflexivity|by rewrite bool_decide_eq_false_2]]|] end.
    reflexivity.
Qed.

(** ** Numbers *)

Definition decimal_from (n : Z) (value : list Z) : Z := foldl (fun n b => n * 10 + (b - 48)) n value.

Lemma decimal_grows value n : 0 <= n -> forallb is_ascii_digit value = true -> n <= decimal_from n value.
Proof.
  revert n. induction value as [|b value IH]; intros n Hn Hd; [done|]. cbn [forallb] in Hd.
  apply andb_true_iff in Hd as [Hb Hd]. unfold is_ascii_digit in Hb. bools. unfold decimal_from in *. cbn [foldl].
  specialize (IH (n * 10 + (b - 48)) ltac:(lia) Hd). lia.
Qed.

Lemma fold_decimal_spec value n : 0 <= n < u64_limit ->
  fold_decimal n value =
    if forallb is_ascii_digit value && (decimal_from n value <? u64_limit) then Some (decimal_from n value) else None.
Proof.
  revert n. induction value as [|b value IH]; intros n Hn.
  { cbn. by rewrite (proj2 (Z.ltb_lt _ _)) by lia. }
  cbn [fold_decimal forallb]. change (decimal_from n (b :: value)) with (decimal_from (n * 10 + (b - 48)) value).
  destruct (is_ascii_digit b) eqn:Hb; [|done]. cbn [negb andb]. unfold is_ascii_digit in Hb. bools.
  destruct (decide (n * 10 + (b - 48) < u64_limit)) as [Hlt|Hge].
  - unfold checked_mul. rewrite (proj2 (Z.ltb_lt _ _)) by lia. cbn. unfold checked_add.
    rewrite (proj2 (Z.ltb_lt _ _)) by lia. cbn. apply IH. lia.
  - destruct (forallb is_ascii_digit value) eqn:Hd; cbn [andb].
    + pose proof (decimal_grows value (n * 10 + (b - 48)) ltac:(lia) Hd). rewrite (proj2 (Z.ltb_ge _ _)) by lia.
      unfold checked_mul. destruct (Z.ltb_spec (n * 10) u64_limit); [|done]. cbn. unfold checked_add.
      by rewrite (proj2 (Z.ltb_ge _ _)) by lia.
    + unfold checked_mul. destruct (Z.ltb_spec (n * 10) u64_limit); [|done]. cbn. unfold checked_add.
      by rewrite (proj2 (Z.ltb_ge _ _)) by lia.
Qed.

(** ** Paths *)

(** A path as its components, joined by [/]. *)
Definition path_of (cs : list (list Z)) : list Z :=
  match cs with
  | [] => []
  | c :: cs => c ++ mjoin (cons 47 <$> cs)
  end.

Definition name_byte (b : Z) : bool :=
  (48 <=? b) && (b <=? 57) || (65 <=? b) && (b <=? 90) || (97 <=? b) && (b <=? 122)
  || (b =? 46) || (b =? 95) || (b =? 45).

(** One component of [input], on the path in the first [length] bytes of [output]. *)
Definition resolve_component (component output : list Z) (length_ : nat) :
  outcome Empty_set (option (list Z * nat)) :=
  if bool_decide (component = []) || bool_decide (component = str ".") then Ok (Some (output, length_))
  else if bool_decide (component = str "..") then
    path ← slice_to output length_;
    Ok (Some (output, match rposition (Z.eqb 47) path with Some separator => separator | None => 0%nat end))
  else if (100 <? length component)%nat || negb (forallb name_byte component) then Ok None
  else
    let separator_len := if (length_ =? 0)%nat then 0%nat else 1%nat in
    let new_length := (length_ + separator_len + length component)%nat in
    if (length output <? new_length)%nat then Ok None
    else
      '(output, length_) ← (if (separator_len =? 0)%nat then Ok (output, length_)
                            else output ← set_index output length_ 47; Ok (output, (length_ + 1)%nat));
      output ← copy_at output length_ component;
      Ok (Some (output, (length_ + length component)%nat)).

Fixpoint resolve_components (components : list (list Z)) (output : list Z) (length_ : nat) :
  outcome Empty_set (option (list Z * nat)) :=
  match components with
  | [] => Ok (Some (output, length_))
  | c :: cs =>
      r ← resolve_component c output length_;
      match r with
      | None => Ok None
      | Some (output, length_) => resolve_components cs output length_
      end
  end.

Definition starts_with_slash (input : list Z) : bool :=
  match input with b :: _ => b =? 47 | [] => false end.

Definition resolve_path (current input output : list Z) : outcome Empty_set (option (list Z * nat)) :=
  if starts_with_slash input then resolve_components (split_slash input) output 0
  else if (length output <? length current)%nat then Ok None
  else
    output ← copy_at output 0 current;
    resolve_components (split_slash input) output (length current).

Definition resolve_directory_path (current requested output : list Z) : outcome Empty_set (option (list Z * nat)) :=
  resolve_path current (if bool_decide (requested = []) then str "." else requested) output.

Definition resolve_ext2_command_path (current input : list Z) (current_dir_is_ext2 : bool) (output : list Z) :
  outcome Empty_set (option (list Z * nat)) :=
  resolve_path (if current_dir_is_ext2 then current else []) input output.

(** Reference: a stack of names. *)
Definition good_name (c : list Z) : bool :=
  negb (bool_decide (c = [])) && negb (bool_decide (c = str ".")) && negb (bool_decide (c = str ".."))
  && (length c <=? 100)%nat && forallb name_byte c.

Fixpoint resolve (stack components : list (list Z)) : option (list (list Z)) :=
  match components with
  | [] => Some stack
  | c :: cs =>
      if bool_decide (c = []) || bool_decide (c = str ".") then resolve stack cs
      else if bool_decide (c = str "..") then resolve (take (length stack - 1) stack) cs
      else if good_name c && (length (path_of (stack ++ [c])) <=? PATH_CAPACITY)%nat then resolve (stack ++ [c]) cs
      else None
  end.

Definition names (cs : list (list Z)) : Prop := Forall (fun c => good_name c = true) cs.

Lemma name_byte_slash c : good_name c = true -> Forall (fun b => (47 =? b) = false) c /\ c <> [].
Proof.
  unfold good_name. intros H. repeat (apply andb_true_iff in H as [H ?]).
  split; [|by destruct (bool_decide_reflect (c = []))].
  apply Forall_forall. intros b Hb. match goal with H : forallb _ _ = true |- _ => rename H into Hall end.
  rewrite forallb_forall in Hall. specialize (Hall b (proj1 (list_elem_of_In _ _) Hb)). unfold name_byte in Hall.
  apply Z.eqb_neq. intros <-. done.
Qed.

Lemma path_of_snoc cs c : path_of (cs ++ [c]) = if bool_decide (cs = []) then c else path_of cs ++ 47 :: c.
Proof.
  destruct cs as [|c0 cs]; [cbn; apply (right_id_L [] (++))|]. rewrite bool_decide_eq_false_2 by done. cbn [app path_of].
  rewrite fmap_app, join_app, (assoc_L (++)). cbn. by rewrite (right_id_L [] (++)).
Qed.

Lemma path_of_nil cs : names cs -> path_of cs = [] <-> cs = [].
Proof.
  intros Hc. split; [|by intros ->]. destruct Hc as [|c cs Hc _]; [done|]. destruct (name_byte_slash c Hc) as [_ Hne].
  cbn. by destruct c.
Qed.

(** The path of a stack, at the start of a buffer. *)
Definition path_at (st : list (list Z)) (output : list Z) (n : nat) : Prop :=
  names st /\ n = length (path_of st) /\ exists z, output = path_of st ++ z /\ length output = PATH_CAPACITY.

Lemma pop_spec st z : names st ->
  slice_to (E := Empty_set) (path_of st ++ z) (length (path_of st)) = Ok (path_of st) /\
  exists z', path_of st = path_of (take (length st - 1) st) ++ z' /\
  match rposition (Z.eqb 47) (path_of st) with Some separator => separator | None => 0%nat end =
    length (path_of (take (length st - 1) st)).
Proof.
  intros Hst. split; [apply slice_to_app|]. destruct st as [|c st _] using rev_ind; [by exists []|].
  apply Forall_app in Hst as [Hst [Hc _]%Forall_cons]. destruct (name_byte_slash c Hc) as [Hslash _].
  rewrite length_app. cbn [length]. replace (length st + 1 - 1)%nat with (length st) by lia. rewrite take_app_length, path_of_snoc.
  destruct (bool_decide_reflect (st = [])) as [->|Hne].
  - exists c. split; [done|]. by rewrite rposition_none.
  - exists (47 :: c). split; [done|]. by rewrite rposition_app.
Qed.

(** Appending a name to the path in the buffer. *)
Lemma push_spec st c output : path_at st output (length (path_of st)) -> good_name c = true ->
  (length (path_of (st ++ [c])) <= PATH_CAPACITY)%nat ->
  exists output',
    ('(output, length_) ← (if ((if (length (path_of st) =? 0)%nat then 0 else 1) =? 0)%nat then Ok (output, length (path_of st))
                           else output ← set_index output (length (path_of st)) 47; Ok (output, (length (path_of st) + 1)%nat));
     output ← copy_at output length_ c;
     Ok (E := Empty_set) (Some (output, (length_ + length c)%nat))) = Ok (Some (output', length (path_of (st ++ [c])))) /\
    path_at (st ++ [c]) output' (length (path_of (st ++ [c]))).
Proof.
  intros (Hst & _ & z & Ho & Hlen) Hc Hcap. pose proof (path_of_nil st Hst) as Hnil.
  assert (forall q y, path_of (st ++ [c]) = q ++ c -> (length q + length y = PATH_CAPACITY)%nat ->
    exists output', (output ← copy_at (E := Empty_set) (q ++ y) (length q) c; Ok (Some (output, (length q + length c)%nat))) =
      Ok (Some (output', length (path_of (st ++ [c])))) /\ path_at (st ++ [c]) output' (length (path_of (st ++ [c])))) as Hcopy.
  { intros q y Hq Hy. rewrite Hq, length_app in *. unfold copy_at.
    rewrite (proj2 (Nat.leb_le _ _)) by (rewrite length_app; lia). cbn [mbind outcome_bind]. eexists. split; [done|].
    split; [apply Forall_app; split; [done|by apply Forall_singleton]|]. rewrite Hq, length_app. split; [done|].
    exists (drop (length c) y). unfold splice. rewrite take_app_length, drop_app_ge by lia.
    replace (length q + length c - length q)%nat with (length c) by lia.
    split; [by rewrite <-(assoc_L (++))|]. rewrite !length_app, length_drop. lia. }
  rewrite path_of_snoc in Hcap. destruct (bool_decide_reflect (st = [])) as [->|Hne].
  - cbn [path_of length Nat.eqb mbind outcome_bind] in *. apply (Hcopy [] output); [|done]. by cbn; rewrite (right_id_L [] (++)).
  - assert (length (path_of st) <> 0)%nat by (by rewrite length_zero_iff_nil, Hnil).
    rewrite (proj2 (Nat.eqb_neq (length (path_of st)) 0)) by done. cbn [Nat.eqb]. rewrite length_app in Hcap. cbn [length] in Hcap.
    rewrite Ho, length_app in Hlen. destruct z as [|x z]; cbn [length] in Hlen; [lia|].
    unfold set_index. rewrite Ho, (proj2 (Nat.ltb_lt _ _)) by (rewrite length_app; cbn; lia). cbn beta iota delta [mbind outcome_bind].
    rewrite insert_app_r_alt, Nat.sub_diag by done. change (<[0%nat:=47]> (x :: z)) with (47 :: z).
    replace (path_of st ++ 47 :: z) with ((path_of st ++ [47]) ++ z) by (by rewrite <-(assoc_L (++))).
    replace (length (path_of st) + 1)%nat with (length (path_of st ++ [47])) by (rewrite length_app; done).
    apply (Hcopy (path_of st ++ [47]) z); [|rewrite length_app; cbn; lia].
    rewrite path_of_snoc, bool_decide_eq_false_2, <-(assoc_L (++)) by done. done.
Qed.

Lemma resolve_component_spec st c cs output n : path_at st output n ->
  exists r, resolve_component c output n = Ok r /\
    match r with
    | None => resolve st (c :: cs) = None
    | Some (output', n') => exists st', path_at st' output' n' /\ resolve st (c :: cs) = resolve st' cs
    end.
Proof.
  intros Hat. pose proof Hat as (Hst & -> & z & Ho & Hlen). unfold resolve_component. cbn [resolve].
  destruct (bool_decide (c = []) || bool_decide (c = str ".")) eqn:Hskip.
  { eexists. split; [done|]. by exists st. }
  destruct (bool_decide_reflect (c = str "..")) as [->|Hdots].
  { rewrite Ho. destruct (pop_spec st z Hst) as (-> & z' & Hz' & Hpop). cbn [mbind outcome_bind]. eexists. split; [done|].
    eexists. split; [|done]. split; [by apply Forall_take|]. split; [done|]. exists (z' ++ z).
    by rewrite (assoc_L (++)), <-Hz', <-Ho. }
  apply orb_false_iff in Hskip as [Hnil Hdot].
  assert (good_name c = (length c <=? 100)%nat && forallb name_byte c) as Hgood.
  { unfold good_name. by rewrite Hnil, Hdot, bool_decide_eq_false_2. }
  rewrite Hgood, Nat.ltb_antisym. destruct ((length c <=? 100)%nat && forallb name_byte c) eqn:Hname; cbn [andb].
  2: { destruct (length c <=? 100)%nat; cbn in *; [rewrite Hname|]; by eexists. }
  apply andb_true_iff in Hname as [-> ->]. cbn [negb orb].
  assert (length (path_of (st ++ [c])) = length (path_of st) + (if (length (path_of st) =? 0)%nat then 0 else 1) + length c)%nat as Hpath.
  { rewrite path_of_snoc. pose proof (path_of_nil st Hst) as Hpn. destruct (bool_decide_reflect (st = [])) as [->|Hne]; [done|].
    rewrite (proj2 (Nat.eqb_neq _ _)) by (by rewrite length_zero_iff_nil, Hpn). rewrite length_app. cbn. lia. }
  rewrite <-Hpath, Hlen, Nat.ltb_antisym. destruct (Nat.leb_spec (length (path_of (st ++ [c]))) PATH_CAPACITY) as [Hfit|]; [|by eexists].
  cbn [negb]. destruct (push_spec st c output Hat Hgood Hfit) as (output' & -> & Hat'). eexists. split; [done|]. by exists (st ++ [c]).
Qed.

Lemma resolve_components_spec cs st output n : path_at st output n ->
  exists r, resolve_components cs output n = Ok r /\
    match r with
    | None => resolve st cs = None
    | Some (output', n') => exists st', path_at st' output' n' /\ resolve st cs = Some st'
    end.
Proof.
  revert st output n. induction cs as [|c cs IH]; intros st output n Hat; [eexists; split; [done|]; by exists st|].
  cbn [resolve_components]. destruct (resolve_component_spec st c cs output n Hat) as (r & -> & Hr). cbn [mbind outcome_bind].
  destruct r as [[output' n']|]; [|by eexists]. destruct Hr as (st' & Hat' & ->). by apply IH.
Qed.

Lemma resolve_path_spec cur input output :
  names cur -> (length (path_of cur) <= PATH_CAPACITY)%nat -> length output = PATH_CAPACITY ->
  exists r, resolve_path (path_of cur) input output = Ok r /\
    match r with
    | None => resolve (if starts_with_slash input then [] else cur) (split_slash input) = None
    | Some (output', n) => exists st, path_at st output' n /\
        resolve (if starts_with_slash input then [] else cur) (split_slash input) = Some st
    end.
Proof.
  intros Hcur Hfit Hlen. unfold resolve_path.
  assert (exists o n st, path_at st o n /\ st = (if starts_with_slash input then [] else cur) /\
    (if starts_with_slash input then resolve_components (split_slash input) output 0
     else if (length output <? length (path_of cur))%nat then Ok None
     else output ← copy_at output 0 (path_of cur); resolve_components (split_slash input) output (length (path_of cur)))
    = resolve_components (split_slash input) o n) as (o & n & st & Hat & -> & ->).
  { destruct (starts_with_slash input).
    - exists output, 0%nat, []. split_and!; [|done..]. split; [by apply Forall_nil|]. split; [done|]. by exists output.
    - rewrite (proj2 (Nat.ltb_ge _ _)) by lia. unfold copy_at. rewrite (proj2 (Nat.leb_le _ _)) by (cbn; lia). cbn [mbind outcome_bind].
      eexists _, _, cur. split_and!; [|done..]. split; [done|]. split; [done|]. exists (drop (length (path_of cur)) output).
      rewrite length_splice by (cbn; lia). done. }
  by apply resolve_components_spec.
Qed.

(** C31: [resolve_path] walks the components of a path from the current directory, or from the
    root for a path that starts with a slash, as on a stack of names: empty components and
    [.] stay, [..] goes up and stays at the root, names of other bytes are refused, and
    so are paths that are longer than the buffer on the way, even when a later [..] makes
    them shorter.  The result, in the buffer, is a path of plain names, so it
    is a current directory again; nothing is read or written out of range. *)
Theorem resolve_path_exact cur input output :
  names cur -> (length (path_of cur) <= PATH_CAPACITY)%nat -> length output = PATH_CAPACITY ->
  exists r, resolve_path (path_of cur) input output = Ok r /\
    match r with
    | None => resolve (if starts_with_slash input then [] else cur) (split_slash input) = None
    | Some (output', n) => exists st,
        resolve (if starts_with_slash input then [] else cur) (split_slash input) = Some st /\
        take n output' = path_of st /\ (n <= PATH_CAPACITY)%nat /\ names st
    end.
Proof.
  intros Hcur Hfit Hlen. destruct (resolve_path_spec cur input output Hcur Hfit Hlen) as (r & -> & Hr). exists r. split; [done|].
  destruct r as [[o' n']|]; [|done]. destruct Hr as (st' & (Hn & -> & z & -> & Hl) & Hres). exists st'.
  rewrite take_app_length. split_and!; try done. rewrite <-Hl, length_app. lia.
Qed.

Lemma resolve_path_exact_witness :
  exists r, resolve_path (path_of [str "home"; str "leaf"]) (str "../.././../etc//rc.d") (replicate PATH_CAPACITY 0) = Ok r /\
    match r with Some (o, n) => take n o = str "etc/rc.d" | None => False end.
Proof.
  destruct (resolve_path_exact [str "home"; str "leaf"] (str "../.././../etc//rc.d") (replicate PATH_CAPACITY 0)) as (r & Hr & Hspec).
  - repeat (apply Forall_cons; split; [vm_compute; reflexivity|]). apply Forall_nil_2.
  - apply Nat.leb_le. vm_compute. reflexivity.
  - reflexivity.
  - exists r. split; [exact Hr|]. destruct r as [[o n]|]; [|vm_compute in Hspec; discriminate].
    destruct Hspec as (st & Hst & Htake & _). vm_compute in Hst. injection Hst as <-. rewrite Htake. vm_compute. reflexivity.
Defined.

(** ** Programs *)

(** The rest of a line after its first word is shorter. *)
Lemma trim_length l : (length (trim_spaces l) <= length l)%nat.
Proof. destruct (trim_spec l) as (k & k' & Hl & _). apply (f_equal length) in Hl. rewrite !length_app in Hl. lia. Qed.

Lemma plain_word_shorter value : value <> [] ->
  (length (match position is_ascii_whitespace value with
           | Some separator => (take separator value, trim_spaces (drop separator value))
           | None => (value, [])
           end).2 < length value)%nat.
Proof.
  intros Hne. destruct (position is_ascii_whitespace value) as [[|n]|] eqn:Hp; cbn [snd].
  - destruct value as [|x value]; [done|]. apply position_Some in Hp as (y & Hy & Hx & _). injection Hy as ->.
    cbn [drop]. rewrite whitespace_trim by done. pose proof (trim_length value). cbn. lia.
  - pose proof (trim_length (drop (S n) value)) as Ht. rewrite length_drop in Ht. destruct value; [done|]. cbn in *. lia.
  - destruct value; [done|]. cbn. lia.
Qed.

Lemma split_first_word_shorter value : value <> [] -> (length (split_first_word value).2 < length value)%nat.
Proof.
  intros Hne. pose proof (plain_word_shorter value Hne) as Hword. unfold split_first_word.
  destruct value as [|quote rest]; [done|]. destruct (is_quote quote); [|done].
  destruct (position (Z.eqb quote) rest) as [end_|]; [|done]. cbn [snd].
  pose proof (trim_length (drop (end_ + 2) (quote :: rest))) as Ht. rewrite length_drop in Ht. cbn [length] in *. lia.
Qed.

(** A command, the files its input and output are redirected to, and whether the
    redirections are well formed. *)
Definition Redirections : Type := list Z * option (list Z) * option (list Z) * bool.

Definition is_redirection (b : Z) : bool := (b =? 60) || (b =? 62).

(** A round of the loop of [split_redirections]. *)
Definition redirection_round (command_part : list Z) (s : list Z * option (list Z) * option (list Z)) :
  (list Z * option (list Z) * option (list Z)) + Redirections :=
  let '(remainder, input_path, output_path) := s in
  let bad := inr (command_part, None, None, false) in
  match remainder with
  | [] => inr (command_part, input_path, output_path, true)
  | operator :: rest =>
      if negb (is_redirection operator) then bad
      else
        let '(path, extra) := split_first_word (trim_spaces rest) in
        if bool_decide (path = []) then bad
        else if operator =? 60 then
          if negb (is_none input_path) then bad else inl (trim_spaces extra, Some path, output_path)
        else
          if negb (is_none output_path) then bad else inl (trim_spaces extra, input_path, Some path)
  end.

Definition split_redirections (command : list Z) : outcome Empty_set Redirections :=
  match position is_redirection command with
  | None => Ok (command, None, None, true)
  | Some separator =>
      let remainder := trim_spaces (drop separator command) in
      expect (while_loop (Z.of_nat (length remainder) + 1) (redirection_round (trim_spaces (take separator command)))
                (remainder, None, None))
  end.

Definition pipeline_command (command : list Z) (current_dir_is_ext2 : bool) : list Z * bool :=
  let '(name, arguments) := split_first_word command in
  if eq_ignore_ascii_case name (str "run") then (trim_spaces arguments, current_dir_is_ext2)
  else if eq_ignore_ascii_case name (str "diskrun") then (trim_spaces arguments, true)
  else (command, true).

Lemma redirections_end command : exists r, split_redirections command = Ok r.
Proof.
  unfold split_redirections. destruct (position is_redirection command) as [separator|]; [|by eexists].
  destruct (while_loop_ends (fun _ => True) (fun s => Z.of_nat (length s.1.1)) (fun _ => True)
    (redirection_round (trim_spaces (take separator command))) (Z.of_nat (length (trim_spaces (drop separator command))) + 1)
    (trim_spaces (drop separator command), None, None)) as (r & -> & _); [|done|cbn; lia|by eexists].
  intros [[remainder input] output] _. cbn [redirection_round]. destruct remainder as [|operator rest]; [done|].
  destruct (is_redirection operator); [|done]. cbn [negb].
  destruct (split_first_word (trim_spaces rest)) as [path extra] eqn:Hw.
  destruct (bool_decide_reflect (path = [])) as [|Hpath]; [done|].
  assert (length (trim_spaces extra) < S (length rest))%nat as Hshort.
  { pose proof (trim_length extra). pose proof (trim_length rest) as Hrest.
    destruct (trim_spaces rest) as [|x t]; [by injection Hw as <- <-|].
    pose proof (split_first_word_shorter (x :: t) ltac:(done)) as Hs. rewrite Hw in Hs. cbn [snd length] in *. lia. }
  destruct (operator =? 60); [destruct input|destruct output]; try done; cbn [fst length negb is_none]; split; (done || lia).
Qed.

(** Redirections are read as they are written, in either order, around a command without
    such characters. *)
Example redirections_example :
  split_redirections (str "sort -r >out.txt  < in.txt ") = Ok (str "sort -r", Some (str "in.txt"), Some (str "out.txt"), true) /\
  split_redirections (str "sort < a < b") = Ok (str "sort", None, None, false).
Proof. split; vm_compute; reflexivity. Qed.
