(* ===== verification/Font.v ===== *)
(** * The font

    [misc/font.rs]: the rows of the glyph of a byte, the leftmost pixel in the highest bit. *)

From S2P Require Import Prelude.

Local Open Scope Z_scope.

Definition get_glyph (c : Z) : list Z :=
  match c with
  | 65 => [0x18; 0x3c; 0x66; 0x7e; 0x66; 0x66; 0x66; 0x00]
  | 66 => [0x7c; 0x66; 0x66; 0x7c; 0x66; 0x66; 0x7c; 0x00]
  | 67 => [0x3c; 0x66; 0x60; 0x60; 0x60; 0x66; 0x3c; 0x00]
  | 68 => [0x78; 0x6c; 0x66; 0x66; 0x66; 0x6c; 0x78; 0x00]
  | 69 => [0x7e; 0x60; 0x60; 0x7c; 0x60; 0x60; 0x7e; 0x00]
  | 70 => [0x7e; 0x60; 0x60; 0x7c; 0x60; 0x60; 0x60; 0x00]
  | 71 => [0x3c; 0x66; 0x60; 0x6e; 0x66; 0x66; 0x3c; 0x00]
  | 72 => [0x66; 0x66; 0x66; 0x7e; 0x66; 0x66; 0x66; 0x00]
  | 73 => [0x3c; 0x18; 0x18; 0x18; 0x18; 0x18; 0x3c; 0x00]
  | 74 => [0x0e; 0x06; 0x06; 0x06; 0x66; 0x66; 0x3c; 0x00]
  | 75 => [0x66; 0x6c; 0x78; 0x70; 0x78; 0x6c; 0x66; 0x00]
  | 76 => [0x60; 0x60; 0x60; 0x60; 0x60; 0x60; 0x7e; 0x00]
  | 77 => [0xc3; 0xe7; 0xff; 0xdb; 0xc3; 0xc3; 0xc3; 0x00]
  | 78 => [0x63; 0x73; 0x7b; 0x6f; 0x67; 0x63; 0x63; 0x00]
  | 79 => [0x3c; 0x66; 0x66; 0x66; 0x66; 0x66; 0x3c; 0x00]
  | 80 => [0x7c; 0x66; 0x66; 0x7c; 0x60; 0x60; 0x60; 0x00]
  | 81 => [0x3c; 0x66; 0x66; 0x66; 0x66; 0x6c; 0x3e; 0x06]
  | 82 => [0x7c; 0x66; 0x66; 0x7c; 0x6c; 0x66; 0x66; 0x00]
  | 83 => [0x3c; 0x66; 0x60; 0x3c; 0x06; 0x66; 0x3c; 0x00]
  | 84 => [0x7e; 0x18; 0x18; 0x18; 0x18; 0x18; 0x18; 0x00]
  | 85 => [0x66; 0x66; 0x66; 0x66; 0x66; 0x66; 0x3c; 0x00]
  | 86 => [0x66; 0x66; 0x66; 0x66; 0x66; 0x3c; 0x18; 0x00]
  | 87 => [0xc3; 0xc3; 0xc3; 0xdb; 0xff; 0xe7; 0xc3; 0x00]
  | 88 => [0x66; 0x66; 0x3c; 0x18; 0x3c; 0x66; 0x66; 0x00]
  | 89 => [0x66; 0x66; 0x3c; 0x18; 0x18; 0x18; 0x18; 0x00]
  | 90 => [0x7e; 0x06; 0x0c; 0x18; 0x30; 0x60; 0x7e; 0x00]
  | 97 => [0x00; 0x00; 0x3c; 0x06; 0x3e; 0x66; 0x3e; 0x00]
  | 98 => [0x60; 0x60; 0x7c; 0x66; 0x66; 0x66; 0x7c; 0x00]
  | 99 => [0x00; 0x00; 0x3c; 0x66; 0x60; 0x66; 0x3c; 0x00]
  | 100 => [0x06; 0x06; 0x3e; 0x66; 0x66; 0x66; 0x3e; 0x00]
  | 101 => [0x00; 0x00; 0x3c; 0x66; 0x7e; 0x60; 0x3c; 0x00]
  | 102 => [0x1c; 0x30; 0x30; 0x7c; 0x30; 0x30; 0x30; 0x00]
  | 103 => [0x00; 0x00; 0x3e; 0x66; 0x66; 0x3e; 0x06; 0x7c]
  | 104 => [0x60; 0x60; 0x7c; 0x66; 0x66; 0x66; 0x66; 0x00]
  | 105 => [0x18; 0x00; 0x38; 0x18; 0x18; 0x18; 0x3c; 0x00]
  | 106 => [0x0c; 0x00; 0x1c; 0x0c; 0x0c; 0x6c; 0x6c; 0x38]
  | 107 => [0x60; 0x60; 0x66; 0x6c; 0x78; 0x6c; 0x66; 0x00]
  | 108 => [0x38; 0x18; 0x18; 0x18; 0x18; 0x18; 0x3c; 0x00]
  | 109 => [0x00; 0x00; 0x66; 0xff; 0xdb; 0xdb; 0xdb; 0x00]
  | 110 => [0x00; 0x00; 0x7c; 0x66; 0x66; 0x66; 0x66; 0x00]
  | 111 => [0x00; 0x00; 0x3c; 0x66; 0x66; 0x66; 0x3c; 0x00]
  | 112 => [0x00; 0x00; 0x7c; 0x66; 0x66; 0x7c; 0x60; 0x60]
  | 113 => [0x00; 0x00; 0x3e; 0x66; 0x66; 0x3e; 0x06; 0x06]
  | 114 => [0x00; 0x00; 0x6c; 0x76; 0x60; 0x60; 0x60; 0x00]
  | 115 => [0x00; 0x00; 0x3e; 0x60; 0x3c; 0x06; 0x7c; 0x00]
  | 116 => [0x30; 0x30; 0x7c; 0x30; 0x30; 0x36; 0x1c; 0x00]
  | 117 => [0x00; 0x00; 0x66; 0x66; 0x66; 0x66; 0x3e; 0x00]
  | 118 => [0x00; 0x00; 0x66; 0x66; 0x66; 0x3c; 0x18; 0x00]
  | 119 => [0x00; 0x00; 0xc3; 0xdb; 0xdb; 0xff; 0x66; 0x00]
  | 120 => [0x00; 0x00; 0x66; 0x3c; 0x18; 0x3c; 0x66; 0x00]
  | 121 => [0x00; 0x00; 0x66; 0x66; 0x66; 0x3e; 0x06; 0x7c]
  | 122 => [0x00; 0x00; 0x7e; 0x0c; 0x18; 0x30; 0x7e; 0x00]
  | 48 => [0x3c; 0x66; 0x6e; 0x76; 0x66; 0x66; 0x3c; 0x00]
  | 49 => [0x18; 0x38; 0x18; 0x18; 0x18; 0x18; 0x3c; 0x00]
  | 50 => [0x3c; 0x66; 0x06; 0x0c; 0x18; 0x30; 0x7e; 0x00]
  | 51 => [0x3c; 0x66; 0x06; 0x1c; 0x06; 0x66; 0x3c; 0x00]
  | 52 => [0x0c; 0x1c; 0x2c; 0x4c; 0x7e; 0x0c; 0x0c; 0x00]
  | 53 => [0x7e; 0x60; 0x7c; 0x06; 0x06; 0x66; 0x3c; 0x00]
  | 54 => [0x1c; 0x30; 0x60; 0x7c; 0x66; 0x66; 0x3c; 0x00]
  | 55 => [0x7e; 0x06; 0x0c; 0x18; 0x30; 0x30; 0x30; 0x00]
  | 56 => [0x3c; 0x66; 0x66; 0x3c; 0x66; 0x66; 0x3c; 0x00]
  | 57 => [0x3c; 0x66; 0x66; 0x3e; 0x06; 0x0c; 0x38; 0x00]
  | 32 => [0x00; 0x00; 0x00; 0x00; 0x00; 0x00; 0x00; 0x00]
  | 46 => [0x00; 0x00; 0x00; 0x00; 0x00; 0x18; 0x18; 0x00]
  | 44 => [0x00; 0x00; 0x00; 0x00; 0x00; 0x18; 0x18; 0x30]
  | 58 => [0x00; 0x18; 0x18; 0x00; 0x18; 0x18; 0x00; 0x00]
  | 59 => [0x00; 0x18; 0x18; 0x00; 0x18; 0x18; 0x30; 0x00]
  | 33 => [0x18; 0x18; 0x18; 0x18; 0x18; 0x00; 0x18; 0x00]
  | 63 => [0x3c; 0x66; 0x0c; 0x18; 0x18; 0x00; 0x18; 0x00]
  | 45 => [0x00; 0x00; 0x00; 0x7e; 0x00; 0x00; 0x00; 0x00]
  | 95 => [0x00; 0x00; 0x00; 0x00; 0x00; 0x00; 0x00; 0xff]
  | 47 => [0x03; 0x06; 0x0c; 0x18; 0x30; 0x60; 0xc0; 0x00]
  | 40 => [0x0c; 0x18; 0x30; 0x30; 0x30; 0x18; 0x0c; 0x00]
  | 41 => [0x30; 0x18; 0x0c; 0x0c; 0x0c; 0x18; 0x30; 0x00]
  | 37 => [0x66; 0x66; 0x0c; 0x18; 0x30; 0x66; 0x66; 0x00]
  | 43 => [0x00; 0x18; 0x18; 0x7e; 0x18; 0x18; 0x00; 0x00]
  | 61 => [0x00; 0x00; 0x7e; 0x00; 0x7e; 0x00; 0x00; 0x00]
  | 39 => [0x18; 0x18; 0x30; 0x00; 0x00; 0x00; 0x00; 0x00]
  | 34 => [0x66; 0x66; 0x00; 0x00; 0x00; 0x00; 0x00; 0x00]
  | 35 => [0x24; 0x7e; 0x24; 0x24; 0x7e; 0x24; 0x00; 0x00]
  | 42 => [0x00; 0x66; 0x3c; 0xff; 0x3c; 0x66; 0x00; 0x00]
  | 123 => [0x1c; 0x30; 0x30; 0x60; 0x30; 0x30; 0x1c; 0x00]
  | 125 => [0x38; 0x0c; 0x0c; 0x06; 0x0c; 0x0c; 0x38; 0x00]
  | 91 => [0x3c; 0x30; 0x30; 0x30; 0x30; 0x30; 0x3c; 0x00]
  | 93 => [0x3c; 0x0c; 0x0c; 0x0c; 0x0c; 0x0c; 0x3c; 0x00]
  | 60 => [0x06; 0x0c; 0x18; 0x30; 0x18; 0x0c; 0x06; 0x00]
  | 62 => [0x60; 0x30; 0x18; 0x0c; 0x18; 0x30; 0x60; 0x00]
  | 124 => [0x18; 0x18; 0x18; 0x18; 0x18; 0x18; 0x18; 0x00]
  | 64 => [0x3c; 0x66; 0x6f; 0x6b; 0x6f; 0x60; 0x3c; 0x00]
  | 36 => [0x18; 0x3e; 0x60; 0x3c; 0x06; 0x7c; 0x18; 0x00]
  | 94 => [0x18; 0x3c; 0x66; 0x00; 0x00; 0x00; 0x00; 0x00]
  | 38 => [0x1c; 0x36; 0x1c; 0x3a; 0x6e; 0x66; 0x3b; 0x00]
  | 92 => [0x60; 0x30; 0x18; 0x0c; 0x06; 0x03; 0x01; 0x00]
  | 96 => [0x30; 0x18; 0x0c; 0x00; 0x00; 0x00; 0x00; 0x00]
  | 126 => [0x00; 0x00; 0x31; 0x4b; 0x46; 0x00; 0x00; 0x00]
  | _ => [0xff; 0x81; 0x81; 0x81; 0x81; 0x81; 0x81; 0xff]
  end.

Definition is_printable_ascii (c : Z) : bool := (32 <=? c) && (c <=? 126).

(** [(row_data >> (7 - col)) & 1 == 1]. *)
Definition glyph_bit (c : Z) (row col : nat) : bool :=
  match get_glyph c !! row with
  | Some row_data => Z.land (Z.shiftr row_data (7 - Z.of_nat col)) 1 =? 1
  | None => false
  end.

Lemma length_glyph c : length (get_glyph c) = 8%nat.
Proof. unfold get_glyph. by repeat case_match. Qed.

(** A space is blank. *)
Lemma glyph_space row col : glyph_bit 32 row col = false.
Proof.
  unfold glyph_bit. destruct (get_glyph 32 !! row) as [row_data|] eqn:Hr; [|done].
  change (get_glyph 32) with (replicate 8 0) in Hr. apply lookup_replicate in Hr as [-> _]. by rewrite Z.shiftr_0_l.
Qed.
