(* ===== verification/Framebuffer.v ===== *)
(** * The framebuffer console

    [console/framebuffer.rs]: a terminal drawn pixel by pixel into the memory of the
    display, with the text of the last lines kept to scroll back, the command line being
    edited, and the screen of the text editor.  The display memory is the list of its
    bytes.  Coordinates are [nat]s, line numbers ([u64]) integers. *)

From Stdlib Require Import Ascii String.
From S2P Require Import Prelude Font FrameAlloc Utf8 Chars LineEdit TextEdit.

(** ** [FramebufferBuffer] *)

Definition write_volatile (offset : nat) (value : Z) (buffer : list Z) : list Z :=
  if offset <? length buffer then <[offset := value]> buffer else buffer.

Definition write_bytes (offset count : nat) (value : Z) (buffer : list Z) : list Z :=
  if offset + count <=? length buffer then splice buffer offset (replicate count value) else buffer.

Definition copy_bytes_within (src_offset dst_offset count : nat) (buffer : list Z) : list Z :=
  if (src_offset + count <=? length buffer) && (dst_offset + count <=? length buffer)
  then splice buffer dst_offset (slice buffer src_offset (src_offset + count)) else buffer.

(** ** [FramebufferInfo] *)

Record FramebufferInfo := mk_info {
  buffer : list Z;
  width : nat;
  height : nat;
  stride : nat;
  bytes_per_pixel : nat;
  bgr : bool;
}.

Definition set_buffer (buffer' : list Z) (i : FramebufferInfo) : FramebufferInfo :=
  mk_info buffer' (width i) (height i) (stride i) (bytes_per_pixel i) (bgr i).

Definition PIXEL_FORMAT_RGB : Z := 0.
Definition PIXEL_FORMAT_BLT_ONLY : Z := 3.

(** [video n] is the content of the [n] bytes at the base of the framebuffer. *)
Definition from_boot_info (video : nat -> list Z) (boot_info : BootInfo) : option FramebufferInfo :=
  if ((framebuffer_base boot_info =? 0) || (framebuffer_pixel_format boot_info =? PIXEL_FORMAT_BLT_ONLY))%Z
  then None
  else
    let stride := (framebuffer_pixels_per_scan_line boot_info * 4)%Z in
    let size := ((stride * framebuffer_height boot_info) mod u64_limit)%Z in
    Some (mk_info (video (Z.to_nat size)) (Z.to_nat (framebuffer_width boot_info))
            (Z.to_nat (framebuffer_height boot_info)) (Z.to_nat stride) 4
            (negb (framebuffer_pixel_format boot_info =? PIXEL_FORMAT_RGB)%Z)).

(** ** [FramebufferWriter] *)

Definition MARGIN : nat := 8.
Definition CHAR_WIDTH : nat := 8.
Definition LINE_HEIGHT : nat := 16.
Definition INPUT_LINE_CAPACITY : nat := 256.
Definition SCROLLBACK_LINE_CAPACITY : nat := 256.
Definition SCROLLBACK_COLUMN_CAPACITY : nat := 256.
Definition EDITOR_MAX_COLUMNS : nat := 256.
Definition EDITOR_MAX_ROWS : nat := 128.
Definition DEFAULT_FG : Z * Z * Z := (0, 255, 0)%Z.

(** [b' ']. *)
Definition space : Z := 32.

Record TerminalLine := mk_terminal_line {
  line_id : Z;
  line_bytes : list Z;
  line_colors : list Z;
}.

Definition TerminalLine_new (id : Z) : TerminalLine :=
  mk_terminal_line id (replicate SCROLLBACK_COLUMN_CAPACITY space) (replicate SCROLLBACK_COLUMN_CAPACITY 0%Z).

Record FramebufferWriter := mk_writer {
  info : FramebufferInfo;
  pos_x : nat;
  pos_y : nat;
  fg : Z * Z * Z;
  input_origin : option (nat * nat);
  input_cells : list (nat * nat);
  input_bytes : list Z;
  input_cell_count : nat;
  cursor_overlay : option (nat * nat * Z);
  editor_active : bool;
  editor_cells : list (list Z);
  history : list TerminalLine;
  current_line_id : Z;
  scrollback_offset : nat;
  input_origin_history : option (Z * nat);
  input_history_cells : list (Z * nat);
}.

Definition set_info (info' : FramebufferInfo) (w : FramebufferWriter) : FramebufferWriter :=
  mk_writer
    info' (pos_x w) (pos_y w) (fg w) (input_origin w) (input_cells w) (input_bytes w)
    (input_cell_count w) (cursor_overlay w) (editor_active w) (editor_cells w) (history w)
    (current_line_id w) (scrollback_offset w) (input_origin_history w) (input_history_cells w).

Definition set_position (pos_x' : nat) (pos_y' : nat) (w : FramebufferWriter) : FramebufferWriter :=
  mk_writer
    (info w) pos_x' pos_y' (fg w) (input_origin w) (input_cells w) (input_bytes w)
    (input_cell_count w) (cursor_overlay w) (editor_active w) (editor_cells w) (history w)
    (current_line_id w) (scrollback_offset w) (input_origin_history w) (input_history_cells w).

Definition set_fg (fg' : Z * Z * Z) (w : FramebufferWriter) : FramebufferWriter :=
  mk_writer
    (info w) (pos_x w) (pos_y w) fg' (input_origin w) (input_cells w) (input_bytes w)
    (input_cell_count w) (cursor_overlay w) (editor_active w) (editor_cells w) (history w)
    (current_line_id w) (scrollback_offset w) (input_origin_history w) (input_history_cells w).

Definition set_input_origin (input_origin' : option (nat * nat)) (input_origin_history' : option (Z * nat)) (w : FramebufferWriter) : FramebufferWriter :=
  mk_writer
    (info w) (pos_x w) (pos_y w) (fg w) input_origin' (input_cells w) (input_bytes w)
    (input_cell_count w) (cursor_overlay w) (editor_active w) (editor_cells w) (history w)
    (current_line_id w) (scrollback_offset w) input_origin_history' (input_history_cells w).

Definition set_input_cells (input_cells' : list (nat * nat)) (w : FramebufferWriter) : FramebufferWriter :=
  mk_writer
    (info w) (pos_x w) (pos_y w) (fg w) (input_origin w) input_cells' (input_bytes w)
    (input_cell_count w) (cursor_overlay w) (editor_active w) (editor_cells w) (history w)
    (current_line_id w) (scrollback_offset w) (input_origin_history w) (input_history_cells w).

Definition set_input_cell (input_cells' : list (nat * nat)) (input_bytes' : list Z) (w : FramebufferWriter) : FramebufferWriter :=
  mk_writer
    (info w) (pos_x w) (pos_y w) (fg w) (input_origin w) input_cells' input_bytes'
    (input_cell_count w) (cursor_overlay w) (editor_active w) (editor_cells w) (history w)
    (current_line_id w) (scrollback_offset w) (input_origin_history w) (input_history_cells w).

Definition set_input_cell_count (input_cell_count' : nat) (w : FramebufferWriter) : FramebufferWriter :=
  mk_writer
    (info w) (pos_x w) (pos_y w) (fg w) (input_origin w) (input_cells w) (input_bytes w)
    input_cell_count' (cursor_overlay w) (editor_active w) (editor_cells w) (history w)
    (current_line_id w) (scrollback_offset w) (input_origin_history w) (input_history_cells w).

Definition set_cursor_overlay (cursor_overlay' : option (nat * nat * Z)) (w : FramebufferWriter) : FramebufferWriter :=
  mk_writer
    (info w) (pos_x w) (pos_y w) (fg w) (input_origin w) (input_cells w) (input_bytes w)
    (input_cell_count w) cursor_overlay' (editor_active w) (editor_cells w) (history w)
    (current_line_id w) (scrollback_offset w) (input_origin_history w) (input_history_cells w).

Definition set_editor_active (editor_active' : bool) (w : FramebufferWriter) : FramebufferWriter :=
  mk_writer
    (info w) (pos_x w) (pos_y w) (fg w) (input_origin w) (input_cells w) (input_bytes w)
    (input_cell_count w) (cursor_overlay w) editor_active' (editor_cells w) (history w)
    (current_line_id w) (scrollback_offset w) (input_origin_history w) (input_history_cells w).

Definition set_editor_cells (editor_cells' : list (list Z)) (w : FramebufferWriter) : FramebufferWriter :=
  mk_writer
    (info w) (pos_x w) (pos_y w) (fg w) (input_origin w) (input_cells w) (input_bytes w)
    (input_cell_count w) (cursor_overlay w) (editor_active w) editor_cells' (history w)
    (current_line_id w) (scrollback_offset w) (input_origin_history w) (input_history_cells w).

Definition set_history (history' : list TerminalLine) (w : FramebufferWriter) : FramebufferWriter :=
  mk_writer
    (info w) (pos_x w) (pos_y w) (fg w) (input_origin w) (input_cells w) (input_bytes w)
    (input_cell_count w) (cursor_overlay w) (editor_active w) (editor_cells w) history'
    (current_line_id w) (scrollback_offset w) (input_origin_history w) (input_history_cells w).

Definition set_current_line (current_line_id' : Z) (w : FramebufferWriter) : FramebufferWriter :=
  mk_writer
    (info w) (pos_x w) (pos_y w) (fg w) (input_origin w) (input_cells w) (input_bytes w)
    (input_cell_count w) (cursor_overlay w) (editor_active w) (editor_cells w) (history w)
    current_line_id' (scrollback_offset w) (input_origin_history w) (input_history_cells w).

Definition set_scrollback_offset (scrollback_offset' : nat) (w : FramebufferWriter) : FramebufferWriter :=
  mk_writer
    (info w) (pos_x w) (pos_y w) (fg w) (input_origin w) (input_cells w) (input_bytes w)
    (input_cell_count w) (cursor_overlay w) (editor_active w) (editor_cells w) (history w)
    (current_line_id w) scrollback_offset' (input_origin_history w) (input_history_cells w).

Definition set_input_history_cells (input_history_cells' : list (Z * nat)) (w : FramebufferWriter) : FramebufferWriter :=
  mk_writer
    (info w) (pos_x w) (pos_y w) (fg w) (input_origin w) (input_cells w) (input_bytes w)
    (input_cell_count w) (cursor_overlay w) (editor_active w) (editor_cells w) (history w)
    (current_line_id w) (scrollback_offset w) (input_origin_history w) input_history_cells'.

(** ** Pixels *)

(** [for i in a..a + n { f(i) }]. *)
Definition for_range {S} (a n : nat) (f : nat -> S -> S) (s : S) : S := foldl (fun s i => f i s) s (seq a n).

Definition write_pixel_info (x y : nat) (color : Z * Z * Z) (i : FramebufferInfo) : FramebufferInfo :=
  if (width i <=? x) || (height i <=? y) then i
  else
    let '(r, g, b) := color in
    let offset := y * stride i + x * bytes_per_pixel i in
    let '(p0, p1, p2) := if bgr i then (b, g, r) else (r, g, b) in
    set_buffer (write_volatile (offset + 2) p2 (write_volatile (offset + 1) p1 (write_volatile offset p0 (buffer i)))) i.

Definition black : Z * Z * Z := (0, 0, 0)%Z.

Definition clear_character_info (x y : nat) (i : FramebufferInfo) : FramebufferInfo :=
  for_range y 8 (fun row => for_range x CHAR_WIDTH (fun col => write_pixel_info col row black)) i.

Definition draw_character_info (x y : nat) (byte : Z) (color : Z * Z * Z) (i : FramebufferInfo) : FramebufferInfo :=
  for_range 0 (length (get_glyph byte)) (fun row =>
    for_range 0 CHAR_WIDTH (fun col i =>
      if glyph_bit byte row col then write_pixel_info (x + col) (y + row) color i else i)) i.

Definition draw_cursor_info (x y : nat) (byte : Z) (color : Z * Z * Z) (i : FramebufferInfo) : FramebufferInfo :=
  for_range 0 (length (get_glyph byte)) (fun row =>
    for_range 0 CHAR_WIDTH (fun col =>
      write_pixel_info (x + col) (y + row) (if glyph_bit byte row col then black else color))) i.

Definition on_info (f : FramebufferInfo -> FramebufferInfo) (w : FramebufferWriter) : FramebufferWriter :=
  set_info (f (info w)) w.

Definition clear_character (x y : nat) : FramebufferWriter -> FramebufferWriter := on_info (clear_character_info x y).

Definition draw_character_with_color (x y : nat) (byte : Z) (color : Z * Z * Z) : FramebufferWriter -> FramebufferWriter :=
  on_info (draw_character_info x y byte color).

Definition draw_character_at (x y : nat) (byte : Z) (w : FramebufferWriter) : FramebufferWriter :=
  draw_character_with_color x y byte (fg w) w.

Definition draw_cursor_overlay (x y : nat) (byte : Z) (w : FramebufferWriter) : FramebufferWriter :=
  set_cursor_overlay (Some (x, y, byte)) (on_info (draw_cursor_info x y byte (fg w)) w).

Definition remove_cursor_overlay (w : FramebufferWriter) : FramebufferWriter :=
  match cursor_overlay w with
  | Some (x, y, byte) =>
      let w := clear_character x y (set_cursor_overlay None w) in
      if (byte =? space)%Z then w else draw_character_at x y byte w
  | None => w
  end.

(** ** The whole screen *)

Definition clear_screen (i : FramebufferInfo) : FramebufferInfo :=
  set_buffer (write_bytes 0 (stride i * height i) 0%Z (buffer i)) i.

Definition clear (w : FramebufferWriter) : FramebufferWriter :=
  set_editor_cells (replicate (length (editor_cells w)) (replicate EDITOR_MAX_COLUMNS space))
    (set_editor_active false (set_cursor_overlay None (set_input_cell_count 0 (set_input_origin None None
      (set_position MARGIN MARGIN (set_scrollback_offset 0 (set_current_line 0%Z
        (set_history [TerminalLine_new 0] (on_info clear_screen w))))))))).

Definition FramebufferWriter_new (i : FramebufferInfo) : FramebufferWriter :=
  clear (mk_writer i MARGIN MARGIN DEFAULT_FG None (replicate INPUT_LINE_CAPACITY (0, 0))
           (replicate INPUT_LINE_CAPACITY space) 0 None false
           (replicate EDITOR_MAX_ROWS (replicate EDITOR_MAX_COLUMNS space)) [] 0%Z 0 None
           (replicate INPUT_LINE_CAPACITY (0%Z, 0))).

Definition set_color (r g b : Z) : FramebufferWriter -> FramebufferWriter := set_fg (r, g, b).

Definition clear_rows (start_row count : nat) (i : FramebufferInfo) : FramebufferInfo :=
  set_buffer (write_bytes (start_row * stride i) (count * stride i) 0%Z (buffer i)) i.

(** The cells of the command line, the first [n] of them, and the origin and the cursor
    move up with the text. *)
Definition move_cells_up (rows n : nat) (cells : list (nat * nat)) : list (nat * nat) :=
  ((fun c => (c.1, c.2 - rows)) <$> take n cells) ++ drop n cells.

Definition scroll_up (rows : nat) : Method FramebufferWriter unit :=
  w ← get;
  let i := info w in
  if rows =? 0 then mret tt
  else if height i <=? rows then modify clear
  else
    _ ← modify (on_info (fun i => set_buffer (copy_bytes_within (rows * stride i) 0 ((height i - rows) * stride i) (buffer i)) i));
    _ ← modify (on_info (clear_rows (height i - rows) rows));
    _ ← modify (fun w => set_input_origin ((fun o => (o.1, o.2 - rows)) <$> input_origin w) (input_origin_history w) w);
    _ ← modify (fun w => set_cursor_overlay ((fun o => (o.1.1, o.1.2 - rows, o.2)) <$> cursor_overlay w) w);
    w ← get;
    _ ← lift (slice_to (input_cells w) (input_cell_count w));
    put (set_input_cells (move_cells_up rows (input_cell_count w) (input_cells w)) w).

(** ** The text of the lines *)

(** [while self.history.back().is_none_or(|line| line.id < id)]. *)
Definition ensure_round (id : Z) (h : list TerminalLine) : list TerminalLine + list TerminalLine :=
  let grow next := 
    let h := h ++ [TerminalLine_new next] in
    inl (if SCROLLBACK_LINE_CAPACITY <? length h then drop 1 h else h) in
  match last h with
  | None => grow id
  | Some line => if (line_id line <? id)%Z then grow (line_id line + 1)%Z else inr h
  end.

Definition back_id (h : list TerminalLine) : option Z := line_id <$> last h.

Definition ensure_history_line (id : Z) : Method FramebufferWriter unit :=
  w ← get;
  h ← lift (expect (while_loop (Z.max 0 (id - default (id - 1) (back_id (history w))) + 2)%Z (ensure_round id) (history w)));
  put (set_history h w).

Definition set_line_cell (column : nat) (byte color : Z) (line : TerminalLine) : outcome Empty_set TerminalLine :=
  b ← set_index (line_bytes line) column byte;
  c ← set_index (line_colors line) column color;
  Ok (mk_terminal_line (line_id line) b c).

Definition set_cell_at (position column : nat) (byte color : Z) : Method FramebufferWriter unit :=
  w ← get;
  line ← lift (index_of (history w) position);
  line ← lift (set_line_cell column byte color line);
  put (set_history (<[position := line]> (history w)) w).

Definition set_history_cell (id : Z) (column : nat) (byte color : Z) : Method FramebufferWriter unit :=
  w ← get;
  if SCROLLBACK_COLUMN_CAPACITY <=? column then mret tt
  else
    match position (fun line => line_id line =? id)%Z (history w) with
    | Some position => set_cell_at position column byte color
    | None =>
        if (default 0 (back_id (history w)) <=? id)%Z then
          _ ← ensure_history_line id;
          w ← get;
          if bool_decide (back_id (history w) = Some id)
          then set_cell_at (length (history w) - 1) column byte color else mret tt
        else mret tt
    end.

(** [while self.history.back().is_some_and(|line| line.id > id) { pop_back }]. *)
Definition trim_history_after (id : Z) (w : FramebufferWriter) : FramebufferWriter :=
  set_history (reverse (drop_while (fun line => id <? line_id line)%Z (reverse (history w)))) w.

(** ** Printing *)

Definition new_line : Method FramebufferWriter unit :=
  _ ← modify (fun w => set_position MARGIN (pos_y w) w);
  _ ← modify (fun w => set_current_line (wrapping_add u64_limit (current_line_id w) 1) w);
  w ← get;
  _ ← ensure_history_line (current_line_id w);
  w ← get;
  if height (info w) <? pos_y w + LINE_HEIGHT + MARGIN + LINE_HEIGHT
  then scroll_up LINE_HEIGHT
  else put (set_position (pos_x w) (pos_y w + LINE_HEIGHT) w).

Definition wrap_if_needed : Method FramebufferWriter unit :=
  w ← get;
  if width (info w) <=? pos_x w + CHAR_WIDTH + MARGIN then new_line else mret tt.

(** [(u32::from(r) << 16) | (u32::from(g) << 8) | u32::from(b)], and back. *)
Definition pack_color (color : Z * Z * Z) : Z :=
  let '(r, g, b) := color in Z.lor (Z.lor (Z.shiftl r 16) (Z.shiftl g 8)) b.

Definition unpack_color (color : Z) : Z * Z * Z :=
  (Z.land (Z.shiftr color 16) 0xff, Z.land (Z.shiftr color 8) 0xff, Z.land color 0xff).

Definition column_at (x : nat) : nat := (x - MARGIN) / CHAR_WIDTH.

Definition draw_ascii_char (c : Z) : Method FramebufferWriter unit :=
  w ← get;
  _ ← set_history_cell (current_line_id w) (column_at (pos_x w)) c (pack_color (fg w));
  modify (fun w => set_position (pos_x w + CHAR_WIDTH) (pos_y w)
                     (on_info (draw_character_info (pos_x w) (pos_y w) c (fg w)) w)).

(** ** Scrolling back *)

Definition visible_rows (w : FramebufferWriter) : nat := (height (info w) - 2 * MARGIN) / LINE_HEIGHT.

Definition oldest_id (w : FramebufferWriter) : Z := default (current_line_id w) (line_id <$> head (history w)).

(** One line of the text on a row of the screen. *)
Definition draw_history_line (row : nat) (line : TerminalLine) : Method FramebufferWriter unit :=
  w ← get;
  for_op (seq 0 (Nat.min ((width (info w) - 2 * MARGIN) / CHAR_WIDTH) SCROLLBACK_COLUMN_CAPACITY)) (fun column =>
    byte ← lift (index_of (line_bytes line) column);
    color ← lift (index_of (line_colors line) column);
    if (byte =? space)%Z then mret tt
    else modify (draw_character_with_color (MARGIN + column * CHAR_WIDTH) (MARGIN + row * LINE_HEIGHT)
                   byte (unpack_color color))).

Definition SCROLLBACK_STATUS : list Z := str "SCROLLBACK PgUp/PgDn | Esc: live".

Fixpoint draw_status (column y : nat) (status : list Z) (w : FramebufferWriter) : FramebufferWriter :=
  match status with
  | [] => w
  | byte :: status =>
      if width (info w) <? MARGIN + column * CHAR_WIDTH + CHAR_WIDTH then w
      else draw_status (column + 1) y status
             (draw_character_with_color (MARGIN + column * CHAR_WIDTH) y byte (fg w) w)
  end.

Definition render_history_view : Method FramebufferWriter unit :=
  _ ← modify (on_info clear_screen);
  w ← get;
  let rows := visible_rows w in
  if rows =? 0 then mret tt
  else
    let viewing_history := negb (scrollback_offset w =? 0) in
    let content_rows := rows - (if viewing_history then 1 else 0) in
    let current_screen_row := (pos_y w - MARGIN) / LINE_HEIGHT in
    last_row ← lift (sub_usize rows 1);
    let bottom_row := if viewing_history then rows - 2 else Nat.min current_screen_row last_row in
    let oldest := oldest_id w in
    let end_id := Z.max (saturating_sub (current_line_id w) (Z.of_nat (scrollback_offset w))) oldest in
    let visible_count := Nat.min content_rows (bottom_row + 1) in
    let first_id := Z.max (saturating_sub end_id (Z.of_nat (visible_count - 1))) oldest in
    _ ← for_op (seqZ first_id (end_id - first_id + 1)) (fun id =>
          let screen_row := bottom_row - Z.to_nat (end_id - id) in
          w ← get;
          match position (fun line => line_id line =? id)%Z (history w) with
          | Some position => line ← lift (index_of (history w) position); draw_history_line screen_row line
          | None => mret tt
          end);
    if viewing_history
    then modify (draw_status 0 (MARGIN + last_row * LINE_HEIGHT) SCROLLBACK_STATUS)
    else mret tt.

Definition scrollback_page (up : bool) : Method FramebufferWriter unit :=
  w ← get;
  let available := Z.to_nat (saturating_sub (current_line_id w) (oldest_id w)) in
  let page := Nat.max (visible_rows w / 2) 1 in
  _ ← put (set_scrollback_offset (if up then Nat.min (scrollback_offset w + page) available
                                 else scrollback_offset w - page) w);
  render_history_view.

Definition scrollback_to_bottom : Method FramebufferWriter bool :=
  w ← get;
  if scrollback_offset w =? 0 then mret false
  else
    _ ← put (set_scrollback_offset 0 w);
    _ ← render_history_view;
    mret true.

(** [framebuffer::write_bytes], and [write_str] on the bytes of a string. *)
Definition put_byte (byte : Z) : Method FramebufferWriter unit :=
  if (byte =? 10)%Z then new_line
  else if (byte =? 13)%Z then mret tt
  else _ ← wrap_if_needed; draw_ascii_char byte.

Definition print_bytes (bytes : list Z) : Method FramebufferWriter unit :=
  _ ← for_op bytes put_byte;
  w ← get;
  if scrollback_offset w =? 0 then mret tt else render_history_view.

(** ** The command line *)

Definition backspace : Method FramebufferWriter unit :=
  w ← get;
  let erase : Method FramebufferWriter unit :=
    w ← get;
    x ← lift (sub_usize (pos_x w) CHAR_WIDTH);
    put (clear_character x (pos_y w) (set_position x (pos_y w) w)) in
  if pos_x w =? MARGIN then
    if pos_y w <=? MARGIN then mret tt
    else
      y ← lift (sub_usize (pos_y w) LINE_HEIGHT);
      let available := width (info w) - (2 * MARGIN + CHAR_WIDTH + 1) in
      _ ← put (set_position (MARGIN + available / CHAR_WIDTH * CHAR_WIDTH + CHAR_WIDTH) y w);
      erase
  else erase.

Definition begin_input_line (w : FramebufferWriter) : FramebufferWriter :=
  set_input_cell_count 0
    (set_input_origin (Some (pos_x w, pos_y w)) (Some (current_line_id w, column_at (pos_x w))) w).

Definition finish_input_line (w : FramebufferWriter) : FramebufferWriter :=
  set_input_cell_count 0 (set_input_origin None None (remove_cursor_overlay w)).

(** One character of the command line. *)
Definition redraw_cell (old_cell_count : nat) (history_color : Z) (index : nat) (byte : Z) : Method FramebufferWriter unit :=
  _ ← wrap_if_needed;
  w ← get;
  let new_cell := (pos_x w, pos_y w) in
  let history_cell := (current_line_id w, column_at (pos_x w)) in
  cells ← lift (set_index (input_history_cells w) index history_cell);
  _ ← put (set_input_history_cells cells w);
  _ ← set_history_cell history_cell.1 history_cell.2 byte history_color;
  w ← get;
  let old_cell := input_cells w !! index in
  same_byte ← (if old_cell_count <=? index then mret false
               else old_byte ← lift (index_of (input_bytes w) index); mret (old_byte =? byte)%Z);
  let changed := negb (same_byte && bool_decide (old_cell = Some new_cell)) in
  _ ← match old_cell with
      | Some old =>
          if (index <? old_cell_count) && negb (bool_decide (old = new_cell))
          then modify (clear_character old.1 old.2) else mret tt
      | None => mret tt
      end;
  _ ← (if changed
       then _ ← modify (clear_character new_cell.1 new_cell.2); draw_ascii_char byte
       else modify (fun w => set_position (pos_x w + CHAR_WIDTH) (pos_y w) w));
  w ← get;
  cells ← lift (set_index (input_cells w) index new_cell);
  bytes ← lift (set_index (input_bytes w) index byte);
  put (set_input_cell_count (Nat.max old_cell_count (index + 1)) (set_input_cell cells bytes w)).

Fixpoint redraw_cells (old_cell_count : nat) (history_color : Z) (index : nat) (bytes : list Z) :
  Method FramebufferWriter unit :=
  match bytes with
  | [] => mret tt
  | byte :: bytes =>
      _ ← redraw_cell old_cell_count history_color index byte;
      redraw_cells old_cell_count history_color (index + 1) bytes
  end.

Definition redraw_input_line (bytes : list Z) (cursor : nat) : Method FramebufferWriter unit :=
  w ← get;
  match input_origin w with
  | None => mret tt
  | Some (origin_x, origin_y) =>
      _ ← modify remove_cursor_overlay;
      let old_cell_count := input_cell_count w in
      _ ← for_op (seq 0 old_cell_count) (fun index =>
            w ← get;
            cell ← lift (index_of (input_history_cells w) index);
            set_history_cell cell.1 cell.2 space 0%Z);
      w ← get;
      match input_origin_history w with
      | None => mret tt
      | Some (origin_line, _) =>
          _ ← put (set_position origin_x origin_y (set_current_line origin_line w));
          _ ← redraw_cells old_cell_count (pack_color (fg w)) 0 bytes;
          _ ← for_op (seq (length bytes) (old_cell_count - length bytes)) (fun index =>
                w ← get;
                cell ← lift (index_of (input_cells w) index);
                put (clear_character cell.1 cell.2 w));
          _ ← modify (fun w => trim_history_after (current_line_id w) w);
          _ ← modify (set_input_cell_count (length bytes));
          _ ← (if cursor <? length bytes
               then w ← get;
                    cell ← lift (index_of (input_cells w) cursor);
                    put (set_position cell.1 cell.2 w)
               else wrap_if_needed);
          modify (fun w => draw_cursor_overlay (pos_x w) (pos_y w) (default space (bytes !! cursor)) w)
      end
  end.

(** ** The text editor *)

(** A character is the list of its bytes. *)
Definition editor_display_byte (character : list Z) : Z :=
  match character with
  | [c] => if (space <=? c)%Z && (c <=? 126)%Z then c else 63
  | _ => 63
  end.

(** A row being filled, and the number of its bytes in use. *)
Fixpoint append_editor_chars (limit : nat) (text : list (list Z)) (row : list Z * nat) : outcome Empty_set (list Z * nat) :=
  match text with
  | [] => Ok row
  | character :: text =>
      if limit <=? row.2 then Ok row
      else
        line ← set_index row.1 row.2 (editor_display_byte character);
        append_editor_chars limit text (line, row.2 + 1)
  end.

Definition append_editor_text (limit : nat) (text : list Z) (row : list Z * nat) : outcome Empty_set (list Z * nat) :=
  append_editor_chars limit (chars text) row.

(** The digits of a number, the last one first, in an array of [room] bytes. *)
Fixpoint number_digits (room : nat) (number : Z) : outcome Empty_set (list Z) :=
  match room with
  | O => Panic
  | S room =>
      let digit := (48 + number mod 10)%Z in
      if (number / 10 =? 0)%Z then Ok [digit]
      else digits ← number_digits room (number / 10); Ok (digit :: digits)
  end.

Fixpoint append_digits (limit : nat) (digits : list Z) (row : list Z * nat) : outcome Empty_set (list Z * nat) :=
  match digits with
  | [] => Ok row
  | digit :: digits =>
      if row.2 <? limit
      then line ← set_index row.1 row.2 digit; append_digits limit digits (line, row.2 + 1)
      else Ok row
  end.

Definition append_editor_number (limit : nat) (number : nat) (row : list Z * nat) : outcome Empty_set (list Z * nat) :=
  digits ← number_digits 20 (Z.of_nat number);
  append_digits limit (reverse digits) row.

Definition blank_row : list Z := replicate EDITOR_MAX_COLUMNS space.

Definition write_editor_cell (row column : nat) (byte : Z) : Method FramebufferWriter unit :=
  w ← get;
  cells ← lift (index_of (editor_cells w) row);
  old ← lift (index_of cells column);
  if (old =? byte)%Z then mret tt
  else
    let x := MARGIN + column * CHAR_WIDTH in
    let y := MARGIN + row * LINE_HEIGHT in
    _ ← modify (clear_character x y);
    _ ← (if (byte =? space)%Z then mret tt else modify (draw_character_at x y byte));
    cells ← lift (set_index cells column byte);
    modify (fun w => set_editor_cells (<[row := cells]> (editor_cells w)) w).

Definition write_editor_row (row : nat) (contents : list Z) (columns : nat) : Method FramebufferWriter unit :=
  if (EDITOR_MAX_ROWS <=? row) || (EDITOR_MAX_COLUMNS <? columns) then mret tt
  else for_op (seq 0 columns) (fun column => write_editor_cell row column (default space (contents !! column))).

(** [text.split('\n')]. *)
Fixpoint split_newline (l : list Z) : list (list Z) :=
  match l with
  | [] => [[]]
  | b :: l =>
      if (b =? newline)%Z then [] :: split_newline l
      else match split_newline l with
           | [] => [[b]]
           | c :: cs => (b :: c) :: cs
           end
  end.

(** The line and the column after some characters. *)
Fixpoint cursor_place (text : list (list Z)) (line column : nat) : nat * nat :=
  match text with
  | [] => (line, column)
  | character :: text =>
      if not_newline character then cursor_place text line (column + 1) else cursor_place text (line + 1) 0
  end.

(** The bytes of one line of the file. *)
Fixpoint fill_row (column : nat) (text : list (list Z)) (line : list Z) : outcome Empty_set (list Z) :=
  match text with
  | [] => Ok line
  | character :: text => line ← set_index line column (editor_display_byte character); fill_row (column + 1) text line
  end.

Definition editor_columns (i : FramebufferInfo) : nat := Nat.min ((width i - 2 * MARGIN) / CHAR_WIDTH) EDITOR_MAX_COLUMNS.
Definition editor_rows (i : FramebufferInfo) : nat := Nat.min ((height i - 2 * MARGIN) / LINE_HEIGHT) EDITOR_MAX_ROWS.

Definition title_row (columns : nat) (name : list Z) (dirty : bool) : outcome Empty_set (list Z * nat) :=
  row ← append_editor_text columns (str "EDIT  /") (blank_row, 0);
  row ← append_editor_text columns name row;
  if dirty then append_editor_text columns (str "  * modified") row else Ok row.

Definition help_row (columns : nat) : outcome Empty_set (list Z * nat) :=
  append_editor_text columns (str "Arrows move | Enter newline | Ctrl+S save | Ctrl+Q/Esc quit") (blank_row, 0).

Definition place_row (columns cursor_line total_lines cursor_column size : nat) : outcome Empty_set (list Z * nat) :=
  row ← append_editor_text columns (str "Ln ") (blank_row, 0);
  row ← append_editor_number columns (cursor_line + 1) row;
  row ← append_editor_text columns (str "/") row;
  row ← append_editor_number columns total_lines row;
  row ← append_editor_text columns (str "  Col ") row;
  row ← append_editor_number columns (cursor_column + 1) row;
  row ← append_editor_text columns (str "  |  ") row;
  row ← append_editor_number columns size row;
  append_editor_text columns (str " bytes") row.

Definition state_row (columns : nat) (dirty : bool) : outcome Empty_set (list Z * nat) :=
  append_editor_text columns (if dirty then str "Unsaved changes" else str "Saved") (blank_row, 0).

(** The visible lines of the file, from a row of the screen on. *)
Fixpoint write_content (row horizontal_start columns : nat) (lines : list (list Z)) : Method FramebufferWriter unit :=
  match lines with
  | [] => mret tt
  | file_line :: lines =>
      contents ← lift (fill_row 0 (take columns (drop horizontal_start (chars file_line))) blank_row);
      _ ← write_editor_row row contents columns;
      write_content (row + 1) horizontal_start columns lines
  end.

Definition render_editor (name text : list Z) (cursor : nat) (dirty : bool) : Method FramebufferWriter unit :=
  w ← get;
  _ ← (if editor_active w then mret tt else modify (fun w => set_editor_active true (clear w)));
  _ ← modify remove_cursor_overlay;
  w ← get;
  let columns := editor_columns (info w) in
  let rows := editor_rows (info w) in
  if (columns =? 0) || (rows <? 6) then mret tt
  else
    let cursor := Nat.min cursor (length text) in
    before ← lift (str_to text cursor);
    let '(cursor_line, cursor_column) := cursor_place (chars before) 0 0 in
    let total_lines := count (fun character => negb (not_newline character)) (chars text) + 1 in
    let content_start := 3 in
    footer_start ← lift (sub_usize rows 2);
    content_rows ← lift (sub_usize footer_start content_start);
    last_content_row ← lift (sub_usize content_rows 1);
    let first_line := cursor_line - last_content_row in
    last_column ← lift (sub_usize columns 1);
    let horizontal_start := cursor_column - last_column in
    title ← lift (title_row columns name dirty);
    _ ← write_editor_row 0 title.1 columns;
    help ← lift (help_row columns);
    _ ← write_editor_row 1 help.1 columns;
    _ ← write_editor_row 2 (replicate EDITOR_MAX_COLUMNS 45%Z) columns;
    let visible := take content_rows (drop first_line (split_newline text)) in
    _ ← write_content content_start horizontal_start columns visible;
    _ ← for_op (seq (length visible) (content_rows - length visible)) (fun row =>
          write_editor_row (content_start + row) blank_row columns);
    place ← lift (place_row columns cursor_line total_lines cursor_column (length text));
    _ ← write_editor_row footer_start place.1 columns;
    state ← lift (state_row columns dirty);
    last_row ← lift (sub_usize rows 1);
    _ ← write_editor_row last_row state.1 columns;
    let cursor_row := content_start + (cursor_line - first_line) in
    let cursor_column := Nat.min (cursor_column - horizontal_start) last_column in
    let x := MARGIN + cursor_column * CHAR_WIDTH in
    let y := MARGIN + cursor_row * LINE_HEIGHT in
    after ← lift (str_from text cursor);
    let byte := match head (chars after) with
                | Some character => if not_newline character then editor_display_byte character else space
                | None => space
                end in
    modify (fun w => draw_cursor_overlay x y byte (set_position x y w)).

(** ** Steps of a method *)

Section steps.
Context {S E A B : Type}.

Lemma step_get (k : S -> Op S E B) (s : S) : (get ≫= k) s = k s s.
Proof. done. Qed.

Lemma step_modify f (k : unit -> Op S E B) (s : S) : (modify f ≫= k) s = k tt (f s).
Proof. done. Qed.

Lemma step_put s' (k : unit -> Op S E B) (s : S) : (put s' ≫= k) s = k tt s'.
Proof. done. Qed.

Lemma step_lift (a : A) (k : A -> Op S E B) (s : S) : (lift (Ok a) ≫= k) s = k a s.
Proof. done. Qed.

Lemma step_Ok (m : Op S E A) (k : A -> Op S E B) s s' a : m s = (s', Ok a) -> (m ≫= k) s = k a s'.
Proof. intros H. unfold mbind, op_bind. by rewrite H. Qed.
End steps.
