(* ===== verification/Pixels.v ===== *)
(** * Drawing

    What the drawing operations of the framebuffer console do to the pixels: each of them
    gives some pixels a colour and leaves the others and the shape of the framebuffer. *)

From S2P Require Import Prelude Font FrameAlloc Utf8 Chars LineEdit TextEdit Framebuffer.

(** A framebuffer with four bytes for a pixel, whose rows are in the buffer. *)
Record info_ok (i : FramebufferInfo) : Prop := {
  ok_bytes : bytes_per_pixel i = 4;
  ok_stride : 4 * width i <= stride i;
  ok_size : length (buffer i) = stride i * height i;
}.

(** The colour of a pixel. *)
Definition pixel (i : FramebufferInfo) (x y : nat) : Z * Z * Z :=
  let at_ k := default 0%Z (buffer i !! (y * stride i + x * 4 + k)) in
  if bgr i then (at_ 2, at_ 1, at_ 0) else (at_ 0, at_ 1, at_ 2).

(** The same framebuffer with another content. *)
Definition same_frame (i i' : FramebufferInfo) : Prop :=
  exists b, i' = set_buffer b i /\ length b = length (buffer i).

#[export] Instance same_frame_preorder : PreOrder same_frame.
Proof.
  split.
  - intros []. by eexists.
  - intros [] ? ? (b & -> & Hb) (b' & -> & Hb'). exists b'. cbn in *. by rewrite Hb'.
Qed.

Lemma same_frame_ok i i' : same_frame i i' -> info_ok i -> info_ok i'.
Proof. intros (b & -> & Hb) [H1 H2 H3]. split; cbn; [done..|congruence]. Qed.

(** [i'] is [i] with the pixels of [f] painted. *)
Definition paints (f : nat -> nat -> option (Z * Z * Z)) (i i' : FramebufferInfo) : Prop :=
  same_frame i i' /\
  forall x y, x < width i -> y < height i -> pixel i' x y = default (pixel i x y) (f x y).

Lemma paints_trans f g i1 i2 i3 : paints f i1 i2 -> paints g i2 i3 ->
  paints (fun x y => match g x y with Some c => Some c | None => f x y end) i1 i3.
Proof.
  intros [Hs Hf] [Hs' Hg]. split; [by etrans|]. intros x y Hx Hy.
  assert (width i2 = width i1 /\ height i2 = height i1) as [Hw Hh] by (by destruct Hs as (b & -> & _)).
  rewrite Hg, Hf by lia. by destruct (g x y).
Qed.

Lemma paints_ext f g i i' : (forall x y, f x y = g x y) -> paints f i i' -> paints g i i'.
Proof. intros He [Hs Hf]. split; [done|]. intros x y Hx Hy. by rewrite Hf, He. Qed.

Lemma paints_none i : paints (fun _ _ => None) i i.
Proof. split; [done|]. intros. done. Qed.

(** ** Pixels are apart *)

Lemma offset_inj s w x y a x' y' b : 4 * w <= s -> x < w -> x' < w -> a < 4 -> b < 4 ->
  y * s + x * 4 + a = y' * s + x' * 4 + b -> x = x' /\ y = y' /\ a = b.
Proof.
  intros Hs Hx Hx' Ha Hb He. destruct (Nat.lt_trichotomy y y') as [Hy|[->|Hy]]; [|lia|].
  - assert (y * s + s <= y' * s) by nia. lia.
  - assert (y' * s + s <= y * s) by nia. lia.
Qed.

Lemma offset_lt s w h x y a : 4 * w <= s -> x < w -> y < h -> a < 4 -> y * s + x * 4 + a < s * h.
Proof. intros. assert (y * s + s <= s * h) by nia. lia. Qed.

Lemma write_volatile_in offset value b : offset < length b -> write_volatile offset value b = <[offset := value]> b.
Proof. intros H. unfold write_volatile. by rewrite (proj2 (Nat.ltb_lt _ _)). Qed.

Lemma length_write_volatile offset value b : length (write_volatile offset value b) = length b.
Proof. unfold write_volatile. case_match; [apply length_insert|done]. Qed.

Lemma write_pixel_paints x y c i : info_ok i ->
  paints (fun x' y' => if (x' =? x) && (y' =? y) then Some c else None) i (write_pixel_info x y c i).
Proof.
  intros [Hb Hs Hl]. unfold write_pixel_info.
  destruct ((width i <=? x) || (height i <=? y)) eqn:Ho.
  { split; [done|]. intros x' y' Hx Hy. destruct ((x' =? x) && (y' =? y)) eqn:He; [|done].
    apply andb_true_iff in He as [->%Nat.eqb_eq ->%Nat.eqb_eq]. apply orb_true_iff in Ho as [?|?]; bools; lia. }
  apply orb_false_iff in Ho as [Hx%Nat.leb_gt Hy%Nat.leb_gt].
  assert (forall k, k < 4 -> y * stride i + x * 4 + k < length (buffer i)) as Hlt.
  { intros k Hk. rewrite Hl. by apply (offset_lt _ (width i)). }
  destruct c as [[r g] b]. rewrite Hb.
  assert (exists p0 p1 p2, (if bgr i then (b, g, r) else (r, g, b)) = (p0, p1, p2)) as (p0 & p1 & p2 & Hp).
  { destruct (bgr i); eauto. }
  rewrite Hp. pose proof (Hlt 0 ltac:(lia)). pose proof (Hlt 1 ltac:(lia)). pose proof (Hlt 2 ltac:(lia)).
  rewrite !write_volatile_in by (rewrite ?length_write_volatile, ?length_insert; lia).
  split; [eexists; split; [done|by rewrite !length_insert]|]. intros x' y' Hx' Hy'. unfold pixel. cbn.
  destruct ((x' =? x) && (y' =? y)) eqn:He; cbn.
  - apply andb_true_iff in He as [->%Nat.eqb_eq ->%Nat.eqb_eq].
    rewrite Nat.add_0_r. rewrite list_lookup_insert_eq by (rewrite !length_insert; lia).
    rewrite list_lookup_insert_ne, list_lookup_insert_eq by (rewrite ?length_insert; lia).
    rewrite !list_lookup_insert_ne, list_lookup_insert_eq by (rewrite ?length_insert; lia).
    cbn. destruct (bgr i); by simplify_eq.
  - assert (forall a k, a < 4 -> k < 4 -> y * stride i + x * 4 + a <> y' * stride i + x' * 4 + k) as Hne.
    { intros a k Ha Hk Heq. apply (offset_inj _ (width i)) in Heq as (-> & -> & _); [|done..].
      by rewrite !Nat.eqb_refl in He. }
    pose proof (fun k => Hne 0 k) as Hne0. rewrite Nat.add_0_r in Hne0.
    by rewrite !list_lookup_insert_ne by (first [apply Hne|apply Hne0]; lia).
Qed.

(** ** Loops *)

(** A loop whose rounds agree on what they paint. *)
Lemma paints_fold {A} (l : list A) (body : A -> FramebufferInfo -> FramebufferInfo) f F i :
  (forall k i', k ∈ l -> info_ok i' -> same_frame i i' -> paints (f k) i' (body k i')) ->
  (forall x y k c, k ∈ l -> f k x y = Some c -> F x y = Some c) ->
  (forall x y c, F x y = Some c -> exists k, k ∈ l /\ f k x y = Some c) ->
  info_ok i -> paints F i (foldl (fun i k => body k i) i l).
Proof.
  intros Hbody HF1 HF2 Hi.
  assert (same_frame i (foldl (fun i k => body k i) i l) /\
    forall x y, x < width i -> y < height i ->
      ((forall k, k ∈ l -> f k x y = None) -> pixel (foldl (fun i k => body k i) i l) x y = pixel i x y) /\
      (forall k c, k ∈ l -> f k x y = Some c -> pixel (foldl (fun i k => body k i) i l) x y = c)) as [Hs Hp].
  { clear HF2. induction l as [|k l IH] using rev_ind; cbn.
    { split; [done|]. intros x y _ _. split; [done|]. intros k c Hk. by apply not_elem_of_nil in Hk. }
    destruct IH as [Hs Hp].
    { intros k' i' Hk'. apply Hbody. set_solver. }
    { intros x y k' c Hk'. apply HF1. set_solver. }
    rewrite foldl_app. cbn. destruct (Hbody k (foldl (fun i k => body k i) i l)) as [Hs' Hp'];
      [set_solver|by eapply same_frame_ok|done|]. split; [by etrans|]. intros x y Hx Hy.
    assert (width (foldl (fun i k => body k i) i l) = width i /\ height (foldl (fun i k => body k i) i l) = height i)
      as [Hw Hh] by (by destruct Hs as (b & -> & _)).
    rewrite (Hp' x y) by lia. destruct (Hp x y Hx Hy) as [Hp1 Hp2]. split.
    - intros Hnone. rewrite (Hnone k) by set_solver. apply Hp1. intros k' Hk'. apply Hnone. set_solver.
    - intros k' c Hk' Hc. destruct (f k x y) as [c'|] eqn:Hk; cbn.
      + assert (Some c = Some c') as [= ->]; [|done].
        rewrite <-(HF1 x y k' c), <-(HF1 x y k c') by (done || set_solver). done.
      + apply elem_of_app in Hk' as [Hk'| ->%list_elem_of_singleton]; [by eapply Hp2|congruence]. }
  split; [done|]. intros x y Hx Hy. destruct (Hp x y Hx Hy) as [Hp1 Hp2].
  destruct (F x y) as [c|] eqn:HFx; cbn.
  - destruct (HF2 x y c HFx) as (k & Hk & Hf). by apply (Hp2 k).
  - apply Hp1. intros k Hk. destruct (f k x y) as [c|] eqn:Hf; [|done].
    specialize (HF1 x y k c Hk Hf). congruence.
Qed.

Lemma paints_range a n body f F i :
  (forall k i, a <= k < a + n -> info_ok i -> paints (f k) i (body k i)) ->
  (forall x y k c, a <= k < a + n -> f k x y = Some c -> F x y = Some c) ->
  (forall x y c, F x y = Some c -> exists k, a <= k < a + n /\ f k x y = Some c) ->
  info_ok i -> paints F i (for_range a n body i).
Proof.
  intros H1 H2 H3 Hi. unfold for_range. eapply (paints_fold _ _ f); [| | |done].
  - intros k i' Hk Hi' _. apply H1; [|done]. apply elem_of_seq in Hk. lia.
  - intros x y k c Hk. apply H2. apply elem_of_seq in Hk. lia.
  - intros x y c Hc. destruct (H3 x y c Hc) as (k & Hk & Hf). exists k. split; [|done]. apply elem_of_seq. lia.
Qed.

(** ** Characters *)

(** The eight by eight pixels of a character at a place. *)
Definition in_box (x y x' y' : nat) : bool := (x <=? x') && (x' <? x + 8) && (y <=? y') && (y' <? y + 8).

Lemma in_box_true x y x' y' : in_box x y x' y' = true <-> x <= x' < x + 8 /\ y <= y' < y + 8.
Proof. unfold in_box. rewrite !andb_true_iff, !Nat.leb_le, !Nat.ltb_lt. lia. Qed.

(** Two nested loops that paint the pixels of a box. *)
Lemma paints_box x y (g : nat -> nat -> option (Z * Z * Z)) body i :
  (forall row col i, row < 8 -> col < 8 -> info_ok i ->
    paints (fun x' y' => if (x' =? x + col) && (y' =? y + row) then g row col else None) i (body row col i)) ->
  info_ok i ->
  paints (fun x' y' => if in_box x y x' y' then g (y' - y) (x' - x) else None) i
    (for_range 0 8 (fun row => for_range 0 8 (fun col => body row col)) i).
Proof.
  intros Hb. apply (paints_range _ _ _ (fun row x' y' =>
    if (x <=? x') && (x' <? x + 8) && (y' =? y + row) then g row (x' - x) else None)).
  - intros row i' Hr. apply (paints_range _ _ _ (fun col x' y' =>
      if (x' =? x + col) && (y' =? y + row) then g row col else None)).
    + intros col i'' Hc. apply Hb; lia.
    + intros x' y' col c Hc. repeat case_match; intros Hg; bools; subst; try done.
      * replace (x + col - x) with col by lia. done.
      * apply andb_false_iff in H0 as [H0|H0]; [apply andb_false_iff in H0 as [H0|H0]|]; bools; lia.
    + intros x' y' c Hc. case_match; [|done]. bools. exists (x' - x). split; [lia|].
      replace (x + (x' - x)) with x' by lia. subst y'. by rewrite !Nat.eqb_refl.
  - intros x' y' row c Hr. repeat case_match; intros Hg; bools; subst; try done.
    + replace (y + row - y) with row by lia. done.
    + assert (in_box x y x' (y + row) = true) by (apply in_box_true; lia). congruence.
  - intros x' y' c Hc. case_match; [|done]. apply in_box_true in H as [Hx Hy].
    exists (y' - y). split; [lia|]. replace (y + (y' - y)) with y' by lia.
    by rewrite Nat.eqb_refl, (proj2 (Nat.leb_le _ _)), (proj2 (Nat.ltb_lt _ _)) by lia.
Qed.

Lemma for_range_shift {S} a n (f : nat -> S -> S) s : for_range a n f s = for_range 0 n (fun k => f (a + k)) s.
Proof.
  unfold for_range. replace (seq a n) with ((fun k => a + k) <$> seq 0 n) by (by rewrite fmap_add_seq, Nat.add_0_r).
  revert s. induction (seq 0 n) as [|k l IH]; intros s; cbn; [done|]. apply IH.
Qed.

Lemma for_range_ext {S} a n (f g : nat -> S -> S) s : (forall k s, f k s = g k s) -> for_range a n f s = for_range a n g s.
Proof. intros He. unfold for_range. revert s. induction (seq a n) as [|k l IH]; intros s; cbn; [done|]. by rewrite He. Qed.

Definition clear_ink (x y x' y' : nat) : option (Z * Z * Z) := if in_box x y x' y' then Some black else None.

Definition character_ink (x y : nat) (byte : Z) (color : Z * Z * Z) (x' y' : nat) : option (Z * Z * Z) :=
  if in_box x y x' y' then if glyph_bit byte (y' - y) (x' - x) then Some color else None else None.

Definition cursor_ink (x y : nat) (byte : Z) (color : Z * Z * Z) (x' y' : nat) : option (Z * Z * Z) :=
  if in_box x y x' y' then Some (if glyph_bit byte (y' - y) (x' - x) then black else color) else None.

Lemma clear_character_paints x y i : info_ok i -> paints (clear_ink x y) i (clear_character_info x y i).
Proof.
  intros Hi. unfold clear_character_info. rewrite for_range_shift.
  erewrite for_range_ext by (intros; apply for_range_shift).
  apply (paints_box x y (fun _ _ => Some black) (fun row col => write_pixel_info (x + col) (y + row) black)); [|done].
  intros row col i' _ _. apply write_pixel_paints.
Qed.

Lemma draw_character_paints x y byte color i : info_ok i ->
  paints (character_ink x y byte color) i (draw_character_info x y byte color i).
Proof.
  intros Hi. unfold draw_character_info. rewrite length_glyph.
  apply (paints_box x y (fun row col => if glyph_bit byte row col then Some color else None)
    (fun row col i => if glyph_bit byte row col then write_pixel_info (x + col) (y + row) color i else i)); [|done].
  intros row col i' _ _ Hi'. destruct (glyph_bit byte row col); [by apply write_pixel_paints|].
  eapply paints_ext; [|apply paints_none]. intros. by case_match.
Qed.

Lemma draw_cursor_paints x y byte color i : info_ok i ->
  paints (cursor_ink x y byte color) i (draw_cursor_info x y byte color i).
Proof.
  intros Hi. unfold draw_cursor_info. rewrite length_glyph.
  apply (paints_box x y (fun row col => Some (if glyph_bit byte row col then black else color))
    (fun row col => write_pixel_info (x + col) (y + row) (if glyph_bit byte row col then black else color))); [|done].
  intros row col i' _ _. apply write_pixel_paints.
Qed.

(** ** The whole screen *)

Lemma clear_screen_spec i : info_ok i ->
  same_frame i (clear_screen i) /\ buffer (clear_screen i) = replicate (stride i * height i) 0%Z.
Proof.
  intros [_ _ Hl]. unfold clear_screen, write_bytes. rewrite <-Hl. cbn [Nat.add]. rewrite Nat.leb_refl.
  assert (splice (buffer i) 0 (replicate (length (buffer i)) 0%Z) = replicate (length (buffer i)) 0%Z) as ->.
  { unfold splice. rewrite take_0, length_replicate, drop_ge by lia. by rewrite app_nil_r. }
  split; [|done]. eexists. split; [done|]. apply length_replicate.
Qed.

Lemma pixel_blank i n x y : buffer i = replicate n 0%Z -> pixel i x y = black.
Proof.
  intros Hb. unfold pixel. rewrite Hb.
  assert (forall k, default 0%Z (replicate n 0%Z !! k) = 0%Z) as H0.
  { intros k. destruct (replicate n 0%Z !! k) eqn:Hk; [|done]. by apply lookup_replicate in Hk as [-> _]. }
  rewrite !H0. by destruct (bgr i).
Qed.

Lemma clear_screen_paints i : info_ok i -> paints (fun _ _ => Some black) i (clear_screen i).
Proof.
  intros Hi. destruct (clear_screen_spec i Hi) as [Hs Hb]. split; [done|]. intros x y _ _. by eapply pixel_blank.
Qed.

(** The pixels of the framebuffer move up by some rows. *)
Definition scroll_info (rows : nat) (i : FramebufferInfo) : FramebufferInfo :=
  clear_rows (height i - rows) rows
    (set_buffer (copy_bytes_within (rows * stride i) 0 ((height i - rows) * stride i) (buffer i)) i).

Lemma scroll_buffer rows i : info_ok i -> rows <= height i ->
  scroll_info rows i = set_buffer (drop (rows * stride i) (buffer i) ++ replicate (rows * stride i) 0%Z) i.
Proof.
  intros [_ _ Hl] Hr. unfold scroll_info, clear_rows, copy_bytes_within. cbn.
  assert (rows * stride i + (height i - rows) * stride i = length (buffer i)) as He by (rewrite Hl; nia).
  generalize dependent ((height i - rows) * stride i). intros n He.
  rewrite He, Nat.leb_refl, (proj2 (Nat.leb_le _ _)) by lia. cbn [andb].
  assert (splice (buffer i) 0 (slice (buffer i) (rows * stride i) (length (buffer i))) =
    drop (rows * stride i) (buffer i) ++ drop n (buffer i)) as ->.
  { unfold splice, slice. rewrite take_0, (take_ge (drop _ _)) by (rewrite length_drop; lia). cbn [app Nat.add].
    rewrite length_drop. do 2 f_equal. lia. }
  unfold write_bytes. rewrite length_app, !length_drop, (proj2 (Nat.leb_le _ _)) by lia. unfold set_buffer. cbn. f_equal.
  unfold splice. rewrite take_app_le, take_ge by (rewrite length_drop; lia). f_equal.
  rewrite length_replicate, drop_ge, app_nil_r; [done|]. rewrite length_app, !length_drop. lia.
Qed.

Lemma scroll_pixel rows i x y : info_ok i -> rows <= height i -> x < width i -> y < height i ->
  pixel (scroll_info rows i) x y = if y + rows <? height i then pixel i x (y + rows) else black.
Proof.
  intros Hi Hr Hx Hy. rewrite scroll_buffer by done. destruct Hi as [_ Hs Hl].
  assert (forall k, k < 4 -> default 0%Z ((drop (rows * stride i) (buffer i) ++ replicate (rows * stride i) 0%Z) !! (y * stride i + x * 4 + k)) =
    if y + rows <? height i then default 0%Z (buffer i !! ((y + rows) * stride i + x * 4 + k)) else 0%Z) as Hk.
  { intros k Hk. assert (y * stride i + stride i <= stride i * height i) by nia.
    destruct (y + rows <? height i) eqn:Hin; bools.
    - rewrite lookup_app_l by (rewrite length_drop, Hl; nia). rewrite lookup_drop. do 2 f_equal. lia.
    - rewrite lookup_app_r by (rewrite length_drop, Hl; nia). rewrite length_drop.
      destruct (replicate _ _ !! _) as [z|] eqn:Hz; [|done]. by apply lookup_replicate in Hz as [-> _]. }
  unfold pixel. cbn [buffer set_buffer stride bgr]. rewrite !Hk by lia. destruct (y + rows <? height i); by destruct (bgr i).
Qed.

Lemma scroll_frame rows i : info_ok i -> rows <= height i -> same_frame i (scroll_info rows i).
Proof.
  intros Hi Hr. rewrite scroll_buffer by done. eexists. split; [done|]. destruct Hi as [_ _ Hl].
  rewrite length_app, length_drop, length_replicate. nia.
Qed.
