(* ===== verification/Terminal.v ===== *)
(** * The text on the screen

    A terminal is the list of the lines printed since the screen was last cleared, each of
    them the characters and their colours.  The framebuffer console shows the last lines of
    it, the newest at the bottom, or the ones before when the user scrolls back. *)

From Stdlib Require Import Ascii String.
From S2P Require Import Prelude Font FrameAlloc Utf8 Chars LineEdit TextEdit Framebuffer Pixels.

(** ** Cells of the screen *)

(** A character and its colour. *)
Abbreviation Cell := (Z * (Z * Z * Z))%type.

(** What the characters at the rows and columns of the screen paint. *)
Definition cell_ink (cells : nat -> nat -> option Cell) (x y : nat) : option (Z * Z * Z) :=
  if (MARGIN <=? x) && (MARGIN <=? y) then
    match cells ((y - MARGIN) / LINE_HEIGHT) ((x - MARGIN) / CHAR_WIDTH) with
    | Some (byte, color) =>
        if glyph_bit byte ((y - MARGIN) mod LINE_HEIGHT) ((x - MARGIN) mod CHAR_WIDTH) then Some color else None
    | None => None
    end
  else None.

(** The screen shows these characters on black. *)
Definition shows (i : FramebufferInfo) (cells : nat -> nat -> option Cell) : Prop :=
  forall x y, x < width i -> y < height i -> pixel i x y = default black (cell_ink cells x y).

(** ** The reference terminal *)

Record Terminal := mk_terminal {
  above : list (list Cell);
  current : list Cell;
  color : Z * Z * Z;
  back : nat;
  status_color : Z * Z * Z;
}.

Definition all_lines (t : Terminal) : list (list Cell) := above t ++ [current t].

Definition terminal_line_end (t : Terminal) : Terminal :=
  mk_terminal (all_lines t) [] (color t) (back t) (status_color t).

Definition terminal_char (c : Cell) (t : Terminal) : Terminal :=
  mk_terminal (above t) (current t ++ [c]) (color t) (back t) (status_color t).

Definition terminal_byte (w : nat) (byte : Z) (t : Terminal) : Terminal :=
  if (byte =? 10)%Z then terminal_line_end t
  else if (byte =? 13)%Z then t
  else terminal_char (byte, color t)
         (if w <=? CHAR_WIDTH * length (current t) + 24 then terminal_line_end t else t).

Inductive ConsoleCall :=
| Print (bytes : list Z)
| SetColor (r g b : Z)
| ClearScreen
| PageUp
| PageDown
| ToBottom.

(** The rows of a screen, and the lines kept to scroll back. *)
Definition screen_rows (h : nat) : nat := (h - 16) / 16.
Definition kept_lines (t : Terminal) : nat := Nat.min (length (above t)) 255.

Definition terminal_call (w h : nat) (call : ConsoleCall) (t : Terminal) : Terminal :=
  match call with
  | Print bytes =>
      let t := foldl (fun t byte => terminal_byte w byte t) t bytes in
      mk_terminal (above t) (current t) (color t) (back t) (if back t =? 0 then status_color t else color t)
  | SetColor r g b => mk_terminal (above t) (current t) (r, g, b) (back t) (status_color t)
  | ClearScreen => mk_terminal [] [] (color t) 0 (status_color t)
  | PageUp => mk_terminal (above t) (current t) (color t)
                (Nat.min (back t + Nat.max (screen_rows h / 2) 1) (kept_lines t)) (color t)
  | PageDown => mk_terminal (above t) (current t) (color t) (back t - Nat.max (screen_rows h / 2) 1) (color t)
  | ToBottom => mk_terminal (above t) (current t) (color t) 0 (color t)
  end.

(** The lines from [first] on, the one of number [last] on row [bottom]. *)
Definition line_cells (ls : list (list Cell)) (first last bottom row column : nat) : option Cell :=
  if (row <=? bottom) && (first + (bottom - row) <=? last) then
    l ← ls !! (last - (bottom - row)); l !! column
  else None.

(** The live screen ends in the current line; while the user scrolls back, the last row is
    the status line. *)
Definition view_cells (w h : nat) (t : Terminal) (row column : nat) : option Cell :=
  let n := length (above t) in
  if back t =? 0 then line_cells (all_lines t) (n - kept_lines t) n (Nat.min n (screen_rows h - 1)) row column
  else if row =? screen_rows h - 1 then
    if CHAR_WIDTH * column + 16 <=? w then (fun byte => (byte, status_color t)) <$> SCROLLBACK_STATUS !! column else None
  else line_cells (all_lines t) (n - kept_lines t) (n - back t) (screen_rows h - 2) row column.

(** ** The console's own operations *)

Definition console_call (call : ConsoleCall) : Method FramebufferWriter unit :=
  match call with
  | Print bytes => print_bytes bytes
  | SetColor r g b => modify (set_color r g b)
  | ClearScreen => modify clear
  | PageUp => scrollback_page true
  | PageDown => scrollback_page false
  | ToBottom => _ ← scrollback_to_bottom; mret tt
  end.

Definition console_calls (calls : list ConsoleCall) : Method FramebufferWriter unit := for_op calls console_call.

(** ** The simulation relation *)

(** A kept line: 256 characters, padded with spaces, and their colours. *)
Definition kept_line (k : nat) (l : list Cell) : TerminalLine :=
  mk_terminal_line (Z.of_nat k)
    (resize SCROLLBACK_COLUMN_CAPACITY space (l.*1)) (resize SCROLLBACK_COLUMN_CAPACITY 0%Z (pack_color <$> l.*2)).

(** The last [n] elements. *)
Definition newest {A} (n : nat) (l : list A) : list A := drop (length l - n) l.

Definition color_ok (c : Z * Z * Z) : Prop := is_byte c.1.1 /\ is_byte c.1.2 /\ is_byte c.2.

(** A screen of at least one column and two rows, and at most 256 of both. *)
Record screen_ok (i : FramebufferInfo) : Prop := {
  screen_info : info_ok i;
  screen_width : 24 <= width i <= 2064;
  screen_height : 48 <= height i <= 4112;
}.

Record console_at (t : Terminal) (w : FramebufferWriter) : Prop := {
  at_screen : screen_ok (info w);
  at_x : pos_x w = 8 + 8 * length (current t);
  at_y : pos_y w = 8 + 16 * Nat.min (length (above t)) (screen_rows (height (info w)) - 1);
  at_fg : fg w = color t;
  at_id : current_line_id w = Z.of_nat (length (above t));
  at_history : history w = newest 255 (imap kept_line (above t)) ++ [kept_line (length (above t)) (current t)];
  at_back : scrollback_offset w = back t;
  at_input : input_cell_count w = 0;
  at_colors : Forall (Forall (fun c => color_ok c.2)) (all_lines t) /\ color_ok (color t);
  at_columns : Forall (fun l => 8 * length l + 16 <= width (info w)) (all_lines t);
  at_kept : back t <= kept_lines t;
}.

(** ** Ink *)

Lemma glyph_bit_below byte row col : 8 <= row -> glyph_bit byte row col = false.
Proof. intros Hr. unfold glyph_bit. rewrite lookup_ge_None_2; [done|]. by rewrite length_glyph. Qed.

Lemma cell_ink_ext cells cells' x y :
  (forall row col, cells row col = cells' row col) -> cell_ink cells x y = cell_ink cells' x y.
Proof. intros He. unfold cell_ink. by rewrite He. Qed.

(** The place of a pixel. *)
Lemma box_place row col x y :
  in_box (MARGIN + col * CHAR_WIDTH) (MARGIN + row * LINE_HEIGHT) x y = true <->
  MARGIN <= x /\ MARGIN <= y /\ (x - MARGIN) / CHAR_WIDTH = col /\ (y - MARGIN) / LINE_HEIGHT = row /\
  (y - MARGIN) mod LINE_HEIGHT < 8.
Proof.
  rewrite in_box_true. unfold MARGIN, CHAR_WIDTH, LINE_HEIGHT.
  pose proof (Nat.div_mod (x - 8) 8). pose proof (Nat.mod_upper_bound (x - 8) 8).
  pose proof (Nat.div_mod (y - 8) 16). pose proof (Nat.mod_upper_bound (y - 8) 16). lia.
Qed.

Definition one_cell (row col : nat) (c : Cell) (r k : nat) : option Cell :=
  if (r =? row) && (k =? col) then Some c else None.

Lemma character_cell row col c x y :
  character_ink (MARGIN + col * CHAR_WIDTH) (MARGIN + row * LINE_HEIGHT) c.1 c.2 x y = cell_ink (one_cell row col c) x y.
Proof.
  unfold character_ink, cell_ink, one_cell. pose proof (box_place row col x y) as Hbox.
  destruct (in_box _ _ _ _).
  - destruct (proj1 Hbox eq_refl) as (Hx & Hy & <- & <- & Hm).
    rewrite !(proj2 (Nat.leb_le _ _)), !Nat.eqb_refl by done. cbn [andb]. destruct c as [byte color].
    replace (y - _) with ((y - MARGIN) mod LINE_HEIGHT) by (rewrite Nat.Div0.mod_eq; lia).
    by replace (x - _) with ((x - MARGIN) mod CHAR_WIDTH) by (rewrite Nat.Div0.mod_eq; lia).
  - destruct (MARGIN <=? x) eqn:Hx, (MARGIN <=? y) eqn:Hy; try done. cbn [andb].
    destruct ((y - MARGIN) / LINE_HEIGHT =? row) eqn:Hr, ((x - MARGIN) / CHAR_WIDTH =? col) eqn:Hc; try done.
    cbn [andb]. destruct c as [byte color]. rewrite glyph_bit_below; [done|].
    destruct (Nat.le_gt_cases 8 ((y - MARGIN) mod LINE_HEIGHT)); [done|]. bools.
    assert (false = true) by (by apply Hbox). done.
Qed.

Lemma cell_ink_none x y : cell_ink (fun _ _ => None) x y = None.
Proof. unfold cell_ink. by case_match. Qed.

Lemma cell_ink_space row col color x y : cell_ink (one_cell row col (space, color)) x y = None.
Proof.
  unfold cell_ink, one_cell. destruct (_ && _); [|done]. destruct (_ && _); [|done].
  unfold space. by rewrite glyph_space.
Qed.

Lemma cell_ink_Some cells x y c : cell_ink cells x y = Some c <->
  MARGIN <= x /\ MARGIN <= y /\ exists byte,
    cells ((y - MARGIN) / LINE_HEIGHT) ((x - MARGIN) / CHAR_WIDTH) = Some (byte, c) /\
    glyph_bit byte ((y - MARGIN) mod LINE_HEIGHT) ((x - MARGIN) mod CHAR_WIDTH) = true.
Proof.
  unfold cell_ink. split.
  - destruct (_ && _) eqn:Hin; [|done]. apply andb_true_iff in Hin as [?%Nat.leb_le ?%Nat.leb_le].
    intros Hc. do 2 (split; [done|]). destruct (cells _ _) as [[byte color]|]; [|done].
    exists byte. destruct (glyph_bit byte _ _); [|done]. by simplify_eq.
  - intros (Hx & Hy & byte & -> & ->). by rewrite !(proj2 (Nat.leb_le _ _)).
Qed.

(** A loop that draws cells. *)
Lemma paints_cells {A} (l : list A) (body : A -> FramebufferInfo -> FramebufferInfo)
    (f : A -> nat -> nat -> option Cell) (F : nat -> nat -> option Cell) i :
  (forall k i', k ∈ l -> info_ok i' -> same_frame i i' -> paints (cell_ink (f k)) i' (body k i')) ->
  (forall row col k c, k ∈ l -> f k row col = Some c -> F row col = Some c) ->
  (forall row col c, F row col = Some c -> exists k, k ∈ l /\ f k row col = Some c) ->
  info_ok i -> paints (cell_ink F) i (foldl (fun i k => body k i) i l).
Proof.
  intros Hb H1 H2. apply paints_fold with (f := fun k => cell_ink (f k)); [done|..].
  - intros x y k c Hk (Hx & Hy & byte & Hf & Hg)%cell_ink_Some. apply cell_ink_Some. eauto 10.
  - intros x y c (Hx & Hy & byte & HF & Hg)%cell_ink_Some. destruct (H2 _ _ _ HF) as (k & Hk & Hf).
    exists k. split; [done|]. apply cell_ink_Some. eauto 10.
Qed.

(** Drawing on the live screen, at a free cell. *)
Lemma draw_cell_shows i cells row col c : info_ok i -> shows i cells -> cells row col = None ->
  shows (draw_character_info (MARGIN + col * CHAR_WIDTH) (MARGIN + row * LINE_HEIGHT) c.1 c.2 i)
    (fun r k => if (r =? row) && (k =? col) then Some c else cells r k).
Proof.
  intros Hi Hs Hfree.
  destruct (draw_character_paints (MARGIN + col * CHAR_WIDTH) (MARGIN + row * LINE_HEIGHT) c.1 c.2 i Hi) as [(b & He & _) Hp].
  intros x y Hx Hy. rewrite He in Hx, Hy. rewrite Hp, character_cell, (Hs x y) by done.
  unfold cell_ink, one_cell. destruct (_ && _); [|done]. destruct (_ && _) eqn:Hat; [|done].
  apply andb_true_iff in Hat as [->%Nat.eqb_eq ->%Nat.eqb_eq]. rewrite Hfree. by destruct c as [byte color], (glyph_bit _ _ _).
Qed.

(** A cleared screen. *)
Lemma paints_shows cells i i' : info_ok i -> paints (cell_ink cells) (clear_screen i) i' -> shows i' cells.
Proof.
  intros Hi [Hs Hp]. destruct (clear_screen_spec i Hi) as [_ Hb]. destruct Hs as (b & -> & _). intros x y Hx Hy.
  rewrite Hp by done. by rewrite (pixel_blank _ _ _ _ Hb).
Qed.

(** Scrolling by one line. *)
Lemma scroll_shows i cells bottom : info_ok i -> 48 <= height i -> shows i cells ->
  (forall row col, bottom < row -> cells row col = None) -> 16 * bottom + 32 <= height i ->
  shows (scroll_info LINE_HEIGHT i) (fun row col => cells (S row) col).
Proof.
  intros Hi Hh Hs Hnone Hbot x y Hx Hy.
  destruct (scroll_frame LINE_HEIGHT i) as (b & He & _); [done|unfold LINE_HEIGHT; lia|]. rewrite He in Hx, Hy. cbn in Hx, Hy.
  rewrite scroll_pixel by (done || unfold LINE_HEIGHT; lia). unfold LINE_HEIGHT at 1.
  destruct (y + 16 <? height i) eqn:Hin; bools.
  - unfold LINE_HEIGHT. rewrite (Hs x (y + 16)) by done. f_equal. unfold cell_ink, MARGIN, LINE_HEIGHT.
    destruct (8 <=? x); [|done]. rewrite (proj2 (Nat.leb_le 8 (y + 16))) by lia. destruct (8 <=? y) eqn:H8; bools; cbn [andb].
    + replace (y + 16 - 8) with (y - 8 + 1 * 16) by lia. rewrite Nat.div_add, Nat.Div0.mod_add by lia. by rewrite Nat.add_1_r.
    + destruct (cells _ _) as [[byte color]|]; [|done]. rewrite glyph_bit_below; [done|]. rewrite Nat.mod_small; lia.
  - unfold cell_ink. destruct (_ && _); [|done]. rewrite Hnone; [done|]. unfold MARGIN, LINE_HEIGHT.
    assert (bottom <= (y - 8) / 16); [|lia]. apply Nat.div_le_lower_bound; lia.
Qed.

(** ** The kept lines *)

Lemma length_newest {A} n (l : list A) : length (newest n l) = Nat.min n (length l).
Proof. unfold newest. rewrite length_drop. lia. Qed.

(** One line more. *)
Lemma newest_grow {A} (l : list A) (x y : A) :
  (let h := (newest 255 l ++ [x]) ++ [y] in if 256 <? length h then drop 1 h else h) = newest 255 (l ++ [x]) ++ [y].
Proof.
  cbv zeta. rewrite !length_app, length_newest. cbn [length]. rewrite <-!(assoc_L (++)).
  unfold newest. rewrite length_app. cbn [length]. destruct (256 <? _) eqn:Hn; bools.
  - rewrite drop_app_le by (rewrite length_drop; lia). rewrite drop_drop, (drop_app_le l) by lia.
    rewrite <-(assoc_L (++)). do 2 f_equal. lia.
  - rewrite !(proj2 (Nat.sub_0_le _ _)), !drop_0 by lia. by rewrite <-(assoc_L (++)).
Qed.

Lemma newest_lookup {A} n (l : list A) k : newest n l !! k = l !! (length l - n + k).
Proof. unfold newest. by rewrite lookup_drop. Qed.

Lemma newest_ids ls : Forall (fun line => (line_id line =? Z.of_nat (length ls))%Z = false) (newest 255 (imap kept_line ls)).
Proof.
  unfold newest. apply Forall_drop. apply Forall_lookup. intros k line Hk.
  rewrite list_lookup_imap in Hk. destruct (ls !! k) as [l|] eqn:Hl; [|done]. simplify_eq/=.
  apply lookup_lt_Some in Hl. apply Z.eqb_neq. lia.
Qed.

Lemma current_position t w : console_at t w ->
  position (fun line => line_id line =? current_line_id w)%Z (history w) = Some (length (newest 255 (imap kept_line (above t)))).
Proof.
  intros H. rewrite (at_history _ _ H), (at_id _ _ H).
  apply position_app; [apply newest_ids|]. apply Z.eqb_refl.
Qed.

(** ** A new line *)

Lemma ensure_spec h id line : line_id line = id ->
  while_loop (Z.max 0 ((id + 1) - default (id + 1 - 1) (back_id (h ++ [line]))) + 2)%Z (ensure_round (id + 1)) (h ++ [line]) =
  Some (let h' := (h ++ [line]) ++ [TerminalLine_new (id + 1)] in if 256 <? length h' then drop 1 h' else h').
Proof.
  intros <-. unfold back_id. rewrite last_snoc. cbn [fmap option_fmap option_map from_option id].
  replace (Z.max 0 (line_id line + 1 - line_id line) + 2)%Z with 3%Z by lia. unfold while_loop. cbn [while_pos Z.to_pos].
  unfold ensure_round at 1. rewrite last_snoc, (proj2 (Z.ltb_lt _ _)) by lia. cbv zeta.
  set (h' := if _ <? _ then _ else _).
  assert (exists k, h' = k ++ [TerminalLine_new (line_id line + 1)]) as [k Hk].
  { subst h'. case_match; [|by eexists]. destruct (h ++ [line]) as [|a k] eqn:Hh; [by destruct h|]. by exists k. }
  unfold ensure_round. by rewrite Hk, last_snoc, Z.ltb_irrefl.
Qed.

(** The live screen. *)
Definition live_cells (h : nat) (t : Terminal) (row col : nat) : option Cell :=
  let bottom := Nat.min (length (above t)) (screen_rows h - 1) in
  if row <=? bottom then l ← all_lines t !! (length (above t) - bottom + row); l !! col else None.

Lemma view_live w h t row col : 48 <= h <= 4112 -> back t = 0 -> view_cells w h t row col = live_cells h t row col.
Proof.
  intros Hh Hb. unfold view_cells, live_cells, line_cells. rewrite Hb. cbn [Nat.eqb].
  assert (screen_rows h - 1 <= 255).
  { unfold screen_rows. pose proof (Nat.Div0.div_le_upper_bound (h - 16) 16 256). lia. }
  destruct (row <=? _) eqn:Hr; [|done]. bools. cbn [andb].
  rewrite (proj2 (Nat.leb_le _ _)) by (unfold kept_lines; lia). do 2 f_equal. lia.
Qed.

Lemma shows_ext i cells cells' : (forall row col, cells row col = cells' row col) -> shows i cells -> shows i cells'.
Proof. intros He Hs x y Hx Hy. rewrite (Hs x y) by done. f_equal. by apply cell_ink_ext. Qed.

(** The rows fit the screen. *)
Lemma rows_fit h : 48 <= h -> 2 <= screen_rows h /\ 16 * screen_rows h + 16 <= h < 16 * screen_rows h + 32.
Proof.
  intros Hh. unfold screen_rows. pose proof (Nat.div_mod (h - 16) 16). pose proof (Nat.mod_upper_bound (h - 16) 16). lia.
Qed.

(** The screen one line further. *)
Lemma line_end_stays h t row col : length (above t) < screen_rows h - 1 ->
  live_cells h (terminal_line_end t) row col = live_cells h t row col.
Proof.
  intros Hn. unfold live_cells, terminal_line_end, all_lines. cbn. rewrite length_app. cbn [length].
  rewrite !Nat.min_l by lia. rewrite !Nat.sub_diag. cbn [Nat.add].
  destruct (row <=? length (above t)) eqn:Hr; bools.
  - rewrite (proj2 (Nat.leb_le _ _)) by lia. rewrite lookup_app_l; [done|]. rewrite length_app. cbn. lia.
  - destruct (row <=? length (above t) + 1) eqn:Hr'; [|done]. bools. replace row with (length (above t ++ [current t])) by (rewrite length_app; cbn; lia).
    by rewrite list_lookup_middle.
Qed.

Lemma line_end_scrolls h t row col : screen_rows h - 1 <= length (above t) ->
  live_cells h (terminal_line_end t) row col = live_cells h t (S row) col.
Proof.
  intros Hn. unfold live_cells, terminal_line_end, all_lines. cbn -[Nat.leb]. rewrite length_app. cbn [length].
  rewrite !Nat.min_r by lia. destruct (S row <=? screen_rows h - 1) eqn:Hr; bools.
  - rewrite (proj2 (Nat.leb_le _ _)) by lia. rewrite lookup_app_l by (rewrite length_app; cbn; lia). do 2 f_equal. lia.
  - destruct (row <=? screen_rows h - 1) eqn:Hr'; [|done]. bools.
    replace (_ + row) with (length (above t ++ [current t])) by (rewrite length_app; cbn; lia).
    by rewrite list_lookup_middle.
Qed.

(** What printing leaves. *)
Definition rest (w : FramebufferWriter) :=
  (fg w, input_cells w, input_bytes w, input_history_cells w, editor_cells w, editor_active w).

(** One operation of the console on the live screen, and what it does to the terminal. *)
Record follows (t t' : Terminal) (w w' : FramebufferWriter) : Prop := {
  follows_at : console_at t' w';
  follows_frame : same_frame (info w) (info w');
  follows_back : back t' = back t;
  follows_rest : rest w' = rest w;
  follows_shows : shows (info w) (live_cells (height (info w)) t) -> shows (info w') (live_cells (height (info w)) t');
}.

Lemma follows_refl t w : console_at t w -> follows t t w w.
Proof. by split. Qed.

Lemma follows_trans t1 t2 t3 w1 w2 w3 : follows t1 t2 w1 w2 -> follows t2 t3 w2 w3 -> follows t1 t3 w1 w3.
Proof.
  intros [H1 H2 H3 Hr H4] [H1' H2' H3' Hr' H4']. split; [done|by etrans|congruence|congruence|]. intros Hs.
  assert (height (info w2) = height (info w1)) as Hh by (by destruct H2 as (b & -> & _)). rewrite Hh in H4'. auto.
Qed.

Lemma screen_frame i i' : same_frame i i' -> screen_ok i -> screen_ok i'.
Proof. intros Hs [H1 H2 H3]. split; [by eapply same_frame_ok|..]; destruct Hs as (b & -> & _); done. Qed.

(** The state after the kept lines have grown. *)
Definition next_line (t : Terminal) (w : FramebufferWriter) : FramebufferWriter :=
  set_history (newest 255 (imap kept_line (all_lines t)) ++ [TerminalLine_new (Z.of_nat (length (all_lines t)))])
    (set_current_line (Z.of_nat (length (all_lines t))) (set_position MARGIN (pos_y w) w)).

Lemma next_line_spec t w : console_at t w -> (Z.of_nat (length (above t)) + 1 < u64_limit)%Z ->
  new_line w = (if height (info w) <? pos_y w + 40 then scroll_up LINE_HEIGHT
                else modify (fun w => set_position (pos_x w) (pos_y w + 16) w)) (next_line t w).
Proof.
  intros H Hn. unfold new_line, ensure_history_line. unfold modify at 1 2, get, lift, put, mbind, op_bind. cbn [current_line_id history set_current_line set_position].
  rewrite (at_id _ _ H), (at_history _ _ H). unfold wrapping_add. rewrite Z.mod_small by lia.
  rewrite (ensure_spec _ (Z.of_nat (length (above t)))) by done. cbn [expect].
  rewrite newest_grow. unfold next_line, all_lines. rewrite imap_app, length_app, Nat2Z.inj_add. cbn [imap length].
  rewrite Nat.add_0_r. cbn [pos_y info set_history set_current_line set_position pos_x].
  unfold LINE_HEIGHT, MARGIN. replace (pos_y w + 16 + 8 + 16) with (pos_y w + 40) by lia.
  by destruct (height (info w) <? _).
Qed.

(** The state after a scroll. *)
Definition scrolled (rows : nat) (w : FramebufferWriter) : FramebufferWriter :=
  set_input_cells (move_cells_up rows (input_cell_count w) (input_cells w))
    (set_cursor_overlay ((fun o => (o.1.1, o.1.2 - rows, o.2)) <$> cursor_overlay w)
      (set_input_origin ((fun o => (o.1, o.2 - rows)) <$> input_origin w) (input_origin_history w)
        (on_info (scroll_info rows) w))).

Lemma scroll_up_spec rows w : 0 < rows < height (info w) -> input_cell_count w <= length (input_cells w) ->
  scroll_up rows w = (scrolled rows w, Ok tt).
Proof.
  intros Hr Hc. unfold scroll_up, get, modify, put, lift, mbind, op_bind.
  rewrite (proj2 (Nat.eqb_neq _ _)), (proj2 (Nat.leb_gt _ _)) by lia.
  cbn [input_cells input_cell_count on_info set_info set_input_origin set_cursor_overlay].
  unfold slice_to. by rewrite (proj2 (Nat.leb_le _ _)).
Qed.

Lemma new_line_spec t w : console_at t w -> (Z.of_nat (length (above t)) + 1 < u64_limit)%Z ->
  exists w', new_line w = (w', Ok tt) /\ follows t (terminal_line_end t) w w'.
Proof.
  intros H Hn. rewrite (next_line_spec t w H Hn). destruct H as [Hscreen Hx Hy Hfg Hid Hhist Hback Hin [Hcol Hcol'] Hwid Hkept].
  pose proof Hscreen as [Hi Hw Hh]. pose proof (rows_fit (height (info w)) ltac:(lia)) as [Hrows Hfit].
  assert (length (above (terminal_line_end t)) = length (above t) + 1) as Hlen by (cbn; unfold all_lines; by rewrite length_app).
  assert (forall w', pos_x w' = 8 -> pos_y w' = 8 + 16 * Nat.min (length (above t) + 1) (screen_rows (height (info w)) - 1) ->
    fg w' = fg w -> current_line_id w' = current_line_id (next_line t w) -> history w' = history (next_line t w) ->
    scrollback_offset w' = scrollback_offset w -> input_cell_count w' = input_cell_count w -> same_frame (info w) (info w') ->
    console_at (terminal_line_end t) w') as Hat.
  { intros w' Ex Ey Efg Eid Ehist Eback Ein Hsame.
    assert (width (info w') = width (info w) /\ height (info w') = height (info w)) as [Ew Eh] by (by destruct Hsame as (b & -> & _)).
    split; [by eapply screen_frame|done|by rewrite Eh, Hlen|by rewrite Efg|done|done|by rewrite Eback|by rewrite Ein|..]; rewrite ?Ew.
    - split; [|done]. apply Forall_app. by split; [|repeat constructor].
    - apply Forall_app. split; [done|]. repeat constructor. cbn. lia.
    - unfold kept_lines in *. rewrite Hlen. cbn. lia. }
  destruct (height (info w) <? pos_y w + 40) eqn:Hs; bools.
  - assert (input_cell_count (next_line t w) = 0) as Hin' by done. rewrite scroll_up_spec by (rewrite ?Hin'; cbn; unfold LINE_HEIGHT; lia).
    eexists. split; [done|]. assert (screen_rows (height (info w)) - 1 <= length (above t)) as Hfull by lia.
    assert (same_frame (info w) (scroll_info LINE_HEIGHT (info w))) as Hframe by (apply scroll_frame; [done|unfold LINE_HEIGHT; lia]).
    split; [|done|done| |].
    + apply Hat; try done. cbn. rewrite Hy. lia.
    + unfold rest, scrolled, move_cells_up. cbn [fg input_cells input_bytes input_history_cells editor_cells editor_active input_cell_count
        set_input_cells set_cursor_overlay set_input_origin on_info set_info]. by rewrite Hin'.
    + intros Hsh. cbn. eapply shows_ext; [intros; symmetry; by apply line_end_scrolls|].
      apply (scroll_shows _ _ (screen_rows (height (info w)) - 1)); [done|lia|done| |lia].
      intros row col Hr. unfold live_cells. by rewrite (proj2 (Nat.leb_gt _ _)) by lia.
  - eexists. split; [done|]. assert (length (above t) < screen_rows (height (info w)) - 1) as Hfree by lia. split; [|done|done|done|].
    + apply Hat; try done. cbn. rewrite Hy. lia.
    + intros Hsh. cbn. eapply shows_ext; [intros; symmetry; by apply line_end_stays|]. done.
Qed.

(** ** Characters *)

Lemma resize_snoc {A} n (d : A) l x : length l < n -> <[length l := x]> (resize n d l) = resize n d (l ++ [x]).
Proof.
  intros Hl. rewrite !resize_ge by (rewrite ?length_app; cbn; lia). rewrite length_app. cbn [length].
  rewrite insert_app_r_alt, Nat.sub_diag by lia. replace (n - length l) with (S (n - (length l + 1))) by lia.
  cbn [replicate]. by rewrite <-(assoc_L (++)).
Qed.

Lemma kept_char k l c : length l < 256 ->
  set_line_cell (length l) c.1 (pack_color c.2) (kept_line k l) = Ok (kept_line k (l ++ [c])).
Proof.
  intros Hl. unfold set_line_cell, kept_line, set_index. cbn [line_bytes line_colors line_id].
  rewrite !length_resize, (proj2 (Nat.ltb_lt _ _)) by done. cbn [mbind outcome_bind].
  rewrite !fmap_app. cbn [fmap list_fmap]. pose proof (resize_snoc 256 space (l.*1) c.1) as H1.
  pose proof (resize_snoc 256 0%Z (pack_color <$> l.*2) (pack_color c.2)) as H2. rewrite !length_fmap in H1. rewrite !length_fmap in H2.
  unfold SCROLLBACK_COLUMN_CAPACITY. by rewrite H1, H2.
Qed.

Lemma column_place n : column_at (8 + 8 * n) = n.
Proof. unfold column_at, MARGIN, CHAR_WIDTH. replace (8 + 8 * n - 8) with (n * 8) by lia. by rewrite Nat.div_mul. Qed.

(** The kept line of a character. *)
Lemma set_current_cell t w c : console_at t w -> length (current t) < 256 ->
  set_history_cell (current_line_id w) (length (current t)) c.1 (pack_color c.2) w =
  (set_history (newest 255 (imap kept_line (above t)) ++ [kept_line (length (above t)) (current t ++ [c])]) w, Ok tt).
Proof.
  intros H Hl. unfold set_history_cell, get, mbind at 1, op_bind at 1. rewrite (proj2 (Nat.leb_gt _ _)) by done.
  rewrite (current_position t w H). unfold set_cell_at, get, lift, put, index_of, mbind, op_bind.
  rewrite (at_history _ _ H), list_lookup_middle by done. cbn [expect]. rewrite kept_char by done.
  do 2 f_equal. by rewrite insert_app_r_alt, Nat.sub_diag by lia.
Qed.

Lemma live_char h t c row col : 
  live_cells h (terminal_char c t) row col =
  (if (row =? Nat.min (length (above t)) (screen_rows h - 1)) && (col =? length (current t)) then Some c
   else live_cells h t row col).
Proof.
  unfold live_cells, all_lines. cbn [above current terminal_char]. set (bottom := Nat.min _ _).
  destruct (row =? bottom) eqn:Hr; bools; cbn [andb].
  - subst row. rewrite Nat.leb_refl. replace (_ - bottom + bottom) with (length (above t)) by lia.
    rewrite !list_lookup_middle by done. cbn [mbind option_bind]. destruct (col =? length (current t)) eqn:Hc; bools.
    + subst col. by rewrite list_lookup_middle.
    + destruct (Nat.lt_ge_cases col (length (current t))); [by rewrite lookup_app_l|].
      rewrite !lookup_ge_None_2 by (rewrite ?length_app; cbn; lia). done.
  - destruct (row <=? bottom) eqn:Hr'; [|done]. bools. by rewrite !lookup_app_l by lia.
Qed.

(** A character that fits the current line. *)
Lemma draw_char_spec t w byte : console_at t w -> 8 * length (current t) + 24 <= width (info w) ->
  exists w', draw_ascii_char byte w = (w', Ok tt) /\ follows t (terminal_char (byte, color t) t) w w'.
Proof.
  intros H Hfit. pose proof H as [Hscreen Hx Hy Hfg Hid Hhist Hback Hin [Hcol Hcol'] Hwid Hkept].
  pose proof Hscreen as [Hi Hw Hh]. unfold draw_ascii_char, get, modify, mbind, op_bind.
  pose proof (set_current_cell t w (byte, color t) H ltac:(lia)) as Hset. cbn [fst snd] in Hset.
  rewrite Hx, column_place, Hfg, Hset.
  eexists. split; [done|]. cbn [pos_x pos_y fg set_history].
  destruct (draw_character_paints (pos_x w) (pos_y w) byte (fg w) (info w) Hi) as [Hframe _].
  assert (width (info w) = width (draw_character_info (pos_x w) (pos_y w) byte (fg w) (info w)) /\
    height (info w) = height (draw_character_info (pos_x w) (pos_y w) byte (fg w) (info w))) as [Ew Eh]
    by (by destruct Hframe as (b & -> & _)).
  apply Forall_app in Hcol as [Hcol1 Hcol2]. apply Forall_app in Hwid as [Hwid1 Hwid2].
  split; [|done|done|done|].
  - split; cbn; rewrite <-?Ew, <-?Eh; try done.
    + by eapply screen_frame.
    + rewrite Hx, length_app. cbn. unfold CHAR_WIDTH. lia.
    + split; [|done]. apply Forall_app. split; [done|]. apply Forall_cons_2; [|done]. inv Hcol2. apply Forall_app. split; [done|]. by apply Forall_singleton.
    + apply Forall_app. split; [done|]. repeat constructor. rewrite length_app. cbn. lia.
  - intros Hsh. cbn. eapply shows_ext; [intros; symmetry; apply live_char|].
    pose proof (draw_cell_shows (info w) _ (Nat.min (length (above t)) (screen_rows (height (info w)) - 1)) (length (current t)) (byte, color t) Hi Hsh) as Hd.
    cbn in Hd. unfold MARGIN, CHAR_WIDTH, LINE_HEIGHT in Hd. rewrite Hx, Hy, Hfg, (Nat.mul_comm 8), (Nat.mul_comm 16). apply Hd.
    unfold live_cells. rewrite Nat.leb_refl. replace (_ - _ + _) with (length (above t)) by lia.
    unfold all_lines. rewrite list_lookup_middle by done. cbn. by apply lookup_ge_None_2.
Qed.

(** ** Printing *)

Lemma put_byte_spec t w byte : console_at t w -> (Z.of_nat (length (above t)) + 1 < u64_limit)%Z ->
  exists w', put_byte byte w = (w', Ok tt) /\ follows t (terminal_byte (width (info w)) byte t) w w'.
Proof.
  intros H Hn. unfold put_byte, terminal_byte. destruct (byte =? 10)%Z; [by apply new_line_spec|].
  destruct (byte =? 13)%Z; [eexists; split; [done|by apply follows_refl]|].
  pose proof (at_screen _ _ H) as [_ Hw _]. unfold wrap_if_needed, get, mbind, op_bind, mret, op_ret.
  rewrite (at_x _ _ H). unfold CHAR_WIDTH at 1, MARGIN. replace (8 + 8 * _ + 8 + 8) with (CHAR_WIDTH * length (current t) + 24) by (unfold CHAR_WIDTH; lia).
  destruct (width (info w) <=? _) eqn:Hwrap; unfold CHAR_WIDTH in Hwrap; bools.
  - destruct (new_line_spec t w H Hn) as (w1 & -> & Hf1).
    destruct (draw_char_spec (terminal_line_end t) w1 byte) as (w2 & -> & Hf2);
      [apply Hf1|cbn; destruct (follows_frame _ _ _ _ Hf1) as (b & -> & _); cbn; lia|].
    eexists. split; [done|]. by eapply follows_trans.
  - destruct (draw_char_spec t w byte) as (w2 & -> & Hf2); [done|lia|]. eexists. by split.
Qed.

Lemma length_terminal_byte n byte t : length (above (terminal_byte n byte t)) <= length (above t) + 1.
Proof. unfold terminal_byte, terminal_char, terminal_line_end, all_lines. repeat case_match; cbn; rewrite ?length_app; cbn; lia. Qed.

Lemma length_terminal_bytes n bytes t :
  length (above (foldl (fun t byte => terminal_byte n byte t) t bytes)) <= length (above t) + length bytes.
Proof.
  revert t. induction bytes as [|b bytes IH]; intros t; cbn; [lia|]. rewrite IH. pose proof (length_terminal_byte n b t). lia.
Qed.

Lemma put_bytes_spec bytes t w : console_at t w -> (Z.of_nat (length (above t) + length bytes) < u64_limit)%Z ->
  exists w', for_op bytes put_byte w = (w', Ok tt) /\
    follows t (foldl (fun t byte => terminal_byte (width (info w)) byte t) t bytes) w w'.
Proof.
  revert t w. induction bytes as [|b bytes IH]; intros t w H Hn; cbn [for_op foldl length] in *.
  { eexists. split; [done|by apply follows_refl]. }
  destruct (put_byte_spec t w b H) as (w1 & Hw1 & Hf1); [lia|]. unfold mbind, op_bind. rewrite Hw1.
  destruct (IH _ w1 (follows_at _ _ _ _ Hf1)) as (w2 & -> & Hf2).
  { pose proof (length_terminal_byte (width (info w)) b t). lia. }
  eexists. split; [done|]. eapply follows_trans; [done|].
  assert (width (info w1) = width (info w)) as Hw by (by destruct (follows_frame _ _ _ _ Hf1) as (c & -> & _)).
  by rewrite Hw in Hf2.
Qed.

(** ** Drawing the kept lines *)

Lemma for_op_draws {A} (l : list A) (body : A -> Method FramebufferWriter unit) g w i :
  (forall k i, k ∈ l -> body k (set_info i w) = (set_info (g k i) w, Ok tt)) ->
  for_op l body (set_info i w) = (set_info (foldl (fun i k => g k i) i l) w, Ok tt).
Proof.
  intros Hb. revert i. induction l as [|k l IH]; intros i; [done|]. cbn [for_op foldl]. unfold mbind, op_bind.
  rewrite Hb by set_solver. apply IH. intros k' i' Hk'. apply Hb. set_solver.
Qed.

(** A character of a line, on a row. *)
Definition draw_cell (row : nat) (l : list Cell) (col : nat) (i : FramebufferInfo) : FramebufferInfo :=
  match l !! col with
  | Some c => if (c.1 =? space)%Z then i
              else draw_character_info (MARGIN + col * CHAR_WIDTH) (MARGIN + row * LINE_HEIGHT) c.1 c.2 i
  | None => i
  end.

Definition draw_line (row : nat) (l : list Cell) (i : FramebufferInfo) : FramebufferInfo :=
  foldl (fun i col => draw_cell row l col i) i (seq 0 (Nat.min ((width i - 16) / 8) 256)).

Lemma byte_bit x n : is_byte x -> (n < 0 \/ 8 <= n)%Z -> Z.testbit x n = false.
Proof.
  intros Hx [Hn|Hn]; [by apply Z.testbit_neg_r|]. unfold is_byte in Hx. rewrite <-(Z.mod_small x (2 ^ 8)) by lia.
  by apply Z.mod_pow2_bits_high.
Qed.

Lemma unpack_pack c : color_ok c -> unpack_color (pack_color c) = c.
Proof.
  destruct c as [[r g] b]. unfold color_ok. cbn [fst snd]. intros (Hr & Hg & Hb). unfold unpack_color, pack_color.
  assert (forall m k, (0 <= m)%Z -> (0 <= k)%Z -> (forall n, (0 <= n < 8)%Z -> Z.testbit (Z.lor (Z.lor (Z.shiftl r 16) (Z.shiftl g 8)) b) (n + m) = Z.testbit k n) ->
    is_byte k -> Z.land (Z.shiftr (Z.lor (Z.lor (Z.shiftl r 16) (Z.shiftl g 8)) b) m) 0xff = k) as Hbits.
  { intros m k Hm Hk Hn Hkb. apply Z.bits_inj'. intros n Hn0. rewrite Z.land_spec, Z.shiftr_spec by lia.
    change 0xff%Z with (Z.ones 8). destruct (Z.lt_ge_cases n 8).
    - rewrite Z.ones_spec_low, andb_true_r by lia. apply Hn. lia.
    - rewrite Z.ones_spec_high, andb_false_r by lia. by rewrite byte_bit by (done || lia). }
  assert (is_byte r -> is_byte g -> is_byte b -> (0 <= r)%Z /\ (0 <= g)%Z /\ (0 <= b)%Z) as (Hr0 & Hg0 & Hb0); [unfold is_byte; lia|done..|].
  specialize (Hbits 0%Z b) as H0. rewrite Z.shiftr_0_r in H0.
  rewrite (Hbits 16%Z r), (Hbits 8%Z g), H0; try done; try lia; intros n Hn; rewrite !Z.lor_spec, !Z.shiftl_spec by lia.
  - rewrite (byte_bit r), (byte_bit g) by (done || lia). cbn. by rewrite Z.add_0_r.
  - rewrite (byte_bit r), (byte_bit b) by (done || lia). rewrite orb_false_r. cbn. f_equal. lia.
  - rewrite (byte_bit g), (byte_bit b) by (done || lia). rewrite !orb_false_r. f_equal. lia.
Qed.

Lemma draw_history_line_spec row k l w i : Forall (fun c => color_ok c.2) l -> length l <= 256 ->
  draw_history_line row (kept_line k l) (set_info i w) = (set_info (draw_line row l i) w, Ok tt).
Proof.
  intros Hc Hl. unfold draw_history_line, get, mbind at 1, op_bind at 1. cbn [info set_info]. unfold draw_line.
  apply for_op_draws. intros col i' Hcol. apply elem_of_seq in Hcol.
  unfold kept_line, index_of, lift, mbind, op_bind, draw_cell. cbn [line_bytes line_colors].
  destruct (l !! col) as [c|] eqn:Hlc.
  - rewrite !lookup_resize, !list_lookup_fmap, Hlc
      by (rewrite ?length_fmap; unfold SCROLLBACK_COLUMN_CAPACITY; apply lookup_lt_Some in Hlc; lia).
    cbn. destruct (c.1 =? space)%Z; [done|]. rewrite (unpack_pack c.2); [done|]. by eapply (Forall_lookup_1 _ _ _ _ Hc).
  - apply lookup_ge_None in Hlc. by rewrite !lookup_resize_new by (rewrite ?length_fmap; unfold SCROLLBACK_COLUMN_CAPACITY; lia).
Qed.

(** The cells of one row. *)
Definition row_cells (row : nat) (l : list Cell) (r k : nat) : option Cell := if r =? row then l !! k else None.

Lemma draw_line_paints row l i : info_ok i -> 8 * length l + 16 <= width i <= 2064 ->
  paints (cell_ink (row_cells row l)) i (draw_line row l i).
Proof.
  intros Hi Hl. unfold draw_line. apply (paints_cells _ _ (fun col r k => if k =? col then row_cells row l r k else None)); [..|done].
  - intros col i' Hcol Hi' _. unfold draw_cell. destruct (l !! col) as [c|] eqn:Hlc.
    + assert (forall x y, cell_ink (one_cell row col c) x y = cell_ink (fun r k => if k =? col then row_cells row l r k else None) x y) as He.
      { intros x y. apply cell_ink_ext. intros r k. unfold one_cell, row_cells.
        destruct (r =? row) eqn:Hr, (k =? col) eqn:Hk; try done. bools. by subst. }
      destruct (c.1 =? space)%Z eqn:Hs.
      * apply Z.eqb_eq in Hs. eapply paints_ext; [|apply paints_none]. intros x y. rewrite <-He.
        destruct c as [byte color]. cbn in Hs. subst byte. by rewrite cell_ink_space.
      * eapply paints_ext; [|by apply draw_character_paints]. intros x y. by rewrite character_cell.
    + eapply paints_ext; [|apply paints_none]. intros x y. rewrite <-(cell_ink_none x y). apply cell_ink_ext.
      intros r k. unfold row_cells. destruct (k =? col) eqn:Hk; [|done]. bools. subst. by rewrite Hlc; destruct (r =? row).
  - intros r col k c _. by destruct (col =? k).
  - intros r col c Hc. exists col. rewrite Nat.eqb_refl. split; [|done]. apply elem_of_seq.
    unfold row_cells in Hc. destruct (r =? row); [|done]. apply lookup_lt_Some in Hc.
    assert (length l <= (width i - 16) / 8) by (apply Nat.div_le_lower_bound; lia). lia.
Qed.

(** ** The view *)

Lemma history_lookup t w q : console_at t w -> q <= kept_lines t ->
  history w !! q = kept_line (length (above t) - kept_lines t + q) <$> all_lines t !! (length (above t) - kept_lines t + q).
Proof.
  intros H Hq. rewrite (at_history _ _ H). unfold all_lines, kept_lines in *. set (n := length (above t)) in *.
  destruct (Nat.eq_dec q (Nat.min n 255)) as [->|Hne].
  - replace (n - Nat.min n 255 + Nat.min n 255) with n by lia. rewrite !list_lookup_middle; [done|done|].
    rewrite length_newest, length_imap. fold n. lia.
  - rewrite !lookup_app_l by (rewrite ?length_newest, ?length_imap; fold n; lia).
    rewrite newest_lookup, list_lookup_imap, length_imap. fold n. by replace (n - 255 + q) with (n - Nat.min n 255 + q) by lia.
Qed.

Lemma length_all_lines t : length (all_lines t) = length (above t) + 1.
Proof. unfold all_lines. by rewrite length_app. Qed.

Lemma find_line t w k l : console_at t w -> length (above t) - kept_lines t <= k -> all_lines t !! k = Some l ->
  exists p, position (fun line => line_id line =? Z.of_nat k)%Z (history w) = Some p /\ history w !! p = Some (kept_line k l).
Proof.
  intros H Hk Hl. pose proof (lookup_lt_Some _ _ _ Hl) as Hlt. rewrite length_all_lines in Hlt.
  assert (kept_lines t <= length (above t)) by (unfold kept_lines; lia).
  set (p := k - (length (above t) - kept_lines t)).
  assert (length (above t) - kept_lines t + p = k) as Hp by lia.
  exists p. rewrite position_Some, (history_lookup t w p), Hp, Hl by (done || lia). split; [|done].
  eexists. split_and!; [done|apply Z.eqb_refl|]. intros j y Hj Hy.
  rewrite (history_lookup t w j H) in Hy by lia. apply fmap_Some in Hy as (l' & _ & ->).
  apply Z.eqb_neq. cbn [line_id kept_line]. lia.
Qed.

Lemma oldest_spec t w : console_at t w -> oldest_id w = Z.of_nat (length (above t) - kept_lines t).
Proof.
  intros H. unfold oldest_id. rewrite head_lookup, (history_lookup t w 0) by (done || lia). rewrite Nat.add_0_r.
  destruct (lookup_lt_is_Some_2 (all_lines t) (length (above t) - kept_lines t)) as [l ->]; [rewrite length_all_lines; lia|]. done.
Qed.

Lemma console_info t w i : console_at t w -> same_frame (info w) i -> console_at t (set_info i w).
Proof.
  intros [Hscreen Hx Hy Hfg Hid Hhist Hback Hin Hcol Hwid Hkept] Hs.
  assert (width i = width (info w) /\ height i = height (info w)) as [Hw Hh] by (by destruct Hs as (b & -> & _)).
  split; cbn; rewrite ?Hw, ?Hh; try done. by eapply screen_frame.
Qed.

(** The lines [first] to [last] of the terminal, the last one on row [bottom]. *)
Definition draw_lines (t : Terminal) (first last bottom : nat) (i : FramebufferInfo) : FramebufferInfo :=
  foldl (fun i id => draw_line (bottom - Z.to_nat (Z.of_nat last - id)) (default [] (all_lines t !! Z.to_nat id)) i) i
    (seqZ (Z.of_nat first) (Z.of_nat last - Z.of_nat first + 1)).

Lemma draw_lines_paints t w first last bottom i : console_at t w -> same_frame (info w) i ->
  first <= last <= length (above t) -> last - first <= bottom ->
  paints (cell_ink (line_cells (all_lines t) first last bottom)) i (draw_lines t first last bottom i).
Proof.
  intros H Hs Hl Hb. pose proof (at_screen _ _ H) as [Hi Hw _].
  assert (forall i', same_frame i i' -> width i' = width (info w)) as Hwidth.
  { intros i' Hs'. destruct Hs' as (b & -> & _), Hs as (b' & -> & _). done. }
  assert (forall k, first <= k <= last -> exists l, all_lines t !! k = Some l /\ 8 * length l + 16 <= width (info w)) as Hline.
  { intros k Hk. destruct (lookup_lt_is_Some_2 (all_lines t) k) as [l Hlk]; [rewrite length_all_lines; lia|].
    exists l. split; [done|]. by apply (Forall_lookup_1 _ _ _ _ (at_columns _ _ H) Hlk). }
  apply (paints_cells _ _ (fun id => row_cells (bottom - Z.to_nat (Z.of_nat last - id)) (default [] (all_lines t !! Z.to_nat id)))).
  - intros id i' [Hid1 Hid2]%elem_of_seqZ Hi' Hs'. apply draw_line_paints; [done|]. rewrite Hwidth by done.
    destruct (Hline (Z.to_nat id)) as (l & -> & Hlw); [lia|]. cbn. lia.
  - intros row col id c [Hid1 Hid2]%elem_of_seqZ. unfold row_cells, line_cells.
    destruct (row =? _) eqn:Hr; [|done]. bools. subst row.
    rewrite !(proj2 (Nat.leb_le _ _)) by lia. cbn [andb].
    replace (last - (bottom - _)) with (Z.to_nat id) by lia. by destruct (all_lines t !! Z.to_nat id).
  - intros row col c. unfold line_cells. destruct (_ && _) eqn:Hin; [|done]. bools.
    intros Hc. exists (Z.of_nat (last - (bottom - row))). split; [apply elem_of_seqZ; lia|].
    unfold row_cells. rewrite Nat2Z.id. replace (row =? _) with true by (symmetry; apply Nat.eqb_eq; lia).
    by destruct (all_lines t !! _).
  - by eapply same_frame_ok.
Qed.

(** The status line. *)
Fixpoint draw_status_info (column y : nat) (status : list Z) (c : Z * Z * Z) (i : FramebufferInfo) : FramebufferInfo :=
  match status with
  | [] => i
  | byte :: status =>
      if width i <? MARGIN + column * CHAR_WIDTH + CHAR_WIDTH then i
      else draw_status_info (column + 1) y status c (draw_character_info (MARGIN + column * CHAR_WIDTH) y byte c i)
  end.

Lemma draw_status_spec column y status w i :
  draw_status column y status (set_info i w) = set_info (draw_status_info column y status (fg w) i) w.
Proof.
  revert column i. induction status as [|b status IH]; intros column i; [done|]. cbn [draw_status draw_status_info].
  cbn [info set_info]. destruct (width i <? _); [done|]. by rewrite <-IH.
Qed.

Definition status_cells (w row first : nat) (status : list Z) (c : Z * Z * Z) (r k : nat) : option Cell :=
  if (r =? row) && (first <=? k) && (CHAR_WIDTH * k + 16 <=? w) then (fun byte => (byte, c)) <$> status !! (k - first) else None.

Lemma draw_status_paints row column status c i : info_ok i ->
  paints (cell_ink (status_cells (width i) row column status c)) i
    (draw_status_info column (MARGIN + row * LINE_HEIGHT) status c i).
Proof.
  revert column i. induction status as [|b status IH]; intros column i Hi; cbn [draw_status_info].
  { eapply paints_ext; [|apply paints_none]. intros x y. rewrite <-(cell_ink_none x y). apply cell_ink_ext.
    intros r k. unfold status_cells. by case_match. }
  destruct (width i <? _) eqn:Hw; unfold MARGIN, CHAR_WIDTH in Hw; bools.
  { eapply paints_ext; [|apply paints_none]. intros x y. rewrite <-(cell_ink_none x y). apply cell_ink_ext.
    intros r k. unfold status_cells, CHAR_WIDTH. destruct (_ && _) eqn:Hk; [|done]. bools. lia. }
  pose proof (draw_character_paints (MARGIN + column * CHAR_WIDTH) (MARGIN + row * LINE_HEIGHT) b c i Hi) as Hd.
  specialize (IH (column + 1) _ (same_frame_ok _ _ (proj1 Hd) Hi)).
  eapply paints_ext; [|exact (paints_trans _ _ _ _ _ Hd IH)]. intros x y. cbn beta.
  pose proof (character_cell row column (b, c) x y) as Hcell. cbn [fst snd] in Hcell. rewrite Hcell.
  replace (width (draw_character_info _ _ _ _ _)) with (width i) by (by destruct Hd as [(b' & -> & _) _]).
  unfold cell_ink, one_cell, status_cells. destruct (_ && _); [|done].
  destruct (_ =? row); cbn [andb]; [|done]. set (k := (x - MARGIN) / CHAR_WIDTH).
  destruct (k =? column) eqn:Hk; bools.
  - rewrite (proj2 (Nat.leb_gt (column + 1) k)), (proj2 (Nat.leb_le column k)), Hk, Nat.sub_diag by lia. cbn [andb lookup list_lookup].
    rewrite (proj2 (Nat.leb_le _ (width i))) by (unfold CHAR_WIDTH; lia). done.
  - destruct (Nat.lt_ge_cases k column).
    + by rewrite !(proj2 (Nat.leb_gt _ k)) by lia.
    + rewrite !(proj2 (Nat.leb_le _ k)) by lia. replace (k - column) with (S (k - (column + 1))) by lia. cbn [andb lookup list_lookup].
      destruct (_ <=? width i); [|done]. destruct (_ <$> _) as [[]|]; [by destruct (glyph_bit _ _ _)|done].
Qed.

(** What a view draws: the lines from [first] to [last], the last one on row [bottom]. *)
Definition view_last (t : Terminal) : nat := length (above t) - back t.
Definition view_bottom (h : nat) (t : Terminal) : nat :=
  if back t =? 0 then Nat.min (length (above t)) (screen_rows h - 1) else screen_rows h - 2.
Definition view_first (h : nat) (t : Terminal) : nat :=
  Nat.max (view_last t - view_bottom h t) (length (above t) - kept_lines t).

Definition draw_view (h : nat) (t : Terminal) (i : FramebufferInfo) : FramebufferInfo :=
  let i := draw_lines t (view_first h t) (view_last t) (view_bottom h t) (clear_screen i) in
  if back t =? 0 then i else draw_status_info 0 (MARGIN + (screen_rows h - 1) * LINE_HEIGHT) SCROLLBACK_STATUS (color t) i.

Lemma draw_lines_loop t w first bottom last i : console_at t w ->
  length (above t) - kept_lines t <= first -> last <= length (above t) ->
  for_op (seqZ (Z.of_nat first) (Z.of_nat last - Z.of_nat first + 1)) (fun id =>
    w ← get;
    match position (fun line => line_id line =? id)%Z (history w) with
    | Some position => line ← lift (index_of (history w) position); draw_history_line (bottom - Z.to_nat (Z.of_nat last - id)) line
    | None => mret tt
    end) (set_info i w) = (set_info (draw_lines t first last bottom i) w, Ok tt).
Proof.
  intros H Hf Hl. unfold draw_lines. apply for_op_draws. intros id i' [Hid1 Hid2]%elem_of_seqZ.
  destruct (lookup_lt_is_Some_2 (all_lines t) (Z.to_nat id)) as [l Hlk]; [rewrite length_all_lines; lia|].
  destruct (find_line t w (Z.to_nat id) l H) as (p & Hp & Hat); [lia|done|]. rewrite Z2Nat.id in Hp by lia.
  unfold get, mbind at 1, op_bind at 1. cbn [history set_info]. rewrite Hp. unfold lift, index_of, mbind, op_bind. rewrite Hat. cbn [expect].
  rewrite Hlk. cbn [from_option]. apply draw_history_line_spec.
  - destruct (at_colors _ _ H) as [Hc _]. by apply (Forall_lookup_1 _ _ _ _ Hc Hlk).
  - pose proof (Forall_lookup_1 _ _ _ _ (at_columns _ _ H) Hlk). pose proof (at_screen _ _ H) as [_ Hw _]. cbn in *. lia.
Qed.

Lemma render_spec t w : console_at t w ->
  render_history_view w = (set_info (draw_view (height (info w)) t (info w)) w, Ok tt).
Proof.
  intros H. pose proof (at_screen _ _ H) as [Hi Hw Hh]. pose proof (rows_fit (height (info w)) ltac:(lia)) as [Hrows Hfit].
  pose proof (at_kept _ _ H) as Hkept. assert (kept_lines t <= length (above t)) as Hk by (unfold kept_lines; lia).
  destruct (clear_screen_spec (info w) Hi) as [Hframe _].
  pose proof (console_info t w _ H Hframe) as H1. set (w1 := set_info (clear_screen (info w)) w) in *.
  unfold render_history_view. rewrite step_modify, step_get. change (on_info clear_screen w) with w1.
  assert (visible_rows w1 = screen_rows (height (info w))) as -> by done.
  rewrite (proj2 (Nat.eqb_neq _ _)) by lia. rewrite (oldest_spec t w1 H1), (at_back _ _ H1), (at_y _ _ H1), (at_id _ _ H1).
  change (height (info w1)) with (height (info w)). set (rows := screen_rows (height (info w))) in *.
  unfold sub_usize. rewrite (proj2 (Nat.leb_le 1 rows)), step_lift by lia.
  set (bottom := if negb (back t =? 0) then rows - 2 else _).
  assert (bottom = view_bottom (height (info w)) t) as Hb.
  { subst bottom. unfold view_bottom. fold rows. destruct (back t =? 0); [|done]. cbn [negb]. unfold MARGIN, LINE_HEIGHT.
    replace (8 + _ - 8) with (Nat.min (length (above t)) (rows - 1) * 16) by lia. rewrite Nat.div_mul by lia. lia. }
  assert (Nat.min (rows - (if negb (back t =? 0) then 1 else 0)) (bottom + 1) - 1 = bottom) as ->.
  { rewrite Hb. unfold view_bottom. fold rows. destruct (back t =? 0) eqn:Hz; cbn [negb]; lia. }
  assert (Z.max (saturating_sub (Z.of_nat (length (above t))) (Z.of_nat (back t))) (Z.of_nat (length (above t) - kept_lines t)) = Z.of_nat (view_last t)) as ->
    by (unfold saturating_sub, view_last; lia).
  assert (Z.max (saturating_sub (Z.of_nat (view_last t)) (Z.of_nat bottom)) (Z.of_nat (length (above t) - kept_lines t)) = Z.of_nat (view_first (height (info w)) t)) as ->
    by (unfold saturating_sub, view_first; rewrite Hb; lia).
  erewrite step_Ok by (apply (draw_lines_loop t w); [done|unfold view_first; lia|unfold view_last; lia]).
  rewrite Hb. unfold draw_view. fold rows. destruct (back t =? 0); [done|]. cbn [negb].
  unfold modify. by rewrite draw_status_spec, (at_fg _ _ H).
Qed.

Lemma line_cells_first ls first last bottom row col :
  line_cells ls (Nat.max (last - bottom) first) last bottom row col = line_cells ls first last bottom row col.
Proof.
  unfold line_cells. destruct (row <=? bottom) eqn:Hr; [|done]. bools. cbn [andb].
  destruct (first + (bottom - row) <=? last) eqn:Hf; bools.
  - by rewrite (proj2 (Nat.leb_le _ _)) by lia.
  - by rewrite (proj2 (Nat.leb_gt _ _)) by lia.
Qed.

(** A view shows what the terminal has. *)
Lemma draw_view_shows t w : console_at t w ->
  same_frame (info w) (draw_view (height (info w)) t (info w)) /\
  shows (draw_view (height (info w)) t (info w))
    (view_cells (width (info w)) (height (info w)) (mk_terminal (above t) (current t) (color t) (back t) (color t))).
Proof.
  intros H. pose proof (at_screen _ _ H) as [Hi Hw Hh]. pose proof (rows_fit (height (info w)) ltac:(lia)) as [Hrows _].
  pose proof (at_kept _ _ H) as Hkept. assert (kept_lines t <= length (above t)) as Hk by (unfold kept_lines; lia).
  destruct (clear_screen_spec (info w) Hi) as [Hframe _]. set (h := height (info w)) in *.
  pose proof (draw_lines_paints t w (view_first h t) (view_last t) (view_bottom h t) _ H Hframe
    ltac:(unfold view_first, view_last; lia) ltac:(unfold view_first, view_last; lia)) as Hlines.
  pose proof (proj1 Hlines) as Hframe'. unfold draw_view. fold h. set (i := draw_lines _ _ _ _ _) in *.
  assert (forall cells i', paints (cell_ink cells) (clear_screen (info w)) i' ->
    (forall row col, cells row col = view_cells (width (info w)) h (mk_terminal (above t) (current t) (color t) (back t) (color t)) row col) ->
    same_frame (info w) i' /\ shows i' (view_cells (width (info w)) h (mk_terminal (above t) (current t) (color t) (back t) (color t)))) as Hend.
  { intros cells i' Hp He. split; [etrans; [done|apply Hp]|]. eapply shows_ext; [done|]. by eapply paints_shows. }
  unfold view_first, view_bottom, view_last in Hlines. destruct (back t =? 0) eqn:Hb.
  - apply Nat.eqb_eq in Hb. rewrite Hb, Nat.sub_0_r in Hlines. eapply Hend; [done|]. intros row col.
    unfold view_cells. cbn [above current color back status_color]. rewrite Hb. cbn [Nat.eqb]. by rewrite line_cells_first.
  - pose proof (draw_status_paints (screen_rows h - 1) 0 SCROLLBACK_STATUS (color t) i (same_frame_ok _ _ Hframe' (same_frame_ok _ _ Hframe Hi))) as Hstatus.
    replace (width i) with (width (info w)) in Hstatus by (by destruct Hframe' as (b & -> & _)).
    eapply (Hend _ _); [|intros row col; reflexivity].
    eapply paints_ext; [|exact (paints_trans _ _ _ _ _ Hlines Hstatus)]. intros x y. cbn beta.
    unfold cell_ink, status_cells, view_cells. cbn [above current color back status_color]. rewrite Hb.
    destruct (_ && _); [|done]. set (row := (y - MARGIN) / LINE_HEIGHT). rewrite line_cells_first, Nat.sub_0_r.
    destruct (row =? screen_rows h - 1) eqn:Hr; cbn [andb].
    + apply Nat.eqb_eq in Hr. unfold line_cells. rewrite (proj2 (Nat.leb_gt row _)) by lia. cbn [andb Nat.leb].
      destruct (_ <=? width (info w)); [|done]. cbn [andb]. destruct (_ <$> _) as [[]|]; [by destruct (glyph_bit _ _ _)|done].
    + done.
Qed.

(** ** Runs *)

Definition set_status (t : Terminal) : Terminal := mk_terminal (above t) (current t) (color t) (back t) (color t).

Lemma at_status t w c : console_at t w -> console_at (mk_terminal (above t) (current t) (color t) (back t) c) w.
Proof. by intros []. Qed.

(** The console is in the state of a terminal, and the screen shows it. *)
Definition displays (t : Terminal) (w : FramebufferWriter) : Prop :=
  console_at t w /\ shows (info w) (view_cells (width (info w)) (height (info w)) t).

Lemma render_displays t w : console_at t w ->
  exists w', render_history_view w = (w', Ok tt) /\ displays (set_status t) w' /\ same_frame (info w) (info w').
Proof.
  intros H. destruct (draw_view_shows t w H) as [Hs Hv]. rewrite (render_spec t w H). eexists. split; [done|].
  split; [|done]. split; [by apply at_status, console_info|]. cbn [info set_info].
  by assert (width (draw_view (height (info w)) t (info w)) = width (info w) /\
    height (draw_view (height (info w)) t (info w)) = height (info w)) as [-> ->] by (by destruct Hs as (b & -> & _)).
Qed.

Lemma print_displays t w bytes : displays t w -> (Z.of_nat (length (above t) + length bytes) < u64_limit)%Z ->
  exists w', print_bytes bytes w = (w', Ok tt) /\
    displays (terminal_call (width (info w)) (height (info w)) (Print bytes) t) w' /\ same_frame (info w) (info w').
Proof.
  intros [H Hs] Hn. destruct (put_bytes_spec bytes t w H Hn) as (w1 & Hput & [H1 Hf Hback _ Hsh]).
  unfold print_bytes. rewrite (step_Ok _ _ _ _ _ Hput), step_get. cbn [terminal_call].
  set (t1 := foldl _ _ _) in *. rewrite (at_back _ _ H1).
  assert (width (info w1) = width (info w) /\ height (info w1) = height (info w)) as [Hw Hh] by (by destruct Hf as (b & -> & _)).
  pose proof (screen_height _ (at_screen _ _ H)) as Hheight. destruct (back t1 =? 0) eqn:Hz.
  - apply Nat.eqb_eq in Hz. eexists. split; [done|]. split; [|done]. split; [by apply at_status|].
    rewrite Hh. eapply shows_ext; [|apply Hsh].
    + intros row col. rewrite view_live by done. done.
    + eapply shows_ext; [|exact Hs]. intros row col. apply view_live; [done|congruence].
  - destruct (render_displays t1 w1 H1) as (w2 & -> & Hd & Hf2). eexists. split; [done|]. split; [done|]. by etrans.
Qed.

Lemma back_displays t w n : console_at t w -> n <= kept_lines t ->
  console_at (mk_terminal (above t) (current t) (color t) n (status_color t)) (set_scrollback_offset n w).
Proof. by intros [] Hn. Qed.

(** A page up or down. *)
Lemma page_displays up t w : displays t w ->
  exists w', scrollback_page up w = (w', Ok tt) /\
    displays (terminal_call (width (info w)) (height (info w)) (if up then PageUp else PageDown) t) w' /\ same_frame (info w) (info w').
Proof.
  intros [H _]. unfold scrollback_page. rewrite step_get, step_put.
  rewrite (oldest_spec t w H), (at_id _ _ H), (at_back _ _ H).
  change (visible_rows w) with (screen_rows (height (info w))). set (page := Nat.max _ 1).
  assert (Z.to_nat (saturating_sub (Z.of_nat (length (above t))) (Z.of_nat (length (above t) - kept_lines t))) = kept_lines t) as ->
    by (unfold saturating_sub, kept_lines; lia).
  pose proof (at_kept _ _ H). set (n := if up then _ else _).
  destruct (render_displays _ _ (back_displays t w n H ltac:(unfold n; destruct up; lia))) as (w' & -> & Hd & Hf).
  eexists. split; [done|]. split; [|done]. unfold n in Hd. by destruct up.
Qed.

Lemma clear_displays c s w i : screen_ok i -> info w = i -> fg w = c -> color_ok c -> displays (mk_terminal [] [] c 0 s) (clear w).
Proof.
  intros Hi <- Hc Hok. pose proof Hi as [Hinfo Hw Hh]. destruct (clear_screen_spec (info w) Hinfo) as [Hf Hb]. split.
  - split; cbn; try done.
    + by eapply screen_frame.
    + split; [repeat constructor|done].
    + repeat constructor. cbn. lia.
  - intros x y _ _. cbn [info clear]. change (info (clear w)) with (clear_screen (info w)). rewrite (pixel_blank _ _ _ _ Hb).
    unfold cell_ink. destruct (_ && _); [|done]. rewrite view_live by (done || (destruct Hf as (b & -> & _); done)). unfold live_cells. cbn.
    by destruct (_ / _); [destruct (_ / _)|].
Qed.

Definition call_ok (call : ConsoleCall) : Prop := match call with SetColor r g b => color_ok (r, g, b) | _ => True end.

Definition call_bytes (call : ConsoleCall) : nat := match call with Print bytes => length bytes | _ => 0 end.

Lemma call_displays call t w : displays t w -> call_ok call -> (Z.of_nat (length (above t) + call_bytes call) < u64_limit)%Z ->
  exists w', console_call call w = (w', Ok tt) /\
    displays (terminal_call (width (info w)) (height (info w)) call t) w' /\ same_frame (info w) (info w').
Proof.
  intros Hd Hok Hn. pose proof Hd as [H Hs]. destruct call as [bytes|r g b| | | |]; cbn [console_call call_bytes] in *.
  - by apply print_displays.
  - eexists. split; [done|]. split; [|done]. split; [|exact Hs]. destruct H as [? ? ? ? ? ? ? ? [? ?] ? ?]. by split.
  - eexists. split; [done|]. pose proof (at_screen _ _ H) as Hi. destruct (clear_screen_spec (info w)) as [Hf _]; [apply Hi|].
    split; [|done]. eapply clear_displays; [done|done|by apply at_fg|]. by apply (at_colors _ _ H).
  - by apply (page_displays true).
  - by apply (page_displays false).
  - unfold scrollback_to_bottom. destruct (back t =? 0) eqn:Hz.
    + apply Nat.eqb_eq in Hz. exists w. split.
      { unfold get, mbind, op_bind. by rewrite (at_back _ _ H), Hz. }
      split; [|done]. pose proof (at_status t w (color t) H) as H'. rewrite Hz in H'. split; [done|].
      eapply shows_ext; [|exact Hs]. intros row col. unfold view_cells. by rewrite Hz.
    + destruct (render_displays _ _ (back_displays t w 0 H ltac:(lia))) as (w' & Hr & Hd' & Hf). exists w'. split; [|done].
      unfold get, put, mbind, op_bind. rewrite (at_back _ _ H), Hz. by rewrite Hr.
Qed.

Definition printed (calls : list ConsoleCall) : nat := sum_list_with call_bytes calls.

Definition terminal_calls (w h : nat) (calls : list ConsoleCall) (t : Terminal) : Terminal :=
  foldl (fun t call => terminal_call w h call t) t calls.

Lemma length_terminal_call w h call t : length (above (terminal_call w h call t)) <= length (above t) + call_bytes call.
Proof. destruct call; cbn; try lia. apply length_terminal_bytes. Qed.

Lemma calls_display calls t w : displays t w -> Forall call_ok calls ->
  (Z.of_nat (length (above t) + printed calls) < u64_limit)%Z ->
  exists w', console_calls calls w = (w', Ok tt) /\
    displays (terminal_calls (width (info w)) (height (info w)) calls t) w' /\ same_frame (info w) (info w').
Proof.
  intros Hd Hok. revert t w Hd. induction Hok as [|call calls Hc _ IH]; intros t w Hd Hn; [by eexists|].
  unfold printed in *. cbn [sum_list_with] in Hn. destruct (call_displays call t w Hd Hc) as (w1 & Hw1 & Hd1 & Hf1); [lia|].
  destruct (IH _ w1 Hd1) as (w2 & Hw2 & Hd2 & Hf2).
  { pose proof (length_terminal_call (width (info w)) (height (info w)) call t). lia. }
  exists w2. unfold console_calls in *. cbn [for_op]. rewrite (step_Ok _ _ _ _ _ Hw1). split; [done|]. split; [|by etrans].
  assert (width (info w1) = width (info w) /\ height (info w1) = height (info w)) as [Hw Hh] by (by destruct Hf1 as (b & -> & _)).
  by rewrite Hw, Hh in Hd2.
Qed.

(** ** The screen *)

Definition terminal_new : Terminal := mk_terminal [] [] DEFAULT_FG 0 DEFAULT_FG.

(** C16: The screen of a console of up to 256 columns and rows shows, pixel for pixel, the text
    printed on it: after any sequence of prints, colour changes, clears and pages up and
    down, the last lines of the text wrapped at the width of the screen, or the kept lines
    before them above the status line.  Leaving the scrollback restores the live screen. *)
Theorem console_shows_text (i : FramebufferInfo) (calls : list ConsoleCall) :
  screen_ok i -> Forall call_ok calls -> (Z.of_nat (printed calls) < u64_limit)%Z ->
  exists w, console_calls calls (FramebufferWriter_new i) = (w, Ok tt) /\ same_frame i (info w) /\
    shows (info w) (view_cells (width i) (height i) (terminal_calls (width i) (height i) calls terminal_new)).
Proof.
  intros Hi Hok Hn. pose proof Hi as [Hinfo _ _]. destruct (clear_screen_spec i Hinfo) as [Hf _].
  assert (displays terminal_new (FramebufferWriter_new i)) as Hd.
  { eapply clear_displays; [done|done|done|]. by unfold color_ok, is_byte. }
  destruct (calls_display calls _ _ Hd Hok Hn) as (w & Hw & [_ Hs] & Hf'). exists w. split; [done|].
  change (info (FramebufferWriter_new i)) with (clear_screen i) in *.
  assert (same_frame i (info w)) as Hsame by (by etrans). split; [done|].
  assert (width (clear_screen i) = width i /\ height (clear_screen i) = height i) as [Ew Eh] by (by destruct Hf as (b & -> & _)).
  assert (width (info w) = width i /\ height (info w) = height i) as [Ew' Eh'] by (by destruct Hsame as (b & -> & _)).
  by rewrite Ew, Eh, Ew', Eh' in Hs.
Qed.

(** A small screen. *)
Definition small_screen (w h : nat) : FramebufferInfo := mk_info (replicate (4 * w * h) 7%Z) w h (4 * w) 4 true.

Lemma small_screen_info w h : info_ok (small_screen w h).
Proof. split; [done|done|]. apply length_replicate. Qed.

Lemma console_shows_text_witness :
  exists w, console_calls [Print (str "Hello"); SetColor 255 0 0; Print (str "a long line" ++ [10%Z]); PageUp; Print (str "x"); ToBottom]
    (FramebufferWriter_new (small_screen 64 64)) = (w, Ok tt) /\ same_frame (small_screen 64 64) (info w) /\
    shows (info w) (view_cells 64 64 (terminal_calls 64 64
      [Print (str "Hello"); SetColor 255 0 0; Print (str "a long line" ++ [10%Z]); PageUp; Print (str "x"); ToBottom] terminal_new)).
Proof.
  apply (console_shows_text (small_screen 64 64)).
  - split; [apply small_screen_info|cbn; lia|cbn; lia].
  - repeat (apply Forall_cons_2; [cbn; unfold color_ok, is_byte; cbn; lia|]). apply Forall_nil_2.
  - vm_compute. reflexivity.
Defined.
