(* ===== verification/ConsoleSafe.v ===== *)
(** * The console does not panic

    The framebuffer console indexes arrays, subtracts coordinates and slices text.  Its
    state keeps an invariant under which no call of it panics. *)

From S2P Require Import Prelude Font FrameAlloc Utf8 Chars LineEdit TextEdit Framebuffer Terminal.

(** ** Calls *)

Inductive ApiCall :=
| Console (call : ConsoleCall)
| Backspace
| BeginInputLine
| FinishInputLine
| RedrawInputLine (bytes : list Z) (cursor : nat)
| RenderEditor (name text : list Z) (cursor : nat) (dirty : bool).

Definition api_call (call : ApiCall) : Method FramebufferWriter unit :=
  match call with
  | Console call => console_call call
  | Backspace => backspace
  | BeginInputLine => modify begin_input_line
  | FinishInputLine => modify finish_input_line
  | RedrawInputLine bytes cursor => redraw_input_line bytes (Nat.min cursor (length bytes))
  | RenderEditor name text cursor dirty => render_editor name text cursor dirty
  end.

Definition api_calls (calls : list ApiCall) : Method FramebufferWriter unit := for_op calls api_call.

(** What the shell passes: a line of at most 256 bytes, valid text with the cursor between
    two characters of it. *)
Definition api_ok (call : ApiCall) : Prop :=
  match call with
  | RedrawInputLine bytes _ => length bytes <= 256
  | RenderEditor _ text cursor _ =>
      is_char_boundary text (Nat.min cursor (length text)) = true /\ (Z.of_nat (length text) < 10 ^ 19)%Z
  | _ => True
  end.

(** ** The invariant *)

(** A place characters are drawn at. *)
Definition place_ok (c : nat * nat) : Prop := (exists k, c.1 = 8 + 8 * k) /\ (exists k, c.2 = 8 * k).

Definition line_ok (line : TerminalLine) : Prop := length (line_bytes line) = 256 /\ length (line_colors line) = 256.

(** The operations below keep the number of the cells of the command line; [P] is what is
    known of it. *)
Section invariant.
Context (P : nat -> Prop).

Record writer_ok (w : FramebufferWriter) : Prop := {
  wo_height : 16 < height (info w);
  wo_place : place_ok (pos_x w, pos_y w);
  wo_cells : length (input_cells w) = 256;
  wo_bytes : length (input_bytes w) = 256;
  wo_history_cells : length (input_history_cells w) = 256;
  wo_count : input_cell_count w <= 256;
  wo_P : P (input_cell_count w);
  wo_cell k c : k < input_cell_count w -> input_cells w !! k = Some c -> place_ok c;
  wo_origin o : input_origin w = Some o -> place_ok o;
  wo_history : Forall line_ok (history w);
  wo_editor : length (editor_cells w) = 128 /\ Forall (fun l => length l = 256) (editor_cells w);
}.

(** ** Calls that return *)

(** The method returns, and its result and the state are in [Q]. *)
Definition returns {A} (m : Method FramebufferWriter A) (Q : A -> FramebufferWriter -> Prop) (w : FramebufferWriter) : Prop :=
  exists a w', m w = (w', Ok a) /\ Q a w'.

(** The method returns in a state of the invariant. *)
Abbreviation safe m := (forall w, writer_ok w -> returns m (fun _ => writer_ok) w).

Lemma returns_bind {A B} (m : Method FramebufferWriter A) (k : A -> Method FramebufferWriter B) R Q w :
  returns m R w -> (forall a w', R a w' -> returns (k a) Q w') -> returns (m ≫= k) Q w.
Proof. intros (a & w1 & Hm & HR) Hk. destruct (Hk a w1 HR) as (b & w2 & Hb & HQ). exists b, w2. by rewrite (step_Ok _ _ _ _ _ Hm). Qed.

Lemma returns_weaken {A} (m : Method FramebufferWriter A) (R Q : A -> FramebufferWriter -> Prop) w :
  returns m R w -> (forall a w', R a w' -> Q a w') -> returns m Q w.
Proof. intros (a & w1 & Hm & HR) HQ. exists a, w1. auto. Qed.

Lemma returns_ret {A} (a : A) (Q : A -> FramebufferWriter -> Prop) w : Q a w -> returns (mret a) Q w.
Proof. intros H. by exists a, w. Qed.

Lemma returns_get {B} (k : FramebufferWriter -> Method FramebufferWriter B) Q w : returns (k w) Q w -> returns (get ≫= k) Q w.
Proof. done. Qed.

Lemma returns_modify f (Q : unit -> FramebufferWriter -> Prop) w : Q tt (f w) -> returns (modify f) Q w.
Proof. intros H. by exists tt, (f w). Qed.

Lemma returns_put w' (Q : unit -> FramebufferWriter -> Prop) w : Q tt w' -> returns (put w') Q w.
Proof. intros H. by exists tt, w'. Qed.

Lemma returns_lift {A B} (r : outcome Empty_set A) (k : A -> Method FramebufferWriter B) Q w a :
  r = Ok a -> returns (k a) Q w -> returns (lift r ≫= k) Q w.
Proof. by intros ->. Qed.

Lemma safe_seq {A B} (m : Method FramebufferWriter A) (k : A -> Method FramebufferWriter B) Q w :
  writer_ok w -> safe m -> (forall a w', writer_ok w' -> returns (k a) Q w') -> returns (m ≫= k) Q w.
Proof. intros Hw Hm Hk. eapply returns_bind; [by apply Hm|]. done. Qed.

Lemma returns_for {A} (l : list A) (body : A -> Method FramebufferWriter unit) :
  (forall a, a ∈ l -> safe (body a)) -> safe (for_op l body).
Proof.
  induction l as [|a l IH]; intros Hb w Hw; cbn [for_op]; [by apply returns_ret|].
  eapply safe_seq; [done|apply Hb; set_solver|]. intros _ w' Hw'. apply IH; [|done]. intros a' Ha'. apply Hb. set_solver.
Qed.

(** ** Drawing keeps the invariant *)

Lemma height_range {A} (l : list A) (body : A -> FramebufferInfo -> FramebufferInfo) i :
  (forall a i, height (body a i) = height i) -> height (foldl (fun i a => body a i) i l) = height i.
Proof. intros Hb. revert i. induction l as [|a l IH]; intros i; cbn; [done|]. by rewrite IH, Hb. Qed.

Lemma height_pixel x y c i : height (write_pixel_info x y c i) = height i.
Proof. unfold write_pixel_info. destruct (_ || _); [done|]. destruct c as [[r g] b]. by destruct (bgr i). Qed.

Lemma height_clear x y i : height (clear_character_info x y i) = height i.
Proof. apply height_range. intros a i'. apply height_range. intros. apply height_pixel. Qed.

Lemma height_character x y b c i : height (draw_character_info x y b c i) = height i.
Proof. apply height_range. intros a i'. apply height_range. intros k i''. destruct (glyph_bit b a k); [apply height_pixel|done]. Qed.

Lemma height_cursor x y b c i : height (draw_cursor_info x y b c i) = height i.
Proof. apply height_range. intros a i'. apply height_range. intros. apply height_pixel. Qed.

(** A change of the pixels. *)
Lemma ok_info f w : writer_ok w -> (forall i, height (f i) = height i) -> writer_ok (on_info f w).
Proof. intros [] Hf. split; try done. cbn. by rewrite Hf. Qed.

Lemma ok_position w x y : writer_ok w -> place_ok (x, y) -> writer_ok (set_position x y w).
Proof. by intros [] Hp. Qed.

Lemma ok_overlay o w : writer_ok w -> writer_ok (set_cursor_overlay o w).
Proof. by intros []. Qed.

Lemma ok_history h w : writer_ok w -> Forall line_ok h -> writer_ok (set_history h w).
Proof. by intros [] Hh. Qed.

Lemma ok_clear_character x y w : writer_ok w -> writer_ok (clear_character x y w).
Proof. intros Hw. apply ok_info; [done|]. intros. apply height_clear. Qed.

Lemma ok_draw x y b c w : writer_ok w -> writer_ok (draw_character_with_color x y b c w).
Proof. intros Hw. apply ok_info; [done|]. intros. apply height_character. Qed.

Lemma ok_draw_cursor x y b w : writer_ok w -> writer_ok (draw_cursor_overlay x y b w).
Proof. intros Hw. apply ok_overlay, ok_info; [done|]. intros. apply height_cursor. Qed.

Lemma ok_remove_cursor w : writer_ok w -> writer_ok (remove_cursor_overlay w).
Proof.
  intros Hw. unfold remove_cursor_overlay. destruct (cursor_overlay w) as [[[x y] b]|]; [|done].
  pose proof (ok_clear_character x y _ (ok_overlay None w Hw)). case_match; [done|]. by apply ok_draw.
Qed.

Lemma line_ok_new id : line_ok (TerminalLine_new id).
Proof. split; apply length_replicate. Qed.

Lemma place_start : place_ok (MARGIN, MARGIN).
Proof. split; [by exists 0|by exists 1]. Qed.

(** ** The text of the lines *)

Definition rounds_left (id : Z) (h : list TerminalLine) : Z :=
  match back_id h with Some back => Z.max 0 (id - back) | None => 1 end.

Lemma ensure_round_ok id h : Forall line_ok h ->
  match ensure_round id h with
  | inl h' => Forall line_ok h' /\ (0 <= rounds_left id h' < rounds_left id h)%Z
  | inr h' => Forall line_ok h'
  end.
Proof.
  intros Hh. unfold ensure_round.
  assert (forall next, Forall line_ok (h ++ [TerminalLine_new next])) as Hgrow.
  { intros next. apply Forall_app. split; [done|]. apply Forall_singleton, line_ok_new. }
  assert (forall next, Forall line_ok (if SCROLLBACK_LINE_CAPACITY <? length (h ++ [TerminalLine_new next])
    then drop 1 (h ++ [TerminalLine_new next]) else h ++ [TerminalLine_new next])) as Hline.
  { intros next. case_match; [apply Forall_drop|]; apply Hgrow. }
  assert (forall next, back_id (if SCROLLBACK_LINE_CAPACITY <? length (h ++ [TerminalLine_new next])
    then drop 1 (h ++ [TerminalLine_new next]) else h ++ [TerminalLine_new next]) = Some next) as Hback.
  { intros next. unfold back_id. case_match; [|by rewrite last_snoc]. destruct h as [|a h]; [done|]. cbn [app drop]. by rewrite drop_0, last_snoc. }
  assert (back_id h = line_id <$> last h) as Hb by done. unfold rounds_left. rewrite Hb. destruct (last h) as [line|]; cbn [fmap option_fmap option_map].
  - destruct (line_id line <? id)%Z eqn:Hlt; [|done]. cbv zeta. split; [done|]. rewrite Hback. bools. lia.
  - cbv zeta. split; [done|]. rewrite Hback. lia.
Qed.

Lemma safe_ensure id : safe (ensure_history_line id).
Proof.
  intros w Hw. unfold ensure_history_line. apply returns_get.
  destruct (while_loop_ends (Forall line_ok) (rounds_left id) (Forall line_ok) (ensure_round id)
    (Z.max 0 (id - default (id - 1) (back_id (history w))) + 2)%Z (history w)) as (h & -> & Hok).
  - intros h Hh. by apply ensure_round_ok.
  - apply Hw.
  - unfold rounds_left. destruct (back_id (history w)); cbn; lia.
  - eapply returns_lift; [done|]. apply returns_put. by apply ok_history.
Qed.

Lemma safe_set_cell p column byte color : column < 256 ->
  forall w, writer_ok w -> p < length (history w) -> returns (set_cell_at p column byte color) (fun _ => writer_ok) w.
Proof.
  intros Hc w Hw Hp. unfold set_cell_at. apply returns_get.
  destruct (lookup_lt_is_Some_2 _ _ Hp) as [line Hline]. pose proof (wo_history _ Hw) as Hh.
  pose proof (Forall_lookup_1 _ _ _ _ Hh Hline) as [Hb Hcol].
  eapply returns_lift; [unfold index_of; by rewrite Hline|].
  eapply returns_lift. { unfold set_line_cell, set_index. by rewrite Hb, Hcol, (proj2 (Nat.ltb_lt _ _)). }
  apply returns_put, ok_history; [done|]. apply Forall_insert; [done|]. split; cbn; by rewrite length_insert.
Qed.

Lemma safe_history_cell id column byte color : safe (set_history_cell id column byte color).
Proof.
  intros w Hw. unfold set_history_cell. apply returns_get. destruct (SCROLLBACK_COLUMN_CAPACITY <=? column) eqn:Hc; [by apply returns_ret|].
  apply Nat.leb_gt in Hc. destruct (position _ (history w)) as [p|] eqn:Hp.
  - apply position_Some in Hp as (line & Hline & _). apply safe_set_cell; [done|done|by eapply lookup_lt_Some].
  - case_match; [|by apply returns_ret]. eapply safe_seq; [done|apply safe_ensure|]. intros _ w' Hw'. apply returns_get.
    case_bool_decide as Hback; [|by apply returns_ret]. apply safe_set_cell; [done|done|].
    unfold back_id in Hback. destruct (history w'); [done|]. cbn. lia.
Qed.

(** ** Printing *)

Lemma safe_scroll : safe (scroll_up LINE_HEIGHT).
Proof.
  intros w Hw. unfold returns. rewrite scroll_up_spec; [|pose proof (wo_height _ Hw); unfold LINE_HEIGHT; lia|rewrite (wo_cells _ Hw); apply Hw].
  eexists _, _. split; [done|]. assert (forall c, place_ok c -> place_ok (c.1, c.2 - LINE_HEIGHT)) as Hup.
  { intros c [Hx [k Hk]]. split; [done|]. exists (k - 2). cbn. unfold LINE_HEIGHT. lia. }
  destruct Hw as [? ? ? ? ? ? ? Hcell Horigin ? ?]. split; cbn; try done.
  - unfold move_cells_up. rewrite length_app, length_fmap, length_take, length_drop. lia.
  - intros k c Hk. unfold move_cells_up. rewrite lookup_app_l by (rewrite length_fmap, length_take; lia).
    rewrite list_lookup_fmap, lookup_take_lt by lia. intros (c' & Hc' & ->)%fmap_Some. by apply Hup, (Hcell k).
  - intros o (o' & Ho' & ->)%fmap_Some. by apply Hup, Horigin.
Qed.

Lemma safe_modify f : (forall w, writer_ok w -> writer_ok (f w)) -> safe (modify f).
Proof. intros Hf w Hw. apply returns_modify. auto. Qed.

Lemma ok_line id w : writer_ok w -> writer_ok (set_current_line id w).
Proof. by intros []. Qed.

Lemma ok_offset n w : writer_ok w -> writer_ok (set_scrollback_offset n w).
Proof. by intros []. Qed.

(** The next character, and the line below. *)
Lemma place_right x y : place_ok (x, y) -> place_ok (x + CHAR_WIDTH, y).
Proof. intros [[k Hk] Hy]. split; [|done]. exists (k + 1). cbn in *. unfold CHAR_WIDTH. lia. Qed.

Lemma place_below x y : place_ok (x, y) -> place_ok (x, y + LINE_HEIGHT).
Proof. intros [Hx [k Hk]]. split; [done|]. exists (k + 2). cbn in *. unfold LINE_HEIGHT. lia. Qed.

Lemma place_margin x y : place_ok (x, y) -> place_ok (MARGIN, y).
Proof. intros [_ Hy]. split; [by exists 0|done]. Qed.

Lemma safe_new_line : safe new_line.
Proof.
  intros w Hw. unfold new_line.
  eapply safe_seq; [done| |intros _ w1 H1].
  { apply safe_modify. intros w0 H0. apply ok_position; [done|]. eapply place_margin, H0. }
  eapply safe_seq; [done|apply safe_modify; intros; by apply ok_line|intros _ w2 H2]. apply returns_get.
  eapply safe_seq; [done|apply safe_ensure|intros _ w3 H3]. apply returns_get.
  case_match; [by apply safe_scroll|]. apply returns_put, ok_position; [done|]. apply place_below, H3.
Qed.

Lemma safe_wrap : safe wrap_if_needed.
Proof. intros w Hw. unfold wrap_if_needed. apply returns_get. case_match; [by apply safe_new_line|by apply returns_ret]. Qed.

Lemma safe_draw_ascii c : safe (draw_ascii_char c).
Proof.
  intros w Hw. unfold draw_ascii_char. apply returns_get. eapply safe_seq; [done|apply safe_history_cell|]. intros _ w1 H1.
  apply returns_modify, ok_position; [|apply place_right, H1]. apply ok_info; [done|]. intros. apply height_character.
Qed.

Lemma safe_put_byte byte : safe (put_byte byte).
Proof.
  intros w Hw. unfold put_byte. case_match; [by apply safe_new_line|]. case_match; [by apply returns_ret|].
  eapply safe_seq; [done|apply safe_wrap|]. intros _ w1 H1. by apply safe_draw_ascii.
Qed.

(** ** Scrolling back *)

Lemma height_screen i : height (clear_screen i) = height i.
Proof. done. Qed.

Lemma safe_draw_line row line : line_ok line -> safe (draw_history_line row line).
Proof.
  intros [Hb Hc] w Hw. unfold draw_history_line. apply returns_get. apply returns_for; [|done].
  intros col Hcol w1 H1. apply elem_of_seq in Hcol. unfold SCROLLBACK_COLUMN_CAPACITY in Hcol.
  destruct (lookup_lt_is_Some_2 (line_bytes line) col) as [b Hbcol]; [lia|].
  destruct (lookup_lt_is_Some_2 (line_colors line) col) as [c Hccol]; [lia|].
  eapply returns_lift; [unfold index_of; by rewrite Hbcol|]. eapply returns_lift; [unfold index_of; by rewrite Hccol|].
  case_match; [by apply returns_ret|]. by apply returns_modify, ok_draw.
Qed.

Lemma ok_status column y status w : writer_ok w -> writer_ok (draw_status column y status w).
Proof.
  revert column w. induction status as [|b status IH]; intros column w Hw; cbn [draw_status]; [done|].
  case_match; [done|]. by apply IH, ok_draw.
Qed.

Lemma safe_render : safe render_history_view.
Proof.
  intros w Hw. unfold render_history_view.
  eapply safe_seq; [done|apply safe_modify; intros; by apply ok_info|intros _ w1 H1]. apply returns_get.
  destruct (visible_rows w1 =? 0) eqn:Hrows; [by apply returns_ret|]. apply Nat.eqb_neq in Hrows.
  eapply returns_lift; [unfold sub_usize; by rewrite (proj2 (Nat.leb_le _ _)) by lia|]. eapply safe_seq; [done|..].
  - apply returns_for. intros id _ w2 H2. apply returns_get. destruct (position _ (history w2)) as [p|] eqn:Hp; [|by apply returns_ret].
    apply position_Some in Hp as (line & Hline & _). eapply returns_lift; [unfold index_of; by rewrite Hline|].
    apply safe_draw_line; [|done]. by apply (Forall_lookup_1 _ _ _ _ (wo_history _ H2) Hline).
  - intros _ w2 H2. destruct (negb _); [|by apply returns_ret]. by apply returns_modify, ok_status.
Qed.

Lemma safe_put_seq {B} w0 (k : unit -> Method FramebufferWriter B) Q w :
  writer_ok w0 -> (forall w', writer_ok w' -> returns (k tt) Q w') -> returns (put w0 ≫= k) Q w.
Proof. intros Hw Hk. by apply Hk. Qed.

Lemma safe_page up : safe (scrollback_page up).
Proof.
  intros w Hw. unfold scrollback_page. apply returns_get. apply safe_put_seq; [by apply ok_offset|]. apply safe_render.
Qed.

Lemma safe_to_bottom : safe scrollback_to_bottom.
Proof.
  intros w Hw. unfold scrollback_to_bottom. apply returns_get. case_match; [by apply returns_ret|].
  apply safe_put_seq; [by apply ok_offset|]. intros w1 H1. eapply safe_seq; [done|apply safe_render|].
  intros _ w2 H2. by apply returns_ret.
Qed.

Lemma safe_print bytes : safe (print_bytes bytes).
Proof.
  intros w Hw. unfold print_bytes. eapply safe_seq; [done|apply returns_for; intros; by apply safe_put_byte|].
  intros _ w1 H1. apply returns_get. case_match; [by apply returns_ret|by apply safe_render].
Qed.

(** ** The last character *)

Lemma safe_backspace : safe backspace.
Proof.
  intros w Hw. unfold backspace. apply returns_get.
  assert (forall w x y, writer_ok w -> place_ok (x, y) -> 16 <= x ->
    returns (w ← get; x ← lift (sub_usize (pos_x w) CHAR_WIDTH); put (clear_character x (pos_y w) (set_position x (pos_y w) w)))
      (fun _ => writer_ok) (set_position x y w)) as Herase.
  { intros w1 x y H1 Hp Hx. apply returns_get. cbn [pos_x pos_y set_position].
    eapply returns_lift; [unfold sub_usize, CHAR_WIDTH; by rewrite (proj2 (Nat.leb_le _ _)) by lia|].
    apply returns_put, ok_clear_character, ok_position; [by apply ok_position|].
    destruct Hp as [[k Hk] Hy]. split; [|done]. exists (k - 1). cbn in *. unfold CHAR_WIDTH. lia. }
  pose proof (wo_place _ Hw) as Hp. destruct (pos_x w =? MARGIN) eqn:Hx; unfold MARGIN in Hx; bools.
  - destruct (pos_y w <=? MARGIN) eqn:Hy; [by apply returns_ret|]. unfold MARGIN in Hy. bools. pose proof Hp as [_ [k Hk]]. cbn in Hk.
    eapply returns_lift; [unfold sub_usize, LINE_HEIGHT; by rewrite (proj2 (Nat.leb_le _ _)) by lia|].
    set (c := _ / CHAR_WIDTH). unfold MARGIN, CHAR_WIDTH. apply Herase; [done| |lia]. split; [exists (c + 1); cbn; lia|].
    exists (k - 2). cbn. lia.
  - replace w with (set_position (pos_x w) (pos_y w) w) by (by destruct w). apply Herase; [done|done|].
    destruct Hp as [[k Hk] _]. cbn in Hk. lia.
Qed.

(** ** Rows of the text editor *)

Lemma safe_editor_cell row column byte : row < 128 -> column < 256 -> safe (write_editor_cell row column byte).
Proof.
  intros Hr Hc w Hw. unfold write_editor_cell. apply returns_get. pose proof (wo_editor _ Hw) as [Hlen Hrows].
  destruct (lookup_lt_is_Some_2 (editor_cells w) row) as [cells Hcells]; [lia|].
  pose proof (Forall_lookup_1 _ _ _ _ Hrows Hcells) as Hl. cbn in Hl.
  destruct (lookup_lt_is_Some_2 cells column) as [old Hold]; [lia|].
  eapply returns_lift; [unfold index_of; by rewrite Hcells|]. eapply returns_lift; [unfold index_of; by rewrite Hold|].
  case_match; [by apply returns_ret|]. eapply safe_seq; [done|apply safe_modify; intros; by apply ok_clear_character|intros _ w1 H1].
  eapply safe_seq; [done| |intros _ w2 H2].
  { intros w2 H2. case_match; [by apply returns_ret|]. by apply returns_modify, ok_draw. }
  eapply returns_lift; [unfold set_index; by rewrite (proj2 (Nat.ltb_lt _ _)) by lia|].
  apply returns_modify. destruct H2 as [? ? ? ? ? ? ? ? ? ? [? ?]]. split; cbn; try done. rewrite length_insert. split; [done|].
  apply Forall_insert; [done|]. cbn. by rewrite length_insert.
Qed.

Lemma safe_editor_row row contents columns : safe (write_editor_row row contents columns).
Proof.
  intros w Hw. unfold write_editor_row. destruct (_ || _) eqn:Hg; [by apply returns_ret|].
  apply orb_false_iff in Hg as [Hr%Nat.leb_gt Hc%Nat.ltb_ge]. unfold EDITOR_MAX_ROWS, EDITOR_MAX_COLUMNS in *.
  apply returns_for; [|done]. intros column Hcol%elem_of_seq. apply safe_editor_cell; lia.
Qed.

End invariant.

(** ** Calls that start or end the command line *)

Definition console_ok (w : FramebufferWriter) : Prop := writer_ok (fun _ => True) w.

Lemma ok_weaken (P Q : nat -> Prop) w : writer_ok P w -> Q (input_cell_count w) -> writer_ok Q w.
Proof. by intros [] HQ. Qed.

Lemma ok_clear P w : writer_ok P w -> console_ok (clear w).
Proof.
  intros [? ? ? ? ? ? ? ? ? ? [? ?]]. split; cbn; try done; try lia.
  - apply place_start.
  - apply Forall_singleton, line_ok_new.
  - rewrite length_replicate. split; [done|]. by apply Forall_replicate.
Qed.

Lemma ok_begin w : console_ok w -> console_ok (begin_input_line w).
Proof. intros []. split; cbn; try done; try lia. by intros o [= <-]. Qed.

Lemma ok_finish w : console_ok w -> console_ok (finish_input_line w).
Proof. intros Hw. unfold finish_input_line. destruct (ok_remove_cursor _ w Hw). split; cbn; try done; lia. Qed.

Lemma ok_count n P w : writer_ok P w -> n <= input_cell_count w -> writer_ok (fun c => c = n) (set_input_cell_count n w).
Proof. intros [] Hn. split; cbn; try done; [lia|]. intros k c Hk. apply wo_cell0. lia. Qed.

Lemma ok_trim P id w : writer_ok P w -> writer_ok P (trim_history_after id w).
Proof.
  intros Hw. apply ok_history; [done|]. apply Forall_reverse.
  destruct (drop_while_spec (fun line => id <? line_id line)%Z (reverse (history w))) as (k & Hk & _).
  pose proof (wo_history _ _ Hw) as Hh. apply Forall_reverse in Hh. rewrite Hk in Hh. by apply Forall_app in Hh as [_ Hh].
Qed.

(** ** The command line *)

Lemma redraw_cell_safe old color index byte w :
  writer_ok (fun c => index <= c /\ old <= c) w -> index < 256 -> old <= 256 ->
  returns (redraw_cell old color index byte) (fun _ => writer_ok (fun c => index + 1 <= c /\ old <= c)) w.
Proof.
  intros Hw Hi Ho. unfold redraw_cell. eapply safe_seq; [done|apply safe_wrap|intros _ w1 H1]. apply returns_get.
  pose proof (wo_place _ _ H1) as Hnew. set (new := (pos_x w1, pos_y w1)) in *.
  eapply returns_lift; [unfold set_index; by rewrite (wo_history_cells _ _ H1), (proj2 (Nat.ltb_lt _ _))|].
  eapply safe_put_seq.
  { instantiate (1 := fun c => index <= c /\ old <= c). destruct H1. split; cbn; try done. by rewrite length_insert. }
  intros w2 H2. eapply safe_seq; [done|apply safe_history_cell|intros _ w3 H3]. apply returns_get. cbv zeta.
  eapply (safe_seq (fun c => index <= c /\ old <= c)); [done| |intros same w4 H4].
  { intros w4 H4. case_match; [by apply returns_ret|]. destruct (lookup_lt_is_Some_2 (input_bytes w3) index) as [b Hb]; [by rewrite (wo_bytes _ _ H3)|].
    eapply returns_lift; [unfold index_of; by rewrite Hb|]. by apply returns_ret. }
  eapply safe_seq; [done| |intros _ w5 H5].
  { intros w5 H5. repeat case_match; try (by apply returns_ret). by apply returns_modify, ok_clear_character. }
  eapply safe_seq; [done| |intros _ w6 H6].
  { intros w6 H6. case_match.
    - eapply safe_seq; [done|apply safe_modify; intros; by apply ok_clear_character|intros _ w7 H7]. by apply safe_draw_ascii.
    - apply returns_modify, ok_position; [done|]. apply place_right, H6. }
  apply returns_get. eapply returns_lift; [unfold set_index; by rewrite (wo_cells _ _ H6), (proj2 (Nat.ltb_lt _ _))|].
  eapply returns_lift; [unfold set_index; by rewrite (wo_bytes _ _ H6), (proj2 (Nat.ltb_lt _ _))|].
  apply returns_put. destruct H6 as [? ? Hcells Hbytes ? ? [? ?] Hcell ? ? ?]. split; cbn; try done; try (by rewrite length_insert); try lia.
  intros k c Hk. destruct (Nat.eq_dec k index) as [->|Hne].
  - rewrite list_lookup_insert_eq by lia. by intros [= <-].
  - rewrite list_lookup_insert_ne by done. apply Hcell. lia.
Qed.

Lemma redraw_cells_safe old color bytes index w :
  writer_ok (fun c => index <= c /\ old <= c) w -> index + length bytes <= 256 -> old <= 256 ->
  returns (redraw_cells old color index bytes) (fun _ => writer_ok (fun c => index + length bytes <= c /\ old <= c)) w.
Proof.
  revert index w. induction bytes as [|b bytes IH]; intros index w Hw Hi Ho; cbn [redraw_cells length] in *.
  { apply returns_ret. by rewrite Nat.add_0_r. }
  eapply returns_bind; [apply redraw_cell_safe; [done|lia|done]|]. intros ? w1 H1. cbn in H1.
  replace (index + S (length bytes)) with (index + 1 + length bytes) by lia. apply IH; [done|lia|done].
Qed.

Lemma redraw_safe bytes cursor w : console_ok w -> length bytes <= 256 ->
  returns (redraw_input_line bytes cursor) (fun _ => console_ok) w.
Proof.
  intros Hw Hb. unfold redraw_input_line. apply returns_get.
  destruct (input_origin w) as [[ox oy]|] eqn:Ho; [|by apply returns_ret]. pose proof (wo_origin _ _ Hw _ Ho) as Horigin.
  pose proof (wo_count _ _ Hw) as Hcount. cbv zeta. set (old := input_cell_count w) in *.
  assert (writer_ok (fun c => 0 <= c /\ old <= c) w) as H0 by (eapply ok_weaken; [done|]; subst old; cbn; lia).
  eapply safe_seq; [done|apply safe_modify; intros; by apply ok_remove_cursor|intros _ w1 H1].
  eapply safe_seq; [done| |intros _ w2 H2].
  { apply returns_for. intros k Hk%elem_of_seq w2 H2. apply returns_get.
    destruct (lookup_lt_is_Some_2 (input_history_cells w2) k) as [c Hc]; [rewrite (wo_history_cells _ _ H2); lia|].
    eapply returns_lift; [unfold index_of; by rewrite Hc|]. by apply safe_history_cell. }
  apply returns_get. destruct (input_origin_history w2) as [[line col]|]; [|apply returns_ret; by eapply ok_weaken].
  eapply safe_put_seq; [apply ok_position; [by apply ok_line|done]|intros w3 H3].
  eapply returns_bind; [by apply redraw_cells_safe|]. intros ? w4 H4. cbn [Nat.add] in H4.
  eapply safe_seq; [done| |intros _ w5 H5].
  { apply returns_for. intros k Hk%elem_of_seq w5 H5. apply returns_get.
    destruct (lookup_lt_is_Some_2 (input_cells w5) k) as [c Hc]; [rewrite (wo_cells _ _ H5); lia|].
    eapply returns_lift; [unfold index_of; by rewrite Hc|]. by apply returns_put, ok_clear_character. }
  eapply safe_seq; [done|apply safe_modify; intros; by apply ok_trim|intros _ w6 H6].
  eapply returns_bind with (R := fun _ => writer_ok (fun c => c = length bytes)).
  { apply returns_modify. eapply ok_count; [done|]. apply (wo_P _ _ H6). }
  intros _ w7 H7. eapply safe_seq; [done| |intros _ w8 H8].
  { intros w8 H8. destruct (cursor <? length bytes) eqn:Hcur; [|by apply safe_wrap]. bools. apply returns_get.
    destruct (lookup_lt_is_Some_2 (input_cells w8) cursor) as [c Hc]; [rewrite (wo_cells _ _ H8); lia|].
    eapply returns_lift; [unfold index_of; by rewrite Hc|]. apply returns_put, ok_position; [done|].
    pose proof (wo_cell _ _ H8 cursor c) as Hp. rewrite (wo_P _ _ H8) in Hp. destruct c. auto. }
  apply returns_modify, ok_draw_cursor. by eapply ok_weaken.
Qed.

(** ** The text editor *)

(** A row of 256 bytes comes out. *)
Definition row_result (r : outcome Empty_set (list Z * nat)) : Prop := exists l n, r = Ok (l, n) /\ length l = 256.

Lemma append_chars_ok limit text l n : limit <= 256 -> length l = 256 -> row_result (append_editor_chars limit text (l, n)).
Proof.
  intros Hlim. revert l n. induction text as [|c text IH]; intros l n Hl; cbn [append_editor_chars fst snd]; [by eexists _, _|].
  destruct (limit <=? n) eqn:Hn; [by eexists _, _|]. bools. unfold set_index. rewrite (proj2 (Nat.ltb_lt _ _)) by lia.
  apply IH. by rewrite length_insert.
Qed.

Lemma append_digits_ok limit digits l n : limit <= 256 -> length l = 256 -> row_result (append_digits limit digits (l, n)).
Proof.
  intros Hlim. revert l n. induction digits as [|d digits IH]; intros l n Hl; cbn [append_digits fst snd]; [by eexists _, _|].
  destruct (n <? limit) eqn:Hn; [|by eexists _, _]. bools. unfold set_index. rewrite (proj2 (Nat.ltb_lt _ _)) by lia.
  apply IH. by rewrite length_insert.
Qed.

Lemma digits_ok room number : (0 <= number < 10 ^ Z.of_nat room)%Z -> room <> 0 -> exists l, number_digits room number = Ok l.
Proof.
  revert number. induction room as [|room IH]; intros number Hn Hr; [done|]. cbn [number_digits].
  destruct (number / 10 =? 0)%Z eqn:Hz; [by eexists|]. bools. rewrite Nat2Z.inj_succ, Z.pow_succ_r in Hn by lia.
  assert (0 <= number / 10 < 10 ^ Z.of_nat room)%Z as Hd
    by (split; [apply Z.div_pos; lia|apply Z.div_lt_upper_bound; lia]).
  destruct (IH (number / 10)%Z Hd) as [l ->]; [|by eexists]. intros ->. cbn in Hd. lia.
Qed.

(** Filling a row step by step. *)
Lemma row_bind r (k : list Z * nat -> outcome Empty_set (list Z * nat)) :
  row_result r -> (forall l n, length l = 256 -> row_result (k (l, n))) -> row_result (r ≫= k).
Proof. intros (l & n & -> & Hl) Hk. by apply Hk. Qed.

Lemma append_number_ok limit number l n : limit <= 256 -> (Z.of_nat number < 10 ^ 20)%Z -> length l = 256 ->
  row_result (append_editor_number limit number (l, n)).
Proof.
  intros Hlim Hn Hl. unfold append_editor_number. destruct (digits_ok 20 (Z.of_nat number)) as [d ->]; [cbn in *; lia|done|].
  by apply append_digits_ok.
Qed.

Lemma title_ok columns name dirty : columns <= 256 -> row_result (title_row columns name dirty).
Proof.
  intros Hc. unfold title_row, append_editor_text. apply row_bind; [by apply append_chars_ok|]. intros l n Hl.
  apply row_bind; [by apply append_chars_ok|]. intros l' n' Hl'. destruct dirty; [by apply append_chars_ok|by eexists _, _].
Qed.

Lemma help_ok columns : columns <= 256 -> row_result (help_row columns).
Proof. intros Hc. by apply append_chars_ok. Qed.

Lemma state_ok columns dirty : columns <= 256 -> row_result (state_row columns dirty).
Proof. intros Hc. by apply append_chars_ok. Qed.

Lemma count_le {A} (p : A -> bool) l : count p l <= length l.
Proof. induction l as [|c l IH]; cbn [count length]; [done|]. destruct (p c); lia. Qed.

Lemma place_row_ok columns line total column size : columns <= 256 -> (Z.of_nat (line + 1) < 10 ^ 20)%Z ->
  (Z.of_nat total < 10 ^ 20)%Z -> (Z.of_nat (column + 1) < 10 ^ 20)%Z -> (Z.of_nat size < 10 ^ 20)%Z ->
  row_result (place_row columns line total column size).
Proof.
  intros Hc H1 H2 H3 H4. unfold place_row, append_editor_text.
  repeat (apply row_bind; [first [by apply append_chars_ok|by apply append_number_ok]|intros ? ? ?]). by apply append_chars_ok.
Qed.

Lemma fill_row_ok column text l : column + length text <= 256 -> length l = 256 -> exists l', fill_row column text l = Ok l'.
Proof.
  revert column l. induction text as [|c text IH]; intros column l Hc Hl; cbn [fill_row length] in *; [by eexists|].
  unfold set_index. rewrite (proj2 (Nat.ltb_lt _ _)) by lia. apply IH; [lia|]. by rewrite length_insert.
Qed.

Lemma write_content_safe P row start columns lines w : columns <= 256 -> writer_ok P w ->
  returns (write_content row start columns lines) (fun _ => writer_ok P) w.
Proof.
  intros Hc. revert row w. induction lines as [|l lines IH]; intros row w Hw; cbn [write_content]; [by apply returns_ret|].
  destruct (fill_row_ok 0 (take columns (drop start (chars l))) blank_row) as [contents Hcontents]; [rewrite length_take; lia|done|].
  eapply returns_lift; [done|]. eapply safe_seq; [done|apply safe_editor_row|]. intros _ w1 H1. by apply IH.
Qed.

(** The cursor is within the text. *)
Lemma cursor_place_bound text line column :
  let '(l, c) := cursor_place text line column in l <= line + length text /\ c <= column + length text.
Proof.
  revert line column. induction text as [|c text IH]; intros line column; cbn [cursor_place length]; [lia|].
  destruct (not_newline c).
  - specialize (IH line (column + 1)). destruct (cursor_place text line (column + 1)). lia.
  - specialize (IH (line + 1) 0). destruct (cursor_place text (line + 1) 0). lia.
Qed.

Lemma length_chars l : length (chars l) <= length l.
Proof.
  induction l as [|b l IH]; cbn [chars]; [done|]. destruct (chars l) as [|[|b1 c] k]; cbn [length] in *; try lia.
  destruct (utf8_cont b1); cbn [length]; lia.
Qed.

Lemma render_editor_safe name text cursor dirty w : console_ok w -> api_ok (RenderEditor name text cursor dirty) ->
  returns (render_editor name text cursor dirty) (fun _ => console_ok) w.
Proof.
  intros Hw [Hboundary Hsize]. unfold render_editor. apply returns_get.
  eapply (safe_seq (fun _ => True)); [done| |intros _ w1 H1].
  { intros w1 H1. case_match; [by apply returns_ret|]. apply returns_modify. by destruct (ok_clear _ w1 H1). }
  eapply safe_seq; [done|apply safe_modify; intros; by apply ok_remove_cursor|intros _ w2 H2]. apply returns_get.
  set (columns := editor_columns (info w2)). set (rows := editor_rows (info w2)).
  assert (columns <= 256) as Hcolumns by (unfold columns, editor_columns, EDITOR_MAX_COLUMNS; lia).
  destruct ((columns =? 0) || (rows <? 6)) eqn:Hsmall; [by apply returns_ret|].
  apply orb_false_iff in Hsmall as [Hc%Nat.eqb_neq Hr%Nat.ltb_ge]. cbv zeta.
  eapply returns_lift; [unfold str_to; by rewrite Hboundary|].
  pose proof (cursor_place_bound (chars (take (Nat.min cursor (length text)) text)) 0 0) as Hplace.
  destruct (cursor_place _ _ _) as [line column]. pose proof (length_chars (take (Nat.min cursor (length text)) text)) as Hchars.
  rewrite length_take in Hchars. unfold sub_usize.
  do 4 (eapply returns_lift; [by rewrite (proj2 (Nat.leb_le _ _)) by lia|]). cbv zeta.
  destruct (title_ok columns name dirty Hcolumns) as (title & ? & -> & _). eapply returns_lift; [done|].
  eapply safe_seq; [done|apply safe_editor_row|intros _ w3 H3].
  destruct (help_ok columns Hcolumns) as (help & ? & -> & _). eapply returns_lift; [done|]. eapply safe_seq; [done|apply safe_editor_row|intros _ w4 H4].
  eapply safe_seq; [done|apply safe_editor_row|intros _ w5 H5].
  eapply safe_seq; [done|intros w6 H6; by apply write_content_safe|intros _ w6 H6].
  eapply safe_seq; [done|apply returns_for; intros; by apply safe_editor_row|intros _ w7 H7].
  pose proof (length_chars text) as Htext.
  pose proof (count_le (fun character => negb (not_newline character)) (chars text)) as Hcount.
  destruct (place_row_ok columns line (count (fun character => negb (not_newline character)) (chars text) + 1) column (length text))
    as (place & ? & -> & _); [done|lia..|]. eapply returns_lift; [done|].
  eapply safe_seq; [done|apply safe_editor_row|intros _ w8 H8].
  destruct (state_ok columns dirty Hcolumns) as (state & ? & -> & _). eapply returns_lift; [done|]. eapply returns_lift; [by rewrite (proj2 (Nat.leb_le _ _)) by lia|].
  eapply safe_seq; [done|apply safe_editor_row|intros _ w9 H9].
  eapply returns_lift; [unfold str_from; by rewrite Hboundary|].
  apply returns_modify, ok_draw_cursor, ok_position; [done|]. unfold MARGIN, CHAR_WIDTH, LINE_HEIGHT.
  split; cbn [fst snd]; eexists; [by rewrite Nat.mul_comm|]. instantiate (1 := 1 + 2 * (3 + (line - (line - (rows - 2 - 3 - 1))))). lia.
Qed.

(** ** Every call *)

Lemma api_call_safe call w : console_ok w -> api_ok call -> returns (api_call call) (fun _ => console_ok) w.
Proof.
  intros Hw Hok. destruct call as [[bytes|r g b| | | |]| | | |bytes cursor|name text cursor dirty]; cbn [api_call console_call].
  - by apply safe_print.
  - apply returns_modify. by destruct Hw.
  - by eapply returns_modify, ok_clear.
  - by apply safe_page.
  - by apply safe_page.
  - eapply safe_seq; [done|apply safe_to_bottom|]. intros _ w1 H1. by apply returns_ret.
  - by apply safe_backspace.
  - by apply returns_modify, ok_begin.
  - by apply returns_modify, ok_finish.
  - by apply redraw_safe.
  - by apply render_editor_safe.
Qed.

Lemma new_ok i : 16 < height i -> console_ok (FramebufferWriter_new i).
Proof.
  intros Hh. eapply (ok_clear (fun _ => True)). split;
    cbn [info pos_x pos_y input_cells input_bytes input_history_cells input_cell_count input_origin history editor_cells];
    rewrite ?length_replicate; try done; try lia; [apply place_start|].
  split; [done|]. apply Forall_replicate. apply length_replicate.
Qed.

(** C17: No call of the console panics: printing, scrolling, editing the command line and showing
    the editor end, in any order, with every array index in range and no coordinate below
    zero, for every screen of more than sixteen rows. *)
Theorem console_never_panics (i : FramebufferInfo) (calls : list ApiCall) :
  16 < height i -> Forall api_ok calls ->
  exists w, api_calls calls (FramebufferWriter_new i) = (w, Ok tt) /\ console_ok w.
Proof.
  intros Hh Hok. pose proof (new_ok i Hh) as Hw. generalize dependent (FramebufferWriter_new i). unfold api_calls.
  induction Hok as [|call calls Hc _ IH]; intros w Hw; cbn [for_op]; [by eexists|].
  destruct (api_call_safe call w Hw Hc) as ([] & w1 & Hw1 & H1). rewrite (step_Ok _ _ _ _ _ Hw1). by apply IH.
Qed.

Lemma console_never_panics_witness :
  exists w, api_calls [Console (Print [65%Z]); BeginInputLine; RedrawInputLine [66%Z; 67%Z] 1; Backspace; FinishInputLine;
      RenderEditor [97%Z] [0xC3; 0xA9; 10]%Z 2 true] (FramebufferWriter_new (small_screen 64 64)) = (w, Ok tt) /\ console_ok w.
Proof.
  apply (console_never_panics (small_screen 64 64)); [cbn; lia|].
  repeat (apply Forall_cons_2; [cbn; first [done|lia|by split]|]). apply Forall_nil_2.
Defined.
