(* ===== verification/EditorView.v ===== *)
(** * The screen of the text editor

    The editor redraws only the cells that change.  What is on the screen after a redraw is
    nevertheless determined by the text alone: the page of the text around the cursor. *)

From Stdlib Require Import Ascii String.
From stdpp Require Import pretty.
From S2P Require Import Prelude Font FrameAlloc Utf8 Chars LineEdit TextEdit Framebuffer Pixels Terminal ConsoleSafe.

(** ** The reference page *)

(** A row of the screen with this text. *)
Definition screen_row (columns : nat) (bytes : list Z) : list Z := resize EDITOR_MAX_COLUMNS space (take columns bytes).

Definition decimal (n : nat) : list Z := str (pretty n).

Record EditorPage := mk_editor_page {
  e_name : list (list Z);
  e_before : list (list Z);
  e_after : list (list Z);
  e_dirty : bool;
}.

Definition e_text (p : EditorPage) : list (list Z) := e_before p ++ e_after p.

Definition first_shown (rows : nat) (p : EditorPage) : nat := row_of (e_before p) - (rows - 6).
Definition first_column (columns : nat) (p : EditorPage) : nat := column_of (e_before p) - (columns - 1).

Definition page_title (p : EditorPage) : list Z :=
  str "EDIT  /" ++ (editor_display_byte <$> e_name p) ++ (if e_dirty p then str "  * modified" else []).

Definition page_place (p : EditorPage) : list Z :=
  str "Ln " ++ decimal (row_of (e_before p) + 1) ++ str "/" ++ decimal (length (lines (e_text p))) ++
  str "  Col " ++ decimal (column_of (e_before p) + 1) ++ str "  |  " ++ decimal (length (mjoin (e_text p))) ++ str " bytes".

(** The text on a row of the screen. *)
Definition page_row (columns rows : nat) (p : EditorPage) (row : nat) : list Z :=
  if row =? 0 then page_title p
  else if row =? 1 then str "Arrows move | Enter newline | Ctrl+S save | Ctrl+Q/Esc quit"
  else if row =? 2 then replicate EDITOR_MAX_COLUMNS 45%Z
  else if row =? rows - 2 then page_place p
  else if row =? rows - 1 then (if e_dirty p then str "Unsaved changes" else str "Saved")
  else editor_display_byte <$> drop (first_column columns p) (default [] (lines (e_text p) !! (first_shown rows p + (row - 3)))).

(** The characters of the page. *)
Definition page_cells (columns rows : nat) (color : Z * Z * Z) (p : EditorPage) (row col : nat) : option Cell :=
  if (row <? rows) && (col <? columns) then (fun byte => (byte, color)) <$> page_row columns rows p row !! col else None.

(** The place of the cursor, and the character under it. *)
Definition cursor_row (rows : nat) (p : EditorPage) : nat := 3 + (row_of (e_before p) - first_shown rows p).
Definition cursor_col (columns : nat) (p : EditorPage) : nat := column_of (e_before p) - first_column columns p.
Definition cursor_char (p : EditorPage) : Z :=
  match head (e_after p) with
  | Some c => if not_newline c then editor_display_byte c else space
  | None => space
  end.

(** The colour of a pixel of the page. *)
Definition page_pixel (columns rows : nat) (color : Z * Z * Z) (p : EditorPage) (x y : nat) : Z * Z * Z :=
  default (default black (cell_ink (page_cells columns rows color p) x y))
    (cursor_ink (MARGIN + cursor_col columns p * CHAR_WIDTH) (MARGIN + cursor_row rows p * LINE_HEIGHT) (cursor_char p) color x y).

(** A redraw of a page. *)
Definition render_page (p : EditorPage) : Method FramebufferWriter unit :=
  render_editor (mjoin (e_name p)) (mjoin (e_text p)) (length (mjoin (e_before p))) (e_dirty p).

(** ** Rows of text *)

Lemma resize_app_snoc (d : list Z) (c : Z) : length d < 256 -> <[length d := c]> (resize 256 space d) = resize 256 space (d ++ [c]).
Proof. apply resize_snoc. Qed.

Lemma append_chars_spec limit text d : limit <= 256 -> length d <= limit ->
  append_editor_chars limit text (resize 256 space d, length d) =
  Ok (resize 256 space (take limit (d ++ (editor_display_byte <$> text))), Nat.min limit (length d + length text)).
Proof.
  intros Hlim. revert d. induction text as [|c text IH]; intros d Hd; cbn [append_editor_chars fst snd fmap list_fmap length].
  { rewrite app_nil_r, take_ge by lia. do 2 f_equal. lia. }
  destruct (limit <=? length d) eqn:Hn; bools.
  { rewrite take_app_le, take_ge by lia. do 2 f_equal. lia. }
  unfold set_index. rewrite length_resize, (proj2 (Nat.ltb_lt _ _)), resize_app_snoc by lia. cbn [mbind outcome_bind].
  replace (length d + 1) with (length (d ++ [editor_display_byte c])) by (by rewrite length_app).
  rewrite IH by (rewrite length_app; cbn; lia). rewrite <-(assoc_L (++)). do 2 f_equal. rewrite length_app. cbn [length]. lia.
Qed.

Lemma append_digits_spec limit digits d : limit <= 256 -> length d <= limit ->
  append_digits limit digits (resize 256 space d, length d) =
  Ok (resize 256 space (take limit (d ++ digits)), Nat.min limit (length d + length digits)).
Proof.
  intros Hlim. revert d. induction digits as [|c text IH]; intros d Hd; cbn [append_digits fst snd length].
  { rewrite app_nil_r, take_ge by lia. do 2 f_equal. lia. }
  destruct (length d <? limit) eqn:Hn; bools.
  2: { rewrite take_app_le, take_ge by lia. do 2 f_equal. lia. }
  unfold set_index. rewrite length_resize, (proj2 (Nat.ltb_lt _ _)), resize_app_snoc by lia. cbn [mbind outcome_bind].
  replace (length d + 1) with (length (d ++ [c])) by (by rewrite length_app).
  rewrite IH by (rewrite length_app; cbn; lia). rewrite <-(assoc_L (++)). do 2 f_equal. rewrite length_app. cbn [length]. lia.
Qed.

(** A row with the first of some bytes in it. *)
Definition filled (limit : nat) (d : list Z) : list Z * nat := (screen_row limit d, length (take limit d)).

Lemma take_again {A} n (d e : list A) : take n (take n d ++ e) = take n (d ++ e).
Proof.
  destruct (Nat.le_gt_cases (length d) n).
  - by rewrite (take_ge d).
  - by rewrite !take_app_le, take_take, Nat.min_id by (rewrite ?length_take; lia).
Qed.

Lemma filled_chars limit text d : limit <= 256 ->
  append_editor_chars limit text (filled limit d) = Ok (filled limit (d ++ (editor_display_byte <$> text))).
Proof.
  intros Hl. unfold filled, screen_row, EDITOR_MAX_COLUMNS. rewrite append_chars_spec by (rewrite ?length_take; lia).
  rewrite take_again. do 2 f_equal. rewrite !length_take, length_app, length_fmap. lia.
Qed.

Lemma filled_digits limit digits d : limit <= 256 -> append_digits limit digits (filled limit d) = Ok (filled limit (d ++ digits)).
Proof.
  intros Hl. unfold filled, screen_row, EDITOR_MAX_COLUMNS. rewrite append_digits_spec by (rewrite ?length_take; lia).
  rewrite take_again. do 2 f_equal. rewrite !length_take, length_app. lia.
Qed.

Lemma filled_text limit s d : limit <= 256 -> editor_display_byte <$> chars (str s) = str s ->
  append_editor_text limit (str s) (filled limit d) = Ok (filled limit (d ++ str s)).
Proof. intros Hl Hs. unfold append_editor_text. by rewrite filled_chars, Hs. Qed.

Lemma filled_name limit cs d : limit <= 256 -> is_text cs ->
  append_editor_text limit (mjoin cs) (filled limit d) = Ok (filled limit (d ++ (editor_display_byte <$> cs))).
Proof. intros Hl Hs. unfold append_editor_text. by rewrite chars_text, filled_chars. Qed.

Lemma filled_blank limit : (blank_row, 0) = filled limit [].
Proof. unfold filled, screen_row. by rewrite take_nil. Qed.

(** The digits of a number are its decimal representation. *)
Lemma digit_char n : (0 <= n < 10)%Z -> Z.of_N (N_of_ascii (pretty_N_char (Z.to_N n))) = (48 + n)%Z.
Proof.
  intros Hn.
  assert (Forall (fun i => Z.of_N (N_of_ascii (pretty_N_char (N.of_nat i))) = 48 + Z.of_nat i)%Z (seq 0 10)) as Hall
    by (repeat constructor).
  rewrite Forall_forall in Hall. specialize (Hall (Z.to_nat n)). rewrite elem_of_seq, Z_nat_N, Z2Nat.id in Hall by lia.
  apply Hall. lia.
Qed.

Lemma str_cons c s : str (String c s) = Z.of_N (N_of_ascii c) :: str s.
Proof. done. Qed.

Lemma digits_spec room n d s : (0 < n)%Z -> number_digits room n = Ok d -> str (pretty_N_go (Z.to_N n) s) = reverse d ++ str s.
Proof.
  revert n d s. induction room as [|room IH]; intros n d s Hn; cbn [number_digits]; [done|].
  rewrite pretty_N_go_step by lia. change 10%N with (Z.to_N 10). rewrite <-(Z2N.inj_div n 10), <-(Z2N.inj_mod n 10) by lia.
  pose proof (Z.mod_pos_bound n 10 ltac:(lia)) as Hmod. destruct (n / 10 =? 0)%Z eqn:Hz.
  - intros [= <-]. apply Z.eqb_eq in Hz. rewrite Hz. change (Z.to_N 0) with 0%N. rewrite pretty_N_go_0, str_cons, digit_char by done. done.
  - apply Z.eqb_neq in Hz. pose proof (Z.div_pos n 10). destruct (number_digits room (n / 10)) as [l| |] eqn:Hl; [|done|done].
    intros [= <-]. rewrite (IH (n / 10)%Z l) by (done || lia). rewrite str_cons, digit_char, reverse_cons, <-(assoc_L (++)) by done. done.
Qed.

Lemma filled_number limit n d : limit <= 256 -> (Z.of_nat n < 10 ^ 20)%Z ->
  append_editor_number limit n (filled limit d) = Ok (filled limit (d ++ decimal n)).
Proof.
  intros Hl Hn. unfold append_editor_number. destruct (digits_ok 20 (Z.of_nat n)) as [l Hd]; [cbn in *; lia|done|]. rewrite Hd.
  cbn [mbind outcome_bind]. rewrite filled_digits by done. do 3 f_equal. unfold decimal, pretty, pretty_nat, pretty, pretty_N.
  destruct (decide (N.of_nat n = 0)%N) as [Hz|Hz].
  - assert (n = 0) as -> by lia. by injection Hd as <-.
  - rewrite <-(app_nil_r (reverse l)). change [] with (str ""%string) at 1. rewrite <-(digits_spec 20 (Z.of_nat n) l) by (done || lia).
    do 2 f_equal. lia.
Qed.

Lemma title_spec columns p : columns <= 256 -> is_text (e_name p) ->
  title_row columns (mjoin (e_name p)) (e_dirty p) = Ok (filled columns (page_title p)).
Proof.
  intros Hc Hn. unfold title_row, page_title. rewrite (filled_blank columns), filled_text by (done || by vm_compute). cbn [mbind outcome_bind].
  rewrite filled_name by done. cbn [mbind outcome_bind app].
  destruct (e_dirty p); [|by rewrite app_nil_r]. rewrite filled_text by (done || by vm_compute). by rewrite <-(assoc_L (++)).
Qed.

Lemma help_spec columns : columns <= 256 -> help_row columns = Ok (filled columns (str "Arrows move | Enter newline | Ctrl+S save | Ctrl+Q/Esc quit")).
Proof. intros Hc. unfold help_row. rewrite (filled_blank columns), filled_text by (done || by vm_compute). done. Qed.

Lemma state_spec columns dirty : columns <= 256 ->
  state_row columns dirty = Ok (filled columns (if dirty then str "Unsaved changes" else str "Saved")).
Proof.
  intros Hc. unfold state_row. rewrite (filled_blank columns). destruct dirty; rewrite filled_text by (done || by vm_compute); done.
Qed.

Lemma place_spec' columns a b c d : columns <= 256 -> (Z.of_nat (a + 1) < 10 ^ 20)%Z -> (Z.of_nat b < 10 ^ 20)%Z ->
  (Z.of_nat (c + 1) < 10 ^ 20)%Z -> (Z.of_nat d < 10 ^ 20)%Z ->
  place_row columns a b c d = Ok (filled columns (str "Ln " ++ decimal (a + 1) ++ str "/" ++ decimal b ++ str "  Col " ++
    decimal (c + 1) ++ str "  |  " ++ decimal d ++ str " bytes")).
Proof.
  intros Hc H1 H2 H3 H4. unfold place_row. rewrite (filled_blank columns).
  repeat (first [rewrite filled_text by (done || by vm_compute)|rewrite filled_number by done]; cbn [mbind outcome_bind]).
  by rewrite <-!(assoc_L (++)).
Qed.

(** ** Where the cursor is *)

Lemma cursor_place_app a b l c :
  cursor_place (a ++ b) l c = let '(l', c') := cursor_place a l c in cursor_place b l' c'.
Proof. revert l c. induction a as [|x a IH]; intros l c; cbn [cursor_place app]; [done|]. destruct (not_newline x); apply IH. Qed.

Lemma cursor_place_line k l c : no_newline k -> cursor_place k l c = (l, c + length k).
Proof.
  intros Hk. revert c. induction Hk as [|x k Hx _ IH]; intros c; cbn [cursor_place length]; [by rewrite Nat.add_0_r|].
  rewrite Hx, IH. f_equal. lia.
Qed.

Lemma cursor_place_row a l c : (cursor_place a l c).1 = l + row_of a.
Proof.
  revert l c. induction a as [|x a IH]; intros l c; cbn [cursor_place]; [cbn; lia|].
  change (row_of (x :: a)) with ((if negb (not_newline x) then 1 else 0) + row_of a). destruct (not_newline x); rewrite IH; cbn; lia.
Qed.

Lemma cursor_place_spec cs : cursor_place cs 0 0 = (row_of cs, column_of cs).
Proof.
  destruct (last_line cs) as (q & l & -> & Hl & Hq). rewrite column_spec, row_app, (row_none l), Nat.add_0_r by done.
  rewrite cursor_place_app. destruct Hq as [->|[q' ->]].
  - cbn [cursor_place]. by rewrite cursor_place_line.
  - rewrite cursor_place_app. pose proof (cursor_place_row q' 0 0) as Hr. destruct (cursor_place q' 0 0) as [r c]. cbn in Hr. subst r.
    cbn [cursor_place]. rewrite not_newline_newline, cursor_place_line by done. f_equal. rewrite row_app. done.
Qed.

(** ** The lines of the file *)

Definition bytes_of (l : list (list Z)) : list Z := mjoin l.

Lemma split_newline_ne l : split_newline l <> [].
Proof. destruct l as [|b l]; [done|]. cbn [split_newline]. case_match; [done|]. by case_match. Qed.

Lemma split_newline_app k l : Forall (fun b => Z.eqb newline b = false) k ->
  split_newline (k ++ l) = match split_newline l with c :: cs => (k ++ c) :: cs | [] => [k] end.
Proof.
  intros Hk. pose proof (split_newline_ne l) as Hne. induction Hk as [|b k Hb _ IH]; cbn [app split_newline].
  - by destruct (split_newline l).
  - rewrite Z.eqb_sym, Hb, IH. by destruct (split_newline l).
Qed.

Lemma split_newline_text cs : is_text cs -> split_newline (mjoin cs) = bytes_of <$> lines cs.
Proof.
  induction 1 as [|c cs Hc _ IH]; [done|]. change (mjoin (c :: cs)) with (c ++ mjoin cs). cbn [lines].
  destruct (not_newline c) eqn:Hn.
  - rewrite split_newline_app by (by apply char_newline). rewrite IH. destruct (lines_ne cs) as (l & ls & ->). done.
  - apply not_newline_ne in Hn as ->. cbn [app split_newline]. rewrite Z.eqb_refl, IH. done.
Qed.

Lemma lines_text cs : is_text cs -> Forall is_text (lines cs).
Proof.
  assert (is_text []) as Hnil by apply Forall_nil_2.
  induction 1 as [|c cs Hc _ IH]; [by apply Forall_singleton|]. cbn [lines].
  destruct (not_newline c); [|by apply Forall_cons]. destruct (lines_ne cs) as (l & ls & Hl). rewrite Hl in *.
  apply Forall_cons in IH as [Hl' Hls]. apply Forall_cons. split; [by apply Forall_cons|done].
Qed.

(** ** The rows of a redraw *)

Lemma for_op_ext {S E A} (l : list A) (f g : A -> Op S E unit) s :
  (forall a s, a ∈ l -> f a s = g a s) -> for_op l f s = for_op l g s.
Proof.
  revert s. induction l as [|a l IH]; intros s He; [done|]. cbn [for_op]. unfold mbind, op_bind. rewrite He by set_solver.
  destruct (g a s) as [s' [[]|e|]]; [|done|done]. apply IH. intros. apply He. set_solver.
Qed.

Lemma for_op_app {S E A} (l k : list A) (f : A -> Op S E unit) s : for_op (l ++ k) f s = (for_op l f ≫= fun _ => for_op k f) s.
Proof.
  revert s. induction l as [|a l IH]; intros s; [done|]. cbn [app for_op]. unfold mbind, op_bind in *.
  destruct (f a s) as [s' [[]|e|]]; [|done|done]. apply IH.
Qed.

Lemma editor_row_ext row c1 c2 columns w :
  (forall col, col < columns -> default space (c1 !! col) = default space (c2 !! col)) ->
  write_editor_row row c1 columns w = write_editor_row row c2 columns w.
Proof.
  intros He. unfold write_editor_row. case_match; [done|]. apply for_op_ext. intros col s Hcol%elem_of_seq. rewrite He by lia. done.
Qed.

Lemma screen_row_lookup columns bytes col : columns <= 256 -> col < columns ->
  default space (screen_row columns bytes !! col) = default space (bytes !! col).
Proof.
  intros Hc Hcol. unfold screen_row, EDITOR_MAX_COLUMNS. destruct (Nat.lt_ge_cases col (length bytes)).
  - by rewrite lookup_resize, lookup_take_lt by (rewrite ?length_take; lia).
  - rewrite lookup_resize_new by (rewrite ?length_take; lia). by rewrite lookup_ge_None_2.
Qed.

Lemma fill_row_spec column text l : column + length text <= 256 -> length l = 256 ->
  fill_row column text l = Ok (take column l ++ (editor_display_byte <$> text) ++ drop (column + length text) l).
Proof.
  revert column l. induction text as [|c text IH]; intros column l Hc Hl; cbn [fill_row length fmap list_fmap] in *.
  { cbn [app]. by rewrite Nat.add_0_r, take_drop. }
  unfold set_index. rewrite (proj2 (Nat.ltb_lt _ _)) by lia. cbn [mbind outcome_bind].
  rewrite IH by (rewrite ?length_insert; lia). f_equal. rewrite Nat.add_1_r, (take_S_r _ _ (editor_display_byte c)) by (apply list_lookup_insert_eq; lia).
  rewrite take_insert_ge, drop_insert_lt by lia. rewrite <-(assoc_L (++)). cbn [app]. do 3 f_equal. f_equal. lia.
Qed.

Lemma fill_row_line columns hs l : columns <= 256 ->
  fill_row 0 (take columns (drop hs l)) blank_row = Ok (screen_row columns (editor_display_byte <$> drop hs l)).
Proof.
  intros Hc. rewrite fill_row_spec by (rewrite ?length_take; done || lia). f_equal. unfold screen_row, EDITOR_MAX_COLUMNS.
  rewrite take_0. cbn [app Nat.add]. rewrite resize_ge by (rewrite length_take; lia). rewrite <-fmap_take. f_equal.
  unfold blank_row, EDITOR_MAX_COLUMNS. rewrite drop_replicate. by rewrite length_fmap.
Qed.

Lemma write_content_spec columns hs ls row w : columns <= 256 -> Forall is_text ls ->
  write_content row hs columns (bytes_of <$> ls) w =
  for_op (seq row (length ls)) (fun r => write_editor_row r (editor_display_byte <$> drop hs (default [] (ls !! (r - row)))) columns) w.
Proof.
  intros Hc Hls. revert row w. induction Hls as [|l ls Hl _ IH]; intros row w; [done|].
  rewrite fmap_cons. cbn [write_content length seq for_op]. change (bytes_of l) with (mjoin l). rewrite chars_text, fill_row_line by done. rewrite step_lift.
  unfold mbind, op_bind. rewrite Nat.sub_diag. cbn [lookup list_lookup default].
  rewrite (editor_row_ext row _ (editor_display_byte <$> drop hs l)) by (intros; by apply screen_row_lookup).
  destruct (write_editor_row row _ columns w) as [w' [[]|e|]]; [|done|done].
  rewrite (IH (row + 1) w'), Nat.add_1_r. apply for_op_ext. intros r s Hr%elem_of_seq.
  by replace (r - row) with (S (r - S row)) by lia.
Qed.

(** Rearranging a sequence. *)
Lemma bind_ext {S E A B} (m m' : Op S E A) (k k' : A -> Op S E B) s :
  m s = m' s -> (forall a s', k a s' = k' a s') -> (m ≫= k) s = (m' ≫= k') s.
Proof. intros Hm Hk. unfold mbind, op_bind. rewrite Hm. destruct (m' s) as [s' [a|e|]]; [apply Hk|done|done]. Qed.

Lemma bind_assoc_op {S E A B C} (m : Op S E A) (k : A -> Op S E B) (K : B -> Op S E C) s :
  (m ≫= fun a => k a ≫= K) s = ((m ≫= k) ≫= K) s.
Proof. unfold mbind, op_bind. by destruct (m s) as [s' [a|e|]]. Qed.

Lemma for_cons_bind {S E A B} (a : A) l (f : A -> Op S E unit) (K : unit -> Op S E B) s :
  (for_op (a :: l) f ≫= K) s = (f a ≫= fun _ => for_op l f ≫= K) s.
Proof. cbn [for_op]. unfold mbind, op_bind. by destruct (f a s) as [s' [[]|e|]]. Qed.

Lemma for_app_bind {S E A B} (l k : list A) (f : A -> Op S E unit) (K : unit -> Op S E B) s :
  (for_op (l ++ k) f ≫= K) s = (for_op l f ≫= fun _ => for_op k f ≫= K) s.
Proof.
  unfold mbind, op_bind. rewrite for_op_app. unfold mbind, op_bind. by destruct (for_op l f s) as [s' [[]|e|]].
Qed.

Lemma for_op_shift {S E} a n (f : nat -> Op S E unit) s : for_op (seq (3 + a) n) f s = for_op (seq a n) (fun k => f (3 + k)) s.
Proof.
  revert a s. induction n as [|n IH]; intros a s; [done|]. cbn [seq for_op]. apply bind_ext; [done|]. intros _ s'. apply IH.
Qed.

(** ** A redraw, row by row *)

Definition redraw_rows (columns rows : nat) (p : EditorPage) : Method FramebufferWriter unit :=
  _ ← for_op (seq 0 rows) (fun r => write_editor_row r (page_row columns rows p r) columns);
  modify (fun w => draw_cursor_overlay (MARGIN + cursor_col columns p * CHAR_WIDTH) (MARGIN + cursor_row rows p * LINE_HEIGHT) (cursor_char p)
    (set_position (MARGIN + cursor_col columns p * CHAR_WIDTH) (MARGIN + cursor_row rows p * LINE_HEIGHT) w)).

(** The state a redraw starts from. *)
Definition start_redraw (w : FramebufferWriter) : FramebufferWriter :=
  remove_cursor_overlay (if editor_active w then w else set_editor_active true (clear w)).

Definition page_ok (p : EditorPage) : Prop :=
  is_text (e_name p) /\ is_text (e_text p) /\ (Z.of_nat (length (mjoin (e_text p))) < 10 ^ 19)%Z.

Lemma length_text cs : is_text cs -> length cs <= length (mjoin cs).
Proof.
  induction 1 as [|c cs Hc _ IH]; [done|]. change (mjoin (c :: cs)) with (c ++ mjoin cs). rewrite length_app.
  pose proof (char_length c Hc). cbn [length]. lia.
Qed.

Lemma row_le cs : row_of cs <= length cs.
Proof. apply count_le. Qed.

Lemma column_le cs : column_of cs <= length cs.
Proof. destruct (last_line cs) as (q & l & -> & Hl & Hq). rewrite column_spec, length_app by done. lia. Qed.

(** The content rows. *)
Lemma content_rows_spec columns rows p w : columns <= 256 -> is_text (e_text p) -> 6 <= rows ->
  let visible := take (rows - 5) (drop (first_shown rows p) (split_newline (mjoin (e_text p)))) in
  (write_content 3 (first_column columns p) columns visible ≫= fun _ =>
     for_op (seq (length visible) (rows - 5 - length visible)) (fun row => write_editor_row (3 + row) blank_row columns)) w =
  for_op (seq 3 (rows - 5)) (fun r => write_editor_row r (page_row columns rows p r) columns) w.
Proof.
  intros Hc Ht Hr visible. subst visible. rewrite split_newline_text, <-fmap_drop, <-fmap_take, length_fmap by done.
  set (ls := take _ _). assert (length ls = Nat.min (rows - 5) (length (lines (e_text p)) - first_shown rows p)) as Hlen
    by (unfold ls; by rewrite length_take, length_drop).
  assert (seq 3 (rows - 5) = seq 3 (length ls) ++ seq (3 + length ls) (rows - 5 - length ls)) as ->
    by (rewrite <-seq_app; f_equal; lia).
  assert (forall r, r < rows - 5 -> page_row columns rows p (3 + r) =
    editor_display_byte <$> drop (first_column columns p) (default [] (lines (e_text p) !! (first_shown rows p + r)))) as Hrow.
  { intros r Hlt. unfold page_row. rewrite !(proj2 (Nat.eqb_neq _ _)) by lia. by replace (3 + r - 3) with r by lia. }
  rewrite for_op_app. apply bind_ext.
  - rewrite write_content_spec by (done || (apply Forall_take, Forall_drop; by apply lines_text)).
    apply for_op_ext. intros r s Hin%elem_of_seq. apply editor_row_ext. intros col Hcol.
    replace r with (3 + (r - 3)) at 2 by lia. rewrite Hrow by lia. unfold ls.
    rewrite lookup_take_lt, lookup_drop by lia. done.
  - intros _ s. rewrite for_op_shift. apply for_op_ext. intros r s' Hin%elem_of_seq. apply editor_row_ext. intros col Hcol.
    rewrite Hrow by lia. rewrite (lookup_ge_None_2 (lines _)) by lia. cbn [default]. rewrite drop_nil.
    unfold blank_row. by rewrite lookup_replicate_2 by (unfold EDITOR_MAX_COLUMNS; lia).
Qed.

Lemma sub_usize_le (x y : nat) : y <= x -> sub_usize (E := Empty_set) x y = Ok (x - y).
Proof. intros H. unfold sub_usize. by rewrite (proj2 (Nat.leb_le _ _)). Qed.

(** The rows and the columns of the page. *)
Lemma render_page_spec p w columns rows : page_ok p ->
  columns = editor_columns (info (start_redraw w)) -> rows = editor_rows (info (start_redraw w)) -> columns <> 0 -> 6 <= rows ->
  render_page p w = redraw_rows columns rows p (start_redraw w).
Proof.
  intros (Hname & Htext & Hsize) Hcolumns Hrows Hc Hr.
  assert (columns <= 256) as Hc256 by (rewrite Hcolumns; unfold editor_columns, EDITOR_MAX_COLUMNS; lia).
  pose proof (length_text _ Htext) as Hlen. pose proof (row_le (e_text p)) as Hrow.
  assert (row_of (e_before p) <= length (e_text p) /\ column_of (e_before p) <= length (e_text p)) as [Hrowb Hcolb].
  { pose proof (row_le (e_before p)). pose proof (column_le (e_before p)). unfold e_text. rewrite length_app. lia. }
  pose proof Htext as Htext'. unfold e_text in Htext'. apply is_text_app in Htext' as [Hbefore Hafter].
  unfold render_page, render_editor. rewrite step_get.
  rewrite (step_Ok _ _ w (if editor_active w then w else set_editor_active true (clear w)) tt) by (by destruct (editor_active w)).
  rewrite step_modify, step_get. fold (start_redraw w). generalize dependent (start_redraw w). clear w. intros w Hcolumns Hrows.
  rewrite <-Hcolumns, <-Hrows. rewrite (proj2 (Nat.eqb_neq _ _)), (proj2 (Nat.ltb_ge _ _)) by lia. cbn [orb]. cbv zeta.
  assert (Nat.min (length (mjoin (e_before p))) (length (mjoin (e_text p))) = length (mjoin (e_before p))) as ->.
  { unfold e_text. rewrite join_app, length_app. lia. }
  assert (str_to (E := Empty_set) (mjoin (e_text p)) (length (mjoin (e_before p))) = Ok (mjoin (e_before p))) as -> by (by apply str_to_text).
  rewrite step_lift, !chars_text, cursor_place_spec by done.
  rewrite (sub_usize_le rows 2), step_lift, (sub_usize_le (rows - 2) 3), step_lift, (sub_usize_le (rows - 2 - 3) 1), step_lift by lia.
  rewrite (sub_usize_le columns 1), step_lift, title_spec, step_lift by (done || lia).
  replace (rows - 2 - 3 - 1) with (rows - 6) by lia. replace (rows - 2 - 3) with (rows - 5) by lia.
  unfold redraw_rows.
  assert (seq 0 rows = 0 :: 1 :: 2 :: seq 3 (rows - 5) ++ [rows - 2; rows - 1]) as Hseq.
  { replace rows with (3 + (rows - 5) + 2) at 1 by lia. rewrite !seq_app. cbn [seq app Nat.add].
    do 4 f_equal. f_equal; [lia|]. f_equal. lia. }
  rewrite Hseq.
  assert (forall row s c, page_row columns rows p row = c ->
    write_editor_row row (filled columns c).1 columns s = write_editor_row row (page_row columns rows p row) columns s) as Hrowspec.
  { intros row s c ->. apply editor_row_ext. intros. by apply screen_row_lookup. }
  rewrite for_cons_bind. apply bind_ext; [by apply Hrowspec|intros _ s].
  rewrite help_spec, step_lift, for_cons_bind by done. apply bind_ext; [by apply Hrowspec|clear s; intros _ s].
  rewrite for_cons_bind. apply bind_ext; [done|clear s; intros _ s].
  rewrite for_app_bind, bind_assoc_op. apply bind_ext; [by apply content_rows_spec|clear s; intros _ s].
  change (count _ (e_text p)) with (row_of (e_text p)).
  rewrite place_spec', step_lift, for_cons_bind by (done || lia).
  apply bind_ext; [apply Hrowspec; unfold page_row, page_place; rewrite !(proj2 (Nat.eqb_neq _ _)), Nat.eqb_refl, length_lines by lia; done|clear s; intros _ s].
  rewrite state_spec, step_lift, (sub_usize_le rows 1), step_lift, for_cons_bind by (done || lia).
  apply bind_ext; [apply Hrowspec; unfold page_row; rewrite !(proj2 (Nat.eqb_neq _ _)), Nat.eqb_refl by lia; done|clear s; intros _ s].
  assert (str_from (E := Empty_set) (mjoin (e_text p)) (length (mjoin (e_before p))) = Ok (mjoin (e_after p))) as -> by (by apply str_from_text).
  rewrite step_lift, chars_text by done. cbn [for_op]. unfold cursor_col, cursor_row, first_column, first_shown.
  rewrite Nat.min_l by lia. done.
Qed.

(** ** Drawing the cells *)

Lemma cell_ink_update cells row col c x y : in_box (MARGIN + col * CHAR_WIDTH) (MARGIN + row * LINE_HEIGHT) x y = false ->
  cell_ink (fun r k => if (r =? row) && (k =? col) then Some c else cells r k) x y = 
  if (MARGIN <=? x) && (MARGIN <=? y) && ((y - MARGIN) / LINE_HEIGHT =? row) && ((x - MARGIN) / CHAR_WIDTH =? col) then None else cell_ink cells x y.
Proof.
  intros Hbox. pose proof (box_place row col x y) as Hplace. rewrite Hbox in Hplace. unfold cell_ink.
  destruct (MARGIN <=? x) eqn:Hx, (MARGIN <=? y) eqn:Hy; try done. cbn [andb].
  destruct ((y - MARGIN) / LINE_HEIGHT =? row) eqn:Hr, ((x - MARGIN) / CHAR_WIDTH =? col) eqn:Hc; try done. cbn [andb].
  destruct c as [byte color]. rewrite glyph_bit_below; [done|]. destruct (Nat.le_gt_cases 8 ((y - MARGIN) mod LINE_HEIGHT)); [done|].
  bools. assert (false = true) by (by apply Hplace). done.
Qed.

(** What is below a box is no part of a character. *)
Lemma cell_ink_below cells row col x y : in_box (MARGIN + col * CHAR_WIDTH) (MARGIN + row * LINE_HEIGHT) x y = false ->
  (MARGIN <=? x) && (MARGIN <=? y) && ((y - MARGIN) / LINE_HEIGHT =? row) && ((x - MARGIN) / CHAR_WIDTH =? col) = true -> cell_ink cells x y = None.
Proof.
  intros Hbox Hat. pose proof (box_place row col x y) as Hplace. rewrite Hbox in Hplace. bools. unfold cell_ink.
  rewrite !(proj2 (Nat.leb_le _ _)) by done. cbn [andb]. destruct (cells _ _) as [[byte color]|]; [|done]. rewrite glyph_bit_below; [done|].
  destruct (Nat.le_gt_cases 8 ((y - MARGIN) mod LINE_HEIGHT)); [done|]. assert (false = true) by (by apply Hplace). done.
Qed.

Definition redraw_box (row col : nat) (c : Cell) (i : FramebufferInfo) : FramebufferInfo :=
  let x := MARGIN + col * CHAR_WIDTH in
  let y := MARGIN + row * LINE_HEIGHT in
  if (c.1 =? space)%Z then clear_character_info x y i else draw_character_info x y c.1 c.2 (clear_character_info x y i).

(** A character over whatever was in its box. *)
Lemma redraw_box_shows row col c cells i : info_ok i ->
  (forall x y, x < width i -> y < height i -> in_box (MARGIN + col * CHAR_WIDTH) (MARGIN + row * LINE_HEIGHT) x y = false ->
    pixel i x y = default black (cell_ink cells x y)) ->
  same_frame i (redraw_box row col c i) /\
  shows (redraw_box row col c i) (fun r k => if (r =? row) && (k =? col) then Some c else cells r k).
Proof.
  intros Hi Hout. unfold redraw_box. set (X := MARGIN + col * CHAR_WIDTH) in *. set (Y := MARGIN + row * LINE_HEIGHT) in *.
  pose proof (clear_character_paints X Y i Hi) as Hclear.
  assert (paints (fun x y => if in_box X Y x y then Some (default black (character_ink X Y c.1 c.2 x y)) else None) i
    (if (c.1 =? space)%Z then clear_character_info X Y i else draw_character_info X Y c.1 c.2 (clear_character_info X Y i))) as [Hf Hp].
  { destruct (c.1 =? space)%Z eqn:Hs.
    - eapply paints_ext; [|done]. intros x y. unfold clear_ink, character_ink. destruct (in_box X Y x y); [|done].
      apply Z.eqb_eq in Hs. rewrite Hs. unfold space. by rewrite glyph_space.
    - pose proof (draw_character_paints X Y c.1 c.2 _ (same_frame_ok _ _ (proj1 Hclear) Hi)) as Hdraw.
      eapply paints_ext; [|exact (paints_trans _ _ _ _ _ Hclear Hdraw)]. intros x y. cbn beta. unfold clear_ink, character_ink.
      destruct (in_box X Y x y); [|done]. by destruct (glyph_bit _ _ _). }
  split; [done|]. intros x y Hx Hy. destruct Hf as (b & Hf & _). rewrite Hf in Hx, Hy. cbn in Hx, Hy. rewrite Hp by done.
  destruct (in_box X Y x y) eqn:Hbox.
  - cbn [default]. unfold X, Y. rewrite character_cell. f_equal. unfold cell_ink, one_cell.
    apply box_place in Hbox as (Hx8 & Hy8 & -> & -> & _). by rewrite !(proj2 (Nat.leb_le _ _)), !Nat.eqb_refl by done.
  - cbn [default]. rewrite Hout by done. f_equal. rewrite cell_ink_update by done.
    destruct (_ && _ && _ && _) eqn:Hat; [|done]. by eapply cell_ink_below.
Qed.

(** ** The cells of the editor *)

Definition ecell (w : FramebufferWriter) (row col : nat) : option Z := l ← editor_cells w !! row; l !! col.

Definition ecells (w : FramebufferWriter) (row col : nat) : option Cell := (fun byte => (byte, fg w)) <$> ecell w row col.

(** The screen shows the cells, and no cursor. *)
Record drawn (i : FramebufferInfo) (c : Z * Z * Z) (w : FramebufferWriter) : Prop := {
  drawn_frame : same_frame i (info w);
  drawn_color : fg w = c;
  drawn_shape : length (editor_cells w) = 128 /\ Forall (fun l => length l = 256) (editor_cells w);
  drawn_active : editor_active w = true;
  drawn_cursor : cursor_overlay w = None;
  drawn_shows : shows (info w) (ecells w);
}.

Lemma ecell_Some i c w row col : drawn i c w -> row < 128 -> col < 256 ->
  exists l b, editor_cells w !! row = Some l /\ l !! col = Some b /\ length l = 256.
Proof.
  intros [_ _ [Hlen Hrows] _ _ _] Hr Hc. destruct (lookup_lt_is_Some_2 (editor_cells w) row) as [l Hl]; [lia|].
  pose proof (Forall_lookup_1 _ _ _ _ Hrows Hl) as Hl256. cbn in Hl256.
  destruct (lookup_lt_is_Some_2 l col) as [b Hb]; [lia|]. eauto.
Qed.

Lemma write_cell_drawn i c w row col byte : info_ok i -> drawn i c w -> row < 128 -> col < 256 ->
  returns (write_editor_cell row col byte) (fun _ w' => drawn i c w' /\
    forall r k, ecell w' r k = if (r =? row) && (k =? col) then Some byte else ecell w r k) w.
Proof.
  intros Hi Hw Hr Hc. destruct (ecell_Some i c w row col Hw Hr Hc) as (l & b & Hl & Hb & Hlen).
  unfold write_editor_cell. apply returns_get. eapply returns_lift; [unfold index_of; by rewrite Hl|].
  eapply returns_lift; [unfold index_of; by rewrite Hb|]. destruct (b =? byte)%Z eqn:Hsame.
  { apply Z.eqb_eq in Hsame as <-. apply returns_ret. split; [done|]. intros r k. destruct (_ && _) eqn:Hat; [|done].
    apply andb_true_iff in Hat as [->%Nat.eqb_eq ->%Nat.eqb_eq]. unfold ecell. by rewrite Hl. }
  destruct Hw as [Hframe Hcolor [Hlen' Hrows] Hactive Hcursor Hshows].
  assert (info_ok (info w)) as Hinfo by (by eapply same_frame_ok).
  destruct (redraw_box_shows row col (byte, fg w) (ecells w) (info w) Hinfo) as [Hf Hs]; [intros x y Hx Hy _; by apply Hshows|].
  set (w' := set_editor_cells (<[row := <[col := byte]> l]> (editor_cells w)) (set_info (redraw_box row col (byte, fg w) (info w)) w)).
  exists tt, w'. split.
  { rewrite step_modify. unfold redraw_box in w'. cbn [fst snd] in w'. unfold set_index. rewrite (proj2 (Nat.ltb_lt _ _)) by lia.
    subst w'. by destruct (byte =? space)%Z. }
  assert (forall r k, ecell w' r k = if (r =? row) && (k =? col) then Some byte else ecell w r k) as Hcell.
  { intros r k. unfold ecell. subst w'. cbn [editor_cells set_editor_cells]. destruct (r =? row) eqn:Hrr; bools; cbn [andb].
    - subst r. rewrite list_lookup_insert_eq, Hl by lia. cbn [mbind option_bind]. destruct (k =? col) eqn:Hkc; bools.
      + subst k. by rewrite list_lookup_insert_eq by lia.
      + by rewrite list_lookup_insert_ne by done.
    - by rewrite list_lookup_insert_ne by done. }
  split; [|done]. split; [by etrans|done| |done|done|].
  - subst w'. cbn [editor_cells set_editor_cells]. rewrite length_insert. split; [done|].
    apply Forall_insert; [done|]. by rewrite length_insert.
  - subst w'. cbn [info set_editor_cells set_info]. eapply shows_ext; [|exact Hs]. intros r k. unfold ecells. rewrite Hcell.
    by destruct (_ && _).
Qed.

Lemma write_row_drawn i c row contents columns w : info_ok i -> drawn i c w -> row < 128 -> columns <= 256 ->
  returns (write_editor_row row contents columns) (fun _ w' => drawn i c w' /\
    forall r k, ecell w' r k = if (r =? row) && (k <? columns) then Some (default space (contents !! k)) else ecell w r k) w.
Proof.
  intros Hi Hw Hr Hc. unfold write_editor_row. unfold EDITOR_MAX_ROWS, EDITOR_MAX_COLUMNS.
  rewrite (proj2 (Nat.leb_gt _ _)), (proj2 (Nat.ltb_ge _ _)) by lia. cbn [orb].
  induction columns as [|n IH]; [apply returns_ret; split; [done|]; intros r k; by rewrite andb_false_r|].
  rewrite seq_S. unfold returns. setoid_rewrite for_op_app. fold (returns (A := unit)).
  eapply returns_bind; [apply IH; lia|]. cbn beta. intros _ w1 [Hw1 Hcells]. cbn [for_op Nat.add].
  eapply returns_bind; [by apply write_cell_drawn; [done|done|done|lia]|]. cbn beta. intros _ w2 [Hw2 Hcells2]. apply returns_ret.
  split; [done|]. intros r k. rewrite Hcells2, Hcells. destruct (r =? row); [|done]. cbn [andb].
  destruct (k =? n) eqn:Hk; bools.
  - subst k. by rewrite (proj2 (Nat.ltb_lt _ _)) by lia.
  - destruct (Nat.lt_ge_cases k n).
    + by rewrite !(proj2 (Nat.ltb_lt _ _)) by lia.
    + by rewrite !(proj2 (Nat.ltb_ge _ _)) by lia.
Qed.

Lemma rows_drawn i c columns w n (contents : nat -> list Z) : info_ok i -> drawn i c w -> n <= 128 -> columns <= 256 ->
  returns (for_op (seq 0 n) (fun r => write_editor_row r (contents r) columns)) (fun _ w' => drawn i c w' /\
    forall r k, ecell w' r k = if (r <? n) && (k <? columns) then Some (default space (contents r !! k)) else ecell w r k) w.
Proof.
  intros Hi Hw Hn Hc. induction n as [|n IH]; [by apply returns_ret|].
  rewrite seq_S. unfold returns. setoid_rewrite for_op_app. fold (returns (A := unit)).
  eapply returns_bind; [apply IH; lia|]. cbn beta. intros _ w1 [Hw1 Hcells]. cbn [for_op Nat.add].
  eapply returns_bind; [by apply write_row_drawn; [done|done|lia|done]|]. cbn beta. intros _ w2 [Hw2 Hcells2]. apply returns_ret.
  split; [done|]. intros r k. rewrite Hcells2, Hcells. destruct (r =? n) eqn:Hr; bools; cbn [andb].
  - subst r. rewrite (proj2 (Nat.ltb_lt n (S n))), (proj2 (Nat.ltb_ge n n)) by lia. done.
  - destruct (Nat.lt_ge_cases r n).
    + by rewrite !(proj2 (Nat.ltb_lt r _)) by lia.
    + by rewrite !(proj2 (Nat.ltb_ge r _)) by lia.
Qed.

(** ** Between redraws *)

(** The cells outside the page are blank. *)
Definition blank_outside (columns rows : nat) (w : FramebufferWriter) : Prop :=
  forall r k b, ecell w r k = Some b -> rows <= r \/ columns <= k -> b = space.

(** The screen shows the cells, and the cursor on one of them. *)
Record editing (i : FramebufferInfo) (c : Z * Z * Z) (columns rows : nat) (w : FramebufferWriter) (row col : nat) (b : Z) : Prop := {
  editing_frame : same_frame i (info w);
  editing_color : fg w = c;
  editing_shape : length (editor_cells w) = 128 /\ Forall (fun l => length l = 256) (editor_cells w);
  editing_active : editor_active w = true;
  editing_cursor : cursor_overlay w = Some (MARGIN + col * CHAR_WIDTH, MARGIN + row * LINE_HEIGHT, b);
  editing_cell : ecell w row col = Some b;
  editing_blank : blank_outside columns rows w;
  editing_shows x y : x < width i -> y < height i -> pixel (info w) x y =
    default (default black (cell_ink (ecells w) x y)) (cursor_ink (MARGIN + col * CHAR_WIDTH) (MARGIN + row * LINE_HEIGHT) b c x y);
}.

Lemma start_inactive i columns rows w : info_ok i -> info w = i -> editor_active w = false -> length (editor_cells w) = 128 ->
  drawn i (fg w) (start_redraw w) /\ blank_outside columns rows (start_redraw w).
Proof.
  intros Hi <- Ha Hlen. unfold start_redraw. rewrite Ha.
  change (remove_cursor_overlay (set_editor_active true (clear w))) with (set_editor_active true (clear w)).
  set (w' := set_editor_active true (clear w)).
  assert (editor_cells w' = replicate 128 (replicate 256 space)) as Hcells by (subst w'; cbn [editor_cells set_editor_active clear set_editor_cells]; by rewrite Hlen).
  assert (forall r k b, ecell w' r k = Some b -> b = space) as Hspace.
  { intros r k b. unfold ecell. rewrite Hcells. destruct (replicate 128 _ !! r) as [l|] eqn:Hr; [|done].
    apply lookup_replicate in Hr as [-> _]. cbn [mbind option_bind]. intros Hk. by apply lookup_replicate in Hk as [-> _]. }
  destruct (clear_screen_spec (info w) Hi) as [Hf Hb]. split; [|intros r k b Hk _; by eapply Hspace].
  split; [done|done| |done|done|].
  - rewrite Hcells, length_replicate. split; [done|]. apply Forall_replicate. apply length_replicate.
  - intros x y _ _. change (info w') with (clear_screen (info w)). rewrite (pixel_blank _ _ _ _ Hb). unfold cell_ink. destruct (_ && _); [|done].
    unfold ecells. destruct (ecell w' _ _) as [b|] eqn:Hk; [|done]. apply Hspace in Hk as ->. cbn. unfold space. by rewrite glyph_space.
Qed.

Lemma start_editing i c columns rows w row col b : info_ok i -> editing i c columns rows w row col b ->
  drawn i c (start_redraw w) /\ blank_outside columns rows (start_redraw w).
Proof.
  intros Hi [Hframe Hcolor Hshape Hactive Hcursor Hcell Hblank Hshows]. unfold start_redraw. rewrite Hactive.
  assert (info_ok (info w)) as Hinfo by (by eapply same_frame_ok).
  assert (width (info w) = width i /\ height (info w) = height i) as [Hw Hh] by (by destruct Hframe as (? & -> & _)).
  destruct (redraw_box_shows row col (b, fg w) (ecells w) (info w) Hinfo) as [Hf Hs].
  { intros x y Hx Hy Hbox. rewrite Hshows by lia. unfold cursor_ink. by rewrite Hbox. }
  assert (remove_cursor_overlay w = set_cursor_overlay None (set_info (redraw_box row col (b, fg w) (info w)) w)) as ->.
  { unfold remove_cursor_overlay, redraw_box. rewrite Hcursor. unfold draw_character_at, draw_character_with_color, clear_character, on_info.
    cbn [fst snd]. destruct (b =? space)%Z; cbn [info fg set_info set_cursor_overlay]; unfold set_info, set_cursor_overlay;
      cbn [info pos_x pos_y fg input_origin input_cells input_bytes input_cell_count editor_active editor_cells history
        current_line_id scrollback_offset input_origin_history input_history_cells]; reflexivity. }
  split; [|done]. split; [by etrans|done|done|done|done|]. eapply shows_ext; [|exact Hs]. intros r k. cbn beta.
  destruct ((r =? row) && (k =? col)) eqn:Hat; [|done]. apply andb_true_iff in Hat as [->%Nat.eqb_eq ->%Nat.eqb_eq].
  unfold ecells, ecell in *. cbn [editor_cells fg set_cursor_overlay set_info]. by rewrite Hcell.
Qed.

(** The character under the cursor. *)
Lemma cursor_cell columns rows p : 0 < columns -> 6 <= rows ->
  default space (page_row columns rows p (cursor_row rows p) !! cursor_col columns p) = cursor_char p.
Proof.
  intros Hc Hr. destruct (last_line (e_before p)) as (q & l1 & Hb & Hl1 & Hq). destruct (first_line (e_after p)) as (l2 & r & Ha & Hl2 & Hend).
  assert (no_newline (l1 ++ l2)) as Hl by (by apply Forall_app).
  destruct (place_spec q (l1 ++ l2) r 0 Hq Hl Hend) as [Hline _].
  assert (row_of (e_before p) = row_of q) as Hrow by (rewrite Hb, row_app, (row_none l1) by done; lia).
  assert (column_of (e_before p) = length l1) as Hcol by (rewrite Hb; by apply column_spec).
  unfold page_row, cursor_row, cursor_col, first_column, first_shown. rewrite Hrow, Hcol.
  rewrite !(proj2 (Nat.eqb_neq _ _)) by lia. unfold e_text.
  replace (row_of q - (rows - 6) + (3 + (row_of q - (row_of q - (rows - 6))) - 3)) with (row_of q) by lia.
  rewrite Hb, Ha, <-(assoc_L (++)), (assoc_L (++) l1), Hline. cbn [from_option].
  rewrite list_lookup_fmap, lookup_drop. replace (length l1 - (columns - 1) + _) with (length l1) by lia.
  cbn [id]. rewrite lookup_app_r, Nat.sub_diag by lia. unfold cursor_char. rewrite Ha. destruct l2 as [|c l2]; cbn.
  - destruct Hend as [->|[r' ->]]; done.
  - apply Forall_cons in Hl2 as [-> _]. done.
Qed.

(** ** A redraw *)

Lemma redraw_rows_editing i c columns rows p w : info_ok i -> drawn i c w -> blank_outside columns rows w ->
  0 < columns <= 256 -> 6 <= rows <= 128 ->
  returns (redraw_rows columns rows p) (fun _ w' =>
    editing i c columns rows w' (cursor_row rows p) (cursor_col columns p) (cursor_char p) /\
    forall r k, r < rows -> k < columns -> ecell w' r k = Some (default space (page_row columns rows p r !! k))) w.
Proof.
  intros Hi Hw Hblank Hc Hr. unfold redraw_rows.
  eapply returns_bind; [apply (rows_drawn i c columns w rows (page_row columns rows p) Hi Hw); lia|]. cbn beta.
  intros _ w1 [Hw1 Hcells]. apply returns_modify.
  assert (cursor_row rows p < rows /\ cursor_col columns p < columns) as [Hrow Hcol].
  { unfold cursor_row, cursor_col, first_shown, first_column. lia. }
  assert (forall r k, r < rows -> k < columns -> ecell w1 r k = Some (default space (page_row columns rows p r !! k))) as Hpage.
  { intros r k Hlt Hlt'. rewrite Hcells. by rewrite !(proj2 (Nat.ltb_lt _ _)). }
  set (X := MARGIN + cursor_col columns p * CHAR_WIDTH). set (Y := MARGIN + cursor_row rows p * LINE_HEIGHT).
  destruct Hw1 as [Hframe Hcolor Hshape Hactive Hcursor Hshows].
  destruct (draw_cursor_paints X Y (cursor_char p) (fg w1) (info w1)) as [Hf Hp]; [by eapply same_frame_ok|].
  assert (width (info w1) = width i /\ height (info w1) = height i) as [Ew Eh] by (by destruct Hframe as (? & -> & _)).
  split; [|exact Hpage]. split; [by etrans|done|done|done|done| | |].
  - change (ecell w1 (cursor_row rows p) (cursor_col columns p) = Some (cursor_char p)). rewrite Hpage, cursor_cell by lia. done.
  - intros r k b Hk Hout. change (ecell w1 r k = Some b) in Hk. rewrite Hcells in Hk.
    destruct (_ && _) eqn:Hin; [bools; lia|]. by eapply Hblank.
  - intros x y Hx Hy. change (pixel (draw_cursor_info X Y (cursor_char p) (fg w1) (info w1)) x y =
      default (default black (cell_ink (ecells w1) x y)) (cursor_ink X Y (cursor_char p) c x y)).
    rewrite Hp, Hcolor, (Hshows x y) by lia. done.
Qed.

(** The screen is what the page has. *)
Lemma editing_page i c columns rows p w : editing i c columns rows w (cursor_row rows p) (cursor_col columns p) (cursor_char p) ->
  (forall r k, r < rows -> k < columns -> ecell w r k = Some (default space (page_row columns rows p r !! k))) ->
  forall x y, x < width i -> y < height i -> pixel (info w) x y = page_pixel columns rows c p x y.
Proof.
  intros Hw Hpage x y Hx Hy. rewrite (editing_shows _ _ _ _ _ _ _ _ Hw) by done. unfold page_pixel. f_equal. f_equal.
  unfold cell_ink. destruct (_ && _); [|done]. set (r := (y - MARGIN) / LINE_HEIGHT). set (k := (x - MARGIN) / CHAR_WIDTH).
  unfold ecells, page_cells. rewrite (editing_color _ _ _ _ _ _ _ _ Hw). destruct (r <? rows) eqn:Hr, (k <? columns) eqn:Hk; cbn [andb]; bools.
  1: { rewrite Hpage by done. destruct (page_row columns rows p r !! k); [done|]. cbn. unfold space. by rewrite glyph_space. }
  all: destruct (ecell w r k) as [b|] eqn:Hb; [|done]; apply (editing_blank _ _ _ _ _ _ _ _ Hw) in Hb as ->; [|lia]; cbn;
    unfold space; by rewrite glyph_space.
Qed.

Definition render_pages (ps : list EditorPage) : Method FramebufferWriter unit := for_op ps render_page.

(** A redraw in any state of the editor. *)
Lemma render_page_editing i c columns rows p w : info_ok i -> page_ok p ->
  columns = editor_columns i -> rows = editor_rows i -> columns <> 0 -> 6 <= rows ->
  drawn i c (start_redraw w) -> blank_outside columns rows (start_redraw w) ->
  returns (render_page p) (fun _ w' =>
    editing i c columns rows w' (cursor_row rows p) (cursor_col columns p) (cursor_char p) /\
    forall r k, r < rows -> k < columns -> ecell w' r k = Some (default space (page_row columns rows p r !! k))) w.
Proof.
  intros Hi Hp Hcolumns Hrows Hc Hr Hw Hblank. unfold returns.
  assert (columns <= 256 /\ rows <= 128) as [Hc256 Hr128]
    by (rewrite Hcolumns, Hrows; unfold editor_columns, editor_rows, EDITOR_MAX_COLUMNS, EDITOR_MAX_ROWS; lia).
  pose proof (drawn_frame _ _ _ Hw) as (buf & Hinfo & _).
  setoid_rewrite (render_page_spec p w columns rows); [|done|by rewrite Hinfo|by rewrite Hinfo|done|done].
  apply redraw_rows_editing; [done|done|done|lia|lia].
Qed.

Lemma render_pages_editing i c columns rows ps w row col b : info_ok i -> Forall page_ok ps ->
  columns = editor_columns i -> rows = editor_rows i -> columns <> 0 -> 6 <= rows ->
  editing i c columns rows w row col b ->
  returns (render_pages ps) (fun _ w' => exists row col b, editing i c columns rows w' row col b) w.
Proof.
  intros Hi Hps Hcolumns Hrows Hc Hr. revert w row col b. induction Hps as [|p ps Hp _ IH]; intros w row col b Hw.
  { apply returns_ret. eauto. }
  destruct (start_editing i c columns rows w row col b Hi Hw) as [Hd Hb]. unfold render_pages. cbn [for_op].
  eapply returns_bind; [by apply (render_page_editing i c columns rows)|]. cbn beta. intros _ w1 [Hw1 _]. by eapply IH.
Qed.

(** C18: The editor redraws only the cells that changed since the last redraw, yet the screen is
    the page of the text alone: whatever was shown before, after a redraw every pixel is that
    of the title, the visible lines with the cursor among them and the status lines. *)
Theorem editor_shows_page (w : FramebufferWriter) (ps : list EditorPage) (p : EditorPage) :
  info_ok (info w) -> console_ok w -> editor_active w = false -> 24 <= width (info w) -> 112 <= height (info w) ->
  Forall page_ok ps -> page_ok p ->
  exists w', render_pages (ps ++ [p]) w = (w', Ok tt) /\
    forall x y, x < width (info w) -> y < height (info w) ->
      pixel (info w') x y = page_pixel (editor_columns (info w)) (editor_rows (info w)) (fg w) p x y.
Proof.
  intros Hi Hok Ha Hwidth Hheight Hps Hp. set (columns := editor_columns (info w)). set (rows := editor_rows (info w)).
  assert (columns <> 0 /\ 6 <= rows) as [Hc Hr].
  { unfold columns, rows, editor_columns, editor_rows, MARGIN, CHAR_WIDTH, LINE_HEIGHT, EDITOR_MAX_COLUMNS, EDITOR_MAX_ROWS.
    pose proof (Nat.div_le_lower_bound (width (info w) - 2 * 8) 8 1). pose proof (Nat.div_le_lower_bound (height (info w) - 2 * 8) 16 6). lia. }
  destruct (wo_editor _ _ Hok) as [Hshape _].
  destruct (start_inactive (info w) columns rows w Hi eq_refl Ha Hshape) as [Hd Hb].
  assert (returns (render_pages (ps ++ [p])) (fun _ w' =>
    editing (info w) (fg w) columns rows w' (cursor_row rows p) (cursor_col columns p) (cursor_char p) /\
    forall r k, r < rows -> k < columns -> ecell w' r k = Some (default space (page_row columns rows p r !! k))) w) as ([] & w' & Hw' & He & Hpage).
  { unfold render_pages, returns. destruct Hps as [|p0 ps Hp0 Hps].
    - cbn [app for_op]. eapply returns_bind; [by apply (render_page_editing (info w) (fg w) columns rows)|]. cbn beta.
      intros _ w1 H1. by apply returns_ret.
    - cbn [app for_op]. eapply returns_bind; [by apply (render_page_editing (info w) (fg w) columns rows)|]. cbn beta.
      intros _ w1 [H1 _]. unfold returns. setoid_rewrite for_op_app.
      eapply returns_bind; [by eapply (render_pages_editing (info w) (fg w) columns rows)|]. cbn beta. intros _ w2 (row & col & b & H2).
      destruct (start_editing _ _ _ _ _ _ _ _ Hi H2) as [Hd2 Hb2]. cbn [for_op].
      eapply returns_bind; [by apply (render_page_editing (info w) (fg w) columns rows)|]. cbn beta. intros _ w3 H3. by apply returns_ret. }
  exists w'. split; [done|]. by apply editing_page.
Qed.

(** ** Messages between two redraws *)

Lemma clear_screen_eq i : info_ok i -> clear_screen i = set_buffer (replicate (stride i * height i) 0%Z) i.
Proof. intros Hi. destruct (clear_screen_spec i Hi) as [(b & He & _) Hb]. rewrite He in Hb. cbn in Hb. by rewrite He, Hb. Qed.

(** Clearing the screen forgets what was printed. *)
Lemma clear_again w w' : info_ok (info w) -> same_frame (info w) (info w') -> rest w' = rest (clear w) -> clear w' = clear (clear w).
Proof.
  intros Hi Hf Hrest. injection Hrest as Hfg Hcells Hbytes Hhistory Heditor _.
  assert (clear_screen (info w') = clear_screen (clear_screen (info w))) as Hs.
  { destruct (clear_screen_spec (info w) Hi) as [Hf' _].
    rewrite !clear_screen_eq by (first [done|by eapply same_frame_ok]). destruct Hf as (b & -> & _). done. }
  destruct w' as [i x y f o cells bytes n ov a ec h id off oh hc]. cbn [fg input_cells input_bytes input_history_cells editor_cells info] in *.
  subst f cells bytes hc. unfold clear at 1. unfold on_info. cbn [info editor_cells]. rewrite Hs, Heditor. reflexivity.
Qed.

(** What is printed between leaving the editor's screen and drawing it again is never seen:
    the redraw starts with a clear screen, and the state is the one without the message.  The
    shell prints the errors of a failed save, and that the file is full, at that point. *)
Theorem editor_hides_messages (w : FramebufferWriter) (message name text : list Z) (cursor : nat) (dirty : bool) :
  screen_ok (info w) -> color_ok (fg w) -> (Z.of_nat (length message) < u64_limit)%Z ->
  exists w', print_bytes message (clear w) = (w', Ok tt) /\
    render_editor name text cursor dirty w' = render_editor name text cursor dirty (clear w).
Proof.
  intros Hi Hc Hn. destruct (clear_displays (fg w) (fg w) w (info w) Hi eq_refl eq_refl Hc) as [Hat _].
  destruct (put_bytes_spec message _ _ Hat Hn) as (w' & Hput & [Hat' Hf Hback Hrest _]).
  pose proof (screen_info _ Hi) as Hinfo.
  destruct (clear_screen_spec (info w) Hinfo) as [Hf' _]. exists w'. split.
  { unfold print_bytes. rewrite (step_Ok _ _ _ _ _ Hput), step_get, (at_back _ _ Hat'), Hback. done. }
  assert (clear w' = clear (clear w)) as Hclear by (apply clear_again; [done|by etrans|done]).
  assert (editor_active w' = false) as Ha by (by injection Hrest).
  unfold render_editor. rewrite !step_get, Ha. change (editor_active (clear w)) with false.
  rewrite !(step_modify (fun w => set_editor_active true (clear w))). by rewrite Hclear.
Qed.

(** ** Examples *)

Definition example_page (before after : list (list Z)) : EditorPage := mk_editor_page [[97%Z]] before after true.

Lemma example_page_ok before after : is_text before -> is_text after -> length (mjoin (before ++ after)) < 100 ->
  page_ok (example_page before after).
Proof.
  intros Hb Ha Hl. split; [by apply Forall_singleton|]. split; [by apply Forall_app|]. unfold e_text. cbn [e_before e_after example_page]. lia.
Qed.

Lemma editor_shows_page_witness :
  exists w', render_pages ([example_page [] [[0xC3; 0xA9]; [newline]; [98]]%Z] ++ [example_page [[120%Z]] [[newline]; [98]]%Z])
      (FramebufferWriter_new (small_screen 64 112)) = (w', Ok tt) /\
    forall x y, x < 64 -> y < 112 ->
      pixel (info w') x y = page_pixel 6 6 DEFAULT_FG (example_page [[120%Z]] [[newline]; [98]]%Z) x y.
Proof.
  apply (editor_shows_page (FramebufferWriter_new (small_screen 64 112))).
  - destruct (clear_screen_spec (small_screen 64 112) (small_screen_info 64 112)) as [Hf _].
    exact (same_frame_ok _ _ Hf (small_screen_info 64 112)).
  - apply new_ok. cbn. lia.
  - reflexivity.
  - cbn. lia.
  - cbn. lia.
  - apply Forall_singleton, example_page_ok; [by apply Forall_nil_2|by repeat apply Forall_cons_2|cbn; lia].
  - apply example_page_ok; [by apply Forall_singleton|by repeat apply Forall_cons_2|cbn; lia].
Defined.

Lemma editor_hides_messages_witness :
  exists w', print_bytes (str "ext2 write error") (clear (FramebufferWriter_new (small_screen 64 112))) = (w', Ok tt) /\
    render_editor [97%Z] [98%Z] 1 true w' = render_editor [97%Z] [98%Z] 1 true (clear (FramebufferWriter_new (small_screen 64 112))).
Proof.
  apply (editor_hides_messages (FramebufferWriter_new (small_screen 64 112))).
  - destruct (clear_screen_spec (small_screen 64 112) (small_screen_info 64 112)) as [Hf _].
    apply (screen_frame (small_screen 64 112)); [exact Hf|]. split; [apply small_screen_info|cbn; lia|cbn; lia].
  - unfold color_ok, is_byte. cbn. lia.
  - vm_compute. reflexivity.
Defined.
