(* ===== verification/Shell.v ===== *)
(** * The shell

    [shell/mod.rs]: starting programs with redirections and pipelines, following them until
    they end, the commands, the text editor and the loop over the keys.  The shell is a task
    of the kernel; what it writes on the console is the list of its calls. *)

From Stdlib Require Import Ascii String.
From stdpp Require Import pretty.
From S2P Require Import Prelude Ring Input Timer Utf8 Chars LineEdit TextEdit ShellParse FileSystem Tar Fd FrameAlloc UserRange Paging Scheduler Kernel UserProgram.

Definition MAX_SLEEP_SECONDS : Z := 3600.

(** ** What the shell shows *)

(** A value printed with its [Debug] format. *)
Inductive ErrorValue :=
| OfScheduler (e : SchedulerError)
| OfExt2 (e : Ext2Error.t)
| OfFs (e : FsError)
| OfProgram (e : ProgramError.t).

(** The calls of the console: [gop_print!] of a text, a value after it and the end of the
    line; the screen; the command line; the editor. *)
Inductive Output :=
| Put (text : list Z)
| PutError (text : list Z) (error : ErrorValue)
| PutTask (row : TaskInfo)
| ClearConsole
| Recolor (red green blue : Z)
| BeginInput
| FinishInput
| RedrawInput (line : list Z) (cursor : nat)
| PageUpScreen
| PageDownScreen
| LeaveScrollback
| ShowEditor (name text : list Z) (cursor : nat) (dirty : bool).

(** A panic inside a function of another module, which the theorems about that module are
    about: in a method of the shell it is an error, so that [Panic] is the shell's own. *)
Inductive Stopped := InCall.

Definition own {A} (r : outcome Empty_set A) : outcome Stopped A :=
  match r with Ok a => Ok a | Err e => match e with end | Panic => Panic end.

Definition called {E A} (r : outcome E A) : outcome Stopped (A + E) :=
  match r with Ok a => Ok (inl a) | Err e => Ok (inr e) | Panic => Err InCall end.

Definition number (n : Z) : list Z := str (pretty (Z.to_N n)).

(** [{:>6}], [{:02}]. *)
Definition pad (fill : Z) (width : nat) (text : list Z) : list Z := replicate (width - length text) fill ++ text.

Record RunningApp := mk_app {
  app_task : Z;
  app_path : list Z;
  app_path_len : nat;
}.

(** The state of [run], but for the line and the history of commands. *)
Record Shell (D PT : Type) := mk_shell {
  sh_kernel : Kernel D PT;
  sh_output : list Output;
  sh_dir : list Z;
  sh_dir_len : nat;
  sh_dir_is_ext2 : bool;
  sh_apps : list (option RunningApp);
}.
Arguments mk_shell {D PT} _ _ _ _ _ _.
Arguments sh_kernel {D PT} _.
Arguments sh_output {D PT} _.
Arguments sh_dir {D PT} _.
Arguments sh_dir_len {D PT} _.
Arguments sh_dir_is_ext2 {D PT} _.
Arguments sh_apps {D PT} _.

(** The other functions of [fs/ext2.rs] the shell calls. *)
Class Directories (D : Type) := {
  fs_directory_exists : list Z -> D -> D * outcome Ext2Error.t bool;
  fs_create_directory : list Z -> D -> D * outcome Ext2Error.t unit;
  fs_remove_file : list Z -> D -> D * outcome Ext2Error.t unit;
  fs_remove_empty_directory : list Z -> D -> D * outcome Ext2Error.t unit;
}.

Section shell.
Context {D : Type} `{FileSystem D Ext2Error.t} `{!Directories D}.
Context {PT : Type} `{Mapper PT} `{DirectMap PT}.
Variable from_start_address : Z -> option Z.
Variable try_new : Z -> option Z.
Variable trampoline : Z.
Variable initrd : Mounted.

(** What the allocator gives the two sides of a command. *)
Variable reserve : nat -> nat -> bool.
Variable stack_base : nat -> Z.

Abbreviation Sh := (Shell D PT).
Abbreviation Cmd := (Op Sh Stopped).

Definition set_kernel (k : Kernel D PT) (s : Sh) : Sh :=
  mk_shell k (sh_output s) (sh_dir s) (sh_dir_len s) (sh_dir_is_ext2 s) (sh_apps s).
Definition set_output (o : list Output) (s : Sh) : Sh :=
  mk_shell (sh_kernel s) o (sh_dir s) (sh_dir_len s) (sh_dir_is_ext2 s) (sh_apps s).
Definition set_dir (dir : list Z) (n : nat) (ext2 : bool) (s : Sh) : Sh :=
  mk_shell (sh_kernel s) (sh_output s) dir n ext2 (sh_apps s).
Definition set_apps (apps : list (option RunningApp)) (s : Sh) : Sh :=
  mk_shell (sh_kernel s) (sh_output s) (sh_dir s) (sh_dir_len s) (sh_dir_is_ext2 s) apps.

Definition show (o : Output) : Cmd unit := modify (fun s => set_output (sh_output s ++ [o]) s).

(** [gop_print!] and [gop_println!]. *)
Definition print (text : list Z) : Cmd unit := show (Put text).
Definition println (text : list Z) : Cmd unit := print (text ++ [newline]).
Definition println_error (text : list Z) (e : ErrorValue) : Cmd unit := _ ← show (PutError text e); print [newline].

(** A call of the kernel whose error the shell looks at. *)
Definition attempt {E A} (op : Op (Kernel D PT) E A) : Cmd (A + E) := fun s =>
  let '(k, r) := op (sh_kernel s) in
  (set_kernel k s, called r).

(** [.ok()] of it, and [let _ =]. *)
Definition attempt_ok {E A} (op : Op (Kernel D PT) E A) : Cmd (option A) :=
  r ← attempt op; mret (match r with inl a => Some a | inr _ => None end).
Definition ignore {E A} (op : Op (Kernel D PT) E A) : Cmd unit := _ ← attempt op; mret tt.

(** A call on the disk. *)
Definition on_ext2 {A} (f : D -> D * outcome Ext2Error.t A) : Cmd (A + Ext2Error.t) := attempt (on_io (on_disk f id)).

(** A function without effects that may panic. *)
Definition pure {A} (r : outcome Empty_set A) : Cmd A := lift (own r).

(** [core::str::from_utf8(bytes).ok()]. *)
Definition from_utf8 (l : list Z) : option (list Z) := if valid_utf8 l then Some l else None.

Definition current_dir (s : Sh) : outcome Empty_set (list Z) := slice_to (sh_dir s) (sh_dir_len s).

(** A path resolved into a fresh array: the array and the part in use. *)
Definition resolved_path (dir input : list Z) : outcome Empty_set (option (list Z * nat * list Z)) :=
  found ← resolve_path dir input (replicate PATH_CAPACITY 0%Z);
  match found with
  | None => Ok None
  | Some (resolved, n) => path ← slice_to resolved n; Ok (Some (resolved, n, path))
  end.

(** ** Starting programs *)

(** The words of the arguments; [inl] when there are too many, [inr None] when one is no
    text. *)
Fixpoint argument_words (fuel room : nat) (remaining : list Z) : outcome Empty_set (option (option (list (list Z)))) :=
  match remaining with
  | [] => Ok (Some (Some []))
  | _ =>
      match fuel with
      | O => Panic
      | S fuel =>
          let '(argument, rest) := split_first_word remaining in
          match room with
          | O => Ok None
          | S room =>
              if negb (valid_utf8 argument) then Ok (Some None)
              else
                words ← argument_words fuel room rest;
                Ok (option_map (option_map (cons argument)) words)
          end
      end
  end.

Definition split_arguments (raw : list Z) : outcome Empty_set (option (option (list (list Z)))) :=
  argument_words (length raw + 1) (Z.to_nat MAX_PROGRAM_ARGUMENTS) raw.

(** [input_path.and_then(..)] and [output_path.and_then(..)]. *)
Definition open_path (dir : list Z) (path : option (list Z))
  (create : list Z -> Op (Kernel D PT) SchedulerError (flow nat)) : Cmd (option nat) :=
  match path ≫= from_utf8 with
  | None => mret None
  | Some path =>
      found ← pure (resolved_path dir path);
      match found with
      | None => mret None
      | Some (_, _, path) =>
          match from_utf8 path with
          | None => mret None
          | Some path =>
              opened ← attempt_ok (create path);
              match opened with
              | Some (Returned fd) => mret (Some fd)
              | Some Switched => fail InCall
              | None => mret None
              end
          end
      end
  end.

(** [if let Some(fd) = fd { let _ = close_current_fd(fd); }]. *)
Definition close_fd (fd : nat) : Cmd unit := ignore (close_current_fd fd).
Definition close_opened (fd : option nat) : Cmd unit := match fd with Some fd => close_fd fd | None => mret tt end.

Definition load_program (use_ext2 : bool) (side : nat) (path : list Z) (arguments : list (list Z)) :
  Op (Kernel D PT) ProgramError.t LoadedProgram :=
  if use_ext2 then load_from_ext2_with_arguments from_start_address try_new (reserve side) path arguments
  else in_memory (fun cr3 => load_with_arguments from_start_address try_new initrd (reserve side) cr3 path arguments).

(** A program with its descriptors. *)
Definition load_and_spawn (use_ext2 : bool) (side : nat) (path : list Z) (arguments : list (list Z))
  (mappings : list FdMapping) (closes : list nat) : Op (Kernel D PT) ProgramError.t Z :=
  program ← load_program use_ext2 side path arguments;
  spawn_with_fd_mappings_and_closes try_new trampoline (stack_base side) program mappings closes.

Definition launch_plain (use_ext2 : bool) (path : list Z) (arguments : list (list Z)) : Op (Kernel D PT) ProgramError.t Z :=
  if use_ext2 then launch_from_ext2_with_arguments from_start_address try_new trampoline (reserve 0) (stack_base 0) path arguments
  else launch_with_arguments from_start_address try_new trampoline initrd (reserve 0) (stack_base 0) path arguments.

Definition opened_mapping (fd : option nat) (target : nat) : list FdMapping :=
  match fd with Some fd => [mk_fd_mapping fd target] | None => [] end.

Definition free_app_slot (apps : list (option RunningApp)) : option nat := position is_none apps.

(** [running_apps[slot] = Some(..)]. *)
Definition track (slot : nat) (app : RunningApp) : Cmd unit :=
  s ← get;
  apps ← pure (set_index (sh_apps s) slot (Some app));
  put (set_apps apps s).

(** [launch_app] when there are redirections. *)
Definition launch_redirected (dir : list Z) (use_ext2 : bool) (path : list Z) (arguments : list (list Z))
  (input_path output_path : option (list Z)) : Cmd (option (Z + ProgramError.t)) :=
  input_fd ← open_path dir input_path create_file_read_for_current;
  if negb (is_none input_path) && is_none input_fd
  then _ ← println (str "Could not open input file."); mret None
  else
    output_fd ← open_path dir output_path create_file_write_for_current;
    if negb (is_none output_path) && is_none output_fd
    then
      _ ← close_opened input_fd;
      _ ← println (str "Could not open output file.");
      mret None
    else
      let mappings := opened_mapping input_fd STDIN ++ opened_mapping output_fd STDOUT in
      let closes := option_list input_fd ++ option_list output_fd in
      launched ← attempt (load_and_spawn use_ext2 0 path arguments mappings closes);
      _ ← for_op closes close_fd;
      mret (Some launched).

Definition launch_app (command_arguments dir : list Z) (use_ext2 : bool) : Cmd unit :=
  s ← get;
  match free_app_slot (sh_apps s) with
  | None => println (str "App tracking is full; wait for an app to finish.")
  | Some slot =>
      '(command_arguments, input_path, output_path, valid_redirects) ← pure (split_redirections command_arguments);
      if negb valid_redirects then println (str "Usage: app [args...] [< input] [> output]")
      else
        let '(path, raw_arguments) := split_first_word command_arguments in
        if negb (valid_utf8 path) then println (str "Invalid app path.")
        else
          found ← pure (resolved_path dir path);
          match found with
          | None => println (str "Invalid app path.")
          | Some (resolved, path_len, path) =>
              if negb (valid_utf8 path) then println (str "Invalid app path.")
              else
                words ← pure (split_arguments raw_arguments);
                match words with
                | None => println (str "Too many arguments (maximum " ++ number MAX_PROGRAM_ARGUMENTS ++ str ").")
                | Some None => println (str "App arguments must be valid UTF-8.")
                | Some (Some arguments) =>
                    launched ← (if negb (is_none input_path) || negb (is_none output_path)
                                then launch_redirected dir use_ext2 path arguments input_path output_path
                                else r ← attempt (launch_plain use_ext2 path arguments); mret (Some r));
                    match launched with
                    | None => mret tt
                    | Some (inl task) =>
                        display ← pure (copy_at (replicate PATH_CAPACITY 0%Z) 0 path);
                        _ ← track slot (mk_app task display path_len);
                        println (str "Started " ++ path ++ str " as user task " ++ number task ++ str ".")
                    | Some (inr e) => println_error (str "Could not start app: ") (OfProgram e)
                    end
                end
          end
  end.

(** The closure [spawn] of [launch_pipeline]: the task, and the path it was started from. *)
Definition spawn_side (dir spec : list Z) (use_ext2 : bool) (side : nat) (mappings : list FdMapping)
  (closes : list nat) : Cmd (option (Z * list Z * nat)) :=
  let '(path, raw_arguments) := split_first_word spec in
  if negb (valid_utf8 path) then mret None
  else
    found ← pure (resolved_path dir path);
    match found with
    | None => mret None
    | Some (resolved, path_len, path) =>
        if negb (valid_utf8 path) then mret None
        else
          words ← pure (split_arguments raw_arguments);
          match words with
          | Some (Some arguments) =>
              task ← attempt_ok (load_and_spawn use_ext2 side path arguments mappings closes);
              mret ((fun task => (task, resolved, path_len)) <$> task)
          | _ => mret None
          end
    end.

(** The first free slot after [first]. *)
Definition next_free_slot (first : nat) (apps : list (option RunningApp)) : option nat :=
  (fun i => (first + 1 + i)%nat) <$> position is_none (drop (first + 1) apps).

(** The descriptors of the two programs. *)
Definition first_mappings (input_fd : option nat) (write_fd : nat) : list FdMapping :=
  opened_mapping input_fd STDIN ++ [mk_fd_mapping write_fd STDOUT].
Definition first_closes (input_fd : option nat) (read_fd write_fd : nat) : list nat :=
  match input_fd with Some input_fd => [read_fd; input_fd] | None => [read_fd; write_fd] end.
Definition second_mappings (output_fd : option nat) (read_fd : nat) : list FdMapping :=
  mk_fd_mapping read_fd STDIN :: opened_mapping output_fd STDOUT.
Definition second_closes (output_fd : option nat) (write_fd : nat) : list nat := write_fd :: option_list output_fd.

(** The end of [launch_pipeline]: both programs are tracked, or a message. *)
Definition track_pipeline (first_slot second_slot : nat) (first second : option (Z * list Z * nat)) : Cmd unit :=
  match first with
  | None => println (str "Could not start the left side of the pipeline.")
  | Some (first_task, first_path, first_len) =>
      match second with
      | None => println (str "Could not start the right side of the pipeline.")
      | Some (second_task, second_path, second_len) =>
          _ ← track first_slot (mk_app first_task first_path first_len);
          _ ← track second_slot (mk_app second_task second_path second_len);
          println (str "Started pipeline as user tasks " ++ number first_task ++ str " and " ++ number second_task ++ str ".")
      end
  end.

(** [launch_pipeline] from the pipe on. *)
Definition start_pipeline (dir left_spec right_spec : list Z) (left_ext2 right_ext2 : bool) (input_path output_path : option (list Z))
  (first_slot second_slot : nat) : Cmd unit :=
  pipe ← attempt create_pipe_for_current;
  match pipe with
  | inr e => println_error (str "Could not create pipeline: ") (OfScheduler e)
  | inl (read_fd, write_fd) =>
      input_fd ← open_path dir input_path create_file_read_for_current;
      if negb (is_none input_path) && is_none input_fd
      then _ ← println (str "Could not open input file."); _ ← close_fd read_fd; close_fd write_fd
      else
        output_fd ← open_path dir output_path create_file_write_for_current;
        if negb (is_none output_path) && is_none output_fd
        then _ ← println (str "Could not open output file."); _ ← close_fd read_fd; close_fd write_fd
        else
          first ← spawn_side dir left_spec left_ext2 0 (first_mappings input_fd write_fd) (first_closes input_fd read_fd write_fd);
          second ← spawn_side dir right_spec right_ext2 1 (second_mappings output_fd read_fd) (second_closes output_fd write_fd);
          _ ← close_fd read_fd;
          _ ← close_fd write_fd;
          _ ← close_opened output_fd;
          _ ← close_opened input_fd;
          track_pipeline first_slot second_slot first second
  end.

Definition PIPE : Z := 124.

Definition launch_pipeline (line dir : list Z) (dir_is_ext2 : bool) : Cmd unit :=
  match position (Z.eqb PIPE) line with
  | None => mret tt
  | Some separator =>
      let left_spec := trim_spaces (take separator line) in
      let right_spec := trim_spaces (drop (separator + 1) line) in
      let '(left_spec, left_ext2) := pipeline_command left_spec dir_is_ext2 in
      let '(right_spec, right_ext2) := pipeline_command right_spec dir_is_ext2 in
      '(left_spec, input_path, left_output, left_valid) ← pure (split_redirections left_spec);
      '(right_spec, right_input, output_path, right_valid) ← pure (split_redirections right_spec);
      if negb (is_none left_output) || negb (is_none right_input) || negb left_valid || negb right_valid
      then println (str "Usage: [app] [< input] | [app] [> output]")
      else if bool_decide (left_spec = []) || bool_decide (right_spec = [])
      then println (str "Usage: run <app> [args...] | run <app> [args...]")
      else
        s ← get;
        match free_app_slot (sh_apps s) with
        | None => println (str "App tracking is full; wait for an app to finish.")
        | Some first_slot =>
            match next_free_slot first_slot (sh_apps s) with
            | None => println (str "App tracking needs two free slots.")
            | Some second_slot =>
                start_pipeline dir left_spec right_spec left_ext2 right_ext2 input_path output_path first_slot second_slot
            end
        end
  end.

(** ** The programs that run *)

Definition task_state (id : Z) : Op (Kernel D PT) SchedulerError TaskState :=
  on_sched (t ← task id; mret (t_state t)).
Definition task_exit_code (id : Z) : Op (Kernel D PT) SchedulerError (option Z) :=
  on_sched (t ← task id; mret (t_exit_code t)).

Definition print_prompt : Cmd unit :=
  s ← get;
  dir ← pure (current_dir s);
  _ ← print (match from_utf8 dir, sh_dir_is_ext2 s with
             | None, _ => str "leafos:/> "
             | Some [], true => str "leafos:ext2:/> "
             | Some [], false => str "leafos:/> "
             | Some path, true => str "leafos:ext2:/" ++ path ++ str "> "
             | Some path, false => str "leafos:/" ++ path ++ str "> "
             end);
  show BeginInput.

Definition redraw_command_line (line : LineEditor) : Cmd unit :=
  bytes ← pure (as_bytes line);
  show (RedrawInput bytes (LineEdit.cursor line)).

(** [if !finished_any { finish_input_line(); }]. *)
Definition leave_input (finished_any : bool) : Cmd unit := if finished_any then mret tt else show FinishInput.

Definition forget_app (slot : nat) : Cmd unit := modify (fun s => set_apps (<[slot := None]> (sh_apps s)) s).

(** A program that has ended. *)
Definition report_ended (slot : nat) (app : RunningApp) (finished_any : bool) : Cmd unit :=
  let id := number (app_task app) in
  _ ← leave_input finished_any;
  path ← pure (slice_to (app_path app) (app_path_len app));
  path ← pure (expect (from_utf8 path));
  code ← attempt (task_exit_code (app_task app));
  _ ← match code with
      | inl (Some code) => println (str "App " ++ path ++ str " (task " ++ id ++ str ") exited with status " ++ number code ++ str ".")
      | inl None => println (str "App " ++ path ++ str " (task " ++ id ++ str ") terminated without an exit status.")
      | inr e => println_error (str "Could not read exit status for app task " ++ id ++ str ": ") (OfScheduler e)
      end;
  reaped ← attempt (reap_terminated try_new (app_task app));
  _ ← match reaped with
      | inl _ => mret tt
      | inr e => println_error (str "Could not release app task " ++ id ++ str ": ") (OfScheduler e)
      end;
  forget_app slot.

(** [report_finished_apps], for one slot. *)
Definition report_slot (slot : nat) (finished_any : bool) : Cmd bool :=
  s ← get;
  match sh_apps s !! slot with
  | Some (Some app) =>
      state ← attempt (task_state (app_task app));
      match state with
      | inl Terminated => _ ← report_ended slot app finished_any; mret true
      | inl _ => mret finished_any
      | inr e =>
          _ ← leave_input finished_any;
          _ ← println_error (str "Could not monitor app task " ++ number (app_task app) ++ str ": ") (OfScheduler e);
          _ ← forget_app slot;
          mret true
      end
  | _ => mret finished_any
  end.

Fixpoint report_slots (slots : list nat) (finished_any : bool) : Cmd bool :=
  match slots with
  | [] => mret finished_any
  | slot :: slots => finished_any ← report_slot slot finished_any; report_slots slots finished_any
  end.

Definition report_finished_apps (line : LineEditor) : Cmd unit :=
  s ← get;
  finished_any ← report_slots (seq 0 (length (sh_apps s))) false;
  if finished_any : bool then _ ← print_prompt; redraw_command_line line else mret tt.

(** [terminate_task] of the scheduler. *)
Definition stop_task (id exit_code : Z) : Cmd (unit + SchedulerError) := attempt (on_sched (terminate_task id exit_code)).

Fixpoint interrupt_apps (apps : list RunningApp) (interrupted : bool) : Cmd bool :=
  match apps with
  | [] => mret interrupted
  | app :: apps =>
      stopped ← stop_task (app_task app) 130;
      match stopped with
      | inl _ => interrupt_apps apps true
      | inr InvalidState => interrupt_apps apps interrupted
      | inr e =>
          _ ← println_error (str "Could not interrupt app task " ++ number (app_task app) ++ str ": ") (OfScheduler e);
          interrupt_apps apps interrupted
      end
  end.

Definition interrupt_running_apps : Cmd bool := s ← get; interrupt_apps (omap id (sh_apps s)) false.

Definition running_app_count (apps : list (option RunningApp)) : nat := length (omap id apps).

End shell.
