(* ===== verification/ShellRun.v ===== *)
(** * The commands of the shell and its loop

    [execute], [edit_disk_file] and [run] of [shell/mod.rs]: what every command does to the
    kernel, the disk, the current directory and the programs it follows, and what it
    prints.  A command that waits, for time or for keys, returns to the loop with what it
    waits for. *)

From Stdlib Require Import Ascii String.
From S2P Require Import Prelude Ring Input Timer Utf8 Chars LineEdit TextEdit FileSystem Tar Fd FrameAlloc UserRange Paging Scheduler Kernel UserProgram ShellParse Shell.

#[local] Open Scope Z_scope.

(** What a command leaves: nothing, a sleep of the shell's task, the editor with the name
    of its file, or a processor that is halted. *)
Inductive Rest :=
| Done
| Asleep
| Editing (name : list Z) (editor : TextEditor)
| Off.

Section commands.
Context {D : Type} `{FileSystem D Ext2Error.t} `{!Directories D}.
Context {PT : Type} `{Mapper PT} `{DirectMap PT}.
Variable from_start_address : Z -> option Z.
Variable try_new : Z -> option Z.
Variable trampoline : Z.
Variable initrd : Mounted.
Variable reserve : nat -> nat -> bool.
Variable stack_base : nat -> Z.

(** [mapped_bytes] of the heap, and what the processor says of itself. *)
Variable mapped_bytes : Z.
Variable cpu_brand cpu_vendor : option (list Z).
Variable physical_bits : option Z.

Abbreviation Sh := (Shell D PT).
Abbreviation Cmd := (Op Sh Stopped).

Definition println_of (text : string) : Cmd unit := println (str text).

(** The line of an entry of a directory. *)
Definition print_entry (entry : list Z * bool * Z) : Cmd unit :=
  let '(name, is_dir, size) := entry in
  if is_dir then println (str "       " ++ name ++ str "/")
  else println (pad 32 6 (number size) ++ str "  " ++ name).

(** [for_each_entry] of the disk and of the archive, with the lines it prints. *)
Definition list_ext2 (directory : list Z) : Cmd unit :=
  listed ← on_ext2 (fun d => let '(d, visits, r) := fs_for_each_entry directory d in
                             (d, match r with Panic => Panic | r => Ok (visits, r) end));
  match listed with
  | inr e => println_error (str "ext2 error: ") (OfExt2 e)
  | inl (visits, r) =>
      _ ← for_op visits print_entry;
      match r with Err e => println_error (str "ext2 error: ") (OfExt2 e) | _ => mret tt end
  end.

Definition list_initrd (directory : list Z) : Cmd unit :=
  let '(visits, r) := for_each_entry initrd directory [] in
  _ ← for_op visits print_entry;
  r ← lift (called r);
  match r with
  | inl _ => mret tt
  | inr e => println_error (str "Filesystem error: ") (OfFs e)
  end.

(** [match directory_exists(..)] of the disk. *)
Definition with_ext2_directory (directory : list Z) (missing : list Z) (yes : Cmd unit) : Cmd unit :=
  found ← on_ext2 (fs_directory_exists directory);
  match found with
  | inl true => yes
  | inl false => println (missing ++ directory)
  | inr e => println_error (str "ext2 error: ") (OfExt2 e)
  end.

Definition list_files (path : list Z) : Cmd unit :=
  s ← get;
  dir ← pure (current_dir s);
  found ← pure (resolve_directory_path dir path (replicate PATH_CAPACITY 0%Z));
  match found with
  | None => println_of "Invalid path."
  | Some (resolved, n) =>
      directory ← pure (slice_to resolved n);
      if negb (valid_utf8 directory) then println_of "Invalid path."
      else if sh_dir_is_ext2 s
      then with_ext2_directory directory (str "Directory not found: ") (list_ext2 directory)
      else
        found ← lift (called (directory_exists initrd directory));
        match found with
        | inl true => list_initrd directory
        | inl false => println (str "Directory not found: " ++ directory)
        | inr e => println_error (str "Filesystem error: ") (OfFs e)
        end
  end.

(** The contents of a file, as text. *)
Definition print_text (contents : list Z) : Cmd unit :=
  if valid_utf8 contents
  then
    _ ← print contents;
    if bool_decide (last contents = Some newline) then mret tt else print [newline]
  else println_of "File is not UTF-8 text.".

Definition CAT_CAPACITY : nat := Z.to_nat 2048.

(** [read_file] of the disk with a buffer. *)
Definition read_ext2 (path buffer : list Z) : Cmd ((list Z * option (nat * Z)) + Ext2Error.t) :=
  on_ext2 (fun d => let '(d, output, r) := fs_read_file path buffer d in
                    (d, match r with Ok found => Ok (output, found) | Err e => Err e | Panic => Panic end)).

Definition cat_ext2 (path missing : list Z) : Cmd unit :=
  found ← read_ext2 path (replicate CAT_CAPACITY 0%Z);
  match found with
  | inr e => println_error (str "ext2 error: ") (OfExt2 e)
  | inl (_, None) => println (missing ++ path)
  | inl (contents, Some (copied, total)) =>
      text ← pure (slice_to contents copied);
      _ ← print_text text;
      if Z.of_nat copied <? total
      then println (str "[output truncated at " ++ number (Z.of_nat copied) ++ str " bytes]")
      else mret tt
  end.

Definition cat_initrd (path : list Z) : Cmd unit :=
  found ← lift (called (Tar.read_file initrd path));
  match found with
  | inl (Some contents) =>
      _ ← print_text (take CAT_CAPACITY contents);
      if 2048 <? Z.of_nat (length contents) then println_of "[output truncated at 2048 bytes]" else mret tt
  | inl None => println (str "File not found: " ++ path)
  | inr e => println_error (str "Filesystem error: ") (OfFs e)
  end.

Definition cat (name : list Z) : Cmd unit :=
  if negb (valid_utf8 name) || bool_decide (name = []) then println_of "Usage: cat <filename>"
  else
    s ← get;
    dir ← pure (current_dir s);
    found ← pure (resolved_path dir name);
    match found with
    | None => println_of "Invalid path."
    | Some (_, _, path) =>
        if negb (valid_utf8 path) then println_of "Invalid path."
        else if sh_dir_is_ext2 s then cat_ext2 path (str "File not found: ") else cat_initrd path
    end.

Definition disk_list (path : list Z) : Cmd unit :=
  if valid_utf8 path then with_ext2_directory path (str "Disk directory not found: /") (list_ext2 path)
  else println_of "Usage: diskls [path]".

Definition disk_cat (path : list Z) : Cmd unit :=
  if negb (valid_utf8 path) || bool_decide (path = []) then println_of "Usage: diskcat <path>"
  else cat_ext2 path (str "Disk file not found: ").

(** The commands on a name of the disk: the two usages, then the path it resolves to. *)
Definition on_ext2_path (name : list Z) (usage usage_path : string) (f : list Z -> Cmd Rest) : Cmd Rest :=
  if negb (valid_utf8 name) then _ ← println_of usage; mret Done
  else
    s ← get;
    dir ← pure (current_dir s);
    found ← pure (resolve_ext2_command_path dir name (sh_dir_is_ext2 s) (replicate PATH_CAPACITY 0%Z));
    match found with
    | None => _ ← println_of usage_path; mret Done
    | Some (resolved, n) =>
        path ← pure (slice_to resolved n);
        if valid_utf8 path then f path else _ ← println_of usage_path; mret Done
    end.

(** A change of the disk and what is said of it. *)
Definition change_disk (change : D -> D * outcome Ext2Error.t unit) (done : list Z) (failed : string) : Cmd Rest :=
  r ← on_ext2 change;
  _ ← match r with
      | inl _ => println done
      | inr e => println_error (str failed) (OfExt2 e)
      end;
  mret Done.

Definition disk_write_command (name contents : list Z) : Cmd Rest :=
  on_ext2_path name "Usage: diskwrite <name> <text>" "Usage: diskwrite <path> [text]" (fun path =>
    change_disk (fs_write_file path contents)
      (str "Wrote " ++ number (Z.of_nat (length contents)) ++ str " bytes to /" ++ path ++ str ".") "ext2 write error: ").

Definition make_directory (name : list Z) : Cmd Rest :=
  on_ext2_path name "Usage: mkdir <name>" "Usage: mkdir <path>" (fun path =>
    change_disk (fs_create_directory path) (str "Created /" ++ path ++ str ".") "ext2 mkdir error: ").

Definition remove_file_command (name : list Z) : Cmd Rest :=
  on_ext2_path name "Usage: rm <name>" "Usage: rm <path>" (fun path =>
    change_disk (fs_remove_file path) (str "Removed /" ++ path ++ str ".") "ext2 rm error: ").

Definition remove_directory (name : list Z) : Cmd Rest :=
  on_ext2_path name "Usage: rmdir <name>" "Usage: rmdir <path>" (fun path =>
    change_disk (fs_remove_empty_directory path) (str "Removed empty directory /" ++ path ++ str ".") "ext2 rmdir error: ").

(** ** The text editor *)

Definition ext2_parent_path (path : list Z) : list Z :=
  match rposition (Z.eqb 47) path with Some separator => take separator path | None => [] end.

Definition print_missing_edit_parent (path : list Z) : Cmd unit :=
  let parent := ext2_parent_path path in
  _ ← println (str "Invalid path: parent directory '/" ++ parent ++ str "' does not exist.");
  println (str "Create it first with: mkdir " ++ parent).

Definition editable_component (component : list Z) : bool :=
  negb (bool_decide (component = [])) && (length component <=? 255)%nat
  && negb (bool_decide (component = str ".")) && negb (bool_decide (component = str ".."))
  && forallb name_byte component.

Definition render_text_editor (name : list Z) (editor : TextEditor) : Cmd unit :=
  text ← pure (as_text editor);
  show (ShowEditor name text (t_cursor editor) (t_dirty editor)).

(** The file is opened: [Editing], or a message. *)
Definition read_text (name : list Z) : Cmd Rest :=
  found ← read_ext2 name (replicate EDITOR_MAX_BYTES 0%Z);
  match found with
  | inr e => _ ← println_error (str "ext2 read error: ") (OfExt2 e); mret Done
  | inl (contents, found) =>
      let '(copied, total) := match found with Some (copied, total) => (copied, total) | None => (0%nat, 0) end in
      if Z.of_nat EDITOR_MAX_BYTES <? total
      then _ ← println (str "Editor supports files up to " ++ number (Z.of_nat EDITOR_MAX_BYTES) ++ str " bytes."); mret Done
      else
        let contents := take copied contents in
        if negb (valid_utf8 contents) then _ ← println_of "Editor only supports UTF-8 text files."; mret Done
        else
          let editor := mk_text contents copied false in
          _ ← render_text_editor name editor;
          mret (Editing name editor)
  end.

Definition edit_disk_file (name : list Z) : Cmd Rest :=
  if bool_decide (name = []) || negb (forallb editable_component (split_slash name))
  then _ ← println_of "Editor supports safe ext2 paths only."; mret Done
  else
    found ← on_ext2 (fs_directory_exists (ext2_parent_path name));
    match found with
    | inl true => read_text name
    | inl false => _ ← print_missing_edit_parent name; mret Done
    | inr e => _ ← println_error (str "ext2 directory check error: ") (OfExt2 e); mret Done
    end.

Definition edit_command (name : list Z) : Cmd Rest :=
  on_ext2_path name "Usage: edit <filename>" "Usage: edit <path>" edit_disk_file.

(** What the editor waits for: a key, or the answer to the question whether changes are
    thrown away; or it was left. *)
Inductive EditorState :=
| Typing (editor : TextEditor)
| Confirming (editor : TextEditor)
| Closed.

(** Ctrl-S. *)
Definition save_text (name : list Z) (editor : TextEditor) : Cmd EditorState :=
  saved ← on_ext2 (fs_write_file name (t_bytes editor));
  _ ← show ClearConsole;
  match saved with
  | inl _ =>
      _ ← println (newline :: str "Saved /" ++ name ++ str " (" ++ number (Z.of_nat (length (t_bytes editor))) ++ str " bytes).");
      mret Closed
  | inr e =>
      _ ← (if bool_decide (e = Ext2Error.NotFound)
           then _ ← print [newline]; print_missing_edit_parent name
           else println_error (newline :: str "ext2 write error: ") (OfExt2 e));
      _ ← render_text_editor name editor;
      mret (Typing editor)
  end.

(** Ctrl-Q and Escape. *)
Definition leave_editor (editor : TextEditor) : Cmd EditorState :=
  _ ← show ClearConsole;
  if t_dirty editor
  then
    _ ← println (newline :: str "Unsaved changes. Press Y to discard, any other key to continue.");
    mret (Confirming editor)
  else _ ← println (newline :: str "Editor closed without changes."); mret Closed.

Definition printable (key : Z) : bool := (0x20 <=? key) && (key <=? 0x7e).

(** One key of the loop of [edit_disk_file]. *)
Definition editor_key (name : list Z) (editor : TextEditor) (key : Z) : Cmd EditorState :=
  if key =? 0x13 then save_text name editor
  else if (key =? 0x11) || (key =? 0x1b) then leave_editor editor
  else
    let '(editor, r) := edit_key key editor in
    changed ← pure r;
    _ ← (if changed : bool then render_text_editor name editor
         else if (length (t_bytes editor) =? EDITOR_MAX_BYTES)%nat && ((key =? newline) || printable key)
         then
           _ ← show ClearConsole;
           _ ← println (newline :: str "File is at the " ++ number (Z.of_nat EDITOR_MAX_BYTES) ++ str " byte editor limit.");
           render_text_editor name editor
         else mret tt);
    mret (Typing editor).

(** The answer to the question. *)
Definition confirm_key (name : list Z) (editor : TextEditor) (key : Z) : Cmd EditorState :=
  if (key =? 89) || (key =? 121)
  then _ ← show ClearConsole; _ ← println_of "Changes discarded."; mret Closed
  else _ ← render_text_editor name editor; mret (Typing editor).

(** ** The other commands *)

Definition set_current_dir (resolved : list Z) (n : nat) (ext2 : bool) : Cmd unit :=
  s ← get;
  path ← pure (slice_to resolved n);
  dir ← pure (copy_at (sh_dir s) 0 path);
  put (set_dir dir n ext2 s).

Definition change_directory (path : list Z) : Cmd unit :=
  if bool_decide (path = []) || bool_decide (path = str "/")
  then modify (fun s => set_dir (sh_dir s) 0 false s)
  else
    s ← get;
    dir ← pure (current_dir s);
    found ← pure (resolved_path dir path);
    match found with
    | None => println_of "Invalid path."
    | Some (resolved, n, directory) =>
        if negb (valid_utf8 directory) then println_of "Invalid path."
        else if sh_dir_is_ext2 s
        then with_ext2_directory directory (str "Directory not found: /") (set_current_dir resolved n true)
        else
          found ← lift (called (directory_exists initrd directory));
          match found with
          | inl true => set_current_dir resolved n false
          | inl false => with_ext2_directory directory (str "Directory not found: /") (set_current_dir resolved n true)
          | inr e => println_error (str "Filesystem error: ") (OfFs e)
          end
    end.

Definition print_working_directory : Cmd unit :=
  s ← get;
  dir ← pure (current_dir s);
  if negb (valid_utf8 dir) then println_of "Invalid current directory."
  else println ((if sh_dir_is_ext2 s then str "ext2:/" else str "/") ++ dir).

Definition kill_command (value : list Z) : Cmd unit :=
  match parse_task_id value with
  | None => println_of "Usage: kill <task-id>"
  | Some id =>
      stopped ← stop_task id 143;
      match stopped with
      | inl _ => println (str "Terminated task " ++ number id ++ str ".")
      | inr InvalidState => println (str "Task " ++ number id ++ str " is running, idle, or already terminated.")
      | inr UnknownTask => println (str "Unknown task " ++ number id ++ str ".")
      | inr e => println_error (str "Could not terminate task " ++ number id ++ str ": ") (OfScheduler e)
      end
  end.

(** [timer::sleep_ticks]: the scheduler puts the task to sleep; before it runs tasks, the
    polling loop of [Timer.v] waits. *)
Definition sleep_command (value : list Z) : Cmd Rest :=
  match parse_sleep_seconds value with
  | Some seconds =>
      if seconds <=? MAX_SLEEP_SECONDS
      then
        _ ← println (str "Sleeping for " ++ number seconds ++ str " second(s)...");
        slept ← attempt (sleep_ticks (seconds * TICKS_PER_SECOND));
        match slept with
        | inl (Returned _) => _ ← println_of "Awake."; mret Done
        | inl Switched | inr NotStarted => mret Asleep
        | inr _ => fail InCall
        end
      else _ ← println_of "Usage: sleep <seconds> (0-3600)"; mret Done
  | None => _ ← println_of "Usage: sleep <seconds> (0-3600)"; mret Done
  end.

Definition print_process_list : Cmd unit :=
  s ← get;
  let rows := omap id (task_snapshot (k_sched (sh_kernel s))) in
  _ ← println_of "ID   PARENT  STATE       EXIT  TYPE";
  _ ← for_op rows (fun row => show (PutTask row));
  println (number (Z.of_nat (length rows)) ++ str " scheduled task(s).").

Definition print_hardware_info : Cmd unit :=
  _ ← println (str "CPU: " ++ default (str "unknown CPU") cpu_brand);
  _ ← println (str "Vendor: " ++ default (str "unknown") cpu_vendor);
  println (str "Physical address width: " ++ number (default 0 physical_bits) ++ str " bits").

Definition print_uptime : Cmd unit :=
  s ← get;
  let '(days, hours, minutes, seconds) := split_uptime (uptime_seconds (k_ticks (sh_kernel s))) in
  let two n := pad 48 2 (number n) in
  println (str "Uptime: " ++ number days ++ str "d " ++ two hours ++ str ":" ++ two minutes ++ str ":" ++ two seconds).

Definition print_heap : Cmd unit := println (str "Heap mapped: " ++ number (mapped_bytes / 1024) ++ str " KiB").

Definition version : list Z := str "0.2.0".

Definition print_system_info : Cmd unit :=
  s ← get;
  let task_count := length (omap id (task_snapshot (k_sched (sh_kernel s)))) in
  _ ← println (str "LeafOS kernel v" ++ version);
  _ ← println_of "Architecture: x86_64 | firmware: UEFI";
  _ ← print_uptime;
  _ ← print_heap;
  _ ← println (str "Scheduled tasks: " ++ number (Z.of_nat task_count) ++ str "/" ++ number (Z.of_nat MAX_TASKS));
  _ ← println (str "Timer: " ++ number TICKS_PER_SECOND ++ str " Hz PIT | filesystems: read-only initrd, ext2 data disk");
  print_hardware_info.

Definition print_os_info : Cmd unit :=
  s ← get;
  _ ← println (str "LeafOS kernel v" ++ version);
  _ ← println_of "Architecture: x86_64";
  _ ← println_of "Firmware interface: UEFI";
  println (str "Kernel uptime: " ++ number (uptime_seconds (k_ticks (sh_kernel s))) ++ str " seconds").

Definition print_software_info : Cmd unit :=
  _ ← println (str "Kernel: LeafOS v" ++ version);
  _ ← println_of "Shell: built-in kernel task";
  _ ← println (str "Scheduler: round-robin, preempted at " ++ number TICKS_PER_SECOND ++ str " Hz");
  _ ← println (str "Task limit: " ++ number (Z.of_nat MAX_TASKS) ++ str " scheduled tasks");
  _ ← println_of "Memory: linked-list heap with demand mapping";
  println_of "Storage: read-only initrd and ext2 data disk".

Definition help_lines : list string := [
  "Common commands:";
  "  help                     Show this command list";
  "  cls / clear / clr        Clear the screen";
  "  echo <text>              Print text to the terminal";
  "  mem                     Show memory usage";
  "  uptime                  Show time since kernel startup";
  "  sleep <seconds>          Wait up to one hour";
  "  ls [path] / dir [path]   List files in a directory";
  "  cat <path>               Read a text file";
  "  cd [path]                Change directories";
  "  pwd                     Print the current directory";
  "  diskls [path]            List files on the ext2 data disk";
  "  diskcat <path>           Read a file from the ext2 data disk";
  "  diskwrite <path> [text]  Write a text file to the ext2 disk";
  "  mkdir <path>             Create an ext2 directory";
  "  rm <path>                Remove an ext2 file";
  "  rmdir <path>             Remove an empty ext2 directory";
  "  edit <path>              Edit a UTF-8 text file on the ext2 disk";
  "  run <app> [args...]       Start an app from the current filesystem";
  "  diskrun <app> [args...]   Start an app from the ext2 data disk";
  "  app ... > <path>          Redirect app stdout to an ext2 file";
  "  app ... < <path>          Read app stdin from an ext2 file";
  "  Up/Down                  Browse command history";
  "  PageUp/PageDown          Scroll terminal output; Esc returns";
  "  Left/Right, Home/End     Edit the command line";
  "  set col <color>          Change the terminal foreground color";
  "  set res <w>:<h>          Check the requested resolution";
  "  info [ -os | -hw | -sw ] Show detailed system information";
  "  ps / processes          List scheduled tasks";
  "  kill <task-id>          Terminate a non-running task";
  "  shutdown / sd            Power off the system - DO NOT USE (halts cpu)" ]%string.

Definition set_color_command (value : list Z) : Cmd unit :=
  match parse_color value with
  | Some (red, green, blue) => _ ← show (Recolor red green blue); println_of "Text color updated."
  | None => println_of "Use green, white, red, yellow, cyan, default, or #RRGGBB."
  end.

(** [run] and [diskrun]. *)
Definition run_command (path : list Z) : Cmd unit :=
  if bool_decide (path = []) then println_of "Usage: run <path.app|path.bin> [args...]"
  else
    s ← get;
    dir ← pure (current_dir s);
    launch_app from_start_address try_new trampoline initrd reserve stack_base path dir (sh_dir_is_ext2 s).

Definition disk_run_command (path : list Z) : Cmd unit :=
  if bool_decide (path = []) then println_of "Usage: diskrun <path.app|path.bin> [args...]"
  else
    s ← get;
    dir ← (if sh_dir_is_ext2 s then pure (current_dir s) else mret []);
    launch_app from_start_address try_new trampoline initrd reserve stack_base path dir true.

Definition done (m : Cmd unit) : Cmd Rest := _ ← m; mret Done.

(** The [match] of [execute]. *)
Definition run_parsed (command : Command) : Cmd Rest :=
  match command with
  | Help => done (for_op help_lines println_of)
  | Clear => done (show ClearConsole)
  | Echo text => done (if valid_utf8 text then println text else mret tt)
  | Memory => done print_heap
  | Uptime => done print_uptime
  | Sleep value => sleep_command value
  | Processes => done print_process_list
  | Kill value => done (kill_command value)
  | Run path => done (run_command path)
  | DiskRun path => done (disk_run_command path)
  | ListFiles path => done (list_files path)
  | Cat name => done (cat name)
  | DiskList path => done (disk_list path)
  | DiskCat path => done (disk_cat path)
  | DiskWrite name contents => disk_write_command name contents
  | MakeDirectory name => make_directory name
  | RemoveFile name => remove_file_command name
  | RemoveDirectory name => remove_directory name
  | Edit name => edit_command name
  | ChangeDirectory path => done (change_directory path)
  | PrintWorkingDirectory => done print_working_directory
  | Settings => done (println_of "set col <name|#RRGGBB> | set res <width>:<height>")
  | SetColor value => done (set_color_command value)
  | SetResolution value =>
      done (println_of (if valid_resolution value
                        then "Resolution is selected by UEFI at boot and cannot be changed yet."
                        else "Usage: set res <width>:<height>"))
  | Info => done print_system_info
  | InfoOs => done print_os_info
  | InfoHardware => done print_hardware_info
  | InfoSoftware => done print_software_info
  | Shutdown => _ ← println_of "Shutting down..."; mret Off
  | Unknown => done (println_of "Unknown command. Type 'help'.")
  | Empty => mret Done
  end.

Definition execute (line : list Z) : Cmd Rest :=
  if existsb (Z.eqb PIPE) line
  then
    s ← get;
    dir ← pure (current_dir s);
    done (launch_pipeline from_start_address try_new trampoline initrd reserve stack_base line dir (sh_dir_is_ext2 s))
  else run_parsed (parse_command line).

(** ** The loop *)

(** What the loop is doing: reading the command line, or inside a command, with the number
    of programs it followed before the command. *)
Inductive Mode :=
| Prompting
| Waiting (apps_before : nat)
| InEditor (apps_before : nat) (name : list Z) (state : EditorState)
| Halted.

(** The variables of [run]. *)
Record Running := mk_running {
  r_shell : Sh;
  r_line : LineEditor;
  r_history : CommandHistory;
  r_mode : Mode;
}.

Abbreviation Round := (Op Running Stopped).

Definition on_shell {A} (m : Cmd A) : Round A := fun r =>
  let '(s, a) := m (r_shell r) in (mk_running s (r_line r) (r_history r) (r_mode r), a).
Definition on_command_line {A} (m : Method (CommandHistory * LineEditor) A) : Round A := fun r =>
  let '((h, l), a) := m (r_history r, r_line r) in (mk_running (r_shell r) l h (r_mode r), own a).
Definition set_mode (mode : Mode) : Round unit := modify (fun r => mk_running (r_shell r) (r_line r) (r_history r) mode).

Definition redraw : Round unit := r ← get; on_shell (redraw_command_line (r_line r)).
Definition redraw_if (changed : bool) : Round unit := if changed then redraw else mret tt.

(** The end of the arm of [Enter], after the command. *)
Definition end_command (apps_before : nat) : Round unit :=
  _ ← on_command_line (on_line line_clear);
  _ ← set_mode Prompting;
  r ← get;
  if (running_app_count (sh_apps (r_shell r)) =? apps_before)%nat then on_shell print_prompt else mret tt.

Definition enter_key : Round unit :=
  _ ← on_command_line (on_line (modify (fun e => mk_line (bytes e) (length_ e) (length_ e))));
  _ ← on_shell (show FinishInput);
  _ ← on_shell (print [newline]);
  line ← on_command_line (on_line (e ← get; lift (as_bytes e)));
  _ ← on_command_line (on_history (record line));
  r ← get;
  let apps_before := running_app_count (sh_apps (r_shell r)) in
  rest ← on_shell (execute line);
  match rest with
  | Done => end_command apps_before
  | Asleep => set_mode (Waiting apps_before)
  | Editing name editor => set_mode (InEditor apps_before name (Typing editor))
  | Off => set_mode Halted
  end.

Definition interrupt_key : Round unit :=
  interrupted ← on_shell (interrupt_running_apps);
  _ ← on_command_line (on_line line_clear);
  _ ← redraw;
  _ ← on_shell (show FinishInput);
  _ ← on_shell (println_of (if interrupted : bool then "^C (applications interrupted)" else "^C"));
  on_shell print_prompt.

(** An edit of the line: when it changed, the browsing of the history ends and the line is
    drawn again. *)
Definition edit_round (m : Method LineEditor bool) : Round unit :=
  changed ← on_command_line (on_line m);
  if changed : bool then _ ← on_command_line (on_history abandon_browsing); redraw else mret tt.

Definition move_round (m : Method (CommandHistory * LineEditor) bool) : Round unit :=
  changed ← on_command_line m; redraw_if changed.

Definition goto_round (position : LineEditor -> nat) : Round unit :=
  _ ← on_command_line (on_line (modify (fun e => mk_line (bytes e) (length_ e) (position e))));
  redraw.

(** The second [match key]. *)
Definition command_key (key : Z) : Round unit :=
  if (key =? 10) || (key =? 13) then enter_key
  else if (key =? 0x08) || (key =? 0x7f) then edit_round line_backspace
  else if key =? 0x03 then interrupt_key
  else if key =? 9 then edit_round (line_insert 32)
  else if printable key then edit_round (line_insert key)
  else if key =? KEY_LEFT then move_round (on_line line_left)
  else if key =? KEY_RIGHT then move_round (on_line line_right)
  else if key =? KEY_HOME then goto_round (fun _ => 0%nat)
  else if key =? KEY_END then goto_round length_
  else if key =? KEY_DELETE then edit_round line_delete
  else if key =? KEY_UP then move_round older
  else if key =? KEY_DOWN then move_round newer
  else mret tt.

(** One round of the loop of [run], with the key that was taken from the queue and whether
    the console shows the scrollback when it is asked. *)
Definition prompt_round (key : option Z) (scrolled : bool) : Round unit :=
  r ← get;
  _ ← on_shell (report_finished_apps try_new (r_line r));
  match key with
  | None => mret tt
  | Some key =>
      if key =? KEY_PAGE_UP then _ ← on_shell (show PageUpScreen); redraw_if (negb scrolled)
      else if key =? KEY_PAGE_DOWN then _ ← on_shell (show PageDownScreen); redraw_if (negb scrolled)
      else
        _ ← on_shell (show LeaveScrollback);
        _ ← redraw_if scrolled;
        command_key key
  end.

Definition after_key (apps_before : nat) (name : list Z) (state : EditorState) : Round unit :=
  match state with
  | Closed => end_command apps_before
  | state => set_mode (InEditor apps_before name state)
  end.

(** One round of the loops of [edit_disk_file]. *)
Definition editor_round (apps_before : nat) (name : list Z) (state : EditorState) (key : option Z) : Round unit :=
  match state, key with
  | Typing editor, Some key => state ← on_shell (editor_key name editor key); after_key apps_before name state
  | Confirming editor, Some key => state ← on_shell (confirm_key name editor key); after_key apps_before name state
  | _, _ => mret tt
  end.

(** The shell, from one halt or key to the next; [Waiting] goes on when the sleep is over. *)
Definition shell_round (key : option Z) (scrolled : bool) : Round unit :=
  r ← get;
  match r_mode r with
  | Prompting => prompt_round key scrolled
  | Waiting apps_before => _ ← on_shell (println_of "Awake."); end_command apps_before
  | InEditor apps_before name state => editor_round apps_before name state key
  | Halted => mret tt
  end.

(** The variables of [run] at its start, and its first lines. *)
Definition start_shell (k : Kernel D PT) : Running :=
  mk_running (mk_shell k [] (replicate PATH_CAPACITY 0) 0 false (replicate MAX_TASKS None))
    LineEditor_new CommandHistory_new Prompting.

Definition greet : Round unit :=
  _ ← on_shell (println_of "LeafOS shell. Type 'help' for commands.");
  on_shell print_prompt.

End commands.
