(* ===== verification/ShellOk.v ===== *)
(** * The invariant of the shell

    The state of the shell in every round: a kernel that satisfies its invariant, a current
    directory that is a path of plain names, and programs whose paths are too.  Every
    command and every key keeps it, and none of the shell's own indices, slices and
    conversions panics. *)

From S2P Require Import Prelude Ring Input Timer Utf8 Chars LineEdit TextEdit FileSystem Tar Fd FrameAlloc UserRange Paging Scheduler Kernel KernelOk KernelInv KernelProps UserProgram Syscall SyscallOk ShellParse Shell ShellRun.

(** A path of plain names that fits its array, as a text and in the array. *)
Definition is_path (path : list Z) : Prop :=
  exists st, names st /\ path = path_of st /\ (length path <= PATH_CAPACITY)%nat.
Definition path_in (array : list Z) (n : nat) : Prop := exists st, path_at st array n.

Definition app_ok (app : RunningApp) : Prop := path_in (app_path app) (app_path_len app).
Definition slot_ok (slot : option RunningApp) : Prop := match slot with Some app => app_ok app | None => True end.

Record shell_ok {D PT : Type} `{FileSystem D Ext2Error.t} `{Mapper PT} (kr : Z) (s : Shell D PT) : Prop := mk_shell_ok {
  sk_kernel : kernel_ok kr (sh_kernel s);
  sk_dir : path_in (sh_dir s) (sh_dir_len s);
  sk_slots : length (sh_apps s) = MAX_TASKS;
  sk_apps : Forall slot_ok (sh_apps s);
}.

(** ** Paths *)

Lemma path_of_ascii st : names st -> Forall (fun b => 0 <= b < 128)%Z (path_of st).
Proof.
  intros Hst. assert (forall c, good_name c = true -> Forall (fun b => 0 <= b < 128)%Z c) as Hc.
  { intros c Hc. unfold good_name in Hc. repeat (apply andb_true_iff in Hc as [Hc ?]). apply Forall_forall. intros b Hb.
    match goal with H : forallb name_byte c = true |- _ => rewrite forallb_forall in H; specialize (H b) end.
    assert (name_byte b = true) as Hn by (match goal with H : _ -> name_byte b = true |- _ => apply H end; by apply list_elem_of_In).
    unfold name_byte in Hn. bools; lia. }
  induction st as [|c st IH] using rev_ind; [by apply Forall_nil|]. apply Forall_app in Hst as [Hst [Hn _]%Forall_cons].
  rewrite path_of_snoc. destruct (bool_decide (st = [])); [by apply Hc|]. apply Forall_app. split; [by apply IH|].
  constructor; [lia|by apply Hc].
Qed.

Lemma path_valid path : is_path path -> valid_utf8 path = true.
Proof. intros (st & Hst & -> & _). by apply valid_utf8_ascii, path_of_ascii. Qed.

Lemma path_at_slice st array n : path_at st array n -> slice_to (E := Empty_set) array n = Ok (path_of st) /\ is_path (path_of st).
Proof.
  intros (Hst & -> & z & -> & Hl). split; [apply slice_to_app|]. exists st. split_and!; [done..|]. rewrite <-Hl, length_app. lia.
Qed.

Lemma path_nil : is_path [].
Proof. exists []. split_and!; [by apply Forall_nil|done|cbn; lia]. Qed.

Definition found_in (found : option (list Z * nat)) : Prop := match found with Some (array, n) => path_in array n | None => True end.

Lemma resolve_path_in dir input : is_path dir -> exists r, resolve_path dir input (replicate PATH_CAPACITY 0%Z) = Ok r /\ found_in r.
Proof.
  intros (st & Hst & -> & Hl). destruct (resolve_path_spec st input (replicate PATH_CAPACITY 0%Z)) as (r & -> & Hr);
    [done..|by rewrite length_replicate|].
  exists r. split; [done|]. destruct r as [[array n]|]; [|done]. destruct Hr as (st' & Hat & _). by exists st'.
Qed.

(** What [resolved_path] finds. *)
Definition found_ok (found : option (list Z * nat * list Z)) : Prop :=
  match found with Some (array, n, path) => exists st, path_at st array n /\ path = path_of st /\ is_path path | None => True end.

Lemma resolved_path_ok dir input : is_path dir -> exists found, resolved_path dir input = Ok found /\ found_ok found.
Proof.
  intros Hd. unfold resolved_path. destruct (resolve_path_in dir input Hd) as (r & -> & Hr). cbn [mbind outcome_bind].
  destruct r as [[array n]|]; [|by eexists]. destruct Hr as (st & Hst). destruct (path_at_slice st array n Hst) as [-> Hp].
  eexists. split; [done|]. by exists st.
Qed.

(** The arguments of a program end. *)
Lemma argument_words_end fuel room raw : (length raw < fuel)%nat -> exists r, argument_words fuel room raw = Ok r.
Proof.
  revert room raw. induction fuel as [|fuel IH]; intros room raw Hl; [lia|]. cbn [argument_words].
  destruct raw as [|b raw]; [by eexists|]. destruct (split_first_word (b :: raw)) as [argument rest] eqn:Hw.
  pose proof (split_first_word_shorter (b :: raw) ltac:(done)) as Hs. rewrite Hw in Hs. cbn [snd] in Hs.
  destruct room as [|room]; [by eexists|]. destruct (negb _); [by eexists|].
  destruct (IH room rest) as [r ->]; [lia|]. by eexists.
Qed.

Lemma split_arguments_end raw : exists r, split_arguments raw = Ok r.
Proof. apply argument_words_end. lia. Qed.

(** ** Operations that keep an invariant *)

Section logic.
Context {S : Type}.
Variable I : S -> Prop.

(** The operation keeps the invariant and does not panic of its own, and its result is as
    described. *)
Definition fine {A} (m : Op S Stopped A) (Q : A -> Prop) : Prop := forall s, I s ->
  match m s with
  | (s', Ok a) => I s' /\ Q a
  | (_, Err InCall) => True
  | (_, Panic) => False
  end.

Lemma fine_bind {A B} (m : Op S Stopped A) (f : A -> Op S Stopped B) P Q :
  fine m P -> (forall a, P a -> fine (f a) Q) -> fine (m ≫= f) Q.
Proof.
  intros Hm Hf s Hs. specialize (Hm s Hs). unfold mbind, op_bind. destruct (m s) as [s' [a|[]|]]; [|done..].
  destruct Hm as [Hs' Ha]. by apply Hf.
Qed.

(** Then anything. *)
Lemma fine_seq {A B} (m : Op S Stopped A) (f : A -> Op S Stopped B) Q :
  fine m (fun _ => True) -> (forall a, fine (f a) Q) -> fine (m ≫= f) Q.
Proof. intros Hm Hf. eapply fine_bind; [done|]. intros a _. apply Hf. Qed.

Lemma fine_ret {A} (a : A) (Q : A -> Prop) : Q a -> fine (mret (M := Op S Stopped) a) Q.
Proof. by intros Ha s Hs. Qed.

Lemma fine_get {B} (f : S -> Op S Stopped B) Q : (forall s, I s -> fine (f s) Q) -> fine (get ≫= f) Q.
Proof. intros Hf. eapply fine_bind; [|done]. by intros s Hs. Qed.

Lemma fine_stop {A} (Q : A -> Prop) : fine (fail InCall) Q.
Proof. done. Qed.

Lemma fine_modify (f : S -> S) : (forall s, I s -> I (f s)) -> fine (modify f) (fun _ => True).
Proof. intros Hf s Hs. split; [by apply Hf|done]. Qed.

Lemma fine_for {A} (l : list A) (f : A -> Op S Stopped unit) :
  (forall a, fine (f a) (fun _ => True)) -> fine (for_op l f) (fun _ => True).
Proof. intros Hf. induction l as [|a l IH]; [by apply fine_ret|]. apply fine_seq; [apply Hf|]. by intros _. Qed.
End logic.

(** ** The calls of a command *)

Section shell.
Context {D : Type} `{FileSystem D Ext2Error.t} `{!Directories D}.
Context {PT : Type} `{Mapper PT} `{DirectMap PT}.
Variable from_start_address : Z -> option Z.
Variable try_new : Z -> option Z.
Variable trampoline : Z.
Variable initrd : Mounted.
Variable reserve : nat -> nat -> bool.
Variable stack_base : nat -> Z.
Variable kr : Z.

Abbreviation Sh := (Shell D PT).
Abbreviation Cmd := (Op Sh Stopped).
Abbreviation ok := (shell_ok (D := D) (PT := PT) kr).
Abbreviation fine_unit m := (fine ok m (fun _ : unit => True)).

Lemma fine_pure {A} (r : outcome Empty_set A) a (Q : A -> Prop) : r = Ok a -> Q a -> fine ok (pure r) Q.
Proof. by intros -> Ha s Hs. Qed.

Lemma fine_called {E A} (r : outcome E A) : fine ok (lift (S := Sh) (called r)) (fun _ => True).
Proof. intros s Hs. by destruct r. Qed.

Lemma fine_attempt {E A} (op : Op (Kernel D PT) E A) : keeps kr op -> fine ok (attempt op) (fun _ => True).
Proof.
  intros Hop s [Hk Hd Hl Ha]. unfold attempt. destruct (op (sh_kernel s)) as [k r] eqn:Eop.
  destruct r; cbn; [..|done]; (split; [|done]); (constructor; cbn; [|done..]); by apply (Hop _ _ _ Eop).
Qed.

Lemma fine_show o : fine_unit (show (D := D) (PT := PT) o).
Proof. apply fine_modify. by intros s []. Qed.

Lemma fine_print text : fine_unit (print (D := D) (PT := PT) text).
Proof. apply fine_show. Qed.

Lemma fine_println text : fine_unit (println (D := D) (PT := PT) text).
Proof. apply fine_show. Qed.

Lemma fine_println_error text e : fine_unit (println_error (D := D) (PT := PT) text e).
Proof. apply fine_seq; [apply fine_show|]. intros _. apply fine_print. Qed.

Lemma fine_current_dir s : shell_ok kr s -> exists dir, current_dir s = Ok dir /\ is_path dir.
Proof. intros [_ (st & Hst) _ _]. destruct (path_at_slice st _ _ Hst) as [Hs Hp]. by exists (path_of st). Qed.

Lemma fine_dir {B} s (f : list Z -> Cmd B) Q :
  shell_ok kr s -> (forall dir, is_path dir -> fine ok (f dir) Q) -> fine ok (pure (current_dir s) ≫= f) Q.
Proof.
  intros Hs Hf. destruct (fine_current_dir s Hs) as (dir & Hd & Hp). eapply fine_bind; [by eapply fine_pure|exact Hf].
Qed.

Lemma fine_resolved {B} dir input (f : option (list Z * nat * list Z) -> Cmd B) Q :
  is_path dir -> (forall found, found_ok found -> fine ok (f found) Q) -> fine ok (pure (resolved_path dir input) ≫= f) Q.
Proof.
  intros Hd Hf. destruct (resolved_path_ok dir input Hd) as (found & Hr & Hp). eapply fine_bind; [by eapply fine_pure|exact Hf].
Qed.

Lemma fine_words {B} raw (f : option (option (list (list Z))) -> Cmd B) Q :
  (forall words, fine ok (f words) Q) -> fine ok (pure (split_arguments raw) ≫= f) Q.
Proof. intros Hf. destruct (split_arguments_end raw) as [r Hr]. eapply fine_bind; [by eapply (fine_pure _ r (fun _ => True))|]. intros a _. apply Hf. Qed.

Lemma fine_redirections {B} command (f : Redirections -> Cmd B) Q :
  (forall r, fine ok (f r) Q) -> fine ok (pure (split_redirections command) ≫= f) Q.
Proof. intros Hf. destruct (redirections_end command) as [r Hr]. eapply fine_bind; [by eapply (fine_pure _ r (fun _ => True))|]. intros a _. apply Hf. Qed.

Lemma fine_attempt_ok {E A} (op : Op (Kernel D PT) E A) : keeps kr op -> fine ok (attempt_ok op) (fun _ => True).
Proof. intros Hop. apply fine_seq; [by apply fine_attempt|]. intros r. by apply fine_ret. Qed.

Lemma fine_close fd : fine_unit (close_fd (D := D) (PT := PT) fd).
Proof. apply fine_seq; [apply fine_attempt, sound_keeps, close_fd_sound|]. intros r. by apply fine_ret. Qed.

Lemma fine_close_opened fd : fine_unit (close_opened (D := D) (PT := PT) fd).
Proof. destruct fd; [apply fine_close|by apply fine_ret]. Qed.

Lemma fine_track slot app : (slot < MAX_TASKS)%nat -> app_ok app -> fine_unit (track (D := D) (PT := PT) slot app).
Proof.
  intros Hslot Happ. apply fine_get. intros s [Hk Hd Hl Ha]. eapply fine_bind.
  - eapply (fine_pure _ (<[slot := Some app]> (sh_apps s)) (fun apps => length apps = MAX_TASKS /\ Forall slot_ok apps)).
    + unfold set_index. by rewrite Hl, (proj2 (Nat.ltb_lt _ _)).
    + rewrite length_insert. split; [done|by apply Forall_insert].
  - intros apps [Hl' Ha'] s' Hs'. split; [|done]. by constructor.
Qed.

(** A call of the disk. *)
Lemma on_disk_keeps {E A} (op : D -> D * outcome Ext2Error.t A) (f : Ext2Error.t -> E) :
  keeps kr (on_io (D := D) (PT := PT) (on_disk op f)).
Proof.
  intros k k' r E1 _ Hk. unfold on_io, on_disk in E1. destruct (op (io_disk (k_io k))) as [d r1]. injection E1 as <- <-.
  apply kernel_ok_io; [done|]. apply io_ok_set_disk, Hk.
Qed.

Lemma fine_ext2 {A} (op : D -> D * outcome Ext2Error.t A) : fine ok (on_ext2 op) (fun _ => True).
Proof. apply fine_attempt, on_disk_keeps. Qed.

Lemma open_read_keeps path : keeps kr (create_file_read_for_current (D := D) (PT := PT) path).
Proof. apply create_file_keeps. intros live io io' res. apply create_file_read_spec. Qed.

Lemma open_write_keeps path : valid_utf8 path = true -> keeps kr (create_file_write_for_current (D := D) (PT := PT) path).
Proof. intros Hp. apply create_file_keeps. intros live io io' res Hio. by apply create_file_write_spec. Qed.

Lemma fine_open dir path (create : list Z -> Op (Kernel D PT) SchedulerError (flow nat)) :
  is_path dir -> (forall p, valid_utf8 p = true -> keeps kr (create p)) -> fine ok (open_path dir path create) (fun _ => True).
Proof.
  intros Hd Hc. unfold open_path. destruct (path ≫= from_utf8) as [p|]; [|by apply fine_ret].
  apply fine_resolved; [done|]. intros [[[array n] q]|] Hq; [|by apply fine_ret]. unfold from_utf8.
  destruct (valid_utf8 q) eqn:Hu; [|by apply fine_ret]. apply fine_seq; [by apply fine_attempt_ok, Hc|].
  intros [[fd|]|]; [by apply fine_ret|apply fine_stop|by apply fine_ret].
Qed.

(** ** Programs *)

Lemma load_program_keeps use_ext2 side path arguments (k k' : Kernel D PT) r :
  load_program from_start_address try_new initrd reserve use_ext2 side path arguments k = (k', r) -> kernel_ok kr k ->
  kernel_ok kr k' /\ forall p, r = Ok p -> is_Some (root (lp_address_space p)).
Proof.
  unfold load_program. destruct use_ext2; intros E1 Hk; [by eapply load_from_ext2_keeps|].
  refine (in_memory_keeps kr _ _ _ _ _ E1 Hk). intros cr3. unfold load_with_arguments.
  destruct (_ && _); [apply loads_fail|]. do 2 (apply loads_lift; intros ?). apply load_image_root.
Qed.

Lemma load_and_spawn_keeps use_ext2 side path arguments mappings closes :
  keeps kr (load_and_spawn from_start_address try_new trampoline initrd reserve stack_base use_ext2 side path arguments mappings closes).
Proof.
  intros k k' r E1 Hr Hk. unfold load_and_spawn, mbind at 1, op_bind at 1 in E1.
  destruct (load_program _ _ _ _ _ _ _ _ k) as [k1 r1] eqn:E2. apply load_program_keeps in E2 as [Hk1 Hp]; [|done].
  destruct r1 as [p|e|]; [|by injection E1 as <- <-..]. eapply spawn_program_keeps; [by apply Hp|done..].
Qed.

(** [launch_with_arguments] and its like spawn without mappings. *)
Lemma launch_plain_spawn use_ext2 path arguments :
  launch_plain from_start_address try_new trampoline initrd reserve stack_base use_ext2 path arguments =
  load_and_spawn (D := D) (PT := PT) from_start_address try_new trampoline initrd reserve stack_base use_ext2 0 path arguments [] [].
Proof. by destruct use_ext2. Qed.

Lemma fine_launch_redirected dir use_ext2 path arguments input output : is_path dir ->
  fine ok (launch_redirected from_start_address try_new trampoline initrd reserve stack_base dir use_ext2 path arguments input output) (fun _ => True).
Proof.
  intros Hd. unfold launch_redirected. apply fine_seq; [apply fine_open; [done|]; intros; apply open_read_keeps|]. intros input_fd.
  destruct (negb (is_none input) && is_none input_fd); [apply fine_seq; [apply fine_println|intros _; by apply fine_ret]|].
  apply fine_seq; [apply fine_open; [done|]; apply open_write_keeps|]. intros output_fd.
  destruct (negb (is_none output) && is_none output_fd).
  { apply fine_seq; [apply fine_close_opened|]. intros _. apply fine_seq; [apply fine_println|]. intros _. by apply fine_ret. }
  apply fine_seq; [apply fine_attempt, load_and_spawn_keeps|]. intros launched.
  apply fine_seq; [apply fine_for, fine_close|]. intros _. by apply fine_ret.
Qed.

Lemma free_slot_lt s slot : shell_ok kr s -> free_app_slot (sh_apps s) = Some slot -> (slot < MAX_TASKS)%nat.
Proof. intros [_ _ <- _] Hs. apply position_Some in Hs as (x & Hx & _). by apply lookup_lt_Some in Hx. Qed.

(** A path written at the start of a fresh array. *)
Lemma display_path st array n path : path_at st array n -> path = path_of st ->
  exists display, copy_at (E := Empty_set) (replicate PATH_CAPACITY 0%Z) 0 path = Ok display /\ path_in display n.
Proof.
  intros (Hst & -> & z & -> & Hl) ->. rewrite length_app in Hl. unfold copy_at.
  rewrite (proj2 (Nat.leb_le _ _)) by (rewrite length_replicate; lia). eexists. split; [done|]. exists st.
  split; [done|]. split; [done|]. eexists. split; [done|]. rewrite length_splice by (rewrite length_replicate; lia). by rewrite length_replicate.
Qed.

Lemma fine_launch_app command dir use_ext2 : is_path dir ->
  fine_unit (launch_app from_start_address try_new trampoline initrd reserve stack_base command dir use_ext2).
Proof.
  intros Hd. unfold launch_app. apply fine_get. intros s Hs. destruct (free_app_slot (sh_apps s)) as [slot|] eqn:Hslot; [|apply fine_println].
  apply free_slot_lt in Hslot; [|done]. apply fine_redirections. intros [[[command' input] output] valid].
  destruct (negb valid); [apply fine_println|]. destruct (split_first_word command') as [path raw].
  destruct (negb (valid_utf8 path)); [apply fine_println|]. apply fine_resolved; [done|].
  intros [[[array n] path']|] Hfound; [|apply fine_println]. destruct Hfound as (st & Hat & Hpath & _).
  destruct (negb (valid_utf8 path')); [apply fine_println|]. apply fine_words. intros [[arguments|]|]; [|apply fine_println..].
  apply fine_seq.
  - destruct (_ || _); [by apply fine_launch_redirected|]. rewrite launch_plain_spawn.
    apply fine_seq; [apply fine_attempt, load_and_spawn_keeps|]. intros r. by apply fine_ret.
  - intros [[task|e]|]; [|apply fine_println_error|by apply fine_ret].
    destruct (display_path st array n path' Hat Hpath) as (display & Hdisp & Hin).
    eapply fine_bind; [by eapply (fine_pure _ display (fun d => path_in d n))|]. intros d Hdn.
    apply fine_seq; [by apply fine_track|]. intros _. apply fine_println.
Qed.

(** The result of a side of a pipeline: the path in its array. *)
Definition side_ok (side : option (Z * list Z * nat)) : Prop :=
  match side with Some (_, array, n) => path_in array n | None => True end.

Lemma fine_spawn_side dir spec use_ext2 side mappings closes : is_path dir ->
  fine ok (spawn_side from_start_address try_new trampoline initrd reserve stack_base dir spec use_ext2 side mappings closes) side_ok.
Proof.
  intros Hd. unfold spawn_side. destruct (split_first_word spec) as [path raw].
  destruct (negb (valid_utf8 path)); [by apply fine_ret|]. apply fine_resolved; [done|].
  intros [[[array n] path']|] Hfound; [|by apply fine_ret]. destruct Hfound as (st & Hat & _).
  destruct (negb (valid_utf8 path')); [by apply fine_ret|]. apply fine_words. intros [[arguments|]|]; [|by apply fine_ret..].
  apply fine_seq; [apply fine_attempt_ok, load_and_spawn_keeps|]. intros [task|]; apply fine_ret; [by exists st|done].
Qed.

Lemma fine_track_pipeline i j first second : (i < MAX_TASKS)%nat -> (j < MAX_TASKS)%nat -> side_ok first -> side_ok second ->
  fine_unit (track_pipeline (D := D) (PT := PT) i j first second).
Proof.
  intros Hi Hj H1' H2'. unfold track_pipeline. destruct first as [[[t1 a1] n1]|]; [|apply fine_println].
  destruct second as [[[t2 a2] n2]|]; [|apply fine_println].
  apply fine_seq; [by apply fine_track|]. intros _. apply fine_seq; [by apply fine_track|]. intros _. apply fine_println.
Qed.

Lemma fine_start_pipeline dir left_spec right_spec le re input output i j : is_path dir -> (i < MAX_TASKS)%nat -> (j < MAX_TASKS)%nat ->
  fine_unit (start_pipeline from_start_address try_new trampoline initrd reserve stack_base dir left_spec right_spec le re input output i j).
Proof.
  intros Hd Hi Hj. unfold start_pipeline. apply fine_seq; [apply fine_attempt, sound_keeps, make_pipe_sound|].
  intros [[rd wr]|e]; [|apply fine_println_error].
  assert (forall text, fine_unit (_ ← println text; _ ← close_fd rd; close_fd (D := D) (PT := PT) wr)) as Hout.
  { intros text. apply fine_seq; [apply fine_println|]. intros _. apply fine_seq; [apply fine_close|]. intros _. apply fine_close. }
  apply fine_seq; [apply fine_open; [done|]; intros; apply open_read_keeps|]. intros input_fd. destruct (_ && _); [apply Hout|].
  apply fine_seq; [apply fine_open; [done|]; apply open_write_keeps|]. intros output_fd. destruct (_ && _); [apply Hout|].
  eapply fine_bind; [by apply fine_spawn_side|]. intros first Hfirst.
  eapply fine_bind; [by apply fine_spawn_side|]. intros second Hsecond.
  do 2 (apply fine_seq; [apply fine_close|]; intros _). do 2 (apply fine_seq; [apply fine_close_opened|]; intros _).
  by apply fine_track_pipeline.
Qed.

Lemma next_slot_lt s i j : shell_ok kr s -> next_free_slot i (sh_apps s) = Some j -> (j < MAX_TASKS)%nat.
Proof.
  intros [_ _ <- _]. unfold next_free_slot. destruct (position is_none _) as [n|] eqn:Hp; [|done]. intros [= <-].
  apply position_Some in Hp as (x & Hx & _). apply lookup_lt_Some in Hx. rewrite length_drop in Hx. lia.
Qed.

Lemma fine_launch_pipeline line dir ext2 : is_path dir ->
  fine_unit (launch_pipeline from_start_address try_new trampoline initrd reserve stack_base line dir ext2).
Proof.
  intros Hd. unfold launch_pipeline. destruct (position _ line) as [separator|]; [|by apply fine_ret].
  destruct (pipeline_command _ _) as [left_spec le]. destruct (pipeline_command _ _) as [right_spec re].
  apply fine_redirections. intros [[[left' input] lout] lvalid]. apply fine_redirections. intros [[[right' rin] output] rvalid].
  destruct (_ || _ || _ || _); [apply fine_println|]. destruct (_ || _); [apply fine_println|].
  apply fine_get. intros s Hs. destruct (free_app_slot (sh_apps s)) as [i|] eqn:Hi; [|apply fine_println].
  destruct (next_free_slot i (sh_apps s)) as [j|] eqn:Hj; [|apply fine_println].
  apply fine_start_pipeline; [done|by eapply free_slot_lt|by eapply next_slot_lt].
Qed.

(** ** The programs that run *)

Lemma task_keeps {A} id (f : Task -> A) : keeps kr (on_sched (D := D) (PT := PT) (t ← task id; mret (f t))).
Proof.
  intros k k' r E1 _ Hk. destruct (task_pure k id) as [r1 Ht]. unfold on_sched, mbind, op_bind in *.
  destruct (task id (k_sched k)) as [s1 r2]. injection Ht as Hs _.
  assert (set_sched s1 k = k') as <- by (destruct r2; by injection E1 as <- _). by rewrite Hs.
Qed.

Lemma fine_prompt : fine_unit (print_prompt (D := D) (PT := PT)).
Proof.
  apply fine_get. intros s Hs. apply fine_dir; [done|]. intros dir _. apply fine_seq; [apply fine_print|]. intros _. apply fine_show.
Qed.

Lemma fine_redraw l r line : line_at l r line -> fine_unit (redraw_command_line (D := D) (PT := PT) line).
Proof. intros Hl. eapply fine_bind; [by eapply (fine_pure _ _ (fun _ => True)); [eapply line_text|]|]. intros bytes _. apply fine_show. Qed.

Lemma fine_forget slot : fine_unit (forget_app (D := D) (PT := PT) slot).
Proof. apply fine_modify. intros s [Hk Hd Hl Ha]. constructor; cbn; [done..|by rewrite length_insert|by apply Forall_insert]. Qed.

Lemma fine_leave finished : fine_unit (leave_input (D := D) (PT := PT) finished).
Proof. destruct finished; [by apply fine_ret|apply fine_show]. Qed.

Lemma fine_report_ended slot app finished : app_ok app -> fine_unit (report_ended (D := D) (PT := PT) try_new slot app finished).
Proof.
  intros [st Hst]. unfold report_ended. destruct (path_at_slice st _ _ Hst) as [Hslice Hp].
  apply fine_seq; [apply fine_leave|]. intros _. eapply fine_bind; [by eapply (fine_pure _ _ is_path)|]. intros path Hpath.
  eapply fine_bind; [eapply (fine_pure _ path (fun _ => True)); [|done]; unfold from_utf8; by rewrite path_valid|]. intros path' _.
  apply fine_seq; [apply fine_attempt, task_keeps|]. intros code.
  apply fine_seq; [destruct code as [[|]|]; [apply fine_println..|apply fine_println_error]|]. intros _.
  apply fine_seq; [apply fine_attempt, (reap_keeps try_new trampoline)|]. intros reaped.
  apply fine_seq; [destruct reaped; [by apply fine_ret|apply fine_println_error]|]. intros _. apply fine_forget.
Qed.

Lemma fine_report_slot slot finished : fine ok (report_slot (D := D) (PT := PT) try_new slot finished) (fun _ => True).
Proof.
  apply fine_get. intros s Hs. destruct (sh_apps s !! slot) as [[app|]|] eqn:Happ; [|by apply fine_ret..].
  assert (app_ok app) as Hok by apply (Forall_lookup_1 _ _ _ _ (sk_apps _ _ Hs) Happ).
  apply fine_seq; [apply fine_attempt, task_keeps|]. intros [state|e].
  - destruct state; try by apply fine_ret. apply fine_seq; [by apply fine_report_ended|]. intros _. by apply fine_ret.
  - apply fine_seq; [apply fine_leave|]. intros _. apply fine_seq; [apply fine_println_error|]. intros _.
    apply fine_seq; [apply fine_forget|]. intros _. by apply fine_ret.
Qed.

Lemma fine_report_slots slots finished : fine ok (report_slots (D := D) (PT := PT) try_new slots finished) (fun _ => True).
Proof.
  revert finished. induction slots as [|slot slots IH]; intros finished; [by apply fine_ret|].
  apply fine_seq; [apply fine_report_slot|]. intros finished'. apply IH.
Qed.

Lemma fine_report l r line : line_at l r line -> fine_unit (report_finished_apps (D := D) (PT := PT) try_new line).
Proof.
  intros Hl. apply fine_get. intros s Hs. apply fine_seq; [apply fine_report_slots|]. intros [|]; [|by apply fine_ret].
  apply fine_seq; [apply fine_prompt|]. intros _. by eapply fine_redraw.
Qed.

Lemma fine_stop_task id code : fine ok (stop_task (D := D) (PT := PT) id code) (fun _ => True).
Proof. apply fine_attempt, keeps_sched, terminate_task_quiet. Qed.

Lemma fine_interrupt : fine ok (interrupt_running_apps (D := D) (PT := PT)) (fun _ => True).
Proof.
  apply fine_get. intros s _. assert (forall apps interrupted, fine ok (interrupt_apps apps interrupted) (fun _ => True)) as Hall; [|apply Hall].
  induction apps as [|app apps IH]; intros interrupted; [by apply fine_ret|]. cbn [interrupt_apps].
  apply fine_seq; [apply fine_stop_task|]. intros [[]|e]; [apply IH|].
  destruct e; try apply IH; (apply fine_seq; [apply fine_println_error|]; intros _; apply IH).
Qed.

End shell.

(** The calls every command is made of, and the steps of a command. *)
Create HintDb fine.
#[export] Hint Resolve fine_show fine_print fine_println fine_println_error fine_ext2 fine_called fine_stop_task fine_prompt : fine.

Ltac fine_step :=
  lazymatch goal with
  | |- fine _ (mret _) _ => by apply fine_ret
  | |- fine _ (get ≫= _) _ => apply fine_get; intros ? ?
  | |- fine _ (pure (current_dir _) ≫= _) _ => apply fine_dir; [done|]; intros ? ?
  | |- fine _ (pure (resolved_path _ _) ≫= _) _ => apply fine_resolved; [done|]; intros ? ?
  | |- fine _ (_ ≫= _) _ => apply fine_seq; [|intros ?]
  | |- fine _ (match ?x with _ => _ end) _ => destruct x eqn:?
  | |- fine _ (fail InCall) _ => apply fine_stop
  | |- fine _ (for_op _ _) _ => apply fine_for; intros ?
  | |- fine _ _ _ => solve [auto with fine]
  end.

Ltac fine_steps := repeat fine_step.
