(* ===== verification/ShellProps.v ===== *)
(** * The shell never panics

    Every command of [ShellRun.v], the editor and the loop keep the invariant of the shell
    ([ShellOk.v]), whatever is typed and whatever the other tasks do between two rounds. *)

From Stdlib Require Import Ascii String.
From S2P Require Import Prelude Ring Input Timer Utf8 Chars LineEdit TextEdit FileSystem Tar Fd FrameAlloc UserRange Paging Scheduler Kernel KernelOk KernelInv KernelProps UserProgram ProgramLoad Syscall SyscallOk SyscallProps ShellParse Shell ShellRun ShellOk.

#[local] Open Scope Z_scope.

Section commands.
Context {D : Type} `{FileSystem D Ext2Error.t} `{!Directories D}.
Context {PT : Type} `{Mapper PT} `{DirectMap PT}.
Variable from_start_address : Z -> option Z.
Variable try_new : Z -> option Z.
Variable trampoline : Z.
Variable initrd : Mounted.
Variable reserve : nat -> nat -> bool.
Variable stack_base : nat -> Z.
Variable mapped_bytes : Z.
Variable cpu_brand cpu_vendor : option (list Z).
Variable physical_bits : option Z.
Variable kr : Z.
Hypothesis fs_ok : fs_total (D := D).

Abbreviation Sh := (Shell D PT).
Abbreviation Cmd := (Op Sh Stopped).
Abbreviation ok := (shell_ok (D := D) (PT := PT) kr).
Abbreviation fine_unit m := (fine ok m (fun _ : unit => True)).

Lemma fine_println_of text : fine_unit (println_of (D := D) (PT := PT) text).
Proof. apply fine_println. Qed.

Lemma fine_print_entry entry : fine_unit (print_entry (D := D) (PT := PT) entry).
Proof. destruct entry as [[name dir] size]. unfold print_entry. fine_steps. Qed.

#[local] Hint Resolve fine_println_of fine_print_entry : fine.

Lemma fine_list_ext2 directory : fine_unit (list_ext2 (D := D) (PT := PT) directory).
Proof. unfold list_ext2. fine_steps. Qed.

Lemma fine_list_initrd directory : fine_unit (list_initrd (D := D) (PT := PT) initrd directory).
Proof. unfold list_initrd. fine_steps. Qed.

Lemma fine_with_directory directory missing (yes : Cmd unit) : fine_unit yes -> fine_unit (with_ext2_directory directory missing yes).
Proof. intros Hy. unfold with_ext2_directory. fine_steps. Qed.

#[local] Hint Resolve fine_list_ext2 fine_list_initrd fine_with_directory : fine.

(** The other ways to resolve a path. *)
Lemma fine_resolve_directory {B} dir path (f : option (list Z * nat) -> Cmd B) Q : is_path dir ->
  (forall found, found_in found -> fine ok (f found) Q) ->
  fine ok (pure (resolve_directory_path dir path (replicate PATH_CAPACITY 0)) ≫= f) Q.
Proof.
  intros Hd Hf. unfold resolve_directory_path.
  destruct (resolve_path_in dir (if bool_decide (path = []) then str "." else path) Hd) as (r & Hr & Hin).
  eapply fine_bind; [by eapply fine_pure|exact Hf].
Qed.

Lemma fine_resolve_ext2 {B} dir name ext2 (f : option (list Z * nat) -> Cmd B) Q : is_path dir ->
  (forall found, found_in found -> fine ok (f found) Q) ->
  fine ok (pure (resolve_ext2_command_path dir name ext2 (replicate PATH_CAPACITY 0)) ≫= f) Q.
Proof.
  intros Hd Hf. unfold resolve_ext2_command_path.
  assert (is_path (if ext2 : bool then dir else [])) as Hp by (destruct ext2; [done|apply path_nil]).
  destruct (resolve_path_in _ name Hp) as (r & Hr & Hin). eapply fine_bind; [by eapply fine_pure|exact Hf].
Qed.

Lemma fine_path_slice {B} array n (f : list Z -> Cmd B) Q : path_in array n ->
  (forall path, is_path path -> fine ok (f path) Q) -> fine ok (pure (slice_to array n) ≫= f) Q.
Proof.
  intros [st Hst] Hf. destruct (path_at_slice st array n Hst) as [Hs Hp]. eapply fine_bind; [by eapply (fine_pure _ _ _ is_path)|exact Hf].
Qed.

Lemma fine_list_files path : fine_unit (list_files (D := D) (PT := PT) initrd path).
Proof.
  unfold list_files. do 2 fine_step. apply fine_resolve_directory; [done|]. intros [[array n]|] Hin; [|fine_steps].
  apply fine_path_slice; [done|]. intros directory _. fine_steps.
Qed.

Lemma fine_print_text contents : fine_unit (print_text (D := D) (PT := PT) contents).
Proof. unfold print_text. fine_steps. Qed.

(** A file read into a buffer: no more bytes than fit. *)
Lemma fine_read path buffer : fine ok (read_ext2 (D := D) (PT := PT) path buffer) (fun r =>
  match r with inl (contents, Some (copied, _)) => (copied <= length contents)%nat | _ => True end).
Proof.
  intros s Hs. pose proof (fine_ext2 kr (fun d => let '(d, output, r) := fs_read_file path buffer d in
    (d, match r with Ok found => Ok (output, found) | Err e => Err e | Panic => Panic end)) s Hs) as Hf.
  unfold read_ext2, on_ext2, attempt, on_io, on_disk in *. destruct (fs_ok path [] buffer (io_disk (k_io (sh_kernel s)))) as (_ & _ & Hn & Hl & _).
  destruct (fs_read_file path buffer (io_disk (k_io (sh_kernel s)))) as [[d output] r]. cbn in Hn, Hl, Hf |- *.
  destruct r as [[[n total]|]|e|]; cbn in Hf |- *; try done; (split; [apply Hf|]); [|done..].
  rewrite Hl. by eapply Hn.
Qed.

#[local] Hint Resolve fine_print_text : fine.

Lemma fine_cat_ext2 path missing : fine_unit (cat_ext2 (D := D) (PT := PT) path missing).
Proof.
  unfold cat_ext2. eapply fine_bind; [apply fine_read|]. intros [[contents [[copied total]|]]|e] Hr; [|fine_steps..].
  eapply fine_bind; [eapply (fine_pure _ _ _ (fun _ => True)); [|done]; unfold slice_to; by rewrite (proj2 (Nat.leb_le _ _))|].
  intros text _. fine_steps.
Qed.

Lemma fine_cat_initrd path : fine_unit (cat_initrd (D := D) (PT := PT) initrd path).
Proof. unfold cat_initrd. fine_steps. Qed.

#[local] Hint Resolve fine_cat_ext2 fine_cat_initrd fine_list_files : fine.

Lemma fine_cat name : fine_unit (cat (D := D) (PT := PT) initrd name).
Proof. unfold cat. fine_steps. Qed.

Lemma fine_disk_list path : fine_unit (disk_list (D := D) (PT := PT) path).
Proof. unfold disk_list. fine_steps. Qed.

Lemma fine_disk_cat path : fine_unit (disk_cat (D := D) (PT := PT) path).
Proof. unfold disk_cat. fine_steps. Qed.

(** What a command leaves the loop with: an editor with a text that is valid. *)
Definition rest_ok (rest : Rest) : Prop :=
  match rest with Editing _ editor => exists p, page_at p editor | _ => True end.

Lemma fine_on_path name usage usage_path (f : list Z -> Cmd Rest) :
  (forall path, is_path path -> fine ok (f path) rest_ok) -> fine ok (on_ext2_path name usage usage_path f) rest_ok.
Proof.
  intros Hf. unfold on_ext2_path. fine_step; [fine_steps|]. do 2 fine_step. apply fine_resolve_ext2; [done|].
  intros [[array n]|] Hin; [|fine_steps]. apply fine_path_slice; [done|]. intros path Hpath. fine_step; [by apply Hf|fine_steps].
Qed.

Lemma fine_change (change : D -> D * outcome Ext2Error.t unit) text failed :
  fine ok (change_disk (D := D) (PT := PT) change text failed) rest_ok.
Proof. unfold change_disk. fine_steps. Qed.

(** ** The text editor *)

Lemma fine_render p name editor : page_at p editor -> fine_unit (render_text_editor (D := D) (PT := PT) name editor).
Proof. intros Hp. eapply fine_bind; [by eapply (fine_pure _ _ _ (fun _ => True)); [eapply as_text_spec|]|]. intros text _. apply fine_show. Qed.

Lemma page_of contents : valid_utf8 contents = true -> exists p, page_at p (mk_text contents (length contents) false).
Proof.
  intros Hv. destruct (valid_text contents Hv) as (cs & Hcs & ->). exists (mk_page cs [] false).
  constructor; unfold page_text; cbn [p_before p_after]; by rewrite ?(right_id_L [] (++)).
Qed.

Lemma fine_read_text name : fine ok (read_text (D := D) (PT := PT) name) rest_ok.
Proof.
  unfold read_text. eapply fine_bind; [apply fine_read|]. intros [[contents found]|e] Hr; [|fine_steps].
  set (n := match found with Some (copied, total) => (copied, total) | None => (0%nat, 0) end).
  assert (n.1 <= length contents)%nat as Hn by (subst n; destruct found as [[copied total]|]; cbn in *; lia).
  destruct n as [copied total]. cbn in Hn. fine_step; [fine_steps|]. destruct (valid_utf8 (take copied contents)) eqn:Hv; [|cbn; fine_steps].
  destruct (page_of (take copied contents) Hv) as [p Hp]. rewrite length_take, Nat.min_l in Hp by done.
  apply fine_seq; [by eapply fine_render|]. intros _. apply fine_ret. by exists p.
Qed.

Lemma fine_missing_parent name : fine_unit (print_missing_edit_parent (D := D) (PT := PT) name).
Proof. unfold print_missing_edit_parent. fine_steps. Qed.

#[local] Hint Resolve fine_read_text fine_missing_parent : fine.

Lemma fine_edit_disk_file name : fine ok (edit_disk_file (D := D) (PT := PT) name) rest_ok.
Proof. unfold edit_disk_file. fine_steps. Qed.

(** What the editor is left with. *)
Definition editor_ok (state : EditorState) : Prop :=
  match state with Typing editor | Confirming editor => exists p, page_at p editor | Closed => True end.

Lemma fine_save p name editor : page_at p editor -> fine ok (save_text (D := D) (PT := PT) name editor) editor_ok.
Proof.
  intros Hp. unfold save_text. apply fine_seq; [fine_steps|]. intros saved. apply fine_seq; [fine_steps|]. intros _.
  destruct saved; [fine_steps|]. fine_step; [fine_steps|]. apply fine_seq; [by eapply fine_render|]. intros _. apply fine_ret. by exists p.
Qed.

Lemma fine_leave_editor p editor : page_at p editor -> fine ok (leave_editor (D := D) (PT := PT) editor) editor_ok.
Proof.
  intros Hp. unfold leave_editor. fine_step; [fine_steps|]. fine_step; [|fine_steps].
  fine_step; [fine_steps|]. apply fine_ret. by exists p.
Qed.

Lemma fine_editor_key p name editor key : page_at p editor -> fine ok (editor_key (D := D) (PT := PT) name editor key) editor_ok.
Proof.
  intros Hp. unfold editor_key. fine_step; [by eapply fine_save|]. fine_step; [by eapply fine_leave_editor|].
  destruct (edit_key_spec key p editor Hp) as (editor' & changed & -> & Hp').
  eapply fine_bind; [by eapply (fine_pure _ _ _ (fun _ => True))|]. intros changed' _.
  apply fine_seq; [|intros _; apply fine_ret; by eexists]. fine_step; [by eapply fine_render|]. fine_step; [|fine_steps].
  do 2 (fine_step; [fine_steps|]). by eapply fine_render.
Qed.

Lemma fine_confirm_key p name editor key : page_at p editor -> fine ok (confirm_key (D := D) (PT := PT) name editor key) editor_ok.
Proof.
  intros Hp. unfold confirm_key. fine_step; [fine_steps|]. apply fine_seq; [by eapply fine_render|]. intros _. apply fine_ret. by exists p.
Qed.

(** ** The other commands *)

Lemma fine_set_dir array n ext2 : path_in array n -> fine_unit (set_current_dir (D := D) (PT := PT) array n ext2).
Proof.
  intros [st Hst]. unfold set_current_dir. fine_step. destruct (path_at_slice st array n Hst) as [Hslice _].
  eapply fine_bind; [by eapply (fine_pure _ _ _ (fun path => path = path_of st))|]. intros path ->.
  match goal with Hs : shell_ok kr ?s |- _ => destruct Hs as [Hk (st0 & Hst0 & _ & z & _ & Hlen) Hl Ha]; rename s into s0 end.
  destruct Hst as (Hn & -> & z' & -> & Hlen'). rewrite length_app in Hlen'.
  eapply fine_bind.
  - eapply (fine_pure _ _ _ (fun dir => path_in dir (length (path_of st)))); [unfold copy_at; by rewrite (proj2 (Nat.leb_le _ _)) by (cbn; lia)|].
    exists st. split; [done|]. split; [done|]. exists (drop (length (path_of st)) (sh_dir s0)). rewrite length_splice by (cbn; lia). done.
  - intros dir Hdir s Hs. split; [|done]. by constructor.
Qed.

Lemma fine_root : fine_unit (modify (fun s : Sh => set_dir (sh_dir s) 0 false s)).
Proof.
  apply fine_modify. intros s [Hk (st & _ & _ & z & _ & Hlen) Hl Ha]. constructor; cbn; [done| |done..].
  exists []. split; [by apply Forall_nil|]. split; [done|]. by exists (sh_dir s).
Qed.

Lemma fine_change_directory path : fine_unit (change_directory (D := D) (PT := PT) initrd path).
Proof.
  unfold change_directory. fine_step; [apply fine_root|]. do 2 fine_step. fine_step.
  match goal with Hf : found_ok ?found |- _ => destruct found as [[[array n] directory]|]; [destruct Hf as (st & Hat & _)|] end; [|fine_steps].
  assert (forall ext2, fine_unit (set_current_dir (D := D) (PT := PT) array n ext2)) as Hset by (intros; apply fine_set_dir; by exists st).
  fine_steps.
Qed.

Lemma fine_kill value : fine_unit (kill_command (D := D) (PT := PT) value).
Proof. unfold kill_command. fine_steps. Qed.

Lemma fine_sleep value : fine ok (sleep_command (D := D) (PT := PT) value) rest_ok.
Proof.
  unfold sleep_command. fine_step; [|fine_steps]. fine_step; [|fine_steps]. fine_step; [fine_steps|].
  apply fine_seq; [apply fine_attempt, keeps_flow_keeps, sleep_keeps|]. intros [[]|[]]; fine_steps.
Qed.

Lemma fine_processes : fine_unit (print_process_list (D := D) (PT := PT)).
Proof. unfold print_process_list. fine_steps. Qed.

Lemma fine_hardware : fine_unit (print_hardware_info (D := D) (PT := PT) cpu_brand cpu_vendor physical_bits).
Proof. unfold print_hardware_info. fine_steps. Qed.

Lemma fine_uptime : fine_unit (print_uptime (D := D) (PT := PT)).
Proof. unfold print_uptime. fine_steps. Qed.

#[local] Hint Resolve fine_processes fine_hardware fine_uptime fine_kill fine_change_directory fine_cat fine_disk_list fine_disk_cat : fine.

Lemma fine_system_info : fine_unit (print_system_info (D := D) (PT := PT) mapped_bytes cpu_brand cpu_vendor physical_bits).
Proof. unfold print_system_info, print_heap. fine_steps. Qed.

Lemma fine_done (m : Cmd unit) : fine_unit m -> fine ok (done m) rest_ok.
Proof. intros Hm. apply fine_seq; [done|]. intros _. by apply fine_ret. Qed.

Lemma fine_run_command path :
  fine_unit (run_command (D := D) (PT := PT) from_start_address try_new trampoline initrd reserve stack_base path).
Proof. unfold run_command. fine_step; [fine_steps|]. do 2 fine_step. by apply fine_launch_app. Qed.

Lemma fine_disk_run path :
  fine_unit (disk_run_command (D := D) (PT := PT) from_start_address try_new trampoline initrd reserve stack_base path).
Proof.
  unfold disk_run_command. fine_step; [fine_steps|]. fine_step. destruct (sh_dir_is_ext2 _).
  - fine_step. by apply fine_launch_app.
  - eapply fine_bind; [by apply (fine_ret _ [] is_path), path_nil|]. intros dir Hd. by apply fine_launch_app.
Qed.

#[local] Hint Resolve fine_done fine_run_command fine_disk_run fine_system_info fine_sleep fine_on_path fine_change fine_edit_disk_file : fine.

Abbreviation run_line := (execute (D := D) (PT := PT) from_start_address try_new trampoline initrd reserve stack_base
  mapped_bytes cpu_brand cpu_vendor physical_bits).

Lemma fine_run_parsed command :
  fine ok (run_parsed (D := D) (PT := PT) from_start_address try_new trampoline initrd reserve stack_base
    mapped_bytes cpu_brand cpu_vendor physical_bits command) rest_ok.
Proof.
  destruct command; cbn [run_parsed];
    unfold print_heap, print_os_info, print_software_info, print_working_directory, set_color_command,
      disk_write_command, make_directory, remove_file_command, remove_directory, edit_command;
    first [solve [auto with fine] | apply fine_done; fine_steps | fine_steps].
Qed.

Lemma fine_execute line : fine ok (run_line line) rest_ok.
Proof. unfold execute. fine_step; [|apply fine_run_parsed]. do 2 fine_step. apply fine_done. by apply fine_launch_pipeline. Qed.

(** ** The loop *)

Definition mode_ok (mode : Mode) : Prop := match mode with InEditor _ _ state => editor_ok state | _ => True end.

Record running_ok (r : Running (D := D) (PT := PT)) : Prop := mk_running_ok {
  rk_shell : shell_ok kr (r_shell r);
  rk_line : exists p, prompt_at p (r_history r, r_line r);
  rk_mode : mode_ok (r_mode r);
}.

Abbreviation Round := (Op (Running (D := D) (PT := PT)) Stopped).
Abbreviation good_unit m := (fine running_ok m (fun _ : unit => True)).

Lemma good_shell {A} (m : Cmd A) Q : fine ok m Q -> fine running_ok (on_shell m) Q.
Proof.
  intros Hm r [Hs Hl Hmode]. specialize (Hm _ Hs). unfold on_shell. destruct (m (r_shell r)) as [s' [a|[]|]]; [|done..].
  split; [|apply Hm]. constructor; [apply Hm|done..].
Qed.

(** An operation on the line and the history that is total. *)
Definition edits {A} (m : Method (CommandHistory * LineEditor) A) (Q : A -> Prop) : Prop := forall p s, prompt_at p s ->
  exists s' a, m s = (s', Ok a) /\ Q a /\ exists p', prompt_at p' s'.

Lemma good_line {A} (m : Method (CommandHistory * LineEditor) A) Q : edits m Q -> fine running_ok (on_command_line m) Q.
Proof.
  intros Hm r [Hs [p Hp] Hmode]. destruct (Hm p _ Hp) as ([h l] & a & Hr & Ha & Hp'). unfold on_command_line. rewrite Hr.
  split; [|done]. by constructor.
Qed.

Lemma good_mode mode : mode_ok mode -> good_unit (set_mode mode).
Proof. intros Hm. apply fine_modify. intros r []. by constructor. Qed.

Lemma good_redraw : good_unit redraw.
Proof.
  apply fine_get. intros r [_ [p [_ Hl]] _]. apply good_shell. by eapply fine_redraw.
Qed.

Lemma good_redraw_if b : good_unit (redraw_if b).
Proof. destruct b; [apply good_redraw|by apply fine_ret]. Qed.

(** Lines of the editor. *)
Lemma edits_line {A} (m : Method LineEditor A) Q :
  (forall l r e, line_at l r e -> exists e' a, m e = (e', Ok a) /\ Q a /\ exists l' r', line_at l' r' e') -> edits (on_line m) Q.
Proof.
  intros Hm p [h e] [Hh He]. cbn in Hh, He. destruct (Hm _ _ _ He) as (e' & a & Hr & Ha & l' & r' & Hl'). unfold on_line. rewrite Hr.
  do 2 eexists. split; [done|]. split; [done|]. exists (mk_prompt l' r' (commands p) (browsed p) (saved p)). by split.
Qed.

Lemma clear_at l r e : line_at l r e -> exists e' a, line_clear e = (e', Ok a) /\ True /\ exists l' r', line_at l' r' e'.
Proof.
  intros (z & -> & Hl). do 2 eexists. split; [done|]. split; [done|]. exists [], []. exists (l ++ r ++ z). cbn.
  rewrite !length_app. split; [done|lia].
Qed.

Lemma cursor_at l r e (b : bool) : line_at l r e ->
  exists l' r', line_at l' r' (mk_line (bytes e) (length_ e) (if b then length_ e else 0%nat)).
Proof.
  intros (z & -> & Hl). destruct b; [exists (l ++ r), []|exists [], (l ++ r)]; exists z; cbn [bytes length_ length app];
    rewrite length_app, <-(assoc_L (++)), ?Nat.add_0_r; (split; [done|cbn; lia]).
Qed.

Lemma good_clear : good_unit (on_command_line (on_line line_clear)).
Proof. apply good_line, edits_line, clear_at. Qed.

Lemma good_end_command n : good_unit (end_command n).
Proof.
  apply fine_seq; [apply good_clear|]. intros _. apply fine_seq; [by apply good_mode|]. intros _. apply fine_get. intros r _.
  destruct (_ =? _)%nat; [apply good_shell, fine_prompt|by apply fine_ret].
Qed.

Lemma edits_record line : (length line <= INPUT_CAPACITY)%nat -> edits (on_history (record line)) (fun _ => True).
Proof.
  intros Hl p [h e] [Hh He]. destruct (record_spec _ _ _ h line Hh Hl) as (h' & Hr & Hh'). unfold on_history. cbn in *. rewrite Hr.
  do 2 eexists. split; [done|]. split; [done|]. exists (mk_prompt (before p) (after p) (remember line (commands p)) None (saved p)). by split.
Qed.

Lemma good_enter : good_unit (enter_key (D := D) (PT := PT) from_start_address try_new trampoline initrd reserve stack_base
  mapped_bytes cpu_brand cpu_vendor physical_bits).
Proof.
  unfold enter_key. apply fine_seq.
  { apply good_line, edits_line. intros l r e He. do 2 eexists. split; [done|]. split; [done|]. by apply (cursor_at l r e true). }
  intros _. apply fine_seq; [apply good_shell; fine_steps|]. intros _. apply fine_seq; [apply good_shell; fine_steps|]. intros _.
  eapply fine_bind.
  { apply good_line, (edits_line _ (fun line => length line <= INPUT_CAPACITY)%nat). intros l r e He.
    exists e, (l ++ r). split; [unfold mbind, op_bind, get, lift; by rewrite (line_text l r e He)|].
    split; [by eapply line_limit|eauto]. }
  intros line Hline. apply fine_seq; [by apply good_line, edits_record|]. intros _. apply fine_get. intros r _.
  eapply fine_bind; [apply good_shell, fine_execute|]. intros [| |name editor|] Hrest; try by apply good_mode.
  apply good_end_command.
Qed.

Lemma good_interrupt : good_unit (interrupt_key (D := D) (PT := PT)).
Proof.
  unfold interrupt_key. apply fine_seq; [apply good_shell, fine_interrupt|]. intros interrupted.
  apply fine_seq; [apply good_clear|]. intros _. apply fine_seq; [apply good_redraw|]. intros _.
  do 2 (apply fine_seq; [apply good_shell; fine_steps|]; intros _). apply good_shell; fine_steps.
Qed.

Lemma edits_abandon : edits (on_history abandon_browsing) (fun _ => True).
Proof.
  intros p [h e] [Hh He]. cbn in Hh, He. do 2 eexists. split; [done|]. split; [done|].
  exists (mk_prompt (before p) (after p) (commands p) None (saved p)). split; [|done]. by eapply history_browse.
Qed.

Lemma good_edit (m : Method LineEditor bool) : edits (on_line m) (fun _ => True) -> good_unit (edit_round m).
Proof.
  intros Hm. apply fine_seq; [by apply good_line|]. intros [|]; [|by apply fine_ret].
  apply fine_seq; [apply good_line, edits_abandon|]. intros _. apply good_redraw.
Qed.

Lemma good_move (m : Method (CommandHistory * LineEditor) bool) : edits m (fun _ => True) -> good_unit (move_round m).
Proof. intros Hm. apply fine_seq; [by apply good_line|]. apply good_redraw_if. Qed.

Lemma good_goto (b : bool) : good_unit (goto_round (D := D) (PT := PT) (fun e => if b then length_ e else 0%nat)).
Proof.
  apply fine_seq; [|intros _; apply good_redraw]. apply good_line, edits_line. intros l r e He.
  do 2 eexists. split; [done|]. split; [done|]. by apply (cursor_at l r e b).
Qed.

(** Every edit of the line is total. *)
Lemma edits_insert b : edits (on_line (line_insert b)) (fun _ => True).
Proof.
  apply edits_line. intros l r e He. destruct (insert_spec l r e b He) as (e' & Hr & He'). do 2 eexists. split; [done|]. split; [done|].
  destruct (_ =? _)%nat; [subst|]; eauto.
Qed.

Lemma edits_backspace : edits (on_line line_backspace) (fun _ => True).
Proof.
  apply edits_line. intros l r e He. destruct (backspace_spec l r e He) as (e' & Hr & He'). do 2 eexists. split; [done|]. split; [done|].
  destruct (bool_decide _); [subst|]; eauto.
Qed.

Lemma edits_delete : edits (on_line line_delete) (fun _ => True).
Proof.
  apply edits_line. intros l r e He. destruct (delete_spec l r e He) as (e' & Hr & He'). do 2 eexists. split; [done|]. split; [done|].
  destruct r; [subst|]; eauto.
Qed.

Lemma edits_left : edits (on_line line_left) (fun _ => True).
Proof.
  apply edits_line. intros l r e He. destruct (left_spec l r e He) as (e' & b & Hr & He'). do 2 eexists. split; [done|]. split; [done|].
  destruct (last l); [|subst]; eauto.
Qed.

Lemma edits_right : edits (on_line line_right) (fun _ => True).
Proof.
  apply edits_line. intros l r e He. destruct (right_spec l r e He) as (e' & b & Hr & He'). do 2 eexists. split; [done|]. split; [done|].
  destruct r; [subst|]; eauto.
Qed.

Lemma edits_older : edits older (fun _ => True).
Proof. intros p s Hp. destruct (older_spec p s Hp) as (s' & b & Hr & Hp'). eauto 10. Qed.

Lemma edits_newer : edits newer (fun _ => True).
Proof. intros p s Hp. destruct (newer_spec p s Hp) as (s' & b & Hr & Hp'). eauto 10. Qed.

Lemma good_command_key key : good_unit (command_key (D := D) (PT := PT) from_start_address try_new trampoline initrd reserve stack_base
  mapped_bytes cpu_brand cpu_vendor physical_bits key).
Proof.
  unfold command_key. repeat (case_match; [first [apply good_enter | apply good_edit, edits_backspace | apply good_interrupt
    | apply good_edit, edits_insert | apply good_move, edits_left | apply good_move, edits_right | apply (good_goto false)
    | apply (good_goto true) | apply good_edit, edits_delete | apply good_move, edits_older | apply good_move, edits_newer]|]).
  by apply fine_ret.
Qed.

Lemma good_prompt_round key scrolled : good_unit (prompt_round (D := D) (PT := PT) from_start_address try_new trampoline initrd reserve stack_base
  mapped_bytes cpu_brand cpu_vendor physical_bits key scrolled).
Proof.
  unfold prompt_round. apply fine_get. intros r [_ [p [_ Hl]] _]. apply fine_seq; [by eapply good_shell, fine_report|]. intros _.
  destruct key as [key|]; [|by apply fine_ret].
  do 2 (case_match; [apply fine_seq; [apply good_shell; fine_steps|]; intros _; apply good_redraw_if|]).
  apply fine_seq; [apply good_shell; fine_steps|]. intros _. apply fine_seq; [apply good_redraw_if|]. intros _. apply good_command_key.
Qed.

Lemma good_after_key n name state : editor_ok state -> good_unit (after_key n name state).
Proof. intros Hs. destruct state; [by apply good_mode..|apply good_end_command]. Qed.

Lemma good_editor_round n name state key : editor_ok state -> good_unit (editor_round n name state key).
Proof.
  intros Hs. destruct state as [editor|editor|]; [destruct Hs as [p Hp]; destruct key as [key|]..|]; try by apply fine_ret.
  - eapply fine_bind; [by eapply good_shell, fine_editor_key|]. intros state. apply good_after_key.
  - eapply fine_bind; [by eapply good_shell, fine_confirm_key|]. intros state. apply good_after_key.
Qed.

Abbreviation round := (shell_round (D := D) (PT := PT) from_start_address try_new trampoline initrd reserve stack_base
  mapped_bytes cpu_brand cpu_vendor physical_bits).

Lemma good_round key scrolled : good_unit (round key scrolled).
Proof.
  unfold shell_round. apply fine_get. intros r Hr. destruct (r_mode r) eqn:Hm.
  - apply good_prompt_round.
  - apply fine_seq; [apply good_shell; fine_steps|]. intros _. apply good_end_command.
  - apply good_editor_round. apply rk_mode in Hr. by rewrite Hm in Hr.
  - by apply fine_ret.
Qed.

Lemma start_shell_ok k : kernel_ok kr k -> running_ok (start_shell k).
Proof.
  intros Hk. constructor; [constructor|exists prompt_new; apply prompt_at_new|done]; cbn; [done|..].
  - exists []. split; [by apply Forall_nil|]. split; [done|]. by exists (replicate PATH_CAPACITY 0).
  - done.
  - by repeat constructor.
Qed.

Lemma good_greet : good_unit (greet (D := D) (PT := PT)).
Proof. apply fine_seq; [apply good_shell; fine_steps|]. intros _. apply good_shell. fine_steps. Qed.

End commands.

(** ** The shell among the other tasks *)

Section system.
Context {D : Type} `{FileSystem D Ext2Error.t} `{!Directories D}.
Context {PT : Type} `{Mapper PT} `{DirectMap PT}.
Variable from_start_address : Z -> option Z.
Variable try_new : Z -> option Z.
Variable trampoline idle_entry : Z.
Variable initrd : Mounted.
Variable reserve : nat -> nat -> bool.
Variable stack_base : nat -> Z.
Variable mapped_bytes : Z.
Variable cpu_brand cpu_vendor : option (list Z).
Variable physical_bits : option Z.

Abbreviation round := (shell_round (D := D) (PT := PT) from_start_address try_new trampoline initrd reserve stack_base
  mapped_bytes cpu_brand cpu_vendor physical_bits).

Definition with_kernel (k : Kernel D PT) (r : Running) : Running :=
  mk_running (set_kernel k (r_shell r)) (r_line r) (r_history r) (r_mode r).

(** The shell takes a round, with a key or without; or other tasks and interrupts run. *)
Inductive shell_step : Running (D := D) (PT := PT) -> Running (D := D) (PT := PT) -> Prop :=
| step_round key scrolled r r' : round key scrolled r = (r', Ok tt) -> shell_step r r'
| step_others k r :
    sstep from_start_address try_new trampoline idle_entry (sh_kernel (r_shell r)) k -> shell_step r (with_kernel k r).

Hypothesis try_new_same : forall address v, try_new address = Some v -> v = address.
Hypothesis try_new_low : forall address, 0 <= address < 2 ^ 47 -> try_new address = Some address.
Hypothesis fs_ok : fs_total (D := D).

Lemma shell_step_ok kr r r' : shell_step r r' -> running_ok kr r -> running_ok kr r'.
Proof.
  intros [key scrolled q q' E1|k q Hs] Hr.
  - pose proof (good_round from_start_address try_new trampoline initrd reserve stack_base mapped_bytes cpu_brand cpu_vendor
      physical_bits kr fs_ok key scrolled q Hr) as Hg. rewrite E1 in Hg. apply Hg.
  - destruct Hr as [[Hk Hd Hl Ha] Hp Hm]. constructor; [constructor|done..]; cbn; [|done..]. by eapply sstep_ok.
Qed.

(** C20: No code of the shell itself panics, whatever is typed, whatever the disk and the archive
    hold and whatever other tasks do between its rounds: every round of its loop ends, unless
    a function of the kernel it called panics or does not come back.  In every state the current directory
    is a path of plain names and so is the path of every program that is followed; the
    invariant of the kernel holds. *)
Theorem shell_never_panics disk (m : MemoryManager PT) (k : Kernel D PT) r0 r key scrolled :
  rtc (sstep from_start_address try_new trampoline idle_entry) (boot_kernel disk m) k ->
  greet (start_shell k) = (r0, Ok tt) -> rtc shell_step r0 r ->
  (round key scrolled r).2 <> Panic /\
  kernel_ok (mm_kernel_root m) (sh_kernel (r_shell r)) /\
  (exists path, current_dir (r_shell r) = Ok path /\ is_path path) /\
  length (sh_apps (r_shell r)) = MAX_TASKS /\
  forall app, Some app ∈ sh_apps (r_shell r) ->
    exists path, slice_to (E := Empty_set) (app_path app) (app_path_len app) = Ok path /\ is_path path.
Proof.
  intros Hk%sreachable_ok Hgreet Hsteps; [|done..].
  assert (running_ok (mm_kernel_root m) r0) as Hr0.
  { pose proof (good_greet (mm_kernel_root m) _ (start_shell_ok _ _ Hk)) as Hg. rewrite Hgreet in Hg. apply Hg. }
  assert (running_ok (mm_kernel_root m) r) as Hr.
  { apply (rtc_invariant shell_step (running_ok (mm_kernel_root m))) with r0; [|done..]. intros. by eapply shell_step_ok. }
  pose proof Hr as [Hs _ _]. split_and!.
  - pose proof (good_round from_start_address try_new trampoline initrd reserve stack_base mapped_bytes cpu_brand cpu_vendor
      physical_bits (mm_kernel_root m) fs_ok key scrolled r Hr) as Hg. by destruct (round key scrolled r) as [? []].
  - apply Hs.
  - by eapply fine_current_dir.
  - apply Hs.
  - intros app Happ. destruct (proj1 (Forall_forall _ _) (sk_apps _ _ Hs) _ Happ) as [st Hst].
    destruct (path_at_slice _ _ _ Hst) as [Hsl Hp]. by exists (path_of st).
Qed.

End system.

(** ** An example: a shell on a disk in memory *)

Lemma computed {S E A} (m : Op S E A) s x : (m s).2 = x -> m s = ((m s).1, x).
Proof. intros <-. apply surjective_pairing. Qed.

Definition example_directories : Directories example_disk := {|
  fs_directory_exists path d := (d, Ok (bool_decide (path = [])));
  fs_create_directory path d := (d, Err Ext2Error.UnsupportedFeature);
  fs_remove_file path d := ((delete path d.1, d.2), match d.1 !! path with Some _ => Ok tt | None => Err Ext2Error.NotFound end);
  fs_remove_empty_directory path d := (d, Err Ext2Error.NotFound);
|}.

Definition shell_boot : list call := [Spawn 0x400000 0x3000; RunTasks 0x500000].

(** The kernel when the shell starts; the shell is its running task. *)
Definition shell_kernel : Kernel example_disk ram :=
  foldl (fun k c => (call_exec c k).1) (boot_kernel ({[ [97] := [1; 2; 3] ]}, []) call_manager) shell_boot.

Lemma shell_kernel_reachable : rtc call_sstep (boot_kernel ({[ [97] := [1; 2; 3] ]}, []) call_manager) shell_kernel.
Proof. apply calls_reachable; [|by vm_compute]. unfold shell_boot. repeat constructor. Qed.

Lemma shell_kernel_ok : kernel_ok 0x20C000 shell_kernel.
Proof.
  apply (sreachable_ok (H := call_fs) (H0 := ram_mapper) (H1 := ram_direct_map) example_frame example_try_new 0x1000 0x2000 example_try_new_same
    example_try_new_low call_fs_total _ _ _ shell_kernel_reachable).
Qed.

Abbreviation example_round := (shell_round (D := example_disk) (H := call_fs) (Directories0 := example_directories) (PT := ram)
  (H0 := ram_mapper) (H1 := ram_direct_map) example_frame example_try_new 0x1000 None (fun _ _ => true) (fun _ => 0x700000)
  0x1000000 None None None).
Abbreviation example_shell_step := (shell_step (D := example_disk) (H := call_fs) (Directories0 := example_directories) (PT := ram)
  (H0 := ram_mapper) (H1 := ram_direct_map) example_frame example_try_new 0x1000 0x2000 None (fun _ _ => true) (fun _ => 0x700000)
  0x1000000 None None None).

Definition greeted : Running (D := example_disk) (PT := ram) := (greet (start_shell shell_kernel)).1.

(** Keys that are typed one after another, in rounds that end. *)
Fixpoint typed (keys : list Z) (r : Running (D := example_disk) (PT := ram)) : option Running :=
  match keys with
  | [] => Some r
  | key :: keys => match example_round (Some key) false r with (r, Ok _) => typed keys r | _ => None end
  end.

Lemma typed_steps keys r r' : typed keys r = Some r' -> rtc example_shell_step r r'.
Proof.
  revert r. induction keys as [|key keys IH]; intros r; cbn; [by intros [= <-]|].
  destruct (example_round (Some key) false r) as [r1 [[]|e|]] eqn:E1; try done. intros Ht. eapply rtc_l; [|by apply IH].
  by eapply step_round.
Qed.

(** A file is shown, and a pipeline with a redirection is typed. *)
Definition example_keys : list Z := str "diskcat a" ++ [10] ++ str "run a < a | run a".

Lemma shell_never_panics_witness : exists r,
  typed example_keys greeted = Some r /\ rtc example_shell_step greeted r /\ (example_round (Some 10) false r).2 <> Panic.
Proof.
  destruct (typed example_keys greeted) as [r|] eqn:Ht; [|by vm_compute in Ht].
  exists r. split; [done|]. apply typed_steps in Ht. split; [done|].
  apply (shell_never_panics (H := call_fs) (Directories0 := example_directories) (H0 := ram_mapper) (H1 := ram_direct_map) example_frame
    example_try_new 0x1000 0x2000 None (fun _ _ => true) (fun _ => 0x700000) 0x1000000 None None None example_try_new_same
    example_try_new_low call_fs_total _ _ shell_kernel greeted r (Some 10) false shell_kernel_reachable); [|exact Ht].
  by vm_compute.
Defined.
