(* ===== verification/ShellFds.v ===== *)
(** * The descriptors of the shell

    Redirections and pipes are opened in the shell's own descriptor table, inherited by
    the programs and closed again.  [launch_app] leaves the table as it was, on every path;
    [launch_pipeline] does but for one path, on which it loses a descriptor. *)

From Stdlib Require Import Ascii String.
From S2P Require Import Prelude Ring Input Timer Utf8 Chars LineEdit TextEdit FileSystem Tar Fd FrameAlloc UserRange Paging Scheduler Kernel KernelOk KernelInv KernelProps UserProgram ProgramLoad Syscall SyscallOk SyscallProps ShellParse Shell ShellRun ShellOk ShellProps.

#[local] Open Scope nat_scope.

Section kernel.
Context {D : Type} `{FileSystem D Ext2Error.t}.
Context {PT : Type} `{Mapper PT} `{DirectMap PT}.
Variable from_start_address : Z -> option Z.
Variable try_new : Z -> option Z.
Variable trampoline : Z.

Abbreviation K := (Kernel D PT).

(** The running task, and its descriptors. *)
Definition holds (i : nat) (fds : list (option FileDescriptor)) (k : K) : Prop :=
  current (k_sched k) = Some i /\ exists t, tasks (k_sched k) !! i = Some (Some t) /\ t_fds t = fds.

Lemma holds_sched i fds (k k' : K) : k_sched k' = k_sched k -> holds i fds k -> holds i fds k'.
Proof. unfold holds. by intros ->. Qed.

Lemma holds_current_slot i fds (k : K) : holds i fds k ->
  exists t, current_slot k = (k, Ok (i, t)) /\ tasks (k_sched k) !! i = Some (Some t) /\ t_fds t = fds.
Proof.
  intros [Hc (t & Ht & Hf)]. exists t. split; [|done]. unfold current_slot, mbind, op_bind, get, lift, on_sched. rewrite Hc. cbn [ok_or].
  rewrite (task_mut_Ok _ _ _ Ht). unfold mret, op_ret. by rewrite set_sched_id.
Qed.

Lemma holds_put i fds n d (k k' : K) r : holds i fds k -> put_fd i n d k = (k', r) -> holds i (<[n := d]> fds) k' /\ r = Ok tt.
Proof.
  intros [Hc (t & Ht & Hf)] [= <- <-]. split; [|done]. split; [done|]. exists (with_fds (<[n := d]> (t_fds t)) t). split.
  - cbn. by rewrite list_lookup_alter_eq, Ht.
  - cbn. by rewrite Hf.
Qed.

(** Waking tasks changes no table. *)
Lemma holds_wake i fds (k : K) : holds i fds k -> holds i fds (set_sched (wake_all_blocked (k_sched k)) k).
Proof.
  intros [Hc (t & Ht & Hf)]. split; [done|]. destruct (view_task t_fds (k_sched k) (wake_all_blocked (k_sched k)) i t) as (t' & Ht' & Hg); [|done|].
  - apply view_update_all. intros j u. by case_match.
  - exists t'. split; [done|]. congruence.
Qed.

(** Closing a descriptor, which is there or not. *)
Lemma close_holds i fds fd (k k' : K) r : holds i fds k -> close_current_fd fd k = (k', r) -> r <> Panic -> holds i (<[fd := None]> fds) k'.
Proof.
  intros Hh E1 Hr. pose proof Hh as [Hc (t & Ht & Hf)]. unfold close_current_fd in E1. unfold mbind at 1, op_bind at 1, get at 1 in E1.
  unfold mbind at 1, op_bind at 1, lift at 1 in E1. rewrite Hc in E1. cbn [ok_or] in E1. unfold mbind at 1, op_bind at 1, lift at 1 in E1.
  rewrite Ht in E1. cbn [mjoin option_join ok_or] in E1. unfold mbind at 1, op_bind at 1, lift at 1 in E1. rewrite Hf in E1.
  destruct (mjoin (fds !! fd)) as [d|] eqn:Hd; cbn [ok_or] in E1.
  - unfold mbind at 1, op_bind at 1 in E1. destruct (put_fd i fd None k) as [k1 r1] eqn:E2.
    destruct (holds_put _ _ _ _ _ _ _ Hh E2) as [H1' ->]. unfold mbind, op_bind, on_io in E1.
    destruct (drop_fd d (k_io k1)) as [io [u|e|]]; [|by injection E1 as <- <-..].
    injection E1 as <- <-. apply (holds_wake i _ (set_io io k1)). by apply (holds_sched i _ k1).
  - injection E1 as <- <-. destruct (fds !! fd) as [[d|]|] eqn:Hl; cbn in Hd; [done|by rewrite list_insert_id|].
    rewrite list_insert_ge; [done|]. by apply lookup_ge_None.
Qed.

Lemma guard_holds {A} i (P : flow A -> K -> Prop) fds (body : Op K SchedulerError (flow A)) (k k' : K) r :
  (forall k1 k2 r, k_sched k1 = k_sched k -> body k1 = (k2, r) -> r <> Panic -> match r with Ok a => a <> Switched /\ P a k2 | _ => holds i fds k2 end) ->
  (forall a k1 k2, k_sched k2 = k_sched k1 -> P a k1 -> P a k2) ->
  with_guard body k = (k', r) -> r <> Panic -> match r with Ok a => P a k' | _ => holds i fds k' end.
Proof.
  intros Hbody HP E1 Hr. unfold with_guard in E1. destruct (body (set_interrupts false k)) as [k1 r1] eqn:E2.
  assert (r1 = r) as -> by (destruct r1 as [[]| |]; by injection E1 as _ <-). specialize (Hbody (set_interrupts false k) _ _ eq_refl E2 Hr).
  destruct r as [[a|]|e|]; [|by destruct Hbody| |done]; injection E1 as <-.
  - destruct Hbody as [_ Hp]. eapply HP; [|exact Hp]. by destruct (interrupts_enabled k).
  - eapply holds_sched; [|exact Hbody]. by destruct (interrupts_enabled k).
Qed.

(** Opening a file: the descriptor was free. *)
Definition opened (i : nat) (fds : list (option FileDescriptor)) (f : flow nat) (k : K) : Prop :=
  match f with
  | Returned n => fds !! n = Some None /\ exists d, holds i (<[n := Some d]> fds) k
  | Switched => False
  end.

Lemma install_file_holds i fds n d (k k' : K) r : holds i fds k -> install_file n d k = (k', r) -> r <> Panic ->
  match r with Ok m => m = n /\ opened i fds (Returned n) k' | _ => holds i fds k' end.
Proof.
  intros Hh E1 Hr. destruct (holds_current_slot i fds k Hh) as (t & Hs & Ht & Hf).
  unfold install_file, or_drop, mbind, op_bind in E1. rewrite Hs in E1. unfold lift, expect in E1. rewrite Hf in E1.
  destruct (fds !! n) as [[x|]|] eqn:Hn; cbn [negb is_none] in E1; [| |by injection E1 as _ <-].
  - unfold fail, on_io in E1. destruct (drop_fd d (k_io k)) as [io [u|e|]]; injection E1 as <- <-; (done || by apply (holds_sched i _ k)).
  - destruct (put_fd i n (Some d) k) as [k1 r1] eqn:E2. destruct (holds_put _ _ _ _ _ _ _ Hh E2) as [H1' ->].
    injection E1 as <- <-. split; [done|]. split; [done|]. by exists d.
Qed.

Lemma create_file_holds i fds (create : Op (Io D) unit FileDescriptor) (k k' : K) r :
  holds i fds k -> create_file_for_current create k = (k', r) -> r <> Panic ->
  match r with Ok f => opened i fds f k' | _ => holds i fds k' end.
Proof.
  intros Hh. apply guard_holds.
  - intros k1 k2 r1 Hk E1 Hr1. assert (holds i fds k1) as Hh1 by (by eapply holds_sched).
    destruct (holds_current_slot i fds k1 Hh1) as (t & Hs & Ht & Hf). unfold mbind at 1, op_bind at 1 in E1. rewrite Hs in E1.
    unfold mbind at 1, op_bind at 1, lift at 1 in E1. destruct (find_free_fd (t_fds t)) as [n|]; cbn [ok_or] in E1; [|by injection E1 as <- <-].
    unfold mbind at 1, op_bind at 1, on_fd at 1 in E1. destruct (create (k_io k1)) as [io r2].
    assert (holds i fds (set_io io k1)) as Hh2 by (by apply (holds_sched i _ k1)).
    destruct (map_err _ r2) as [d|e|]; [|by injection E1 as <- <-..].
    unfold mbind, op_bind in E1. destruct (install_file n d (set_io io k1)) as [k3 r3] eqn:E3.
    assert (r3 <> Panic) as Hr3 by (intros ->; by injection E1 as _ <-).
    pose proof (install_file_holds i fds n d _ k3 r3 Hh2 E3 Hr3) as H3.
    destruct r3 as [m|e|]; injection E1 as <- <-; [|done..]. destruct H3 as [-> H3]. by split.
  - intros [n|] k1 k2 Hk; [|done]. intros [Hn [d Hd]]. split; [done|]. exists d. by eapply holds_sched.
Qed.

(** A pipe: two descriptors that were free. *)
Lemma create_pipe_holds i fds (k k' : K) r : holds i fds k -> create_pipe_for_current k = (k', r) -> r <> Panic ->
  match r with
  | Ok (a, b) => a <> b /\ fds !! a = Some None /\ fds !! b = Some None /\ exists d e, holds i (<[b := Some e]> (<[a := Some d]> fds)) k'
  | _ => holds i fds k'
  end.
Proof.
  intros Hh E1 Hr. unfold create_pipe_for_current in E1. unfold mbind at 1, op_bind at 1, on_io at 1 in E1.
  destruct (create_pipe (k_io k)) as [io r1]. assert (holds i fds (set_io io k)) as H1' by (by apply (holds_sched i _ k)).
  destruct r1 as [created|e|]; [|by injection E1 as <- <-..]. unfold mbind at 1, op_bind at 1, lift at 1 in E1.
  destruct created as [[d e]|]; cbn [ok_or] in E1; [|by injection E1 as <- <-].
  assert (forall k2 r2, install_pipe d e (set_io io k) = (k2, r2) -> match r2 with
    | Ok (a, b) => a <> b /\ fds !! a = Some None /\ fds !! b = Some None /\ exists d e, holds i (<[b := Some e]> (<[a := Some d]> fds)) k2
    | _ => holds i fds k2 end) as Hinstall.
  { intros k2 r2 E2. destruct (holds_current_slot i fds _ H1') as (t & Hs & Ht & Hf). unfold install_pipe in E2.
    unfold mbind at 1, op_bind at 1 in E2. rewrite Hs in E2. unfold mbind at 1, op_bind at 1, lift at 1 in E2. rewrite Hf in E2.
    destruct (find_free_fd_pair fds) as [[a b]|] eqn:Hpair; cbn [ok_or] in E2; [|by injection E2 as <- <-].
    apply find_free_fd_pair_Some in Hpair as (Ha & Hb & Hab).
    unfold mbind at 1, op_bind at 1 in E2. destruct (put_fd i a (Some d) _) as [k3 r3] eqn:E3.
    destruct (holds_put _ _ _ _ _ _ _ H1' E3) as [H3 ->]. unfold mbind at 1, op_bind at 1 in E2.
    destruct (put_fd i b (Some e) k3) as [k4 r4] eqn:E4. destruct (holds_put _ _ _ _ _ _ _ H3 E4) as [H4 ->].
    injection E2 as <- <-. split_and!; [done..|eauto]. }
  unfold or_drop in E1. destruct (install_pipe d e (set_io io k)) as [k2 r2] eqn:E2. specialize (Hinstall k2 r2 eq_refl).
  destruct r2 as [[a b]|x|]; [by injection E1 as <- <-| |by injection E1 as _ <-].
  unfold mbind, op_bind, on_io in E1. destruct (drop_fd e (k_io k2)) as [io2 [u|y|]]; cbn in E1.
  - destruct (drop_fd d io2) as [io3 [u'|y'|]]; injection E1 as <- <-; try done; by apply (holds_sched i _ k2).
  - destruct (drop_fd d io2) as [io3 [u'|y'|]]; injection E1 as <- <-; try done; by apply (holds_sched i _ k2).
  - by injection E1 as _ <-.
Qed.

(** A new task takes another slot. *)
Lemma create_user_holds i fds base space context parent mappings closes (k k' : K) space' r :
  holds i fds k -> create_user_task trampoline base context parent mappings closes (k, Some space) = (k', space', r) -> holds i fds k'.
Proof.
  intros Hh E1. unfold create_user_task, mbind, op_bind, lift, get, put in E1.
  unfold on_k at 1, on_sched at 1 in E1. pose proof (check_task_capacity_spec (k_sched k)) as Hc.
  destruct (position is_none (tasks (k_sched k))) as [slot|] eqn:Hpos; destruct Hc as [Ec Hslot];
    rewrite Ec, set_sched_id in E1; [|by injection E1 as <- _ _].
  unfold on_k at 1, on_sched at 1, gets in E1. rewrite set_sched_id in E1.
  destruct (ok_or (checked_add _ _ _) _) as [next|e|]; [|by injection E1 as <- _ _..].
  destruct (create_task_stack base trampoline) as [[[cpu stack] top]|e|]; [|by injection E1 as <- _ _..]. cbn [ok_or] in E1.
  unfold on_k at 1, on_io in E1. destruct (child_fds _ _ _ (k_io k)) as [io [table|e|]];
    [|by injection E1 as <- _ _; apply (holds_sched i _ k)..].
  unfold or_panic, on_k, on_sched in E1. cbn [k_sched set_io] in E1. rewrite Ec in E1. injection E1 as <- _ _.
  destruct Hh as [Hcur (t & Ht & Hf)]. split; [done|]. exists t. split; [|done]. cbn.
  rewrite list_lookup_insert_ne; [done|]. intros ->. apply position_Some in Hpos as (x & Hx & Hn & _).
  rewrite Ht in Hx. by injection Hx as <-.
Qed.

Lemma spawn_holds i fds base p mappings closes (k k' : K) r : holds i fds k ->
  spawn_with_fd_mappings_and_closes try_new trampoline base p mappings closes k = (k', r) -> holds i fds k'.
Proof.
  intros Hh E1. unfold spawn_with_fd_mappings_and_closes, map_error, spawn_user_with_arguments_and_fds in E1.
  set (op := match for_address_space_with_arguments _ _ _ _ _ with Ok _ => _ | Err _ => _ | Panic => _ end) in E1.
  assert (forall k1 sp1 r1, op (k, Some (lp_address_space p)) = (k1, sp1, r1) -> holds i fds k1) as Hop.
  { intros k1 sp1 r1 E2. subst op. destruct (for_address_space_with_arguments _ _ _ _ _); [|by injection E2 as <- _ _..].
    unfold try_create_user, mbind, op_bind, get in E2. destruct (slot_reserved (k_sched k)); [by injection E2 as <- _ _|].
    by eapply create_user_holds. }
  unfold or_destroy in E1. match type of E1 with context [op ?ks] => destruct (op ks) as [[k1 sp1] r1] eqn:E2 end.
  specialize (Hop k1 sp1 r1 E2). destruct r1 as [id|e|]; [by injection E1 as <- _| |by injection E1 as <- _].
  unfold mbind, op_bind, destroy_unspawned_address_space in E1. destruct sp1 as [sp|]; [|by injection E1 as <- _].
  destruct (destroy try_new _ _) as [[mem ?] r2]. destruct (map_err _ r2); injection E1 as <- _; by apply (holds_sched i _ k1).
Qed.

Lemma in_memory_sched (op : Z -> Op (@Paging.Memory PT) ProgramError.t LoadedProgram) (k k' : K) r : in_memory op k = (k', r) -> k_sched k' = k_sched k.
Proof. unfold in_memory. destruct (op _ _). by intros [= <- _]. Qed.

Lemma load_ext2_sched reserve path arguments (k k' : K) r :
  load_from_ext2_with_arguments from_start_address try_new reserve path arguments k = (k', r) -> k_sched k' = k_sched k.
Proof.
  intros E1. unfold load_from_ext2_with_arguments, mbind at 1, op_bind at 1, lift at 1 in E1.
  destruct (if ends_with DOT_BIN path then _ else _) as [n|e|]; [|by injection E1 as <- _..].
  unfold mbind at 1, op_bind at 1, on_io, on_disk in E1. destruct (fs_read_file_vec _ _ _) as [d res].
  destruct (map_err ext2_error res) as [found|e|]; [|by injection E1 as <- _..].
  unfold mbind at 1, op_bind at 1, lift at 1 in E1. destruct (ok_or found _) as [image|e|]; [|by injection E1 as <- _..].
  by apply in_memory_sched in E1.
Qed.
End kernel.

(** ** Tables that differ where one was free *)

Definition apart (X : list nat) (fds fds' : list (option FileDescriptor)) : Prop :=
  length fds' = length fds /\ (forall j, j ∈ X -> fds !! j = Some None) /\ (forall j, j ∉ X -> fds' !! j = fds !! j).

Lemma apart_refl fds : apart [] fds fds.
Proof. split_and!; [done| |done]. intros j Hj. by apply elem_of_nil in Hj. Qed.

Lemma apart_nil fds fds' : apart [] fds fds' -> fds' = fds.
Proof. intros (_ & _ & Heq). apply list_eq. intros j. apply Heq. by apply not_elem_of_nil. Qed.

Lemma apart_equiv X Y fds fds' : (forall j, j ∈ X <-> j ∈ Y) -> apart X fds fds' -> apart Y fds fds'.
Proof. intros HXY (Hl & Hf & Heq). split_and!; [done|intros j Hj; by apply Hf, HXY|]. intros j Hj. apply Heq. by rewrite HXY. Qed.

Lemma apart_open X fds fds' n d : apart X fds fds' -> fds' !! n = Some None -> apart (n :: X) fds (<[n := d]> fds').
Proof.
  intros (Hl & Hf & Heq) Hn. split_and!; [by rewrite length_insert| |].
  - intros j [->|Hj]%elem_of_cons; [|by apply Hf]. destruct (decide (n ∈ X)) as [Hx|Hx]; [by apply Hf|]. by rewrite <-Heq.
  - intros j [Hne Hj]%not_elem_of_cons. rewrite list_lookup_insert_ne by done. by apply Heq.
Qed.

Lemma apart_close X fds fds' n : apart (n :: X) fds fds' -> apart X fds (<[n := None]> fds').
Proof.
  intros (Hl & Hf & Heq). assert (fds !! n = Some None) as Hn by (apply Hf, elem_of_cons; by left).
  split_and!; [by rewrite length_insert|intros j Hj; apply Hf, elem_of_cons; by right|].
  intros j Hj. destruct (decide (j = n)) as [->|Hne].
  - rewrite list_lookup_insert_eq; [done|]. rewrite Hl. by eapply lookup_lt_Some.
  - rewrite list_lookup_insert_ne by done. apply Heq. by apply not_elem_of_cons.
Qed.

(** ** Launching *)

Section shell.
Context {D : Type} `{FileSystem D Ext2Error.t} `{!Directories D}.
Context {PT : Type} `{Mapper PT} `{DirectMap PT}.
Variable from_start_address : Z -> option Z.
Variable try_new : Z -> option Z.
Variable trampoline : Z.
Variable initrd : Mounted.
Variable reserve : nat -> nat -> bool.
Variable stack_base : nat -> Z.
Variable i : nat.

Abbreviation Sh := (Shell D PT).
Abbreviation Cmd := (Op Sh Stopped).

(** The command takes the table to one that is as described, when it ends. *)
Definition leaves {A} (fds : list (option FileDescriptor)) (m : Cmd A) (Q : A -> list (option FileDescriptor) -> Prop) : Prop :=
  forall s s' a, holds i fds (sh_kernel s) -> m s = (s', Ok a) -> exists fds', holds i fds' (sh_kernel s') /\ Q a fds'.

Abbreviation same fds m := (leaves fds m (fun _ fds' => fds' = fds%list)).

Lemma tables_bind {A B} fds (m : Cmd A) (f : A -> Cmd B) P Q :
  leaves fds m P -> (forall a fds', P a fds' -> leaves fds' (f a) Q) -> leaves fds (m ≫= f) Q.
Proof.
  intros Hm Hf s s' b Hs E1. unfold mbind, op_bind in E1. destruct (m s) as [s1 [a|e|]] eqn:E2; [|done..].
  destruct (Hm s s1 a Hs E2) as (fds1 & H1' & HP). by eapply Hf.
Qed.

Lemma tables_weaken {A} fds (m : Cmd A) P Q : leaves fds m P -> (forall a fds', P a fds' -> Q a fds') -> leaves fds m Q.
Proof. intros Hm HPQ s s' a Hs E1. destruct (Hm s s' a Hs E1) as (fds' & Hh & HP). exists fds'. auto. Qed.

Lemma tables_then {A B} fds (m : Cmd A) (f : A -> Cmd B) Q :
  same fds m -> (forall a, leaves fds (f a) Q) -> leaves fds (m ≫= f) Q.
Proof. intros Hm Hf. eapply tables_bind; [exact Hm|]. intros a fds' ->. apply Hf. Qed.

(** A command that leaves the table of tasks alone. *)
Lemma tables_idle {A} fds (m : Cmd A) : (forall s, k_sched (sh_kernel (m s).1) = k_sched (sh_kernel s)) -> same fds m.
Proof.
  intros Hm s s' a Hs E1. exists fds. split; [|done]. specialize (Hm s). rewrite E1 in Hm. by eapply holds_sched.
Qed.

Lemma same_ret {A} fds (a : A) Q : Q a fds -> leaves fds (mret (M := Op Sh Stopped) a) Q.
Proof. intros HQ s s' b Hs [= <- <-]. by exists fds. Qed.

Lemma same_print fds text : same fds (println (D := D) (PT := PT) text).
Proof. by apply tables_idle. Qed.

Lemma same_print_error fds text e : same fds (println_error (D := D) (PT := PT) text e).
Proof. by apply tables_idle. Qed.

Lemma same_pure {A} fds (r : outcome Empty_set A) : same fds (pure (D := D) (PT := PT) r).
Proof. apply tables_idle. by intros s. Qed.

Lemma same_track fds slot app : same fds (track (D := D) (PT := PT) slot app).
Proof. apply tables_idle. intros s. unfold track, mbind, op_bind, get, pure, lift. by destruct (set_index _ _ _). Qed.

Lemma tables_attempt {E A} fds (op : Op (Kernel D PT) E A) Q :
  (forall k k' r, holds i fds k -> op k = (k', r) -> r <> Panic -> exists fds', holds i fds' k' /\
     match r with Ok a => Q (inl a) fds' | Err e => Q (inr e) fds' | Panic => True end) ->
  leaves fds (attempt op) Q.
Proof.
  intros Hop s s' a Hs E1. unfold attempt in E1. destruct (op (sh_kernel s)) as [k r] eqn:E2.
  destruct r as [b|e|]; injection E1 as <- Ha; try done; subst a; destruct (Hop _ _ _ Hs E2 ltac:(done)) as (fds' & ? & ?); by exists fds'.
Qed.

Lemma tables_close fds fd : leaves fds (close_fd (D := D) (PT := PT) fd) (fun _ fds' => fds' = <[fd := None]> fds).
Proof.
  eapply tables_bind; [apply (tables_attempt _ _ (fun _ fds' => fds' = <[fd := None]> fds))|intros a fds' ->; by apply same_ret].
  intros k k' r Hk E1 Hr. exists (<[fd := None]> fds). split; [by eapply close_holds|]. by destruct r.
Qed.

Lemma same_launch fds use_ext2 side path arguments mappings closes :
  same fds (attempt (load_and_spawn from_start_address try_new trampoline initrd reserve stack_base use_ext2 side path arguments mappings closes)).
Proof.
  apply tables_attempt. intros k k' r Hk E1 Hr. exists fds. split; [|by destruct r].
  unfold load_and_spawn, mbind, op_bind in E1. destruct (load_program _ _ _ _ _ _ _ _ k) as [k1 r1] eqn:E2.
  assert (holds i fds k1) as H1'.
  { eapply holds_sched; [|exact Hk]. unfold load_program in E2. destruct use_ext2; [by eapply load_ext2_sched|by eapply in_memory_sched]. }
  destruct r1 as [p|e|]; [by eapply spawn_holds|by injection E1 as <- _..].
Qed.

(** A file that is opened has a descriptor that was free. *)
Definition opened_fd (fds : list (option FileDescriptor)) (fd : option nat) (fds' : list (option FileDescriptor)) : Prop :=
  match fd with
  | Some n => fds !! n = Some None /\ exists d, fds' = <[n := Some d]> fds
  | None => fds' = fds
  end.

Lemma tables_open fds dir path (create : list Z -> Op (Kernel D PT) SchedulerError (flow nat)) :
  (forall p, exists op, create p = create_file_for_current op) ->
  leaves fds (open_path dir path create) (fun fd fds' => opened_fd fds fd fds' /\ (path = None -> fd = None)).
Proof.
  intros Hc. unfold open_path. destruct (path ≫= from_utf8) as [p|] eqn:Hp; [|by apply same_ret].
  assert (path <> None) as Hpath by (by intros ->).
  apply tables_then; [apply same_pure|]. intros [[[array n] q]|]; [|by apply same_ret].
  destruct (from_utf8 q) as [q'|]; [|by apply same_ret]. destruct (Hc q') as [op ->].
  eapply (tables_bind _ _ _ (fun f fds' => match f with Some f => exists n, f = Returned n /\ opened_fd fds (Some n) fds' | None => fds' = fds end)).
  - eapply (tables_bind _ _ _ (fun f fds' => match f with inl f => exists n, f = Returned n /\ opened_fd fds (Some n) fds' | inr _ => fds' = fds end)).
    + apply tables_attempt. intros k k' r Hk E1 Hr. pose proof (create_file_holds i fds op k k' r Hk E1 Hr) as Ho.
      destruct r as [[m|]|e|]; [|done| |done]; [|by exists fds]. destruct Ho as [Hm [d Hd]]. eexists. split; [exact Hd|]. exists m. split; [done|].
      split; [done|]. by exists d.
    + intros [f|e] fds' Hf; by apply same_ret.
  - intros [f|] fds' Hf; [|by apply same_ret]. destruct Hf as (m & -> & Hm). apply same_ret. by split.
Qed.

Lemma opened_apart X base fds fd fds' : apart X base fds -> opened_fd fds fd fds' -> apart (option_list fd ++ X) base fds'.
Proof. intros Ha. destruct fd as [n|]; [intros [Hn [d ->]]; by apply apart_open|by intros ->]. Qed.

(** Closing what was opened. *)
Lemma tables_close_apart X base fds n : apart (n :: X) base fds -> leaves fds (close_fd (D := D) (PT := PT) n) (fun _ => apart X base).
Proof.
  intros Ha s s' a Hs E1. destruct (tables_close fds n s s' a Hs E1) as (fds' & Hh & ->). eexists. split; [exact Hh|]. by apply apart_close.
Qed.

Lemma tables_close_opened X base fds fd : apart (option_list fd ++ X) base fds ->
  leaves fds (close_opened (D := D) (PT := PT) fd) (fun _ => apart X base).
Proof. intros Ha. destruct fd as [n|]; [by apply tables_close_apart|by apply same_ret]. Qed.

Lemma tables_close_all X base fds closes : apart (closes ++ X) base fds ->
  leaves fds (for_op closes (close_fd (D := D) (PT := PT))) (fun _ => apart X base).
Proof.
  revert fds. induction closes as [|n closes IH]; intros fds Ha; [by apply same_ret|].
  eapply tables_bind; [by apply tables_close_apart|]. intros u fds' Ha'. by apply IH.
Qed.

Lemma same_launch_redirected fds dir use_ext2 path arguments input output :
  same fds (launch_redirected from_start_address try_new trampoline initrd reserve stack_base dir use_ext2 path arguments input output).
Proof.
  unfold launch_redirected. eapply tables_bind; [apply tables_open; by eexists|]. intros input_fd fds1 [H1' _].
  pose proof (opened_apart [] fds fds input_fd fds1 (apart_refl fds) H1') as A1. rewrite (right_id_L [] (++)) in A1.
  destruct (negb (is_none input) && is_none input_fd) eqn:Hin.
  { destruct input_fd; [by rewrite andb_false_r in Hin|]. cbn in A1. apply apart_nil in A1 as ->.
    apply tables_then; [apply same_print|]. intros _. by apply same_ret. }
  eapply tables_bind; [apply tables_open; by eexists|]. intros output_fd fds2 [H2' _].
  pose proof (opened_apart _ fds fds1 output_fd fds2 A1 H2') as A2.
  destruct (negb (is_none output) && is_none output_fd) eqn:Hout.
  { destruct output_fd; [by rewrite andb_false_r in Hout|]. cbn in A2.
    eapply tables_bind; [apply (tables_close_opened [] fds); by rewrite (right_id_L [] (++))|]. intros u fds3 ->%apart_nil.
    apply tables_then; [apply same_print|]. intros _. by apply same_ret. }
  eapply tables_bind; [apply same_launch|]. intros launched fds3 ->.
  eapply tables_bind; [apply (tables_close_all [] fds)|].
  - rewrite (right_id_L [] (++)). eapply apart_equiv; [|exact A2]. intros j. rewrite !elem_of_app. tauto.
  - intros u fds3 ->%apart_nil. by apply same_ret.
Qed.

Lemma same_launch_app fds command dir use_ext2 :
  same fds (launch_app from_start_address try_new trampoline initrd reserve stack_base command dir use_ext2).
Proof.
  unfold launch_app. apply tables_then; [by apply tables_idle|]. intros s0. destruct (free_app_slot _) as [slot|]; [|apply same_print].
  apply tables_then; [apply same_pure|]. intros [[[command' input] output] valid]. destruct (negb valid); [apply same_print|].
  destruct (split_first_word command') as [path raw]. destruct (negb _); [apply same_print|].
  apply tables_then; [apply same_pure|]. intros [[[array n] path']|]; [|apply same_print]. destruct (negb _); [apply same_print|].
  apply tables_then; [apply same_pure|]. intros [[arguments|]|]; [|apply same_print..].
  apply tables_then.
  - destruct (_ || _); [apply same_launch_redirected|]. rewrite launch_plain_spawn.
    apply tables_then; [apply same_launch|]. intros r. by apply same_ret.
  - intros [[task|e]|]; [|apply same_print_error|by apply same_ret].
    apply tables_then; [apply same_pure|]. intros display. apply tables_then; [apply same_track|]. intros _. apply same_print.
Qed.

Lemma same_spawn_side fds dir spec use_ext2 side mappings closes :
  same fds (spawn_side from_start_address try_new trampoline initrd reserve stack_base dir spec use_ext2 side mappings closes).
Proof.
  unfold spawn_side. destruct (split_first_word spec) as [path raw]. destruct (negb _); [by apply same_ret|].
  apply tables_then; [apply same_pure|]. intros [[[array n] path']|]; [|by apply same_ret]. destruct (negb _); [by apply same_ret|].
  apply tables_then; [apply same_pure|]. intros [[arguments|]|]; [|by apply same_ret..].
  apply tables_then; [|intros task; by apply same_ret]. apply tables_then; [apply same_launch|]. intros r. by apply same_ret.
Qed.

Lemma same_track_pipeline fds a b first second : same fds (track_pipeline (D := D) (PT := PT) a b first second).
Proof.
  unfold track_pipeline. destruct first as [[[t1 a1] n1]|]; [|apply same_print]. destruct second as [[[t2 a2] n2]|]; [|apply same_print].
  apply tables_then; [apply same_track|]. intros _. apply tables_then; [apply same_track|]. intros _. apply same_print.
Qed.

(** The pipe is closed on every path. *)
Lemma close_pipe_after fds fds' X rd wr (m : Cmd unit) : (forall fds, same fds m) -> apart (X ++ [wr; rd]) fds fds' ->
  leaves fds' (_ ← m; _ ← close_fd rd; close_fd (D := D) (PT := PT) wr) (fun _ => apart X fds).
Proof.
  intros Hm Ha. apply tables_then; [apply Hm|]. intros _. eapply tables_bind.
  - apply (tables_close_apart (wr :: X) fds). eapply apart_equiv; [|exact Ha]. intros j. rewrite ?elem_of_app, ?elem_of_cons, ?elem_of_app, ?elem_of_nil. tauto.
  - intros u fds2 H2'. by apply tables_close_apart.
Qed.

(** The pipe, as it is opened. *)
Lemma tables_pipe fds : leaves fds (attempt create_pipe_for_current) (fun pipe fds' => match pipe with
  | inl (rd, wr) => apart [wr; rd] fds fds' /\ (exists d, fds' !! rd = Some (Some d)) /\ exists e, fds' !! wr = Some (Some e)
  | inr _ => fds' = fds
  end).
Proof.
  apply tables_attempt. intros k k' r Hk E1 Hr. pose proof (create_pipe_holds i fds k k' r Hk E1 Hr) as Hp.
  destruct r as [[rd wr]|e|]; [|by exists fds|done]. destruct Hp as (Hne & Hrd & Hwr & d & e & Hh). eexists. split; [exact Hh|]. split_and!.
  - apply apart_open; [by apply apart_open; [apply apart_refl|]|]. by rewrite list_lookup_insert_ne.
  - exists d. rewrite list_lookup_insert_ne by done. apply list_lookup_insert_eq. by eapply lookup_lt_Some.
  - exists e. apply list_lookup_insert_eq. rewrite length_insert. by eapply lookup_lt_Some.
Qed.

(** What a pipeline leaves open: nothing, or the input when the output cannot be opened. *)
Lemma tables_pipeline fds dir left_spec right_spec le re input output a b :
  leaves fds (start_pipeline from_start_address try_new trampoline initrd reserve stack_base dir left_spec right_spec le re input output a b)
    (fun _ fds' => exists X, apart X fds fds' /\ (input = None \/ output = None -> X = [])).
Proof.
  unfold start_pipeline. eapply tables_bind; [apply tables_pipe|].
  intros [[rd wr]|e] fds1 H1'.
  2: { subst. intros s s' x Hs E1. destruct (same_print_error _ _ _ s s' x Hs E1) as (? & Hh & ->). exists fds. split; [done|]. exists []. split; [apply apart_refl|done]. }
  destruct H1' as [H1' _].
  eapply tables_bind; [apply tables_open; by eexists|]. intros input_fd fds2 [H2' Hin]. pose proof (opened_apart _ fds fds1 input_fd fds2 H1' H2') as A2.
  destruct (negb (is_none input) && is_none input_fd) eqn:Htest.
  { destruct input_fd; [by rewrite andb_false_r in Htest|]. eapply tables_weaken; [apply (close_pipe_after fds fds2 []); [intros; apply same_print|done]|].
    intros u fds' Ha. by exists []. }
  eapply tables_bind; [apply tables_open; by eexists|]. intros output_fd fds3 [H3' Hout]. pose proof (opened_apart _ fds fds2 output_fd fds3 A2 H3') as A3.
  destruct (negb (is_none output) && is_none output_fd) eqn:Htest2.
  { destruct output_fd; [by rewrite andb_false_r in Htest2|]. eapply tables_weaken; [apply (close_pipe_after fds fds3); [intros; apply same_print|exact A3]|].
    intros u fds' Ha. exists (option_list input_fd). split; [done|]. intros [->| ->]; [by rewrite Hin|done]. }
  apply tables_then; [apply same_spawn_side|]. intros first. apply tables_then; [apply same_spawn_side|]. intros second.
  eapply tables_bind; [apply (tables_close_apart (wr :: option_list output_fd ++ option_list input_fd) fds)|].
  { eapply apart_equiv; [|exact A3]. intros j. rewrite ?elem_of_app, ?elem_of_cons, ?elem_of_app, ?elem_of_nil. tauto. }
  intros u fds4 H4. eapply tables_bind; [exact (tables_close_apart _ _ _ _ H4)|]. intros ? fds5 H5.
  eapply tables_bind; [exact (tables_close_opened _ _ _ _ H5)|]. intros ? fds6 H6.
  eapply tables_bind; [apply (tables_close_opened [] fds); by rewrite (right_id_L [] (++))|]. intros ? fds7 H7.
  eapply tables_weaken; [apply same_track_pipeline|]. intros ? fds' ->. by exists [].
Qed.

(** A command that is fine and keeps the table. *)
Lemma fine_same {A} kr fds (m : Cmd A) Q s : fine (shell_ok kr) m Q -> same fds m -> shell_ok kr s -> holds i fds (sh_kernel s) ->
  match m s with
  | (s', Ok _) => shell_ok kr s' /\ holds i fds (sh_kernel s')
  | (_, Err InCall) => True
  | (_, Panic) => False
  end.
Proof.
  intros Hf Hm Hs Hh. specialize (Hf s Hs). specialize (Hm s). destruct (m s) as [s' [a|[]|]]; [|done..].
  destruct (Hm s' a Hh eq_refl) as (fds' & Hh' & ->). split; [apply Hf|done].
Qed.

Lemma same_pipeline fds dir left_spec right_spec le re input output a b : input = None \/ output = None ->
  same fds (start_pipeline from_start_address try_new trampoline initrd reserve stack_base dir left_spec right_spec le re input output a b).
Proof.
  intros Hnone. eapply tables_weaken; [apply tables_pipeline|]. intros u fds' (X & Ha & HX). rewrite (HX Hnone) in Ha. by apply apart_nil.
Qed.

(** C21: Starting programs leaves the descriptors of the shell as they were, whatever files the
    command names, whether they can be opened or not and whether the program starts or not:
    [launch_app] with any redirections closes what it opened, and so does a pipeline that is
    redirected on at most one side.  Neither panics, unless a function of the kernel that
    it calls does, or does not come back. *)
Theorem launch_keeps_descriptors kr fds (s : Sh) command dir use_ext2 left_spec right_spec le re input output a b :
  shell_ok kr s -> holds i fds (sh_kernel s) -> is_path dir -> a < MAX_TASKS -> b < MAX_TASKS -> input = None \/ output = None ->
  match launch_app from_start_address try_new trampoline initrd reserve stack_base command dir use_ext2 s with
  | (s', Ok _) => shell_ok kr s' /\ holds i fds (sh_kernel s')
  | (_, Err InCall) => True
  | (_, Panic) => False
  end /\
  match start_pipeline from_start_address try_new trampoline initrd reserve stack_base dir left_spec right_spec le re input output a b s with
  | (s', Ok _) => shell_ok kr s' /\ holds i fds (sh_kernel s')
  | (_, Err InCall) => True
  | (_, Panic) => False
  end.
Proof.
  intros Hs Hh Hd Ha Hb Hnone. split.
  - eapply fine_same; [by apply fine_launch_app|apply same_launch_app|done..].
  - eapply fine_same; [by apply fine_start_pipeline|by apply same_pipeline|done..].
Qed.

Lemma apart_one fds fds' n d : apart [n] fds fds' -> fds' !! n = Some d -> fds' = <[n := d]> fds.
Proof.
  intros (Hl & _ & Heq) Hn. apply list_eq. intros j. destruct (decide (j = n)) as [->|Hne].
  - rewrite list_lookup_insert_eq; [done|]. rewrite <- Hl. by eapply lookup_lt_Some.
  - rewrite list_lookup_insert_ne by done. apply Heq. by rewrite list_elem_of_singleton.
Qed.

(** Closing the pipe leaves any other descriptor. *)
Lemma close_pipe_keeps fds rd wr n d : n <> rd -> n <> wr -> fds !! n = Some d ->
  leaves fds (_ ← close_fd rd; close_fd (D := D) (PT := PT) wr) (fun _ fds' => fds' !! n = Some d).
Proof.
  intros Hrd Hwr Hn. eapply tables_bind; [apply tables_close|]. intros u fds1 ->.
  eapply tables_weaken; [apply tables_close|]. intros u' fds' ->. by rewrite !list_lookup_insert_ne.
Qed.

Lemma tables_both {A} fds (m : Cmd A) P Q : leaves fds m P -> leaves fds m Q -> leaves fds m (fun a fds' => P a fds' /\ Q a fds').
Proof.
  intros HP HQ s s' a Hs E1. destruct (HP s s' a Hs E1) as (fds1 & H1' & P1). destruct (HQ s s' a Hs E1) as (fds2 & H2' & Q2).
  exists fds1. split; [done|]. split; [done|]. replace fds1 with fds2; [done|].
  destruct H1' as (? & t1 & ? & ?), H2' as (? & t2 & ? & ?). congruence.
Qed.

(** A file whose name is no path is not opened. *)
Lemma open_refused dir path create (s : Sh) : (forall q, from_utf8 path = Some q -> resolved_path dir q = Ok None) ->
  open_path dir (Some path) create s = (s, Ok None).
Proof.
  intros Hno. unfold open_path. cbn. destruct (from_utf8 path) as [q|]; [|done].
  unfold mbind, op_bind, pure, lift. by rewrite (Hno q eq_refl).
Qed.

End shell.

(** ** The example shell *)

Definition example_shell : Shell example_disk ram := r_shell greeted.

(** Standard input, output and error, and nothing else. *)
Definition example_fds : list (option FileDescriptor) := initial_table.

#[local] Existing Instances call_fs example_directories ram_mapper ram_direct_map.

(** [holds], decided. *)
Definition holds_check (i : nat) (fds : list (option FileDescriptor)) (k : Kernel example_disk ram) : bool :=
  bool_decide (current (k_sched k) = Some i) &&
  match tasks (k_sched k) !! i with Some (Some t) => bool_decide (t_fds t = fds) | _ => false end.

Lemma holds_checked i fds k : holds_check i fds k = true -> holds i fds k.
Proof.
  unfold holds_check, holds. destruct (tasks (k_sched k) !! i) as [[t|]|]; rewrite ?andb_false_r; try done.
  intros [Hc Hf]%andb_true_iff. apply bool_decide_eq_true in Hc, Hf. split; [done|]. by exists t.
Qed.

Lemma example_holds : holds 0 example_fds (sh_kernel example_shell).
Proof. apply holds_checked. by vm_compute. Qed.

Lemma greeted_ok : (greet (start_shell shell_kernel)).2 = Ok tt.
Proof. by vm_compute. Qed.

Lemma example_shell_ok : shell_ok 0x20C000 example_shell.
Proof.
  pose proof (good_greet 0x20C000 _ (start_shell_ok _ _ shell_kernel_ok)) as Hg. unfold example_shell, greeted. pose proof greeted_ok as Hok.
  revert Hg Hok. generalize (greet (start_shell shell_kernel)). intros [r x] Hg Hok. cbn in Hok. subst x. apply Hg.
Qed.

Lemma example_path : is_path [].
Proof. exists []. split; [apply Forall_nil; done|]. split; [done|]. cbn. lia. Qed.

Abbreviation example_launch := (launch_app (H := call_fs) (H0 := ram_mapper) (H1 := ram_direct_map) example_frame example_try_new 0x1000
  None (fun _ _ => true) (fun _ => 0x700000%Z) (str "a < a > a*") [] false).

(** [run a < a > a*]: the input has been opened when the output is refused. *)
Lemma launch_keeps_descriptors_witness :
  match example_launch example_shell with
  | (s', Ok _) => shell_ok 0x20C000 s' /\ holds 0 example_fds (sh_kernel s')
  | _ => False
  end.
Proof.
  assert (0 < MAX_TASKS /\ 1 < MAX_TASKS) as [Ha Hb] by (split; vm_compute; lia).
  assert ((example_launch example_shell).2 = Ok tt) as Hok by (by vm_compute).
  destruct (launch_keeps_descriptors (H := call_fs) (H0 := ram_mapper) (H1 := ram_direct_map) example_frame example_try_new 0x1000 None
    (fun _ _ => true) (fun _ => 0x700000%Z) 0 0x20C000 example_fds example_shell (str "a < a > a*") [] false
    (str "a") (str "a") false false None None 0 1 example_shell_ok example_holds example_path Ha Hb (or_introl eq_refl)) as [Hl _].
  revert Hl Hok. generalize (example_launch example_shell). intros [s' r] Hl Hok. cbn in Hok. subst r. exact Hl.
Defined.

Abbreviation example_pipeline := (start_pipeline (H := call_fs) (H0 := ram_mapper) (H1 := ram_direct_map) example_frame example_try_new
  0x1000 None (fun _ _ => true) (fun _ => 0x700000%Z) [] (str "a") (str "a") false false (Some (str "a")) (Some (str "a*")) 0 1).

(** The shell with the pipe, and with the input too. *)
Definition piped_shell : Shell example_disk ram := (attempt create_pipe_for_current example_shell).1.
Definition opened_shell : Shell example_disk ram := (open_path [] (Some (str "a")) create_file_read_for_current piped_shell).1.

