(* ===== verification/ShellApps.v ===== *)
(** * The programs the shell follows

    [report_finished_apps] looks at every program it follows: it reports and reaps those
    that have ended and keeps exactly those that have not. *)

From Stdlib Require Import Ascii String.
From S2P Require Import Prelude Ring Input Timer Utf8 Chars LineEdit TextEdit FileSystem Tar Fd FrameAlloc UserRange Paging Scheduler Kernel KernelOk KernelInv KernelProps UserProgram ProgramLoad Syscall SyscallOk SyscallProps ShellParse Shell ShellRun ShellOk ShellProps.

#[local] Open Scope nat_scope.

Section apps.
Context {D : Type} `{FileSystem D Ext2Error.t} `{!Directories D}.
Context {PT : Type} `{Mapper PT} `{DirectMap PT}.
Variable try_new : Z -> option Z.
Variable kr : Z.

Abbreviation K := (Kernel D PT).
Abbreviation Sh := (Shell D PT).

(** A task that has not ended. *)
Definition lives_in (id : Z) (s : Scheduler) : Prop :=
  exists i t, tasks s !! i = Some (Some t) /\ t_id t = id /\ t_state t <> Terminated.
Definition lives (id : Z) (k : K) : Prop := lives_in id (k_sched k).

Lemma lives_update id f i s : (forall t, t_id (f t) = t_id t /\ t_state (f t) = t_state t) ->
  lives_in id (update_task i f s) <-> lives_in id s.
Proof.
  intros Hf. split; intros (j & t & Ht & Hid & Hst).
  - cbn in Ht. destruct (decide (j = i)) as [->|Hne]; [|rewrite list_lookup_alter_ne in Ht by done; by exists j, t].
    rewrite list_lookup_alter_eq in Ht. destruct (tasks s !! i) as [[u|]|] eqn:Hu; try done.
    injection Ht as <-. exists i, u. destruct (Hf u) as [<- <-]. done.
  - destruct (decide (j = i)) as [->|Hne].
    + exists i, (f t). destruct (Hf t) as [-> ->]. split; [|done]. cbn. by rewrite list_lookup_alter_eq, Ht.
    + exists j, t. split; [|done]. cbn. by rewrite list_lookup_alter_ne.
Qed.

Lemma lives_clear id i t s : tasks s !! i = Some (Some t) -> t_state t = Terminated -> lives_in id (clear_slot i s) <-> lives_in id s.
Proof.
  intros Ht Hst. split; intros (j & u & Hu & Hid & Hlive).
  - cbn in Hu. exists j, u. destruct (decide (j = i)) as [->|Hne].
    + rewrite list_lookup_insert_eq in Hu; [done|]. by eapply lookup_lt_Some.
    + by rewrite list_lookup_insert_ne in Hu.
  - exists j, u. split; [|done]. cbn. rewrite list_lookup_insert_ne; [done|]. intros ->. rewrite Ht in Hu. injection Hu as ->. done.
Qed.

(** Reaping a task that has ended touches no other. *)
Lemma reap_lives id id' (k k' : K) r : reap_terminated try_new id' k = (k', r) -> lives id k' <-> lives id k.
Proof.
  intros E1. unfold reap_terminated, mbind at 1, op_bind at 1, get in E1. unfold mbind at 1, op_bind at 1, lift in E1.
  destruct (index_of id' (k_sched k)) as [i|] eqn:Hix; [|by injection E1 as <- _].
  apply index_of_Some in Hix as (t & Hi & _). cbn [ok_or] in E1.
  unfold mbind at 1, op_bind at 1, on_sched at 1, slot_at in E1. unfold mbind at 1, op_bind at 1, get, lift in E1. rewrite Hi in E1.
  cbn [expect] in E1. rewrite set_sched_id in E1. destruct (_ || _) eqn:Hb; [by injection E1 as <- _|]. bools. simpl in *. bools.
  unfold mbind, op_bind, modify_sched, on_sched, on_io, modify in E1. cbn [mbind option_bind] in E1.
  destruct (t_user t) as [u|]; cbn in E1.
  - unfold destroy_task_space in E1. destruct (destroy try_new (k_cr3 k) (k_mem k, address_space u)) as [[mem space] res].
    assert (forall x, t_id (with_address_space space x) = t_id x /\ t_state (with_address_space space x) = t_state x) as Hf
      by (intros []; by unfold with_address_space).
    destruct (map_err _ res); cbn in E1; [|injection E1 as <- _; by apply lives_update..].
    destruct (drop_fds (t_fds t) (k_io k)) as [io r']. injection E1 as <- _. unfold lives. cbn [k_sched set_io set_sched set_mem].
    rewrite (lives_clear id i (with_address_space space t)); [by apply lives_update|cbn; by rewrite list_lookup_alter_eq, Hi|].
    by destruct (Hf t) as [_ ->].
  - destruct (drop_fds (t_fds t) (k_io k)) as [io r']. injection E1 as <- _. by apply (lives_clear id i t).
Qed.

(** What [task_state] says. *)
Lemma task_state_spec (k : K) id : sched_ok (k_sched k) ->
  (exists st, task_state id k = (k, Ok st) /\ (lives id k <-> st <> Terminated)) \/ (task_state id k = (k, Err UnknownTask) /\ ~ lives id k).
Proof.
  intros Hok. unfold task_state, on_sched, task, mbind, op_bind, get, lift.
  destruct (index_of id (k_sched k)) as [i|] eqn:Hix; cbn [ok_or].
  - apply index_of_Some in Hix as (t & Ht & Hid). left. rewrite (task_mut_Ok _ _ _ Ht). exists (t_state t).
    split; [unfold mret, op_ret; by rewrite set_sched_id|]. split; [|by intros Hst; exists i, t].
    intros (j & u & Hu & Hid' & Hst). assert (j = i) as -> by (eapply sok_ids; [done..|congruence]). rewrite Ht in Hu. by injection Hu as ->.
  - right. rewrite set_sched_id. split; [done|]. intros (j & u & Hu & Hid & _). by apply (index_of_None _ _ _ _ Hix Hu).
Qed.

(** ** The loop over the programs *)

(** What the shell follows, and which tasks have not ended. *)
Definition same_apps (s s' : Sh) : Prop := sh_apps s' = sh_apps s /\ forall id, lives id (sh_kernel s') <-> lives id (sh_kernel s).
Definition quiet {A} (m : Op Sh Stopped A) : Prop := forall s, same_apps s (m s).1.

Lemma quiet_bind {A B} (m : Op Sh Stopped A) (f : A -> Op Sh Stopped B) : quiet m -> (forall a, quiet (f a)) -> quiet (m ≫= f).
Proof.
  intros Hm Hf s. unfold mbind, op_bind. destruct (Hm s) as [Ha Hl]. destruct (m s) as [s1 [a|e|]]; cbn in *; [|by split..].
  destruct (Hf a s1) as [Ha' Hl']. split; [by rewrite Ha'|]. intros id. by rewrite Hl'.
Qed.

Lemma quiet_show o : quiet (show o).
Proof. by intros s. Qed.

Lemma quiet_print text : quiet (println text).
Proof. by intros s. Qed.

Lemma quiet_error text e : quiet (println_error text e).
Proof. by intros s. Qed.

Lemma quiet_pure {A} (r : outcome Empty_set A) : quiet (pure r).
Proof. by intros s. Qed.

Lemma quiet_leave finished : quiet (leave_input finished).
Proof. by destruct finished; intros s. Qed.

Lemma quiet_attempt {E A} (op : Op K E A) : (forall id k, lives id (op k).1 <-> lives id k) -> quiet (attempt op).
Proof. intros Hop s. unfold attempt. assert (forall id, lives id (op (sh_kernel s)).1 <-> lives id (sh_kernel s)) as Hs by (intros; apply Hop). destruct (op (sh_kernel s)). by split. Qed.

Lemma exit_code_same id (k : K) : (task_exit_code id k).1 = k.
Proof.
  unfold task_exit_code, on_sched, task, mbind, op_bind, get, lift. destruct (index_of id (k_sched k)) as [j|]; cbn [ok_or]; [|apply set_sched_id].
  unfold task_mut, slot_at, mbind, op_bind, get, lift. destruct (tasks (k_sched k) !! j) as [[t|]|]; apply set_sched_id.
Qed.

Lemma quiet_exit_code id : quiet (attempt (task_exit_code id)).
Proof. apply quiet_attempt. intros id' k. by rewrite exit_code_same. Qed.

Lemma quiet_reap id : quiet (attempt (reap_terminated try_new id)).
Proof. apply quiet_attempt. intros id' k. destruct (reap_terminated try_new id k) as [k' r] eqn:E1. by eapply reap_lives. Qed.

Create HintDb quiet.
Hint Resolve quiet_show quiet_print quiet_error quiet_pure quiet_leave quiet_exit_code quiet_reap : quiet.

(** A command that stops following one program, after others that follow them all. *)
Definition forgets {A} (slot : nat) (m : Op Sh Stopped A) : Prop := forall s s' a, m s = (s', Ok a) ->
  sh_apps s' = <[slot := None]> (sh_apps s) /\ forall id, lives id (sh_kernel s') <-> lives id (sh_kernel s).

Lemma forgets_after {A B} slot (m : Op Sh Stopped A) (f : A -> Op Sh Stopped B) : quiet m -> (forall a, forgets slot (f a)) -> forgets slot (m ≫= f).
Proof.
  intros Hm Hf s s' b E1. unfold mbind, op_bind in E1. destruct (Hm s) as [Ha Hl]. destruct (m s) as [s1 [a|e|]]; [|done..]. cbn in *.
  destruct (Hf a s1 s' b E1) as [Ha' Hl']. split; [by rewrite Ha', Ha|]. intros id. by rewrite Hl'.
Qed.

Lemma forgets_forget slot : forgets slot (forget_app slot).
Proof. by intros s s' a [= <- <-]. Qed.

Lemma forgets_ended slot app finished : forgets slot (report_ended try_new slot app finished).
Proof.
  unfold report_ended.
  repeat (apply forgets_after; [try (repeat case_match; eauto with quiet); by intros ?|intros ?]). apply forgets_forget.
Qed.

(** What becomes of the programs when the slots are visited. *)
Definition reported (slots : list nat) (s s' : Sh) : Prop :=
  (forall n app, sh_apps s' !! n = Some (Some app) <->
     sh_apps s !! n = Some (Some app) /\ (n ∈ slots -> lives (app_task app) (sh_kernel s))) /\
  (forall id, lives id (sh_kernel s') <-> lives id (sh_kernel s)).

Lemma reported_skip n s : (forall app, sh_apps s !! n = Some (Some app) -> lives (app_task app) (sh_kernel s)) -> reported [n] s s.
Proof.
  intros Hn. split; [|done]. intros m app. split; [|by intros []]. intros Hm. split; [done|].
  intros ->%list_elem_of_singleton. by apply Hn.
Qed.

Lemma reported_forget n app s s' : sh_apps s !! n = Some (Some app) -> ~ lives (app_task app) (sh_kernel s) ->
  sh_apps s' = <[n := None]> (sh_apps s) -> (forall id, lives id (sh_kernel s') <-> lives id (sh_kernel s)) -> reported [n] s s'.
Proof.
  intros Hn Hdead Happs Hl. split; [|done]. intros m b. rewrite Happs, list_elem_of_singleton. destruct (decide (m = n)) as [->|Hne].
  - rewrite list_lookup_insert_eq by (by eapply lookup_lt_Some). rewrite Hn. split; [done|]. intros [[= <-] Hlive]. by destruct Hdead; apply Hlive.
  - rewrite list_lookup_insert_ne by done. tauto.
Qed.

Lemma reported_trans n slots s s1 s' : reported [n] s s1 -> reported slots s1 s' -> reported (n :: slots) s s'.
Proof.
  intros [Ha Hl] [Ha' Hl']. split; [|intros id; by rewrite Hl', Hl].
  intros m app. rewrite Ha', Ha, Hl, !elem_of_cons, elem_of_nil. tauto.
Qed.

Lemma set_kernel_id (s : Sh) : set_kernel (sh_kernel s) s = s.
Proof. by destruct s. Qed.

Lemma report_slot_spec n finished s s' finished' : sched_ok (k_sched (sh_kernel s)) -> report_slot try_new n finished s = (s', Ok finished') ->
  reported [n] s s' /\ ((s' = s /\ finished' = finished) \/ exists app, sh_apps s !! n = Some (Some app) /\ ~ lives (app_task app) (sh_kernel s)).
Proof.
  intros Hok E1. unfold report_slot, mbind at 1, op_bind at 1, get in E1.
  destruct (sh_apps s !! n) as [[app|]|] eqn:Hn;
    [|injection E1 as <- <-; split; [apply reported_skip; congruence|by left]..].
  unfold mbind at 1, op_bind at 1, attempt in E1.
  destruct (task_state_spec _ (app_task app) Hok) as [(st & Hst & Hl)|[Hst Hl]]; rewrite Hst, set_kernel_id in E1; cbn [called] in E1.
  - destruct (decide (st = Terminated)) as [->|Hne].
    + assert (~ lives (app_task app) (sh_kernel s)) as Hdead by tauto. split; [|right; by exists app].
      unfold mbind, op_bind in E1. destruct (report_ended _ _ _ _ s) as [s1 [u|e|]] eqn:E2; [|done..]. injection E1 as <- _.
      destruct (forgets_ended _ _ _ _ _ _ E2) as [Ha Hl']. by eapply reported_forget.
    + assert (s' = s /\ finished' = finished) as [-> ->] by (destruct st; try done; by injection E1 as <- <-).
      split; [|by left]. apply reported_skip. intros b Hb. rewrite Hn in Hb. injection Hb as <-. by apply Hl.
  - split; [|right; by exists app].
    assert (forgets n (_ ← leave_input finished; _ ← println_error (D := D) (PT := PT) (str "Could not monitor app task " ++ number (app_task app) ++ str ": ")%list
      (OfScheduler UnknownTask); _ ← forget_app n; mret true)) as Hf.
    { apply forgets_after; [apply quiet_leave|intros _]. apply forgets_after; [apply quiet_error|intros _]. by intros q q' a [= <- <-]. }
    destruct (Hf _ _ _ E1) as [Ha Hl']. by eapply reported_forget.
Qed.

(** Every slot is visited while the invariant holds. *)
Lemma report_slots_spec slots finished s s' finished' : shell_ok kr s ->
  report_slots try_new slots finished s = (s', Ok finished') ->
  reported slots s s' /\
  ((s' = s /\ finished' = finished) \/ exists n app, sh_apps s !! n = Some (Some app) /\ ~ lives (app_task app) (sh_kernel s)).
Proof.
  revert finished s. induction slots as [|n slots IH]; intros finished s Hs E1.
  - injection E1 as <- <-. split; [|by left]. split; [|done]. intros m app. rewrite elem_of_nil. tauto.
  - cbn in E1. unfold mbind, op_bind in E1. destruct (report_slot try_new n finished s) as [s1 [f1|e|]] eqn:E2; [|done..].
    assert (sched_ok (k_sched (sh_kernel s))) as Hok by apply (sk_kernel _ _ Hs).
    destruct (report_slot_spec _ _ _ _ _ Hok E2) as [H1' Hr1].
    pose proof (fine_report_slot try_new 0 kr n finished s Hs) as Hf. rewrite E2 in Hf. destruct Hf as [Hs1 _].
    destruct (IH _ _ Hs1 E1) as [H2' Hr2]. split; [by eapply reported_trans|].
    destruct Hr1 as [[-> ->]|(app & Happ & Hdead)]; [exact Hr2|]. right. by exists n, app.
Qed.

Lemma quiet_prompt line : quiet (_ ← print_prompt (D := D) (PT := PT); redraw_command_line line).
Proof.
  apply quiet_bind; [|intros _; apply quiet_bind; [apply quiet_pure|intros bytes; apply quiet_show]].
  intros s. unfold print_prompt, mbind, op_bind, get, pure, lift. by destruct (own _).
Qed.

End apps.

(** ** The example shell *)

#[local] Existing Instances call_fs example_directories ram_mapper ram_direct_map.

(** The shell runs and follows two tasks: a program that has been killed, and another task. *)
Definition ended_calls : list call :=
  [Spawn 0x400000 0x3000; Spawn 0x410000 0x3000; RunTasks 0x500000;
   SpawnUser 0x600000 example_program USER_SPACE_START (USER_SPACE_START + 2 * PAGE_SIZE) 0 0 [] []; TerminateTask 4 137].

Definition ended_kernel : Kernel example_disk ram :=
  foldl (fun k c => (call_exec c k).1) (boot_kernel ({[ [97%Z] := [1%Z] ]}, []) call_manager) ended_calls.

Lemma ended_reachable : rtc call_sstep (boot_kernel ({[ [97%Z] := [1%Z] ]}, []) call_manager) ended_kernel.
Proof. apply calls_reachable; [|by vm_compute]. unfold ended_calls. repeat constructor. by eexists. Qed.

Definition follow (id : Z) : option RunningApp := Some (mk_app id (str "a" ++ replicate 254 0%Z) 1).
Definition following_shell : Shell example_disk ram :=
  mk_shell ended_kernel [] (replicate PATH_CAPACITY 0%Z) 0 false ([follow 4; follow 2] ++ replicate (MAX_TASKS - 2) None).

Lemma following_ok : shell_ok 0x20C000 following_shell.
Proof.
  assert (forall id, slot_ok (follow id)) as Hf.
  { intros id. exists [str "a"]. split; [by repeat constructor|]. split; [done|]. exists (replicate 254 0%Z). done. }
  constructor; [|exists []; split_and!; [by apply Forall_nil|done|by exists (replicate PATH_CAPACITY 0%Z)]|done|].
  - apply (sreachable_ok (H := call_fs) (H0 := ram_mapper) (H1 := ram_direct_map) example_frame example_try_new 0x1000 0x2000
      example_try_new_same example_try_new_low call_fs_total _ _ _ ended_reachable).
  - constructor; [apply Hf|]. constructor; [apply Hf|]. by apply Forall_replicate.
Qed.

Abbreviation example_report := (report_finished_apps (D := example_disk) (PT := ram) example_try_new LineEditor_new following_shell).

